(* ===== verification/_CoqProject ===== *)
-Q . S2P
Prelude.v
StateM.v
LibC.v
LibCThm.v
Printf.v
PrintfThm.v
Malloc.v
MallocSpec.v
MallocThm.v
Heap.v
KArray.v
KQueue.v
KBitmap.v
Coremap.v
Kheap.v
KheapInv.v
KState.v
Thread.v
ThreadSpec.v
ThreadHeap.v
Synch.v
SynchMach.v
SynchSpec.v
SynchRun.v
SynchThm.v
ThreadThm.v
Process.v
Owned.v
ProcSpec.v
Fork.v
ForkSpec.v
ProcThm.v
Uio.v
SfsDisk.v
Sfs.v
SfsBytes.v
SfsSpec.v
SfsIo.v
SfsDirs.v
SfsTrunc.v
Mksfs.v
SfsVolume.v
SfsTree.v
SfsNode.v
SfsNodeSpec.v
SfsThm.v
SfsRep.v
SfsLife.v
SfsView.v
SfsSync.v
SfsOps.v
SfsBoot.v
MksfsSpec.v
SfsClient.v
SfsBootThm.v
Vm.v
VmSpec.v
MallocVm.v
Interleave.v
Stoplight.v
StoplightThm.v
Catsem.v
CatsemThm.v
Vfs.v
VfsLaws.v
VfsSpec.v
VfsOps.v
VfsDevs.v
Device.v
SfsHeld.v
VfsSys.v
VfsSysFs.v
VfsThm.v
