(* ===== verification/Prelude.v ===== *)
(** * A verification library for the OS/161 kernel of this repository

    The program is a small Unix-like kernel for a MIPS machine (src/os161/kern) with its user
    programs (src/os161/sbin and others).  This library translates its parts into executable
    definitions and proves what they promise each other.  Paths below are relative to
    src/os161/kern, or to src/os161 where they start with sbin or lib.

    ** The parts and how they meet

    - Containers: resizable arrays, ring-buffer queues and bitmaps (lib/array.c, lib/queue.c,
      lib/bitmap.c).  They take their storage from the kernel heap.
    - Physical memory: the coremap hands out frames (vm/coremap.c, [alloc_kpages] and [getppages] of
      vm/addrspace.c); the kernel heap cuts pages into blocks (lib/kheap.c).
    - Threads: the thread table, the run queue and the context switch (thread/thread.c,
      thread/scheduler.c, arch/mips/mips/pcb.c), the clock (thread/hardclock.c), semaphores, locks
      and condition variables (thread/synch.c).
    - Processes: the process table and fork, _exit, waitpid, getpid (thread/process.c, userprog/sys_*.c).
    - Files: user memory transfer (userprog/uio.c, lib/copyinout.c), the disk driver
      (dev/lamebus/lhd.c), block I/O and the file system SFS (fs/sfs/sfs_io.c, fs/sfs/sfs_vnode.c,
      fs/sfs/sfs_fs.c) with the counts of its vnodes (fs/vfs/vnode.c), and the program that makes
      a volume (sbin/mksfs).
    - Path names: the table of devices, the current directory, the boot file system and the
      operations on paths (fs/vfs/vfs*.c), over the tables of functions of the file systems and of
      the devices (fs/vfs/device.c, fs/vfs/devnull.c).
    - Virtual memory: address spaces, page tables, the page fault handler, the TLB, swapping and
      eviction (vm/*.c), and sbrk (userprog/sys_sbrk.c).
    - The user's C library: memory and strings (lib/libc/mem*.c, str*.c, bzero.c, atoi.c), formatted
      printing (lib/libc/__printf.c, snprintf.c) and the heap (lib/libc/malloc.c), which grows by the
      kernel's sbrk.
    - Two programs of kernel threads over the synchronization primitives: cars at an intersection
      (asst1/stoplight.c) and cats and mice (asst1/catsem.c).

    ** Conventions

    A C integer is a [Z]; arithmetic that can wrap is written with the reduction of its type ([u8],
    [u16], [u32], [s32]).  A routine that can stop returns [res]: [Fault FPanic] is a failed assert
    or a panic, [Fault FUndef] is undefined behaviour of C, [Fault FLoop] is a loop that used up its
    iteration budget.  [wp] (this file), [wps] (StateM) are total: they prove that none of the
    three happens; [wpp] (StateM) allows a panic and nothing else, and [wpf P] allows a panic only
    if [P] is the case, mostly that the heap is short of room.  Stateful code is written in the monad
    [stm S] of StateM.  Pointers are addresses in [Z]; objects live in finite maps from addresses;
    memory that was allocated and not written is undefined to read.  A routine that can sleep stops
    at that point and answers the continuation that waits (type [kwait] of Synch).

    ** The files

    - Prelude: machine integers, faults, loops, arrays, the databases [machine] and [lengths].
      StateM: the state monad, and user programs, which may exit.
    - LibC: memory and string routines, [atoi]; LibCThm: numerals in a base, the theorems.
      Printf: [__vprintf] and below, [snprintf]; PrintfThm: the interface [Sink] of what takes the
      characters, formats as lists of pieces, the text each piece stands for.
    - Malloc: [malloc], [free] and below over the words of user memory; MallocSpec: the heap as a list
      of blocks, the interface [Sbrk] of what the system promises; MallocThm: client programs.
      MallocVm: the same heap over the [sbrk] of Vm.
    - Heap: the interface [KHeap] with its laws [KHeapLaws], which the containers, the threads, the
      processes and the file systems use: requests below [kh_max] bytes give a fresh block or NULL,
      and with room for n requests ([kh_room]) the next n are not refused; [rooms] carries this
      through a routine.  KheapInv discharges the laws for the real allocator, with requests of up to
      one page and the room counted in free frames and page references, and with nothing
      assumed of eviction but that it keeps the heap ([evict_ok]).
    - KArray, KQueue, KBitmap: one container each, [array_*], [q_*], [bitmap_*], with the refinement to
      lists, FIFO queues and sets of bits.
    - Coremap: [coremapAllocateOneFrame], [coremapAllocateMultipleFrame], [coremapFree], [getppages];
      the step relation [cm_step] and its reachable states.
    - Kheap: [kmalloc], [kfree] and below; KheapInv: the invariant [kinv] and the specifications.
    - KState: the state of the thread system as one record [kst] over an arbitrary heap and
      environment ([ThreadEnv]: what the pager does at a clock tick and at thread creation, and the
      references to vnodes; [ThreadEnvLaws] of ThreadHeap says what they promise).
      Thread: thread.c, scheduler.c, pcb.c.  ThreadSpec: the abstract scheduler [sched], the
      representation relation [srep] and one refinement lemma per routine.  ThreadHeap: ownership of
      the blocks of each thread, [exorcise].  ThreadThm: the theorems.
    - Synch: synch.c and hardclock.c.  SynchMach: the step relation of a machine whose threads run
      arbitrary sequences of synchronization calls, with clock interrupts anywhere, and its
      invariant.  SynchSpec, SynchRun: its preservation.  SynchThm: the theorems and runs.
    - Process, ProcSpec, ProcThm: the process table.  Owned: the blocks that a part of the kernel owns,
      and the memory a routine takes.  Fork, ForkSpec: [thread_fork], [process_fork] and the start of
      the child; their theorems are in ProcThm.
    - Uio: [uiomove], [copyin], [copyout], [copyinstr]; the user's memory is the record [usermem].
    - SfsDisk: the disk as a list of sectors with a script of status codes; [lhd_io], [sfs_rwblock].
      Sfs: inodes, block allocation and mapping, file I/O, truncation, directories.  SfsBytes: the
      encodings on disk.  SfsSpec: the invariant [file] of one loaded file, [bmap], [balloc].
      SfsIo: [sfs_io].  SfsDirs: directories as maps.  SfsTrunc: [sfs_truncate].  SfsVolume: the
      vnode operations on a loaded file, a consistent volume.  SfsThm: the theorems about loaded files.
    - SfsNode: vnode.c, and the operations of sfs_vnode.c that load, create, name and discard vnodes,
      on the state [kst] with the volume as environment, and sfs_fs.c.  SfsTree: the files of a
      volume, loaded or not, superblock and map.  SfsNodeSpec: vnodes in memory with their locks.
      SfsRep: the representation [rep] of a volume as names, files and references; SfsLife: one
      specification per routine.  SfsView: the abstract file system [view] with the specification
      [nspec] of each operation; SfsOps, SfsClient: programs of operations refine it.
    - SfsSync: [sfs_sync].  SfsBoot: a volume
      on disk ([stored]), [sfs_domount], [sfs_getroot], [sfs_unmount].  Mksfs, MksfsSpec: sbin/mksfs.
      SfsBootThm: the life of a volume.
    - Vfs: vfslist.c, vfslookup.c, vfscwd.c, vfspath.c over the interface [Vnodes] of the functions
      below.  VfsLaws: the laws [VnodesLaws] of that interface, with references to vnodes as the
      resource that is counted; path names ([parse], [start_of]) and the specification of each
      operation.  VfsSpec: the invariant [vst]; VfsOps, VfsDevs: one specification per routine.
    - Device: device.c and devnull.c, and the table [sys_vnodes] that sends a call to SFS or to a
      device.  SfsHeld: what the volume leaves alone, and its operations by the references that are
      held.  VfsSys: the invariant of one volume, whose root directory stays in use, with the devices,
      and the operations of the devices; VfsSysFs: those of the volume.  VfsThm: programs of calls, the
      laws for the volume with the devices, the theorems on the whole, and a kernel with two devices
      and a volume.
    - Vm: the virtual memory system; the program file and the swap device are the interface
      [PageIO].  VmSpec: bit fields, the fault path, the theorems.
    - Interleave: programs of atomic steps run by any number of threads.  Stoplight, StoplightThm: the
      intersection.  Catsem, CatsemThm: cats and mice.

    ** What the theorems show

    - Memory: kmalloc gives fresh blocks, kfree releases exactly one block, clients cannot break the
      free lists; the coremap never gives a frame twice through the one-frame path, while the
      multi-frame path can on fragmented memory.
    - Containers refine their abstract data types, panics and failed allocations included.
    - Threads: the context switch and the wake-up refine the abstract scheduler; the dead are buried
      with their memory; fork makes the thread that was asked for, and with room in the heap fails
      only when the process ids are used up.  No run of threads over the synchronization primitives
      panics or loops as long as the queues have room for the threads and no zombie is without a
      place; locks exclude; semaphores count.  Condition variables do not do what synch.h says: a
      broadcast lets at most one waiter through, and a signal is remembered.
    - Processes: the life of a child from fork to waitpid, and the two faults at the ends of the id range.
    - Files: a consistent volume stays consistent under any sequence of operations, files are
      independent of each other, what is written is read back, a directory is a finite map,
      truncation frees what it should but for one block.  A media error on a write is lost.
      Programs that create, link, rename, remove, read and write files run on SFS as on a map from
      names to files, whatever runs out.  With room in the heap, what mksfs writes is mounted, and
      what was synced is found again after a restart; mounting and unmounting leaves no trace.  A
      block read ends whatever the card answers.
    - Path names: programs that open, remove, rename and link files by path, change directories and
      unmount run on the whole stack down to the disk blocks as on path names alone, and every
      reference is given back; a device that was added is found under its own name, which is the raw
      name for a device that can be mounted.
    - The C library: memmove copies what was there before; strtok_r gives the words of a line; snprintf
      writes the text of its format, cut to the buffer, and atoi reads back what it wrote.  Programs
      of malloc, store, load and free run as on separate buffers; with the kernel's own sbrk the
      second growth of the heap ends the program.
    - The intersection never lets two cars into one region, but four cars can wait for each other for
      ever; cats and mice never eat together, and the program can always come to its end.
    - Virtual memory: the entry put in the TLB by a fault and the entry rebuilt from the page table
      agree; running out of frames and a write to a page of the program file go wrong.

    ** Assumptions

    - The disk has no media errors ([vo_healthy]), in all theorems about volumes, files, directories
      and path names; SfsDisk shows what block I/O does when there are some.
    - The theorems about the whole stack (VfsThm) start where the kernel has a reference to the root
      directory of its one volume, besides those of its clients, and nothing gives this one up, so
      [vfs_unmount] of the volume is refused there.  [sfs_unmount] of a volume that is not in
      use is a theorem of SfsBootThm.
    - A volume is mounted with a heap that serves a request of the size of its block map.  The
      heap of KheapInv serves one page, enough for 8 blocks of the map or 32768 blocks of disk.
    - The coremap theorems take multi-frame requests only where a run of free frames exists, as the
      allocator does not look after the last one; eviction is not a step of [cm_step].
    - The fault path is for a machine with at most one megabyte of memory ([vo_meg]).

    ** Bounds and fuel

    Loops over an array run as often as the array is long.  [while_loop] takes a budget: the length
    of the list that is walked for linked lists (the number of page references, 256, in the heap),
    the number of doublings for growing storage (at most 31), the number of retries (10) in block
    I/O, the number of answers of the system still to come in a user program, the length of the string
    or of the list of blocks in the C library, 32 digits for a number of 32 bits.  A budget that does
    not suffice is [FLoop], which [wp] and [wps] exclude, so each of them is enough.  The disk has at most 2^22 blocks, so that byte offsets fit an off_t.

    ** Not modelled

    - Threads inside the file system at the same time: the routines of SfsNode and Vfs run one at a
      time, and a lock that is not free when one of them takes it is [FLoop].  The theorems on the
      whole stack are for one mounted volume; mounting through [vfs_mount] is specified against what
      the mount function promises, and file systems that are devices ([vfs_addfs]) only as far as
      [vfs_doadd].
    - Program loading (loadelf.c, sys_execv.c, runprogram.c), trap and system call dispatch.
    - Device registers (dev/lamebus, dev/generic) and assembly code: the processor is the boundary,
      a context switch is the boundary between the two halves of [mi_switch].
    - Printing, the menu, the kernel's tests, the other user programs and the rest of the
      user's C library (random numbers, stdio on files, calls of the system). *)

From stdpp Require Export base list list_numbers gmap strings numbers sets.
From Stdlib Require Export ZArith Lia ZifyBool.

#[global] Open Scope Z_scope.
#[export] Set Default Proof Using "Type".

(** ** Machine integers

    [u8], [u16], [u32] and [s32] are the reductions C performs when a value is
    stored in an [unsigned char], [u_int16_t], [u_int32_t] / [size_t] or a
    (two's complement) [int]. *)

Definition u8 (z : Z) : Z := z mod 2 ^ 8.
Definition u16 (z : Z) : Z := z mod 2 ^ 16.
Definition u32 (z : Z) : Z := z mod 2 ^ 32.
Definition s32 (z : Z) : Z := (z + 2 ^ 31) mod 2 ^ 32 - 2 ^ 31.

Definition is_u32 (z : Z) : Prop := 0 ≤ z < 2 ^ 32.
Definition is_s32 (z : Z) : Prop := - 2 ^ 31 ≤ z < 2 ^ 31.

Lemma u32_id z : is_u32 z → u32 z = z.
Proof. unfold is_u32, u32. intros. by apply Z.mod_small. Qed.

Lemma s32_id z : is_s32 z → s32 z = z.
Proof. unfold is_s32, s32. intros. rewrite Z.mod_small; lia. Qed.

Lemma u8_id z : 0 ≤ z < 256 → u8 z = z.
Proof. unfold u8. intros. by apply Z.mod_small. Qed.

Lemma u16_id z : 0 ≤ z < 65536 → u16 z = z.
Proof. unfold u16. intros. by apply Z.mod_small. Qed.

Lemma u32_range z : is_u32 (u32 z).
Proof. unfold is_u32, u32. apply Z.mod_pos_bound. lia. Qed.

(** [in_range] proves that a value fits its width, from the bounds in the context; the database
    [machine] collects the values that always fit.  [unwrap] removes the reductions of values that
    fit. *)
Ltac in_range := unfold is_u32, is_s32 in *; lia.

Create HintDb machine.
#[export] Hint Resolve u32_range : machine.
#[export] Hint Extern 1 (is_u32 _) => in_range : machine.
#[export] Hint Extern 1 (is_s32 _) => in_range : machine.
#[export] Hint Extern 1 (_ ≤ _ < _) => lia : machine.
Ltac unwrap := repeat match goal with
  | |- context [u32 ?z] => rewrite (u32_id z) by (auto with machine nocore)
  | |- context [s32 ?z] => rewrite (s32_id z) by (auto with machine nocore)
  | |- context [u16 ?z] => rewrite (u16_id z) by (auto with machine nocore)
  | |- context [u8 ?z] => rewrite (u8_id z) by (auto with machine nocore)
  end.

(** ** Faults

    A run of a kernel routine either returns or stops.  [FPanic] is a failed
    [assert] or a call of [panic]; [FUndef] is undefined behaviour of C that
    the source does not guard against (an access outside an object, a read of
    an indeterminate value, a dereference of NULL); [FLoop] is a loop of the
    model that ran out of its iteration budget. *)

Inductive fault := FPanic | FUndef | FLoop.

#[export] Instance fault_eq_dec : EqDecision fault.
Proof. solve_decision. Defined.

Inductive res (A : Type) : Type :=
| Ok (a : A)
| Fault (f : fault).
Arguments Ok {A} _.
Arguments Fault {A} _.

#[export] Instance res_eq_dec `{EqDecision A} : EqDecision (res A).
Proof. solve_decision. Defined.

#[export] Instance res_ret : MRet res := λ A a, Ok a.
#[export] Instance res_bind : MBind res := λ A B f m,
  match m with Ok a => f a | Fault e => Fault e end.

(** [check b] is C's [assert(b)]. *)
Definition check (b : bool) : res unit := if b then Ok tt else Fault FPanic.

Definition res_of_option {A} (e : fault) (o : option A) : res A :=
  match o with Some a => Ok a | None => Fault e end.

(** ** Weakest preconditions

    [wp m Φ] says that [m] returns (no panic, no undefined behaviour, no
    exhausted loop) with a result that satisfies [Φ]: total correctness. *)

Definition wp {A} (m : res A) (Φ : A → Prop) : Prop :=
  match m with Ok a => Φ a | Fault _ => False end.

Section wp.
Context {A B : Type}.
Implicit Types (m : res A) (Φ Ψ : A → Prop).

Lemma wp_exists m Φ : wp m Φ ↔ ∃ a, m = Ok a ∧ Φ a.
Proof. destruct m; simpl; naive_solver. Qed.

Lemma wp_ok (a : A) Φ : wp (Ok a) Φ ↔ Φ a.
Proof. done. Qed.

Lemma wp_ret (a : A) Φ : wp (mret a) Φ ↔ Φ a.
Proof. done. Qed.

Lemma wp_bind m (f : A → res B) (Φ : B → Prop) :
  wp (m ≫= f) Φ ↔ wp m (λ a, wp (f a) Φ).
Proof. by destruct m. Qed.

Lemma wp_mono m Φ Ψ : wp m Φ → (∀ a, Φ a → Ψ a) → wp m Ψ.
Proof. destruct m; simpl; auto. Qed.

Lemma wp_check b (Φ : unit → Prop) : wp (check b) Φ ↔ b = true ∧ Φ tt.
Proof. destruct b; simpl; naive_solver. Qed.

Lemma wp_of_eq m a Φ : m = Ok a → Φ a → wp m Φ.
Proof. by intros ->. Qed.

Lemma wp_inv m a Φ : wp m Φ → m = Ok a → Φ a.
Proof. by intros H ->. Qed.
End wp.

#[global] Arguments wp : simpl never.

Lemma bind_Ok {A B} (m : res A) (f : A → res B) b :
  m ≫= f = Ok b ↔ ∃ a, m = Ok a ∧ f a = Ok b.
Proof. destruct m; simpl; naive_solver. Qed.

(** [wp_call L] steps over a call whose specification is [L]. *)
Tactic Notation "wp_call" uconstr(L) :=
  rewrite ?wp_bind; eapply wp_mono; [eapply L|].

(** [wp_val] reads off the postcondition of a returned value. *)
Ltac wp_val := repeat first [rewrite wp_ret | rewrite wp_ok | rewrite wp_bind, wp_ret].

(** [wp_step] steps over returns, sequencing and assertions. *)
Ltac wp_step :=
  repeat first
    [ progress rewrite ?wp_bind
    | progress rewrite ?wp_ok
    | progress rewrite ?wp_ret
    | rewrite wp_check; split; [solve [lia | done | auto]|] ].

(** ** Lists indexed by C integers

    [lens] decides a bound on the lengths of lists built by the operations in the database
    [lengths]; each component adds its own lists to the database. *)

Create HintDb lengths.
#[export] Hint Rewrite @length_app @length_take @length_drop @length_insert @length_replicate
  @length_fmap @length_reverse @length_rotate : lengths.
Ltac lens := autorewrite with lengths; lia.

Definition getz {A} (l : list A) (i : Z) : res A :=
  if 0 <=? i then res_of_option FUndef (l !! Z.to_nat i) else Fault FUndef.

Definition setz {A} (l : list A) (i : Z) (x : A) : res (list A) :=
  if (0 <=? i) && (i <? Z.of_nat (length l))
  then Ok (<[Z.to_nat i := x]> l) else Fault FUndef.

(** C's [l[i]] as an expression and [l[i] = x] as an assignment. *)
Declare Scope kern_scope.
Delimit Scope kern_scope with kern.
Notation "l .[ i ]" := (getz l i) (at level 2, left associativity, format "l .[ i ]") : kern_scope.
Notation "l .[ i <- x ]" := (setz l i x) (at level 2, left associativity, format "l .[ i  <-  x ]") : kern_scope.
#[global] Open Scope kern_scope.

(** Memory that has been allocated and not written yet is [None]. *)
Definition rd {A} (l : list (option A)) (i : Z) : res A :=
  o ← getz l i; res_of_option FUndef o.

Abbreviation zlen l := (Z.of_nat (length l)).

Section lists.
Context {A : Type}.
Implicit Types (l : list A) (i : Z).

Lemma getz_lookup l i x : getz l i = Ok x ↔ 0 ≤ i ∧ l !! Z.to_nat i = Some x.
Proof.
  unfold getz. destruct (0 <=? i) eqn:E.
  - destruct (l !! Z.to_nat i) eqn:E2; simpl; split; try naive_solver lia.
  - naive_solver lia.
Qed.

Lemma wp_getz l i (Φ : A → Prop) :
  0 ≤ i < zlen l → (∀ x, l !! Z.to_nat i = Some x → Φ x) → wp (getz l i) Φ.
Proof.
  intros Hi HΦ. destruct (lookup_lt_is_Some_2 l (Z.to_nat i)) as [x Hx]; [lia|].
  apply (wp_of_eq _ x); [|auto]. apply getz_lookup. split; [lia|done].
Qed.

Lemma wp_setz l i x (Φ : list A → Prop) :
  0 ≤ i < zlen l → Φ (<[Z.to_nat i := x]> l) → wp (setz l i x) Φ.
Proof.
  intros Hi HΦ. unfold setz. replace ((0 <=? i) && (i <? zlen l)) with true by lia.
  done.
Qed.

Lemma setz_Ok l i x l' :
  setz l i x = Ok l' ↔ 0 ≤ i < zlen l ∧ l' = <[Z.to_nat i := x]> l.
Proof.
  unfold setz. destruct ((0 <=? i) && (i <? zlen l)) eqn:E; naive_solver lia.
Qed.
End lists.

Lemma wp_rd {A} (l : list (option A)) i x (Φ : A → Prop) :
  0 ≤ i → l !! Z.to_nat i = Some (Some x) → Φ x → wp (rd l i) Φ.
Proof.
  intros Hi Hl HΦ. unfold rd. rewrite wp_bind.
  apply (wp_of_eq _ (Some x)); [by apply getz_lookup|]. done.
Qed.

(** ** Loops

    [for_loop n i body s] is [for (k = i; k < i + n; k++) body], threading the
    variables the body changes; a body that answers [inr r] leaves the loop
    ([break], [return] or [goto]) with [r]. *)

Fixpoint for_loop {S R} (n : nat) (i : Z) (body : Z → S → res (S + R)) (s : S)
  : res (S + R) :=
  match n with
  | O => Ok (inl s)
  | Datatypes.S n' =>
      r ← body i s;
      match r with
      | inl s' => for_loop n' (i + 1) body s'
      | inr x => Ok (inr x)
      end
  end.

(** [while_loop fuel body s] is [while (1) body]: the body answers [inl] to go
    round again and [inr] to leave.  A run that needs more than [fuel] rounds
    is the fault [FLoop], so a [wp] of a loop also proves that it ends. *)

Fixpoint while_loop {S R} (fuel : nat) (body : S → res (S + R)) (s : S) : res R :=
  match fuel with
  | O => Fault FLoop
  | Datatypes.S f =>
      r ← body s;
      match r with
      | inl s' => while_loop f body s'
      | inr x => Ok x
      end
  end.

Definition loop_post {S R} (P : S → Prop) (Q : R → Prop) (r : S + R) : Prop :=
  match r with inl s => P s | inr x => Q x end.

Lemma wp_for_loop {S R} (I : Z → S → Prop) (Q : R → Prop) n i body s :
  I i s →
  (∀ j t, i ≤ j < i + Z.of_nat n → I j t →
     wp (body j t) (loop_post (I (j + 1)) Q)) →
  wp (for_loop n i body s) (loop_post (I (i + Z.of_nat n)) Q).
Proof.
  revert i s. induction n as [|n IH]; intros i s HI Hb; simpl.
  - by rewrite Z.add_0_r.
  - rewrite wp_bind. eapply wp_mono; [apply Hb; [lia|done]|].
    intros [t|x] Ht; simpl in *; [|done].
    rewrite Nat2Z.inj_succ. replace (i + Z.succ (Z.of_nat n)) with ((i + 1) + Z.of_nat n) by lia.
    apply IH; [done|]. intros j u Hj. apply Hb. lia.
Qed.

Lemma wp_while_loop {S R} (I : S → Prop) (Q : R → Prop) (m : S → nat) fuel body s :
  I s → (m s < fuel)%nat →
  (∀ t, I t → wp (body t) (loop_post (λ t', I t' ∧ (m t' < m t)%nat) Q)) →
  wp (while_loop fuel body s) Q.
Proof.
  revert s. induction fuel as [|f IH]; intros s HI Hm Hb; [lia|]. simpl.
  rewrite wp_bind. eapply wp_mono; [by apply Hb|].
  intros [t|x]; simpl; [|done]. intros [Ht Hlt]. apply IH; [done|lia|done].
Qed.

(** The same with a variant that is not a function of the loop variables. *)
Lemma wp_while_variant {S R} (I : nat → S → Prop) (Q : R → Prop) n fuel body s :
  I n s → (n < fuel)%nat →
  (∀ k t, I k t → wp (body t) (loop_post (λ t', ∃ k', (k' < k)%nat ∧ I k' t') Q)) →
  wp (while_loop fuel body s) Q.
Proof.
  revert n s. induction fuel as [|f IH]; intros n s HI Hn Hb; [lia|]. simpl.
  rewrite wp_bind. eapply wp_mono; [by apply (Hb n)|].
  intros [t|x]; simpl; [|done]. intros (k & Hk & Ht). apply (IH k); [done|lia|done].
Qed.

Lemma while_loop_S {S R} f (body : S → res (S + R)) s :
  while_loop (Datatypes.S f) body s =
    (r ← body s; match r with inl s' => while_loop f body s' | inr x => Ok x end).
Proof. done. Qed.

#[global] Arguments for_loop : simpl never.
#[global] Arguments while_loop : simpl never.

(** ** Error numbers of kern/errno.h *)

Definition EINVAL : Z := 1.
Definition EFAULT : Z := 2.
Definition ENAMETOOLONG : Z := 3.
Definition ENOMEM : Z := 4.
Definition EIO : Z := 5.
Definition ENOENT : Z := 6.
Definition ENOTDIR : Z := 7.
Definition EISDIR : Z := 8.
Definition EEXIST : Z := 9.
Definition EXDEV : Z := 10.
Definition EAGAIN : Z := 11.
Definition EUNIMP : Z := 13.
Definition ENXIO : Z := 14.
Definition ENODEV : Z := 15.
Definition EBUSY : Z := 16.
Definition ENOSPC : Z := 20.
Definition ENOSYS : Z := 23.
Definition ENOEXEC : Z := 24.
Definition E2BIG : Z := 25.

(** The null pointer, and the rounding macros of lib.h on unsigned operands. *)
Definition NULL : Z := 0.
Definition DIVROUNDUP (a b : Z) : Z := u32 (u32 (a + b) - 1) / b.
Definition ROUNDUP (a b : Z) : Z := u32 (DIVROUNDUP a b * b).

(** [memmove] within one array of words: [n] elements from index [src] to
    index [dst]. *)
Definition memmovez {A} (l : list A) (dst src n : Z) : res (list A) :=
  if (0 <=? n) && (0 <=? dst) && (0 <=? src) && (dst + n <=? zlen l) && (src + n <=? zlen l)
  then Ok (take (Z.to_nat dst) l ++ take (Z.to_nat n) (drop (Z.to_nat src) l)
           ++ drop (Z.to_nat (dst + n)) l)
  else Fault FUndef.

(** ** Byte ranges of an object

    [slice l at n] reads [n] elements of [l] from index [at] on, [blit l at d] writes [d]
    there; an access that leaves the object is undefined. *)
Definition sub {A} (l : list A) (at_ n : Z) : list A := take (Z.to_nat n) (drop (Z.to_nat at_) l).
Definition splice {A} (l : list A) (at_ : Z) (d : list A) : list A :=
  take (Z.to_nat at_) l ++ d ++ drop (Z.to_nat at_ + length d) l.

Definition slice {A} (l : list A) (at_ n : Z) : res (list A) :=
  if (0 <=? at_) && (0 <=? n) && (at_ + n <=? zlen l) then Ok (sub l at_ n) else Fault FUndef.
Definition blit {A} (l : list A) (at_ : Z) (d : list A) : res (list A) :=
  if (0 <=? at_) && (at_ + zlen d <=? zlen l) then Ok (splice l at_ d) else Fault FUndef.

Section ranges.
Context {A : Type}.
Implicit Types (l d : list A).

Lemma wp_slice l a n (Φ : list A → Prop) :
  0 ≤ a → 0 ≤ n → a + n ≤ zlen l → Φ (sub l a n) → wp (slice l a n) Φ.
Proof.
  intros. unfold slice. by replace ((0 <=? a) && (0 <=? n) && (a + n <=? zlen l)) with true by lia.
Qed.

Lemma wp_blit l a d (Φ : list A → Prop) :
  0 ≤ a → a + zlen d ≤ zlen l → Φ (splice l a d) → wp (blit l a d) Φ.
Proof. intros. unfold blit. by replace ((0 <=? a) && (a + zlen d <=? zlen l)) with true by lia. Qed.

Lemma length_sub l a n : 0 ≤ a → 0 ≤ n → a + n ≤ zlen l → zlen (sub l a n) = n.
Proof. intros. unfold sub. rewrite length_take, length_drop. lia. Qed.

Lemma length_splice l a d : 0 ≤ a → a + zlen d ≤ zlen l → length (splice l a d) = length l.
Proof. intros. unfold splice. rewrite !length_app, length_take, length_drop. lia. Qed.

Lemma splice_nil l a : splice l a [] = l.
Proof. unfold splice. simpl. rewrite Nat.add_0_r. apply take_drop. Qed.

Lemma sub_0 l a : sub l a 0 = [].
Proof. done. Qed.

Lemma lookup_sub l a n (i : nat) :
  0 ≤ a → sub l a n !! i = if decide (Z.of_nat i < n) then l !! (Z.to_nat a + i)%nat else None.
Proof.
  intros. unfold sub. destruct (decide _).
  - by rewrite lookup_take_lt, lookup_drop by lia.
  - by rewrite lookup_take_ge by lia.
Qed.

Lemma lookup_splice l a d (i : nat) :
  0 ≤ a → a + zlen d ≤ zlen l →
  splice l a d !! i =
    if decide (a ≤ Z.of_nat i < a + zlen d) then d !! (i - Z.to_nat a)%nat else l !! i.
Proof.
  intros Ha Hd. unfold splice. destruct (decide (Z.of_nat i < a)).
  - rewrite decide_False by lia. rewrite lookup_app_l by (lens).
    by rewrite lookup_take_lt by lia.
  - rewrite lookup_app_r by (lens). rewrite length_take, Nat.min_l by lia.
    destruct (decide (Z.of_nat i < a + zlen d)).
    + rewrite decide_True by lia. by rewrite lookup_app_l by lia.
    + rewrite decide_False by lia. rewrite lookup_app_r by lia. rewrite lookup_drop. f_equal. lia.
Qed.

Lemma sub_splice_same l a d : 0 ≤ a → a + zlen d ≤ zlen l → sub (splice l a d) a (zlen d) = d.
Proof.
  intros. apply list_eq. intros i. rewrite lookup_sub, lookup_splice by lia.
  destruct (decide _).
  - rewrite decide_True by lia. f_equal. lia.
  - symmetry. apply lookup_ge_None_2. lia.
Qed.

Lemma sub_all l : sub l 0 (zlen l) = l.
Proof. unfold sub. rewrite drop_0. apply take_ge. lia. Qed.

Lemma splice_all l d : length d = length l → splice l 0 d = d.
Proof.
  intros Hd. unfold splice. simpl. rewrite Hd, drop_ge by lia. by rewrite app_nil_r.
Qed.

(** Two adjacent writes are one write, two adjacent reads one read. *)
Lemma splice_splice l a d d' :
  0 ≤ a → a + zlen d + zlen d' ≤ zlen l →
  splice (splice l a d) (a + zlen d) d' = splice l a (d ++ d').
Proof.
  intros Ha Hd. apply list_eq. intros i.
  rewrite !lookup_splice by (rewrite ?length_splice, ?length_app; lia).
  rewrite length_app. destruct (decide (a + zlen d ≤ Z.of_nat i < a + zlen d + zlen d')).
  - rewrite decide_True by lia. rewrite lookup_app_r by lia. f_equal. lia.
  - destruct (decide (a ≤ Z.of_nat i < a + zlen d)).
    + rewrite decide_True by lia. by rewrite lookup_app_l by lia.
    + by rewrite decide_False by lia.
Qed.

Lemma sub_app l a n m : 0 ≤ a → 0 ≤ n → 0 ≤ m → sub l a n ++ sub l (a + n) m = sub l a (n + m).
Proof.
  intros. unfold sub. rewrite !Z2Nat.inj_add, <- drop_drop by lia.
  apply take_take_drop.
Qed.

Lemma sub_sub l a n b m : 0 ≤ a → 0 ≤ b → 0 ≤ m → b + m ≤ n → sub (sub l a n) b m = sub l (a + b) m.
Proof.
  intros. apply list_eq. intros i. rewrite !lookup_sub by lia. destruct (decide _); [|done].
  rewrite decide_True by lia. f_equal. lia.
Qed.

(** A read beside a write. *)
Lemma sub_splice_other l a d b m :
  0 ≤ a → a + zlen d ≤ zlen l → 0 ≤ b → 0 ≤ m → b + m ≤ a ∨ a + zlen d ≤ b →
  sub (splice l a d) b m = sub l b m.
Proof.
  intros. apply list_eq. intros i. rewrite !lookup_sub by lia. destruct (decide _); [|done].
  rewrite lookup_splice by lia. by rewrite decide_False by lia.
Qed.
End ranges.

(** [for_range n i body s] is a counted loop without early exit. *)
Fixpoint for_range {S} (n : nat) (i : Z) (body : Z → S → res S) (s : S) : res S :=
  match n with
  | O => Ok s
  | Datatypes.S n' => s' ← body i s; for_range n' (i + 1) body s'
  end.

Lemma wp_for_range {S} (I : Z → S → Prop) n i body s :
  I i s →
  (∀ j t, i ≤ j < i + Z.of_nat n → I j t → wp (body j t) (I (j + 1))) →
  wp (for_range n i body s) (I (i + Z.of_nat n)).
Proof.
  revert i s. induction n as [|n IH]; intros i s HI Hb; simpl.
  - by rewrite Z.add_0_r.
  - rewrite wp_bind. eapply wp_mono; [apply Hb; [lia|done]|].
    intros t Ht. rewrite Nat2Z.inj_succ.
    replace (i + Z.succ (Z.of_nat n)) with ((i + 1) + Z.of_nat n) by lia.
    apply IH; [done|]. intros j u Hj. apply Hb. lia.
Qed.

#[global] Arguments for_range : simpl never.

(** Copying the first [n] elements of one array over the first [n] elements of
    another, one assignment at a time. *)
Definition copy_words {A} (n : nat) (src dst : list A) : res (list A) :=
  for_range n 0 (λ i d, x ← getz src i; setz d i x) dst.

Lemma wp_copy_words {A} (n : nat) (src dst : list A) (Φ : list A → Prop) :
  (n ≤ length src)%nat → (n ≤ length dst)%nat →
  Φ (take n src ++ drop n dst) → wp (copy_words n src dst) Φ.
Proof.
  intros Hs Hd HΦ. unfold copy_words. eapply wp_mono.
  - apply (wp_for_range
      (λ i d, d = take (Z.to_nat i) src ++ drop (Z.to_nat i) dst)); [done|].
    intros j d Hj ->. rewrite wp_bind. apply wp_getz; [lia|]. intros x Hx.
    apply wp_setz; [lens|].
    replace (Z.to_nat (j + 1)) with (S (Z.to_nat j)) by lia.
    rewrite (take_S_r _ _ x) by done. rewrite <- app_assoc.
    replace (Z.to_nat j) with (length (take (Z.to_nat j) src) + 0)%nat at 1
      by (lens).
    rewrite insert_app_r. f_equal.
    destruct (lookup_lt_is_Some_2 dst (Z.to_nat j)) as [y Hy]; [lia|].
    by rewrite (drop_S _ _ _ Hy).
  - intros d. rewrite Z.add_0_l, Nat2Z.id. by intros ->.
Qed.

(** ** Filters *)

Section filters.
Context {A : Type} (P Q : A → Prop) `{∀ x, Decision (P x)} `{∀ x, Decision (Q x)}.

Lemma filter_none (l : list A) : (∀ x, x ∈ l → ¬ P x) → filter P l = [].
Proof.
  induction l as [|x l IH]; [done|]. intros Hl. rewrite filter_cons_False.
  - apply IH. intros y Hy. apply Hl. by constructor.
  - apply Hl. by constructor.
Qed.

Lemma filter_agree (l : list A) : (∀ x, x ∈ l → P x ↔ Q x) → filter P l = filter Q l.
Proof.
  induction l as [|x l IH]; [done|]. intros Hl. rewrite !filter_cons.
  rewrite IH by (intros y Hy; apply Hl; by constructor).
  destruct (decide (P x)) as [Hp|Hp], (decide (Q x)) as [Hq|Hq]; try done;
    exfalso; specialize (Hl x ltac:(by constructor)); tauto.
Qed.
End filters.
