(* ===== verification/StateM.v ===== *)
(** * Stateful kernel code

    The routines of the thread system, the virtual memory system and the file system
    share a good deal of global state.  They are written in a state-and-fault monad
    [stm S A]; [wps m s Φ] says that [m] started in [s] returns (no panic, no undefined
    behaviour, no endless loop) and that its answer and final state satisfy [Φ]. *)

From S2P Require Import Prelude.

Definition stm (S A : Type) : Type := S → res (A * S).

#[export] Instance stm_ret {S} : MRet (stm S) := λ A a s, Ok (a, s).
#[export] Instance stm_bind {S} : MBind (stm S) := λ A B f m s,
  match m s with Ok (a, s') => f a s' | Fault e => Fault e end.

Section ops.
Context {S : Type}.

Definition gets {A} (f : S → A) : stm S A := λ s, Ok (f s, s).
Definition modify (f : S → S) : stm S unit := λ s, Ok (tt, f s).
Definition lift {A} (r : res A) : stm S A := λ s,
  match r with Ok a => Ok (a, s) | Fault e => Fault e end.
Definition asrt (b : bool) : stm S unit := lift (check b).
Definition fault_ {A} (e : fault) : stm S A := λ _, Fault e.

(** A routine on one part of the state: [get] reads the part, [set] writes it back. *)
Definition zoom {T A} (get : S → T) (set : T → S → S) (m : T → res (A * T)) : stm S A := λ s,
  match m (get s) with Ok (a, t) => Ok (a, set t s) | Fault e => Fault e end.

Definition mwhile {X R} (fuel : nat) (body : X → stm S (X + R)) (x : X) : stm S R := λ s,
  while_loop fuel (λ '(x, s),
    match body x s with
    | Ok (inl x', s') => Ok (inl (x', s'))
    | Ok (inr r, s') => Ok (inr (r, s'))
    | Fault e => Fault e
    end) (x, s).

Definition mfor {X} (n : nat) (i : Z) (body : Z → X → stm S X) (x : X) : stm S X := λ s,
  for_range n i (λ j '(x, s), body j x s) (x, s).

Definition wps {A} (m : stm S A) (s : S) (Φ : A → S → Prop) : Prop :=
  wp (m s) (λ p, Φ p.1 p.2).

Lemma wps_ret {A} (a : A) s Φ : wps (mret a) s Φ ↔ Φ a s.
Proof. done. Qed.

Lemma wps_bind {A B} (m : stm S A) (f : A → stm S B) s Φ :
  wps (m ≫= f) s Φ ↔ wps m s (λ a s', wps (f a) s' Φ).
Proof. unfold wps, mbind, stm_bind. by destruct (m s) as [[a s']|]. Qed.

Lemma wps_gets {A} (f : S → A) s Φ : wps (gets f) s Φ ↔ Φ (f s) s.
Proof. done. Qed.

Lemma wps_modify f s Φ : wps (modify f) s Φ ↔ Φ tt (f s).
Proof. done. Qed.

Lemma wps_lift {A} (r : res A) s Φ : wps (lift r) s Φ ↔ wp r (λ a, Φ a s).
Proof. unfold wps, lift. by destruct r. Qed.

Lemma wps_asrt b s Φ : wps (asrt b) s Φ ↔ b = true ∧ Φ tt s.
Proof. unfold asrt. rewrite wps_lift. apply wp_check. Qed.

Lemma wps_zoom {T A} get set (m : T → res (A * T)) s Φ :
  wps (zoom get set m) s Φ ↔ wp (m (get s)) (λ '(a, t), Φ a (set t s)).
Proof. unfold wps, zoom. by destruct (m (get s)) as [[a t]|]. Qed.

Lemma wps_mono {A} (m : stm S A) s Φ Ψ :
  wps m s Φ → (∀ a s', Φ a s' → Ψ a s') → wps m s Ψ.
Proof. intros Hm HΦ. eapply wp_mono; [exact Hm|]. intros [a s']. apply HΦ. Qed.

Lemma wps_exists {A} (m : stm S A) s Φ : wps m s Φ ↔ ∃ a s', m s = Ok (a, s') ∧ Φ a s'.
Proof.
  unfold wps. rewrite wp_exists. split.
  - intros ([a s'] & Hm & HΦ). by exists a, s'.
  - intros (a & s' & Hm & HΦ). by exists (a, s').
Qed.

Lemma wps_inv {A} (m : stm S A) s Φ a s' : wps m s Φ → m s = Ok (a, s') → Φ a s'.
Proof. unfold wps. intros Hw Hm. by rewrite Hm in Hw. Qed.

Lemma wps_mwhile {X R} (I : nat → X → S → Prop) (Q : R → S → Prop) n fuel body x s :
  I n x s → (n < fuel)%nat →
  (∀ k y t, I k y t → wps (body y) t (λ r t',
     match r with inl y' => ∃ k', (k' < k)%nat ∧ I k' y' t' | inr r => Q r t' end)) →
  wps (mwhile fuel body x) s Q.
Proof.
  intros HI Hn Hb. unfold wps, mwhile.
  apply (wp_while_variant (λ k '(y, t), I k y t) _ n); [done|done|].
  intros k [y t] Hk. specialize (Hb k y t Hk). unfold wps in Hb.
  destruct (body y t) as [[[y'|r] t']|e]; [|done|done].
  destruct Hb as (k' & Hlt & Hk'). by exists k'.
Qed.

Lemma wps_mfor {X} (I : Z → X → S → Prop) n i body x s Φ :
  I i x s →
  (∀ j y t, i ≤ j < i + Z.of_nat n → I j y t → wps (body j y) t (λ y' t', I (j + 1) y' t')) →
  (∀ y t, I (i + Z.of_nat n) y t → Φ y t) →
  wps (mfor n i body x) s Φ.
Proof.
  intros HI Hb HΦ. unfold wps, mfor. eapply wp_mono.
  - apply (wp_for_range (λ j '(y, t), I j y t)); [done|]. intros j [y t] Hj HIj.
    specialize (Hb j y t Hj HIj). unfold wps in Hb. eapply wp_mono; [exact Hb|]. by intros [y' t'].
  - intros [y t] Hy. by apply HΦ.
Qed.
End ops.

(** ** Routines that may panic

    [wpp m s Φ]: [m] either panics, or returns as [Φ] says; it does nothing undefined
    and does not loop. *)

Section panics.
Context {S : Type}.

Definition wpp {A} (m : stm S A) (s : S) (Φ : A → S → Prop) : Prop :=
  match m s with Ok (a, s') => Φ a s' | Fault FPanic => True | Fault _ => False end.

Lemma wpp_of_wps {A} (m : stm S A) s Φ : wps m s Φ → wpp m s Φ.
Proof. unfold wps, wpp. by destruct (m s) as [[a s']|]. Qed.

Lemma wpp_bind {A B} (m : stm S A) (f : A → stm S B) s Φ :
  wpp (m ≫= f) s Φ ↔ wpp m s (λ a s', wpp (f a) s' Φ).
Proof. unfold wpp, mbind, stm_bind. by destruct (m s) as [[a s']|[]]. Qed.

Lemma wpp_mono {A} (m : stm S A) s Φ Ψ :
  wpp m s Φ → (∀ a s', Φ a s' → Ψ a s') → wpp m s Ψ.
Proof. unfold wpp. destruct (m s) as [[a s']|[]]; auto. Qed.

Lemma wpp_ret {A} (a : A) s Φ : wpp (mret a) s Φ ↔ Φ a s.
Proof. done. Qed.

Lemma wpp_gets {A} (f : S → A) s Φ : wpp (gets f) s Φ ↔ Φ (f s) s.
Proof. done. Qed.

Lemma wpp_modify f s Φ : wpp (modify f) s Φ ↔ Φ tt (f s).
Proof. done. Qed.

Lemma wpp_panic {A} s (Φ : A → S → Prop) : wpp (fault_ FPanic) s Φ.
Proof. done. Qed.

Lemma wpp_inv {A} (m : stm S A) s Φ a s' : wpp m s Φ → m s = Ok (a, s') → Φ a s'.
Proof. unfold wpp. intros Hw Hm. by rewrite Hm in Hw. Qed.

(** [wpf P m s Φ]: [m] returns as [Φ] says, or panics, and then [P] is the case. *)
Definition wpf (P : Prop) {A} (m : stm S A) (s : S) (Φ : A → S → Prop) : Prop :=
  match m s with Ok (a, s') => Φ a s' | Fault FPanic => P | Fault _ => False end.

Lemma wpf_of_wps P {A} (m : stm S A) s Φ : wps m s Φ → wpf P m s Φ.
Proof. unfold wps, wpf. by destruct (m s) as [[a s']|]. Qed.

Lemma wpf_bind P {A B} (m : stm S A) (f : A → stm S B) s Φ :
  wpf P (m ≫= f) s Φ ↔ wpf P m s (λ a s', wpf P (f a) s' Φ).
Proof. unfold wpf, mbind, stm_bind. by destruct (m s) as [[a s']|[]]. Qed.

Lemma wpf_mono P {A} (m : stm S A) s Φ Ψ :
  wpf P m s Φ → (∀ a s', Φ a s' → Ψ a s') → wpf P m s Ψ.
Proof. unfold wpf. destruct (m s) as [[a s']|[]]; auto. Qed.

Lemma wpf_weaken (P Q : Prop) {A} (m : stm S A) s Φ : wpf P m s Φ → (P → Q) → wpf Q m s Φ.
Proof. unfold wpf. destruct (m s) as [[a s']|[]]; auto. Qed.

Lemma wpf_ret P {A} (a : A) s Φ : wpf P (mret a) s Φ ↔ Φ a s.
Proof. done. Qed.

Lemma wpf_gets P {A} (f : S → A) s Φ : wpf P (gets f) s Φ ↔ Φ (f s) s.
Proof. done. Qed.

Lemma wpf_modify P f s Φ : wpf P (modify f) s Φ ↔ Φ tt (f s).
Proof. done. Qed.

Lemma wpf_panic (P : Prop) {A} s (Φ : A → S → Prop) : P → wpf P (fault_ FPanic) s Φ.
Proof. done. Qed.

Lemma wpp_of_wpf P {A} (m : stm S A) s Φ : wpf P m s Φ → wpp m s Φ.
Proof. unfold wpp, wpf. by destruct (m s) as [[a s']|[]]. Qed.

(** Without [P] there is no panic. *)
Lemma wps_of_wpf (P : Prop) {A} (m : stm S A) s Φ : wpf P m s Φ → ¬ P → wps m s Φ.
Proof. unfold wps, wpf, wp. by destruct (m s) as [[a s']|[]]. Qed.
End panics.

#[global] Arguments wps : simpl never.
#[global] Arguments wpp : simpl never.
#[global] Arguments wpf : simpl never.
#[global] Arguments mwhile : simpl never.
#[global] Arguments mfor : simpl never.

(** [wps_step] runs the straight-line part of a routine. *)
Ltac wps_step :=
  repeat first
    [ rewrite wps_bind | rewrite wps_gets | rewrite wps_modify | rewrite wps_ret
    | rewrite wps_asrt; split; [solve [lia | done | auto]|] ].

(** [wps_call L] steps over a call whose specification is [L]. *)
Tactic Notation "wps_call" uconstr(L) :=
  rewrite ?wps_bind; eapply wps_mono; [eapply L|].

Ltac wpp_step :=
  repeat first [ rewrite wpp_bind | rewrite wpp_gets | rewrite wpp_modify | rewrite wpp_ret ].

(** A call that does not panic, and one that may. *)
Tactic Notation "wpp_call" uconstr(L) :=
  rewrite ?wpp_bind; eapply wpp_mono; [eapply wpp_of_wps, L|].
Tactic Notation "wpp_callp" uconstr(L) :=
  rewrite ?wpp_bind; eapply wpp_mono; [eapply L|].

Ltac wpf_step :=
  repeat first [ rewrite wpf_bind | rewrite wpf_gets | rewrite wpf_modify | rewrite wpf_ret ].
Tactic Notation "wpf_call" uconstr(L) :=
  rewrite ?wpf_bind; eapply wpf_mono; [eapply wpf_of_wps, L|].
Tactic Notation "wpf_callp" uconstr(L) :=
  rewrite ?wpf_bind; eapply wpf_mono; [eapply L|].

(** * User programs

    A user program runs until it returns from [main] or exits with a code: [prog S A] is a
    computation on the state [S] of the program and its files that either gives a value or has
    exited.  Failed assertions and bad accesses are the faults of [res]. *)

From S2P Require Import Prelude.

Definition prog (S A : Type) : Type := stm S (Z + A).

#[export] Instance prog_ret {S} : MRet (prog S) := λ A a, λ s, Ok (inr a, s).
#[export] Instance prog_bind {S} : MBind (prog S) := λ A B f m s,
  match m s with
  | Ok (inr a, s') => f a s'
  | Ok (inl c, s') => Ok (inl c, s')
  | Fault e => Fault e
  end.

Section prog.
Context {S : Type}.

(** [exit]. *)
Definition pexit {A} (code : Z) : prog S A := λ s, Ok (inl code, s).

(** A routine that does not exit. *)
Definition run {A} (m : stm S A) : prog S A := λ s,
  match m s with Ok (a, s') => Ok (inr a, s') | Fault e => Fault e end.

Definition pwhile {X R} (fuel : nat) (body : X → prog S (X + R)) (x : X) : prog S R :=
  mwhile fuel (λ x s,
    match body x s with
    | Ok (inl c, s') => Ok (inr (inl c), s')
    | Ok (inr (inl x'), s') => Ok (inl x', s')
    | Ok (inr (inr r), s') => Ok (inr (inr r), s')
    | Fault e => Fault e
    end) x.

Fixpoint pfor (n : nat) (i : Z) (body : Z → prog S unit) : prog S unit :=
  match n with
  | O => mret tt
  | Datatypes.S n' => _ ← body i; pfor n' (i + 1) body
  end.

(** [wpx m s Φ Ψ]: [m] comes to an end, with a value that satisfies [Φ] or an exit that satisfies [Ψ]. *)
Definition wpx {A} (m : prog S A) (s : S) (Φ : A → S → Prop) (Ψ : Z → S → Prop) : Prop :=
  match m s with
  | Ok (inr a, s') => Φ a s'
  | Ok (inl c, s') => Ψ c s'
  | Fault _ => False
  end.

Implicit Types (s : S) (Ψ : Z → S → Prop).

Lemma wpx_ret {A} (a : A) s Φ Ψ : wpx (mret a) s Φ Ψ ↔ Φ a s.
Proof. done. Qed.
Lemma wpx_exit {A} c s (Φ : A → S → Prop) Ψ : wpx (pexit c) s Φ Ψ ↔ Ψ c s.
Proof. done. Qed.
Lemma wpx_bind {A B} (m : prog S A) (f : A → prog S B) s Φ Ψ :
  wpx (m ≫= f) s Φ Ψ ↔ wpx m s (λ a s', wpx (f a) s' Φ Ψ) Ψ.
Proof. unfold wpx, mbind, prog_bind. by destruct (m s) as [[[c|a] s']|]. Qed.
Lemma wpx_run {A} (m : stm S A) s Φ Ψ : wpx (run m) s Φ Ψ ↔ wps m s Φ.
Proof. unfold wpx, run, wps, wp. by destruct (m s) as [[a s']|]. Qed.
Lemma wpx_mono {A} (m : prog S A) s (Φ Φ' : A → S → Prop) (Ψ Ψ' : Z → S → Prop) :
  wpx m s Φ Ψ → (∀ a s', Φ a s' → Φ' a s') → (∀ c s', Ψ c s' → Ψ' c s') → wpx m s Φ' Ψ'.
Proof. unfold wpx. destruct (m s) as [[[c|a] s']|]; auto. Qed.

Lemma wpx_while {X R} (I : nat → X → S → Prop) (Q : R → S → Prop) Ψ n fuel body x s :
  I n x s → (n < fuel)%nat →
  (∀ k y t, I k y t → wpx (body y) t (λ r t',
     match r with inl y' => ∃ k', (k' < k)%nat ∧ I k' y' t' | inr r => Q r t' end) Ψ) →
  wpx (pwhile fuel body x) s Q Ψ.
Proof.
  intros HI Hn Hb.
  assert (wps (pwhile fuel body x) s (λ r s', match r with inl c => Ψ c s' | inr a => Q a s' end)) as Hw.
  { apply (wps_mwhile I _ n); [done|done|]. intros k y t Hk. specialize (Hb k y t Hk). unfold wpx in Hb. unfold wps, wp.
    by destruct (body y t) as [[[c|[y'|r]] t']|]. }
  unfold wpx. unfold wps, wp in Hw. by destruct (pwhile fuel body x s) as [[[c|a] s']|].
Qed.

Lemma wpx_for (I : Z → S → Prop) Ψ n i body s :
  I i s → (∀ j t, i ≤ j < i + Z.of_nat n → I j t → wpx (body j) t (λ _ t', I (j + 1) t') Ψ) →
  wpx (pfor n i body) s (λ _ s', I (i + Z.of_nat n) s') Ψ.
Proof.
  revert i s. induction n as [|n IH]; intros i s HI Hb; simpl.
  - rewrite wpx_ret. by rewrite Z.add_0_r.
  - rewrite wpx_bind. eapply wpx_mono; [apply Hb; [lia|done]| |done]. intros [] s' HI'.
    replace (i + Z.succ (Z.of_nat n)) with (i + 1 + Z.of_nat n) by lia.
    replace (i + Z.of_nat (Datatypes.S n)) with (i + 1 + Z.of_nat n) by lia.
    apply IH; [done|]. intros j t Hj. apply Hb. lia.
Qed.
End prog.

#[global] Arguments wpx : simpl never.
#[global] Arguments pwhile : simpl never.
