(* ===== verification/LibC.v ===== *)
(** * Memory and string routines (lib/libc)

    The routines that libc and the kernel share: mem*.c, bzero.c, str*.c, atoi.c.  Memory is a list of
    bytes and a pointer is the index of a byte; a word has four bytes, and is aligned where its
    index is a multiple of four.  Reading or writing outside the list is undefined. *)

From S2P Require Import Prelude.

Abbreviation mem := (list Z).

Definition WORD : Z := 4.

(** A plain char is signed. *)
Definition s8 (b : Z) : Z := if b <? 128 then b else b - 256.

(** ** Blocks of memory *)

(** [d[i] = s[i]] for elements of [u] bytes. *)
Definition copy_elem (u dst src i : Z) (m : mem) : res mem :=
  w ← slice m (src + u * i) u; blit m (dst + u * i) w.

Definition aligned (dst src len : Z) : bool :=
  (dst mod WORD =? 0) && (src mod WORD =? 0) && (len mod WORD =? 0).

Definition memcpy (dst src len : Z) (m : mem) : res mem :=
  if aligned dst src len then for_range (Z.to_nat (len / WORD)) 0 (λ i m, copy_elem WORD dst src i m) m
  else for_range (Z.to_nat len) 0 (λ i m, copy_elem 1 dst src i m) m.

(** The index counts down: in turn [j] of [n] it is [n - j]. *)
Definition memmove (dst src len : Z) (m : mem) : res mem :=
  if dst <? src then memcpy dst src len m
  else if aligned dst src len then
    for_range (Z.to_nat (len / WORD)) 0 (λ j m, copy_elem WORD dst src (len / WORD - j - 1) m) m
  else for_range (Z.to_nat len) 0 (λ j m, copy_elem 1 dst src (len - j - 1) m) m.

Definition memset (ptr ch len : Z) (m : mem) : res mem :=
  for_range (Z.to_nat len) 0 (λ i m, m.[ptr + i <- u8 ch]) m.

Definition bzero (block len : Z) (m : mem) : res mem :=
  if (block mod WORD =? 0) && (len mod WORD =? 0) then
    for_range (Z.to_nat (len / WORD)) 0 (λ i m, blit m (block + WORD * i) [0; 0; 0; 0]) m
  else for_range (Z.to_nat len) 0 (λ i m, m.[block + i <- 0]) m.

Definition memcmp (a b len : Z) (m : mem) : res Z :=
  while_loop (S (Z.to_nat len)) (λ i,
    if i <? len then
      x ← m.[a + i]; y ← m.[b + i];
      if negb (x =? y) then mret (inr (s32 (x - y))) else mret (inl (i + 1))
    else mret (inr 0)) 0.

(** ** Strings *)

(** A loop over a string takes at most one turn for each byte of memory. *)
Definition turns_of (m : mem) : nat := S (length m).

Definition strlen (s : Z) (m : mem) : res Z :=
  while_loop (turns_of m) (λ ret,
    c ← m.[s + ret]; if negb (c =? 0) then mret (inl (u32 (ret + 1))) else mret (inr ret)) 0.

Definition strcpy (dest src : Z) (m : mem) : res mem :=
  while_loop (turns_of m) (λ '(i, m),
    c ← m.[src + i];
    if negb (c =? 0) then m ← m.[dest + i <- c]; mret (inl (u32 (i + 1), m))
    else m ← m.[dest + i <- 0]; mret (inr m)) (0, m).

Definition strcat (dest src : Z) (m : mem) : res mem := offset ← strlen dest m; strcpy (dest + offset) src m.

(** The null pointer is [None]. *)
Definition strchr (s ch : Z) (m : mem) : res (option Z) :=
  while_loop (turns_of m) (λ s,
    c ← m.[s];
    if negb (c =? 0) then
      if s8 c =? ch then mret (inr (Some s)) else mret (inl (s + 1))
    else if s8 c =? ch then mret (inr (Some s)) else mret (inr None)) s.

Definition strrchr (s ch : Z) (m : mem) : res (option Z) :=
  len ← strlen s m;
  while_loop (S (Z.to_nat (u32 (len + 1)))) (λ i,
    if i >? 0 then
      let i := i - 1 in
      c ← m.[s + i];
      if s8 c =? ch then mret (inr (Some (s + i))) else mret (inl i)
    else mret (inr None)) (u32 (len + 1)).

Definition strcmp (a b : Z) (m : mem) : res Z :=
  i ← while_loop (turns_of m) (λ i,
        x ← m.[a + i];
        if negb (x =? 0) then
          y ← m.[b + i];
          if s8 x =? s8 y then mret (inl (u32 (i + 1))) else mret (inr i)
        else mret (inr i)) 0;
  x ← m.[a + i];
  y ← m.[b + i];
  if s8 x >? s8 y then mret 1 else if s8 x =? s8 y then mret 0 else mret (-1).

(** Is the character in the string of separators? *)
Definition in_seps (seps c : Z) (m : mem) : res bool := r ← strchr seps (s8 c) m; mret (bool_decide (is_Some r)).

(** The loops over separators ([want] is true) and over a word. *)
Definition scan_seps (want : bool) (seps p : Z) (m : mem) : res Z :=
  while_loop (turns_of m) (λ p,
    c ← m.[p];
    if c =? 0 then mret (inr p)
    else x ← in_seps seps c m; if eqb x want then mret (inl (p + 1)) else mret (inr p)) p.

(** The word and the context; [string] is null after the first call. *)
Definition strtok_r (string : option Z) (seps : Z) (context : option Z) (m : mem) : res (option Z * option Z * mem) :=
  let context := match string with Some s => Some s | None => context end in
  match context with
  | None => mret (None, None, m)
  | Some head =>
      head ← scan_seps true seps head m;
      c ← m.[head];
      if c =? 0 then mret (None, None, m)
      else
        tail ← scan_seps false seps head m;
        c ← m.[tail];
        if c =? 0 then mret (Some head, None, m)
        else m ← m.[tail <- 0]; mret (Some head, Some (tail + 1), m)
  end.

(** ** Numbers *)

Definition SPACE : Z := 32.
Definition TAB : Z := 9.
Definition MINUS : Z := 45.
Definition PLUS : Z := 43.

(** The index of a character in the string of digits; the terminating null is never asked for. *)
Definition digits : list Z := (λ n, 48 + n) <$> seqZ 0 10.
Definition digit_of (c : Z) : option Z := (λ x, Z.of_nat x.1) <$> list_find (λ d, d = s8 c) digits.

Definition atoi (s : Z) (m : mem) : res Z :=
  s ← while_loop (turns_of m) (λ s,
        c ← m.[s]; if (c =? SPACE) || (c =? TAB) then mret (inl (s + 1)) else mret (inr s)) s;
  c ← m.[s];
  let '(neg, s) := if c =? MINUS then (true, s + 1) else if c =? PLUS then (false, s + 1) else (false, s) in
  val ← while_loop (turns_of m) (λ '(s, val),
          c ← m.[s];
          if negb (c =? 0) then
            match digit_of c with
            | None => mret (inr val)
            | Some digit => mret (inl (s + 1, u32 (u32 (val * 10) + digit)))
            end
          else mret (inr val)) (s, 0);
  if (neg : bool) then mret (s32 (- val)) else mret (s32 val).
