(* ===== verification/LibCThm.v ===== *)
(** * Numerals, and what the memory and string routines do

    The digits of a number in a base, most significant first, and the number that a list of
    digits stands for: what printf writes and atoi reads. *)

From S2P Require Import Prelude.

Fixpoint ndigits (fuel : nat) (b n : Z) : list Z :=
  match fuel with
  | O => []
  | S f => if n <? b then [n] else ndigits f b (n / b) ++ [n mod b]
  end.

(** A number of 32 bits has no more than 32 digits. *)
Definition numeral (b n : Z) : list Z := ndigits 32 b n.

Definition value (b : Z) (ds : list Z) : Z := foldl (λ v d, v * b + d) 0 ds.

Lemma ndigits_S f b n : ndigits (S f) b n = if n <? b then [n] else ndigits f b (n / b) ++ [n mod b].
Proof. done. Qed.

#[global] Arguments ndigits : simpl never.
#[global] Arguments numeral : simpl never.

Section numerals.
Context (b : Z).
Hypothesis Hb : 2 ≤ b.

Lemma quot_bound n k : 0 ≤ n < b ^ Z.succ k → 0 ≤ k → 0 ≤ n / b < b ^ k.
Proof using Hb.
  intros Hn Hk. rewrite Z.pow_succ_r in Hn by done. split; [apply Z.div_pos; lia|].
  apply Z.div_lt_upper_bound; lia.
Qed.

Lemma ndigits_more f : ∀ g n, 0 ≤ n < b ^ Z.of_nat f → (f ≤ g)%nat → (0 < f)%nat → ndigits f b n = ndigits g b n.
Proof using Hb.
  induction f as [|f IH]; intros [|g] n Hn Hfg Hf; [lia|lia|lia|]. rewrite !ndigits_S.
  destruct (Z.ltb_spec n b); [done|]. f_equal. rewrite Nat2Z.inj_succ in Hn.
  destruct f as [|f]; [simpl in Hn; lia|]. apply IH; [|lia|lia]. apply quot_bound; lia.
Qed.

Lemma numeral_step n : 0 ≤ n < 2 ^ 32 → b ≤ n → numeral b n = numeral b (n / b) ++ [n mod b].
Proof using Hb.
  intros Hn Hle. unfold numeral at 1. rewrite (ndigits_S 31), (proj2 (Z.ltb_ge n b) Hle). apply (f_equal (.++ [n mod b])).
  unfold numeral. apply (ndigits_more 31 32); [|lia|lia]. apply quot_bound; [|lia]. split; [lia|].
  apply (Z.lt_le_trans _ (2 ^ 32)); [lia|]. change (Z.succ (Z.of_nat 31)) with 32. apply Z.pow_le_mono_l. lia.
Qed.

Lemma numeral_last n : 0 ≤ n < b → numeral b n = [n].
Proof using Hb. intros Hn. unfold numeral. rewrite (ndigits_S 31). by rewrite (proj2 (Z.ltb_lt n b)) by lia. Qed.

(** Induction on the digits of a number. *)
Lemma numeral_ind (P : Z → Prop) :
  (∀ n, 0 ≤ n < b → P n) → (∀ n, b ≤ n < 2 ^ 32 → P (n / b) → P n) → ∀ n, 0 ≤ n < 2 ^ 32 → P n.
Proof using Hb.
  intros Hlow Hstep n Hn. generalize Hn. pattern n. apply Z_lt_induction; [|lia]. clear n Hn. intros n IH Hn.
  destruct (decide (n < b)); [apply Hlow; lia|]. apply Hstep; [lia|].
  assert (0 ≤ n / b < n) by (split; [apply Z.div_pos; lia|apply Z.div_lt; lia]). apply IH; lia.
Qed.

Lemma numeral_digits n : 0 ≤ n < 2 ^ 32 → Forall (λ d, 0 ≤ d < b) (numeral b n).
Proof using Hb.
  revert n. apply numeral_ind; intros n Hn.
  - rewrite numeral_last by done. repeat constructor; lia.
  - intros IH. rewrite numeral_step by lia. apply Forall_app. split; [done|].
    repeat constructor; apply Z.mod_pos_bound; lia.
Qed.

Lemma value_app l d : value b (l ++ [d]) = value b l * b + d.
Proof using. unfold value. by rewrite foldl_app. Qed.

Lemma value_numeral n : 0 ≤ n < 2 ^ 32 → value b (numeral b n) = n.
Proof using Hb.
  revert n. apply numeral_ind; intros n Hn.
  - by rewrite numeral_last.
  - intros IH. rewrite numeral_step by lia. rewrite value_app, IH.
    pose proof (Z.div_mod n b). lia.
Qed.

Lemma numeral_size k n : 0 ≤ n < 2 ^ 32 → n < b ^ Z.of_nat (S k) → (length (numeral b n) ≤ S k)%nat.
Proof using Hb.
  intros Hn. revert k. pattern n. apply numeral_ind; [..|done]; clear n Hn; intros n Hn.
  - intros k _. rewrite numeral_last by done. simpl. lia.
  - intros IH [|k] Hk; [simpl in Hk; lia|]. rewrite numeral_step by lia. rewrite length_app. simpl.
    enough (length (numeral b (n / b)) ≤ S k)%nat by lia. apply IH.
    apply quot_bound; [|lia]. rewrite <- Nat2Z.inj_succ. lia.
Qed.

Lemma numeral_head n : 0 < n < 2 ^ 32 → ∃ d l, numeral b n = d :: l ∧ 0 < d < b.
Proof using Hb.
  intros Hn. assert (Hp : 0 < n) by lia. assert (Hn' : 0 ≤ n < 2 ^ 32) by lia. clear Hn. revert Hp.
  pattern n. apply numeral_ind; [..|done]; clear n Hn'; intros n Hn.
  - intros Hp. exists n, []. rewrite numeral_last by lia. split; [done|lia].
  - intros IH _. destruct IH as (d & l & Hd & Hlt).
    { apply Z.div_str_pos. lia. }
    exists d, (l ++ [n mod b]). rewrite numeral_step by lia. by rewrite Hd.
Qed.
End numerals.

(** ** Sums in an int *)

Lemma s32_in z : is_s32 (s32 z).
Proof. unfold is_s32, s32. pose proof (Z.mod_pos_bound (z + 2 ^ 31) (2 ^ 32)). lia. Qed.

Lemma s32_plus x y : s32 (s32 x + y) = s32 (x + y).
Proof.
  unfold s32. f_equal. replace ((x + 2 ^ 31) mod 2 ^ 32 - 2 ^ 31 + y + 2 ^ 31) with ((x + 2 ^ 31) mod 2 ^ 32 + y) by lia.
  rewrite Z.add_mod_idemp_l by lia. f_equal. lia.
Qed.

(** ** The routines

    Each routine against a definition on lists: copying is one [splice] however the blocks overlap
    and however the loop is unrolled into words; strings are lists of characters. *)

From S2P Require Import Prelude LibC.

Lemma wp_eq {A} (r : res A) (a : A) : wp r (λ x, x = a) → r = Ok a.
Proof. intros (x & -> & ->)%wp_exists. done. Qed.

(** ** Copying *)

Section copy.
Implicit Types (m d : mem).

Lemma splice_before m a d d' :
  0 ≤ a → a + zlen d + zlen d' ≤ zlen m → splice (splice m (a + zlen d) d') a d = splice m a (d ++ d').
Proof.
  intros Ha Hl. apply list_eq. intros i. rewrite !lookup_splice by (rewrite ?length_splice, ?length_app; lia).
  rewrite length_app. destruct (decide (a ≤ Z.of_nat i < a + zlen d)).
  - rewrite decide_True by lia. by rewrite lookup_app_l by lia.
  - destruct (decide (a + zlen d ≤ Z.of_nat i < a + zlen d + zlen d')).
    + rewrite decide_True by lia. rewrite lookup_app_r by lia. f_equal. lia.
    + by rewrite decide_False by lia.
Qed.

Lemma copy_elem_ok u dst src i m (Φ : mem → Prop) :
  0 ≤ u → 0 ≤ dst + u * i → dst + u * i + u ≤ zlen m → 0 ≤ src + u * i → src + u * i + u ≤ zlen m →
  Φ (splice m (dst + u * i) (sub m (src + u * i) u)) → wp (copy_elem u dst src i m) Φ.
Proof.
  intros Hu Hd Hd' Hs Hs' HΦ. unfold copy_elem. rewrite wp_bind. apply wp_slice; [lia..|].
  apply wp_blit; rewrite ?length_sub; (lia || done).
Qed.

(** From the front: right when the destination does not lie inside the source behind its start. *)
Lemma copy_forward u n dst src m :
  0 < u → 0 ≤ dst → 0 ≤ src → dst + u * Z.of_nat n ≤ zlen m → src + u * Z.of_nat n ≤ zlen m →
  dst ≤ src ∨ src + u * Z.of_nat n ≤ dst →
  wp (for_range n 0 (λ i m, copy_elem u dst src i m) m) (λ m', m' = splice m dst (sub m src (u * Z.of_nat n))).
Proof.
  intros Hu Hd Hs Hfd Hfs Hov. eapply wp_mono; [apply (wp_for_range (λ j m', m' = splice m dst (sub m src (u * j))))|].
  - rewrite Z.mul_0_r, sub_0. by rewrite splice_nil.
  - intros j m' Hj ->. assert (0 ≤ u * j) by nia. assert (u * j + u ≤ u * Z.of_nat n) by nia.
    assert (zlen (sub m src (u * j)) = u * j) as Hl by (apply length_sub; lia).
    assert (length (splice m dst (sub m src (u * j))) = length m) as Hlen by (apply length_splice; lia).
    apply copy_elem_ok; rewrite ?Hlen; try lia.
    rewrite sub_splice_other by lia. rewrite <- Hl at 2. rewrite splice_splice by (rewrite ?length_sub; lia).
    rewrite sub_app by lia. by replace (u * j + u) with (u * (j + 1)) by lia.
  - intros m' ->. by rewrite Z.add_0_l.
Qed.

(** From the back: right when the source does not lie inside the destination behind its start. *)
Lemma copy_backward u n dst src m :
  0 < u → 0 ≤ dst → 0 ≤ src → dst + u * Z.of_nat n ≤ zlen m → src + u * Z.of_nat n ≤ zlen m →
  src ≤ dst ∨ dst + u * Z.of_nat n ≤ src →
  wp (for_range n 0 (λ j m, copy_elem u dst src (Z.of_nat n - j - 1) m) m)
    (λ m', m' = splice m dst (sub m src (u * Z.of_nat n))).
Proof.
  intros Hu Hd Hs Hfd Hfs Hov. set (N := Z.of_nat n) in *.
  eapply wp_mono; [apply (wp_for_range (λ j m', m' = splice m (dst + u * (N - j)) (sub m (src + u * (N - j)) (u * j))))|].
  - rewrite Z.mul_0_r, sub_0. by rewrite splice_nil.
  - intros j m' Hj ->. assert (0 ≤ u * (N - j - 1)) by nia. assert (u * (N - j) = u * (N - j - 1) + u) as Hstep by lia.
    assert (u * (N - j) + u * j = u * N) by lia. assert (0 ≤ u * j) by nia.
    assert (zlen (sub m (src + u * (N - j)) (u * j)) = u * j) as Hl by (apply length_sub; lia).
    assert (length (splice m (dst + u * (N - j)) (sub m (src + u * (N - j)) (u * j))) = length m) as Hlen by (apply length_splice; lia).
    apply copy_elem_ok; rewrite ?Hlen; try lia.
    rewrite sub_splice_other by lia.
    assert (zlen (sub m (src + u * (N - j - 1)) u) = u) as Hl1 by (apply length_sub; lia).
    rewrite Hstep, !Z.add_assoc. rewrite <- Hl1 at 2. rewrite splice_before.
    + rewrite sub_app by lia. by replace (N - (j + 1)) with (N - j - 1) by lia; replace (u + u * j) with (u * (j + 1)) by lia.
    + lia.
    + rewrite Hl1, length_sub; lia.
  - intros m' ->. rewrite Z.add_0_l, Z.sub_diag, Z.mul_0_r, !Z.add_0_r. done.
Qed.
End copy.

Lemma aligned_words dst src len : 0 ≤ len → aligned dst src len = true → WORD * Z.of_nat (Z.to_nat (len / WORD)) = len.
Proof.
  intros Hl Ha. unfold aligned, WORD in *. assert (0 ≤ len / 4) by (apply Z.div_pos; lia).
  pose proof (Z.div_mod len 4 ltac:(lia)). lia.
Qed.

Section blocks.
Implicit Types (m : mem).

(** Two blocks that fit the memory. *)
Definition fit (dst src len : Z) m : Prop := 0 ≤ dst ∧ 0 ≤ src ∧ 0 ≤ len ∧ dst + len ≤ zlen m ∧ src + len ≤ zlen m.

Lemma memcpy_spec dst src len m :
  fit dst src len m → dst ≤ src ∨ src + len ≤ dst →
  wp (memcpy dst src len m) (λ m', m' = splice m dst (sub m src len)).
Proof.
  intros (Hd & Hs & Hl & Hfd & Hfs) Hov. unfold memcpy. destruct (aligned dst src len) eqn:E.
  - pose proof (aligned_words _ _ _ Hl E) as Hw. eapply wp_mono; [apply copy_forward; rewrite ?Hw; unfold WORD; lia|].
    intros m' ->. by rewrite Hw.
  - eapply wp_mono; [apply copy_forward; lia|]. intros m' ->. by replace (1 * Z.of_nat (Z.to_nat len)) with len by lia.
Qed.

(** C22: memmove moves the block as it was before the call, whether it copies bytes or words, forwards
    or backwards, and however source and destination overlap. *)
Theorem memmove_handles_overlap dst src len m :
  fit dst src len m → memmove dst src len m = Ok (splice m dst (sub m src len)).
Proof.
  intros Hf. apply wp_eq. unfold memmove. destruct (dst <? src) eqn:E; [apply memcpy_spec; [done|lia]|].
  destruct Hf as (Hd & Hs & Hl & Hfd & Hfs). destruct (aligned dst src len) eqn:Ea.
  - pose proof (aligned_words _ _ _ Hl Ea) as Hw. unfold WORD in *.
    pose proof (copy_backward 4 (Z.to_nat (len / 4)) dst src m) as Hc. rewrite Hw in Hc.
    assert (0 ≤ len / 4) by (apply Z.div_pos; lia). rewrite Z2Nat.id in Hc by done. apply Hc; lia.
  - pose proof (copy_backward 1 (Z.to_nat len) dst src m) as Hc. rewrite Z2Nat.id, Z.mul_1_l in Hc by done. apply Hc; lia.
Qed.

Lemma memmove_handles_overlap_witness :
  memmove 4 0 8 [1; 2; 3; 4; 5; 6; 7; 8; 9; 10; 11; 12] = Ok [1; 2; 3; 4; 1; 2; 3; 4; 5; 6; 7; 8].
Proof.
  rewrite (memmove_handles_overlap 4 0 8); [done|]. unfold fit. simpl. lia.
Defined.
End blocks.

(** ** Strings in memory *)

Section strings.
Implicit Types (m s t : list Z) (p : Z).

(** The string [s], with its terminating null, is at [p]. *)
Record str_at m p s : Prop := StrAt {
  sa_pos : 0 ≤ p;
  sa_fit : p + zlen s < zlen m;
  sa_bytes : sub m p (zlen s) = s;
  sa_null : m !! Z.to_nat (p + zlen s) = Some 0;
  sa_chars : Forall (λ c, 0 < c < 256) s;
}.

Lemma str_lookup m p s (i : Z) c : str_at m p s → s !! Z.to_nat i = Some c → 0 ≤ i → m !! Z.to_nat (p + i) = Some c.
Proof.
  intros [Hp Hf Hb _ _] Hc Hi. pose proof (lookup_lt_Some _ _ _ Hc). rewrite <- Hb, lookup_sub in Hc by done.
  rewrite decide_True in Hc by lia. rewrite <- Hc. f_equal. lia.
Qed.

(** A read at an index of the string: one of its characters, or the null. *)
Lemma str_read m p s i (Φ : Z → Prop) :
  str_at m p s → 0 ≤ i ≤ zlen s →
  (∀ c, s !! Z.to_nat i = Some c → i < zlen s → 0 < c < 256 → Φ c) → (i = zlen s → Φ 0) → wp (m.[p + i]) Φ.
Proof.
  intros Hs Hi Hc Hz. apply wp_getz; [destruct Hs; lia|]. intros c Hm. destruct (decide (i = zlen s)) as [->|Hne].
  - rewrite (sa_null _ _ _ Hs) in Hm. injection Hm as <-. by apply Hz.
  - destruct (lookup_lt_is_Some_2 s (Z.to_nat i)) as [c' Hc']; [lia|]. rewrite (str_lookup _ _ _ _ _ Hs Hc') in Hm by lia.
    injection Hm as <-. apply Hc; [done|lia|]. exact (Forall_lookup_1 _ _ _ _ (sa_chars _ _ _ Hs) Hc').
Qed.

Lemma str_turns m p s : str_at m p s → (length s < turns_of m)%nat.
Proof. intros []. unfold turns_of. lia. Qed.

Lemma strlen_spec m p s : str_at m p s → zlen m < 2 ^ 32 → strlen p m = Ok (zlen s).
Proof.
  intros Hs Hm. apply wp_eq. unfold strlen. pose proof (str_turns _ _ _ Hs) as Ht.
  apply (wp_while_variant (λ n i, n = Z.to_nat (zlen s - i) ∧ 0 ≤ i ≤ zlen s) _ (length s)); [lia|done|].
  intros n i [-> Hi]. rewrite wp_bind. eapply str_read; [done|done| |].
  - intros c Hc Hlt Hr. replace (c =? 0) with false by lia. wp_val. destruct Hs. rewrite u32_id by in_range.
    exists (Z.to_nat (zlen s - (i + 1))). lia.
  - intros ->. by wp_val.
Qed.

Lemma splice_char m dst d c : 0 ≤ dst → dst + zlen d < zlen m → <[Z.to_nat (dst + zlen d) := c]> (splice m dst d) = splice m dst (d ++ [c]).
Proof.
  intros Hd Hl. rewrite <- splice_splice by (simpl; lia). apply list_eq. intros j.
  assert (length (splice m dst d) = length m) as Hlen by (apply length_splice; lia).
  rewrite lookup_splice by (rewrite ?Hlen; simpl; lia). change (zlen [c]) with 1.
  destruct (decide (dst + zlen d ≤ Z.of_nat j < dst + zlen d + 1)).
  - assert (j = Z.to_nat (dst + zlen d)) as -> by lia. rewrite list_lookup_insert_eq by lia. by rewrite Nat.sub_diag.
  - by rewrite list_lookup_insert_ne by lia.
Qed.

(** The string may lie above the destination, or below all of it. *)
Lemma strcpy_spec m dest src s :
  str_at m src s → 0 ≤ dest → dest + zlen s < zlen m → dest ≤ src ∨ src + zlen s < dest → zlen m < 2 ^ 32 →
  strcpy dest src m = Ok (splice m dest (s ++ [0])).
Proof.
  intros Hs Hd Hfit Hov Hm. apply wp_eq. unfold strcpy. pose proof (str_turns _ _ _ Hs) as Ht.
  apply (wp_while_variant (λ n '(i, m'), n = Z.to_nat (zlen s - i) ∧ 0 ≤ i ≤ zlen s ∧ m' = splice m dest (take (Z.to_nat i) s))
    _ (length s)); [|done|].
  - split; [lia|]. split; [lia|]. symmetry. apply splice_nil.
  - intros n [i m'] (-> & Hi & ->). assert (zlen (take (Z.to_nat i) s) = i) as Hl by (rewrite length_take; lia).
    assert (length (splice m dest (take (Z.to_nat i) s)) = length m) as Hlen by (apply length_splice; lia).
    assert (∀ c, m !! Z.to_nat (src + i) = Some c → splice m dest (take (Z.to_nat i) s) !! Z.to_nat (src + i) = Some c) as Hsame.
    { intros c Hc. pose proof (sa_pos _ _ _ Hs). rewrite lookup_splice by lia. by rewrite decide_False by lia. }
    pose proof (sa_pos _ _ _ Hs) as Hp. pose proof (sa_fit _ _ _ Hs) as Hf. rewrite wp_bind. apply wp_getz; [lia|].
    intros c Hc. destruct (decide (i = zlen s)) as [->|Hne].
    + rewrite (Hsame 0) in Hc by apply Hs. injection Hc as <-. cbn [negb Z.eqb]. rewrite wp_bind. apply wp_setz; [lia|]. wp_val.
      rewrite take_ge by lia. by apply splice_char.
    + destruct (lookup_lt_is_Some_2 s (Z.to_nat i)) as [c' Hc']; [lia|].
      rewrite (Hsame c') in Hc by (by eapply str_lookup; [..|lia]). injection Hc as <-.
      pose proof (Forall_lookup_1 _ _ _ _ (sa_chars _ _ _ Hs) Hc') as Hr. simpl in Hr. replace (c' =? 0) with false by lia.
      cbn [negb]. rewrite wp_bind. apply wp_setz; [lia|]. wp_val. rewrite u32_id by in_range.
      exists (Z.to_nat (zlen s - (i + 1))). split; [lia|]. split; [lia|]. split; [lia|].
      replace (Z.to_nat (i + 1)) with (S (Z.to_nat i)) by lia. rewrite (take_S_r _ _ _ Hc').
      rewrite <- splice_char by lia. by rewrite Hl.
Qed.

Lemma strcat_spec m dest src s t :
  str_at m dest s → str_at m src t → dest + zlen s + zlen t < zlen m → zlen m < 2 ^ 32 →
  src + zlen t < dest + zlen s ∨ dest + zlen s ≤ src →
  strcat dest src m = Ok (splice m (dest + zlen s) (t ++ [0])).
Proof.
  intros Hs Ht Hfit Hm Hov. pose proof (sa_pos _ _ _ Hs). unfold strcat. rewrite (strlen_spec m dest s) by done.
  apply (strcpy_spec m (dest + zlen s) src t Ht); lia.
Qed.

(** The first place of a character. *)
Definition chars_of s : list Z := s8 <$> s.

Lemma s8_inj x y : 0 ≤ x < 256 → 0 ≤ y < 256 → s8 x = s8 y → x = y.
Proof. unfold s8. intros. destruct (x <? 128) eqn:?, (y <? 128) eqn:?; lia. Qed.

Lemma s8_nonzero c : 0 < c < 256 → s8 c ≠ 0.
Proof. unfold s8. destruct (c <? 128) eqn:?; lia. Qed.

Lemma strchr_spec m p s c :
  str_at m p s → 0 < c < 256 →
  strchr p (s8 c) m = Ok ((λ x, p + Z.of_nat x.1) <$> list_find (λ x, x = c) s).
Proof.
  intros Hs Hc. apply wp_eq. unfold strchr. pose proof (str_turns _ _ _ Hs) as Ht.
  apply (wp_while_variant (λ n q, ∃ i, q = p + i ∧ 0 ≤ i ≤ zlen s ∧ n = Z.to_nat (zlen s - i) ∧ c ∉ take (Z.to_nat i) s) _ (length s)).
  - exists 0. split; [lia|]. split; [lia|]. split; [lia|]. apply not_elem_of_nil.
  - done.
  - intros n q (i & -> & Hi & -> & Hno). rewrite wp_bind. eapply str_read; [done|done| |].
    + intros x Hx Hlt Hr. replace (x =? 0) with false by lia. cbn [negb]. destruct (s8 x =? s8 c) eqn:E.
      * apply Z.eqb_eq, s8_inj in E as ->; [|lia|lia]. wp_val.
        rewrite (proj2 (list_find_Some _ s (Z.to_nat i) c)); [simpl; do 2 f_equal; lia|]. split; [done|]. split; [done|].
        intros j y Hj Hlt' ->. apply Hno. apply list_elem_of_lookup. exists j. by rewrite lookup_take_lt by lia.
      * wp_val. exists (Z.to_nat (zlen s - (i + 1))). split; [lia|]. exists (i + 1). split; [lia|]. split; [lia|]. split; [done|].
        replace (Z.to_nat (i + 1)) with (S (Z.to_nat i)) by lia. rewrite (take_S_r _ _ _ Hx), elem_of_app, list_elem_of_singleton.
        intros [?|<-]; [done|lia].
    + intros ->. cbn [negb Z.eqb]. change (s8 0) with 0. pose proof (s8_nonzero c Hc). replace (0 =? s8 c) with false by lia.
      wp_val. rewrite (proj2 (list_find_None _ s)); [done|]. rewrite take_ge in Hno by lia. apply Forall_forall. by intros x Hx ->.
Qed.

Lemma in_seps_spec m q seps c : str_at m q seps → 0 < c < 256 → in_seps q c m = Ok (bool_decide (c ∈ seps)).
Proof.
  intros Hq Hc. unfold in_seps. rewrite (strchr_spec m q seps c Hq Hc). simpl. f_equal. apply bool_decide_ext.
  rewrite fmap_is_Some. split.
  - intros [[i x] [Hi [-> _]]%list_find_Some]. by apply list_elem_of_lookup_2 with i.
  - intros Hin. destruct (list_find (λ x, x = c) seps) eqn:E; [by eexists|]. apply list_find_None in E.
    rewrite Forall_forall in E. by destruct (E c Hin).
Qed.

(** ** Comparing *)

(** The order of strings: at the first difference the characters decide, and an end comes first. *)
Fixpoint lex s t : Z :=
  match s, t with
  | [], [] => 0
  | [], y :: _ => if 0 >? s8 y then 1 else -1
  | x :: _, [] => if s8 x >? 0 then 1 else -1
  | x :: s, y :: t => if s8 x =? s8 y then lex s t else if s8 x >? s8 y then 1 else -1
  end.

Lemma lex_same u s t : lex (u ++ s) (u ++ t) = lex s t.
Proof. induction u as [|x u IH]; [done|]. simpl. by rewrite Z.eqb_refl. Qed.

Lemma lex_zero s t : Forall (λ c, 0 < c < 256) s → Forall (λ c, 0 < c < 256) t → lex s t = 0 ↔ s = t.
Proof.
  intros Hs. revert t. induction Hs as [|x s Hx Hs IH]; intros t Ht.
  - destruct t as [|y t]; [done|]. simpl. by destruct (0 >? s8 y).
  - destruct Ht as [|y t Hy Ht]; simpl; [by destruct (s8 x >? 0)|]. destruct (s8 x =? s8 y) eqn:E.
    + rewrite IH by done. apply Z.eqb_eq, s8_inj in E as ->; [|lia|lia]. naive_solver.
    + destruct (s8 x >? s8 y); split; try done; intros [= -> _]; lia.
Qed.

(** The character at an index, with the null at the end. *)
Definition char_at s (i : Z) : Z := default 0 (s !! Z.to_nat i).

Lemma str_char m p s i : str_at m p s → 0 ≤ i ≤ zlen s → m.[p + i] = Ok (char_at s i).
Proof.
  intros Hs Hi. apply wp_eq. eapply str_read; [done|done| |].
  - intros c Hc _ _. unfold char_at. by rewrite Hc.
  - intros ->. unfold char_at. by rewrite lookup_ge_None_2 by lia.
Qed.

Lemma lex_step s t : Forall (λ c, 0 < c < 256) s → Forall (λ c, 0 < c < 256) t →
  s8 (char_at s 0) ≠ s8 (char_at t 0) ∨ s = [] →
  lex s t = if s8 (char_at s 0) >? s8 (char_at t 0) then 1 else if s8 (char_at s 0) =? s8 (char_at t 0) then 0 else -1.
Proof.
  intros Hs Ht Hne. destruct Hs as [|x s Hx Hs], Ht as [|y t Hy Ht]; unfold char_at in *; simpl in *.
  - done.
  - change (s8 0) with 0. pose proof (s8_nonzero y Hy). destruct (0 >? s8 y) eqn:?; [done|]. by destruct (s8 y).
  - change (s8 0) with 0. pose proof (s8_nonzero x Hx). destruct (s8 x >? 0) eqn:?; [done|]. by replace (s8 x =? 0) with false by lia.
  - destruct Hne as [Hne|?]; [|done]. by replace (s8 x =? s8 y) with false by lia.
Qed.

Lemma strcmp_spec m p q s t :
  str_at m p s → str_at m q t → zlen m < 2 ^ 32 → strcmp p q m = Ok (lex s t).
Proof.
  intros Hs Ht Hm. apply wp_eq. unfold strcmp. rewrite wp_bind. pose proof (str_turns _ _ _ Hs) as Htn.
  pose proof (sa_fit _ _ _ Hs). pose proof (sa_pos _ _ _ Hs).
  apply (wp_while_variant (λ n i, n = Z.to_nat (zlen s - i) ∧ 0 ≤ i ≤ zlen s ∧ i ≤ zlen t ∧ take (Z.to_nat i) s = take (Z.to_nat i) t)
    _ (length s)); [split_and!; (done || lia)|done|].
  intros n i (-> & Hi & Hi2 & Heq). rewrite (str_char m p s i) by done.
  assert (∀ r : Z, lex (drop (Z.to_nat i) s) (drop (Z.to_nat i) t) = r → lex s t = r) as Hdrop.
  { intros r <-. rewrite <- (take_drop (Z.to_nat i) s) at 1. rewrite <- (take_drop (Z.to_nat i) t) at 1. by rewrite Heq, lex_same. }
  assert (∀ u, char_at (drop (Z.to_nat i) u) 0 = char_at u i) as Hch.
  { intros u. unfold char_at. rewrite lookup_drop. do 2 f_equal. lia. }
  pose proof (Forall_drop _ (Z.to_nat i) _ (sa_chars _ _ _ Hs)) as Fs. pose proof (Forall_drop _ (Z.to_nat i) _ (sa_chars _ _ _ Ht)) as Ft.
  assert (s8 (char_at s i) ≠ s8 (char_at t i) ∨ i = zlen s →
    wp (x ← m.[p + i]; y ← m.[q + i]; if s8 x >? s8 y then mret 1 else if s8 x =? s8 y then mret 0 else mret (-1)) (λ r, r = lex s t)) as Hend.
  { intros Hne. rewrite (str_char m p s i), (str_char m q t i) by (done || lia). simpl.
    rewrite (Hdrop _ (lex_step _ _ Fs Ft ltac:(rewrite !Hch; destruct Hne as [?| ->]; [by left|right; apply drop_ge; lia]))), !Hch.
    by destruct (s8 (char_at s i) >? s8 (char_at t i)), (s8 (char_at s i) =? s8 (char_at t i)). }
  simpl. destruct (char_at s i =? 0) eqn:E0; cbn [negb].
  - wp_val. apply Hend. right. unfold char_at in E0. destruct (s !! Z.to_nat i) as [c|] eqn:Ec.
    + pose proof (Forall_lookup_1 _ _ _ _ (sa_chars _ _ _ Hs) Ec). simpl in *. lia.
    + apply lookup_ge_None in Ec. lia.
  - rewrite (str_char m q t i) by (done || lia). simpl. destruct (s8 (char_at s i) =? s8 (char_at t i)) eqn:E1.
    + wp_val. rewrite u32_id by in_range. unfold char_at in E0, E1. destruct (s !! Z.to_nat i) as [c|] eqn:Ec; [|done]. simpl in *.
      pose proof (Forall_lookup_1 _ _ _ _ (sa_chars _ _ _ Hs) Ec) as Hc. simpl in Hc.
      destruct (t !! Z.to_nat i) as [c'|] eqn:Ec'; simpl in E1; [|pose proof (s8_nonzero c Hc); change (s8 0) with 0 in E1; lia].
      pose proof (Forall_lookup_1 _ _ _ _ (sa_chars _ _ _ Ht) Ec') as Hc'. simpl in Hc'. apply Z.eqb_eq, s8_inj in E1 as ->; [|lia|lia].
      pose proof (lookup_lt_Some _ _ _ Ec). pose proof (lookup_lt_Some _ _ _ Ec'). exists (Z.to_nat (zlen s - (i + 1))).
      split_and!; try lia. replace (Z.to_nat (i + 1)) with (S (Z.to_nat i)) by lia. by rewrite (take_S_r _ _ _ Ec), (take_S_r _ _ _ Ec'), Heq.
    + wp_val. apply Hend. left. lia.
Qed.
End strings.

(** ** Splitting into words *)

Section words.
Variable seps : list Z.
Implicit Types (m s w : list Z).

(** The words of a string: the longest pieces without separators. *)
Fixpoint words_from (acc s : list Z) : list (list Z) :=
  match s with
  | [] => if acc is [] then [] else [acc]
  | c :: s =>
      if bool_decide (c ∈ seps) then (if acc is [] then words_from [] s else acc :: words_from [] s)
      else words_from (acc ++ [c]) s
  end.
Definition words s : list (list Z) := words_from [] s.

Lemma words_skip pre s : Forall (λ c, c ∈ seps) pre → words (pre ++ s) = words s.
Proof. unfold words. induction 1 as [|c pre Hc _ IH]; simpl; [done|]. by rewrite bool_decide_true. Qed.

Lemma words_run acc w s : Forall (λ c, c ∉ seps) w → words_from acc (w ++ s) = words_from (acc ++ w) s.
Proof.
  intros Hw. revert acc. induction Hw as [|c w Hc _ IH]; intros acc; simpl; [by rewrite app_nil_r|].
  rewrite bool_decide_false by done. by rewrite IH, <- app_assoc.
Qed.

Lemma words_one w : w ≠ [] → Forall (λ c, c ∉ seps) w → words w = [w].
Proof. intros Hne Hw. unfold words. rewrite <- (app_nil_r w) at 1. rewrite words_run by done. simpl. by destruct w. Qed.

Lemma words_next w c s : w ≠ [] → Forall (λ c, c ∉ seps) w → c ∈ seps → words (w ++ c :: s) = w :: words s.
Proof. intros Hne Hw Hc. unfold words. rewrite words_run by done. simpl. rewrite bool_decide_true by done. by destruct w. Qed.

(** A string is separators, a word, and a rest that starts with a separator. *)
Lemma span (P : Z → Prop) `{∀ c, Decision (P c)} s :
  ∃ u v, s = u ++ v ∧ Forall P u ∧ (v = [] ∨ ∃ c v', v = c :: v' ∧ ¬ P c).
Proof.
  induction s as [|c s (u & v & -> & Hu & Hv)]; [exists [], []; by split_and!; [|constructor|left]|].
  destruct (decide (P c)) as [Hc|Hc].
  - exists (c :: u), v. split; [done|]. split; [by constructor|done].
  - exists [], (c :: u ++ v). split; [done|]. split; [constructor|]. right. eauto.
Qed.

Lemma scan_spec m q p u v want :
  str_at m q seps → str_at m p (u ++ v) → Forall (λ c, bool_decide (c ∈ seps) = want) u →
  (v = [] ∨ ∃ c v', v = c :: v' ∧ bool_decide (c ∈ seps) ≠ want) → scan_seps want q p m = Ok (p + zlen u).
Proof.
  intros Hq Hp Hu Hv. apply wp_eq. unfold scan_seps. pose proof (str_turns _ _ _ Hp) as Ht. rewrite length_app in Ht.
  apply (wp_while_variant (λ n h, ∃ i, h = p + i ∧ 0 ≤ i ≤ zlen u ∧ n = Z.to_nat (zlen u - i)) _ (length u)).
  - exists 0. split_and!; lia.
  - lia.
  - intros n h (i & -> & Hi & ->). rewrite wp_bind. eapply str_read; [exact Hp|rewrite length_app; lia| |].
    + intros c Hc Hlt Hr. replace (c =? 0) with false by lia. rewrite (in_seps_spec m q seps c Hq Hr). simpl.
      destruct (decide (i = zlen u)) as [->|Hne].
      * rewrite lookup_app_r in Hc by lia. replace (Z.to_nat (zlen u) - length u)%nat with 0%nat in Hc by lia.
        destruct Hv as [->|(c' & v' & -> & Hno)]; [done|]. injection Hc as ->. destruct (eqb _ want) eqn:E; [by apply eqb_prop in E|].
        by wp_val.
      * rewrite lookup_app_l in Hc by lia. pose proof (Forall_lookup_1 _ _ _ _ Hu Hc) as Hx. simpl in Hx. rewrite Hx, eqb_reflx. wp_val.
        exists (Z.to_nat (zlen u - (i + 1))). split; [lia|]. exists (i + 1). split_and!; lia.
    + intros Hend. rewrite length_app in Hend. change (0 =? 0) with true. cbv iota. wp_val. simpl. lia.
Qed.

(** The parts of a string in memory are strings. *)
Lemma str_suffix m p u v : str_at m p (u ++ v) → str_at m (p + zlen u) v.
Proof.
  intros [Hp Hf Hb Hn Hc]. rewrite length_app in *. constructor.
  - lia.
  - lia.
  - rewrite Nat2Z.inj_add, <- sub_app in Hb by lia. apply app_inj_1 in Hb as [_ ?]; [done|].
    apply Nat2Z.inj. rewrite length_sub; lia.
  - rewrite <- Hn. f_equal. lia.
  - by apply Forall_app in Hc as [_ ?].
Qed.

Lemma str_cut m p u c v :
  str_at m p (u ++ c :: v) →
  let m' := <[Z.to_nat (p + zlen u) := 0]> m in str_at m' p u ∧ str_at m' (p + zlen u + 1) v.
Proof.
  intros Hs m'. pose proof (str_suffix m p (u ++ [c]) v) as Hv. rewrite <- app_assoc in Hv. specialize (Hv Hs).
  rewrite length_app in Hv. simpl in Hv. pose proof (sa_pos _ _ _ Hs) as Hp. pose proof (sa_fit _ _ _ Hs) as Hf.
  rewrite length_app in Hf. simpl in Hf.
  assert (∀ a n, 0 ≤ a → a + n ≤ p + zlen u ∨ p + zlen u < a → sub m' a n = sub m a n) as Hsub.
  { intros a n Ha Hd. apply list_eq. intros i. rewrite !lookup_sub by lia. destruct (decide _); [|done].
    unfold m'. by rewrite list_lookup_insert_ne by lia. }
  assert (length m' = length m) as Hlen by apply length_insert.
  split; constructor; rewrite ?Hlen; try lia.
  - rewrite Hsub by lia. destruct Hs as [_ _ Hb _ _]. rewrite length_app, Nat2Z.inj_add in Hb.
    rewrite <- sub_app in Hb by lia. apply app_inj_1 in Hb as [? _]; [done|]. apply Nat2Z.inj. rewrite length_sub; lia.
  - unfold m'. by rewrite list_lookup_insert_eq by lia.
  - destruct Hs as [_ _ _ _ Hc]. by apply Forall_app in Hc as [? _].
  - rewrite Hsub by lia. destruct Hv as [_ _ Hb _ _]. by replace (p + zlen u + 1) with (p + Z.of_nat (length u + 1)) by lia.
  - unfold m'. rewrite list_lookup_insert_ne by lia. destruct Hv as [_ _ _ Hn _]. rewrite <- Hn. f_equal. lia.
  - apply Hv.
Qed.

(** A write outside a string. *)
Lemma str_other m p s a x : str_at m p s → a < p ∨ p + zlen s < a → 0 ≤ a → str_at (<[Z.to_nat a := x]> m) p s.
Proof.
  intros [Hp Hf Hb Hn Hc] Ha Ha0. constructor; rewrite ?length_insert; try done.
  - rewrite <- Hb at 2. apply list_eq. intros i. rewrite !lookup_sub by lia. destruct (decide _); [|done].
    by rewrite list_lookup_insert_ne by lia.
  - by rewrite list_lookup_insert_ne by lia.
Qed.

Lemma str_below m m' p s :
  str_at m p s → length m' = length m → (∀ i, 0 ≤ i ≤ p + zlen s → m' !! Z.to_nat i = m !! Z.to_nat i) → str_at m' p s.
Proof.
  intros [Hp Hf Hb Hn Hc] Hl Hsame. constructor; rewrite ?Hl; try done; [|rewrite Hsame; [done|lia]].
  rewrite <- Hb at 2. apply list_eq. intros i. rewrite !lookup_sub by lia. destruct (decide _); [|done].
  pose proof (Hsame (p + Z.of_nat i) ltac:(lia)) as Hx. by replace (Z.to_nat (p + Z.of_nat i)) with (Z.to_nat p + i)%nat in Hx by lia.
Qed.

(** What one call finds. *)
Inductive token p s : option Z → option Z → list (list Z) → Prop :=
  | tk_none : words s = [] → token p s None None []
  | tk_last pre w : s = pre ++ w → words s = [w] → token p s (Some (p + zlen pre)) None [w]
  | tk_more pre w c rest : s = pre ++ w ++ c :: rest → words s = w :: words rest →
      token p s (Some (p + zlen pre)) (Some (p + zlen pre + zlen w + 1)) (w :: words rest).

Lemma seps_true (u : list Z) : Forall (λ c, c ∈ seps) u → Forall (λ c, bool_decide (c ∈ seps) = true) u.
Proof. intros Hu. eapply Forall_impl; [exact Hu|]. intros c. by apply bool_decide_true. Qed.
Lemma seps_false (u : list Z) : Forall (λ c, c ∉ seps) u → Forall (λ c, bool_decide (c ∈ seps) = false) u.
Proof. intros Hu. eapply Forall_impl; [exact Hu|]. intros c. by apply bool_decide_false. Qed.

Lemma strtok_spec m q p s :
  str_at m q seps → str_at m p s →
  wp (strtok_r None q (Some p) m) (λ '(r, ctx, m'), ∃ ws, token p s r ctx ws ∧
    match ctx with None => m' = m | Some b => m' = <[Z.to_nat (b - 1) := 0]> m end).
Proof.
  intros Hq Hp. destruct (span (λ c, c ∈ seps) s) as (pre & v & -> & Hpre & Hv). unfold strtok_r.
  rewrite (scan_spec m q p pre v true Hq Hp (seps_true _ Hpre)).
  2: { destruct Hv as [->|(c & v' & -> & Hc)]; [by left|]. right. exists c, v'. split; [done|]. by rewrite bool_decide_false. }
  pose proof (str_suffix _ _ _ _ Hp) as Hsv. simpl. pose proof (str_char m (p + zlen pre) v 0 Hsv ltac:(lia)) as Hr. rewrite Z.add_0_r in Hr.
  rewrite Hr. simpl. destruct Hv as [->|(c & v' & -> & Hc)].
  { wp_val. exists []. split; [|done]. constructor. by rewrite words_skip. }
  pose proof (sa_chars _ _ _ Hsv) as Hch. pose proof (Forall_inv Hch) as Hc0. simpl in Hc0.
  change (char_at (c :: v') 0) with c. replace (c =? 0) with false by lia.
  destruct (span (λ c, c ∉ seps) (c :: v')) as (w & rest & Hw & Hnw & Hrest). rewrite Hw in *.
  assert (w ≠ []) as Hne.
  { intros ->. destruct Hrest as [->|(c' & r' & -> & Hin)]; [done|]. simpl in Hw. by injection Hw as -> ->. }
  rewrite (scan_spec m q (p + zlen pre) w rest false Hq Hsv (seps_false _ Hnw)).
  2: { destruct Hrest as [->|(c' & r' & -> & Hin)]; [by left|]. right. exists c', r'. split; [done|].
       destruct (decide (c' ∈ seps)); [by rewrite bool_decide_true|done]. }
  simpl. pose proof (str_suffix _ _ _ _ Hsv) as Hsr. pose proof (str_char m _ rest 0 Hsr ltac:(lia)) as Hr2. rewrite Z.add_0_r in Hr2.
  rewrite Hr2. simpl. destruct Hrest as [->|(c' & r' & -> & Hin)].
  - wp_val. exists [w]. split; [|done]. rewrite app_nil_r. constructor; [done|]. rewrite words_skip by done. by apply words_one.
  - pose proof (Forall_inv (sa_chars _ _ _ Hsr)) as Hc1. simpl in Hc1. change (char_at (c' :: r') 0) with c'. replace (c' =? 0) with false by lia.
    pose proof (sa_fit _ _ _ Hsr) as Hfit. pose proof (sa_pos _ _ _ Hsr) as Hpos. rewrite wp_bind. apply wp_setz; [lia|]. wp_val.
    exists (w :: words r'). assert (c' ∈ seps) by (by apply dec_stable). split.
    + eapply tk_more; [done|]. rewrite words_skip by done. by apply words_next.
    + do 2 f_equal. lia.
Qed.

(** Calls until there is no word left. *)
Fixpoint strtok_all (n : nat) (string : option Z) (q : Z) (ctx : option Z) m : res (list Z * list Z) :=
  match n with
  | O => mret ([], m)
  | S n =>
      '(w, ctx, m) ← strtok_r string q ctx m;
      match w with
      | None => mret ([], m)
      | Some p => '(ps, m) ← strtok_all n None q ctx m; mret (p :: ps, m)
      end
  end.

Lemma strtok_all_spec n m q p s :
  str_at m q seps → str_at m p s → q + zlen seps < p ∨ p + zlen s < q → (length s < n)%nat →
  wp (strtok_all n None q (Some p) m) (λ '(ps, m'), Forall2 (str_at m') ps (words s) ∧ length m' = length m ∧
    ∀ i, 0 ≤ i < p → m' !! Z.to_nat i = m !! Z.to_nat i).
Proof.
  revert m p s. induction n as [|n IH]; intros m p s Hq Hp Hsep Hn; [lia|]. cbn [strtok_all]. rewrite wp_bind.
  eapply wp_mono; [by apply strtok_spec|]. intros [[r ctx] m1] (ws & Htk & Hm1). pose proof (sa_pos _ _ _ Hp) as Hp0.
  destruct Htk as [Hw|pre w -> Hw|pre w c rest -> Hw].
  - subst m1. wp_val. rewrite Hw. split; [constructor|done].
  - subst m1. assert (strtok_all n None q None m = Ok ([], m)) as -> by (by destruct n). wp_val. rewrite Hw.
    split; [|done]. constructor; [by apply str_suffix|constructor].
  - rewrite app_assoc in Hp. rewrite !length_app in Hsep, Hn. simpl in Hsep, Hn. pose proof (sa_fit _ _ _ Hp) as Hfit.
    rewrite !length_app in Hfit. simpl in Hfit. destruct (str_cut _ _ _ _ _ Hp) as [Hw1 Hrest]. rewrite length_app in Hw1, Hrest.
    replace (p + zlen pre + zlen w + 1 - 1) with (p + Z.of_nat (length pre + length w)) in Hm1 by lia. rewrite <- Hm1 in Hw1, Hrest.
    assert (length m1 = length m) as Hlen by (subst m1; apply length_insert).
    replace (p + Z.of_nat (length pre + length w) + 1) with (p + zlen pre + zlen w + 1) in Hrest by lia.
    rewrite wp_bind. eapply wp_mono; [apply (IH m1 _ rest); [|exact Hrest|lia|lia]|].
    { rewrite Hm1. apply str_other; [done|lia|lia]. }
    intros [ps m2] (Hall & Hlen2 & Hsame2). wp_val. rewrite Hw. split; [|split].
    + constructor; [|done]. apply (str_below m1); [by apply str_suffix|done|]. intros i Hi. apply Hsame2. lia.
    + congruence.
    + intros i Hi. rewrite Hsame2, Hm1 by lia. by rewrite list_lookup_insert_ne by lia.
Qed.

(** C23: Calling strtok_r until it answers null gives the words of the string one after the other:
    each answer points to a null-terminated word, and the words are the longest pieces of the
    string without separators. *)
Theorem strtok_r_gives_words m q p s :
  str_at m q seps → str_at m p s → q + zlen seps < p ∨ p + zlen s < q →
  ∃ ps m', strtok_all (S (length s)) (Some p) q None m = Ok (ps, m') ∧ Forall2 (str_at m') ps (words s).
Proof.
  intros Hq Hp Hsep.
  destruct (proj1 (wp_exists _ _) (strtok_all_spec (S (length s)) m q p s Hq Hp Hsep ltac:(lia))) as ([ps m'] & Hr & Hall & _).
  exists ps, m'. split; [exact Hr|done].
Qed.
End words.

Lemma strtok_r_gives_words_witness :
  ∃ ps m', strtok_all 9 (Some 3) 0 None [32; 9; 0; 32; 108; 115; 32; 32; 45; 108; 9; 0] = Ok (ps, m') ∧
    Forall2 (str_at m') ps [[108; 115]; [45; 108]].
Proof.
  apply (strtok_r_gives_words [32; 9] [32; 9; 0; 32; 108; 115; 32; 32; 45; 108; 9; 0] 0 3 [32; 108; 115; 32; 32; 45; 108; 9]).
  - constructor; try done. by repeat constructor.
  - constructor; try done. by repeat constructor.
  - simpl. lia.
Defined.

(** ** Numbers *)

Lemma digit_of_digit d : 0 ≤ d < 10 → digit_of (48 + d) = Some d.
Proof.
  intros Hd. assert (d ∈ seqZ 0 10) as H by (apply elem_of_seqZ; lia). clear Hd. revert d H.
  apply Forall_forall. by repeat constructor.
Qed.

(** The rest of a string does not start with a digit. *)
Definition no_digit (tl : list Z) : Prop := match tl with c :: _ => digit_of c = None | [] => True end.

(** The sign of a number, and whether it is negative. *)
Inductive signed : list Z → bool → list Z → Prop :=
  | signed_none d ds : signed [] false (d :: ds)
  | signed_minus ds : signed [MINUS] true ds
  | signed_plus ds : signed [PLUS] false ds.

Lemma atoi_blanks m p bl rest : str_at m p (bl ++ rest) → Forall (λ c, c = SPACE ∨ c = TAB) bl →
  (∀ c, head rest = Some c → c ≠ SPACE ∧ c ≠ TAB) →
  wp (while_loop (turns_of m) (λ s, c ← m.[s]; if (c =? SPACE) || (c =? TAB) then mret (inl (s + 1)) else mret (inr s)) p)
    (λ s, s = p + zlen bl).
Proof.
  intros Hs Hbl Hr. pose proof (str_turns _ _ _ Hs) as Ht. rewrite length_app in Ht.
  apply (wp_while_variant (λ n s, ∃ i, s = p + i ∧ 0 ≤ i ≤ zlen bl ∧ n = Z.to_nat (zlen bl - i)) _ (length bl)).
  - exists 0. lia.
  - lia.
  - intros n s (i & -> & Hi & ->). rewrite wp_bind. eapply str_read; [done|rewrite length_app; lia|..].
    + intros c Hc _ Hpos. destruct (decide (i = zlen bl)) as [->|Hne].
      * rewrite lookup_app_r, Nat2Z.id, Nat.sub_diag in Hc by lia. rewrite <- head_lookup in Hc. apply Hr in Hc as [? ?].
        replace ((c =? SPACE) || (c =? TAB)) with false by lia. done.
      * rewrite lookup_app_l in Hc by lia. pose proof (Forall_lookup_1 _ _ _ _ Hbl Hc) as Hb. simpl in Hb.
        replace ((c =? SPACE) || (c =? TAB)) with true by lia. wp_val. simpl.
        exists (Z.to_nat (zlen bl - (i + 1))). split; [lia|]. exists (i + 1). lia.
    + rewrite length_app. intros Hend. change (p + i = p + zlen bl). lia.
Qed.

Lemma atoi_digits m p ds tl v : str_at m p (((λ d, 48 + d) <$> ds) ++ tl) → Forall (λ d, 0 ≤ d < 10) ds → no_digit tl →
  wp (while_loop (turns_of m) (λ '(s, val),
        c ← m.[s];
        if negb (c =? 0) then
          match digit_of c with
          | None => mret (inr val)
          | Some digit => mret (inl (s + 1, u32 (u32 (val * 10) + digit)))
          end
        else mret (inr val)) (p, u32 v))
    (λ r, r = u32 (foldl (λ v d, v * 10 + d) v ds)).
Proof.
  intros Hs Hds Htl. pose proof (str_turns _ _ _ Hs) as Ht. rewrite length_app, length_fmap in Ht.
  apply (wp_while_variant (λ n '(s, val), ∃ i, s = p + i ∧ 0 ≤ i ≤ zlen ds ∧ n = Z.to_nat (zlen ds - i) ∧
    val = u32 (foldl (λ v d, v * 10 + d) v (take (Z.to_nat i) ds))) _ (length ds)).
  - exists 0. split_and!; [lia..|done].
  - lia.
  - intros n [s val] (i & -> & Hi & -> & ->). rewrite wp_bind. eapply str_read; [done|rewrite length_app, length_fmap; lia|..].
    + intros c Hc _ Hpos. replace (c =? 0) with false by lia. simpl. destruct (decide (i = zlen ds)) as [->|Hne].
      * rewrite lookup_app_r, length_fmap, Nat2Z.id, Nat.sub_diag in Hc by (rewrite length_fmap; lia).
        destruct tl as [|c' tl]; [done|]. injection Hc as ->. simpl in Htl. rewrite Htl. wp_val. simpl.
        by rewrite Nat2Z.id, take_ge by done.
      * rewrite lookup_app_l, list_lookup_fmap in Hc by (rewrite length_fmap; lia).
        destruct (ds !! Z.to_nat i) as [d|] eqn:E; [|done]. injection Hc as <-.
        pose proof (Forall_lookup_1 _ _ _ _ Hds E) as Hd. simpl in Hd. rewrite digit_of_digit by done. wp_val. simpl.
        exists (Z.to_nat (zlen ds - (i + 1))). split; [lia|]. exists (i + 1). split_and!; [lia..|].
        replace (Z.to_nat (i + 1)) with (S (Z.to_nat i)) by lia. rewrite (take_S_r _ _ d) by done. rewrite foldl_app. simpl.
        unfold u32. rewrite Z.mul_mod_idemp_l, Z.add_mod_idemp_l by done. done.
    + rewrite length_app, length_fmap. intros Hend. change (u32 (foldl (λ v d, v * 10 + d) v (take (Z.to_nat i) ds)) = u32 (foldl (λ v d, v * 10 + d) v ds)).
      by rewrite take_ge by lia.
Qed.

(** atoi skips blanks, reads a sign and digits and stops at anything else; the value is taken modulo 2^32. *)
Lemma atoi_spec m p bl sg neg ds tl :
  str_at m p (bl ++ sg ++ ((λ d, 48 + d) <$> ds) ++ tl) → Forall (λ c, c = SPACE ∨ c = TAB) bl →
  signed sg neg ds → Forall (λ d, 0 ≤ d < 10) ds → no_digit tl →
  atoi p m = Ok (s32 (if neg : bool then - u32 (value 10 ds) else u32 (value 10 ds))).
Proof.
  intros Hs Hbl Hsg Hds Htl. apply wp_eq. unfold atoi. rewrite wp_bind. eapply wp_mono.
  - eapply atoi_blanks; [done..|]. intros c Hc. destruct Hsg; simpl in Hc; simplify_eq; try done.
    apply Forall_cons in Hds as [Hd _]. unfold SPACE, TAB. lia.
  - intros s ->. pose proof (str_suffix _ _ _ _ Hs) as Hs1. pose proof (str_suffix _ _ _ _ Hs1) as Hs2.
    pose proof (str_char _ _ _ 0 Hs1 ltac:(lia)) as Hc. rewrite Z.add_0_r in Hc. rewrite Hc. wp_val.
    pose proof (atoi_digits m _ ds tl 0 Hs2 Hds Htl) as Hdig.
    destruct Hsg as [d ds|ds|ds]; simpl in *; [|rewrite wp_bind; eapply wp_mono; [exact Hdig|by intros v ->]..].
    apply Forall_cons in Hds as [Hd _]. unfold MINUS, PLUS. rewrite Z.add_0_r in Hdig.
    change (char_at (48 + d :: _) 0) with (48 + d). replace (48 + d =? 45) with false by lia. replace (48 + d =? 43) with false by lia.
    rewrite wp_bind. eapply wp_mono; [exact Hdig|by intros v ->].
Qed.
