(* ===== verification/Printf.v ===== *)
(** * Printing (lib/libc/__printf.c, lib/libc/snprintf.c)

    The guts of printf, which libc and the kernel share.  The state [pf] is the structure PF; the
    function that the text is sent to is a parameter [send], with its client data.  Characters are
    bytes, a format is a list of characters without a null, and the arguments are a list: a number
    of 32 bits (int, long and pointers have the same size) or a string.  Asking for an argument
    that is not there, or is of the other kind, is undefined. *)

From Stdlib Require Import Ascii.
From S2P Require Import Prelude StateM.

Inductive varg := VNum (z : Z) | VStr (s : option (list Z)).

Inductive intsize := INTSZ | LONGSZ.

Record pf (C : Type) := Pf {
  pf_data : C;
  pf_ap : list varg;
  pf_charcount : Z;
  pf_in_pct : Z;
  pf_size : intsize;
  pf_num : Z;
  pf_sign : Z;
  pf_spacing : Z;
  pf_rightspc : Z;
  pf_fillchar : Z;
  pf_base : Z;
  pf_baseprefix : Z;
  pf_altformat : Z;
}.
#[global] Arguments Pf {C}.
#[global] Arguments pf_data {C}.
#[global] Arguments pf_ap {C}.
#[global] Arguments pf_charcount {C}.
#[global] Arguments pf_in_pct {C}.
#[global] Arguments pf_size {C}.
#[global] Arguments pf_num {C}.
#[global] Arguments pf_sign {C}.
#[global] Arguments pf_spacing {C}.
#[global] Arguments pf_rightspc {C}.
#[global] Arguments pf_fillchar {C}.
#[global] Arguments pf_base {C}.
#[global] Arguments pf_baseprefix {C}.
#[global] Arguments pf_altformat {C}.

(** Bytes of a string literal. *)
Definition chr (a : Ascii.ascii) : Z := Z.of_nat (Ascii.nat_of_ascii a).
Fixpoint lit (s : string) : list Z :=
  match s with EmptyString => [] | String a s => chr a :: lit s end.

Definition DIGITS : list Z := Eval vm_compute in lit "0123456789abcdef".
Definition MODIFIERS : list Z := Eval vm_compute in lit "#-ql0123456789".
Definition INTTYPES : list Z := Eval vm_compute in lit "doupx".
Definition NULLTEXT : list Z := Eval vm_compute in lit "(null)".

(** (sizeof(long) * CHAR_BIT) / 3 + 2. *)
Definition NUMBER_BUF_SIZE : Z := 12.

Section printf.
Context {C : Type}.
Variable send : list Z → C → res C.
Implicit Types s : pf C.

Definition set_data x s : pf C := Pf x (pf_ap s) (pf_charcount s) (pf_in_pct s) (pf_size s) (pf_num s) (pf_sign s) (pf_spacing s) (pf_rightspc s) (pf_fillchar s) (pf_base s) (pf_baseprefix s) (pf_altformat s).
Definition set_ap x s : pf C := Pf (pf_data s) x (pf_charcount s) (pf_in_pct s) (pf_size s) (pf_num s) (pf_sign s) (pf_spacing s) (pf_rightspc s) (pf_fillchar s) (pf_base s) (pf_baseprefix s) (pf_altformat s).
Definition set_charcount x s : pf C := Pf (pf_data s) (pf_ap s) x (pf_in_pct s) (pf_size s) (pf_num s) (pf_sign s) (pf_spacing s) (pf_rightspc s) (pf_fillchar s) (pf_base s) (pf_baseprefix s) (pf_altformat s).
Definition set_in_pct x s : pf C := Pf (pf_data s) (pf_ap s) (pf_charcount s) x (pf_size s) (pf_num s) (pf_sign s) (pf_spacing s) (pf_rightspc s) (pf_fillchar s) (pf_base s) (pf_baseprefix s) (pf_altformat s).
Definition set_size x s : pf C := Pf (pf_data s) (pf_ap s) (pf_charcount s) (pf_in_pct s) x (pf_num s) (pf_sign s) (pf_spacing s) (pf_rightspc s) (pf_fillchar s) (pf_base s) (pf_baseprefix s) (pf_altformat s).
Definition set_num x s : pf C := Pf (pf_data s) (pf_ap s) (pf_charcount s) (pf_in_pct s) (pf_size s) x (pf_sign s) (pf_spacing s) (pf_rightspc s) (pf_fillchar s) (pf_base s) (pf_baseprefix s) (pf_altformat s).
Definition set_sign x s : pf C := Pf (pf_data s) (pf_ap s) (pf_charcount s) (pf_in_pct s) (pf_size s) (pf_num s) x (pf_spacing s) (pf_rightspc s) (pf_fillchar s) (pf_base s) (pf_baseprefix s) (pf_altformat s).
Definition set_spacing x s : pf C := Pf (pf_data s) (pf_ap s) (pf_charcount s) (pf_in_pct s) (pf_size s) (pf_num s) (pf_sign s) x (pf_rightspc s) (pf_fillchar s) (pf_base s) (pf_baseprefix s) (pf_altformat s).
Definition set_rightspc x s : pf C := Pf (pf_data s) (pf_ap s) (pf_charcount s) (pf_in_pct s) (pf_size s) (pf_num s) (pf_sign s) (pf_spacing s) x (pf_fillchar s) (pf_base s) (pf_baseprefix s) (pf_altformat s).
Definition set_fillchar x s : pf C := Pf (pf_data s) (pf_ap s) (pf_charcount s) (pf_in_pct s) (pf_size s) (pf_num s) (pf_sign s) (pf_spacing s) (pf_rightspc s) x (pf_base s) (pf_baseprefix s) (pf_altformat s).
Definition set_base x s : pf C := Pf (pf_data s) (pf_ap s) (pf_charcount s) (pf_in_pct s) (pf_size s) (pf_num s) (pf_sign s) (pf_spacing s) (pf_rightspc s) (pf_fillchar s) x (pf_baseprefix s) (pf_altformat s).
Definition set_baseprefix x s : pf C := Pf (pf_data s) (pf_ap s) (pf_charcount s) (pf_in_pct s) (pf_size s) (pf_num s) (pf_sign s) (pf_spacing s) (pf_rightspc s) (pf_fillchar s) (pf_base s) x (pf_altformat s).
Definition set_altformat x s : pf C := Pf (pf_data s) (pf_ap s) (pf_charcount s) (pf_in_pct s) (pf_size s) (pf_num s) (pf_sign s) (pf_spacing s) (pf_rightspc s) (pf_fillchar s) (pf_base s) (pf_baseprefix s) x.

Abbreviation M := (stm (pf C)).

Definition __pf_print (txt : list Z) : M unit :=
  s ← gets (λ s, s);
  d ← lift (send txt (pf_data s));
  modify (λ s, set_charcount (s32 (pf_charcount s + zlen txt)) (set_data d s)).

Definition __pf_endfield : M unit :=
  modify (λ s, Pf (pf_data s) (pf_ap s) (pf_charcount s) 0 INTSZ 0 0 0 0 (chr " "%char) 0 0 0).

Definition __pf_modifier (ch : Z) : M unit :=
  if ch =? chr "#"%char then modify (set_altformat 1)
  else if ch =? chr "-"%char then modify (set_rightspc 1)
  else if ch =? chr "l"%char then
    s ← gets (λ s, s);
    match pf_size s with LONGSZ => mret tt | INTSZ => modify (set_size LONGSZ) end
  else if ch =? chr "q"%char then modify (set_size LONGSZ)
  else if ch =? chr "0"%char then
    s ← gets (λ s, s);
    if pf_spacing s >? 0 then modify (λ s, set_spacing (s32 (pf_spacing s * 10)) s)
    else modify (set_fillchar (chr "0"%char))
  else
    _ ← asrt ((ch >? chr "0"%char) && (ch <=? chr "9"%char));
    modify (λ s, set_spacing (s32 (s32 (pf_spacing s * 10) + (ch - chr "0"%char))) s).

(** [va_arg]. *)
Definition va_num : M Z :=
  s ← gets (λ s, s);
  match pf_ap s with
  | VNum z :: ap => _ ← modify (set_ap ap); mret z
  | _ => fault_ FUndef
  end.
Definition va_str : M (option (list Z)) :=
  s ← gets (λ s, s);
  match pf_ap s with
  | VStr t :: ap => _ ← modify (set_ap ap); mret t
  | _ => fault_ FUndef
  end.

(** int and long have the same size, so that the two cases of each switch are the same. *)
Definition __pf_getnum (ch : Z) : M unit :=
  if ch =? chr "p"%char then n ← va_num; modify (set_num (u32 n))
  else if ch =? chr "d"%char then
    n ← va_num;
    let signednum := s32 n in
    if signednum <? 0 then modify (λ s, set_num (u32 (- signednum)) (set_sign (-1) s))
    else modify (set_num signednum)
  else n ← va_num; modify (set_num (u32 n)).

Definition __pf_setbase (ch : Z) : M unit :=
  _ ← (if (ch =? chr "d"%char) || (ch =? chr "u"%char) then modify (set_base 10)
       else if (ch =? chr "x"%char) || (ch =? chr "p"%char) then modify (set_base 16)
       else if ch =? chr "o"%char then modify (set_base 8)
       else mret tt);
  s ← gets (λ s, s);
  if negb (pf_altformat s =? 0) || (ch =? chr "p"%char) then modify (set_baseprefix 1) else mret tt.

Definition __pf_fill (spc : Z) : M unit :=
  f ← gets pf_fillchar;
  mfor (Z.to_nat spc) 0 (λ _ _, __pf_print [u8 f]) tt.

Definition __pf_printstuff (prefix prefix2 stuff : list Z) : M unit :=
  s ← gets (λ s, s);
  let len := s32 (zlen prefix + zlen prefix2 + zlen stuff) in
  let spc := if pf_spacing s >? len then pf_spacing s - len else 0 in
  _ ← (if (spc >? 0) && (pf_rightspc s =? 0) && negb (pf_fillchar s =? chr "0"%char) then __pf_fill spc else mret tt);
  _ ← __pf_print prefix;
  _ ← __pf_print prefix2;
  _ ← (if (spc >? 0) && (pf_rightspc s =? 0) && (pf_fillchar s =? chr "0"%char) then __pf_fill spc else mret tt);
  _ ← __pf_print stuff;
  if (spc >? 0) && negb (pf_rightspc s =? 0) then __pf_fill spc else mret tt.

(** The digits are put in a buffer of [NUMBER_BUF_SIZE] bytes from right to left; [None] is a byte that
    was not written.  The answer is the buffer and the index of the first digit. *)
Definition convert (base xnum : Z) : res (list (option Z) * Z) :=
  buf ← (replicate (Z.to_nat NUMBER_BUF_SIZE) None).[NUMBER_BUF_SIZE - 1 <- Some 0];
  '(buf, x) ← while_loop 40 (λ '(buf, x, xnum),
    if base =? 0 then Fault FUndef
    else
      d ← DIGITS.[xnum mod base];
      buf ← buf.[x <- Some d];
      let xnum := xnum / base in
      if xnum >? 0 then mret (inl (buf, x - 1, xnum)) else mret (inr (buf, x - 1))) (buf, NUMBER_BUF_SIZE - 2, xnum);
  mret (buf, x + 1).

(** The string that starts at an index. *)
Definition string_from (buf : list (option Z)) (x : Z) : res (list Z) :=
  while_loop (S (length buf)) (λ '(x, acc),
    c ← buf.[x];
    match c with
    | None => Fault FUndef
    | Some c => if c =? 0 then mret (inr acc) else mret (inl (x + 1, acc ++ [c]))
    end) (x, []).

Definition __pf_printnum : M unit :=
  s ← gets (λ s, s);
  '(buf, x) ← lift (convert (pf_base s) (pf_num s));
  text ← lift (string_from buf x);
  let bprefix :=
    if negb (pf_baseprefix s =? 0) && (pf_base s =? 16) then lit "0x"
    else if negb (pf_baseprefix s =? 0) && (pf_base s =? 8) then lit "0"
    else [] in
  let sprefix := if negb (pf_sign s =? 0) then lit "-" else [] in
  __pf_printstuff sprefix bprefix text.

Definition __pf_send (ch : Z) : M unit :=
  _ ← asrt (negb (ch =? 0));
  s ← gets (λ s, s);
  if (pf_in_pct s =? 0) && negb (ch =? chr "%"%char) then __pf_print [u8 ch]
  else if pf_in_pct s =? 0 then modify (set_in_pct 1)
  else if bool_decide (ch ∈ MODIFIERS) then __pf_modifier ch
  else if bool_decide (ch ∈ INTTYPES) then
    _ ← __pf_getnum ch;
    _ ← __pf_setbase ch;
    _ ← __pf_printnum;
    __pf_endfield
  else if ch =? chr "s"%char then
    str ← va_str;
    _ ← __pf_printstuff [] [] (default NULLTEXT str);
    __pf_endfield
  else
    x ← (if ch =? chr "c"%char then n ← va_num; mret (u8 n) else mret (u8 ch));
    _ ← __pf_printstuff [] [] (if x =? 0 then [] else [x]);
    __pf_endfield.

Fixpoint each (format : list Z) : M unit :=
  match format with
  | [] => mret tt
  | ch :: format => _ ← __pf_send ch; each format
  end.

(** The client data and the number of characters. *)
Definition __vprintf (clientdata : C) (format : list Z) (ap : list varg) : res (C * Z) :=
  '(_, s) ← (_ ← __pf_endfield; each format) (Pf clientdata ap 0 0 INTSZ 0 0 0 0 0 0 0 0);
  mret (pf_data s, pf_charcount s).
End printf.

(** ** snprintf.c *)

Record SNP := Snp { snp_buf : list Z; snp_buflen : Z; snp_bufpos : Z }.

Definition __snprintf_send (data : list Z) (snp : SNP) : res SNP :=
  for_range (length data) 0 (λ i snp,
    c ← data.[i];
    if snp_bufpos snp <? snp_buflen snp then
      buf ← (snp_buf snp).[snp_bufpos snp <- c];
      mret (Snp buf (snp_buflen snp) (snp_bufpos snp + 1))
    else mret snp) snp.

(** The buffer and the number of characters. *)
Definition vsnprintf (buf : list Z) (len : Z) (fmt : list Z) (ap : list varg) : res (list Z * Z) :=
  let buflen := if len =? 0 then 0 else len - 1 in
  '(snp, chars) ← __vprintf __snprintf_send (Snp buf buflen 0) fmt ap;
  buf ← (if len >? 0 then (snp_buf snp).[snp_bufpos snp <- 0] else mret (snp_buf snp));
  mret (buf, chars).

Definition snprintf (buf : list Z) (len : Z) (fmt : list Z) (ap : list varg) : res (list Z * Z) := vsnprintf buf len fmt ap.
