(* ===== verification/PrintfThm.v ===== *)
(** * What printf prints

    A format is described as a list of pieces: characters that are copied, and fields with their flags,
    width, conversion and argument.  [fmt] spells the format string, [args] lists the arguments and
    [texts] is the text that the pieces stand for.  The main lemma says that [__vprintf] sends [texts]
    and counts its characters, whatever the function is that the text is sent to ([Sink]).  For
    snprintf it follows that the buffer receives as much of the text as there is room for, and that
    atoi reads back the number that %d printed. *)

From Stdlib Require Import Ascii.
From S2P Require Import Prelude StateM LibC LibCThm Printf.

(** ** Functions that text is sent to *)

Class Sink {C : Type} (send : list Z → C → res C) (good : C → Prop) (put : C → list Z → C) := {
  sink_send d t : good d → send t d = Ok (put d t);
  sink_good d t : good d → good (put d t);
  sink_nil d : good d → put d [] = d;
  sink_app d t u : good d → put d (t ++ u) = put (put d t) u;
}.

(** ** Numbers *)

Definition digit_char (d : Z) : Z := default 0 (DIGITS !! Z.to_nat d).
Definition number (b n : Z) : list Z := digit_char <$> numeral b n.

Lemma digit_char_get d : 0 ≤ d < 16 → DIGITS !! Z.to_nat d = Some (digit_char d).
Proof.
  intros Hd. unfold digit_char. destruct (DIGITS !! Z.to_nat d) eqn:E; [done|].
  apply lookup_ge_None in E. change (length DIGITS) with 16%nat in E. lia.
Qed.

Lemma digit_char_decimal d : 0 ≤ d < 10 → digit_char d = 48 + d.
Proof.
  intros Hd. assert (d ∈ seqZ 0 10) as H by (apply elem_of_seqZ; lia). clear Hd. revert d H.
  apply Forall_forall. vm_compute. by repeat constructor.
Qed.

Lemma digit_char_range d : 0 ≤ d < 16 → 0 < digit_char d < 128.
Proof.
  intros Hd. apply digit_char_get, list_elem_of_lookup_2 in Hd. revert Hd. generalize (digit_char d).
  apply Forall_forall. by repeat constructor.
Qed.

Lemma number_step b n : 2 ≤ b → b ≤ n < 2 ^ 32 → number b n = number b (n / b) ++ [digit_char (n mod b)].
Proof. intros. unfold number. by rewrite numeral_step, fmap_app by lia. Qed.

Lemma number_last b n : 2 ≤ b → 0 ≤ n < b → number b n = [digit_char n].
Proof. intros. unfold number. by rewrite numeral_last by lia. Qed.

(** No base that printf uses needs more than eleven digits. *)
Lemma number_size b n : 8 ≤ b → 0 ≤ n < 2 ^ 32 → (length (number b n) ≤ 11)%nat.
Proof.
  intros Hb Hn. unfold number. rewrite length_fmap. apply numeral_size; [lia|done|].
  apply (Z.lt_le_trans _ (8 ^ 11)); [lia|]. change (Z.of_nat 11) with 11. apply Z.pow_le_mono_l. lia.
Qed.

Lemma number_chars b n : 2 ≤ b ≤ 16 → 0 ≤ n < 2 ^ 32 → Forall (λ c, 0 < c < 128) (number b n).
Proof.
  intros Hb Hn. unfold number. apply Forall_fmap. 
  eapply Forall_impl; [apply (numeral_digits b); [lia|done]|].
  intros d Hd. simpl in *. apply digit_char_range. lia.
Qed.

(** The buffer that the digits are put in. *)
Definition numbuf (t : list Z) : list (option Z) := replicate (11 - length t) None ++ (Some <$> t) ++ [Some 0].

Lemma numbuf_put t c : (length t < 11)%nat →
  <[(10 - length t)%nat := Some c]> (numbuf t) = numbuf (c :: t).
Proof.
  intros Ht. unfold numbuf. simpl. replace (11 - length t)%nat with ((10 - length t) + 1)%nat by lia.
  rewrite replicate_add, <- app_assoc. simpl.
  rewrite insert_app_r_alt by (rewrite length_replicate; lia). rewrite length_replicate, Nat.sub_diag. done.
Qed.

Lemma convert_eq b n : 8 ≤ b ≤ 16 → 0 ≤ n < 2 ^ 32 →
  convert b n = Ok (numbuf (number b n), 11 - zlen (number b n)).
Proof.
  intros Hb Hn. apply wp_eq. unfold convert. rewrite wp_bind.
  apply wp_setz; [done|]. change (<[_ := _]> _) with (numbuf []). rewrite wp_bind.
  apply (wp_while_loop (λ '(buf, x, xnum), ∃ t, buf = numbuf t ∧ x = 10 - zlen t ∧ 0 ≤ xnum < 2 ^ 32 ∧
    number b n = number b xnum ++ t) _ (λ '(_, x, _), Z.to_nat (x + 1))).
  - exists []. by rewrite app_nil_r.
  - unfold NUMBER_BUF_SIZE. lia.
  - intros [[buf x] xnum] (t & -> & -> & Hx & Ht).
    pose proof (number_size b n ltac:(lia) Hn) as Hsz. rewrite Ht, length_app in Hsz.
    assert (0 ≤ xnum mod b < b) as Hm by (apply Z.mod_pos_bound; lia).
    assert (numbuf t = numbuf t ∧ length (numbuf t) = 12%nat) as [_ Hl].
    { split; [done|]. unfold numbuf. rewrite !length_app, length_replicate, length_fmap. simpl. lia. }
    replace (b =? 0) with false by lia. rewrite wp_bind. apply wp_getz.
    { change (zlen DIGITS) with 16. lia. }
    intros c Hc. rewrite digit_char_get in Hc by lia. injection Hc as <-. rewrite wp_bind.
    assert (0 < length (number b xnum))%nat.
    { destruct (decide (xnum < b)); [rewrite number_last by lia; simpl; lia|].
      rewrite number_step, length_app by lia. simpl. lia. }
    apply wp_setz; [lia|]. replace (Z.to_nat (10 - zlen t)) with (10 - length t)%nat by lia.
    rewrite numbuf_put by lia. destruct (decide (b ≤ xnum)) as [Hge|Hlt].
    + rewrite (number_step b xnum) in Ht by lia. rewrite <- app_assoc in Ht. simpl in Ht.
      assert (0 < xnum / b) by (apply Z.div_str_pos; lia).
      assert (xnum / b ≤ xnum) by (apply Z.div_le_upper_bound; nia).
      replace (xnum / b >? 0) with true by lia. wp_val. simpl. split; [|lia].
      eexists. split; [done|]. split; [cbn [length]; lia|]. split; [lia|done].
    + replace (xnum / b) with 0 by (symmetry; apply Z.div_small; lia). simpl. wp_val.
      rewrite (number_last b xnum) in Ht by lia. rewrite Ht. simpl. rewrite (Z.mod_small xnum b) by lia.
      f_equal. cbn [length]. lia.
Qed.

Lemma string_from_eq k t : Forall (λ c, 0 < c < 128) t →
  string_from (replicate k None ++ (Some <$> t) ++ [Some 0]) (Z.of_nat k) = Ok t.
Proof.
  intros Ht. apply wp_eq. unfold string_from. set (buf := _ ++ _).
  assert (∀ j, (j ≤ length t)%nat → buf !! (k + j)%nat = Some (default (Some 0) (Some <$> t !! j))) as Hbuf.
  { intros j Hj. unfold buf. rewrite lookup_app_r by (rewrite length_replicate; lia). rewrite length_replicate.
    replace (k + j - k)%nat with j by lia. destruct (decide (j = length t)) as [->|].
    - rewrite lookup_app_r by (rewrite length_fmap; lia). rewrite length_fmap, Nat.sub_diag. by rewrite (lookup_ge_None_2 t).
    - rewrite lookup_app_l by (rewrite length_fmap; lia). rewrite list_lookup_fmap.
      by destruct (lookup_lt_is_Some_2 t j) as [c ->]; [lia|]. }
  assert (length buf = k + length t + 1)%nat as Hl.
  { unfold buf. rewrite !length_app, length_replicate, length_fmap. simpl. lia. }
  apply (wp_while_loop (λ '(x, acc), ∃ j, (j ≤ length t)%nat ∧ x = Z.of_nat (k + j) ∧ acc = take j t) _
    (λ '(x, _), length buf - Z.to_nat x)%nat).
  - exists 0%nat. split; [lia|]. split; [lia|done].
  - simpl. lia.
  - intros [x acc] (j & Hj & -> & ->). rewrite wp_bind. apply wp_getz; [lia|]. intros o.
    rewrite Nat2Z.id, Hbuf by done. intros [= <-]. destruct (t !! j) as [c|] eqn:E; simpl.
    + pose proof (Forall_lookup_1 _ _ _ _ Ht E) as Hc. simpl in Hc. replace (c =? 0) with false by lia. wp_val. simpl.
      apply lookup_lt_Some in E as Hlt. split; [|lia]. exists (S j). split; [lia|]. split; [lia|].
      by rewrite (take_S_r _ _ c).
    + wp_val. simpl. apply lookup_ge_None in E. by rewrite take_ge.
Qed.

Lemma number_text b n : 8 ≤ b ≤ 16 → 0 ≤ n < 2 ^ 32 →
  string_from (numbuf (number b n)) (11 - zlen (number b n)) = Ok (number b n).
Proof.
  intros Hb Hn. pose proof (number_size b n ltac:(lia) Hn).
  replace (11 - zlen (number b n)) with (Z.of_nat (11 - length (number b n))) by lia.
  apply string_from_eq. apply number_chars; lia.
Qed.

(** ** Sending text *)

Lemma for_range_step {A} k i (f : Z → A → res A) x : for_range (S k) i f x = (y ← f i x; for_range k (i + 1) f y).
Proof. done. Qed.

(** A text in a field of [w] characters; with a zero as fill, the prefixes come before the padding. *)
Definition pad (w : Z) (right : bool) (fill : Z) (p q t : list Z) : list Z :=
  let spc := replicate (Z.to_nat (w - zlen (p ++ q ++ t))) fill in
  if right then p ++ q ++ t ++ spc
  else if fill =? chr "0"%char then p ++ q ++ spc ++ t
  else spc ++ p ++ q ++ t.

Lemma pad_length w right fill p q t : zlen (pad w right fill p q t) = Z.max w (zlen (p ++ q ++ t)).
Proof.
  unfold pad. destruct right; [|destruct (fill =? _)]; rewrite !length_app, length_replicate; lia.
Qed.

Lemma pad_chars (P : Z → Prop) w right fill p q t : P fill → Forall P (p ++ q ++ t) → Forall P (pad w right fill p q t).
Proof.
  intros Hf (Hp & (Hq & Ht)%Forall_app)%Forall_app. pose proof (Forall_replicate P (Z.to_nat (w - zlen (p ++ q ++ t))) fill Hf).
  unfold pad. destruct right; [|destruct (fill =? _)]; repeat (apply Forall_app; split); done.
Qed.

(** ** Formats *)

Inductive conv :=
  | CDec (z : Z) | CUns (z : Z) | COct (z : Z) | CHex (z : Z) | CPtr (z : Z)
  | CStr (t : option (list Z)) | CChr (z : Z) | COther (c : Z).

Record field := Field { f_alt : bool; f_left : bool; f_zero : bool; f_long : bool; f_width : Z; f_conv : conv }.

Inductive piece := Plain (c : Z) | Spec (f : field).

Definition conv_char (c : conv) : Z :=
  match c with
  | CDec _ => chr "d"%char | CUns _ => chr "u"%char | COct _ => chr "o"%char | CHex _ => chr "x"%char
  | CPtr _ => chr "p"%char | CStr _ => chr "s"%char | CChr _ => chr "c"%char | COther c => c
  end.

Definition conv_args (c : conv) : list varg :=
  match c with
  | CDec z | CUns z | COct z | CHex z | CPtr z | CChr z => [VNum z]
  | CStr t => [VStr t]
  | COther _ => []
  end.

Definition flag (b : bool) (c : Z) : list Z := if b then [c] else [].

Definition piece_fmt (p : piece) : list Z :=
  match p with
  | Plain c => [c]
  | Spec f => chr "%"%char :: flag (f_alt f) (chr "#"%char) ++ flag (f_left f) (chr "-"%char)
      ++ flag (f_zero f) (chr "0"%char) ++ (if f_width f =? 0 then [] else number 10 (f_width f))
      ++ flag (f_long f) (chr "l"%char) ++ [conv_char (f_conv f)]
  end.

Definition piece_args (p : piece) : list varg := match p with Plain _ => [] | Spec f => conv_args (f_conv f) end.

(** The sign, the prefix of the base and the characters of a conversion. *)
Definition conv_text (alt : bool) (c : conv) : list Z * list Z * list Z :=
  match c with
  | CDec z => (flag (s32 z <? 0) (chr "-"%char), [], number 10 (Z.abs (s32 z)))
  | CUns z => ([], [], number 10 (u32 z))
  | COct z => ([], flag alt (chr "0"%char), number 8 (u32 z))
  | CHex z => ([], if alt then lit "0x" else [], number 16 (u32 z))
  | CPtr z => ([], lit "0x", number 16 (u32 z))
  | CStr t => ([], [], default NULLTEXT t)
  | CChr z => ([], [], if u8 z =? 0 then [] else [u8 z])
  | COther c => ([], [], [c])
  end.

Definition piece_text (p : piece) : list Z :=
  match p with
  | Plain c => [c]
  | Spec f =>
      let '(p, q, t) := conv_text (f_alt f) (f_conv f) in
      pad (f_width f) (f_left f) (if f_zero f then chr "0"%char else chr " "%char) p q t
  end.

Definition conv_ok (c : conv) : Prop :=
  match c with
  | CStr (Some t) => zlen t < 2 ^ 31
  | COther c => 0 < c < 256 ∧ c ∉ MODIFIERS ∧ c ∉ INTTYPES ∧ c ≠ chr "s"%char ∧ c ≠ chr "c"%char
  | _ => True
  end.

Definition piece_ok (p : piece) : Prop :=
  match p with
  | Plain c => 0 < c < 256 ∧ c ≠ chr "%"%char
  | Spec f => 0 ≤ f_width f < 2 ^ 31 ∧ conv_ok (f_conv f)
  end.

Definition fmt (ps : list piece) : list Z := ps ≫= piece_fmt.
Definition args (ps : list piece) : list varg := ps ≫= piece_args.
Definition texts (ps : list piece) : list Z := ps ≫= piece_text.

Section sending.
Context {C : Type} (send : list Z → C → res C) (good : C → Prop) (put : C → list Z → C) `{!Sink send good put}.
Implicit Types s : pf C.

Definition ready s : Prop := good (pf_data s) ∧ is_s32 (pf_charcount s).

Definition out s (t : list Z) : pf C :=
  set_charcount (s32 (pf_charcount s + zlen t)) (set_data (put (pf_data s) t) s).

Lemma ready_out s t : ready s → ready (out s t).
Proof using All. intros [Hg Hc]. split; [|apply s32_in]. simpl. by apply (sink_good (send := send)). Qed.

Lemma out_nil s : ready s → out s [] = s.
Proof using All.
  intros [Hg Hc]. unfold out. rewrite (sink_nil (send := send) _ Hg). simpl. rewrite Z.add_0_r, s32_id by done. by destruct s.
Qed.

Lemma out_app s t u : ready s → out (out s t) u = out s (t ++ u).
Proof using All.
  intros [Hg Hc]. unfold out, set_charcount, set_data. simpl. rewrite (sink_app (send := send) _ t u Hg), length_app, Nat2Z.inj_add.
  f_equal. rewrite s32_plus. f_equal. lia.
Qed.

Lemma print_eq s t : ready s → __pf_print send t s = Ok (tt, out s t).
Proof using All.
  intros [Hg Hc]. unfold __pf_print, mbind, stm_bind, gets, lift, modify. rewrite (sink_send _ t Hg). done.
Qed.

(** Running a routine one call at a time. *)
Lemma bind_eq {A B} (m : stm (pf C) A) (f : A → stm (pf C) B) s a s' : m s = Ok (a, s') → (m ≫= f) s = f a s'.
Proof using. intros H. unfold mbind, stm_bind. by rewrite H. Qed.

Lemma fill_eq s n : ready s → __pf_fill send n s = Ok (tt, out s (replicate (Z.to_nat n) (u8 (pf_fillchar s)))).
Proof using All.
  intros Hs. unfold __pf_fill. rewrite (bind_eq (gets _) _ _ (pf_fillchar s) s) by done. unfold mfor.
  set (c := u8 _). clearbody c. generalize 0. revert s Hs. induction (Z.to_nat n) as [|k IH]; intros s Hs i.
  - by rewrite out_nil.
  - rewrite for_range_step. simpl. rewrite (print_eq s [c] Hs). simpl. rewrite IH by by apply ready_out. rewrite out_app by done. done.
Qed.

(** What the flags of a field come to. *)
Definition padded s (p q t : list Z) : list Z := pad (pf_spacing s) (negb (pf_rightspc s =? 0)) (pf_fillchar s) p q t.

Lemma printstuff_eq s p q t : ready s → 0 ≤ pf_fillchar s < 256 → zlen (p ++ q ++ t) < 2 ^ 31 →
  __pf_printstuff send p q t s = Ok (tt, out s (padded s p q t)).
Proof using All.
  intros Hs Hf Hl. unfold __pf_printstuff. rewrite (bind_eq (gets _) _ _ s s) by done. cbv zeta.
  rewrite !length_app, !Nat2Z.inj_add in Hl. rewrite s32_id by in_range.
  unfold padded, pad. set (spc := if pf_spacing s >? _ then _ else 0).
  replace (Z.to_nat (pf_spacing s - zlen (p ++ q ++ t))) with (Z.to_nat spc).
  2: { rewrite !length_app, !Nat2Z.inj_add. unfold spc. case_match; lia. }
  assert (∀ s', ready s' → pf_fillchar s' = pf_fillchar s → ∀ b,
    (if (spc >? 0) && b then __pf_fill send spc else mret tt) s' =
    Ok (tt, out s' (if b then replicate (Z.to_nat spc) (pf_fillchar s) else []))) as Hfill.
  { intros s' Hs' Hf' b. destruct (spc >? 0) eqn:E; [destruct b|]; simpl.
    - by rewrite fill_eq, Hf', u8_id by done.
    - by rewrite out_nil.
    - replace (Z.to_nat spc) with 0%nat by lia. simpl. by destruct b; rewrite out_nil. }
  rewrite <- !andb_assoc.
  erewrite bind_eq by by apply Hfill. erewrite bind_eq by by apply print_eq, ready_out.
  erewrite bind_eq by by apply print_eq, ready_out, ready_out.
  erewrite bind_eq by by apply Hfill; [do 3 apply ready_out|].
  erewrite bind_eq by by apply print_eq; do 4 apply ready_out.
  rewrite Hfill by first [by do 5 apply ready_out|done]. rewrite !out_app by (repeat apply ready_out; done).
  rewrite <- ?app_assoc. do 3 f_equal. destruct (pf_rightspc s =? 0), (pf_fillchar s =? chr "0"%char); simpl;
    by rewrite ?app_nil_r.
Qed.

(** ** Fields *)

Lemma each_app f g s s' : each send f s = Ok (tt, s') → each send (f ++ g) s = each send g s'.
Proof using.
  revert s. induction f as [|c f IH]; intros s; simpl; [by intros [= ->]|].
  unfold mbind, stm_bind. destruct (__pf_send send c s) as [[[] t]|]; [|done]. apply IH.
Qed.

Lemma each_cons c f s s' : __pf_send send c s = Ok (tt, s') → each send (c :: f) s = each send f s'.
Proof using. intros H. simpl. unfold mbind, stm_bind. by rewrite H. Qed.

Lemma send_modifier c s : pf_in_pct s = 1 → c ∈ MODIFIERS → __pf_send send c s = __pf_modifier c s.
Proof using.
  intros Hp Hc. unfold __pf_send.
  assert (c ≠ 0) by (intros ->; revert Hc; by apply (bool_decide_unpack _)).
  rewrite (bind_eq (asrt _) _ _ tt s) by (unfold asrt, lift; by replace (c =? 0) with false by lia).
  rewrite (bind_eq (gets _) _ _ s s) by done. rewrite Hp. simpl. by rewrite bool_decide_true.
Qed.

Lemma send_flag (b : bool) c s s' : pf_in_pct s = 1 → c ∈ MODIFIERS → __pf_modifier c s = Ok (tt, s') →
  each send (flag b c) s = Ok (tt, if b then s' else s).
Proof using.
  intros Hp Hc Hm. destruct b; [|done]. simpl. unfold mbind, stm_bind. by rewrite send_modifier, Hm.
Qed.

Lemma width_grows ds v : Forall (λ d, 0 ≤ d < 10) ds → 0 ≤ v → v ≤ foldl (λ v d, v * 10 + d) v ds.
Proof using.
  intros Hd. revert v. induction Hd as [|d ds Hd _ IH]; intros v Hv; simpl; [lia|].
  specialize (IH (v * 10 + d)). lia.
Qed.

Lemma digit_modifier d : 0 ≤ d < 10 → digit_char d ∈ MODIFIERS.
Proof using.
  intros Hd. rewrite digit_char_decimal by done.
  assert (d ∈ seqZ 0 10) as H by (apply elem_of_seqZ; lia). clear Hd. revert d H. apply Forall_forall.
  repeat constructor; by apply (bool_decide_unpack _).
Qed.

Lemma send_digit d s : pf_in_pct s = 1 → 0 ≤ d < 10 → 0 < pf_spacing s * 10 + d < 2 ^ 31 → 0 ≤ pf_spacing s →
  __pf_send send (digit_char d) s = Ok (tt, set_spacing (pf_spacing s * 10 + d) s).
Proof using.
  intros Hp Hd Hv Hs. rewrite send_modifier by (done || by apply digit_modifier).
  rewrite digit_char_decimal by done. unfold __pf_modifier.
  change (chr "#"%char) with 35. change (chr "-"%char) with 45. change (chr "l"%char) with 108.
  change (chr "q"%char) with 113. change (chr "0"%char) with 48. change (chr "9"%char) with 57.
  replace (48 + d =? 35) with false by lia. replace (48 + d =? 45) with false by lia.
  replace (48 + d =? 108) with false by lia. replace (48 + d =? 113) with false by lia.
  destruct (Z.eqb_spec (48 + d) 48).
  - assert (d = 0) as -> by lia. rewrite Z.add_0_r in *. rewrite (bind_eq (gets _) _ _ s s) by done.
    replace (pf_spacing s >? 0) with true by lia. unfold modify. by rewrite s32_id by in_range.
  - rewrite (bind_eq (asrt _) _ _ tt s) by (unfold asrt, lift; by replace ((48 + d >? 48) && (48 + d <=? 57)) with true by lia).
    unfold modify. rewrite (s32_id (pf_spacing s * 10)), s32_id by in_range. do 3 f_equal. lia.
Qed.

Lemma send_width ds s : pf_in_pct s = 1 → Forall (λ d, 0 ≤ d < 10) ds → 0 ≤ pf_spacing s →
  (pf_spacing s = 0 → ∃ d l, ds = d :: l ∧ 0 < d) →
  foldl (λ v d, v * 10 + d) (pf_spacing s) ds < 2 ^ 31 →
  each send (digit_char <$> ds) s = Ok (tt, set_spacing (foldl (λ v d, v * 10 + d) (pf_spacing s) ds) s).
Proof using.
  intros Hp Hd. revert s Hp. induction Hd as [|d ds Hd Hds IH]; intros s Hp Hs Hz Hv; simpl in *.
  - by destruct s.
  - pose proof (width_grows ds (pf_spacing s * 10 + d) Hds).
    assert (0 < pf_spacing s * 10 + d).
    { destruct (decide (pf_spacing s = 0)) as [E|]; [|lia]. destruct (Hz E) as (d' & l & [= <- <-] & Hp'). lia. }
    unfold mbind, stm_bind. rewrite send_digit by (done || lia).
    etrans; [apply (IH (set_spacing (pf_spacing s * 10 + d) s)); first [done|simpl; lia]|done].
Qed.

(** Between fields, and with the flags of a field read. *)
Definition rest (d : C) (ap : list varg) (n : Z) : pf C := Pf d ap n 0 INTSZ 0 0 0 0 (chr " "%char) 0 0 0.
Definition set_up (f : field) (d : C) (ap : list varg) (n : Z) : pf C :=
  Pf d ap n 1 (if f_long f then LONGSZ else INTSZ) 0 0 (f_width f) (if f_left f then 1 else 0)
    (if f_zero f then chr "0"%char else chr " "%char) 0 0 (if f_alt f then 1 else 0).

Lemma send_flags f d ap n :
  each send (chr "%"%char :: flag (f_alt f) (chr "#"%char) ++ flag (f_left f) (chr "-"%char) ++ flag (f_zero f) (chr "0"%char))
    (rest d ap n) = Ok (tt, set_up (Field (f_alt f) (f_left f) (f_zero f) false 0 (f_conv f)) d ap n).
Proof using. by destruct f as [[] [] [] l w c]. Qed.

Lemma send_opening f d ap n g : 0 ≤ f_width f < 2 ^ 31 →
  each send (piece_fmt (Spec f) ++ g) (rest d ap n) = each send (conv_char (f_conv f) :: g) (set_up f d ap n).
Proof using.
  intros Hw. pose proof (send_flags f d ap n) as Hf.
  assert (∀ a b c w l x, (chr "%"%char :: a ++ b ++ c ++ w ++ l ++ [x]) ++ g = (chr "%"%char :: a ++ b ++ c) ++ w ++ l ++ x :: g) as Hsp.
  { intros. simpl. by rewrite <- !app_assoc. }
  unfold piece_fmt. rewrite Hsp.
  rewrite (each_app _ _ _ _ Hf). set (s := set_up _ d ap n).
  rewrite (each_app _ _ s (set_spacing (f_width f) s)).
  - rewrite (each_app _ _ _ (set_up f d ap n)); [done|].
    etrans; [eapply send_flag; [done|by apply (bool_decide_unpack _)|reflexivity]|]. unfold s, set_up, set_size, set_spacing. simpl. by destruct (f_long f).
  - destruct (Z.eqb_spec (f_width f) 0) as [->|]; [done|]. unfold number.
    pose proof (value_numeral 10 ltac:(lia) (f_width f) ltac:(lia)) as Hv. unfold value in Hv.
    rewrite <- Hv at 2. apply (send_width _ s); [done|apply numeral_digits; lia|done|..].
    + intros _. destruct (numeral_head 10 ltac:(lia) (f_width f)) as (x & l & Hx & Hp); [lia|]. exists x, l. split; [done|lia].
    + change (pf_spacing s) with 0. rewrite Hv. lia.
Qed.

(** ** Conversions *)

Lemma printnum_eq s : ready s → 0 ≤ pf_fillchar s < 256 → 8 ≤ pf_base s ≤ 16 → is_u32 (pf_num s) →
  __pf_printnum send s = Ok (tt, out s (padded s (flag (negb (pf_sign s =? 0)) (chr "-"%char))
    (if negb (pf_baseprefix s =? 0) && (pf_base s =? 16) then lit "0x"
     else if negb (pf_baseprefix s =? 0) && (pf_base s =? 8) then lit "0" else []) (number (pf_base s) (pf_num s)))).
Proof using All.
  intros Hs Hf Hb Hn. unfold __pf_printnum. rewrite (bind_eq (gets _) _ _ s s) by done.
  pose proof (number_size (pf_base s) (pf_num s) ltac:(lia) Hn).
  erewrite bind_eq by (unfold lift; by rewrite convert_eq by (done || lia)). cbv beta iota.
  erewrite bind_eq by (unfold lift; by rewrite number_text by (done || lia)). cbv zeta.
  change (lit "-") with [chr "-"%char]. rewrite printstuff_eq; [done..|].
  rewrite !length_app. destruct (negb (pf_sign s =? 0)); simpl; repeat case_match; simpl; lia.
Qed.

(** The state after a field that printed [t]. *)
Definition after s (t : list Z) : pf C := rest (put (pf_data s) t) (pf_ap s) (s32 (pf_charcount s + zlen t)).

Lemma send_enter ch s : ch ≠ 0 → pf_in_pct s = 1 → ch ∉ MODIFIERS →
  __pf_send send ch s =
    (if bool_decide (ch ∈ INTTYPES) then
       _ ← __pf_getnum ch; _ ← __pf_setbase ch; _ ← __pf_printnum send; __pf_endfield
     else if ch =? chr "s"%char then
       str ← va_str; _ ← __pf_printstuff send [] [] (default NULLTEXT str); __pf_endfield
     else
       x ← (if ch =? chr "c"%char then n ← va_num; mret (u8 n) else mret (u8 ch));
       _ ← __pf_printstuff send [] [] (if x =? 0 then [] else [x]); __pf_endfield) s.
Proof using.
  intros Hc Hp Hm. unfold __pf_send.
  rewrite (bind_eq (asrt _) _ _ tt s) by (unfold asrt, lift; by replace (ch =? 0) with false by lia).
  rewrite (bind_eq (gets _) _ _ s s) by done. rewrite Hp. simpl. by rewrite bool_decide_false.
Qed.

Lemma send_number ch s s1 s2 : pf_in_pct s = 1 → ch ∈ INTTYPES → ready s2 → 0 ≤ pf_fillchar s2 < 256 →
  8 ≤ pf_base s2 ≤ 16 → is_u32 (pf_num s2) →
  __pf_getnum ch s = Ok (tt, s1) → __pf_setbase ch s1 = Ok (tt, s2) →
  __pf_send send ch s = Ok (tt, after s2 (padded s2 (flag (negb (pf_sign s2 =? 0)) (chr "-"%char))
    (if negb (pf_baseprefix s2 =? 0) && (pf_base s2 =? 16) then lit "0x"
     else if negb (pf_baseprefix s2 =? 0) && (pf_base s2 =? 8) then lit "0" else []) (number (pf_base s2) (pf_num s2)))).
Proof using All.
  intros Hp Hc Hs Hf Hb Hn H1 H2.
  assert (ch ≠ 0 ∧ ch ∉ MODIFIERS) as [? ?].
  { clear H1 H2. revert ch Hc. apply Forall_forall. repeat constructor; by apply (bool_decide_unpack _). }
  rewrite send_enter, bool_decide_true by done. rewrite (bind_eq _ _ _ _ _ H1), (bind_eq _ _ _ _ _ H2).
  rewrite (bind_eq _ _ _ _ _ (printnum_eq s2 Hs Hf Hb Hn)). done.
Qed.

(** With the number read and the base set. *)
Definition numbered (f : field) (d : C) (ap : list varg) (n num sign base prefix : Z) : pf C :=
  Pf d ap n 1 (if f_long f then LONGSZ else INTSZ) num sign (f_width f) (if f_left f then 1 else 0)
    (if f_zero f then chr "0"%char else chr " "%char) base prefix (if f_alt f then 1 else 0).

Lemma getnum_signed f d ap n z :
  __pf_getnum (chr "d"%char) (set_up f d (VNum z :: ap) n) =
    Ok (tt, numbered f d ap n (Z.abs (s32 z)) (if s32 z <? 0 then -1 else 0) 0 0).
Proof using.
  pose proof (s32_in z). unfold __pf_getnum. change (chr "d"%char =? chr "p"%char) with false.
  change (chr "d"%char =? chr "d"%char) with true. cbv iota.
  rewrite (bind_eq va_num _ _ z (set_ap ap (set_up f d (VNum z :: ap) n))) by done. cbv zeta.
  destruct (Z.ltb_spec (s32 z) 0).
  - unfold modify. rewrite u32_id by in_range. by replace (Z.abs (s32 z)) with (- s32 z) by lia.
  - unfold modify. by replace (Z.abs (s32 z)) with (s32 z) by lia.
Qed.

Lemma setbase_eq f d ap n num sign ch base : (ch, base) ∈ [(chr "d"%char, 10); (chr "u"%char, 10); (chr "o"%char, 8);
    (chr "x"%char, 16); (chr "p"%char, 16)] →
  __pf_setbase ch (numbered f d ap n num sign 0 0) =
    Ok (tt, numbered f d ap n num sign base (if f_alt f || (ch =? chr "p"%char) then 1 else 0)).
Proof using.
  intros Hc. destruct f as [alt left zero long w c].
  repeat (apply elem_of_cons in Hc as [[= -> ->]|Hc]; [by destruct alt|]). by apply not_elem_of_nil in Hc.
Qed.

(** The number conversions, from the number and the sign that were read. *)
Lemma send_integer f d ap ap' n num sign ch base t :
  (ch, base) ∈ [(chr "d"%char, 10); (chr "u"%char, 10); (chr "o"%char, 8); (chr "x"%char, 16); (chr "p"%char, 16)] →
  good d → is_s32 n → is_u32 num → __pf_getnum ch (set_up f d ap n) = Ok (tt, numbered f d ap' n num sign 0 0) →
  t = pad (f_width f) (f_left f) (if f_zero f then chr "0"%char else chr " "%char) (flag (negb (sign =? 0)) (chr "-"%char))
    (if (f_alt f || (ch =? chr "p"%char)) && (base =? 16) then lit "0x"
     else if (f_alt f || (ch =? chr "p"%char)) && (base =? 8) then lit "0" else []) (number base num) →
  __pf_send send ch (set_up f d ap n) = Ok (tt, rest (put d t) ap' (s32 (n + zlen t))).
Proof using All.
  intros Hc Hd Hn Hnum Hget ->. pose proof (setbase_eq f d ap' n num sign ch base Hc) as Hset.
  assert (ch ∈ INTTYPES ∧ 8 ≤ base ≤ 16) as [Hint Hbase].
  { clear Hget Hset. repeat (apply elem_of_cons in Hc as [[= -> ->]|Hc]; [by split; [apply (bool_decide_unpack _)|]|]).
    by apply not_elem_of_nil in Hc. }
  assert (0 ≤ (if f_zero f then chr "0"%char else chr " "%char) < 256) as Hfill by by destruct (f_zero f).
  rewrite (send_number ch (set_up f d ap n) _ (numbered f d ap' n num sign base (if f_alt f || (ch =? chr "p"%char) then 1 else 0))
    eq_refl Hint (conj Hd Hn) Hfill Hbase Hnum Hget Hset).
  unfold after, padded. simpl. by destruct (f_alt f || _), (f_left f).
Qed.

Lemma print_text f d ap n t : good d → is_s32 n → zlen t < 2 ^ 31 →
  (_ ← __pf_printstuff send [] [] t; __pf_endfield) (set_up f d ap n) =
    let u := pad (f_width f) (f_left f) (if f_zero f then chr "0"%char else chr " "%char) [] [] t in
    Ok (tt, rest (put d u) ap (s32 (n + zlen u))).
Proof using All.
  intros Hd Hn Ht. erewrite bind_eq by (apply printstuff_eq; [done|simpl; by destruct (f_zero f)|done]).
  by destruct f as [alt [] zero long w c].
Qed.

Lemma send_conv f d ap n : good d → is_s32 n → conv_ok (f_conv f) →
  __pf_send send (conv_char (f_conv f)) (set_up f d (conv_args (f_conv f) ++ ap) n) =
    Ok (tt, rest (put d (piece_text (Spec f))) ap (s32 (n + zlen (piece_text (Spec f))))).
Proof using All.
  intros Hd Hn Hc. destruct f as [alt left zero long w c]. set (f := Field _ _ _ _ _ _).
  assert (0 ≤ (if zero then chr "0"%char else chr " "%char) < 256) as Hfill by by destruct zero.
  pose proof (u32_range). pose proof s32_in.
  destruct c as [z|z|z|z|z|t|z|c].
  - eapply (send_integer f d _ ap n (Z.abs (s32 z)) _ _ 10); [by apply (bool_decide_unpack _)|done|done|..].
    + specialize (H0 z). in_range.
    + apply getnum_signed.
    + simpl. rewrite !andb_false_r. by destruct (s32 z <? 0).
  - by apply (send_integer f d _ ap n (u32 z) 0 _ 10); [apply (bool_decide_unpack _)|..|simpl; rewrite !andb_false_r].
  - apply (send_integer f d _ ap n (u32 z) 0 _ 8); [by apply (bool_decide_unpack _)|done..|]. by destruct alt.
  - apply (send_integer f d _ ap n (u32 z) 0 _ 16); [by apply (bool_decide_unpack _)|done..|]. by destruct alt.
  - apply (send_integer f d _ ap n (u32 z) 0 _ 16); [by apply (bool_decide_unpack _)|done..|]. by destruct alt.
  - rewrite send_enter by first [done|by apply (bool_decide_unpack _)]. simpl.
    erewrite (bind_eq va_str) by reflexivity. apply (print_text f); [done..|]. by destruct t.
  - rewrite send_enter by first [done|by apply (bool_decide_unpack _)]. simpl.
    erewrite (bind_eq (va_num ≫= _)) by reflexivity. apply (print_text f); [done..|]. by destruct (u8 z =? 0).
  - destruct Hc as (Hr & Hm & Hi & Hs & Hx). simpl. rewrite send_enter by (done || lia).
    rewrite bool_decide_false by done. rewrite (proj2 (Z.eqb_neq _ _) Hs), (proj2 (Z.eqb_neq _ _) Hx).
    erewrite (bind_eq (mret _)) by reflexivity. rewrite u8_id by lia. replace (c =? 0) with false by lia.
    by apply (print_text f).
Qed.

Lemma send_piece p d ap n g : piece_ok p → good d → is_s32 n →
  each send (piece_fmt p ++ g) (rest d (piece_args p ++ ap) n) =
    each send g (rest (put d (piece_text p)) ap (s32 (n + zlen (piece_text p)))).
Proof using All.
  intros Hp Hd Hn. destruct p as [c|f]; simpl in Hp.
  - simpl. rewrite (bind_eq _ _ _ tt (rest (put d [c]) ap (s32 (n + 1)))); [done|].
    unfold __pf_send. destruct Hp as [Hc Hne].
    rewrite (bind_eq (asrt _) _ _ tt (rest d ap n)) by (unfold asrt, lift; by replace (c =? 0) with false by lia).
    rewrite (bind_eq (gets _) _ _ (rest d ap n) (rest d ap n)) by done.
    rewrite (proj2 (Z.eqb_neq _ _) Hne). simpl. rewrite u8_id by lia. by rewrite print_eq.
  - destruct Hp as [Hw Hc]. rewrite send_opening by done. simpl. erewrite bind_eq by by apply send_conv. done.
Qed.

Lemma send_pieces ps d ap n : Forall piece_ok ps → good d → is_s32 n →
  each send (fmt ps) (rest d (args ps ++ ap) n) = Ok (tt, rest (put d (texts ps)) ap (s32 (n + zlen (texts ps)))).
Proof using All.
  intros Hps. revert d n. induction Hps as [|p ps Hp Hps IH]; intros d n Hd Hn.
  - unfold fmt, args, texts. simpl. rewrite (sink_nil (send := send)), Z.add_0_r, s32_id by done. done.
  - unfold fmt, args, texts. simpl. fold (fmt ps) (args ps) (texts ps). rewrite <- app_assoc, send_piece by done.
    rewrite IH by first [by apply (sink_good (send := send))|apply s32_in].
    rewrite (sink_app (send := send)), s32_plus, length_app, Nat2Z.inj_add by done. by rewrite Z.add_assoc.
Qed.

Lemma vprintf_eq ps d ap : Forall piece_ok ps → good d →
  __vprintf send d (fmt ps) (args ps ++ ap) = Ok (put d (texts ps), s32 (zlen (texts ps))).
Proof using All.
  intros Hps Hd. unfold __vprintf. rewrite (bind_eq __pf_endfield _ _ tt (rest d (args ps ++ ap) 0)) by done.
  by rewrite send_pieces.
Qed.
End sending.

(** ** snprintf *)

(** What the buffer of snprintf takes of a text. *)
Definition snp_good (snp : SNP) : Prop := 0 ≤ snp_bufpos snp ≤ snp_buflen snp ∧ snp_buflen snp ≤ zlen (snp_buf snp).
Definition room (snp : SNP) (t : list Z) : list Z := take (Z.to_nat (snp_buflen snp - snp_bufpos snp)) t.
Definition snp_put (snp : SNP) (t : list Z) : SNP :=
  Snp (splice (snp_buf snp) (snp_bufpos snp) (room snp t)) (snp_buflen snp) (snp_bufpos snp + zlen (room snp t)).

Lemma room_fits snp t : snp_good snp → snp_bufpos snp + zlen (room snp t) ≤ snp_buflen snp.
Proof. intros [Hp Hl]. unfold room. rewrite length_take. lia. Qed.

Lemma snp_put_good snp t : snp_good snp → snp_good (snp_put snp t).
Proof.
  intros Hg. pose proof (room_fits snp t Hg). destruct Hg as [Hp Hl]. unfold snp_good, snp_put. simpl.
  rewrite length_splice; lia.
Qed.

Lemma snp_put_nil snp : snp_put snp [] = snp.
Proof. unfold snp_put, room. rewrite take_nil, splice_nil. simpl. rewrite Z.add_0_r. by destruct snp. Qed.

Lemma snp_put_app snp t u : snp_good snp → snp_put snp (t ++ u) = snp_put (snp_put snp t) u.
Proof.
  intros Hg. pose proof (room_fits (snp_put snp t) u (snp_put_good snp t Hg)) as Hf. destruct Hg as [Hp Hl].
  assert (room snp (t ++ u) = room snp t ++ room (snp_put snp t) u) as Ha.
  { unfold room. simpl. rewrite take_app. f_equal. unfold room. rewrite length_take. f_equal. lia. }
  unfold snp_put in *. simpl in *. rewrite Ha, length_app, Nat2Z.inj_add. rewrite splice_splice by lia.
  f_equal. lia.
Qed.

Lemma snp_step snp c : snp_good snp →
  (if snp_bufpos snp <? snp_buflen snp then
     buf ← (snp_buf snp).[snp_bufpos snp <- c]; mret (Snp buf (snp_buflen snp) (snp_bufpos snp + 1))
   else mret snp) = Ok (snp_put snp [c]).
Proof.
  intros [Hp Hl]. apply wp_eq. unfold snp_put, room. destruct (Z.ltb_spec (snp_bufpos snp) (snp_buflen snp)).
  - rewrite wp_bind. apply wp_setz; [lia|]. wp_val.
    replace (Z.to_nat (snp_buflen snp - snp_bufpos snp)) with (S (Z.to_nat (snp_buflen snp - snp_bufpos snp - 1))) by lia.
    simpl. rewrite take_nil. f_equal.
    pose proof (splice_char (snp_buf snp) (snp_bufpos snp) [] c) as Hs. rewrite splice_nil, Z.add_0_r in Hs. apply Hs; simpl; lia.
  - wp_val. replace (Z.to_nat (snp_buflen snp - snp_bufpos snp)) with 0%nat by lia. simpl.
    rewrite splice_nil, Z.add_0_r. by destruct snp.
Qed.

Lemma snp_send snp t : snp_good snp → __snprintf_send t snp = Ok (snp_put snp t).
Proof.
  intros Hg. apply wp_eq. unfold __snprintf_send. eapply wp_mono.
  - apply (wp_for_range (λ i r, r = snp_put snp (take (Z.to_nat i) t))).
    + symmetry. apply snp_put_nil.
    + intros j r Hj ->. rewrite wp_bind. apply wp_getz; [lia|]. intros c Hc.
      rewrite snp_step by by apply snp_put_good. rewrite wp_ok, <- snp_put_app by done.
      replace (Z.to_nat (j + 1)) with (S (Z.to_nat j)) by lia. by rewrite (take_S_r _ _ c).
  - intros r ->. by rewrite Z.add_0_l, Nat2Z.id, take_ge.
Qed.

#[export] Instance snprintf_sink : Sink __snprintf_send snp_good snp_put.
Proof.
  constructor; intros; [by apply snp_send|by apply snp_put_good|apply snp_put_nil|by apply snp_put_app].
Qed.

Lemma snprintf_eq buf len ps ap : Forall piece_ok ps → 0 ≤ len ≤ zlen buf →
  snprintf buf len (fmt ps) (args ps ++ ap) =
    Ok (if len =? 0 then buf else splice buf 0 (take (Z.to_nat (len - 1)) (texts ps) ++ [0]), s32 (zlen (texts ps))).
Proof.
  intros Hps Hl. unfold snprintf, vsnprintf. set (snp := Snp buf _ 0).
  assert (snp_good snp) as Hg by (unfold snp, snp_good; simpl; case_match; lia).
  rewrite (vprintf_eq __snprintf_send snp_good snp_put) by done. apply wp_eq. wp_val. rewrite wp_bind.
  unfold snp, snp_put, room. simpl. rewrite Z.sub_0_r. destruct (Z.eqb_spec len 0) as [->|].
  - simpl. wp_val. by rewrite take_0, splice_nil.
  - replace (len >? 0) with true by lia. set (t := take _ (texts ps)).
    assert (zlen t < len) by (unfold t; rewrite length_take; lia).
    apply wp_setz; [rewrite length_splice; lia|]. wp_val. f_equal. apply (splice_char buf 0); lia.
Qed.



(** ** Reading a printed number *)

Lemma number_decimal n : 0 ≤ n < 2 ^ 32 → number 10 n = (λ d, 48 + d) <$> numeral 10 n.
Proof.
  intros Hn. unfold number. apply list_fmap_ext. intros i d Hd.
  pose proof (Forall_lookup_1 _ _ _ _ (numeral_digits 10 ltac:(lia) n Hn) Hd) as Hr. simpl in Hr.
  by apply digit_char_decimal.
Qed.

Lemma value_zeros k ds : value 10 (replicate k 0 ++ ds) = value 10 ds.
Proof. unfold value. rewrite foldl_app. f_equal. by induction k. Qed.

(** A field for %d, unless it is both left-justified and filled with zeros, is a number with blanks around it. *)
Lemma printed_number z left zero w : is_s32 z → negb (left && zero) →
  ∃ bl k tl, piece_text (Spec (Field false left zero false w (CDec z))) =
      bl ++ flag (z <? 0) MINUS ++ ((λ d, 48 + d) <$> replicate k 0 ++ numeral 10 (Z.abs z)) ++ tl ∧
    Forall (λ c, c = SPACE ∨ c = TAB) bl ∧ Forall (eq SPACE) tl.
Proof.
  intros Hz Hlz. simpl. rewrite s32_id by done. rewrite number_decimal by in_range. unfold pad. simpl.
  set (k := Z.to_nat _). destruct left; [destruct zero; [done|]|destruct zero]; simpl.
  - exists [], 0%nat, (replicate k SPACE). split; [done|]. split; [done|]. apply Forall_replicate. done.
  - exists [], k, []. rewrite fmap_app, fmap_replicate, !app_nil_r. done.
  - exists (replicate k SPACE), 0%nat, []. rewrite app_nil_r. split; [done|]. split; [|done]. apply Forall_replicate. by left.
Qed.

Lemma string_written buf t : (length t < length buf)%nat → Forall (λ c, 0 < c < 256) t → str_at (splice buf 0 (t ++ [0])) 0 t.
Proof.
  intros Hl Ht. assert (length (splice buf 0 (t ++ [0])) = length buf) as Hlen.
  { apply length_splice; [lia|]. rewrite length_app. simpl. lia. }
  constructor; [lia|lia|..|done].
  - apply list_eq. intros i. rewrite lookup_sub, lookup_splice by (rewrite ?length_app; simpl; lia).
    destruct (decide _) as [Hi|Hi]; [|by rewrite lookup_ge_None_2 by lia].
    rewrite decide_True by (rewrite length_app; simpl; lia). rewrite lookup_app_l by lia. f_equal. lia.
  - rewrite lookup_splice by (rewrite ?length_app; simpl; lia). rewrite decide_True by (rewrite length_app; simpl; lia).
    rewrite lookup_app_r by lia. by replace (_ - _)%nat with 0%nat by lia.
Qed.

Lemma decimal_text z left zero w : is_s32 z →
  zlen (piece_text (Spec (Field false left zero false w (CDec z)))) ≤ Z.max w 11 ∧
  Forall (λ c, 0 < c < 256) (piece_text (Spec (Field false left zero false w (CDec z)))).
Proof.
  intros Hz. assert (0 ≤ Z.abs z < 2 ^ 32) as Ha by in_range.
  unfold piece_text, f_alt, f_left, f_zero, f_width, f_conv, conv_text. rewrite s32_id by done. split.
  - rewrite pad_length, !length_app. assert (length (number 10 (Z.abs z)) ≤ 10)%nat.
    { unfold number. rewrite length_fmap. apply numeral_size; [lia|done|]. change (10 ^ Z.of_nat 10) with 10000000000. in_range. }
    destruct (z <? 0); simpl; lia.
  - apply pad_chars; [by destruct zero|]. apply Forall_app. split; [destruct (z <? 0); by repeat constructor|].
    eapply Forall_impl; [apply (number_chars 10); [lia|done]|]. intros c Hc. simpl in Hc. lia.
Qed.

(** C21: Printing an int with snprintf and %d, in a field of any width that fits the buffer, padded with blanks
    on either side or with zeros on the left, and reading it with atoi gives the int back. *)
Theorem atoi_reads_snprintf buf len z left zero w :
  is_s32 z → negb (left && zero) → 0 ≤ w < len → 12 ≤ len ≤ zlen buf → len < 2 ^ 31 →
  ∃ buf' n, snprintf buf len (fmt [Spec (Field false left zero false w (CDec z))]) [VNum z] = Ok (buf', n) ∧
    n < len ∧ atoi 0 buf' = Ok z.
Proof.
  intros Hz Hlz Hw Hl Hmax. set (f := Field _ _ _ _ _ _).
  pose proof (snprintf_eq buf len [Spec f] [] ltac:(repeat constructor; simpl; lia) ltac:(lia)) as Hp.
  assert (texts [Spec f] = piece_text (Spec f)) as E by apply app_nil_r. rewrite E in Hp.
  destruct (decimal_text z left zero w Hz) as [Ht Hc]. fold f in Ht, Hc.
  rewrite take_ge in Hp by lia. replace (len =? 0) with false in Hp by lia. eexists _, _. split; [exact Hp|].
  split; [rewrite s32_id by in_range; lia|].
  destruct (printed_number z left zero w Hz Hlz) as (bl & k & tl & Htext & Hbl & Htl). fold f in Htext. rewrite Htext in *.
  pose proof (numeral_digits 10 ltac:(lia) (Z.abs z) ltac:(in_range)) as Hds.
  rewrite (atoi_spec _ 0 bl (flag (z <? 0) MINUS) (z <? 0) (replicate k 0 ++ numeral 10 (Z.abs z)) tl).
  - rewrite value_zeros, value_numeral, u32_id by in_range. f_equal. destruct (Z.ltb_spec z 0); rewrite s32_id by in_range; lia.
  - apply string_written; [lia|done].
  - done.
  - destruct (z <? 0) eqn:Ez; [constructor|]. destruct k as [|k]; simpl; [|constructor].
    destruct (numeral 10 (Z.abs z)) eqn:En; [|constructor].
    assert (Z.abs z = 0) as Hz0 by (rewrite <- (value_numeral 10 ltac:(lia) (Z.abs z)), En by in_range; done).
    by rewrite Hz0 in En.
  - apply Forall_app. split; [|done]. by apply Forall_replicate.
  - by destruct Htl as [|? ? <-].
Qed.

Lemma atoi_reads_snprintf_witness :
  ∃ buf' n, snprintf (replicate 20 7) 20 (fmt [Spec (Field false false true false 15 (CDec (-2147483648)))]) [VNum (-2147483648)] =
      Ok (buf', n) ∧ n < 20 ∧ atoi 0 buf' = Ok (-2147483648).
Proof. apply atoi_reads_snprintf; [split; lia|done|lia|vm_compute; split; done|lia]. Defined.

(** A left-justified field with the zero flag is padded with zeros on the right, which changes the number. *)
Lemma left_zero_changes_number :
  snprintf (replicate 8 0) 8 (lit "%-05d") [VNum 42] = Ok (lit "42000" ++ [0; 0; 0], 5) ∧
  atoi 0 (lit "42000" ++ [0; 0; 0]) = Ok 42000.
Proof. by vm_compute. Qed.
