(* ===== verification/Malloc.v ===== *)
(** * The heap of user programs (lib/libc/malloc.c)

    A first-fit allocator.  The heap is the memory from [__heapbase] to [__heaptop]; it is cut into blocks,
    each with a header of two words.  Memory is a map from the addresses of accessible words to 32-bit
    values; other accesses are undefined.  The bit fields of a header are placed from the high end of the
    word on, as the big-endian target does.  [sbrk] is the system call: it is a parameter, with the state
    [W] of the system.  Messages on standard error are left out; errx and err exit with their code. *)

From S2P Require Import Prelude StateM.

Definition MBLOCKSIZE : Z := 8.
Definition MBLOCKSHIFT : Z := 3.
Definition MMAGIC : Z := 2.
Definition SIZEOF_MHEADER : Z := 8.

(** What [sbrk] answers when it fails, (void * )-1. *)
Definition SBRK_FAILED : Z := 2 ^ 32 - 1.

(** The words that can be accessed. *)
Abbreviation words := (gmap Z Z).

Section malloc.
Context {W : Type}.
Variable sbrk : Z → W → words → res (Z * W * words).

Record umem := Umem { heapbase : Z; heaptop : Z; um_words : words; um_world : W }.
Implicit Types s : umem.

Definition set_heapbase x s := Umem x (heaptop s) (um_words s) (um_world s).
Definition set_heaptop x s := Umem (heapbase s) x (um_words s) (um_world s).
Definition set_words x s := Umem (heapbase s) (heaptop s) x (um_world s).

Abbreviation M := (prog umem).

Definition load (a : Z) : M Z := λ s, match um_words s !! a with Some w => Ok (inr w, s) | None => Fault FUndef end.
Definition store (a w : Z) : M unit := λ s,
  match um_words s !! a with Some _ => Ok (inr tt, set_words (<[a := w]> (um_words s)) s) | None => Fault FUndef end.

(** [n] bits of a word from bit [lo] on. *)
Definition bits (lo n w : Z) : Z := Z.land (Z.shiftr w lo) (Z.ones n).
Definition set_bits (lo n v w : Z) : Z := Z.lor (Z.ldiff w (Z.shiftl (Z.ones n) lo)) (Z.shiftl (Z.land v (Z.ones n)) lo).

Definition get_bits (a lo n : Z) : M Z := w ← load a; mret (bits lo n w).
Definition put_bits (a lo n v : Z) : M unit := w ← load a; store a (set_bits lo n v w).

Definition mh_prevblock (mh : Z) : M Z := get_bits mh 3 29.
Definition mh_magic1 (mh : Z) : M Z := get_bits mh 0 2.
Definition mh_nextblock (mh : Z) : M Z := get_bits (mh + 4) 3 29.
Definition mh_inuse (mh : Z) : M Z := get_bits (mh + 4) 2 1.
Definition mh_magic2 (mh : Z) : M Z := get_bits (mh + 4) 0 2.
Definition set_prevblock (mh v : Z) : M unit := put_bits mh 3 29 v.
Definition set_pad (mh v : Z) : M unit := put_bits mh 2 1 v.
Definition set_magic1 (mh v : Z) : M unit := put_bits mh 0 2 v.
Definition set_nextblock (mh v : Z) : M unit := put_bits (mh + 4) 3 29 v.
Definition set_inuse (mh v : Z) : M unit := put_bits (mh + 4) 2 1 v.
Definition set_magic2 (mh v : Z) : M unit := put_bits (mh + 4) 0 2 v.

Definition M_NEXTOFF (mh : Z) : M Z := n ← mh_nextblock mh; mret (u32 (Z.shiftl n MBLOCKSHIFT)).
Definition M_PREVOFF (mh : Z) : M Z := n ← mh_prevblock mh; mret (u32 (Z.shiftl n MBLOCKSHIFT)).
Definition M_NEXT (mh : Z) : M Z := n ← M_NEXTOFF mh; mret (u32 (mh + n)).
Definition M_PREV (mh : Z) : M Z := n ← M_PREVOFF mh; mret (u32 (mh - n)).
Definition M_DATA (mh : Z) : Z := u32 (mh + SIZEOF_MHEADER).
Definition M_SIZE (mh : Z) : M Z := n ← M_NEXTOFF mh; mret (u32 (n - MBLOCKSIZE)).
Definition M_OK (mh : Z) : M bool :=
  m1 ← mh_magic1 mh;
  if m1 =? MMAGIC then m2 ← mh_magic2 mh; mret (m2 =? MMAGIC) else mret false.
Definition M_MKFIELD (off : Z) : Z := Z.shiftr off MBLOCKSHIFT.

Definition guser {A} (f : umem → A) : M A := run (gets f).
Definition muser (f : umem → umem) : M unit := run (modify f).

(** The system call takes an int. *)
Definition call_sbrk (n : Z) : M Z := λ s,
  match sbrk (s32 n) (um_world s) (um_words s) with
  | Ok (x, w, m) => Ok (inr x, Umem (heapbase s) (heaptop s) m w)
  | Fault e => Fault e
  end.

Definition exit_if (b : bool) : M unit := if b then pexit 1 else mret tt.

Definition __malloc_init : M unit :=
  _ ← exit_if (negb (SIZEOF_MHEADER =? MBLOCKSIZE));
  _ ← exit_if (negb (Z.land MBLOCKSIZE (MBLOCKSIZE - 1) =? 0));
  _ ← exit_if (negb (Z.shiftl 1 MBLOCKSHIFT =? MBLOCKSIZE));
  base ← guser heapbase;
  top ← guser heaptop;
  _ ← exit_if (negb (base =? 0) || negb (top =? 0));
  x ← call_sbrk 0;
  _ ← exit_if (x =? SBRK_FAILED);
  _ ← exit_if (x =? 0);
  _ ← muser (λ s, set_heapbase x (set_heaptop x s));
  if negb (x mod MBLOCKSIZE =? 0) then
    let adjust := MBLOCKSIZE - x mod MBLOCKSIZE in
    y ← call_sbrk adjust;
    _ ← exit_if (y =? SBRK_FAILED);
    _ ← exit_if (negb (y =? x));
    muser (λ s, set_heapbase (u32 (x + adjust)) (set_heaptop (u32 (x + adjust)) s))
  else mret tt.

Definition __malloc_sbrk (size : Z) : M Z :=
  x ← call_sbrk size;
  if x =? SBRK_FAILED then mret 0
  else
    top ← guser heaptop;
    _ ← exit_if (negb (x =? top));
    _ ← muser (set_heaptop (u32 (top + size)));
    mret x.

Definition __malloc_split (mh size : Z) : M unit :=
  _ ← exit_if (negb (size mod MBLOCKSIZE =? 0));
  oldsize ← M_SIZE mh;
  if u32 (oldsize - size) <? 2 * MBLOCKSIZE then mret tt
  else
    mhnext ← M_NEXT mh;
    oldsize ← M_SIZE mh;
    _ ← set_nextblock mh (M_MKFIELD (u32 (size + MBLOCKSIZE)));
    mhnew ← M_NEXT mh;
    _ ← exit_if (mhnew =? mhnext);
    _ ← set_prevblock mhnew (M_MKFIELD (u32 (size + MBLOCKSIZE)));
    _ ← set_pad mhnew 0;
    _ ← set_magic1 mhnew MMAGIC;
    _ ← set_nextblock mhnew (M_MKFIELD (u32 (oldsize - size)));
    _ ← set_inuse mhnew 0;
    _ ← set_magic2 mhnew MMAGIC;
    top ← guser heaptop;
    if negb (mhnext =? top) then n ← mh_nextblock mhnew; set_prevblock mhnext n else mret tt.

(** The search: the block that was taken, or where the walk ended and the size of the last block. *)
Definition find_block (base top size : Z) : M (Z * Z + Z) :=
  pwhile (S (Z.to_nat (top - base))) (λ '(i, rightprevblock),
    if negb (i <? top) then mret (inr (inl (i, rightprevblock)))
    else
      let mh := i in
      ok ← M_OK mh;
      _ ← exit_if (negb ok);
      prev ← mh_prevblock mh;
      _ ← exit_if (negb (prev =? rightprevblock));
      rightprevblock ← mh_nextblock mh;
      inuse ← mh_inuse mh;
      sz ← M_SIZE mh;
      if negb (inuse =? 0) || (sz <? size) then off ← M_NEXTOFF mh; mret (inl (u32 (i + off), rightprevblock))
      else
        _ ← __malloc_split mh size;
        _ ← set_inuse mh 1;
        mret (inr (inr mh))) (base, 0).

(** The heap is expanded. *)
Definition new_block (size rightprevblock : Z) : M Z :=
  mh ← __malloc_sbrk (u32 (size + MBLOCKSIZE));
  if mh =? 0 then mret 0
  else
    _ ← set_prevblock mh rightprevblock;
    _ ← set_magic1 mh MMAGIC;
    _ ← set_magic2 mh MMAGIC;
    _ ← set_pad mh 0;
    _ ← set_inuse mh 1;
    _ ← set_nextblock mh (M_MKFIELD (u32 (size + MBLOCKSIZE)));
    mret (M_DATA mh).

Definition malloc (size : Z) : M Z :=
  base ← guser heapbase;
  _ ← (if base =? 0 then __malloc_init else mret tt);
  base ← guser heapbase;
  top ← guser heaptop;
  _ ← exit_if ((base =? 0) || (top =? 0) || (base >? top));
  let size := Z.ldiff (u32 (size + MBLOCKSIZE - 1)) (MBLOCKSIZE - 1) in
  r ← find_block base top size;
  match r with
  | inr mh => mret (M_DATA mh)
  | inl (i, rightprevblock) =>
      _ ← exit_if (negb (i =? top));
      new_block size rightprevblock
  end.

Definition __malloc_deadbeef (ptr size : Z) : M unit :=
  pfor (Z.to_nat (size / 4)) 0 (λ i, store (ptr + 4 * i) 3735928559).

Definition __malloc_trymerge (mh mhnext : Z) : M unit :=
  next ← mh_nextblock mh;
  prev ← mh_prevblock mhnext;
  _ ← exit_if (negb (next =? prev));
  inuse ← mh_inuse mh;
  inuse' ← mh_inuse mhnext;
  if negb (inuse =? 0) || negb (inuse' =? 0) then mret tt
  else
    mhnextnext ← M_NEXT mhnext;
    sz ← M_SIZE mh;
    sz' ← M_SIZE mhnext;
    _ ← set_nextblock mh (M_MKFIELD (u32 (u32 (u32 (MBLOCKSIZE + sz) + MBLOCKSIZE) + sz')));
    top ← guser heaptop;
    _ ← (if negb (mhnextnext =? top) then n ← mh_nextblock mh; set_prevblock mhnextnext n else mret tt);
    __malloc_deadbeef mhnext SIZEOF_MHEADER.

Definition free (x : Z) : M unit :=
  if x =? 0 then mret tt
  else
    base ← guser heapbase;
    top ← guser heaptop;
    _ ← exit_if ((base =? 0) || (top =? 0) || (base >? top));
    _ ← exit_if ((x <? base) || (x >=? top));
    let mh := u32 (x - SIZEOF_MHEADER) in
    ok ← M_OK mh;
    _ ← exit_if (negb ok);
    inuse ← mh_inuse mh;
    _ ← exit_if (inuse =? 0);
    _ ← set_inuse mh 0;
    sz ← M_SIZE mh;
    _ ← __malloc_deadbeef (M_DATA mh) sz;
    mhnext ← M_NEXT mh;
    _ ← (if negb (mhnext =? top) then __malloc_trymerge mh mhnext else mret tt);
    if negb (mh =? base) then mhprev ← M_PREV mh; __malloc_trymerge mhprev mh else mret tt.
End malloc.
