(* ===== verification/MallocSpec.v ===== *)
(** * The user heap as a list of blocks

    [heap s bs]: the memory between [__heapbase] and [__heaptop] is the sequence of blocks [bs], with a header
    before each.  malloc and free are specified on such lists: a block is taken where it fits first, and
    split; a freed block is joined with free neighbours. *)

From S2P Require Import Prelude StateM Malloc.

(** ** Header words *)

(** A block number, a flag and the magic number. *)
Definition hw (p u m : Z) : Z := 8 * p + 4 * u + m.

Lemma bits_eq lo n w : 0 ≤ lo → 0 ≤ n → bits lo n w = (w / 2 ^ lo) mod 2 ^ n.
Proof. intros. unfold bits. by rewrite Z.land_ones, Z.shiftr_div_pow2 by done. Qed.

Lemma field_bit lo n w i : 0 ≤ lo → 0 ≤ i →
  Z.testbit (Z.shiftl (bits lo n w) lo) i = bool_decide (lo ≤ i) && Z.testbit w i && Z.testbit (Z.ones n) (i - lo).
Proof.
  intros Hlo Hi. rewrite Z.shiftl_spec by done. unfold bits. rewrite Z.land_spec. case_bool_decide.
  - rewrite Z.shiftr_spec by lia. by replace (i - lo + lo) with i by lia.
  - by rewrite !(Z.testbit_neg_r _ (i - lo)) by lia.
Qed.

Lemma mask_bit lo n i : 0 ≤ lo → 0 ≤ i → Z.testbit (Z.shiftl (Z.ones n) lo) i = bool_decide (lo ≤ i) && Z.testbit (Z.ones n) (i - lo).
Proof.
  intros Hlo Hi. rewrite Z.shiftl_spec by done. case_bool_decide; [done|]. by rewrite Z.testbit_neg_r by lia.
Qed.

Lemma set_bits_eq lo n v w : 0 ≤ lo → 0 ≤ n →
  set_bits lo n v w = w - bits lo n w * 2 ^ lo + (v mod 2 ^ n) * 2 ^ lo.
Proof.
  intros Hlo Hn. unfold set_bits.
  assert (Z.land (Z.ldiff w (Z.shiftl (Z.ones n) lo)) (Z.shiftl (Z.land v (Z.ones n)) lo) = 0) as Hz.
  { apply Z.bits_inj'. intros i Hi. rewrite Z.land_spec, Z.ldiff_spec, mask_bit, Z.bits_0, Z.shiftl_spec, Z.land_spec by done.
    case_bool_decide; [|rewrite (Z.testbit_neg_r _ (i - lo)) by lia]; simpl;
      by destruct (Z.testbit w i), (Z.testbit (Z.ones n) (i - lo)), (Z.testbit v (i - lo)). }
  rewrite <- Z.lxor_lor, <- Z.add_nocarry_lxor by done.
  rewrite Z.land_ones, (Z.shiftl_mul_pow2 (v mod _)), <- (Z.shiftl_mul_pow2 (bits lo n w)) by done. f_equal.
  rewrite Z.sub_nocarry_ldiff; apply Z.bits_inj'; intros i Hi; rewrite !Z.ldiff_spec, field_bit, ?mask_bit, ?Z.bits_0 by done;
    by destruct (bool_decide _), (Z.testbit w i), (Z.testbit (Z.ones n) (i - lo)).
Qed.

(** The fields of a header word. *)
Section fields.
Context (p u m : Z).
Hypothesis (Hp : 0 ≤ p < 2 ^ 29) (Hu : 0 ≤ u < 2) (Hm : 0 ≤ m < 4).

Lemma hw_number : bits 3 29 (hw p u m) = p.
Proof using All. rewrite bits_eq by done. unfold hw. Z.to_euclidean_division_equations. lia. Qed.
Lemma hw_flag : bits 2 1 (hw p u m) = u.
Proof using All. rewrite bits_eq by done. unfold hw. Z.to_euclidean_division_equations. lia. Qed.
Lemma hw_magic : bits 0 2 (hw p u m) = m.
Proof using All. rewrite bits_eq by done. unfold hw. Z.to_euclidean_division_equations. lia. Qed.
Lemma hw_set_number v : 0 ≤ v < 2 ^ 29 → set_bits 3 29 v (hw p u m) = hw v u m.
Proof using All. intros. rewrite set_bits_eq, hw_number, Z.mod_small by done. unfold hw. lia. Qed.
Lemma hw_set_flag v : 0 ≤ v < 2 → set_bits 2 1 v (hw p u m) = hw p v m.
Proof using All. intros. rewrite set_bits_eq, hw_flag, Z.mod_small by done. unfold hw. lia. Qed.
Lemma hw_set_magic v : 0 ≤ v < 4 → set_bits 0 2 v (hw p u m) = hw p u v.
Proof using All. intros. rewrite set_bits_eq, hw_magic, Z.mod_small by done. unfold hw. lia. Qed.
Lemma hw_u32 : is_u32 (hw p u m).
Proof using All. unfold is_u32, hw. lia. Qed.
End fields.

(** Every word can be read as a header word. *)
Lemma hw_any w : is_u32 w → ∃ p u m, w = hw p u m ∧ 0 ≤ p < 2 ^ 29 ∧ 0 ≤ u < 2 ∧ 0 ≤ m < 4.
Proof.
  intros Hw. exists (w / 8), ((w / 4) mod 2), (w mod 4). unfold hw, is_u32 in *. Z.to_euclidean_division_equations. lia.
Qed.

(** ** Blocks *)

(** The number of units of eight bytes with the header, and whether the block is in use. *)
Record block := Block { b_n : Z; b_used : bool }.

Definition ub (u : bool) : Z := if u then 1 else 0.

(** The bytes that blocks take. *)
Fixpoint span (bs : list block) : Z := match bs with [] => 0 | b :: bs => 8 * b_n b + span bs end.

(** The size of the last block, for the header that follows. *)
Fixpoint last_n (p : Z) (bs : list block) : Z := match bs with [] => p | b :: bs => last_n (b_n b) bs end.

Implicit Types (m : words) (bs l : list block) (b : block) (a x p : Z).

Definition hdr m a p b : Prop := m !! a = Some (hw p 0 2) ∧ m !! (a + 4) = Some (hw (b_n b) (ub (b_used b)) 2).

(** The headers of consecutive blocks from address [a] on; [p] is the size of the block before. *)
Fixpoint laid m a p bs : Prop :=
  match bs with
  | [] => True
  | b :: bs => hdr m a p b ∧ 1 ≤ b_n b ∧ laid m (a + 8 * b_n b) (b_n b) bs
  end.

(** The words of the headers, and the data of the blocks in use. *)
Fixpoint head_word a bs x : Prop :=
  match bs with [] => False | b :: bs => x = a ∨ x = a + 4 ∨ head_word (a + 8 * b_n b) bs x end.
Fixpoint data a bs x : Prop :=
  match bs with [] => False | b :: bs => (b_used b ∧ a + 8 ≤ x < a + 8 * b_n b) ∨ data (a + 8 * b_n b) bs x end.

Definition sizes bs : Prop := Forall (λ b, 1 ≤ b_n b) bs.

Lemma span_app l1 l2 : span (l1 ++ l2) = span l1 + span l2.
Proof. induction l1 as [|b l1 IH]; simpl; lia. Qed.
Lemma span_mult bs : ∃ j, span bs = 8 * j.
Proof. induction bs as [|b bs [j IH]]; simpl; [by exists 0|]. exists (b_n b + j). lia. Qed.
Lemma span_pos bs : sizes bs → 8 * zlen bs ≤ span bs.
Proof. induction 1 as [|b bs Hb _ IH]; simpl; [done|]. lia. Qed.
Lemma last_n_app p l1 l2 : last_n p (l1 ++ l2) = last_n (last_n p l1) l2.
Proof. revert p. induction l1 as [|b l1 IH]; intros p; simpl; [done|]. apply IH. Qed.

Lemma laid_app m a p l1 l2 : laid m a p (l1 ++ l2) ↔ laid m a p l1 ∧ laid m (a + span l1) (last_n p l1) l2.
Proof.
  revert a p. induction l1 as [|b l1 IH]; intros a p; simpl.
  - rewrite Z.add_0_r. tauto.
  - rewrite IH. replace (a + 8 * b_n b + span l1) with (a + (8 * b_n b + span l1)) by lia. tauto.
Qed.
Lemma laid_sizes m a p bs : laid m a p bs → sizes bs.
Proof. revert a p. induction bs as [|b bs IH]; intros a p; [constructor|]. intros (_ & Hb & Hl). constructor; [done|]. by eapply IH. Qed.

Lemma head_word_app a l1 l2 x : head_word a (l1 ++ l2) x ↔ head_word a l1 x ∨ head_word (a + span l1) l2 x.
Proof.
  revert a. induction l1 as [|b l1 IH]; intros a; simpl.
  - rewrite Z.add_0_r. tauto.
  - rewrite IH. replace (a + 8 * b_n b + span l1) with (a + (8 * b_n b + span l1)) by lia. tauto.
Qed.
Lemma data_app a l1 l2 x : data a (l1 ++ l2) x ↔ data a l1 x ∨ data (a + span l1) l2 x.
Proof.
  revert a. induction l1 as [|b l1 IH]; intros a; simpl.
  - rewrite Z.add_0_r. tauto.
  - rewrite IH. replace (a + 8 * b_n b + span l1) with (a + (8 * b_n b + span l1)) by lia. tauto.
Qed.

Lemma head_word_range a bs x : sizes bs → head_word a bs x → a ≤ x < a + span bs.
Proof.
  intros Hs. revert a. induction Hs as [|b bs Hb Hs IH]; intros a; simpl; [done|].
  pose proof (span_pos bs Hs). intros [->|[->|Hx]]; [lia|lia|]. apply IH in Hx. lia.
Qed.
Lemma data_range a bs x : sizes bs → data a bs x → a + 8 ≤ x < a + span bs.
Proof.
  intros Hs. revert a. induction Hs as [|b bs Hb Hs IH]; intros a; simpl; [done|].
  pose proof (span_pos bs Hs). intros [[_ Hx]|Hx]; [lia|]. apply IH in Hx. lia.
Qed.
Lemma data_not_head a bs x : sizes bs → data a bs x → ¬ head_word a bs x.
Proof.
  intros Hs. revert a. induction Hs as [|b bs Hb Hs IH]; intros a; simpl; [done|].
  intros [[_ Hx]|Hx].
  - intros [->|[->|Hh]]; [lia|lia|]. apply head_word_range in Hh; [lia|done].
  - apply data_range in Hx as Hr; [|done]. intros [->|[->|Hh]]; [lia|lia|]. by eapply IH.
Qed.

(** The pointers to the blocks in use with the number of bytes. *)
Fixpoint used a bs : list (Z * Z) :=
  match bs with [] => [] | b :: bs => (if b_used b then [(a + 8, 8 * b_n b - 8)] else []) ++ used (a + 8 * b_n b) bs end.

Lemma used_app a l1 l2 : used a (l1 ++ l2) = used a l1 ++ used (a + span l1) l2.
Proof.
  revert a. induction l1 as [|b l1 IH]; intros a; simpl; [by rewrite Z.add_0_r|].
  rewrite IH, <- app_assoc. do 3 f_equal. lia.
Qed.

Lemma data_used a bs x : data a bs x ↔ ∃ p z, (p, z) ∈ used a bs ∧ p ≤ x < p + z.
Proof.
  revert a. induction bs as [|b bs IH]; intros a; simpl; [set_solver|]. rewrite IH. setoid_rewrite elem_of_app. split.
  - intros [[Hu Hx]|(p & z & Hp & Hx)]; [|eauto]. exists (a + 8), (8 * b_n b - 8).
    destruct (b_used b); [|done]. split; [|lia]. left. by constructor.
  - intros (p & z & [Hp|Hp] & Hx); [|eauto]. left. destruct (b_used b); [|by apply not_elem_of_nil in Hp].
    apply list_elem_of_singleton in Hp as [= -> ->]. split; [done|lia].
Qed.

(** Writes outside the headers leave the blocks as they are. *)
Lemma laid_frame m m' a p bs : laid m a p bs → (∀ x, head_word a bs x → m' !! x = m !! x) → laid m' a p bs.
Proof.
  revert a p. induction bs as [|b bs IH]; intros a p; simpl; [done|]. intros ([H1 H2] & Hn & Hl) Hf. split_and!; [|done|].
  - split; rewrite Hf by auto; done.
  - apply IH; [done|]. auto.
Qed.

(** Some blocks in the middle are replaced by others of the same span; the header that follows learns the new size. *)
Lemma laid_replace m m' a p l1 mid mid' l2 :
  laid m a p (l1 ++ mid ++ l2) → span mid' = span mid → sizes mid →
  laid m' (a + span l1) (last_n p l1) mid' →
  (∀ x, x < a + span l1 ∨ a + span l1 + span mid < x → m' !! x = m !! x) →
  (l2 ≠ [] → m' !! (a + span l1 + span mid) = Some (hw (last_n (last_n p l1) mid') 0 2)) →
  laid m' a p (l1 ++ mid' ++ l2).
Proof.
  rewrite !laid_app. intros (H1 & H2 & H3) Hsp Hs Hmid Hf Hprev. pose proof (span_pos mid Hs).
  split; [|split; [done|]].
  - eapply laid_frame; [done|]. intros x Hx. apply head_word_range in Hx; [|by eapply laid_sizes]. apply Hf. lia.
  - rewrite Hsp. destruct l2 as [|b l2]; [done|]. simpl in *. destruct H3 as ([Ha Hb] & Hn & Hl). split_and!; [|done|].
    + split; [by apply Hprev|]. rewrite Hf by lia. done.
    + eapply laid_frame; [done|]. intros x Hx. apply head_word_range in Hx; [|by eapply laid_sizes]. apply Hf. lia.
Qed.

(** ** Accesses *)

Section access.
Context {W : Type}.
Implicit Types s : @umem W.

Lemma wpx_load s a w Φ Ψ : um_words s !! a = Some w → Φ w s → wpx (load a) s Φ Ψ.
Proof using. intros Ha HΦ. unfold wpx, load. by rewrite Ha. Qed.
Lemma wpx_store s a w Φ Ψ : is_Some (um_words s !! a) → Φ tt (set_words (<[a := w]> (um_words s)) s) → wpx (store a w) s Φ Ψ.
Proof using. intros [v Ha] HΦ. unfold wpx, store. by rewrite Ha. Qed.

(** A field is read or written; [f] is what happens to the word. *)
Lemma wpx_get s a lo n w Φ Ψ : um_words s !! a = Some w → Φ (bits lo n w) s → wpx (get_bits a lo n) s Φ Ψ.
Proof using. intros Ha HΦ. unfold get_bits. rewrite wpx_bind. by eapply wpx_load. Qed.
Lemma wpx_put s a lo n v w Φ Ψ :
  um_words s !! a = Some w → Φ tt (set_words (<[a := set_bits lo n v w]> (um_words s)) s) → wpx (put_bits a lo n v) s Φ Ψ.
Proof using. intros Ha HΦ. unfold put_bits. rewrite wpx_bind. eapply wpx_load; [done|]. by apply wpx_store. Qed.

(** The header of a block, where the numbers fit their fields. *)
Definition at_hdr s a p b : Prop :=
  hdr (um_words s) a p b ∧ 0 ≤ p < 2 ^ 29 ∧ 1 ≤ b_n b < 2 ^ 29 ∧ 0 ≤ a ∧ a + 8 * b_n b ≤ 2 ^ 31.

Section header.
Context s a p b (H : at_hdr s a p b).

Lemma ub_range : 0 ≤ ub (b_used b) < 2.
Proof using. by destruct (b_used b). Qed.

Lemma wpx_prevblock Φ Ψ : Φ p s → wpx (mh_prevblock a) s Φ Ψ.
Proof using H. destruct H as [[H1 H2] Hr]. intros HΦ. eapply wpx_get; [done|]. by rewrite hw_number by lia. Qed.
Lemma wpx_nextblock Φ Ψ : Φ (b_n b) s → wpx (mh_nextblock a) s Φ Ψ.
Proof using H.
  pose proof ub_range. destruct H as [[H1 H2] Hr]. intros HΦ. eapply wpx_get; [done|]. by rewrite hw_number by lia.
Qed.
Lemma wpx_inuse Φ Ψ : Φ (ub (b_used b)) s → wpx (mh_inuse a) s Φ Ψ.
Proof using H.
  pose proof ub_range. destruct H as [[H1 H2] Hr]. intros HΦ. eapply wpx_get; [done|]. by rewrite hw_flag by lia.
Qed.
Lemma wpx_M_OK Φ Ψ : Φ true s → wpx (M_OK a) s Φ Ψ.
Proof using H.
  pose proof ub_range. destruct H as [[H1 H2] Hr]. intros HΦ. unfold M_OK, mh_magic1, mh_magic2. rewrite wpx_bind.
  eapply wpx_get; [done|]. rewrite hw_magic by lia. simpl. rewrite wpx_bind. eapply wpx_get; [done|]. by rewrite hw_magic by lia.
Qed.
Lemma wpx_nextoff Φ Ψ : Φ (8 * b_n b) s → wpx (M_NEXTOFF a) s Φ Ψ.
Proof using H.
  intros HΦ. unfold M_NEXTOFF. rewrite wpx_bind. apply wpx_nextblock. rewrite wpx_ret. destruct H as [_ Hr].
  rewrite Z.shiftl_mul_pow2 by done. change (2 ^ MBLOCKSHIFT) with 8. rewrite u32_id by in_range. by rewrite Z.mul_comm.
Qed.
Lemma wpx_M_NEXT Φ Ψ : Φ (a + 8 * b_n b) s → wpx (M_NEXT a) s Φ Ψ.
Proof using H.
  intros HΦ. unfold M_NEXT. rewrite wpx_bind. apply wpx_nextoff. rewrite wpx_ret. destruct H as [_ Hr].
  by rewrite u32_id by in_range.
Qed.
Lemma wpx_M_PREV Φ Ψ : 8 * p ≤ a → Φ (a - 8 * p) s → wpx (M_PREV a) s Φ Ψ.
Proof using H.
  intros Hp HΦ. unfold M_PREV, M_PREVOFF. rewrite !wpx_bind. apply wpx_prevblock. rewrite !wpx_ret. destruct H as [_ Hr].
  rewrite Z.shiftl_mul_pow2 by done. change (2 ^ MBLOCKSHIFT) with 8. rewrite (u32_id (p * 8)), u32_id by in_range.
  by rewrite (Z.mul_comm p).
Qed.
Lemma wpx_M_SIZE Φ Ψ : Φ (8 * b_n b - 8) s → wpx (M_SIZE a) s Φ Ψ.
Proof using H.
  intros HΦ. unfold M_SIZE, MBLOCKSIZE. rewrite wpx_bind. apply wpx_nextoff. rewrite wpx_ret. destruct H as [_ Hr].
  by rewrite u32_id by in_range.
Qed.
Lemma wpx_set_nextblock v Φ Ψ : 0 ≤ v < 2 ^ 29 →
  Φ tt (set_words (<[a + 4 := hw v (ub (b_used b)) 2]> (um_words s)) s) → wpx (set_nextblock a v) s Φ Ψ.
Proof using H.
  pose proof ub_range. destruct H as [[H1 H2] Hr]. intros Hv HΦ. eapply wpx_put; [done|]. by rewrite hw_set_number by lia.
Qed.
Lemma wpx_set_prevblock v Φ Ψ : 0 ≤ v < 2 ^ 29 →
  Φ tt (set_words (<[a := hw v 0 2]> (um_words s)) s) → wpx (set_prevblock a v) s Φ Ψ.
Proof using H. destruct H as [[H1 H2] Hr]. intros Hv HΦ. eapply wpx_put; [done|]. by rewrite hw_set_number by lia. Qed.
Lemma wpx_set_inuse v Φ Ψ :
  Φ tt (set_words (<[a + 4 := hw (b_n b) (ub v) 2]> (um_words s)) s) → wpx (set_inuse a (ub v)) s Φ Ψ.
Proof using H.
  pose proof ub_range. destruct H as [[H1 H2] Hr]. intros HΦ. eapply wpx_put; [done|]. rewrite hw_set_flag; [done|lia..|].
  by destruct v.
Qed.
End header.

Lemma wpx_exit_if (c : bool) s Φ Ψ : c = false → Φ tt s → wpx (exit_if c) s Φ Ψ.
Proof using. by intros ->. Qed.
Lemma wpx_guser {A} (f : umem → A) s Φ Ψ : Φ (f s) s → wpx (guser f) s Φ Ψ.
Proof using. done. Qed.
Lemma wpx_muser (f : umem → umem) s Φ Ψ : Φ tt (f s) → wpx (muser f) s Φ Ψ.
Proof using. done. Qed.

Lemma wpx_bind_assoc {A B D} (m : prog umem A) (f : A → prog umem B) (g : B → prog umem D) s Φ Ψ :
  wpx ((m ≫= f) ≫= g) s Φ Ψ ↔ wpx (m ≫= λ y, f y ≫= g) s Φ Ψ.
Proof using. rewrite !wpx_bind. unfold wpx. destruct (m s) as [[[c|y] t]|]; [done| |done]. unfold mbind, prog_bind. by destruct (f y t) as [[[c|z] t']|]. Qed.

(** A new header over whatever is there. *)
Definition new_hdr a p n u m : words := <[a + 4 := hw n u 2]> (<[a := hw p 0 2]> m).

Section new.
Context s a w1 w2 (H1 : um_words s !! a = Some w1) (H2 : um_words s !! (a + 4) = Some w2) (Hw1 : is_u32 w1) (Hw2 : is_u32 w2).

(** A tactic that writes a field of a word that is known as a header word. *)
Ltac put_field :=
  rewrite wpx_bind; eapply wpx_put; [cbn [um_words set_words]; simplify_map_eq; reflexivity|];
  rewrite ?hw_set_number, ?hw_set_flag, ?hw_set_magic by lia.

Lemma wpx_split_header {A} p n (k : prog umem A) Φ Ψ : 0 ≤ p < 2 ^ 29 → 0 ≤ n < 2 ^ 29 →
  wpx k (set_words (new_hdr a p n 0 (um_words s)) s) Φ Ψ →
  wpx (_ ← set_prevblock a p; _ ← set_pad a 0; _ ← set_magic1 a MMAGIC; _ ← set_nextblock a n; _ ← set_inuse a 0;
       _ ← set_magic2 a MMAGIC; k) s Φ Ψ.
Proof using All.
  intros Hp Hn Hk. destruct (hw_any w1 Hw1) as (p1 & u1 & m1 & -> & ? & ? & ?).
  destruct (hw_any w2 Hw2) as (p2 & u2 & m2 & -> & ? & ? & ?). unfold MMAGIC.
  assert (a ≠ a + 4) by lia. do 6 put_field.
  unfold set_words in *. simpl in *. rewrite !insert_insert_eq, ?(insert_insert_ne _ a (a + 4)) by lia.
  exact Hk.
Qed.

Lemma wpx_grow_header {A} p n (k : prog umem A) Φ Ψ : 0 ≤ p < 2 ^ 29 → 0 ≤ n < 2 ^ 29 →
  wpx k (set_words (new_hdr a p n 1 (um_words s)) s) Φ Ψ →
  wpx (_ ← set_prevblock a p; _ ← set_magic1 a MMAGIC; _ ← set_magic2 a MMAGIC; _ ← set_pad a 0; _ ← set_inuse a 1;
       _ ← set_nextblock a n; k) s Φ Ψ.
Proof using All.
  intros Hp Hn Hk. destruct (hw_any w1 Hw1) as (p1 & u1 & m1 & -> & ? & ? & ?).
  destruct (hw_any w2 Hw2) as (p2 & u2 & m2 & -> & ? & ? & ?). unfold MMAGIC.
  assert (a ≠ a + 4) by lia. do 6 put_field.
  eapply (eq_rect _ (λ m, wpx k (set_words m s) Φ Ψ)); [exact Hk|].
  apply map_eq. intros x. unfold new_hdr. simpl. destruct (decide (x = a)) as [->|]; [by simplify_map_eq|].
  destruct (decide (x = a + 4)) as [->|]; by simplify_map_eq.
Qed.
End new.
End access.

(** ** The heap *)

(** Blocks where no two neighbours are free; [pf] says that a free block comes before. *)
Fixpoint coalesced (pf : bool) bs : Prop :=
  match bs with [] => True | b :: bs => (pf = true → b_used b = true) ∧ coalesced (negb (b_used b)) bs end.
Fixpoint last_free (pf : bool) bs : bool := match bs with [] => pf | b :: bs => last_free (negb (b_used b)) bs end.

Lemma coalesced_app pf l1 l2 : coalesced pf (l1 ++ l2) ↔ coalesced pf l1 ∧ coalesced (last_free pf l1) l2.
Proof. revert pf. induction l1 as [|b l1 IH]; intros pf; simpl; [tauto|]. rewrite IH. tauto. Qed.
Lemma coalesced_weaken pf bs : coalesced true bs → coalesced pf bs.
Proof. destruct bs as [|b bs]; [done|]. simpl. intros [H1 H2]. split; auto. Qed.

Lemma last_n_range p bs : sizes bs → 0 ≤ p → 0 ≤ last_n p bs ∧ (bs ≠ [] → 8 * last_n p bs ≤ span bs).
Proof.
  intros Hs. revert p. induction Hs as [|b bs Hb Hs IH]; intros p Hp; simpl; [done|].
  destruct (IH (b_n b) ltac:(lia)) as [H1 H2]. split; [done|]. intros _. destruct bs as [|b' bs]; [simpl; lia|].
  specialize (H2 ltac:(done)). lia.
Qed.

(** The words between two addresses can be accessed, and all words have 32 bits. *)
Definition mem_ok (lo hi : Z) m : Prop :=
  (∀ x, lo ≤ x < hi → x mod 4 = 0 → is_Some (m !! x)) ∧ map_Forall (λ _ v, is_u32 v) m.

Lemma mem_ok_insert lo hi m x v : mem_ok lo hi m → is_u32 v → mem_ok lo hi (<[x := v]> m).
Proof.
  intros [H1 H2] Hv. split.
  - intros y Hy Hm. destruct (decide (x = y)) as [->|]; simplify_map_eq; [done|]. by apply H1.
  - by apply map_Forall_insert_2.
Qed.

Lemma mem_ok_get lo hi m x : mem_ok lo hi m → lo ≤ x < hi → x mod 4 = 0 → ∃ v, m !! x = Some v ∧ is_u32 v.
Proof. intros [H1 H2] Hx Hm. destruct (H1 x Hx Hm) as [v Hv]. exists v. split; [done|]. by apply (H2 x). Qed.

(** What the system call promises: nothing else moves the break, and new memory can be accessed. *)
Definition grown m m' a n : Prop :=
  (∀ x, a ≤ x < a + n → x mod 4 = 0 → is_Some (m' !! x)) ∧
  (∀ x v, a ≤ x < a + n → m' !! x = Some v → is_u32 v) ∧
  (∀ x, ¬ (a ≤ x < a + n) → m' !! x = m !! x).

Class Sbrk {W} (sbrk : Z → W → words → res (Z * W * words)) (brk : W → Z) := {
  sbrk_zero w m : sbrk 0 w m = Ok (brk w, w, m);
  sbrk_grow n w m : 0 < n → ∃ r w' m', sbrk n w m = Ok (r, w', m') ∧
    (r = SBRK_FAILED ∧ brk w' = brk w ∧ m' = m ∨
     r = brk w ∧ brk w' = brk w + n ∧ brk w + n ≤ 2 ^ 31 ∧ grown m m' (brk w) n);
}.

Section heap.
Context {W : Type} (brk : W → Z).
Implicit Types s t : @umem W.

Record heap s bs : Prop := Heap {
  hp_base : 0 < heapbase s;
  hp_align : heapbase s mod 8 = 0;
  hp_top : heaptop s = heapbase s + span bs;
  hp_max : heaptop s ≤ 2 ^ 31;
  hp_laid : laid (um_words s) (heapbase s) 0 bs;
  hp_mem : mem_ok (heapbase s) (heaptop s) (um_words s);
  hp_brk : brk (um_world s) = heaptop s;
}.

Lemma heap_at s l1 b l2 : heap s (l1 ++ b :: l2) → at_hdr s (heapbase s + span l1) (last_n 0 l1) b.
Proof using.
  intros [Hb Ha Ht Hm Hl Hok _]. apply laid_app in Hl as [Hl1 (Hh & Hn & Hl2)].
  pose proof (last_n_range 0 l1 (laid_sizes _ _ _ _ Hl1) ltac:(lia)) as [Hp Hp'].
  pose proof (span_pos l1 (laid_sizes _ _ _ _ Hl1)). pose proof (span_pos l2 (laid_sizes _ _ _ _ Hl2)).
  rewrite span_app in Ht. simpl in Ht. split; [done|]. split; [|lia].
  destruct l1; [simpl in *; lia|]. specialize (Hp' ltac:(done)). lia.
Qed.

Lemma heap_replace s m' l1 mid mid' l2 :
  heap s (l1 ++ mid ++ l2) → span mid' = span mid →
  laid m' (heapbase s + span l1) (last_n 0 l1) mid' →
  (∀ x, x < heapbase s + span l1 ∨ heapbase s + span l1 + span mid < x → m' !! x = um_words s !! x) →
  (l2 ≠ [] → m' !! (heapbase s + span l1 + span mid) = Some (hw (last_n (last_n 0 l1) mid') 0 2)) →
  mem_ok (heapbase s) (heaptop s) m' → heap (set_words m' s) (l1 ++ mid' ++ l2).
Proof using.
  intros [Hb Ha Ht Hm Hl Hok Hk] Hsp Hmid Hf Hprev Hok'. constructor; simpl; try done.
  - rewrite Ht, !span_app, Hsp. done.
  - eapply laid_replace; try done. apply laid_app in Hl as [_ Hl]. apply laid_app in Hl as [Hl _]. by eapply laid_sizes.
Qed.

(** Data of the blocks around the middle is not at the addresses that change. *)
Lemma data_around s l1 mid l2 x : heap s (l1 ++ mid ++ l2) → data (heapbase s) (l1 ++ mid ++ l2) x →
  (x < heapbase s + span l1 ∨ heapbase s + span l1 + span mid < x) ∨ data (heapbase s + span l1) mid x.
Proof using.
  intros [Hb Ha Ht Hm Hl Hok Hk] Hx. rewrite !data_app in Hx. rewrite !laid_app in Hl. destruct Hl as (L1 & L2 & L3).
  destruct Hx as [Hx|[Hx|Hx]]; [|by right|].
  - apply data_range in Hx; [|by eapply laid_sizes]. left. lia.
  - apply data_range in Hx; [|by eapply laid_sizes]. left. lia.
Qed.

(** The header after a block, if there is one. *)
Lemma heap_next s l1 b l2 : heap s (l1 ++ b :: l2) →
  (heapbase s + span l1 + 8 * b_n b = heaptop s ↔ l2 = []).
Proof using.
  intros [Hb Ha Ht Hm Hl Hok Hk]. rewrite laid_app in Hl. destruct Hl as (L1 & _ & _ & L2).
  pose proof (span_pos l2 (laid_sizes _ _ _ _ L2)). rewrite Ht, span_app. simpl.
  destruct l2 as [|b2 l2]; simpl in *; split; intros; simplify_eq; try done; lia.
Qed.

Lemma heap_prev s l1 b l2 : heap s (l1 ++ b :: l2) → l2 ≠ [] →
  um_words s !! (heapbase s + span l1 + 8 * b_n b) = Some (hw (b_n b) 0 2).
Proof using.
  intros [Hb Ha Ht Hm Hl Hok Hk] Hne. rewrite laid_app in Hl. destruct Hl as (L1 & _ & _ & L2).
  destruct l2 as [|b2 l2]; [done|]. by destruct L2 as [[? _] _].
Qed.

Lemma at_hdr_frame s m' a p b : at_hdr s a p b → m' !! a = um_words s !! a → m' !! (a + 4) = um_words s !! (a + 4) →
  at_hdr (set_words m' s) a p b.
Proof using. intros ([H1 H2] & Hr) E1 E2. split; [|done]. split; simpl; congruence. Qed.

Lemma coalesced_take l1 n l2 : coalesced false (l1 ++ Block n false :: l2) → coalesced false l1 ∧ coalesced true l2.
Proof using. rewrite coalesced_app. simpl. tauto. Qed.

(** ** Splitting *)

Definition split_block k b : list block :=
  if b_n b - 1 - k <? 2 then [Block (b_n b) true] else [Block (k + 1) true; Block (b_n b - 1 - k) false].

Lemma split_block_span k b : span (split_block k b) = 8 * b_n b.
Proof using. unfold split_block. destruct (_ <? _); simpl; lia. Qed.

Lemma split_coalesced l1 n l2 k : coalesced false (l1 ++ Block n false :: l2) →
  coalesced false (l1 ++ split_block k (Block n false) ++ l2).
Proof using.
  intros [H1 H2]%coalesced_take. rewrite coalesced_app. split; [done|]. unfold split_block.
  destruct (_ <? _); simpl; split_and!; try done. by apply coalesced_weaken.
Qed.

(** The memory after the block was split. *)
Lemma split_writes s l1 n l2 k Φ Ψ : heap s (l1 ++ Block n false :: l2) → 0 ≤ k → 2 ≤ n - 1 - k →
  let a := heapbase s + span l1 in let a' := a + 8 * (k + 1) in
  let m1 := new_hdr a' (k + 1) (n - 1 - k) 0 (<[a + 4 := hw (k + 1) 0 2]> (um_words s)) in
  Φ tt (set_words (if decide (l2 = []) then m1 else <[a + 8 * n := hw (n - 1 - k) 0 2]> m1) s) →
  wpx (__malloc_split a (8 * k)) s Φ Ψ.
Proof using.
  intros Hh Hk Hr a a' m1 HΦ. pose proof (heap_at _ _ _ _ Hh) as Hat. fold a in Hat. pose proof Hat as (Hhdr & Hp & Hn & Ha & Hmax).
  simpl in Hn, Hmax. unfold __malloc_split. rewrite wpx_bind. apply wpx_exit_if.
  { change MBLOCKSIZE with 8. rewrite Z.mul_comm, Z.mod_mul; done. }
  rewrite wpx_bind. eapply wpx_M_SIZE; [done|]. simpl b_n. change (2 * MBLOCKSIZE) with 16. change MBLOCKSIZE with 8.
  rewrite (u32_id (8 * n - 8 - 8 * k)) by in_range. replace (_ <? 16) with false by lia.
  rewrite wpx_bind. eapply wpx_M_NEXT; [done|]. simpl b_n. rewrite wpx_bind. eapply wpx_M_SIZE; [done|]. simpl b_n.
  unfold M_MKFIELD. rewrite !Z.shiftr_div_pow2 by done. change (2 ^ MBLOCKSHIFT) with 8.
  rewrite (u32_id (8 * k + 8)), (u32_id (8 * n - 8 - 8 * k)) by in_range.
  replace ((8 * k + 8) / 8) with (k + 1) by (Z.to_euclidean_division_equations; lia).
  replace ((8 * n - 8 - 8 * k) / 8) with (n - 1 - k) by (Z.to_euclidean_division_equations; lia).
  rewrite wpx_bind. eapply wpx_set_nextblock; [done|lia|]. simpl ub.
  assert (at_hdr (set_words (<[a + 4 := hw (k + 1) 0 2]> (um_words s)) s) a (last_n 0 l1) (Block (k + 1) false)) as Hat1.
  { split; [|simpl; lia]. destruct Hhdr as [Hh1 _]. split; simpl; [by rewrite lookup_insert_ne by lia|by rewrite lookup_insert_eq]. }
  rewrite wpx_bind. eapply wpx_M_NEXT; [done|]. simpl b_n. fold a'. rewrite wpx_bind. apply wpx_exit_if; [lia|].
  assert (a mod 8 = 0 ∧ a + 8 * n ≤ heaptop s) as [Hal Htop].
  { destruct Hh as [Hb Hbal Ht _ Hl _ _]. rewrite laid_app in Hl. destruct Hl as (L1 & _ & _ & L2).
    pose proof (span_pos l2 (laid_sizes _ _ _ _ L2)). rewrite Ht, span_app. simpl. split; [|unfold a; lia].
    unfold a. destruct (span_mult l1) as [j ->]. rewrite (Z.mul_comm 8), Z.mod_add; lia. }
  assert (heapbase s ≤ a) as Hlow by (unfold a; destruct Hh as [? ? ? ? Hl]; rewrite laid_app in Hl; destruct Hl as [L1 _];
    pose proof (span_pos l1 (laid_sizes _ _ _ _ L1)); lia).
  assert (∀ x, a + 4 < x < a + 8 * n → x mod 4 = 0 → ∃ w, <[a + 4 := hw (k + 1) 0 2]> (um_words s) !! x = Some w ∧ is_u32 w) as Hget.
  { intros x Hx Hm. rewrite lookup_insert_ne by lia. eapply mem_ok_get; [apply Hh|lia|done]. }
  destruct (Hget a') as (w1 & E1 & Hw1); [unfold a'; lia|unfold a'; Z.to_euclidean_division_equations; lia|].
  destruct (Hget (a' + 4)) as (w2 & E2 & Hw2); [unfold a'; lia|unfold a'; Z.to_euclidean_division_equations; lia|].
  eapply wpx_split_header; [exact E1|exact E2|done|done|lia|lia|]. rewrite wpx_bind. apply wpx_guser.
  simpl heaptop. fold m1. pose proof (heap_next _ _ _ _ Hh) as Hnx. simpl b_n in Hnx. fold a in Hnx.
  destruct (decide (l2 = [])) as [->|Hne].
  - rewrite (proj2 Hnx), Z.eqb_refl by done. cbn [negb]. by rewrite wpx_ret.
  - rewrite (proj2 (Z.eqb_neq _ _)) by tauto. cbn [negb]. rewrite wpx_bind.
    eapply (wpx_nextblock _ a' (k + 1) (Block (n - 1 - k) false)).
    { split; [|simpl; unfold a'; lia]. unfold m1, new_hdr. split; simpl; [|by rewrite lookup_insert_eq].
      rewrite lookup_insert_ne by lia. by rewrite lookup_insert_eq. }
    simpl b_n. destruct l2 as [|b2 l2]; [done|].
    pose proof (heap_at s (l1 ++ [Block n false]) b2 l2) as Hat2. rewrite <- app_assoc in Hat2. specialize (Hat2 Hh).
    rewrite span_app, last_n_app in Hat2. simpl in Hat2. replace (heapbase s + (span l1 + (8 * n + 0))) with (a + 8 * n) in Hat2 by (unfold a; lia).
    eapply wpx_set_prevblock; [|lia|exact HΦ]. apply (at_hdr_frame s m1); [done|..]; unfold m1, new_hdr, a'; by rewrite !lookup_insert_ne by lia.
Qed.

(** The block is split and then taken. *)
Lemma split_spec s l1 n l2 k Φ Ψ : heap s (l1 ++ Block n false :: l2) → 0 ≤ k ≤ n - 1 →
  (∀ m', heap (set_words m' s) (l1 ++ split_block k (Block n false) ++ l2) →
     (∀ x, data (heapbase s) (l1 ++ Block n false :: l2) x → m' !! x = um_words s !! x) →
     Φ tt (set_words m' s)) →
  wpx (_ ← __malloc_split (heapbase s + span l1) (8 * k); set_inuse (heapbase s + span l1) 1) s Φ Ψ.
Proof using.
  intros Hh Hk HΦ. pose proof (heap_at _ _ _ _ Hh) as Hat. set (a := heapbase s + span l1) in *.
  pose proof Hat as ([Hh1 Hh2] & Hp & Hn & Ha & Hmax). simpl in Hn, Hmax, Hh2. rewrite wpx_bind.
  assert (∀ x, data (heapbase s) (l1 ++ Block n false :: l2) x → x < a ∨ a + 8 * n < x) as Hdata.
  { intros x Hx. destruct (data_around s l1 [Block n false] l2 x Hh Hx) as [Hr|[[? _]|[]]]; [|done]. simpl in Hr. fold a in Hr. lia. }
  destruct (Z.ltb_spec (n - 1 - k) 2) as [Hlt|Hge].
  - unfold __malloc_split. rewrite wpx_bind. apply wpx_exit_if.
    { change MBLOCKSIZE with 8. rewrite Z.mul_comm, Z.mod_mul; done. }
    rewrite wpx_bind. eapply wpx_M_SIZE; [done|]. simpl b_n. change (2 * MBLOCKSIZE) with 16. rewrite u32_id by in_range.
    replace (_ <? 16) with true by lia. rewrite wpx_ret. eapply (wpx_set_inuse s a _ _ Hat true). apply HΦ.
    + unfold split_block. simpl b_n.
      rewrite (proj2 (Z.ltb_lt _ _) Hlt). eapply (heap_replace s _ l1 [Block n false]); simpl; [done|done|..]; fold a.
      * split; [|split; [lia|done]]. split; simpl; [by rewrite lookup_insert_ne by lia|by rewrite lookup_insert_eq].
      * intros x Hx. apply lookup_insert_ne. lia.
      * intros Hne. rewrite lookup_insert_ne by lia. rewrite Z.add_0_r. by apply (heap_prev s l1 (Block n false) l2).
      * apply mem_ok_insert; [apply Hh|]. apply hw_u32; simpl; lia.
    + intros x Hx. apply Hdata in Hx. apply lookup_insert_ne. lia.
  - apply (split_writes s l1 n l2 k); [done|lia|lia|]. fold a. set (a' := a + 8 * (k + 1)). set (m2 := if decide _ then _ else _).
    assert (m2 !! a = um_words s !! a ∧ m2 !! (a + 4) = Some (hw (k + 1) 0 2) ∧ m2 !! a' = Some (hw (k + 1) 0 2) ∧
      m2 !! (a' + 4) = Some (hw (n - 1 - k) 0 2) ∧ (l2 ≠ [] → m2 !! (a + 8 * n) = Some (hw (n - 1 - k) 0 2)) ∧
      ∀ x, x < a ∨ a + 8 * n < x → m2 !! x = um_words s !! x) as (M1 & M2 & M3 & M4 & M5 & M6).
    { unfold m2, new_hdr, a'. destruct (decide _); split_and!; intros; try done;
        repeat first [by rewrite lookup_insert_eq|rewrite lookup_insert_ne by lia|done]. }
    assert (mem_ok (heapbase s) (heaptop s) m2) as Hok.
    { unfold m2, new_hdr. destruct (decide _); repeat apply mem_ok_insert; try apply Hh; apply hw_u32; lia. }
    clearbody m2. eapply (wpx_set_inuse _ a (last_n 0 l1) (Block (k + 1) false) _ true).
    { apply HΦ. 
      - unfold split_block. simpl b_n.
        rewrite (proj2 (Z.ltb_ge _ _) Hge). eapply (heap_replace s _ l1 [Block n false]); simpl; [done|lia|..]; fold a.
        + split_and!; try lia; try done; fold a'; (split; simpl; [rewrite lookup_insert_ne by lia; congruence|]).
          * by rewrite lookup_insert_eq.
          * by rewrite lookup_insert_ne by lia.
        + intros x Hx. rewrite lookup_insert_ne by lia. apply M6. lia.
        + intros Hne. rewrite lookup_insert_ne by lia. rewrite Z.add_0_r. by apply M5.
        + apply mem_ok_insert; [done|]. apply hw_u32; simpl; lia.
      - intros x Hx. apply Hdata in Hx. rewrite lookup_insert_ne by lia. apply M6. lia. }
    Unshelve. split; [|simpl; lia]. split; simpl; congruence.
Qed.

(** ** malloc *)

(** A block that a request for [k] units does not fit in. *)
Definition unfit k b : Prop := b_used b = true ∨ b_n b - 1 < k.

(** Where a request is placed: the first block that it fits in, or the end of the heap. *)
Inductive placed base k bs : Z → list block → Prop :=
  | placed_fit l1 n l2 : bs = l1 ++ Block n false :: l2 → k ≤ n - 1 → Forall (unfit k) l1 →
      placed base k bs (base + span l1 + 8) (l1 ++ split_block k (Block n false) ++ l2)
  | placed_top : Forall (unfit k) bs → placed base k bs (base + span bs + 8) (bs ++ [Block (k + 1) true]).

Lemma placed_coalesced base k bs p bs' : placed base k bs p bs' → coalesced false bs → coalesced false bs'.
Proof using.
  intros [l1 n l2 -> _ _|_] Hc; [by apply split_coalesced|]. apply coalesced_app. done.
Qed.

Lemma first_fit_spec s bs k Φ Ψ : heap s bs → 0 ≤ k →
  (Forall (unfit k) bs → Φ (inl (heaptop s, last_n 0 bs)) s) →
  (∀ l1 n l2 m', bs = l1 ++ Block n false :: l2 → k ≤ n - 1 → Forall (unfit k) l1 →
     heap (set_words m' s) (l1 ++ split_block k (Block n false) ++ l2) →
     (∀ x, data (heapbase s) bs x → m' !! x = um_words s !! x) → Φ (inr (heapbase s + span l1)) (set_words m' s)) →
  wpx (find_block (heapbase s) (heaptop s) (8 * k)) s Φ Ψ.
Proof using.
  intros Hh Hk Hend Hfit. unfold find_block.
  pose proof (laid_sizes _ _ _ _ (hp_laid _ _ Hh)) as Hs. pose proof (span_pos bs Hs). pose proof (hp_top _ _ Hh) as Htop.
  apply (wpx_while (λ n '(i, rp) t, t = s ∧ ∃ l1 l2, bs = l1 ++ l2 ∧ i = heapbase s + span l1 ∧ rp = last_n 0 l1 ∧
    Forall (unfit k) l1 ∧ n = length l2) _ _ (length bs)).
  - split; [done|]. exists [], bs. split_and!; try done. simpl. lia.
  - lia.
  - intros n [i rp] t (-> & l1 & l2 & -> & -> & -> & Hu & ->). rewrite span_app in Htop.
    apply Forall_app in Hs as [Hs1 Hs2]. pose proof (span_pos l1 Hs1). pose proof (span_pos l2 Hs2).
    destruct l2 as [|b l2].
    { simpl in *. replace (_ <? heaptop s) with false by lia. simpl. rewrite wpx_ret. rewrite app_nil_r in Hend.
      replace (heapbase s + span l1) with (heaptop s) by lia. by apply Hend. }
    replace (heapbase s + span l1 <? heaptop s) with true by (simpl in *; lia). cbn [negb].
    pose proof (heap_at _ _ _ _ Hh) as Hat. pose proof Hat as (_ & Hp & Hn & Ha & Hmax).
    rewrite wpx_bind. eapply wpx_M_OK; [done|]. rewrite wpx_bind. apply wpx_exit_if; [done|].
    rewrite wpx_bind. eapply wpx_prevblock; [done|]. rewrite wpx_bind. apply wpx_exit_if; [by rewrite Z.eqb_refl|].
    rewrite wpx_bind. eapply wpx_nextblock; [done|]. rewrite wpx_bind. eapply wpx_inuse; [done|].
    rewrite wpx_bind. eapply wpx_M_SIZE; [done|]. destruct b as [n u]. simpl b_n in *. simpl b_used in *.
    destruct (negb (ub u =? 0) || (8 * n - 8 <? 8 * k)) eqn:E.
    + rewrite wpx_bind. eapply wpx_nextoff; [done|]. rewrite wpx_ret. simpl b_n. exists (length l2). split; [simpl; lia|].
      split; [done|]. exists (l1 ++ [Block n u]), l2. rewrite <- app_assoc, span_app, last_n_app. simpl.
      split_and!; try done; [rewrite u32_id by in_range; lia|]. apply Forall_app. split; [done|]. constructor; [|constructor].
      unfold unfit. simpl. destruct u; [by left|]. right. simpl in E. lia.
    + destruct u; [done|]. simpl in E. rewrite <- wpx_bind_assoc.
      rewrite wpx_bind. apply (split_spec s l1 n l2 k); [done|lia|]. intros m' Hh' Hd. rewrite wpx_ret.
      by apply (Hfit l1 n l2 m'); [|lia|..].
Qed.

(** ** free *)

Lemma deadbeef_spec s a n lo hi Φ Ψ : mem_ok lo hi (um_words s) → 0 ≤ n → lo ≤ a → a + 4 * n ≤ hi → a mod 4 = 0 →
  (∀ m', mem_ok lo hi m' → (∀ x, x < a ∨ a + 4 * n ≤ x → m' !! x = um_words s !! x) → Φ tt (set_words m' s)) →
  wpx (__malloc_deadbeef a (4 * n)) s Φ Ψ.
Proof using.
  intros Hok Hn Hlo Hhi Ha HΦ. unfold __malloc_deadbeef. rewrite (Z.mul_comm 4 n), Z.div_mul by done. eapply wpx_mono.
  - apply (wpx_for (λ i t, ∃ m', t = set_words m' s ∧ mem_ok lo hi m' ∧ ∀ x, x < a ∨ a + 4 * i ≤ x → m' !! x = um_words s !! x)).
    + exists (um_words s). split; [by destruct s|]. done.
    + intros j t Hj (m' & -> & Hm & Hf). apply wpx_store.
      { simpl. apply Hm; [lia|]. Z.to_euclidean_division_equations; lia. }
      eexists. split; [done|]. simpl. split; [by apply mem_ok_insert|]. intros x Hx. rewrite lookup_insert_ne by lia. apply Hf. lia.
  - intros [] t (m' & -> & Hm & Hf). apply HΦ; [done|]. intros x Hx. apply Hf. lia.
  - done.
Qed.

Lemma heap_word s l1 l2 : heap s (l1 ++ l2) →
  (heapbase s + span l1) mod 8 = 0 ∧ heapbase s ≤ heapbase s + span l1 ∧ heapbase s + span l1 + span l2 = heaptop s.
Proof using.
  intros [Hb Ha Ht Hm Hl Hok Hk]. rewrite laid_app in Hl. destruct Hl as (L1 & L2). pose proof (span_pos l1 (laid_sizes _ _ _ _ L1)).
  rewrite Ht, span_app. split; [|lia]. destruct (span_mult l1) as [j ->]. rewrite (Z.mul_comm 8), Z.mod_add; lia.
Qed.

Lemma merge_field n1 n2 : 1 ≤ n1 → 1 ≤ n2 → 8 * n1 + 8 * n2 ≤ 2 ^ 31 →
  M_MKFIELD (u32 (u32 (u32 (MBLOCKSIZE + (8 * n1 - 8)) + MBLOCKSIZE) + (8 * n2 - 8))) = n1 + n2.
Proof using.
  intros. unfold MBLOCKSIZE, M_MKFIELD. rewrite (u32_id (8 + (8 * n1 - 8))) by in_range.
  rewrite (u32_id (8 + (8 * n1 - 8) + 8)), u32_id by in_range. rewrite Z.shiftr_div_pow2 by done.
  change (2 ^ MBLOCKSHIFT) with 8. Z.to_euclidean_division_equations. lia.
Qed.

(** The header after two blocks that are joined learns their size. *)
Definition merged_words a n1 n2 l2 m : words :=
  let m1 := <[a + 4 := hw (n1 + n2) 0 2]> m in
  if decide (l2 = []) then m1 else <[a + 8 * n1 + 8 * n2 := hw (n1 + n2) 0 2]> m1.

Lemma merge_next s l1 n1 n2 l2 Φ Ψ : heap s (l1 ++ Block n1 false :: Block n2 false :: l2) →
  let a := heapbase s + span l1 in
  Φ tt (set_words (merged_words a n1 n2 l2 (um_words s)) s) →
  wpx (if negb (a + 8 * n1 + 8 * n2 =? heaptop s) then n ← mh_nextblock a; set_prevblock (a + 8 * n1 + 8 * n2) n else mret tt)
    (set_words (<[a + 4 := hw (n1 + n2) 0 2]> (um_words s)) s) Φ Ψ.
Proof using.
  intros Hh a HΦ. unfold merged_words in HΦ. set (a3 := a + 8 * n1 + 8 * n2) in *. set (m1 := <[a + 4 := _]> _) in *.
  pose proof (heap_at _ _ _ _ Hh) as ([H11 _] & Hp1 & Hn1 & Ha1 & Hm1). fold a in H11, Ha1, Hm1. simpl in Hn1, Hm1.
  pose proof (heap_at s (l1 ++ [Block n1 false]) (Block n2 false) l2) as Hat2. rewrite <- app_assoc in Hat2. specialize (Hat2 Hh).
  destruct Hat2 as (_ & _ & Hn2 & _ & Hm2). rewrite span_app in Hm2. simpl in Hn2, Hm2.
  pose proof (heap_next s (l1 ++ [Block n1 false]) (Block n2 false) l2) as Hnx.
  rewrite <- app_assoc in Hnx. specialize (Hnx Hh). rewrite span_app in Hnx. simpl in Hnx.
  replace (heapbase s + (span l1 + (8 * n1 + 0)) + 8 * n2) with a3 in * by (unfold a3, a; lia).
  destruct (decide (l2 = [])) as [->|Hne].
  - by rewrite (proj2 Hnx), Z.eqb_refl by done.
  - rewrite (proj2 (Z.eqb_neq _ _)) by tauto. cbn [negb]. rewrite wpx_bind.
    eapply (wpx_nextblock _ a (last_n 0 l1) (Block (n1 + n2) false)).
    { split; [|simpl; unfold a3 in *; lia]. unfold m1. split; simpl; [by rewrite lookup_insert_ne by lia|by rewrite lookup_insert_eq]. }
    destruct l2 as [|b3 l2]; [done|]. pose proof (heap_at s (l1 ++ [Block n1 false; Block n2 false]) b3 l2) as Hat3.
    rewrite <- app_assoc in Hat3. specialize (Hat3 Hh). rewrite span_app, last_n_app in Hat3. simpl in Hat3.
    replace (heapbase s + (span l1 + (8 * n1 + (8 * n2 + 0)))) with a3 in Hat3 by (unfold a3, a; lia).
    eapply wpx_set_prevblock; [|simpl; unfold a3 in *; lia|exact HΦ].
    apply (at_hdr_frame s m1); [done|..]; unfold m1, a3; by rewrite lookup_insert_ne by lia.
Qed.

(** The blocks after the join, whatever is in the place of the second header. *)
Lemma merge_heap s l1 n1 n2 l2 m' : heap s (l1 ++ Block n1 false :: Block n2 false :: l2) →
  let a := heapbase s + span l1 in
  mem_ok (heapbase s) (heaptop s) m' →
  (∀ x, x < a + 8 * n1 ∨ a + 8 * n1 + 8 ≤ x → m' !! x = merged_words a n1 n2 l2 (um_words s) !! x) →
  heap (set_words m' s) (l1 ++ Block (n1 + n2) false :: l2) ∧
  ∀ x, data (heapbase s) (l1 ++ Block n1 false :: Block n2 false :: l2) x → m' !! x = um_words s !! x.
Proof using.
  intros Hh a Hok Hf. pose proof (heap_at _ _ _ _ Hh) as ([H11 _] & _ & Hn1 & _). fold a in H11. simpl in Hn1.
  pose proof (heap_at s (l1 ++ [Block n1 false]) (Block n2 false) l2) as Hat2. rewrite <- app_assoc in Hat2.
  destruct (Hat2 Hh) as (_ & _ & Hn2 & _). simpl in Hn2.
  assert (∀ x, x < a ∨ a + 8 * n1 + 8 * n2 < x → m' !! x = um_words s !! x) as Hout.
  { intros x Hx. rewrite Hf by lia. unfold merged_words. destruct (decide _); by rewrite !lookup_insert_ne by lia. }
  split.
  - apply (heap_replace s m' l1 [Block n1 false; Block n2 false] [Block (n1 + n2) false]); simpl; fold a; [done|lia|..|done].
    + split; [|split; [lia|done]]. assert (∀ x, x = a ∨ x = a + 4 → m' !! x = <[a + 4 := hw (n1 + n2) 0 2]> (um_words s) !! x) as E.
      { intros x Hx. rewrite Hf by lia. unfold merged_words. destruct (decide _); [done|]. apply lookup_insert_ne. lia. }
      split; simpl; rewrite E by auto; [by rewrite lookup_insert_ne by lia|by rewrite lookup_insert_eq].
    + intros x Hx. apply Hout. lia.
    + intros Hne. replace (a + (8 * n1 + (8 * n2 + 0))) with (a + 8 * n1 + 8 * n2) by lia. rewrite Hf by lia.
      unfold merged_words. rewrite decide_False by done. by rewrite lookup_insert_eq.
  - intros x Hx. apply Hout. destruct (data_around s l1 [Block n1 false; Block n2 false] l2 x Hh Hx) as [Hr|Hd].
    + simpl in Hr. fold a in Hr. lia.
    + simpl in Hd. by destruct Hd as [[? _]|[[? _]|[]]].
Qed.

Lemma trymerge_spec s l1 b1 b2 l2 Φ Ψ : heap s (l1 ++ b1 :: b2 :: l2) →
  (b_used b1 = true ∨ b_used b2 = true → Φ tt s) →
  (∀ m', b_used b1 = false → b_used b2 = false → heap (set_words m' s) (l1 ++ Block (b_n b1 + b_n b2) false :: l2) →
     (∀ x, data (heapbase s) (l1 ++ b1 :: b2 :: l2) x → m' !! x = um_words s !! x) → Φ tt (set_words m' s)) →
  wpx (__malloc_trymerge (heapbase s + span l1) (heapbase s + span l1 + 8 * b_n b1)) s Φ Ψ.
Proof using.
  intros Hh Hno Hyes. pose proof (heap_at _ _ _ _ Hh) as Hat1. set (a := heapbase s + span l1) in *.
  pose proof (heap_at s (l1 ++ [b1]) b2 l2) as Hat2. rewrite <- app_assoc in Hat2. specialize (Hat2 Hh).
  rewrite span_app, last_n_app in Hat2. simpl in Hat2.
  replace (heapbase s + (span l1 + (8 * b_n b1 + 0))) with (a + 8 * b_n b1) in Hat2 by (unfold a; lia).
  unfold __malloc_trymerge. rewrite wpx_bind. eapply wpx_nextblock; [done|]. rewrite wpx_bind. eapply wpx_prevblock; [done|].
  rewrite wpx_bind. apply wpx_exit_if; [by rewrite Z.eqb_refl|].
  rewrite wpx_bind. eapply wpx_inuse; [done|]. rewrite wpx_bind. eapply wpx_inuse; [done|].
  destruct b1 as [n1 u1], b2 as [n2 u2]. simpl b_used in *. simpl b_n in *.
  destruct u1; [simpl; rewrite wpx_ret; by apply Hno; left|]. destruct u2; [simpl; rewrite wpx_ret; by apply Hno; right|].
  cbn [ub negb orb Z.eqb]. destruct (heap_word s l1 _ Hh) as (Hal & Hlow & Htop). fold a in Hal, Hlow, Htop. simpl in Htop.
  pose proof Hat1 as (_ & _ & Hn1 & Ha1 & Hm1). pose proof Hat2 as (_ & _ & Hn2 & _ & Hm2). simpl in Hn1, Hn2, Hm1, Hm2.
  rewrite wpx_bind. eapply wpx_M_NEXT; [done|]. rewrite wpx_bind. eapply wpx_M_SIZE; [done|]. rewrite wpx_bind. eapply wpx_M_SIZE; [done|].
  simpl b_n. rewrite merge_field by lia. rewrite wpx_bind. eapply wpx_set_nextblock; [done|lia|]. cbn [ub b_used].
  rewrite wpx_bind. apply wpx_guser. simpl heaptop. rewrite wpx_bind. apply (merge_next s l1 n1 n2 l2 _ _ Hh).
  fold a. change SIZEOF_MHEADER with (4 * 2).
  apply (deadbeef_spec _ _ _ (heapbase s) (heaptop s)); [|lia|lia| |Z.to_euclidean_division_equations; lia|].
  { simpl. unfold merged_words. destruct (decide _); repeat apply mem_ok_insert; try apply Hh; apply hw_u32; lia. }
  { assert (0 ≤ span l2); [|lia]. pose proof (hp_laid _ _ Hh) as L. rewrite laid_app in L. destruct L as (_ & _ & _ & _ & _ & L2).
    pose proof (span_pos l2 (laid_sizes _ _ _ _ L2)). lia. }
  simpl um_words. intros m3 Hok3 Hf3. destruct (merge_heap s l1 n1 n2 l2 m3 Hh Hok3 ltac:(intros x Hx; apply Hf3; fold a in Hx; lia)) as [Hh' Hd].
  by apply Hyes.
Qed.

Lemma same_words s : set_words (um_words s) s = s.
Proof using. by destruct s. Qed.

(** The case where nothing is written. *)
Lemma unchanged s (Φ : unit → umem → Prop) bs :
  heap s bs → (heap (set_words (um_words s) s) bs → Φ tt (set_words (um_words s) s)) → Φ tt s.
Proof using. rewrite same_words. auto. Qed.

Lemma heap_wipe s l1 n l2 m' : heap s (l1 ++ Block n true :: l2) → mem_ok (heapbase s) (heaptop s) m' →
  let a := heapbase s + span l1 in
  m' !! (a + 4) = Some (hw n 0 2) → (∀ x, x < a + 4 ∨ a + 8 * n ≤ x ∨ x = a → m' !! x = um_words s !! x) →
  heap (set_words m' s) (l1 ++ Block n false :: l2).
Proof using.
  intros Hh Hok a Hm Hf. pose proof (heap_at _ _ _ _ Hh) as ([H1 H2] & _ & Hn & _). fold a in H1. simpl in Hn.
  eapply (heap_replace s m' l1 [Block n true] [Block n false] l2); simpl; fold a; [done|done|..|done].
  - split; [|split; [lia|done]]. split; simpl; [|done]. rewrite Hf by lia. done.
  - intros x Hx. apply Hf. lia.
  - intros Hne. rewrite Z.add_0_r, Hf by lia. by apply (heap_prev s l1 (Block n true) l2).
Qed.

(** A free block is joined with the block after it, if that is free. *)
Definition join_next n l2 : list block :=
  match l2 with Block n2 false :: l => Block (n + n2) false :: l | _ => Block n false :: l2 end.

Lemma join_next_used a n l2 : used a (join_next n l2) = used (a + 8 * n) l2.
Proof using. destruct l2 as [|[n2 []] l2]; simpl; [done..|]. f_equal. lia. Qed.

Lemma free_next_spec s l1 n l2 Φ Ψ : heap s (l1 ++ Block n false :: l2) →
  (∀ m', heap (set_words m' s) (l1 ++ join_next n l2) →
     (∀ x, data (heapbase s) (l1 ++ Block n false :: l2) x → m' !! x = um_words s !! x) → Φ tt (set_words m' s)) →
  let a := heapbase s + span l1 in
  wpx (if negb (a + 8 * n =? heaptop s) then __malloc_trymerge a (a + 8 * n) else mret tt) s Φ Ψ.
Proof using.
  intros Hh HΦ a. pose proof (heap_next _ _ _ _ Hh) as Hnx. simpl b_n in Hnx. fold a in Hnx.
  destruct l2 as [|[n2 u2] l2].
  - rewrite (proj2 Hnx), Z.eqb_refl by done. cbn [negb]. rewrite wpx_ret. apply (unchanged _ _ _ Hh). intros Hh'. by apply HΦ.
  - rewrite (proj2 (Z.eqb_neq _ _)) by (intros E; by apply Hnx in E). cbn [negb].
    apply (trymerge_spec s l1 (Block n false) (Block n2 u2) l2); [done|..].
    + intros [?|Hu]; [done|]. simpl in Hu. subst u2. apply (unchanged _ _ _ Hh). intros Hh'. by apply HΦ.
    + intros m' _ Hu Hh' Hd. simpl in Hu. subst u2. by apply HΦ.
Qed.

(** The same for the block before. *)
Lemma free_prev_spec s l1 n l2 Φ Ψ : heap s (l1 ++ Block n false :: l2) →
  (∀ m' bs', heap (set_words m' s) bs' → used (heapbase s) bs' = used (heapbase s) (l1 ++ Block n false :: l2) →
     (coalesced false l1 → coalesced true l2 → coalesced false bs') →
     (∀ x, data (heapbase s) (l1 ++ Block n false :: l2) x → m' !! x = um_words s !! x) → Φ tt (set_words m' s)) →
  let a := heapbase s + span l1 in
  wpx (if negb (a =? heapbase s) then mhprev ← M_PREV a; __malloc_trymerge mhprev a else mret tt) s Φ Ψ.
Proof using.
  intros Hh HΦ a.
  destruct l1 as [|b0 l0 _] using rev_ind.
  - unfold a. simpl. rewrite Z.add_0_r, Z.eqb_refl. cbn [negb]. rewrite wpx_ret. apply (unchanged _ _ _ Hh). intros Hh'.
    by apply (HΦ _ (Block n false :: l2) Hh').
  - pose proof (heap_at _ _ _ _ Hh) as Hat. fold a in Hat. rewrite <- app_assoc in Hh. simpl in Hh.
    pose proof (heap_at _ _ _ _ Hh) as (_ & _ & Hn0 & Ha0 & _). rewrite last_n_app in Hat. simpl in Hat.
    assert (a = heapbase s + span l0 + 8 * b_n b0) as Ea by (unfold a; rewrite span_app; simpl; lia).
    assert (0 ≤ span l0) by (pose proof (hp_laid _ _ Hh) as L; rewrite laid_app in L; destruct L as [L _]; pose proof (span_pos _ (laid_sizes _ _ _ _ L)); lia).
    pose proof (hp_base _ _ Hh). replace (a =? heapbase s) with false by lia. cbn [negb]. rewrite wpx_bind. eapply wpx_M_PREV; [done|lia|].
    replace (a - 8 * b_n b0) with (heapbase s + span l0) by lia. rewrite Ea.
    apply (trymerge_spec s l0 b0 (Block n false) l2); [done|..].
    + intros [Hu|?]; [|done]. apply (unchanged _ _ _ Hh). intros Hh'. apply (HΦ _ _ Hh'); [| |done].
      * by rewrite <- app_assoc.
      * rewrite !coalesced_app. simpl. rewrite Hu. tauto.
    + intros m' Hu _ Hh' Hd. apply (HΦ m' _ Hh'); [| |by rewrite <- app_assoc].
      * rewrite <- app_assoc. rewrite !used_app. simpl. rewrite Hu. simpl. do 2 f_equal. lia.
      * rewrite !coalesced_app. simpl. rewrite Hu. simpl. intros (H1 & H2 & _) H3. split_and!; [done| |done]. 
        intros E. specialize (H2 E). congruence.
Qed.

Lemma join_next_shape n l2 : ∃ n' l2', join_next n l2 = Block n' false :: l2' ∧ (coalesced false l2 → coalesced true l2').
Proof using.
  destruct l2 as [|[n2 []] l2]; simpl; eexists _, _; (split; [done|]); [done|..|tauto]. intros [_ H]. by split.
Qed.

(** A block without data at the top of the heap cannot be freed: its pointer is the top. *)
Lemma free_spec s l1 n l2 Φ Ψ : heap s (l1 ++ Block n true :: l2) → 2 ≤ n →
  (∀ t bs', heap t bs' → heapbase t = heapbase s →
     used (heapbase s) bs' = used (heapbase s) l1 ++ used (heapbase s + span l1 + 8 * n) l2 →
     (coalesced false (l1 ++ Block n true :: l2) → coalesced false bs') →
     (∀ x, data (heapbase s) bs' x → um_words t !! x = um_words s !! x) → Φ tt t) →
  wpx (free (heapbase s + span l1 + 8)) s Φ Ψ.
Proof using.
  intros Hh Hn2 HΦ. set (a := heapbase s + span l1) in *. pose proof (heap_at _ _ _ _ Hh) as Hat. fold a in Hat.
  pose proof Hat as ([H1 H2] & Hp & Hn & Ha & Hmax). simpl in Hn, Hmax, H2.
  destruct (heap_word s l1 _ Hh) as (Hal & Hlow & Htop). fold a in Hal, Hlow, Htop. simpl in Htop.
  pose proof Hh as [Hb _ _ Htm Hl Hok _]. rewrite laid_app in Hl. destruct Hl as (_ & _ & _ & L2).
  pose proof (span_pos _ (laid_sizes _ _ _ _ L2)).
  unfold free, SIZEOF_MHEADER. replace (a + 8 =? 0) with false by lia. rewrite wpx_bind. apply wpx_guser. rewrite wpx_bind. apply wpx_guser.
  rewrite wpx_bind. apply wpx_exit_if; [lia|]. rewrite wpx_bind. apply wpx_exit_if; [lia|].
  replace (a + 8 - 8) with a by lia. rewrite (u32_id a) by in_range.
  rewrite wpx_bind. eapply wpx_M_OK; [done|]. rewrite wpx_bind. apply wpx_exit_if; [done|].
  rewrite wpx_bind. eapply wpx_inuse; [done|]. rewrite wpx_bind. apply wpx_exit_if; [done|].
  rewrite wpx_bind. eapply (wpx_set_inuse s a _ _ Hat false). simpl b_n. cbn [ub]. set (m1 := <[a + 4 := _]> _).
  assert (at_hdr (set_words m1 s) a (last_n 0 l1) (Block n false)) as Hat1.
  { split; [|done]. unfold m1. split; simpl; [by rewrite lookup_insert_ne by lia|by rewrite lookup_insert_eq]. }
  rewrite wpx_bind. eapply wpx_M_SIZE; [done|]. simpl b_n. unfold M_DATA, SIZEOF_MHEADER. rewrite u32_id by in_range.
  replace (8 * n - 8) with (4 * (2 * n - 2)) by lia. rewrite wpx_bind.
  apply (deadbeef_spec _ _ _ (heapbase s) (heaptop s)); [|lia..|Z.to_euclidean_division_equations; lia|].
  { apply mem_ok_insert; [done|]. apply hw_u32; simpl; lia. }
  simpl um_words. intros m2 Hok2 Hf2.
  assert (∀ x, x < a + 4 ∨ a + 8 * n ≤ x ∨ x = a → m2 !! x = um_words s !! x) as Hout.
  { intros x Hx. rewrite Hf2 by lia. unfold m1. rewrite lookup_insert_ne by lia. done. }
  assert (heap (set_words m2 s) (l1 ++ Block n false :: l2)) as Hh2.
  { apply heap_wipe; [done|done| |exact Hout]. fold a. rewrite Hf2 by lia. unfold m1. by rewrite lookup_insert_eq. }
  change (set_words m2 (set_words m1 s)) with (set_words m2 s).
  pose proof (heap_at _ _ _ _ Hh2) as Hat2. simpl heapbase in Hat2. fold a in Hat2.
  rewrite wpx_bind. eapply wpx_M_NEXT; [done|]. simpl b_n. rewrite wpx_bind.
  change (heaptop s) with (heaptop (set_words m2 s)). apply (free_next_spec (set_words m2 s) l1 n l2); [done|].
  intros m3 Hh3 Hd3. simpl in Hd3. destruct (join_next_shape n l2) as (n' & l2' & Ej & Hc). rewrite Ej in Hh3.
  apply (free_prev_spec (set_words m3 (set_words m2 s)) l1 n' l2'); [exact Hh3|].
  intros m4 bs' Hh4 Hu4 Hc4 Hd4. simpl in *. rewrite <- Ej, used_app, join_next_used in Hu4. fold a in Hu4.
  apply (HΦ _ bs'); [done|done|done|..]; simpl.
  - rewrite coalesced_app. simpl. intros (C1 & _ & C2). apply Hc4; [done|]. by apply Hc.
  - intros x Hx. assert (data (heapbase s) (l1 ++ Block n false :: l2) x) as Hx'.
    { apply data_used. apply data_used in Hx as (p & z & Hp' & Hr). rewrite Hu4 in Hp'. exists p, z. split; [|done].
      by rewrite used_app. }
    assert (data (heapbase s) (l1 ++ Block n' false :: l2') x) as Hx2.
    { rewrite <- Ej. apply data_used. rewrite used_app, join_next_used. fold a. rewrite <- Hu4. by apply data_used in Hx. }
    rewrite Hd4, Hd3 by done.
    apply Hout. rewrite data_app in Hx'. simpl in Hx'. fold a in Hx'. destruct Hx' as [Hx'|[[? _]|Hx']]; [|done|].
    + apply data_range in Hx'; [unfold a; lia|]. pose proof (hp_laid _ _ Hh) as L. rewrite laid_app in L. destruct L as [L _].
      by eapply laid_sizes.
    + apply data_range in Hx'; [lia|]. by eapply laid_sizes.
Qed.
End heap.

Section growth.
Context {W : Type} (sbrk : Z → W → words → res (Z * W * words)) (brk : W → Z) `{!Sbrk sbrk brk}.
Implicit Types s t : @umem W.

(** The heap with a new block at its end. *)
Lemma heap_extend (brk' : W → Z) s bs k m' w' : heap brk s bs → 0 ≤ k → heaptop s + 8 * (k + 1) ≤ 2 ^ 31 → brk' w' = heaptop s + 8 * (k + 1) →
  grown (um_words s) m' (heaptop s) (8 * (k + 1)) →
  heap brk' (Umem (heapbase s) (heaptop s + 8 * (k + 1)) (new_hdr (heaptop s) (last_n 0 bs) (k + 1) 1 m') w') (bs ++ [Block (k + 1) true]) ∧
  ∀ x, data (heapbase s) bs x → new_hdr (heaptop s) (last_n 0 bs) (k + 1) 1 m' !! x = um_words s !! x.
Proof using.
  intros [Hb Ha Ht Hm Hl Hok Hk] Hk0 Hmax Hbrk (G1 & G2 & G3). pose proof (laid_sizes _ _ _ _ Hl) as Hs.
  pose proof (span_pos bs Hs). pose proof (last_n_range 0 bs Hs ltac:(lia)) as [Hp Hp'].
  assert (last_n 0 bs < 2 ^ 29) by (destruct bs; [simpl; lia|]; specialize (Hp' ltac:(done)); lia).
  assert (∀ x, x < heaptop s → new_hdr (heaptop s) (last_n 0 bs) (k + 1) 1 m' !! x = um_words s !! x) as Hf.
  { intros x Hx. unfold new_hdr. rewrite !lookup_insert_ne by lia. apply G3. lia. }
  split.
  - constructor; simpl; try done.
    + rewrite span_app, Ht. simpl. lia.
    + apply laid_app. split.
      * eapply laid_frame; [done|]. intros x Hx%head_word_range; [|done]. apply Hf. lia.
      * simpl. split_and!; try done; [|lia]. rewrite <- Ht. unfold new_hdr. split; simpl; [|by rewrite lookup_insert_eq].
        rewrite lookup_insert_ne by lia. by rewrite lookup_insert_eq.
    + apply mem_ok_insert; [apply mem_ok_insert|]; [|apply hw_u32; lia..]. destruct Hok as [H1 H2]. split.
      * intros x Hx Hx4. destruct (decide (x < heaptop s)); [rewrite G3 by lia; apply H1; [lia|done]|]. apply G1; [lia|done].
      * intros x v Hv. destruct (decide (heaptop s ≤ x < heaptop s + 8 * (k + 1))) as [Hr|Hr]; [by eapply G2|].
        rewrite G3 in Hv by done. by apply (H2 x).
  - intros x Hx%data_range; [|done]. apply Hf. lia.
Qed.

Lemma round_up size : 0 ≤ size ≤ 2 ^ 31 - 16 → Z.ldiff (u32 (size + MBLOCKSIZE - 1)) (MBLOCKSIZE - 1) = 8 * ((size + 7) / 8).
Proof using.
  intros Hs. change (MBLOCKSIZE - 1) with (Z.ones 3). rewrite Z.ldiff_ones_r by done. rewrite Z.shiftl_mul_pow2, Z.shiftr_div_pow2 by done.
  change (2 ^ 3) with 8. unfold MBLOCKSIZE. rewrite u32_id by in_range. replace (size + 8 - 1) with (size + 7) by lia. lia.
Qed.

(** The expansion of the heap, when the system call gives the memory at the top; nothing is said of later calls. *)
Lemma new_block_spec (brk' : W → Z) s bs k w' m' Φ Ψ : heap brk s bs → 0 ≤ k → heaptop s + 8 * (k + 1) ≤ 2 ^ 31 →
  sbrk (8 * (k + 1)) (um_world s) (um_words s) = Ok (heaptop s, w', m') → brk' w' = heaptop s + 8 * (k + 1) →
  grown (um_words s) m' (heaptop s) (8 * (k + 1)) →
  (∀ t, heap brk' t (bs ++ [Block (k + 1) true]) → heapbase t = heapbase s → um_world t = w' →
     (∀ x, data (heapbase s) bs x → um_words t !! x = um_words s !! x) → Φ (heaptop s + 8) t) →
  wpx (new_block sbrk (8 * k) (last_n 0 bs)) s Φ Ψ.
Proof using.
  intros Hh Hk0 Hle Hcall Hbrk Hg HΦ. destruct (heap_extend brk' s bs k m' w' Hh Hk0 Hle Hbrk Hg) as [He Hd].
  destruct Hh as [Hb Ha Ht Hm Hl Hmem Hk]. pose proof (laid_sizes _ _ _ _ Hl) as Hs. pose proof (span_pos bs Hs).
  unfold new_block, __malloc_sbrk, MBLOCKSIZE. replace (8 * k + 8) with (8 * (k + 1)) by lia. rewrite (u32_id (8 * (k + 1))) by in_range.
  rewrite !wpx_bind. unfold call_sbrk at 1. unfold wpx at 1. rewrite s32_id by in_range. rewrite Hcall.
  replace (heaptop s =? SBRK_FAILED) with false by (unfold SBRK_FAILED; lia).
  rewrite wpx_bind. apply wpx_guser. simpl heaptop. rewrite wpx_bind. apply wpx_exit_if; [by rewrite Z.eqb_refl|].
  rewrite wpx_bind. apply wpx_muser. rewrite wpx_ret. replace (heaptop s =? 0) with false by lia. rewrite u32_id by in_range.
  unfold M_MKFIELD. rewrite Z.shiftr_div_pow2 by done. change (2 ^ MBLOCKSHIFT) with 8.
  rewrite (Z.mul_comm 8 (k + 1)), Z.div_mul, (Z.mul_comm (k + 1) 8) by done.
  pose proof (last_n_range 0 bs Hs ltac:(lia)) as [Hp Hp'].
  assert (last_n 0 bs < 2 ^ 29) by (destruct bs; [simpl; lia|]; specialize (Hp' ltac:(done)); lia).
  destruct Hg as (G1 & G2 & G3).
  assert (heaptop s mod 8 = 0) as Hal by (rewrite Ht; destruct (span_mult bs) as [j ->]; rewrite (Z.mul_comm 8), Z.mod_add; lia).
  destruct (G1 (heaptop s)) as [w1 E1]; [lia|Z.to_euclidean_division_equations; lia|].
  destruct (G1 (heaptop s + 4)) as [w2 E2]; [lia|Z.to_euclidean_division_equations; lia|].
  eapply wpx_grow_header; [exact E1|exact E2|eapply G2; [|exact E1]; lia|eapply G2; [|exact E2]; lia|lia|lia|].
  rewrite wpx_ret. unfold M_DATA, SIZEOF_MHEADER. rewrite u32_id by in_range. by apply HΦ.
Qed.

(** malloc up to the point where the heap has to be expanded. *)
Lemma malloc_enter s bs size Φ Ψ : heap brk s bs → 0 ≤ size ≤ 2 ^ 31 - 16 → let k := (size + 7) / 8 in
  (Forall (unfit k) bs → wpx (new_block sbrk (8 * k) (last_n 0 bs)) s Φ Ψ) →
  (∀ t l1 n l2, bs = l1 ++ Block n false :: l2 → k ≤ n - 1 → Forall (unfit k) l1 →
     heap brk t (l1 ++ split_block k (Block n false) ++ l2) → heapbase t = heapbase s →
     (∀ x, data (heapbase s) bs x → um_words t !! x = um_words s !! x) → Φ (heapbase s + span l1 + 8) t) →
  wpx (malloc sbrk size) s Φ Ψ.
Proof using.
  intros Hh Hsz k Htop Hok. unfold malloc. rewrite wpx_bind. apply wpx_guser. pose proof Hh as [Hb Ha Ht Hm Hl Hmem Hk].
  pose proof (span_pos bs (laid_sizes _ _ _ _ Hl)).
  replace (heapbase s =? 0) with false by lia. rewrite wpx_bind, wpx_ret, wpx_bind. apply wpx_guser.
  rewrite wpx_bind. apply wpx_guser. rewrite wpx_bind. apply wpx_exit_if; [lia|]. rewrite round_up by done. fold k.
  assert (0 ≤ k) as Hk0 by (unfold k; Z.to_euclidean_division_equations; lia).
  rewrite wpx_bind. apply (first_fit_spec brk s bs k); [done|done|..].
  - intros Hu. rewrite wpx_bind. apply wpx_exit_if; [by rewrite Z.eqb_refl|]. by apply Htop.
  - intros l1 n l2 m' -> Hfit Hu Hh' Hd. rewrite wpx_ret. pose proof (heap_at _ _ _ _ _ Hh) as (_ & _ & Hn & Ha' & Hmax).
    simpl in Hn, Hmax. unfold M_DATA, SIZEOF_MHEADER. rewrite u32_id by in_range. by apply (Hok _ l1 n l2).
Qed.

Lemma malloc_spec s bs size Φ Ψ : heap brk s bs → 0 ≤ size ≤ 2 ^ 31 - 16 →
  (∀ w', heap brk (Umem (heapbase s) (heaptop s) (um_words s) w') bs → Φ 0 (Umem (heapbase s) (heaptop s) (um_words s) w')) →
  (∀ t p bs', placed (heapbase s) ((size + 7) / 8) bs p bs' → heap brk t bs' → heapbase t = heapbase s →
     (∀ x, data (heapbase s) bs x → um_words t !! x = um_words s !! x) → Φ p t) →
  wpx (malloc sbrk size) s Φ Ψ.
Proof using All.
  intros Hh Hsz Hfail Hok. apply (malloc_enter s bs); [done|done| |].
  2: { intros t l1 n l2 -> Hfit Hu Ht Eb Hd. by apply (Hok t _ _ ltac:(by econstructor) Ht). }
  set (k := (size + 7) / 8) in *. intros Hu.
  assert (0 ≤ k ∧ 8 * k ≤ 2 ^ 31 - 16) as [Hk0 Hk1] by (unfold k; Z.to_euclidean_division_equations; lia).
  pose proof (hp_brk _ _ _ Hh) as Hk. destruct (sbrk_grow (8 * (k + 1)) (um_world s) (um_words s)) as (r & w' & m' & Hcall & Hr); [lia|].
  rewrite Hk in Hr. destruct Hr as [(-> & Hbrk & ->)|(-> & Hbrk & Hle & Hg)].
  - unfold new_block, __malloc_sbrk, MBLOCKSIZE. replace (8 * k + 8) with (8 * (k + 1)) by lia. rewrite (u32_id (8 * (k + 1))) by in_range.
    rewrite !wpx_bind. unfold call_sbrk at 1. unfold wpx at 1. rewrite s32_id by in_range. rewrite Hcall, Z.eqb_refl, wpx_ret. cbn.
    apply Hfail. destruct Hh. by constructor; simpl; try congruence.
  - apply (new_block_spec brk s bs k w' m'); [done..|]. intros t Ht Eb _ Hd.
    apply (Hok _ _ (bs ++ [Block (k + 1) true])); [|done|done|done]. rewrite (hp_top _ _ _ Hh). by constructor.
Qed.
End growth.
