(* ===== verification/MallocThm.v ===== *)
(** * Programs that use the heap

    A program that asks for memory, frees it and reads and writes words of its blocks runs on malloc and
    free as on an abstract store of blocks: each new block is apart from the others, a word holds what was
    last written to it, and the library never gives up, whatever the system call answers to requests for
    memory. *)

From stdpp Require Import sorting.
From S2P Require Import Prelude StateM Malloc MallocSpec.

(** ** Programs *)

Inductive user :=
  | Done (r : Z)
  | Malloc (n : Z) (k : Z → user)
  | Free (p : Z) (k : user)
  | Load (a : Z) (k : Z → user)
  | Store (a v : Z) (k : user).

Section run.
Context {W : Type} (sbrk : Z → W → words → res (Z * W * words)).

Fixpoint run_user (u : user) : prog (@umem W) Z :=
  match u with
  | Done r => mret r
  | Malloc n k => p ← malloc sbrk n; run_user (k p)
  | Free p k => _ ← free p; run_user k
  | Load a k => v ← load a; run_user (k v)
  | Store a v k => _ ← store a v; run_user k
  end.
End run.

(** ** The abstract store *)

(** The blocks with the sizes that were asked for, and the words that were written. *)
Implicit Types (live vals : gmap Z Z).

Definition fresh_block live (p n : Z) : Prop :=
  p ≠ 0 ∧ p mod 8 = 0 ∧ live !! p = None ∧ ∀ q m, live !! q = Some m → p + n ≤ q ∨ q + m ≤ p.

Definition in_block live (a : Z) : Prop := ∃ p n, live !! p = Some n ∧ p ≤ a ∧ a + 4 ≤ p + n ∧ a mod 4 = 0.

Definition forget (p n : Z) vals : gmap Z Z := filter (λ '(a, _), ¬ (p ≤ a < p + n)) vals.

(** The program keeps the rules of the store, and whatever its requests are answered it ends with a result in [Q]. *)
Inductive correct (Q : Z → Prop) : gmap Z Z → gmap Z Z → user → Prop :=
  | c_done live vals r : Q r → correct Q live vals (Done r)
  | c_malloc live vals n k : 1 ≤ n ≤ 2 ^ 31 - 16 → correct Q live vals (k 0) →
      (∀ p, fresh_block live p n → correct Q (<[p := n]> live) vals (k p)) → correct Q live vals (Malloc n k)
  | c_free_null live vals k : correct Q live vals k → correct Q live vals (Free 0 k)
  | c_free live vals p n k : live !! p = Some n → correct Q (delete p live) (forget p n vals) k → correct Q live vals (Free p k)
  | c_load live vals a k : in_block live a → (∀ v, vals !! a = Some v ∨ vals !! a = None → correct Q live vals (k v)) →
      correct Q live vals (Load a k)
  | c_store live vals a v k : in_block live a → is_u32 v → correct Q live (<[a := v]> vals) k → correct Q live vals (Store a v k).

(** ** Blocks in use are apart *)

Definition apart (x y : Z * Z) : Prop := x.1 + x.2 + 8 ≤ y.1.

Lemma used_after a bs x : sizes bs → x ∈ used a bs → a + 8 ≤ x.1 ∧ 0 ≤ x.2.
Proof.
  intros Hs. revert a. induction Hs as [|b bs Hb Hs IH]; intros a; simpl; [by intros ?%not_elem_of_nil|].
  rewrite elem_of_app. intros [Hx|Hx].
  - destruct (b_used b); [|by apply not_elem_of_nil in Hx]. apply list_elem_of_singleton in Hx as ->. simpl. lia.
  - apply IH in Hx. lia.
Qed.

Lemma used_sorted a bs : sizes bs → StronglySorted apart (used a bs).
Proof.
  intros Hs. revert a. induction Hs as [|b bs Hb Hs IH]; intros a; simpl; [constructor|].
  destruct (b_used b); simpl; [|apply IH]. constructor; [apply IH|]. apply Forall_forall. intros x Hx.
  apply used_after in Hx; [|done]. unfold apart. simpl. lia.
Qed.

Lemma sorted_apart l1 x l2 y : StronglySorted apart (l1 ++ x :: l2) → y ∈ l1 ++ l2 → apart y x ∨ apart x y.
Proof.
  intros Hs. rewrite elem_of_app. intros [Hy|Hy].
  - left. apply StronglySorted_app in Hs as (Hs & _). by apply Hs; [|constructor].
  - right. apply StronglySorted_app in Hs as (_ & _ & Hs). apply StronglySorted_inv in Hs as [_ Hs].
    rewrite Forall_forall in Hs. auto.
Qed.

Lemma used_split a bs p z : (p, z) ∈ used a bs →
  ∃ l1 n l2, bs = l1 ++ Block n true :: l2 ∧ p = a + span l1 + 8 ∧ z = 8 * n - 8.
Proof.
  revert a. induction bs as [|b bs IH]; intros a; simpl; [by intros ?%not_elem_of_nil|]. rewrite elem_of_app. intros [Hx|Hx].
  - destruct b as [n []]; simpl in Hx; [|by apply not_elem_of_nil in Hx]. apply list_elem_of_singleton in Hx as [= -> ->].
    exists [], n, bs. simpl. split_and!; [done|lia|done].
  - apply IH in Hx as (l1 & n & l2 & -> & -> & ->). exists (b :: l1), n, l2. simpl. split_and!; [done|lia|done].
Qed.

(** A request takes one more block. *)
Lemma placed_used base k bs p bs' : placed base k bs p bs' →
  ∃ u1 u2 z, used base bs = u1 ++ u2 ∧ used base bs' = u1 ++ (p, z) :: u2 ∧ 8 * k ≤ z.
Proof.
  intros [l1 n l2 -> Hk _|_].
  - exists (used base l1), (used (base + span l1 + 8 * n) l2). unfold split_block. simpl b_n.
    destruct (_ <? 2); [exists (8 * n - 8)|exists (8 * (k + 1) - 8)]; rewrite !used_app; simpl; (split_and!; [done| |lia]).
    all: do 3 f_equal; lia.
  - exists (used base bs), [], (8 * k). rewrite app_nil_r, used_app. simpl. split_and!; [done| |lia]. do 4 f_equal. lia.
Qed.

(** ** The first request *)

Section first.
Context {W : Type} (sbrk : Z → W → words → res (Z * W * words)).
Implicit Types s t : @umem W.

(** The first request finds the base of the heap. *)
Lemma malloc_first s size x Φ Ψ : heapbase s = 0 → heaptop s = 0 → 0 < x ≤ 2 ^ 31 → x mod 8 = 0 →
  sbrk 0 (um_world s) (um_words s) = Ok (x, um_world s, um_words s) →
  wpx (malloc sbrk size) (Umem x x (um_words s) (um_world s)) Φ Ψ → wpx (malloc sbrk size) s Φ Ψ.
Proof using.
  intros Hb Ht Hr Ha Hz Hm. unfold malloc in *.
  rewrite wpx_bind in Hm. unfold guser in Hm at 1. rewrite wpx_run, wps_gets in Hm. simpl heapbase in Hm.
  replace (x =? 0) with false in Hm by lia. rewrite wpx_bind, wpx_ret in Hm.
  rewrite wpx_bind. apply wpx_guser. rewrite Hb. change (0 =? 0) with true. cbv iota. rewrite wpx_bind. unfold __malloc_init.
  rewrite wpx_bind. apply wpx_exit_if; [done|]. rewrite wpx_bind. apply wpx_exit_if; [done|]. rewrite wpx_bind. apply wpx_exit_if; [done|].
  rewrite wpx_bind. apply wpx_guser. rewrite wpx_bind. apply wpx_guser. rewrite wpx_bind. apply wpx_exit_if; [by rewrite Hb, Ht|].
  rewrite wpx_bind. unfold call_sbrk, wpx at 1. change (s32 0) with 0. rewrite Hz.
  rewrite wpx_bind. apply wpx_exit_if; [unfold SBRK_FAILED; lia|]. rewrite wpx_bind. apply wpx_exit_if; [lia|].
  rewrite wpx_bind. apply wpx_muser. change MBLOCKSIZE with 8. rewrite Ha. cbn [negb Z.eqb]. rewrite wpx_ret. exact Hm.
Qed.

End first.

(** ** The invariant of a run *)

Section runs.
Context {W : Type} (sbrk : Z → W → words → res (Z * W * words)) (brk : W → Z) `{!Sbrk sbrk brk}.
Implicit Types s t : @umem W.

(** Before the first request; the break is a multiple of eight, as on a page boundary. *)
Record untouched s : Prop := Untouched {
  ut_base : heapbase s = 0;
  ut_top : heaptop s = 0;
  ut_brk : 0 < brk (um_world s) ≤ 2 ^ 31;
  ut_align : brk (um_world s) mod 8 = 0;
  ut_words : map_Forall (λ _ v, is_u32 v) (um_words s);
}.

Record keeps s live vals bs : Prop := Keeps {
  kp_coal : coalesced false bs;
  kp_live p n : live !! p = Some n → 1 ≤ n ∧ ∃ z, (p, z) ∈ used (heapbase s) bs ∧ n ≤ z;
  kp_vals a v : vals !! a = Some v → um_words s !! a = Some v ∧ ∃ p n, live !! p = Some n ∧ p ≤ a < p + n;
}.

Definition running s live vals : Prop :=
  (untouched s ∧ live = ∅ ∧ vals = ∅) ∨ (∃ bs, heap brk s bs ∧ keeps s live vals bs).

Lemma untouched_heap s : untouched s →
  heap brk (Umem (brk (um_world s)) (brk (um_world s)) (um_words s) (um_world s)) [].
Proof using.
  intros [Hb Ht Hr Ha Hw]. constructor; simpl; try done; try lia. split; [intros; lia|done].
Qed.

Lemma live_used s live vals bs p n : keeps s live vals bs → live !! p = Some n → ∀ x, p ≤ x < p + n → data (heapbase s) bs x.
Proof using.
  intros Hk Hp x Hx. destruct (kp_live _ _ _ _ Hk _ _ Hp) as (_ & z & Hz & Hn). apply data_used. exists p, z. split; [done|lia].
Qed.

(** The words that were written stay, where the data of blocks stays. *)
Lemma keeps_vals s t live vals bs : keeps s live vals bs →
  (∀ x, data (heapbase s) bs x → um_words t !! x = um_words s !! x) →
  ∀ a v, vals !! a = Some v → um_words t !! a = Some v ∧ ∃ p n, live !! p = Some n ∧ p ≤ a < p + n.
Proof using.
  intros Hk Hd a v Hv. destruct (kp_vals _ _ _ _ Hk _ _ Hv) as (Hw & p & n & Hp & Ha). split; [|eauto].
  rewrite Hd; [done|]. by eapply live_used.
Qed.

Lemma malloc_keeps s live vals bs n p t bs' : heap brk s bs → keeps s live vals bs → 1 ≤ n →
  placed (heapbase s) ((n + 7) / 8) bs p bs' → heap brk t bs' → heapbase t = heapbase s →
  (∀ x, data (heapbase s) bs x → um_words t !! x = um_words s !! x) →
  fresh_block live p n ∧ keeps t (<[p := n]> live) vals bs'.
Proof using All.
  intros Hh Hk Hn Hp Ht Eb Hd. destruct (placed_used _ _ _ _ _ Hp) as (u1 & u2 & z & U1 & U2 & Hz).
  assert (n ≤ z) by (Z.to_euclidean_division_equations; lia).
  pose proof (used_sorted (heapbase t) bs' (laid_sizes _ _ _ _ (hp_laid _ _ _ Ht))) as Hs. rewrite Eb, U2 in Hs.
  assert (∀ q m, live !! q = Some m → ∃ y, (q, y) ∈ u1 ++ u2 ∧ 1 ≤ m ≤ y) as Hlive.
  { intros q m Hq. destruct (kp_live _ _ _ _ Hk _ _ Hq) as (? & y & Hy & ?). rewrite U1 in Hy. eauto. }
  assert ((p, z) ∈ used (heapbase t) bs') as Hin by (rewrite Eb, U2; set_solver).
  assert (fresh_block live p n) as Hf.
  { split_and!.
    - apply used_after in Hin; [|by eapply laid_sizes, hp_laid]. pose proof (hp_base _ _ _ Ht). simpl in Hin. lia.
    - destruct (used_split _ _ _ _ Hin) as (l1 & n1 & l2 & -> & -> & _). pose proof (hp_align _ _ _ Ht).
      destruct (span_mult l1) as [j ->]. Z.to_euclidean_division_equations; lia.
    - destruct (live !! p) as [m|] eqn:E; [|done]. destruct (Hlive _ _ E) as (y & Hy & Hm).
      destruct (sorted_apart _ _ _ _ Hs Hy) as [Ha|Ha]; unfold apart in Ha; simpl in Ha; lia.
    - intros q m Hq. destruct (Hlive _ _ Hq) as (y & Hy & Hm).
      destruct (sorted_apart _ _ _ _ Hs Hy) as [Ha|Ha]; unfold apart in Ha; simpl in Ha; lia. }
  split; [done|]. constructor.
  - eapply placed_coalesced; [done|apply Hk].
  - intros q m Hq. rewrite Eb, U2. destruct (decide (q = p)) as [->|Hne].
    + rewrite lookup_insert_eq in Hq. injection Hq as <-. split; [done|]. exists z. split; [set_solver|done].
    + rewrite lookup_insert_ne in Hq by done. destruct (Hlive _ _ Hq) as (y & Hy & Hm). split; [lia|]. exists y. split; [set_solver|lia].
  - intros a v Hv. destruct (keeps_vals _ _ _ _ _ Hk Hd _ _ Hv) as (Hw & q & m & Hq & Ha). split; [done|]. exists q, m.
    split; [|done]. rewrite lookup_insert_ne; [done|]. intros <-. destruct Hf as (_ & _ & Hf & _). congruence.
Qed.

Lemma malloc_step s live vals n Φ Ψ : running s live vals → 1 ≤ n ≤ 2 ^ 31 - 16 →
  (∀ t, running t live vals → Φ 0 t) →
  (∀ p t, fresh_block live p n → running t (<[p := n]> live) vals → Φ p t) →
  wpx (malloc sbrk n) s Φ Ψ.
Proof using All.
  intros Hr Hn H0 H1.
  assert (∀ s bs, heap brk s bs → keeps s live vals bs → wpx (malloc sbrk n) s Φ Ψ) as Hmain.
  { clear s Hr. intros s bs Hh Hk. apply (malloc_spec sbrk brk s bs); [done|lia|..].
    - intros w' Hh'. apply H0. right. exists bs. split; [done|]. by destruct Hk.
    - intros t p bs' Hp Ht Eb Hd. destruct (malloc_keeps s live vals bs n p t bs') as [Hf Hk']; try done; [lia|].
      apply H1; [done|]. right. by exists bs'. }
  destruct Hr as [(Hu & -> & ->)|(bs & Hh & Hk)]; [|by eapply Hmain].
  pose proof Hu as []. eapply malloc_first; [done..|apply sbrk_zero|]. eapply (Hmain _ []); [by apply untouched_heap|]. by constructor.
Qed.

Lemma free_step s live vals p n Φ Ψ : running s live vals → live !! p = Some n →
  (∀ t, running t (delete p live) (forget p n vals) → Φ tt t) → wpx (free p) s Φ Ψ.
Proof using All.
  intros [(_ & -> & _)|(bs & Hh & Hk)] Hp HΦ; [done|].
  destruct (kp_live _ _ _ _ Hk _ _ Hp) as (Hn & z & Hz & Hnz).
  destruct (used_split _ _ _ _ Hz) as (l1 & n1 & l2 & -> & -> & ->).
  apply (free_spec brk s l1 n1 l2); [done|lia|]. intros t bs' Ht Eb Hu Hc Hd.
  assert (∀ q m, delete (heapbase s + span l1 + 8) live !! q = Some m → 1 ≤ m ∧ ∃ y, (q, y) ∈ used (heapbase s) bs' ∧ m ≤ y) as Hlive.
  { intros q m [Hne Hq]%lookup_delete_Some. destruct (kp_live _ _ _ _ Hk _ _ Hq) as (Hm & y & Hy & Hmy). split; [done|].
    exists y. split; [|done]. rewrite Hu. rewrite used_app in Hy. simpl in Hy. rewrite elem_of_app, elem_of_cons in Hy.
    rewrite elem_of_app. destruct Hy as [?|[[= ? ?]|?]]; [by left|congruence|by right]. }
  apply HΦ. right. exists bs'. split; [done|]. constructor.
  - apply Hc, Hk.
  - rewrite Eb. exact Hlive.
  - intros a v [Hv Ha]%map_lookup_filter_Some. destruct (kp_vals _ _ _ _ Hk _ _ Hv) as (Hw & q & m & Hq & Hqa).
    assert (delete (heapbase s + span l1 + 8) live !! q = Some m) as Hq'.
    { apply lookup_delete_Some. split; [|done]. intros <-. rewrite Hp in Hq. injection Hq as <-. by apply Ha. }
    split; [|by exists q, m]. rewrite Hd; [done|]. destruct (Hlive _ _ Hq') as (_ & y & Hy & Hmy). apply data_used. exists q, y. split; [done|lia].
Qed.

Lemma block_word s live vals a : running s live vals → in_block live a →
  ∃ bs, heap brk s bs ∧ keeps s live vals bs ∧ data (heapbase s) bs a ∧ is_Some (um_words s !! a).
Proof using All.
  intros [(_ & -> & _)|(bs & Hh & Hk)] (p & n & Hp & Ha & Hn & Hm); [done|]. exists bs. split; [done|]. split; [done|].
  assert (data (heapbase s) bs a) as Hd by (eapply live_used; [done..|]; lia). split; [done|].
  apply Hh; [|done]. apply data_range in Hd; [|by eapply laid_sizes, hp_laid]. rewrite (hp_top _ _ _ Hh). lia.
Qed.

Lemma load_step s live vals a Φ Ψ : running s live vals → in_block live a →
  (∀ v, vals !! a = Some v ∨ vals !! a = None → Φ v s) → wpx (load a) s Φ Ψ.
Proof using All.
  intros Hr Ha HΦ. destruct (block_word _ _ _ _ Hr Ha) as (bs & Hh & Hk & Hd & v & Hv). eapply wpx_load; [done|]. apply HΦ.
  destruct (vals !! a) as [v'|] eqn:E; [|by right]. left. destruct (kp_vals _ _ _ _ Hk _ _ E) as [Hv' _]. congruence.
Qed.

Lemma store_step s live vals a v Φ Ψ : running s live vals → in_block live a → is_u32 v →
  (∀ t, running t live (<[a := v]> vals) → Φ tt t) → wpx (store a v) s Φ Ψ.
Proof using All.
  intros Hr Ha Hv HΦ. destruct (block_word _ _ _ _ Hr Ha) as (bs & Hh & Hk & Hd & Hw). apply wpx_store; [done|]. apply HΦ. right. exists bs.
  pose proof Hh as [Hb Hal Ht Hm Hl Hok Hbk]. split.
  - constructor; simpl; try done; [|by apply mem_ok_insert]. eapply laid_frame; [done|]. intros x Hx. apply lookup_insert_ne.
    intros <-. eapply data_not_head; [by eapply laid_sizes|done|done].
  - destruct Hk as [K1 K2 K3]. constructor; [done|done|]. simpl. intros x w Hx. destruct (decide (x = a)) as [->|Hne].
    + rewrite lookup_insert_eq in *. injection Hx as <-. split; [done|]. destruct Ha as (p & n & Hp & ? & ? & _). exists p, n. split; [done|lia].
    + rewrite lookup_insert_ne in * by done. by apply K3.
Qed.

Lemma run_spec Q u live vals s : correct Q live vals u → running s live vals →
  wpx (run_user sbrk u) s (λ r t, Q r ∧ ∃ live' vals', running t live' vals') (λ _ _, False).
Proof using All.
  intros Hc. revert s. induction Hc as [live vals r Hr|live vals n k Hn _ IH0 _ IH1|live vals k _ IH|live vals p n k Hp _ IH|
    live vals a k Ha _ IH|live vals a v k Ha Hv _ IH]; intros s Hs; simpl.
  - rewrite wpx_ret. eauto.
  - rewrite wpx_bind. eapply malloc_step; [done|done|auto|]. intros p t Hf Ht. by apply IH1.
  - rewrite wpx_bind. unfold free at 1. change (0 =? 0) with true. cbv iota. rewrite wpx_ret. by apply IH.
  - rewrite wpx_bind. eapply free_step; [done|done|auto].
  - rewrite wpx_bind. eapply load_step; [done|done|auto].
  - rewrite wpx_bind. eapply store_step; [done|done|done|auto].
Qed.

(** C10: A program that frees only what it was given, uses only its blocks and asks for at least one byte at a time
    runs on malloc and free to its end, whatever sbrk answers: it never exits because the library found
    an error, and its result is one that the abstract store allows, in which a new block is apart from
    all others and a word holds what was last written to it.  At the end no two neighbouring blocks of the
    heap are free. *)
Theorem malloc_refines_store Q u s : untouched s → correct Q ∅ ∅ u →
  wpx (run_user sbrk u) s
    (λ r t, Q r ∧ (untouched t ∨ ∃ bs, heap brk t bs ∧ coalesced false bs)) (λ _ _, False).
Proof using All.
  intros Hs Hc. eapply wpx_mono; [apply (run_spec Q u ∅ ∅); [done|by left]|..|done].
  intros r t (HQ & live & vals & [(Hu & _)|(bs & Hh & Hk)]); (split; [done|]); [by left|]. right. exists bs. split; [done|apply Hk].
Qed.
End runs.

(** ** A system call that grows the memory up to a limit *)

Definition new_words (a n : Z) : words := list_to_map ((λ x, (x, 0)) <$> seqZ a n).
Definition brk_limit : Z := 2 ^ 16.
Definition plain_sbrk (n w : Z) (m : words) : res (Z * Z * words) :=
  if n =? 0 then Ok (w, w, m)
  else if w + n <=? brk_limit then Ok (w, w + n, new_words w n ∪ m) else Ok (SBRK_FAILED, w, m).

Lemma new_words_in a n x : a ≤ x < a + n → new_words a n !! x = Some 0.
Proof.
  intros Hx. apply elem_of_list_to_map.
  - rewrite <- list_fmap_compose. apply NoDup_fmap; [intros y z; simpl; congruence|apply NoDup_seqZ].
  - apply list_elem_of_fmap. exists x. split; [done|]. by apply elem_of_seqZ.
Qed.
Lemma new_words_out a n x : ¬ (a ≤ x < a + n) → new_words a n !! x = None.
Proof.
  intros Hx. apply not_elem_of_list_to_map. rewrite <- list_fmap_compose. intros (y & -> & Hy)%list_elem_of_fmap.
  apply elem_of_seqZ in Hy. done.
Qed.

#[export] Instance plain_sbrk_ok : Sbrk plain_sbrk (λ w, w).
Proof.
  constructor; [done|]. intros n w m Hn. unfold plain_sbrk. replace (n =? 0) with false by lia.
  destruct (Z.leb_spec (w + n) brk_limit) as [Hl|Hl]; eexists _, _, _; (split; [done|]); [right|by left].
  unfold brk_limit in Hl. split_and!; [done|done|lia|]. split_and!.
  - intros x Hx _. rewrite (lookup_union_Some_l _ _ x 0) by by apply new_words_in. done.
  - intros x v Hx. rewrite (lookup_union_Some_l _ _ x 0) by by apply new_words_in. by intros [= <-].
  - intros x Hx. rewrite lookup_union_r; [done|]. by apply new_words_out.
Qed.

(** Two blocks; the first is read after the second was written. *)
Definition demo : user :=
  Malloc 10 (λ p, if p =? 0 then Done 0 else
    Store p 5 (Malloc 4 (λ q, if q =? 0 then Done 0 else
      Store q 6 (Load p (λ v, Free p (Done v)))))).

Definition demo_start : @umem Z := Umem 0 0 ∅ 4096.

Lemma demo_correct : correct (λ r, r = 0 ∨ r = 5) ∅ ∅ demo.
Proof.
  constructor; [lia|by constructor; left|]. intros p (Hp0 & Hp8 & _ & _). rewrite (proj2 (Z.eqb_neq p 0)) by done.
  assert (p mod 4 = 0) by (Z.to_euclidean_division_equations; lia).
  assert (∀ live, in_block (<[p := 10]> live) p) as Hpin by (intros live; exists p, 10; rewrite lookup_insert_eq; split_and!; [done|lia..|done]).
  constructor; [apply Hpin|done|]. constructor; [lia|by constructor; left|]. intros q (Hq0 & Hq8 & Hqn & Hqd).
  assert (q ≠ p) by (intros ->; by rewrite lookup_insert_eq in Hqn).
  rewrite (proj2 (Z.eqb_neq q 0)) by done. assert (q mod 4 = 0) by (Z.to_euclidean_division_equations; lia).
  constructor; [exists q, 4; rewrite lookup_insert_eq; split_and!; [done|lia..|done]|done|].
  rewrite (insert_insert_ne ∅ q p) by done. constructor; [apply Hpin|]. rewrite lookup_insert_ne, lookup_insert_eq by done.
  intros v [[= <-]|[=]]. eapply c_free; [by rewrite lookup_insert_eq|]. constructor. by right.
Qed.

Lemma malloc_refines_store_witness :
  untouched (λ w, w) demo_start ∧ correct (λ r, r = 0 ∨ r = 5) ∅ ∅ demo ∧
  wpx (run_user plain_sbrk demo) demo_start
    (λ r t, (r = 0 ∨ r = 5) ∧ (untouched (λ w, w) t ∨ ∃ bs, heap (λ w, w) t bs ∧ coalesced false bs)) (λ _ _, False).
Proof.
  assert (untouched (λ w, w) demo_start) as Hu by (constructor; simpl; done || lia).
  split; [exact Hu|]. split; [exact demo_correct|].
  apply (malloc_refines_store plain_sbrk (λ w, w) (λ r, r = 0 ∨ r = 5) demo demo_start Hu demo_correct).
Defined.

(** ** Sizes at the two ends *)

(** A request for nearly all of the address space wraps around when it is rounded up and is served as a request
    for no bytes. *)
Theorem malloc_wraps_around {W} (sbrk : Z → W → words → res (Z * W * words)) size : 2 ^ 32 - 7 ≤ size < 2 ^ 32 →
  malloc sbrk size = malloc sbrk 0.
Proof.
  intros Hs. unfold malloc. replace (Z.ldiff (u32 (size + MBLOCKSIZE - 1)) (MBLOCKSIZE - 1)) with 0; [done|].
  change (MBLOCKSIZE - 1) with (Z.ones 3). rewrite Z.ldiff_ones_r by done. rewrite Z.shiftl_mul_pow2, Z.shiftr_div_pow2 by done.
  change (2 ^ 3) with 8. unfold u32, MBLOCKSIZE. Z.to_euclidean_division_equations; lia.
Qed.

Lemma malloc_wraps_around_witness :
  malloc plain_sbrk (2 ^ 32 - 1) demo_start = malloc plain_sbrk 0 demo_start ∧
  (∃ t, malloc plain_sbrk 0 demo_start = Ok (inr 4104, t) ∧ heaptop t = 4104).
Proof.
  split; [by rewrite (malloc_wraps_around plain_sbrk (2 ^ 32 - 1)) by lia|]. eexists. split; [by vm_compute|done].
Defined.

(** The pointer of an empty block at the end of the heap is the top of the heap, and free takes it for a pointer
    that is not on the heap: a program that frees what malloc(0) gave it exits with 1. *)
Theorem free_rejects_empty_block :
  ∃ t, (p ← malloc plain_sbrk 0; free p) demo_start = Ok (inl 1, t).
Proof. eexists. by vm_compute. Qed.
