(* ===== verification/Heap.v ===== *)
(** * The kernel heap as the rest of the kernel sees it

    [KHeap] is the pair of entry points of kern/lib/kheap.c; [KHeapLaws] is what
    the other components rely on: a successful [kmalloc] hands out a block that
    is not in use, a failed one changes nothing, and [kfree] gives a block in
    use back.  The promise is made for requests below [kh_max] bytes.  [kh_room n h]
    says that [h] has memory for [n] more requests: a request then succeeds and leaves
    room for one request less.  The clients (arrays, queues, bitmaps, threads, processes,
    file systems) are proved against this interface; [KheapInv.v] discharges it for
    kheap.c with requests of up to a page.
    [RefHeap] is a small reference allocator, used to evaluate the clients. *)

From S2P Require Import Prelude.

(** The pattern freed memory is filled with; it is the address of no block. *)
Definition DEADBEEF : Z := 0xdeadbeef.

Class KHeap (H : Type) := {
  kmalloc : Z → H → res (Z * H);
  kfree : Z → H → res H;
}.

Class KHeapLaws (H : Type) `{KHeap H} := {
  kh_inv : H → Prop;
  kh_live : H → gset Z;
  kh_max : Z;
  kh_max_bound : 0 ≤ kh_max ≤ 2 ^ 31;
  kh_live_nonnull : ∀ h, kh_inv h → NULL ∉ kh_live h;
  kh_live_nodead : ∀ h, kh_inv h → DEADBEEF ∉ kh_live h;
  kmalloc_law : ∀ h sz, kh_inv h → 0 ≤ sz < kh_max →
    wp (kmalloc sz h) (λ '(p, h'), kh_inv h' ∧
      ((p = NULL ∧ kh_live h' = kh_live h) ∨
       (p ≠ NULL ∧ p ∉ kh_live h ∧ kh_live h' = {[p]} ∪ kh_live h)));
  kfree_null : ∀ h, kh_inv h → kfree NULL h = Ok h;
  kfree_law : ∀ h p, kh_inv h → p ∈ kh_live h →
    wp (kfree p h) (λ h', kh_inv h' ∧ kh_live h' = kh_live h ∖ {[p]});
  kh_room : nat → H → Prop;
  kh_room_le : ∀ h n, kh_room (S n) h → kh_room n h;
  kroom_malloc : ∀ h sz n, kh_inv h → 0 ≤ sz < kh_max → kh_room (S n) h →
    wp (kmalloc sz h) (λ '(p, h'), p ≠ NULL ∧ kh_room n h');
  kroom_free : ∀ h p n, kh_inv h → p ∈ kh_live h → kh_room n h →
    wp (kfree p h) (λ h', kh_room n h');
}.

(** ** Room

    [rooms c h ok h']: with room for [c] requests and [n] more, the outcome is [ok] and room for
    [n] requests is left.  It is the part of a specification that says when an operation may
    run out of memory. *)

Definition rooms `{KHeapLaws H} (c : nat) (h : H) (ok : Prop) (h' : H) : Prop :=
  ∀ n, kh_room (c + n) h → ok ∧ kh_room n h'.

Section rooms.
Context `{KHeapLaws H}.
Implicit Types h : H.

Lemma rooms_refl h (ok : Prop) : ok → rooms 0 h ok h.
Proof. by intros ? n. Qed.

Lemma rooms_bind c1 c2 h h1 h2 (ok1 ok2 : Prop) :
  rooms c1 h ok1 h1 → (ok1 → rooms c2 h1 ok2 h2) → rooms (c1 + c2) h ok2 h2.
Proof.
  intros Hr1 Hr2 n Hn. rewrite <- Nat.add_assoc in Hn. destruct (Hr1 _ Hn) as [Hok Hn1]. by apply Hr2.
Qed.

Lemma room_sub n m h : kh_room m h → (n ≤ m)%nat → kh_room n h.
Proof.
  intros Hm Hle. replace m with ((m - n) + n)%nat in Hm by lia.
  induction (m - n)%nat as [|d IH]; [done|]. by apply IH, kh_room_le.
Qed.

Lemma rooms_le c c' h h' ok : rooms c h ok h' → (c ≤ c')%nat → rooms c' h ok h'.
Proof.
  intros Hr Hc n Hn. apply Hr. eapply room_sub; [done|lia].
Qed.

Lemma rooms_mono c h h' (ok ok' : Prop) : rooms c h ok h' → (ok → ok') → rooms c h ok' h'.
Proof. intros Hr Hok n Hn. destruct (Hr n Hn). auto. Qed.

(** An operation that did not succeed did not have the room. *)
Lemma rooms_fail c h (ok : Prop) h' : rooms c h ok h' → ¬ ok → ¬ kh_room c h.
Proof. intros Hr Hno Hc. apply Hno. apply (Hr 0%nat). by rewrite Nat.add_0_r. Qed.

Lemma rooms_absurd c h (ok ok' : Prop) h1 h' : rooms c h ok h1 → ¬ ok → rooms c h ok' h'.
Proof. intros Hr Hno n Hn. by destruct (Hr n Hn). Qed.

(** [kmalloc] and [kfree] with the room they leave. *)
Lemma kmalloc_full h sz :
  kh_inv h → 0 ≤ sz < kh_max →
  wp (kmalloc sz h) (λ '(p, h'), (kh_inv h' ∧
      ((p = NULL ∧ kh_live h' = kh_live h) ∨
       (p ≠ NULL ∧ p ∉ kh_live h ∧ kh_live h' = {[p]} ∪ kh_live h))) ∧ rooms 1 h (p ≠ NULL) h').
Proof.
  intros Hi Hs. pose proof (kmalloc_law h sz Hi Hs) as Hw.
  apply wp_exists in Hw as ([p h'] & Heq & Hpost). rewrite Heq, wp_ok. split; [done|].
  intros n Hn. pose proof (kroom_malloc h sz n Hi Hs Hn) as Hw. by rewrite Heq in Hw.
Qed.

Lemma kfree_full h p :
  kh_inv h → p ∈ kh_live h →
  wp (kfree p h) (λ h', (kh_inv h' ∧ kh_live h' = kh_live h ∖ {[p]}) ∧ rooms 0 h True h').
Proof.
  intros Hi Hp. pose proof (kfree_law h p Hi Hp) as Hw.
  apply wp_exists in Hw as (h' & Heq & Hpost). rewrite Heq, wp_ok. split; [done|].
  intros n Hn. pose proof (kroom_free h p n Hi Hp Hn) as Hw. by rewrite Heq in Hw.
Qed.
End rooms.

(** Closes the room of an operation that has failed: it did not have it. *)
Ltac no_room :=
  eapply rooms_absurd; [eassumption|let Hn := fresh in intros Hn; solve [done | by apply Hn | by destruct Hn]].

(** ** A reference allocator

    Addresses are handed out in increasing order, at most [rh_budget] times;
    freeing an address that is not live is a panic. *)

Record refheap := RefHeap { rh_budget : nat; rh_next : Z; rh_live : gset Z }.

Definition ref_kmalloc (sz : Z) (h : refheap) : res (Z * refheap) :=
  match rh_budget h with
  | O => Ok (NULL, h)
  | S b => Ok (rh_next h, RefHeap b (rh_next h + 1) ({[rh_next h]} ∪ rh_live h))
  end.

Definition ref_kfree (p : Z) (h : refheap) : res refheap :=
  if p =? NULL then Ok h
  else if bool_decide (p ∈ rh_live h)
       then Ok (RefHeap (rh_budget h) (rh_next h) (rh_live h ∖ {[p]}))
       else Fault FPanic.

#[export] Instance refheap_kheap : KHeap refheap :=
  {| kmalloc := ref_kmalloc; kfree := ref_kfree |}.

Definition refheap_inv (h : refheap) : Prop :=
  0 < rh_next h ∧ rh_next h + Z.of_nat (rh_budget h) ≤ 2 ^ 31 ∧ ∀ p, p ∈ rh_live h → 0 < p < rh_next h.

#[export, refine] Instance refheap_laws : KHeapLaws refheap :=
  {| kh_inv := refheap_inv; kh_live := rh_live; kh_max := 2 ^ 31;
     kh_room n h := (n ≤ rh_budget h)%nat |}.
Proof.
  - lia.
  - intros h (_ & _ & Hl) ?%Hl. unfold NULL in *. lia.
  - intros h (_ & Hb & Hl) ?%Hl. unfold DEADBEEF in *. lia.
  - intros h sz (Hn & Hb & Hl) _. simpl. unfold ref_kmalloc.
    destruct (rh_budget h) eqn:E; wp_val; unfold refheap_inv, NULL; rewrite ?E; simpl; [naive_solver|].
    split; [|right; split_and!; [lia| |done]].
    + split; [lia|]. split; [lia|]. intros p [->%elem_of_singleton|?%Hl]%elem_of_union; lia.
    + intros ?%Hl. lia.
  - done.
  - intros h p (Hn & Hb & Hl) Hp. simpl. unfold ref_kfree.
    pose proof (Hl _ Hp). unfold NULL. replace (p =? 0) with false by lia.
    rewrite bool_decide_true by done. wp_val. split; [|done].
    split_and!; simpl; [done|done|]. set_solver.
  - intros h n Hn. lia.
  - intros h sz n (Hn & _) _ Hb. simpl. unfold ref_kmalloc.
    destruct (rh_budget h); [lia|]. wp_val. simpl. unfold NULL. lia.
  - intros h p n (Hn & _ & Hl) Hp Hb. simpl. unfold ref_kfree.
    pose proof (Hl _ Hp). unfold NULL. replace (p =? 0) with false by lia.
    by rewrite bool_decide_true by done.
Defined.

Definition ref_empty (budget : nat) : refheap := RefHeap budget 1 ∅.

Lemma ref_empty_inv b : Z.of_nat b < 2 ^ 31 → kh_inv (ref_empty b).
Proof. intros Hb. split_and!; simpl; [lia|lia|set_solver]. Qed.
