(* ===== verification/KArray.v ===== *)
(** * Arrays of void pointers (kern/lib/array.c)

    [array] is [struct array]; the words of its vector are [None] until they
    are written.  The operations thread the kernel heap.  [array_inv a l h] says
    that [a] holds the pointers [l] and owns its blocks in [h]; every operation
    is specified as an operation on [l]. *)

From S2P Require Import Prelude Heap.

Record array := Array {
  a_self : Z;               (* address of the struct itself *)
  a_num : Z;
  a_max : Z;
  a_vptr : Z;               (* the pointer v *)
  a_v : list (option Z);    (* the words v points to *)
}.

Definition a_set_num (a : array) (n : Z) : array :=
  Array (a_self a) n (a_max a) (a_vptr a) (a_v a).
Definition a_set_v (a : array) (v : list (option Z)) : array :=
  Array (a_self a) (a_num a) (a_max a) (a_vptr a) v.

Section array.
Context {H : Type} `{KHeapLaws H}.
Implicit Types (a : array) (h : H) (l : list Z).

Definition array_create (h : H) : res (option array * H) :=
  '(p, h) ← kmalloc 12 h;
  if p =? NULL then mret (None, h)
  else mret (Some (Array p 0 0 NULL []), h).

Definition array_getnum (a : array) : Z := a_num a.

Definition array_getguy (a : array) (index : Z) : res Z :=
  _ ← check (a_num a <=? a_max a);
  _ ← check ((0 <=? index) && (index <? a_num a));
  rd (a_v a) index.

(** [while (nguys > newmax) newmax = (newmax+1)*2]; 64 rounds are enough for a
    request the doubling can reach without overflow. *)
Definition array_newmax (nguys newmax : Z) : res Z :=
  while_loop 64 (λ newmax,
    if nguys >? newmax then mret (inl (s32 ((newmax + 1) * 2)))
    else mret (inr newmax)) newmax.

Definition array_preallocate (a : array) (nguys : Z) (h : H) : res (Z * array * H) :=
  _ ← check ((0 <=? a_num a) && (a_num a <=? a_max a));
  newmax ← array_newmax nguys (a_max a);
  let bytes := u32 (newmax * 4) in
  '(newv, h) ← kmalloc bytes h;
  if newv =? NULL then mret (ENOMEM, a, h)
  else
    data ← copy_words (Z.to_nat (a_num a)) (a_v a)
             (replicate (Z.to_nat (bytes / 4)) None);
    h ← (if negb (a_vptr a =? NULL) then kfree (a_vptr a) h else mret h);
    mret (0, Array (a_self a) (a_num a) newmax newv data, h).

Definition array_setsize (a : array) (nguys : Z) (h : H) : res (Z * array * H) :=
  _ ← check ((0 <=? a_num a) && (a_num a <=? a_max a));
  if nguys >? a_max a then
    '(result, a, h) ← array_preallocate a nguys h;
    if negb (result =? 0) then mret (result, a, h)
    else mret (0, a_set_num a nguys, h)
  else if (nguys =? 0) && (a_max a >? 16) then
    _ ← check (negb (a_vptr a =? NULL));
    h ← kfree (a_vptr a) h;
    mret (0, Array (a_self a) nguys 0 NULL [], h)
  else mret (0, a_set_num a nguys, h).

Definition array_setguy (a : array) (index ptr : Z) : res array :=
  _ ← check (a_num a <=? a_max a);
  _ ← check ((0 <=? index) && (index <? a_num a));
  v ← (a_v a).[index <- Some ptr];
  mret (a_set_v a v).

Definition array_add (a : array) (guy : Z) (h : H) : res (Z * array * H) :=
  let ix := a_num a in
  '(result, a, h) ← array_setsize a (ix + 1) h;
  if negb (result =? 0) then mret (result, a, h)
  else
    v ← (a_v a).[ix <- Some guy];
    mret (0, a_set_v a v, h).

Definition array_remove (a : array) (index : Z) : res array :=
  _ ← check (a_num a <=? a_max a);
  _ ← check ((0 <=? index) && (index <? a_num a));
  let nmove := a_num a - (index + 1) in
  v ← memmovez (a_v a) index (index + 1) nmove;
  mret (a_set_num (a_set_v a v) (a_num a - 1)).

Definition array_destroy (a : array) (h : H) : res H :=
  h ← (if negb (a_vptr a =? NULL) then kfree (a_vptr a) h else mret h);
  kfree (a_self a) h.

(** ** Representation and ownership *)

Definition array_rep (a : array) (l : list Z) : Prop :=
  a_num a = zlen l ∧ a_num a ≤ a_max a ∧ a_max a = zlen (a_v a) ∧
  (a_vptr a = NULL → a_max a = 0) ∧
  take (length l) (a_v a) = Some <$> l.

Definition array_blocks (a : array) : gset Z :=
  {[a_self a]} ∪ (if a_vptr a =? NULL then ∅ else {[a_vptr a]}).

Definition array_inv (a : array) (l : list Z) (h : H) : Prop :=
  kh_inv h ∧ array_rep a l ∧ array_blocks a ⊆ kh_live h ∧ a_self a ≠ a_vptr a.

(** The blocks of the heap that do not belong to the array. *)
Definition array_frame (a : array) (h : H) : gset Z := kh_live h ∖ array_blocks a.

Lemma array_rep_lookup a l (i : Z) :
  array_rep a l → 0 ≤ i < zlen l →
  a_v a !! Z.to_nat i = Some <$> (l !! Z.to_nat i).
Proof.
  intros (_ & _ & _ & _ & Ht) Hi.
  rewrite <- list_lookup_fmap, <- Ht. symmetry. apply lookup_take_lt. lia.
Qed.

Lemma array_create_full h :
  kh_inv h → 12 < kh_max →
  wp (array_create h) (λ '(oa, h'),
    match oa with
    | None => kh_inv h' ∧ kh_live h' = kh_live h
    | Some a => array_inv a [] h' ∧ array_frame a h' = kh_live h
    end ∧ rooms 1 h (oa ≠ None) h').
Proof.
  intros Hi Hm. unfold array_create. wp_call kmalloc_full; [done|lia|].
  intros [p h'] [[Hi' [[-> Hl]|(Hp & Hnew & Hl)]] Hroom]; simpl.
  { split; [done|]. no_room. }
  replace (p =? NULL) with false by lia. wp_val. split; [|by eapply rooms_mono].
  unfold array_inv, array_frame, array_blocks, array_rep; simpl.
  split; [split_and!; try done; set_solver|].
  rewrite Hl. set_solver.
Qed.

Lemma array_create_spec h :
  kh_inv h → 12 < kh_max →
  wp (array_create h) (λ '(oa, h'),
    match oa with
    | None => kh_inv h' ∧ kh_live h' = kh_live h
    | Some a => array_inv a [] h' ∧ array_frame a h' = kh_live h
    end).
Proof. intros Hi Hm. eapply wp_mono; [by apply array_create_full|]. by intros [oa h'] [? _]. Qed.

Lemma array_getguy_spec a l i x :
  array_rep a l → 0 ≤ i → l !! Z.to_nat i = Some x → array_getguy a i = Ok x.
Proof.
  intros Hr Hi Hx. pose proof (lookup_lt_Some _ _ _ Hx).
  pose proof (array_rep_lookup _ _ i Hr ltac:(lia)) as Hv.
  destruct Hr as (Hn & Hm & _). unfold array_getguy, check.
  replace (a_num a <=? a_max a) with true by lia.
  replace ((0 <=? i) && (i <? a_num a)) with true by lia. simpl.
  unfold rd, getz. replace (0 <=? i) with true by lia. by rewrite Hv, Hx.
Qed.

Lemma array_getguy_oob a l i :
  array_rep a l → ¬ (0 ≤ i < zlen l) → array_getguy a i = Fault FPanic.
Proof.
  intros (Hn & Hm & _) Hi. unfold array_getguy, check.
  replace (a_num a <=? a_max a) with true by lia.
  by replace ((0 <=? i) && (i <? a_num a)) with false by lia.
Qed.

Lemma array_setguy_spec a l i x :
  array_rep a l → 0 ≤ i < zlen l →
  wp (array_setguy a i x) (λ a',
    array_rep a' (<[Z.to_nat i := x]> l) ∧ a_self a' = a_self a ∧
    a_vptr a' = a_vptr a ∧ a_max a' = a_max a).
Proof.
  intros (Hn & Hm & Hv & Hp & Ht) Hi. unfold array_setguy. wp_step.
  apply wp_setz; [lia|]. wp_val. split; [|done].
  unfold array_rep; simpl. rewrite !length_insert. split_and!; try done.
  rewrite take_insert_lt by lia. rewrite Ht. by rewrite list_fmap_insert.
Qed.

(** ** Growing *)

Lemma array_newmax_spec nguys m :
  0 ≤ m ≤ 2 ^ 29 → nguys ≤ 2 ^ 29 →
  wp (array_newmax nguys m) (λ m',
    nguys ≤ m' ∧ m ≤ m' ∧ (m' = m ∨ m' ≤ 2 * nguys)).
Proof.
  intros Hm Hg. unfold array_newmax.
  eapply (wp_while_loop
    (λ k, m ≤ k ∧ (k = m ∨ k ≤ 2 * nguys)) _ (λ k, Z.to_nat (40 - Z.log2 (k + 2)))).
  - lia.
  - pose proof (Z.log2_nonneg (m + 2)). lia.
  - intros k [Hk Hk']. destruct (nguys >? k) eqn:E; wp_val; simpl; [|lia].
    rewrite s32_id by in_range. split; [lia|].
    replace ((k + 1) * 2 + 2) with (2 * (k + 2)) by lia.
    rewrite Z.log2_double by lia.
    assert (Z.log2 (k + 2) ≤ Z.log2 (2 ^ 30)) by (apply Z.log2_le_mono; lia).
    rewrite Z.log2_pow2 in * by lia. lia.
Qed.

Lemma take_copied (n m : nat) l (v : list (option Z)) :
  n = length l → take n v = Some <$> l →
  take (length l) (take n v ++ drop n (replicate m None)) = Some <$> l.
Proof.
  intros -> Ht. rewrite Ht. rewrite take_app_le by (by rewrite length_fmap).
  apply take_ge. by rewrite length_fmap.
Qed.

(** Releasing the old vector while the new one is live. *)
Lemma free_old_vector a h p :
  kh_inv h → (a_vptr a = NULL ∨ a_vptr a ∈ kh_live h) → a_vptr a ≠ p →
  wp (if negb (a_vptr a =? NULL) then kfree (a_vptr a) h else mret h) (λ h',
    (kh_inv h' ∧ kh_live h' = kh_live h ∖ (if a_vptr a =? NULL then ∅ else {[a_vptr a]})) ∧
    rooms 0 h True h').
Proof.
  intros Hi Hv Hne. destruct (a_vptr a =? NULL) eqn:E; simpl.
  - wp_val. split; [|by apply rooms_refl]. split; [done|]. set_solver.
  - destruct Hv as [Hv|Hv]; [lia|]. by apply kfree_full.
Qed.

Definition array_kept (a : array) (h : H) (l : list Z) (a' : array) (h' : H) : Prop :=
  array_inv a' l h' ∧ array_frame a' h' = array_frame a h ∧ a_self a' = a_self a.

Lemma array_preallocate_full a l h nguys :
  array_inv a l h → nguys ≤ 2 ^ 28 → 8 * nguys < kh_max → 4 * a_max a < kh_max →
  wp (array_preallocate a nguys h) (λ '(r, a', h'),
   ((r = 0 ∧ array_kept a h l a' h' ∧ nguys ≤ a_max a' ∧ a_max a ≤ a_max a' ∧
      (a_max a' = a_max a ∨ a_max a' ≤ 2 * nguys)) ∨
    (r = ENOMEM ∧ a' = a ∧ kh_inv h' ∧ kh_live h' = kh_live h)) ∧ rooms 1 h (r = 0) h').
Proof.
  intros (Hi & (Hn & Hm & Hv & Hp & Ht) & Hb & Hne) Hg Hk Hk2.
  pose proof kh_max_bound. unfold array_preallocate. wp_step.
  wp_call array_newmax_spec; [lia|lia|]. intros m' (Hm1 & Hm2 & Hm3).
  rewrite u32_id by in_range.
  wp_call kmalloc_full; [done|lia|].
  intros [p h1] [[Hi1 [[-> Hl]|(Hp1 & Hnew & Hl)]] Hroom]; simpl.
  { split; [by right|]. no_room. }
  replace (p =? NULL) with false by lia. rewrite wp_bind.
  replace (m' * 4 / 4) with m' by (rewrite Z.div_mul; lia).
  apply wp_copy_words; [lia|lens|].
  unfold array_blocks in Hb.
  wp_call (free_old_vector a h1 p); [done| | |].
  { destruct (a_vptr a =? NULL) eqn:E; [left; lia|right; set_solver]. }
  { destruct (a_vptr a =? NULL) eqn:E; [lia|set_solver]. }
  intros h2 [[Hi2 Hl2] Hroom2]. wp_val. split; [|by eapply (rooms_bind 1 0 _ h1); [done|intros _; by eapply rooms_mono]].
  left. split; [done|]. split; [|simpl; lia].
  unfold array_kept, array_inv, array_frame, array_blocks, array_rep; simpl.
  replace (p =? NULL) with false by lia.
  assert (a_self a ≠ p) as Hsp by (intros <-; set_solver).
  assert (a_vptr a ≠ p ∨ a_vptr a = NULL) as Hd.
  { destruct (a_vptr a =? NULL) eqn:E; [right; lia|left; set_solver]. }
  split_and!; try done; try lia.
  - rewrite length_app, length_take, length_drop, length_replicate. lia.
  - apply take_copied; [lia|]. by rewrite Hn, Nat2Z.id.
  - rewrite Hl2, Hl. clear -Hb Hsp Hd Hne.
    destruct (a_vptr a =? NULL) eqn:E; [set_solver|]. destruct Hd; [set_solver|lia].
  - rewrite Hl2, Hl. clear -Hb Hsp Hd Hnew.
    destruct (a_vptr a =? NULL) eqn:E; [set_solver|]. destruct Hd; [set_solver|lia].
Qed.

Lemma array_preallocate_spec a l h nguys :
  array_inv a l h → nguys ≤ 2 ^ 28 → 8 * nguys < kh_max → 4 * a_max a < kh_max →
  wp (array_preallocate a nguys h) (λ '(r, a', h'),
    (r = 0 ∧ array_kept a h l a' h' ∧ nguys ≤ a_max a' ∧ a_max a ≤ a_max a' ∧
      (a_max a' = a_max a ∨ a_max a' ≤ 2 * nguys)) ∨
    (r = ENOMEM ∧ a' = a ∧ kh_inv h' ∧ kh_live h' = kh_live h)).
Proof. intros. eapply wp_mono; [by apply (array_preallocate_full a l)|]. by intros [[r a'] h'] [? _]. Qed.

(** Extending the array by one slot and storing into it. *)
Lemma array_push_rep a l x :
  array_rep a l → a_num a < a_max a →
  wp (setz (a_v a) (a_num a) (Some x)) (λ v,
    array_rep (a_set_v (a_set_num a (a_num a + 1)) v) (l ++ [x])).
Proof.
  intros (Hn & Hm & Hv & Hp & Ht) Hroom. apply wp_setz; [lia|].
  unfold array_rep; simpl. rewrite length_insert, length_app; simpl.
  split_and!; try done; try lia.
  rewrite Hn, Nat2Z.id, fmap_app, Nat.add_1_r. simpl.
  erewrite take_S_r by (apply list_lookup_insert_eq; lia).
  rewrite take_insert_ge by lia. by rewrite Ht.
Qed.

Lemma array_add_room a l h x :
  array_rep a l → a_num a < a_max a →
  wp (array_add a x h) (λ '(r, a', h'),
    r = 0 ∧ h' = h ∧ array_rep a' (l ++ [x]) ∧ a_self a' = a_self a ∧
    a_vptr a' = a_vptr a ∧ a_max a' = a_max a).
Proof.
  intros Hr Hroom. pose proof Hr as (Hn & Hm & _). unfold array_add, array_setsize. wp_step.
  replace (a_num a + 1 >? a_max a) with false by lia.
  replace (a_num a + 1 =? 0) with false by lia. simpl. wp_val. simpl.
  wp_call array_push_rep; [done|done|]. by intros v Hv.
Qed.

Lemma array_add_full a l h x :
  array_inv a l h → zlen l < 2 ^ 27 → 8 * (zlen l + 1) < kh_max →
  wp (array_add a x h) (λ '(r, a', h'),
   ((r = 0 ∧ array_kept a h (l ++ [x]) a' h') ∨
    (r = ENOMEM ∧ a' = a ∧ kh_inv h' ∧ kh_live h' = kh_live h)) ∧ rooms 1 h (r = 0) h').
Proof.
  intros Hinv Hlen Hk. pose proof Hinv as (Hi & Hr & Hb & Hne).
  destruct (decide (a_num a < a_max a)) as [Hroom|Hfull].
  - eapply wp_mono; [by eapply array_add_room|].
    intros [[r a'] h'] (-> & -> & Hr' & Hs & Hp & Hm').
    split; [|by eapply (rooms_le 0); [apply rooms_refl|lia]]. left. split; [done|].
    unfold array_kept, array_inv, array_frame, array_blocks in *. by rewrite Hs, Hp.
  - pose proof Hr as (Hn & Hm & _). unfold array_add, array_setsize. wp_step.
    replace (a_num a + 1 >? a_max a) with true by lia.
    wp_call array_preallocate_full; [done|lia|lia|lia|].
    intros [[r a1] h1] [[(-> & ((Hi1 & Hr1 & Hb1 & Hne1) & Hf1 & Hs1) & Hge & _)
                        |(-> & -> & Hi1 & Hl1)] Hgrow]; simpl; wp_val; simpl;
      [|split; [by right|no_room]].
    assert (a_num a1 = a_num a) as Hna by (destruct Hr1 as (-> & _); lia).
    rewrite <- Hna. wp_call array_push_rep; [done|lia|]. intros v Hv. wp_val.
    split; [by left|done].
Qed.

Lemma array_add_spec a l h x :
  array_inv a l h → zlen l < 2 ^ 27 → 8 * (zlen l + 1) < kh_max →
  wp (array_add a x h) (λ '(r, a', h'),
    (r = 0 ∧ array_kept a h (l ++ [x]) a' h') ∨
    (r = ENOMEM ∧ a' = a ∧ kh_inv h' ∧ kh_live h' = kh_live h)).
Proof. intros. eapply wp_mono; [by apply (array_add_full a l)|]. by intros [[r a'] h'] [? _]. Qed.

Lemma array_remove_spec a l i :
  array_rep a l → 0 ≤ i < zlen l →
  wp (array_remove a i) (λ a',
    array_rep a' (delete (Z.to_nat i) l) ∧ a_self a' = a_self a ∧
    a_vptr a' = a_vptr a ∧ a_max a' = a_max a).
Proof.
  intros (Hn & Hm & Hv & Hp & Ht) Hi. unfold array_remove. wp_step.
  unfold memmovez.
  match goal with |- context [if ?b then _ else _] => replace b with true by lia end.
  simpl. split; [|done]. unfold array_rep; simpl.
  assert (Hlen : length (delete (Z.to_nat i) l) = (length l - 1)%nat).
  { rewrite length_delete; [done|]. apply lookup_lt_is_Some_2. lia. }
  rewrite Hlen. split_and!; try lia.
  - rewrite !length_app, !length_take, !length_drop. lia.
  - apply list_eq. intros k. rewrite list_lookup_fmap.
    destruct (decide (k < length l - 1)%nat) as [Hk|Hk].
    2: { rewrite lookup_take_ge by lia. by rewrite lookup_ge_None_2 by lia. }
    rewrite lookup_take_lt by lia.
    destruct (decide (k < Z.to_nat i)%nat).
    + rewrite lookup_app_l by (lens).
      rewrite lookup_take_lt by lia. rewrite list_lookup_delete_lt by lia.
      rewrite <- list_lookup_fmap, <- Ht. rewrite lookup_take_lt by lia. done.
    + rewrite lookup_app_r by (lens). rewrite length_take.
      rewrite lookup_app_l by (lens).
      rewrite lookup_take_lt by lia. rewrite lookup_drop.
      rewrite list_lookup_delete_ge by lia.
      rewrite <- list_lookup_fmap, <- Ht. rewrite lookup_take_lt by lia. f_equal. lia.
Qed.

(** Emptying an array: [array_setsize(a, 0)] cannot fail. *)
Lemma array_setsize_zero a l h :
  array_inv a l h →
  wp (array_setsize a 0 h) (λ '(r, a', h'), r = 0 ∧ array_kept a h [] a' h').
Proof.
  intros (Hi & (Hn & Hm & Hv & Hp & Ht) & Hb & Hne). unfold array_setsize. wp_step.
  replace (0 >? a_max a) with false by lia.
  destruct (a_max a >? 16) eqn:E; simpl; wp_step; unfold array_kept, array_inv, array_rep,
    array_frame, array_blocks in *; simpl.
  - assert (a_vptr a =? NULL = false) as Hnn by (pose proof (Hp : _ → _); lia).
    rewrite Hnn in *.
    wp_call kfree_law; [done|set_solver|]. intros h1 [Hi1 Hl1]. wp_val.
    rewrite Hl1. assert (a_self a ≠ NULL) as Hsn.
    { intros Hz. apply (kh_live_nonnull h); [done|]. set_solver. }
    clear -Hi1 Hb Hne Hsn. split_and!; try done; try lia; set_solver.
  - split_and!; try done; lia.
Qed.

Lemma array_destroy_spec a l h :
  array_inv a l h →
  wp (array_destroy a h) (λ h', kh_inv h' ∧ kh_live h' = array_frame a h).
Proof.
  intros (Hi & Hr & Hb & Hne). unfold array_destroy, array_frame. 
  unfold array_blocks in *.
  wp_call (free_old_vector a h (a_self a)); [done| |done|].
  { destruct (a_vptr a =? NULL) eqn:E; [left; lia|right; set_solver]. }
  intros h1 [[Hi1 Hl1] _]. eapply wp_mono; [apply kfree_law; [done|]|].
  - rewrite Hl1. destruct (a_vptr a =? NULL); set_solver.
  - intros h2 [Hi2 Hl2]. split; [done|]. rewrite Hl2, Hl1. set_solver.
Qed.

(** ** The array as a list

    A script of operations on an array, against the same script on a list.  An
    operation answers a word (0 or an error for those that answer nothing). *)

Inductive array_op :=
| OpAdd (x : Z) | OpGet (i : Z) | OpSet (i x : Z) | OpRemove (i : Z) | OpNum.

Definition op_index (o : array_op) : option Z :=
  match o with OpGet i | OpSet i _ | OpRemove i => Some i | _ => None end.

Definition array_do (o : array_op) (a : array) (h : H) : res (Z * array * H) :=
  match o with
  | OpAdd x => array_add a x h
  | OpGet i => x ← array_getguy a i; mret (x, a, h)
  | OpSet i x => a' ← array_setguy a i x; mret (0, a', h)
  | OpRemove i => a' ← array_remove a i; mret (0, a', h)
  | OpNum => mret (array_getnum a, a, h)
  end.

Fixpoint array_run (ops : list array_op) (a : array) (h : H) : res (list Z * array * H) :=
  match ops with
  | [] => mret ([], a, h)
  | o :: ops =>
      '(r, a, h) ← array_do o a h;
      '(rs, a, h) ← array_run ops a h;
      mret (r :: rs, a, h)
  end.

Inductive list_step : list Z → array_op → Z → list Z → Prop :=
| ls_add l x : list_step l (OpAdd x) 0 (l ++ [x])
| ls_full l x : list_step l (OpAdd x) ENOMEM l
| ls_get l i x : 0 ≤ i → l !! Z.to_nat i = Some x → list_step l (OpGet i) x l
| ls_set l i x : 0 ≤ i < zlen l → list_step l (OpSet i x) 0 (<[Z.to_nat i := x]> l)
| ls_remove l i : 0 ≤ i < zlen l → list_step l (OpRemove i) 0 (delete (Z.to_nat i) l)
| ls_num l : list_step l OpNum (zlen l) l.

(** The final [None] is a script stopped at an index out of range. *)
Inductive list_run : list Z → list array_op → list Z → option (list Z) → Prop :=
| lr_done l : list_run l [] [] (Some l)
| lr_step l o r l' ops rs f :
    list_step l o r l' → list_run l' ops rs f → list_run l (o :: ops) (r :: rs) f
| lr_panic l o i ops :
    op_index o = Some i → ¬ (0 ≤ i < zlen l) → list_run l (o :: ops) [] None.

Lemma array_kept_trans a h l a1 h1 l1 a2 h2 :
  array_kept a h l a1 h1 → array_kept a1 h1 l1 a2 h2 → array_kept a h l1 a2 h2.
Proof. intros (_ & Hf & Hs) (Hi & Hf' & Hs'). split_and!; [done|congruence|congruence]. Qed.

Lemma array_kept_same a h l a' l' :
  array_inv a l h → array_rep a' l' → a_self a' = a_self a → a_vptr a' = a_vptr a →
  array_kept a h l' a' h.
Proof.
  intros (Hi & _ & Hb & Hne) Hr Hs Hv.
  unfold array_kept, array_inv, array_frame, array_blocks in *. by rewrite Hs, Hv.
Qed.

Lemma array_kept_live a h l h' :
  array_inv a l h → kh_inv h' → kh_live h' = kh_live h → array_kept a h l a h'.
Proof.
  intros (Hi & Hr & Hb & Hne) Hi' Hl. unfold array_kept, array_inv, array_frame. by rewrite Hl.
Qed.

Lemma list_step_length l o r l' : list_step l o r l' → (length l' ≤ S (length l))%nat.
Proof.
  destruct 1; rewrite ?length_app, ?length_insert; simpl; try lia.
  rewrite length_delete by (apply lookup_lt_is_Some_2; lia). lia.
Qed.

Lemma array_oob o i a l h :
  array_rep a l → op_index o = Some i → ¬ (0 ≤ i < zlen l) → array_do o a h = Fault FPanic.
Proof.
  intros (Hn & Hm & _) Ho Hi. unfold array_do, array_getguy, array_setguy, array_remove.
  destruct o; simplify_eq/=; (replace (a_num a <=? a_max a) with true by lia);
    by (replace ((0 <=? i) && (i <? a_num a)) with false by lia).
Qed.

(** One operation that does not panic does what the list does. *)
Lemma array_do_spec o a l h :
  array_inv a l h → zlen l < 2 ^ 27 → 8 * (zlen l + 1) < kh_max →
  (∀ i, op_index o = Some i → 0 ≤ i < zlen l) →
  wp (array_do o a h) (λ '(r, a', h'), ∃ l', list_step l o r l' ∧ array_kept a h l' a' h').
Proof.
  intros Hinv Hl Hk Hix. pose proof Hinv as (Hi & Hr & _).
  destruct o as [x|i|i x|i|]; simpl in Hix |- *.
  - eapply wp_mono; [by apply array_add_spec|]. intros [[r a'] h'] [[-> Hkept]|(-> & -> & ? & ?)].
    + eexists. split; [constructor|done].
    + eexists. split; [constructor|by apply array_kept_live].
  - specialize (Hix _ eq_refl). destruct (lookup_lt_is_Some_2 l (Z.to_nat i)) as [x Hx]; [lia|].
    rewrite (array_getguy_spec _ _ _ _ Hr (proj1 Hix) Hx). simpl. wp_val. exists l.
    split; [constructor; [lia|done]|by apply (array_kept_same _ _ l)].
  - wp_call array_setguy_spec; [done|by apply Hix|]. intros a' (? & ? & ? & _). wp_val.
    eexists. split; [constructor; by apply Hix|by eapply array_kept_same].
  - wp_call array_remove_spec; [done|by apply Hix|]. intros a' (? & ? & ? & _). wp_val.
    eexists. split; [constructor; by apply Hix|by eapply array_kept_same].
  - wp_val. unfold array_getnum. rewrite (proj1 Hr). exists l.
    split; [constructor|by apply (array_kept_same _ _ l)].
Qed.

(** C15: a script of operations on a kernel array ([array_add], [array_getguy],
    [array_setguy], [array_remove], [array_getnum], in any order) gives the answers the
    same script gives on a list, where [array_add] may also report ENOMEM and change
    nothing; it stops only with a failed assertion, and only where the list script has
    an index out of range.  The array owns its blocks throughout and touches no other
    block of the heap. *)
Theorem array_refines_list ops a l h :
  array_inv a l h → zlen l + zlen ops < 2 ^ 27 → 8 * (zlen l + zlen ops) < kh_max →
  match array_run ops a h with
  | Ok (rs, a', h') => ∃ l', list_run l ops rs (Some l') ∧ array_kept a h l' a' h'
  | Fault f => f = FPanic ∧ ∃ rs, list_run l ops rs None
  end.
Proof.
  revert a l h. induction ops as [|o ops IH]; intros a l h Hinv Hl Hk.
  { exists l. split; [constructor|]. destruct Hinv as (Hi & Hr & Hb & Hne). done. }
  simpl in *. destruct (op_index o) as [i|] eqn:Eo;
    [destruct (decide (0 ≤ i < zlen l)) as [Hin|Hout]|].
  2: { rewrite (array_oob _ _ _ _ h (proj1 (proj2 Hinv)) Eo Hout). simpl.
       split; [done|]. eexists. by eapply lr_panic. }
  all: (assert (wp (array_do o a h) (λ '(r, a', h'),
          ∃ l', list_step l o r l' ∧ array_kept a h l' a' h')) as Hdo
          by (apply array_do_spec; [done|lia|lia|intros; simplify_eq; done]));
    apply wp_exists in Hdo as ([[r a1] h1] & -> & l1 & Hst & Hkept); simpl;
    pose proof (list_step_length _ _ _ _ Hst);
    (specialize (IH a1 l1 h1); destruct Hkept as (Hinv1 & Hf1 & Hs1);
     specialize (IH Hinv1 ltac:(lia) ltac:(lia)));
    (destruct (array_run ops a1 h1) as [[[rs a2] h2]|f]; simpl;
     [destruct IH as (l2 & Hrun & Hkept2); exists l2;
      split; [by econstructor|by eapply array_kept_trans]
     |destruct IH as (-> & rs & Hrun); split; [done|]; eexists; by econstructor]).
Qed.
End array.

(** A script on a fresh array that grows it, changes it and runs off its end. *)
Definition demo_array : array := Array 1 0 0 NULL [].
Definition demo_heap : refheap := RefHeap 3 2 {[1]}.

Lemma demo_array_inv : array_inv demo_array [] demo_heap.
Proof.
  split_and!; [|by split_and!|vm_compute; set_solver|done].
  split; [done|]. split; [done|]. intros p Hp. unfold demo_heap in *; simpl in *.
  apply elem_of_singleton in Hp. lia.
Qed.

Lemma array_refines_list_witness :
  array_run [OpAdd 7; OpAdd 8; OpRemove 0; OpGet 0; OpNum] demo_array demo_heap
    = Ok ([0; 0; 0; 8; 1], Array 1 1 2 2 [Some 8; Some 8], RefHeap 2 3 {[1; 2]}) ∧
  ∃ l', list_run [] [OpAdd 7; OpAdd 8; OpRemove 0; OpGet 0; OpNum] [0; 0; 0; 8; 1] (Some l').
Proof.
  split; [vm_compute; reflexivity|].
  pose proof (array_refines_list [OpAdd 7; OpAdd 8; OpRemove 0; OpGet 0; OpNum]
    demo_array [] demo_heap demo_array_inv ltac:(simpl; lia) ltac:(simpl; lia)) as Hw.
  revert Hw. vm_compute. intros (l' & Hrun & _). by exists l'.
Defined.
