(* ===== verification/KQueue.v ===== *)
(** * Queues of void pointers (kern/lib/queue.c)

    A circular buffer with one slot left free.  [q_grow] and [q_addtail] call
    each other; the nesting is bounded by two, which the specification proves.
    [queue_inv q l h] says that [q] holds the pointers [l] in order, oldest
    first. *)

From S2P Require Import Prelude Heap.

Record queue := Queue {
  q_self : Z;
  q_size : Z;
  q_nextwrite : Z;
  q_nextread : Z;
  q_dptr : Z;
  q_data : list (option Z);
}.

Definition q_set_nextread (q : queue) (i : Z) : queue :=
  Queue (q_self q) (q_size q) (q_nextwrite q) i (q_dptr q) (q_data q).

(** C's [%] on the non-negative operands of this file. *)
Definition cmod (a b : Z) : res Z := if b =? 0 then Fault FUndef else mret (Z.rem a b).

Section queue.
Context {H : Type} `{KHeapLaws H}.
Implicit Types (q : queue) (h : H) (l : list Z).

Definition q_empty (q : queue) : bool := q_nextwrite q =? q_nextread q.

(** [while (nsize < targetsize) { nsize *= 2; assert(nsize > 0); }] *)
Definition q_newsize (targetsize nsize : Z) : res Z :=
  while_loop 64 (λ nsize,
    if nsize <? targetsize then
      let nsize := s32 (nsize * 2) in
      _ ← check (nsize >? 0); mret (inl nsize)
    else mret (inr nsize)) nsize.

(** The body of [q_addtail], with the call of [q_grow] as a parameter. *)
Definition q_addtail_with (grow : queue → Z → H → res (Z * queue * H))
    (q : queue) (ptr : Z) (h : H) : res (Z * queue * H) :=
  _ ← check (q_size q >? 0);
  nextnext ← cmod (q_nextwrite q + 1) (q_size q);
  '(result, q, h, nextnext) ←
    (if nextnext =? q_nextread q then
       '(result, q, h) ← grow q (q_size q + 1) h;
       if negb (result =? 0) then mret (result, q, h, nextnext)
       else
         nextnext ← cmod (q_nextwrite q + 1) (q_size q);
         mret (0, q, h, nextnext)
     else mret (0, q, h, nextnext));
  if negb (result =? 0) then mret (result, q, h)
  else
    data ← (q_data q).[q_nextwrite q <- Some ptr];
    mret (0, Queue (q_self q) (q_size q) nextnext (q_nextread q) (q_dptr q) data, h).

(** The body of [q_grow], with the call of [q_addtail] as a parameter; the loop
    walks the old buffer from [onr] to [onw], at most [osize] steps. *)
Definition q_grow_with (addtail : queue → Z → H → res (Z * queue * H))
    (q : queue) (targetsize : Z) (h : H) : res (Z * queue * H) :=
  let olddata := q_data q in
  let onr := q_nextread q in
  let onw := q_nextwrite q in
  let osize := q_size q in
  nsize ← q_newsize targetsize (q_size q);
  let bytes := u32 (nsize * 4) in
  '(ndata, h) ← kmalloc bytes h;
  if ndata =? NULL then mret (ENOMEM, q, h)
  else
    let q1 := Queue (q_self q) nsize 0 0 ndata (replicate (Z.to_nat (bytes / 4)) None) in
    '(q1, h) ← while_loop (S (Z.to_nat osize)) (λ '(i, q, h),
      if i =? onw then mret (inr (q, h))
      else
        x ← rd olddata i;
        '(result, q, h) ← addtail q x h;
        _ ← check (result =? 0);
        i ← cmod (i + 1) osize;
        mret (inl (i, q, h))) (onr, q1, h);
    h ← kfree (q_dptr q) h;
    mret (0, q1, h).

(** The mutual recursion, by depth: [q_addtail_d 0] may not grow. *)
Fixpoint q_addtail_d (depth : nat) : queue → Z → H → res (Z * queue * H) :=
  match depth with
  | O => q_addtail_with (λ _ _ _, Fault FLoop)
  | S d => q_addtail_with (q_grow_with (q_addtail_d d))
  end.

Definition q_addtail : queue → Z → H → res (Z * queue * H) := q_addtail_d 1.
Definition q_grow : queue → Z → H → res (Z * queue * H) := q_grow_with (q_addtail_d 0).

Definition q_create (size : Z) (h : H) : res (option queue * H) :=
  '(q, h) ← kmalloc 16 h;
  if q =? NULL then mret (None, h)
  else
    let bytes := u32 (size * 4) in
    '(data, h) ← kmalloc bytes h;
    if data =? NULL then h ← kfree q h; mret (None, h)
    else mret (Some (Queue q size 0 0 data (replicate (Z.to_nat (bytes / 4)) None)), h).

Definition q_preallocate (q : queue) (size : Z) (h : H) : res (Z * queue * H) :=
  _ ← check (q_size q >? 0);
  if size >? q_size q then q_grow q size h else mret (0, q, h).

Definition q_remhead (q : queue) : res (Z * queue) :=
  _ ← check (q_size q >? 0);
  _ ← check (negb (q_empty q));
  ret ← rd (q_data q) (q_nextread q);
  nr ← cmod (q_nextread q + 1) (q_size q);
  mret (ret, q_set_nextread q nr).

Definition q_destroy (q : queue) (h : H) : res H :=
  _ ← check (q_empty q);
  h ← kfree (q_dptr q) h;
  kfree (q_self q) h.

Definition q_getstart (q : queue) : Z := q_nextread q.
Definition q_getend (q : queue) : Z := q_nextwrite q.
Definition q_getsize (q : queue) : Z := q_size q.

Definition q_getguy (q : queue) (index : Z) : res Z :=
  _ ← check ((0 <=? index) && (index <? q_size q));
  rd (q_data q) index.

(** ** Representation

    [q_slot q k] is the buffer index of the [k]-th element. *)

Definition q_slot (q : queue) (k : nat) : Z := (q_nextread q + Z.of_nat k) mod q_size q.

Definition queue_rep (q : queue) (l : list Z) : Prop :=
  0 < q_size q ∧ q_size q = zlen (q_data q) ∧
  0 ≤ q_nextread q < q_size q ∧ zlen l < q_size q ∧
  q_nextwrite q = q_slot q (length l) ∧
  ∀ k x, l !! k = Some x → q_data q !! Z.to_nat (q_slot q k) = Some (Some x).

Definition queue_blocks (q : queue) : gset Z := {[q_self q; q_dptr q]}.

Definition queue_inv (q : queue) (l : list Z) (h : H) : Prop :=
  kh_inv h ∧ queue_rep q l ∧ queue_blocks q ⊆ kh_live h ∧ q_self q ≠ q_dptr q.

Definition queue_frame (q : queue) (h : H) : gset Z := kh_live h ∖ queue_blocks q.

Definition queue_kept (q : queue) (h : H) (l : list Z) (q' : queue) (h' : H) : Prop :=
  queue_inv q' l h' ∧ queue_frame q' h' = queue_frame q h ∧ q_self q' = q_self q.

Lemma cmod_nonneg a b : 0 ≤ a → 0 < b → cmod a b = Ok (a mod b).
Proof.
  intros. unfold cmod. replace (b =? 0) with false by lia.
  by rewrite Z.rem_mod_nonneg.
Qed.

Lemma q_slot_range q k : 0 < q_size q → 0 ≤ q_slot q k < q_size q.
Proof. intros. unfold q_slot. apply Z.mod_pos_bound. lia. Qed.

Lemma q_slot_succ q k : 0 < q_size q → q_slot q (S k) = (q_slot q k + 1) mod q_size q.
Proof.
  intros. unfold q_slot. rewrite Z.add_mod_idemp_l by lia. f_equal. lia.
Qed.

Lemma q_slot_inj q j k :
  0 < q_size q → Z.of_nat j < q_size q → Z.of_nat k < q_size q →
  q_slot q j = q_slot q k → j = k.
Proof.
  intros Hs Hj Hk Heq. unfold q_slot in Heq.
  assert ((Z.of_nat j - Z.of_nat k) mod q_size q = 0) as Hz.
  { replace (Z.of_nat j - Z.of_nat k)
      with ((q_nextread q + Z.of_nat j) - (q_nextread q + Z.of_nat k)) by lia.
    rewrite Zminus_mod, Heq, Z.sub_diag. apply Z.mod_0_l. lia. }
  apply Z.mod_divide in Hz as [c Hc]; [|lia].
  assert (-1 < c) by nia. assert (c < 1) by nia. assert (c = 0) as -> by lia. lia.
Qed.

Lemma q_slot_0 q : 0 ≤ q_nextread q < q_size q → q_slot q 0 = q_nextread q.
Proof. intros. unfold q_slot. rewrite Z.add_0_r. apply Z.mod_small. lia. Qed.

Lemma q_empty_rep q l : queue_rep q l → q_empty q = bool_decide (l = []).
Proof.
  intros (Hs & _ & Hr & Hl & Hw & _). unfold q_empty.
  rewrite Hw, <- (q_slot_0 q) by done. apply eq_bool_prop_intro.
  rewrite !Is_true_true, bool_decide_eq_true, Z.eqb_eq. split.
  - intros Heq%q_slot_inj; [|lia..]. by apply length_zero_iff_nil.
  - by intros ->.
Qed.

(** Full means that one more element would make the indices meet. *)
Lemma q_full_rep q l :
  queue_rep q l →
  ((q_nextwrite q + 1) mod q_size q =? q_nextread q) = (zlen l + 1 =? q_size q).
Proof.
  intros (Hs & _ & Hr & Hl & Hw & _). rewrite Hw, <- q_slot_succ by done.
  apply eq_bool_prop_intro. rewrite !Is_true_true, !Z.eqb_eq. split.
  - intros Heq. destruct (decide (zlen l + 1 < q_size q)); [|lia].
    rewrite <- (q_slot_0 q) in Heq by done. apply q_slot_inj in Heq; [done|lia..].
  - intros Heq. unfold q_slot. replace (q_nextread q + Z.of_nat (S (length l)))
      with (q_nextread q + 1 * q_size q) by lia.
    rewrite Z.mod_add by lia. apply Z.mod_small. lia.
Qed.

(** Storing one more element into a queue with room. *)
Lemma q_push_rep q l x :
  queue_rep q l → zlen l + 1 < q_size q →
  wp (setz (q_data q) (q_nextwrite q) (Some x)) (λ data,
    queue_rep (Queue (q_self q) (q_size q) ((q_nextwrite q + 1) mod q_size q)
                 (q_nextread q) (q_dptr q) data) (l ++ [x])).
Proof.
  intros (Hs & Hd & Hr & Hl & Hw & Hlk) Hroom.
  assert (0 ≤ q_nextwrite q < q_size q) by (rewrite Hw; by apply q_slot_range).
  apply wp_setz; [lia|]. unfold queue_rep; simpl. rewrite length_insert, length_app; simpl.
  split_and!; try done; try lia.
  - unfold q_slot; simpl. rewrite Hw. unfold q_slot.
    rewrite Z.add_mod_idemp_l by lia. f_equal. lia.
  - intros k y Hk. unfold q_slot; simpl. fold (q_slot q k).
    destruct (decide (k = length l)) as [->|Hne].
    + rewrite lookup_app_r, Nat.sub_diag in Hk by lia. simplify_eq/=.
      rewrite <- Hw. apply list_lookup_insert_eq. lia.
    + pose proof (lookup_lt_Some _ _ _ Hk) as Hlt. rewrite length_app in Hlt; simpl in Hlt.
      rewrite lookup_app_l in Hk by lia. rewrite list_lookup_insert_ne; [by apply Hlk|].
      pose proof (q_slot_range q k Hs). intros Heq. apply Hne.
      apply (q_slot_inj q); lia.
Qed.

Lemma q_nextwrite_range q l : queue_rep q l → 0 ≤ q_nextwrite q < q_size q.
Proof. intros (Hs & _ & _ & _ & -> & _). by apply q_slot_range. Qed.

Lemma q_addtail_room (grow : queue → Z → H → res (Z * queue * H)) q l x h :
  queue_rep q l → zlen l + 1 < q_size q →
  wp (q_addtail_with grow q x h) (λ '(r, q', h'),
    r = 0 ∧ h' = h ∧ queue_rep q' (l ++ [x]) ∧ q_self q' = q_self q ∧
    q_dptr q' = q_dptr q ∧ q_size q' = q_size q ∧ q_nextread q' = q_nextread q).
Proof.
  intros Hrep Hroom. pose proof (q_full_rep _ _ Hrep) as Hfull.
  pose proof (q_nextwrite_range _ _ Hrep). pose proof Hrep as (Hs & _).
  unfold q_addtail_with. wp_step. rewrite cmod_nonneg by lia. wp_val. rewrite Hfull.
  replace (zlen l + 1 =? q_size q) with false by lia. wp_val. simpl.
  wp_call q_push_rep; [done|done|]. by intros data Hdata.
Qed.

Lemma q_newsize_spec target n :
  0 < n → n < 2 ^ 28 → target ≤ 2 ^ 28 →
  wp (q_newsize target n) (λ n', target ≤ n' ∧ n ≤ n' ∧ (n' = n ∨ n' < 2 * target)).
Proof.
  intros Hn Hn2 Ht. unfold q_newsize.
  eapply (wp_while_loop
    (λ k, n ≤ k ∧ (k = n ∨ k < 2 * target)) _ (λ k, Z.to_nat (40 - Z.log2 k))).
  - lia.
  - pose proof (Z.log2_nonneg n). lia.
  - intros k [Hk Hk']. destruct (k <? target) eqn:E; [|wp_val; simpl; lia].
    rewrite s32_id by in_range. wp_step. simpl. split; [lia|].
    replace (k * 2) with (2 * k) by lia. rewrite Z.log2_double by lia.
    assert (Z.log2 k ≤ Z.log2 (2 ^ 30)) by (apply Z.log2_le_mono; lia).
    rewrite Z.log2_pow2 in * by lia. lia.
Qed.

(** The copying loop of [q_grow]: after [k] rounds the new buffer holds the
    oldest [k] elements, in slots [0 .. k-1]. *)
Definition grow_loop_inv (q : queue) (l : list Z) (q0 : queue) (h0 : H)
    (s : Z * queue * H) : Prop :=
  let '(i, q', h') := s in
  ∃ k, (k ≤ length l)%nat ∧ i = q_slot q k ∧ queue_rep q' (take k l) ∧ h' = h0 ∧
    q_nextread q' = 0 ∧ q_self q' = q_self q0 ∧ q_dptr q' = q_dptr q0 ∧
    q_size q' = q_size q0.

Lemma grow_loop_step (grow : queue → Z → H → res (Z * queue * H)) q l q0 h0 k q' :
  queue_rep q l → zlen l < q_size q0 → (k < length l)%nat →
  grow_loop_inv q l q0 h0 (q_slot q k, q', h0) →
  wp (x ← rd (q_data q) (q_slot q k);
      '(result, q1, h1) ← q_addtail_with grow q' x h0;
      _ ← check (result =? 0);
      i ← cmod (q_slot q k + 1) (q_size q);
      mret (inl (i, q1, h1)))
    (loop_post (R := queue * H) (λ t, grow_loop_inv q l q0 h0 t ∧
       (Z.to_nat (q_size q - q_nextwrite t.1.2) <
        Z.to_nat (q_size q - q_nextwrite q'))%nat) (λ _, False)).
Proof.
  intros Hrep Hsz Hk (k' & Hk' & Hslot & Hr' & _ & Hnr & Hse & Hdp & Hsi).
  pose proof Hrep as (Hs & Hd & Hr & Hl & Hw & Hlk).
  apply q_slot_inj in Hslot as <-; [|lia..].
  destruct (lookup_lt_is_Some_2 l k Hk) as [x Hx].
  assert (q_nextwrite q' = Z.of_nat k) as Hnw.
  { destruct Hr' as (? & ? & ? & ? & -> & _). unfold q_slot.
    rewrite Hnr, length_take, Nat.min_l by lia. apply Z.mod_small. lia. }
  pose proof (q_slot_range q k Hs). rewrite wp_bind.
  eapply wp_rd; [lia|by apply Hlk|].
  wp_call (q_addtail_room grow q' (take k l)); [done|lens|].
  intros [[r q1] h1] (-> & -> & Hr1 & Hse1 & Hdp1 & Hsi1 & Hnr1). wp_step.
  rewrite cmod_nonneg, <- q_slot_succ by lia. wp_val. simpl.
  rewrite <- (take_S_r _ _ x) in Hr1 by done. split.
  - exists (S k). split_and!; try congruence; lia.
  - assert (q_nextwrite q1 = Z.of_nat (S k)) as ->; [|lia].
    destruct Hr1 as (? & ? & ? & ? & -> & _). unfold q_slot.
    rewrite Hnr1, Hnr, length_take, Nat.min_l by lia. apply Z.mod_small. lia.
Qed.

Lemma q_grow_full d q l h target :
  queue_inv q l h → q_size q < 2 ^ 28 → target ≤ 2 ^ 28 →
  8 * target < kh_max → 4 * q_size q < kh_max →
  wp (q_grow_with (q_addtail_d d) q target h) (λ '(r, q', h'),
   ((r = 0 ∧ queue_kept q h l q' h' ∧ target ≤ q_size q' ∧ q_size q ≤ q_size q' ∧
      (q_size q' = q_size q ∨ q_size q' < 2 * target)) ∨
    (r = ENOMEM ∧ q' = q ∧ kh_inv h' ∧ kh_live h' = kh_live h)) ∧ rooms 1 h (r = 0) h').
Proof.
  intros (Hi & Hrep & Hb & Hne) Hsz Htg Hk1 Hk2. pose proof kh_max_bound.
  pose proof Hrep as (Hs & Hd & Hr & Hl & Hw & Hlk). unfold q_grow_with.
  wp_call q_newsize_spec; [lia..|]. intros n (Hn1 & Hn2 & Hn3).
  rewrite u32_id by in_range.
  wp_call kmalloc_full; [done|lia|].
  intros [p h1] [[Hi1 [[-> Hl1]|(Hp1 & Hnew & Hl1)]] Hroom]; simpl; [wp_val; split; [by right|no_room]|].
  replace (p =? NULL) with false by lia. rewrite Z.div_mul by lia.
  set (q0 := Queue (q_self q) n 0 0 p (replicate (Z.to_nat n) None)).
  assert (grow_loop_inv q l q0 h1 (q_nextread q, q0, h1)) as Hinit.
  { exists O. split_and!; try done; [lia|by rewrite q_slot_0|].
    unfold queue_rep, q_slot; simpl. rewrite length_replicate. split_and!; try lia.
    - rewrite Z.mod_0_l; lia.
    - intros k x Hx. destruct k; done. }
  rewrite wp_bind. eapply wp_mono.
  - apply (wp_while_loop (grow_loop_inv q l q0 h1)
      (λ '(q', h'), grow_loop_inv q l q0 h1 (q_nextwrite q, q', h'))
      (λ t, Z.to_nat (q_size q - q_nextwrite t.1.2))); [done|simpl; lia|].
    intros [[i q'] h'] Hinv. pose proof Hinv as (k & Hk & -> & Hr' & -> & Hrest).
    destruct (q_slot q k =? q_nextwrite q) eqn:E.
    + wp_val. simpl. by apply Z.eqb_eq in E as <-.
    + assert (k < length l)%nat as Hlt.
      { destruct (decide (k = length l)) as [->|]; [|lia]. lia. }
      pose proof (grow_loop_step
        (match d with O => λ _ _ _, Fault FLoop | S d => q_grow_with (q_addtail_d d) end)
        q l q0 h1 k q' Hrep ltac:(simpl; lia) Hlt Hinv) as Hstep.
      replace (q_addtail_d d) with (q_addtail_with
        (match d with O => λ _ _ _, Fault FLoop | S d => q_grow_with (q_addtail_d d) end))
        by (by destruct d).
      eapply wp_mono; [exact Hstep|]. by intros [t|[]].
  - intros [q1 h2] (k & Hk & Hslot & Hr1 & -> & Hnr1 & Hse1 & Hdp1 & Hsi1).
    rewrite Hw in Hslot. apply q_slot_inj in Hslot as <-; [|lia..].
    rewrite take_ge in Hr1 by lia. unfold queue_blocks in Hb.
    wp_call kfree_full; [done|set_solver|]. intros h3 [[Hi3 Hl3] Hroom3]. wp_val.
    split; [|by eapply (rooms_bind 1 0 _ h1); [done|intros _; by eapply rooms_mono]]. left.
    unfold queue_kept, queue_inv, queue_frame, queue_blocks.
    rewrite Hse1, Hdp1, Hsi1, Hl3, Hl1. simpl.
    assert (q_dptr q ≠ p ∧ q_self q ≠ p) as [? ?] by set_solver.
    split_and!; try done; try lia; set_solver.
Qed.

Lemma q_grow_spec d q l h target :
  queue_inv q l h → q_size q < 2 ^ 28 → target ≤ 2 ^ 28 →
  8 * target < kh_max → 4 * q_size q < kh_max →
  wp (q_grow_with (q_addtail_d d) q target h) (λ '(r, q', h'),
    (r = 0 ∧ queue_kept q h l q' h' ∧ target ≤ q_size q' ∧ q_size q ≤ q_size q' ∧
      (q_size q' = q_size q ∨ q_size q' < 2 * target)) ∨
    (r = ENOMEM ∧ q' = q ∧ kh_inv h' ∧ kh_live h' = kh_live h)).
Proof. intros. eapply wp_mono; [by apply (q_grow_full d q l)|]. by intros [[r q'] h'] [? _]. Qed.

(** Appending: in the kernel's terms, [q_addtail] either puts the pointer at the
    end of the queue or reports ENOMEM and leaves the queue as it was. *)
Lemma q_addtail_spec q l h x :
  queue_inv q l h → q_size q < 2 ^ 27 → 8 * (q_size q + 1) < kh_max →
  wp (q_addtail q x h) (λ '(r, q', h'),
    (r = 0 ∧ queue_kept q h (l ++ [x]) q' h' ∧ q_size q ≤ q_size q' ∧
      (q_size q' = q_size q ∨ q_size q' < 2 * (zlen l + 2))) ∨
    (r = ENOMEM ∧ q' = q ∧ kh_inv h' ∧ kh_live h' = kh_live h)).
Proof.
  intros Hinv Hsz Hk. pose proof Hinv as (Hi & Hrep & Hb & Hne).
  pose proof (q_full_rep _ _ Hrep) as Hfull.
  pose proof Hrep as (Hs & Hd & Hr & Hl & Hw & Hlk).
  assert (0 ≤ q_nextwrite q < q_size q) by (rewrite Hw; by apply q_slot_range).
  destruct (decide (zlen l + 1 < q_size q)) as [Hroom|Hno].
  - eapply wp_mono; [by apply q_addtail_room|].
    intros [[r q'] h'] (-> & -> & Hr' & Hse & Hdp & Hsi & _). left.
    unfold queue_kept, queue_inv, queue_frame, queue_blocks in *. rewrite Hse, Hdp.
    split_and!; try done; [lia|by left].
  - unfold q_addtail, q_addtail_d, q_addtail_with at 1. wp_step.
    rewrite cmod_nonneg by lia. wp_val. rewrite Hfull.
    replace (zlen l + 1 =? q_size q) with true by lia. rewrite !wp_bind.
    eapply wp_mono; [apply (q_grow_spec 0 q l h); [done|lia..]|].
    intros [[r q1] h1] [(-> & ((Hi1 & Hr1 & Hb1 & Hne1) & Hf1 & Hs1) & Hge & _ & Hup)
                       |(-> & -> & Hi1 & Hl1)]; simpl; [|wp_val; simpl; wp_val; by right].
    pose proof (q_nextwrite_range _ _ Hr1). rewrite cmod_nonneg by lia. wp_val. simpl.
    wp_call q_push_rep; [done|lia|]. intros data Hdata. wp_val. left.
    split_and!; try done; simpl; lia.
Qed.

Lemma q_remhead_spec q x l :
  queue_rep q (x :: l) →
  wp (q_remhead q) (λ '(y, q'), y = x ∧ queue_rep q' l ∧ q_self q' = q_self q ∧
    q_dptr q' = q_dptr q ∧ q_size q' = q_size q).
Proof.
  intros Hrep. pose proof (q_empty_rep _ _ Hrep) as He.
  destruct Hrep as (Hs & Hd & Hr & Hl & Hw & Hlk). unfold q_remhead. wp_step.
  rewrite wp_check. split; [by rewrite He, bool_decide_false|].
  pose proof (Hlk O x eq_refl) as Hx0. rewrite q_slot_0 in Hx0 by done.
  rewrite wp_bind. eapply wp_rd; [lia|done|]. rewrite cmod_nonneg by lia. wp_val.
  split; [done|]. unfold queue_rep, q_slot; simpl in *.
  pose proof (Z.mod_pos_bound (q_nextread q + 1) (q_size q) Hs). split_and!; try done; try lia.
  - rewrite Hw. unfold q_slot. rewrite Z.add_mod_idemp_l by lia. f_equal. lia.
  - intros k y Hk. rewrite <- (Hlk (S k) y Hk). unfold q_slot.
    rewrite Z.add_mod_idemp_l by lia. do 3 f_equal. lia.
Qed.

Lemma q_remhead_empty q : queue_rep q [] → q_remhead q = Fault FPanic.
Proof.
  intros Hrep. pose proof (q_empty_rep _ _ Hrep) as He.
  destruct Hrep as (Hs & _). unfold q_remhead, check. rewrite He.
  by replace (q_size q >? 0) with true by lia.
Qed.

Lemma q_create_spec size h :
  kh_inv h → 0 < size < 2 ^ 28 → 16 < kh_max → 4 * size < kh_max →
  wp (q_create size h) (λ '(oq, h'),
    match oq with
    | None => kh_inv h' ∧ kh_live h' = kh_live h
    | Some q => queue_inv q [] h' ∧ queue_frame q h' = kh_live h ∧ q_size q = size
    end).
Proof.
  intros Hi Hsz Hk1 Hk2. unfold q_create. wp_call kmalloc_law; [done|lia|].
  intros [p h1] [Hi1 [[-> Hl1]|(Hp1 & Hnew1 & Hl1)]]; simpl; [by wp_val|].
  replace (p =? NULL) with false by lia. rewrite u32_id by in_range.
  wp_call kmalloc_law; [done|lia|].
  intros [d h2] [Hi2 [[-> Hl2]|(Hp2 & Hnew2 & Hl2)]]; simpl.
  - wp_call kfree_law; [done|set_solver|]. intros h3 [Hi3 Hl3]. wp_val.
    split; [done|]. rewrite Hl3, Hl2, Hl1. set_solver.
  - replace (d =? NULL) with false by lia. wp_val. rewrite Z.div_mul by lia.
    unfold queue_inv, queue_frame, queue_blocks, queue_rep, q_slot; simpl.
    rewrite length_replicate, Hl2, Hl1.
    split_and!; try done; try lia; try set_solver.
Qed.

Lemma q_destroy_spec q h :
  queue_inv q [] h →
  wp (q_destroy q h) (λ h', kh_inv h' ∧ kh_live h' = queue_frame q h).
Proof.
  intros (Hi & Hrep & Hb & Hne). pose proof (q_empty_rep _ _ Hrep) as He.
  unfold q_destroy, queue_frame, queue_blocks in *. rewrite He. wp_step.
  wp_call kfree_law; [done|set_solver|]. intros h1 [Hi1 Hl1].
  eapply wp_mono; [apply kfree_law; [done|set_solver]|].
  intros h2 [Hi2 Hl2]. split; [done|]. rewrite Hl2, Hl1. set_solver.
Qed.

Lemma q_preallocate_full q l h size :
  queue_inv q l h → q_size q < 2 ^ 28 → size ≤ 2 ^ 28 →
  8 * size < kh_max → 4 * q_size q < kh_max →
  wp (q_preallocate q size h) (λ '(r, q', h'),
   ((r = 0 ∧ queue_kept q h l q' h' ∧ size ≤ q_size q' ∧ q_size q ≤ q_size q' ∧
      (q_size q' = q_size q ∨ q_size q' < 2 * size)) ∨
    (r = ENOMEM ∧ q' = q ∧ kh_inv h' ∧ kh_live h' = kh_live h)) ∧ rooms 1 h (r = 0) h').
Proof.
  intros Hinv ????. pose proof Hinv as (_ & (Hs & _) & _).
  unfold q_preallocate. wp_step. destruct (size >? q_size q) eqn:E.
  - by apply q_grow_full.
  - wp_val. split; [|by apply (rooms_le 0); [apply rooms_refl|lia]]. left. split_and!; try done; lia.
Qed.

Lemma q_preallocate_spec q l h size :
  queue_inv q l h → q_size q < 2 ^ 28 → size ≤ 2 ^ 28 →
  8 * size < kh_max → 4 * q_size q < kh_max →
  wp (q_preallocate q size h) (λ '(r, q', h'),
    (r = 0 ∧ queue_kept q h l q' h' ∧ size ≤ q_size q' ∧ q_size q ≤ q_size q' ∧
      (q_size q' = q_size q ∨ q_size q' < 2 * size)) ∨
    (r = ENOMEM ∧ q' = q ∧ kh_inv h' ∧ kh_live h' = kh_live h)).
Proof. intros. eapply wp_mono; [by apply (q_preallocate_full q l)|]. by intros [[r q'] h'] [? _]. Qed.

(** ** First in, first out

    A script of operations on a queue, against the same script on a list. *)

Inductive queue_op := OpEnq (x : Z) | OpDeq | OpEmpty.

#[local] Instance queue_op_eq_dec : EqDecision queue_op.
Proof. solve_decision. Defined.

Definition queue_do (o : queue_op) (q : queue) (h : H) : res (Z * queue * H) :=
  match o with
  | OpEnq x => q_addtail q x h
  | OpDeq => '(x, q) ← q_remhead q; mret (x, q, h)
  | OpEmpty => mret (if q_empty q then 1 else 0, q, h)
  end.

Fixpoint queue_run (ops : list queue_op) (q : queue) (h : H) : res (list Z * queue * H) :=
  match ops with
  | [] => mret ([], q, h)
  | o :: ops =>
      '(r, q, h) ← queue_do o q h;
      '(rs, q, h) ← queue_run ops q h;
      mret (r :: rs, q, h)
  end.

Inductive fifo_step : list Z → queue_op → Z → list Z → Prop :=
| fs_enq l x : fifo_step l (OpEnq x) 0 (l ++ [x])
| fs_full l x : fifo_step l (OpEnq x) ENOMEM l
| fs_deq l x : fifo_step (x :: l) OpDeq x l
| fs_empty l : fifo_step l OpEmpty (if bool_decide (l = []) then 1 else 0) l.

Inductive fifo_run : list Z → list queue_op → list Z → option (list Z) → Prop :=
| fr_done l : fifo_run l [] [] (Some l)
| fr_step l o r l' ops rs f :
    fifo_step l o r l' → fifo_run l' ops rs f → fifo_run l (o :: ops) (r :: rs) f
| fr_panic ops : fifo_run [] (OpDeq :: ops) [] None.

Lemma queue_kept_same q h l q' l' :
  queue_inv q l h → queue_rep q' l' → q_self q' = q_self q → q_dptr q' = q_dptr q →
  queue_kept q h l' q' h.
Proof.
  intros (Hi & _ & Hb & Hne) Hr Hs Hv.
  unfold queue_kept, queue_inv, queue_frame, queue_blocks in *. by rewrite Hs, Hv.
Qed.

Lemma queue_kept_live q h l h' :
  queue_inv q l h → kh_inv h' → kh_live h' = kh_live h → queue_kept q h l q h'.
Proof.
  intros (Hi & Hr & Hb & Hne) Hi' Hl. unfold queue_kept, queue_inv, queue_frame. by rewrite Hl.
Qed.

Lemma fifo_step_length l o r l' : fifo_step l o r l' → (length l' ≤ S (length l))%nat.
Proof. destruct 1; rewrite ?length_app; simpl; lia. Qed.

(** [N] bounds the number of elements the script can put in the queue. *)
Lemma queue_do_spec o q l h N :
  queue_inv q l h → zlen l + 1 ≤ N → q_size q ≤ 2 * (N + 1) → N < 2 ^ 25 →
  8 * (2 * (N + 1) + 1) < kh_max → (o = OpDeq → l ≠ []) →
  wp (queue_do o q h) (λ '(r, q', h'),
    ∃ l', fifo_step l o r l' ∧ queue_kept q h l' q' h' ∧ q_size q' ≤ 2 * (N + 1)).
Proof.
  intros Hinv Hl HN HN2 Hk Hdeq. pose proof Hinv as (Hi & Hr & _).
  destruct o as [x| |]; simpl.
  - eapply wp_mono; [apply q_addtail_spec; [done|lia..]|].
    intros [[r q'] h'] [(-> & Hkept & _ & Hup)|(-> & -> & ? & ?)].
    + eexists. split_and!; [constructor|done|lia].
    + eexists. split_and!; [constructor|by apply queue_kept_live|lia].
  - destruct l as [|x l]; [by destruct (Hdeq eq_refl)|].
    wp_call q_remhead_spec; [done|]. intros [y q'] (-> & ? & ? & ? & Hs). wp_val.
    exists l. split_and!; [constructor|by eapply queue_kept_same|lia].
  - wp_val. rewrite (q_empty_rep _ _ Hr). exists l.
    split_and!; [constructor|by apply (queue_kept_same _ _ l)|lia].
Qed.

(** C14: a script of [q_addtail], [q_remhead] and [q_empty] on a kernel queue answers
    what the script answers on a first-in-first-out list, where [q_addtail] may also
    report ENOMEM and change nothing; growing the ring buffer loses, duplicates and
    reorders nothing.  The script stops only with the assertion of [q_remhead], and only
    where the list is empty. *)
Theorem queue_refines_fifo ops q l h N :
  queue_inv q l h → zlen l + zlen ops ≤ N → q_size q ≤ 2 * (N + 1) → N < 2 ^ 25 →
  8 * (2 * (N + 1) + 1) < kh_max →
  match queue_run ops q h with
  | Ok (rs, q', h') => ∃ l', fifo_run l ops rs (Some l') ∧ queue_kept q h l' q' h'
  | Fault f => f = FPanic ∧ ∃ rs, fifo_run l ops rs None
  end.
Proof.
  intros Hinv Hl HN HN2 Hk. revert q l h Hinv Hl HN.
  induction ops as [|o ops IH]; intros q l h Hinv Hl HN.
  { exists l. split; [constructor|]. destruct Hinv as (Hi & Hr & Hb & Hne). done. }
  simpl in *. destruct (decide (o = OpDeq ∧ l = [])) as [[-> ->]|Hok].
  { simpl. rewrite (q_remhead_empty _ (proj1 (proj2 Hinv))). simpl.
    split; [done|]. eexists. constructor. }
  assert (wp (queue_do o q h) (λ '(r, q', h'),
    ∃ l', fifo_step l o r l' ∧ queue_kept q h l' q' h' ∧ q_size q' ≤ 2 * (N + 1))) as Hdo
    by (apply queue_do_spec; [done|lia..|naive_solver]).
  apply wp_exists in Hdo as ([[r q1] h1] & -> & l1 & Hst & (Hinv1 & Hf1 & Hs1) & Hsz). simpl.
  pose proof (fifo_step_length _ _ _ _ Hst).
  specialize (IH q1 l1 h1 Hinv1 ltac:(lia) Hsz).
  destruct (queue_run ops q1 h1) as [[[rs q2] h2]|f]; simpl.
  - destruct IH as (l2 & Hrun & (? & Hf2 & Hs2)). exists l2. split; [by econstructor|].
    split_and!; [done|congruence|congruence].
  - destruct IH as (-> & rs & Hrun). split; [done|]. eexists. by econstructor.
Qed.

(** Once [q_preallocate] has reserved [size] slots, [q_addtail] succeeds without
    touching the heap while fewer than [size - 1] elements are queued. *)
Theorem q_preallocated_room q l h size :
  queue_inv q l h → q_size q < 2 ^ 28 → size ≤ 2 ^ 28 →
  8 * size < kh_max → 4 * q_size q < kh_max →
  wp (q_preallocate q size h) (λ '(r, q', h'), r = 0 →
    queue_inv q' l h' ∧
    ∀ xs, zlen l + zlen xs < size →
      ∃ q'', queue_run (OpEnq <$> xs) q' h' = Ok (replicate (length xs) 0, q'', h') ∧
             queue_inv q'' (l ++ xs) h').
Proof.
  intros Hinv Hs1 Hs2 Hk1 Hk2.
  eapply wp_mono; [by apply q_preallocate_spec|].
  intros [[r q'] h'] [(-> & (Hinv' & _ & _) & Hge & _)|(-> & _)]; [intros _|done].
  split; [done|]. clear -Hinv' Hge. intros xs. revert q' l Hinv' Hge.
  induction xs as [|x xs IH]; intros q' l Hinv Hge Hlt.
  { exists q'. by rewrite app_nil_r. }
  rewrite fmap_cons. cbn [queue_run queue_do length] in *.
  pose proof Hinv as (Hi & Hr & Hb & Hne).
  assert (Hadd : wp (q_addtail q' x h') (λ '(r, q1, h1),
    r = 0 ∧ h1 = h' ∧ queue_rep q1 (l ++ [x]) ∧ q_self q1 = q_self q' ∧
    q_dptr q1 = q_dptr q' ∧ q_size q1 = q_size q' ∧ q_nextread q1 = q_nextread q'))
    by (apply q_addtail_room; [done|lia]).
  apply wp_exists in Hadd as ([[r q1] h1] & -> & -> & -> & Hr1 & Hse & Hdp & Hsz & _).
  cbn [mbind res_bind].
  destruct (IH q1 (l ++ [x])) as (q2 & -> & Hinv2).
  - unfold queue_inv, queue_blocks. by rewrite Hse, Hdp.
  - lia.
  - rewrite length_app; simpl. lia.
  - simpl. exists q2. split; [done|]. by rewrite <- app_assoc in Hinv2.
Qed.
End queue.

(** A ring of two slots that holds one element and has wrapped around. *)
Definition demo_queue : queue := Queue 1 2 0 1 2 [None; Some 5].
Definition demo_queue_heap : refheap := RefHeap 3 3 {[1; 2]}.

Lemma demo_queue_inv : queue_inv demo_queue [5] demo_queue_heap.
Proof.
  split; [split; [done|split; [done|]]|split; [|split; [vm_compute; set_solver|done]]].
  - intros p Hp. unfold demo_queue_heap in *; simpl in *. set_unfold. lia.
  - do 5 (split; [done|]). intros [|k] x; by inversion 1.
Qed.

Lemma queue_refines_fifo_witness :
  ∃ q' h', queue_run [OpEnq 6; OpEnq 7; OpDeq; OpDeq; OpEmpty] demo_queue demo_queue_heap
             = Ok ([0; 0; 5; 6; 0], q', h') ∧
  ∃ l', fifo_run [5] [OpEnq 6; OpEnq 7; OpDeq; OpDeq; OpEmpty] [0; 0; 5; 6; 0] (Some l').
Proof.
  eexists _, _. split; [vm_compute; reflexivity|].
  pose proof (queue_refines_fifo [OpEnq 6; OpEnq 7; OpDeq; OpDeq; OpEmpty]
    demo_queue [5] demo_queue_heap 6 demo_queue_inv ltac:(simpl; lia) ltac:(simpl; lia)
    ltac:(lia) ltac:(simpl; lia)) as Hw.
  revert Hw. vm_compute. intros (l' & Hrun & _). by exists l'.
Defined.

Lemma q_preallocated_room_witness :
  ∃ q' h', q_preallocate demo_queue 4 demo_queue_heap = Ok (0, q', h') ∧
    ∃ q'', queue_run [OpEnq 6; OpEnq 7] q' h' = Ok ([0; 0], q'', h').
Proof.
  eexists _, _. split; [vm_compute; reflexivity|].
  pose proof (q_preallocated_room demo_queue [5] demo_queue_heap 4 demo_queue_inv
    ltac:(simpl; lia) ltac:(simpl; lia) ltac:(simpl; lia) ltac:(simpl; lia)) as Hw.
  eapply wp_inv in Hw; [|vm_compute; reflexivity]. destruct (Hw eq_refl) as [_ Hxs].
  destruct (Hxs [6; 7] ltac:(simpl; lia)) as (q'' & Hrun & _). by exists q''.
Defined.
