(* ===== verification/KBitmap.v ===== *)
(** * Bitmaps (kern/lib/bitmap.c)

    [bitmap] is [struct bitmap]: a bit count and a vector of bytes.  The bits
    past the end of the last byte are kept set so that [bitmap_alloc] never
    hands them out.  [bm_bit b i] is the abstract value: whether bit [i] is
    marked. *)

From S2P Require Import Prelude Heap.

Definition BITS_PER_WORD : Z := 8.
Definition WORD_ALLBITS : Z := 255.

Record bitmap := Bitmap { bm_self : Z; bm_nbits : Z; bm_vptr : Z; bm_v : list Z }.

Definition bm_set_v (b : bitmap) (v : list Z) : bitmap :=
  Bitmap (bm_self b) (bm_nbits b) (bm_vptr b) v.

(** [v[ix] |= mask] and [v[ix] &= ~mask] on an unsigned char. *)
Definition or_byte (v : list Z) (ix mask : Z) : res (list Z) :=
  w ← v.[ix]; setz v ix (u8 (Z.lor w mask)).
Definition andnot_byte (v : list Z) (ix mask : Z) : res (list Z) :=
  w ← v.[ix]; setz v ix (u8 (Z.land w (Z.lnot mask))).

Definition bitmap_translate (bitno : Z) : Z * Z :=
  let ix := bitno / BITS_PER_WORD in
  let offset := bitno mod BITS_PER_WORD in
  (ix, u8 (Z.shiftl 1 offset)).

Section bitmap.
Context {H : Type} `{KHeapLaws H}.

Definition bitmap_create (nbits : Z) (h : H) : res (option bitmap * H) :=
  let words := DIVROUNDUP nbits BITS_PER_WORD in
  '(b, h) ← kmalloc 8 h;
  if b =? NULL then mret (None, h)
  else
    '(v, h) ← kmalloc (u32 (words * 1)) h;
    if v =? NULL then h ← kfree b h; mret (None, h)
    else
      let data := replicate (Z.to_nat words) 0 in
      data ←
        (if nbits / BITS_PER_WORD <? words then
           let ix := u32 (words - 1) in
           let overbits := u32 (nbits - u32 (ix * BITS_PER_WORD)) in
           _ ← check (nbits / BITS_PER_WORD =? u32 (words - 1));
           _ ← check ((overbits >? 0) && (overbits <? BITS_PER_WORD));
           for_range (Z.to_nat (BITS_PER_WORD - overbits)) overbits
             (λ j data, or_byte data ix (u8 (Z.shiftl 1 j))) data
         else mret data);
      mret (Some (Bitmap b nbits v data), h).

Definition bitmap_getdata (b : bitmap) : Z := bm_vptr b.

(** The result is the error code, the index (when the code is 0) and the bitmap. *)
Definition bitmap_alloc (b : bitmap) : res (Z * Z * bitmap) :=
  let maxix := DIVROUNDUP (bm_nbits b) BITS_PER_WORD in
  r ← for_loop (Z.to_nat maxix) 0 (λ ix _,
        w ← (bm_v b).[ix];
        if negb (w =? WORD_ALLBITS) then
          r ← for_loop 8 0 (λ offset _,
                let mask := u8 (Z.shiftl 1 offset) in
                w ← (bm_v b).[ix];
                if Z.land w mask =? 0 then
                  v ← or_byte (bm_v b) ix mask;
                  let index := u32 (u32 (ix * BITS_PER_WORD) + offset) in
                  _ ← check (index <? bm_nbits b);
                  mret (inr (0, index, bm_set_v b v))
                else mret (inl tt)) tt;
          match r with
          | inr x => mret (inr x)
          | inl _ => Fault FPanic
          end
        else mret (inl tt)) tt;
  match r with
  | inr x => mret x
  | inl _ => mret (ENOSPC, 0, b)
  end.

Definition bitmap_mark (b : bitmap) (index : Z) : res bitmap :=
  _ ← check (index <? bm_nbits b);
  let '(ix, mask) := bitmap_translate index in
  w ← (bm_v b).[ix];
  _ ← check (Z.land w mask =? 0);
  v ← or_byte (bm_v b) ix mask;
  mret (bm_set_v b v).

Definition bitmap_unmark (b : bitmap) (index : Z) : res bitmap :=
  _ ← check (index <? bm_nbits b);
  let '(ix, mask) := bitmap_translate index in
  w ← (bm_v b).[ix];
  _ ← check (negb (Z.land w mask =? 0));
  v ← andnot_byte (bm_v b) ix mask;
  mret (bm_set_v b v).

Definition bitmap_isset (b : bitmap) (index : Z) : res Z :=
  let '(ix, mask) := bitmap_translate index in
  w ← (bm_v b).[ix];
  mret (Z.land w mask).

Definition bitmap_destroy (b : bitmap) (h : H) : res H :=
  h ← kfree (bm_vptr b) h; kfree (bm_self b) h.
End bitmap.

(** ** Bits of bytes *)

Section bytes.
Implicit Types (w o k : Z).

Lemma mask_testbit o k : 0 ≤ o < 8 → 0 ≤ k → Z.testbit (u8 (Z.shiftl 1 o)) k = (k =? o).
Proof.
  intros Ho Hk. rewrite u8_id.
  - rewrite Z.shiftl_1_l, Z.pow2_bits_eqb by lia. apply Z.eqb_sym.
  - rewrite Z.shiftl_1_l. split; [apply Z.pow_nonneg; lia|].
    change 256 with (2 ^ 8). apply Z.pow_lt_mono_r; lia.
Qed.

Lemma land_mask_zero w o :
  0 ≤ o < 8 → (Z.land w (u8 (Z.shiftl 1 o)) =? 0) = negb (Z.testbit w o).
Proof.
  intros Ho. destruct (Z.testbit w o) eqn:E; simpl.
  - apply Z.eqb_neq. intros Hz.
    pose proof (f_equal (λ z, Z.testbit z o) Hz) as Hb. simpl in Hb.
    rewrite Z.land_spec, E, mask_testbit, Z.eqb_refl, Z.testbit_0_l in Hb by lia. done.
  - apply Z.eqb_eq, Z.bits_inj'. intros k Hk.
    rewrite Z.land_spec, mask_testbit, Z.testbit_0_l by lia.
    destruct (k =? o) eqn:Eo; [|apply andb_false_r].
    apply Z.eqb_eq in Eo as ->. by rewrite E.
Qed.

Lemma u8_testbit w k : 0 ≤ k < 8 → Z.testbit (u8 w) k = Z.testbit w k.
Proof. intros. unfold u8. apply Z.mod_pow2_bits_low. lia. Qed.

Lemma set_testbit w o k :
  0 ≤ o < 8 → 0 ≤ k < 8 →
  Z.testbit (u8 (Z.lor w (u8 (Z.shiftl 1 o)))) k = Z.testbit w k || (k =? o).
Proof. intros. rewrite u8_testbit, Z.lor_spec, mask_testbit by lia. done. Qed.

Lemma clear_testbit w o k :
  0 ≤ o < 8 → 0 ≤ k < 8 →
  Z.testbit (u8 (Z.land w (Z.lnot (u8 (Z.shiftl 1 o))))) k = Z.testbit w k && negb (k =? o).
Proof.
  intros. rewrite u8_testbit, Z.land_spec, Z.lnot_spec, mask_testbit by lia. done.
Qed.

Lemma u8_range w : 0 ≤ u8 w < 256.
Proof. unfold u8. apply Z.mod_pos_bound. lia. Qed.

Lemma byte_ext w w' :
  0 ≤ w < 256 → 0 ≤ w' < 256 →
  (∀ k, 0 ≤ k < 8 → Z.testbit w k = Z.testbit w' k) → w = w'.
Proof.
  intros Hw Hw' Hk. apply Z.bits_inj'. intros k Hk0. destruct (decide (k < 8)); [auto|].
  rewrite <- (u8_id w), <- (u8_id w') by done. unfold u8.
  by rewrite !Z.mod_pow2_bits_high by lia.
Qed.

(** A byte other than 0xff has a clear bit. *)
Lemma byte_not_full w :
  0 ≤ w < 256 → w ≠ WORD_ALLBITS → ∃ k, 0 ≤ k < 8 ∧ Z.testbit w k = false.
Proof.
  intros Hw Hne. destruct (decide (Forall (λ k, Z.testbit w k = true) (seqZ 0 8))) as [Ha|Hn].
  - exfalso. apply Hne. apply byte_ext; [done|unfold WORD_ALLBITS; lia|].
    intros k Hk. rewrite Forall_forall in Ha. rewrite (Ha k) by (apply elem_of_seqZ; lia).
    unfold WORD_ALLBITS. change 255 with (Z.ones 8). by rewrite Z.ones_spec_low by lia.
  - apply not_Forall_Exists in Hn; [|intros ?; apply _].
    apply Exists_exists in Hn as (k & Hk%elem_of_seqZ & Hb). exists k.
    split; [lia|]. by apply not_true_is_false.
Qed.
End bytes.

(** ** The abstract value of a bitmap *)

Definition vbit (v : list Z) (i : Z) : bool :=
  match v !! Z.to_nat (i / 8) with Some w => Z.testbit w (i mod 8) | None => false end.

Definition bm_bit (b : bitmap) (i : Z) : bool := vbit (bm_v b) i.

Definition bytes_ok (v : list Z) : Prop := Forall (λ w, 0 ≤ w < 256) v.

Definition bitmap_wf (b : bitmap) : Prop :=
  0 ≤ bm_nbits b ∧ bm_nbits b + 8 < 2 ^ 32 ∧
  zlen (bm_v b) = (bm_nbits b + 7) / 8 ∧ bytes_ok (bm_v b) ∧
  ∀ i, bm_nbits b ≤ i < 8 * zlen (bm_v b) → bm_bit b i = true.

(** Same shape, and the bits of [b'] are those of [b] except at [i]. *)
Definition bm_update (b b' : bitmap) (i : Z) (x : bool) : Prop :=
  bm_self b' = bm_self b ∧ bm_nbits b' = bm_nbits b ∧ bm_vptr b' = bm_vptr b ∧
  ∀ j, 0 ≤ j → bm_bit b' j = if j =? i then x else bm_bit b j.

Lemma div8_bits ix o : 0 ≤ o < 8 → (8 * ix + o) / 8 = ix ∧ (8 * ix + o) mod 8 = o.
Proof.
  intros. replace (8 * ix + o) with (o + ix * 8) by lia.
  rewrite Z.div_add, Z.mod_add, Z.div_small, Z.mod_small by lia. lia.
Qed.

Lemma DIVROUNDUP_8 n : 0 ≤ n → n + 8 < 2 ^ 32 → DIVROUNDUP n BITS_PER_WORD = (n + 7) / 8.
Proof.
  intros. unfold DIVROUNDUP, BITS_PER_WORD.
  unwrap. f_equal. lia.
Qed.

Lemma vbit_at v ix o w :
  0 ≤ ix → 0 ≤ o < 8 → v !! Z.to_nat ix = Some w → vbit v (8 * ix + o) = Z.testbit w o.
Proof.
  intros Hix Ho Hw. destruct (div8_bits ix o Ho) as [Hd Hm].
  unfold vbit. by rewrite Hd, Hm, Hw.
Qed.

(** Replacing one byte by one that differs only at bit [o]. *)
Lemma vbit_insert v ix o w w' x :
  0 ≤ ix → 0 ≤ o < 8 → v !! Z.to_nat ix = Some w →
  (∀ k, 0 ≤ k < 8 → Z.testbit w' k = if k =? o then x else Z.testbit w k) →
  ∀ j, 0 ≤ j →
  vbit (<[Z.to_nat ix := w']> v) j = if j =? 8 * ix + o then x else vbit v j.
Proof.
  intros Hix Ho Hw Hk j Hj. pose proof (Z.mod_pos_bound j 8 ltac:(lia)).
  pose proof (Z.div_mod j 8 ltac:(lia)). pose proof (lookup_lt_Some _ _ _ Hw).
  unfold vbit. destruct (decide (j / 8 = ix)) as [<-|Hne].
  - rewrite list_lookup_insert_eq, Hw by done. rewrite Hk by done.
    by replace (j mod 8 =? o) with (j =? 8 * (j / 8) + o) by lia.
  - assert (0 ≤ j / 8) by (apply Z.div_pos; lia).
    rewrite list_lookup_insert_ne by lia.
    by replace (j =? 8 * ix + o) with false by lia.
Qed.

Lemma wp_or_byte v ix o (Φ : list Z → Prop) :
  0 ≤ ix < zlen v → 0 ≤ o < 8 → bytes_ok v →
  (∀ v', length v' = length v → bytes_ok v' →
     (∀ j, 0 ≤ j → vbit v' j = if j =? 8 * ix + o then true else vbit v j) → Φ v') →
  wp (or_byte v ix (u8 (Z.shiftl 1 o))) Φ.
Proof.
  intros Hix Ho Hok HΦ. unfold or_byte. rewrite wp_bind. apply wp_getz; [done|].
  intros w Hw. apply wp_setz; [done|]. apply HΦ.
  - apply length_insert.
  - apply Forall_insert; [done|apply u8_range].
  - apply vbit_insert with w; [lia|done|done|]. intros k Hk. rewrite set_testbit by lia.
    destruct (k =? o); [apply orb_true_r|apply orb_false_r].
Qed.

Lemma wp_andnot_byte v ix o (Φ : list Z → Prop) :
  0 ≤ ix < zlen v → 0 ≤ o < 8 → bytes_ok v →
  (∀ v', length v' = length v → bytes_ok v' →
     (∀ j, 0 ≤ j → vbit v' j = if j =? 8 * ix + o then false else vbit v j) → Φ v') →
  wp (andnot_byte v ix (u8 (Z.shiftl 1 o))) Φ.
Proof.
  intros Hix Ho Hok HΦ. unfold andnot_byte. rewrite wp_bind. apply wp_getz; [done|].
  intros w Hw. apply wp_setz; [done|]. apply HΦ.
  - apply length_insert.
  - apply Forall_insert; [done|apply u8_range].
  - apply vbit_insert with w; [lia|done|done|]. intros k Hk. rewrite clear_testbit by lia.
    destruct (k =? o); [apply andb_false_r|apply andb_true_r].
Qed.

Lemma bm_index b i :
  bitmap_wf b → 0 ≤ i < bm_nbits b →
  0 ≤ i / 8 < zlen (bm_v b) ∧ 0 ≤ i mod 8 < 8 ∧ 8 * (i / 8) + i mod 8 = i.
Proof.
  intros (Hn & Hn2 & Hl & _) Hi. pose proof (Z.mod_pos_bound i 8 ltac:(lia)).
  pose proof (Z.div_mod i 8 ltac:(lia)). split_and!; try lia.
  rewrite Hl. apply Z.div_lt_upper_bound; [lia|].
  pose proof (Z.div_mod (bm_nbits b + 7) 8 ltac:(lia)).
  pose proof (Z.mod_pos_bound (bm_nbits b + 7) 8 ltac:(lia)). lia.
Qed.

(** An update below [nbits] keeps the bitmap well formed. *)
Lemma bm_update_wf b v i x :
  bitmap_wf b → 0 ≤ i < bm_nbits b → length v = length (bm_v b) → bytes_ok v →
  (∀ j, 0 ≤ j → vbit v j = if j =? i then x else vbit (bm_v b) j) →
  bitmap_wf (bm_set_v b v) ∧ bm_update b (bm_set_v b v) i x.
Proof.
  intros (Hn & Hn2 & Hl & Hok & Hov) Hi Hlen Hokv Hv. split; [|done].
  unfold bitmap_wf; simpl. rewrite Hlen. split_and!; try done.
  intros j Hj. unfold bm_bit; simpl. rewrite Hv by lia.
  replace (j =? i) with false by lia. by apply Hov.
Qed.

Lemma bitmap_mark_spec b i :
  bitmap_wf b → 0 ≤ i < bm_nbits b → bm_bit b i = false →
  wp (bitmap_mark b i) (λ b', bitmap_wf b' ∧ bm_update b b' i true).
Proof.
  intros Hwf Hi Hc. destruct (bm_index b i Hwf Hi) as (Hix & Ho & Heq).
  unfold bitmap_mark. wp_step. unfold bitmap_translate, BITS_PER_WORD. rewrite wp_bind.
  apply wp_getz; [done|]. intros w Hw.
  rewrite land_mask_zero by done. rewrite <- (vbit_at (bm_v b) (i / 8)) by (try done; lia).
  rewrite Heq. fold (bm_bit b i). rewrite Hc. wp_step.
  apply wp_or_byte; [done|done|by destruct Hwf as (? & ? & ? & ? & ?)|].
  intros v Hlen Hok Hv. wp_val. rewrite Heq in Hv. by apply bm_update_wf.
Qed.

Lemma bitmap_mark_twice b i :
  bitmap_wf b → 0 ≤ i < bm_nbits b → bm_bit b i = true →
  bitmap_mark b i = Fault FPanic.
Proof.
  intros Hwf Hi Hc. destruct (bm_index b i Hwf Hi) as (Hix & Ho & Heq).
  unfold bitmap_mark, check. replace (i <? bm_nbits b) with true by lia. simpl.
  unfold bitmap_translate, BITS_PER_WORD.
  destruct (lookup_lt_is_Some_2 (bm_v b) (Z.to_nat (i / 8))) as [w Hw]; [lia|].
  assert (getz (bm_v b) (i / 8) = Ok w) as -> by (apply getz_lookup; split; [lia|done]).
  simpl. rewrite land_mask_zero by done.
  rewrite <- (vbit_at (bm_v b) (i / 8)), Heq by (try done; lia).
  unfold bm_bit in Hc. by rewrite Hc.
Qed.

Lemma bitmap_unmark_spec b i :
  bitmap_wf b → 0 ≤ i < bm_nbits b → bm_bit b i = true →
  wp (bitmap_unmark b i) (λ b', bitmap_wf b' ∧ bm_update b b' i false).
Proof.
  intros Hwf Hi Hc. destruct (bm_index b i Hwf Hi) as (Hix & Ho & Heq).
  unfold bitmap_unmark. wp_step. unfold bitmap_translate, BITS_PER_WORD. rewrite wp_bind.
  apply wp_getz; [done|]. intros w Hw.
  rewrite land_mask_zero by done. rewrite <- (vbit_at (bm_v b) (i / 8)) by (try done; lia).
  rewrite Heq. fold (bm_bit b i). rewrite Hc. wp_step.
  apply wp_andnot_byte; [done|done|by destruct Hwf as (? & ? & ? & ? & ?)|].
  intros v Hlen Hok Hv. wp_val. rewrite Heq in Hv. by apply bm_update_wf.
Qed.

Lemma bitmap_isset_spec b i :
  bitmap_wf b → 0 ≤ i < bm_nbits b →
  wp (bitmap_isset b i) (λ r, (r =? 0) = negb (bm_bit b i)).
Proof.
  intros Hwf Hi. destruct (bm_index b i Hwf Hi) as (Hix & Ho & Heq).
  unfold bitmap_isset, bitmap_translate, BITS_PER_WORD. rewrite wp_bind.
  apply wp_getz; [done|]. intros w Hw. wp_val. rewrite land_mask_zero by done.
  rewrite <- (vbit_at (bm_v b) (i / 8)) by (try done; lia). by rewrite Heq.
Qed.

Lemma bitmap_alloc_spec b :
  bitmap_wf b →
  wp (bitmap_alloc b) (λ '(r, i, b'),
    (r = 0 ∧ 0 ≤ i < bm_nbits b ∧ bm_bit b i = false ∧
      (∀ j, 0 ≤ j < i → bm_bit b j = true) ∧ bitmap_wf b' ∧ bm_update b b' i true) ∨
    (r = ENOSPC ∧ b' = b ∧ ∀ j, 0 ≤ j < bm_nbits b → bm_bit b j = true)).
Proof.
  intros Hwf. pose proof Hwf as (Hn & Hn2 & Hl & Hok & Hov). unfold bitmap_alloc.
  rewrite DIVROUNDUP_8, <- Hl, Nat2Z.id, wp_bind by done.
  set (found := λ x : Z * Z * bitmap, let '(r, i, b') := x in
    r = 0 ∧ 0 ≤ i < bm_nbits b ∧ bm_bit b i = false ∧
      (∀ j, 0 ≤ j < i → bm_bit b j = true) ∧ bitmap_wf b' ∧ bm_update b b' i true).
  eapply wp_mono.
  - apply (wp_for_loop (λ ix _, ∀ j, 0 ≤ j < 8 * ix → bm_bit b j = true) found); [lia|].
    intros ix [] Hix Hpre. rewrite wp_bind. apply wp_getz; [lia|]. intros w Hw.
    pose proof (Forall_lookup_1 _ _ _ _ Hok Hw) as Hbyte. simpl in Hbyte.
    assert (∀ k, 0 ≤ k < 8 → bm_bit b (8 * ix + k) = Z.testbit w k) as Hbit.
    { intros k Hk. apply vbit_at; [lia|done|done]. }
    destruct (w =? WORD_ALLBITS) eqn:Ew; simpl; wp_val; simpl.
    { intros j Hj. destruct (decide (j < 8 * ix)); [apply Hpre; lia|].
      replace j with (8 * ix + (j - 8 * ix)) by lia. rewrite Hbit by lia.
      apply Z.eqb_eq in Ew as ->. unfold WORD_ALLBITS. change 255 with (Z.ones 8).
      apply Z.ones_spec_low. lia. }
    rewrite wp_bind. eapply wp_mono.
    + apply (wp_for_loop (λ o _, ∀ j, 0 ≤ j < 8 * ix + o → bm_bit b j = true) found).
      { intros j Hj. apply Hpre. lia. }
      intros o [] Ho Hpre2. rewrite wp_bind. apply wp_getz; [lia|].
      intros w' Hw'. assert (w' = w) as -> by congruence.
      rewrite land_mask_zero, <- (Hbit o) by lia.
      destruct (bm_bit b (8 * ix + o)) eqn:Eb; simpl; wp_val; simpl.
      { intros j Hj. destruct (decide (j = 8 * ix + o)) as [->|]; [done|apply Hpre2; lia]. }
      assert (8 * ix + o < bm_nbits b) as Hlt.
      { destruct (decide (8 * ix + o < bm_nbits b)); [done|].
        rewrite Hov in Eb by lia. done. }
      rewrite wp_bind. apply wp_or_byte; [lia|lia|done|]. intros v Hlen Hokv Hv.
      unfold BITS_PER_WORD. unwrap. wp_step. simpl.
      replace (ix * 8 + o) with (8 * ix + o) by lia.
      do 4 (split; [done || lia|]). apply bm_update_wf; (done || lia).
    + intros [[]|x] Hx; simpl in *; [|done].
      destruct (byte_not_full w) as (k & Hk & Hf); [done|lia|].
      rewrite <- Hbit, Hx in Hf by lia. done.
  - intros [[]|[[r i] b']] Hx; simpl in *; wp_val; [right|by left].
    split_and!; try done. intros j Hj. apply Hx.
    pose proof (bm_index b j Hwf Hj). lia.
Qed.

(** A fresh bitmap: every bit below [nbits] is clear. *)
Section create.
Context {H : Type} `{KHeapLaws H}.

Lemma vbit_zeros n i : vbit (replicate n 0) i = false.
Proof.
  unfold vbit. destruct (replicate n 0 !! _) as [w|] eqn:E; [|done].
  apply lookup_replicate in E as [-> _]. apply Z.testbit_0_l.
Qed.

(** The loop that marks the bits past the end. *)
Lemma mark_leftover (ix over : Z) (v : list Z) :
  0 ≤ ix < zlen v → 0 ≤ over < 8 → bytes_ok v →
  wp (for_range (Z.to_nat (8 - over)) over
        (λ j data, or_byte data ix (u8 (Z.shiftl 1 j))) v) (λ v',
    length v' = length v ∧ bytes_ok v' ∧
    ∀ j, 0 ≤ j → vbit v' j =
      if (8 * ix + over <=? j) && (j <? 8 * ix + 8) then true else vbit v j).
Proof.
  intros Hix Hov Hok. eapply wp_mono.
  - apply (wp_for_range (λ k v', length v' = length v ∧ bytes_ok v' ∧
      ∀ j, 0 ≤ j → vbit v' j =
        if (8 * ix + over <=? j) && (j <? 8 * ix + k) then true else vbit v j)).
    + split_and!; try done. intros j Hj.
      by replace ((8 * ix + over <=? j) && (j <? 8 * ix + over)) with false by lia.
    + intros k t Hk (Hl & Hokt & Ht). apply wp_or_byte; [lia|lia|done|].
      intros v' Hl' Hok' Hv'. split_and!; [lia|done|]. intros j Hj.
      rewrite Hv', Ht by done. destruct (j =? 8 * ix + k) eqn:E.
      * by replace ((8 * ix + over <=? j) && (j <? 8 * ix + (k + 1))) with true by lia.
      * by replace ((8 * ix + over <=? j) && (j <? 8 * ix + (k + 1)))
          with ((8 * ix + over <=? j) && (j <? 8 * ix + k)) by lia.
  - intros v'. by replace (over + Z.of_nat (Z.to_nat (8 - over))) with 8 by lia.
Qed.

Lemma bitmap_create_spec nbits h :
  kh_inv h → 0 ≤ nbits → nbits + 8 < 2 ^ 32 → 8 < kh_max → (nbits + 7) / 8 < kh_max →
  wp (bitmap_create nbits h) (λ '(ob, h'),
    match ob with
    | None => kh_inv h' ∧ kh_live h' = kh_live h
    | Some b => bitmap_wf b ∧ bm_nbits b = nbits ∧
        (∀ i, 0 ≤ i < nbits → bm_bit b i = false) ∧
        kh_inv h' ∧ bm_self b ∉ kh_live h ∧ bm_vptr b ∉ kh_live h ∧
        bm_self b ≠ bm_vptr b ∧ kh_live h' = {[bm_self b; bm_vptr b]} ∪ kh_live h
    end).
Proof.
  intros Hi Hn Hn2 Hk1 Hk2. pose proof kh_max_bound. unfold bitmap_create.
  rewrite DIVROUNDUP_8 by done. set (words := (nbits + 7) / 8) in *.
  assert (8 * words ≤ nbits + 7 ∧ nbits ≤ 8 * words) as Hw.
  { pose proof (Z.div_mod (nbits + 7) 8 ltac:(lia)).
    pose proof (Z.mod_pos_bound (nbits + 7) 8 ltac:(lia)). lia. }
  wp_call kmalloc_law; [done|lia|].
  intros [p h1] [Hi1 [[-> Hl1]|(Hp1 & Hnew1 & Hl1)]]; simpl; [by wp_val|].
  replace (p =? NULL) with false by lia. rewrite (u32_id (words * 1)) by in_range.
  wp_call kmalloc_law; [done|lia|].
  intros [d h2] [Hi2 [[-> Hl2]|(Hp2 & Hnew2 & Hl2)]]; simpl.
  { wp_call kfree_law; [done|set_solver|]. intros h3 [Hi3 Hl3]. wp_val.
    split; [done|]. rewrite Hl3, Hl2, Hl1. set_solver. }
  replace (d =? NULL) with false by lia. rewrite wp_bind.
  assert (kh_inv h2 ∧ p ∉ kh_live h ∧ d ∉ kh_live h ∧ p ≠ d ∧
    kh_live h2 = {[p; d]} ∪ kh_live h) as Hheap.
  { rewrite Hl2, Hl1. set_solver. }
  assert (bytes_ok (replicate (Z.to_nat words) 0)) as Hz.
  { apply Forall_replicate. lia. }
  assert (zlen (replicate (Z.to_nat words) 0) = words) as Hzl.
  { rewrite length_replicate. lia. }
  unfold BITS_PER_WORD. destruct (nbits / 8 <? words) eqn:E.
  - assert (nbits / 8 = words - 1) as Hd.
    { pose proof (Z.div_mod nbits 8 ltac:(lia)).
      pose proof (Z.mod_pos_bound nbits 8 ltac:(lia)). lia. }
    pose proof (Z.div_mod nbits 8 ltac:(lia)) as Hdm.
    pose proof (Z.mod_pos_bound nbits 8 ltac:(lia)).
    unwrap. wp_step.
    wp_call mark_leftover; [lia|lia|done|]. intros v (Hlv & Hokv & Hv). wp_val.
    split; [|split; [done|split; [|done]]].
    + unfold bitmap_wf; simpl. rewrite Hlv, Hzl. split_and!; try done.
      intros i Hir. unfold bm_bit; simpl. rewrite Hv by lia.
      by match goal with |- (if ?b then _ else _) = _ => replace b with true by lia end.
    + intros i Hir. unfold bm_bit; simpl. rewrite Hv, vbit_zeros by lia.
      by match goal with |- (if ?b then _ else _) = _ => replace b with false by lia end.
  - assert (nbits / 8 ≤ words) by (apply Z.div_le_mono; lia).
    pose proof (Z.div_mod nbits 8 ltac:(lia)). pose proof (Z.mod_pos_bound nbits 8 ltac:(lia)).
    wp_val. split; [|split; [done|split; [|done]]].
    + unfold bitmap_wf; simpl. rewrite Hzl. split_and!; try done. lia.
    + intros i Hir. apply vbit_zeros.
Qed.

(** Two requests. *)
Lemma bitmap_create_room nbits h ob h' :
  kh_inv h → 0 ≤ nbits → nbits + 8 < 2 ^ 32 → 8 < kh_max → (nbits + 7) / 8 < kh_max →
  bitmap_create nbits h = Ok (ob, h') → rooms 2 h (ob ≠ None) h'.
Proof.
  intros Hi Hn Hn2 Hk1 Hk2. pose proof kh_max_bound. unfold bitmap_create.
  rewrite DIVROUNDUP_8 by done. set (words := (nbits + 7) / 8) in *.
  assert (0 ≤ words) by (apply Z.div_pos; lia).
  destruct (proj1 (wp_exists _ _) (kmalloc_full h 8 Hi ltac:(lia))) as ([p h1] & -> & [Hi1 Hl1] & Hr1). simpl.
  destruct (p =? NULL) eqn:E1.
  { intros [= <- <-]. apply Z.eqb_eq in E1. apply (rooms_le 1); [|lia]. no_room. }
  destruct Hl1 as [[? _]|(Hp1 & Hnew1 & Hl1)]; [lia|]. rewrite (u32_id (words * 1)) by in_range.
  destruct (proj1 (wp_exists _ _) (kmalloc_full h1 (words * 1) Hi1 ltac:(lia))) as ([d h2] & -> & [Hi2 Hl2] & Hr2). simpl.
  destruct (d =? NULL) eqn:E2.
  { apply Z.eqb_eq in E2. intros _. eapply (rooms_bind 1 1); [done|]. intros _. no_room. }
  intros Heq. eapply (rooms_bind 1 1); [done|]. intros _.
  assert (ob ≠ None ∧ h' = h2) as [Hob ->]; [|by eapply rooms_mono].
  match type of Heq with ?m ≫= _ = _ => destruct m as [data|f] end; [|discriminate Heq].
  by injection Heq as <- <-.
Qed.
End create.

(** Two bitmaps with the same header and the same bits are equal. *)
Lemma bitmap_ext b b' :
  bitmap_wf b → bitmap_wf b' → bm_self b = bm_self b' → bm_nbits b = bm_nbits b' →
  bm_vptr b = bm_vptr b' → (∀ j, 0 ≤ j → bm_bit b j = bm_bit b' j) → b = b'.
Proof.
  destruct b as [s n p v], b' as [s' n' p' v']. unfold bitmap_wf, bm_bit; simpl.
  intros (_ & _ & Hl & Hok & _) (_ & _ & Hl' & Hok' & _) -> -> -> Hbits. f_equal.
  apply list_eq_same_length with (n := length v); [lia|lia|].
  intros k w w' Hk Hw Hw'. unfold bytes_ok in *. rewrite Forall_lookup in Hok, Hok'.
  apply byte_ext; [by eapply Hok|by eapply Hok'|]. intros o Ho.
  rewrite <- (vbit_at v (Z.of_nat k) o w), <- (vbit_at v' (Z.of_nat k) o w');
    try done; try lia; try (by rewrite Nat2Z.id). apply Hbits. lia.
Qed.

(** ** Allocation until the map is full *)

Definition clear_bits (b : bitmap) : list Z :=
  filter (λ i, bm_bit b i = false) (seqZ 0 (bm_nbits b)).

(** [bitmap_alloc] called until it fails: the indices it gave out, in order. *)
Definition bitmap_alloc_all (b : bitmap) : res (list Z * Z * bitmap) :=
  while_loop (S (Z.to_nat (bm_nbits b))) (λ '(got, b),
    '(r, i, b) ← bitmap_alloc b;
    if r =? 0 then mret (inl (got ++ [i], b)) else mret (inr (got, r, b))) ([], b).

Lemma clear_bits_none b : (∀ j, 0 ≤ j < bm_nbits b → bm_bit b j = true) → clear_bits b = [].
Proof.
  intros Hfull. unfold clear_bits. apply filter_none. intros j Hj.
  apply elem_of_seqZ in Hj. rewrite Hfull by lia. done.
Qed.

Lemma clear_bits_first b b' i :
  0 ≤ i < bm_nbits b → bm_bit b i = false → (∀ j, 0 ≤ j < i → bm_bit b j = true) →
  bm_update b b' i true → clear_bits b = i :: clear_bits b'.
Proof.
  intros Hi Hb Hmin (_ & Hn & _ & Hup). unfold clear_bits. rewrite Hn.
  replace (bm_nbits b) with (i + (1 + (bm_nbits b - i - 1))) by lia.
  rewrite (seqZ_app 0 i), (seqZ_app (0 + i) 1) by lia. rewrite !filter_app.
  rewrite (seqZ_cons (0 + i) 1) by lia. change (seqZ (Z.succ (0 + i)) (Z.pred 1)) with (@nil Z).
  assert (∀ c, (∀ j, 0 ≤ j < i → bm_bit c j = true) →
    filter (λ j, bm_bit c j = false) (seqZ 0 i) = []) as Hnil.
  { intros c Hc. apply filter_none. intros j Hj%elem_of_seqZ.
    rewrite Hc by lia. done. }
  rewrite (Hnil b) by done. rewrite (Hnil b').
  2: { intros j Hj. rewrite Hup by lia. destruct (j =? i); [done|]. apply Hmin. lia. }
  rewrite Z.add_0_l. simpl.
  rewrite !filter_cons, filter_nil. rewrite decide_True by done.
  rewrite decide_False by (rewrite Hup, Z.eqb_refl by lia; done). simpl. f_equal.
  apply filter_agree.
  intros j Hj%elem_of_seqZ. rewrite Hup by lia. by replace (j =? i) with false by lia.
Qed.

(** [bitmap_alloc] called until it fails hands out exactly the clear bits, each
    once and in increasing order, then reports ENOSPC with every bit set; the padding
    bits past [nbits] are never given out. *)
Theorem bitmap_alloc_all_clear b :
  bitmap_wf b →
  wp (bitmap_alloc_all b) (λ '(got, r, b'), got = clear_bits b ∧ r = ENOSPC ∧ bitmap_wf b' ∧
    ∀ i, 0 ≤ i < bm_nbits b → bm_bit b' i = true).
Proof.
  intros Hwf. unfold bitmap_alloc_all.
  apply (wp_while_loop (λ '(got, c), bitmap_wf c ∧ bm_nbits c = bm_nbits b ∧
           got ++ clear_bits c = clear_bits b) _ (λ '(_, c), length (clear_bits c))); [done| |].
  - apply Nat.lt_succ_r. unfold clear_bits. etrans; [apply length_filter|].
    by rewrite length_seqZ.
  - intros [got c] (Hc & Hn & Hgot). wp_call bitmap_alloc_spec; [done|].
    intros [[r i] c'] [(-> & Hi & Hclr & Hmin & Hwf' & Hup)|(-> & -> & Hfull)]; wp_val; simpl.
    + pose proof (clear_bits_first c c' i Hi Hclr Hmin Hup) as Hcl. destruct Hup as (_ & Hn' & _).
      split; [|rewrite Hcl; simpl; lia]. split_and!; [done|congruence|].
      by rewrite <- app_assoc, <- Hgot, Hcl.
    + rewrite (clear_bits_none c Hfull), app_nil_r in Hgot. rewrite Hn in Hfull.
      split_and!; [done|done|apply Hc..|done].
Qed.

(** setting a clear bit with [bitmap_mark] and clearing it with [bitmap_unmark]
    gives back the very same bytes, with the bit seen set by [bitmap_isset] in between;
    marking a set bit is a failed assertion. *)
Theorem bitmap_mark_unmark b i :
  bitmap_wf b → 0 ≤ i < bm_nbits b → bm_bit b i = false →
  ∃ b' r, bitmap_mark b i = Ok b' ∧ bitmap_isset b' i = Ok r ∧ r ≠ 0 ∧
    bitmap_mark b' i = Fault FPanic ∧ bitmap_unmark b' i = Ok b.
Proof.
  intros Hwf Hi Hclr.
  pose proof (bitmap_mark_spec b i Hwf Hi Hclr) as Hm.
  apply wp_exists in Hm as (b' & Hm & Hwf' & Hup). pose proof Hup as (Hs & Hn & Hv & Hbit).
  assert (Hset : bm_bit b' i = true) by (rewrite Hbit, Z.eqb_refl by lia; done).
  assert (Hi' : 0 ≤ i < bm_nbits b') by lia.
  pose proof (bitmap_isset_spec b' i Hwf' Hi') as Hr.
  apply wp_exists in Hr as (r & Hr & Hr0). exists b', r.
  pose proof (bitmap_unmark_spec b' i Hwf' Hi' Hset) as Hu.
  apply wp_exists in Hu as (b'' & Hu & Hwf'' & Hs' & Hn' & Hv' & Hbit').
  rewrite Hset in Hr0. split_and!; [done|done|simpl in Hr0; lia|by apply bitmap_mark_twice|].
  rewrite Hu. f_equal. apply bitmap_ext; [done|done|congruence..|].
  intros j Hj. rewrite Hbit', Hbit by lia. destruct (j =? i) eqn:E; [|done].
  replace j with i by lia. done.
Qed.

Definition demo_bitmap : bitmap := Bitmap 1 5 2 [0xe4].

Lemma demo_bitmap_wf : bitmap_wf demo_bitmap.
Proof.
  split_and!; try done.
  - repeat constructor; lia.
  - intros i Hi. simpl in Hi.
    assert (i = 5 ∨ i = 6 ∨ i = 7) as [->|[->| ->]] by lia; done.
Qed.

Lemma bitmap_alloc_all_clear_witness :
  bitmap_alloc_all demo_bitmap = Ok ([0; 1; 3; 4], ENOSPC, Bitmap 1 5 2 [0xff]) ∧
  clear_bits demo_bitmap = [0; 1; 3; 4].
Proof.
  split; [vm_compute; reflexivity|].
  pose proof (bitmap_alloc_all_clear demo_bitmap demo_bitmap_wf) as Hw.
  eapply wp_inv in Hw; [|vm_compute; reflexivity]. symmetry. exact (proj1 Hw).
Defined.

Lemma bitmap_mark_unmark_witness :
  ∃ b' r, bitmap_mark demo_bitmap 3 = Ok b' ∧ bitmap_isset b' 3 = Ok r ∧ r ≠ 0 ∧
    bitmap_mark b' 3 = Fault FPanic ∧ bitmap_unmark b' 3 = Ok demo_bitmap.
Proof.
  apply (bitmap_mark_unmark demo_bitmap 3 demo_bitmap_wf);
    [vm_compute; split; congruence|vm_compute; reflexivity].
Defined.
