(* ===== verification/Coremap.v ===== *)
(** * Physical frames (kern/vm/coremap.c, kern/arch/mips/mips/spl.c and the frame
    entry points of kern/vm/addrspace.c)

    The state [cmstate] is the set of globals of coremap.c, the words of kernel
    memory that are written here, and the interrupt level of spl.c.  An entry
    of the coremap describes one physical frame.  [cm_inv s A] relates a state to
    the abstract allocation map [A], from the index of the first frame of each
    block in use to its length in frames. *)

From S2P Require Import Prelude.

Definition PAGE_SIZE : Z := 4096.
Definition PAGE_FRAME : Z := 0xfffff000.
Definition MIPS_KSEG0 : Z := 0x80000000.
Definition MIPS_KSEG1 : Z := 0xa0000000.
Definition PADDR_TO_KVADDR (paddr : Z) : Z := u32 (paddr + MIPS_KSEG0).
Definition KVADDR_TO_PADDR (vaddr : Z) : Z := u32 (vaddr - MIPS_KSEG0).
Definition INVALID_PADDR : Z := 0.
Definition SPL_HIGH : Z := 15.

(** [pageState]: 'P' is not free, 'H' is free. *)
Inductive pstate := PS_P | PS_H.

#[export] Instance pstate_eq_dec : EqDecision pstate.
Proof. solve_decision. Defined.

Record coremap_entry := CE {
  selfAddr : Z;
  pageState : pstate;
  ce_as : Z;
  startAddr : Z;
  ce_length : Z;
  isKernel : Z;
  ce_fixed : Z;
  reference : Z;
  counter : Z;
  dirty : Z;
  ce_copy : Z;
  ce_vaddr : Z;
  pd_addr : Z;
  pt_addr : Z;
}.

Record cmstate := CM {
  base_coremap_page : Z;
  num_coremap_entries : Z;
  num_coremap_free : Z;
  coremap : list coremap_entry;
  kmem : gmap Z Z;          (* words of kernel memory, by kseg0 address *)
  curspl : Z;
  ie_c : bool;              (* the interrupt-enable bit CST_IEc *)
}.

Definition cm_set_coremap (s : cmstate) (l : list coremap_entry) : cmstate :=
  CM (base_coremap_page s) (num_coremap_entries s) (num_coremap_free s) l
     (kmem s) (curspl s) (ie_c s).
Definition cm_set_free (s : cmstate) (n : Z) : cmstate :=
  CM (base_coremap_page s) (num_coremap_entries s) n (coremap s)
     (kmem s) (curspl s) (ie_c s).
Definition cm_set_kmem (s : cmstate) (m : gmap Z Z) : cmstate :=
  CM (base_coremap_page s) (num_coremap_entries s) (num_coremap_free s) (coremap s)
     m (curspl s) (ie_c s).

(** ** Interrupt levels (spl.c) *)

Definition splx (newspl : Z) (s : cmstate) : Z * cmstate :=
  let ie := if newspl >? 0 then false else if newspl =? 0 then true else ie_c s in
  (curspl s, CM (base_coremap_page s) (num_coremap_entries s) (num_coremap_free s)
               (coremap s) (kmem s) newspl ie).

Definition splhigh (s : cmstate) : Z * cmstate := splx SPL_HIGH s.
Definition spl0 (s : cmstate) : Z * cmstate := splx 0 s.

(** ** Index arithmetic (coremap.h) *)

Definition COREMAP_TO_PADDR (s : cmstate) (i : Z) : Z :=
  u32 (PAGE_SIZE * u32 (i + base_coremap_page s)).
Definition PADDR_TO_COREMAP (s : cmstate) (page : Z) : Z :=
  u32 (page / PAGE_SIZE - base_coremap_page s).

(** ** Bootstrap

    [ram_getsize] hands over the bounds of free physical memory; a coremap entry
    is 56 bytes (thirteen words and a padded char).  [coremap_bootstrap] fills in
    the globals; the entries live at the bottom of that memory. *)

Definition COREMAP_ENTRY_SIZE : Z := 56.

Definition fresh_entry (s : cmstate) (i : Z) : coremap_entry :=
  CE (COREMAP_TO_PADDR s i) PS_H NULL 0 0 0 0 0 0 0 0 0 0 0.

Definition coremap_bootstrap (firstpaddr lastpaddr : Z) (s : cmstate) : res cmstate :=
  let numFrame := u32 (lastpaddr - firstpaddr) / PAGE_SIZE in
  let coremapsize := ROUNDUP (u32 (numFrame * COREMAP_ENTRY_SIZE)) PAGE_SIZE in
  _ ← check (Z.land coremapsize PAGE_FRAME =? coremapsize);
  let firstpaddr := u32 (firstpaddr + coremapsize) in
  let base := firstpaddr / PAGE_SIZE in
  let num := u32 (lastpaddr / PAGE_SIZE - base) in
  _ ← check (u32 (num + coremapsize / PAGE_SIZE) =? numFrame);
  let s1 := CM base num num (coremap s) (kmem s) (curspl s) (ie_c s) in
  mret (cm_set_coremap s1 ((λ i, fresh_entry s1 (Z.of_nat i)) <$> seq 0 (Z.to_nat num))).

(** ** Allocation *)

Definition set_kernel (e : coremap_entry) (kernel : Z) : Z :=
  if kernel =? 1 then 1 else if kernel =? 0 then 0 else isKernel e.

(** The assignments of the single-frame allocator to the chosen entry. *)
Definition mark_one (kernel : Z) (e : coremap_entry) : coremap_entry :=
  CE (selfAddr e) PS_P (ce_as e) (selfAddr e) 1 (set_kernel e kernel) (ce_fixed e)
     (reference e) (counter e) (dirty e) (ce_copy e) (ce_vaddr e) (pd_addr e) (pt_addr e).

Definition is_P (e : coremap_entry) : bool := bool_decide (pageState e = PS_P).
Definition is_H (e : coremap_entry) : bool := bool_decide (pageState e = PS_H).

Definition coremapAllocateOneFrame (n kernel : Z) (s : cmstate) : res (Z * cmstate) :=
  if num_coremap_free s =? 0 then mret (0, s)
  else
    r ← for_loop (Z.to_nat (num_coremap_entries s)) 0 (λ i _,
          e ← (coremap s).[i];
          if is_P e then mret (inl tt) else mret (inr i)) tt;
    let candidate := match r with inr i => i | inl _ => -1 end in
    e ← (coremap s).[candidate];
    l ← (coremap s).[candidate <- mark_one kernel e];
    mret (COREMAP_TO_PADDR s candidate,
          cm_set_free (cm_set_coremap s l) (u32 (num_coremap_free s - 1))).

Definition mark_start (e : coremap_entry) : coremap_entry :=
  CE (selfAddr e) (pageState e) (ce_as e) (selfAddr e) (ce_length e) (isKernel e)
     (ce_fixed e) (reference e) (counter e) (dirty e) (ce_copy e) (ce_vaddr e)
     (pd_addr e) (pt_addr e).

Definition mark_multi (n kernel : Z) (e : coremap_entry) : coremap_entry :=
  CE (selfAddr e) PS_P (ce_as e) (startAddr e) n (set_kernel e kernel) (ce_fixed e)
     (reference e) (counter e) (dirty e) (ce_copy e) (ce_vaddr e) (pd_addr e) (pt_addr e).

(** The inner loop of the search, from frame [j], with [cnt] free frames seen
    after the candidate: [inr true] is the jump to findMultipleFrame, [inr false]
    the break at a used frame ([i = j]), [inl] the end of the coremap. *)
Definition run_search (l : list coremap_entry) (num n candidate : Z)
  : res (Z + bool * Z) :=
  for_loop (Z.to_nat (num - (candidate + 1))) (candidate + 1) (λ j cnt,
    e ← l.[j];
    if is_H e then
      let cnt := cnt + 1 in
      if n =? cnt + 1 then mret (inr (true, j)) else mret (inl cnt)
    else if is_P e && negb (n =? cnt + 1) then mret (inr (false, j))
    else mret (inl cnt)) 0.

(** The outer loop: the loop index jumps to the end of a run that is too short.
    The answer is [candidate] as the function leaves it; [None] is a variable
    that was never assigned.  The index grows in every round. *)
Definition multi_search (s : cmstate) (n : Z) : res (option Z) :=
  while_loop (S (Z.to_nat (num_coremap_entries s))) (λ '(i, candidate),
    if i <? num_coremap_entries s then
      e ← (coremap s).[i];
      if is_P e then mret (inl (i + 1, candidate))
      else
        r ← run_search (coremap s) (num_coremap_entries s) n i;
        match r with
        | inr (true, _) => mret (inr (Some i))
        | inr (false, j) => mret (inl (j + 1, Some i))
        | inl _ => mret (inl (i + 1, Some i))
        end
    else mret (inr candidate)) (0, None).

Definition coremapAllocateMultipleFrame (n kernel : Z) (s : cmstate) : res (Z * cmstate) :=
  if n >? num_coremap_free s then mret (0, s)
  else
    c ← multi_search s n;
    candidate ← res_of_option FUndef c;
    e ← (coremap s).[candidate];
    l ← (coremap s).[candidate <- mark_start e];
    l ← for_range (Z.to_nat n) candidate (λ i l,
          e ← l.[i]; setz l i (mark_multi n kernel e)) l;
    mret (COREMAP_TO_PADDR s candidate,
          cm_set_free (cm_set_coremap s l) (u32 (num_coremap_free s - n))).

(** ** Release *)

Definition reset_entry (e : coremap_entry) : coremap_entry :=
  CE (selfAddr e) PS_H NULL 0 0 0 (ce_fixed e) 0 0 0 0 0 0 0.

(** [PAGE_SIZE] byte stores of zero, as stores to the words of the page. *)
Definition zero_page (kva : Z) (m : gmap Z Z) : gmap Z Z :=
  foldr (λ i m, <[kva + 4 * i := 0]> m) m (seqZ 0 1024).

Definition coremapFree (page : Z) (s : cmstate) : res cmstate :=
  let phy_ptr := PADDR_TO_KVADDR page in
  let ppn := PADDR_TO_COREMAP s page in
  _ ← check (ppn <? num_coremap_entries s);
  e ← (coremap s).[ppn];
  if ce_length e =? 1 then
    _ ← check (page =? startAddr e);
    l ← (coremap s).[ppn <- reset_entry e];
    mret (cm_set_kmem (cm_set_free (cm_set_coremap s l) (u32 (num_coremap_free s + 1)))
            (zero_page phy_ptr (kmem s)))
  else if ce_length e >? 1 then
    _ ← check (page =? startAddr e);
    '(l, m, _) ← for_range (Z.to_nat (ce_length e)) ppn (λ i '(l, m, p),
      e ← l.[i];
      l ← l.[i <- reset_entry e];
      mret (l, zero_page p m, u32 (p + 0x1000))) (coremap s, kmem s, phy_ptr);
    mret (cm_set_kmem (cm_set_free (cm_set_coremap s l)
            (u32 (num_coremap_free s + ce_length e))) m)
  else mret s.

(** ** Frames for the kernel (addrspace.c)

    On failure [getppages] returns before it restores the interrupt level. *)

Definition getppages (npages kernel : Z) (s : cmstate) : res (Z * cmstate) :=
  let '(spl, s) := splhigh s in
  '(addr, s) ← (if npages >? 1 then coremapAllocateMultipleFrame npages kernel s
                else coremapAllocateOneFrame 1 kernel s);
  if addr =? INVALID_PADDR then mret (0, s)
  else mret (addr, (splx spl s).2).

Definition alloc_kpages (npages : Z) (s : cmstate) : res (Z * cmstate) :=
  '(pa, s) ← getppages npages 1 s;
  if pa =? 0 then mret (0, s) else mret (PADDR_TO_KVADDR pa, s).

Definition free_kpages (addr : Z) (s : cmstate) : res cmstate :=
  coremapFree (KVADDR_TO_PADDR addr) s.

(** ** The invariant *)

Definition n_free (l : list coremap_entry) : Z :=
  zlen (filter (λ e, pageState e = PS_H) l).

(** What the coremap says about frame [i] when the blocks in use are [A]. *)
Definition frame_ok (A : gmap Z Z) (i : Z) (e : coremap_entry) : Prop :=
  (pageState e = PS_H ∧ startAddr e = 0 ∧ ce_length e = 0 ∧
     ∀ c n, A !! c = Some n → ¬ (c ≤ i < c + n)) ∨
  (∃ c n, A !! c = Some n ∧ c ≤ i < c + n ∧ pageState e = PS_P ∧ ce_length e = n ∧
     startAddr e = if i =? c then selfAddr e else 0).

Definition blocks_ok (num : Z) (A : gmap Z Z) : Prop :=
  (∀ c n, A !! c = Some n → 0 ≤ c ∧ 1 ≤ n ∧ c + n ≤ num) ∧
  (∀ c n c' n', A !! c = Some n → A !! c' = Some n' →
     c = c' ∨ c + n ≤ c' ∨ c' + n' ≤ c).

(** Physical memory fits in kseg0 (512MB), and frame 0 is never managed. *)
Definition cm_shape (s : cmstate) : Prop :=
  0 < base_coremap_page s ∧ num_coremap_entries s = zlen (coremap s) ∧
  base_coremap_page s + num_coremap_entries s ≤ 2 ^ 17.

Definition cm_inv (s : cmstate) (A : gmap Z Z) : Prop :=
  cm_shape s ∧ num_coremap_free s = n_free (coremap s) ∧
  blocks_ok (num_coremap_entries s) A ∧
  ∀ i e, coremap s !! i = Some e →
    selfAddr e = PAGE_SIZE * (Z.of_nat i + base_coremap_page s) ∧
    frame_ok A (Z.of_nat i) e.

Definition frame_paddr (s : cmstate) (i : Z) : Z := PAGE_SIZE * (i + base_coremap_page s).

(** [run_free l c n]: the [n] frames from [c] on exist and are free. *)
Definition run_free (l : list coremap_entry) (c n : Z) : Prop :=
  ∀ i, c ≤ i < c + n → ∃ e, 0 ≤ i ∧ l !! Z.to_nat i = Some e ∧ pageState e = PS_H.

Lemma n_free_app l1 l2 : n_free (l1 ++ l2) = n_free l1 + n_free l2.
Proof. unfold n_free. rewrite filter_app, length_app. lia. Qed.

Lemma n_free_all l : Forall (λ e, pageState e = PS_H) l → n_free l = zlen l.
Proof.
  induction 1 as [|e l He Hl IH]; [done|]. unfold n_free in *.
  rewrite filter_cons_True by done. simpl. lia.
Qed.

Lemma n_free_none l : Forall (λ e, pageState e = PS_P) l → n_free l = 0.
Proof.
  induction 1 as [|e l He Hl IH]; [done|]. unfold n_free in *.
  rewrite filter_cons_False; [done|]. by rewrite He.
Qed.

Lemma n_free_bounds l : 0 ≤ n_free l ≤ zlen l.
Proof. unfold n_free. pose proof (length_filter (λ e, pageState e = PS_H) l). lia. Qed.

Lemma n_free_pos l : 0 < n_free l → ∃ i e, l !! i = Some e ∧ pageState e = PS_H.
Proof.
  unfold n_free. intros Hp. destruct (filter _ l) as [|e l'] eqn:E; [simpl in Hp; lia|].
  assert (e ∈ filter (λ e, pageState e = PS_H) l) as Hin by (rewrite E; left).
  apply list_elem_of_filter in Hin as [He [i Hi]%list_elem_of_lookup]. eauto.
Qed.

(** Changing the frames [c .. c+n-1] and no other. *)
Definition changed (l l' : list coremap_entry) (c n : Z)
    (f : Z → coremap_entry → coremap_entry) : Prop :=
  ∀ i, l' !! i = (λ e, if (c <=? Z.of_nat i) && (Z.of_nat i <? c + n)
                       then f (Z.of_nat i) e else e) <$> (l !! i).

Lemma changed_length l l' c n f : changed l l' c n f → length l' = length l.
Proof.
  intros Hc. apply Nat.le_antisymm.
  - apply Nat.nlt_ge. intros Hlt. specialize (Hc (length l)).
    rewrite (lookup_ge_None_2 l) in Hc by lia. apply lookup_ge_None in Hc. lia.
  - apply Nat.nlt_ge. intros Hlt. specialize (Hc (length l')).
    rewrite (lookup_ge_None_2 l') in Hc by lia.
    symmetry in Hc. apply fmap_None, lookup_ge_None in Hc. lia.
Qed.

Lemma split_run {A} (l : list A) (c n : nat) :
  l = take c l ++ take n (drop c l) ++ drop (c + n) l.
Proof. by rewrite <- drop_drop, !take_drop. Qed.

Lemma changed_outside l l' c n f :
  0 ≤ c → 0 ≤ n → changed l l' c n f →
  take (Z.to_nat c) l' = take (Z.to_nat c) l ∧
  drop (Z.to_nat c + Z.to_nat n) l' = drop (Z.to_nat c + Z.to_nat n) l.
Proof.
  intros H0 Hn Hc. split; apply list_eq; intros i.
  - destruct (decide (i < Z.to_nat c)%nat);
      [rewrite !lookup_take_lt by lia|by rewrite !lookup_take_ge by lia].
    rewrite Hc. replace ((c <=? Z.of_nat i) && _) with false by lia. by destruct (l !! i).
  - rewrite !lookup_drop, Hc.
    match goal with |- context [if ?b then _ else _] => replace b with false by lia end.
    by destruct (l !! _).
Qed.

Lemma Forall_run (P : coremap_entry → Prop) (l : list coremap_entry) (c n : Z) :
  0 ≤ c → (∀ i e, c ≤ i < c + n → l !! Z.to_nat i = Some e → P e) →
  Forall P (take (Z.to_nat n) (drop (Z.to_nat c) l)).
Proof.
  intros H0 HP. apply Forall_lookup. intros i e.
  destruct (decide (i < Z.to_nat n)%nat); [|by rewrite lookup_take_ge by lia].
  rewrite lookup_take_lt, lookup_drop by lia. intros He.
  apply (HP (c + Z.of_nat i)); [lia|]. rewrite <- He. f_equal. lia.
Qed.

Lemma n_free_split l (c n : Z) :
  n_free l = n_free (take (Z.to_nat c) l) + n_free (take (Z.to_nat n) (drop (Z.to_nat c) l))
             + n_free (drop (Z.to_nat c + Z.to_nat n) l).
Proof. rewrite (split_run l (Z.to_nat c) (Z.to_nat n)) at 1. rewrite !n_free_app. lia. Qed.

(** A run that turns from free to used (or back) moves the count by its length. *)
Lemma n_free_taken l l' c n f :
  0 ≤ c → 0 ≤ n → c + n ≤ zlen l → changed l l' c n f → run_free l c n →
  (∀ i e, c ≤ i < c + n → pageState (f i e) = PS_P) → n_free l' = n_free l - n.
Proof.
  intros H0 Hn Hlen Hc Hrun Hf. destruct (changed_outside _ _ _ _ _ H0 Hn Hc) as [Ht Hd].
  rewrite (n_free_split l' c n), (n_free_split l c n), Ht, Hd.
  rewrite (n_free_none (take (Z.to_nat n) (drop _ l'))), (n_free_all (take (Z.to_nat n) (drop _ l))).
  - rewrite length_take, length_drop. lia.
  - apply Forall_run; [done|]. intros i e Hi He. destruct (Hrun i Hi) as (e' & _ & He' & ?).
    congruence.
  - apply Forall_run; [done|]. intros i e Hi. rewrite Hc.
    match goal with |- context [if ?b then _ else _] => replace b with true by lia end.
    intros (e' & He' & ->)%fmap_Some. apply Hf. lia.
Qed.

Lemma n_free_given l l' c n f :
  0 ≤ c → 0 ≤ n → c + n ≤ zlen l → changed l l' c n f →
  (∀ i e, c ≤ i < c + n → l !! Z.to_nat i = Some e → pageState e = PS_P) →
  (∀ i e, pageState (f i e) = PS_H) → n_free l' = n_free l + n.
Proof.
  intros H0 Hn Hlen Hc Hrun Hf. destruct (changed_outside _ _ _ _ _ H0 Hn Hc) as [Ht Hd].
  rewrite (n_free_split l' c n), (n_free_split l c n), Ht, Hd.
  rewrite (n_free_all (take (Z.to_nat n) (drop _ l'))), (n_free_none (take (Z.to_nat n) (drop _ l))).
  - rewrite length_take, length_drop, (changed_length _ _ _ _ _ Hc). lia.
  - by apply Forall_run.
  - apply Forall_run; [done|]. intros i e Hi. rewrite Hc.
    match goal with |- context [if ?b then _ else _] => replace b with true by lia end.
    intros (e' & He' & ->)%fmap_Some. apply Hf.
Qed.

(** A free run is disjoint from every block in use. *)
Lemma run_free_disjoint s A c n :
  cm_inv s A → 1 ≤ n → run_free (coremap s) c n →
  ∀ c' n', A !! c' = Some n' → c + n ≤ c' ∨ c' + n' ≤ c.
Proof.
  intros (Hs & _ & [Hb _] & He) Hn Hrun c' n' Hc'.
  destruct (decide (c + n ≤ c')); [by left|]. destruct (decide (c' + n' ≤ c)); [by right|].
  exfalso. pose proof (Hb _ _ Hc').
  destruct (Hrun (Z.max c c')) as (e & H0 & Hl & Hst); [lia|].
  destruct (He _ _ Hl) as [_ [(_ & _ & _ & Hno)|(? & ? & _ & _ & Hp & _)]]; [|congruence].
  apply (Hno _ _ Hc'). lia.
Qed.

Lemma alloc_block s A l' c n f s' :
  cm_inv s A → 0 ≤ c → 1 ≤ n → run_free (coremap s) c n →
  changed (coremap s) l' c n f →
  (∀ i e, c ≤ i < c + n →
     selfAddr (f i e) = selfAddr e ∧ pageState (f i e) = PS_P ∧ ce_length (f i e) = n ∧
     startAddr (f i e) = if i =? c then selfAddr e else startAddr e) →
  coremap s' = l' → base_coremap_page s' = base_coremap_page s →
  num_coremap_entries s' = num_coremap_entries s →
  num_coremap_free s' = num_coremap_free s - n →
  A !! c = None ∧ cm_inv s' (<[c := n]> A).
Proof.
  intros Hinv H0 Hn Hrun Hch Hf Hl' Hb' Hn' Hf'.
  pose proof (run_free_disjoint _ _ _ _ Hinv Hn Hrun) as Hdis.
  destruct Hinv as ((Hbase & Hnum & Hmax) & Hfree & [Hblk Hpair] & He).
  assert (c + n ≤ zlen (coremap s)) as Hend.
  { destruct (Hrun (c + n - 1)) as (e & ? & Hl & _); [lia|].
    apply lookup_lt_Some in Hl. lia. }
  assert (A !! c = None) as HNone.
  { destruct (A !! c) as [m|] eqn:E; [|done]. pose proof (Hblk _ _ E).
    destruct (Hdis _ _ E); lia. }
  split; [done|]. pose proof (changed_length _ _ _ _ _ Hch) as Hlen.
  split; [|split; [|split]].
  - unfold cm_shape. rewrite Hb', Hn', Hl', Hlen. done.
  - rewrite Hf', Hl', Hfree. symmetry. eapply n_free_taken; eauto; [lia|]. intros. by apply Hf.
  - rewrite Hn'. split.
    + intros c1 n1. destruct (decide (c = c1)) as [->|];
        [rewrite lookup_insert_eq; intros [= <-]; lia|].
      rewrite lookup_insert_ne by done. apply Hblk.
    + intros c1 n1 c2 n2. rewrite !lookup_insert.
      repeat case_decide; intros Ha1 Ha2; simplify_eq; try (by left).
      * destruct (Hdis _ _ Ha2); lia.
      * destruct (Hdis _ _ Ha1); lia.
      * eauto.
  - rewrite Hl', Hb'. intros i e. rewrite Hch. intros (e0 & Hi & ->)%fmap_Some.
    destruct (He _ _ Hi) as [Hself Hok].
    destruct ((c <=? Z.of_nat i) && (Z.of_nat i <? c + n)) eqn:E.
    + destruct (Hf (Z.of_nat i) e0) as (Hs1 & Hs2 & Hs3 & Hs4); [lia|]. rewrite Hs1.
      split; [done|]. right. exists c, n. rewrite lookup_insert_eq.
      split_and!; try done; try lia. rewrite Hs4.
      destruct (Z.of_nat i =? c); [done|].
      destruct (Hrun (Z.of_nat i)) as (e' & _ & He' & HH); [lia|]. rewrite Nat2Z.id in He'.
      destruct Hok as [(_ & ? & _)|(? & ? & _ & _ & ? & _)]; [done|congruence].
    + split; [done|]. destruct Hok as [(?&?&?&Hno)|(c1 & n1 & Hc1 & Hr & Hrest)].
      * left. split_and!; try done. intros c1 n1. rewrite lookup_insert.
        case_decide; [intros [= <-]; lia|apply Hno].
      * right. exists c1, n1. rewrite lookup_insert_ne by congruence. done.
Qed.

Lemma free_block s A l' c n s' :
  cm_inv s A → A !! c = Some n →
  changed (coremap s) l' c n (λ _, reset_entry) →
  coremap s' = l' → base_coremap_page s' = base_coremap_page s →
  num_coremap_entries s' = num_coremap_entries s →
  num_coremap_free s' = num_coremap_free s + n →
  cm_inv s' (delete c A).
Proof.
  intros ((Hbase & Hnum & Hmax) & Hfree & [Hblk Hpair] & He) Hc Hch Hl' Hb' Hn' Hf'.
  pose proof (Hblk _ _ Hc) as Hrng. pose proof (changed_length _ _ _ _ _ Hch) as Hlen.
  assert (∀ i e, c ≤ Z.of_nat i < c + n → coremap s !! i = Some e →
    frame_ok A (Z.of_nat i) e → pageState e = PS_P) as HP.
  { intros i e Hi _ [(_ & _ & _ & Hno)|(? & ? & _ & _ & ? & _)]; [|done].
    by destruct (Hno _ _ Hc). }
  split; [|split; [|split]].
  - unfold cm_shape. rewrite Hb', Hn', Hl', Hlen. done.
  - rewrite Hf', Hl', Hfree. symmetry. eapply n_free_given; eauto; [lia|lia|lia|].
    intros i e Hi Hl. apply (HP (Z.to_nat i)); [lia|done|]. by apply He in Hl as [_ ?].
  - rewrite Hn'. split.
    + intros c1 n1 [_ ?]%lookup_delete_Some. eauto.
    + intros c1 n1 c2 n2 [_ ?]%lookup_delete_Some [_ ?]%lookup_delete_Some. eauto.
  - rewrite Hl', Hb'. intros i e. rewrite Hch. intros (e0 & Hi & ->)%fmap_Some.
    destruct (He _ _ Hi) as [Hself Hok].
    destruct ((c <=? Z.of_nat i) && (Z.of_nat i <? c + n)) eqn:E; simpl.
    + split; [done|]. left. split_and!; try done. intros c1 n1 [Hne Hc1]%lookup_delete_Some.
      destruct (Hpair _ _ _ _ Hc Hc1); [done|]. pose proof (Hblk _ _ Hc1). lia.
    + split; [done|]. destruct Hok as [(?&?&?&Hno)|(c1 & n1 & Hc1 & Hr & Hrest)].
      * left. split_and!; try done. intros c1 n1 [_ ?]%lookup_delete_Some. eauto.
      * right. exists c1, n1. rewrite lookup_delete_ne; [done|]. intros <-.
        assert (n1 = n) as -> by congruence. lia.
Qed.

(** ** Specifications of the operations *)

Lemma paddr_of_frame s i :
  cm_shape s → 0 ≤ i < num_coremap_entries s → COREMAP_TO_PADDR s i = frame_paddr s i.
Proof.
  intros (Hb & Hn & Hm) Hi. unfold COREMAP_TO_PADDR, frame_paddr, PAGE_SIZE.
  rewrite (u32_id (i + _)) by in_range. apply u32_id. in_range.
Qed.

Lemma frame_of_paddr s i :
  cm_shape s → 0 ≤ i < num_coremap_entries s → PADDR_TO_COREMAP s (frame_paddr s i) = i.
Proof.
  intros (Hb & Hn & Hm) Hi. unfold PADDR_TO_COREMAP, frame_paddr, PAGE_SIZE.
  rewrite Z.mul_comm, Z.div_mul by lia. rewrite u32_id by in_range. lia.
Qed.

Lemma changed_insert l i e f :
  l !! i = Some e → changed l (<[i := f (Z.of_nat i) e]> l) (Z.of_nat i) 1 f.
Proof.
  intros Hi k. destruct (decide (i = k)) as [<-|Hne].
  - rewrite list_lookup_insert_eq by (by eapply lookup_lt_Some). rewrite Hi; simpl.
    by match goal with |- context [if ?b then _ else _] => replace b with true by lia end.
  - rewrite list_lookup_insert_ne by done.
    match goal with |- context [if ?b then _ else _] => replace b with false by lia end.
    by destruct (l !! k).
Qed.

Lemma is_P_false e : is_P e = false ↔ pageState e = PS_H.
Proof.
  unfold is_P. rewrite bool_decide_eq_false. destruct (pageState e); naive_solver.
Qed.

Lemma is_P_true e : is_P e = true ↔ pageState e = PS_P.
Proof. unfold is_P. by rewrite bool_decide_eq_true. Qed.

Lemma is_H_negb e : is_H e = negb (is_P e).
Proof. unfold is_H, is_P. by destruct (pageState e). Qed.

Definition same_but_frames (s s' : cmstate) : Prop :=
  kmem s' = kmem s ∧ curspl s' = curspl s ∧ ie_c s' = ie_c s ∧
  base_coremap_page s' = base_coremap_page s ∧
  num_coremap_entries s' = num_coremap_entries s.

Lemma coremapAllocateOneFrame_spec s A kernel :
  cm_inv s A →
  wp (coremapAllocateOneFrame 1 kernel s) (λ '(pa, s'),
    (num_coremap_free s = 0 ∧ pa = 0 ∧ s' = s) ∨
    (∃ c, 0 ≤ c < num_coremap_entries s ∧ pa = frame_paddr s c ∧ A !! c = None ∧
       (∀ i e, Z.of_nat i < c → coremap s !! i = Some e → pageState e = PS_P) ∧
       run_free (coremap s) c 1 ∧ cm_inv s' (<[c := 1]> A) ∧ same_but_frames s s')).
Proof.
  intros Hinv. pose proof Hinv as (Hs & Hf & Hblk & He). pose proof Hs as (Hb & Hn & Hm).
  unfold coremapAllocateOneFrame.
  destruct (num_coremap_free s =? 0) eqn:E; [wp_val; left; split_and!; [lia|done|done]|].
  rewrite wp_bind. eapply wp_mono.
  - apply (wp_for_loop
      (λ i _, ∀ k e, Z.of_nat k < i → coremap s !! k = Some e → pageState e = PS_P)
      (λ c, 0 ≤ c < num_coremap_entries s ∧ run_free (coremap s) c 1 ∧
        ∀ k e, Z.of_nat k < c → coremap s !! k = Some e → pageState e = PS_P)); [lia|].
    intros j [] Hj Hpre. rewrite wp_bind. apply wp_getz; [lia|]. intros e Hl.
    destruct (is_P e) eqn:EP; wp_val; simpl.
    + intros k e' Hk Hk'. destruct (decide (Z.of_nat k = j)) as [<-|]; [|apply (Hpre k); [lia|done]].
      rewrite Nat2Z.id in Hl. apply is_P_true in EP. congruence.
    + apply is_P_false in EP. split_and!; [lia|lia| |done].
      intros i Hi. replace i with j by lia. exists e. split_and!; [lia|done|done].
  - intros [[]|c]; simpl.
    + intros Hall. pose proof (n_free_bounds (coremap s)).
      destruct (n_free_pos (coremap s)) as (i & e & Hi & Hst); [lia|].
      pose proof (lookup_lt_Some _ _ _ Hi). rewrite (Hall i) in Hst; [done|lia|done].
    + intros (Hc & Hrun & Hmin). destruct (Hrun c) as (e & _ & Hl & Hst); [lia|].
      rewrite wp_bind. apply wp_getz; [lia|]. intros e' He'.
      assert (e' = e) as -> by congruence. rewrite wp_bind.
      apply wp_setz; [lia|]. wp_val. right. exists c.
      pose proof (n_free_bounds (coremap s)).
      destruct (alloc_block s A (<[Z.to_nat c := mark_one kernel e]> (coremap s)) c 1
        (λ _ e, mark_one kernel e)
        (cm_set_free (cm_set_coremap s (<[Z.to_nat c := mark_one kernel e]> (coremap s)))
          (u32 (num_coremap_free s - 1)))) as [HN Hinv']; try done; [lia| | | |].
      * pose proof (changed_insert (coremap s) (Z.to_nat c) e (λ _ e, mark_one kernel e) Hl) as Hch.
        by rewrite Z2Nat.id in Hch by lia.
      * intros i e0 Hi. replace (i =? c) with true by lia. done.
      * simpl. rewrite u32_id; [done|]. in_range.
      * split_and!; try done; try lia. by rewrite paddr_of_frame.
Qed.

(** The inner search, from a free candidate. *)
Lemma run_search_spec l num n c :
  2 ≤ n → num = zlen l → 0 ≤ c < num → run_free l c 1 →
  wp (run_search l num n c) (λ r,
    match r with
    | inr (true, _) => run_free l c n
    | inr (false, j) => c < j < num ∧ j - c < n ∧ (∀ k, c ≤ k ≤ j → ¬ run_free l k n)
    | inl _ => ¬ run_free l c n
    end).
Proof.
  intros Hn Hnum Hc Hfree. unfold run_search. eapply wp_mono.
  - apply (wp_for_loop
      (λ j cnt, cnt = j - (c + 1) ∧ cnt + 1 < n ∧ run_free l c (j - c))
      (λ r : bool * Z, let '(b, j) := r in
         if b then run_free l c n
         else c < j < num ∧ j - c < n ∧ ∀ k, c ≤ k ≤ j → ¬ run_free l k n)).
    + split_and!; [lia|lia|]. by replace (c + 1 - c) with 1 by lia.
    + intros j cnt Hj (-> & Hcnt & Hrun). rewrite wp_bind. apply wp_getz; [lia|].
      intros e He. rewrite is_H_negb. destruct (is_P e) eqn:EP; simpl.
      * apply is_P_true in EP. replace (n =? j - (c + 1) + 1) with false by lia. simpl. wp_val.
        split_and!; try lia. intros k Hk Hr.
        destruct (Hr j) as (e' & _ & He' & Hst); [lia|]. congruence.
      * apply is_P_false in EP.
        assert (run_free l c (j + 1 - c)) as Hrun'.
        { intros i Hi. destruct (decide (i = j)) as [->|]; [|apply Hrun; lia].
          exists e. split_and!; [lia|done|done]. }
        destruct (n =? j - (c + 1) + 1 + 1) eqn:E; wp_val; simpl.
        -- by replace n with (j + 1 - c) by lia.
        -- split_and!; [lia|lia|done].
  - intros [cnt|[[] j]]; simpl; try done. intros (-> & Hlt & _) Hrun.
    destruct (Hrun (c + n - 1)) as (e & ? & Hl & _); [lia|]. apply lookup_lt_Some in Hl. lia.
Qed.

(** First fit: when a run of [n] free frames exists, the search stops at the
    lowest one. *)
Lemma multi_search_spec s n :
  2 ≤ n → num_coremap_entries s = zlen (coremap s) →
  (∃ c, run_free (coremap s) c n) →
  wp (multi_search s n) (λ oc, ∃ c, oc = Some c ∧ 0 ≤ c ∧ run_free (coremap s) c n ∧
    ∀ k, 0 ≤ k < c → ¬ run_free (coremap s) k n).
Proof.
  intros Hn Hnum [c0 Hc0]. unfold multi_search.
  assert (0 ≤ c0 < num_coremap_entries s) as Hc0r.
  { destruct (Hc0 c0) as (e & ? & Hl & _); [lia|]. apply lookup_lt_Some in Hl. lia. }
  eapply (wp_while_loop
    (λ '(i, _), 0 ≤ i ∧ ∀ k, 0 ≤ k < i → ¬ run_free (coremap s) k n) _
    (λ '(i, _), Z.to_nat (num_coremap_entries s - i))); [split; [done|lia]|lia|].
  intros [i oc] [Hi Hno]. destruct (i <? num_coremap_entries s) eqn:E.
  2: { exfalso. apply (Hno c0); [lia|done]. }
  rewrite wp_bind. apply wp_getz; [lia|]. intros e He. destruct (is_P e) eqn:EP.
  - wp_val. simpl. apply is_P_true in EP. split; [|lia]. split; [lia|].
    intros k Hk Hrun. destruct (decide (k = i)) as [->|]; [|apply (Hno k); [lia|done]].
    destruct (Hrun i) as (e' & _ & He' & ?); [lia|]. congruence.
  - apply is_P_false in EP. wp_call run_search_spec; [done|done|lia| |].
    { intros k Hk. replace k with i by lia. exists e. split_and!; [lia|done|done]. }
    intros [cnt|[[] j]] Hr; wp_val; simpl.
    + split; [|lia]. split; [lia|]. intros k Hk. destruct (decide (k = i)) as [->|]; [done|].
      apply Hno. lia.
    + exists i. done.
    + destruct Hr as (? & ? & Hr). split; [|lia]. split; [lia|]. intros k Hk.
      destruct (decide (k < i)); [apply Hno; lia|apply Hr; lia].
Qed.

(** What the marking loop of the multi-frame allocator does to frame [i]. *)
Definition multi_mark (c n kernel i : Z) (e : coremap_entry) : coremap_entry :=
  mark_multi n kernel (if i =? c then mark_start e else e).

Lemma mark_loop_spec l c n kernel e :
  0 ≤ c → 1 ≤ n → c + n ≤ zlen l → l !! Z.to_nat c = Some e →
  wp (for_range (Z.to_nat n) c (λ i l, e ← l.[i]; setz l i (mark_multi n kernel e))
        (<[Z.to_nat c := mark_start e]> l))
     (λ l', changed l l' c n (multi_mark c n kernel)).
Proof.
  intros Hc Hn Hlen He.
  eapply wp_mono; [apply (wp_for_range (λ j lj, ∀ i, lj !! i =
     (λ e, if (c <=? Z.of_nat i) && (Z.of_nat i <? j) then multi_mark c n kernel (Z.of_nat i) e
           else if Z.of_nat i =? c then mark_start e else e) <$> (l !! i)))|].
  - intros i. rewrite list_lookup_insert. case_decide as Hd.
    + destruct Hd as [<- _]. rewrite He; simpl.
      replace ((c <=? _) && _) with false by lia. by replace (_ =? c) with true by lia.
    + replace ((c <=? Z.of_nat i) && (Z.of_nat i <? c)) with false by lia.
      destruct (l !! i) as [e'|] eqn:Ei; [|done]. simpl.
      replace (Z.of_nat i =? c) with false; [done|]. apply lookup_lt_Some in Ei. lia.
  - intros j lj Hj Hlj. assert (length lj = length l) as Hll.
    { apply (changed_length l lj c (j - c + (if decide (j = c) then 1 else 0))
        (λ i e, if (c <=? i) && (i <? j) then multi_mark c n kernel i e
                else if i =? c then mark_start e else e)).
      intros i. rewrite Hlj. destruct (l !! i) as [e0|]; [|done]. simpl. f_equal.
      case_decide; destruct ((c <=? Z.of_nat i) && (Z.of_nat i <? j)) eqn:E1;
        destruct (Z.of_nat i =? c) eqn:E2;
        destruct ((c <=? Z.of_nat i) && (Z.of_nat i <? c + _)) eqn:E3; try done; lia. }
    destruct (lookup_lt_is_Some_2 l (Z.to_nat j)) as [ej Hej]; [lia|].
    rewrite wp_bind. apply wp_getz; [lia|]. intros e' He'. apply wp_setz; [lia|].
    rewrite Hlj, Hej in He'. simpl in He'. rewrite Z2Nat.id in He' by lia.
    replace ((c <=? j) && (j <? j)) with false in He' by lia. injection He' as <-.
    intros i. destruct (decide (i = Z.to_nat j)) as [->|Hne].
    + rewrite list_lookup_insert_eq, Hej by lia. simpl. rewrite Z2Nat.id by lia.
      by replace ((c <=? j) && (j <? j + 1)) with true by lia.
    + rewrite list_lookup_insert_ne, Hlj by done. destruct (l !! i); [|done]. simpl.
      by replace (Z.of_nat i <? j + 1) with (Z.of_nat i <? j) by lia.
  - intros l' Hl' i. rewrite Hl'. rewrite Z2Nat.id by lia. destruct (l !! i); [|done]. simpl.
    destruct ((c <=? Z.of_nat i) && (Z.of_nat i <? c + n)) eqn:E; [done|].
    by replace (Z.of_nat i =? c) with false by lia.
Qed.

Lemma coremapAllocateMultipleFrame_spec s A n kernel :
  cm_inv s A → 2 ≤ n → (∃ c, run_free (coremap s) c n) →
  wp (coremapAllocateMultipleFrame n kernel s) (λ '(pa, s'),
    ∃ c, 0 ≤ c ∧ c + n ≤ num_coremap_entries s ∧ pa = frame_paddr s c ∧ A !! c = None ∧
      run_free (coremap s) c n ∧ (∀ k, 0 ≤ k < c → ¬ run_free (coremap s) k n) ∧
      cm_inv s' (<[c := n]> A) ∧ same_but_frames s s').
Proof.
  intros Hinv Hn Hex. pose proof Hinv as (Hs & Hf & Hblk & He). pose proof Hs as (Hb & Hnum & Hm).
  unfold coremapAllocateMultipleFrame.
  assert (∀ c, run_free (coremap s) c n → c + n ≤ zlen (coremap s) ∧ 0 ≤ c) as Hbd.
  { intros c Hc. destruct (Hc (c + n - 1)) as (e & ? & Hl & _); [lia|].
    apply lookup_lt_Some in Hl. destruct (Hc c) as (? & ? & _); [lia|]. lia. }
  assert (n ≤ n_free (coremap s)) as Hle.
  { destruct Hex as [c Hc]. destruct (Hbd _ Hc). rewrite (n_free_split (coremap s) c n).
    rewrite (n_free_all (take (Z.to_nat n) (drop _ _))).
    - rewrite length_take, length_drop.
      pose proof (n_free_bounds (take (Z.to_nat c) (coremap s))).
      pose proof (n_free_bounds (drop (Z.to_nat c + Z.to_nat n) (coremap s))). lia.
    - apply Forall_run; [done|]. intros i e Hi Hl.
      destruct (Hc i Hi) as (e' & _ & He' & ?). congruence. }
  replace (n >? num_coremap_free s) with false by lia.
  wp_call multi_search_spec; [done|done|done|]. intros oc (c & -> & Hc0 & Hrun & Hmin). simpl.
  destruct (Hbd _ Hrun) as [Hend _]. destruct (Hrun c) as (e & _ & Hl & Hst); [lia|].
  rewrite wp_bind. apply wp_getz; [lia|]. intros e' He'.
  assert (e' = e) as -> by congruence. rewrite wp_bind. apply wp_setz; [lia|].
  wp_call mark_loop_spec; [done|lia|done|done|]. intros l' Hch. wp_val.
  pose proof (n_free_bounds (coremap s)).
  destruct (alloc_block s A l' c n (multi_mark c n kernel)
    (cm_set_free (cm_set_coremap s l') (u32 (num_coremap_free s - n)))) as [HN Hinv'];
    try done; [lia| | |].
  - intros i e0 Hi. unfold multi_mark. by destruct (i =? c).
  - simpl. rewrite u32_id; [done|]. in_range.
  - exists c. split_and!; try done; try lia. rewrite paddr_of_frame; [done|done|lia].
Qed.

(** Releasing a block in use: exactly its frames become free. *)
Definition zero_pages (kva : Z) (n : nat) (m : gmap Z Z) : gmap Z Z :=
  foldl (λ m k, zero_page (kva + PAGE_SIZE * k) m) m (seqZ 0 (Z.of_nat n)).

Lemma reset_loop_spec l m c n kva :
  0 ≤ c → 0 ≤ n → c + n ≤ zlen l → 0 ≤ kva → kva + PAGE_SIZE * n < 2 ^ 32 →
  wp (for_range (Z.to_nat n) c (λ i '(l, m, p),
        e ← l.[i]; l ← l.[i <- reset_entry e];
        mret (l, zero_page p m, u32 (p + 0x1000))) (l, m, kva))
     (λ '(l', m', _), changed l l' c n (λ _, reset_entry) ∧
        m' = zero_pages kva (Z.to_nat n) m).
Proof.
  intros Hc Hn Hlen Hk0 Hk. unfold PAGE_SIZE in *.
  eapply wp_mono; [apply (wp_for_range (λ j '(lj, mj, pj),
    changed l lj c (j - c) (λ _, reset_entry) ∧ pj = kva + 4096 * (j - c) ∧
    mj = zero_pages kva (Z.to_nat (j - c)) m))|].
  - split_and!; [|lia|by rewrite Z.sub_diag].
    intros i. replace ((c <=? Z.of_nat i) && _) with false by lia. by destruct (l !! i).
  - intros j [[lj mj] pj] Hj (Hch & -> & ->).
    pose proof (changed_length _ _ _ _ _ Hch) as Hll.
    destruct (lookup_lt_is_Some_2 l (Z.to_nat j)) as [ej Hej]; [lia|].
    rewrite wp_bind. apply wp_getz; [lia|]. intros e' He'. rewrite wp_bind.
    apply wp_setz; [lia|]. wp_val.
    rewrite Hch, Hej in He'. simpl in He'. rewrite Z2Nat.id in He' by lia.
    replace ((c <=? j) && _) with false in He' by lia. injection He' as <-.
    split_and!.
    + intros i. destruct (decide (i = Z.to_nat j)) as [->|Hne].
      * rewrite list_lookup_insert_eq, Hej by lia. simpl. rewrite Z2Nat.id by lia.
        by replace ((c <=? j) && _) with true by lia.
      * rewrite list_lookup_insert_ne, Hch by done. destruct (l !! i); [|done]. simpl.
        by replace (Z.of_nat i <? c + (j + 1 - c)) with (Z.of_nat i <? c + (j - c)) by lia.
    + rewrite u32_id by in_range. lia.
    + replace (Z.to_nat (j + 1 - c)) with (S (Z.to_nat (j - c))) by lia.
      unfold zero_pages. rewrite Nat2Z.inj_succ, <- Z.add_1_r, seqZ_app by lia.
      rewrite foldl_app. simpl. unfold PAGE_SIZE. do 3 f_equal. lia.
  - intros [[l' m'] p'] (Hch & _ & ->). rewrite Z2Nat.id in * by lia.
    by replace (c + n - c) with n in * by lia.
Qed.

Lemma coremapFree_spec s A c n :
  cm_inv s A → A !! c = Some n →
  wp (coremapFree (frame_paddr s c) s) (λ s',
    cm_inv s' (delete c A) ∧
    kmem s' = zero_pages (frame_paddr s c + MIPS_KSEG0) (Z.to_nat n) (kmem s) ∧
    base_coremap_page s' = base_coremap_page s ∧
    num_coremap_entries s' = num_coremap_entries s ∧
    curspl s' = curspl s ∧ ie_c s' = ie_c s).
Proof.
  intros Hinv Hc. pose proof Hinv as (Hs & Hf & [Hblk Hpair] & He).
  pose proof Hs as (Hb & Hnum & Hm). pose proof (Hblk _ _ Hc) as Hrng.
  unfold coremapFree. rewrite frame_of_paddr by (try done; lia). wp_step.
  destruct (lookup_lt_is_Some_2 (coremap s) (Z.to_nat c)) as [e Hl]; [lia|].
  assert (frame_paddr s c + MIPS_KSEG0 + PAGE_SIZE * n < 2 ^ 32 ∧
          0 ≤ frame_paddr s c) as Hpa.
  { unfold frame_paddr, MIPS_KSEG0, PAGE_SIZE. lia. }
  unfold PADDR_TO_KVADDR. rewrite (u32_id (frame_paddr s c + MIPS_KSEG0))
    by (unfold is_u32, MIPS_KSEG0, PAGE_SIZE in *; lia).
  apply wp_getz; [lia|]. intros e' He'. assert (e' = e) as -> by congruence.
  destruct (He _ _ Hl) as [Hself Hok]. rewrite Z2Nat.id in * by lia.
  assert (ce_length e = n ∧ startAddr e = frame_paddr s c) as [Hlen Hst].
  { destruct Hok as [(_ & _ & _ & Hno)|(c1 & n1 & Hc1 & Hr & _ & Hlen & Hst)];
      [destruct (Hno _ _ Hc); lia|].
    assert (c1 = c) as ->.
    { destruct (Hpair _ _ _ _ Hc Hc1) as [|[|]]; [done|lia|lia]. }
    assert (n1 = n) as -> by congruence. rewrite Z.eqb_refl in Hst. by rewrite Hst, Hself. }
  pose proof (n_free_bounds (coremap s)) as Hnf.
  assert (n_free (coremap s) + n ≤ zlen (coremap s)) as Hsum.
  { rewrite (n_free_split (coremap s) c n).
    rewrite (n_free_none (take (Z.to_nat n) (drop (Z.to_nat c) (coremap s)))).
    - pose proof (n_free_bounds (take (Z.to_nat c) (coremap s))).
      pose proof (n_free_bounds (drop (Z.to_nat c + Z.to_nat n) (coremap s))).
      rewrite length_take, length_drop in *. lia.
    - apply Forall_run; [lia|]. intros i ei Hi Hei.
      destruct (He _ _ Hei) as [_ [(_ & _ & _ & Hno)|(? & ? & _ & _ & ? & _)]]; [|done].
      destruct (Hno _ _ Hc). lia. }
  rewrite Hlen, Hst. destruct (n =? 1) eqn:E1.
  - wp_step. apply wp_setz; [lia|]. wp_val. split_and!; try done.
    + eapply free_block; try done.
      * replace n with 1 by lia.
        pose proof (changed_insert (coremap s) (Z.to_nat c) e (λ _, reset_entry) Hl) as Hch.
        by rewrite Z2Nat.id in Hch by lia.
      * simpl. rewrite u32_id by in_range. lia.
    + simpl. replace n with 1 by lia. unfold zero_pages. simpl. f_equal. lia.
  - replace (n >? 1) with true by lia. wp_step.
    wp_call reset_loop_spec; [lia..|unfold MIPS_KSEG0; lia|lia|].
    intros [[l' m'] p'] [Hch ->]. wp_val. split_and!; try done.
    eapply free_block; try done. simpl. apply u32_id. in_range.
Qed.

(** ** Bootstrap establishes the invariant *)

Lemma pages_of_bytes n : 0 ≤ n ≤ 2 ^ 17 →
  ROUNDUP (n * 56) 4096 = ((n * 56 + 4095) / 4096) * 4096 ∧
  0 ≤ (n * 56 + 4095) / 4096 ≤ n.
Proof.
  intros Hn. unfold ROUNDUP, DIVROUNDUP.
  unwrap.
  replace (n * 56 + 4096 - 1) with (n * 56 + 4095) by lia.
  assert (0 ≤ (n * 56 + 4095) / 4096 ≤ n).
  { split; [apply Z.div_pos; lia|]. apply Z.lt_succ_r, Z.div_lt_upper_bound; lia. }
  rewrite u32_id by in_range. lia.
Qed.

Lemma land_page_frame k : 0 ≤ k < 2 ^ 20 → Z.land (k * 4096) PAGE_FRAME = k * 4096.
Proof.
  intros Hk. change PAGE_FRAME with (Z.shiftl (Z.ones 20) 12).
  replace (k * 4096) with (Z.shiftl k 12) by (rewrite Z.shiftl_mul_pow2; lia).
  rewrite <- Z.shiftl_land. f_equal. rewrite Z.land_ones by lia. apply Z.mod_small. lia.
Qed.

Lemma coremap_bootstrap_spec s f l :
  0 < f ≤ l → l ≤ 2 ^ 17 →
  wp (coremap_bootstrap (PAGE_SIZE * f) (PAGE_SIZE * l) s) (λ s',
    cm_inv s' ∅ ∧ num_coremap_free s' = num_coremap_entries s' ∧
    base_coremap_page s' + num_coremap_entries s' = l ∧
    56 * num_coremap_entries s' ≤ PAGE_SIZE * (base_coremap_page s' - f) ∧
    kmem s' = kmem s).
Proof.
  intros Hf Hl. unfold coremap_bootstrap, PAGE_SIZE, COREMAP_ENTRY_SIZE.
  rewrite (u32_id (4096 * l - 4096 * f)) by in_range.
  replace (4096 * l - 4096 * f) with ((l - f) * 4096) by lia. rewrite Z.div_mul by lia.
  rewrite (u32_id ((l - f) * 56)) by in_range.
  destruct (pages_of_bytes (l - f)) as [-> Hp]; [lia|].
  set (k := ((l - f) * 56 + 4095) / 4096) in *.
  rewrite land_page_frame, Z.eqb_refl by lia. wp_step.
  rewrite (u32_id (4096 * f + k * 4096)) by in_range.
  replace (4096 * f + k * 4096) with ((f + k) * 4096) by lia.
  rewrite (Z.mul_comm 4096 l), !Z.div_mul by lia.
  unwrap. wp_step.
  set (num := l - (f + k)) in *. simpl.
  assert (Hlist : ∀ (g : nat → coremap_entry) n,
    (∀ i, pageState (g i) = PS_H) → n_free (g <$> seq 0 n) = Z.of_nat n).
  { intros g n Hg. rewrite n_free_all; [by rewrite length_fmap, length_seq|].
    apply Forall_fmap, Forall_forall. intros i _. apply Hg. }
  split_and!; try done; try lia.
  - unfold cm_inv, cm_shape; simpl. rewrite length_fmap, length_seq.
    split_and!; try lia.
    + rewrite Hlist by done. lia.
    + split; intros; by rewrite lookup_empty in *.
    + intros i e. rewrite list_lookup_fmap. intros (j & Hj & ->)%fmap_Some.
      apply lookup_seq in Hj as [-> Hj]. simpl. split.
      * unfold COREMAP_TO_PADDR, PAGE_SIZE; simpl.
        unwrap. done.
      * left. split_and!; try done; intros; by rewrite lookup_empty in *.
  - assert ((l - f) * 56 ≤ k * 4096); [|lia].
    pose proof (Z.div_mod ((l - f) * 56 + 4095) 4096 ltac:(lia)) as Hdm.
    pose proof (Z.mod_pos_bound ((l - f) * 56 + 4095) 4096 ltac:(lia)).
    fold k in Hdm. lia.
Qed.

(** ** One frame for the kernel *)

Definition spl_ok (s : cmstate) : Prop := 0 ≤ curspl s ∧ ie_c s = (curspl s =? 0).

Lemma getppages_one s A kernel :
  cm_inv s A → spl_ok s →
  wp (getppages 1 kernel s) (λ '(pa, s'),
    (num_coremap_free s = 0 ∧ pa = 0 ∧ s' = (splhigh s).2) ∨
    (∃ c, 0 ≤ c < num_coremap_entries s ∧ pa = frame_paddr s c ∧ pa ≠ 0 ∧ A !! c = None ∧
       run_free (coremap s) c 1 ∧ cm_inv s' (<[c := 1]> A) ∧ same_but_frames s s')).
Proof.
  intros Hinv [Hspl0 Hspl]. unfold getppages, splhigh. simpl.
  wp_call (coremapAllocateOneFrame_spec _ A); [exact Hinv|].
  intros [pa s'] [(Hz & -> & ->)|(c & Hc & -> & HN & Hmin & Hrun & Hinv' & Hsame)].
  - wp_val. left. done.
  - pose proof Hinv as ((Hb & _) & _).
    unfold INVALID_PADDR. replace (frame_paddr _ c =? 0) with false
      by (unfold frame_paddr, PAGE_SIZE; simpl; lia).
    wp_val. right. exists c. destruct Hsame as (Hk & _ & _ & Hb' & Hn'). simpl in *.
    split_and!; try done; try lia.
    + unfold frame_paddr, PAGE_SIZE; simpl. lia.
    + unfold same_but_frames; simpl. split_and!; try done. rewrite Hspl.
      destruct (curspl s >? 0) eqn:E, (curspl s =? 0) eqn:E2; lia.
Qed.

(** A failed request leaves interrupts off: the early return of [getppages]
    skips [splx]. *)
Lemma getppages_fail_spl s A kernel :
  cm_inv s A → num_coremap_free s = 0 →
  wp (getppages 1 kernel s) (λ '(pa, s'), pa = 0 ∧ curspl s' = SPL_HIGH ∧ ie_c s' = false).
Proof.
  intros Hinv Hz. unfold getppages, splhigh. simpl. unfold coremapAllocateOneFrame. simpl.
  rewrite Hz. simpl. by wp_val.
Qed.

(** ** Fragmentation

    With enough free frames but no run of [n], the multi-frame allocator does not
    fail: it falls through to its marking loop with the last candidate. *)

(** The search then ends with a free frame as candidate. *)
Lemma multi_search_last s n :
  2 ≤ n → num_coremap_entries s = zlen (coremap s) → 0 < n_free (coremap s) →
  (∀ c, ¬ run_free (coremap s) c n) →
  wp (multi_search s n) (λ oc, ∃ c, oc = Some c ∧ 0 ≤ c < num_coremap_entries s).
Proof.
  intros Hn Hnum Hfree Hno. unfold multi_search.
  eapply (wp_while_loop
    (λ '(i, oc), 0 ≤ i ∧
       match oc with
       | Some c => 0 ≤ c < num_coremap_entries s
       | None => ∀ k e, Z.of_nat k < i → coremap s !! k = Some e → pageState e = PS_P
       end) _
    (λ '(i, _), Z.to_nat (num_coremap_entries s - i))); [split; [done|lia]|lia|].
  intros [i oc] [Hi Hoc]. destruct (i <? num_coremap_entries s) eqn:E.
  - rewrite wp_bind. apply wp_getz; [lia|]. intros e He. destruct (is_P e) eqn:EP.
    + wp_val. split; [|lia]. split; [lia|]. destruct oc as [c|]; [done|]. intros k e' Hk He'.
      apply is_P_true in EP. destruct (decide (k = Z.to_nat i)) as [->|]; [congruence|].
      apply (Hoc k); [lia|done].
    + apply is_P_false in EP. wp_call run_search_spec; [done|done|lia| |].
      { intros k Hk. replace k with i by lia. exists e. split_and!; [lia|done|done]. }
      intros [cnt|[[] j]] Hr; wp_val; [|by apply Hno in Hr|]; (split; [split; [lia|lia]|lia]).
  - wp_val. destruct oc as [c|]; [by exists c|]. exfalso.
    destruct (n_free_pos _ Hfree) as (k & e & Hl & He). pose proof (lookup_lt_Some _ _ _ Hl).
    rewrite (Hoc k e) in He; [done|lia|done].
Qed.

(** Marking past the end of the coremap is a wild store. *)
Lemma mark_loop_wild l c m n kernel :
  0 ≤ c ≤ zlen l → zlen l < c + Z.of_nat m →
  for_range m c (λ i l, e ← l.[i]; setz l i (mark_multi n kernel e)) l = Fault FUndef.
Proof.
  revert c l. induction m as [|m IH]; intros c l Hc Hm; [lia|].
  unfold for_range; fold (@for_range (list coremap_entry)).
  destruct (decide (c = zlen l)) as [->|Hne].
  - unfold getz. replace (0 <=? zlen l) with true by lia.
    by rewrite (proj2 (lookup_ge_None _ _)) by lia.
  - destruct (lookup_lt_is_Some_2 l (Z.to_nat c)) as [e He]; [lia|].
    rewrite (proj2 (getz_lookup l c e)) by (split; [lia|done]). simpl.
    rewrite (proj2 (setz_Ok l c _ _)) by (split; [lia|reflexivity]). simpl.
    apply IH; rewrite length_insert; lia.
Qed.

(** A run that is not free has a frame of a block. *)
Lemma run_not_free s A c n :
  cm_inv s A → 0 ≤ c → c + n ≤ num_coremap_entries s → ¬ run_free (coremap s) c n →
  ∃ i c' n', c ≤ i < c + n ∧ A !! c' = Some n' ∧ c' ≤ i < c' + n'.
Proof.
  intros ((_ & Hnum & _) & _ & _ & He) Hc Hend Hno.
  destruct (decide (Forall (λ i, pageState <$> coremap s !! Z.to_nat i = Some PS_H) (seqZ c n))) as [Hall|Hex].
  - destruct Hno. intros i Hi. rewrite Forall_forall in Hall. specialize (Hall i).
    rewrite elem_of_seqZ in Hall. apply fmap_Some in Hall as (e & Hl & Hst); [|lia].
    exists e. split_and!; [lia|done|done].
  - apply not_Forall_Exists in Hex; [|apply _]. apply Exists_exists in Hex as (i & Hi & Hst).
    apply elem_of_seqZ in Hi. destruct (lookup_lt_is_Some_2 (coremap s) (Z.to_nat i)) as [e Hl]; [lia|].
    unfold compose in Hst. rewrite Hl in Hst. simpl in Hst. destruct (He _ _ Hl) as [_ Hok]. rewrite Z2Nat.id in Hok by lia.
    destruct Hok as [(Hh & _)|(c' & n' & HA & Hin & _)]; [congruence|]. by exists i, c', n'.
Qed.

(** ** Counting

    Which frames are free, and how many, depends on the allocation map alone. *)

Lemma frame_free_iff s A i e :
  cm_inv s A → coremap s !! i = Some e →
  pageState e = PS_H ↔ ∀ c n, A !! c = Some n → ¬ (c ≤ Z.of_nat i < c + n).
Proof.
  intros (_ & _ & _ & He) Hl. destruct (He _ _ Hl) as [_ [(Hst & _ & _ & Hno)|(c & n & HA & Hi & Hst & _)]].
  - done.
  - rewrite Hst. split; [done|]. intros Hno. by destruct (Hno c n HA).
Qed.

Lemma n_free_states l l' : pageState <$> l = pageState <$> l' → n_free l = n_free l'.
Proof.
  unfold n_free. revert l'. induction l as [|e l IH]; intros [|e' l'] Heq; simplify_eq/=; [done|].
  rewrite !filter_cons. specialize (IH l' ltac:(done)).
  destruct (decide (pageState e = PS_H)), (decide (pageState e' = PS_H)); simpl; try congruence; lia.
Qed.

Lemma free_count_same s s' A :
  cm_inv s A → cm_inv s' A → num_coremap_entries s' = num_coremap_entries s →
  num_coremap_free s' = num_coremap_free s.
Proof.
  intros Hi Hi' Hn. pose proof Hi as ((_ & Hl & _) & -> & _). pose proof Hi' as ((_ & Hl' & _) & -> & _).
  apply n_free_states, list_eq. intros i. rewrite !list_lookup_fmap.
  destruct (coremap s !! i) as [a|] eqn:Ea, (coremap s' !! i) as [b|] eqn:Eb; simpl;
    [|apply lookup_lt_Some in Ea; apply lookup_ge_None in Eb; lia
     |apply lookup_lt_Some in Eb; apply lookup_ge_None in Ea; lia|done].
  pose proof (frame_free_iff s A i a Hi Ea). pose proof (frame_free_iff s' A i b Hi' Eb).
  f_equal. destruct (pageState a), (pageState b); naive_solver.
Qed.

(** One block of one frame more is one free frame less. *)
Lemma free_count s A s' c :
  cm_inv s A → cm_inv s' (<[c := 1]> A) → A !! c = None →
  num_coremap_entries s' = num_coremap_entries s →
  num_coremap_free s = num_coremap_free s' + 1.
Proof.
  intros Hi Hi' Hc Hn. pose proof Hi as ((_ & Hl & _) & -> & _). pose proof Hi' as ((_ & Hl' & _) & -> & [Hr Hd] & _).
  assert (0 ≤ c < zlen (coremap s)) as Hcr by (specialize (Hr c 1 ltac:(by rewrite lookup_insert_eq)); lia).
  destruct (lookup_lt_is_Some_2 (coremap s) (Z.to_nat c)) as [e He]; [lia|].
  destruct (lookup_lt_is_Some_2 (coremap s') (Z.to_nat c)) as [e' He']; [lia|].
  assert (pageState e = PS_H) as Hst.
  { apply (frame_free_iff s A _ e Hi He). intros c' n' HA Hin.
    assert (c ≠ c') as Hne by congruence.
    destruct (Hd c 1 c' n'); rewrite ?lookup_insert_eq, ?lookup_insert_ne by done; try done; lia. }
  assert (pageState e' = PS_P) as Hst'.
  { destruct (pageState e') eqn:E; [done|]. exfalso.
    apply (proj1 (frame_free_iff s' _ _ e' Hi' He') E c 1); [by rewrite lookup_insert_eq|lia]. }
  assert (n_free (coremap s') = n_free (<[Z.to_nat c := e']> (coremap s))) as ->.
  { apply n_free_states, list_eq. intros i. rewrite !list_lookup_fmap. destruct (decide (i = Z.to_nat c)) as [->|Hne].
    { by rewrite list_lookup_insert_eq, He' by lia. }
    rewrite list_lookup_insert_ne by done.
    destruct (coremap s !! i) as [a|] eqn:Ea, (coremap s' !! i) as [b|] eqn:Eb; simpl; [|apply lookup_lt_Some in Ea; apply lookup_ge_None in Eb; lia
      |apply lookup_lt_Some in Eb; apply lookup_ge_None in Ea; lia|done].
    assert (pageState a = PS_H ↔ pageState b = PS_H) as Hab.
    { rewrite (frame_free_iff s A i a), (frame_free_iff s' _ i b) by done. split; intros Hno c' n'.
      - intros [[<- <-]|[_ HA]]%lookup_insert_Some; [lia|by apply Hno].
      - intros HA. apply Hno. rewrite lookup_insert_ne; [done|congruence]. }
    f_equal. destruct (pageState a), (pageState b); naive_solver. }
  pose proof (n_free_taken (coremap s) (<[Z.to_nat c := e']> (coremap s)) c 1 (λ _ _, e')) as Ht.
  rewrite Ht; try done; try lia.
  - pose proof (changed_insert (coremap s) (Z.to_nat c) e (λ _ _, e') He) as Hch. by rewrite Z2Nat.id in Hch by lia.
  - intros i Hi0. replace i with c by lia. exists e. split_and!; [lia|done|done].
Qed.

(** ** The frame allocator as a system

    The states the kernel can bring the coremap to, from bootstrap, by taking and
    returning frames; [A] records the blocks handed out.  A multi-frame request is
    made where a long enough run is free. *)

Inductive cm_reach : cmstate → gmap Z Z → Prop :=
| reach_boot s f l s' :
    0 < f ≤ l → l ≤ 2 ^ 17 →
    coremap_bootstrap (PAGE_SIZE * f) (PAGE_SIZE * l) s = Ok s' → cm_reach s' ∅
| reach_one s A kernel pa s' :
    cm_reach s A → coremapAllocateOneFrame 1 kernel s = Ok (pa, s') → pa ≠ 0 →
    cm_reach s' (<[PADDR_TO_COREMAP s pa := 1]> A)
| reach_multi s A n kernel pa s' :
    cm_reach s A → 2 ≤ n → (∃ c, run_free (coremap s) c n) →
    coremapAllocateMultipleFrame n kernel s = Ok (pa, s') →
    cm_reach s' (<[PADDR_TO_COREMAP s pa := n]> A)
| reach_free s A c n s' :
    cm_reach s A → A !! c = Some n → coremapFree (frame_paddr s c) s = Ok s' →
    cm_reach s' (delete c A).

Lemma cm_reach_inv s A : cm_reach s A → cm_inv s A.
Proof.
  induction 1 as [s f l s' Hf Hl Hb|s A k pa s' _ IH Ha Hne|s A n k pa s' _ IH Hn Hex Ha
                 |s A c n s' _ IH Hc Hf].
  - by apply (wp_inv _ _ _ (coremap_bootstrap_spec s f l Hf Hl) Hb).
  - pose proof (wp_inv _ _ _ (coremapAllocateOneFrame_spec s A k IH) Ha) as
      [(_ & -> & _)|(c & Hc & -> & _ & _ & _ & Hinv & _)]; [done|].
    rewrite frame_of_paddr; [done|apply IH|done].
  - pose proof (wp_inv _ _ _ (coremapAllocateMultipleFrame_spec s A n k IH Hn Hex) Ha) as
      (c & Hc & Hend & -> & _ & _ & _ & Hinv & _).
    rewrite frame_of_paddr; [done|apply IH|lia].
  - by apply (wp_inv _ _ _ (coremapFree_spec s A c n IH Hc) Hf).
Qed.

Lemma n_free_lookup l i e : l !! i = Some e → pageState e = PS_H → 0 < n_free l.
Proof.
  intros Hl Hst. unfold n_free.
  assert (e ∈ filter (λ e, pageState e = PS_H) l) as Hin.
  { apply list_elem_of_filter. split; [done|]. by eapply list_elem_of_lookup_2. }
  destruct (filter (λ e, pageState e = PS_H) l); [by apply not_elem_of_nil in Hin|].
  simpl. lia.
Qed.

(** A free frame lies in no block. *)
Lemma run_free_no_block s A c n :
  cm_inv s A → run_free (coremap s) c n →
  ∀ c' n' i, A !! c' = Some n' → c ≤ i < c + n → ¬ (c' ≤ i < c' + n').
Proof.
  intros (_ & _ & _ & He) Hrun c' n' i HA Hi Hin.
  destruct (Hrun i Hi) as (e & Hi0 & Hl & Hst). destruct (He _ _ Hl) as [_ Hok].
  rewrite Z2Nat.id in Hok by lia.
  destruct Hok as [(_ & _ & _ & Hno)|(? & ? & _ & _ & Hp & _)]; [by apply (Hno c' n')|congruence].
Qed.

(** C27: in every state reached from [coremap_bootstrap] by one-frame requests, frees, and
    multi-frame requests made while a long enough run of free frames exists (without such a run
    see [coremap_multi_double_allocation]), and without eviction, the counter of free frames is the number of frames marked free, the blocks
    handed out are disjoint and within memory, and a further one-frame request returns:
    it is refused exactly when no frame is free, and otherwise gives a frame of no
    block. *)
Theorem coremap_reachable_safe s A kernel :
  cm_reach s A →
  num_coremap_free s = n_free (coremap s) ∧ blocks_ok (num_coremap_entries s) A ∧
  wp (coremapAllocateOneFrame 1 kernel s) (λ '(pa, s'),
    (pa = 0 ↔ num_coremap_free s = 0) ∧
    (pa ≠ 0 → ∃ c, 0 ≤ c < num_coremap_entries s ∧ pa = frame_paddr s c ∧
       ∀ c' n', A !! c' = Some n' → ¬ (c' ≤ c < c' + n'))).
Proof.
  intros Hinv%cm_reach_inv. pose proof Hinv as ((Hb & _) & Hf & Hblk & _).
  split_and!; [done|done|].
  eapply wp_mono; [by apply (coremapAllocateOneFrame_spec s A)|].
  intros [pa s'] [(Hz & -> & _)|(c & Hc & -> & _ & _ & Hrun & _)]; [done|].
  split.
  - split; [unfold frame_paddr, PAGE_SIZE; lia|]. intros Hz.
    destruct (Hrun c ltac:(lia)) as (e & _ & Hl & Hst).
    pose proof (n_free_lookup _ _ _ Hl Hst). lia.
  - intros _. exists c. split_and!; [lia|lia|done|]. intros c' n' HA.
    eapply (run_free_no_block s A c 1); [done|done|done|lia].
Qed.

(** where a run of [n] free frames exists, [coremapAllocateMultipleFrame] takes the
    first one: it returns its physical address, no frame of it belongs to another
    block, and freeing that address afterwards gives back the same allocation map with
    the memory of the whole run zeroed. *)
Theorem coremap_multi_roundtrip s A n kernel :
  cm_inv s A → 2 ≤ n → (∃ c, run_free (coremap s) c n) →
  ∃ c s' s'', coremapAllocateMultipleFrame n kernel s = Ok (frame_paddr s c, s') ∧
    0 ≤ c ∧ c + n ≤ num_coremap_entries s ∧
    (∀ k, 0 ≤ k < c → ¬ run_free (coremap s) k n) ∧
    (∀ c' n' i, A !! c' = Some n' → c ≤ i < c + n → ¬ (c' ≤ i < c' + n')) ∧
    cm_inv s' (<[c := n]> A) ∧
    coremapFree (frame_paddr s c) s' = Ok s'' ∧ cm_inv s'' A ∧
    kmem s'' = zero_pages (frame_paddr s c + MIPS_KSEG0) (Z.to_nat n) (kmem s).
Proof.
  intros Hinv Hn Hex.
  pose proof (coremapAllocateMultipleFrame_spec s A n kernel Hinv Hn Hex) as Ha.
  apply wp_exists in Ha as ([pa s'] & Ha & c & Hc & Hend & -> & HA & Hrun & Hmin & Hinv' & Hsame).
  destruct Hsame as (Hk & _ & _ & Hb & Hne).
  assert (Hpa : frame_paddr s' c = frame_paddr s c) by (unfold frame_paddr; by rewrite Hb).
  pose proof (coremapFree_spec s' (<[c := n]> A) c n Hinv' ltac:(by rewrite lookup_insert_eq)) as Hf.
  rewrite Hpa in Hf. apply wp_exists in Hf as (s'' & Hf & Hinv'' & Hk'' & _ & Hne'' & _).
  rewrite delete_insert_id in Hinv'' by done.
  exists c, s', s''. split_and!; try done.
  - exact (run_free_no_block s A c n Hinv Hrun).
  - by rewrite Hk'', Hk.
Qed.

(** C36: the multi-frame allocator has no failure path for fragmented memory.  In any
    consistent state with at least [n] free frames but no [n] adjacent ones, a request for
    [n] frames is not refused: either the frames handed out include one that a block in use
    owns, or the marking loop stores past the end of the coremap. *)
Theorem coremap_multi_double_allocation s A n kernel :
  cm_inv s A → 2 ≤ n ≤ num_coremap_free s → (∀ c, ¬ run_free (coremap s) c n) →
  match coremapAllocateMultipleFrame n kernel s with
  | Ok (pa, s') => ∃ c i c' n', pa = frame_paddr s c ∧ pa ≠ 0 ∧ c ≤ i < c + n ∧
      (∃ e, coremap s' !! Z.to_nat i = Some e ∧ ce_length e = n) ∧ A !! c' = Some n' ∧ c' ≤ i < c' + n'
  | Fault f => f = FUndef
  end.
Proof.
  intros Hinv Hn Hno. pose proof Hinv as ((Hb & Hnum & Hm) & Hf & _).
  unfold coremapAllocateMultipleFrame. replace (n >? num_coremap_free s) with false by lia.
  destruct (proj1 (wp_exists _ _) (multi_search_last s n ltac:(lia) Hnum ltac:(lia) Hno))
    as (oc & -> & c & -> & Hc). simpl.
  destruct (lookup_lt_is_Some_2 (coremap s) (Z.to_nat c)) as [e He]; [lia|].
  rewrite (proj2 (getz_lookup _ c e)) by (split; [lia|done]). simpl.
  rewrite (proj2 (setz_Ok _ c _ _)) by (split; [lia|reflexivity]). simpl.
  destruct (decide (c + n ≤ num_coremap_entries s)) as [Hend|Hend].
  - destruct (proj1 (wp_exists _ _) (mark_loop_spec (coremap s) c n kernel e ltac:(lia) ltac:(lia) ltac:(lia) He))
      as (l' & -> & Hch). simpl.
    destruct (run_not_free s A c n Hinv ltac:(lia) Hend (Hno c)) as (i & c' & n' & Hi & HA & Hi').
    exists c, i, c', n'. rewrite paddr_of_frame by (done || lia). split_and!; try done; try lia.
    + unfold frame_paddr, PAGE_SIZE. lia.
    + destruct (lookup_lt_is_Some_2 (coremap s) (Z.to_nat i)) as [ei Hei]; [lia|].
      simpl. rewrite (Hch (Z.to_nat i)), Hei. simpl. rewrite Z2Nat.id by lia.
      replace ((c <=? i) && (i <? c + n)) with true by lia. by eexists.
  - pose proof (mark_loop_wild (<[Z.to_nat c := mark_start e]> (coremap s)) c (Z.to_nat n) n kernel) as Hw.
    rewrite length_insert, Z2Nat.id in Hw by lia. by rewrite Hw by lia.
Qed.

(** a one-frame [getppages] gives a frame of no block and restores the interrupt
    level, unless memory is full: then it answers 0 and leaves the processor at
    [SPL_HIGH] with interrupts disabled, whatever the level was before. *)
Theorem getppages_interrupt_level s A kernel :
  cm_inv s A → spl_ok s →
  wp (getppages 1 kernel s) (λ '(pa, s'),
    (pa ≠ 0 ∧ 0 < num_coremap_free s ∧ curspl s' = curspl s ∧ ie_c s' = ie_c s ∧
      ∃ c, pa = frame_paddr s c ∧ cm_inv s' (<[c := 1]> A) ∧
        ∀ c' n', A !! c' = Some n' → ¬ (c' ≤ c < c' + n')) ∨
    (pa = 0 ∧ num_coremap_free s = 0 ∧ curspl s' = SPL_HIGH ∧ ie_c s' = false ∧ cm_inv s' A)).
Proof.
  intros Hinv Hspl. pose proof Hinv as (_ & Hf & _).
  eapply wp_mono; [by apply (getppages_one s A)|].
  intros [pa s'] [(Hz & -> & ->)|(c & Hc & Hpa & Hne & HA & Hrun & Hinv' & _ & Hsp & Hie & _)].
  - right. split_and!; done.
  - left. split_and!; try done.
    + destruct (Hrun c ltac:(lia)) as (e & _ & Hl & Hst).
      pose proof (n_free_lookup _ _ _ Hl Hst). lia.
    + exists c. split_and!; try done. intros c' n' HA'.
      eapply (run_free_no_block s A c 1); [done|done|done|lia].
Qed.

(** ** Witnesses *)

Definition boot_state : cmstate :=
  match coremap_bootstrap (PAGE_SIZE * 10) (PAGE_SIZE * 15) (CM 0 0 0 [] ∅ 0 true) with
  | Ok s => s
  | Fault _ => CM 0 0 0 [] ∅ 0 true
  end.

Lemma boot_state_reach : cm_reach boot_state ∅.
Proof.
  apply (reach_boot (CM 0 0 0 [] ∅ 0 true) 10 15); [lia|lia|]. vm_compute. reflexivity.
Qed.

Lemma coremap_reachable_safe_witness :
  num_coremap_free boot_state = 4 ∧
  wp (coremapAllocateOneFrame 1 1 boot_state) (λ '(pa, _), pa = 45056 ∧ pa ≠ 0).
Proof.
  split; [vm_compute; reflexivity|].
  pose proof (coremap_reachable_safe boot_state ∅ 1 boot_state_reach) as (_ & _ & Hw).
  eapply wp_exists. eexists. split; [vm_compute; reflexivity|]. split; [done|].
  eapply wp_inv in Hw; [|vm_compute; reflexivity]. intros Hz. apply Hw in Hz. discriminate Hz.
Defined.

Lemma boot_run_free c n : 0 ≤ c → c + n ≤ 4 → run_free (coremap boot_state) c n.
Proof.
  intros H0 Hn i Hi. assert (i = 0 ∨ i = 1 ∨ i = 2 ∨ i = 3) as [->|[->|[->| ->]]] by lia;
    eexists; (split; [lia|]); (split; [vm_compute; reflexivity|reflexivity]).
Qed.

Lemma coremap_multi_roundtrip_witness :
  ∃ s' s'', coremapAllocateMultipleFrame 3 1 boot_state = Ok (45056, s') ∧
    coremapFree 45056 s' = Ok s'' ∧ cm_inv s'' ∅.
Proof.
  destruct (coremap_multi_roundtrip boot_state ∅ 3 1 (cm_reach_inv _ _ boot_state_reach)
    ltac:(lia) (ex_intro _ 0 (boot_run_free 0 3 ltac:(lia) ltac:(lia))))
    as (c & s' & s'' & Ha & Hc & _ & Hmin & _ & _ & Hf & Hinv & _).
  assert (c = 0) as ->.
  { destruct (decide (c = 0)) as [|Hne]; [done|].
    destruct (Hmin 0 ltac:(lia) (boot_run_free 0 3 ltac:(lia) ltac:(lia))). }
  exists s', s''. split_and!; [exact Ha|exact Hf|exact Hinv].
Defined.

(** Four frames are taken and two that are not adjacent given back: [frag_state] is reached
    from boot. *)
Definition take_frame (s : cmstate) : cmstate :=
  match coremapAllocateOneFrame 1 1 s with Ok (_, s') => s' | Fault _ => s end.
Definition give_frame (c : Z) (s : cmstate) : cmstate :=
  match coremapFree (frame_paddr s c) s with Ok s' => s' | Fault _ => s end.
Definition frag_state : cmstate :=
  give_frame 0 (give_frame 2 (take_frame (take_frame (take_frame (take_frame boot_state))))).

Lemma take_frame_reach s A c :
  cm_reach s A → coremapAllocateOneFrame 1 1 s = Ok (frame_paddr s c, take_frame s) →
  0 ≤ c < num_coremap_entries s → cm_reach (take_frame s) (<[c := 1]> A).
Proof.
  intros Hr Ht Hc. pose proof (cm_reach_inv _ _ Hr) as ((Hb & Hs) & _).
  rewrite <- (frame_of_paddr s c) by done. apply (reach_one s A 1 _ _ Hr Ht).
  unfold frame_paddr, PAGE_SIZE. lia.
Qed.

Lemma give_frame_reach s A c n : cm_reach s A → A !! c = Some n → cm_reach (give_frame c s) (delete c A).
Proof.
  intros Hr HA. pose proof (coremapFree_spec s A c n (cm_reach_inv _ _ Hr) HA) as Hw.
  apply wp_exists in Hw as (s' & Hf & _). unfold give_frame. rewrite Hf. by apply (reach_free s A c n).
Qed.

Lemma frag_state_reach :
  cm_reach frag_state (delete 0 (delete 2 (<[3 := 1]> (<[2 := 1]> (<[1 := 1]> (<[0 := 1]> ∅)))))).
Proof.
  apply (give_frame_reach _ _ 0 1); [|done]. apply (give_frame_reach _ _ 2 1); [|done].
  repeat (apply take_frame_reach; [|vm_compute; reflexivity|vm_compute; split; congruence]).
  exact boot_state_reach.
Qed.

Lemma frag_state_states :
  num_coremap_free frag_state = 2 ∧ pageState <$> coremap frag_state = [PS_H; PS_P; PS_H; PS_P] ∧
  match coremapAllocateMultipleFrame 2 1 frag_state with Ok _ => True | Fault _ => False end.
Proof. by vm_compute. Qed.

Lemma coremap_multi_double_allocation_witness :
  match coremapAllocateMultipleFrame 2 1 frag_state with
  | Ok (pa, s') => ∃ c i c' n', pa = frame_paddr frag_state c ∧ pa ≠ 0 ∧ c ≤ i < c + 2 ∧
      (∃ e, coremap s' !! Z.to_nat i = Some e ∧ ce_length e = 2) ∧
      delete 0 (delete 2 (<[3 := 1]> (<[2 := 1]> (<[1 := 1]> (<[0 := 1]> (∅ : gmap Z Z)))))) !! c' = Some n' ∧
      c' ≤ i < c' + n'
  | Fault _ => False
  end.
Proof.
  destruct frag_state_states as (Hf & Hs & Hok).
  pose proof (coremap_multi_double_allocation frag_state _ 2 1 (cm_reach_inv _ _ frag_state_reach)) as Hw.
  destruct (coremapAllocateMultipleFrame 2 1 frag_state) as [[pa s']|]; [|destruct Hok].
  apply Hw; [rewrite Hf; lia|]. intros c Hr.
  destruct (Hr c ltac:(lia)) as (e & H0 & He & Hst). destruct (Hr (c + 1) ltac:(lia)) as (e' & _ & He' & Hst').
  replace (Z.to_nat (c + 1)) with (S (Z.to_nat c)) in He' by lia.
  apply (f_equal (fmap pageState)) in He, He'. rewrite <- list_lookup_fmap, Hs in He, He'.
  simpl in He, He'. rewrite Hst in He. rewrite Hst' in He'. clear -He He'.
  destruct (Z.to_nat c) as [|[|[|[|k]]]]; discriminate.
Defined.

Definition frag_frame (i : Z) (used : bool) : coremap_entry :=
  let pa := PAGE_SIZE * (i + 1) in
  if used then CE pa PS_P 0 pa 1 1 0 0 0 0 0 0 0 0 else CE pa PS_H 0 0 0 0 0 0 0 0 0 0 0 0.

Definition full_state : cmstate := CM 1 1 0 [frag_frame 0 true] ∅ 0 true.

Lemma full_state_inv : cm_inv full_state {[0 := 1]}.
Proof.
  unfold cm_inv, cm_shape. split_and!; try (vm_compute; congruence); try done.
  - split.
    + intros c n [<- <-]%lookup_singleton_Some; simpl; lia.
    + intros c n c' n' [<- <-]%lookup_singleton_Some [<- <-]%lookup_singleton_Some. by left.
  - intros [|i] e Hi; simplify_eq/=. split; [done|]. right. exists 0, 1. by split_and!.
Qed.

Lemma getppages_interrupt_level_witness :
  curspl full_state = 0 ∧
  wp (getppages 1 1 full_state) (λ '(pa, s'), pa = 0 ∧ curspl s' = SPL_HIGH ∧ ie_c s' = false).
Proof.
  split; [reflexivity|].
  eapply wp_mono; [apply (getppages_interrupt_level full_state {[0 := 1]} 1);
                   [apply full_state_inv|split; [vm_compute; congruence|reflexivity]]|].
  intros [pa s'] [(_ & Hf & _)|(-> & _ & -> & -> & _)]; [vm_compute in Hf; discriminate|done].
Defined.
