(* ===== verification/Kheap.v ===== *)
(** * The kernel heap (kern/lib/kheap.c)

    A pool allocator: each page it gets from the coremap is cut into blocks of one
    of eight sizes.  [pageref]s describe the pages; they live in a fixed table with
    a bitmap of the entries in use, and are linked on a list per size and on a list
    of all pages.  The free blocks of a page are linked through their first word,
    in kernel memory.  A [struct pageref *] is [Some p] for [&pagerefs[p]]. *)

From S2P Require Import Prelude Heap Coremap.

Definition sizes : list Z := [16; 32; 64; 128; 256; 512; 1024; 2048].
Definition NSIZES : Z := 8.
Definition LARGEST_SUBPAGE_SIZE : Z := 2048.
Definition INVALID_OFFSET : Z := 0xffff.
Definition NPAGEREFS : Z := 256.
Definition INUSE_WORDS : Z := 8.

Record pageref := PR {
  next_samesize : option nat;
  next_all : option nat;
  pageaddr_and_blocktype : Z;
  freelist_offset : Z;
  nfree : Z;
}.

Definition PR_PAGEADDR (pr : pageref) : Z := Z.land (pageaddr_and_blocktype pr) PAGE_FRAME.
Definition PR_BLOCKTYPE (pr : pageref) : Z :=
  Z.land (pageaddr_and_blocktype pr) (Z.lnot PAGE_FRAME).
Definition MKPAB (pa blk : Z) : Z := Z.lor (Z.land pa PAGE_FRAME) (Z.land blk (Z.lnot PAGE_FRAME)).

Record kheap := KH {
  pagerefs : list pageref;
  pagerefs_inuse : list Z;
  sizebases : list (option nat);
  allbase : option nat;
  kh_cm : cmstate;
}.

Definition kh_set_prs (h : kheap) (l : list pageref) : kheap :=
  KH l (pagerefs_inuse h) (sizebases h) (allbase h) (kh_cm h).
Definition kh_set_inuse (h : kheap) (l : list Z) : kheap :=
  KH (pagerefs h) l (sizebases h) (allbase h) (kh_cm h).
Definition kh_set_bases (h : kheap) (l : list (option nat)) (a : option nat) : kheap :=
  KH (pagerefs h) (pagerefs_inuse h) l a (kh_cm h).
Definition kh_set_cm (h : kheap) (s : cmstate) : kheap :=
  KH (pagerefs h) (pagerefs_inuse h) (sizebases h) (allbase h) s.

Definition kh_splx (n : Z) (h : kheap) : kheap := kh_set_cm h (splx n (kh_cm h)).2.

(** Word loads and stores; a word never written has no defined value. *)
Definition kload (h : kheap) (addr : Z) : res Z :=
  res_of_option FUndef (kmem (kh_cm h) !! addr).
Definition kstore (h : kheap) (addr v : Z) : kheap :=
  kh_set_cm h (cm_set_kmem (kh_cm h) (<[addr := v]> (kmem (kh_cm h)))).

Definition get_pr (h : kheap) (p : nat) : res pageref := getz (pagerefs h) (Z.of_nat p).
Definition set_pr (h : kheap) (p : nat) (pr : pageref) : res kheap :=
  l ← (pagerefs h).[Z.of_nat p <- pr]; mret (kh_set_prs h l).

Definition pr_set_free (pr : pageref) (off n : Z) : pageref :=
  PR (next_samesize pr) (next_all pr) (pageaddr_and_blocktype pr) off n.

(** ** Page references *)

Definition allocpageref (h : kheap) : res (option nat * kheap) :=
  r ← for_loop 8 0 (λ i _,
        w ← (pagerefs_inuse h).[i];
        if w =? 0xffffffff then mret (inl tt)
        else
          r ← for_loop 32 0 (λ j _,
                let k := u32 (Z.shiftl 1 j) in
                w ← (pagerefs_inuse h).[i];
                if Z.land w k =? 0 then
                  l ← (pagerefs_inuse h).[i <- Z.lor w k];
                  mret (inr (Z.to_nat (i * 32 + j), kh_set_inuse h l))
                else mret (inl tt)) tt;
          match r with
          | inr x => mret (inr x)
          | inl _ => Fault FPanic
          end) tt;
  match r with
  | inr (p, h) => mret (Some p, h)
  | inl _ => mret (None, h)
  end.

Definition freepageref (p : nat) (h : kheap) : res kheap :=
  let j := Z.of_nat p in
  _ ← check (j <? NPAGEREFS);
  let i := j / 32 in
  let k := u32 (Z.shiftl 1 (j mod 32)) in
  w ← (pagerefs_inuse h).[i];
  _ ← check (negb (Z.land w k =? 0));
  l ← setz (pagerefs_inuse h) i (Z.land w (u32 (Z.lnot k)));
  mret (kh_set_inuse h l).

(** [remove_lists]: the two loops walk a pointer to the link that leads to the
    current element; [None] is the head of the list, [Some q] a field of
    [pagerefs[q]].  A list has at most [NPAGEREFS] elements. *)

Definition get_same (h : kheap) (b : Z) (loc : option nat) : res (option nat) :=
  match loc with
  | None => getz (sizebases h) b
  | Some q => pr ← get_pr h q; mret (next_samesize pr)
  end.

Definition set_same (h : kheap) (b : Z) (loc v : option nat) : res kheap :=
  match loc with
  | None => l ← (sizebases h).[b <- v]; mret (kh_set_bases h l (allbase h))
  | Some q => pr ← get_pr h q;
      set_pr h q (PR v (next_all pr) (pageaddr_and_blocktype pr) (freelist_offset pr) (nfree pr))
  end.

Definition get_all (h : kheap) (loc : option nat) : res (option nat) :=
  match loc with
  | None => mret (allbase h)
  | Some q => pr ← get_pr h q; mret (next_all pr)
  end.

Definition set_all (h : kheap) (loc v : option nat) : res kheap :=
  match loc with
  | None => mret (kh_set_bases h (sizebases h) v)
  | Some q => pr ← get_pr h q;
      set_pr h q (PR (next_samesize pr) v (pageaddr_and_blocktype pr) (freelist_offset pr) (nfree pr))
  end.

Definition list_fuel : nat := 257.

Definition remove_same (p : nat) (b : Z) (h : kheap) : res kheap :=
  while_loop list_fuel (λ loc,
    cur ← get_same h b loc;
    match cur with
    | None => mret (inr h)
    | Some q =>
        if bool_decide (q = p) then
          h' ← (pr ← get_pr h p; set_same h b loc (next_samesize pr));
          mret (inr h')
        else mret (inl (Some q))
    end) None.

Definition remove_all (p : nat) (h : kheap) : res kheap :=
  while_loop list_fuel (λ loc,
    cur ← get_all h loc;
    match cur with
    | None => mret (inr h)
    | Some q =>
        if bool_decide (q = p) then
          h' ← (pr ← get_pr h p; set_all h loc (next_all pr));
          mret (inr h')
        else mret (inl (Some q))
    end) None.

Definition remove_lists (p : nat) (blktype : Z) (h : kheap) : res kheap :=
  _ ← check ((0 <=? blktype) && (blktype <? NSIZES));
  h ← remove_same p blktype h;
  remove_all p h.

(** ** Sub-page allocation *)

Definition blocktype (sz : Z) : res Z :=
  r ← for_loop 8 0 (λ i _,
        s ← sizes.[i];
        if sz <=? s then mret (inr i) else mret (inl tt)) tt;
  match r with inr i => mret i | inl _ => Fault FPanic end.

(** From the label doalloc: take the first block of the free list. *)
Definition doalloc (p : nat) (spl : Z) (h : kheap) : res (Z * kheap) :=
  pr ← get_pr h p;
  _ ← check (freelist_offset pr <? PAGE_SIZE);
  let prpage := PR_PAGEADDR pr in
  let fla := u32 (prpage + freelist_offset pr) in
  fl ← kload h fla;
  let nf := u16 (nfree pr - 1) in
  h ← (if negb (fl =? NULL) then
         _ ← check (nf >? 0);
         _ ← check (u32 (fl - prpage) <? PAGE_SIZE);
         set_pr h p (pr_set_free pr (u16 (u32 (fl - prpage))) nf)
       else
         _ ← check (nf =? 0);
         set_pr h p (pr_set_free pr INVALID_OFFSET nf));
  mret (fla, kh_splx spl h).

(** The loop over the pages of the right size: a page with a free block, if any. *)
Definition find_page (blktype : Z) (h : kheap) : res (option nat) :=
  base ← (sizebases h).[blktype];
  while_loop list_fuel (λ cur,
    match cur with
    | None => mret (inr None)
    | Some p =>
        pr ← get_pr h p;
        _ ← check (PR_BLOCKTYPE pr =? blktype);
        if nfree pr >? 0 then mret (inr (Some p)) else mret (inl (next_samesize pr))
    end) base.

(** Threading the free list through a fresh page; [fl] is the last block linked. *)
Definition init_page (prpage sz n : Z) (h : kheap) : res (Z * kheap) :=
  let fla := prpage in
  let h := kstore h fla NULL in
  for_range (Z.to_nat (n - 1)) 1 (λ i '(_, h),
    let fl := u32 (fla + u32 (i * sz)) in
    let next := u32 (fla + u32 ((i - 1) * sz)) in
    _ ← check (negb (fl =? next));
    mret (fl, kstore h fl next)) (fla, h).

(** No page of the right size has a free block: make a new one. *)
Definition newpage (blktype sz spl : Z) (h : kheap) : res (Z * kheap) :=
  '(op, h) ← allocpageref h;
  match op with
  | None => mret (NULL, kh_splx spl h)
  | Some p =>
      '(prpage, cm) ← alloc_kpages 1 (kh_cm h);
      let h := kh_set_cm h cm in
      if prpage =? 0 then
        h ← freepageref p h;
        mret (NULL, kh_splx spl h)
      else
        let n := u16 (PAGE_SIZE / sz) in
        '(fl, h) ← init_page prpage sz n h;
        let off := u16 (u32 (fl - prpage)) in
        _ ← check (off =? (n - 1) * sz);
        base ← (sizebases h).[blktype];
        h ← set_pr h p (PR base (allbase h) (MKPAB prpage blktype) off n);
        bases ← (sizebases h).[blktype <- Some p];
        doalloc p spl (kh_set_bases h bases (Some p))
  end.

Definition subpage_kmalloc (sz : Z) (h : kheap) : res (Z * kheap) :=
  blktype ← blocktype sz;
  sz ← sizes.[blktype];
  let '(spl, cm) := splhigh (kh_cm h) in
  let h := kh_set_cm h cm in
  op ← find_page blktype h;
  match op with
  | Some p => doalloc p spl h
  | None => newpage blktype sz spl h
  end.

(** ** Sub-page release *)

Definition fill_deadbeef (ptr len : Z) (h : kheap) : kheap :=
  foldl (λ h i, kstore h (ptr + 4 * i) 0xdeadbeef) h (seqZ 0 (len / 4)).

(** The page that contains [ptraddr], on the list of all pages. *)
Definition find_owner (ptraddr : Z) (h : kheap) : res (option nat) :=
  while_loop list_fuel (λ cur,
    match cur with
    | None => mret (inr None)
    | Some p =>
        pr ← get_pr h p;
        let prpage := PR_PAGEADDR pr in
        _ ← check ((0 <=? PR_BLOCKTYPE pr) && (PR_BLOCKTYPE pr <? NSIZES));
        if (prpage <=? ptraddr) && (ptraddr <? u32 (prpage + PAGE_SIZE))
        then mret (inr (Some p)) else mret (inl (next_all pr))
    end) (allbase h).

(** The whole page is free: give it back to the coremap. *)
Definition release_page (p : nat) (blktype prpage : Z) (h : kheap) : res kheap :=
  h ← remove_lists p blktype h;
  cm ← free_kpages prpage (kh_cm h);
  freepageref p (kh_set_cm h cm).

Definition subpage_kfree (ptr : Z) (h : kheap) : res (Z * kheap) :=
  let '(spl, cm) := splhigh (kh_cm h) in
  let h := kh_set_cm h cm in
  op ← find_owner ptr h;
  match op with
  | None => mret (-1, kh_splx spl h)
  | Some p =>
      pr ← get_pr h p;
      let prpage := PR_PAGEADDR pr in
      let blktype := PR_BLOCKTYPE pr in
      sz ← sizes.[blktype];
      let offset := u32 (ptr - prpage) in
      _ ← check (negb ((PAGE_SIZE <=? offset) || negb (offset mod sz =? 0)));
      let h := fill_deadbeef ptr sz h in
      let fla := u32 (prpage + offset) in
      let h := kstore h fla
        (if freelist_offset pr =? INVALID_OFFSET then NULL
         else u32 (prpage + freelist_offset pr)) in
      let nf := u16 (nfree pr + 1) in
      h ← set_pr h p (pr_set_free pr (u16 offset) nf);
      _ ← check (nf <=? PAGE_SIZE / sz);
      h ← (if nf =? PAGE_SIZE / sz then release_page p blktype prpage h else mret h);
      mret (0, kh_splx spl h)
  end.

(** ** Entry points

    Requests of half a page and more go to the coremap directly; when that fails
    the pager ([evictPage], a parameter here) is asked for a frame. *)

Section entry.
Variable evictPage : kheap → res (Z * kheap).

Definition kmalloc_c (sz : Z) (h : kheap) : res (Z * kheap) :=
  if LARGEST_SUBPAGE_SIZE <=? sz then
    let npages := u32 (u32 (sz + PAGE_SIZE) - 1) / PAGE_SIZE in
    '(address, cm) ← alloc_kpages npages (kh_cm h);
    let h := kh_set_cm h cm in
    if address =? 0 then evictPage h else mret (address, h)
  else subpage_kmalloc sz h.

Definition kfree_c (ptr : Z) (h : kheap) : res kheap :=
  if ptr =? NULL then mret h
  else
    '(r, h) ← subpage_kfree ptr h;
    if negb (r =? 0) then
      _ ← check (ptr mod PAGE_SIZE =? 0);
      cm ← free_kpages ptr (kh_cm h);
      mret (kh_set_cm h cm)
    else mret h.
End entry.

Definition kheap_init (s : cmstate) : kheap :=
  KH (replicate 256 (PR None None 0 0 0)) (replicate 8 0) (replicate 8 None) None s.

(** ** Words of the in-use map *)

Section words.
Lemma mask32 j : 0 ≤ j < 32 → u32 (Z.shiftl 1 j) = 2 ^ j.
Proof.
  intros Hj. rewrite Z.shiftl_1_l. apply u32_id. split; [lia|].
  apply Z.pow_lt_mono_r; lia.
Qed.

Lemma land_pow2_zero w j : 0 ≤ j → (Z.land w (2 ^ j) =? 0) = negb (Z.testbit w j).
Proof.
  intros Hj. destruct (Z.testbit w j) eqn:E; simpl.
  - apply Z.eqb_neq. intros Hz.
    assert (Z.testbit (Z.land w (2 ^ j)) j = false) as Hf by (by rewrite Hz, Z.bits_0).
    rewrite Z.land_spec, E, Z.pow2_bits_true in Hf by lia. done.
  - apply Z.eqb_eq, Z.bits_inj. intros k. rewrite Z.land_spec, Z.bits_0, Z.pow2_bits_eqb by lia.
    destruct (Z.eqb_spec j k) as [<-|]; [by rewrite E|by rewrite andb_false_r].
Qed.

Lemma lor_pow2_bit w j k : 0 ≤ j → 0 ≤ k → Z.testbit (Z.lor w (2 ^ j)) k = Z.testbit w k || (k =? j).
Proof.
  intros Hj Hk. rewrite Z.lor_spec, Z.pow2_bits_eqb by lia. by rewrite (Z.eqb_sym j k).
Qed.

Lemma clear_pow2_bit w j k :
  0 ≤ j < 32 → 0 ≤ k < 32 →
  Z.testbit (Z.land w (u32 (Z.lnot (2 ^ j)))) k = Z.testbit w k && negb (k =? j).
Proof.
  intros Hj Hk. unfold u32. rewrite Z.land_spec, Z.mod_pow2_bits_low by lia.
  by rewrite Z.lnot_spec, Z.pow2_bits_eqb, (Z.eqb_sym j k) by lia.
Qed.

Lemma u32_bits w : is_u32 w ↔ 0 ≤ w ∧ ∀ k, 32 ≤ k → Z.testbit w k = false.
Proof.
  unfold is_u32. split.
  - intros Hw. split; [lia|]. intros k Hk. destruct (decide (w = 0)) as [->|]; [apply Z.bits_0|].
    apply Z.bits_above_log2; [lia|]. apply Z.log2_lt_pow2; [lia|].
    apply Z.lt_le_trans with (2 ^ 32); [lia|]. apply Z.pow_le_mono_r; lia.
  - intros [H0 Hb]. split; [done|]. destruct (decide (w < 2 ^ 32)) as [|Hge]; [done|].
    exfalso. assert (Z.testbit w (Z.log2 w) = true) as Ht by (apply Z.bit_log2; lia).
    rewrite Hb in Ht; [done|]. apply Z.log2_le_pow2; lia.
Qed.

Lemma word_not_full w : is_u32 w → w ≠ 0xffffffff → ∃ k, 0 ≤ k < 32 ∧ Z.testbit w k = false.
Proof.
  intros Hw Hne. destruct (decide (Exists (λ k, Z.testbit w k = false) (seqZ 0 32)))
    as [(k & Hk & ?)%Exists_exists|Hno].
  - exists k. apply elem_of_seqZ in Hk. split; [lia|done].
  - destruct Hne. apply Z.bits_inj'. intros k Hk.
    change 0xffffffff with (Z.ones 32). destruct (decide (k < 32)).
    + rewrite Z.ones_spec_low by lia. destruct (Z.testbit w k) eqn:E; [done|].
      destruct Hno. apply Exists_exists. exists k. split; [apply elem_of_seqZ; lia|done].
    + rewrite Z.ones_spec_high by lia. apply u32_bits; [done|lia].
Qed.
End words.

(** The bit of page reference [p] in the in-use map. *)
Definition inuse_bit (l : list Z) (p : nat) : bool :=
  match l !! (p / 32)%nat with
  | Some w => Z.testbit w (Z.of_nat p mod 32)
  | None => false
  end.

Definition inuse_ok (l : list Z) (L : list nat) : Prop :=
  length l = 8%nat ∧ Forall is_u32 l ∧
  ∀ p, (p < 256)%nat → inuse_bit l p = bool_decide (p ∈ L).

Lemma inuse_bit_at l i j w :
  0 ≤ i → 0 ≤ j < 32 → l !! Z.to_nat i = Some w →
  inuse_bit l (Z.to_nat (i * 32 + j)) = Z.testbit w j.
Proof.
  intros Hi Hj Hl. unfold inuse_bit.
  replace (Z.to_nat (i * 32 + j) / 32)%nat with (Z.to_nat i).
  - rewrite Hl, Z2Nat.id by lia. f_equal. rewrite Z.add_comm, Z.mod_add, Z.mod_small; lia.
  - apply (Nat.div_unique _ _ _ (Z.to_nat j)); lia.
Qed.

(** Changing the bit of [p] changes the answer for [p] and for no other. *)
Lemma inuse_update l p w w' x :
  (p < 256)%nat → l !! (p / 32)%nat = Some w →
  (∀ k, 0 ≤ k < 32 → Z.testbit w' k = if k =? Z.of_nat p mod 32 then x else Z.testbit w k) →
  ∀ q, inuse_bit (<[(p / 32)%nat := w']> l) q = if decide (q = p) then x else inuse_bit l q.
Proof.
  intros Hp Hl Hw q. unfold inuse_bit.
  destruct (decide ((q / 32)%nat = (p / 32)%nat)) as [Heq|Hne].
  - rewrite Heq, list_lookup_insert_eq by (by eapply lookup_lt_Some). rewrite Hl.
    rewrite Hw by (apply Z.mod_pos_bound; lia).
    destruct (decide (q = p)) as [->|Hqp]; [by rewrite Z.eqb_refl|].
    replace (Z.of_nat q mod 32 =? Z.of_nat p mod 32) with false; [done|].
    symmetry. apply Z.eqb_neq. intros Hm. apply Hqp.
    apply (f_equal Z.of_nat) in Heq. rewrite !Nat2Z.inj_div in Heq.
    pose proof (Z.div_mod (Z.of_nat q) 32). pose proof (Z.div_mod (Z.of_nat p) 32). lia.
  - rewrite list_lookup_insert_ne by done. rewrite decide_False by (by intros ->). done.
Qed.

Lemma inuse_word (l : list Z) (p : nat) :
  length l = 8%nat → (p < 256)%nat → ∃ w, l !! (p / 32)%nat = Some w.
Proof.
  intros Hl Hp. apply lookup_lt_is_Some_2. rewrite Hl. apply Nat.Div0.div_lt_upper_bound. lia.
Qed.

Lemma inuse_ok_insert l L p w w' x (L' : list nat) :
  inuse_ok l L → (p < 256)%nat → l !! (p / 32)%nat = Some w → is_u32 w' →
  (∀ k, 0 ≤ k < 32 → Z.testbit w' k = if k =? Z.of_nat p mod 32 then x else Z.testbit w k) →
  (∀ q, (q < 256)%nat → bool_decide (q ∈ L') = if decide (q = p) then x else bool_decide (q ∈ L)) →
  inuse_ok (<[(p / 32)%nat := w']> l) L'.
Proof.
  intros (Hlen & Hok & Hbits) Hp Hl Hw' Hup HL'. split_and!.
  - by rewrite length_insert.
  - by apply Forall_insert.
  - intros q Hq. rewrite (inuse_update l p w w' x), HL', Hbits by done. done.
Qed.

(** Setting a clear bit of the table puts the page reference in use. *)
Lemma inuse_mark l L i j w :
  inuse_ok l L → 0 ≤ i < 8 → 0 ≤ j < 32 → l !! Z.to_nat i = Some w → Z.testbit w j = false →
  (Z.to_nat (i * 32 + j) < 256)%nat ∧ Z.to_nat (i * 32 + j) ∉ L ∧
  inuse_ok (<[Z.to_nat i := Z.lor w (2 ^ j)]> l) (Z.to_nat (i * 32 + j) :: L).
Proof.
  intros Hok Hi Hj Hl Et. pose proof Hok as (Hlen & Hw & Hbits).
  assert (is_u32 w) as Hwu by (by eapply Forall_lookup_1).
  assert (Hpw : (Z.to_nat (i * 32 + j) / 32)%nat = Z.to_nat i).
  { symmetry. apply (Nat.div_unique _ _ _ (Z.to_nat j)); lia. }
  assert (Hnot : Z.to_nat (i * 32 + j) ∉ L).
  { pose proof (inuse_bit_at l i j w ltac:(lia) ltac:(lia) Hl) as Hb.
    rewrite Hbits, Et in Hb by lia. by apply bool_decide_eq_false in Hb. }
  split_and!; [lia|done|]. rewrite <- Hpw.
  eapply (inuse_ok_insert _ L _ w _ true); [done|lia|by rewrite Hpw| | |].
  - apply u32_bits. apply u32_bits in Hwu as [Hw0 Hwb]. split.
    + apply Z.lor_nonneg. split; [done|]. apply Z.pow_nonneg. lia.
    + intros k Hk. rewrite lor_pow2_bit, Hwb by lia. lia.
  - intros k Hk. rewrite lor_pow2_bit by lia. rewrite Z2Nat.id by lia.
    replace ((i * 32 + j) mod 32) with j by (rewrite Z.add_comm, Z.mod_add, Z.mod_small; lia).
    by destruct (k =? j), (Z.testbit w k).
  - intros q Hq. destruct (decide (q = Z.to_nat (i * 32 + j))) as [->|Hne].
    + apply bool_decide_eq_true. by constructor.
    + apply bool_decide_ext. rewrite elem_of_cons. tauto.
Qed.

Lemma allocpageref_spec h L :
  inuse_ok (pagerefs_inuse h) L →
  wp (allocpageref h) (λ '(op, h'),
    match op with
    | None => h' = h ∧ ∀ p, (p < 256)%nat → p ∈ L
    | Some p => (p < 256)%nat ∧ p ∉ L ∧
        ∃ l, h' = kh_set_inuse h l ∧ inuse_ok l (p :: L)
    end).
Proof.
  intros Hok. pose proof Hok as (Hlen & Hw & Hbits). unfold allocpageref. rewrite wp_bind.
  eapply wp_mono; [apply (wp_for_loop
    (λ i _, ∀ p, (p < 256)%nat → Z.of_nat p < 32 * i → p ∈ L)
    (λ '(p, h'), (p < 256)%nat ∧ p ∉ L ∧ ∃ l, h' = kh_set_inuse h l ∧ inuse_ok l (p :: L)))|].
  { intros p _ Hp. lia. }
  - intros i [] Hi HI. rewrite wp_bind. apply wp_getz; [lia|]. intros w Hl.
    assert (is_u32 w) as Hwu by (by eapply Forall_lookup_1).
    destruct (w =? 0xffffffff) eqn:E.
    + wp_val. intros p Hp Hpi. destruct (decide (Z.of_nat p < 32 * i)); [by apply HI|].
      assert (inuse_bit (pagerefs_inuse h) p = true) as Hb.
      { replace p with (Z.to_nat (i * 32 + (Z.of_nat p - 32 * i))) by lia.
        rewrite (inuse_bit_at _ _ _ w) by (done || lia). apply Z.eqb_eq in E as ->.
        change 0xffffffff with (Z.ones 32). apply Z.ones_spec_low. lia. }
      rewrite Hbits in Hb by done. by apply bool_decide_eq_true in Hb.
    + rewrite wp_bind. eapply wp_mono; [apply (wp_for_loop
        (λ j _, ∀ k, 0 ≤ k < j → Z.testbit w k = true)
        (λ '(p, h'), (p < 256)%nat ∧ p ∉ L ∧ ∃ l, h' = kh_set_inuse h l ∧ inuse_ok l (p :: L)))|].
      * intros k Hk. lia.
      * intros j [] Hj HJ. rewrite mask32 by lia. wp_step.
        apply wp_getz; [lia|]. intros w0 Hl0.
        assert (w0 = w) as -> by congruence. rewrite land_pow2_zero by lia.
        destruct (Z.testbit w j) eqn:Et; simpl.
        { wp_val. intros k Hk. destruct (decide (k = j)) as [->|]; [done|]. apply HJ. lia. }
        rewrite wp_bind. apply wp_setz; [lia|]. wp_val.
        destruct (inuse_mark (pagerefs_inuse h) L i j w) as (Hp & Hn & Hok'); [done|lia|lia|done|done|].
        split_and!; [done|done|]. by eexists.
      * intros [[]|[p h']] Hp; simpl in Hp; [|by wp_val]. exfalso.
        destruct (word_not_full w) as (k & Hk & Hb); [done|lia|].
        rewrite Hp in Hb; [done|lia].
  - intros [[]|[p h']] Hp; simpl in Hp; wp_val; [|done]. split; [done|].
    intros p Hlt. apply Hp; lia.
Qed.

Lemma freepageref_spec h L p L' :
  inuse_ok (pagerefs_inuse h) L → (p < 256)%nat → p ∈ L →
  (∀ q, q ∈ L' ↔ q ∈ L ∧ q ≠ p) →
  wp (freepageref p h) (λ h', ∃ l, h' = kh_set_inuse h l ∧ inuse_ok l L').
Proof.
  intros Hok Hp HpL HL'. pose proof Hok as (Hlen & Hwf & Hbits).
  unfold freepageref, NPAGEREFS. wp_step.
  destruct (inuse_word (pagerefs_inuse h) p Hlen Hp) as [w Hw].
  assert (Hdiv : Z.to_nat (Z.of_nat p / 32) = (p / 32)%nat).
  { rewrite <- (Nat2Z.id (p / 32)), Nat2Z.inj_div. done. }
  assert (Hr : 0 ≤ Z.of_nat p / 32 < zlen (pagerefs_inuse h)).
  { rewrite Hlen. split; [apply Z.div_pos; lia|]. apply Z.div_lt_upper_bound; lia. }
  pose proof (Z.mod_pos_bound (Z.of_nat p) 32 ltac:(lia)) as Hm.
  apply wp_getz; [done|]. rewrite Hdiv. intros w0 Hw0. assert (w0 = w) as -> by congruence.
  rewrite mask32 by done. rewrite land_pow2_zero by lia.
  assert (is_u32 w) as Hwu by (by eapply Forall_lookup_1).
  assert (Z.testbit w (Z.of_nat p mod 32) = true) as Ht.
  { specialize (Hbits p Hp). unfold inuse_bit in Hbits. rewrite Hw in Hbits. rewrite Hbits.
    by apply bool_decide_eq_true. }
  rewrite Ht. simpl. wp_step. apply wp_setz; [done|]. wp_val. eexists. split; [done|].
  rewrite Hdiv. eapply (inuse_ok_insert _ L _ w _ false); [done|done|done| | |].
  - apply u32_bits. apply u32_bits in Hwu as [Hw0' Hwb]. split.
    + apply Z.land_nonneg. by left.
    + intros k Hk. by rewrite Z.land_spec, Hwb by lia.
  - intros k Hk. rewrite clear_pow2_bit by lia. by destruct (k =? _), (Z.testbit w k).
  - intros q Hq. destruct (decide (q = p)) as [->|Hne].
    + apply bool_decide_eq_false. rewrite HL'. tauto.
    + apply bool_decide_ext. rewrite HL'. tauto.
Qed.
