(* ===== verification/KheapInv.v ===== *)
(** * The invariant of the kernel heap, and that kheap.c keeps it

    [kinv h A L F] relates a heap to its abstract contents: [A] is the allocation map of
    the coremap, [L] the page references in use (in the order of the list of all pages),
    and [F p] the offsets of the free blocks of page [p], in the order of its free list.
    The main results are that [kmalloc] and [kfree] satisfy the interface [KHeapLaws] and
    that clients may write into the blocks they hold. *)

From stdpp Require Import functions.
From S2P Require Import Prelude Heap Coremap Kheap.

(** ** Block sizes *)

Definition bsize (b : Z) : Z := 16 * 2 ^ b.
Definition nblocks (b : Z) : Z := PAGE_SIZE / bsize b.

(** [o] is the offset of a block of a page of type [b]. *)
Definition is_block (b o : Z) : Prop := ∃ k, 0 ≤ k < nblocks b ∧ o = k * bsize b.

Lemma blocktype_cases b : 0 ≤ b < 8 →
  b = 0 ∨ b = 1 ∨ b = 2 ∨ b = 3 ∨ b = 4 ∨ b = 5 ∨ b = 6 ∨ b = 7.
Proof. lia. Qed.

Ltac blocktype_case H :=
  pose proof (blocktype_cases _ H) as Hcase;
  destruct Hcase as [->|[->|[->|[->|[->|[->|[->| ->]]]]]]].

Lemma bsize_facts b : 0 ≤ b < 8 →
  16 ≤ bsize b ≤ 2048 ∧ nblocks b * bsize b = 4096 ∧ 2 ≤ nblocks b ≤ 256 ∧
  bsize b = 4 * (bsize b / 4).
Proof. intros Hb. blocktype_case Hb; done. Qed.

Lemma sizes_bsize b : 0 ≤ b < 8 → getz sizes b = Ok (bsize b).
Proof. intros Hb. blocktype_case Hb; done. Qed.

Lemma blocktype_spec sz :
  0 ≤ sz ≤ 2048 →
  wp (blocktype sz) (λ b, 0 ≤ b < 8 ∧ sz ≤ bsize b ∧ (b = 0 ∨ bsize (b - 1) < sz)).
Proof.
  intros Hsz. unfold blocktype. rewrite wp_bind.
  eapply wp_mono; [apply (wp_for_loop (λ i _, i = 0 ∨ bsize (i - 1) < sz)
    (λ b, 0 ≤ b < 8 ∧ sz ≤ bsize b ∧ (b = 0 ∨ bsize (b - 1) < sz)))|].
  - by left.
  - intros i [] Hi HI. rewrite sizes_bsize by lia. wp_val. destruct (sz <=? bsize i) eqn:E; wp_val.
    + split_and!; [lia..|done].
    + right. replace (i + 1 - 1) with i by lia. lia.
  - intros [[]|b] Hb; simpl in Hb; [|by wp_val]. exfalso. change (bsize _) with 2048 in Hb. lia.
Qed.

Lemma is_block_range b o : 0 ≤ b < 8 → is_block b o → 0 ≤ o ∧ o + bsize b ≤ PAGE_SIZE.
Proof.
  intros Hb (k & Hk & ->). destruct (bsize_facts b Hb) as (? & Hn & ? & _).
  unfold PAGE_SIZE. nia.
Qed.

Lemma is_block_apart b o o' :
  0 ≤ b < 8 → is_block b o → is_block b o' → o ≠ o' → o + bsize b ≤ o' ∨ o' + bsize b ≤ o.
Proof.
  intros Hb (k & Hk & ->) (k' & Hk' & ->) Hne. destruct (bsize_facts b Hb) as (? & _ & _).
  assert (k ≠ k') by congruence. assert (k + 1 ≤ k' ∨ k' + 1 ≤ k) as [|] by lia; nia.
Qed.

Lemma is_block_mod b o :
  0 ≤ b < 8 → is_block b o ↔ 0 ≤ o < PAGE_SIZE ∧ o mod bsize b = 0.
Proof.
  intros Hb. destruct (bsize_facts b Hb) as (Hs & Hn & ? & _). split.
  - intros Hbl. pose proof (is_block_range b o Hb Hbl). destruct Hbl as (k & Hk & ->).
    split; [lia|]. apply Z.mod_mul. lia.
  - intros [Ho Hm]. exists (o / bsize b). pose proof (Z.div_mod o (bsize b) ltac:(lia)).
    split; [|lia]. split; [apply Z.div_pos; lia|]. apply Z.div_lt_upper_bound; [lia|].
    unfold PAGE_SIZE in *. lia.
Qed.

Lemma blocks_length b F :
  0 ≤ b < 8 → NoDup F → (∀ o, o ∈ F → is_block b o) → zlen F ≤ nblocks b.
Proof.
  intros Hb HF Hall. destruct (bsize_facts b Hb) as (_ & _ & Hn & _).
  assert (F ⊆+ ((λ k, k * bsize b) <$> seqZ 0 (nblocks b))) as Hsub.
  { apply NoDup_submseteq; [done|]. intros o Ho. destruct (Hall o Ho) as (k & Hk & ->).
    apply list_elem_of_fmap. exists k. split; [done|]. apply elem_of_seqZ. lia. }
  apply submseteq_length in Hsub. rewrite length_fmap, length_seqZ in Hsub. lia.
Qed.

(** A page all of whose blocks are free has every block on its free list. *)
Lemma blocks_full b F o :
  0 ≤ b < 8 → NoDup F → (∀ o, o ∈ F → is_block b o) → zlen F = nblocks b →
  is_block b o → o ∈ F.
Proof.
  intros Hb HF Hall Hlen Ho. destruct (decide (o ∈ F)) as [|Hno]; [done|].
  pose proof (blocks_length b (o :: F) Hb) as Hle. simpl in Hle. rewrite Nat2Z.inj_succ in Hle.
  exfalso. enough (Z.succ (zlen F) ≤ nblocks b) by lia. apply Hle; [by constructor|].
  intros o' [->|?]%elem_of_cons; [done|by apply Hall].
Qed.

(** ** Linked lists *)

(** [chain nx start L]: following [nx] from [start] visits [L] and ends. *)
Fixpoint chain (nx : nat → option nat) (start : option nat) (L : list nat) : Prop :=
  match L with
  | [] => start = None
  | p :: L' => start = Some p ∧ chain nx (nx p) L'
  end.

Lemma chain_head nx start L : chain nx start L → start = head L.
Proof. destruct L; simpl; naive_solver. Qed.

Lemma chain_ext nx nx' start L :
  (∀ p, p ∈ L → nx' p = nx p) → chain nx start L → chain nx' start L.
Proof.
  revert start. induction L as [|p L IH]; intros start Hext; [done|]. simpl.
  intros [-> HL]. split; [done|]. rewrite Hext by (by constructor).
  apply IH; [|done]. intros q Hq. apply Hext. by constructor.
Qed.

(** The link behind a prefix leads to the rest of the list. *)
Lemma chain_link nx start L1 L2 :
  chain nx start (L1 ++ L2) →
  match last L1 with None => start | Some q => nx q end = head L2.
Proof.
  revert start. induction L1 as [|p L1 IH]; intros start Hc; [by apply (chain_head nx)|].
  destruct Hc as [-> Hc]. specialize (IH _ Hc). rewrite last_cons.
  by destruct (last L1).
Qed.

(** Unlinking [p]: the link that leads to [p] now leads to its successor. *)
Lemma chain_unlink nx nx' start L1 p L2 :
  chain nx start (L1 ++ p :: L2) → NoDup (L1 ++ p :: L2) →
  (∀ q, q ∈ L1 ++ L2 → nx' q = if decide (last L1 = Some q) then nx p else nx q) →
  chain nx' (match last L1 with None => nx p | Some _ => start end) (L1 ++ L2).
Proof.
  revert start. induction L1 as [|q L1 IH]; intros start Hc Hnd Hnx; simpl in *.
  { destruct Hc as [-> Hc]. eapply chain_ext; [|done]. intros q Hq. by apply Hnx. }
  destruct Hc as [-> Hc]. apply NoDup_cons in Hnd as [Hq Hnd].
  rewrite last_cons in Hnx |- *. 
  assert (match match last L1 with Some y => Some y | None => Some q end with
          | Some _ => Some q | None => nx p end = Some q) as -> by (by destruct (last L1)).
  split; [done|].
  assert (Hnxq : nx' q = match last L1 with None => nx p | Some _ => nx q end).
  { rewrite Hnx by (by constructor). destruct (last L1) as [r|] eqn:El.
    - rewrite decide_False; [done|]. intros [= ->]. apply Hq.
      apply elem_of_app. left. by apply last_Some_elem_of.
    - by rewrite decide_True. }
  rewrite Hnxq. eapply IH; [done|done|]. intros r Hr. rewrite Hnx by (by constructor).
  destruct (last L1) as [t|] eqn:El; [done|].
  rewrite (decide_False (P := Some q = Some r)).
  - by rewrite decide_False.
  - intros [= ->]. apply Hq. apply last_None in El as ->. by constructor.
Qed.

(** The loops of [remove_lists] stop at the link that leads to [p]. *)
Lemma unlink_walk {R} (getn : option nat → res (option nat)) (found : option nat → res R) h L p :
  (∀ L1 L2, L = L1 ++ L2 → getn (last L1) = Ok (head L2)) → (length L < list_fuel)%nat →
  p ∈ L → NoDup L →
  ∃ L1 L2, L = L1 ++ p :: L2 ∧
    while_loop list_fuel (λ loc,
      cur ← getn loc;
      match cur with
      | None => mret (inr h)
      | Some q => if bool_decide (q = p) then r ← found loc; mret (inr r) else mret (inl (Some q))
      end) None = found (last L1).
Proof.
  intros Hget Hlen Hp Hnd. apply list_elem_of_split in Hp as (L1 & L2 & ->).
  exists L1, L2. split; [done|].
  set (body := λ loc : option nat, _).
  assert (Hstep : ∀ loc q, getn loc = Ok (Some q) →
    body loc = if bool_decide (q = p) then r ← found loc; mret (inr r) else mret (inl (Some q))).
  { intros loc q Hq. unfold body. by rewrite Hq. }
  assert (Hgo : ∀ L1a L1b fuel, L1 = L1a ++ L1b → (length L1b < fuel)%nat →
    while_loop fuel body (last L1a) = found (last L1)).
  { intros L1a L1b. revert L1a. induction L1b as [|q L1b IH]; intros L1a fuel Heq Hf.
    - destruct fuel as [|fuel]; [simpl in Hf; lia|]. rewrite app_nil_r in Heq. subst L1a.
      rewrite while_loop_S, (Hstep _ p) by (by rewrite (Hget L1 (p :: L2))).
      rewrite bool_decide_true by done. by destruct (found (last L1)).
    - destruct fuel as [|fuel]; [simpl in Hf; lia|].
      rewrite while_loop_S, (Hstep _ q)
        by (by rewrite (Hget L1a (q :: L1b ++ p :: L2)) by (by rewrite Heq, <- app_assoc)).
      rewrite bool_decide_false.
      + simpl. rewrite <- (last_snoc q L1a). apply IH; [|simpl in Hf; lia].
        by rewrite <- app_assoc.
      + intros ->. subst L1. rewrite <- app_assoc in Hnd.
        apply NoDup_app in Hnd as (_ & _ & Hnd). simpl in Hnd. apply NoDup_cons in Hnd as [Hnd _].
        apply Hnd. set_solver. }
  apply (Hgo [] L1); [done|]. rewrite length_app in Hlen. lia.
Qed.

(** ** Free lists in memory *)

Definition fl_ptr (pg : Z) (F : list Z) : Z :=
  match F with [] => NULL | o :: _ => pg + o end.

Definition fl_offset (F : list Z) : Z :=
  match F with [] => INVALID_OFFSET | o :: _ => o end.

Fixpoint fl_mem (m : gmap Z Z) (pg : Z) (F : list Z) : Prop :=
  match F with
  | [] => True
  | o :: F' => m !! (pg + o) = Some (fl_ptr pg F') ∧ fl_mem m pg F'
  end.

Lemma fl_mem_ext m m' pg F :
  (∀ o, o ∈ F → m' !! (pg + o) = m !! (pg + o)) → fl_mem m pg F → fl_mem m' pg F.
Proof.
  induction F as [|o F IH]; [done|]. simpl. intros Hext [Ho HF].
  split; [by rewrite Hext by constructor|]. apply IH; [|done].
  intros o' Ho'. apply Hext. by constructor.
Qed.

(** ** The invariant *)

Definition kva (s : cmstate) (c : Z) : Z := frame_paddr s c + MIPS_KSEG0.

Definition pr0 : pageref := PR None None 0 0 0.
Definition prf (h : kheap) (p : nat) : pageref := nth p (pagerefs h) pr0.
Definition pg_of (h : kheap) (p : nat) : Z := PR_PAGEADDR (prf h p).
Definition blk_of (h : kheap) (p : nat) : Z := PR_BLOCKTYPE (prf h p).
Definition same_size (h : kheap) (b : Z) (L : list nat) : list nat :=
  filter (λ p, blk_of h p = b) L.

Definition in_page (pg a : Z) : Prop := pg ≤ a < pg + PAGE_SIZE.

Definition page_ok (s : cmstate) (A : gmap Z Z) (pr : pageref) (F : list Z) : Prop :=
  (∃ c, A !! c = Some 1 ∧ PR_PAGEADDR pr = kva s c) ∧
  0 ≤ PR_BLOCKTYPE pr < 8 ∧
  NoDup F ∧ (∀ o, o ∈ F → is_block (PR_BLOCKTYPE pr) o) ∧
  fl_mem (kmem s) (PR_PAGEADDR pr) F ∧
  nfree pr = zlen F ∧ freelist_offset pr = fl_offset F.

Record kinv (h : kheap) (A : gmap Z Z) (L : list nat) (F : nat → list Z) : Prop := KInv {
  ki_prs : length (pagerefs h) = 256%nat;
  ki_inuse : inuse_ok (pagerefs_inuse h) L;
  ki_cm : cm_inv (kh_cm h) A;
  ki_nodup : NoDup L;
  ki_lt : ∀ p, p ∈ L → (p < 256)%nat;
  ki_all : chain (next_all ∘ prf h) (allbase h) L;
  ki_bases : length (sizebases h) = 8%nat;
  ki_same : ∀ b base, sizebases h !! b = Some base →
    chain (next_samesize ∘ prf h) base (same_size h (Z.of_nat b) L);
  ki_page : ∀ p, p ∈ L → page_ok (kh_cm h) A (prf h p) (F p);
  ki_inj : ∀ p q, p ∈ L → q ∈ L → pg_of h p = pg_of h q → p = q;
}.

(** The blocks in use. *)
Definition is_live (h : kheap) (L : list nat) (F : nat → list Z) (a : Z) : Prop :=
  ∃ p o, p ∈ L ∧ is_block (blk_of h p) o ∧ o ∉ F p ∧ a = pg_of h p + o.

Lemma get_pr_prf h p : (p < length (pagerefs h))%nat → get_pr h p = Ok (prf h p).
Proof.
  intros Hp. apply getz_lookup. split; [lia|]. rewrite Nat2Z.id. unfold prf.
  destruct (lookup_lt_is_Some_2 _ _ Hp) as [pr Hpr]. rewrite Hpr. f_equal. symmetry.
  by apply nth_lookup_Some.
Qed.

Lemma prf_insert h p pr q l :
  (p < length (pagerefs h))%nat → pagerefs l = <[p := pr]> (pagerefs h) →
  prf l q = if decide (q = p) then pr else prf h q.
Proof.
  intros Hp Hl. unfold prf. rewrite Hl, !nth_lookup. destruct (decide (q = p)) as [->|Hne].
  - by rewrite list_lookup_insert_eq by done.
  - by rewrite list_lookup_insert_ne by done.
Qed.

Lemma set_pr_Ok h p pr :
  (p < length (pagerefs h))%nat → set_pr h p pr = Ok (kh_set_prs h (<[p := pr]> (pagerefs h))).
Proof.
  intros Hp. unfold set_pr, setz. replace ((0 <=? Z.of_nat p) && _) with true by lia.
  simpl. by rewrite Nat2Z.id.
Qed.

Lemma cm_inv_eq s s' A :
  cm_inv s A → coremap s' = coremap s → base_coremap_page s' = base_coremap_page s →
  num_coremap_entries s' = num_coremap_entries s → num_coremap_free s' = num_coremap_free s →
  cm_inv s' A.
Proof. unfold cm_inv, cm_shape. intros Hinv -> -> -> ->. done. Qed.

#[local] Set Default Proof Using "All".

Section pages.
Context (h : kheap) (A : gmap Z Z) (L : list nat) (F : nat → list Z).
Context (Hinv : kinv h A L F).

Lemma pg_of_kva p : p ∈ L → ∃ c, A !! c = Some 1 ∧ pg_of h p = kva (kh_cm h) c.
Proof. intros Hp. by destruct (ki_page _ _ _ _ Hinv p Hp) as (Hc & _). Qed.

Lemma kva_range c n : A !! c = Some n →
  MIPS_KSEG0 < kva (kh_cm h) c ∧ kva (kh_cm h) c + PAGE_SIZE * n ≤ MIPS_KSEG1 ∧ 0 < n.
Proof.
  intros Hc. destruct (ki_cm _ _ _ _ Hinv) as ((Hb & Hn & Hm) & _ & [Hblk _] & _).
  specialize (Hblk _ _ Hc).
  unfold kva, frame_paddr, MIPS_KSEG0, MIPS_KSEG1, PAGE_SIZE in *. lia.
Qed.

Lemma pg_of_range p : p ∈ L →
  MIPS_KSEG0 < pg_of h p ∧ pg_of h p + PAGE_SIZE ≤ MIPS_KSEG1 ∧ pg_of h p mod PAGE_SIZE = 0.
Proof.
  intros Hp. destruct (pg_of_kva p Hp) as (c & Hc & ->).
  pose proof (kva_range c 1 Hc) as (? & ? & _). split_and!; [lia|lia|].
  unfold kva, frame_paddr, MIPS_KSEG0, PAGE_SIZE.
  replace (4096 * (c + base_coremap_page (kh_cm h)) + 2147483648)
    with ((c + base_coremap_page (kh_cm h) + 524288) * 4096) by lia. by apply Z.mod_mul.
Qed.

Lemma pages_apart p q a :
  p ∈ L → q ∈ L → in_page (pg_of h p) a → in_page (pg_of h q) a → p = q.
Proof.
  intros Hp Hq [H1 H2] [H3 H4]. apply (ki_inj _ _ _ _ Hinv); [done|done|].
  destruct (pg_of_range p Hp) as (_ & _ & Hm1). destruct (pg_of_range q Hq) as (_ & _ & Hm2).
  unfold PAGE_SIZE in *.
  pose proof (Z.div_mod (pg_of h p) 4096). pose proof (Z.div_mod (pg_of h q) 4096). lia.
Qed.

Lemma page_block_in p o : p ∈ L → is_block (blk_of h p) o → in_page (pg_of h p) (pg_of h p + o).
Proof.
  intros Hp Ho. destruct (ki_page _ _ _ _ Hinv p Hp) as (_ & Hb & _).
  pose proof (is_block_range _ _ Hb Ho). pose proof (bsize_facts _ Hb).
  unfold in_page, blk_of in *. lia.
Qed.

(** A new free list for page [p]: the rest of the heap does not notice writes in the
    page. *)
Lemma kinv_page_update p F' m' off nf h' :
  p ∈ L →
  h' = KH (<[p := pr_set_free (prf h p) off nf]> (pagerefs h)) (pagerefs_inuse h)
          (sizebases h) (allbase h) (kh_cm h') →
  kmem (kh_cm h') = m' →
  coremap (kh_cm h') = coremap (kh_cm h) →
  base_coremap_page (kh_cm h') = base_coremap_page (kh_cm h) →
  num_coremap_entries (kh_cm h') = num_coremap_entries (kh_cm h) →
  num_coremap_free (kh_cm h') = num_coremap_free (kh_cm h) →
  (∀ a, ¬ in_page (pg_of h p) a → m' !! a = kmem (kh_cm h) !! a) →
  fl_mem m' (pg_of h p) F' → NoDup F' → (∀ o, o ∈ F' → is_block (blk_of h p) o) →
  nf = zlen F' → off = fl_offset F' →
  kinv h' A L (<[p := F']> F) ∧ (∀ q, pg_of h' q = pg_of h q) ∧ (∀ q, blk_of h' q = blk_of h q).
Proof.
  intros Hp Hh Hm Hcm Hba Hnu Hfr Hout HF' Hnd Hblk Hnf Hoff.
  pose proof (ki_lt _ _ _ _ Hinv p Hp) as Hlt. pose proof (ki_prs _ _ _ _ Hinv) as Hprs.
  assert (Hpr : ∀ q, prf h' q = if decide (q = p) then pr_set_free (prf h p) off nf else prf h q).
  { intros q. apply (prf_insert h p); [lia|]. by rewrite Hh. }
  assert (Hpab : ∀ q, pageaddr_and_blocktype (prf h' q) = pageaddr_and_blocktype (prf h q)).
  { intros q. rewrite Hpr. by destruct (decide (q = p)) as [->|]. }
  assert (Hpg : ∀ q, pg_of h' q = pg_of h q) by (intros q; unfold pg_of, PR_PAGEADDR; by rewrite Hpab).
  assert (Hbl : ∀ q, blk_of h' q = blk_of h q) by (intros q; unfold blk_of, PR_BLOCKTYPE; by rewrite Hpab).
  split; [|done]. constructor.
  - rewrite Hh; simpl. by rewrite length_insert.
  - rewrite Hh. apply Hinv.
  - eapply cm_inv_eq; [apply Hinv|done..].
  - apply Hinv.
  - apply Hinv.
  - rewrite Hh at 2; simpl. eapply chain_ext; [|apply Hinv]. intros q _. simpl.
    rewrite Hpr. by destruct (decide (q = p)) as [->|].
  - rewrite Hh. apply Hinv.
  - intros b base Hb. rewrite Hh in Hb; simpl in Hb.
    pose proof (ki_same _ _ _ _ Hinv b base Hb) as Hc.
    replace (same_size h' (Z.of_nat b) L) with (same_size h (Z.of_nat b) L).
    + eapply chain_ext; [|done]. intros q _. simpl. rewrite Hpr.
      by destruct (decide (q = p)) as [->|].
    + apply filter_agree. intros q _. by rewrite Hbl.
  - intros q Hq. destruct (ki_page _ _ _ _ Hinv q Hq) as ((c & Hc & Hk) & Hb & HFn & HFb & HFm & Hn & Ho).
    unfold page_ok. fold (pg_of h' q) (blk_of h' q). fold (pg_of h q) (blk_of h q) in *.
    rewrite Hpg, Hbl, Hm.
    assert (∃ c, A !! c = Some 1 ∧ pg_of h q = kva (kh_cm h') c).
    { exists c. split; [done|]. unfold kva, frame_paddr. rewrite Hba. done. }
    rewrite Hpr. destruct (decide (q = p)) as [->|Hne].
    + rewrite fn_lookup_insert. split_and!; try done; lia.
    + rewrite fn_lookup_insert_ne by done. split_and!; try done; try lia.
      eapply fl_mem_ext; [|done]. intros o Ho'. apply Hout. intros Hin. apply Hne.
      eapply pages_apart; [done|done| |done]. apply page_block_in; [done|]. by apply HFb.
  - intros q r Hq Hr. rewrite !Hpg. by apply Hinv.
Qed.
End pages.

(** ** Allocation in a page *)

Definition spl_is (spl : Z) (h : kheap) : Prop :=
  curspl (kh_cm h) = spl ∧ (0 ≤ spl → ie_c (kh_cm h) = (spl =? 0)).

Lemma kh_splx_is spl h : spl_is spl (kh_splx spl h).
Proof.
  unfold spl_is; simpl. split; [done|]. intros H0.
  destruct (spl >? 0) eqn:E1, (spl =? 0) eqn:E2; try done; lia.
Qed.

(** Pages keep their place and their type. *)
Definition same_pages (h h' : kheap) : Prop :=
  ∀ q, pg_of h' q = pg_of h q ∧ blk_of h' q = blk_of h q.

Lemma NoDup_lt_length (L : list nat) n : NoDup L → (∀ p, p ∈ L → (p < n)%nat) → (length L ≤ n)%nat.
Proof.
  intros HL Hlt. assert (L ⊆+ seq 0 n) as Hsub.
  { apply NoDup_submseteq; [done|]. intros p Hp. apply elem_of_seq. specialize (Hlt p Hp). lia. }
  apply submseteq_length in Hsub. by rewrite length_seq in Hsub.
Qed.

Lemma kinv_length h A L F : kinv h A L F → (length L ≤ 256)%nat.
Proof. intros Hinv. apply NoDup_lt_length; apply Hinv. Qed.

Lemma doalloc_spec h A L F p spl o F' :
  kinv h A L F → p ∈ L → F p = o :: F' →
  wp (doalloc p spl h) (λ '(a, h'), a = pg_of h p + o ∧
    kinv h' A L (<[p := F']> F) ∧ same_pages h h' ∧ spl_is spl h' ∧
    base_coremap_page (kh_cm h') = base_coremap_page (kh_cm h) ∧
    num_coremap_entries (kh_cm h') = num_coremap_entries (kh_cm h)).
Proof.
  intros Hinv Hp HF. pose proof (ki_lt _ _ _ _ Hinv p Hp) as Hlt.
  pose proof (ki_prs _ _ _ _ Hinv) as Hprs.
  destruct (pg_of_range _ _ _ _ Hinv p Hp) as (Hlo & Hhi & _).
  destruct (ki_page _ _ _ _ Hinv p Hp) as (_ & Hb & Hnd & Hblk & Hm & Hn & Ho).
  rewrite HF in *. fold (pg_of h p) (blk_of h p) in *.
  pose proof (blocks_length _ _ Hb Hnd Hblk) as Hlen.
  destruct (bsize_facts _ Hb) as (Hsz & _ & Hnb & _).
  assert (0 ≤ o ∧ o + bsize (blk_of h p) ≤ PAGE_SIZE) as Hor.
  { apply is_block_range; [done|]. apply Hblk. by constructor. }
  simpl in Ho, Hn. destruct Hm as [Hm0 Hm]. apply NoDup_cons in Hnd as [Hno Hnd].
  unfold MIPS_KSEG0, MIPS_KSEG1, PAGE_SIZE in *.
  unfold doalloc. rewrite get_pr_prf by lia. wp_val. fold (pg_of h p).
  rewrite Ho. unfold PAGE_SIZE. wp_step. rewrite (u32_id (pg_of h p + o)) by in_range.
  unfold kload. rewrite Hm0. simpl. wp_val. rewrite Hn. simpl length in *.
  rewrite Nat2Z.inj_succ in *. replace (Z.succ (zlen F') - 1) with (zlen F') by lia.
  rewrite (u16_id (zlen F')) by lia.
  assert (Hupd : ∀ h', h' = KH (<[p := pr_set_free (prf h p) (fl_offset F') (zlen F')]> (pagerefs h))
                  (pagerefs_inuse h) (sizebases h) (allbase h) (splx spl (kh_cm h)).2 →
    kinv h' A L (<[p := F']> F) ∧ same_pages h h' ∧ spl_is spl h' ∧
    base_coremap_page (kh_cm h') = base_coremap_page (kh_cm h) ∧
    num_coremap_entries (kh_cm h') = num_coremap_entries (kh_cm h)).
  { intros h' ->.
    destruct (kinv_page_update h A L F Hinv p F' (kmem (kh_cm h)) (fl_offset F') (zlen F')
      (KH (<[p := pr_set_free (prf h p) (fl_offset F') (zlen F')]> (pagerefs h))
          (pagerefs_inuse h) (sizebases h) (allbase h) (splx spl (kh_cm h)).2))
      as (Hinv' & Hpg & Hbl); try done.
    - intros o' Ho'. apply Hblk. by constructor.
    - split_and!; [done|by split|apply (kh_splx_is spl h)|done|done]. }
  destruct F' as [|o' F']; simpl fl_ptr; simpl in Hm.
  - simpl. wp_step. rewrite set_pr_Ok by lia. wp_val. split; [done|]. by apply Hupd.
  - assert (0 ≤ o' ∧ o' + bsize (blk_of h p) ≤ 4096) as Hor'.
    { apply is_block_range; [done|]. apply Hblk. by do 2 constructor. }
    unfold NULL. replace (negb (pg_of h p + o' =? 0)) with true by lia.
    replace (pg_of h p + o' - pg_of h p) with o' by lia.
    rewrite (u32_id o') by in_range. rewrite (u16_id o') by lia.
    simpl length in *. wp_step.
    rewrite set_pr_Ok by lia. wp_val. split; [done|]. by apply Hupd.
Qed.

Lemma find_page_spec h A L F b :
  kinv h A L F → 0 ≤ b < 8 →
  wp (find_page b h) (λ op,
    match op with
    | None => ∀ p, p ∈ L → blk_of h p = b → F p = []
    | Some p => p ∈ L ∧ blk_of h p = b ∧ F p ≠ []
    end).
Proof.
  intros Hinv Hb. unfold find_page. rewrite wp_bind.
  apply wp_getz; [rewrite (ki_bases _ _ _ _ Hinv); lia|]. intros base Hbase.
  pose proof (ki_same _ _ _ _ Hinv _ _ Hbase) as Hc. rewrite Z2Nat.id in Hc by lia.
  apply (wp_while_variant (λ n cur, ∃ L1 L2, same_size h b L = L1 ++ L2 ∧ n = length L2 ∧
    chain (next_samesize ∘ prf h) cur L2 ∧ ∀ p, p ∈ L1 → F p = []) _ (length (same_size h b L))).
  - exists [], (same_size h b L). split_and!; try done. intros p Hp. by apply not_elem_of_nil in Hp.
  - unfold list_fuel. pose proof (kinv_length _ _ _ _ Hinv).
    enough (length (same_size h b L) ≤ length L)%nat by lia. apply length_filter.
  - intros n cur (L1 & L2 & HL & -> & Hch & Hnone). destruct L2 as [|p L2]; simpl in Hch.
    + subst cur. wp_val. intros p Hp Hpb. apply Hnone. rewrite app_nil_r in HL. rewrite <- HL.
      by apply list_elem_of_filter.
    + destruct Hch as [-> Hch].
      assert (p ∈ same_size h b L) as Hin by (rewrite HL; set_solver).
      apply list_elem_of_filter in Hin as [Hpb Hp].
      pose proof (ki_lt _ _ _ _ Hinv p Hp). pose proof (ki_prs _ _ _ _ Hinv).
      destruct (ki_page _ _ _ _ Hinv p Hp) as (_ & _ & _ & _ & _ & Hn & _).
      rewrite get_pr_prf by lia. wp_val. fold (blk_of h p). rewrite Hpb, Z.eqb_refl. wp_step.
      rewrite Hn. destruct (F p) as [|o F'] eqn:EF; simpl.
      * wp_val. exists (length L2). split; [lia|]. exists (L1 ++ [p]), L2.
        rewrite <- app_assoc. split_and!; try done. intros q.
        rewrite elem_of_app, list_elem_of_singleton. intros [| ->]; [by apply Hnone|done].
      * wp_val. split_and!; [done|done|]. by rewrite EF.
Qed.

(** ** A fresh page *)

Lemma PAGE_FRAME_bit i : 0 ≤ i → Z.testbit PAGE_FRAME i = (12 <=? i) && (i <? 32).
Proof.
  intros Hi. change PAGE_FRAME with (Z.shiftl (Z.ones 20) 12).
  rewrite Z.shiftl_spec by done. destruct (decide (12 ≤ i)).
  - rewrite Z.testbit_ones_nonneg by lia. lia.
  - rewrite Z.testbit_neg_r by lia. lia.
Qed.

(** A page address and a block type are recovered from the word that packs them. *)
Lemma MKPAB_unpack pg b off n s a :
  is_u32 pg → pg mod PAGE_SIZE = 0 → 0 ≤ b < PAGE_SIZE →
  PR_PAGEADDR (PR s a (MKPAB pg b) off n) = pg ∧ PR_BLOCKTYPE (PR s a (MKPAB pg b) off n) = b.
Proof.
  intros Hpg Hm Hb. unfold PR_PAGEADDR, PR_BLOCKTYPE, MKPAB; simpl.
  assert (Hlow : ∀ i, 0 ≤ i < 12 → Z.testbit pg i = false).
  { intros i Hi. rewrite <- (Z.mod_pow2_bits_low pg 12) by lia.
    change (2 ^ 12) with PAGE_SIZE. by rewrite Hm, Z.bits_0. }
  assert (Hhigh : ∀ i, 12 ≤ i → Z.testbit b i = false).
  { intros i Hi. rewrite <- (Z.mod_small b (2 ^ 12)) by (unfold PAGE_SIZE in Hb; lia).
    apply Z.mod_pow2_bits_high. lia. }
  destruct (proj1 (u32_bits pg) Hpg) as [_ H32].
  split; apply Z.bits_inj'; intros i Hi;
    rewrite !Z.land_spec, !Z.lor_spec, !Z.land_spec, !Z.lnot_spec, !PAGE_FRAME_bit by done.
  - destruct (decide (i < 12)).
    { rewrite Hlow by lia. replace ((12 <=? i) && (i <? 32)) with false by lia.
      by rewrite andb_false_r. }
    rewrite Hhigh by lia. destruct (decide (i < 32)).
    + replace ((12 <=? i) && (i <? 32)) with true by lia. by destruct (Z.testbit pg i).
    + rewrite H32 by lia. by destruct ((12 <=? i) && (i <? 32)).
  - destruct (decide (i < 12)).
    + replace ((12 <=? i) && (i <? 32)) with false by lia. rewrite andb_false_r. by destruct (Z.testbit b i).
    + rewrite Hhigh by lia. destruct (decide (i < 32)).
      * replace ((12 <=? i) && (i <? 32)) with true by lia. by rewrite andb_false_r.
      * rewrite H32 by lia. done.
Qed.

(** The free list of a fresh page: the blocks from the last to the first. *)
Fixpoint desc (sz : Z) (k : nat) : list Z :=
  match k with O => [] | S k' => Z.of_nat k' * sz :: desc sz k' end.

Lemma elem_of_desc sz k o : o ∈ desc sz k ↔ ∃ j, 0 ≤ j < Z.of_nat k ∧ o = j * sz.
Proof.
  induction k as [|k IH]; simpl.
  - split; [by intros ?%not_elem_of_nil|]. intros (j & Hj & _). lia.
  - rewrite elem_of_cons, IH. split.
    + intros [->|(j & Hj & ->)]; eexists; (split; [|done]); lia.
    + intros (j & Hj & ->). destruct (decide (j = Z.of_nat k)) as [->|]; [by left|].
      right. exists j. split; [lia|done].
Qed.

Lemma desc_facts b : 0 ≤ b < 8 →
  let F := desc (bsize b) (Z.to_nat (nblocks b)) in
  NoDup F ∧ (∀ o, o ∈ F ↔ is_block b o) ∧ zlen F = nblocks b ∧
  fl_offset F = (nblocks b - 1) * bsize b ∧ F ≠ [].
Proof.
  intros Hb. destruct (bsize_facts b Hb) as (Hs & _ & Hn & _). simpl.
  assert (Hlen : ∀ k, length (desc (bsize b) k) = k) by (induction k; simpl; lia).
  split_and!.
  - generalize (Z.to_nat (nblocks b)) as k. induction k as [|k IH]; simpl; constructor; [|done].
    rewrite elem_of_desc. intros (j & Hj & Heq). nia.
  - intros o. rewrite elem_of_desc, Z2Nat.id by lia. done.
  - rewrite Hlen. lia.
  - replace (Z.to_nat (nblocks b)) with (S (Z.to_nat (nblocks b - 1))) by lia. simpl.
    by rewrite Z2Nat.id by lia.
  - replace (Z.to_nat (nblocks b)) with (S (Z.to_nat (nblocks b - 1))) by lia. done.
Qed.

Lemma init_page_spec h pg b :
  0 ≤ b < 8 → 0 < pg → pg + PAGE_SIZE < 2 ^ 32 →
  wp (init_page pg (bsize b) (nblocks b) h) (λ '(fl, h'),
    fl = pg + (nblocks b - 1) * bsize b ∧
    ∃ m, h' = kh_set_cm h (cm_set_kmem (kh_cm h) m) ∧
      (∀ a, ¬ in_page pg a → m !! a = kmem (kh_cm h) !! a) ∧
      fl_mem m pg (desc (bsize b) (Z.to_nat (nblocks b)))).
Proof.
  intros Hb H0 H32. destruct (bsize_facts b Hb) as (Hs & Hsn & Hn & _). unfold PAGE_SIZE in *.
  unfold init_page. eapply wp_mono; [apply (wp_for_range (λ i '(fl, h'),
    fl = pg + (i - 1) * bsize b ∧ ∃ m, h' = kh_set_cm h (cm_set_kmem (kh_cm h) m) ∧
      (∀ a, ¬ in_page pg a → m !! a = kmem (kh_cm h) !! a) ∧
      fl_mem m pg (desc (bsize b) (Z.to_nat i))))|].
  - split; [lia|]. exists (<[pg := NULL]> (kmem (kh_cm h))). split_and!.
    + done.
    + intros a Ha. rewrite lookup_insert_ne; [done|]. intros ->. apply Ha.
      unfold in_page, PAGE_SIZE. lia.
    + simpl. split; [|done]. by rewrite Z.add_0_r, lookup_insert_eq.
  - intros i [fl h'] Hi (_ & m & -> & Hout & Hm). unfold NULL.
    assert (0 ≤ (i - 1) * bsize b ∧ (i - 1) * bsize b + bsize b + bsize b ≤ 4096) as Hir by nia.
    unwrap. wp_step.
    split; [lia|].
    exists (<[pg + i * bsize b := pg + (i - 1) * bsize b]> m). split_and!.
    + done.
    + intros a Ha. rewrite lookup_insert_ne; [by apply Hout|]. intros <-. apply Ha.
      unfold in_page, PAGE_SIZE. lia.
    + replace (Z.to_nat (i + 1)) with (S (Z.to_nat i)) by lia. simpl. rewrite Z2Nat.id by lia.
      split.
      * rewrite lookup_insert_eq. f_equal.
        replace (Z.to_nat i) with (S (Z.to_nat (i - 1))) by lia. simpl. by rewrite Z2Nat.id by lia.
      * eapply fl_mem_ext; [|done]. intros o (j & Hj & ->)%elem_of_desc.
        rewrite lookup_insert_ne; [done|]. nia.
  - intros [fl h']. by replace (1 + Z.of_nat (Z.to_nat (nblocks b - 1))) with (nblocks b) by lia.
Qed.

Lemma kva_align s c : kva s c mod PAGE_SIZE = 0.
Proof.
  unfold kva, frame_paddr, MIPS_KSEG0, PAGE_SIZE.
  replace (4096 * (c + base_coremap_page s) + 2147483648)
    with ((c + base_coremap_page s + 524288) * 4096) by lia. by apply Z.mod_mul.
Qed.

Lemma kva_inj s c c' : kva s c = kva s c' → c = c'.
Proof. unfold kva, frame_paddr, PAGE_SIZE. lia. Qed.

(** *** A page joins the heap

    [h'] is [h] with page reference [p] put in front of the lists for the frame [c], cut into blocks
    of type [b] that are all free. *)

Section add_page.
Context (h h' : kheap) (A : gmap Z Z) (L : list nat) (F : nat → list Z) (p : nat) (c b : Z) (base : option nat).
Abbreviation page := (kva (kh_cm h) c).
Abbreviation pr0 := (PR base (allbase h) (MKPAB page b) ((nblocks b - 1) * bsize b) (nblocks b)).
Abbreviation F0 := (desc (bsize b) (Z.to_nat (nblocks b))).
Hypothesis Hinv : kinv h A L F.
Hypothesis Hp : p ∉ L.
Hypothesis Hlt : (p < 256)%nat.
Hypothesis Hb : 0 ≤ b < 8.
Hypothesis Hc : A !! c = None.
Hypothesis Hbase : sizebases h !! Z.to_nat b = Some base.
Hypothesis Hprs : pagerefs h' = <[p := pr0]> (pagerefs h).
Hypothesis Hbases : sizebases h' = <[Z.to_nat b := Some p]> (sizebases h).
Hypothesis Hcm : cm_inv (kh_cm h') (<[c := 1]> A).
Hypothesis Hbp : base_coremap_page (kh_cm h') = base_coremap_page (kh_cm h).
Hypothesis Hout : ∀ a, ¬ in_page page a → kmem (kh_cm h') !! a = kmem (kh_cm h) !! a.
Hypothesis HF0 : fl_mem (kmem (kh_cm h')) page F0.

#[local] Lemma add_kva c' : kva (kh_cm h') c' = kva (kh_cm h) c'.
Proof using All. unfold kva, frame_paddr. by rewrite Hbp. Qed.

#[local] Lemma add_new : prf h' p = pr0 ∧ PR_PAGEADDR pr0 = page ∧ PR_BLOCKTYPE pr0 = b.
Proof using All.
  pose proof (ki_prs _ _ _ _ Hinv) as Hl. split.
  - rewrite (prf_insert h p pr0) by (done || lia). by rewrite decide_True.
  - apply MKPAB_unpack; [|apply kva_align|unfold PAGE_SIZE; lia].
    destruct Hcm as ((Hb0 & Hn & Hm) & _ & [Hr _] & _).
    specialize (Hr c 1 ltac:(by rewrite lookup_insert_eq)).
    unfold is_u32, kva, frame_paddr, MIPS_KSEG0, PAGE_SIZE. lia.
Qed.

#[local] Lemma add_old q : q ∈ L → q ≠ p ∧ prf h' q = prf h q.
Proof using All.
  intros Hq. assert (q ≠ p) as Hne by (by intros ->). split; [done|].
  pose proof (ki_prs _ _ _ _ Hinv) as Hl.
  rewrite (prf_insert h p pr0) by (done || lia). by rewrite decide_False.
Qed.

#[local] Lemma add_old_pg q : q ∈ L → pg_of h' q = pg_of h q ∧ blk_of h' q = blk_of h q.
Proof using All. intros Hq. unfold pg_of, blk_of. by rewrite (proj2 (add_old q Hq)). Qed.

(** The list of pages of each size. *)
#[local] Lemma add_sizes b' base' :
  sizebases h' !! b' = Some base' → chain (next_samesize ∘ prf h') base' (same_size h' (Z.of_nat b') (p :: L)).
Proof using All.
  intros Hb'. rewrite Hbases in Hb'. destruct add_new as (Hpr & _ & Hbt).
  assert (same_size h' (Z.of_nat b') L = same_size h (Z.of_nat b') L) as Hss.
  { apply filter_agree. intros q HqL. by rewrite (proj2 (add_old_pg q HqL)). }
  assert (Hch : ∀ s, chain (next_samesize ∘ prf h) s (same_size h (Z.of_nat b') L) →
    chain (next_samesize ∘ prf h') s (same_size h (Z.of_nat b') L)).
  { intros s. apply chain_ext. intros q [_ HqL]%list_elem_of_filter. simpl. by rewrite (proj2 (add_old q HqL)). }
  assert (blk_of h' p = b) as Hblp by (unfold blk_of; by rewrite Hpr).
  unfold same_size in *. rewrite filter_cons, Hblp, Hss.
  destruct (decide (b = Z.of_nat b')) as [Heq|Hne].
  - replace (Z.to_nat b) with b' in * by lia.
    rewrite list_lookup_insert_eq in Hb' by (by eapply lookup_lt_Some). simplify_eq.
    split; [done|]. simpl. rewrite Hpr. apply Hch. by apply Hinv.
  - rewrite list_lookup_insert_ne in Hb' by lia. apply Hch. by apply Hinv.
Qed.

(** The free list of each page. *)
#[local] Lemma add_pages q :
  q ∈ p :: L → page_ok (kh_cm h') (<[c := 1]> A) (prf h' q) (<[p := F0]> F q).
Proof using All.
  destruct (desc_facts b Hb) as (Hnd & Hblk & Hlen & Hoff & Hne0).
  intros [->|HqL]%elem_of_cons.
  - destruct add_new as (Hpr & Hpa & Hbt).
    rewrite fn_lookup_insert, Hpr. unfold page_ok. rewrite Hpa, Hbt. split_and!; try done; try lia.
    + exists c. by rewrite lookup_insert_eq, add_kva.
    + intros o Ho. by apply Hblk.
  - destruct (add_old q HqL) as [Hne Hq]. rewrite fn_lookup_insert_ne, Hq by done.
    destruct (ki_page _ _ _ _ Hinv q HqL) as ((c' & Hc' & Hk) & Hb' & HFn & HFb & HFm & Hn & Ho).
    unfold page_ok. split_and!; try done; try lia.
    + exists c'. rewrite add_kva. split; [|done]. rewrite lookup_insert_ne; [done|congruence].
    + eapply fl_mem_ext; [|done]. intros o Ho'. apply Hout. intros Hin.
      assert (in_page (pg_of h q) (pg_of h q + o)) as Hin2.
      { apply (page_block_in h A L F Hinv); [done|]. by apply HFb. }
      fold (pg_of h q) in Hk, Hin. rewrite Hk in Hin, Hin2.
      assert (c' = c) as ->; [|congruence].
      unfold in_page, kva, frame_paddr, PAGE_SIZE in Hin, Hin2. lia.
Qed.

#[local] Lemma add_distinct q r : q ∈ p :: L → r ∈ p :: L → pg_of h' q = pg_of h' r → q = r.
Proof using All.
  destruct add_new as (Hpr & Hpa & _).
  assert (pg_of h' p = page) as Hpgp by (unfold pg_of; by rewrite Hpr).
  assert (Hfresh : ∀ q, q ∈ L → pg_of h q ≠ page).
  { intros q' HqL Heq. destruct (pg_of_kva h A L F Hinv q' HqL) as (c' & Hc' & Hk).
    rewrite Hk in Heq. apply kva_inj in Heq. congruence. }
  intros [->|HqL]%elem_of_cons [->|HrL]%elem_of_cons; [done|..].
  - rewrite Hpgp, (proj1 (add_old_pg r HrL)). intros Heq. by destruct (Hfresh r HrL).
  - rewrite Hpgp, (proj1 (add_old_pg q HqL)). intros Heq. by destruct (Hfresh q HqL).
  - rewrite (proj1 (add_old_pg q HqL)), (proj1 (add_old_pg r HrL)). by apply Hinv.
Qed.

Lemma kinv_add_page :
  inuse_ok (pagerefs_inuse h') (p :: L) → allbase h' = Some p →
  kinv h' (<[c := 1]> A) (p :: L) (<[p := F0]> F) ∧
  pg_of h' p = page ∧ blk_of h' p = b ∧
  (∀ q, q ∈ L → pg_of h' q = pg_of h q ∧ blk_of h' q = blk_of h q).
Proof using All.
  intros Huse Hall. destruct add_new as (Hpr & Hpa & Hbt).
  split_and!; [|by unfold pg_of; rewrite Hpr|by unfold blk_of; rewrite Hpr|apply add_old_pg].
  constructor; [|done|done|constructor; [done|apply Hinv]| | | |apply add_sizes|apply add_pages|apply add_distinct].
  - rewrite Hprs, length_insert. apply Hinv.
  - intros q [->|HqL]%elem_of_cons; [done|by apply Hinv].
  - rewrite Hall. split; [done|]. simpl. rewrite Hpr. simpl.
    eapply chain_ext; [|apply Hinv]. intros q HqL. simpl. by rewrite (proj2 (add_old q HqL)).
  - rewrite Hbases, length_insert. apply Hinv.
Qed.
End add_page.

(** ** The effect on the blocks in use *)

Lemma is_live_addr h A L F p o :
  kinv h A L F → p ∈ L → is_block (blk_of h p) o →
  is_live h L F (pg_of h p + o) ↔ o ∉ F p.
Proof.
  intros Hinv Hp Ho. split; [|by intros; exists p, o].
  intros (q & o' & Hq & Ho' & Hno & Heq).
  assert (p = q) as <-.
  { eapply (pages_apart h A L F Hinv p q (pg_of h p + o)); [done|done|by eapply page_block_in|].
    rewrite Heq. by eapply page_block_in. }
  by replace o with o' by lia.
Qed.

Lemma is_live_take h L F h' p o F' a :
  p ∈ L → F p = o :: F' → same_pages h h' → is_block (blk_of h p) o → o ∉ F' →
  is_live h' L (<[p := F']> F) a ↔ is_live h L F a ∨ a = pg_of h p + o.
Proof.
  intros Hp HF Hsame Ho HoF'. unfold is_live. split.
  - intros (q & o' & Hq & Ho' & Hno & ->). destruct (Hsame q) as [-> Hbq]. rewrite Hbq in Ho'.
    destruct (decide (q = p)) as [->|Hne].
    + rewrite fn_lookup_insert in Hno. destruct (decide (o' = o)) as [->|]; [by right|].
      left. exists p, o'. split_and!; try done. rewrite HF. set_solver.
    + rewrite fn_lookup_insert_ne in Hno by done. left. by exists q, o'.
  - intros [(q & o' & Hq & Ho' & Hno & ->)| ->].
    + exists q, o'. destruct (Hsame q) as [-> ->]. split_and!; try done.
      destruct (decide (q = p)) as [->|Hne].
      * rewrite fn_lookup_insert. rewrite HF in Hno. set_solver.
      * by rewrite fn_lookup_insert_ne.
    + exists p, o. destruct (Hsame p) as [-> ->]. by rewrite fn_lookup_insert.
Qed.

(** Pages with all blocks free carry no block in use. *)
Lemma is_live_add h L F h' p F0 a :
  p ∉ L → (∀ o, is_block (blk_of h' p) o → o ∈ F0) →
  (∀ q, q ∈ L → pg_of h' q = pg_of h q ∧ blk_of h' q = blk_of h q) →
  is_live h' (p :: L) (<[p := F0]> F) a ↔ is_live h L F a.
Proof.
  intros Hp HF0 Hsame. unfold is_live. split.
  - intros (q & o & [->|Hq]%elem_of_cons & Ho & Hno & ->).
    + rewrite fn_lookup_insert in Hno. by destruct Hno; apply HF0.
    + destruct (Hsame q Hq) as [-> Hbq]. rewrite Hbq in Ho. exists q, o.
      rewrite fn_lookup_insert_ne in Hno by (by intros ->). done.
  - intros (q & o & Hq & Ho & Hno & ->). exists q, o. destruct (Hsame q Hq) as [-> ->].
    rewrite fn_lookup_insert_ne by (by intros ->). split_and!; try done. by constructor.
Qed.

(** The invariant does not see the interrupt level. *)
Definition only_spl (s s' : cmstate) : Prop :=
  kmem s' = kmem s ∧ coremap s' = coremap s ∧ base_coremap_page s' = base_coremap_page s ∧
  num_coremap_entries s' = num_coremap_entries s ∧ num_coremap_free s' = num_coremap_free s.

Lemma kinv_cm_eq h h' A L F :
  kinv h A L F → pagerefs h' = pagerefs h → sizebases h' = sizebases h →
  allbase h' = allbase h → inuse_ok (pagerefs_inuse h') L → only_spl (kh_cm h) (kh_cm h') →
  kinv h' A L F ∧ same_pages h h'.
Proof.
  intros [] Hp Hs Ha Hu (Hm & Hc & Hb & Hn & Hf).
  assert (prf h' = prf h) as Hprf by (unfold prf; by rewrite Hp).
  assert (pg_of h' = pg_of h) as Hpg by (unfold pg_of; by rewrite Hprf).
  assert (same_size h' = same_size h) as Hss by (unfold same_size, blk_of; by rewrite Hprf).
  split; [|intros q; unfold pg_of, blk_of; by rewrite Hprf].
  constructor; try rewrite Hprf; try rewrite Hp; try rewrite Hs; try rewrite Ha;
    try rewrite Hpg; try rewrite Hss; try done.
  - by eapply cm_inv_eq.
  - unfold page_ok, kva, frame_paddr in *. by rewrite Hm, Hb.
Qed.

Lemma same_pages_live h h' L F a : same_pages h h' → is_live h' L F a ↔ is_live h L F a.
Proof.
  intros Hs. unfold is_live. split; intros (q & o & Hq & Ho & Hno & ->);
    exists q, o; destruct (Hs q) as [? Hb]; [rewrite Hb in Ho|rewrite <- Hb in Ho];
    split_and!; try done; lia.
Qed.

Lemma alloc_kpages_one s A :
  cm_inv s A → spl_ok s →
  wp (alloc_kpages 1 s) (λ '(a, s'),
    (a = 0 ∧ s' = (splhigh s).2 ∧ num_coremap_free s = 0) ∨
    (∃ c, a = kva s c ∧ 0 < kva s c ∧ kva s c + PAGE_SIZE < 2 ^ 32 ∧ A !! c = None ∧
       cm_inv s' (<[c := 1]> A) ∧ same_but_frames s s')).
Proof.
  intros Hinv Hspl. unfold alloc_kpages. wp_call (getppages_one s A 1); [done|done|].
  intros [pa s'] [(Hz & -> & ->)|(c & Hc & -> & Hne & HA & _ & Hinv' & Hsame)].
  - simpl. wp_val. by left.
  - destruct Hinv as ((Hb & Hn & Hm) & _).
    replace (frame_paddr s c =? 0) with false by lia. wp_val. right. exists c.
    unfold PADDR_TO_KVADDR. unfold kva, frame_paddr, MIPS_KSEG0, PAGE_SIZE in *.
    rewrite u32_id by in_range. split_and!; try done; lia.
Qed.

(** ** [subpage_kmalloc] *)

(** The pages of [L] are where they were, and so is the memory under the coremap. *)
Definition same_frames (h : kheap) (L : list nat) (h' : kheap) : Prop :=
  base_coremap_page (kh_cm h') = base_coremap_page (kh_cm h) ∧
  num_coremap_entries (kh_cm h') = num_coremap_entries (kh_cm h) ∧
  ∀ q, q ∈ L → pg_of h' q = pg_of h q.

(** An allocation takes no page, or one more. *)
Definition grown (h : kheap) (A : gmap Z Z) (L : list nat) (h' : kheap) (A' : gmap Z Z) (L' : list nat) : Prop :=
  same_frames h L h' ∧
  (A' = A ∧ L' = L ∨
   ∃ c p, A !! c = None ∧ A' = <[c := 1]> A ∧ L' = p :: L ∧ pg_of h' p = kva (kh_cm h) c).

(** What an allocation of [sz] bytes from [h] promises of its answer [a]; [spl] is the
    interrupt level it restores. *)
Definition alloc_at (h : kheap) (A : gmap Z Z) (L : list nat) (F : nat → list Z) (sz spl a : Z) (h' : kheap)
    (A' : gmap Z Z) (L' : list nat) (F' : nat → list Z) : Prop :=
  kinv h' A' L' F' ∧ spl_is spl h' ∧
  a ≠ NULL ∧ ¬ is_live h L F a ∧ (∀ x, is_live h' L' F' x ↔ is_live h L F x ∨ x = a) ∧
  (∃ p o, p ∈ L' ∧ is_block (blk_of h' p) o ∧ a = pg_of h' p + o ∧ sz ≤ bsize (blk_of h' p)) ∧
  grown h A L h' A' L'.

Definition alloc_ok (h : kheap) (A : gmap Z Z) (L : list nat) (F : nat → list Z) (sz spl a : Z) (h' : kheap) : Prop :=
  ∃ A' L' F', alloc_at h A L F sz spl a h' A' L' F'.

(** It fails when there is no frame or no page reference left. *)
Definition alloc_failed (h : kheap) (A : gmap Z Z) (L : list nat) (F : nat → list Z) (spl a : Z) (h' : kheap) : Prop :=
  kinv h' A L F ∧ spl_is spl h' ∧ a = NULL ∧ (∀ x, is_live h' L F x ↔ is_live h L F x) ∧
  same_frames h L h' ∧ (num_coremap_free (kh_cm h) = 0 ∨ length L = 256%nat).

Lemma doalloc_ok h A L F p spl o F' sz :
  kinv h A L F → p ∈ L → F p = o :: F' → sz ≤ bsize (blk_of h p) →
  wp (doalloc p spl h) (λ '(a, h'), ∃ F', alloc_at h A L F sz spl a h' A L F').
Proof.
  intros Hinv Hp HF Hsz. destruct (ki_page _ _ _ _ Hinv p Hp) as (_ & Hb & Hnd & Hblk & _).
  rewrite HF in Hnd, Hblk. fold (blk_of h p) in *. apply NoDup_cons in Hnd as [Hno _].
  assert (is_block (blk_of h p) o) as Ho by (apply Hblk; by constructor).
  pose proof (is_block_range _ _ Hb Ho). destruct (pg_of_range _ _ _ _ Hinv p Hp) as (Hlo & _).
  eapply wp_mono; [by eapply doalloc_spec|]. intros [a h'] (-> & Hinv' & Hsame & Hspl & Hbp & Hne).
  exists (<[p := F']> F). unfold alloc_at. split_and!; try done.
  - unfold NULL, MIPS_KSEG0 in *. lia.
  - rewrite is_live_addr by done. rewrite HF. set_solver.
  - intros x. by apply is_live_take.
  - exists p, o. destruct (Hsame p) as [-> ->]. by split_and!.
  - split; [|by left]. split_and!; [done|done|]. intros q _. apply Hsame.
Qed.

(** Giving back the reference and the level leaves the heap as it was. *)
Lemma alloc_gives_up h A L F spl h' :
  kinv h A L F → pagerefs h' = pagerefs h → sizebases h' = sizebases h →
  allbase h' = allbase h → inuse_ok (pagerefs_inuse h') L → only_spl (kh_cm h) (kh_cm h') →
  num_coremap_free (kh_cm h) = 0 ∨ length L = 256%nat →
  alloc_failed h A L F spl NULL (kh_splx spl h').
Proof.
  intros Hinv Hp Hs Ha Hu Hcm Hwhy.
  destruct (kinv_cm_eq h (kh_splx spl h') A L F Hinv) as [Hinv' Hsame]; try done.
  destruct Hcm as (_ & _ & Hbp & Hne & _).
  split_and!; [done|apply kh_splx_is|done|intros x; by apply same_pages_live| |done].
  split_and!; [done|done|]. intros q _. apply Hsame.
Qed.

(** Every page reference is in use. *)
Lemma full_length (L : list nat) :
  NoDup L → (∀ p, p ∈ L → (p < 256)%nat) → (∀ p, (p < 256)%nat → p ∈ L) → length L = 256%nat.
Proof.
  intros Hnd Hlt Hall. apply Nat.le_antisymm; [by apply NoDup_lt_length|].
  assert (seq 0 256 ⊆+ L) as Hsub; [|apply submseteq_length in Hsub; by rewrite length_seq in Hsub].
  apply NoDup_submseteq; [apply NoDup_seq|]. intros p Hp%elem_of_seq. apply Hall. lia.
Qed.

(** A page joins the heap and gives a block. *)
Lemma grown_page h A L h3 h' p c :
  grown h3 (<[c := 1]> A) (p :: L) h' (<[c := 1]> A) (p :: L) → A !! c = None →
  same_frames h L h3 → pg_of h3 p = kva (kh_cm h) c → grown h A L h' (<[c := 1]> A) (p :: L).
Proof.
  intros ((Hb & Hn & Hpg) & _) HA (Hb3 & Hn3 & Hpg3) Hk. split.
  - split_and!; [congruence..|]. intros q Hq. rewrite Hpg by (by right). by apply Hpg3.
  - right. exists c, p. split_and!; try done. rewrite Hpg; [done|by left].
Qed.

Lemma newpage_spec h A L F b sz spl :
  kinv h A L F → spl_ok (kh_cm h) → 0 ≤ b < 8 → sz ≤ bsize b →
  wp (newpage b (bsize b) spl h) (λ '(a, h'),
    alloc_failed h A L F spl a h' ∨ alloc_ok h A L F sz spl a h').
Proof.
  intros Hinv Hspl Hb Hsz. unfold newpage.
  wp_call allocpageref_spec; [apply Hinv|]. intros [[p|] h1].
  2: { intros [-> Hall]. wp_val. left. apply (alloc_gives_up h A); try done; [apply Hinv|].
    right. by apply full_length; [apply Hinv..|]. }
  intros (Hlt & Hp & l & -> & Huse).
  wp_call (alloc_kpages_one (kh_cm h) A); [apply Hinv|done|].
  intros [a s'] [(-> & -> & Hz)|(c & -> & Hc0 & Hc32 & HA & Hcm & Hfr)].
  { simpl. wp_call (freepageref_spec _ (p :: L) p L); [done|done|by constructor| |].
    { intros q. rewrite elem_of_cons. split; [intros HqL; split; [by right|by intros ->]|].
      intros [[->|] ?]; done. }
    intros h2 (l' & -> & Huse'). wp_val. left. apply (alloc_gives_up h A); try done. by left. }
  replace (kva (kh_cm h) c =? 0) with false by lia.
  change (PAGE_SIZE / bsize b) with (nblocks b).
  destruct (bsize_facts b Hb) as (Hbs & Hbn & Hn & _).
  rewrite (u16_id (nblocks b)) by lia.
  wp_call init_page_spec; [done|lia|lia|]. intros [fl h2] (-> & m & -> & Hout & HF0).
  destruct Hfr as (Hkm & _ & _ & Hbp & Hen). simpl in Hkm, Hout, Hbp.
  assert (0 ≤ (nblocks b - 1) * bsize b < 4096) by nia.
  replace (kva (kh_cm h) c + (nblocks b - 1) * bsize b - kva (kh_cm h) c)
    with ((nblocks b - 1) * bsize b) by lia.
  unwrap. rewrite Z.eqb_refl. wp_step.
  apply wp_getz; [simpl; rewrite (ki_bases _ _ _ _ Hinv); lia|]. intros base Hbase.
  rewrite set_pr_Ok by (simpl; rewrite (ki_prs _ _ _ _ Hinv); done). wp_val.
  rewrite wp_bind. apply wp_setz; [simpl; rewrite (ki_bases _ _ _ _ Hinv); lia|].
  match goal with |- wp (doalloc p _ ?h3) _ =>
    destruct (kinv_add_page h h3 A L F p c b base) as (Hinv3 & Hpg & Hbl & Hold);
      try done; [by intros a Ha; simpl; rewrite Hout, Hkm|] end.
  destruct (desc_facts b Hb) as (_ & Hall & _ & _ & Hne0).
  destruct (desc (bsize b) (Z.to_nat (nblocks b))) as [|o F'] eqn:ED; [done|].
  eapply wp_mono; [eapply (doalloc_ok _ _ (p :: L) _ p _ o F' sz);
    [exact Hinv3|by constructor|by rewrite fn_lookup_insert|rewrite Hbl; lia]|].
  intros [a h'] (F'' & Hinv' & Hspl' & Hnn & Hnl & Hl & Hblk & Hgr). right.
  exists (<[c := 1]> A), (p :: L), F''. unfold alloc_at.
  assert (Hlive : ∀ h3 x, (∀ q, q ∈ L → pg_of h3 q = pg_of h q ∧ blk_of h3 q = blk_of h q) →
    blk_of h3 p = b → is_live h3 (p :: L) (<[p := o :: F']> F) x ↔ is_live h L F x).
  { intros h3 x Hold3 Hb3. apply is_live_add; [done| |done]. intros o'. rewrite Hb3. by apply Hall. }
  rewrite Hlive in Hnl by done. split_and!; try done; [intros x; by rewrite Hl, Hlive|].
  apply (grown_page h A L _ h' p c Hgr); [done| |done]. split_and!; try done. intros q Hq. by apply Hold.
Qed.

Lemma subpage_kmalloc_spec h A L F sz :
  kinv h A L F → spl_ok (kh_cm h) → 0 ≤ sz ≤ 2048 →
  wp (subpage_kmalloc sz h) (λ '(a, h'),
    alloc_failed h A L F (curspl (kh_cm h)) a h' ∨ alloc_ok h A L F sz (curspl (kh_cm h)) a h').
Proof.
  intros Hinv [Hs0 Hs] Hsz. unfold subpage_kmalloc.
  wp_call blocktype_spec; [done|]. intros b (Hb & Hszb & _). rewrite sizes_bsize by done. wp_val.
  change (splhigh (kh_cm h)) with (curspl (kh_cm h), (splhigh (kh_cm h)).2). cbv iota beta.
  set (hs := kh_set_cm h (splhigh (kh_cm h)).2).
  destruct (kinv_cm_eq h hs A L F Hinv) as [Hinvs Hsames]; try done; [apply Hinv|].
  wp_call find_page_spec; [done|done|]. intros [p|] Hpage.
  - destruct Hpage as (Hp & Hpb & HF). destruct (F p) as [|o F'] eqn:EF; [done|].
    eapply wp_mono; [apply (doalloc_ok hs A L F p _ o F' sz); [done|done|done|by rewrite Hpb]|].
    intros [a h'] (F'' & Hpost). right. exists A, L, F''. exact Hpost.
  - eapply wp_mono; [by apply (newpage_spec hs A L F b sz)|].
    intros [a h'] [Hpost|Hpost]; [left|right]; exact Hpost.
Qed.

(** ** Unlinking a page *)

Lemma nodup_split_unique {X} (x : X) l1 l2 m1 m2 :
  NoDup (l1 ++ x :: l2) → l1 ++ x :: l2 = m1 ++ x :: m2 → l1 = m1 ∧ l2 = m2.
Proof.
  revert m1. induction l1 as [|y l1 IH]; intros [|z m1] Hnd Heq; simpl in *;
    [by simplify_eq|injection Heq as -> Heq..].
  - apply NoDup_cons in Hnd as [Hx _]. destruct Hx. rewrite Heq. apply elem_of_app. right. by constructor.
  - apply NoDup_cons in Hnd as [Hx _]. destruct Hx. apply elem_of_app. right. by constructor.
  - apply NoDup_cons in Hnd as [_ Hnd]. by destruct (IH m1 Hnd Heq) as [-> ->].
Qed.

(** Two heaps that differ in their links only. *)
Definition links_only (h h' : kheap) : Prop :=
  length (pagerefs h') = length (pagerefs h) ∧ pagerefs_inuse h' = pagerefs_inuse h ∧
  kh_cm h' = kh_cm h ∧ length (sizebases h') = length (sizebases h) ∧
  ∀ q, pageaddr_and_blocktype (prf h' q) = pageaddr_and_blocktype (prf h q) ∧
       freelist_offset (prf h' q) = freelist_offset (prf h q) ∧ nfree (prf h' q) = nfree (prf h q).

Lemma links_only_trans h1 h2 h3 : links_only h1 h2 → links_only h2 h3 → links_only h1 h3.
Proof.
  intros (Ha & Hb & Hc & Hd & He) (Ha' & Hb' & Hc' & Hd' & He'). split_and!; try congruence.
  intros q. destruct (He q) as (? & ? & ?), (He' q) as (? & ? & ?). split_and!; congruence.
Qed.

Lemma links_only_page h h' q : links_only h h' → pg_of h' q = pg_of h q ∧ blk_of h' q = blk_of h q.
Proof.
  intros (_ & _ & _ & _ & He). destruct (He q) as (Hp & _).
  unfold pg_of, blk_of, PR_PAGEADDR, PR_BLOCKTYPE. by rewrite Hp.
Qed.

Lemma set_same_Ok h b loc v :
  0 ≤ b < zlen (sizebases h) → (∀ q, loc = Some q → (q < length (pagerefs h))%nat) →
  ∃ h', set_same h b loc v = Ok h' ∧ links_only h h' ∧ allbase h' = allbase h ∧
    (∀ q, next_all (prf h' q) = next_all (prf h q)) ∧
    (∀ q, next_samesize (prf h' q) = if decide (loc = Some q) then v else next_samesize (prf h q)) ∧
    sizebases h' = match loc with None => <[Z.to_nat b := v]> (sizebases h) | Some _ => sizebases h end.
Proof.
  intros Hb Hloc. destruct loc as [q|]; simpl.
  - rewrite get_pr_prf by (by apply Hloc). simpl. rewrite set_pr_Ok by (by apply Hloc).
    eexists. split; [done|].
    match goal with |- links_only _ ?h' ∧ _ => 
      assert (Hpr : ∀ r, prf h' r = if decide (r = q)
        then PR v (next_all (prf h q)) (pageaddr_and_blocktype (prf h q)) (freelist_offset (prf h q)) (nfree (prf h q))
        else prf h r) by (intros r; apply prf_insert; [by apply Hloc|done]) end.
    unfold links_only. simpl. rewrite length_insert. split_and!; try done.
    + intros r. rewrite Hpr. by destruct (decide (r = q)) as [->|].
    + intros r. rewrite Hpr. by destruct (decide (r = q)) as [->|].
    + intros r. rewrite Hpr. destruct (decide (r = q)) as [->|]; [by rewrite decide_True|].
      by rewrite decide_False by congruence.
  - unfold setz. replace ((0 <=? b) && (b <? _)) with true by lia. simpl. eexists. split; [done|].
    unfold links_only. simpl. rewrite length_insert. by split_and!.
Qed.

Lemma set_all_Ok h loc v :
  (∀ q, loc = Some q → (q < length (pagerefs h))%nat) →
  ∃ h', set_all h loc v = Ok h' ∧ links_only h h' ∧ sizebases h' = sizebases h ∧
    (∀ q, next_samesize (prf h' q) = next_samesize (prf h q)) ∧
    (∀ q, next_all (prf h' q) = if decide (loc = Some q) then v else next_all (prf h q)) ∧
    allbase h' = match loc with None => v | Some _ => allbase h end.
Proof.
  intros Hloc. destruct loc as [q|]; simpl.
  - rewrite get_pr_prf by (by apply Hloc). simpl. rewrite set_pr_Ok by (by apply Hloc).
    eexists. split; [done|].
    match goal with |- links_only _ ?h' ∧ _ => 
      assert (Hpr : ∀ r, prf h' r = if decide (r = q)
        then PR (next_samesize (prf h q)) v (pageaddr_and_blocktype (prf h q)) (freelist_offset (prf h q)) (nfree (prf h q))
        else prf h r) by (intros r; apply prf_insert; [by apply Hloc|done]) end.
    unfold links_only. simpl. rewrite length_insert. split_and!; try done.
    + intros r. rewrite Hpr. by destruct (decide (r = q)) as [->|].
    + intros r. rewrite Hpr. by destruct (decide (r = q)) as [->|].
    + intros r. rewrite Hpr. destruct (decide (r = q)) as [->|]; [by rewrite decide_True|].
      by rewrite decide_False by congruence.
  - eexists. split; [done|]. unfold links_only. simpl. by split_and!.
Qed.

Section unlink.
Context (h : kheap) (A : gmap Z Z) (L : list nat) (F : nat → list Z).
Context (Hinv : kinv h A L F) (p : nat) (Hp : p ∈ L).

Lemma remove_same_spec :
  ∃ M1 M2 h1, same_size h (blk_of h p) L = M1 ++ p :: M2 ∧
    remove_same p (blk_of h p) h = Ok h1 ∧ links_only h h1 ∧ allbase h1 = allbase h ∧
    (∀ q, next_all (prf h1 q) = next_all (prf h q)) ∧
    ∀ b base, sizebases h1 !! b = Some base →
      chain (next_samesize ∘ prf h1) base
        (if decide (Z.of_nat b = blk_of h p) then M1 ++ M2 else same_size h (Z.of_nat b) L).
Proof.
  destruct (ki_page _ _ _ _ Hinv p Hp) as (_ & Hb & _). fold (blk_of h p) in Hb.
  pose proof (ki_bases _ _ _ _ Hinv) as Hbl. pose proof (ki_prs _ _ _ _ Hinv) as Hpl.
  destruct (lookup_lt_is_Some_2 (sizebases h) (Z.to_nat (blk_of h p))) as [base Hbase]; [lia|].
  pose proof (ki_same _ _ _ _ Hinv _ _ Hbase) as Hch. rewrite Z2Nat.id in Hch by lia.
  assert (Hlt : ∀ q, q ∈ same_size h (blk_of h p) L → (q < length (pagerefs h))%nat).
  { intros q [_ Hq]%list_elem_of_filter. rewrite Hpl. by apply Hinv. }
  assert (Hnd : NoDup (same_size h (blk_of h p) L)) by apply NoDup_filter, Hinv.
  destruct (unlink_walk (get_same h (blk_of h p))
    (λ loc, pr ← get_pr h p; set_same h (blk_of h p) loc (next_samesize pr)) h
    (same_size h (blk_of h p) L) p) as (M1 & M2 & HM & Hrun).
  - intros L1 L2 HL. rewrite HL in Hch, Hlt. pose proof (chain_link _ _ _ _ Hch) as Hlk.
    unfold get_same. destruct (last L1) as [q|] eqn:El.
    + rewrite get_pr_prf; [simpl in *; by rewrite <- Hlk|]. apply Hlt, elem_of_app.
      left. by apply last_Some_elem_of.
    + rewrite <- Hlk. apply getz_lookup. split; [lia|done].
  - unfold list_fuel. pose proof (kinv_length _ _ _ _ Hinv).
    enough (length (same_size h (blk_of h p) L) ≤ length L)%nat by lia. apply length_filter.
  - by apply list_elem_of_filter.
  - done.
  - rewrite HM in Hch, Hnd, Hlt.
    destruct (set_same_Ok h (blk_of h p) (last M1) (next_samesize (prf h p)))
      as (h1 & Hset & Hlo & Hab & Hna & Hns & Hsb); [lia| |].
    { intros q Hq. apply Hlt, elem_of_app. left. by apply last_Some_elem_of. }
    exists M1, M2, h1. split_and!; try done.
    + unfold remove_same. rewrite Hrun, get_pr_prf; [done|]. apply Hlt. set_solver.
    + intros b base' Hb'. destruct (decide (Z.of_nat b = blk_of h p)) as [Hbeq|Hbne].
      * replace (Z.to_nat (blk_of h p)) with b in * by lia.
        assert (base' = match last M1 with None => next_samesize (prf h p) | Some _ => base end) as ->.
        { rewrite Hsb in Hb'. destruct (last M1); [congruence|].
          rewrite list_lookup_insert_eq in Hb' by lia. congruence. }
        eapply (chain_unlink (next_samesize ∘ prf h)); [done|done|]. intros q _. simpl. by rewrite Hns.
      * eapply (chain_ext (next_samesize ∘ prf h)).
        -- intros q [Hqb Hq]%list_elem_of_filter. simpl. rewrite Hns, decide_False; [done|].
           intros Hl. apply last_Some_elem_of in Hl.
           assert (q ∈ same_size h (blk_of h p) L) as Hin by (rewrite HM; set_solver).
           apply list_elem_of_filter in Hin as [Hqp _]. congruence.
        -- apply Hinv. rewrite Hsb in Hb'. destruct (last M1); [done|].
           by rewrite list_lookup_insert_ne in Hb' by lia.
Qed.

(** [remove_lists] takes [p] off both lists and keeps the order of the rest. *)
Lemma remove_lists_spec :
  ∃ L1 L2 h2, L = L1 ++ p :: L2 ∧ remove_lists p (blk_of h p) h = Ok h2 ∧ links_only h h2 ∧
    chain (next_all ∘ prf h2) (allbase h2) (L1 ++ L2) ∧
    ∀ b base, sizebases h2 !! b = Some base →
      chain (next_samesize ∘ prf h2) base (same_size h (Z.of_nat b) (L1 ++ L2)).
Proof.
  destruct (ki_page _ _ _ _ Hinv p Hp) as (_ & Hb & _). fold (blk_of h p) in Hb.
  pose proof (ki_prs _ _ _ _ Hinv) as Hpl. pose proof (ki_nodup _ _ _ _ Hinv) as Hnd.
  destruct remove_same_spec as (M1 & M2 & h1 & HM & Hrm & Hlo1 & Hab1 & Hna1 & Hss1).
  pose proof Hlo1 as (Hlen1 & _).
  assert (Hlt : ∀ q, q ∈ L → (q < length (pagerefs h1))%nat).
  { intros q Hq. rewrite Hlen1, Hpl. by apply Hinv. }
  assert (Hch : chain (next_all ∘ prf h1) (allbase h1) L).
  { rewrite Hab1. eapply (chain_ext (next_all ∘ prf h)); [|apply Hinv]. intros q _. simpl. done. }
  destruct (unlink_walk (get_all h1)
    (λ loc, pr ← get_pr h1 p; set_all h1 loc (next_all pr)) h1 L p) as (L1 & L2 & HL & Hrun).
  - intros L1 L2 HL. rewrite HL in Hch, Hlt. pose proof (chain_link _ _ _ _ Hch) as Hlk.
    unfold get_all. destruct (last L1) as [q|] eqn:El; [|by rewrite <- Hlk].
    rewrite get_pr_prf; [simpl in *; by rewrite <- Hlk|]. apply Hlt, elem_of_app.
    left. by apply last_Some_elem_of.
  - unfold list_fuel. pose proof (kinv_length _ _ _ _ Hinv). lia.
  - done.
  - done.
  - destruct (set_all_Ok h1 (last L1) (next_all (prf h1 p)))
      as (h2 & Hset & Hlo2 & Hsb & Hns & Hna & Hab).
    { intros q Hq. apply Hlt. rewrite HL. apply elem_of_app. left. by apply last_Some_elem_of. }
    exists L1, L2, h2. split_and!; try done.
    + unfold remove_lists. unfold NSIZES.
      replace ((0 <=? blk_of h p) && (blk_of h p <? 8)) with true by lia. simpl. rewrite Hrm. simpl.
      unfold remove_all. rewrite Hrun, get_pr_prf; [done|]. by apply Hlt.
    + by eapply links_only_trans.
    + rewrite HL in Hch, Hnd. rewrite Hab. eapply (chain_unlink (next_all ∘ prf h1)); [done|done|].
      intros q _. simpl. by rewrite Hna.
    + intros b base Hbase. rewrite Hsb in Hbase. specialize (Hss1 b base Hbase).
      eapply (chain_ext (next_samesize ∘ prf h1)); [intros q _; simpl; done|].
      destruct (decide (Z.of_nat b = blk_of h p)) as [Hbeq|Hbne].
      * rewrite <- Hbeq in HM. unfold same_size in *. 
        assert (Hf : filter (λ q, blk_of h q = Z.of_nat b) (L1 ++ p :: L2) = M1 ++ p :: M2) by (by rewrite <- HL).
        assert (NoDup (M1 ++ p :: M2)) as HndM by (rewrite <- HM; by apply NoDup_filter).
        rewrite filter_app, filter_cons_True in Hf by done. symmetry in Hf.
        apply nodup_split_unique in Hf as [-> ->]; [|done]. by rewrite filter_app.
      * rewrite HL in Hss1. unfold same_size in *. rewrite filter_app, filter_cons_False in Hss1 by congruence.
        by rewrite filter_app.
Qed.
End unlink.

(** ** Releasing a page *)

Lemma zero_page_outside kva0 m a : ¬ in_page kva0 a → zero_page kva0 m !! a = m !! a.
Proof.
  intros Ha. unfold zero_page.
  assert (∀ l : list Z, (∀ i, i ∈ l → 0 ≤ i < 1024) →
    foldr (λ i m, <[kva0 + 4 * i := 0]> m) m l !! a = m !! a) as Hgo.
  { induction l as [|i l IH]; intros Hl; [done|]. simpl.
    assert (0 ≤ i < 1024) by (apply Hl; by constructor).
    rewrite lookup_insert_ne.
    - apply IH. intros j Hj. apply Hl. by constructor.
    - intros <-. apply Ha. unfold in_page, PAGE_SIZE. lia. }
  apply Hgo. intros i Hi. apply elem_of_seqZ in Hi. lia.
Qed.

Lemma free_kpages_one s A c :
  cm_inv s A → A !! c = Some 1 →
  wp (free_kpages (kva s c) s) (λ s', cm_inv s' (delete c A) ∧
    (∀ a, ¬ in_page (kva s c) a → kmem s' !! a = kmem s !! a) ∧
    base_coremap_page s' = base_coremap_page s ∧ num_coremap_entries s' = num_coremap_entries s ∧
    curspl s' = curspl s ∧ ie_c s' = ie_c s).
Proof.
  intros Hinv Hc. unfold free_kpages.
  assert (KVADDR_TO_PADDR (kva s c) = frame_paddr s c) as ->.
  { destruct Hinv as ((Hb & Hn & Hm) & _ & [Hr _] & _). specialize (Hr _ _ Hc).
    unfold KVADDR_TO_PADDR, kva, frame_paddr, MIPS_KSEG0, PAGE_SIZE.
    rewrite u32_id by in_range. lia. }
  eapply wp_mono; [by apply (coremapFree_spec s A c 1)|].
  intros s' (Hinv' & Hk & Hb & Hn & Hsp & Hie). split_and!; try done.
  intros a Ha. rewrite Hk. change (Z.to_nat 1) with 1%nat. unfold zero_pages; simpl.
  apply zero_page_outside. unfold kva in Ha. by rewrite Z.add_0_r.
Qed.

Lemma kinv_remove_page h A L1 L2 F p c h' :
  kinv h A (L1 ++ p :: L2) F → pg_of h p = kva (kh_cm h) c → A !! c = Some 1 →
  length (pagerefs h') = length (pagerefs h) → length (sizebases h') = length (sizebases h) →
  (∀ q, pageaddr_and_blocktype (prf h' q) = pageaddr_and_blocktype (prf h q) ∧
        freelist_offset (prf h' q) = freelist_offset (prf h q) ∧ nfree (prf h' q) = nfree (prf h q)) →
  inuse_ok (pagerefs_inuse h') (L1 ++ L2) →
  chain (next_all ∘ prf h') (allbase h') (L1 ++ L2) →
  (∀ b base, sizebases h' !! b = Some base →
     chain (next_samesize ∘ prf h') base (same_size h (Z.of_nat b) (L1 ++ L2))) →
  cm_inv (kh_cm h') (delete c A) → base_coremap_page (kh_cm h') = base_coremap_page (kh_cm h) →
  (∀ a, ¬ in_page (kva (kh_cm h) c) a → kmem (kh_cm h') !! a = kmem (kh_cm h) !! a) →
  kinv h' (delete c A) (L1 ++ L2) F.
Proof.
  intros Hinv Hpg Hc Hl Hsl Hdata Huse Hall Hsame Hcm Hbp Hout.
  assert (Hperm : L1 ++ p :: L2 ≡ₚ p :: L1 ++ L2) by (by rewrite Permutation_middle).
  assert (Hnd : NoDup (p :: L1 ++ L2)) by (rewrite <- Hperm; apply Hinv).
  assert (Hin : ∀ q, q ∈ L1 ++ L2 → q ∈ L1 ++ p :: L2) by (intros q; rewrite Hperm; by right).
  apply NoDup_cons in Hnd as [Hp Hnd].
  assert (Hne : ∀ q, q ∈ L1 ++ L2 → q ≠ p) by (intros q Hq ->; done).
  assert (Hpa : ∀ q, PR_PAGEADDR (prf h' q) = pg_of h q ∧ PR_BLOCKTYPE (prf h' q) = blk_of h q).
  { intros q. unfold pg_of, blk_of, PR_PAGEADDR, PR_BLOCKTYPE. by rewrite (proj1 (Hdata q)). }
  constructor; try done.
  - rewrite Hl. apply Hinv.
  - intros q Hq. by apply Hinv, Hin.
  - rewrite Hsl. apply Hinv.
  - intros b base Hb. specialize (Hsame b base Hb).
    assert (same_size h' (Z.of_nat b) (L1 ++ L2) = same_size h (Z.of_nat b) (L1 ++ L2)) as ->; [|done].
    apply filter_agree. intros q _. unfold blk_of at 1. by rewrite (proj2 (Hpa q)).
  - intros q Hq. destruct (ki_page _ _ _ _ Hinv q (Hin q Hq)) as ((c' & Hc' & Hk) & Hb & HFn & HFb & HFm & Hn & Ho).
    fold (pg_of h q) (blk_of h q) in *. unfold page_ok. destruct (Hpa q) as [-> ->].
    destruct (Hdata q) as (_ & -> & ->).
    assert (c' ≠ c) as Hcc.
    { intros ->. apply (Hne q Hq). eapply Hinv; [by apply Hin|set_solver|congruence]. }
    split_and!; try done; try lia.
    + exists c'. rewrite lookup_delete_ne by done. split; [done|]. rewrite Hk.
      unfold kva, frame_paddr. by rewrite Hbp.
    + eapply fl_mem_ext; [|done]. intros o Ho'. apply Hout. intros Hin2.
      assert (in_page (pg_of h q) (pg_of h q + o)) as Hin3.
      { eapply page_block_in; [done|by apply Hin|by apply HFb]. }
      rewrite Hk in Hin2, Hin3. unfold in_page, kva, frame_paddr, PAGE_SIZE in Hin2, Hin3. lia.
  - intros q r Hq Hr. unfold pg_of at 1 2. rewrite (proj1 (Hpa q)), (proj1 (Hpa r)).
    apply Hinv; by apply Hin.
Qed.

Lemma release_page_spec h A L F p :
  kinv h A L F → p ∈ L → zlen (F p) = nblocks (blk_of h p) →
  wp (release_page p (blk_of h p) (pg_of h p) h) (λ h',
    ∃ c L', pg_of h p = kva (kh_cm h) c ∧ A !! c = Some 1 ∧ L ≡ₚ p :: L' ∧
      kinv h' (delete c A) L' F ∧ (∀ x, is_live h' L' F x ↔ is_live h L F x) ∧ same_frames h L' h').
Proof.
  intros Hinv Hp Hfull. unfold release_page.
  destruct (remove_lists_spec h A L F Hinv p Hp) as (L1 & L2 & h2 & HL & -> & Hlo & Hch & Hss).
  pose proof Hlo as (Hl2 & Hu2 & Hc2 & Hs2 & Hd2). wp_val. rewrite Hc2.
  destruct (pg_of_kva h A L F Hinv p Hp) as (c & Hc & Hpg). rewrite Hpg.
  wp_call (free_kpages_one _ A c); [apply Hinv|done|]. intros s' (Hcm & Hout & Hbp & Hen & _ & _).
  pose proof (ki_nodup _ _ _ _ Hinv) as Hnd. rewrite HL in Hnd.
  assert (Hmem : ∀ q, q ∈ L1 ++ L2 ↔ q ∈ L ∧ q ≠ p).
  { assert (Hperm : L1 ++ p :: L2 ≡ₚ p :: L1 ++ L2) by (by rewrite Permutation_middle).
    rewrite Hperm in Hnd. apply NoDup_cons in Hnd as [Hno _]. intros q. rewrite HL, Hperm, elem_of_cons.
    split; [intros Hq; split; [by right|by intros ->]|]. intros [[->|] ?]; done. }
  eapply wp_mono; [apply (freepageref_spec _ L p (L1 ++ L2));
    [simpl; rewrite Hu2; apply Hinv|by eapply Hinv|done|done]|].
  intros h' (l & -> & Huse). exists c, (L1 ++ L2).
  split_and!; try done.
  - by rewrite HL, Permutation_middle.
  - rewrite HL in Hinv. eapply (kinv_remove_page h A L1 L2 F p c); try done.
  - intros x. unfold is_live. split.
    + intros (q & o & Hq & Ho & Hno & ->). apply Hmem in Hq as [Hq _]. exists q, o.
      destruct (links_only_page h h2 q Hlo) as [Hpq Hbq]. change (blk_of _ q) with (blk_of h2 q) in Ho.
      change (pg_of (kh_set_inuse _ _) q) with (pg_of h2 q). rewrite Hbq in Ho. by rewrite Hpq.
    + intros (q & o & Hq & Ho & Hno & ->). exists q, o.
      destruct (links_only_page h h2 q Hlo) as [Hpq Hbq].
      change (blk_of (kh_set_inuse _ _) q) with (blk_of h2 q).
      change (pg_of (kh_set_inuse _ _) q) with (pg_of h2 q). rewrite Hbq, Hpq.
      split_and!; try done. apply Hmem. split; [done|]. intros ->. apply Hno.
      destruct (ki_page _ _ _ _ Hinv p Hp) as (_ & Hb & HFn & HFb & _).
      by eapply blocks_full.
  - split_and!; try done. intros q _. by apply (links_only_page h h2 q).
Qed.

(** ** [subpage_kfree] *)

(** The page of a block that is freed: it stays while another block of it is in use, and goes
    back to the coremap with its last block. *)
Definition released (h : kheap) (A : gmap Z Z) (L : list nat) (F : nat → list Z) (a : Z)
    (h' : kheap) (A' : gmap Z Z) (L' : list nat) : Prop :=
  same_frames h L' h' ∧
  ∃ p c, p ∈ L ∧ in_page (pg_of h p) a ∧ pg_of h p = kva (kh_cm h) c ∧ A !! c = Some 1 ∧
    ((∃ x, is_live h L F x ∧ x ≠ a ∧ in_page (pg_of h p) x) ∧ A' = A ∧ L' = L ∨
     (∀ x, is_live h L F x → in_page (pg_of h p) x → x = a) ∧ A' = delete c A ∧ L ≡ₚ p :: L').

Lemma last_block h A L F p o x :
  kinv h A L F → p ∈ L → is_block (blk_of h p) o → o ∉ F p → zlen (F p) + 1 = nblocks (blk_of h p) →
  is_live h L F x → in_page (pg_of h p) x → x = pg_of h p + o.
Proof.
  intros Hinv Hp Ho Hno Hlen (q & o' & Hq & Ho' & Hno' & ->) Hin.
  assert (q = p) as ->.
  { eapply (pages_apart h A L F Hinv q p); [done|done|by eapply page_block_in|done]. }
  destruct (ki_page _ _ _ _ Hinv p Hp) as (_ & Hb & Hnd & Hblk & _). fold (blk_of h p) in *.
  assert (o' ∈ o :: F p) as [->|]%elem_of_cons; [|done|done].
  apply (blocks_full (blk_of h p)); try done; [by constructor| |simpl length; lia].
  intros o2 [->|]%elem_of_cons; [done|by apply Hblk].
Qed.

Lemma other_block h A L F p o :
  kinv h A L F → p ∈ L → zlen (F p) + 1 < nblocks (blk_of h p) →
  ∃ x, is_live h L F x ∧ x ≠ pg_of h p + o ∧ in_page (pg_of h p) x.
Proof.
  intros Hinv Hp Hlen. destruct (ki_page _ _ _ _ Hinv p Hp) as (_ & Hb & _). fold (blk_of h p) in *.
  destruct (desc_facts _ Hb) as (Hnd & Hblk & Hn & _). set (D := desc _ _) in *.
  destruct (decide (Forall (λ o', o' ∈ o :: F p) D)) as [Hall|Hex].
  - exfalso. rewrite Forall_forall in Hall. apply NoDup_submseteq in Hall; [|done].
    apply submseteq_length in Hall. simpl in Hall. lia.
  - apply not_Forall_Exists in Hex; [|apply _]. apply Exists_exists in Hex as (o' & Ho' & Hno).
    apply Hblk in Ho'. exists (pg_of h p + o'). split_and!.
    + exists p, o'. split_and!; try done. intros Hin. apply Hno. by right.
    + intros Heq. apply Hno. assert (o' = o) as -> by lia. by left.
    + by eapply page_block_in.
Qed.

Lemma find_owner_spec h A L F a :
  kinv h A L F →
  wp (find_owner a h) (λ op,
    match op with
    | Some p => p ∈ L ∧ in_page (pg_of h p) a
    | None => ∀ p, p ∈ L → ¬ in_page (pg_of h p) a
    end).
Proof.
  intros Hinv. unfold find_owner.
  apply (wp_while_variant (λ n cur, ∃ L1 L2, L = L1 ++ L2 ∧ n = length L2 ∧
    chain (next_all ∘ prf h) cur L2 ∧ ∀ p, p ∈ L1 → ¬ in_page (pg_of h p) a) _ (length L)).
  - exists [], L. split_and!; try done; [apply Hinv|]. intros p Hp. by apply not_elem_of_nil in Hp.
  - unfold list_fuel. pose proof (kinv_length _ _ _ _ Hinv). lia.
  - intros n cur (L1 & L2 & HL & -> & Hch & Hnone). destruct L2 as [|p L2]; simpl in Hch.
    + subst cur. wp_val. intros p Hp. apply Hnone. rewrite app_nil_r in HL. by rewrite <- HL.
    + destruct Hch as [-> Hch]. assert (p ∈ L) as Hp by (rewrite HL; set_solver).
      pose proof (ki_lt _ _ _ _ Hinv p Hp). pose proof (ki_prs _ _ _ _ Hinv).
      destruct (ki_page _ _ _ _ Hinv p Hp) as (_ & Hb & _).
      destruct (pg_of_range _ _ _ _ Hinv p Hp) as (Hlo & Hhi & _).
      unfold MIPS_KSEG0, MIPS_KSEG1 in *.
      rewrite get_pr_prf by lia. wp_val. fold (blk_of h p) (pg_of h p) in *. unfold NSIZES. wp_step.
      rewrite u32_id by (unfold is_u32, PAGE_SIZE in *; lia).
      destruct ((pg_of h p <=? a) && (a <? pg_of h p + PAGE_SIZE)) eqn:E; wp_val.
      * split; [done|]. unfold in_page. lia.
      * exists (length L2). split; [simpl; lia|]. exists (L1 ++ [p]), L2.
        rewrite <- app_assoc. split_and!; try done. intros q.
        rewrite elem_of_app, list_elem_of_singleton. intros [| ->]; [by apply Hnone|].
        unfold in_page. lia.
Qed.

(** [fill_deadbeef] writes the words of the block and no other. *)
Lemma fill_deadbeef_mem a n h :
  ∃ m, fill_deadbeef a n h = kh_set_cm h (cm_set_kmem (kh_cm h) m) ∧
    ∀ x, ¬ (a ≤ x < a + 4 * (n / 4)) → m !! x = kmem (kh_cm h) !! x.
Proof.
  unfold fill_deadbeef.
  assert (Hgo : ∀ (l : list Z) h, (∀ i, i ∈ l → 0 ≤ i < n / 4) →
    ∃ m, foldl (λ h i, kstore h (a + 4 * i) 0xdeadbeef) h l = kh_set_cm h (cm_set_kmem (kh_cm h) m) ∧
      ∀ x, ¬ (a ≤ x < a + 4 * (n / 4)) → m !! x = kmem (kh_cm h) !! x).
  { induction l as [|i l IH]; intros h0 Hl; simpl.
    - exists (kmem (kh_cm h0)). split; [|done]. by destruct h0 as [? ? ? ? []].
    - destruct (IH (kstore h0 (a + 4 * i) 0xdeadbeef)) as (m & -> & Hm).
      + intros j Hj. apply Hl. by constructor.
      + exists m. split; [done|]. intros x Hx. rewrite Hm by done. simpl.
        assert (0 ≤ i < n / 4) by (apply Hl; by constructor).
        rewrite lookup_insert_ne by lia. done. }
  apply Hgo. intros i Hi%elem_of_seqZ. lia.
Qed.

Lemma is_live_give h A L F h' p o x :
  kinv h A L F → p ∈ L → is_block (blk_of h p) o → same_pages h h' →
  is_live h' L (<[p := o :: F p]> F) x ↔ is_live h L F x ∧ x ≠ pg_of h p + o.
Proof.
  intros Hinv Hp Ho Hsame. split.
  - intros (q & o' & Hq & Ho' & Hno & ->). destruct (Hsame q) as [-> Hbq]. rewrite Hbq in Ho'.
    destruct (decide (q = p)) as [->|Hne].
    + rewrite fn_lookup_insert in Hno. split; [exists p, o'; set_solver|]. set_solver by lia.
    + rewrite fn_lookup_insert_ne in Hno by done. split; [by exists q, o'|]. intros Heq. apply Hne.
      eapply (pages_apart h A L F Hinv q p (pg_of h q + o')); [done|done|by eapply page_block_in|].
      rewrite Heq. by eapply page_block_in.
  - intros [(q & o' & Hq & Ho' & Hno & ->) Hx]. exists q, o'. destruct (Hsame q) as [-> ->].
    split_and!; try done. destruct (decide (q = p)) as [->|Hne].
    + rewrite fn_lookup_insert. intros [->|]%elem_of_cons; done.
    + by rewrite fn_lookup_insert_ne.
Qed.

(** The free block in front of the free list of its page, before the page is examined. *)
Lemma push_block h A L F p o m h' :
  kinv h A L F → p ∈ L → is_block (blk_of h p) o → o ∉ F p →
  (∀ x, ¬ (pg_of h p + o ≤ x < pg_of h p + o + bsize (blk_of h p)) →
     m !! x = kmem (kh_cm h) !! x) →
  h' = KH (<[p := pr_set_free (prf h p) o (zlen (F p) + 1)]> (pagerefs h)) (pagerefs_inuse h)
         (sizebases h) (allbase h)
         (cm_set_kmem (kh_cm h) (<[pg_of h p + o := fl_ptr (pg_of h p) (F p)]> m)) →
  kinv h' A L (<[p := o :: F p]> F) ∧ same_pages h h'.
Proof.
  intros Hinv Hp Ho Hno Hm Hh'.
  destruct (ki_page _ _ _ _ Hinv p Hp) as (_ & Hb & Hnd & Hblk & HFm & Hn & Hoff).
  fold (blk_of h p) (pg_of h p) in *. pose proof (is_block_range _ _ Hb Ho) as Hor.
  destruct (bsize_facts _ Hb) as (Hbs & _).
  destruct (kinv_page_update h A L F Hinv p (o :: F p) (kmem (kh_cm h')) o (zlen (F p) + 1) h')
    as (Hinv' & Hpg & Hbl); try done; rewrite ?Hh'; try done; simpl.
  - intros a Ha. unfold in_page in Ha. rewrite lookup_insert_ne by lia. apply Hm. lia.
  - split; [by rewrite lookup_insert_eq|]. eapply fl_mem_ext; [|done]. intros o' Ho'.
    assert (o ≠ o') as Hne by (intros ->; done).
    destruct (is_block_apart _ o o' Hb Ho (Hblk _ Ho') Hne);
      (rewrite lookup_insert_ne by lia); apply Hm; lia.
  - by constructor.
  - intros o' [->|]%elem_of_cons; [done|by apply Hblk].
  - lia.
Qed.

Lemma fl_ptr_offset pg b F :
  0 ≤ b < 8 → (∀ o, o ∈ F → is_block b o) → 0 ≤ pg → pg + PAGE_SIZE < 2 ^ 32 →
  (if fl_offset F =? INVALID_OFFSET then NULL else u32 (pg + fl_offset F)) = fl_ptr pg F.
Proof.
  intros Hb Hblk H0 H32. destruct F as [|o F]; simpl; [done|].
  destruct (is_block_range b o Hb) as [Ho1 Ho2]; [apply Hblk; by constructor|].
  destruct (bsize_facts _ Hb) as (Hbs & _). unfold PAGE_SIZE, INVALID_OFFSET in *.
  replace (o =? 65535) with false by lia. apply u32_id. in_range.
Qed.

(** Restoring the interrupt level keeps the heap as it is. *)
Lemma splx_live h A L F s :
  kinv h A L F → kinv (kh_splx s h) A L F ∧ ∀ x, is_live (kh_splx s h) L F x ↔ is_live h L F x.
Proof.
  intros Hinv. destruct (kinv_cm_eq h (kh_splx s h) A L F Hinv) as [Hinv' _]; try done. apply Hinv.
Qed.

Lemma free_room h A L F p o :
  kinv h A L F → p ∈ L → is_block (blk_of h p) o → o ∉ F p → zlen (F p) + 1 ≤ nblocks (blk_of h p).
Proof.
  intros Hinv Hp Ho Hno. destruct (ki_page _ _ _ _ Hinv p Hp) as (_ & Hb & Hnd & Hblk & _).
  fold (blk_of h p) in *. assert (zlen (o :: F p) ≤ nblocks (blk_of h p)) as Hl; [|simpl length in Hl; lia].
  apply blocks_length; [done|by constructor|]. intros o' [->|]%elem_of_cons; [done|by apply Hblk].
Qed.

Lemma subpage_kfree_spec h A L F a :
  kinv h A L F → spl_ok (kh_cm h) → is_live h L F a →
  wp (subpage_kfree a h) (λ '(r, h'), r = 0 ∧ spl_is (curspl (kh_cm h)) h' ∧
    ∃ A' L' F', kinv h' A' L' F' ∧ (∀ x, is_live h' L' F' x ↔ is_live h L F x ∧ x ≠ a) ∧
      released h A L F a h' A' L').
Proof.
  intros Hinv Hspl (p & o & Hp & Ho & Hno & ->). unfold subpage_kfree.
  change (splhigh (kh_cm h)) with (curspl (kh_cm h), (splhigh (kh_cm h)).2). cbv iota beta.
  set (hs := kh_set_cm h (splhigh (kh_cm h)).2).
  destruct (kinv_cm_eq h hs A L F Hinv) as [Hinvs Hsames]; try done; [apply Hinv|].
  change (pg_of h p) with (pg_of hs p) in *. change (blk_of h p) with (blk_of hs p) in *.
  assert (Hlive : ∀ x, is_live h L F x ↔ is_live hs L F x) by done.
  destruct (ki_page _ _ _ _ Hinvs p Hp) as (_ & Hb & Hnd & Hblk & HFm & Hn & Hoff).
  fold (blk_of hs p) (pg_of hs p) in *. pose proof (is_block_range _ _ Hb Ho) as Hor.
  destruct (bsize_facts _ Hb) as (Hbs & Hbn & Hnb & H4).
  pose proof (ki_lt _ _ _ _ Hinvs p Hp) as Hlt. pose proof (ki_prs _ _ _ _ Hinvs) as Hprs.
  destruct (pg_of_range _ _ _ _ Hinvs p Hp) as (Hlo & Hhi & _).
  pose proof (proj1 (is_block_mod _ _ Hb) Ho) as [Hor2 Hmod].
  pose proof (free_room hs A L F p o Hinvs Hp Ho Hno) as Hlen. unfold MIPS_KSEG0, MIPS_KSEG1, PAGE_SIZE in *.
  wp_call find_owner_spec; [done|]. intros [q|]; [intros [Hq Hin]|intros Hnone].
  2: { exfalso. apply (Hnone p Hp). unfold in_page, PAGE_SIZE. lia. }
  assert (q = p) as ->.
  { eapply (pages_apart hs A L F Hinvs q p); [done|done|done|]. unfold in_page, PAGE_SIZE. lia. }
  rewrite get_pr_prf by lia. wp_val. fold (blk_of hs p) (pg_of hs p). rewrite sizes_bsize by done. wp_val.
  replace (pg_of hs p + o - pg_of hs p) with o by lia.
  rewrite (u32_id o) by in_range. unfold PAGE_SIZE. wp_step.
  rewrite Hoff, (fl_ptr_offset _ (blk_of hs p)) by (done || (unfold PAGE_SIZE; lia)).
  rewrite (u32_id (pg_of hs p + o)) by in_range. rewrite (u16_id o) by lia.
  rewrite Hn, (u16_id (zlen (F p) + 1)) by lia.
  destruct (fill_deadbeef_mem (pg_of hs p + o) (bsize (blk_of hs p)) hs) as (m & -> & Hm).
  assert (Hlt' : (p < length (pagerefs hs))%nat) by lia.
  rewrite set_pr_Ok by exact Hlt'. wp_val. change (4096 / bsize (blk_of hs p)) with (nblocks (blk_of hs p)).
  wp_step. match goal with |- wp (if _ then release_page _ _ _ ?h2 else _) _ => set (h1 := h2) end.
  destruct (push_block hs A L F p o m h1 Hinvs Hp Ho Hno) as [Hinv1 Hsame1];
    [intros x Hx; apply Hm; lia|done|].
  assert (Hlive1 : ∀ x, is_live h1 L (<[p := o :: F p]> F) x ↔ is_live hs L F x ∧ x ≠ pg_of hs p + o).
  { intros x. by apply (is_live_give hs A). }
  destruct (zlen (F p) + 1 =? nblocks (blk_of hs p)) eqn:E.
  - destruct (Hsame1 p) as [Hpg1 Hbl1]. rewrite <- Hpg1, <- Hbl1.
    eapply wp_mono; [apply (release_page_spec h1 A L (<[p := o :: F p]> F) p Hinv1 Hp)|].
    { rewrite fn_lookup_insert, Hbl1. simpl length. lia. }
    intros h2 (c & L' & Hpc & Hc & HL' & Hinv2 & Hl2 & (Hbp & Hen & Hpgs)). wp_val. split_and!; [done|apply kh_splx_is|].
    destruct (splx_live h2 _ L' _ (curspl (kh_cm h)) Hinv2) as [Hinv3 Hl3].
    exists (delete c A), L', (<[p := o :: F p]> F). split_and!; [done|intros x; by rewrite Hl3, Hl2, Hlive1, Hpg1|].
    split; [split_and!; [done|done|intros r Hr; exact (eq_trans (Hpgs r Hr) (proj1 (Hsame1 r)))]|].
    exists p, c. rewrite Hpg1 in Hpc |- *. split_and!; try done.
    right. split_and!; try done. intros x Hx. apply (last_block hs A L F p o); [done|done|done|done|lia|done].
  - wp_val. split_and!; [done|apply kh_splx_is|].
    destruct (splx_live h1 A L _ (curspl (kh_cm h)) Hinv1) as [Hinv3 Hl3].
    exists A, L, (<[p := o :: F p]> F). split_and!; [done|intros x; by rewrite Hl3, Hlive1|].
    split; [split_and!; [done|done|intros r Hr; apply Hsame1]|].
    destruct (pg_of_kva hs A L F Hinvs p Hp) as (c & Hc & Hpc).
    exists p, c. split_and!; try done.
    left. split_and!; try done. apply (other_block hs A L F p o); [done|done|lia].
Qed.

(** ** The allocator as a whole *)

Lemma kheap_init_inv s A : cm_inv s A → kinv (kheap_init s) A [] (λ _, []).
Proof.
  intros Hcm. constructor; try done; try (by intros ? ?%not_elem_of_nil).
  - split_and!; [done|by repeat constructor|]. intros p Hp.
    rewrite bool_decide_false by apply not_elem_of_nil. unfold inuse_bit.
    destruct (pagerefs_inuse (kheap_init s) !! (p / 32)%nat) as [w|] eqn:E; [|done].
    apply (lookup_replicate 8) in E as [-> _]. apply Z.bits_0.
  - constructor.
  - intros b base Hb. by apply (lookup_replicate 8) in Hb as [-> _].
  - by intros p q ?%not_elem_of_nil.
Qed.

(** The extent of the block at [a] in page [p]. *)
Definition block_at (h : kheap) (L : list nat) (a n : Z) : Prop :=
  ∃ p o, p ∈ L ∧ is_block (blk_of h p) o ∧ a = pg_of h p + o ∧ n = bsize (blk_of h p).

Lemma blocks_disjoint h A L F a n a' n' :
  kinv h A L F → block_at h L a n → block_at h L a' n' → a ≠ a' → a + n ≤ a' ∨ a' + n' ≤ a.
Proof.
  intros Hinv (p & o & Hp & Ho & -> & ->) (p' & o' & Hp' & Ho' & -> & ->) Hne.
  destruct (ki_page _ _ _ _ Hinv p Hp) as (_ & Hb & _).
  destruct (ki_page _ _ _ _ Hinv p' Hp') as (_ & Hb' & _). fold (blk_of h p) (blk_of h p') in *.
  pose proof (is_block_range _ _ Hb Ho). pose proof (is_block_range _ _ Hb' Ho').
  destruct (decide (p = p')) as [<-|Hpp].
  - destruct (is_block_apart _ o o' Hb Ho Ho'); [congruence|lia..].
  - destruct (pg_of_range _ _ _ _ Hinv p Hp) as (_ & _ & Hm).
    destruct (pg_of_range _ _ _ _ Hinv p' Hp') as (_ & _ & Hm').
    assert (pg_of h p ≠ pg_of h p') by (intros Heq; apply Hpp; by apply Hinv).
    unfold PAGE_SIZE in *. pose proof (Z.div_mod (pg_of h p) 4096).
    pose proof (Z.div_mod (pg_of h p') 4096).
    assert (pg_of h p + 4096 ≤ pg_of h p' ∨ pg_of h p' + 4096 ≤ pg_of h p) by lia. lia.
Qed.

Lemma is_live_block h L F a : is_live h L F a → ∃ n, block_at h L a n.
Proof. intros (p & o & Hp & Ho & _ & ->). eexists. by exists p, o. Qed.

(** Writing into a block in use leaves the allocator's own data alone. *)
Lemma kinv_write h A L F a n x v :
  kinv h A L F → is_live h L F a → block_at h L a n → a ≤ x < a + n → kinv (kstore h x v) A L F.
Proof.
  intros Hinv Hlive Hblk Hx. constructor; try apply Hinv.
  intros q Hq. destruct (ki_page _ _ _ _ Hinv q Hq) as (Hc & Hb & HFn & HFb & HFm & Hn & Ho).
  change (prf (kstore h x v)) with (prf h). split_and!; try done; try lia.
  fold (pg_of h q) (blk_of h q) in *. eapply fl_mem_ext; [|done].
  intros o Ho'. apply lookup_insert_ne. intros ->.
  assert (a ≠ pg_of h q + o) as Hne.
  { intros ->. apply (is_live_addr h A) in Hlive; [|done|done|by apply HFb]. done. }
  destruct (bsize_facts _ Hb) as (Hbs & _).
  destruct (blocks_disjoint h A L F a n (pg_of h q + o) (bsize (blk_of h q))) as [|]; try done; [|lia..].
  exists q, o. split_and!; try done. by apply HFb.
Qed.

Lemma live_nonnull h A L F : kinv h A L F → ¬ is_live h L F NULL.
Proof.
  intros Hinv (p & o & Hp & Ho & _ & Heq).
  destruct (ki_page _ _ _ _ Hinv p Hp) as (_ & Hb & _).
  pose proof (is_block_range _ _ Hb Ho). destruct (pg_of_range _ _ _ _ Hinv p Hp) as (Hlo & _).
  unfold NULL, MIPS_KSEG0 in *. lia.
Qed.

(** Blocks start at even addresses. *)
Lemma live_nodead h A L F : kinv h A L F → ¬ is_live h L F DEADBEEF.
Proof.
  intros Hinv (p & o & Hp & Ho & _ & Heq).
  destruct (ki_page _ _ _ _ Hinv p Hp) as (_ & Hb & _). fold (blk_of h p) in Hb. apply is_block_mod in Ho as [_ Ho]; [|done].
  destruct (bsize_facts _ Hb) as (Hbs & _ & _ & H4).
  destruct (pg_of_kva h A L F Hinv p Hp) as (c & _ & Hk). pose proof (kva_align (kh_cm h) c) as Ha.
  rewrite <- Hk in Ha. unfold DEADBEEF, PAGE_SIZE in *.
  apply Z.mod_divide in Ho; [|lia]. destruct Ho as [x Hx]. apply Z.mod_divide in Ha; [|lia]. destruct Ha as [y Hy].
  rewrite H4 in Hx. set (z := bsize (blk_of h p) / 4) in *. assert (pg_of h p + o = 4 * (1024 * y + x * z)) by lia. lia.
Qed.

Lemma kfree_c_live h A L F a :
  kinv h A L F → spl_ok (kh_cm h) → is_live h L F a →
  wp (kfree_c a h) (λ h', spl_is (curspl (kh_cm h)) h' ∧
    ∃ A' L' F', kinv h' A' L' F' ∧ (∀ x, is_live h' L' F' x ↔ is_live h L F x ∧ x ≠ a) ∧
      released h A L F a h' A' L').
Proof.
  intros Hinv Hspl Hlive. unfold kfree_c. destruct (a =? NULL) eqn:E.
  { apply Z.eqb_eq in E as ->. by destruct (live_nonnull h A L F). }
  wp_call subpage_kfree_spec; [done|done|done|]. intros [r h'] (-> & Hs & Hpost). by wp_val.
Qed.

Lemma spl_is_ok h h' : spl_ok (kh_cm h) → spl_is (curspl (kh_cm h)) h' → spl_ok (kh_cm h').
Proof. intros [H0 _] [Hc Hie]. unfold spl_ok. rewrite Hc. split; [done|by apply Hie]. Qed.

(** ** Blocks of a whole page

    A request of half a page to a page is served with a frame of the coremap, outside the pages
    of the sub-page allocator. *)

(** A new state of the coremap under the same sub-page pages. *)
Lemma kinv_coremap h A L F s' A' :
  kinv h A L F → cm_inv s' A' → base_coremap_page s' = base_coremap_page (kh_cm h) →
  (∀ p c, p ∈ L → pg_of h p = kva (kh_cm h) c → A !! c = Some 1 → A' !! c = Some 1) →
  (∀ p a, p ∈ L → in_page (pg_of h p) a → kmem s' !! a = kmem (kh_cm h) !! a) →
  kinv (kh_set_cm h s') A' L F.
Proof.
  intros Hinv Hcm Hbp HA Hmem. constructor; try apply Hinv; try done.
  intros q Hq. destruct (ki_page _ _ _ _ Hinv q Hq) as ((c & Hc & Hk) & Hb & HFn & HFb & HFm & Hn & Ho).
  change (prf (kh_set_cm h s')) with (prf h). split_and!; try done; try lia.
  - exists c. split; [by apply (HA q)|]. rewrite Hk. unfold kva, frame_paddr. simpl. by rewrite Hbp.
  - fold (pg_of h q) (blk_of h q) in *. eapply fl_mem_ext; [|done]. intros o Ho'.
    apply (Hmem q); [done|]. eapply page_block_in; [done|done|by apply HFb].
Qed.

Lemma page_not_kva h A L F p c :
  kinv h A L F → p ∈ L → A !! c = None → ¬ in_page (pg_of h p) (kva (kh_cm h) c).
Proof.
  intros Hinv Hp Hc Hin. destruct (pg_of_kva h A L F Hinv p Hp) as (c' & Hc' & Hk).
  rewrite Hk in Hin. assert (c' = c) as ->; [|congruence].
  unfold in_page, kva, frame_paddr, PAGE_SIZE in Hin. lia.
Qed.

(** An address outside the pages of the sub-page allocator is none of its blocks. *)
Lemma subpage_kfree_foreign h A L F a :
  kinv h A L F → (∀ p, p ∈ L → ¬ in_page (pg_of h p) a) →
  wp (subpage_kfree a h) (λ '(r, h'), r = -1 ∧ h' = kh_splx (curspl (kh_cm h))
                                               (kh_set_cm h (splhigh (kh_cm h)).2)).
Proof.
  intros Hinv Ha. unfold subpage_kfree.
  change (splhigh (kh_cm h)) with (curspl (kh_cm h), (splhigh (kh_cm h)).2). cbv iota beta.
  set (hs := kh_set_cm h (splhigh (kh_cm h)).2).
  destruct (kinv_cm_eq h hs A L F Hinv) as [Hinvs _]; try done; [apply Hinv|].
  wp_call find_owner_spec; [done|]. intros [p|]; [|intros _; by wp_val].
  intros [Hp Hin]. by destruct (Ha p Hp).
Qed.

(** Frame [c] is in use, and not for a page of the sub-page allocator. *)
Definition foreign (h : kheap) (A : gmap Z Z) (L : list nat) (c : Z) : Prop :=
  A !! c = Some 1 ∧ ∀ p, p ∈ L → pg_of h p ≠ kva (kh_cm h) c.

Lemma kva_page s c c' x : in_page (kva s c) x → in_page (kva s c') x → c = c'.
Proof. unfold in_page, kva, frame_paddr, PAGE_SIZE. lia. Qed.

Lemma kva_in s c : in_page (kva s c) (kva s c).
Proof. unfold in_page, PAGE_SIZE. lia. Qed.

Lemma foreign_apart h A L F c p :
  kinv h A L F → foreign h A L c → p ∈ L → ¬ in_page (pg_of h p) (kva (kh_cm h) c).
Proof.
  intros Hinv [_ Hf] Hp Hin. destruct (pg_of_kva h A L F Hinv p Hp) as (c' & _ & Hk).
  apply (Hf p Hp). rewrite Hk in Hin |- *. f_equal. by eapply kva_page, kva_in.
Qed.

Lemma foreign_not_live h A L F c : kinv h A L F → foreign h A L c → ¬ is_live h L F (kva (kh_cm h) c).
Proof.
  intros Hinv Hf (p & o & Hp & Ho & _ & Heq). apply (foreign_apart h A L F c p); try done.
  rewrite Heq. by eapply page_block_in.
Qed.

Lemma kva_same h L h' c : same_frames h L h' → kva (kh_cm h') c = kva (kh_cm h) c.
Proof. intros (Hb & _). unfold kva, frame_paddr. by rewrite Hb. Qed.

Lemma grown_foreign h A L h' A' L' c : grown h A L h' A' L' → foreign h A L c → foreign h' A' L' c.
Proof.
  intros [Hs Hg] [Hc Hf]. pose proof Hs as (_ & _ & Hpg). split.
  - destruct Hg as [[-> _]|(c' & p & HA & -> & _)]; [done|]. rewrite lookup_insert_ne; [done|congruence].
  - intros q Hq. rewrite (kva_same h L h') by done.
    destruct Hg as [[_ ->]|(c' & p & HA & _ & -> & Hp)]; [rewrite Hpg by done; by apply Hf|].
    apply elem_of_cons in Hq as [->|Hq]; [|rewrite Hpg by done; by apply Hf].
    rewrite Hp. intros Heq%kva_inj. congruence.
Qed.

Lemma released_foreign h A L F a h' A' L' c : released h A L F a h' A' L' → foreign h A L c → foreign h' A' L' c.
Proof.
  intros [Hs (p & c' & Hp & _ & Hpc & _ & Hcase)] [Hc Hf]. pose proof Hs as (_ & _ & Hpg).
  assert (c' ≠ c) as Hne by (intros ->; by apply (Hf p)).
  assert (∀ q, q ∈ L' → q ∈ L) as Hsub.
  { intros q Hq. destruct Hcase as [(_ & _ & ->)|(_ & _ & ->)]; [done|by right]. }
  split.
  - destruct Hcase as [(_ & -> & _)|(_ & -> & _)]; [done|]. by rewrite lookup_delete_ne.
  - intros q Hq. rewrite (kva_same h L' h'), Hpg by done. by apply Hf, Hsub.
Qed.

Lemma pages_one sz : 2048 ≤ sz ≤ 4096 → u32 (u32 (sz + PAGE_SIZE) - 1) / PAGE_SIZE = 1.
Proof.
  intros Hsz. unfold PAGE_SIZE. unwrap. symmetry. apply (Z.div_unique _ _ _ (sz + 4096 - 1 - 4096)); lia.
Qed.

Lemma spl_high_ok s : spl_ok (splhigh s).2.
Proof. done. Qed.

(** Taking a frame. *)
Lemma kmalloc_c_page evictPage h A L F sz :
  kinv h A L F → spl_ok (kh_cm h) → 2048 ≤ sz ≤ 4096 → 0 < num_coremap_free (kh_cm h) →
  ∃ c h', kmalloc_c evictPage sz h = Ok (kva (kh_cm h) c, h') ∧ A !! c = None ∧
    kinv h' (<[c := 1]> A) L F ∧ same_frames h L h' ∧ spl_ok (kh_cm h') ∧ 0 < kva (kh_cm h) c ∧
    (∀ q, pg_of h' q = pg_of h q) ∧ ∀ x, is_live h' L F x ↔ is_live h L F x.
Proof.
  intros Hinv Hspl Hsz Hfree. unfold kmalloc_c, LARGEST_SUBPAGE_SIZE.
  replace (2048 <=? sz) with true by lia. rewrite pages_one by done.
  pose proof (alloc_kpages_one (kh_cm h) A (ki_cm _ _ _ _ Hinv) Hspl) as Hal.
  apply wp_exists in Hal as ([a s'] & -> & [(_ & _ & Hz)|(c & -> & Hc0 & Hc32 & HA & Hcm & Hfr)]); [lia|].
  destruct Hfr as (Hkm & Hsp & Hie & Hbp & Hen). simpl. replace (kva (kh_cm h) c =? 0) with false by lia.
  exists c, (kh_set_cm h s'). split_and!; try done.
  - apply (kinv_coremap h A); try done.
    + intros p c' _ _ Hc'. rewrite lookup_insert_ne; [done|congruence].
    + intros p a _ _. by rewrite Hkm.
  - destruct Hspl as [H0 H1]. unfold spl_ok. simpl. by rewrite Hsp, Hie.
Qed.

(** Giving one back. *)
Lemma kfree_c_page h A L F c :
  kinv h A L F → spl_ok (kh_cm h) → foreign h A L c →
  wp (kfree_c (kva (kh_cm h) c) h) (λ h', kinv h' (delete c A) L F ∧ same_frames h L h' ∧ spl_ok (kh_cm h') ∧
    (∀ q, pg_of h' q = pg_of h q) ∧ ∀ x, is_live h' L F x ↔ is_live h L F x).
Proof.
  intros Hinv Hspl Hf. pose proof Hf as [Hc Hpg].
  destruct (kva_range h A L F Hinv c 1 Hc) as (Hlo & _ & _). unfold MIPS_KSEG0 in Hlo.
  unfold kfree_c, NULL. replace (kva (kh_cm h) c =? 0) with false by lia.
  assert (Hout : ∀ p, p ∈ L → ¬ in_page (pg_of h p) (kva (kh_cm h) c)).
  { intros p Hp. by eapply foreign_apart. }
  wp_call subpage_kfree_foreign; [done|done|]. intros [r h1] [-> ->].
  change (negb (-1 =? 0)) with true. cbv iota. rewrite kva_align. change (0 =? 0) with true. wp_step.
  set (h1 := kh_splx _ _). change (kva (kh_cm h) c) with (kva (kh_cm h1) c) in *.
  destruct (kinv_cm_eq h h1 A L F Hinv) as [Hinv1 _]; try done; [apply Hinv|].
  wp_call (free_kpages_one (kh_cm h1) A c); [apply Hinv1|done|].
  intros s' (Hcm & Hm & Hbp & Hen & Hsp & Hie). wp_val. split_and!; try done.
  - apply (kinv_coremap h1 A L F s'); try done.
    + intros p c' Hp Hk Hc'. rewrite lookup_delete_ne; [done|]. intros ->. by apply (Hpg p).
    + intros p a Hp Ha. apply Hm. intros Ha2. apply (Hout p Hp).
      destruct (pg_of_kva h1 A L F Hinv1 p Hp) as (c' & _ & Hk). change (pg_of h p) with (pg_of h1 p).
      rewrite Hk in Ha |- *. assert (c' = c) as -> by (by eapply kva_page). apply kva_in.
  - destruct Hspl as [H0 H1]. split; simpl; rewrite ?Hsp, ?Hie; simpl; [lia|].
    destruct (curspl (kh_cm h) >? 0) eqn:E1, (curspl (kh_cm h) =? 0) eqn:E2; try done; lia.
Qed.

(** ** The interface [KHeapLaws] for kheap.c

    The second component records the addresses handed out and not yet returned; the code does not
    have it, and the first component runs without looking at it. *)
Record theheap := TheHeap { th_heap : kheap; th_live : gset Z }.

Section laws.
Variable evictPage : kheap → res (Z * kheap).

Definition th_kmalloc (sz : Z) (t : theheap) : res (Z * theheap) :=
  '(a, h) ← kmalloc_c evictPage sz (th_heap t);
  mret (a, TheHeap h (if a =? NULL then th_live t else {[a]} ∪ th_live t)).

Definition th_kfree (a : Z) (t : theheap) : res theheap :=
  h ← kfree_c a (th_heap t);
  mret (TheHeap h (th_live t ∖ {[a]})).

(** The blocks in use are those of the sub-page allocator and the frames [B]. *)
Definition owns (h : kheap) (A : gmap Z Z) (L : list nat) (F : nat → list Z) (B : gset Z) (G : gset Z) : Prop :=
  kinv h A L F ∧ (∀ c, c ∈ B → foreign h A L c) ∧
  ∀ a, a ∈ G ↔ is_live h L F a ∨ ∃ c, c ∈ B ∧ a = kva (kh_cm h) c.

Definition th_inv (t : theheap) : Prop :=
  spl_ok (kh_cm (th_heap t)) ∧ ∃ A L F B, owns (th_heap t) A L F B (th_live t).

(** Room for [n] requests: each takes a frame and a page reference at most. *)
Definition th_room (n : nat) (t : theheap) : Prop :=
  ∃ A L F, kinv (th_heap t) A L F ∧ Z.of_nat n ≤ num_coremap_free (kh_cm (th_heap t)) ∧ (n + length L ≤ 256)%nat.

(** What the pager promises when the coremap has no free frame left: it leaves the heap alone, and
    answers NULL or a frame in use that belongs neither to the sub-page allocator nor to a block
    handed out before. *)
Definition evict_ok : Prop := ∀ h A L F B G,
  owns h A L F B G → spl_ok (kh_cm h) →
  wp (evictPage h) (λ '(a, h'), spl_ok (kh_cm h') ∧ ∃ A', owns h' A' L F B G ∧
    (a = NULL ∨ ∃ c, a = kva (kh_cm h') c ∧ foreign h' A' L c ∧ c ∉ B)).

#[local] Instance kheap_ops : KHeap theheap := {| kmalloc := th_kmalloc; kfree := th_kfree |}.

Lemma kmalloc_c_small h A L F sz :
  kinv h A L F → spl_ok (kh_cm h) → 0 ≤ sz < 2048 →
  wp (kmalloc_c evictPage sz h) (λ '(a, h'),
    alloc_failed h A L F (curspl (kh_cm h)) a h' ∨ alloc_ok h A L F sz (curspl (kh_cm h)) a h').
Proof.
  intros Hinv Hspl Hsz. unfold kmalloc_c, LARGEST_SUBPAGE_SIZE.
  replace (2048 <=? sz) with false by lia. apply (subpage_kmalloc_spec h A); [done|done|lia].
Qed.

(** A block more, in the sub-page allocator. *)
Lemma alloc_owns h A L F B G sz spl a h' A' L' F' :
  owns h A L F B G → alloc_at h A L F sz spl a h' A' L' F' →
  a ∉ G ∧ owns h' A' L' F' B ({[a]} ∪ G) ∧ (length L' ≤ S (length L))%nat ∧
  num_coremap_free (kh_cm h) ≤ num_coremap_free (kh_cm h') + 1.
Proof.
  intros (Hinv & HB & HG) (Hinv' & _ & Hnn & Hnl & Hl & (p & o & Hp & Ho & Ha & _) & Hgr).
  assert (HB' : ∀ c, c ∈ B → foreign h' A' L' c) by (intros c Hc; by eapply grown_foreign, HB).
  pose proof Hgr as [Hs Hg]. split_and!.
  - rewrite HG. intros [|(c & Hc & ->)]; [done|]. apply (foreign_apart h' A' L' F' c p); [done|by apply HB'|done|].
    rewrite (kva_same h L h'), Ha by done. by eapply page_block_in.
  - split_and!; [done|done|]. intros x. rewrite elem_of_union, elem_of_singleton, HG, Hl.
    setoid_rewrite (kva_same h L h'); [tauto|done].
  - destruct Hg as [[_ ->]|(c & q & _ & _ & -> & _)]; simpl; lia.
  - pose proof (ki_cm _ _ _ _ Hinv) as Hcm. pose proof (ki_cm _ _ _ _ Hinv') as Hcm'. destruct Hs as (_ & Hen & _).
    destruct Hg as [[-> _]|(c & q & HA & -> & _)].
    + rewrite (free_count_same _ _ _ Hcm Hcm' Hen). lia.
    + rewrite (free_count _ _ _ _ Hcm Hcm' HA Hen). lia.
Qed.

Lemma owns_live_eq h A L F B G h' A' :
  owns h A L F B G → kinv h' A' L F → same_frames h L h' → (∀ x, is_live h' L F x ↔ is_live h L F x) →
  (∀ c, c ∈ B → A' !! c = Some 1) → owns h' A' L F B G.
Proof.
  intros (Hinv & HB & HG) Hinv' Hs Hl HA. pose proof Hs as (_ & _ & Hpg). split_and!; [done| |].
  - intros c Hc. split; [by apply HA|]. intros p Hp. rewrite Hpg, (kva_same h L h') by done. by apply (HB c Hc).
  - intros a. rewrite HG, Hl. setoid_rewrite (kva_same h L h'); done.
Qed.

(** A frame more. *)
Lemma owns_frame h A L F B G c :
  owns h A L F B G → foreign h A L c → c ∉ B →
  kva (kh_cm h) c ∉ G ∧ owns h A L F ({[c]} ∪ B) ({[kva (kh_cm h) c]} ∪ G).
Proof.
  intros (Hinv & HB & HG) Hf Hc. split.
  - rewrite HG. intros [Hl|(c' & Hc' & ->%kva_inj)]; [|done]. by eapply foreign_not_live.
  - split_and!; [done|set_solver|]. intros a. rewrite elem_of_union, elem_of_singleton, HG. set_solver.
Qed.

(** Every request, up to a page. *)
Lemma kmalloc_c_owns h A L F B G sz :
  evict_ok → owns h A L F B G → spl_ok (kh_cm h) → 0 ≤ sz < 4097 →
  wp (kmalloc_c evictPage sz h) (λ '(a, h'), spl_ok (kh_cm h') ∧ ∃ A' L' F' B',
    (a = NULL ∧ owns h' A' L' F' B' G ∨ a ≠ NULL ∧ a ∉ G ∧ owns h' A' L' F' B' ({[a]} ∪ G)) ∧
    (0 < num_coremap_free (kh_cm h) → length L ≠ 256%nat → a ≠ NULL ∧ (length L' ≤ S (length L))%nat ∧
       num_coremap_free (kh_cm h) ≤ num_coremap_free (kh_cm h') + 1)).
Proof.
  intros Hev Ho Hspl Hsz. pose proof Ho as (Hinv & HB & HG). destruct (decide (sz < 2048)) as [Hsm|Hlg].
  - eapply wp_mono; [apply (kmalloc_c_small h A L F); [done|done|lia]|]. intros [a h'] [Hfail|(A' & L' & F' & Hok)].
    + destruct Hfail as (Hinv' & Hs & -> & Hl & Hfr & Hwhy). split; [by eapply spl_is_ok|].
      exists A, L, F, B. split; [left; split; [done|]|lia]. eapply owns_live_eq; [done..|]. intros c Hc. by apply HB.
    + destruct (alloc_owns _ _ _ _ _ _ _ _ _ _ _ _ _ Ho Hok) as (Hn & Ho' & HL & Hfr).
      destruct Hok as (_ & Hs & Hnn & _). split; [by eapply spl_is_ok|]. exists A', L', F', B.
      split; [right; by split_and!|]. intros _ _. by split_and!.
  - destruct (decide (0 < num_coremap_free (kh_cm h))) as [Hfree|Hfull].
    + destruct (kmalloc_c_page evictPage h A L F sz Hinv Hspl ltac:(lia) Hfree)
        as (c & h' & -> & HA & Hinv' & Hs & Hspl' & Hc0 & Hpg & Hl).
      apply wp_ok. split; [done|].
      assert (c ∉ B) as HcB by (intros Hc; destruct (HB c Hc); congruence).
      assert (Ho' : owns h' (<[c := 1]> A) L F B G).
      { eapply owns_live_eq; try done. intros c' Hc'. rewrite lookup_insert_ne; [by apply HB|congruence]. }
      assert (foreign h' (<[c := 1]> A) L c) as Hf.
      { split; [by rewrite lookup_insert_eq|]. intros p Hp. rewrite Hpg, (kva_same h L h') by done.
        intros Heq. apply (page_not_kva h A L F p c); try done. rewrite Heq. apply kva_in. }
      destruct (owns_frame _ _ _ _ _ _ _ Ho' Hf HcB) as [Hn Ho2]. rewrite (kva_same h L h') in Hn, Ho2 by done.
      exists (<[c := 1]> A), L, F, ({[c]} ∪ B). unfold NULL. split; [right; split_and!; [lia|done|done]|].
      intros _ _. split_and!; [lia|lia|]. pose proof (ki_cm _ _ _ _ Hinv). pose proof (ki_cm _ _ _ _ Hinv').
      destruct Hs as (_ & Hen & _). by rewrite (free_count (kh_cm h) A (kh_cm h') c).
    + unfold kmalloc_c, LARGEST_SUBPAGE_SIZE. replace (2048 <=? sz) with true by lia. rewrite pages_one by lia.
      wp_call (alloc_kpages_one (kh_cm h) A); [apply Hinv|done|].
      intros [a s'] [(-> & -> & Hz)|(c & _ & _ & _ & HA & Hcm & _ & _ & _ & _ & Hen)].
      2: { exfalso. apply Hfull. pose proof (free_count _ _ _ _ (ki_cm _ _ _ _ Hinv) Hcm HA Hen).
           destruct Hcm as (_ & Hf & _). pose proof (n_free_bounds (coremap s')). lia. }
      change (0 =? 0) with true. cbv iota. set (h1 := kh_set_cm h _).
      destruct (kinv_cm_eq h h1 A L F Hinv) as [Hinv1 _]; try done; [apply Hinv|].
      assert (Ho1 : owns h1 A L F B G) by (eapply owns_live_eq; [done..|]; intros c Hc; by apply HB).
      eapply wp_mono; [by apply (Hev h1 A L F B G Ho1)|]. intros [a h'] (Hspl' & A' & Ho' & Ha). split; [done|].
      destruct Ha as [->|(c & -> & Hf & HcB)]; [exists A', L, F, B; split; [by left|lia]|].
      destruct (owns_frame _ _ _ _ _ _ _ Ho' Hf HcB) as [Hn Ho2]. exists A', L, F, ({[c]} ∪ B).
      split; [right|lia]. split_and!; [|done|done]. destruct Ho' as (Hinv' & _), Hf as [HA' _].
      destruct (kva_range h' A' L F Hinv' c 1 HA') as (Hlo & _). unfold NULL, MIPS_KSEG0 in *. lia.
Qed.

Lemma kfree_c_owns h A L F B G a :
  owns h A L F B G → spl_ok (kh_cm h) → a ∈ G →
  wp (kfree_c a h) (λ h', spl_ok (kh_cm h') ∧ ∃ A' L' F' B', owns h' A' L' F' B' (G ∖ {[a]}) ∧
    (length L' ≤ length L)%nat ∧ num_coremap_free (kh_cm h) ≤ num_coremap_free (kh_cm h')).
Proof.
  intros Ho Hspl Ha. pose proof Ho as (Hinv & HB & HG). apply HG in Ha as [Hl|(c & Hc & ->)].
  - eapply wp_mono; [by apply (kfree_c_live h A L F)|]. intros h' (Hs & A' & L' & F' & Hinv' & Hl' & Hrel).
    split; [by eapply spl_is_ok|]. exists A', L', F', B. pose proof Hrel as [Hs' (p & c & Hp & _ & Hpc & HAc & Hcase)].
    split; [split_and!|split].
    + done.
    + intros c' Hc'. by eapply released_foreign, HB.
    + intros x. rewrite elem_of_difference, elem_of_singleton, HG, Hl'. setoid_rewrite (kva_same h L' h'); [|done].
      split; [naive_solver|]. intros [[? ?]|(c' & Hc' & ->)]; [tauto|]. split; [right; by exists c'|]. intros <-.
      by eapply foreign_not_live; [|apply HB|].
    + destruct Hcase as [(_ & _ & ->)|(_ & _ & ->)]; simpl; lia.
    + pose proof (ki_cm _ _ _ _ Hinv) as Hcm. pose proof (ki_cm _ _ _ _ Hinv') as Hcm'. destruct Hs' as (_ & Hen & _).
      destruct Hcase as [(_ & -> & _)|(_ & -> & _)].
      * rewrite (free_count_same _ _ _ Hcm Hcm' Hen). lia.
      * pose proof (free_count (kh_cm h') (delete c A) (kh_cm h) c Hcm') as Hfc.
        rewrite insert_delete_id in Hfc by done. specialize (Hfc Hcm (lookup_delete_eq _ _) (eq_sym Hen)). lia.
  - eapply wp_mono; [apply (kfree_c_page h A L F c); [done|done|by apply HB]|].
    intros h' (Hinv' & Hs & Hspl' & Hpg & Hl). split; [done|]. exists (delete c A), L, F, (B ∖ {[c]}).
    pose proof Hs as (_ & Hen & _). split; [split_and!|split].
    + done.
    + intros c' [Hc' Hne%not_elem_of_singleton]%elem_of_difference. destruct (HB c' Hc') as [Hc1 Hc2].
      split; [by rewrite lookup_delete_ne|]. intros p Hp. rewrite Hpg, (kva_same h L h') by done. by apply Hc2.
    + intros x. rewrite elem_of_difference, elem_of_singleton, HG, Hl. setoid_rewrite (kva_same h L h'); [|done].
      setoid_rewrite elem_of_difference. setoid_rewrite not_elem_of_singleton. split.
      * intros [[?|(c' & ? & ->)] Hne]; [by left|]. right. exists c'. split_and!; try done. by intros ->.
      * intros [Hx|(c' & [? Hne] & ->)].
        -- split; [by left|]. intros ->. by eapply foreign_not_live; [|apply HB|].
        -- split; [right; by exists c'|]. by intros ->%kva_inj.
    + done.
    + pose proof (ki_cm _ _ _ _ Hinv) as Hcm. pose proof (ki_cm _ _ _ _ Hinv') as Hcm'.
      pose proof (free_count (kh_cm h') (delete c A) (kh_cm h) c Hcm') as Hfc.
      rewrite insert_delete_id in Hfc by (by apply HB).
      specialize (Hfc Hcm (lookup_delete_eq _ _) (eq_sym Hen)). lia.
Qed.

(** The list of all pages is determined by the heap. *)
Lemma kinv_pages h A L F A' L' F' : kinv h A L F → kinv h A' L' F' → L' = L.
Proof.
  intros H1 H2. apply ki_all in H1, H2. revert L' H2. revert H1. generalize (allbase h).
  induction L as [|p L IH]; intros st H1 [|q L'] H2; simpl in *; [done|naive_solver..|].
  destruct H1 as [-> H1], H2 as [Heq H2]. injection Heq as <-. f_equal. by eapply IH.
Qed.

Lemma owns_nonnull h A L F B G : owns h A L F B G → NULL ∉ G.
Proof.
  intros (Hinv & HB & HG) [Hl|(c & Hc & Heq)]%HG; [by apply live_nonnull in Hinv|].
  destruct (kva_range h A L F Hinv c 1) as (Hlo & _); [by apply HB|]. unfold NULL, MIPS_KSEG0 in *. lia.
Qed.

Lemma owns_nodead h A L F B G : owns h A L F B G → DEADBEEF ∉ G.
Proof.
  intros (Hinv & HB & HG) [Hl|(c & Hc & Heq)]%HG; [by apply live_nodead in Hinv|].
  pose proof (kva_align (kh_cm h) c) as Ha. rewrite <- Heq in Ha. done.
Qed.

Definition kheap_laws (Hev : evict_ok) : KHeapLaws theheap.
Proof.
  refine {| kh_inv := th_inv; kh_live := th_live; kh_max := 4097; kh_room := th_room |}.
  - lia.
  - intros t (_ & A & L & F & B & Ho). by eapply owns_nonnull.
  - intros t (_ & A & L & F & B & Ho). by eapply owns_nodead.
  - intros t sz (Hspl & A & L & F & B & Ho) Hsz. simpl. unfold th_kmalloc.
    wp_call kmalloc_c_owns; [done|done|done|done|].
    intros [a h'] (Hspl' & A' & L' & F' & B' & Hcase & _). wp_val.
    destruct Hcase as [[-> Ho']|(Hnn & Hn & Ho')].
    + split; [|by left]. split; [done|]. by exists A', L', F', B'.
    + replace (a =? NULL) with false by lia. split; [|by right]. split; [done|]. by exists A', L', F', B'.
  - intros [h G] (_ & A & L & F & B & Ho). simpl in *. unfold th_kfree. simpl. f_equal. f_equal.
    pose proof (owns_nonnull _ _ _ _ _ _ Ho). set_solver.
  - intros t a (Hspl & A & L & F & B & Ho) Hin. simpl. unfold th_kfree.
    wp_call kfree_c_owns; [done|done|done|]. intros h' (Hspl' & A' & L' & F' & B' & Ho' & _).
    wp_val. split; [|done]. split; [done|]. by exists A', L', F', B'.
  - intros t n (A & L & F & Hinv & Hf & Hl). exists A, L, F. split_and!; [done|lia|lia].
  - intros t sz n (Hspl & A & L & F & B & Ho) Hsz (A2 & L2 & F2 & Hinv2 & Hf & Hl). simpl. unfold th_kmalloc.
    rewrite (kinv_pages _ _ _ _ _ _ _ (proj1 Ho) Hinv2) in Hl.
    wp_call kmalloc_c_owns; [done|done|done|done|].
    intros [a h'] (_ & A' & L' & F' & B' & Hcase & Hroom). wp_val.
    destruct Hroom as (Hnn & HL & Hfr); [lia|lia|]. split; [done|].
    destruct Hcase as [[-> _]|(_ & _ & Ho')]; [done|]. exists A', L', F'. simpl. split_and!; [apply Ho'|lia|lia].
  - intros t a n (Hspl & A & L & F & B & Ho) Hin (A2 & L2 & F2 & Hinv2 & Hf & Hl). simpl. unfold th_kfree.
    rewrite (kinv_pages _ _ _ _ _ _ _ (proj1 Ho) Hinv2) in Hl.
    wp_call kfree_c_owns; [done|done|done|]. intros h' (_ & A' & L' & F' & B' & Ho' & HL & Hfr).
    wp_val. exists A', L', F'. simpl. split_and!; [apply Ho'|lia|lia].
Defined.
End laws.

(** C5: a [kmalloc] of less than half a page, in any consistent state of the kernel
    heap, returns: either it answers NULL, which happens only when no frame is free or all page
    references are taken, and the blocks in use are the same; or it answers an address that was
    not in use, the first byte of a block of at least [sz] bytes that overlaps no block in use,
    and exactly that block has become used.  The heap stays consistent and the interrupt level
    is restored either way. *)
Theorem kmalloc_gives_fresh_block evictPage h A L F sz :
  kinv h A L F → spl_ok (kh_cm h) → 0 ≤ sz < 2048 →
  wp (kmalloc_c evictPage sz h) (λ '(a, h'), spl_is (curspl (kh_cm h)) h' ∧
    ∃ A' L' F', kinv h' A' L' F' ∧
      ((a = NULL ∧ (num_coremap_free (kh_cm h) = 0 ∨ length L = 256%nat) ∧
        ∀ x, is_live h' L' F' x ↔ is_live h L F x) ∨
       (a ≠ NULL ∧ ¬ is_live h L F a ∧ (∀ x, is_live h' L' F' x ↔ is_live h L F x ∨ x = a) ∧
        ∃ n, sz ≤ n ∧ block_at h' L' a n ∧
          ∀ x m, is_live h L F x → block_at h' L' x m → a + n ≤ x ∨ x + m ≤ a))).
Proof.
  intros Hinv Hspl Hsz. eapply wp_mono; [by apply (kmalloc_c_small evictPage h A L F)|].
  intros [a h'] [(Hinv' & Hs & -> & Hl & _ & Hwhy)
                |(A' & L' & F' & Hinv' & Hs & Hnn & Hnl & Hl & (p & o & Hp & Ho & Ha & Hszb) & _)].
  - split; [done|]. exists A, L, F. split; [done|]. by left.
  - split; [done|]. exists A', L', F'. split; [done|]. right. split_and!; try done.
    assert (block_at h' L' a (bsize (blk_of h' p))) as Hblk by (by exists p, o).
    exists (bsize (blk_of h' p)). split_and!; try done. intros x m Hx Hm.
    eapply (blocks_disjoint h' A' L' F'); try done. by intros ->.
Qed.

(** C6: [kfree] of a block in use returns without a panic; exactly that block stops being in use
    and the interrupt level is restored.  While another block of its page is in use the pages and
    frames of the heap are the same; with its last block the page leaves the heap and its frame,
    and no other, is free again in the coremap. *)
Theorem kfree_releases_block h A L F a :
  kinv h A L F → spl_ok (kh_cm h) → is_live h L F a →
  wp (kfree_c a h) (λ h', spl_is (curspl (kh_cm h)) h' ∧
    ∃ A' L' F', kinv h' A' L' F' ∧ (∀ x, is_live h' L' F' x ↔ is_live h L F x ∧ x ≠ a) ∧
      released h A L F a h' A' L').
Proof. apply kfree_c_live. Qed.

(** A client that writes any word into a block it was given cannot break the allocator. *)
Lemma client_writes_are_harmless h A L F a n x v :
  kinv h A L F → is_live h L F a → block_at h L a n → a ≤ x < a + n →
  kinv (kstore h x v) A L F ∧ ∀ y, is_live (kstore h x v) L F y ↔ is_live h L F y.
Proof. intros Hinv Hl Hb Hx. split; [by eapply kinv_write|done]. Qed.

(** a request of half a page to a whole page takes one frame that no block holds,
    outside the sub-page pages, while a frame is free; [kfree] of it afterwards finds
    that it is no sub-page block and gives the frame back, so the allocation map is the
    same as before. *)
Theorem kmalloc_page_roundtrip evictPage h A L F sz :
  kinv h A L F → spl_ok (kh_cm h) → 2048 ≤ sz ≤ 4096 → 0 < num_coremap_free (kh_cm h) →
  ∃ c h' h'', kmalloc_c evictPage sz h = Ok (kva (kh_cm h) c, h') ∧ A !! c = None ∧
    kinv h' (<[c := 1]> A) L F ∧ (∀ p, p ∈ L → ¬ in_page (pg_of h p) (kva (kh_cm h) c)) ∧
    kfree_c (kva (kh_cm h) c) h' = Ok h'' ∧ kinv h'' A L F.
Proof.
  intros Hinv Hspl Hsz Hfree.
  destruct (kmalloc_c_page evictPage h A L F sz Hinv Hspl Hsz Hfree)
    as (c & h' & Ha & HA & Hinv' & Hs & Hspl' & Hc0 & Hpg & _).
  assert (Hout : ∀ p, p ∈ L → ¬ in_page (pg_of h p) (kva (kh_cm h) c)).
  { intros p Hp. by eapply page_not_kva. }
  assert (foreign h' (<[c := 1]> A) L c) as Hf.
  { split; [by rewrite lookup_insert_eq|]. intros p Hp. rewrite Hpg, (kva_same h L h') by done.
    intros Heq. apply (Hout p Hp). rewrite Heq. apply kva_in. }
  pose proof (kfree_c_page h' _ L F c Hinv' Hspl' Hf) as Hw. rewrite (kva_same h L h') in Hw by done.
  apply wp_exists in Hw as (h'' & Hk & Hinv'' & _). rewrite delete_insert_id in Hinv'' by done.
  exists c, h', h''. by split_and!.
Qed.

(** ** Witnesses: the heap of a machine that has just been started *)

Definition boot_heap : kheap := kheap_init boot_state.
Definition no_evict (h : kheap) : res (Z * kheap) := mret (NULL, h).

Lemma boot_heap_inv : kinv boot_heap ∅ [] (λ _, []).
Proof. apply kheap_init_inv, cm_reach_inv, boot_state_reach. Qed.

Lemma boot_heap_spl : spl_ok (kh_cm boot_heap).
Proof. split; [vm_compute; congruence|reflexivity]. Qed.

(** The heap after a request of 100 bytes, with its one block in use. *)
Definition used_addr : Z := 0x8000bf80.
Definition used_heap : kheap :=
  match kmalloc_c no_evict 100 boot_heap with Ok (_, h) => h | Fault _ => boot_heap end.

Lemma used_heap_ok : kmalloc_c no_evict 100 boot_heap = Ok (used_addr, used_heap).
Proof. vm_compute. reflexivity. Qed.

#[local] Opaque used_heap used_addr.

Lemma used_heap_inv : spl_ok (kh_cm used_heap) ∧
  ∃ A L F, kinv used_heap A L F ∧ is_live used_heap L F used_addr ∧
    ∃ n, 100 ≤ n ∧ block_at used_heap L used_addr n.
Proof.
  pose proof (kmalloc_c_small no_evict boot_heap ∅ [] (λ _, []) 100 boot_heap_inv boot_heap_spl
    ltac:(lia)) as Hk.
  rewrite used_heap_ok, wp_ok in Hk.
  destruct Hk as [(_ & _ & Hz & _)|(A' & L' & F' & Hinv & Hs & _ & _ & Hl & (p & o & ? & ? & ? & ?) & _)];
    [vm_compute in Hz; discriminate|].
  split; [by apply (spl_is_ok boot_heap); [apply boot_heap_spl|]|].
  exists A', L', F'. split_and!; [done|apply Hl; by right|].
  exists (bsize (blk_of used_heap p)). split; [assumption|]. exists p, o. by split_and!.
Qed.

(** A machine without a pager. *)
Lemma no_evict_ok : evict_ok no_evict.
Proof.
  intros h A L F B G Ho Hs. unfold no_evict. wp_val. split; [done|]. exists A. split; [done|by left].
Qed.

Lemma kmalloc_gives_fresh_block_witness :
  wp (kmalloc_c no_evict 100 boot_heap) (λ '(a, h'), a = used_addr ∧ spl_is 0 h').
Proof.
  pose proof (kmalloc_gives_fresh_block no_evict boot_heap ∅ [] (λ _, []) 100 boot_heap_inv
    boot_heap_spl ltac:(lia)) as Hk.
  rewrite used_heap_ok in Hk |- *. split; [reflexivity|]. exact (proj1 Hk).
Defined.

Lemma kfree_releases_block_witness :
  wp (kfree_c used_addr used_heap) (λ h', spl_is 0 h').
Proof.
  destruct used_heap_inv as (Hs & A & L & F & Hinv & Hl & _).
  eapply wp_mono; [exact (kfree_releases_block used_heap A L F used_addr Hinv Hs Hl)|].
  intros h' [Hspl _]. exact Hspl.
Defined.

Lemma kmalloc_page_roundtrip_witness :
  ∃ a h' h'', kmalloc_c no_evict 4096 boot_heap = Ok (a, h') ∧ kfree_c a h' = Ok h'' ∧
    kinv h'' ∅ [] (λ _, []).
Proof.
  destruct (kmalloc_page_roundtrip no_evict boot_heap ∅ [] (λ _, []) 4096 boot_heap_inv
    boot_heap_spl ltac:(lia) ltac:(vm_compute; reflexivity))
    as (c & h' & h'' & Ha & _ & _ & _ & Hf & Hinv).
  exists (kva (kh_cm boot_heap) c), h', h''. split; [exact Ha|]. split; [exact Hf|exact Hinv].
Defined.
