(* ===== verification/KState.v ===== *)
(** * The state of the thread system

    The globals of kern/thread/*.c, kern/arch/mips/mips/{spl,interrupt,pcb}.c, and the
    objects they point to: threads, semaphores, locks, condition variables and process
    table entries, each in a map from its address.  [H] is the kernel heap and [E] the
    state of the parts of the kernel the thread system calls through [ThreadEnv]
    (address spaces and vnodes). *)

From S2P Require Import Prelude Heap KArray KQueue StateM.
From S2P Require Import Coremap.

(** ** Machine-dependent part of a thread (pcb.h, switchframe.h) *)

Record switchframe := SwitchFrame { sf_s0 : Z; sf_s1 : Z; sf_s2 : Z }.

Record pcb := PCB {
  pcb_switchstack : Z;
  pcb_kstack : Z;
  pcb_ininterrupt : Z;
  pcb_badfaultfunc : Z;
  pcb_frame : option switchframe;   (* the frame [pcb_switchstack] points to, if set up by md_initpcb *)
}.

Record thread := Thread {
  t_pcb : pcb;
  t_name : Z;
  t_sleepaddr : Z;
  t_stack : Z;
  t_magic : list Z;      (* the first four bytes of the stack *)
  t_vmspace : Z;
  t_cwd : Z;
  t_pid : Z;
  t_pagedir : Z;
}.

(** ** Objects of synch.c and process.c *)

Record semaphore := Sem { sem_name : Z; sem_count : Z }.
Record lock := Lock { lock_name : Z; lock_count : Z }.
Record cv := CV { cv_name : Z; cv_sig : Z }.

Record process := Process {
  parent_pid : Z;
  exited : Z;
  exit_code : Z;
  exit_lock : Z;
  mythread : Z;
}.

(** ** Globals *)

Record kst (H E : Type) := KST {
  k_heap : H;
  k_threads : gmap Z thread;
  k_cur : Z;                     (* curthread *)
  k_sleepers : option array;     (* NULL after thread_shutdown *)
  k_zombies : option array;
  k_runq : option queue;
  k_num : Z;                     (* numthreads *)
  k_cvone : Z;                   (* cv_wakeup_one_thread *)
  k_inint : Z;                   (* in_interrupt *)
  k_spl : Z;                     (* curspl *)
  k_kstack : Z;                  (* curkstack *)
  k_tlb : list (Z * Z);          (* the TLB, entryhi and entrylo *)
  k_sems : gmap Z semaphore;
  k_locks : gmap Z lock;
  k_cvs : gmap Z cv;
  k_procs : gmap Z process;
  k_ptable : option array;       (* pid_table *)
  k_clock : Z * Z;               (* ref_counter and lbolt_counter of hardclock.c *)
  k_env : E;
}.
Arguments KST {H E}.
Arguments k_heap {H E}. Arguments k_threads {H E}. Arguments k_cur {H E}.
Arguments k_sleepers {H E}. Arguments k_zombies {H E}. Arguments k_runq {H E}.
Arguments k_num {H E}. Arguments k_cvone {H E}. Arguments k_inint {H E}.
Arguments k_spl {H E}. Arguments k_kstack {H E}. Arguments k_tlb {H E}.
Arguments k_sems {H E}. Arguments k_locks {H E}. Arguments k_cvs {H E}.
Arguments k_procs {H E}. Arguments k_ptable {H E}. Arguments k_clock {H E}. Arguments k_env {H E}.

Section setters.
Context {H E : Type}.
Implicit Types k : kst H E.

Definition set_heap (x : H) k :=
  KST x (k_threads k) (k_cur k) (k_sleepers k) (k_zombies k) (k_runq k) (k_num k)
    (k_cvone k) (k_inint k) (k_spl k) (k_kstack k) (k_tlb k) (k_sems k) (k_locks k)
    (k_cvs k) (k_procs k) (k_ptable k) (k_clock k) (k_env k).
Definition set_threads (x : gmap Z thread) k :=
  KST (k_heap k) x (k_cur k) (k_sleepers k) (k_zombies k) (k_runq k) (k_num k) (k_cvone k)
    (k_inint k) (k_spl k) (k_kstack k) (k_tlb k) (k_sems k) (k_locks k) (k_cvs k)
    (k_procs k) (k_ptable k) (k_clock k) (k_env k).
Definition set_cur (x : Z) k :=
  KST (k_heap k) (k_threads k) x (k_sleepers k) (k_zombies k) (k_runq k) (k_num k)
    (k_cvone k) (k_inint k) (k_spl k) (k_kstack k) (k_tlb k) (k_sems k) (k_locks k)
    (k_cvs k) (k_procs k) (k_ptable k) (k_clock k) (k_env k).
Definition set_sleepers (x : option array) k :=
  KST (k_heap k) (k_threads k) (k_cur k) x (k_zombies k) (k_runq k) (k_num k) (k_cvone k)
    (k_inint k) (k_spl k) (k_kstack k) (k_tlb k) (k_sems k) (k_locks k) (k_cvs k)
    (k_procs k) (k_ptable k) (k_clock k) (k_env k).
Definition set_zombies (x : option array) k :=
  KST (k_heap k) (k_threads k) (k_cur k) (k_sleepers k) x (k_runq k) (k_num k) (k_cvone k)
    (k_inint k) (k_spl k) (k_kstack k) (k_tlb k) (k_sems k) (k_locks k) (k_cvs k)
    (k_procs k) (k_ptable k) (k_clock k) (k_env k).
Definition set_runq (x : option queue) k :=
  KST (k_heap k) (k_threads k) (k_cur k) (k_sleepers k) (k_zombies k) x (k_num k)
    (k_cvone k) (k_inint k) (k_spl k) (k_kstack k) (k_tlb k) (k_sems k) (k_locks k)
    (k_cvs k) (k_procs k) (k_ptable k) (k_clock k) (k_env k).
Definition set_num (x : Z) k :=
  KST (k_heap k) (k_threads k) (k_cur k) (k_sleepers k) (k_zombies k) (k_runq k) x
    (k_cvone k) (k_inint k) (k_spl k) (k_kstack k) (k_tlb k) (k_sems k) (k_locks k)
    (k_cvs k) (k_procs k) (k_ptable k) (k_clock k) (k_env k).
Definition set_cvone (x : Z) k :=
  KST (k_heap k) (k_threads k) (k_cur k) (k_sleepers k) (k_zombies k) (k_runq k) (k_num k) x
    (k_inint k) (k_spl k) (k_kstack k) (k_tlb k) (k_sems k) (k_locks k) (k_cvs k)
    (k_procs k) (k_ptable k) (k_clock k) (k_env k).
Definition set_inint (x : Z) k :=
  KST (k_heap k) (k_threads k) (k_cur k) (k_sleepers k) (k_zombies k) (k_runq k) (k_num k)
    (k_cvone k) x (k_spl k) (k_kstack k) (k_tlb k) (k_sems k) (k_locks k) (k_cvs k)
    (k_procs k) (k_ptable k) (k_clock k) (k_env k).
Definition set_spl (x : Z) k :=
  KST (k_heap k) (k_threads k) (k_cur k) (k_sleepers k) (k_zombies k) (k_runq k) (k_num k)
    (k_cvone k) (k_inint k) x (k_kstack k) (k_tlb k) (k_sems k) (k_locks k) (k_cvs k)
    (k_procs k) (k_ptable k) (k_clock k) (k_env k).
Definition set_kstack (x : Z) k :=
  KST (k_heap k) (k_threads k) (k_cur k) (k_sleepers k) (k_zombies k) (k_runq k) (k_num k)
    (k_cvone k) (k_inint k) (k_spl k) x (k_tlb k) (k_sems k) (k_locks k) (k_cvs k)
    (k_procs k) (k_ptable k) (k_clock k) (k_env k).
Definition set_tlb (x : list (Z * Z)) k :=
  KST (k_heap k) (k_threads k) (k_cur k) (k_sleepers k) (k_zombies k) (k_runq k) (k_num k)
    (k_cvone k) (k_inint k) (k_spl k) (k_kstack k) x (k_sems k) (k_locks k) (k_cvs k)
    (k_procs k) (k_ptable k) (k_clock k) (k_env k).
Definition set_sems (x : gmap Z semaphore) k :=
  KST (k_heap k) (k_threads k) (k_cur k) (k_sleepers k) (k_zombies k) (k_runq k) (k_num k)
    (k_cvone k) (k_inint k) (k_spl k) (k_kstack k) (k_tlb k) x (k_locks k) (k_cvs k)
    (k_procs k) (k_ptable k) (k_clock k) (k_env k).
Definition set_locks (x : gmap Z lock) k :=
  KST (k_heap k) (k_threads k) (k_cur k) (k_sleepers k) (k_zombies k) (k_runq k) (k_num k)
    (k_cvone k) (k_inint k) (k_spl k) (k_kstack k) (k_tlb k) (k_sems k) x (k_cvs k)
    (k_procs k) (k_ptable k) (k_clock k) (k_env k).
Definition set_cvs (x : gmap Z cv) k :=
  KST (k_heap k) (k_threads k) (k_cur k) (k_sleepers k) (k_zombies k) (k_runq k) (k_num k)
    (k_cvone k) (k_inint k) (k_spl k) (k_kstack k) (k_tlb k) (k_sems k) (k_locks k) x
    (k_procs k) (k_ptable k) (k_clock k) (k_env k).
Definition set_procs (x : gmap Z process) k :=
  KST (k_heap k) (k_threads k) (k_cur k) (k_sleepers k) (k_zombies k) (k_runq k) (k_num k)
    (k_cvone k) (k_inint k) (k_spl k) (k_kstack k) (k_tlb k) (k_sems k) (k_locks k)
    (k_cvs k) x (k_ptable k) (k_clock k) (k_env k).
Definition set_ptable (x : option array) k :=
  KST (k_heap k) (k_threads k) (k_cur k) (k_sleepers k) (k_zombies k) (k_runq k) (k_num k)
    (k_cvone k) (k_inint k) (k_spl k) (k_kstack k) (k_tlb k) (k_sems k) (k_locks k)
    (k_cvs k) (k_procs k) x (k_clock k) (k_env k).
Definition set_clock (x : Z * Z) k :=
  KST (k_heap k) (k_threads k) (k_cur k) (k_sleepers k) (k_zombies k) (k_runq k) (k_num k)
    (k_cvone k) (k_inint k) (k_spl k) (k_kstack k) (k_tlb k) (k_sems k) (k_locks k)
    (k_cvs k) (k_procs k) (k_ptable k) x (k_env k).
Definition set_env (x : E) k :=
  KST (k_heap k) (k_threads k) (k_cur k) (k_sleepers k) (k_zombies k) (k_runq k) (k_num k)
    (k_cvone k) (k_inint k) (k_spl k) (k_kstack k) (k_tlb k) (k_sems k) (k_locks k)
    (k_cvs k) (k_procs k) (k_ptable k) (k_clock k) x.
End setters.

(** Read a field of an updated state. *)
Ltac ksimpl :=
  cbn [k_heap k_threads k_cur k_sleepers k_zombies k_runq k_num k_cvone k_inint k_spl k_kstack
       k_tlb k_sems k_locks k_cvs k_procs k_ptable k_clock k_env set_heap set_threads set_cur
       set_sleepers set_zombies set_runq set_num set_cvone set_inint set_spl set_kstack set_tlb
       set_sems set_locks set_cvs set_procs set_ptable set_clock set_env] in *.

(** ** Access to the state *)

Section access.
Context {H E : Type}.
Abbreviation K := (stm (kst H E)).

(** Dereferencing a pointer to a thread. *)
Definition get_thread (t : Z) : K thread := λ k,
  match k_threads k !! t with Some th => Ok (th, k) | None => Fault FUndef end.
Definition put_thread (t : Z) (th : thread) : K unit := modify (λ k, set_threads (<[t := th]> (k_threads k)) k).

Definition th_set_sleepaddr (a : Z) (th : thread) : thread :=
  Thread (t_pcb th) (t_name th) a (t_stack th) (t_magic th) (t_vmspace th) (t_cwd th) (t_pid th) (t_pagedir th).
Definition th_set_stack (a : Z) (m : list Z) (th : thread) : thread :=
  Thread (t_pcb th) (t_name th) (t_sleepaddr th) a m (t_vmspace th) (t_cwd th) (t_pid th) (t_pagedir th).
Definition th_set_vmspace (a : Z) (th : thread) : thread :=
  Thread (t_pcb th) (t_name th) (t_sleepaddr th) (t_stack th) (t_magic th) a (t_cwd th) (t_pid th) (t_pagedir th).
Definition th_set_cwd (a : Z) (th : thread) : thread :=
  Thread (t_pcb th) (t_name th) (t_sleepaddr th) (t_stack th) (t_magic th) (t_vmspace th) a (t_pid th) (t_pagedir th).
Definition th_set_pid (a : Z) (th : thread) : thread :=
  Thread (t_pcb th) (t_name th) (t_sleepaddr th) (t_stack th) (t_magic th) (t_vmspace th) (t_cwd th) a (t_pagedir th).
Definition th_set_pagedir (a : Z) (th : thread) : thread :=
  Thread (t_pcb th) (t_name th) (t_sleepaddr th) (t_stack th) (t_magic th) (t_vmspace th) (t_cwd th) (t_pid th) a.
Definition th_set_pcb (p : pcb) (th : thread) : thread :=
  Thread p (t_name th) (t_sleepaddr th) (t_stack th) (t_magic th) (t_vmspace th) (t_cwd th) (t_pid th) (t_pagedir th).

Definition upd_thread (t : Z) (f : thread → thread) : K unit :=
  th ← get_thread t; put_thread t (f th).

(** Dereferencing the global arrays and the run queue. *)
Definition get_opt {A} (f : kst H E → option A) : K A := λ k,
  match f k with Some a => Ok (a, k) | None => Fault FUndef end.

(** Calls into the kernel heap. *)
Definition kalloc `{KHeap H} (sz : Z) : K Z := zoom k_heap set_heap (kmalloc sz).
Definition kfree_ `{KHeap H} (p : Z) : K unit :=
  zoom k_heap set_heap (λ h, h' ← kfree p h; mret (tt, h')).

(** [kstrdup]: a copy of a string of [len] characters. *)
Definition kstrdup `{KHeap H} (len : Z) : K Z := kalloc (len + 1).

(** ** Interrupt levels, as in spl.c, on [curspl] *)

Definition k_splx (newspl : Z) : K Z :=
  old ← gets k_spl; _ ← modify (set_spl newspl); mret old.
Definition k_splhigh : K Z := k_splx SPL_HIGH.
Definition k_spl0 : K Z := k_splx 0.

(** ** The TLB *)

Definition NUM_TLB : Z := 64.
Definition TLBHI_INVALID (entryno : Z) : Z := u32 (Z.shiftl (0x80000 + entryno) 12).
Definition TLBLO_INVALID : Z := 0.

Definition TLB_Write (hi lo i : Z) : K unit := λ k,
  match setz (k_tlb k) i (hi, lo) with Ok l => Ok (tt, set_tlb l k) | Fault e => Fault e end.

(** The loop that invalidates every entry. *)
Definition tlb_flush : K unit :=
  mfor (Z.to_nat NUM_TLB) 0 (λ i _, TLB_Write (TLBHI_INVALID i) TLBLO_INVALID i) tt.

(** ** pcb.c *)

Definition STACK_SIZE : Z := 4096.

Definition md_initpcb0 (kstack : Z) : pcb := PCB 0 kstack 0 NULL None.

(** A switch frame is eleven words at the top of the stack. *)
Definition md_initpcb (stack data1 data2 func : Z) : pcb :=
  let stacktop := u32 (stack + STACK_SIZE) in
  PCB (u32 (stacktop - 44)) stacktop 0 NULL (Some (SwitchFrame data1 data2 func)).

(** [md_switch] up to the assembly routine that changes stacks. *)
Definition md_switch (old nu : Z) : K unit :=
  if old =? nu then mret tt
  else
    kstack ← gets k_kstack;
    inint ← gets k_inint;
    tho ← get_thread old;
    let p := t_pcb tho in
    _ ← put_thread old (th_set_pcb (PCB (pcb_switchstack p) kstack inint (pcb_badfaultfunc p) (pcb_frame p)) tho);
    thn ← get_thread nu;
    _ ← modify (set_kstack (pcb_kstack (t_pcb thn)));
    modify (set_inint (pcb_ininterrupt (t_pcb thn))).
End access.

(** ** What the thread system calls

    Address spaces (kern/vm/addrspace.c), vnode reference counts (kern/fs/vfs/vnode.c),
    page directories (kern/vm/pagetable.c) and the clock hook of the pager.  The two
    [copy_] operations are the [memcpy]s of [process_fork] on objects that live there. *)

Class ThreadEnv (H E : Type) := {
  as_activate : Z → stm (kst H E) unit;
  as_destroy : Z → stm (kst H E) unit;
  as_copy : Z → Z → Z → stm (kst H E) (Z * Z);     (* result and the new address space *)
  VOP_INCREF : Z → stm (kst H E) unit;
  VOP_DECREF : Z → stm (kst H E) unit;
  page_table_initializer : stm (kst H E) Z;
  ref_bit_counter : stm (kst H E) unit;
  copy_vnode : Z → Z → stm (kst H E) unit;
  copy_trapframe : Z → Z → stm (kst H E) unit;
}.
