(* ===== verification/Thread.v ===== *)
(** * Threads and the scheduler (kern/thread/thread.c, kern/thread/scheduler.c)

    Thread creation and destruction, the run queue, context switch, sleep and wakeup.
    A routine that gives up the processor is split at [md_switch]: what the outgoing
    thread does before it ([mi_switch], [scheduler]), and what a resumed thread does
    after it ([mi_switch_back]).  [thread_fork] is in [Fork.v]. *)

From S2P Require Import Prelude StateM Heap KArray KQueue KState.

Inductive threadstate := S_READY | S_SLEEP | S_ZOMB.

#[export] Instance threadstate_eq_dec : EqDecision threadstate.
Proof. solve_decision. Defined.

Definition STACK_MAGIC : list Z := [0xae; 0x11; 0xda; 0x33].

(** [sizeof(struct thread)]: a pcb of fifteen words and seven more. *)
Definition THREAD_SIZE : Z := 88.

Section thread.
Context {H E : Type} `{KHeap H} `{ThreadEnv H E}.
Abbreviation K := (stm (kst H E)).

(** ** The run queue (scheduler.c) *)

Definition scheduler_bootstrap : K unit :=
  oq ← zoom k_heap set_heap (q_create 32);
  match oq with
  | None => fault_ FPanic
  | Some q => modify (set_runq (Some q))
  end.

Definition make_runnable (t : Z) : K Z :=
  spl ← gets k_spl;
  _ ← asrt (spl >? 0);
  q ← get_opt k_runq;
  h ← gets k_heap;
  '(r, q, h) ← lift (q_addtail q t h);
  _ ← modify (set_heap h);
  _ ← modify (set_runq (Some q));
  mret r.

Definition scheduler_preallocate (nthreads : Z) : K Z :=
  spl ← gets k_spl;
  _ ← asrt (spl >? 0);
  q ← get_opt k_runq;
  h ← gets k_heap;
  '(r, q, h) ← lift (q_preallocate q nthreads h);
  _ ← modify (set_heap h);
  _ ← modify (set_runq (Some q));
  mret r.

(** One round of the loop of [scheduler]: [None] is a call of [cpu_idle], after which
    the caller looks again. *)
Definition scheduler : K (option Z) :=
  spl ← gets k_spl;
  _ ← asrt (spl >? 0);
  q ← get_opt k_runq;
  if q_empty q then mret None
  else
    '(t, q) ← lift (q_remhead q);
    _ ← modify (set_runq (Some q));
    mret (Some t).

Definition scheduler_killall : K unit :=
  spl ← gets k_spl;
  _ ← asrt (spl >? 0);
  q ← get_opt k_runq;
  mwhile (S (Z.to_nat (q_size q))) (λ _,
    q ← get_opt k_runq;
    if q_empty q then mret (inr tt)
    else
      '(t, q) ← lift (q_remhead q);
      _ ← modify (set_runq (Some q));
      _ ← get_thread t;                (* its name is printed *)
      mret (inl tt)) tt.

Definition scheduler_shutdown : K unit :=
  _ ← scheduler_killall;
  spl ← gets k_spl;
  _ ← asrt (spl >? 0);
  q ← get_opt k_runq;
  _ ← zoom k_heap set_heap (λ h, h' ← q_destroy q h; mret (tt, h'));
  modify (set_runq None).

(** ** Creation and destruction

    The name is given by its length.  The fields a new structure leaves unset (the pcb
    and the page directory) are zero here; they are set before they are used. *)

Definition thread_create (namelen : Z) : K Z :=
  t ← kalloc THREAD_SIZE;
  if t =? NULL then mret NULL
  else
    name ← kstrdup namelen;
    if name =? NULL then _ ← kfree_ t; mret NULL
    else
      _ ← put_thread t (Thread (PCB 0 0 0 NULL None) name NULL NULL [] NULL NULL 0 NULL);
      mret t.

Definition thread_destroy (t : Z) : K unit :=
  cur ← gets k_cur;
  _ ← asrt (negb (t =? cur));
  th ← get_thread t;
  _ ← asrt (t_vmspace th =? NULL);
  _ ← asrt (t_cwd th =? NULL);
  _ ← (if negb (t_stack th =? NULL) then kfree_ (t_stack th) else mret tt);
  _ ← (if negb (t_stack th =? NULL) then kfree_ (t_cwd th) else mret tt);
  _ ← kfree_ (t_name th);
  _ ← kfree_ t;
  modify (λ k, set_threads (delete t (k_threads k)) k).

Definition exorcise : K unit :=
  spl ← gets k_spl;
  _ ← asrt (spl >? 0);
  zs ← get_opt k_zombies;
  _ ← mfor (Z.to_nat (array_getnum zs)) 0 (λ i _,
        zs ← get_opt k_zombies;
        z ← lift (array_getguy zs i);
        cur ← gets k_cur;
        _ ← asrt (negb (z =? cur));
        thread_destroy z) tt;
  zs ← get_opt k_zombies;
  h ← gets k_heap;
  '(result, zs, h) ← lift (array_setsize zs 0 h);
  _ ← modify (set_heap h);
  _ ← modify (set_zombies (Some zs));
  asrt (result =? 0).

Definition thread_killall : K unit :=
  spl ← gets k_spl;
  _ ← asrt (spl >? 0);
  sl ← get_opt k_sleepers;
  _ ← mfor (Z.to_nat (array_getnum sl)) 0 (λ i _,
        sl ← get_opt k_sleepers;
        t ← lift (array_getguy sl i);
        _ ← get_thread t;              (* its name is printed *)
        mret tt) tt;
  h ← gets k_heap;
  '(result, sl, h) ← lift (array_setsize sl 0 h);
  _ ← modify (set_heap h);
  _ ← modify (set_sleepers (Some sl));
  asrt (result =? 0).

Definition thread_panic : K unit :=
  spl ← gets k_spl;
  _ ← asrt (spl >? 0);
  _ ← thread_killall;
  scheduler_killall.

Definition one_thread_only : K Z :=
  s ← k_splhigh;
  n ← gets k_num;
  _ ← k_splx s;
  mret (if n =? 1 then 1 else 0).

(** The name <boot/menu> has eleven characters. *)
Definition thread_bootstrap : K Z :=
  oa ← zoom k_heap set_heap array_create;
  match oa with
  | None => fault_ FPanic
  | Some sl =>
      _ ← modify (set_sleepers (Some sl));
      oz ← zoom k_heap set_heap array_create;
      match oz with
      | None => fault_ FPanic
      | Some zs =>
          _ ← modify (set_zombies (Some zs));
          me ← thread_create 11;
          if me =? NULL then fault_ FPanic
          else
            kstack ← gets k_kstack;
            _ ← upd_thread me (th_set_pcb (md_initpcb0 kstack));
            _ ← modify (set_cur me);
            _ ← modify (set_num 1);
            mret me
      end
  end.

Definition thread_shutdown : K unit :=
  sl ← get_opt k_sleepers;
  _ ← zoom k_heap set_heap (λ h, h' ← array_destroy sl h; mret (tt, h'));
  _ ← modify (set_sleepers None);
  zs ← get_opt k_zombies;
  _ ← zoom k_heap set_heap (λ h, h' ← array_destroy zs h; mret (tt, h'));
  modify (set_zombies None).

(** ** Context switch *)

Definition check_stack (t : Z) : K unit :=
  th ← get_thread t;
  if negb (t_stack th =? NULL) then asrt (bool_decide (t_magic th = STACK_MAGIC)) else mret tt.

(** Stash the outgoing thread on the list its next state calls for. *)
Definition stash (nextstate : threadstate) (cur : Z) : K Z :=
  match nextstate with
  | S_READY => make_runnable cur
  | S_SLEEP =>
      sl ← get_opt k_sleepers;
      h ← gets k_heap;
      '(r, sl, h) ← lift (array_add sl cur h);
      _ ← modify (set_heap h);
      _ ← modify (set_sleepers (Some sl));
      mret r
  | S_ZOMB =>
      zs ← get_opt k_zombies;
      h ← gets k_heap;
      '(r, zs, h) ← lift (array_add zs cur h);
      _ ← modify (set_heap h);
      _ ← modify (set_zombies (Some zs));
      mret r
  end.

(** From the call of [scheduler] on: with a thread to run, make it current, clear the
    TLB and switch.  With none, the processor idles with [curthread] NULL, and the
    scheduler looks again after the next interrupt. *)
Definition dispatch (cur : Z) : K unit :=
  next ← scheduler;
  match next with
  | None => mret tt
  | Some t =>
      _ ← modify (set_cur t);
      _ ← tlb_flush;
      md_switch cur t
  end.

Definition mi_switch (nextstate : threadstate) : K unit :=
  spl ← gets k_spl;
  _ ← asrt (spl >? 0);
  cur ← gets k_cur;
  if cur =? NULL then mret tt
  else
    _ ← check_stack cur;
    _ ← modify (set_cur NULL);
    result ← stash nextstate cur;
    _ ← asrt (result =? 0);
    dispatch cur.

(** What a thread that is switched to again does after [md_switch]. *)
Definition mi_switch_back : K unit :=
  _ ← exorcise;
  cur ← gets k_cur;
  th ← get_thread cur;
  if negb (t_vmspace th =? NULL) then as_activate (t_vmspace th) else mret tt.

(** ** Yield, sleep, wakeup and exit *)

(** Up to the switch; the resumed thread runs [mi_switch_back] and restores [spl]. *)
Definition thread_yield : K Z :=
  spl ← k_splhigh;
  _ ← get_opt k_sleepers;
  _ ← mi_switch S_READY;
  mret spl.

Definition thread_sleep (addr : Z) : K unit :=
  inint ← gets k_inint;
  _ ← asrt (inint =? 0);
  cur ← gets k_cur;
  _ ← upd_thread cur (th_set_sleepaddr addr);
  mi_switch S_SLEEP.

(** The end of [thread_sleep], in the resumed thread. *)
Definition thread_sleep_back : K unit :=
  _ ← mi_switch_back;
  cur ← gets k_cur;
  upd_thread cur (th_set_sleepaddr NULL).

(** The loop index does not move past an element that is removed. *)
Definition thread_wakeup (addr : Z) : K unit :=
  spl ← gets k_spl;
  _ ← asrt (spl >? 0);
  sl ← get_opt k_sleepers;
  mwhile (S (Z.to_nat (array_getnum sl))) (λ i,
    sl ← get_opt k_sleepers;
    if i <? array_getnum sl then
      t ← lift (array_getguy sl i);
      th ← get_thread t;
      if t_sleepaddr th =? addr then
        sl ← lift (array_remove sl i);
        _ ← modify (set_sleepers (Some sl));
        result ← make_runnable t;
        _ ← asrt (result =? 0);
        one ← gets k_cvone;
        if one =? 1 then mret (inr tt) else mret (inl i)
      else mret (inl (i + 1))
    else mret (inr tt)) 0.

Definition thread_hassleepers (addr : Z) : K Z :=
  spl ← gets k_spl;
  _ ← asrt (spl >? 0);
  sl ← get_opt k_sleepers;
  mwhile (S (Z.to_nat (array_getnum sl))) (λ i,
    sl ← get_opt k_sleepers;
    if i <? array_getnum sl then
      t ← lift (array_getguy sl i);
      th ← get_thread t;
      if t_sleepaddr th =? addr then mret (inr 1) else mret (inl (i + 1))
    else mret (inr 0)) 0.

(** Up to the switch; the thread does not come back. *)
Definition thread_exit : K unit :=
  cur ← gets k_cur;
  _ ← check_stack cur;
  _ ← k_splhigh;
  th ← get_thread cur;
  _ ← (if negb (t_vmspace th =? NULL) then
         _ ← upd_thread cur (th_set_vmspace NULL);
         as_destroy (t_vmspace th)
       else mret tt);
  th ← get_thread cur;
  _ ← (if negb (t_cwd th =? NULL) then
         _ ← VOP_DECREF (t_cwd th);
         upd_thread cur (th_set_cwd NULL)
       else mret tt);
  n ← gets k_num;
  _ ← asrt (n >? 0);
  _ ← modify (set_num (n - 1));
  mi_switch S_ZOMB.

(** A new thread starts here: it does not go through [mi_switch_back]. *)
Definition mi_threadstart : K unit :=
  cur ← gets k_cur;
  th ← get_thread cur;
  _ ← (if negb (t_vmspace th =? NULL) then as_activate (t_vmspace th) else mret tt);
  _ ← k_spl0;
  mret tt.
End thread.
