(* ===== verification/ThreadSpec.v ===== *)
(** * The thread system as a scheduler

    An abstract scheduler state says which thread runs, which are ready (in the order
    they will run), which sleep and which are dead; [srep] relates it to the globals of
    thread.c.  The routines of thread.c refine the operations of the abstract
    scheduler. *)

From S2P Require Import Prelude StateM Heap KArray KQueue KState Thread.

Record sched := Sched {
  s_cur : Z;           (* NULL when the processor idles *)
  s_ready : list Z;
  s_sleep : list Z;
  s_zomb : list Z;
}.

(** ** Abstract operations *)

Definition a_stash (st : threadstate) (t : Z) (s : sched) : sched :=
  match st with
  | S_READY => Sched (s_cur s) (s_ready s ++ [t]) (s_sleep s) (s_zomb s)
  | S_SLEEP => Sched (s_cur s) (s_ready s) (s_sleep s ++ [t]) (s_zomb s)
  | S_ZOMB => Sched (s_cur s) (s_ready s) (s_sleep s) (s_zomb s ++ [t])
  end.

Definition a_dispatch (s : sched) : sched :=
  match s_ready s with
  | [] => Sched NULL [] (s_sleep s) (s_zomb s)
  | t :: R => Sched t R (s_sleep s) (s_zomb s)
  end.

Definition a_switch (st : threadstate) (s : sched) : sched :=
  if s_cur s =? NULL then s
  else a_dispatch (a_stash st (s_cur s) (Sched NULL (s_ready s) (s_sleep s) (s_zomb s))).

(** The sleepers [p] selects become ready, in the order they went to sleep. *)
Definition a_wake_all (p : Z → bool) (s : sched) : sched :=
  Sched (s_cur s) (s_ready s ++ filter (λ t, p t = true) (s_sleep s))
        (filter (λ t, p t = false) (s_sleep s)) (s_zomb s).

(** The first of them only. *)
Fixpoint take_first (p : Z → bool) (l : list Z) : list Z * list Z :=
  match l with
  | [] => ([], [])
  | t :: l' => if p t then ([t], l') else let '(w, r) := take_first p l' in (w, t :: r)
  end.

Definition a_wake_one (p : Z → bool) (s : sched) : sched :=
  let '(w, r) := take_first p (s_sleep s) in
  Sched (s_cur s) (s_ready s ++ w) r (s_zomb s).

(** ** The representation *)

Section spec.
Context {H E : Type} `{KHeap H} `{ThreadEnv H E}.
Implicit Types (k : kst H E) (s : sched).

Definition cur_list (c : Z) : list Z := if c =? NULL then [] else [c].
Definition all_threads s : list Z := cur_list (s_cur s) ++ s_ready s ++ s_sleep s ++ s_zomb s.

Record srep k s : Prop := SRep {
  sr_cur : k_cur k = s_cur s;
  sr_runq : ∃ q, k_runq k = Some q ∧ queue_rep q (s_ready s);
  sr_sleep : ∃ a, k_sleepers k = Some a ∧ array_rep a (s_sleep s);
  sr_zomb : ∃ a, k_zombies k = Some a ∧ array_rep a (s_zomb s);
  sr_nodup : NoDup (all_threads s);
  sr_null : NULL ∉ s_ready s ++ s_sleep s ++ s_zomb s;
  sr_thr : ∀ t, t ∈ all_threads s ↔ is_Some (k_threads k !! t);
  sr_magic : ∀ t th, k_threads k !! t = Some th → t_stack th ≠ NULL → t_magic th = STACK_MAGIC;
  sr_tlb : length (k_tlb k) = 64%nat;
}.

(** [numthreads] counts the threads that are not dead. *)
Definition live_threads s : Z :=
  Z.of_nat (length (cur_list (s_cur s)) + length (s_ready s) + length (s_sleep s)).
Definition counted k s : Prop := k_num k = live_threads s.

(** Capacity reserved ahead of time by [thread_fork]: every thread counted in
    [numthreads] finds a place on the run queue and among the sleepers. *)
Definition room k : Prop :=
  (∀ q, k_runq k = Some q → k_num k < q_size q) ∧
  (∀ a, k_sleepers k = Some a → k_num k ≤ a_max a).

Definition zroom k : Prop := ∀ a, k_zombies k = Some a → a_num a < a_max a.

(** Threads up to the part [md_switch] saves in the pcb. *)
Definition strip (th : thread) : thread := th_set_pcb (PCB 0 0 0 NULL None) th.

(** Nothing but the scheduler's own data has changed. *)
Definition sched_only k k' : Prop :=
  k_heap k' = k_heap k ∧ strip <$> k_threads k' = strip <$> k_threads k ∧
  k_cvone k' = k_cvone k ∧ k_spl k' = k_spl k ∧
  k_sems k' = k_sems k ∧ k_locks k' = k_locks k ∧ k_cvs k' = k_cvs k ∧
  k_procs k' = k_procs k ∧ k_ptable k' = k_ptable k ∧ k_clock k' = k_clock k ∧
  k_env k' = k_env k.

Lemma sched_only_refl k : sched_only k k.
Proof. by unfold sched_only. Qed.

Lemma sched_only_trans k1 k2 k3 : sched_only k1 k2 → sched_only k2 k3 → sched_only k1 k3.
Proof. unfold sched_only. intros; destruct_and!; split_and!; congruence. Qed.

Lemma strip_lookup k k' t th' :
  strip <$> k_threads k' = strip <$> k_threads k → k_threads k' !! t = Some th' →
  ∃ th, k_threads k !! t = Some th ∧ strip th' = strip th.
Proof.
  intros Hs Ht. assert ((strip <$> k_threads k') !! t = Some (strip th')) as Hl
    by (by rewrite lookup_fmap, Ht).
  rewrite Hs, lookup_fmap in Hl. apply fmap_Some in Hl as (th & Hth & Heq). by exists th.
Qed.

Lemma strip_is_Some k k' t :
  strip <$> k_threads k' = strip <$> k_threads k →
  is_Some (k_threads k' !! t) ↔ is_Some (k_threads k !! t).
Proof.
  intros Hs. rewrite <- (fmap_is_Some strip (k_threads k' !! t)).
  rewrite <- (fmap_is_Some strip (k_threads k !! t)), <- !lookup_fmap. by rewrite Hs.
Qed.

Lemma put_same_strip k t th th' :
  k_threads k !! t = Some th → strip th' = strip th →
  strip <$> <[t := th']> (k_threads k) = strip <$> k_threads k.
Proof.
  intros Ht Hs. rewrite fmap_insert, Hs. apply insert_id. by rewrite lookup_fmap, Ht.
Qed.

(** The memory a queue or an array occupies. *)
Definition qcap (q : queue) : Z * Z * Z := (q_self q, q_dptr q, q_size q).
Definition acap (a : array) : Z * Z * Z := (a_self a, a_vptr a, a_max a).

(** ** The run queue *)

Lemma make_runnable_room k q R t :
  0 < k_spl k → k_runq k = Some q → queue_rep q R → zlen R + 1 < q_size q →
  wps (make_runnable t) k (λ r k', r = 0 ∧ ∃ q', k' = set_runq (Some q') k ∧
    queue_rep q' (R ++ [t]) ∧ qcap q' = qcap q).
Proof.
  intros Hspl Hq Hrep Hroom. unfold make_runnable. wps_step. unfold get_opt.
  unfold wps at 1. rewrite Hq, wp_ok. simpl. wps_step. rewrite wps_lift.
  assert (Hadd : wp (q_addtail q t (k_heap k)) (λ '(r, q1, h1),
    r = 0 ∧ h1 = k_heap k ∧ queue_rep q1 (R ++ [t]) ∧ q_self q1 = q_self q ∧
    q_dptr q1 = q_dptr q ∧ q_size q1 = q_size q ∧ q_nextread q1 = q_nextread q))
    by (by apply q_addtail_room).
  eapply wp_mono; [exact Hadd|]. intros [[r q1] h1] (-> & -> & Hr1 & Hse1 & Hd1 & Hs1 & _).
  wps_step. split; [done|]. exists q1. split_and!; [by destruct k|done|].
  unfold qcap. by rewrite Hse1, Hd1, Hs1.
Qed.

Lemma wps_get_opt {A} (f : kst H E → option A) k a Φ :
  f k = Some a → Φ a k → wps (get_opt f) k Φ.
Proof. intros Hf HΦ. unfold wps, get_opt. by rewrite Hf. Qed.

Lemma wps_get_thread k t th Φ :
  k_threads k !! t = Some th → Φ th k → wps (get_thread t) k Φ.
Proof. intros Hf HΦ. unfold wps, get_thread. by rewrite Hf. Qed.

Lemma wpp_get_opt {A} (f : kst H E → option A) k a Φ :
  f k = Some a → Φ a k → wpp (get_opt f) k Φ.
Proof. intros Hf HΦ. by apply wpp_of_wps, (wps_get_opt f k a). Qed.

Lemma wpp_get_thread k t th Φ :
  k_threads k !! t = Some th → Φ th k → wpp (get_thread t) k Φ.
Proof. intros Hf HΦ. by apply wpp_of_wps, (wps_get_thread k t th). Qed.

Lemma wpf_get_opt P {A} (f : kst H E → option A) k a Φ :
  f k = Some a → Φ a k → wpf P (get_opt f) k Φ.
Proof. intros Hf HΦ. by apply wpf_of_wps, (wps_get_opt f k a). Qed.

Lemma wpf_get_thread P k t th Φ :
  k_threads k !! t = Some th → Φ th k → wpf P (get_thread t) k Φ.
Proof. intros Hf HΦ. by apply wpf_of_wps, (wps_get_thread k t th). Qed.

Lemma tlb_flush_spec k :
  length (k_tlb k) = 64%nat →
  wps tlb_flush k (λ _ k', ∃ l, k' = set_tlb l k ∧ length l = 64%nat ∧
    ∀ i, (i < 64)%nat → l !! i = Some (TLBHI_INVALID (Z.of_nat i), TLBLO_INVALID)).
Proof.
  intros Hlen. unfold tlb_flush. apply (wps_mfor (λ j _ k', ∃ l, k' = set_tlb l k ∧ length l = 64%nat ∧
    ∀ i, Z.of_nat i < j → l !! i = Some (TLBHI_INVALID (Z.of_nat i), TLBLO_INVALID))).
  - exists (k_tlb k). split_and!; [by destruct k|done|]. intros i Hi. lia.
  - intros j [] k' Hj (l & -> & Hl & Hdone). unfold wps, TLB_Write. simpl.
    unfold setz. replace ((0 <=? j) && (j <? zlen l)) with true by (unfold NUM_TLB in *; lia).
    rewrite wp_ok. simpl. eexists. split_and!; [done|by rewrite length_insert|].
    intros i Hi. destruct (decide (i = Z.to_nat j)) as [->|Hne].
    + rewrite list_lookup_insert_eq by (unfold NUM_TLB in *; lia). by rewrite Z2Nat.id by lia.
    + rewrite list_lookup_insert_ne by done. apply Hdone. lia.
  - intros [] k' (l & -> & Hl & Hdone). exists l. split_and!; [done|done|].
    intros i Hi. apply Hdone. unfold NUM_TLB. lia.
Qed.

(** ** Context switch *)

Definition caps k : option (Z * Z * Z) * option (Z * Z * Z) * option (Z * Z * Z) :=
  (qcap <$> k_runq k, acap <$> k_sleepers k, acap <$> k_zombies k).

Definition stash_room (st : threadstate) k s : Prop :=
  match st with
  | S_READY => ∀ q, k_runq k = Some q → zlen (s_ready s) + 1 < q_size q
  | S_SLEEP => ∀ a, k_sleepers k = Some a → zlen (s_sleep s) < a_max a
  | S_ZOMB => ∀ a, k_zombies k = Some a → zlen (s_zomb s) < a_max a
  end.

Lemma room_stash k s st :
  room k → counted k s → s_cur s ≠ NULL → st ≠ S_ZOMB → stash_room st k s.
Proof.
  intros [Hq Ha] Hc Hcur Hst. unfold counted, live_threads, cur_list in Hc.
  replace (s_cur s =? NULL) with false in Hc by lia. simpl in Hc.
  destruct st; simpl; [|intros a Ea|done].
  - intros q Eq. specialize (Hq q Eq). lia.
  - specialize (Ha a Ea). lia.
Qed.

Definition stashed k k' : Prop :=
  sched_only k k' ∧ caps k' = caps k ∧ k_num k' = k_num k ∧ k_tlb k' = k_tlb k ∧
  k_threads k' = k_threads k ∧ k_inint k' = k_inint k.

Lemma stash_spec st t k s :
  (∃ q, k_runq k = Some q ∧ queue_rep q (s_ready s)) →
  (∃ a, k_sleepers k = Some a ∧ array_rep a (s_sleep s)) →
  (∃ a, k_zombies k = Some a ∧ array_rep a (s_zomb s)) →
  0 < k_spl k → stash_room st k s →
  wps (stash st t) k (λ r k', r = 0 ∧ stashed k k' ∧ k_cur k' = k_cur k ∧
    (∃ q, k_runq k' = Some q ∧ queue_rep q (s_ready (a_stash st t s))) ∧
    (∃ a, k_sleepers k' = Some a ∧ array_rep a (s_sleep (a_stash st t s))) ∧
    (∃ a, k_zombies k' = Some a ∧ array_rep a (s_zomb (a_stash st t s)))).
Proof.
  intros (q & Hq & Hqr) (a & Ha & Har) (z & Hz & Hzr) Hspl Hroom.
  destruct st; simpl in *.
  - eapply wps_mono; [apply (make_runnable_room k q (s_ready s) t); [done..|by apply Hroom]|].
    intros r k' (-> & q' & -> & Hq' & Hsz). split; [done|].
    unfold stashed, sched_only, caps; simpl. rewrite Hq; simpl. rewrite Hsz.
    split_and!; try done; eauto.
  - wps_step. eapply wps_get_opt; [done|]. wps_step. rewrite wps_lift.
    eapply wp_mono; [apply (array_add_room a (s_sleep s)); [done|]|].
    { rewrite (proj1 Har). by apply Hroom. }
    intros [[r a'] h'] (-> & -> & Har' & Hse & Hvp & Hmax). wps_step. split; [done|].
    unfold stashed, sched_only, caps, acap; simpl. rewrite Ha; simpl. rewrite Hse, Hvp, Hmax. split_and!; eauto.
  - wps_step. eapply wps_get_opt; [done|]. wps_step. rewrite wps_lift.
    eapply wp_mono; [apply (array_add_room z (s_zomb s)); [done|]|].
    { rewrite (proj1 Hzr). by apply Hroom. }
    intros [[r a'] h'] (-> & -> & Har' & Hse & Hvp & Hmax). wps_step. split; [done|].
    unfold stashed, sched_only, caps, acap; simpl. rewrite Hz; simpl. rewrite Hse, Hvp, Hmax. split_and!; eauto.
Qed.

(** [in_interrupt] is per thread: [f] is its value for each thread, kept in the pcb
    for all but the one whose context [c] the processor is in. *)
Definition inint_ok k (f : Z → Z) (c : Z) : Prop :=
  k_inint k = f c ∧
  ∀ t th, k_threads k !! t = Some th → t ≠ c → pcb_ininterrupt (t_pcb th) = f t.

Lemma md_switch_spec old nu k tho thn :
  k_threads k !! old = Some tho → k_threads k !! nu = Some thn →
  wps (md_switch old nu) k (λ _ k', sched_only k k' ∧ caps k' = caps k ∧ k_num k' = k_num k ∧
    k_tlb k' = k_tlb k ∧ k_cur k' = k_cur k ∧ k_runq k' = k_runq k ∧
    k_sleepers k' = k_sleepers k ∧ k_zombies k' = k_zombies k ∧
    ∀ f, inint_ok k f old → inint_ok k' f nu).
Proof.
  intros Ho Hn. unfold md_switch. destruct (old =? nu) eqn:Eon.
  { wps_step. apply Z.eqb_eq in Eon as ->. by split_and!. }
  wps_step. eapply wps_get_thread; [done|]. unfold put_thread. wps_step.
  eapply wps_get_thread; [simpl; by rewrite lookup_insert_ne by lia|]. wps_step.
  unfold sched_only, caps; simpl. split_and!; try done; [by eapply put_same_strip|].
  intros f [Hf Hr]. split; simpl; [apply Hr; [done|lia]|].
  intros t th Ht Hne. apply lookup_insert_Some in Ht as [[<- <-]|[Hno Ht]]; simpl; [done|].
  apply Hr; [done|congruence].
Qed.

Lemma scheduler_spec k s :
  srep k s → 0 < k_spl k →
  wps scheduler k (λ o k', ∃ q', k' = set_runq (Some q') k ∧ qcap <$> k_runq k = Some (qcap q') ∧
    o = head (s_ready s) ∧ queue_rep q' (tail (s_ready s))).
Proof.
  intros [_ (q & Hq & Hqr) _ _ _ _ _ _ _] Hspl. unfold scheduler. wps_step.
  eapply wps_get_opt; [done|]. rewrite (q_empty_rep _ _ Hqr).
  destruct (s_ready s) as [|t R] eqn:ER.
  - rewrite bool_decide_true by done. wps_step. exists q. rewrite Hq. split_and!; try done.
    unfold set_runq. rewrite <- Hq. by destruct k.
  - rewrite bool_decide_false by done. wps_step. rewrite wps_lift.
    eapply wp_mono; [by apply q_remhead_spec|].
    intros [y q'] (-> & Hqr' & Hse & Hdp & Hsz). wps_step. exists q'. rewrite Hq. simpl.
    unfold qcap. rewrite Hse, Hdp, Hsz. by split_and!.
Qed.

(** Moving threads between the lists keeps the representation. *)
Lemma srep_move k k' s s' :
  srep k s → k_cur k' = s_cur s' →
  (∃ q, k_runq k' = Some q ∧ queue_rep q (s_ready s')) →
  (∃ a, k_sleepers k' = Some a ∧ array_rep a (s_sleep s')) →
  (∃ a, k_zombies k' = Some a ∧ array_rep a (s_zomb s')) →
  all_threads s' ≡ₚ all_threads s → NULL ∉ s_ready s' ++ s_sleep s' ++ s_zomb s' →
  strip <$> k_threads k' = strip <$> k_threads k → length (k_tlb k') = 64%nat →
  srep k' s'.
Proof.
  intros [] Hcur Hq Ha Hz Hperm Hnull Hthr Htlb. constructor; try done.
  - by rewrite Hperm.
  - intros t. rewrite Hperm, sr_thr0. symmetry. by apply strip_is_Some.
  - intros t th Ht Hst. destruct (strip_lookup _ _ _ _ Hthr Ht) as (th0 & Ht0 & Heq).
    assert (t_magic th = t_magic th0 ∧ t_stack th = t_stack th0) as [-> Hs].
    { split; [apply (f_equal t_magic) in Heq|apply (f_equal t_stack) in Heq]; done. }
    eapply sr_magic0; [done|congruence].
Qed.

Lemma dispatch_spec k s old :
  srep k s → 0 < k_spl k → s_cur s = NULL → is_Some (k_threads k !! old) →
  wps (dispatch old) k (λ _ k', srep k' (a_dispatch s) ∧ sched_only k k' ∧ caps k' = caps k ∧
    k_num k' = k_num k ∧
    ∀ f, inint_ok k f old → inint_ok k' f (if k_cur k' =? NULL then old else k_cur k')).
Proof.
  intros Hrep Hspl Hnull [tho Hold]. unfold dispatch. wps_call scheduler_spec; [done|done|].
  intros o k1 (q' & -> & Hsz & -> & Hqr). 
  assert (Hcaps : caps (set_runq (Some q') k) = caps k) by (unfold caps; simpl; by rewrite <- Hsz).
  assert (Hso : sched_only k (set_runq (Some q') k)) by done.
  pose proof Hrep as [Hcur _ Hsl Hzo Hnd Hnn Hthr _ Htlb]. unfold a_dispatch.
  destruct (s_ready s) as [|t R] eqn:ER; simpl.
  - wps_step. simpl. rewrite Hcur, Hnull. split_and!; try done.
    eapply (srep_move k _ s); try done; simpl; eauto.
    + by rewrite Hcur, Hnull.
    + unfold all_threads, cur_list; simpl. by rewrite Hnull, ER.
  - wps_step. wps_call tlb_flush_spec; [done|]. intros [] k2 (l & -> & Hl & _).
    assert (is_Some (k_threads k !! t)) as [tht Ht].
    { apply Hthr. unfold all_threads. rewrite ER. set_solver. }
    eapply wps_mono; [by eapply md_switch_spec|]. intros [] k3 (Hso3 & Hcap3 & Hn3 & Ht3 & Hc3 & Hq3 & Hs3 & Hz3 & Hii3).
    assert (Htn : (t =? NULL) = false) by (apply Z.eqb_neq; set_solver).
    split_and!; try done.
    + eapply (srep_move k _ s); try done; simpl.
      * rewrite Hq3. simpl. eauto.
      * by rewrite Hs3.
      * by rewrite Hz3.
      * unfold all_threads, cur_list; simpl. rewrite Hnull, ER. simpl.
        by rewrite Htn.
      * set_solver.
      * by destruct Hso3 as (_ & -> & _).
      * by rewrite Ht3.
    + by rewrite Hcap3.
    + rewrite Hc3. simpl. rewrite Htn. intros f Hf. by apply Hii3.
Qed.

Lemma stash_perm st c s :
  c ≠ NULL → s_cur s = NULL →
  all_threads (a_stash st c s) ≡ₚ c :: all_threads s.
Proof.
  intros Hc Hn. unfold all_threads, cur_list. destruct st; simpl; rewrite Hn; simpl.
  - rewrite <- app_assoc. symmetry. apply Permutation_middle.
  - rewrite <- (app_assoc (s_sleep s)). simpl.
    by rewrite app_assoc, <- Permutation_middle, <- app_assoc.
  - rewrite !app_assoc. symmetry. apply Permutation_cons_append.
Qed.

Lemma check_stack_spec k s t :
  srep k s → t ∈ all_threads s → wps (check_stack t) k (λ _ k', k' = k).
Proof.
  intros Hrep Ht. apply (sr_thr _ _ Hrep) in Ht as [th Hth]. unfold check_stack. wps_step.
  eapply wps_get_thread; [done|]. destruct (t_stack th =? NULL) eqn:Est; simpl; wps_step; [done|].
  rewrite wps_asrt. split; [|done]. apply bool_decide_eq_true.
  eapply (sr_magic _ _ Hrep); [done|lia].
Qed.

(** [mi_switch] does what the abstract scheduler does. *)
Lemma mi_switch_spec st k s :
  srep k s → 0 < k_spl k → s_cur s ≠ NULL → stash_room st k s →
  wps (mi_switch st) k (λ _ k', srep k' (a_switch st s) ∧ sched_only k k' ∧ caps k' = caps k ∧
    k_num k' = k_num k ∧
    ∀ f, inint_ok k f (s_cur s) →
         inint_ok k' f (if k_cur k' =? NULL then s_cur s else k_cur k')).
Proof.
  intros Hrep Hspl Hcur Hroom. pose proof Hrep as [Hc Hq Hsl Hzo Hnd Hnn Hthr _ Htlb].
  unfold mi_switch. wps_step. rewrite Hc. replace (s_cur s =? NULL) with false by lia.
  assert (s_cur s ∈ all_threads s) as Hin.
  { unfold all_threads, cur_list. replace (s_cur s =? NULL) with false by lia. set_solver. }
  wps_call check_stack_spec; [done|done|]. intros [] k0 ->. wps_step.
  set (s0 := Sched NULL (s_ready s) (s_sleep s) (s_zomb s)).
  wps_call (stash_spec st (s_cur s) (set_cur NULL k) s0); [done|done|done|done|by destruct st|].
  intros r k1 (-> & (Hso & Hcap & Hn & Ht & Hthr1 & Hii1) & Hc1 & Hq1 & Hs1 & Hz1). wps_step.
  assert (Hperm : all_threads (a_stash st (s_cur s) s0) ≡ₚ all_threads s).
  { rewrite stash_perm by done. unfold all_threads, cur_list.
    by replace (s_cur s =? NULL) with false by lia. }
  assert (Hrep1 : srep k1 (a_stash st (s_cur s) s0)).
  { eapply (srep_move k k1 s); try done.
    - rewrite Hc1. by destruct st.
    - pose proof Hperm as Hp. rewrite stash_perm in Hp by done.
      intros Hin0. assert (NULL ∈ all_threads (a_stash st (s_cur s) s0)) as Hin1.
      { unfold all_threads. apply elem_of_app. by right. }
      rewrite Hperm in Hin1. unfold all_threads, cur_list in Hin1.
      replace (s_cur s =? NULL) with false in Hin1 by lia.
      apply elem_of_app in Hin1 as [Hin1%list_elem_of_singleton|Hin1]; [by symmetry in Hin1|done].
    - by rewrite Hthr1.
    - by rewrite Ht. }
  assert (k_spl k1 = k_spl k) as Hspl1 by (by destruct Hso as (_ & _ & _ & -> & _)).
  eapply wps_mono; [apply (dispatch_spec k1 _ (s_cur s) Hrep1)|].
  - by rewrite Hspl1.
  - by destruct st.
  - rewrite Hthr1. simpl. by apply Hthr.
  - intros [] k2 (Hrep2 & Hso2 & Hcap2 & Hn2 & Hii2). unfold a_switch.
    replace (s_cur s =? NULL) with false by lia.
    split_and!; [done| |by rewrite Hcap2, Hcap|by rewrite Hn2, Hn|].
    + eapply sched_only_trans; [|done]. done.
    + intros f Hf. apply Hii2. destruct Hf as [Hf1 Hf2]. unfold inint_ok.
      rewrite Hii1, Hthr1. by split.
Qed.

(** ** Wakeup *)

Definition sleeps_on k (addr t : Z) : bool :=
  match k_threads k !! t with Some th => t_sleepaddr th =? addr | None => false end.

Lemma take_first_none p l : (∀ t, t ∈ l → p t = false) → take_first p l = ([], l).
Proof.
  induction l as [|t l IH]; [done|]. intros Hl. simpl. rewrite (Hl t) by constructor.
  rewrite IH; [done|]. intros u Hu. apply Hl. by constructor.
Qed.

Lemma take_first_at p l1 t l2 :
  (∀ u, u ∈ l1 → p u = false) → p t = true → take_first p (l1 ++ t :: l2) = ([t], l1 ++ l2).
Proof.
  intros Hl Ht. induction l1 as [|u l1 IH]; simpl; [by rewrite Ht|].
  rewrite (Hl u) by constructor. rewrite IH; [done|]. intros v Hv. apply Hl. by constructor.
Qed.

Lemma take_first_perm p l w r : take_first p l = (w, r) → w ++ r ≡ₚ l.
Proof.
  revert w r. induction l as [|t l IH]; intros w r Ef; simplify_eq/=; [done|].
  destruct (p t); simplify_eq/=; [done|].
  destruct (take_first p l) as [w' r'] eqn:Ef'; simplify_eq/=.
  by rewrite <- Permutation_middle, (IH _ _ eq_refl).
Qed.

Lemma split_perm (p : Z → bool) (l : list Z) :
  filter (λ t, p t = true) l ++ filter (λ t, p t = false) l ≡ₚ l.
Proof.
  induction l as [|t l IH]; [done|]. rewrite !filter_cons. destruct (p t); simpl.
  - by rewrite IH.
  - by rewrite <- Permutation_middle, IH.
Qed.

Definition a_wake (one : bool) (p : Z → bool) s : sched :=
  if one then a_wake_one p s else a_wake_all p s.

Lemma a_wake_perm one p s : all_threads (a_wake one p s) ≡ₚ all_threads s.
Proof.
  assert (Hgo : ∀ w r, w ++ r ≡ₚ s_sleep s →
    all_threads (Sched (s_cur s) (s_ready s ++ w) r (s_zomb s)) ≡ₚ all_threads s).
  { intros w r Hp. unfold all_threads; simpl.
    by rewrite <- (app_assoc (s_ready s) w), (app_assoc w r), Hp. }
  destruct one; simpl; [|apply Hgo, split_perm].
  unfold a_wake_one. destruct (take_first p (s_sleep s)) as [w r] eqn:Ef. apply Hgo.
  by eapply take_first_perm.
Qed.

(** [thread_wakeup] with [done] of the sleepers looked at. *)
Definition wake_loop_inv k s (p : Z → bool) (one : bool) (n : nat) (i : Z) k' : Prop :=
  ∃ done rest, s_sleep s = done ++ rest ∧ n = length rest ∧
    i = zlen (filter (λ t, p t = false) done) ∧ stashed k k' ∧ k_cur k' = k_cur k ∧
    k_zombies k' = k_zombies k ∧
    (one = true → filter (λ t, p t = true) done = []) ∧
    (∃ q, k_runq k' = Some q ∧ queue_rep q (s_ready s ++ filter (λ t, p t = true) done)) ∧
    (∃ a, k_sleepers k' = Some a ∧ array_rep a (filter (λ t, p t = false) done ++ rest)).

Lemma stashed_trans k1 k2 k3 : stashed k1 k2 → stashed k2 k3 → stashed k1 k3.
Proof.
  intros (Ha & Hb & Hc & Hd & He & Hf) (Ha' & Hb' & Hc' & Hd' & He' & Hf').
  split; [by eapply sched_only_trans|]. split_and!; congruence.
Qed.

Lemma filter_bool_length (p : Z → bool) l :
  (length (filter (λ t, p t = true) l) + length (filter (λ t, p t = false) l) = length l)%nat.
Proof. rewrite <- length_app. by rewrite split_perm. Qed.

Lemma wake_final k k1 s p one w r :
  srep k s → stashed k k1 → k_cur k1 = k_cur k → k_zombies k1 = k_zombies k →
  a_wake one p s = Sched (s_cur s) (s_ready s ++ w) r (s_zomb s) →
  (∃ q, k_runq k1 = Some q ∧ queue_rep q (s_ready s ++ w)) →
  (∃ a, k_sleepers k1 = Some a ∧ array_rep a r) →
  srep k1 (a_wake one p s).
Proof.
  intros Hrep (Hso & _ & _ & Ht & _) Hc Hz Hw Hq Ha. pose proof (a_wake_perm one p s) as Hperm.
  pose proof Hrep as [Hcur _ _ Hzo _ Hnn _ _ Htlb].
  eapply (srep_move k k1 s); rewrite ?Hw; try done; simpl.
  - by rewrite Hc.
  - by rewrite Hz.
  - by rewrite <- Hw.
  - rewrite Hw in Hperm. unfold all_threads in Hperm; simpl in Hperm.
    apply (Permutation_app_inv_l (cur_list (s_cur s))) in Hperm. by rewrite Hperm.
  - by destruct Hso as (_ & -> & _).
  - by rewrite Ht.
Qed.

Lemma filter_true_nil (p : Z → bool) l :
  filter (λ t, p t = true) l = [] → filter (λ t, p t = false) l = l ∧ ∀ t, t ∈ l → p t = false.
Proof.
  intros Hnil.
  assert (Hall : ∀ t, t ∈ l → p t = false).
  { intros t Ht. destruct (p t) eqn:Ep; [|done].
    assert (t ∈ filter (λ t, p t = true) l) as Hin by (by apply list_elem_of_filter).
    rewrite Hnil in Hin. by apply not_elem_of_nil in Hin. }
  split; [|done]. clear Hnil. induction l as [|t l IH]; [done|].
  rewrite filter_cons_True by (apply Hall; by constructor). f_equal. apply IH.
  intros u Hu. apply Hall. by constructor.
Qed.

Lemma filter_snoc_bool (p : Z → bool) l t b :
  filter (λ u, p u = b) (l ++ [t]) =
    filter (λ u, p u = b) l ++ (if bool_decide (p t = b) then [t] else []).
Proof.
  rewrite filter_app, filter_cons, filter_nil. by destruct (p t), b.
Qed.

(** The sleeper looked at sleeps on [addr]: it becomes ready. *)
Lemma wake_one_step k s p one k1 dn t rest q1 a1 i :
  srep k s → 0 < k_spl k → s_sleep s = dn ++ t :: rest → p t = true →
  i = zlen (filter (λ t, p t = false) dn) → stashed k k1 → k_cur k1 = k_cur k →
  k_zombies k1 = k_zombies k →
  (one = true → filter (λ t, p t = true) dn = []) → one = (k_cvone k =? 1) →
  k_runq k1 = Some q1 → queue_rep q1 (s_ready s ++ filter (λ t, p t = true) dn) →
  zlen (s_ready s) + zlen (s_sleep s) < q_size q1 →
  array_rep a1 (filter (λ t, p t = false) dn ++ t :: rest) → k_sleepers k1 = Some a1 →
  wps (sl ← lift (array_remove a1 i);
       _ ← modify (set_sleepers (Some sl));
       result ← make_runnable t;
       _ ← asrt (result =? 0);
       one ← gets k_cvone;
       if one =? 1 then mret (inr tt) else mret (inl i)) k1 (λ r k',
    match r with
    | inl y => ∃ n', (n' < length (t :: rest))%nat ∧ wake_loop_inv k s p one n' y k'
    | inr _ => srep k' (a_wake one p s) ∧ stashed k k'
    end).
Proof.
  intros Hrep Hspl HS Hpt -> Hst Hcur Hzom Hone Hone' Hq1 Hqr1 Hsz Har1 Ha1.
  pose proof Hst as (Hso & Hcap & Hn & Htl & Hth & _). pose proof (filter_bool_length p dn) as Hfl.
  rewrite wps_bind, wps_lift. eapply wp_mono; [apply array_remove_spec; [done|]|].
  { rewrite length_app. simpl. lia. }
  intros a2 (Har2 & Hse2 & Hvp2 & Hmax2). rewrite Nat2Z.id in Har2.
  rewrite delete_middle in Har2. wps_step.
  wps_call (make_runnable_room (set_sleepers (Some a2) k1) q1); [|done|done| |].
  { simpl. by destruct Hso as (_ & _ & _ & -> & _). }
  { rewrite HS, !length_app in Hsz. rewrite length_app. simpl in Hsz. lia. }
  intros r k2 (-> & q2 & -> & Hqr2 & Hsz2). wps_step.
  assert (Hst2 : stashed k (set_runq (Some q2) (set_sleepers (Some a2) k1))).
  { eapply stashed_trans; [exact Hst|]. unfold stashed, caps, sched_only; simpl.
    rewrite Hq1, Ha1. simpl. unfold acap. rewrite Hsz2, Hse2, Hvp2, Hmax2. by split_and!. }
  simpl. replace (k_cvone k1) with (k_cvone k) by (by destruct Hso as (_ & _ & -> & _)).
  rewrite <- Hone', <- app_assoc in *. destruct one.
  - wps_step. split; [|done]. specialize (Hone eq_refl).
    destruct (filter_true_nil p dn Hone) as [Hfd Hall].
    eapply (wake_final k _ s p true [t] (dn ++ rest)); try done.
    + simpl. unfold a_wake_one. by rewrite HS, take_first_at.
    + simpl. rewrite Hone in Hqr2. eauto.
    + simpl. rewrite Hfd in Har2. eauto.
  - wps_step. exists (length rest). split; [simpl; lia|].
    exists (dn ++ [t]), rest.
    rewrite (filter_snoc_bool p dn t true), (filter_snoc_bool p dn t false), Hpt. simpl.
    rewrite app_nil_r, <- !app_assoc. simpl. split_and!; try done; eauto.
Qed.

Lemma thread_wakeup_spec addr k s :
  srep k s → 0 < k_spl k →
  (∀ q, k_runq k = Some q → zlen (s_ready s) + zlen (s_sleep s) < q_size q) →
  wps (thread_wakeup addr) k (λ _ k',
    srep k' (a_wake (k_cvone k =? 1) (sleeps_on k addr) s) ∧ stashed k k').
Proof.
  intros Hrep Hspl Hroom. pose proof Hrep as [Hc (q & Hq & Hqr) (a & Ha & Har) Hzo Hnd Hnn Hthr _ Htlb].
  unfold thread_wakeup. wps_step. eapply wps_get_opt; [done|].
  set (p := sleeps_on k addr). set (one := k_cvone k =? 1).
  apply (wps_mwhile (wake_loop_inv k s p one) _ (length (s_sleep s))).
  - exists [], (s_sleep s). rewrite app_nil_r. split_and!; try done; eauto.
  - unfold array_getnum. rewrite (proj1 Har). lia.
  - intros n i k1 (dn & rest & HS & -> & -> & Hst & Hcur & Hzom & Hone & (q1 & Hq1 & Hqr1) & (a1 & Ha1 & Har1)).
    wps_step. eapply wps_get_opt; [done|].
    pose proof (filter_bool_length p dn) as Hfl. pose proof Hst as (Hso & Hcap & Hn & Htl & Hth & _).
    unfold array_getnum. rewrite (proj1 Har1), length_app. destruct rest as [|t rest]; simpl.
    + replace (_ <? _) with false by lia. wps_step. split; [|done].
      rewrite app_nil_r in HS, Har1. subst dn.
      eapply (wake_final k k1 s p one (filter (λ t, p t = true) (s_sleep s))
                (filter (λ t, p t = false) (s_sleep s))); try done; eauto.
      unfold a_wake. destruct one; [|done]. specialize (Hone eq_refl).
      destruct (filter_true_nil p _ Hone) as [-> Hall]. rewrite Hone. unfold a_wake_one.
      by rewrite take_first_none.
    + replace (_ <? _) with true by lia.
      assert (t ∈ all_threads s) as [th Hth0]%Hthr.
      { unfold all_threads. rewrite HS. set_solver. }
      rewrite wps_bind, wps_lift.
      eapply wp_of_eq; [apply (array_getguy_spec _ _ _ t Har1); [lia|]|].
      { rewrite Nat2Z.id. by rewrite list_lookup_middle. }
      rewrite wps_bind. eapply wps_get_thread; [by rewrite Hth|].
      destruct (t_sleepaddr th =? addr) eqn:Et.
      * eapply (wake_one_step k s p one k1 dn t rest q1 a1); try done.
        -- unfold p, sleeps_on. by rewrite Hth0.
        -- unfold caps in Hcap. rewrite Hq, Hq1 in Hcap. simpl in Hcap.
           replace (q_size q1) with (q_size q) by (unfold qcap in Hcap; congruence). by apply Hroom.
      * wps_step. exists (length rest). split; [lia|]. exists (dn ++ [t]), rest.
        assert (p t = false) as Hpt by (unfold p, sleeps_on; by rewrite Hth0).
        rewrite (filter_snoc_bool p dn t true), (filter_snoc_bool p dn t false), Hpt. simpl.
        rewrite app_nil_r, <- !app_assoc, length_app. simpl. split_and!; try done; eauto. lia.
Qed.

Lemma thread_hassleepers_spec addr k s :
  srep k s → 0 < k_spl k →
  wps (thread_hassleepers addr) k (λ r k', k' = k ∧
    r = if bool_decide (Exists (λ t, sleeps_on k addr t = true) (s_sleep s)) then 1 else 0).
Proof.
  intros Hrep Hspl. pose proof Hrep as [_ _ (a & Ha & Har) _ _ _ Hthr _ _].
  unfold thread_hassleepers. wps_step. eapply wps_get_opt; [done|].
  apply (wps_mwhile (λ n i k', k' = k ∧ ∃ dn rest, s_sleep s = dn ++ rest ∧ n = length rest ∧
    i = zlen dn ∧ Forall (λ t, sleeps_on k addr t = false) dn) _ (length (s_sleep s))).
  - split; [done|]. by exists [], (s_sleep s).
  - unfold array_getnum. rewrite (proj1 Har). lia.
  - intros n i k1 (-> & dn & rest & HS & -> & -> & Hdn). wps_step. eapply wps_get_opt; [done|].
    unfold array_getnum. rewrite (proj1 Har), HS, length_app. destruct rest as [|t rest]; simpl.
    + replace (_ <? _) with false by lia. wps_step. split; [done|]. rewrite bool_decide_false; [done|].
      rewrite app_nil_r. intros (t & Ht & Hs)%Exists_exists. rewrite Forall_forall in Hdn.
      rewrite Hdn in Hs; done.
    + replace (_ <? _) with true by lia.
      assert (t ∈ all_threads s) as [th Hth0]%Hthr.
      { unfold all_threads. rewrite HS. set_solver. }
      rewrite wps_bind, wps_lift.
      eapply wp_of_eq; [apply (array_getguy_spec _ _ _ t Har); [lia|]|].
      { rewrite Nat2Z.id, HS. by rewrite list_lookup_middle. }
      rewrite wps_bind. eapply wps_get_thread; [done|].
      assert (Hso : sleeps_on k addr t = (t_sleepaddr th =? addr)) by (unfold sleeps_on; by rewrite Hth0).
      destruct (t_sleepaddr th =? addr) eqn:Et; wps_step.
      * split; [done|]. rewrite bool_decide_true; [done|].
        apply Exists_exists. exists t. split; [set_solver|done].
      * exists (length rest). split; [lia|]. split; [done|]. exists (dn ++ [t]), rest.
        rewrite <- app_assoc, length_app. split_and!; try done; [simpl; lia|].
        apply Forall_app. by repeat constructor.
Qed.
End spec.
