(* ===== verification/ThreadHeap.v ===== *)
(** * Memory of the thread system

    Which heap blocks the thread system owns, and that creating, destroying and
    exorcising threads allocates and frees exactly those. *)

From S2P Require Import Prelude StateM Heap KArray KQueue KState Thread ThreadSpec.

Section mem.
Context {H E : Type} `{KHeapLaws H} `{!ThreadEnv H E}.
Implicit Types (k : kst H E) (s : sched).

Definition thread_blocks (t : Z) (th : thread) : list Z :=
  t :: t_name th :: (if t_stack th =? NULL then [] else [t_stack th]).

Definition blocks_of k (t : Z) : list Z :=
  match k_threads k !! t with Some th => thread_blocks t th | None => [] end.

Definition thr_blocks k (l : list Z) : list Z := l ≫= blocks_of k.

Lemma wps_kfree k p :
  kh_inv (k_heap k) → p ∈ kh_live (k_heap k) →
  wps (kfree_ p) k (λ _ k', ∃ h', k' = set_heap h' k ∧ kh_inv h' ∧
    kh_live h' = kh_live (k_heap k) ∖ {[p]}).
Proof.
  intros Hi Hp. unfold kfree_. rewrite wps_zoom. wp_call kfree_law; [done|done|].
  intros h' [Hi' Hl']. wp_val. by exists h'.
Qed.

Lemma wps_kfree_null k : kh_inv (k_heap k) → wps (kfree_ NULL) k (λ _ k', k' = k).
Proof.
  intros Hi. unfold kfree_. rewrite wps_zoom, (kfree_null _ Hi). simpl. wp_val. by destruct k.
Qed.

Lemma wps_kalloc k sz :
  kh_inv (k_heap k) → 0 ≤ sz < kh_max →
  wps (kalloc sz) k (λ p k', ∃ h', k' = set_heap h' k ∧ kh_inv h' ∧
    ((p = NULL ∧ kh_live h' = kh_live (k_heap k)) ∨
     (p ≠ NULL ∧ p ∉ kh_live (k_heap k) ∧ kh_live h' = {[p]} ∪ kh_live (k_heap k)))).
Proof.
  intros Hi Hs. unfold kalloc. rewrite wps_zoom. eapply wp_mono; [by apply kmalloc_law|].
  intros [p h'] [Hi' Hl']. by exists h'.
Qed.

Lemma wps_kalloc_full k sz :
  kh_inv (k_heap k) → 0 ≤ sz < kh_max →
  wps (kalloc sz) k (λ p k', ∃ h', k' = set_heap h' k ∧ kh_inv h' ∧
    ((p = NULL ∧ kh_live h' = kh_live (k_heap k)) ∨
     (p ≠ NULL ∧ p ∉ kh_live (k_heap k) ∧ kh_live h' = {[p]} ∪ kh_live (k_heap k))) ∧
    rooms 1 (k_heap k) (p ≠ NULL) h').
Proof.
  intros Hi Hs. unfold kalloc. rewrite wps_zoom. eapply wp_mono; [by apply kmalloc_full|].
  intros [p h'] [[Hi' Hl'] Hr]. by exists h'.
Qed.

(** [thread_create]: a thread with two fresh blocks, or nothing. *)
Lemma thread_create_spec k len :
  kh_inv (k_heap k) → THREAD_SIZE < kh_max → 0 ≤ len → len + 1 < kh_max →
  wps (thread_create len) k (λ t k', kh_inv (k_heap k') ∧
    ((t = NULL ∧ kh_live (k_heap k') = kh_live (k_heap k) ∧ ∃ h', k' = set_heap h' k) ∨
     (t ≠ NULL ∧ ∃ name h', t ≠ name ∧ t ∉ kh_live (k_heap k) ∧ name ∉ kh_live (k_heap k) ∧
        kh_live h' = {[t; name]} ∪ kh_live (k_heap k) ∧
        k' = set_threads (<[t := Thread (PCB 0 0 0 NULL None) name NULL NULL [] NULL NULL 0 NULL]>
                            (k_threads k)) (set_heap h' k))) ∧
    rooms 2 (k_heap k) (t ≠ NULL) (k_heap k')).
Proof.
  intros Hi Hmax Hlen Hmax2. unfold thread_create, THREAD_SIZE in *.
  wps_call wps_kalloc_full; [done|lia|]. intros t k1 (h1 & -> & Hi1 & [[-> Hl1]|(Ht & Hnt & Hl1)] & Hr1).
  { simpl. wps_step. split; [done|]. split; [|apply (rooms_le 1); [no_room|lia]].
    left. split_and!; try done. by exists h1. }
  replace (t =? NULL) with false by lia. unfold kstrdup.
  wps_call wps_kalloc_full; [done|lia|].
  intros name k2 (h2 & -> & Hi2 & [[-> Hl2]|(Hn & Hnn & Hl2)] & Hr2); simpl in *.
  - wps_call wps_kfree; [done|simpl; set_solver|]. intros [] k3 (h3 & -> & Hi3 & Hl3). wps_step.
    split; [done|]. split; [|eapply (rooms_bind 1 1); [done|intros _; no_room]].
    left. split_and!; [done| |by exists h3]. simpl in *. rewrite Hl3, Hl2, Hl1.
    clear -Hnt. set_solver.
  - replace (name =? NULL) with false by lia. unfold put_thread. wps_step. split; [done|].
    split; [|eapply (rooms_bind 1 1); [done|intros _; by eapply rooms_mono]].
    right. split; [done|]. exists name, h2. rewrite Hl1 in Hnn, Hl2.
    apply not_elem_of_union in Hnn as [Hne Hnn]. apply not_elem_of_singleton in Hne.
    split_and!; [by symmetry|done|done|rewrite Hl2; clear; set_solver|done].
Qed.

(** [thread_destroy] gives back the blocks of the thread. *)
Lemma thread_destroy_spec k t th :
  kh_inv (k_heap k) → t ≠ k_cur k → k_threads k !! t = Some th →
  t_vmspace th = NULL → t_cwd th = NULL →
  NoDup (thread_blocks t th) → (∀ b, b ∈ thread_blocks t th → b ∈ kh_live (k_heap k)) →
  wps (thread_destroy t) k (λ _ k', ∃ h', kh_inv h' ∧
    kh_live h' = kh_live (k_heap k) ∖ list_to_set (thread_blocks t th) ∧
    k' = set_threads (delete t (k_threads k)) (set_heap h' k)).
Proof.
  intros Hi Hcur Ht Hvm Hcwd Hnd Hlive. unfold thread_destroy, thread_blocks in *. wps_step.
  eapply wps_get_thread; [done|]. rewrite Hvm, Hcwd. wps_step.
  destruct (t_stack th =? NULL) eqn:Est; simpl.
  - wps_step. wps_call wps_kfree; [done|apply Hlive; set_solver|].
    intros [] k1 (h1 & -> & Hi1 & Hl1). wps_call wps_kfree; [done| |].
    { simpl. rewrite Hl1. apply NoDup_cons in Hnd as [Hnt _]. set_solver. }
    intros [] k2 (h2 & -> & Hi2 & Hl2). wps_step. exists h2. split_and!; [done| |done].
    simpl in *. rewrite Hl2, Hl1. set_solver.
  - apply NoDup_cons in Hnd as [Hnt [Hnn _]%NoDup_cons].
    wps_call wps_kfree; [done|apply Hlive; set_solver|]. intros [] k1 (h1 & -> & Hi1 & Hl1).
    wps_call wps_kfree_null; [done|]. intros [] k1' ->.
    wps_call wps_kfree; [done|simpl; rewrite Hl1; set_solver|]. intros [] k2 (h2 & -> & Hi2 & Hl2).
    wps_call wps_kfree; [done|simpl in *; rewrite Hl2, Hl1; set_solver|]. intros [] k3 (h3 & -> & Hi3 & Hl3).
    wps_step. exists h3. split_and!; [done| |done]. simpl in *. rewrite Hl3, Hl2, Hl1. set_solver.
Qed.

(** What the thread system owns: the blocks of every thread and of the zombie array.
    The dead have no address space and no directory any more. *)
Record towns k s : Prop := TOwns {
  to_inv : kh_inv (k_heap k);
  to_nodup : NoDup (thr_blocks k (all_threads s));
  to_live : ∀ b, b ∈ thr_blocks k (all_threads s) → b ∈ kh_live (k_heap k);
  to_zarr : ∃ a, k_zombies k = Some a ∧ array_inv a (s_zomb s) (k_heap k) ∧
    ∀ b, b ∈ thr_blocks k (all_threads s) → b ∉ array_blocks a;
  to_dead : ∀ t th, t ∈ s_zomb s → k_threads k !! t = Some th →
    t_vmspace th = NULL ∧ t_cwd th = NULL;
}.

Lemma thr_blocks_app k l1 l2 : thr_blocks k (l1 ++ l2) = thr_blocks k l1 ++ thr_blocks k l2.
Proof. unfold thr_blocks. apply bind_app. Qed.

Lemma thr_blocks_cons k t l : thr_blocks k (t :: l) = blocks_of k t ++ thr_blocks k l.
Proof. done. Qed.

Lemma thr_blocks_perm k l1 l2 : l1 ≡ₚ l2 → thr_blocks k l1 ≡ₚ thr_blocks k l2.
Proof. intros Hp. unfold thr_blocks. by rewrite Hp. Qed.

Lemma elem_of_thr_blocks k l b : b ∈ thr_blocks k l ↔ ∃ t, t ∈ l ∧ b ∈ blocks_of k t.
Proof. unfold thr_blocks. rewrite list_elem_of_bind. naive_solver. Qed.

Lemma thr_blocks_ext k k' l :
  (∀ t, t ∈ l → blocks_of k' t = blocks_of k t) → thr_blocks k' l = thr_blocks k l.
Proof.
  intros Hext. unfold thr_blocks. induction l as [|t l IH]; [done|]. simpl.
  rewrite Hext by constructor. f_equal. apply IH. intros u Hu. apply Hext. by constructor.
Qed.

(** The zombie at position [n]: it is not the running thread and not among those before it, and
    its blocks are in use and not theirs. *)
Lemma zombie_at k s (n : nat) t :
  srep k s → towns k s → s_zomb s !! n = Some t →
  t ≠ k_cur k ∧ t ∉ take n (s_zomb s) ∧ ∃ th, k_threads k !! t = Some th ∧
    t_vmspace th = NULL ∧ t_cwd th = NULL ∧ blocks_of k t = thread_blocks t th ∧
    NoDup (thread_blocks t th) ∧ ∀ b, b ∈ thread_blocks t th →
      b ∈ kh_live (k_heap k) ∧ b ∉ thr_blocks k (take n (s_zomb s)).
Proof.
  intros [Hcur _ _ _ Hnd Hnn Hthr _ _] [Hi Hbn Hbl _ Hdead] Ht.
  pose proof (take_drop_middle _ _ _ Ht) as Hsplit.
  assert (t ∈ s_zomb s) as Hin by (by eapply list_elem_of_lookup_2).
  assert (t ∈ all_threads s) as Hall by (unfold all_threads; set_solver).
  destruct (proj1 (Hthr t) Hall) as [th Hth]. destruct (Hdead t th Hin Hth) as [Hvm Hcwd].
  assert (Hbt : blocks_of k t = thread_blocks t th) by (unfold blocks_of; by rewrite Hth).
  assert (Hnz : NoDup (s_zomb s))
    by (unfold all_threads in Hnd; by apply NoDup_app in Hnd as (_ & _ & (_ & _ & (_ & _ & ?)%NoDup_app)%NoDup_app)).
  assert (Hnb : NoDup (thr_blocks k (s_zomb s))).
  { unfold all_threads in Hbn. rewrite !thr_blocks_app in Hbn.
    by apply NoDup_app in Hbn as (_ & _ & (_ & _ & (_ & _ & ?)%NoDup_app)%NoDup_app). }
  rewrite <- Hsplit, thr_blocks_app, thr_blocks_cons, Hbt in Hnb.
  apply NoDup_app in Hnb as (_ & Hd & (Hnt & _ & _)%NoDup_app). split_and!.
  - intros ->. rewrite Hcur in *. unfold all_threads, cur_list in Hnd.
    destruct (s_cur s =? NULL) eqn:Ec; [apply Z.eqb_eq in Ec; rewrite Ec in Hin; set_solver|].
    simpl in Hnd. apply NoDup_cons in Hnd as [Hnd _]. set_solver.
  - rewrite <- Hsplit in Hnz. apply NoDup_app in Hnz as (_ & Hdz & _). intros Hc.
    apply (Hdz t Hc). by constructor.
  - exists th. split_and!; try done. intros b Hb. split.
    + apply Hbl. apply elem_of_thr_blocks. exists t. split; [done|]. by rewrite Hbt.
    + intros Hb2. apply (Hd b Hb2). apply elem_of_app. by left.
Qed.

(** The kernel after the first [n] zombies are destroyed. *)
Definition buried k s (n : nat) k' : Prop := ∃ h' thr,
  k' = set_threads thr (set_heap h' k) ∧ kh_inv h' ∧
  kh_live h' = kh_live (k_heap k) ∖ list_to_set (thr_blocks k (take n (s_zomb s))) ∧
  ∀ t, thr !! t = if bool_decide (t ∈ take n (s_zomb s)) then None else k_threads k !! t.

Lemma buried_next k s (n : nat) t k1 :
  srep k s → towns k s → s_zomb s !! n = Some t → buried k s n k1 →
  wps (thread_destroy t) k1 (λ _ k2, buried k s (S n) k2).
Proof.
  intros Hrep Hto Ht (h1 & thr & -> & Hi1 & Hl1 & Ht1).
  destruct (zombie_at k s n t Hrep Hto Ht) as (Htc & Hnt & th & Hth & Hvm & Hcwd & Hbt & Hnd & Hb).
  eapply wps_mono; [apply (thread_destroy_spec _ t th); simpl; try done|].
  - by rewrite Ht1, bool_decide_false by done.
  - intros b Hb'. rewrite Hl1. apply elem_of_difference. rewrite elem_of_list_to_set. by apply Hb.
  - intros [] k2 (h2 & Hi2 & Hl2 & ->). exists h2, (delete t thr). simpl in *.
    rewrite (take_S_r _ _ t) by done. split_and!; [done|done| |].
    + rewrite Hl2, Hl1, thr_blocks_app, thr_blocks_cons, Hbt. simpl. rewrite app_nil_r.
      rewrite list_to_set_app_L. by rewrite difference_difference_l_L.
    + intros u. destruct (decide (u = t)) as [->|Hne].
      * rewrite lookup_delete_eq, bool_decide_true; [done|]. set_solver.
      * rewrite lookup_delete_ne, Ht1 by done.
        rewrite (bool_decide_ext (u ∈ take n (s_zomb s) ++ [t]) (u ∈ take n (s_zomb s))); [done|]. set_solver.
Qed.

(** [thread_destroy] on one zombie after another. *)
Lemma exorcise_loop k s zs :
  srep k s → towns k s → k_zombies k = Some zs →
  wps (mfor (Z.to_nat (array_getnum zs)) 0 (λ i _,
        zs ← get_opt k_zombies;
        z ← lift (array_getguy zs i);
        cur ← gets k_cur;
        _ ← asrt (negb (z =? cur));
        thread_destroy z) tt) k (λ _ k', buried k s (length (s_zomb s)) k').
Proof.
  intros Hrep Hto Hzs. pose proof Hrep as [_ _ _ (z' & Hz' & Har) _ _ _ _ _].
  assert (z' = zs) as -> by congruence. unfold array_getnum. rewrite (proj1 Har), Nat2Z.id.
  apply (wps_mfor (λ j _ k', buried k s (Z.to_nat j) k')).
  - exists (k_heap k), (k_threads k). split_and!; [by destruct k|by destruct Hto| |done]. simpl. set_solver.
  - intros j [] k1 Hj Hk1. pose proof Hk1 as (h1 & thr & -> & _).
    destruct (lookup_lt_is_Some_2 (s_zomb s) (Z.to_nat j)) as [t Ht]; [lia|].
    wps_step. eapply wps_get_opt; [done|]. rewrite wps_bind, wps_lift.
    eapply wp_of_eq; [by apply (array_getguy_spec _ _ _ t Har); [lia|]|]. wps_step.
    destruct (zombie_at k s _ t Hrep Hto Ht) as [Htc _]. simpl. rewrite wps_asrt. split; [lia|].
    replace (Z.to_nat (j + 1)) with (S (Z.to_nat j)) by lia. by apply (buried_next k s _ t).
  - intros [] k1. by rewrite Z.add_0_l, Nat2Z.id.
Qed.

Definition a_exorcise s : sched := Sched (s_cur s) (s_ready s) (s_sleep s) [].

Lemma all_threads_exorcise s : all_threads s ≡ₚ s_zomb s ++ all_threads (a_exorcise s).
Proof.
  unfold all_threads; simpl. rewrite app_nil_r.
  rewrite (app_assoc (s_ready s)), (app_assoc (cur_list (s_cur s))). by rewrite Permutation_app_comm.
Qed.

(** The scheduler's lists after the zombies are gone. *)
Lemma srep_exorcise k s zs' h2 h1 thr :
  srep k s → array_rep zs' [] →
  (∀ t, thr !! t = if bool_decide (t ∈ s_zomb s) then None else k_threads k !! t) →
  srep (set_zombies (Some zs') (set_heap h2 (set_threads thr (set_heap h1 k)))) (a_exorcise s) ∧
  ∀ t, t ∈ all_threads (a_exorcise s) → thr !! t = k_threads k !! t.
Proof.
  intros [Hcur Hq Hsl _ Hnd Hnn Hthr Hmag Htlb] Har Ht1. pose proof (all_threads_exorcise s) as Hperm.
  assert (Hth' : ∀ t, t ∈ all_threads (a_exorcise s) → thr !! t = k_threads k !! t).
  { intros t Ht. rewrite Ht1, bool_decide_false; [done|]. intros Hz. rewrite Hperm in Hnd.
    apply NoDup_app in Hnd as (_ & Hd & _). by apply (Hd t). }
  split; [|done]. constructor; simpl; try done; eauto.
  - rewrite Hperm in Hnd. by apply NoDup_app in Hnd as (_ & _ & ?).
  - clear -Hnn. set_solver.
  - intros t. split.
    + intros Ht. rewrite Hth' by done. apply Hthr. rewrite Hperm. set_solver.
    + rewrite Ht1. case_bool_decide as Hz; [by intros []|]. intros Hs. apply Hthr in Hs.
      rewrite Hperm in Hs. set_solver.
  - intros t th. rewrite Ht1. case_bool_decide; [done|]. by apply Hmag.
Qed.

(** The memory of the threads that stay. *)
Lemma towns_exorcise k k' s zs' :
  towns k s → k_zombies k' = Some zs' → array_inv zs' [] (k_heap k') →
  (∀ t, t ∈ all_threads (a_exorcise s) → blocks_of k' t = blocks_of k t) →
  (∀ b, b ∈ thr_blocks k (all_threads s) → b ∉ thr_blocks k (s_zomb s) → b ∈ array_frame zs' (k_heap k')) →
  towns k' (a_exorcise s).
Proof.
  intros [Hi Hbn Hbl _ Hdead] Hz Har Hsame Hframe. pose proof (all_threads_exorcise s) as Hperm.
  rewrite (thr_blocks_perm k _ _ Hperm), thr_blocks_app in Hbn. apply NoDup_app in Hbn as (_ & Hd & Hbn).
  assert (Hkeep : ∀ b, b ∈ thr_blocks k' (all_threads (a_exorcise s)) → b ∈ array_frame zs' (k_heap k')).
  { intros b. rewrite (thr_blocks_ext k) by done. intros Hb. apply Hframe; [|intros Hzb; by apply (Hd b)].
    rewrite (thr_blocks_perm k _ _ Hperm), thr_blocks_app. apply elem_of_app. by right. }
  constructor; simpl; try done.
  - by destruct Har.
  - by rewrite (thr_blocks_ext k).
  - intros b Hb%Hkeep. unfold array_frame in Hb. set_solver.
  - exists zs'. split_and!; try done. intros b Hb%Hkeep. unfold array_frame in Hb. set_solver.
  - intros t th Ht. set_solver.
Qed.

(** [exorcise] destroys exactly the zombies and frees exactly their memory. *)
Lemma exorcise_spec k s :
  srep k s → towns k s → 0 < k_spl k →
  wps exorcise k (λ _ k', srep k' (a_exorcise s) ∧ towns k' (a_exorcise s) ∧
    (∃ zs' h' thr, k' = set_zombies (Some zs') (set_heap h' (set_threads thr (set_heap (k_heap k') k))) ∧
       ∀ t, thr !! t = if bool_decide (t ∈ s_zomb s) then None else k_threads k !! t) ∧
    (∀ b, b ∈ kh_live (k_heap k) → b ∉ thr_blocks k (s_zomb s) →
       (∀ a, k_zombies k = Some a → b ∉ array_blocks a) → b ∈ kh_live (k_heap k'))).
Proof.
  intros Hrep Hto Hspl. pose proof Hto as [Hi _ Hbl (zs & Hzs & (_ & Har & Hab & Hne) & Hdis) _].
  unfold exorcise. wps_step. eapply wps_get_opt; [done|]. rewrite wps_bind.
  eapply wps_mono; [by apply (exorcise_loop k s zs)|].
  intros [] k1 (h1 & thr & -> & Hi1 & Hl1 & Ht1). rewrite take_ge in Hl1, Ht1 by done. wps_step.
  eapply wps_get_opt; [done|]. wps_step. rewrite wps_lift. simpl.
  assert (Hzin : ∀ b, b ∈ thr_blocks k (s_zomb s) → b ∈ thr_blocks k (all_threads s)).
  { intros b. rewrite (thr_blocks_perm k _ _ (all_threads_exorcise s)), thr_blocks_app. set_solver. }
  assert (Hinv1 : array_inv zs (s_zomb s) h1).
  { split_and!; try done. rewrite Hl1. intros b Hb. apply elem_of_difference. split; [by apply Hab|].
    rewrite elem_of_list_to_set. intros Hb2. by apply (Hdis b); [apply Hzin|]. }
  eapply wp_mono; [by apply (array_setsize_zero zs (s_zomb s) h1)|].
  intros [[r zs'] h2] (-> & Harr & Hfr & Hse). wps_step. simpl.
  assert (Hframe : ∀ b, b ∈ kh_live (k_heap k) → b ∉ thr_blocks k (s_zomb s) →
    b ∉ array_blocks zs → b ∈ array_frame zs' h2).
  { intros b Hb Hb1 Hb2. rewrite Hfr. unfold array_frame. rewrite Hl1. set_solver. }
  destruct (srep_exorcise k s zs' h2 h1 thr Hrep) as [Hrep' Hth']; [apply Harr|done|]. split_and!; [done| | |].
  - eapply towns_exorcise; [done..| |].
    + intros t Ht. unfold blocks_of. simpl. by rewrite Hth'.
    + intros b Hb Hz. apply Hframe; [by apply Hbl|done|by apply Hdis].
  - by exists zs', h2, thr.
  - intros b Hb Hb1 Hb2. specialize (Hframe b Hb Hb1 (Hb2 zs Hzs)). unfold array_frame in Hframe. set_solver.
Qed.
End mem.

(** ** What the thread system relies on

    The pager's clock hook touches only its own data; a page directory is new memory, one request
    (or there is none, and the kernel panics).  [vn_held n e v]: the vnode [v] has at least [n]
    references.  [VOP_INCREF] and [VOP_DECREF] touch only the file system's data, the latter while
    the caller's is not the last reference. *)

Class ThreadEnvLaws (H E : Type) `{KHeapLaws H} `{!ThreadEnv H E} := {
  vn_held : nat → E → Z → Prop;
  ref_bit_law : ∀ k : kst H E, kh_inv (k_heap k) →
    wps ref_bit_counter k (λ _ k', ∃ h' e', k' = set_env e' (set_heap h' k) ∧
      kh_inv h' ∧ kh_live h' = kh_live (k_heap k));
  page_table_law : ∀ k : kst H E, kh_inv (k_heap k) →
    wpf (¬ kh_room 1 (k_heap k)) page_table_initializer k (λ _ k', ∃ h' e', k' = set_env e' (set_heap h' k) ∧
      kh_inv h' ∧ kh_live (k_heap k) ⊆ kh_live h' ∧ rooms 1 (k_heap k) True h' ∧
      ∀ n v, vn_held n (k_env k) v → vn_held n e' v);
  incref_law : ∀ (k : kst H E) v n, vn_held (S n) (k_env k) v →
    wps (VOP_INCREF v) k (λ _ k', ∃ e', k' = set_env e' k ∧ vn_held (S (S n)) e' v ∧
      ∀ m w, vn_held m (k_env k) w → vn_held m e' w);
  decref_law : ∀ (k : kst H E) v n, vn_held (S (S n)) (k_env k) v →
    wps (VOP_DECREF v) k (λ _ k', ∃ e', k' = set_env e' k ∧ vn_held (S n) e' v);
}.
