(* ===== verification/Synch.v ===== *)
(** * Semaphores, locks and condition variables (kern/thread/synch.c), the clock
    (kern/thread/hardclock.c) and the entry of interrupts (kern/arch/mips/mips/interrupt.c)

    A call that can block is split where it gives up the processor.  Its first part
    answers [Some w] when the thread has been put to sleep, with [w] what is left to do;
    [resume w] is what the thread does when it runs again, and may block once more. *)

From S2P Require Import Prelude StateM Heap KArray KQueue Coremap KState Thread.

(** What a thread that is not running has left to do. *)
Inductive kwait :=
| WP (sem spl : Z)                (* in the loop of P *)
| WLock (lk spl : Z)              (* in the loop of lock_acquire *)
| WCv (cv lk spl : Z)             (* in the loop of cv_wait *)
| WCvLock (lk spl1 spl : Z)       (* in lock_acquire, called at the end of cv_wait *)
| WClock (n spl : Z)              (* in the loop of clocksleep *)
| WYield (spl : Z)                (* in thread_yield *)
| WIntr (spl savespl old_in : Z). (* in thread_yield, called by the clock interrupt *)

Definition HZ : Z := 100.

(** The address of [lbolt], a global variable. *)
Definition LBOLT : Z := 0x80000004.

Section synch.
Context {H E : Type} `{KHeap H} `{ThreadEnv H E}.
Abbreviation K := (stm (kst H E)).

Definition get_sem (sem : Z) : K semaphore := λ k,
  match k_sems k !! sem with Some x => Ok (x, k) | None => Fault FUndef end.
Definition put_sem (sem : Z) (x : semaphore) : K unit := modify (λ k, set_sems (<[sem := x]> (k_sems k)) k).
Definition get_lock (lk : Z) : K lock := λ k,
  match k_locks k !! lk with Some x => Ok (x, k) | None => Fault FUndef end.
Definition put_lock (lk : Z) (x : lock) : K unit := modify (λ k, set_locks (<[lk := x]> (k_locks k)) k).
Definition get_cv (c : Z) : K cv := λ k,
  match k_cvs k !! c with Some x => Ok (x, k) | None => Fault FUndef end.
Definition put_cv (c : Z) (x : cv) : K unit := modify (λ k, set_cvs (<[c := x]> (k_cvs k)) k).

(** ** Semaphores *)

Definition sem_create (namelen initial_count : Z) : K Z :=
  _ ← asrt (0 <=? initial_count);
  sem ← kalloc 8;
  if sem =? NULL then mret NULL
  else
    name ← kstrdup namelen;
    if name =? NULL then _ ← kfree_ sem; mret NULL
    else _ ← put_sem sem (Sem name initial_count); mret sem.

Definition sem_destroy (sem : Z) : K unit :=
  _ ← asrt (negb (sem =? NULL));
  spl ← k_splhigh;
  n ← thread_hassleepers sem;
  _ ← asrt (n =? 0);
  _ ← k_splx spl;
  x ← get_sem sem;
  _ ← kfree_ (sem_name x);
  _ ← kfree_ sem;
  modify (λ k, set_sems (delete sem (k_sems k)) k).

Definition P_loop (sem spl : Z) : K (option kwait) :=
  x ← get_sem sem;
  if sem_count x =? 0 then
    _ ← thread_sleep sem;
    mret (Some (WP sem spl))
  else
    _ ← asrt (sem_count x >? 0);
    _ ← put_sem sem (Sem (sem_name x) (sem_count x - 1));
    _ ← k_splx spl;
    mret None.

Definition P (sem : Z) : K (option kwait) :=
  _ ← asrt (negb (sem =? NULL));
  inint ← gets k_inint;
  _ ← asrt (inint =? 0);
  spl ← k_splhigh;
  P_loop sem spl.

Definition V (sem : Z) : K unit :=
  _ ← asrt (negb (sem =? NULL));
  spl ← k_splhigh;
  x ← get_sem sem;
  let count := s32 (sem_count x + 1) in
  _ ← put_sem sem (Sem (sem_name x) count);
  _ ← asrt (count >? 0);
  _ ← thread_wakeup sem;
  _ ← k_splx spl;
  mret tt.

(** ** Locks *)

Definition lock_create (namelen : Z) : K Z :=
  lk ← kalloc 8;
  if lk =? NULL then mret NULL
  else
    name ← kstrdup namelen;
    if name =? NULL then _ ← kfree_ lk; mret NULL
    else _ ← put_lock lk (Lock name 1); mret lk.

Definition lock_destroy (lk : Z) : K unit :=
  _ ← asrt (negb (lk =? NULL));
  spl ← k_splhigh;
  n ← thread_hassleepers lk;
  _ ← asrt (n =? 0);
  _ ← k_splx spl;
  x ← get_lock lk;
  _ ← kfree_ (lock_name x);
  _ ← kfree_ lk;
  modify (λ k, set_locks (delete lk (k_locks k)) k).

(** The loop; [blocked] is what is left to do if the thread sleeps. *)
Definition acquire_loop (lk spl : Z) (blocked : kwait) : K (option kwait) :=
  x ← get_lock lk;
  if lock_count x =? 0 then
    _ ← thread_sleep lk;
    mret (Some blocked)
  else
    _ ← asrt (lock_count x =? 1);
    _ ← put_lock lk (Lock (lock_name x) (lock_count x - 1));
    _ ← k_splx spl;
    mret None.

Definition lock_acquire (lk : Z) : K (option kwait) :=
  _ ← asrt (negb (lk =? NULL));
  inint ← gets k_inint;
  _ ← asrt (inint =? 0);
  spl ← k_splhigh;
  acquire_loop lk spl (WLock lk spl).

Definition lock_release (lk : Z) : K unit :=
  _ ← asrt (negb (lk =? NULL));
  spl ← k_splhigh;
  x ← get_lock lk;
  let count := s32 (lock_count x + 1) in
  _ ← put_lock lk (Lock (lock_name x) count);
  _ ← asrt (count =? 1);
  _ ← thread_wakeup lk;
  _ ← k_splx spl;
  mret tt.

(** For routines that run one at a time: the lock is free, or they would wait for ever. *)
Definition acquire (lk : Z) : K unit :=
  r ← lock_acquire lk;
  match r with None => mret tt | Some _ => fault_ FLoop end.

Definition lock_do_i_hold (lk : Z) : Z := 1.

(** ** Condition variables *)

Definition cv_create (namelen : Z) : K Z :=
  c ← kalloc 8;
  if c =? NULL then mret NULL
  else
    name ← kstrdup namelen;
    if name =? NULL then _ ← kfree_ c; mret NULL
    else _ ← put_cv c (CV name 0); mret c.

Definition cv_destroy (c : Z) : K unit :=
  _ ← asrt (negb (c =? NULL));
  spl ← k_splhigh;
  n ← thread_hassleepers c;
  _ ← asrt (n =? 0);
  _ ← k_splx spl;
  x ← get_cv c;
  _ ← kfree_ (cv_name x);
  _ ← kfree_ c;
  modify (λ k, set_cvs (delete c (k_cvs k)) k).

(** The end of [cv_wait]: [lock_acquire] raises the level once more, and its own
    [splx] restores it to [spl1]. *)
Definition cv_relock (lk spl : Z) : K (option kwait) :=
  _ ← asrt (negb (lk =? NULL));
  inint ← gets k_inint;
  _ ← asrt (inint =? 0);
  spl1 ← k_splhigh;
  r ← acquire_loop lk spl1 (WCvLock lk spl1 spl);
  match r with
  | Some w => mret (Some w)
  | None => _ ← k_splx spl; mret None
  end.

Definition cv_loop (c lk spl : Z) : K (option kwait) :=
  x ← get_cv c;
  if cv_sig x =? 0 then
    _ ← thread_sleep c;
    mret (Some (WCv c lk spl))
  else
    _ ← asrt (cv_sig x =? 1);
    _ ← put_cv c (CV (cv_name x) 0);
    cv_relock lk spl.

Definition cv_wait (c lk : Z) : K (option kwait) :=
  _ ← asrt (negb (c =? NULL));
  _ ← asrt (negb (lk =? NULL));
  spl ← k_splhigh;
  x ← get_lock lk;
  let count := s32 (lock_count x + 1) in
  _ ← put_lock lk (Lock (lock_name x) count);
  _ ← asrt (count =? 1);
  _ ← thread_wakeup lk;
  cv_loop c lk spl.

Definition cv_signal (c lk : Z) : K unit :=
  spl ← k_splhigh;
  x ← get_cv c;
  _ ← put_cv c (CV (cv_name x) 1);
  _ ← modify (set_cvone 1);
  _ ← thread_wakeup c;
  _ ← modify (set_cvone 0);
  _ ← k_splx spl;
  mret tt.

Definition cv_broadcast (c lk : Z) : K unit :=
  spl ← k_splhigh;
  x ← get_cv c;
  _ ← put_cv c (CV (cv_name x) 1);
  _ ← thread_wakeup c;
  _ ← k_splx spl;
  mret tt.

(** ** The clock *)

Definition clocksleep_loop (num_secs s : Z) : K (option kwait) :=
  if num_secs >? 0 then
    _ ← thread_sleep LBOLT;
    mret (Some (WClock num_secs s))
  else
    _ ← k_splx s;
    mret None.

Definition clocksleep (num_secs : Z) : K (option kwait) :=
  s ← k_splhigh;
  clocksleep_loop num_secs s.

(** [hardclock] up to the switch in its [thread_yield]. *)
Definition hardclock : K Z :=
  '(r, l) ← gets k_clock;
  let r := r + 1 in
  _ ← (if r >=? HZ / 10 then
         _ ← modify (λ k, set_clock (0, l) k);
         ref_bit_counter
       else modify (λ k, set_clock (r, l) k));
  '(r, l) ← gets k_clock;
  let l := l + 1 in
  _ ← (if l >=? HZ then
         _ ← modify (λ k, set_clock (r, 0) k);
         thread_wakeup LBOLT
       else modify (λ k, set_clock (r, l) k));
  thread_yield.

(** A clock interrupt: [mips_trap] notes the level and turns interrupts off,
    [mips_interrupt] notes that a handler runs, and the timer calls [hardclock]. *)
Definition clock_interrupt : K (option kwait) :=
  savespl ← gets k_spl;
  _ ← modify (set_spl SPL_HIGH);
  old_in ← gets k_inint;
  _ ← modify (set_inint 1);
  spl ← gets k_spl;
  _ ← asrt (spl >? 0);
  spl ← hardclock;
  mret (Some (WIntr spl savespl old_in)).

(** The way back out of the interrupt. *)
Definition interrupt_return (savespl old_in : Z) : K unit :=
  _ ← modify (set_inint old_in);
  modify (set_spl savespl).

(** ** Running again *)

Definition resume (w : kwait) : K (option kwait) :=
  match w with
  | WP sem spl => _ ← thread_sleep_back; P_loop sem spl
  | WLock lk spl => _ ← thread_sleep_back; acquire_loop lk spl (WLock lk spl)
  | WCv c lk spl => _ ← thread_sleep_back; cv_loop c lk spl
  | WCvLock lk spl1 spl =>
      _ ← thread_sleep_back;
      r ← acquire_loop lk spl1 (WCvLock lk spl1 spl);
      match r with
      | Some w => mret (Some w)
      | None => _ ← k_splx spl; mret None
      end
  | WClock n s => _ ← thread_sleep_back; clocksleep_loop (n - 1) s
  | WYield spl => _ ← mi_switch_back; _ ← k_splx spl; mret None
  | WIntr spl savespl old_in =>
      _ ← mi_switch_back;
      _ ← k_splx spl;
      _ ← interrupt_return savespl old_in;
      mret None
  end.
End synch.
