(* ===== verification/SynchMach.v ===== *)
(** * Kernel threads using the synchronization primitives

    A machine that runs the routines of synch.c, hardclock.c and thread.c for any
    number of kernel threads on one processor.  Every thread has a program counter:
    it runs its own code, it is inside a blocking call (with a [kwait] saying where),
    or it has not started.  An event is a call made by the current thread, the current
    thread going on after a context switch, or a clock interrupt.

    Ghost state counts the completed [P]s and [V]s, the waiters let through and the signals of
    each condition variable, and the locks each thread holds.
    The theorems: whatever the events, no assertion fails and no pointer goes wrong,
    semaphore counts are exactly [V]s minus [P]s, nobody sleeps on a semaphore that
    is up or on a lock that is free, and a lock has one holder. *)

From stdpp Require Import functions.
From S2P Require Import Prelude StateM Heap KArray KQueue Coremap KState Thread ThreadSpec ThreadHeap Synch.

Inductive pcv := Running | Waiting (w : kwait) | Fresh.

Inductive call :=
| CP (sem : Z) | CV_ (sem : Z)
| CAcquire (lk : Z) | CRelease (lk : Z)
| CWait (c lk : Z) | CSignal (c lk : Z) | CBroadcast (c lk : Z)
| CYield | CSleep (n : Z) | CExit.

Inductive event := ECall (c : call) | EGo | ETick | EIdle | EIdleTick.

(** What a call did to the thread that made it. *)
Inductive outcome := Returned | Blocked (w : kwait) | Gone.

Section mach.
Context {H E : Type} `{KHeapLaws H} `{!ThreadEnv H E}.
Abbreviation K := (stm (kst H E)).

Record mach := Mach {
  m_k : kst H E;
  m_pc : gmap Z pcv;
  m_ctx : Z;              (* the thread on whose stack the processor is *)
  m_acq : Z → Z;          (* completed P, per semaphore; waiters let through, per condition variable *)
  m_rel : Z → Z;          (* V, per semaphore, cv_signal and cv_broadcast, per condition variable, and
                             the initial count or flag *)
  m_held : gset (Z * Z);  (* (thread, lock) *)
}.

Definition as_outcome (m : K (option kwait)) : K outcome :=
  r ← m; mret (match r with Some w => Blocked w | None => Returned end).

Definition exec_call (c : call) : K outcome :=
  match c with
  | CP sem => as_outcome (P sem)
  | CV_ sem => _ ← V sem; mret Returned
  | CAcquire lk => as_outcome (lock_acquire lk)
  | CRelease lk => _ ← lock_release lk; mret Returned
  | CWait c lk => as_outcome (cv_wait c lk)
  | CSignal c lk => _ ← cv_signal c lk; mret Returned
  | CBroadcast c lk => _ ← cv_broadcast c lk; mret Returned
  | CYield => spl ← thread_yield; mret (Blocked (WYield spl))
  | CSleep n => as_outcome (clocksleep n)
  | CExit => _ ← thread_exit; mret Gone
  end.

(** The clock interrupt while the processor idles: [hardclock]'s [thread_yield] has no
    current thread to switch from and returns. *)
Definition idle_interrupt : K unit :=
  savespl ← gets k_spl;
  _ ← modify (set_spl SPL_HIGH);
  old_in ← gets k_inint;
  _ ← modify (set_inint 1);
  spl ← gets k_spl;
  _ ← asrt (spl >? 0);
  spl ← hardclock;
  _ ← k_splx spl;
  interrupt_return savespl old_in.

(** Ghost effects: when a call starts, and when it is completed. *)
Definition ghost_start (c : call) (t : Z) (m : mach) : mach :=
  match c with
  | CV_ a | CSignal a _ | CBroadcast a _ =>
      Mach (m_k m) (m_pc m) (m_ctx m) (m_acq m) (<[a := m_rel m a + 1]> (m_rel m)) (m_held m)
  | CRelease lk | CWait _ lk =>
      Mach (m_k m) (m_pc m) (m_ctx m) (m_acq m) (m_rel m) (m_held m ∖ {[(t, lk)]})
  | _ => m
  end.

Definition got_sem (sem : Z) (m : mach) : mach :=
  Mach (m_k m) (m_pc m) (m_ctx m) (<[sem := m_acq m sem + 1]> (m_acq m)) (m_rel m) (m_held m).
Definition got_lock (t lk : Z) (m : mach) : mach :=
  Mach (m_k m) (m_pc m) (m_ctx m) (m_acq m) (m_rel m) (m_held m ∪ {[(t, lk)]}).

Definition ghost_done (w : kwait) (t : Z) (m : mach) : mach :=
  match w with
  | WP sem _ => got_sem sem m
  | WLock lk _ | WCv _ lk _ | WCvLock lk _ _ => got_lock t lk m
  | _ => m
  end.

Definition ghost_call (c : call) (t : Z) (m : mach) : mach :=
  match c with
  | CP sem => got_sem sem m
  | CAcquire lk | CWait _ lk => got_lock t lk m
  | _ => m
  end.

(** A waiter leaves the loop of [cv_wait], to take the lock again. *)
Definition call_cv (c : call) : option Z := match c with CWait c _ => Some c | _ => None end.
Definition wait_cv (w : kwait) : option Z := match w with WCv c _ _ => Some c | _ => None end.
Definition ghost_through (cv : option Z) (o : outcome) (m : mach) : mach :=
  match cv, o with
  | None, _ | _, Blocked (WCv _ _ _) => m
  | Some c, _ => got_sem c m
  end.

Definition ctx_after (k : kst H E) (t : Z) : Z := if k_cur k =? NULL then t else k_cur k.

(** The machine after thread [t] has run up to state [k] with outcome [o]. *)
Definition settle (t : Z) (o : outcome) (k : kst H E) (m : mach) : mach :=
  Mach k (match o with
          | Returned => <[t := Running]> (m_pc m)
          | Blocked w => <[t := Waiting w]> (m_pc m)
          | Gone => delete t (m_pc m)
          end) (ctx_after k t) (m_acq m) (m_rel m) (m_held m).

Definition mstep (e : event) (m : mach) : res mach :=
  let k := m_k m in
  let t := k_cur k in
  match e with
  | ECall c =>
      '(o, k') ← exec_call c k;
      let m := ghost_start c t m in
      let m := match o with Returned => ghost_call c t m | _ => m end in
      mret (settle t o k' (ghost_through (call_cv c) o m))
  | EGo =>
      match m_pc m !! t with
      | Some (Waiting w) =>
          '(o, k') ← as_outcome (resume w) k;
          let m := match o with Returned => ghost_done w t m | _ => m end in
          mret (settle t o k' (ghost_through (wait_cv w) o m))
      | Some Fresh =>
          '(_, k') ← mi_threadstart k;
          mret (settle t Returned k' m)
      | _ => mret m
      end
  | ETick =>
      '(o, k') ← as_outcome clock_interrupt k;
      mret (settle t o k' m)
  | EIdle =>
      '(_, k') ← dispatch (m_ctx m) k;
      mret (Mach k' (m_pc m) (ctx_after k' (m_ctx m)) (m_acq m) (m_rel m) (m_held m))
  | EIdleTick =>
      '(_, k') ← idle_interrupt k;
      mret (Mach k' (m_pc m) (m_ctx m) (m_acq m) (m_rel m) (m_held m))
  end.

(** ** Which events can happen

    Calls name objects that exist.  A thread releases, and waits with, only locks it
    holds; a semaphore is not raised past [INT_MAX]; a thread exits when the zombie
    array has a free place. *)

Definition zombie_place (k : kst H E) : bool :=
  match k_zombies k with Some a => a_num a <? a_max a | None => false end.

Definition call_ok (c : call) (m : mach) : bool :=
  let k := m_k m in
  let t := k_cur k in
  match c with
  | CP sem => bool_decide (is_Some (k_sems k !! sem))
  | CV_ sem => match k_sems k !! sem with Some x => sem_count x <? 2 ^ 31 - 1 | None => false end
  | CAcquire lk => bool_decide (is_Some (k_locks k !! lk))
  | CRelease lk => bool_decide ((t, lk) ∈ m_held m)
  | CWait c lk => bool_decide ((t, lk) ∈ m_held m) && bool_decide (is_Some (k_cvs k !! c))
  | CSignal c lk | CBroadcast c lk => bool_decide (is_Some (k_cvs k !! c))
  | CYield | CSleep _ => true
  | CExit => zombie_place k
  end.

Definition is_running (m : mach) : bool :=
  match m_pc m !! k_cur (m_k m) with Some Running => negb (k_cur (m_k m) =? NULL) | _ => false end.

Definition enabled (e : event) (m : mach) : bool :=
  match e with
  | ECall c => is_running m && call_ok c m
  | ETick => is_running m
  | EGo => negb (k_cur (m_k m) =? NULL) && negb (is_running m)
  | EIdle | EIdleTick => k_cur (m_k m) =? NULL
  end.

(** A run: events that cannot happen are skipped. *)
Fixpoint mrun (es : list event) (m : mach) : res mach :=
  match es with
  | [] => mret m
  | e :: es => if enabled e m then m' ← mstep e m; mrun es m' else mrun es m
  end.
End mach.

(** * The invariant of the synchronization machine

    [core] is the part about the thread system (who is where, which context the
    processor is in, what the sleepers sleep on); [objs_ok] is the part about
    semaphores, locks and condition variables. *)

From stdpp Require Import functions.
From S2P Require Import Prelude StateM Heap KArray KQueue Coremap KState Thread ThreadSpec ThreadHeap Synch.

Section inv.
Context {H E : Type} `{KHeapLaws H} `{!ThreadEnv H E}.
Implicit Types (k : kst H E) (s : sched) (pc : gmap Z pcv).

(** The addresses of the objects; machines do not create or destroy any. *)
Variables (Ss Ls Cs : gset Z).

Definition in_handler pc (t : Z) : Z :=
  match pc !! t with Some (Waiting (WIntr _ _ _)) => 1 | _ => 0 end.

Definition wait_addr (w : kwait) : option Z :=
  match w with
  | WP sem _ => Some sem
  | WLock lk _ | WCvLock lk _ _ => Some lk
  | WCv c _ _ => Some c
  | WClock _ _ => Some LBOLT
  | WYield _ | WIntr _ _ _ => None
  end.

(** The levels a waiting thread will restore, and the objects it will touch. *)
Definition wait_ok (w : kwait) : Prop :=
  match w with
  | WP sem spl => sem ∈ Ss ∧ spl = 0
  | WLock lk spl => lk ∈ Ls ∧ spl = 0
  | WCv c lk spl => c ∈ Cs ∧ lk ∈ Ls ∧ spl = 0
  | WCvLock lk spl1 spl => lk ∈ Ls ∧ spl1 = SPL_HIGH ∧ spl = 0
  | WClock _ spl | WYield spl => spl = 0
  | WIntr spl savespl old_in => spl = SPL_HIGH ∧ savespl = 0 ∧ old_in = 0
  end.

Definition parked (p : pcv) : Prop :=
  match p with Running => False | Waiting w => wait_ok w | Fresh => True end.

(** Nobody sleeps on [a]. *)
Definition quiet k s (a : Z) : Prop := ∀ t, t ∈ s_sleep s → sleeps_on k a t = false.

Record core_at k s pc (f : Z → Z) (c : Z) : Prop := Core {
  co_rep : srep k s;
  co_own : towns k s;
  co_cnt : counted k s;
  co_room : room k;
  co_kern : ∀ t th, k_threads k !! t = Some th → t_vmspace th = NULL ∧ t_cwd th = NULL;
  co_int : inint_ok k f c;
  co_ctx : is_Some (k_threads k !! c);
  co_cur : s_cur s = NULL ∨ s_cur s = c;
  co_pc : ∀ t, t ∈ s_ready s ++ s_sleep s → ∃ p, pc !! t = Some p ∧ parked p;
  co_slp : ∀ t, t ∈ s_sleep s → ∃ w a, pc !! t = Some (Waiting w) ∧ wait_addr w = Some a ∧
    sleeps_on k a t = true;
}.

(** In general, [in_interrupt] is set for the threads that are inside a handler. *)
Definition core k s pc (c : Z) : Prop := core_at k s pc (in_handler pc) c.

(** The current thread [c] is inside a call, interrupts off, not in a handler. *)
Record mid k s pc (c : Z) : Prop := Mid {
  mi_core : core k s pc c;
  mi_cur : s_cur s = c;
  mi_null : c ≠ NULL;
  mi_spl : k_spl k = SPL_HIGH;
  mi_one : k_cvone k = 0;
  mi_int : in_handler pc c = 0;
}.

(** The synchronization objects are as they were. *)
Definition same_objs k k' : Prop :=
  k_sems k' = k_sems k ∧ k_locks k' = k_locks k ∧ k_cvs k' = k_cvs k ∧ k_cvone k' = k_cvone k.

(** ** Small facts *)

Lemma blocks_of_strip k k' :
  strip <$> k_threads k' = strip <$> k_threads k → ∀ t, blocks_of k' t = blocks_of k t.
Proof.
  intros Hs t. unfold blocks_of. destruct (k_threads k' !! t) as [th'|] eqn:Et.
  - destruct (strip_lookup _ _ _ _ Hs Et) as (th & -> & Heq). unfold thread_blocks.
    destruct th, th'; simplify_eq/=. done.
  - destruct (k_threads k !! t) as [th|] eqn:Et'; [|done].
    destruct (strip_lookup k' k t th (eq_sym Hs) Et') as (? & ? & _). congruence.
Qed.

Lemma sleeps_on_strip k k' a t :
  strip <$> k_threads k' = strip <$> k_threads k → sleeps_on k' a t = sleeps_on k a t.
Proof.
  intros Hs. unfold sleeps_on. destruct (k_threads k' !! t) as [th'|] eqn:Et.
  - destruct (strip_lookup _ _ _ _ Hs Et) as (th & -> & Heq). destruct th, th'; by simplify_eq/=.
  - destruct (k_threads k !! t) as [th|] eqn:Et'; [|done].
    destruct (strip_lookup k' k t th (eq_sym Hs) Et') as (? & ? & _). congruence.
Qed.

Lemma kern_strip k k' :
  strip <$> k_threads k' = strip <$> k_threads k →
  (∀ t th, k_threads k !! t = Some th → t_vmspace th = NULL ∧ t_cwd th = NULL) →
  ∀ t th, k_threads k' !! t = Some th → t_vmspace th = NULL ∧ t_cwd th = NULL.
Proof.
  intros Hs Hk t th Ht. destruct (strip_lookup _ _ _ _ Hs Ht) as (th0 & H0' & Heq).
  apply Hk in H0'. destruct th, th0; by simplify_eq/=.
Qed.

Lemma room_caps k k' : caps k' = caps k → k_num k' ≤ k_num k → room k → room k'.
Proof.
  unfold caps, room, qcap, acap. intros Hc Hn [Hq Ha]. injection Hc as Hcq Hca _. split.
  - intros q' Hq'. rewrite Hq' in *. destruct (k_runq k) as [q|]; simplify_eq/=.
    specialize (Hq q eq_refl). lia.
  - intros a' Ha'. rewrite Ha' in *. destruct (k_sleepers k) as [a|]; simplify_eq/=.
    specialize (Ha a eq_refl). lia.
Qed.

Lemma towns_move k k' s s' :
  towns k s → k_heap k' = k_heap k → strip <$> k_threads k' = strip <$> k_threads k →
  caps k' = caps k → all_threads s' ≡ₚ all_threads s →
  (∃ a, k_zombies k' = Some a ∧ array_rep a (s_zomb s')) →
  (∀ t th, k_threads k' !! t = Some th → t_vmspace th = NULL ∧ t_cwd th = NULL) →
  towns k' s'.
Proof.
  intros [Hi Hnd Hli (a & Ha & (_ & Hr & Hb & Hne) & Hdis) _] Hh Hst Hc Hp (a' & Ha' & Hr') Hk.
  assert (Heq : thr_blocks k' (all_threads s') ≡ₚ thr_blocks k (all_threads s)).
  { rewrite (thr_blocks_perm k' _ _ Hp). erewrite thr_blocks_ext; [done|].
    intros t _. by apply blocks_of_strip. }
  assert (Hptr : a_self a' = a_self a ∧ a_vptr a' = a_vptr a).
  { unfold caps, acap in Hc. rewrite Ha, Ha' in Hc. by simplify_eq/=. }
  destruct Hptr as [Hs1 Hs2].
  assert (Hbl : array_blocks a' = array_blocks a) by (unfold array_blocks; by rewrite Hs1, Hs2).
  constructor.
  - by rewrite Hh.
  - by rewrite Heq.
  - intros b. rewrite Heq, Hh. apply Hli.
  - exists a'. split_and!; [done| |].
    + split_and!; [by rewrite Hh|done|by rewrite Hbl, Hh|by rewrite Hs1, Hs2].
    + intros b. rewrite Heq, Hbl. apply Hdis.
  - intros t th _. apply Hk.
Qed.

(** ** Context switch *)

Lemma srep_perm k k' s s' :
  srep k s → srep k' s' → strip <$> k_threads k' = strip <$> k_threads k →
  all_threads s' ≡ₚ all_threads s.
Proof.
  intros Hr Hr' Hs. apply NoDup_Permutation; [apply (sr_nodup _ _ Hr')|apply (sr_nodup _ _ Hr)|].
  intros t. rewrite (sr_thr _ _ Hr' t), (sr_thr _ _ Hr t). by apply strip_is_Some.
Qed.

Lemma live_dispatch s :
  s_cur s = NULL → NULL ∉ s_ready s → live_threads (a_dispatch s) = live_threads s.
Proof.
  intros Hc Hn. unfold a_dispatch, live_threads, cur_list.
  destruct (s_ready s) as [|t R]; simpl; [by rewrite Hc|].
  replace (t =? NULL) with false by (symmetry; apply Z.eqb_neq; set_solver).
  rewrite Hc. simpl. lia.
Qed.

Lemma dispatch_lists s :
  s_sleep (a_dispatch s) = s_sleep s ∧ ∀ t, t ∈ s_ready (a_dispatch s) → t ∈ s_ready s.
Proof.
  unfold a_dispatch. destruct (s_ready s) as [|u R]; simpl; [done|].
  split; [done|]. intros t Ht. by right.
Qed.

Lemma switch_lists st s c :
  s_cur s = c → c ≠ NULL → NULL ∉ s_ready s →
  s_sleep (a_switch st s) = s_sleep s ++ (if bool_decide (st = S_SLEEP) then [c] else []) ∧
  (∀ t, t ∈ s_ready (a_switch st s) → t ∈ s_ready s ∨ (st = S_READY ∧ t = c)) ∧
  live_threads (a_switch st s) = live_threads s - (if bool_decide (st = S_ZOMB) then 1 else 0).
Proof.
  intros <- Hc Hn. unfold a_switch. replace (s_cur s =? NULL) with false by lia.
  set (s1 := a_stash st (s_cur s) (Sched NULL (s_ready s) (s_sleep s) (s_zomb s))).
  destruct (dispatch_lists s1) as [-> Hr]. split_and!.
  - by destruct st; simpl; rewrite ?app_nil_r.
  - intros t Ht%Hr. destruct st; simpl in Ht; [|by left..].
    apply elem_of_app in Ht as [?|?%list_elem_of_singleton]; auto.
  - rewrite live_dispatch; [|by destruct st|].
    + unfold live_threads, cur_list. replace (s_cur s =? NULL) with false by lia.
      destruct st; simpl; rewrite ?length_app; simpl; lia.
    + destruct st; simpl; [|done..]. rewrite not_elem_of_app, list_elem_of_singleton. by split; [|auto].
Qed.

Lemma dispatch_cur s :
  s_cur (a_dispatch s) ≠ NULL → s_cur (a_dispatch s) ∈ s_ready s.
Proof. unfold a_dispatch. destruct (s_ready s); simpl; [done|]. intros _. by left. Qed.

(** The current thread has just been switched to. *)
Definition resumable s pc : Prop :=
  s_cur s ≠ NULL → ∃ p, pc !! s_cur s = Some p ∧ parked p.

(** What the program counter of a thread must say when it gives up the processor. *)
Definition stash_pc (st : threadstate) k pc (c : Z) : Prop :=
  match st with
  | S_READY => ∃ p, pc !! c = Some p ∧ parked p
  | S_SLEEP => ∃ w a, pc !! c = Some (Waiting w) ∧ wait_ok w ∧ wait_addr w = Some a ∧
      sleeps_on k a c = true
  | S_ZOMB => True
  end.

Lemma switch_core st k s pc c :
  srep k s → towns k s → room k → counted k (a_switch st s) →
  (∀ t th, k_threads k !! t = Some th → t_vmspace th = NULL ∧ t_cwd th = NULL) →
  inint_ok k (in_handler pc) c → s_cur s = c → c ≠ NULL → k_spl k = SPL_HIGH →
  stash_room st k s →
  (∀ t, t ∈ s_ready s ++ s_sleep s → ∃ p, pc !! t = Some p ∧ parked p) →
  (∀ t, t ∈ s_sleep s → ∃ w a, pc !! t = Some (Waiting w) ∧ wait_addr w = Some a ∧
    sleeps_on k a t = true) →
  stash_pc st k pc c →
  wps (mi_switch st) k (λ _ k', core k' (a_switch st s) pc (ctx_after k' c) ∧
    k_spl k' = SPL_HIGH ∧ same_objs k k' ∧ resumable (a_switch st s) pc ∧
    ∀ a, quiet k s a → (st = S_SLEEP → sleeps_on k a c = false) → quiet k' (a_switch st s) a).
Proof.
  intros Hrep Hown Hroom Hcnt Hkern Hint Hcur Hc Hspl Hst Hpc Hslp Hme.
  pose proof (sr_null _ _ Hrep) as Hnull.
  destruct (switch_lists st s c) as (Hl1 & Hl2 & _); [done|done|set_solver|].
  eapply wps_mono; [by apply (mi_switch_spec st k s); rewrite ?Hspl, ?Hcur|].
  intros [] k' (Hrep' & Hso & Hcaps & Hnum & Hii). rewrite Hcur in Hii.
  pose proof Hso as (Hh & Hstr & Hone' & Hspl' & Hss & Hll & Hcc & _).
  assert (Hon : ∀ a t, sleeps_on k' a t = sleeps_on k a t) by (intros; by apply sleeps_on_strip).
  assert (Hkern' := kern_strip _ _ Hstr Hkern).
  pose proof (srep_perm _ _ _ _ Hrep Hrep' Hstr) as Hperm.
  assert (Hctx : is_Some (k_threads k' !! ctx_after k' c)).
  { apply (sr_thr _ _ Hrep'). unfold ctx_after. destruct (k_cur k' =? NULL) eqn:En.
    - rewrite Hperm. unfold all_threads, cur_list. rewrite Hcur.
      replace (c =? NULL) with false by lia. set_solver.
    - unfold all_threads, cur_list. rewrite <- (sr_cur _ _ Hrep'), En. set_solver. }
  split_and!; [|congruence|done| |].
  - constructor; try done; try congruence.
    + eapply (towns_move k k' s); try done. apply (sr_zomb _ _ Hrep').
    + apply (room_caps k k'); [done|by rewrite Hnum|done].
    + by apply Hii.
    + unfold ctx_after. rewrite (sr_cur _ _ Hrep').
      destruct (s_cur (a_switch st s) =? NULL) eqn:En; [left; lia|by right].
    + intros t. rewrite elem_of_app, Hl1, elem_of_app.
      intros [[Hr|[-> ->]]%Hl2|[Hs|Hs]]; [apply Hpc; set_solver|done|apply Hpc; set_solver|].
      case_bool_decide as Hs'; [|set_solver]. apply list_elem_of_singleton in Hs as ->. subst st.
      destruct Hme as (w & a & Hw & Hok & _). by exists (Waiting w).
    + intros t. rewrite Hl1, elem_of_app. intros [Hs|Hs].
      * destruct (Hslp t Hs) as (w & a & ? & ? & ?). exists w, a. by rewrite Hon.
      * case_bool_decide as Hs'; [|set_solver]. apply list_elem_of_singleton in Hs as ->. subst st.
        destruct Hme as (w & a & Hw & Hok & ? & ?). exists w, a. by rewrite Hon.
  - unfold resumable, a_switch. rewrite Hcur. replace (c =? NULL) with false by lia.
    intros Hne%dispatch_cur. revert Hne. generalize (s_cur (a_dispatch (a_stash st c
      (Sched NULL (s_ready s) (s_sleep s) (s_zomb s))))). intros u Hne.
    destruct st; simpl in Hne; [|apply Hpc; set_solver..].
    apply elem_of_app in Hne as [?| ->%list_elem_of_singleton]; [apply Hpc; set_solver|done].
  - intros a Hq Hme' t. rewrite Hl1, elem_of_app, Hon. intros [Hs|Hs]; [by apply Hq|].
    case_bool_decide; [|set_solver]. apply list_elem_of_singleton in Hs as ->. by apply Hme'.
Qed.
(** ** Going to sleep *)

Definition asleep_at (a t : Z) k : kst H E :=
  match k_threads k !! t with
  | Some th => set_threads (<[t := th_set_sleepaddr a th]> (k_threads k)) k
  | None => k
  end.

Lemma upd_sleepaddr k t a Φ :
  is_Some (k_threads k !! t) → Φ tt (asleep_at a t k) → wps (upd_thread t (th_set_sleepaddr a)) k Φ.
Proof.
  intros [th Ht]. unfold asleep_at. rewrite Ht. intros HΦ. unfold upd_thread. wps_step.
  eapply wps_get_thread; [done|]. unfold put_thread. by wps_step.
Qed.

Lemma asleep_at_is_Some a t k u :
  is_Some (k_threads (asleep_at a t k) !! u) ↔ is_Some (k_threads k !! u).
Proof.
  unfold asleep_at. destruct (k_threads k !! t) as [th|] eqn:Et; [|done]. simpl.
  rewrite lookup_insert_is_Some. destruct (decide (t = u)) as [->|]; [|naive_solver].
  rewrite Et. naive_solver.
Qed.

Lemma asleep_at_lookup a t k u th' :
  k_threads (asleep_at a t k) !! u = Some th' →
  ∃ th, k_threads k !! u = Some th ∧ (th' = th ∨ th' = th_set_sleepaddr a th).
Proof.
  unfold asleep_at. destruct (k_threads k !! t) as [th|] eqn:Et; simpl; [|eauto].
  rewrite lookup_insert_Some. intros [[<- <-]|[Hne Hu]]; eauto.
Qed.

Lemma asleep_at_sleeps a t k b u :
  is_Some (k_threads k !! t) →
  sleeps_on (asleep_at a t k) b u = if decide (u = t) then a =? b else sleeps_on k b u.
Proof.
  intros [th Ht]. unfold sleeps_on, asleep_at. rewrite Ht. simpl.
  case_decide as Hu; [subst; by rewrite lookup_insert_eq|by rewrite lookup_insert_ne].
Qed.

Lemma asleep_at_blocks a t k u : blocks_of (asleep_at a t k) u = blocks_of k u.
Proof.
  unfold blocks_of, asleep_at. destruct (k_threads k !! t) as [th|] eqn:Et; [|done]. simpl.
  destruct (decide (u = t)) as [->|]; [by rewrite lookup_insert_eq, Et|by rewrite lookup_insert_ne].
Qed.

Lemma asleep_at_same a t k :
  let k' := asleep_at a t k in
  k_heap k' = k_heap k ∧ k_cur k' = k_cur k ∧ k_sleepers k' = k_sleepers k ∧
  k_zombies k' = k_zombies k ∧ k_runq k' = k_runq k ∧ k_num k' = k_num k ∧
  k_cvone k' = k_cvone k ∧ k_inint k' = k_inint k ∧ k_spl k' = k_spl k ∧ k_tlb k' = k_tlb k ∧
  same_objs k k'.
Proof. unfold asleep_at. by destruct (k_threads k !! t). Qed.

Lemma asleep_at_srep a t k s : srep k s → srep (asleep_at a t k) s.
Proof.
  destruct (asleep_at_same a t k) as (_ & Hc & Hs & Hz & Hq & _ & _ & _ & _ & Htl & _).
  intros [Hcur Hrq Hsl Hzo Hnd Hnn Hthr Hm Hlen]. constructor; rewrite ?Hc, ?Hs, ?Hz, ?Hq, ?Htl; try done.
  - intros u. by rewrite asleep_at_is_Some.
  - intros u th' Hu. destruct (asleep_at_lookup _ _ _ _ _ Hu) as (th & Hth & [->| ->]); exact (Hm u th Hth).
Qed.

Lemma asleep_at_kern a t k :
  (∀ t th, k_threads k !! t = Some th → t_vmspace th = NULL ∧ t_cwd th = NULL) →
  ∀ u th, k_threads (asleep_at a t k) !! u = Some th → t_vmspace th = NULL ∧ t_cwd th = NULL.
Proof.
  intros Hk u th' Hu. destruct (asleep_at_lookup _ _ _ _ _ Hu) as (th & Hth & [->| ->]); exact (Hk u th Hth).
Qed.

Lemma asleep_at_towns a t k s : towns k s → towns (asleep_at a t k) s.
Proof.
  destruct (asleep_at_same a t k) as (Hh & _ & _ & Hz & _). intros [Hi Hnd Hl Ha Hd].
  assert (Hb : thr_blocks (asleep_at a t k) (all_threads s) = thr_blocks k (all_threads s))
    by (apply thr_blocks_ext; intros; apply asleep_at_blocks).
  constructor; rewrite ?Hb, ?Hh, ?Hz; try done.
  intros u th' Hs Hu. destruct (asleep_at_lookup _ _ _ _ _ Hu) as (th & Hth & [->| ->]); exact (Hd u th Hs Hth).
Qed.

Lemma asleep_at_inint a t k f c : inint_ok k f c → inint_ok (asleep_at a t k) f c.
Proof.
  intros [Hf Hr]. split; [by unfold asleep_at; destruct (k_threads k !! t)|].
  intros u th' Hu Hne. destruct (asleep_at_lookup _ _ _ _ _ Hu) as (th & Hth & [->| ->]); exact (Hr u th Hth Hne).
Qed.

Lemma in_handler_ne pc t p u : u ≠ t → in_handler (<[t := p]> pc) u = in_handler pc u.
Proof. intros Hu. unfold in_handler. by rewrite lookup_insert_ne. Qed.

Lemma inint_pc k pc c p :
  inint_ok k (in_handler pc) c → in_handler (<[c := p]> pc) c = in_handler pc c →
  inint_ok k (in_handler (<[c := p]> pc)) c.
Proof.
  intros [Hf Hr] He. split; [by rewrite He|]. intros t th Ht Hne.
  rewrite in_handler_ne by done. by apply Hr.
Qed.
Lemma sleep_core k s pc c w a :
  mid k s pc c → wait_ok w → wait_addr w = Some a →
  wps (thread_sleep a) k (λ _ k',
    core k' (a_switch S_SLEEP s) (<[c := Waiting w]> pc) (ctx_after k' c) ∧
    k_spl k' = SPL_HIGH ∧ same_objs k k' ∧
    resumable (a_switch S_SLEEP s) (<[c := Waiting w]> pc) ∧
    ∀ b, quiet k s b → b ≠ a → quiet k' (a_switch S_SLEEP s) b).
Proof.
  intros [[Hrep Hown Hcnt Hroom Hkern Hint Hctx _ Hpc Hslp] Hcur Hnull Hspl Hone Hih] Hok Ha.
  pose proof (sr_cur _ _ Hrep) as Hkc. rewrite Hcur in Hkc. pose proof Hint as [Hi0 _].
  unfold thread_sleep. wps_step. rewrite Hkc.
  apply upd_sleepaddr; [done|].
  destruct (asleep_at_same a c k) as (_ & _ & _ & _ & Hq & Hn & _ & _ & Hs & _ & Ho).
  assert (Hcn : c ∉ s_ready s ++ s_sleep s).
  { pose proof (sr_nodup _ _ Hrep) as Hnd. unfold all_threads, cur_list in Hnd. rewrite Hcur in Hnd.
    replace (c =? NULL) with false in Hnd by lia. simpl in Hnd. apply NoDup_cons in Hnd as [Hnd _].
    set_solver. }
  assert (Hroom' : room (asleep_at a c k)).
  { apply (room_caps k); [|lia|done].
    unfold caps. by destruct (asleep_at_same a c k) as (_ & _ & -> & -> & -> & _). }
  destruct (switch_lists S_SLEEP s c Hcur Hnull) as (Hl & _ & Hlive).
  { pose proof (sr_null _ _ Hrep). set_solver. }
  assert (Hcnt' : counted (asleep_at a c k) s) by (unfold counted in *; by rewrite Hn).
  eapply wps_mono; [apply (switch_core S_SLEEP (asleep_at a c k) s (<[c := Waiting w]> pc) c)|].
  - by apply asleep_at_srep.
  - by apply asleep_at_towns.
  - done.
  - unfold counted in *. rewrite Hlive. simpl. lia.
  - by apply asleep_at_kern.
  - apply asleep_at_inint, inint_pc; [done|]. rewrite Hih. unfold in_handler.
    rewrite lookup_insert_eq. by destruct w.
  - done.
  - done.
  - by rewrite Hs.
  - apply (room_stash (asleep_at a c k) s S_SLEEP); try done. by rewrite Hcur.
  - intros t Ht. rewrite lookup_insert_ne; [by apply Hpc|]. by intros ->.
  - intros t Ht. assert (t ≠ c) by (intros ->; set_solver).
    rewrite lookup_insert_ne by done. destruct (Hslp t Ht) as (w' & a' & ? & ? & ?).
    exists w', a'. rewrite asleep_at_sleeps by done. by rewrite decide_False.
  - exists w, a. rewrite lookup_insert_eq, asleep_at_sleeps by done.
    rewrite decide_True by done. split_and!; try done. lia.
  - intros [] k' (Hcore & Hspl' & Ho' & Hres & Hq'). split_and!; [done|done| |done|].
    + unfold same_objs in *. destruct_and!. split_and!; congruence.
    + intros b Hb Hne. apply Hq'.
      * intros t Ht. rewrite asleep_at_sleeps by done. rewrite decide_False by (intros ->; set_solver).
        by apply Hb.
      * intros _. rewrite asleep_at_sleeps by done. rewrite decide_True by done. lia.
Qed.
(** ** Waking up *)

Lemma wake_room k s :
  counted k s → room k → ∀ q, k_runq k = Some q → zlen (s_ready s) + zlen (s_sleep s) < q_size q.
Proof.
  intros Hc [Hq _] q Eq. specialize (Hq q Eq). unfold counted, live_threads in Hc. lia.
Qed.

Lemma wake_lists one p s :
  s_cur (a_wake one p s) = s_cur s ∧ s_zomb (a_wake one p s) = s_zomb s ∧
  s_ready (a_wake one p s) ++ s_sleep (a_wake one p s) ≡ₚ s_ready s ++ s_sleep s ∧
  (∀ t, t ∈ s_sleep (a_wake one p s) → t ∈ s_sleep s) ∧
  (one = false → ∀ t, t ∈ s_sleep (a_wake one p s) → p t = false).
Proof.
  unfold a_wake. destruct one; simpl.
  - unfold a_wake_one. destruct (take_first p (s_sleep s)) as [w r] eqn:Ef. simpl.
    apply take_first_perm in Ef. rewrite <- app_assoc, Ef. split_and!; try done.
    intros t Ht. rewrite <- Ef. set_solver.
  - split_and!; try done.
    + by rewrite <- app_assoc, split_perm.
    + intros t. rewrite list_elem_of_filter. naive_solver.
    + intros _ t. rewrite list_elem_of_filter. naive_solver.
Qed.

Lemma wake_core k s pc f c a :
  core_at k s pc f c → 0 < k_spl k →
  wps (thread_wakeup a) k (λ _ k', ∃ s', core_at k' s' pc f c ∧ s_cur s' = s_cur s ∧
    k_spl k' = k_spl k ∧ k_inint k' = k_inint k ∧ same_objs k k' ∧
    (∀ b, quiet k s b → quiet k' s' b) ∧ (k_cvone k = 0 → quiet k' s' a)).
Proof.
  intros [Hrep Hown Hcnt Hroom Hkern Hint Hctx Hcur Hpc Hslp] Hspl.
  eapply wps_mono; [by apply (thread_wakeup_spec a k s); [..|apply wake_room]|].
  intros [] k' (Hrep' & Hso & Hcaps & Hnum & Htlb & Hthr & Hii).
  pose proof Hso as (Hh & Hstr & Hone & Hs & Hss & Hll & Hcc & _).
  set (s' := a_wake (k_cvone k =? 1) (sleeps_on k a) s) in *.
  destruct (wake_lists (k_cvone k =? 1) (sleeps_on k a) s) as (Hc & Hz & Hp & Hsub & Hnone).
  fold s' in Hc, Hz, Hp, Hsub, Hnone.
  assert (Hon : ∀ b t, sleeps_on k' b t = sleeps_on k b t) by (intros; unfold sleeps_on; by rewrite Hthr).
  exists s'. split_and!; try done.
  - constructor; try done.
    + eapply (towns_move k k' s); try done.
      * by apply (srep_perm k k').
      * apply (sr_zomb _ _ Hrep').
      * by rewrite Hthr.
    + unfold counted in *. rewrite Hnum, Hcnt. unfold live_threads. rewrite Hc.
      apply Permutation_length in Hp. rewrite !length_app in Hp. lia.
    + apply (room_caps k k'); [done|lia|done].
    + by rewrite Hthr.
    + destruct Hint as [Hi1 Hi2]. split; [by rewrite Hii|by rewrite Hthr].
    + by rewrite Hthr.
    + by rewrite Hc.
    + intros t. rewrite Hp. apply Hpc.
    + intros t Ht. destruct (Hslp t (Hsub t Ht)) as (w & b & ? & ? & ?). exists w, b. by rewrite Hon.
  - intros b Hb t Ht. rewrite Hon. by apply Hb, Hsub.
  - intros Hz0 t Ht. rewrite Hon. apply Hnone; [by rewrite Hz0|done].
Qed.

(** ** Coming back from a context switch *)

Lemma back_core k s pc c :
  core k s pc c → s_cur s = c → c ≠ NULL → 0 < k_spl k →
  wps mi_switch_back k (λ _ k', core k' (a_exorcise s) pc c ∧ k_spl k' = k_spl k ∧
    k_inint k' = k_inint k ∧ same_objs k k' ∧ ∀ b, quiet k s b → quiet k' (a_exorcise s) b).
Proof.
  intros [Hrep Hown Hcnt Hroom Hkern Hint Hctx Hcur Hpc Hslp] Hc Hn Hspl.
  unfold mi_switch_back. wps_call exorcise_spec; [done..|].
  intros [] k' (Hrep' & Hown' & (zs' & h' & thr & Hk' & Hthr) & _).
  assert (Hth : k_threads k' = thr) by (by rewrite Hk').
  assert (Hsub : ∀ t th, thr !! t = Some th → k_threads k !! t = Some th).
  { intros t th. rewrite Hthr. by case_bool_decide. }
  assert (Hz : ∀ t, t ∈ cur_list (s_cur s) ++ s_ready s ++ s_sleep s → thr !! t = k_threads k !! t).
  { intros t Ht. rewrite Hthr, bool_decide_false; [done|]. intros Hz.
    pose proof (sr_nodup _ _ Hrep) as Hnd. unfold all_threads in Hnd.
    rewrite !app_assoc in Hnd. apply NoDup_app in Hnd as (_ & Hd & _). apply (Hd t); [|done].
    by rewrite <- app_assoc. }
  assert (Hcl : thr !! c = k_threads k !! c).
  { apply Hz. unfold cur_list. rewrite Hc. replace (c =? NULL) with false by lia. set_solver. }
  assert (Hon : ∀ b t, t ∈ s_sleep s → sleeps_on k' b t = sleeps_on k b t).
  { intros b t Ht. unfold sleeps_on. rewrite Hth, Hz; [done|set_solver]. }
  pose proof (sr_cur _ _ Hrep') as Hkc. simpl in Hkc.
  destruct Hctx as [th Hctx]. wps_step. rewrite Hkc, Hc.
  eapply wps_get_thread; [by rewrite Hth, Hcl|]. destruct (Hkern c th Hctx) as [-> _]. simpl. wps_step.
  split_and!; try (rewrite Hk'; done).
  - constructor; try done.
    + by rewrite Hk'.
    + unfold room. by rewrite Hk'.
    + intros t th'. rewrite Hth. intros Ht%Hsub. by apply (Hkern t).
    + destruct Hint as [Hi1 Hi2]. split; [by rewrite Hk'|]. intros t th'. rewrite Hth. intros Ht%Hsub.
      by apply Hi2.
    + by rewrite Hth, Hcl, Hctx.
    + intros t Ht. destruct (Hslp t Ht) as (w & b & ? & ? & ?). exists w, b. by rewrite Hon.
  - intros b Hb t Ht. rewrite Hon by done. by apply Hb.
Qed.
(** ** Updates the thread system does not see *)

Definition ksig k := (k_heap k, k_threads k, k_cur k, k_sleepers k, k_zombies k, k_runq k,
  k_num k, k_inint k, k_tlb k).

Lemma core_at_frame k k' s pc f c : ksig k' = ksig k → core_at k s pc f c → core_at k' s pc f c.
Proof.
  destruct k, k'. unfold ksig; simpl. intros Hs [[] [] Hc Hr Hk Hi Hx Hu Hp Hl].
  simplify_eq/=. by constructor.
Qed.

Lemma core_frame k k' s pc c : ksig k' = ksig k → core k s pc c → core k' s pc c.
Proof. apply core_at_frame. Qed.

Lemma quiet_frame k k' s a : k_threads k' = k_threads k → quiet k s a → quiet k' s a.
Proof. intros Ht Hq t. unfold sleeps_on. rewrite Ht. apply Hq. Qed.

Lemma mid_frame k k' s pc c :
  ksig k' = ksig k → k_spl k' = k_spl k → k_cvone k' = k_cvone k → mid k s pc c → mid k' s pc c.
Proof.
  intros Hs Hp Ho [Hc ? ? ? ? ?]. constructor; try congruence. by apply (core_frame k).
Qed.

Lemma sleep_back_mid k s pc c :
  mid k s pc c →
  wps thread_sleep_back k (λ _ k', ∃ s', mid k' s' pc c ∧ same_objs k k' ∧
    ∀ b, quiet k s b → quiet k' s' b).
Proof.
  intros [Hco Hcur Hnull Hspl Hone Hih]. unfold thread_sleep_back.
  wps_call back_core; [done..|by rewrite Hspl|].
  intros [] k1 (Hco1 & Hspl1 & Hint1 & Ho1 & Hq1). wps_step.
  pose proof Hco1 as [Hrep Hown Hcnt Hroom Hkern Hint Hctx _ Hpc Hslp].
  rewrite (sr_cur _ _ Hrep). simpl. rewrite Hcur. apply upd_sleepaddr; [done|].
  destruct (asleep_at_same NULL c k1) as (_ & _ & Ha1 & Ha2 & Ha3 & Hn & Hone' & _ & Hs & _ & Ho).
  assert (Hne : ∀ t, t ∈ s_sleep s → t ≠ c).
  { intros t Ht ->. pose proof (sr_nodup _ _ Hrep) as Hnd. unfold all_threads, cur_list in Hnd.
    simpl in Hnd. rewrite Hcur in Hnd. replace (c =? NULL) with false in Hnd by lia. simpl in Hnd.
    apply NoDup_cons in Hnd as [Hnd _]. set_solver. }
  exists (a_exorcise s). split_and!.
  - constructor; try done; [|congruence|].
    + constructor; try done.
      * by apply asleep_at_srep.
      * by apply asleep_at_towns.
      * unfold counted in *. congruence.
      * apply (room_caps k1); [|lia|done]. unfold caps. congruence.
      * by apply asleep_at_kern.
      * by apply asleep_at_inint.
      * by apply asleep_at_is_Some.
      * simpl. auto.
      * intros t Ht. destruct (Hslp t Ht) as (w & a & ? & ? & ?). exists w, a.
        rewrite asleep_at_sleeps by done. rewrite decide_False by auto. done.
    + unfold same_objs in *. destruct_and!. congruence.
  - unfold same_objs in *. destruct_and!. split_and!; congruence.
  - intros b Hb t Ht. rewrite asleep_at_sleeps by done. rewrite decide_False by auto.
    by apply (Hq1 b Hb).
Qed.
End inv.
