(* ===== verification/SynchSpec.v ===== *)
(** * Semaphores, locks and condition variables are correct

    The object half of the machine's invariant, the specification of every routine of
    synch.c and of the clock against it, and the theorems about runs. *)

From stdpp Require Import functions.
From S2P Require Import Prelude StateM Heap KArray KQueue Coremap KState Thread ThreadSpec ThreadHeap Synch SynchMach.

#[local] Set Default Proof Using "All".

Section spec.
Context {H E : Type} `{KHeapLaws H} `{!ThreadEnv H E}.
Implicit Types (k : kst H E) (s : sched) (pc : gmap Z pcv) (acq rel : Z → Z) (held : gset (Z * Z)).
Variables (Ss Ls Cs : gset Z).
Hypothesis Hdisj : Ss ## Ls ∧ Ss ## Cs ∧ Ls ## Cs.
Hypothesis Haddr : ∀ a, a ∈ Ss ∪ Ls ∪ Cs → a ≠ NULL ∧ a ≠ LBOLT.

Abbreviation core := (core Ss Ls Cs).
Abbreviation mid := (mid Ss Ls Cs).

Record objs_ok k s acq rel held : Prop := Objs {
  ok_sdom : dom (k_sems k) = Ss;
  ok_ldom : dom (k_locks k) = Ls;
  ok_cdom : dom (k_cvs k) = Cs;
  ok_sem : ∀ a x, k_sems k !! a = Some x →
    0 ≤ sem_count x ∧ sem_count x = rel a - acq a ∧ (0 < sem_count x → quiet k s a);
  ok_lock : ∀ a x, k_locks k !! a = Some x →
    (lock_count x = 1 ∧ (∀ t, (t, a) ∉ held) ∧ quiet k s a) ∨
    (lock_count x = 0 ∧ ∃ t, ∀ u, (u, a) ∈ held ↔ u = t);
  ok_cv : ∀ a x, k_cvs k !! a = Some x → (cv_sig x = 0 ∨ cv_sig x = 1) ∧ cv_sig x ≤ rel a - acq a;
  ok_held : ∀ t a, (t, a) ∈ held → a ∈ Ls;
}.

(** A semaphore that is down or a lock that is held: threads may sleep on it. *)
Definition busy k (a : Z) : Prop :=
  (∀ x, k_sems k !! a = Some x → sem_count x = 0) ∧
  (∀ x, k_locks k !! a = Some x → lock_count x = 0).

Lemma objs_move k k' s s' acq rel held :
  objs_ok k s acq rel held → same_objs k k' →
  (∀ b, quiet k s b → ¬ busy k b → quiet k' s' b) → objs_ok k' s' acq rel held.
Proof.
  intros [Hsd Hld Hcd Hs Hl Hc Hh] (Es & El & Ec & _) Hq.
  constructor; rewrite ?Es, ?El, ?Ec; try done.
  - intros a x Hx. destruct (Hs a x Hx) as (? & ? & Hu). split_and!; try done.
    intros Hp. apply Hq; [by apply Hu|]. intros [Hb _]. specialize (Hb x Hx). lia.
  - intros a x Hx. destruct (Hl a x Hx) as [(Hx1 & Hnh & Hu)|]; [left|by right].
    split_and!; try done. apply Hq; [done|]. intros [_ Hb]. specialize (Hb x Hx). lia.
Qed.

(** How a call leaves the machine: with the processor given up (blocked with [w] to
    do), or returned. *)
Definition switched k pc c acq rel held : Prop := ∃ s,
  core k s pc (ctx_after k c) ∧ resumable Ss Ls Cs s pc ∧
  k_spl k = SPL_HIGH ∧ k_cvone k = 0 ∧ objs_ok k s acq rel held.

Definition blocked k pc c (w : kwait) acq rel held : Prop :=
  switched k (<[c := Waiting w]> pc) c acq rel held.

Definition returned k pc c acq rel held : Prop := ∃ s,
  core k s pc c ∧ s_cur s = c ∧ c ≠ NULL ∧ k_spl k = 0 ∧ k_cvone k = 0 ∧ in_handler pc c = 0 ∧
  objs_ok k s acq rel held.

Lemma block_ok k s pc c w a acq rel held :
  mid k s pc c → objs_ok k s acq rel held → wait_ok Ss Ls Cs w → wait_addr w = Some a → busy k a →
  wps (thread_sleep a) k (λ _ k', blocked k' pc c w acq rel held).
Proof.
  intros Hm Ho Hw Ha Hb. eapply wps_mono; [by apply (sleep_core Ss Ls Cs k s pc c w a)|].
  intros [] k' (Hc & Hspl & Hs & Hr & Hq). eexists. split_and!; try done.
  - destruct Hs as (_ & _ & _ & ->). by apply Hm.
  - eapply objs_move; [done|done|]. intros b Hqb Hnb. apply Hq; [done|]. by intros ->.
Qed.

Lemma splx_ok k s pc c acq rel held :
  mid k s pc c → objs_ok k s acq rel held →
  wps (k_splx 0) k (λ _ k', returned k' pc c acq rel held).
Proof.
  intros [Hc Hcur Hn _ Hone Hi] Ho. unfold k_splx. wps_step. exists s. split_and!; try done.
  - by apply (core_frame Ss Ls Cs k).
  - by apply (objs_move k _ s).
Qed.

Lemma splhigh_mid k s pc c acq rel held :
  core k s pc c → s_cur s = c → c ≠ NULL → k_cvone k = 0 → in_handler pc c = 0 →
  objs_ok k s acq rel held →
  mid (set_spl SPL_HIGH k) s pc c ∧ objs_ok (set_spl SPL_HIGH k) s acq rel held.
Proof.
  intros Hc Hcur Hn Hone Hi Ho. split; [|by apply (objs_move k _ s)].
  constructor; try done. by apply (core_frame Ss Ls Cs k).
Qed.

Lemma back_ok k s pc c acq rel held :
  mid k s pc c → objs_ok k s acq rel held →
  wps thread_sleep_back k (λ _ k', ∃ s', mid k' s' pc c ∧ objs_ok k' s' acq rel held).
Proof.
  intros Hm Ho. eapply wps_mono; [by apply (sleep_back_mid Ss Ls Cs k s pc c)|].
  intros [] k' (s' & Hm' & Hs & Hq). exists s'. split; [done|].
  apply (objs_move k k' s); auto.
Qed.

Lemma mid_inint k s pc c : mid k s pc c → k_inint k = 0.
Proof. intros [[_ _ _ _ _ [-> _]] _ _ _ _ Hi]. done. Qed.

(** ** Reading and writing the objects *)

Lemma wps_splhigh k Φ : wps k_splhigh k Φ ↔ Φ (k_spl k) (set_spl SPL_HIGH k).
Proof using Type. done. Qed.

Lemma wps_get_sem k a x Φ : k_sems k !! a = Some x → Φ x k → wps (get_sem a) k Φ.
Proof using Type. intros Hx. unfold wps, get_sem. by rewrite Hx. Qed.

Lemma wps_get_lock k a x Φ : k_locks k !! a = Some x → Φ x k → wps (get_lock a) k Φ.
Proof using Type. intros Hx. unfold wps, get_lock. by rewrite Hx. Qed.

Lemma wps_get_cv k a x Φ : k_cvs k !! a = Some x → Φ x k → wps (get_cv a) k Φ.
Proof using Type. intros Hx. unfold wps, get_cv. by rewrite Hx. Qed.

Lemma sem_lookup k s acq rel held a :
  objs_ok k s acq rel held → a ∈ Ss → ∃ x, k_sems k !! a = Some x ∧ k_locks k !! a = None.
Proof.
  intros Ho Ha. pose proof Ha as Ha'. rewrite <- (ok_sdom _ _ _ _ _ Ho) in Ha'.
  apply elem_of_dom in Ha' as [x Hx]. exists x. split; [done|].
  apply not_elem_of_dom. rewrite (ok_ldom _ _ _ _ _ Ho). set_solver.
Qed.

Lemma lock_lookup k s acq rel held a :
  objs_ok k s acq rel held → a ∈ Ls → ∃ x, k_locks k !! a = Some x ∧ k_sems k !! a = None.
Proof.
  intros Ho Ha. pose proof Ha as Ha'. rewrite <- (ok_ldom _ _ _ _ _ Ho) in Ha'.
  apply elem_of_dom in Ha' as [x Hx]. exists x. split; [done|].
  apply not_elem_of_dom. rewrite (ok_sdom _ _ _ _ _ Ho). set_solver.
Qed.

(** A semaphore is not a condition variable. *)
Lemma sem_not_cv k s acq rel held a b x y :
  objs_ok k s acq rel held → k_sems k !! a = Some x → k_cvs k !! b = Some y → a ≠ b.
Proof.
  intros Ho Hx%elem_of_dom_2 Hy%elem_of_dom_2 ->. rewrite (ok_sdom _ _ _ _ _ Ho) in Hx. rewrite (ok_cdom _ _ _ _ _ Ho) in Hy. set_solver.
Qed.

Lemma not_busy_free k s acq rel held a :
  objs_ok k s acq rel held → a ∉ Ss → a ∉ Ls → busy k a.
Proof.
  intros Ho Hs Hl. rewrite <- (ok_sdom _ _ _ _ _ Ho) in Hs. rewrite <- (ok_ldom _ _ _ _ _ Ho) in Hl.
  apply not_elem_of_dom in Hs, Hl. split; intros x; congruence.
Qed.

Lemma mid_put_sem k s pc c m : mid k s pc c → mid (set_sems m k) s pc c.
Proof. by apply mid_frame. Qed.
Lemma mid_put_lock k s pc c m : mid k s pc c → mid (set_locks m k) s pc c.
Proof. by apply mid_frame. Qed.
Lemma mid_put_cv k s pc c m : mid k s pc c → mid (set_cvs m k) s pc c.
Proof. by apply mid_frame. Qed.

Lemma wake_mid k s pc c a :
  mid k s pc c →
  wps (thread_wakeup a) k (λ _ k', ∃ s', mid k' s' pc c ∧ same_objs k k' ∧
    (∀ b, quiet k s b → quiet k' s' b) ∧ quiet k' s' a).
Proof.
  intros [Hc Hcur Hn Hspl Hone Hi].
  eapply wps_mono; [apply (wake_core Ss Ls Cs k s pc (in_handler pc) c a); [done|by rewrite Hspl]|].
  intros [] k' (s' & Hc' & Hcur' & Hspl' & _ & Hso & Hq & Hqa). exists s'. split_and!; auto.
  destruct Hso as (_ & _ & _ & Hone'). constructor; try done; congruence.
Qed.

(** ** Semaphores *)

Lemma P_loop_ok k s pc c sem acq rel held :
  mid k s pc c → objs_ok k s acq rel held → sem ∈ Ss →
  wps (P_loop sem 0) k (λ r k',
    match r with
    | Some w => w = WP sem 0 ∧ blocked k' pc c w acq rel held
    | None => returned k' pc c (<[sem := acq sem + 1]> acq) rel held
    end).
Proof.
  intros Hm Ho Hs. destruct (sem_lookup _ _ _ _ _ _ Ho Hs) as (x & Hx & Hnl).
  destruct (ok_sem _ _ _ _ _ Ho sem x Hx) as (Hpos & Hcnt & Hq).
  unfold P_loop. wps_step. eapply wps_get_sem; [done|]. destruct (sem_count x =? 0) eqn:E0.
  - rewrite wps_bind. eapply wps_mono; [apply (block_ok k s pc c (WP sem 0)); try done|].
    { split; intros y Hy; simplify_eq; lia. }
    intros [] k' Hb. by wps_step.
  - unfold put_sem. wps_step. eapply wps_mono; [apply (splx_ok _ s); [by apply mid_put_sem|]|].
    2: { intros ? k' Hr. wps_step. exact Hr. }
    pose proof (λ b y, sem_not_cv _ _ _ _ _ sem b x y Ho Hx) as Hcv.
    destruct Ho as [Hsd Hld Hcd Hss Hl Hc Hh]. constructor; simpl; try done.
    + rewrite dom_insert_L. set_solver.
    + intros a y. rewrite lookup_insert_Some. intros [[<- <-]|[Hne Hy]]; simpl.
      * rewrite fn_lookup_insert. split_and!; [lia|lia|]. intros _. apply Hq. lia.
      * rewrite fn_lookup_insert_ne by done. by apply Hss.
    + intros a y Hy. rewrite fn_lookup_insert_ne by (by eapply Hcv). by apply Hc.
Qed.

Lemma V_ok k s pc c sem acq rel held :
  mid k s pc c → objs_ok k s acq rel held →
  (∃ x, k_sems k !! sem = Some x ∧ sem_count x < 2 ^ 31 - 1) →
  wps (x ← get_sem sem;
       let count := s32 (sem_count x + 1) in
       _ ← put_sem sem (Sem (sem_name x) count);
       _ ← asrt (count >? 0);
       _ ← thread_wakeup sem;
       _ ← k_splx 0; mret tt) k (λ _ k', returned k' pc c acq (<[sem := rel sem + 1]> rel) held).
Proof.
  intros Hm Ho (x & Hx & Hlt). destruct (ok_sem _ _ _ _ _ Ho sem x Hx) as (Hpos & Hcnt & Hq).
  wps_step. eapply wps_get_sem; [done|]. unfold put_sem. rewrite s32_id by in_range.
  wps_step. set (k1 := set_sems _ k). assert (Hm1 : mid k1 s pc c) by (by apply mid_put_sem).
  wps_call (wake_mid k1 s pc c sem); [done|].
  intros [] k2 (s2 & Hm2 & (Es & El & Ec & Eone) & Hq2 & Hq2').
  rewrite wps_bind. eapply wps_mono; [apply (splx_ok k2 s2)|]; [done| |intros ? k' Hr; wps_step; exact Hr].
  - pose proof (λ b y, sem_not_cv _ _ _ _ _ sem b x y Ho Hx) as Hcv.
    destruct Ho as [Hsd Hld Hcd Hss Hl Hc Hh].
    constructor; rewrite ?Es, ?El, ?Ec; simpl; try done.
    + rewrite dom_insert_L. apply elem_of_dom_2 in Hx. set_solver.
    + intros a y. rewrite lookup_insert_Some. intros [[<- <-]|[Hne Hy]]; simpl.
      * rewrite fn_lookup_insert. split_and!; [lia|lia|]. intros _. apply Hq2'.
      * rewrite fn_lookup_insert_ne by done. destruct (Hss a y Hy) as (? & ? & ?). split_and!; auto.
    + intros a y Hy. destruct (Hl a y Hy) as [(? & ? & ?)|]; [left; split_and!; auto|by right].
    + intros a y Hy. rewrite fn_lookup_insert_ne by (by eapply Hcv). by apply Hc.
Qed.
(** ** Locks *)

Lemma acquire_loop_ok k s pc c lk spl w acq rel held :
  mid k s pc c → objs_ok k s acq rel held → lk ∈ Ls →
  wait_ok Ss Ls Cs w → wait_addr w = Some lk →
  wps (acquire_loop lk spl w) k (λ r k',
    match r with
    | Some w' => w' = w ∧ blocked k' pc c w acq rel held
    | None => ∃ k1, k' = set_spl spl k1 ∧ mid k1 s pc c ∧
                objs_ok k1 s acq rel (held ∪ {[(c, lk)]})
    end).
Proof.
  intros Hm Ho Hl Hw Ha. destruct (lock_lookup _ _ _ _ _ _ Ho Hl) as (x & Hx & Hns).
  pose proof (ok_lock _ _ _ _ _ Ho lk x Hx) as Hst.
  unfold acquire_loop. wps_step. eapply wps_get_lock; [done|]. destruct (lock_count x =? 0) eqn:E0.
  - rewrite wps_bind. eapply wps_mono; [apply (block_ok k s pc c w lk); try done|].
    { split; intros y Hy; simplify_eq; lia. }
    intros [] k' Hb. by wps_step.
  - destruct Hst as [(H1' & Hfree & Hq)|[? _]]; [|lia].
    unfold put_lock, k_splx. wps_step. eexists. split; [done|]. split; [by apply mid_put_lock|].
    destruct Ho as [Hsd Hld Hcd Hss Hll Hc Hh]. constructor; simpl; try done.
    + rewrite dom_insert_L. set_solver.
    + intros a y. rewrite lookup_insert_Some. intros [[<- <-]|[Hne Hy]]; simpl.
      * right. split; [lia|]. exists c. set_solver.
      * destruct (Hll a y Hy) as [(? & ? & ?)|[? [t Ht]]]; [left; split_and!; try done; set_solver|right].
        split; [done|]. exists t. set_solver.
    + intros t a. rewrite elem_of_union, elem_of_singleton. intros [?|?]; [by eapply Hh|by simplify_eq].
Qed.

(** What [lock_release] and [cv_wait] do to the lock. *)
Lemma release_ok {A} (rest : stm (kst H E) A) Φ k s pc c lk acq rel held :
  mid k s pc c → objs_ok k s acq rel held → (c, lk) ∈ held →
  (∀ k' s', mid k' s' pc c → objs_ok k' s' acq rel (held ∖ {[(c, lk)]}) → wps rest k' Φ) →
  wps (x ← get_lock lk;
       let count := s32 (lock_count x + 1) in
       _ ← put_lock lk (Lock (lock_name x) count);
       _ ← asrt (count =? 1);
       _ ← thread_wakeup lk;
       rest) k Φ.
Proof.
  intros Hm Ho Hc Hrest. assert (Hl : lk ∈ Ls) by (by eapply ok_held).
  destruct (lock_lookup _ _ _ _ _ _ Ho Hl) as (x & Hx & Hns).
  destruct (ok_lock _ _ _ _ _ Ho lk x Hx) as [(_ & Hno & _)|[H0' [t Ht]]]; [by apply Hno in Hc|].
  wps_step. eapply wps_get_lock; [done|]. unfold put_lock. rewrite H0'. wps_step.
  set (k1 := set_locks _ k). assert (Hm1 : mid k1 s pc c) by (by apply mid_put_lock).
  wps_call (wake_mid k1 s pc c lk); [done|].
  intros [] k2 (s2 & Hm2 & (Es & El & Ec & _) & Hq2 & Hq2'). apply (Hrest k2 s2); [done|].
  destruct Ho as [Hsd Hld Hcd Hss Hll Hcv Hh].
  constructor; rewrite ?Es, ?El, ?Ec; simpl; try done.
  - rewrite dom_insert_L. set_solver.
  - intros a y Hy. destruct (Hss a y Hy) as (? & ? & ?). split_and!; auto.
  - intros a y. rewrite lookup_insert_Some. intros [[<- <-]|[Hne Hy]]; simpl.
    + left. split_and!; [done| |done]. intros u. rewrite elem_of_difference, elem_of_singleton.
      intros [Hu Hnu]. apply Ht in Hu, Hc. congruence.
    + destruct (Hll a y Hy) as [(? & ? & ?)|[? [u Hu]]]; [left; split_and!; auto; set_solver|right].
      split; [done|]. exists u. intros v. rewrite <- Hu. set_solver.
  - intros u a. rewrite elem_of_difference. intros [? _]. by eapply Hh.
Qed.
(** ** Condition variables *)

(** The flag of [c] is set to [v]; the counts change only at [c]. *)
Lemma objs_put_cv k s acq rel acq' rel' held c n v :
  objs_ok k s acq rel held → c ∈ Cs → v = 0 ∨ v = 1 → v ≤ rel' c - acq' c →
  (∀ a, a ≠ c → acq' a = acq a ∧ rel' a = rel a) →
  objs_ok (set_cvs (<[c := CV n v]> (k_cvs k)) k) s acq' rel' held.
Proof.
  intros [Hsd Hld Hcd Hss Hll Hcv Hh] Hc Hv Hle Heq. constructor; simpl; try done.
  - rewrite dom_insert_L. set_solver.
  - intros a x Hx. destruct (Heq a) as [-> ->]; [|by apply Hss]. intros ->. apply elem_of_dom_2 in Hx. set_solver.
  - intros a y. rewrite lookup_insert_Some. intros [[<- <-]|[Hne Hy]]; [done|]. destruct (Heq a) as [-> ->]; [done|]. by apply Hcv.
Qed.

Lemma cv_lookup k s acq rel held a :
  objs_ok k s acq rel held → a ∈ Cs → ∃ x, k_cvs k !! a = Some x.
Proof. intros Ho Ha. rewrite <- (ok_cdom _ _ _ _ _ Ho) in Ha. by apply elem_of_dom in Ha. Qed.

Lemma set_spl_mid k s pc c acq rel held :
  mid k s pc c → objs_ok k s acq rel held →
  mid (set_spl SPL_HIGH k) s pc c ∧ objs_ok (set_spl SPL_HIGH k) s acq rel held.
Proof. intros [] Ho. by apply splhigh_mid. Qed.

(** The last part of [cv_wait]: the lock is taken again. *)
Definition lock_again pc c lk acq rel held (r : option kwait) k' : Prop :=
  match r with
  | Some w => w = WCvLock lk SPL_HIGH 0 ∧ blocked k' pc c w acq rel held
  | None => returned k' pc c acq rel (held ∪ {[(c, lk)]})
  end.

Lemma relock_ok k s pc c lk acq rel held :
  mid k s pc c → objs_ok k s acq rel held → lk ∈ Ls →
  wps (r ← acquire_loop lk SPL_HIGH (WCvLock lk SPL_HIGH 0);
       match r with
       | Some w => mret (Some w)
       | None => _ ← k_splx 0; mret None
       end) k (lock_again pc c lk acq rel held).
Proof.
  intros Hm Ho Hl. wps_call (acquire_loop_ok k s pc c lk); try done.
  intros [w|] k'; simpl.
  - intros [-> Hb]. by wps_step.
  - intros (k1 & -> & Hm1 & Ho1). destruct (set_spl_mid _ _ _ _ _ _ _ Hm1 Ho1) as [Hm2 Ho2].
    by wps_call (splx_ok _ s).
Qed.

Lemma cv_relock_ok k s pc c lk acq rel held :
  mid k s pc c → objs_ok k s acq rel held → lk ∈ Ls →
  wps (cv_relock lk 0) k (lock_again pc c lk acq rel held).
Proof.
  intros Hm Ho Hl. destruct (Haddr lk) as [Hn _]; [set_solver|].
  destruct (set_spl_mid _ _ _ _ _ _ _ Hm Ho) as [Hm2 Ho2].
  pose proof (mid_inint _ _ _ _ Hm) as Hi.
  unfold cv_relock. wps_step. rewrite wps_splhigh, (mi_spl _ _ _ _ _ _ _ Hm).
  by apply relock_ok with s.
Qed.

Lemma cv_loop_ok k s pc c cv lk acq rel held :
  mid k s pc c → objs_ok k s acq rel held → cv ∈ Cs → lk ∈ Ls →
  wps (cv_loop cv lk 0) k (λ r k',
    (∃ w, r = Some w ∧ w = WCv cv lk 0 ∧ blocked k' pc c w acq rel held) ∨
    lock_again pc c lk (<[cv := acq cv + 1]> acq) rel held r k').
Proof.
  intros Hm Ho Hc Hl. destruct (cv_lookup _ _ _ _ _ _ Ho Hc) as (x & Hx).
  destruct (ok_cv _ _ _ _ _ Ho cv x Hx) as [[H0'|H1'] Hle];
    unfold cv_loop; wps_step; (eapply wps_get_cv; [done|]).
  - rewrite H0'. simpl. rewrite wps_bind.
    eapply wps_mono; [apply (block_ok k s pc c (WCv cv lk 0) cv); try done|].
    { eapply not_busy_free; [done|set_solver..]. }
    intros [] k' Hb. wps_step. left. by eexists.
  - rewrite H1'. simpl. unfold put_cv. wps_step.
    eapply wps_mono; [apply (cv_relock_ok _ s pc c lk (<[cv := acq cv + 1]> acq) rel held); [by apply mid_put_cv| |done]|].
    { eapply objs_put_cv; [done|done|by left|rewrite fn_lookup_insert; lia|]. intros a Ha. by rewrite fn_lookup_insert_ne. }
    intros r k' Hr. by right.
Qed.

(** A signal or a broadcast. *)
Lemma objs_post k s acq rel held cv x :
  objs_ok k s acq rel held → cv ∈ Cs → k_cvs k !! cv = Some x →
  objs_ok (set_cvs (<[cv := CV (cv_name x) 1]> (k_cvs k)) k) s acq (<[cv := rel cv + 1]> rel) held.
Proof.
  intros Ho Hc Hx. destruct (ok_cv _ _ _ _ _ Ho cv x Hx) as [Hv Hle].
  eapply objs_put_cv; [done|done|by right|rewrite fn_lookup_insert; lia|]. intros a Ha. by rewrite fn_lookup_insert_ne.
Qed.

Lemma cv_signal_ok k s pc c cv lk acq rel held :
  core k s pc c → s_cur s = c → c ≠ NULL → k_cvone k = 0 → in_handler pc c = 0 → k_spl k = 0 →
  objs_ok k s acq rel held → cv ∈ Cs →
  wps (cv_signal cv lk) k (λ _ k', returned k' pc c acq (<[cv := rel cv + 1]> rel) held).
Proof.
  intros Hco Hcur Hn Hone Hih Hspl Ho Hc. destruct (cv_lookup _ _ _ _ _ _ Ho Hc) as (x & Hx).
  unfold cv_signal, k_splhigh, k_splx. wps_step. eapply wps_get_cv; [done|]. unfold put_cv. wps_step.
  match goal with |- wps _ ?q _ => set (k1 := q) end.
  assert (Ho1 : objs_ok k1 s acq (<[cv := rel cv + 1]> rel) held).
  { apply (objs_post k s acq rel held cv x) in Ho; [|done|done]. destruct Ho. by constructor. }
  wps_call (wake_core Ss Ls Cs k1 s pc (in_handler pc) c cv); [by apply (core_frame Ss Ls Cs k)|done|].
  intros [] k2 (s2 & Hc2 & Hcur2 & Hspl2 & Hint2 & Hso & Hq & _). wps_step. rewrite Hspl.
  exists s2. split_and!; try done.
  - by apply (core_frame Ss Ls Cs k2).
  - by rewrite Hcur2.
  - apply (objs_move (set_cvone 0 k1) _ s); [destruct Ho1; by constructor| |].
    + destruct Hso as (? & ? & ? & _). by split_and!.
    + intros b Hb _. apply Hq, Hb.
Qed.
Lemma cv_broadcast_ok k s pc c cv lk acq rel held :
  core k s pc c → s_cur s = c → c ≠ NULL → k_cvone k = 0 → in_handler pc c = 0 → k_spl k = 0 →
  objs_ok k s acq rel held → cv ∈ Cs →
  wps (cv_broadcast cv lk) k (λ _ k', returned k' pc c acq (<[cv := rel cv + 1]> rel) held).
Proof.
  intros Hco Hcur Hn Hone Hih Hspl Ho Hc. destruct (cv_lookup _ _ _ _ _ _ Ho Hc) as (x & Hx).
  destruct (splhigh_mid k s pc c acq rel held) as [Hm1 Ho1]; try done.
  unfold cv_broadcast. rewrite wps_bind, wps_splhigh. wps_step. eapply wps_get_cv; [done|].
  unfold put_cv. wps_step.
  apply (objs_post _ _ _ _ _ cv x) in Ho1; [|done|done].
  wps_call wake_mid; [by apply (mid_put_cv _ s)|]. intros [] k2 (s2 & Hm2 & Hso & Hq & _).
  rewrite Hspl. wps_call (splx_ok k2 s2); [done| |intros ? k' Hr; wps_step; exact Hr].
  eapply (objs_move _ k2 s); [done|done|]. auto.
Qed.

(** ** The clock *)

Lemma clocksleep_loop_ok k s pc c n acq rel held :
  mid k s pc c → objs_ok k s acq rel held →
  wps (clocksleep_loop n 0) k (λ r k',
    match r with
    | Some w => w = WClock n 0 ∧ blocked k' pc c w acq rel held
    | None => returned k' pc c acq rel held
    end).
Proof.
  intros Hm Ho. unfold clocksleep_loop. destruct (n >? 0).
  - wps_call (block_ok k s pc c (WClock n 0) LBOLT); try done.
    eapply not_busy_free; [done|..]; intros Hl; destruct (Haddr LBOLT) as [_ ?]; set_solver.
  - by wps_call (splx_ok k s).
Qed.
End spec.
