(* ===== verification/SynchRun.v ===== *)
(** * Runs of the synchronization machine

    Every event keeps the invariant, so no run fails, and the properties the
    invariant states hold in every state of every run. *)

From stdpp Require Import functions.
From S2P Require Import Prelude StateM Heap KArray KQueue Coremap KState Thread ThreadSpec ThreadHeap Synch SynchMach SynchSpec.

#[local] Set Default Proof Using "All".

Section run.
Context {H E : Type} `{KHeapLaws H} `{!ThreadEnv H E} `{!ThreadEnvLaws H E}.
Implicit Types (k : kst H E) (s : sched) (pc : gmap Z pcv) (acq rel : Z → Z) (held : gset (Z * Z)).
Implicit Types (m : mach (H := H) (E := E)).
Variables (Ss Ls Cs : gset Z).
Hypothesis Hdisj : Ss ## Ls ∧ Ss ## Cs ∧ Ls ## Cs.
Hypothesis Haddr : ∀ a, a ∈ Ss ∪ Ls ∪ Cs → a ≠ NULL ∧ a ≠ LBOLT.

Abbreviation core := (core Ss Ls Cs).
Abbreviation mid := (mid Ss Ls Cs).
Abbreviation objs_ok := (objs_ok Ss Ls Cs).
Abbreviation switched := (switched Ss Ls Cs).
Abbreviation blocked := (blocked Ss Ls Cs).
Abbreviation returned := (returned Ss Ls Cs).
Abbreviation parked := (parked Ss Ls Cs).
Abbreviation resumable := (resumable Ss Ls Cs).

Abbreviation objs_move := (objs_move Ss Ls Cs Hdisj Haddr).
Abbreviation splhigh_mid := (splhigh_mid Ss Ls Cs Hdisj Haddr).

(** Where the processor is: idle, in the code of a thread, or just back from a switch. *)
Definition status k s pc c : Prop :=
  (s_cur s = NULL ∧ k_spl k = SPL_HIGH) ∨
  (s_cur s = c ∧ c ≠ NULL ∧
    ((pc !! c = Some Running ∧ k_spl k = 0) ∨
     (∃ p, pc !! c = Some p ∧ parked p ∧ k_spl k = SPL_HIGH))).

Definition minv m : Prop := ∃ s,
  core (m_k m) s (m_pc m) (m_ctx m) ∧ k_cvone (m_k m) = 0 ∧
  objs_ok (m_k m) s (m_acq m) (m_rel m) (m_held m) ∧ status (m_k m) s (m_pc m) (m_ctx m).

Lemma cur_not_listed k s c :
  srep k s → s_cur s = c → c ≠ NULL → c ∉ s_ready s ++ s_sleep s.
Proof.
  intros Hrep Hcur Hn. pose proof (sr_nodup _ _ Hrep) as Hnd. unfold all_threads, cur_list in Hnd.
  rewrite Hcur in Hnd. replace (c =? NULL) with false in Hnd by lia. simpl in Hnd.
  apply NoDup_cons in Hnd as [Hnd _]. set_solver.
Qed.

(** The program counter of the current thread matters only to [in_handler]. *)
Lemma core_pc k k' s pc c p :
  core_at Ss Ls Cs k s pc (in_handler pc) c → s_cur s = c → c ≠ NULL →
  ksig k' = ksig (set_inint (in_handler (<[c := p]> pc) c) k) → core k' s (<[c := p]> pc) c.
Proof.
  intros Hc Hcur Hn Hs. apply (core_at_frame _ _ _ _ _ _ _ _ _ Hs).
  destruct Hc as [Hrep Hown Hcnt Hroom Hkern Hint Hctx Hcu Hpc Hslp].
  pose proof (cur_not_listed _ _ _ Hrep Hcur Hn) as Hnl.
  constructor; try done.
  - destruct Hrep. by constructor.
  - destruct Hown. by constructor.
  - destruct Hint as [_ Hi]. split; [done|]. intros t th Ht Hne.
    rewrite in_handler_ne by done. by apply Hi.
  - intros t Ht. rewrite lookup_insert_ne; [by apply Hpc|]. by intros ->.
  - intros t Ht. rewrite lookup_insert_ne; [by apply Hslp|]. intros ->. set_solver.
Qed.

Lemma switched_minv k pc c acq rel held :
  switched k pc c acq rel held → minv (Mach k pc (ctx_after k c) acq rel held).
Proof.
  intros (s & Hc & Hr & Hspl & Hone & Ho). exists s. split_and!; try done. simpl.
  pose proof (co_cur _ _ _ _ _ _ _ _ Hc) as Hcur. unfold status.
  destruct (decide (s_cur s = NULL)) as [?|Hn]; [by left|]. right. destruct Hcur as [?|Hcur]; [done|].
  destruct (Hr Hn) as (p & Hp & Hk). rewrite <- Hcur. split_and!; try done. right. by exists p.
Qed.

Lemma returned_minv k pc c acq rel held :
  returned k pc c acq rel held →
  minv (Mach k (<[c := Running]> pc) (ctx_after k c) acq rel held).
Proof.
  intros (s & Hc & Hcur & Hn & Hspl & Hone & Hi & Ho).
  assert (Hx : ctx_after k c = c).
  { unfold ctx_after. rewrite (sr_cur _ _ (co_rep _ _ _ _ _ _ _ _ Hc)), Hcur.
    by replace (c =? NULL) with false by lia. }
  exists s. simpl. rewrite Hx. split_and!; try done.
  - apply (core_pc k); try done. destruct (co_int _ _ _ _ _ _ _ _ Hc) as [Hki _].
    assert (in_handler (<[c := Running]> pc) c = k_inint k) as ->; [|by destruct k].
    rewrite Hki, Hi. unfold in_handler. by rewrite lookup_insert_eq.
  - right. split_and!; try done. left. by rewrite lookup_insert_eq.
Qed.

(** ** Giving up the processor without sleeping *)

Lemma yield_ok k s pc c w acq rel held :
  core k s pc c → s_cur s = c → c ≠ NULL → k_cvone k = 0 → pc !! c = Some (Waiting w) →
  wait_ok Ss Ls Cs w → objs_ok k s acq rel held →
  wps thread_yield k (λ r k', r = k_spl k ∧ blocked k' pc c w acq rel held).
Proof.
  intros Hc Hcur Hn Hone Hpc Hw Ho. pose proof Hc as [Hrep Hown Hcnt Hroom Hkern Hint Hctx Hcu Hpcs Hslp].
  destruct (sr_sleep _ _ Hrep) as (a & Ha & _). unfold thread_yield. rewrite wps_bind, wps_splhigh.
  rewrite wps_bind. eapply wps_get_opt; [done|].
  destruct (switch_lists S_READY s c Hcur Hn) as (_ & _ & Hlive).
  { pose proof (sr_null _ _ Hrep). set_solver. }
  assert (Hcf : core (set_spl SPL_HIGH k) s pc c) by (by apply (core_frame _ _ _ k)).
  destruct Hcf as [Hrep1 Hown1 Hcnt1 Hroom1 Hkern1 Hint1 _ _ _ Hslp1].
  wps_call (switch_core Ss Ls Cs S_READY (set_spl SPL_HIGH k) s pc c); try done.
  - unfold counted in *. rewrite Hlive. simpl. rewrite Z.sub_0_r. done.
  - apply (room_stash (set_spl SPL_HIGH k) s S_READY); try done. by rewrite Hcur.
  - by exists (Waiting w).
  - intros [] k' (Hc' & Hspl' & Hso & Hr & Hq). wps_step. split; [done|].
    exists (a_switch S_READY s). rewrite insert_id by done. split_and!; try done.
    + destruct Hso as (_ & _ & _ & ->). done.
    + apply (objs_move k k' s); [done|done|]. intros b Hb _. apply Hq; [|done].
      by apply (quiet_frame k).
Qed.
(** ** Calls *)

Lemma running_inv m :
  minv m → is_running m = true → ∃ s, core (m_k m) s (m_pc m) (m_ctx m) ∧
    s_cur s = m_ctx m ∧ m_ctx m ≠ NULL ∧ k_cur (m_k m) = m_ctx m ∧ k_cvone (m_k m) = 0 ∧
    in_handler (m_pc m) (m_ctx m) = 0 ∧ k_spl (m_k m) = 0 ∧
    objs_ok (m_k m) s (m_acq m) (m_rel m) (m_held m).
Proof.
  intros (s & Hc & Hone & Ho & Hst) Hr. exists s.
  pose proof (sr_cur _ _ (co_rep _ _ _ _ _ _ _ _ Hc)) as Hk. unfold is_running in Hr.
  destruct (m_pc m !! k_cur (m_k m)) as [[]|] eqn:Ep; try done.
  destruct Hst as [[Hn _]|(Hcur & Hn & [[Hpc Hspl]|(p & Hp & Hpk & _)])].
  - rewrite Hk, Hn in Hr. done.
  - split_and!; try done; [congruence|]. unfold in_handler. by rewrite Hpc.
  - exfalso. rewrite Hk, Hcur, Hp in Ep. by simplify_eq/=.
Qed.

(** Calls that return, or block, as their ghost effect says. *)
Definition call_post m (c : call) (o : outcome) k' : Prop :=
  let t := k_cur (m_k m) in
  minv (settle t o k' (ghost_through (call_cv c) o
    (match o with Returned => ghost_call c t (ghost_start c t m) | _ => ghost_start c t m end))).

Lemma inint_zero k s pc c : core k s pc c → in_handler pc c = 0 → k_inint k = 0.
Proof. intros [_ _ _ _ _ [-> _]] Hi. done. Qed.

Lemma P_call m sem :
  minv m → is_running m = true → sem ∈ Ss → wps (exec_call (CP sem)) (m_k m) (call_post m (CP sem)).
Proof.
  intros Hm Hr Hs. destruct (running_inv m Hm Hr) as (s & Hc & Hcur & Hn & Hk & Hone & Hi & Hspl & Ho).
  destruct (Haddr sem) as [Hsn _]; [set_solver|].
  destruct (splhigh_mid _ s _ _ _ _ _ Hc Hcur Hn Hone Hi Ho) as [Hm1 Ho1].
  pose proof (inint_zero _ _ _ _ Hc Hi) as Hi0.
  unfold exec_call, as_outcome, P. wps_step. rewrite wps_splhigh, Hspl.
  eapply wps_mono; [by apply (P_loop_ok Ss Ls Cs Hdisj Haddr _ s)|].
  unfold call_post. rewrite Hk. intros [w|] k'; simpl.
  - intros [_ Hb]. wps_step. by apply switched_minv.
  - intros Hb. wps_step. by apply returned_minv.
Qed.

Lemma V_call m sem :
  minv m → is_running m = true → call_ok (CV_ sem) m = true →
  wps (exec_call (CV_ sem)) (m_k m) (call_post m (CV_ sem)).
Proof.
  intros Hm Hr Hs. destruct (running_inv m Hm Hr) as (s & Hc & Hcur & Hn & Hk & Hone & Hi & Hspl & Ho).
  simpl in Hs. destruct (k_sems (m_k m) !! sem) as [x|] eqn:Ex; [|done].
  assert (sem ∈ Ss) as Hin.
  { rewrite <- (ok_sdom _ _ _ _ _ _ _ _ Ho). by eapply elem_of_dom_2. }
  destruct (Haddr sem) as [Hsn _]; [set_solver|].
  destruct (splhigh_mid _ s _ _ _ _ _ Hc Hcur Hn Hone Hi Ho) as [Hm1 Ho1].
  unfold exec_call, V. rewrite !wps_bind, wps_asrt. split; [lia|].
  rewrite wps_bind, wps_splhigh, Hspl.
  eapply wps_mono; [apply (V_ok Ss Ls Cs Hdisj Haddr _ s); [done|done|]|].
  { exists x. simpl. split; [done|lia]. }
  unfold call_post. rewrite Hk. intros [] k' Hb. wps_step. by apply returned_minv.
Qed.
Lemma acquire_call m lk :
  minv m → is_running m = true → lk ∈ Ls →
  wps (exec_call (CAcquire lk)) (m_k m) (call_post m (CAcquire lk)).
Proof.
  intros Hm Hr Hl. destruct (running_inv m Hm Hr) as (s & Hc & Hcur & Hn & Hk & Hone & Hi & Hspl & Ho).
  destruct (Haddr lk) as [Hln _]; [set_solver|].
  destruct (splhigh_mid _ s _ _ _ _ _ Hc Hcur Hn Hone Hi Ho) as [Hm1 Ho1].
  pose proof (inint_zero _ _ _ _ Hc Hi) as Hi0.
  unfold exec_call, as_outcome, lock_acquire. wps_step. rewrite wps_splhigh, Hspl.
  eapply wps_mono; [by apply (acquire_loop_ok Ss Ls Cs Hdisj Haddr _ s)|].
  unfold call_post. rewrite Hk. intros [w|] k'; simpl.
  - intros [-> Hb]. wps_step. by apply switched_minv.
  - intros (k1 & -> & Hm2 & Ho2). wps_step. apply returned_minv.
    exact (splx_ok Ss Ls Cs Hdisj Haddr k1 s _ _ _ _ _ Hm2 Ho2).
Qed.

Lemma release_call m lk :
  minv m → is_running m = true → (k_cur (m_k m), lk) ∈ m_held m →
  wps (exec_call (CRelease lk)) (m_k m) (call_post m (CRelease lk)).
Proof.
  intros Hm Hr Hl. destruct (running_inv m Hm Hr) as (s & Hc & Hcur & Hn & Hk & Hone & Hi & Hspl & Ho).
  rewrite Hk in Hl. destruct (Haddr lk) as [Hln _]; [pose proof (ok_held _ _ _ _ _ _ _ _ Ho _ _ Hl); set_solver|].
  destruct (splhigh_mid _ s _ _ _ _ _ Hc Hcur Hn Hone Hi Ho) as [Hm1 Ho1].
  unfold exec_call, lock_release. rewrite !wps_bind, wps_asrt. split; [lia|].
  rewrite wps_bind, wps_splhigh, Hspl.
  apply (release_ok Ss Ls Cs Hdisj Haddr _ _ _ s (m_pc m) (m_ctx m) lk (m_acq m) (m_rel m) (m_held m)); [done..|].
  intros k1 s1 Hm2 Ho2. wps_call (splx_ok Ss Ls Cs Hdisj Haddr k1 s1); [done|done|].
  intros ? k' Hb. wps_step. unfold call_post. rewrite Hk. by apply returned_minv.
Qed.

Lemma wait_call m c lk :
  minv m → is_running m = true → (k_cur (m_k m), lk) ∈ m_held m → c ∈ Cs →
  wps (exec_call (CWait c lk)) (m_k m) (call_post m (CWait c lk)).
Proof.
  intros Hm Hr Hl Hcv. destruct (running_inv m Hm Hr) as (s & Hc & Hcur & Hn & Hk & Hone & Hi & Hspl & Ho).
  rewrite Hk in Hl. pose proof (ok_held _ _ _ _ _ _ _ _ Ho _ _ Hl) as HL.
  destruct (Haddr lk) as [Hln _]; [set_solver|]. destruct (Haddr c) as [Hcn _]; [set_solver|].
  destruct (splhigh_mid _ s _ _ _ _ _ Hc Hcur Hn Hone Hi Ho) as [Hm1 Ho1].
  unfold exec_call, as_outcome, cv_wait. rewrite !wps_bind, wps_asrt. split; [lia|].
  rewrite !wps_bind, wps_asrt. split; [lia|]. rewrite wps_bind, wps_splhigh, Hspl.
  apply (release_ok Ss Ls Cs Hdisj Haddr _ _ _ s (m_pc m) (m_ctx m) lk (m_acq m) (m_rel m) (m_held m)); [done..|].
  intros k1 s1 Hm2 Ho2. eapply wps_mono; [by apply (cv_loop_ok Ss Ls Cs Hdisj Haddr k1 s1)|].
  unfold call_post. rewrite Hk. intros r k' [(w & -> & -> & Hb)|Hb].
  - wps_step. by apply switched_minv.
  - destruct r as [w|]; wps_step; [destruct Hb as [-> Hb]; apply switched_minv, Hb|apply returned_minv, Hb].
Qed.

Lemma signal_call m c lk :
  minv m → is_running m = true → c ∈ Cs →
  wps (exec_call (CSignal c lk)) (m_k m) (call_post m (CSignal c lk)).
Proof.
  intros Hm Hr Hcv. destruct (running_inv m Hm Hr) as (s & Hc & Hcur & Hn & Hk & Hone & Hi & Hspl & Ho).
  unfold exec_call. wps_call (cv_signal_ok Ss Ls Cs Hdisj Haddr _ s); try done.
  unfold call_post. rewrite Hk. intros [] k' Hb. wps_step. by apply returned_minv.
Qed.

Lemma broadcast_call m c lk :
  minv m → is_running m = true → c ∈ Cs →
  wps (exec_call (CBroadcast c lk)) (m_k m) (call_post m (CBroadcast c lk)).
Proof.
  intros Hm Hr Hcv. destruct (running_inv m Hm Hr) as (s & Hc & Hcur & Hn & Hk & Hone & Hi & Hspl & Ho).
  unfold exec_call. wps_call (cv_broadcast_ok Ss Ls Cs Hdisj Haddr _ s); try done.
  unfold call_post. rewrite Hk. intros [] k' Hb. wps_step. by apply returned_minv.
Qed.

Lemma sleep_call m n :
  minv m → is_running m = true → wps (exec_call (CSleep n)) (m_k m) (call_post m (CSleep n)).
Proof.
  intros Hm Hr. destruct (running_inv m Hm Hr) as (s & Hc & Hcur & Hn & Hk & Hone & Hi & Hspl & Ho).
  destruct (splhigh_mid _ s _ _ _ _ _ Hc Hcur Hn Hone Hi Ho) as [Hm1 Ho1].
  unfold exec_call, as_outcome, clocksleep. wps_step. rewrite wps_splhigh, Hspl.
  eapply wps_mono; [by apply (clocksleep_loop_ok Ss Ls Cs Hdisj Haddr _ s)|].
  unfold call_post. rewrite Hk. intros [w|] k'; simpl.
  - intros [-> Hb]. wps_step. by apply switched_minv.
  - intros Hb. wps_step. by apply returned_minv.
Qed.
Lemma yield_call m :
  minv m → is_running m = true → wps (exec_call CYield) (m_k m) (call_post m CYield).
Proof.
  intros Hm Hr. destruct (running_inv m Hm Hr) as (s & Hc & Hcur & Hn & Hk & Hone & Hi & Hspl & Ho).
  pose proof (inint_zero _ _ _ _ Hc Hi) as Hi0.
  set (pc := <[m_ctx m := Waiting (WYield 0)]> (m_pc m)).
  assert (Hc' : core (m_k m) s pc (m_ctx m)).
  { apply (core_pc (m_k m)); try done. unfold in_handler. rewrite lookup_insert_eq.
    unfold ksig; simpl. by rewrite Hi0. }
  unfold exec_call. wps_call (yield_ok (m_k m) s pc (m_ctx m) (WYield 0)); try done.
  { unfold pc. by rewrite lookup_insert_eq. }
  intros r k' [-> Hb]. rewrite Hspl. wps_step. unfold call_post. rewrite Hk.
  unfold SynchSpec.blocked, pc in Hb. rewrite insert_insert_eq in Hb. by apply switched_minv.
Qed.

Lemma exit_call m :
  minv m → is_running m = true → call_ok CExit m = true →
  wps (exec_call CExit) (m_k m) (call_post m CExit).
Proof.
  intros Hm Hr Hz. destruct (running_inv m Hm Hr) as (s & Hc & Hcur & Hn & Hk & Hone & Hi & Hspl & Ho).
  pose proof Hc as [Hrep Hown Hcnt Hroom Hkern Hint [th Hctx] Hcu Hpcs Hslp].
  pose proof (cur_not_listed _ _ _ Hrep Hcur Hn) as Hnl.
  destruct (Hkern _ _ Hctx) as [Hvm Hcwd].
  assert (Hall : m_ctx m ∈ all_threads s).
  { unfold all_threads, cur_list. rewrite Hcur. replace (m_ctx m =? NULL) with false by lia. set_solver. }
  unfold exec_call, thread_exit. wps_step. rewrite Hk. wps_call check_stack_spec; [done|done|].
  intros [] k0 ->. rewrite wps_bind, wps_splhigh, wps_bind. eapply wps_get_thread; [done|].
  rewrite Hvm. simpl. wps_step. eapply wps_get_thread; [done|]. rewrite Hcwd. simpl.
  assert (Hpos : 0 < k_num (m_k m)).
  { unfold counted, live_threads, cur_list in Hcnt. rewrite Hcur in Hcnt.
    replace (m_ctx m =? NULL) with false in Hcnt by lia. simpl in Hcnt. lia. }
  wps_step. rewrite wps_asrt. split; [simpl; lia|]. wps_step. simpl.
  match goal with |- wps _ ?q _ => set (k1 := q) end.
  assert (Hz1 : stash_room S_ZOMB k1 s).
  { intros a Ha. simpl in Hz. unfold zombie_place in Hz. unfold k1 in Ha; simpl in Ha. rewrite Ha in Hz.
    destruct (sr_zomb _ _ Hrep) as (a' & Ha' & Har). assert (a' = a) as -> by congruence.
    rewrite <- (proj1 Har). lia. }
  destruct (switch_lists S_ZOMB s _ Hcur Hn) as (_ & _ & Hlive).
  { pose proof (sr_null _ _ Hrep). set_solver. }
  assert (Hdel : ∀ t, t ∈ s_ready s ++ s_sleep s → delete (m_ctx m) (m_pc m) !! t = m_pc m !! t).
  { intros t Ht. apply lookup_delete_ne. intros Heq. by rewrite Heq in Hnl. }
  eapply wps_mono; [apply (switch_core Ss Ls Cs S_ZOMB k1 s (delete (m_ctx m) (m_pc m)) (m_ctx m)); try done|].
  - destruct Hrep. by constructor.
  - destruct Hown. by constructor.
  - destruct Hroom as [Hq Ha]. split; unfold k1; simpl.
    + intros q Eq. specialize (Hq q Eq). lia.
    + intros a Ea. specialize (Ha a Ea). lia.
  - unfold counted in *. rewrite Hlive. simpl. lia.
  - destruct Hint as [Hi1 Hi2]. split.
    + unfold in_handler. rewrite lookup_delete_eq. simpl. by rewrite Hi1, Hi.
    + intros t th' Ht Hne. unfold in_handler. rewrite lookup_delete_ne by done. by apply Hi2.
  - intros t Ht. rewrite Hdel by done. by apply Hpcs.
  - intros t Ht. rewrite Hdel by set_solver. by apply Hslp.
  - intros [] k' (Hc' & Hspl' & Hso & Hres & Hq). wps_step. unfold call_post. rewrite Hk.
    apply (switched_minv k' (delete (m_ctx m) (m_pc m)) (m_ctx m)). exists (a_switch S_ZOMB s).
    split_and!; try done.
    + destruct Hso as (_ & _ & _ & ->). done.
    + apply (objs_move (m_k m) k' s); [done|done|]. intros b Hb _. by apply Hq.
Qed.
(** ** The clock interrupt *)

Lemma core_heap k s pc f c h e :
  core_at Ss Ls Cs k s pc f c → kh_inv h → kh_live h = kh_live (k_heap k) →
  core_at Ss Ls Cs (set_env e (set_heap h k)) s pc f c.
Proof.
  intros [Hrep Hown Hcnt Hroom Hkern Hint Hctx Hcu Hpc Hslp] Hi Hl. constructor; try done.
  - destruct Hrep. by constructor.
  - destruct Hown as [_ Hnd Hlv (a & Ha & (_ & Har & Hab & Hne) & Hdis) Hdead].
    constructor; simpl; try done; rewrite ?Hl; try done.
    exists a. split_and!; try done. split_and!; try done. simpl. by rewrite Hl.
Qed.

Lemma hardclock_ok k s pc f c acq rel held Φ :
  core_at Ss Ls Cs k s pc f c → 0 < k_spl k → k_cvone k = 0 → objs_ok k s acq rel held →
  (∀ k' s', core_at Ss Ls Cs k' s' pc f c → s_cur s' = s_cur s → k_spl k' = k_spl k →
     k_cvone k' = 0 → k_inint k' = k_inint k → objs_ok k' s' acq rel held →
     wps thread_yield k' Φ) →
  wps hardclock k Φ.
Proof.
  intros Hc Hspl Hone Ho HΦ. unfold hardclock. destruct (k_clock k) as [r l] eqn:Ecl.
  wps_step. rewrite Ecl. rewrite wps_bind.
  apply (wps_mono _ _ (λ _ k', ∃ h e x, k' = set_clock x (set_env e (set_heap h k)) ∧
    core_at Ss Ls Cs k' s pc f c ∧ objs_ok k' s acq rel held)).
  { destruct (r + 1 >=? HZ / 10).
    - wps_step. eapply wps_mono; [apply (ref_bit_law (set_clock (0, l) k)), Hc|].
      intros [] k' (h & e & -> & Hi & Hl). exists h, e, (0, l). split_and!; [done| |].
      + apply (core_heap (set_clock (0, l) k)); try done. by apply (core_at_frame _ _ _ k).
      + by apply (objs_move k _ s).
    - wps_step. exists (k_heap k), (k_env k), (r + 1, l). split_and!; [by destruct k| |].
      + by apply (core_at_frame _ _ _ k).
      + by apply (objs_move k _ s). }
  intros [] k1 (h & e & [r1 l1] & -> & Hc1 & Ho1). wps_step. simpl. rewrite wps_bind.
  match type of Hc1 with core_at _ _ _ ?q _ _ _ _ => set (k1 := q) in * end.
  destruct (l1 + 1 >=? HZ).
  - wps_step.
    eapply wps_mono; [apply (wake_core Ss Ls Cs (set_clock (r1, 0) k1) s pc f c LBOLT)|].
    + by apply (core_at_frame _ _ _ k1).
    + done.
    + intros [] k2 (s2 & Hc2 & Hcur2 & Hspl2 & Hint2 & Hso & Hq & _). apply (HΦ k2 s2); try done.
      * destruct Hso as (_ & _ & _ & ->). done.
      * apply (objs_move k1 k2 s); [done|done|]. intros b Hb _. by apply Hq.
  - wps_step. apply (HΦ _ s); try done.
    + by apply (core_at_frame _ _ _ k1).
    + by apply (objs_move k1 _ s).
Qed.

Lemma tick_ok m :
  minv m → is_running m = true → wp (mstep ETick m) minv.
Proof.
  intros Hm Hr. destruct (running_inv m Hm Hr) as (s & Hc & Hcur & Hn & Hk & Hone & Hi & Hspl & Ho).
  pose proof (inint_zero _ _ _ _ Hc Hi) as Hi0.
  set (w := WIntr SPL_HIGH 0 0). set (pc := <[m_ctx m := Waiting w]> (m_pc m)).
  assert (Hpc : pc !! m_ctx m = Some (Waiting w)) by (unfold pc; by rewrite lookup_insert_eq).
  set (k1 := set_inint 1 (set_spl SPL_HIGH (m_k m))).
  assert (Hc1 : core k1 s pc (m_ctx m)).
  { apply (core_pc (m_k m)); try done. unfold in_handler. fold pc. by rewrite Hpc. }
  assert (Hw : wps (as_outcome clock_interrupt) (m_k m) (λ o k', o = Blocked w ∧
    blocked k' pc (m_ctx m) w (m_acq m) (m_rel m) (m_held m))).
  { unfold as_outcome, clock_interrupt. wps_step. fold k1. replace (k_inint (set_spl SPL_HIGH (m_k m))) with 0 by (symmetry; exact Hi0). rewrite Hspl.
    apply (hardclock_ok k1 s pc (in_handler pc) (m_ctx m) (m_acq m) (m_rel m) (m_held m)); try done.
    + by apply (objs_move (m_k m) _ s).
    + intros k' s' Hc' Hcur' Hspl' Hone' Hint' Ho'.
      wps_call (yield_ok k' s' pc (m_ctx m) w); try done; [congruence|].
      intros r k2 [-> Hb]. wps_step. by rewrite Hspl'. }
  unfold mstep. rewrite wp_bind. eapply wp_mono; [exact Hw|].
  intros [o k']; simpl; intros [-> Hb]. wp_val. rewrite Hk. unfold SynchSpec.blocked, pc in Hb.
  rewrite insert_insert_eq in Hb. by apply switched_minv.
Qed.
(** ** Going on after a switch *)

Definition go_post m (w : kwait) (o : outcome) k' : Prop :=
  let t := m_ctx m in
  minv (settle t o k' (ghost_through (wait_cv w) o (match o with Returned => ghost_done w t m | _ => m end))).

Lemma intr_back m s w :
  core (m_k m) s (m_pc m) (m_ctx m) → k_cvone (m_k m) = 0 →
  objs_ok (m_k m) s (m_acq m) (m_rel m) (m_held m) → s_cur s = m_ctx m → m_ctx m ≠ NULL →
  k_spl (m_k m) = SPL_HIGH → w = WIntr SPL_HIGH 0 0 →
  wps (as_outcome (resume w)) (m_k m) (go_post m w).
Proof.
  intros Hc Hone Ho Hcur Hn Hspl ->. unfold as_outcome, resume. simpl.
  rewrite !wps_bind. wps_call (back_core Ss Ls Cs (m_k m) s); try done; [by rewrite Hspl|].
  intros [] k1 (Hc1 & Hspl1 & Hint1 & Hso & Hq). unfold k_splx, interrupt_return. wps_step.
  match goal with |- go_post _ _ _ ?q => set (k2 := q) end.
  assert (Hcx : k_cur k1 = m_ctx m).
  { by rewrite (sr_cur _ _ (co_rep _ _ _ _ _ _ _ _ Hc1)). }
  unfold go_post, settle. simpl. replace (ctx_after k2 (m_ctx m)) with (m_ctx m).
  2: { unfold ctx_after. simpl. rewrite Hcx. by replace (m_ctx m =? NULL) with false by lia. }
  exists (a_exorcise s). simpl. split_and!.
  - apply (core_pc k1); try done. unfold in_handler. by rewrite lookup_insert_eq.
  - destruct Hso as (_ & _ & _ & ->). done.
  - apply (objs_move (m_k m) _ s); [done|done|]. intros b Hb _. apply (quiet_frame k1); auto.
  - right. split_and!; try done. left. by rewrite lookup_insert_eq.
Qed.

Lemma resume_ok m s w :
  core (m_k m) s (m_pc m) (m_ctx m) → k_cvone (m_k m) = 0 →
  objs_ok (m_k m) s (m_acq m) (m_rel m) (m_held m) → s_cur s = m_ctx m → m_ctx m ≠ NULL →
  k_spl (m_k m) = SPL_HIGH → m_pc m !! m_ctx m = Some (Waiting w) → wait_ok Ss Ls Cs w →
  wps (as_outcome (resume w)) (m_k m) (go_post m w).
Proof.
  intros Hc Hone Ho Hcur Hn Hspl Hpc Hw.
  assert (Hmid : (∀ a b c, w ≠ WIntr a b c) → mid (m_k m) s (m_pc m) (m_ctx m)).
  { intros Hnw. constructor; try done. unfold in_handler. rewrite Hpc. destruct w; naive_solver. }
  destruct w as [sem spl|lk spl|c lk spl|lk spl1 spl|n spl|spl|spl sv oi]; simpl in Hw.
  7: { destruct Hw as (-> & -> & ->). by apply (intr_back m s). }
  all: specialize (Hmid ltac:(done)); unfold as_outcome, resume; rewrite !wps_bind.
  6: { subst spl. wps_call (back_core Ss Ls Cs (m_k m) s); try done; [by rewrite Hspl|].
    intros [] k1 (Hc1 & Hspl1 & Hint1 & Hso & Hq).
    wps_call (splx_ok Ss Ls Cs Hdisj Haddr k1 (a_exorcise s)).
    - destruct Hmid, Hso as (_ & _ & _ & Ho1). constructor; try done; congruence.
    - apply (objs_move (m_k m) _ s); [done|done|]. auto.
    - intros ? k' Hr. wps_step. by apply returned_minv. }
  all: (wps_call (back_ok Ss Ls Cs Hdisj Haddr (m_k m) s); [done|done|]);
    intros [] k1 (s1 & Hm1 & Ho1).
  - destruct Hw as [Hs ->]. eapply wps_mono; [by apply (P_loop_ok Ss Ls Cs Hdisj Haddr k1 s1)|].
    intros [w|] k'; simpl; [intros [-> Hb]|intros Hb]; wps_step;
      [by apply switched_minv|by apply returned_minv].
  - destruct Hw as [Hs ->]. eapply wps_mono; [by apply (acquire_loop_ok Ss Ls Cs Hdisj Haddr k1 s1)|].
    intros [w|] k'; simpl; [intros [-> Hb]|intros (k2 & -> & Hm2 & Ho2)]; wps_step;
      [by apply switched_minv|apply returned_minv].
    exact (splx_ok Ss Ls Cs Hdisj Haddr k2 s1 _ _ _ _ _ Hm2 Ho2).
  - destruct Hw as (Hcv & Hl & ->). eapply wps_mono; [by apply (cv_loop_ok Ss Ls Cs Hdisj Haddr k1 s1)|].
    intros r k' [(w & -> & -> & Hb)|Hb]; [wps_step; by apply switched_minv|].
    destruct r as [w|]; wps_step; [destruct Hb as [-> Hb]; apply switched_minv, Hb|apply returned_minv, Hb].
  - destruct Hw as (Hl & -> & ->). eapply wps_mono; [by apply (relock_ok Ss Ls Cs Hdisj Haddr k1 s1)|].
    intros [w|] k' Hb; wps_step; [apply switched_minv, Hb|apply returned_minv, Hb].
  - subst spl. eapply wps_mono; [by apply (clocksleep_loop_ok Ss Ls Cs Hdisj Haddr k1 s1)|].
    intros [w|] k'; simpl; [intros [-> Hb]|intros Hb]; wps_step;
      [by apply switched_minv|by apply returned_minv].
Qed.
Lemma start_ok m s :
  core (m_k m) s (m_pc m) (m_ctx m) → k_cvone (m_k m) = 0 →
  objs_ok (m_k m) s (m_acq m) (m_rel m) (m_held m) → s_cur s = m_ctx m → m_ctx m ≠ NULL →
  m_pc m !! m_ctx m = Some Fresh →
  wps mi_threadstart (m_k m) (λ _ k', minv (settle (m_ctx m) Returned k' m)).
Proof.
  intros Hc Hone Ho Hcur Hn Hpc. pose proof Hc as [Hrep _ _ _ Hkern Hint [th Hth] _ _ _].
  destruct (Hkern _ _ Hth) as [Hvm _]. unfold mi_threadstart. wps_step.
  rewrite (sr_cur _ _ Hrep), Hcur. eapply wps_get_thread; [done|]. rewrite Hvm. simpl.
  unfold k_spl0, k_splx. wps_step. apply returned_minv. exists s. split_and!; try done.
  - by apply (core_frame _ _ _ (m_k m)).
  - unfold in_handler. by rewrite Hpc.
  - by apply (objs_move (m_k m) _ s).
Qed.

Lemma go_ok m : minv m → enabled EGo m = true → wp (mstep EGo m) minv.
Proof.
  intros (s & Hc & Hone & Ho & Hst) He. unfold enabled, is_running in He.
  pose proof (sr_cur _ _ (co_rep _ _ _ _ _ _ _ _ Hc)) as Hk.
  destruct Hst as [[Hn _]|(Hcur & Hn & [[Hpc _]|(p & Hpc & Hp & Hspl)])].
  - rewrite Hk, Hn in He. done.
  - rewrite Hk, Hcur, Hpc in He. lia.
  - unfold mstep. rewrite Hk, Hcur, Hpc. destruct p as [|w|]; [done| |]; rewrite wp_bind.
    + eapply wp_mono; [exact (resume_ok m s w Hc Hone Ho Hcur Hn Hspl Hpc Hp)|].
      intros [o k'] Hb. wp_val. exact Hb.
    + eapply wp_mono; [exact (start_ok m s Hc Hone Ho Hcur Hn Hpc)|]. intros [o k'] Hb. wp_val. exact Hb.
Qed.

(** ** The idle processor *)

Lemma dispatch_core k s pc c :
  core k s pc c → s_cur s = NULL → k_spl k = SPL_HIGH →
  wps (dispatch c) k (λ _ k', core k' (a_dispatch s) pc (ctx_after k' c) ∧
    resumable (a_dispatch s) pc ∧ k_spl k' = SPL_HIGH ∧ same_objs k k' ∧
    ∀ a, quiet k s a → quiet k' (a_dispatch s) a).
Proof.
  intros Hc Hcur Hspl. pose proof Hc as [Hrep Hown Hcnt Hroom Hkern Hint Hctx _ Hpc Hslp].
  eapply wps_mono; [by apply (dispatch_spec k s c); rewrite ?Hspl|].
  intros [] k' (Hrep' & Hso & Hcaps & Hnum & Hii).
  pose proof Hso as (Hh & Hstr & Hone' & Hspl' & Hss & Hll & Hcc & _).
  assert (Hon : ∀ a t, sleeps_on k' a t = sleeps_on k a t) by (intros; by apply sleeps_on_strip).
  destruct (dispatch_lists s) as [Hsl Hrd]. pose proof (srep_perm _ _ _ _ Hrep Hrep' Hstr) as Hperm.
  pose proof (sr_null _ _ Hrep) as Hnn.
  split_and!; try done; try congruence.
  - constructor; try done.
    + eapply (towns_move k k' s); try done; [apply (sr_zomb _ _ Hrep')|by apply (kern_strip k)].
    + unfold counted in *. rewrite Hnum, live_dispatch; [done|done|set_solver].
    + apply (room_caps k k'); [done|lia|done].
    + by apply (kern_strip k).
    + by apply Hii.
    + apply (sr_thr _ _ Hrep'). unfold ctx_after. destruct (k_cur k' =? NULL) eqn:En.
      * rewrite Hperm. by apply (sr_thr _ _ Hrep).
      * unfold all_threads, cur_list. rewrite <- (sr_cur _ _ Hrep'), En. set_solver.
    + unfold ctx_after. rewrite (sr_cur _ _ Hrep').
      destruct (s_cur (a_dispatch s) =? NULL) eqn:En; [left; lia|by right].
    + intros t. rewrite Hsl, elem_of_app. intros [Ht%Hrd|Ht]; apply Hpc; set_solver.
    + intros t. rewrite Hsl. intros Ht. destruct (Hslp t Ht) as (w & a & ? & ? & ?). exists w, a.
      by rewrite Hon.
  - intros Hne%dispatch_cur. apply Hpc. set_solver.
  - intros a Hq t. rewrite Hsl, Hon. apply Hq.
Qed.

Lemma idle_inv m :
  minv m → (k_cur (m_k m) =? NULL) = true → ∃ s, core (m_k m) s (m_pc m) (m_ctx m) ∧
    s_cur s = NULL ∧ k_cvone (m_k m) = 0 ∧ k_spl (m_k m) = SPL_HIGH ∧
    objs_ok (m_k m) s (m_acq m) (m_rel m) (m_held m).
Proof.
  intros (s & Hc & Hone & Ho & Hst) Hk. exists s.
  pose proof (sr_cur _ _ (co_rep _ _ _ _ _ _ _ _ Hc)) as Hk'.
  destruct Hst as [[Hn Hspl]|(Hcur & Hn & _)]; [by split_and!|]. lia.
Qed.

Lemma idle_ok m : minv m → enabled EIdle m = true → wp (mstep EIdle m) minv.
Proof.
  intros Hm He. destruct (idle_inv m Hm He) as (s & Hc & Hcur & Hone & Hspl & Ho).
  unfold mstep. rewrite wp_bind. eapply wp_mono; [exact (dispatch_core _ s _ _ Hc Hcur Hspl)|].
  intros [[] k'] (Hc' & Hr & Hspl' & Hso & Hq). wp_val. apply switched_minv. exists (a_dispatch s).
  split_and!; try done.
  - destruct Hso as (_ & _ & _ & Hone'). simpl in *. by rewrite Hone'.
  - apply (objs_move (m_k m) k' s); auto.
Qed.
Lemma core_reint k k' s pc f f' c :
  core_at Ss Ls Cs k s pc f c → ksig k' = ksig (set_inint (f' c) k) →
  (∀ t, t ≠ c → f' t = f t) → core_at Ss Ls Cs k' s pc f' c.
Proof.
  intros [Hrep Hown Hcnt Hroom Hkern Hint Hctx Hcu Hpc Hslp] Hs Hf.
  apply (core_at_frame _ _ _ _ _ _ _ _ _ Hs). constructor; try done.
  - destruct Hrep. by constructor.
  - destruct Hown. by constructor.
  - destruct Hint as [_ Hi]. split; [done|]. intros t th Ht Hne. rewrite Hf by done. by apply Hi.
Qed.

Lemma idle_yield k s pc f c Φ :
  core_at Ss Ls Cs k s pc f c → s_cur s = NULL → Φ (k_spl k) (set_spl SPL_HIGH k) →
  wps thread_yield k Φ.
Proof.
  intros [Hrep _ _ _ _ _ _ _ _ _] Hcur HΦ. unfold thread_yield. rewrite wps_bind, wps_splhigh.
  destruct (sr_sleep _ _ Hrep) as (a & Ha & _). rewrite wps_bind. eapply wps_get_opt; [done|].
  unfold mi_switch. wps_step. simpl. rewrite (sr_cur _ _ Hrep), Hcur. simpl. by wps_step.
Qed.

Lemma idle_tick_ok m : minv m → enabled EIdleTick m = true → wp (mstep EIdleTick m) minv.
Proof.
  intros Hm He. destruct (idle_inv m Hm He) as (s & Hc & Hcur & Hone & Hspl & Ho).
  set (f := <[m_ctx m := 1]> (in_handler (m_pc m))).
  set (k1 := set_inint 1 (set_spl SPL_HIGH (m_k m))).
  assert (Hc1 : core_at Ss Ls Cs k1 s (m_pc m) f (m_ctx m)).
  { apply (core_reint (m_k m) k1 s _ (in_handler (m_pc m))); try done.
    - unfold f. by rewrite fn_lookup_insert.
    - intros t Ht. unfold f. by rewrite fn_lookup_insert_ne. }
  assert (Hw : wps idle_interrupt (m_k m) (λ _ k', ∃ s', core k' s' (m_pc m) (m_ctx m) ∧
    s_cur s' = NULL ∧ k_spl k' = SPL_HIGH ∧ k_cvone k' = 0 ∧
    objs_ok k' s' (m_acq m) (m_rel m) (m_held m))).
  { unfold idle_interrupt. wps_step. fold k1.
    apply (hardclock_ok k1 s (m_pc m) f (m_ctx m) (m_acq m) (m_rel m) (m_held m)); try done.
    - by apply (objs_move (m_k m) _ s).
    - intros k2 s2 Hc2 Hcur2 Hspl2 Hone2 Hint2 Ho2.
      eapply idle_yield; [done|congruence|]. unfold k_splx, interrupt_return. wps_step.
      exists s2. split_and!; try done; [|congruence|by apply (objs_move k2 _ s2)].
      apply (core_reint k2 _ s2 _ f); try done.
      + destruct (co_int _ _ _ _ _ _ _ _ Hc) as [Hi _].
        unfold ksig; simpl. by rewrite Hi.
      + intros t Ht. unfold f. by rewrite fn_lookup_insert_ne. }
  unfold mstep. rewrite wp_bind. eapply wp_mono; [exact Hw|].
  intros [[] k']; simpl; intros (s' & Hc' & Hcur' & Hspl' & Hone' & Ho'). wp_val.
  exists s'. split_and!; try done. by left.
Qed.

(** ** Every run keeps the invariant *)

Lemma call_step m c : minv m → enabled (ECall c) m = true → wp (mstep (ECall c) m) minv.
Proof.
  intros Hm He. apply andb_true_iff in He as [Hr Hok].
  destruct (running_inv m Hm Hr) as (s & _ & _ & _ & _ & _ & _ & _ & Ho).
  assert (Hw : wps (exec_call c) (m_k m) (call_post m c)).
  { destruct Ho as [Hsd Hld Hcd _ _ _ _].
    destruct c; simpl in Hok; rewrite ?andb_true_iff, ?bool_decide_eq_true in Hok.
    - apply P_call; [done..|]. by rewrite <- Hsd, elem_of_dom.
    - by apply V_call.
    - apply acquire_call; [done..|]. by rewrite <- Hld, elem_of_dom.
    - by apply release_call.
    - destruct Hok as [? ?]. apply wait_call; [done..|]. by rewrite <- Hcd, elem_of_dom.
    - apply signal_call; [done..|]. by rewrite <- Hcd, elem_of_dom.
    - apply broadcast_call; [done..|]. by rewrite <- Hcd, elem_of_dom.
    - by apply yield_call.
    - by apply sleep_call.
    - by apply exit_call. }
  unfold mstep. rewrite wp_bind. eapply wp_mono; [exact Hw|]. intros [o k'] Hp. wp_val. exact Hp.
Qed.

Lemma mstep_ok e m : minv m → enabled e m = true → wp (mstep e m) minv.
Proof.
  destruct e; [apply call_step|apply go_ok|apply tick_ok|apply idle_ok|apply idle_tick_ok].
Qed.

Lemma mrun_ok es m : minv m → wp (mrun es m) minv.
Proof.
  revert m. induction es as [|e es IH]; intros m Hm; simpl; [by wp_val|].
  destruct (enabled e m) eqn:He; [|by apply IH]. rewrite wp_bind.
  eapply wp_mono; [by apply mstep_ok|]. apply IH.
Qed.
End run.
