(* ===== verification/SynchThm.v ===== *)
(** * What the synchronization primitives guarantee

    The properties of runs, stated on the machine of [SynchMach], a machine with three
    threads on which they are evaluated, and a run that shows what [cv_broadcast]
    does. *)

From stdpp Require Import functions.
From S2P Require Import Prelude StateM Heap KArray KQueue Coremap KState Thread ThreadSpec ThreadHeap Synch SynchMach SynchSpec SynchRun.

#[local] Set Default Proof Using "All".

Section thm.
Context {H E : Type} `{KHeapLaws H} `{!ThreadEnv H E} `{!ThreadEnvLaws H E}.
Implicit Types (m : mach (H := H) (E := E)).

(** The machine is sound for the given sets of semaphores, locks and condition
    variables: distinct addresses, and the invariant of [SynchRun]. *)
Definition machine_ok (Ss Ls Cs : gset Z) m : Prop :=
  (Ss ## Ls ∧ Ss ## Cs ∧ Ls ## Cs) ∧ (∀ a, a ∈ Ss ∪ Ls ∪ Cs → a ≠ NULL ∧ a ≠ LBOLT) ∧
  minv Ss Ls Cs m.

(** The threads that sleep, in the array thread.c keeps them in. *)
Definition sleeping (k : kst H E) (t : Z) : Prop :=
  ∃ a i, k_sleepers k = Some a ∧ 0 ≤ i < array_getnum a ∧ array_getguy a i = Ok t.

Lemma machine_run Ss Ls Cs m es : machine_ok Ss Ls Cs m → wp (mrun es m) (machine_ok Ss Ls Cs).
Proof.
  intros (Hd & Ha & Hm). eapply wp_mono; [by apply (mrun_ok Ss Ls Cs)|]. intros m' Hm'. split; [done|by split].
Qed.

Lemma sleeping_quiet k s a t :
  srep k s → quiet k s a → sleeping k t → sleeps_on k a t = false.
Proof using Type.
  intros Hrep Hq (ar & i & Har & Hi & Hg). destruct (sr_sleep _ _ Hrep) as (ar' & Har' & Hr).
  assert (ar' = ar) as -> by congruence. apply Hq. unfold array_getnum in Hi. rewrite (proj1 Hr) in Hi.
  destruct (lookup_lt_is_Some_2 (s_sleep s) (Z.to_nat i)) as [u Hu]; [lia|].
  rewrite (array_getguy_spec _ _ _ u Hr) in Hg by (done || lia). simplify_eq.
  by eapply list_elem_of_lookup_2.
Qed.

(** C11: from a sound machine, whatever the threads do within the rules and whenever the clock
    interrupts, a run of the synchronization primitives never panics, never follows a bad
    pointer and never loops for ever.  The rules are those of [call_ok] and [enabled]: calls name
    existing objects, a thread releases, and waits with, only locks it holds, no semaphore is
    raised past INT_MAX, and a thread exits only while the array of zombies has a free place (an
    event against the rules is skipped).  A sound machine has kernel threads only, and room for
    all of them in the run queue and in the array of sleepers; [yield_outgrows_reservation] and
    [exorcise_drops_reservation] show what happens without such room. *)
Theorem synch_runs_never_fail Ss Ls Cs m es :
  machine_ok Ss Ls Cs m → ∃ m', mrun es m = Ok m' ∧ machine_ok Ss Ls Cs m'.
Proof. intros Hm. apply wp_exists. by apply machine_run. Qed.

(** The calls of [cv_signal] and [cv_broadcast] for the condition variable [a]. *)
Definition post (a : Z) (e : event) : Z :=
  match e with
  | ECall (CSignal c _) | ECall (CBroadcast c _) => if c =? a then 1 else 0
  | _ => 0
  end.
Fixpoint posts (a : Z) (es : list event) : Z :=
  match es with [] => 0 | e :: es => post a e + posts a es end.

Lemma post_pos a e : 0 ≤ post a e.
Proof using Type. destruct e as [[]| | | |]; simpl; try lia; by destruct (_ =? _). Qed.

Lemma through_rel cv o m : m_rel (ghost_through cv o m) = m_rel m.
Proof using Type. by destruct cv, o as [|[]|]. Qed.

Lemma call_rel c t m o :
  m_rel (ghost_through (call_cv c) o (match o with Returned => ghost_call c t (ghost_start c t m) | _ => ghost_start c t m end)) =
  m_rel (ghost_start c t m).
Proof using Type. rewrite through_rel. destruct o; [|done|done]. by destruct c. Qed.

Lemma done_rel w t m o : m_rel (ghost_through (wait_cv w) o (match o with Returned => ghost_done w t m | _ => m end)) = m_rel m.
Proof using Type. rewrite through_rel. destruct o; [|done|done]. by destruct w. Qed.

(** Only these calls, and [V] on semaphores, are counted. *)
Lemma step_rel e m m' a :
  k_sems (m_k m) !! a = None → enabled e m = true → mstep e m = Ok m' → m_rel m' a ≤ m_rel m a + post a e.
Proof using Type.
  intros Hno He Hm. pose proof (post_pos a e) as Hp. destruct e as [c| | | |]; unfold mstep in Hm.
  - destruct (exec_call c (m_k m)) as [[o k']|]; [|done]. injection Hm as <-. cbn [settle m_rel]. rewrite call_rel. simpl in He.
    destruct c; cbn [ghost_start m_rel post] in *; try lia.
    + rewrite fn_lookup_insert_ne; [lia|]. intros ->. unfold call_ok in He. rewrite Hno, andb_false_r in He. done.
    + destruct (decide (c = a)) as [->|]; [rewrite fn_lookup_insert, Z.eqb_refl; lia|rewrite fn_lookup_insert_ne by done; lia].
    + destruct (decide (c = a)) as [->|]; [rewrite fn_lookup_insert, Z.eqb_refl; lia|rewrite fn_lookup_insert_ne by done; lia].
  - destruct (m_pc m !! k_cur (m_k m)) as [[|w|]|]; [injection Hm as <-; simpl; lia| | |injection Hm as <-; simpl; lia].
    + destruct (as_outcome (resume w) (m_k m)) as [[o k']|]; [|done]. injection Hm as <-. cbn [settle m_rel]. rewrite done_rel. lia.
    + destruct (mi_threadstart (m_k m)) as [[o k']|]; [|done]. injection Hm as <-. simpl. lia.
  - destruct (as_outcome clock_interrupt (m_k m)) as [[o k']|]; [|done]. injection Hm as <-. simpl. lia.
  - destruct (dispatch (m_ctx m) (m_k m)) as [[o k']|]; [|done]. injection Hm as <-. simpl. lia.
  - destruct (idle_interrupt (m_k m)) as [[o k']|]; [|done]. injection Hm as <-. simpl. lia.
Qed.

Lemma run_rel Ss Ls Cs m es m' a :
  machine_ok Ss Ls Cs m → a ∈ Cs → mrun es m = Ok m' → m_rel m' a ≤ m_rel m a + posts a es.
Proof.
  intros Hm Ha. revert m Hm. induction es as [|e es IH]; intros m Hm Hr; simpl in *; [injection Hr as <-; lia|].
  pose proof (post_pos a e) as Hp. destruct (enabled e m) eqn:He; [|specialize (IH m Hm Hr); lia].
  destruct (mstep e m) as [m1|] eqn:Hs; [|done]. simpl in Hr.
  pose proof (machine_run Ss Ls Cs m [e] Hm) as Hm1. simpl in Hm1. rewrite He, Hs in Hm1. simpl in Hm1.
  specialize (IH m1 Hm1 Hr). assert (m_rel m1 a ≤ m_rel m a + post a e); [|lia].
  apply step_rel; [|done|done]. destruct Hm as (Hd & _ & s & _ & _ & Ho & _).
  apply not_elem_of_dom. rewrite (ok_sdom _ _ _ _ _ _ _ _ Ho). set_solver.
Qed.

(** C40: each [cv_signal] and each [cv_broadcast] lets at most one waiter through, however many sleep on
    the condition variable: in every run the number of threads that leave the loop of
    [cv_wait] is at most the number of these calls, and one more if the flag was set before. *)
Theorem broadcast_releases_one Ss Ls Cs m es m' a x :
  machine_ok Ss Ls Cs m → k_cvs (m_k m) !! a = Some x → m_rel m a = m_acq m a + cv_sig x → mrun es m = Ok m' →
  m_acq m' a ≤ m_acq m a + cv_sig x + posts a es.
Proof.
  intros Hm Hx Hex Hr. assert (a ∈ Cs) as Ha.
  { destruct Hm as (_ & _ & s & _ & _ & Ho & _). rewrite <- (ok_cdom _ _ _ _ _ _ _ _ Ho). by eapply elem_of_dom_2. }
  pose proof (run_rel Ss Ls Cs m es m' a Hm Ha Hr) as Hrel. pose proof (machine_run Ss Ls Cs m es Hm) as Hw. rewrite Hr in Hw.
  destruct Hw as (_ & _ & s & _ & _ & Ho & _). pose proof Ha as Hd. rewrite <- (ok_cdom _ _ _ _ _ _ _ _ Ho) in Hd.
  apply elem_of_dom in Hd as [y Hy]. destruct (ok_cv _ _ _ _ _ _ _ _ Ho a y Hy) as [Hv Hle]. lia.
Qed.

(** C13: in every state of a run the count of a semaphore is never negative and is the
    initial count plus the completed [V]s minus the completed [P]s; and while it is
    positive no thread sleeps on the semaphore, so no wakeup is lost. *)
Theorem semaphore_conservation Ss Ls Cs m es m' a x :
  machine_ok Ss Ls Cs m → mrun es m = Ok m' → k_sems (m_k m') !! a = Some x →
  0 ≤ sem_count x ∧ sem_count x = m_rel m' a - m_acq m' a ∧
  (0 < sem_count x → ∀ t, sleeping (m_k m') t → sleeps_on (m_k m') a t = false).
Proof.
  intros Hm Hr Hx. pose proof (machine_run _ _ _ _ es Hm) as Hw. rewrite Hr in Hw.
  destruct Hw as (_ & _ & s & Hc & _ & Ho & _). destruct (ok_sem _ _ _ _ _ _ _ _ Ho a x Hx) as (? & ? & Hq).
  split_and!; try done. intros Hp t Ht. eapply sleeping_quiet; [|by apply Hq|done]. apply Hc.
Qed.

(** C12: two threads never hold the same lock; a lock is marked free exactly when no
    thread holds it, and then no thread sleeps waiting for it. *)
Theorem lock_mutual_exclusion Ss Ls Cs m es m' l x :
  machine_ok Ss Ls Cs m → mrun es m = Ok m' → k_locks (m_k m') !! l = Some x →
  (∀ t u, (t, l) ∈ m_held m' → (u, l) ∈ m_held m' → t = u) ∧
  (lock_count x = 0 ↔ ∃ t, (t, l) ∈ m_held m') ∧
  (lock_count x = 0 ∨
   lock_count x = 1 ∧ ∀ t, sleeping (m_k m') t → sleeps_on (m_k m') l t = false).
Proof.
  intros Hm Hr Hx. pose proof (machine_run _ _ _ _ es Hm) as Hw. rewrite Hr in Hw.
  destruct Hw as (_ & _ & s & Hc & _ & Ho & _).
  destruct (ok_lock _ _ _ _ _ _ _ _ Ho l x Hx) as [(H1' & Hno & Hq)|[H0' [t Ht]]].
  - split_and!.
    + intros t u Ht. by apply Hno in Ht.
    + split; [lia|]. intros [t Ht]. by apply Hno in Ht.
    + right. split; [done|]. intros t Ht. eapply sleeping_quiet; [|done|done]. apply Hc.
  - split_and!; [|split; [|done]|by left].
    + intros u v Hu Hv. apply Ht in Hu, Hv. congruence.
    + intros _. exists t. by apply Ht.
Qed.
End thm.

(** ** A machine with three threads

    Thread 100 runs; 200 and 300 have not started.  There is a semaphore (500, count
    0), a lock (510) and a condition variable (520).  The parts of the kernel the
    thread system calls are idle. *)

Module Demo.

(** The file system's data: the reference counts of the vnodes. *)
Abbreviation refs := (gmap Z nat).

#[export] Instance no_env : ThreadEnv refheap refs := {|
  as_activate := λ _, mret tt;
  as_destroy := λ _, mret tt;
  as_copy := λ _ _ _, mret (0, NULL);
  VOP_INCREF := λ v,
    e ← gets k_env;
    match e !! v with Some (S n) => modify (set_env (<[v := S (S n)]> e)) | _ => fault_ FPanic end;
  VOP_DECREF := λ v,
    e ← gets k_env;
    match e !! v with Some (S n) => modify (set_env (<[v := n]> e)) | _ => fault_ FPanic end;
  page_table_initializer := p ← kalloc 4096; if p =? NULL then fault_ FPanic else mret p;
  ref_bit_counter := mret tt;
  copy_vnode := λ _ _, mret tt;
  copy_trapframe := λ _ _, mret tt;
|}.

#[export, refine] Instance no_env_laws : ThreadEnvLaws refheap refs :=
  {| vn_held n e v := ∃ m, e !! v = Some m ∧ (n ≤ m)%nat |}.
Proof.
  - intros k Hk. apply wps_ret. exists (k_heap k), (k_env k). by split_and!; destruct k.
  - intros k Hk. unfold page_table_initializer, no_env. wpf_call wps_kalloc_full; [done|done|].
    intros p k' (h' & -> & Hi & Hcase & Hr). destruct (p =? NULL) eqn:E.
    + apply Z.eqb_eq in E as ->. apply wpf_panic. apply (rooms_fail 1 (k_heap k) (NULL ≠ NULL) h' Hr). intros Hn. by apply Hn.
    + wpf_step. exists h', (k_env k). split_and!; [by destruct k|done| |by eapply rooms_mono|done].
      destruct Hcase as [[-> _]|(_ & _ & ->)]; [done|]. set_solver.
  - intros k v n (m & Hm & Hle). simpl. wps_step. rewrite Hm. destruct m as [|m]; [lia|]. wps_step.
    exists (<[v := S (S m)]> (k_env k)). split_and!; [done|exists (S (S m)); rewrite lookup_insert_eq; split; [done|lia]|].
    intros i w (j & Hj & Hij). destruct (decide (v = w)) as [<-|]; [|exists j; by rewrite lookup_insert_ne].
    exists (S (S m)). rewrite lookup_insert_eq. split; [done|]. rewrite Hm in Hj. injection Hj as <-. lia.
  - intros k v n (m & Hm & Hle). simpl. wps_step. rewrite Hm. destruct m as [|m]; [lia|]. wps_step.
    eexists. split; [done|]. exists m. rewrite lookup_insert_eq. split; [done|lia].
Defined.

Definition demo_thread (t : Z) : thread :=
  Thread (PCB 0 0 0 NULL None) (t + 1) NULL (t + 2) STACK_MAGIC NULL NULL 0 NULL.

Definition demo_blocks : list Z :=
  [100; 101; 102; 200; 201; 202; 300; 301; 302; 400; 401; 410; 411; 420; 421].

Definition demo_k : kst refheap refs :=
  KST (RefHeap 10 1000 (list_to_set demo_blocks))
    (<[100 := demo_thread 100]> (<[200 := demo_thread 200]> {[300 := demo_thread 300]}))
    100 (Some (Array 400 0 8 401 (replicate 8 None)))
    (Some (Array 410 0 8 411 (replicate 8 None)))
    (Some (Queue 420 8 2 0 421 ([Some 200; Some 300] ++ replicate 6 None)))
    3 0 0 0 0 (replicate 64 (0, 0)) {[500 := Sem 501 0]} {[510 := Lock 511 1]} {[520 := CV 521 0]}
    ∅ None (0, 0) ∅.

Definition demo : mach :=
  Mach demo_k (<[100 := Running]> (<[200 := Fresh]> {[300 := Fresh]})) 100 (λ _, 0) (λ _, 0) ∅.

Definition demo_sched : sched := Sched 100 [200; 300] [] [].

Lemma demo_threads t th :
  k_threads demo_k !! t = Some th → t ∈ [100; 200; 300] ∧ th = demo_thread t.
Proof.
  simpl. rewrite !lookup_insert_Some, lookup_singleton_Some. set_solver.
Qed.

Lemma demo_srep : srep demo_k demo_sched.
Proof.
  constructor.
  - done.
  - eexists. split; [done|]. split_and!; try done.
    intros [|[|i]] x Hx; by simplify_eq/=.
  - eexists. split; [done|]. by split_and!.
  - eexists. split; [done|]. by split_and!.
  - by apply (bool_decide_unpack _).
  - set_solver.
  - intros t. split.
    + unfold all_threads; simpl. intros Ht. repeat (apply elem_of_cons in Ht as [->|Ht]); [done..|set_solver].
    + intros [th Ht]. by apply demo_threads in Ht as [? _].
  - intros t th [_ ->]%demo_threads _. done.
  - done.
Qed.

Lemma demo_heap : refheap_inv (k_heap demo_k).
Proof.
  split; [done|]. split; [done|]. intros b Hb%elem_of_list_to_set. revert b Hb.
  apply Forall_forall. by apply (bool_decide_unpack _).
Qed.

Lemma demo_towns : towns demo_k demo_sched.
Proof.
  constructor.
  - apply demo_heap.
  - by apply (bool_decide_unpack _).
  - intros b Hb. apply elem_of_list_to_set. revert b Hb. apply Forall_forall. by apply (bool_decide_unpack _).
  - eexists. split; [done|]. split.
    + split; [apply demo_heap|]. split; [by split_and!|]. split; [simpl; set_solver|done].
    + apply Forall_forall. by apply (bool_decide_unpack _).
  - intros t th Ht. set_solver.
Qed.
Lemma demo_ok : machine_ok {[500]} {[510]} {[520]} demo.
Proof.
  split; [set_solver|]. split; [unfold NULL, LBOLT; set_solver|].
  exists demo_sched. split_and!; simpl.
  - constructor.
    + apply demo_srep.
    + apply demo_towns.
    + done.
    + split; intros a Ha; by simplify_eq/=.
    + intros t th [_ ->]%demo_threads. done.
    + split; [done|]. intros t th [Hin ->]%demo_threads _.
      repeat (apply elem_of_cons in Hin as [->|Hin]); [done..|set_solver].
    + done.
    + by right.
    + intros t Ht. simpl in Ht. repeat (apply elem_of_cons in Ht as [->|Ht]); [by eexists..|set_solver].
    + intros t Ht. simpl in Ht. set_solver.
  - done.
  - constructor; simpl; try (by rewrite dom_singleton_L); try set_solver.
    + intros a x [<- <-]%lookup_singleton_Some. simpl. split_and!; [lia|lia|]. intros _ t Ht. set_solver.
    + intros a x [<- <-]%lookup_singleton_Some. left. split_and!; [done|set_solver|].
      intros t Ht. set_solver.
    + intros a x [<- <-]%lookup_singleton_Some. simpl. split; [by left|lia].
  - right. split_and!; [done|done|]. by left.
Qed.

(** Thread 200 goes down on the semaphore and sleeps; 300 takes the lock and raises
    the semaphore; a clock interrupt lets 200 go on, which finds the semaphore up. *)
Definition demo_run : list event :=
  [ECall CYield; EGo; ECall (CP 500); EGo; ECall (CAcquire 510); ECall (CV_ 500); ETick; EGo; ETick; EGo].

Definition demo_end : mach := match mrun demo_run demo with Ok m => m | Fault _ => demo end.

Lemma demo_run_ok : mrun demo_run demo = Ok demo_end.
Proof. vm_compute. reflexivity. Qed.

Lemma synch_runs_never_fail_witness :
  ∃ m', mrun demo_run demo = Ok m' ∧ machine_ok {[500]} {[510]} {[520]} m'.
Proof. apply (synch_runs_never_fail {[500]} {[510]} {[520]} demo demo_run). exact demo_ok. Defined.

Lemma semaphore_conservation_witness :
  0 ≤ 0 ∧ 0 = m_rel demo_end 500 - m_acq demo_end 500 ∧
  (0 < 0 → ∀ t, sleeping (m_k demo_end) t → sleeps_on (m_k demo_end) 500 t = false).
Proof.
  apply (semaphore_conservation {[500]} {[510]} {[520]} demo demo_run demo_end 500 (Sem 501 0)).
  - exact demo_ok.
  - exact demo_run_ok.
  - vm_compute. reflexivity.
Defined.

Lemma lock_mutual_exclusion_witness :
  (∀ t u, (t, 510) ∈ m_held demo_end → (u, 510) ∈ m_held demo_end → t = u) ∧
  (0 = 0 ↔ ∃ t, (t, 510) ∈ m_held demo_end) ∧
  (0 = 0 ∨ 0 = 1 ∧ ∀ t, sleeping (m_k demo_end) t → sleeps_on (m_k demo_end) 510 t = false).
Proof.
  apply (lock_mutual_exclusion {[500]} {[510]} {[520]} demo demo_run demo_end 510 (Lock 511 0)).
  - exact demo_ok.
  - exact demo_run_ok.
  - vm_compute. reflexivity.
Defined.

(** Threads 200 and 300 wait on the condition variable; 100 broadcasts; then all run. *)
Definition broadcast_run : list event :=
  [ECall CYield;
   EGo; ECall (CAcquire 510); ECall (CWait 520 510);
   EGo; ECall (CAcquire 510); ECall (CWait 520 510);
   EGo; ECall (CAcquire 510); ECall (CBroadcast 520 510); ECall (CRelease 510); ECall CYield;
   EGo; ECall (CRelease 510); ECall CYield;
   EGo].

(** It sets the flag once, the first waiter to run clears it, and the next one goes back to sleep:
    here thread 200 leaves [cv_wait] and thread 300 sleeps on the condition variable again. *)
Lemma cv_broadcast_wakes_one :
  ∃ m, mrun broadcast_run demo = Ok m ∧
    m_pc m !! 200 = Some (Waiting (WYield 0)) ∧
    m_pc m !! 300 = Some (Waiting (WCv 520 510 0)) ∧
    sleeping (m_k m) 300 ∧ sleeps_on (m_k m) 520 300 = true.
Proof.
  eexists. split; [vm_compute; reflexivity|]. split_and!; try (vm_compute; reflexivity).
  eexists _, 0. split; [vm_compute; reflexivity|]. split; [vm_compute; by split|vm_compute; reflexivity].
Qed.

Definition broadcast_end : mach := match mrun broadcast_run demo with Ok m => m | Fault _ => demo end.

(** The bound is met: one of the two waiters gets through. *)
Lemma broadcast_releases_one_witness : m_acq broadcast_end 520 ≤ 1 ∧ m_acq broadcast_end 520 = 1.
Proof.
  split; [|vm_compute; reflexivity].
  apply (broadcast_releases_one {[500]} {[510]} {[520]} demo broadcast_run broadcast_end 520 (CV 521 0)).
  - exact demo_ok.
  - reflexivity.
  - reflexivity.
  - vm_compute. reflexivity.
Defined.

(** A [cv_signal] nobody waits for is remembered: the next [cv_wait] returns at
    once, with the lock held, although nothing was signalled after it began. *)
Theorem cv_signal_is_remembered :
  ∃ m, mrun [ECall (CAcquire 510); ECall (CSignal 520 510); ECall (CWait 520 510)] demo = Ok m ∧
    k_cur (m_k m) = 100 ∧ m_pc m !! 100 = Some Running ∧ m_held m = {[(100, 510)]} ∧
    array_getnum <$> k_sleepers (m_k m) = Some 0.
Proof. eexists. split; [vm_compute; reflexivity|]. by split_and!; vm_compute. Qed.
End Demo.
