(* ===== verification/ThreadThm.v ===== *)
(** * What the thread system guarantees

    The routines of thread.c refine the abstract scheduler of [ThreadSpec], and the
    dead are buried with their memory. *)

From S2P Require Import Prelude StateM Heap KArray KQueue Coremap KState Thread ThreadSpec ThreadHeap Synch SynchMach SynchThm.
Import Demo.

Section thm.
Context {H E : Type} `{KHeapLaws H} `{!ThreadEnv H E}.
Implicit Types (k : kst H E) (s : sched).


(** C26: with interrupts off and room in the run queue for every sleeper, [thread_wakeup] moves the
    threads that sleep on the address to the run queue, in the order they went to sleep, and
    leaves the others asleep in order.  While [cv_wakeup_one_thread] is 1, as [cv_signal] sets it,
    it moves only the first thread that sleeps on the address; otherwise it moves all of them. *)
Theorem thread_wakeup_refines addr k s :
  srep k s → 0 < k_spl k →
  (∀ q, k_runq k = Some q → zlen (s_ready s) + zlen (s_sleep s) < q_size q) →
  ∃ k', thread_wakeup addr k = Ok (tt, k') ∧
    srep k' (a_wake (k_cvone k =? 1) (sleeps_on k addr) s) ∧ stashed k k'.
Proof.
  intros Hrep Hspl Hroom. pose proof (thread_wakeup_spec addr k s Hrep Hspl Hroom) as Hw.
  apply wps_exists in Hw as ([] & k' & Hm & ? & ?). by exists k'.
Qed.

(** [exorcise] removes exactly the dead threads, keeps every other thread as it
    was, and frees no block that is not a dead thread's or the zombie array's own. *)
Theorem exorcise_buries_the_dead k s :
  srep k s → towns k s → 0 < k_spl k →
  ∃ k', exorcise k = Ok (tt, k') ∧ srep k' (a_exorcise s) ∧ towns k' (a_exorcise s) ∧
    (∀ t, k_threads k' !! t = if bool_decide (t ∈ s_zomb s) then None else k_threads k !! t) ∧
    (∀ b, b ∈ kh_live (k_heap k) → b ∉ thr_blocks k (s_zomb s) →
       (∀ a, k_zombies k = Some a → b ∉ array_blocks a) → b ∈ kh_live (k_heap k')).
Proof.
  intros Hrep Hown Hspl. pose proof (exorcise_spec k s Hrep Hown Hspl) as Hw.
  apply wps_exists in Hw as ([] & k' & Hm & ? & ? & (zs & h & thr & Hk & Ht) & ?).
  exists k'. split_and!; try done. intros t. by rewrite <- Ht, Hk.
Qed.
End thm.

(** ** An example

    Thread 100 runs with interrupts off, 200 sleeps on 500 and 300 is dead. *)

Definition crypt : kst refheap refs :=
  set_spl 15 (set_num 2
    (set_threads (<[100 := demo_thread 100]> (<[200 := th_set_sleepaddr 500 (demo_thread 200)]>
                    {[300 := demo_thread 300]}))
    (set_sleepers (Some (Array 400 1 8 401 (Some 200 :: replicate 7 None)))
    (set_zombies (Some (Array 410 1 8 411 (Some 300 :: replicate 7 None)))
    (set_runq (Some (Queue 420 8 0 0 421 (replicate 8 None))) demo_k))))).

Definition crypt_sched : sched := Sched 100 [] [200] [300].

Lemma crypt_threads t th :
  k_threads crypt !! t = Some th → t ∈ [100; 200; 300] ∧ t_stack th = t + 2 ∧
    t_magic th = STACK_MAGIC ∧ t_vmspace th = NULL ∧ t_cwd th = NULL.
Proof.
  simpl. rewrite !lookup_insert_Some, lookup_singleton_Some.
  intros [[<- <-]|[_ [[<- <-]|[_ [<- <-]]]]]; (split; [set_solver|done]).
Qed.

Lemma crypt_srep : srep crypt crypt_sched.
Proof.
  constructor.
  - done.
  - eexists. split; [done|]. by split_and!.
  - eexists. split; [done|]. by split_and!.
  - eexists. split; [done|]. by split_and!.
  - by apply (bool_decide_unpack _).
  - set_solver.
  - intros t. split.
    + unfold all_threads; simpl. intros Ht. repeat (apply elem_of_cons in Ht as [->|Ht]); [done..|set_solver].
    + intros [th Ht]. by apply crypt_threads in Ht as [? _].
  - intros t th (_ & _ & -> & _)%crypt_threads _. done.
  - done.
Qed.

Lemma crypt_towns : towns crypt crypt_sched.
Proof.
  constructor.
  - apply demo_heap.
  - by apply (bool_decide_unpack _).
  - intros b Hb. apply elem_of_list_to_set. revert b Hb. apply Forall_forall. by apply (bool_decide_unpack _).
  - eexists. split; [done|]. split.
    + split; [apply demo_heap|]. split; [by split_and!|]. split; [simpl; set_solver|done].
    + apply Forall_forall. by apply (bool_decide_unpack _).
  - intros t th _ (_ & _ & _ & ? & ?)%crypt_threads. done.
Qed.


Lemma thread_wakeup_refines_witness :
  ∃ k', thread_wakeup 500 crypt = Ok (tt, k') ∧ srep k' (Sched 100 [200] [] [300]) ∧ stashed crypt k'.
Proof.
  apply (thread_wakeup_refines 500 crypt crypt_sched).
  - exact crypt_srep.
  - done.
  - intros q Hq. by injection Hq as <-.
Defined.

Lemma exorcise_buries_the_dead_witness :
  ∃ k', exorcise crypt = Ok (tt, k') ∧ srep k' (a_exorcise crypt_sched) ∧
    towns k' (a_exorcise crypt_sched) ∧
    (∀ t, k_threads k' !! t = if bool_decide (t ∈ [300]) then None else k_threads crypt !! t) ∧
    (∀ b, b ∈ kh_live (k_heap crypt) → b ∉ thr_blocks crypt [300] →
       (∀ a, k_zombies crypt = Some a → b ∉ array_blocks a) → b ∈ kh_live (k_heap k')).
Proof.
  apply (exorcise_buries_the_dead crypt crypt_sched).
  - exact crypt_srep.
  - exact crypt_towns.
  - done.
Defined.
