(* ===== verification/Process.v ===== *)
(** * Processes (kern/thread/process.c, kern/userprog/sys__exit.c, sys_waitpid.c, sys_getpid.c)

    The process table is an array of pointers to [process] structures, indexed by
    process id, with NULL for the ids that are free. *)

From S2P Require Import Prelude StateM Heap KArray KQueue Coremap KState Thread Synch.

Definition PID_MAX : Z := 255.
Definition PROCESS_SIZE : Z := 20.

Section process.
Context {H E : Type} `{KHeap H} `{!ThreadEnv H E}.
Abbreviation K := (stm (kst H E)).

Definition get_proc (p : Z) : K process := λ k,
  match k_procs k !! p with Some x => Ok (x, k) | None => Fault FUndef end.
Definition put_proc (p : Z) (x : process) : K unit := modify (λ k, set_procs (<[p := x]> (k_procs k)) k).

(** The name <exit_lock> has nine characters.  The answer of [sem_create] is stored
    without a look at it. *)
Definition process_create (parentid thread : Z) : K Z :=
  process_node ← kalloc PROCESS_SIZE;
  if process_node =? NULL then mret NULL
  else
    exit_lock ← sem_create 9 0;
    _ ← put_proc process_node (Process parentid 0 (-1) exit_lock thread);
    mret process_node.

Definition process_exit (p : Z) : K unit :=
  x ← get_proc p;
  _ ← sem_destroy (exit_lock x);
  _ ← kfree_ p;
  modify (λ k, set_procs (delete p (k_procs k)) k).

Definition pid_table_shutdown : K unit :=
  pt ← get_opt k_ptable;
  _ ← zoom k_heap set_heap (λ h, h' ← array_destroy pt h; mret (tt, h'));
  modify (set_ptable None).

Definition process_table_bootstrap : K unit :=
  o ← zoom k_heap set_heap array_create;
  match o with
  | None => fault_ FPanic
  | Some a => modify (set_ptable (Some a))
  end.

(** The loop of [no_hole_in_array] and [findProcessId]: the first index that holds
    NULL, or the number of entries. *)
Definition find_hole (pt : array) : K Z :=
  mwhile (S (Z.to_nat (array_getnum pt))) (λ i,
    if i <? array_getnum pt then
      g ← lift (array_getguy pt i);
      if g =? NULL then mret (inr i) else mret (inl (i + 1))
    else mret (inr i)) 0.

(** It answers 1 when there {e is} a hole. *)
Definition no_hole_in_array (pt : array) : K Z :=
  i ← find_hole pt;
  mret (if i <? array_getnum pt then 1 else 0).

Definition findProcessId (pt : array) : K Z := find_hole pt.

(** Answers the result and the id. *)
Definition allocatePid (thread : Z) : K (Z * Z) :=
  pt ← get_opt k_ptable;
  full ← (if array_getnum pt >? PID_MAX then
            r ← no_hole_in_array pt; mret (r =? 0)
          else mret false);
  if full : bool then mret (EAGAIN, 0)
  else
    new_process_id ← findProcessId pt;
    cur ← gets k_cur;
    th ← get_thread cur;
    new_process ← process_create (t_pid th) thread;
    if new_process =? NULL then fault_ FPanic
    else if new_process_id =? array_getnum pt then
      h ← gets k_heap;
      '(result, pt, h) ← lift (array_add pt new_process h);
      _ ← modify (set_heap h);
      _ ← modify (set_ptable (Some pt));
      mret (if result =? 0 then (0, new_process_id) else (result, 0))
    else
      pt ← lift (array_setguy pt new_process_id new_process);
      _ ← modify (set_ptable (Some pt));
      mret (0, new_process_id).

Definition freePid (pid : Z) : K Z :=
  pt ← get_opt k_ptable;
  if (pid >? PID_MAX) || (pid <=? 0) || (pid - 1 >? array_getnum pt) then mret EINVAL
  else
    p ← lift (array_getguy pt pid);
    if p =? NULL then fault_ FPanic
    else
      pt ← lift (array_setguy pt pid NULL);
      _ ← modify (set_ptable (Some pt));
      _ ← process_exit p;
      mret 0.

(** ** System calls *)

Definition getpid : K Z :=
  cur ← gets k_cur;
  th ← get_thread cur;
  mret (t_pid th).

Definition sys__exit (exitcode : Z) : K unit :=
  cur ← gets k_cur;
  th ← get_thread cur;
  pt ← get_opt k_ptable;
  p ← lift (array_getguy pt (t_pid th));
  x ← get_proc p;
  _ ← put_proc p (Process (parent_pid x) 1 exitcode (exit_lock x) (mythread x));
  _ ← V (exit_lock x);
  thread_exit.

(** What [waitpid] answers: blocked in [P] with the rest to do, or an error number and
    the status and id it stores. *)
Inductive waited := WaitBlocked (w : kwait) (p_node pid : Z) | WaitDone (result status pid : Z).

Definition waitpid_finish (p_node pid : Z) : K waited :=
  x ← get_proc p_node;
  result ← freePid pid;
  mret (WaitDone result (exit_code x) pid).

Definition waitpid_after (r : option kwait) (p_node pid : Z) : K waited :=
  match r with
  | Some w => mret (WaitBlocked w p_node pid)
  | None => waitpid_finish p_node pid
  end.

Definition waitpid (pid status options : Z) : K waited :=
  pt ← get_opt k_ptable;
  if (pid >? PID_MAX) || (pid <=? 0) || (pid >? array_getnum pt - 1) || negb (options =? 0)
  then mret (WaitDone EINVAL 0 0)
  else if (status =? NULL) || (status =? 0x80000000) || (status =? 0x40000000)
  then mret (WaitDone EFAULT 0 0)
  else
    p ← lift (array_getguy pt pid);
    if p =? NULL then mret (WaitDone EINVAL 0 0)
    else
      x ← get_proc p;
      cur ← gets k_cur;
      th ← get_thread cur;
      if negb (parent_pid x =? t_pid th) then mret (WaitDone EINVAL 0 0)
      else
        r ← P (exit_lock x);
        waitpid_after r p pid.

(** The thread runs again. *)
Definition waitpid_resume (w : kwait) (p_node pid : Z) : K waited :=
  r ← resume w;
  waitpid_after r p_node pid.
End process.
