(* ===== verification/Owned.v ===== *)
(** * Who owns which heap block

    [owned h B]: the heap is sound and the blocks of the list [B] are in use and
    distinct.  The components of the thread system own the blocks of their structures;
    each operation changes the blocks of one component and leaves the others alone. *)

From S2P Require Import Prelude StateM Heap KArray KQueue Coremap KState Thread ThreadSpec ThreadHeap.

(** What the rest of the kernel has, as seen from one component: blocks, the threads, and locks in
    its blocks. *)
Record outer := Outer {
  o_blocks :> list Z;
  o_threads : gmap Z thread;
  o_locks : gmap Z lock;
}.

Section owned.
Context {H : Type} `{KHeapLaws H}.
Implicit Types (h : H) (B O : list Z).

Definition owned h B : Prop := kh_inv h ∧ NoDup B ∧ ∀ b, b ∈ B → b ∈ kh_live h.

#[export] Instance owned_perm h : Proper ((≡ₚ) ==> iff) (owned h).
Proof.
  intros B B' HB. unfold owned. rewrite HB. split; intros (? & ? & Hl); split_and!; try done; intros b.
  - rewrite <- HB. apply Hl.
  - rewrite HB. apply Hl.
Qed.

Lemma owned_app_r h B O : owned h (B ++ O) → owned h O.
Proof.
  intros (Hi & Hnd & Hl). apply NoDup_app in Hnd as (_ & _ & Hnd). split_and!; try done.
  intros b Hb. apply Hl. set_solver.
Qed.

Lemma owned_live_eq h h' B : owned h B → kh_inv h' → kh_live h' = kh_live h → owned h' B.
Proof. intros (_ & Hnd & Hl) Hi He. split_and!; try done. intros b Hb. rewrite He. by apply Hl. Qed.

Lemma owned_grow h h' B : owned h B → kh_inv h' → kh_live h ⊆ kh_live h' → owned h' B.
Proof. intros (_ & Hnd & Hl) Hi He. split_and!; try done. intros b Hb. apply He. by apply Hl. Qed.

(** [kmalloc] gives a block to own, [kfree] takes one back. *)
Lemma owned_new h h' p B :
  owned h B → kh_inv h' → p ∉ kh_live h → kh_live h' = {[p]} ∪ kh_live h → owned h' (p :: B).
Proof.
  intros (_ & Hnd & Hl) Hi Hp He. split_and!; [done| |].
  - apply NoDup_cons. split; [|done]. intros Hb. by apply Hp, Hl.
  - intros b [->|Hb]%elem_of_cons; rewrite He; [set_solver|]. apply elem_of_union_r. by apply Hl.
Qed.

Lemma owned_del h h' p B :
  owned h (p :: B) → kh_inv h' → kh_live h' = kh_live h ∖ {[p]} → owned h' B.
Proof.
  intros (_ & [Hp Hnd]%NoDup_cons & Hl) Hi He. split_and!; try done.
  intros b Hb. rewrite He. apply elem_of_difference. split; [apply Hl; set_solver|].
  intros ->%elem_of_singleton. done.
Qed.

(** ** Arrays and queues *)

Definition arr_blocks (a : array) : list Z :=
  a_self a :: (if a_vptr a =? NULL then [] else [a_vptr a]).

Lemma elem_of_arr_blocks a b : b ∈ arr_blocks a ↔ b ∈ array_blocks a.
Proof. unfold arr_blocks, array_blocks. destruct (a_vptr a =? NULL); set_solver. Qed.

Lemma arr_blocks_once a : a_self a ≠ a_vptr a → NoDup (arr_blocks a).
Proof.
  intros Hne. unfold arr_blocks. destruct (a_vptr a =? NULL); [apply NoDup_singleton|]. apply NoDup_cons.
  split; [by rewrite list_elem_of_singleton|apply NoDup_singleton].
Qed.

Lemma owned_array_inv h a l O :
  owned h (arr_blocks a ++ O) → array_rep a l → array_inv a l h.
Proof.
  intros (Hi & Hnd & Hl) Hr. split_and!; try done.
  - intros b Hb%elem_of_arr_blocks. apply Hl. set_solver.
  - intros Heq. unfold arr_blocks in *. destruct (a_vptr a =? NULL) eqn:En.
    + apply (kh_live_nonnull h Hi). replace NULL with (a_self a) by lia. apply Hl. set_solver.
    + apply NoDup_app in Hnd as (Hnd & _). apply NoDup_cons in Hnd as [Hnd _]. set_solver.
Qed.

Lemma owned_array_kept h a l' a' h' O :
  owned h (arr_blocks a ++ O) → array_kept a h l' a' h' → owned h' (arr_blocks a' ++ O).
Proof.
  intros (Hi & Hnd & Hl) ((Hi' & Hr' & Hb' & Hne') & Hf & _).
  apply NoDup_app in Hnd as (_ & Hd & Hnd).
  assert (HO : ∀ b, b ∈ O → b ∈ array_frame a' h').
  { intros b Hb. rewrite Hf. apply elem_of_difference. split; [apply Hl; set_solver|].
    rewrite <- elem_of_arr_blocks. intros Hb2. by apply (Hd b). }
  split_and!; [done| |].
  - apply NoDup_app. split_and!; [|intros b Hb Hb2|done].
    + unfold arr_blocks. destruct (a_vptr a' =? NULL); [by repeat constructor; set_solver|].
      apply NoDup_cons. split; [set_solver|by repeat constructor; set_solver].
    + apply elem_of_arr_blocks in Hb. apply HO in Hb2. unfold array_frame in Hb2. set_solver.
  - intros b [Hb|Hb]%elem_of_app.
    + apply Hb'. by apply elem_of_arr_blocks.
    + apply HO in Hb. unfold array_frame in Hb. set_solver.
Qed.

Definition q_blocks (q : queue) : list Z := [q_self q; q_dptr q].

Lemma owned_queue_inv h q l O :
  owned h (q_blocks q ++ O) → queue_rep q l → queue_inv q l h.
Proof.
  intros (Hi & Hnd & Hl) Hr. unfold q_blocks in *. split_and!; try done.
  - intros b Hb. apply Hl. unfold queue_blocks in Hb. set_solver.
  - apply NoDup_app in Hnd as (Hnd & _). apply NoDup_cons in Hnd as [Hnd _]. set_solver.
Qed.

Lemma owned_queue_kept h q l q' h' O :
  owned h (q_blocks q ++ O) → queue_kept q h l q' h' → owned h' (q_blocks q' ++ O).
Proof.
  intros (Hi & Hnd & Hl) ((Hi' & Hr' & Hb' & Hne') & Hf & _).
  apply NoDup_app in Hnd as (_ & Hd & Hnd).
  assert (HO : ∀ b, b ∈ O → b ∈ queue_frame q' h').
  { intros b Hb. rewrite Hf. apply elem_of_difference. split; [apply Hl; set_solver|].
    unfold queue_blocks. intros Hb2. apply (Hd b); [|done]. unfold q_blocks. set_solver. }
  unfold q_blocks in *. unfold queue_frame, queue_blocks in *.
  split_and!; [done| |].
  - apply NoDup_app. split_and!; [|intros b Hb Hb2|done].
    + apply NoDup_cons. split; [set_solver|by repeat constructor; set_solver].
    + apply HO in Hb2. set_solver.
  - intros b [Hb|Hb]%elem_of_app; [apply Hb'; set_solver|]. apply HO in Hb. set_solver.
Qed.
End owned.

Lemma arr_blocks_eq a a' : a_self a' = a_self a → a_vptr a' = a_vptr a → arr_blocks a' = arr_blocks a.
Proof. intros Hs Hv. unfold arr_blocks. by rewrite Hs, Hv. Qed.

Lemma q_blocks_eq q q' : q_self q' = q_self q → q_dptr q' = q_dptr q → q_blocks q' = q_blocks q.
Proof. intros Hs Hv. unfold q_blocks. by rewrite Hs, Hv. Qed.

#[global] Opaque arr_blocks q_blocks.

(** * The memory a routine takes

    [taken h L B]: apart from the blocks [L] the heap has the blocks [B].  With [L] the blocks
    before a call this says exactly what the call has allocated and not given back. *)

From S2P Require Import Prelude StateM Heap KArray KBitmap Coremap KState Thread ThreadSpec ThreadHeap.

(** A routine on the heap. *)
Definition heap_op {H E A} (m : H → res (A * H)) : stm (kst H E) A := zoom k_heap set_heap m.
Definition heap_do {H E} (m : H → res H) : stm (kst H E) unit := heap_op (λ h, h ← m h; mret (tt, h)).

Section taken.
Context {H E : Type} `{KHeapLaws H}.
Implicit Types (k : kst H E) (h : H).

(** Apart from the blocks [L] the heap has the blocks [B]. *)
Record taken (h : H) (L : gset Z) (B : list Z) : Prop := Taken {
  tk_inv : kh_inv h;
  tk_once : NoDup B;
  tk_new : ∀ b, b ∈ B → b ∉ L;
  tk_live : kh_live h = list_to_set B ∪ L;
}.

#[export] Instance taken_perm h L : Proper ((≡ₚ) ==> iff) (taken h L).
Proof.
  assert (∀ B B', B ≡ₚ B' → taken h L B → taken h L B') as Hhalf.
  { intros B B' HB [Hi Hnd Hn Hl]. constructor; [done|by rewrite <- HB|intros b Hb; apply Hn; by rewrite HB|by rewrite <- HB]. }
  intros B B' HB. split; by apply Hhalf.
Qed.

Lemma taken_nil h : kh_inv h → taken h (kh_live h) [].
Proof. intros Hi. constructor; [done|constructor|by intros b ?%elem_of_nil|by rewrite list_to_set_nil, union_empty_l_L]. Qed.

Lemma taken_new h L B h' p :
  taken h L B → kh_inv h' → p ∉ kh_live h → kh_live h' = {[p]} ∪ kh_live h → taken h' L (p :: B).
Proof.
  intros [Hi Hnd Hn Hl] Hi' Hp Hl'. constructor; [done| | |].
  - constructor; [|done]. intros Hb. apply Hp. rewrite Hl, elem_of_union, elem_of_list_to_set. by left.
  - intros b [->|Hb]%elem_of_cons; [|by apply Hn]. intros Hb. apply Hp. rewrite Hl, elem_of_union. by right.
  - rewrite Hl', Hl. simpl. apply union_assoc_L.
Qed.

Lemma taken_del h L B h' p : taken h L (p :: B) → kh_inv h' → kh_live h' = kh_live h ∖ {[p]} → taken h' L B.
Proof.
  intros [Hi [Hp Hnd]%NoDup_cons Hn Hl] Hi' Hl'. constructor; [done|done|intros b Hb; apply Hn; by right|].
  pose proof (Hn p ltac:(by left)) as HpL. rewrite Hl', Hl. clear Hl Hl'. set_solver.
Qed.

Lemma taken_same h L B h' : taken h L B → kh_inv h' → kh_live h' = kh_live h → taken h' L B.
Proof. intros [] Hi' Hl'. constructor; [done..|congruence]. Qed.

Lemma taken_owned h0 C h B : owned h0 C → taken h (kh_live h0) B → owned h (B ++ C).
Proof.
  intros (Hi & Hnd & Hl) [Hi' HndB Hn Hl']. split_and!; [done| |].
  - apply NoDup_app. split_and!; [done| |done]. intros b Hb Hc. by apply (Hn b Hb), Hl.
  - intros b [Hb|Hb]%elem_of_app; rewrite Hl'; apply elem_of_union; [left; by apply elem_of_list_to_set|right; by apply Hl].
Qed.

Lemma taken_in h L B b : taken h L B → b ∈ B → b ∈ kh_live h.
Proof. intros [_ _ _ ->] Hb. apply elem_of_union. left. by apply elem_of_list_to_set. Qed.

Lemma alloc_taken k L B sz :
  taken (k_heap k) L B → 0 ≤ sz < kh_max →
  wps (kalloc sz) k (λ p k', ∃ h', k' = set_heap h' k ∧ rooms 1 (k_heap k) (p ≠ NULL) h' ∧
    ((p = NULL ∧ taken h' L B) ∨ (p ≠ NULL ∧ taken h' L (p :: B)))).
Proof.
  intros Ht Hs. eapply wps_mono; [apply wps_kalloc_full; [apply Ht|done]|]. intros p k' (h' & -> & Hi & Hp & Hr). exists h'.
  split; [done|]. split; [done|]. destruct Hp as [[-> Hl]|(Hp & Hn & Hl)]; [left|right]; split; try done; [by eapply taken_same|by eapply taken_new].
Qed.

Lemma free_taken k L B p :
  taken (k_heap k) L (p :: B) → wps (kfree_ p) k (λ _ k', ∃ h', k' = set_heap h' k ∧ taken h' L B).
Proof.
  intros Ht. eapply wps_mono; [apply wps_kfree; [apply Ht|eapply taken_in; [exact Ht|constructor]]|].
  intros [] k' (h' & -> & Hi & Hl). exists h'. split; [done|]. by eapply taken_del.
Qed.

Lemma create_taken k L B :
  taken (k_heap k) L B → 12 < kh_max →
  wps (heap_op array_create) k (λ oa k', ∃ h', k' = set_heap h' k ∧ rooms 1 (k_heap k) (oa ≠ None) h' ∧
    match oa with None => taken h' L B | Some a => array_rep a [] ∧ taken h' L (arr_blocks a ++ B) end).
Proof.
  intros Ht Hm. unfold heap_op. rewrite wps_zoom. eapply wp_mono; [apply array_create_full; [apply Ht|done]|].
  intros [[a|] h'] [Hp Hroom]; exists h'; (split; [done|]; split; [done|]).
  - destruct Hp as ((Hi & Hr & Hb & Hne) & Hf). split; [done|].
    pose proof (elem_of_arr_blocks a) as He. destruct Ht as [_ Hnd Hn Hlk]. unfold array_frame in Hf.
    assert (∀ b, b ∈ arr_blocks a → b ∉ B ∧ b ∉ L) as Hold.
    { intros b Hx0%He. assert (b ∉ kh_live (k_heap k)) as Hx by (rewrite <- Hf, elem_of_difference; tauto).
      rewrite Hlk, elem_of_union, elem_of_list_to_set in Hx. tauto. }
    constructor; [done| | |].
    + apply NoDup_app. split_and!; [by apply arr_blocks_once|intros b Hin; by apply Hold|done].
    + intros b [Hin|Hin]%elem_of_app; [by apply Hold|by apply Hn].
    + rewrite list_to_set_app_L, <- union_assoc_L, <- Hlk, <- Hf.
      rewrite (union_difference_L (array_blocks a) (kh_live h')) at 1 by done. f_equal.
      apply set_eq. intros b. by rewrite elem_of_list_to_set, He.
  - destruct Hp as [Hi Hl]. by eapply taken_same.
Qed.

Lemma destroy_taken k L B a l :
  taken (k_heap k) L (arr_blocks a ++ B) → array_rep a l →
  wps (heap_do (array_destroy a)) k (λ _ k', ∃ h', k' = set_heap h' k ∧ taken h' L B).
Proof.
  intros Ht Hr. unfold heap_do, heap_op. rewrite wps_zoom, wp_bind.
  assert (owned (k_heap k) (arr_blocks a ++ B)) as Ho.
  { split_and!; [apply Ht|apply Ht|]. intros b Hb. by eapply taken_in. }
  eapply wp_mono; [by eapply array_destroy_spec, owned_array_inv|]. intros h' [Hi Hl]. wp_val. exists h'. split; [done|].
  pose proof (elem_of_arr_blocks a) as He. destruct Ht as [_ Hnd Hn Hlk]. apply NoDup_app in Hnd as (_ & Hx & Hnd).
  constructor; [done|done|intros b Hb; apply Hn, elem_of_app; by right|]. rewrite Hl. unfold array_frame. rewrite Hlk.
  apply set_eq. intros b. rewrite elem_of_difference, !elem_of_union, !elem_of_list_to_set, elem_of_app, <- He. split; [tauto|].
  intros [Hb|Hb]; (split; [auto|]); intros Hb'; [by apply (Hx b)|]. by apply (Hn b); [apply elem_of_app; left|].
Qed.

Lemma create_bitmap_taken k L B nbits :
  taken (k_heap k) L B → 0 ≤ nbits → nbits + 8 < 2 ^ 32 → 8 < kh_max → (nbits + 7) / 8 < kh_max →
  wps (heap_op (bitmap_create nbits)) k (λ ob k', ∃ h', k' = set_heap h' k ∧ rooms 2 (k_heap k) (ob ≠ None) h' ∧
    match ob with
    | None => taken h' L B
    | Some b => bitmap_wf b ∧ bm_nbits b = nbits ∧ taken h' L (bm_vptr b :: bm_self b :: B)
    end).
Proof.
  intros Ht Hn Hn2 Hm Hm2. unfold heap_op. rewrite wps_zoom.
  pose proof (bitmap_create_room nbits (k_heap k)) as Hroom.
  destruct (proj1 (wp_exists _ _) (bitmap_create_spec nbits (k_heap k) (tk_inv _ _ _ Ht) Hn Hn2 Hm Hm2)) as ([ob h'] & Heq & Hp).
  specialize (Hroom _ _ (tk_inv _ _ _ Ht) Hn Hn2 Hm Hm2 Heq). rewrite Heq. wp_val. exists h'. split; [done|]. split; [done|].
  destruct ob as [b|].
  - destruct Hp as (Hw & Hb & _ & Hi & Hs & Hv & Hne & Hl). split; [done|]. split; [done|].
    destruct Ht as [_ Hnd Hnew Hlk]. rewrite Hlk, !elem_of_union, !elem_of_list_to_set in Hs, Hv. constructor; [done| | |].
    + apply NoDup_cons. split; [|apply NoDup_cons; split; [tauto|done]]. rewrite elem_of_cons. intros [?|?]; [congruence|tauto].
    + intros x [->|[->|Hx]%elem_of_cons]%elem_of_cons; [tauto|tauto|by apply Hnew].
    + rewrite Hl, Hlk. simpl. rewrite !union_assoc_L. f_equal. f_equal. apply union_comm_L.
  - destruct Hp as [Hi Hl]. by eapply taken_same.
Qed.

Lemma destroy_bitmap_taken k L B b :
  taken (k_heap k) L (bm_vptr b :: bm_self b :: B) →
  wps (heap_do (bitmap_destroy b)) k (λ _ k', ∃ h', k' = set_heap h' k ∧ taken h' L B).
Proof.
  intros Ht. unfold heap_do, heap_op, bitmap_destroy. rewrite wps_zoom, !wp_bind.
  eapply wp_mono; [apply kfree_law; [apply Ht|eapply taken_in; [exact Ht|constructor]]|]. intros h1 [Hi1 Hl1].
  pose proof (taken_del _ _ _ _ _ Ht Hi1 Hl1) as Ht1.
  eapply wp_mono; [apply kfree_law; [done|eapply taken_in; [exact Ht1|constructor]]|]. intros h2 [Hi2 Hl2]. wp_val.
  exists h2. split; [done|]. by eapply taken_del.
Qed.
End taken.
