(* ===== verification/ProcSpec.v ===== *)
(** * The process table

    Process ids are positions in a list of processes with holes: [allocatePid] takes
    the first hole (or a new position), [freePid] makes one. *)

From S2P Require Import Prelude StateM Heap KArray KQueue Coremap KState Thread ThreadSpec ThreadHeap Synch Process Owned.

(** The first free position. *)
Fixpoint first_hole (l : list Z) : Z :=
  match l with
  | [] => 0
  | p :: l' => if p =? NULL then 0 else 1 + first_hole l'
  end.

Definition put_pid (pid p : Z) (l : list Z) : list Z :=
  if pid =? zlen l then l ++ [p] else <[Z.to_nat pid := p]> l.

Lemma first_hole_range l : 0 ≤ first_hole l ≤ zlen l.
Proof. induction l as [|p l IH]; simpl; [lia|]. destruct (p =? NULL); lia. Qed.

Lemma first_hole_full l : first_hole l = zlen l ↔ NULL ∉ l.
Proof.
  induction l as [|p l IH]; simpl; [set_solver|]. pose proof (first_hole_range l).
  rewrite not_elem_of_cons. destruct (p =? NULL) eqn:E; [split; [lia|]; intros [? _]; lia|].
  split; [intros; split; [lia|apply IH; lia]|]. intros [_ ?%IH]. lia.
Qed.

Lemma first_hole_hole l : first_hole l < zlen l → l !! Z.to_nat (first_hole l) = Some NULL.
Proof.
  induction l as [|p l IH]; simpl; [lia|]. destruct (p =? NULL) eqn:E; intros Hl.
  - simpl. f_equal. lia.
  - pose proof (first_hole_range l). rewrite Z2Nat.inj_add by lia. simpl. apply IH. lia.
Qed.

Section proc.
Context {H E : Type} `{KHeapLaws H} `{!ThreadEnv H E}.
Implicit Types (k : kst H E).

Lemma find_hole_spec pt l k :
  array_rep pt l → wps (find_hole pt) k (λ i k', k' = k ∧ i = first_hole l).
Proof.
  intros Hr. unfold find_hole, array_getnum. rewrite (proj1 Hr).
  apply (wps_mwhile (λ n i k', k' = k ∧ ∃ dn rest, l = dn ++ rest ∧ n = length rest ∧
    i = zlen dn ∧ NULL ∉ dn) _ (length l)).
  - split; [done|]. exists [], l. split_and!; try done. set_solver.
  - lia.
  - intros n i k' (-> & dn & rest & -> & -> & -> & Hdn). rewrite length_app.
    destruct rest as [|p rest]; simpl.
    + replace (_ <? _) with false by lia. wps_step. split; [done|].
      rewrite app_nil_r. symmetry. by apply first_hole_full.
    + replace (_ <? _) with true by lia. rewrite wps_bind, wps_lift.
      eapply wp_of_eq; [apply (array_getguy_spec _ _ _ p Hr); [lia|]|].
      { rewrite Nat2Z.id. by apply list_lookup_middle. }
      destruct (p =? NULL) eqn:Ep; wps_step.
      * split; [done|]. clear Hr. induction dn as [|q dn IH]; simpl; [by rewrite Ep|].
        apply not_elem_of_cons in Hdn as [? ?]. replace (q =? NULL) with false by lia.
        rewrite <- IH by done. lia.
      * exists (length rest). split; [lia|]. split; [done|]. exists (dn ++ [p]), rest.
        rewrite <- app_assoc, length_app. split_and!; try done; [simpl; lia|].
        rewrite not_elem_of_app, list_elem_of_singleton. split; [done|]. lia.
Qed.

(** ** Ownership *)

Definition proc_blocks k (p : Z) : list Z :=
  match k_procs k !! p with
  | Some x => p :: match k_sems k !! exit_lock x with
                   | Some s => [exit_lock x; sem_name s]
                   | None => []
                   end
  | None => []
  end.

Definition pt_blocks k (l : list Z) : list Z := l ≫= proc_blocks k.

Record ptab k (l : list Z) : Prop := PTab {
  pt_arr : ∃ a, k_ptable k = Some a ∧ array_rep a l;
  pt_nullp : k_procs k !! NULL = None;
  pt_nulls : k_sems k !! NULL = None;
  pt_proc : ∀ p, p ∈ l → p ≠ NULL → ∃ x, k_procs k !! p = Some x ∧
    (exit_lock x = NULL ∨ is_Some (k_sems k !! exit_lock x));
}.

Definition oarr (o : option array) : list Z := match o with Some a => arr_blocks a | None => [] end.
Definition oq (o : option queue) : list Z := match o with Some q => q_blocks q | None => [] end.

(** Nothing but the process table and the heap has changed. *)
Definition proc_only k k' : Prop :=
  ∃ h pt procs sems, k' = set_heap h (set_ptable pt (set_procs procs (set_sems sems k))).

Lemma proc_only_refl k : proc_only k k.
Proof. exists (k_heap k), (k_ptable k), (k_procs k), (k_sems k). by destruct k. Qed.

Lemma pt_blocks_ext k k' l :
  (∀ p, p ∈ l → proc_blocks k' p = proc_blocks k p) → pt_blocks k' l = pt_blocks k l.
Proof.
  intros Hext. unfold pt_blocks. induction l as [|p l IH]; [done|]. simpl.
  rewrite Hext by constructor. f_equal. apply IH. intros q Hq. apply Hext. by constructor.
Qed.

Lemma pt_blocks_app k l1 l2 : pt_blocks k (l1 ++ l2) = pt_blocks k l1 ++ pt_blocks k l2.
Proof. unfold pt_blocks. by rewrite bind_app. Qed.

Lemma pt_blocks_cons k p l : pt_blocks k (p :: l) = proc_blocks k p ++ pt_blocks k l.
Proof. done. Qed.

Lemma elem_of_pt_blocks k l b : b ∈ pt_blocks k l ↔ ∃ p, p ∈ l ∧ b ∈ proc_blocks k p.
Proof. unfold pt_blocks. rewrite list_elem_of_bind. naive_solver. Qed.

(** ** [sem_create] and [process_create] *)

Lemma sem_create_spec k len c B :
  owned (k_heap k) B → 0 ≤ c → 0 ≤ len → len + 1 < kh_max → 8 < kh_max →
  wps (sem_create len c) k (λ e k', ∃ h',
    ((e = NULL ∧ k' = set_heap h' k ∧ owned h' B) ∨
     (e ≠ NULL ∧ e ∉ kh_live (k_heap k) ∧ ∃ name, owned h' (e :: name :: B) ∧
        k' = set_sems (<[e := Sem name c]> (k_sems k)) (set_heap h' k))) ∧
    rooms 2 (k_heap k) (e ≠ NULL) h').
Proof.
  intros Ho Hc Hlen Hmax Hmax8. unfold sem_create. wps_step. pose proof Ho as (Hi & _).
  wps_call wps_kalloc_full; [done|lia|]. intros e k1 (h1 & -> & Hi1 & [[-> Hl1]|(He & Hne & Hl1)] & Hr1).
  { simpl. wps_step. exists h1. split; [|apply (rooms_le 1); [no_room|lia]].
    left. split_and!; try done. by eapply owned_live_eq. }
  replace (e =? NULL) with false by lia. unfold kstrdup.
  pose proof (owned_new _ _ _ _ Ho Hi1 Hne Hl1) as Ho1.
  wps_call wps_kalloc_full; [done|lia|]. simpl.
  intros name k2 (h2 & -> & Hi2 & [[-> Hl2]|(Hn & Hnn & Hl2)] & Hr2); simpl in *.
  - wps_call wps_kfree; [done|simpl; rewrite Hl2, Hl1; set_solver|].
    intros [] k3 (h3 & -> & Hi3 & Hl3). wps_step. simpl in *. exists h3.
    split; [|eapply (rooms_bind 1 1); [done|intros _; no_room]]. left. split_and!; try done.
    eapply owned_del; [|done|done]. by eapply owned_live_eq.
  - replace (name =? NULL) with false by lia. unfold put_sem. wps_step. exists h2.
    split; [|eapply (rooms_bind 1 1); [done|intros _; by eapply rooms_mono]]. right.
    split_and!; try done. exists name. split; [|done].
    rewrite (Permutation_swap name e). by eapply owned_new.
Qed.
Lemma process_create_spec k parent t B :
  owned (k_heap k) B → PROCESS_SIZE < kh_max → k_sems k !! NULL = None →
  wps (process_create parent t) k (λ p k', proc_only k k' ∧ k_ptable k' = k_ptable k ∧
    ((p = NULL ∧ k_procs k' = k_procs k ∧ k_sems k' = k_sems k ∧ owned (k_heap k') B) ∨
     (p ≠ NULL ∧ p ∉ kh_live (k_heap k) ∧ ∃ e, e ∉ kh_live (k_heap k) ∧
        k_procs k' = <[p := Process parent 0 (-1) e t]> (k_procs k) ∧
        (e = NULL ∧ k_sems k' = k_sems k ∨
         e ≠ NULL ∧ ∃ name, k_sems k' = <[e := Sem name 0]> (k_sems k)) ∧
        owned (k_heap k') (proc_blocks k' p ++ B))) ∧
    rooms 3 (k_heap k) (p ≠ NULL ∧ ∃ x, k_procs k' !! p = Some x ∧ exit_lock x ≠ NULL) (k_heap k')).
Proof.
  intros Ho Hmax Hns. unfold PROCESS_SIZE in *. pose proof Ho as (Hi & _). unfold process_create.
  wps_call wps_kalloc_full; [done|unfold PROCESS_SIZE; lia|].
  intros p k1 (h1 & -> & Hi1 & [[-> Hl1]|(Hp & Hnp & Hl1)] & Hr1).
  { simpl. wps_step. split_and!; [|done| |apply (rooms_le 1); [no_room|lia]].
    - by exists h1, (k_ptable k), (k_procs k), (k_sems k).
    - left. split_and!; try done. by eapply owned_live_eq. }
  replace (p =? NULL) with false by lia.
  pose proof (owned_new _ _ _ _ Ho Hi1 Hnp Hl1) as Ho1.
  wps_call (sem_create_spec (set_heap h1 k) 9 0 (p :: B)); [done|lia..|].
  intros e k2 (h2 & [(-> & -> & Ho2)|(He & Hne & name & Ho2 & ->)] & Hr2); unfold put_proc; wps_step; simpl.
  - split_and!; [|done| |eapply (rooms_bind 1 2); [done|intros _; no_room]].
    + by eexists h2, (k_ptable k), _, (k_sems k).
    + right. split_and!; try done. exists NULL. split_and!; try done.
      * by apply kh_live_nonnull.
      * by left.
      * unfold proc_blocks. simpl. rewrite lookup_insert_eq. simpl. by rewrite Hns.
  - simpl in Hne. split_and!; [|done| |].
    3: { eapply (rooms_bind 1 2); [done|]. intros _. eapply rooms_mono; [done|]. intros _. split; [done|].
      rewrite lookup_insert_eq. by eexists. }
    + by eexists h2, (k_ptable k), _, _.
    + right. split_and!; try done. exists e. split_and!; try done.
      * rewrite Hl1 in Hne. set_solver.
      * right. split; [done|]. by exists name.
      * unfold proc_blocks. simpl. rewrite lookup_insert_eq. simpl. rewrite lookup_insert_eq. simpl.
        rewrite <- (Permutation_middle [e; name] B p) in Ho2. done.
Qed.

(** Other processes keep their blocks. *)
Lemma proc_blocks_other k k' p e t parent q B :
  owned (k_heap k) B → (∀ b, b ∈ proc_blocks k q → b ∈ B) →
  p ∉ kh_live (k_heap k) → e ∉ kh_live (k_heap k) →
  k_procs k' = <[p := Process parent 0 (-1) e t]> (k_procs k) →
  (e = NULL ∧ k_sems k' = k_sems k ∨ e ≠ NULL ∧ ∃ name, k_sems k' = <[e := Sem name 0]> (k_sems k)) →
  (∀ x, k_procs k !! q = Some x → exit_lock x = NULL ∨ is_Some (k_sems k !! exit_lock x)) →
  q ≠ p → proc_blocks k' q = proc_blocks k q.
Proof.
  intros (_ & _ & Hl) Hb Hp He Hk Hs Hx Hqp. unfold proc_blocks in *. rewrite Hk, lookup_insert_ne by done.
  destruct (k_procs k !! q) as [x|] eqn:Eq; [|done]. destruct Hs as [[-> ->]|(Hen & name & ->)]; [done|].
  rewrite lookup_insert_ne; [done|]. intros ->. destruct (Hx x eq_refl) as [?|[y Hy]]; [done|].
  rewrite Hy in Hb. apply He, Hl, Hb. set_solver.
Qed.
(** Filling a hole adds one process's blocks. *)
Lemma put_pid_perm k i p l :
  0 ≤ i ≤ zlen l → (i < zlen l → l !! Z.to_nat i = Some NULL) → k_procs k !! NULL = None →
  pt_blocks k (put_pid i p l) ≡ₚ proc_blocks k p ++ pt_blocks k l.
Proof.
  intros Hi Hh Hn. unfold put_pid. destruct (i =? zlen l) eqn:Ei.
  - rewrite pt_blocks_app. unfold pt_blocks at 2. simpl. rewrite app_nil_r. apply Permutation_app_comm.
  - specialize (Hh ltac:(lia)). pose proof (take_drop_middle _ _ _ Hh) as Hl.
    rewrite insert_take_drop by lia.
    transitivity (proc_blocks k p ++ pt_blocks k (take (Z.to_nat i) l ++ NULL :: drop (S (Z.to_nat i)) l));
      [|by rewrite Hl].
    rewrite !pt_blocks_app, !pt_blocks_cons.
    assert (proc_blocks k NULL = []) as -> by (unfold proc_blocks; by rewrite Hn). simpl.
    rewrite !app_assoc. apply Permutation_app_tail. apply Permutation_app_comm.
Qed.

Lemma elem_of_put_pid i p l q : q ∈ put_pid i p l → q = p ∨ q ∈ l.
Proof.
  unfold put_pid. destruct (i =? zlen l).
  - rewrite elem_of_app, list_elem_of_singleton. naive_solver.
  - intros (j & Hj)%list_elem_of_lookup. apply list_lookup_insert_Some in Hj as [(_ & -> & _)|[_ Hj]].
    + by left.
    + right. by eapply list_elem_of_lookup_2.
Qed.

(** The table with the new process in it. *)
Lemma ptab_put k k' l l' p e t parent pt B :
  ptab k l → owned (k_heap k) B → (∀ b, b ∈ pt_blocks k l → b ∈ B) →
  p ≠ NULL → p ∉ kh_live (k_heap k) → e ∉ kh_live (k_heap k) →
  k_procs k' = <[p := Process parent 0 (-1) e t]> (k_procs k) →
  (e = NULL ∧ k_sems k' = k_sems k ∨ e ≠ NULL ∧ ∃ name, k_sems k' = <[e := Sem name 0]> (k_sems k)) →
  k_ptable k' = Some pt → array_rep pt l' → (∀ q, q ∈ l' → q = p ∨ q ∈ l) →
  p ∉ l ∧ ptab k' l' ∧ pt_blocks k' l = pt_blocks k l.
Proof.
  intros [_ Hnp Hns Hpr] Ho Hsub Hp Hpl Hel Hkp Hks Hpt Hrep Hin'. pose proof Ho as (_ & _ & Hl).
  assert (Hfresh : p ∉ l).
  { intros Hin. apply Hpl, Hl, Hsub, elem_of_pt_blocks. exists p. split; [done|].
    destruct (Hpr p Hin Hp) as (x & Hx & _). unfold proc_blocks. rewrite Hx. constructor. }
  split; [done|]. split.
  2: { apply pt_blocks_ext. intros q Hq. destruct (decide (q = NULL)) as [->|Hqn].
    - unfold proc_blocks. by rewrite Hkp, lookup_insert_ne, Hnp.
    - destruct (Hpr q Hq Hqn) as (x & Hx & Hlk).
      eapply (proc_blocks_other k k' p e t parent q B); try done; [|by intros ? ?; simplify_eq|congruence].
      intros b Hb. apply Hsub, elem_of_pt_blocks. by exists q. }
  constructor.
  - by exists pt.
  - rewrite Hkp. by rewrite lookup_insert_ne.
  - destruct Hks as [[-> ->]|(He & name & ->)]; [done|]. by rewrite lookup_insert_ne.
  - intros q Hq Hqn. rewrite Hkp. destruct (decide (q = p)) as [->|Hne].
    + rewrite lookup_insert_eq. eexists. split; [done|]. simpl.
      destruct Hks as [[-> _]|(He & name & ->)]; [by left|right]. by rewrite lookup_insert_eq.
    + rewrite lookup_insert_ne by done. apply Hin' in Hq as [?|Hq]; [done|].
      destruct (Hpr q Hq Hqn) as (x & Hx & Hlk). exists x. split; [done|].
      destruct Hlk as [?|Hlk]; [by left|right].
      destruct Hks as [[_ ->]|(He & name & ->)]; [done|].
      rewrite lookup_insert_is_Some. by destruct (decide (e = exit_lock x)); auto.
Qed.
(** What [allocatePid] answers: no id is free; memory for the entry, its semaphore or a longer table
    ran out (each is one of four requests at most); or the lowest free id, with its entry.  With
    memory for four requests the new process has its exit semaphore. *)
Definition pid_post k l (th : thread) (t : Z) O (a : Z * Z) k' : Prop :=
  let '(r, pid) := a in
  (r = EAGAIN ∧ k' = k ∧ PID_MAX < zlen l ∧ NULL ∉ l) ∨
  (r = ENOMEM ∧ ¬ kh_room 4 (k_heap k) ∧ proc_only k k' ∧ ptab k' l ∧
     owned (k_heap k') (oarr (k_ptable k') ++ pt_blocks k' l ++ O)) ∨
  (r = 0 ∧ pid = first_hole l ∧ 0 ≤ pid ≤ PID_MAX `max` zlen l ∧ proc_only k k' ∧ ∃ p e,
     p ∉ l ∧ p ≠ NULL ∧ ptab k' (put_pid pid p l) ∧
     k_procs k' !! p = Some (Process (t_pid th) 0 (-1) e t) ∧
     owned (k_heap k') (oarr (k_ptable k') ++ pt_blocks k' (put_pid pid p l) ++ O) ∧
     rooms 4 (k_heap k) (e ≠ NULL) (k_heap k')).

Lemma alloc_full_spec pt l k :
  array_rep pt l →
  wps (if array_getnum pt >? PID_MAX then r ← no_hole_in_array pt; mret (r =? 0) else mret false) k
    (λ b k', k' = k ∧ b = bool_decide (PID_MAX < zlen l ∧ NULL ∉ l)).
Proof.
  intros Hr. unfold array_getnum at 1. rewrite (proj1 Hr). destruct (zlen l >? PID_MAX) eqn:El.
  - unfold no_hole_in_array. wps_call find_hole_spec; [done|]. intros i k' [-> ->]. wps_step. split; [done|].
    unfold array_getnum. rewrite (proj1 Hr). pose proof (first_hole_range l). pose proof (first_hole_full l) as Hf.
    destruct (first_hole l <? zlen l) eqn:Eh; simpl.
    + rewrite bool_decide_false; [done|]. intros [_ ?%Hf]. lia.
    + rewrite bool_decide_true; [done|]. split; [lia|]. apply Hf. lia.
  - wps_step. split; [done|]. rewrite bool_decide_false; [done|]. lia.
Qed.

(** Storing the new process in the table. *)
Definition store_process (pt : array) (i p : Z) : stm (kst H E) (Z * Z) :=
  if i =? array_getnum pt then
    h ← gets k_heap;
    '(result, pt, h) ← lift (array_add pt p h);
    _ ← modify (set_heap h);
    _ ← modify (set_ptable (Some pt));
    mret (if result =? 0 then (0, i) else (result, 0))
  else
    pt ← lift (array_setguy pt i p);
    _ ← modify (set_ptable (Some pt));
    mret (0, i).

Lemma store_process_spec pt l k i p O :
  array_rep pt l → owned (k_heap k) (arr_blocks pt ++ O) → 0 ≤ i ≤ zlen l →
  zlen l < 2 ^ 27 → 8 * (zlen l + 1) < kh_max →
  wps (store_process pt i p) k (λ '(r, j) k', ∃ h' pt', k' = set_ptable (Some pt') (set_heap h' k) ∧
    ((r = ENOMEM ∧ array_rep pt' l ∧ owned h' (arr_blocks pt' ++ O)) ∨
     (r = 0 ∧ j = i ∧ array_rep pt' (put_pid i p l) ∧ owned h' (arr_blocks pt' ++ O))) ∧
    rooms 1 (k_heap k) (r = 0) h').
Proof.
  intros Hr Ho Hi Hm1 Hm2. unfold store_process, put_pid, array_getnum. rewrite (proj1 Hr).
  destruct (i =? zlen l) eqn:Ei.
  - wps_step. rewrite wps_lift.
    eapply wp_mono; [apply (array_add_full pt l); [by eapply owned_array_inv|done|done]|].
    intros [[r pt'] h'] [[[-> Hkept]|(-> & -> & Hi' & Hl')] Hr1]; wps_step; exists h'; eexists; (split; [done|]);
      (split; [|by eapply rooms_mono]).
    + right. split_and!; try done; [apply Hkept|]. by eapply owned_array_kept.
    + left. split_and!; try done. by eapply owned_live_eq.
  - rewrite wps_bind, wps_lift. eapply wp_mono; [apply (array_setguy_spec pt l); [done|lia]|].
    intros pt' (Hr' & Hs & Hv & _). wps_step. exists (k_heap k), pt'. split; [by destruct k|].
    split; [|by apply (rooms_le 0); [apply rooms_refl|lia]]. right. split_and!; try done. by rewrite (arr_blocks_eq pt pt').
Qed.

Lemma allocatePid_spec k l th t O :
  ptab k l → k_threads k !! k_cur k = Some th →
  owned (k_heap k) (oarr (k_ptable k) ++ pt_blocks k l ++ O) →
  PROCESS_SIZE < kh_max → zlen l < 2 ^ 27 → 8 * (zlen l + 1) < kh_max →
  wpf (¬ kh_room 4 (k_heap k)) (allocatePid t) k (pid_post k l th t O).
Proof.
  intros Hpt Hth Ho Hm1 Hm2 Hm3. pose proof Hpt as [(pt & Hk & Hr) Hnp Hns Hpr].
  unfold allocatePid. rewrite wpf_bind. eapply wpf_get_opt; [done|].
  wpf_call alloc_full_spec; [done|]. intros b k' [-> ->]. case_bool_decide as Hfull.
  { wpf_step. left. by destruct Hfull. }
  unfold findProcessId. wpf_call find_hole_spec; [done|]. intros i k' [-> ->].
  pose proof (first_hole_range l) as Hfr. wpf_step. eapply wpf_get_thread; [done|].
  wpf_call process_create_spec; [done|done|done|].
  intros p k1 (Hpo & Hpt1 & [(-> & _)|(Hp & Hpl & e & Hel & Hkp & Hks & Ho1)] & Hr1).
  { simpl. apply wpf_panic. eapply rooms_fail; [by apply (rooms_le 3); [|lia]|]. by intros [? _]. }
  replace (p =? NULL) with false by lia. fold (store_process pt (first_hole l) p).
  rewrite Hk in Ho, Ho1. unfold oarr in Ho, Ho1.
  assert (Hsub : ∀ b, b ∈ pt_blocks k l → b ∈ arr_blocks pt ++ pt_blocks k l ++ O) by set_solver.
  assert (Ho1' : owned (k_heap k1) (arr_blocks pt ++ (proc_blocks k1 p ++ pt_blocks k l) ++ O)).
  { rewrite <- app_assoc. by rewrite (Permutation_app_swap_app (arr_blocks pt)). }
  eapply wpf_of_wps, wps_mono; [by apply (store_process_spec pt l k1 _ p)|].
  intros [r pid] k2 (h2 & pt2 & -> & Hpost & Hroom2). set (k2 := set_ptable _ _).
  assert (Hpo2 : proc_only k k2).
  { destruct Hpo as (h & x & y & z & ->). by exists h2, (Some pt2), y, z. }
  destruct Hpost as [(-> & Hr2 & Ho2)|(-> & -> & Hr2 & Ho2)].
  - destruct (ptab_put k k2 l l p e t (t_pid th) pt2 _ Hpt Ho Hsub) as (Hf & Hpt2 & Hb2); try done; [auto|].
    right; left. split_and!; try done.
    { eapply rooms_fail; [eapply (rooms_bind 3 1); [done|intros _; done]|done]. }
    rewrite Hb2. change (owned h2 (arr_blocks pt2 ++ pt_blocks k l ++ O)).
    eapply owned_app_r with (B := proc_blocks k1 p). rewrite <- (app_assoc (proc_blocks k1 p)) in Ho2.
    by rewrite (Permutation_app_swap_app (proc_blocks k1 p)).
  - destruct (ptab_put k k2 l (put_pid (first_hole l) p l) p e t (t_pid th) pt2 _ Hpt Ho Hsub)
      as (Hf & Hpt2 & Hb2); try done; [intros q; apply elem_of_put_pid|].
    right; right. split_and!; try done; [lia|lia|]. exists p, e. split_and!; try done.
    + simpl. by rewrite Hkp, lookup_insert_eq.
    + rewrite put_pid_perm; [|done|apply first_hole_hole|apply Hpt2]. by rewrite Hb2.
    + eapply (rooms_bind 3 1); [done|]. intros (_ & x & Hx & He). eapply rooms_mono; [done|]. intros _.
      rewrite Hkp, lookup_insert_eq in Hx. by injection Hx as <-.
Qed.
(** ** Freeing a process *)

Lemma wps_splx k n Φ : Φ (k_spl k) (set_spl n k) → wps (k_splx n) k Φ.
Proof. done. Qed.

Lemma sem_destroy_spec k s e x B :
  srep k s → e ≠ NULL → k_sems k !! e = Some x → ¬ Exists (λ t, sleeps_on k e t = true) (s_sleep s) →
  owned (k_heap k) (e :: sem_name x :: B) →
  wps (sem_destroy e) k (λ _ k', ∃ h', k' = set_sems (delete e (k_sems k)) (set_heap h' k) ∧ owned h' B).
Proof.
  intros Hrep He Hx Hns Ho. unfold sem_destroy. wps_step. unfold k_splhigh. apply wps_splx.
  rewrite wps_bind. eapply wps_mono; [apply (thread_hassleepers_spec e (set_spl SPL_HIGH k) s)|].
  { destruct Hrep. by constructor. }
  { done. }
  intros n k1 [-> ->]. rewrite bool_decide_false by done. wps_step. apply wps_splx.
  rewrite wps_bind. unfold get_sem. unfold wps at 1. simpl. rewrite Hx, wp_ok. simpl.
  pose proof Ho as (Hi & _ & Hl).
  wps_call wps_kfree; [done|apply Hl; set_solver|]. intros [] k2 (h2 & -> & Hi2 & Hl2). simpl in *.
  assert (Ho2 : owned h2 (e :: B)) by (rewrite Permutation_swap in Ho; by eapply owned_del).
  wps_call wps_kfree; [done|apply Ho2; set_solver|]. intros [] k3 (h3 & -> & Hi3 & Hl3). wps_step. simpl in *.
  exists h3. split; [by destruct k|]. by eapply owned_del.
Qed.

Lemma insert_null_perm k l (i : nat) p :
  l !! i = Some p → k_procs k !! NULL = None →
  proc_blocks k p ++ pt_blocks k (<[i := NULL]> l) ≡ₚ pt_blocks k l.
Proof.
  intros Hl Hn. pose proof (take_drop_middle _ _ _ Hl) as Hd. apply lookup_lt_Some in Hl.
  rewrite insert_take_drop by done.
  transitivity (pt_blocks k (take i l ++ p :: drop (S i) l)); [|by rewrite Hd].
  rewrite !pt_blocks_app, !pt_blocks_cons.
  assert (proc_blocks k NULL = []) as -> by (unfold proc_blocks; by rewrite Hn). simpl.
  by rewrite (Permutation_app_swap_app (proc_blocks k p)).
Qed.

(** The blocks of one entry, taken out of the blocks of the table. *)
Lemma owned_entry k pt l (i : nat) p x sm O :
  l !! i = Some p → k_procs k !! NULL = None → k_procs k !! p = Some x → k_sems k !! exit_lock x = Some sm →
  owned (k_heap k) (arr_blocks pt ++ pt_blocks k l ++ O) →
  owned (k_heap k) (exit_lock x :: sem_name sm :: p :: arr_blocks pt ++ pt_blocks k (<[i := NULL]> l) ++ O).
Proof.
  intros Hl Hnp Hx Hsm Ho.
  assert (Hb : proc_blocks k p = [p; exit_lock x; sem_name sm]) by (unfold proc_blocks; by rewrite Hx, Hsm).
  rewrite <- (insert_null_perm k l i p Hl Hnp), Hb in Ho.
  rewrite <- (app_assoc [p; exit_lock x; sem_name sm]) in Ho.
  rewrite (Permutation_app_swap_app (arr_blocks pt)) in Ho.
  change (owned (k_heap k) (p :: exit_lock x :: sem_name sm :: arr_blocks pt ++ pt_blocks k (<[i := NULL]> l) ++ O))
    in Ho.
  by rewrite (Permutation_swap (exit_lock x) p), (Permutation_swap (sem_name sm) p) in Ho.
Qed.

(** The entries that stay have other blocks. *)
Lemma owned_entry_other k h X l p x sm O q y :
  k_sems k !! exit_lock x = Some sm →
  owned h (exit_lock x :: sem_name sm :: p :: X ++ pt_blocks k l ++ O) →
  q ∈ l → k_procs k !! q = Some y → q ≠ p ∧ exit_lock y ≠ exit_lock x.
Proof.
  intros Hsm (_ & Hnd & _) Hq Hy.
  assert (Hin : ∀ b, b ∈ proc_blocks k q → b ∈ pt_blocks k l)
    by (intros b Hb'; apply elem_of_pt_blocks; by exists q).
  unfold proc_blocks in Hin. rewrite Hy in Hin.
  apply NoDup_cons in Hnd as [Hn1 Hnd]. apply NoDup_cons in Hnd as [_ Hnd].
  apply NoDup_cons in Hnd as [Hn3 _]. split.
  - intros ->. apply Hn3. apply elem_of_app. right. apply elem_of_app. left. apply Hin. constructor.
  - intros Heq. rewrite Heq, Hsm in Hin. apply Hn1. apply elem_of_cons. right. apply elem_of_cons. right.
    apply elem_of_app. right. apply elem_of_app. left. apply Hin. by constructor; constructor.
Qed.

(** The table after the entry and its semaphore are gone. *)
Lemma ptab_del k k' pt' l (i : nat) p x :
  ptab k l → array_rep pt' (<[i := NULL]> l) → k_ptable k' = Some pt' →
  k_procs k' = delete p (k_procs k) → k_sems k' = delete (exit_lock x) (k_sems k) →
  (∀ q y, q ∈ <[i := NULL]> l → k_procs k !! q = Some y → q ≠ p ∧ exit_lock y ≠ exit_lock x) →
  ptab k' (<[i := NULL]> l) ∧ pt_blocks k' (<[i := NULL]> l) = pt_blocks k (<[i := NULL]> l).
Proof.
  intros [_ Hnp Hnsm Hpr] Hr' Hpt' Hprocs Hsems Hinj. split.
  - constructor; rewrite ?Hprocs, ?Hsems.
    + by exists pt'.
    + rewrite lookup_delete_None. by right.
    + rewrite lookup_delete_None. by right.
    + intros q Hq Hqn. assert (Hql : q ∈ l).
      { apply list_elem_of_lookup in Hq as [j Hj].
        apply list_lookup_insert_Some in Hj as [(_ & ? & _)|[_ Hj]]; [done|].
        by eapply list_elem_of_lookup_2. }
      destruct (Hpr q Hql Hqn) as (y & Hy & Hlk). destruct (Hinj q y Hq Hy) as [Hqp Hey].
      exists y. by rewrite !lookup_delete_ne by done.
  - apply pt_blocks_ext. intros q Hq. unfold proc_blocks. rewrite Hprocs, Hsems.
    destruct (k_procs k !! q) as [y|] eqn:Ey.
    + destruct (Hinj q y Hq Ey) as [Hqp Hey]. rewrite lookup_delete_ne, Ey by done.
      by rewrite lookup_delete_ne by done.
    + destruct (decide (q = p)) as [->|]; [by rewrite lookup_delete_eq|]. by rewrite lookup_delete_ne, Ey by done.
Qed.

Lemma freePid_spec k s l pid p x sm O :
  srep k s → ptab k l → 0 < pid ≤ PID_MAX → l !! Z.to_nat pid = Some p → p ≠ NULL →
  k_procs k !! p = Some x → k_sems k !! exit_lock x = Some sm →
  ¬ Exists (λ t, sleeps_on k (exit_lock x) t = true) (s_sleep s) →
  owned (k_heap k) (oarr (k_ptable k) ++ pt_blocks k l ++ O) →
  wps (freePid pid) k (λ r k', r = 0 ∧ proc_only k k' ∧ ptab k' (<[Z.to_nat pid := NULL]> l) ∧
    k_procs k' = delete p (k_procs k) ∧ k_sems k' = delete (exit_lock x) (k_sems k) ∧
    owned (k_heap k') (oarr (k_ptable k') ++ pt_blocks k' (<[Z.to_nat pid := NULL]> l) ++ O)).
Proof.
  intros Hrep Hpt Hpid Hl Hp Hx Hsm Hns Ho. pose proof Hpt as [(pt & Hk & Hr) Hnp Hnsm Hpr].
  pose proof (lookup_lt_Some _ _ _ Hl) as Hlt.
  assert (He : exit_lock x ≠ NULL) by (intros He; rewrite He in Hsm; congruence).
  unfold freePid. rewrite wps_bind. eapply wps_get_opt; [done|].
  unfold array_getnum. rewrite (proj1 Hr).
  replace ((pid >? PID_MAX) || (pid <=? 0) || (pid - 1 >? zlen l)) with false by lia.
  rewrite wps_bind, wps_lift. eapply wp_of_eq; [by apply (array_getguy_spec _ _ _ p Hr); [lia|]|].
  replace (p =? NULL) with false by lia.
  rewrite wps_bind, wps_lift. eapply wp_mono; [apply (array_setguy_spec pt l); [done|lia]|].
  intros pt' (Hr' & Hs' & Hv' & _). wps_step. unfold process_exit, get_proc.
  rewrite wps_bind. unfold wps at 1. simpl. rewrite Hx, wp_ok. simpl.
  rewrite Hk in Ho. unfold oarr in Ho. rewrite <- (arr_blocks_eq pt pt') in Ho by done.
  pose proof (owned_entry k pt' l (Z.to_nat pid) p x sm O Hl Hnp Hx Hsm Ho) as Ho1.
  wps_call (sem_destroy_spec (set_ptable (Some pt') k) s); [by destruct Hrep; constructor|done..|].
  intros [] k2 (h2 & -> & Ho2). ksimpl. pose proof Ho2 as (Hi2 & Hnd2 & Hl2).
  wps_call wps_kfree; [done|apply Hl2; by constructor|]. intros [] k3 (h3 & -> & Hi3 & Hl3). wps_step. ksimpl.
  pose proof (owned_del _ _ _ _ Ho2 Hi3 Hl3) as Ho3.
  match goal with |- _ ∧ proc_only _ ?q ∧ _ =>
    destruct (ptab_del k q pt' l (Z.to_nat pid) p x Hpt Hr') as [Hpt4 Hbl];
      [done..|intros q' y; by eapply owned_entry_other|] end.
  split_and!; try done; [|by rewrite Hbl].
  exists h3, (Some pt'), (delete p (k_procs k)), (delete (exit_lock x) (k_sems k)). by destruct k.
Qed.
End proc.
