(* ===== verification/Fork.v ===== *)
(** * Creating threads and processes (kern/thread/thread.c, kern/userprog/sys_fork.c) *)

From S2P Require Import Prelude StateM Heap KArray KQueue Coremap KState Thread Synch Process.

Definition VNODE_SIZE : Z := 24.
Definition TRAPFRAME_SIZE : Z := 148.

Section fork.
Context {H E : Type} `{KHeap H} `{!ThreadEnv H E}.
Abbreviation K := (stm (kst H E)).

(** An array operation on one of the global arrays. *)
Definition prealloc_sleepers (n : Z) : K Z :=
  sl ← get_opt k_sleepers;
  h ← gets k_heap;
  '(r, sl, h) ← lift (array_preallocate sl n h);
  _ ← modify (set_heap h);
  _ ← modify (set_sleepers (Some sl));
  mret r.

Definition prealloc_zombies (n : Z) : K Z :=
  zs ← get_opt k_zombies;
  h ← gets k_heap;
  '(r, zs, h) ← lift (array_preallocate zs n h);
  _ ← modify (set_heap h);
  _ ← modify (set_zombies (Some zs));
  mret r.

(** The part with interrupts off, shared by [thread_fork] and [process_fork]: room for
    one thread more on every list, the run queue, the count. *)
Definition enter_thread (newguy : Z) : K Z :=
  n ← gets k_num;
  result ← prealloc_sleepers (n + 1);
  if negb (result =? 0) then mret result
  else
    result ← prealloc_zombies (n + 1);
    if negb (result =? 0) then mret result
    else
      result ← scheduler_preallocate (n + 1);
      if negb (result =? 0) then mret result
      else
        result ← make_runnable newguy;
        if negb (result =? 0) then mret result
        else
          _ ← modify (set_num (n + 1));
          mret 0.

(** The thread structure goes away with its block. *)
Definition drop_thread (t : Z) : K unit :=
  _ ← kfree_ t;
  modify (λ k, set_threads (delete t (k_threads k)) k).

(** Answers the result and the new thread ([*ret], when the caller wants it). *)
Definition thread_fork (namelen data1 data2 func : Z) : K (Z * Z) :=
  newguy ← thread_create namelen;
  if newguy =? NULL then mret (ENOMEM, NULL)
  else
    stack ← kalloc STACK_SIZE;
    if stack =? NULL then
      th ← get_thread newguy;
      _ ← kfree_ (t_name th);
      _ ← drop_thread newguy;
      mret (ENOMEM, NULL)
    else
      _ ← upd_thread newguy (th_set_stack stack STACK_MAGIC);
      cur ← gets k_cur;
      me ← get_thread cur;
      _ ← (if negb (t_cwd me =? NULL) then
             _ ← VOP_INCREF (t_cwd me);
             upd_thread newguy (th_set_cwd (t_cwd me))
           else mret tt);
      _ ← upd_thread newguy (th_set_pcb (md_initpcb stack data1 data2 func));
      '(result, child_processID) ← allocatePid newguy;
      if negb (result =? 0) then mret (result, NULL)
      else
        _ ← upd_thread newguy (th_set_pid child_processID);
        pd ← page_table_initializer;
        _ ← upd_thread newguy (th_set_pagedir pd);
        s ← k_splhigh;
        result ← enter_thread newguy;
        _ ← k_splx s;
        if result =? 0 then mret (0, newguy)
        else
          th ← get_thread newguy;
          _ ← (if negb (t_cwd th =? NULL) then VOP_DECREF (t_cwd th) else mret tt);
          _ ← kfree_ (t_stack th);
          _ ← kfree_ (t_name th);
          _ ← drop_thread newguy;
          mret (result, NULL).

(** [process_fork]: [data1] is the trap frame of the parent.  Answers the result, the
    child's id and the new thread.  The two [goto fail] after the [memcpy]s are never
    taken ([memcpy] answers its destination). *)
Definition process_fork (namelen data1 func : Z) : K (Z * Z * Z) :=
  newguy ← thread_create namelen;
  if newguy =? NULL then mret (ENOMEM, 0, NULL)
  else
    stack ← kalloc STACK_SIZE;
    th ← get_thread newguy;
    if stack =? NULL then
      _ ← kfree_ (t_name th);
      _ ← drop_thread newguy;
      mret (ENOMEM, 0, NULL)
    else
      _ ← upd_thread newguy (th_set_stack stack STACK_MAGIC);
      cur ← gets k_cur;
      me ← get_thread cur;
      cwd ← (if negb (t_cwd me =? NULL) then
               _ ← VOP_INCREF (t_cwd me);
               v ← kalloc VNODE_SIZE;
               _ ← (if v =? NULL then mret tt else copy_vnode v (t_cwd me));
               mret (Some v)
             else mret None);
      if bool_decide (cwd = Some NULL) then
        _ ← kfree_ (t_name th);
        _ ← kfree_ stack;
        _ ← drop_thread newguy;
        mret (ENOMEM, 0, NULL)
      else
        let newcwd := default NULL cwd in
        _ ← upd_thread newguy (th_set_cwd newcwd);
        pd ← page_table_initializer;
        _ ← upd_thread newguy (th_set_pagedir pd);
        '(r, vmspace) ← (if negb (t_vmspace me =? NULL)
                         then as_copy (t_vmspace me) (t_pagedir me) pd
                         else mret (0, NULL));
        if negb (r =? 0) then
          _ ← kfree_ (t_name th);
          _ ← kfree_ stack;
          _ ← kfree_ newcwd;
          _ ← drop_thread newguy;
          mret (ENOMEM, 0, NULL)
        else
          _ ← upd_thread newguy (th_set_vmspace vmspace);
          _ ← (if negb (t_sleepaddr me =? NULL)
               then upd_thread newguy (th_set_sleepaddr (t_sleepaddr me)) else mret tt);
          tf ← kalloc TRAPFRAME_SIZE;
          if tf =? NULL then
            _ ← kfree_ (t_name th);
            _ ← kfree_ stack;
            _ ← kfree_ newcwd;
            _ ← kfree_ vmspace;
            _ ← drop_thread newguy;
            mret (ENOMEM, 0, NULL)
          else
            _ ← copy_trapframe tf data1;
            _ ← upd_thread newguy (th_set_pcb (md_initpcb stack tf vmspace func));
            '(result, child_processID) ← allocatePid newguy;
            if negb (result =? 0) then mret (result, 0, NULL)
            else
              _ ← upd_thread newguy (th_set_pid child_processID);
              s ← k_splhigh;
              result ← enter_thread newguy;
              _ ← k_splx s;
              if result =? 0 then mret (0, child_processID, newguy)
              else
                _ ← (if negb (newcwd =? NULL) then VOP_DECREF newcwd else mret tt);
                _ ← kfree_ stack;
                _ ← kfree_ (t_name th);
                _ ← kfree_ vmspace;
                _ ← kfree_ newcwd;
                _ ← drop_thread newguy;
                _ ← kfree_ tf;
                mret (result, child_processID, NULL).

(** The fork system call: the child's id goes to register v0 of the parent's frame. *)
Definition sys_fork (tf md_forkentry : Z) : K (Z * Z) :=
  '(result, child_processID, _) ← process_fork 12 tf md_forkentry;
  mret (if negb (result =? 0) then (result, 0) else (0, child_processID)).
End fork.
