(* ===== verification/ForkSpec.v ===== *)
(** * [thread_fork]

    A fork either fails with the scheduler's lists as they were, or adds one ready
    thread, with room reserved for it on every list. *)

From S2P Require Import Prelude StateM Heap KArray KQueue Coremap KState Thread ThreadSpec ThreadHeap Synch Process Owned ProcSpec Fork.

#[local] Set Default Proof Using "All".

Section fork.
Context {H E : Type} `{KHeapLaws H} `{!ThreadEnv H E} `{!ThreadEnvLaws H E}.
Implicit Types (k : kst H E) (s : sched).

(** The heap can serve the requests of growing lists of this size. *)
Definition fits (n m : Z) : Prop := 8 * n < kh_max ∧ 4 * m < kh_max.

(** ** The part with interrupts off *)

(** What [enter_thread] may change. *)
Definition entered k k' h sl zs q n : Prop :=
  k' = set_num n (set_runq (Some q) (set_zombies (Some zs) (set_sleepers (Some sl) (set_heap h k)))).

Lemma prealloc_sleepers_spec k sl l n O :
  k_sleepers k = Some sl → array_rep sl l → owned (k_heap k) (arr_blocks sl ++ O) →
  n ≤ 2 ^ 28 → fits n (a_max sl) →
  wps (prealloc_sleepers n) k (λ r k', ∃ h sl', k' = set_sleepers (Some sl') (set_heap h k) ∧
    array_rep sl' l ∧ owned h (arr_blocks sl' ++ O) ∧ (r = 0 ∧ n ≤ a_max sl' ∨ r = ENOMEM) ∧
    rooms 1 (k_heap k) (r = 0) h).
Proof.
  intros Hk Hr Ho Hn [Hf1 Hf2]. unfold prealloc_sleepers. wps_step. eapply wps_get_opt; [done|].
  wps_step. rewrite wps_lift.
  eapply wp_mono; [apply (array_preallocate_full sl l); [by eapply owned_array_inv|done|done|done]|].
  intros [[r sl'] h'] [[(-> & Hkept & Hge & _)|(-> & -> & Hi & Hl)] Hroom]; wps_step.
  - exists h', sl'. split_and!; [done|apply Hkept|by eapply owned_array_kept|by left|done].
  - exists h', sl. split_and!; [done|done|by eapply owned_live_eq|by right|done].
Qed.

Lemma prealloc_zombies_spec k zs l n O :
  k_zombies k = Some zs → array_rep zs l → owned (k_heap k) (arr_blocks zs ++ O) →
  n ≤ 2 ^ 28 → fits n (a_max zs) →
  wps (prealloc_zombies n) k (λ r k', ∃ h zs', k' = set_zombies (Some zs') (set_heap h k) ∧
    array_rep zs' l ∧ owned h (arr_blocks zs' ++ O) ∧ (r = 0 ∧ n ≤ a_max zs' ∨ r = ENOMEM) ∧
    rooms 1 (k_heap k) (r = 0) h).
Proof.
  intros Hk Hr Ho Hn [Hf1 Hf2]. unfold prealloc_zombies. wps_step. eapply wps_get_opt; [done|].
  wps_step. rewrite wps_lift.
  eapply wp_mono; [apply (array_preallocate_full zs l); [by eapply owned_array_inv|done|done|done]|].
  intros [[r zs'] h'] [[(-> & Hkept & Hge & _)|(-> & -> & Hi & Hl)] Hroom]; wps_step.
  - exists h', zs'. split_and!; [done|apply Hkept|by eapply owned_array_kept|by left|done].
  - exists h', zs. split_and!; [done|done|by eapply owned_live_eq|by right|done].
Qed.

Lemma scheduler_preallocate_spec k q l n O :
  0 < k_spl k → k_runq k = Some q → queue_rep q l → owned (k_heap k) (q_blocks q ++ O) →
  n ≤ 2 ^ 28 → q_size q < 2 ^ 28 → fits n (q_size q) →
  wps (scheduler_preallocate n) k (λ r k', ∃ h q', k' = set_runq (Some q') (set_heap h k) ∧
    queue_rep q' l ∧ owned h (q_blocks q' ++ O) ∧ (r = 0 ∧ n ≤ q_size q' ∨ r = ENOMEM) ∧
    rooms 1 (k_heap k) (r = 0) h).
Proof.
  intros Hspl Hk Hr Ho Hn Hq [Hf1 Hf2]. unfold scheduler_preallocate. wps_step. eapply wps_get_opt; [done|].
  wps_step. rewrite wps_lift.
  eapply wp_mono; [apply (q_preallocate_full q l); [by eapply owned_queue_inv|done|done|done|done]|].
  intros [[r q'] h'] [[(-> & Hkept & Hge & _)|(-> & -> & Hi & Hl)] Hroom]; wps_step.
  - exists h', q'. split_and!; [done|apply Hkept|by eapply owned_queue_kept|by left|done].
  - exists h', q. split_and!; [done|done|by eapply owned_live_eq|by right|done].
Qed.
Lemma owned_rotate (h : H) A B C O :
  owned h (A ++ B ++ C ++ O) ↔ owned h (B ++ C ++ A ++ O).
Proof. by rewrite (Permutation_app_swap_app A B), (Permutation_app_swap_app A C). Qed.

Lemma enter_thread_spec k t sl zs q S Zs R O :
  0 < k_spl k → k_sleepers k = Some sl → array_rep sl S → k_zombies k = Some zs → array_rep zs Zs →
  k_runq k = Some q → queue_rep q R → zlen R < k_num k →
  owned (k_heap k) (arr_blocks sl ++ arr_blocks zs ++ q_blocks q ++ O) →
  k_num k + 1 ≤ 2 ^ 28 → q_size q < 2 ^ 28 →
  fits (k_num k + 1) (a_max sl) → fits (k_num k + 1) (a_max zs) → fits (k_num k + 1) (q_size q) →
  wps (enter_thread t) k (λ r k', ∃ h sl' zs' q' n, entered k k' h sl' zs' q' n ∧
    array_rep sl' S ∧ array_rep zs' Zs ∧
    owned h (arr_blocks sl' ++ arr_blocks zs' ++ q_blocks q' ++ O) ∧
    (r = 0 ∧ n = k_num k + 1 ∧ queue_rep q' (R ++ [t]) ∧
       n ≤ a_max sl' ∧ n ≤ a_max zs' ∧ n ≤ q_size q' ∨
     r = ENOMEM ∧ n = k_num k ∧ queue_rep q' R) ∧
    rooms 3 (k_heap k) (r = 0) h).
Proof.
  intros Hspl Hsl HS Hzs HZ Hq HR Hlen Ho Hn Hqs F1 F2 F3. unfold enter_thread. wps_step.
  wps_call (prealloc_sleepers_spec k sl S); [done..|].
  intros r k1 (h1 & sl1 & -> & HS1 & Ho1 & Hres1 & Hr1). destruct Hres1 as [[-> Hc1]| ->]; simpl.
  2: { wps_step. exists h1, sl1, zs, q, (k_num k). split; [by destruct k; simplify_eq/=|].
    split_and!; try done; [|apply (rooms_le 1); [done|lia]]. right. by split_and!. }
  rewrite owned_rotate in Ho1.
  wps_call (prealloc_zombies_spec _ zs Zs); [done..|].
  intros r k2 (h2 & zs2 & -> & HZ2 & Ho2 & Hres2 & Hr2). pose proof (rooms_bind 1 1 _ _ _ _ _ Hr1 (λ _, Hr2)) as Hr12.
  destruct Hres2 as [[-> Hc2]| ->]; simpl.
  2: { wps_step. exists h2, sl1, zs2, q, (k_num k). split; [by destruct k; simplify_eq/=|].
    split_and!; try done; [by rewrite owned_rotate| |by apply (rooms_le 2); [|lia]]. right. by split_and!. }
  rewrite owned_rotate in Ho2.
  wps_call (scheduler_preallocate_spec _ q R); [done..|].
  intros r k3 (h3 & q3 & -> & HR3 & Ho3 & Hres3 & Hr3). rewrite owned_rotate in Ho3.
  pose proof (rooms_bind 2 1 _ _ _ _ _ Hr12 (λ _, Hr3)) as Hr123.
  destruct Hres3 as [[-> Hc3]| ->]; simpl.
  2: { wps_step. exists h3, sl1, zs2, q3, (k_num k). split; [by destruct k; simplify_eq/=|].
    split_and!; try done. right. by split_and!. }
  wps_call (make_runnable_room _ q3 R); [done..|lia|].
  intros r k4 (-> & q4 & -> & HR4 & Hcap). simpl. wps_step.
  exists h3, sl1, zs2, q4, (k_num k + 1). split; [by destruct k; simplify_eq/=|].
  injection Hcap as Hs4 Hd4 Hz4. split_and!; try done.
  - by rewrite (q_blocks_eq q3 q4).
  - left. split_and!; try done. by rewrite Hz4.
Qed.
(** ** A fork in progress

    The new thread [t] exists but is on no list. *)

Definition sched_blocks k s : list Z :=
  thr_blocks k (all_threads s) ++ oarr (k_sleepers k) ++ oarr (k_zombies k) ++ oq (k_runq k).
Definition table_blocks k (l : list Z) : list Z := oarr (k_ptable k) ++ pt_blocks k l.

Record forking k kA t th s l O : Prop := Forking {
  fk_thr : k_threads kA = <[t := th]> (k_threads k);
  fk_new : k_threads k !! t = None;
  fk_nn : t ≠ NULL;
  fk_cur : k_cur kA = k_cur k;
  fk_sl : k_sleepers kA = k_sleepers k;
  fk_zs : k_zombies kA = k_zombies k;
  fk_q : k_runq kA = k_runq k;
  fk_num : k_num kA = k_num k;
  fk_spl : k_spl kA = k_spl k;
  fk_tlb : k_tlb kA = k_tlb k;
  fk_tab : ptab kA l;
  fk_own : owned (k_heap kA) (thread_blocks t th ++ sched_blocks k s ++ table_blocks kA l ++ O);
}.

Lemma forking_upd k kA t th s l O f :
  forking k kA t th s l O → thread_blocks t (f th) = thread_blocks t th →
  wps (upd_thread t f) kA (λ _ k', forking k k' t (f th) s l O).
Proof.
  intros [Ht Hn Hnn Hc Hs Hz Hq Hnum Hspl Htlb Htab Hown] Hb. unfold upd_thread. wps_step.
  eapply wps_get_thread; [by rewrite Ht, lookup_insert_eq|]. unfold put_thread. wps_step.
  constructor; ksimpl; try done.
  - by rewrite Ht, insert_insert_eq.
  - destruct Htab. by constructor.
  - by rewrite Hb.
Qed.

Lemma forking_upd_procs k kA t th s l O f :
  forking k kA t th s l O → thread_blocks t (f th) = thread_blocks t th →
  wps (upd_thread t f) kA (λ _ k', forking k k' t (f th) s l O ∧ k_procs k' = k_procs kA ∧
    k_heap k' = k_heap kA ∧ k_env k' = k_env kA).
Proof.
  intros Hf Hb. pose proof (forking_upd _ _ _ _ _ _ _ f Hf Hb) as Hw.
  apply wps_exists in Hw as ([] & k' & Hk & Hf'). apply wps_exists. exists tt, k'. split; [done|]. split; [done|].
  unfold upd_thread, mbind, stm_bind, get_thread, put_thread, modify in Hk.
  rewrite (fk_thr _ _ _ _ _ _ _ Hf), lookup_insert_eq in Hk. by simplify_eq.
Qed.

(** The new thread shares the current directory of the old one. *)
Lemma forking_cwd k kA t th s l O v :
  forking k kA t th s l O → vn_held 1 (k_env kA) v →
  wps (_ ← VOP_INCREF v; upd_thread t (th_set_cwd v)) kA (λ _ k', forking k k' t (th_set_cwd v th) s l O ∧
    k_heap k' = k_heap kA ∧ vn_held 2 (k_env k') v).
Proof.
  intros Hf Hv. wps_call incref_law; [done|]. intros [] k1 (e' & -> & Hv' & _).
  assert (forking k (set_env e' kA) t th s l O) as Hf1.
  { destruct Hf as [Ht Hn Hnn Hc Hs Hz Hq Hnum Hspl Htlb Htab Hown]. constructor; ksimpl; try done.
    destruct Htab. by constructor. }
  eapply wps_mono; [by eapply (forking_upd_procs k)|]. intros [] k2 (Hf2 & _ & Hh & ->). done.
Qed.

Lemma inherit_cwd k kA t th s l O v :
  forking k kA t th s l O → t_cwd th = NULL → (v ≠ NULL → vn_held 1 (k_env kA) v) →
  wps (if negb (v =? NULL) then _ ← VOP_INCREF v; upd_thread t (th_set_cwd v) else mret tt) kA
    (λ _ k', forking k k' t (if v =? NULL then th else th_set_cwd v th) s l O ∧ k_heap k' = k_heap kA ∧
       (v ≠ NULL → vn_held 2 (k_env k') v)).
Proof.
  intros Hf Hc Hv. destruct (v =? NULL) eqn:Ev; simpl.
  - wps_step. split_and!; [done|done|lia].
  - eapply wps_mono; [by apply (forking_cwd k kA); [|apply Hv; lia]|]. intros [] k' (? & ? & ?). done.
Qed.

Lemma forking_env k kA t th s l O h e :
  forking k kA t th s l O → kh_inv h → kh_live (k_heap kA) ⊆ kh_live h →
  forking k (set_env e (set_heap h kA)) t th s l O.
Proof.
  intros [Ht Hn Hnn Hc Hs Hz Hq Hnum Hspl Htlb Htab Hown] Hi Hl. constructor; ksimpl; try done.
  - destruct Htab. by constructor.
  - by eapply owned_grow.
Qed.

(** Giving up: the scheduler's lists are as they were. *)
Definition fork_failed k s O k' : Prop := ∃ t l,
  srep (set_threads (delete t (k_threads k')) k') s ∧ k_num k' = k_num k ∧ k_spl k' = k_spl k ∧
  ptab k' l ∧ (∀ u, u ∈ all_threads s → k_threads k' !! u = k_threads k !! u) ∧
  owned (k_heap k') (sched_blocks k' s ++ table_blocks k' l ++ O).

Lemma in_threads k s u : srep k s → u ∈ all_threads s ↔ is_Some (k_threads k !! u).
Proof. intros Hrep. apply (sr_thr _ _ Hrep). Qed.

Lemma thr_blocks_same k k' l :
  (∀ u, u ∈ l → k_threads k' !! u = k_threads k !! u) → thr_blocks k' l = thr_blocks k l.
Proof. intros Hu. apply thr_blocks_ext. intros u Hin. unfold blocks_of. by rewrite Hu. Qed.
Lemma forking_srep k kA t th s l O :
  srep k s → forking k kA t th s l O → srep (set_threads (delete t (k_threads kA)) kA) s.
Proof.
  intros [Hcur Hq Hsl Hz Hnd Hnn Hthr Hm Htl] [Ht Hn _ Ec Es Ez Eq _ _ Et _ _].
  assert (Hd : delete t (k_threads kA) = k_threads k) by (by rewrite Ht, delete_insert_id).
  constructor; ksimpl; rewrite ?Hd, ?Ec, ?Es, ?Ez, ?Eq, ?Et; done.
Qed.

Lemma forking_others k kA t th s l O :
  srep k s → forking k kA t th s l O → ∀ u, u ∈ all_threads s → k_threads kA !! u = k_threads k !! u.
Proof.
  intros Hrep [Ht Hn _ _ _ _ _ _ _ _ _ _] u Hu. rewrite Ht, lookup_insert_ne; [done|].
  intros ->. apply (in_threads _ _ _ Hrep) in Hu as [? ?]. congruence.
Qed.

Lemma sched_blocks_same k kA s :
  (∀ u, u ∈ all_threads s → k_threads kA !! u = k_threads k !! u) →
  k_sleepers kA = k_sleepers k → k_zombies kA = k_zombies k → k_runq kA = k_runq k →
  sched_blocks kA s = sched_blocks k s.
Proof. intros Hu Es Ez Eq. unfold sched_blocks. by rewrite (thr_blocks_same k kA), Es, Ez, Eq. Qed.

(** The new thread is left behind. *)
Lemma forking_leak k kA t th s l O :
  srep k s → forking k kA t th s l O → fork_failed k s O kA.
Proof.
  intros Hrep Hf. pose proof (forking_others _ _ _ _ _ _ _ Hrep Hf) as Hoth.
  pose proof (forking_srep _ _ _ _ _ _ _ Hrep Hf) as Hrep'.
  destruct Hf as [Ht Hn Hnn Hc Hs Hz Hq Hnum Hspl Htlb Htab Hown]. exists t, l. split_and!; try done.
  rewrite (sched_blocks_same k kA) by done. by eapply owned_app_r.
Qed.

(** The new thread is given back: its name and structure, then with its stack. *)
Lemma forking_drop2 k kA t th s l O h :
  srep k s → forking k kA t th s l O →
  owned h (t_name th :: t :: sched_blocks k s ++ table_blocks kA l ++ O) →
  wps (_ ← kfree_ (t_name th); drop_thread t) (set_heap h kA) (λ _ k', fork_failed k s O k').
Proof.
  intros Hrep Hf Ho1. pose proof (forking_srep _ _ _ _ _ _ _ Hrep Hf) as Hrep'.
  destruct Hf as [Ht Hn Hnn Hc Hs Hz Hq Hnum Hspl Htlb Htab Hown].
  wps_call wps_kfree; [apply Ho1|apply Ho1; by constructor|]. ksimpl. intros [] k2 (h2 & -> & Hi2 & Hl2).
  pose proof (owned_del _ _ _ _ Ho1 Hi2 Hl2) as Ho2. unfold drop_thread.
  wps_call wps_kfree; [done|apply Ho2; by constructor|]. ksimpl. intros [] k3 (h3 & -> & Hi3 & Hl3).
  pose proof (owned_del _ _ _ _ Ho2 Hi3 Hl3) as Ho3. wps_step. ksimpl.
  assert (Hdel : delete t (k_threads kA) = k_threads k) by (by rewrite Ht, delete_insert_id).
  exists t, l. ksimpl. rewrite Hdel. split_and!; try done.
  - destruct Hrep' as [R1 R2 R3 R4 R5 R6 R7 R8 R9]. ksimpl. rewrite Hdel in R7, R8.
    constructor; ksimpl; rewrite ?(delete_id (k_threads k) t) by done; done.
  - destruct Htab. by constructor.
  - rewrite (sched_blocks_same k) by done. done.
Qed.

Lemma forking_drop k kA t th s l O :
  srep k s → forking k kA t th s l O → t_stack th ≠ NULL →
  wps (_ ← kfree_ (t_stack th); _ ← kfree_ (t_name th); drop_thread t) kA
    (λ _ k', fork_failed k s O k').
Proof.
  intros Hrep Hf Hst. pose proof (fk_own _ _ _ _ _ _ _ Hf) as Hown.
  unfold thread_blocks in Hown. replace (t_stack th =? NULL) with false in Hown by lia.
  set (B := sched_blocks k s ++ table_blocks kA l ++ O) in *.
  change (owned (k_heap kA) (t :: t_name th :: t_stack th :: B)) in Hown.
  rewrite (Permutation_swap (t_name th) t), (Permutation_swap (t_stack th) t),
    (Permutation_swap (t_stack th) (t_name th)) in Hown.
  wps_call wps_kfree; [apply Hown|apply Hown; by constructor|]. intros [] k1 (h1 & -> & Hi1 & Hl1).
  apply (forking_drop2 k kA t th s l O h1 Hrep Hf). by eapply owned_del.
Qed.

(** The refusal when every process id is taken. *)
Definition no_ids (r : Z) (l : list Z) : Prop := r = EAGAIN ∧ PID_MAX < zlen l ∧ NULL ∉ l.

Lemma forking_pid k kA t th s l O me :
  srep k s → forking k kA t th s l O → k_threads k !! k_cur k = Some me →
  PROCESS_SIZE < kh_max → zlen l < 2 ^ 27 → 8 * (zlen l + 1) < kh_max →
  wpf (¬ kh_room 4 (k_heap kA)) (allocatePid t) kA (λ a k', k_env k' = k_env kA ∧
    ((a.1 ≠ 0 ∧ forking k k' t th s l O ∧ (no_ids a.1 l ∨ ¬ kh_room 4 (k_heap kA))) ∨
     (a.1 = 0 ∧ a.2 = first_hole l ∧ ∃ p e, p ∉ l ∧
        k_procs k' !! p = Some (Process (t_pid me) 0 (-1) e t) ∧
        forking k k' t th s (put_pid a.2 p l) O ∧ rooms 4 (k_heap kA) (e ≠ NULL) (k_heap k')))).
Proof.
  intros Hrep Hf Hme Hm1 Hm2 Hm3. destruct Hf as [Ht Hn Hnn Hc Hs Hz Hq Hnum Hspl Htlb Htab Hown].
  set (R := thread_blocks t th ++ sched_blocks k s ++ O).
  assert (Hperm : ∀ X : list Z, thread_blocks t th ++ sched_blocks k s ++ X ++ O ≡ₚ X ++ R).
  { intros X. unfold R. rewrite (Permutation_app_swap_app (sched_blocks k s) X).
    by rewrite (Permutation_app_swap_app (thread_blocks t th) X). }
  assert (Hcur : k_cur k ≠ t) by congruence.
  eapply wpf_mono; [apply (allocatePid_spec kA l me t R)|]; try done.
  - by rewrite Ht, Hc, lookup_insert_ne.
  - rewrite Hperm in Hown. unfold table_blocks in Hown. by rewrite <- app_assoc in Hown.
  - intros [r pid] k'; simpl. intros [(-> & -> & Hids)|[(-> & Hnr & (h & pt & procs & sems & ->) & Htab' & Ho')
      |(-> & -> & _ & (h & pt & procs & sems & ->) & p & e & Hp & Hpn & Htab' & Hpr & Ho' & Hr)]]; (split; [done|]).
    + left. split_and!; [done| |by left]. by constructor.
    + left. split_and!; [done| |by right]. constructor; ksimpl; try done. rewrite Hperm. unfold table_blocks.
      by rewrite <- app_assoc.
    + right. split_and!; try done. exists p, e. split_and!; try done. constructor; ksimpl; try done.
      rewrite Hperm. unfold table_blocks. by rewrite <- app_assoc.
Qed.
(** ** The whole call *)

Definition a_fork (t : Z) s : sched := Sched (s_cur s) (s_ready s ++ [t]) (s_sleep s) (s_zomb s).

(** Room for every thread on each of the lists, as far as [thread_fork] reserves it. *)
Definition reserved k : Prop :=
  (∀ a, k_sleepers k = Some a → k_num k ≤ a_max a) ∧
  (∀ a, k_zombies k = Some a → k_num k ≤ a_max a) ∧
  (∀ q, k_runq k = Some q → k_num k ≤ q_size q).

(** The heap can serve what a fork asks for. *)
Definition lists_fit k : Prop :=
  k_num k + 1 ≤ 2 ^ 28 ∧
  (∀ a, k_sleepers k = Some a → fits (k_num k + 1) (a_max a)) ∧
  (∀ a, k_zombies k = Some a → fits (k_num k + 1) (a_max a)) ∧
  (∀ q, k_runq k = Some q → q_size q < 2 ^ 28 ∧ fits (k_num k + 1) (q_size q)).

Definition fork_fits k (l : list Z) : Prop :=
  THREAD_SIZE < kh_max ∧ STACK_SIZE < kh_max ∧ PROCESS_SIZE < kh_max ∧
  zlen l < 2 ^ 27 ∧ 8 * (zlen l + 1) < kh_max ∧ lists_fit k.

Definition new_thread (th : thread) (data1 data2 func pid cwd : Z) : Prop :=
  t_pcb th = md_initpcb (t_stack th) data1 data2 func ∧ t_stack th ≠ NULL ∧
  t_magic th = STACK_MAGIC ∧ t_sleepaddr th = NULL ∧ t_vmspace th = NULL ∧ t_cwd th = cwd ∧
  t_pid th = pid.

Definition forked k s l O (th : thread) t k' : Prop :=
  k_threads k !! t = None ∧ k_threads k' = <[t := th]> (k_threads k) ∧
  srep k' (a_fork t s) ∧ k_num k' = k_num k + 1 ∧ k_spl k' = k_spl k ∧ reserved k' ∧
  ptab k' l ∧ owned (k_heap k') (sched_blocks k' (a_fork t s) ++ table_blocks k' l ++ O).

Lemma ready_lt k s : counted k s → s_cur s ≠ NULL → zlen (s_ready s) < k_num k.
Proof.
  intros Hc Hn. unfold counted, live_threads, cur_list in Hc.
  replace (s_cur s =? NULL) with false in Hc by lia. simpl in Hc. lia.
Qed.

Lemma fork_perm t s : all_threads (a_fork t s) ≡ₚ t :: all_threads s.
Proof.
  unfold all_threads, a_fork; simpl. rewrite <- (app_assoc (s_ready s)). simpl.
  rewrite <- (Permutation_middle (s_ready s)). by rewrite <- Permutation_middle.
Qed.

Lemma forked_srep k kA kB t th s l O h sl zs q n :
  srep k s → forking k kA t th s l O → entered (set_spl SPL_HIGH kA) kB h sl zs q n →
  array_rep sl (s_sleep s) → array_rep zs (s_zomb s) → queue_rep q (s_ready s ++ [t]) →
  t_magic th = STACK_MAGIC → srep (set_spl (k_spl k) kB) (a_fork t s).
Proof.
  intros Hrep Hf -> Hsl Hzs Hq Hm. destruct Hf as [Ht Hn Hnn Hc Hs Hz Hqq Hnum Hspl Htlb Htab Hown].
  destruct Hrep as [Rc _ _ _ Rnd Rnn Rthr Rm Rtl].
  assert (Hnew : t ∉ all_threads s) by (rewrite Rthr, Hn; by intros []).
  constructor; ksimpl; try (simpl; by eexists).
  - by rewrite Hc.
  - rewrite fork_perm. apply NoDup_cons. by split.
  - simpl. rewrite <- app_assoc. simpl. intros Hin. apply Rnn.
    apply elem_of_app in Hin as [?|Hin]; [set_solver|].
    apply elem_of_cons in Hin as [Heq|Hin]; [by symmetry in Heq|set_solver].
  - intros u. rewrite fork_perm, elem_of_cons, Rthr, Ht, lookup_insert_is_Some.
    destruct (decide (t = u)); naive_solver.
  - intros u th'. rewrite Ht. rewrite lookup_insert_Some. intros [[<- <-]|[_ Hu]]; [done|]. by eapply Rm.
  - by rewrite Htlb.
Qed.
Lemma sched_blocks_rotate (A T B1 B2 C R : list Z) :
  A ++ (T ++ B1 ++ B2 ++ C) ++ R ≡ₚ B1 ++ B2 ++ C ++ (A ++ T ++ R).
Proof.
  rewrite <- !app_assoc.
  rewrite (Permutation_app_swap_app T B1), (Permutation_app_swap_app T B2), (Permutation_app_swap_app T C).
  rewrite (Permutation_app_swap_app A B1), (Permutation_app_swap_app A B2).
  by rewrite (Permutation_app_swap_app A C).
Qed.

(** The fork did not get its room: [enter_thread] may have grown some lists. *)
Lemma enter_failed k kA kB t th s l O h sl zs q e' :
  srep k s → forking k kA t th s l O → entered (set_spl SPL_HIGH kA) kB h sl zs q (k_num k) →
  array_rep sl (s_sleep s) → array_rep zs (s_zomb s) → queue_rep q (s_ready s) → t_stack th ≠ NULL →
  owned h (arr_blocks sl ++ arr_blocks zs ++ q_blocks q ++
    (thread_blocks t th ++ thr_blocks k (all_threads s) ++ table_blocks kA l ++ O)) →
  wps (_ ← kfree_ (t_stack th); _ ← kfree_ (t_name th); drop_thread t) (set_env e' (set_spl (k_spl k) kB))
    (λ _ k', fork_failed k s O k').
Proof.
  intros Hrep Hf -> Hsl Hzs Hq Hst Ho.
  set (k2 := set_runq (Some q) (set_zombies (Some zs) (set_sleepers (Some sl) k))).
  eapply wps_mono; [apply (forking_drop k2 _ t th s l O)|].
  - destruct Hrep. constructor; try done; ksimpl; by eexists.
  - destruct Hf as [Ht Hn Hnn Hc Hs Hz Hqq Hnum Hspl Htlb Htab Hown]. constructor; ksimpl; try done.
    + destruct Htab. by constructor.
    + unfold sched_blocks. rewrite sched_blocks_rotate. exact Ho.
  - done.
  - intros [] k' (u & l' & Hf'). by exists u, l'.
Qed.

Lemma enter_forked k kA kB t th s l O h sl zs q :
  srep k s → forking k kA t th s l O → entered (set_spl SPL_HIGH kA) kB h sl zs q (k_num k + 1) →
  array_rep sl (s_sleep s) → array_rep zs (s_zomb s) → queue_rep q (s_ready s ++ [t]) →
  k_num k + 1 ≤ a_max sl → k_num k + 1 ≤ a_max zs → k_num k + 1 ≤ q_size q →
  t_magic th = STACK_MAGIC →
  owned h (arr_blocks sl ++ arr_blocks zs ++ q_blocks q ++
    (thread_blocks t th ++ thr_blocks k (all_threads s) ++ table_blocks kA l ++ O)) →
  forked k s l O th t (set_spl (k_spl k) kB).
Proof.
  intros Hrep Hf He Hsl Hzs Hq H1' H2' H3' Hm Ho.
  pose proof (forked_srep _ _ _ _ _ _ _ _ _ _ _ _ _ Hrep Hf He Hsl Hzs Hq Hm) as Hrep'.
  pose proof (forking_others _ _ _ _ _ _ _ Hrep Hf) as Hoth.
  destruct Hf as [Ht Hn Hnn Hc Hs Hz Hqq Hnum Hspl Htlb Htab Hown]. unfold entered in He. subst kB.
  match goal with |- forked _ _ _ _ _ _ ?q => set (k' := q) in * end.
  assert (Hb1 : thr_blocks k' (all_threads s) = thr_blocks k (all_threads s)) by (by apply thr_blocks_same).
  assert (Hb2 : blocks_of k' t = thread_blocks t th).
  { unfold blocks_of, k'. ksimpl. by rewrite Ht, lookup_insert_eq. }
  split_and!; try done.
  - split_and!; intros x Hx; by injection Hx as <-.
  - destruct Htab. by constructor.
  - unfold sched_blocks. rewrite (thr_blocks_perm _ _ _ (fork_perm t s)), thr_blocks_cons, Hb1, Hb2.
    rewrite <- (app_assoc (thread_blocks t th)), <- (app_assoc (thread_blocks t th)).
    rewrite sched_blocks_rotate. exact Ho.
Qed.

(** The reference to the directory is given up. *)
Lemma drop_cwd v kA :
  (v ≠ NULL → vn_held 2 (k_env kA) v) →
  wps (if negb (v =? NULL) then VOP_DECREF v else mret tt) kA (λ _ k', ∃ e', k' = set_env e' kA).
Proof.
  intros Hv. destruct (v =? NULL) eqn:Ev; simpl.
  - wps_step. exists (k_env kA). by destruct kA.
  - wps_call decref_law; [apply Hv; lia|]. intros [] k' (e' & -> & _). by exists e'.
Qed.

(** The end of [thread_fork]: the lists, or the way back. *)
Lemma fork_finish k kA t th s l O :
  srep k s → counted k s → s_cur s ≠ NULL → forking k kA t th s l O → lists_fit k →
  t_stack th ≠ NULL → t_magic th = STACK_MAGIC → (t_cwd th ≠ NULL → vn_held 2 (k_env kA) (t_cwd th)) →
  wps (s0 ← k_splhigh;
       result ← enter_thread t;
       _ ← k_splx s0;
       if result =? 0 then mret (0, t)
       else
         th ← get_thread t;
         _ ← (if negb (t_cwd th =? NULL) then VOP_DECREF (t_cwd th) else mret tt);
         _ ← kfree_ (t_stack th);
         _ ← kfree_ (t_name th);
         _ ← drop_thread t;
         mret (result, NULL)) kA (λ a k',
    (a.1 ≠ 0 ∧ fork_failed k s O k' ∧ ¬ kh_room 3 (k_heap kA)) ∨
    (a = (0, t) ∧ forked k s l O th t k' ∧ k_procs k' = k_procs kA ∧ k_env k' = k_env kA)).
Proof.
  intros Hrep Hcnt Hcur Hf Hfits Hst Hmag Hcwd. pose proof Hrep as [_ (q & Hq & Hqr) (sl & Hsl & Hslr) (zs & Hzs & Hzsr) _ _ _ _ _].
  pose proof Hf as [Ht Hn Hnn Hc Hs Hz Hqq Hnum Hspl Htlb Htab Hown].
  destruct Hfits as (Hb & Hf1 & Hf2 & Hf3). destruct (Hf3 q Hq) as [Hb3 Hf3'].
  unfold sched_blocks in Hown. rewrite sched_blocks_rotate, Hsl, Hzs, Hq in Hown. unfold oarr, oq in Hown.
  rewrite wps_bind. unfold k_splhigh. apply wps_splx. rewrite Hspl.
  wps_call (enter_thread_spec (set_spl SPL_HIGH kA) t sl zs q); ksimpl; rewrite ?Hs, ?Hz, ?Hqq, ?Hnum; try done.
  { by apply ready_lt. } { by apply Hf1. } { by apply Hf2. }
  intros r kB (h & sl' & zs' & q' & n & He & Hsl' & Hzs' & Ho' & Hres & Hr). rewrite wps_bind. apply wps_splx.
  destruct Hres as [(-> & -> & Hq' & H1' & H2' & H3')|(-> & -> & Hq')].
  - change (0 =? 0) with true. wps_step. right. split; [done|]. split.
    + by apply (enter_forked k kA kB t th s l O h sl' zs' q').
    + unfold entered in He. by subst kB.
  - change (ENOMEM =? 0) with false. rewrite wps_bind. eapply wps_get_thread.
    { unfold entered in He. subst kB. ksimpl. by rewrite Ht, lookup_insert_eq. }
    apply (rooms_fail 3) in Hr; [|done]. change (¬ kh_room 3 (k_heap kA)) in Hr.
    assert (k_env (set_spl (k_spl k) kB) = k_env kA) as Henv by (unfold entered in He; by subst kB).
    rewrite wps_bind. eapply wps_mono; [by apply (drop_cwd (t_cwd th)); rewrite Henv|]. intros [] k1 (e' & ->).
    pose proof (enter_failed k kA kB t th s l O h sl' zs' q' e' Hrep Hf He Hsl' Hzs' Hq' Hst Ho') as Hw.
    rewrite !wps_bind in Hw. rewrite wps_bind. eapply wps_mono; [exact Hw|]. intros [] k2 Hk2.
    rewrite wps_bind. apply wps_bind in Hk2. eapply wps_mono; [exact Hk2|]. intros [] k3 Hk3.
    rewrite wps_bind. eapply wps_mono; [exact Hk3|]. intros [] k4 Hk4. wps_step. by left.
Qed.
Lemma null_not_thread k s : srep k s → k_threads k !! NULL = None.
Proof.
  intros Hrep. apply eq_None_not_Some. intros Hs. apply (in_threads _ _ _ Hrep) in Hs.
  unfold all_threads, cur_list in Hs. destruct (s_cur s =? NULL) eqn:Ec; simpl in Hs.
  - by apply (sr_null _ _ Hrep).
  - apply elem_of_cons in Hs as [Heq|Hs]; [lia|]. by apply (sr_null _ _ Hrep).
Qed.

(** Failing before anything but the heap has changed. *)
Lemma failed_early k s l O h :
  srep k s → ptab k l → owned h (sched_blocks k s ++ table_blocks k l ++ O) →
  fork_failed k s O (set_heap h k).
Proof.
  intros Hrep Htab Ho. exists NULL, l. pose proof (null_not_thread _ _ Hrep) as Hn. split_and!; try done.
  - ksimpl. rewrite delete_id by done. destruct Hrep. by constructor.
  - destruct Htab. by constructor.
Qed.

(** The thread structure exists. *)
Lemma forking_start k s l O t name h :
  srep k s → ptab k l → owned (k_heap k) (sched_blocks k s ++ table_blocks k l ++ O) →
  t ≠ NULL → t ∉ kh_live (k_heap k) → name ∉ kh_live (k_heap k) → t ≠ name →
  kh_inv h → kh_live h = {[t; name]} ∪ kh_live (k_heap k) →
  let th := Thread (PCB 0 0 0 NULL None) name NULL NULL [] NULL NULL 0 NULL in
  forking k (set_threads (<[t := th]> (k_threads k)) (set_heap h k)) t th s l O.
Proof.
  intros Hrep Htab (Hi & Hnd & Hl) Htn Ht Hn Htn' Hi' Hlv. constructor; ksimpl; try done.
  - apply eq_None_not_Some. intros Hs. apply Ht, Hl. pose proof Hs as [th Hth].
    apply (in_threads _ _ _ Hrep) in Hs. unfold sched_blocks. apply elem_of_app. left.
    apply elem_of_app. left. apply elem_of_thr_blocks. exists t. split; [done|].
    unfold blocks_of. rewrite Hth. constructor.
  - destruct Htab. by constructor.
  - unfold thread_blocks. simpl. split_and!; [done| |].
    + apply NoDup_cons. split; [|apply NoDup_cons; split].
      * rewrite elem_of_cons. intros [?|Hb]; [done|]. by apply Ht, Hl.
      * intros Hb. by apply Hn, Hl.
      * done.
    + intros b Hb. rewrite Hlv. apply elem_of_cons in Hb as [->|Hb]; [set_solver|].
      apply elem_of_cons in Hb as [->|Hb]; [set_solver|]. apply elem_of_union_r. by apply Hl.
Qed.

(** The stack is added. *)
Lemma forking_stack k kA t th s l O stack h :
  forking k kA t th s l O → t_stack th = NULL → stack ≠ NULL → stack ∉ kh_live (k_heap kA) →
  kh_inv h → kh_live h = {[stack]} ∪ kh_live (k_heap kA) →
  wps (upd_thread t (th_set_stack stack STACK_MAGIC)) (set_heap h kA)
    (λ _ k', forking k k' t (th_set_stack stack STACK_MAGIC th) s l O ∧ k_heap k' = h ∧ k_env k' = k_env kA).
Proof.
  intros [Ht Hn Hnn Hc Hs Hz Hq Hnum Hspl Htlb Htab Hown] Hst Hsn Hsl Hi Hl. unfold upd_thread. wps_step.
  eapply wps_get_thread; [ksimpl; by rewrite Ht, lookup_insert_eq|]. unfold put_thread. wps_step. split; [|done].
  constructor; ksimpl; try done.
  - by rewrite Ht, insert_insert_eq.
  - destruct Htab. by constructor.
  - pose proof (owned_new _ _ _ _ Hown Hi Hsl Hl) as Ho. unfold thread_blocks in *. simpl.
    rewrite Hst in Ho. simpl in Ho. replace (stack =? NULL) with false by lia. simpl.
    rewrite (Permutation_swap t stack) in Ho. by rewrite (Permutation_swap (t_name th) stack) in Ho.
Qed.
(** What [thread_fork] leaves behind.  It fails when every process id is taken, or when there is
    not memory for [c] requests. *)
Definition fork_post (c : nat) k0 k s l O me data1 data2 func (a : Z * Z) k' : Prop :=
  (a.1 ≠ 0 ∧ fork_failed k s O k' ∧ (no_ids a.1 l ∨ ¬ kh_room c (k_heap k0))) ∨
  (a.1 = 0 ∧ ∃ th p, p ∉ l ∧ new_thread th data1 data2 func (first_hole l) (t_cwd me) ∧
     (t_cwd me ≠ NULL → vn_held 2 (k_env k') (t_cwd me)) ∧
     (∃ e, k_procs k' !! p = Some (Process (t_pid me) 0 (-1) e a.2) ∧ (kh_room c (k_heap k0) → e ≠ NULL)) ∧
     forked k s (put_pid (first_hole l) p l) O th a.2 k').

Lemma fork_post_room c c' k0 k0' k s l O me data1 data2 func a k' :
  (kh_room c' (k_heap k0') → kh_room c (k_heap k0)) →
  fork_post c k0 k s l O me data1 data2 func a k' → fork_post c' k0' k s l O me data1 data2 func a k'.
Proof.
  intros Hc [(Hr & Hf & Hn)|(Hr & th & p & Hp & Hth & Hv & (e & He & Hen) & Hf)].
  - left. split_and!; [done|done|]. destruct Hn as [|Hn]; [by left|right; auto].
  - right. split; [done|]. exists th, p. split_and!; try done. exists e. auto.
Qed.

(** With the stack in place: process id, page directory, lists. *)
Lemma fork_rest k kA t th s l O me data1 data2 func stack :
  srep k s → counted k s → s_cur s ≠ NULL → forking k kA t th s l O → fork_fits k l →
  k_threads k !! k_cur k = Some me → (t_cwd me ≠ NULL → vn_held 1 (k_env kA) (t_cwd me)) →
  t_stack th = stack → stack ≠ NULL → t_magic th = STACK_MAGIC → t_cwd th = NULL →
  t_vmspace th = NULL → t_sleepaddr th = NULL →
  wpf (¬ kh_room 8 (k_heap kA)) (cur ← gets k_cur;
       me ← get_thread cur;
       _ ← (if negb (t_cwd me =? NULL) then
              _ ← VOP_INCREF (t_cwd me);
              upd_thread t (th_set_cwd (t_cwd me))
            else mret tt);
       _ ← upd_thread t (th_set_pcb (md_initpcb stack data1 data2 func));
       '(result, child_processID) ← allocatePid t;
       if negb (result =? 0) then mret (result, NULL)
       else
         _ ← upd_thread t (th_set_pid child_processID);
         pd ← page_table_initializer;
         _ ← upd_thread t (th_set_pagedir pd);
         s ← k_splhigh;
         result ← enter_thread t;
         _ ← k_splx s;
         if result =? 0 then mret (0, t)
         else
           th ← get_thread t;
           _ ← (if negb (t_cwd th =? NULL) then VOP_DECREF (t_cwd th) else mret tt);
           _ ← kfree_ (t_stack th);
           _ ← kfree_ (t_name th);
           _ ← drop_thread t;
           mret (result, NULL)) kA (fork_post 8 kA k s l O me data1 data2 func).
Proof.
  intros Hrep Hcnt Hcur Hf Hfits Hme Hcwd Hst Hsn Hm Hthc Hvm Hsa.
  pose proof Hfits as (F1 & F2 & F3 & F4 & F5 & F6).
  assert (Hne : k_cur k ≠ t) by (pose proof (fk_new _ _ _ _ _ _ _ Hf); congruence).
  wpf_step. rewrite (fk_cur _ _ _ _ _ _ _ Hf).
  eapply wpf_get_thread; [rewrite (fk_thr _ _ _ _ _ _ _ Hf); by rewrite lookup_insert_ne|].
  rewrite wpf_bind. eapply wpf_mono; [eapply wpf_of_wps, (inherit_cwd k kA t th s l O (t_cwd me)); [done|done|done]|].
  intros [] k0 (Hf0 & Hh0 & Hv0). rewrite <- Hh0.
  wpf_call (forking_upd_procs k k0); [done|done|]. intros [] k1 (Hf1 & _ & Hh1 & Henv1). rewrite <- Hh1.
  assert (Hh10 : k_heap k1 = k_heap kA) by congruence.
  rewrite wpf_bind. eapply wpf_mono; [eapply wpf_weaken; [by eapply (forking_pid k k1)|]|].
  { intros Hn Hr. apply Hn. eapply room_sub; [done|lia]. }
  intros [r pid] k2; simpl. intros [Henv2 [(Hr & Hf2 & Hno)|(-> & -> & p & e & Hp & Hpr & Hf2 & Hr2)]].
  { replace (negb (r =? 0)) with true by lia. wpf_step. left. split_and!; [done|by eapply forking_leak|].
    destruct Hno as [|Hno]; [by left|right]. intros Hr8. apply Hno. rewrite Hh10. eapply room_sub; [done|lia]. }
  change (negb (0 =? 0)) with false. wpf_call (forking_upd_procs k k2); [done|done|].
  intros [] k3 (Hf3 & Hp3 & Hh3 & Henv3). rewrite <- Hh3 in Hr2.
  wpf_step. eapply wpf_mono; [eapply wpf_weaken; [apply page_table_law, (fk_own _ _ _ _ _ _ _ Hf3)|]|].
  { intros Hn Hr8. apply Hn. apply (Hr2 1%nat). eapply room_sub; [done|lia]. }
  intros pd k4 (h' & e' & -> & Hi4 & Hl4 & Hr4 & Hv4).
  pose proof (forking_env _ _ _ _ _ _ _ h' e' Hf3 Hi4 Hl4) as Hf4.
  wpf_call (forking_upd_procs k); [done|done|]. intros [] k5 (Hf5 & Hp5 & Hh5 & Henv5).
  pose proof (rooms_bind 4 1 _ _ _ _ _ Hr2 (λ He, rooms_mono _ _ _ _ (e ≠ NULL) Hr4 (λ _, He))) as Hr5.
  change (k_heap k5 = h') in Hh5. change (k_env k5 = e') in Henv5.
  assert (Hv5 : t_cwd me ≠ NULL → vn_held 2 (k_env k5) (t_cwd me)).
  { intros Hn. rewrite Henv5. apply Hv4. rewrite Henv3, Henv2, Henv1. auto. }
  eapply wpf_of_wps, wps_mono; [eapply (fork_finish k k5); try done|].
  { simpl. by destruct (t_cwd me =? NULL); simpl; rewrite Hst. }
  { simpl. by destruct (t_cwd me =? NULL). }
  { simpl. intros Hn. destruct (t_cwd me =? NULL) eqn:Ev; simpl in Hn |- *; [done|]. apply Hv5. lia. }
  intros [r t'] k6 [(Hr & Hk6 & Hno)|(Heq & Hk6 & Hp6 & Henv6)].
  { left. split_and!; [done|done|right]. intros Hr8. apply Hno. rewrite Hh5. apply (Hr5 3%nat). by rewrite Hh10. }
  simplify_eq. right. split; [done|]. eexists _, p. split_and!; [done| | | |exact Hk6].
  - unfold new_thread. simpl. destruct (t_cwd me =? NULL) eqn:Ev; simpl; split_and!; try done; lia.
  - by rewrite Henv6.
  - exists e. split; [simpl; rewrite Hp6, Hp5; ksimpl; by rewrite Hp3|]. intros Hr8.
    apply (Hr5 3%nat). by rewrite Hh10.
Qed.

(** [thread_fork] adds a ready thread, or fails with the lists as they were. *)
Lemma thread_fork_spec k s l O me len data1 data2 func :
  srep k s → counted k s → s_cur s ≠ NULL → ptab k l →
  owned (k_heap k) (sched_blocks k s ++ table_blocks k l ++ O) → fork_fits k l →
  k_threads k !! k_cur k = Some me → (t_cwd me ≠ NULL → vn_held 1 (k_env k) (t_cwd me)) →
  0 ≤ len → len + 1 < kh_max →
  wpf (¬ kh_room 11 (k_heap k)) (thread_fork len data1 data2 func) k (fork_post 11 k k s l O me data1 data2 func).
Proof.
  intros Hrep Hcnt Hcur Htab Hown Hfits Hme Hcwd Hlen Hmax. unfold thread_fork.
  pose proof Hfits as (F1 & F2 & F3 & F4 & F5 & _). pose proof Hown as (Hi & _).
  wpf_call thread_create_spec; [done..|].
  intros t k1 (Hi1 & [(-> & Hl1 & h & ->)|(Ht & name & h & Htn & Htl & Hnl & Hlv & ->)] & Hr1).
  { change (NULL =? NULL) with true. wpf_step. left. split_and!; [done| |].
    - apply (failed_early k s l); try done. by eapply owned_live_eq.
    - right. intros Hr. apply (room_sub 2) in Hr; [|lia]. revert Hr. eapply rooms_fail; [done|]. intros Hn. by apply Hn. }
  replace (t =? NULL) with false by lia. ksimpl. change (rooms 2 (k_heap k) (t ≠ NULL) h) in Hr1.
  pose proof (forking_start k s l O t name h Hrep Htab Hown Ht Htl Hnl Htn Hi1 Hlv) as Hf. simpl in Hf.
  wpf_call wps_kalloc_full; [done|unfold STACK_SIZE in *; lia|]. ksimpl.
  intros stack k2 (h2 & -> & Hi2 & [[-> Hl2]|(Hsn & Hsl & Hl2)] & Hr2);
    pose proof (rooms_bind 2 1 _ _ _ _ _ Hr1 (λ _, Hr2)) as Hr12.
  { change (NULL =? NULL) with true. rewrite wpf_bind.
    eapply wpf_get_thread; [ksimpl; by rewrite lookup_insert_eq|].
    pose proof (fk_own _ _ _ _ _ _ _ Hf) as Ho2. unfold thread_blocks in Ho2. simpl in Ho2.
    rewrite (Permutation_swap name t) in Ho2.
    pose proof (forking_drop2 _ _ _ _ _ _ _ h2 Hrep Hf (owned_live_eq _ _ _ Ho2 Hi2 Hl2)) as Hw.
    apply wps_bind in Hw. rewrite wpf_bind. eapply wpf_mono; [by apply wpf_of_wps|]. intros [] k3 Hk3.
    rewrite wpf_bind. eapply wpf_mono; [by apply wpf_of_wps|]. intros [] k4 Hk4. wpf_step.
    left. split_and!; [done|done|right]. intros Hr. apply (room_sub 3) in Hr; [|lia]. revert Hr.
    eapply rooms_fail; [done|]. intros Hn. by apply Hn. }
  replace (stack =? NULL) with false by lia.
  wpf_call forking_stack; [done..|]. intros [] k3 (Hf3 & Hh3 & Henv3).
  assert (Hr3 : kh_room 11 (k_heap k) → kh_room 8 (k_heap k3)).
  { intros Hr. rewrite Hh3. apply (Hr12 8%nat). done. }
  eapply wpf_weaken; [eapply wpf_mono; [eapply (fork_rest k k3 t); try done; by rewrite Henv3|]|auto].
  intros a k' Hpost. by eapply (fork_post_room 8).
Qed.
End fork.
