(* ===== verification/ProcThm.v ===== *)
(** * What the process table and the wait protocol guarantee *)

From S2P Require Import Prelude StateM Heap KArray KQueue Coremap KState Thread ThreadSpec ThreadHeap Synch SynchMach SynchThm Process Owned ProcSpec.

Section thm.
Context {H E : Type} `{KHeapLaws H} `{!ThreadEnv H E}.
Implicit Types (k : kst H E) (s : sched).

(** ** Waiting for a child *)

(** The exit semaphore of a process is up: [P] goes through. *)
Lemma P_up k e sm :
  e ≠ NULL → k_inint k = 0 → k_sems k !! e = Some sm → 0 < sem_count sm →
  wps (P e) k (λ r k', r = None ∧
    k' = set_sems (<[e := Sem (sem_name sm) (sem_count sm - 1)]> (k_sems k)) k).
Proof.
  intros He Hi Hs Hc. unfold P. wps_step. unfold k_splhigh, k_splx. wps_step. unfold P_loop, get_sem.
  rewrite wps_bind. unfold wps at 1. simpl. rewrite Hs, wp_ok. simpl.
  replace (sem_count sm =? 0) with false by lia. unfold put_sem, k_splx. wps_step.
  split; [done|]. by destruct k.
Qed.

(** It is down: the caller goes to sleep on it. *)
Lemma P_down k s e sm :
  srep k s → e ≠ NULL → k_inint k = 0 → k_sems k !! e = Some sm → sem_count sm = 0 →
  s_cur s ≠ NULL → (∀ a, k_sleepers k = Some a → zlen (s_sleep s) < a_max a) →
  wps (P e) k (λ r k', r = Some (WP e (k_spl k)) ∧ srep k' (a_switch S_SLEEP s) ∧
    sleeps_on k' e (s_cur s) = true ∧ k_procs k' = k_procs k ∧ k_ptable k' = k_ptable k ∧
    k_sems k' = k_sems k).
Proof.
  intros Hrep He Hi Hs Hc Hcur Hroom. unfold P. wps_step. unfold k_splhigh, k_splx. wps_step.
  unfold P_loop, get_sem. rewrite wps_bind. unfold wps at 1. simpl. rewrite Hs, wp_ok. simpl.
  replace (sem_count sm =? 0) with true by lia. unfold thread_sleep. wps_step.
  rewrite wps_asrt. split; [simpl; lia|]. wps_step. simpl.
  rewrite (sr_cur _ _ Hrep).
  assert (Hall : s_cur s ∈ all_threads s).
  { unfold all_threads, cur_list. replace (s_cur s =? NULL) with false by lia. set_solver. }
  apply (sr_thr _ _ Hrep) in Hall as [th Hth]. unfold upd_thread. wps_step.
  eapply wps_get_thread; [done|]. unfold put_thread. wps_step.
  set (k1 := set_threads _ _).
  assert (Hrep1 : srep k1 s).
  { destruct Hrep as [Hcu Hq Hsl Hz Hnd Hnn Hthr Hm Htl]. constructor; try done.
    - intros t. rewrite Hthr. simpl. rewrite lookup_insert_is_Some.
      destruct (decide (s_cur s = t)) as [<-|]; [rewrite Hth|]; naive_solver.
    - intros t th'. simpl. rewrite lookup_insert_Some. intros [[<- <-]|[_ Ht]]; simpl; by eapply Hm. }
  eapply wps_mono; [apply (mi_switch_spec S_SLEEP k1 s Hrep1); [done|done|exact Hroom]|].
  intros [] k2 (Hrep2 & Hso & _). wps_step. pose proof Hso as (_ & Hst & _ & _ & Hsems & _ & _ & Hp & Hpt & _).
  split_and!; try done.
  assert (is_Some (k_threads k2 !! s_cur s)) as [th2 Hth2].
  { apply (strip_is_Some k1 k2 _ Hst). simpl. by rewrite lookup_insert_eq. }
  destruct (strip_lookup k1 k2 _ _ Hst Hth2) as (th1 & Hth1 & Heq). simpl in Hth1.
  rewrite lookup_insert_eq in Hth1. injection Hth1 as <-.
  unfold sleeps_on. rewrite Hth2. apply (f_equal t_sleepaddr) in Heq. simpl in Heq. lia.
Qed.
(** Thread [th] is current, and process [pid] (entry [x] at [p]) is its child. *)
Record child k s l th pid p x sm : Prop := Child {
  ch_rep : srep k s;
  ch_tab : ptab k l;
  ch_cur : k_threads k !! k_cur k = Some th;
  ch_pid : 0 < pid ≤ PID_MAX;
  ch_ent : l !! Z.to_nat pid = Some p;
  ch_nn : p ≠ NULL;
  ch_proc : k_procs k !! p = Some x;
  ch_sem : k_sems k !! exit_lock x = Some sm;
  ch_par : parent_pid x = t_pid th;
  ch_int : k_inint k = 0;
}.

Definition good_status (status : Z) : Prop :=
  status ≠ NULL ∧ status ≠ 0x80000000 ∧ status ≠ 0x40000000.

Lemma waitpid_to_P k s l th pid p x sm status Φ :
  child k s l th pid p x sm → good_status status →
  wps (r ← P (exit_lock x); waitpid_after r p pid) k Φ → wps (waitpid pid status 0) k Φ.
Proof.
  intros [Hrep Hpt Hcur Hpid He Hn Hx Hsm Hpar _] (Hs1 & Hs2 & Hs3) HΦ.
  destruct (pt_arr _ _ Hpt) as (pt & Hk & Hr). pose proof (lookup_lt_Some _ _ _ He) as Hlt.
  unfold waitpid. rewrite wps_bind. eapply wps_get_opt; [done|].
  unfold array_getnum. rewrite (proj1 Hr).
  replace ((pid >? PID_MAX) || (pid <=? 0) || (pid >? zlen l - 1) || negb (0 =? 0)) with false by lia.
  replace ((status =? NULL) || (status =? 0x80000000) || (status =? 0x40000000)) with false by lia.
  rewrite wps_bind, wps_lift. eapply wp_of_eq; [by apply (array_getguy_spec _ _ _ p Hr); [lia|]|].
  replace (p =? NULL) with false by lia.
  unfold get_proc. rewrite wps_bind. unfold wps at 1. rewrite Hx, wp_ok. simpl.
  wps_step. eapply wps_get_thread; [done|]. rewrite Hpar, Z.eqb_refl. simpl. exact HΦ.
Qed.

(** Collecting a child whose exit semaphore is up. *)
Lemma collect k s l th pid p x sm O :
  child k s l th pid p x sm → 0 < sem_count sm →
  ¬ Exists (λ t, sleeps_on k (exit_lock x) t = true) (s_sleep s) →
  owned (k_heap k) (oarr (k_ptable k) ++ pt_blocks k l ++ O) →
  wps (r ← P (exit_lock x); waitpid_after r p pid) k (λ r k',
    r = WaitDone 0 (exit_code x) pid ∧ proc_only k k' ∧ ptab k' (<[Z.to_nat pid := NULL]> l) ∧
    k_procs k' = delete p (k_procs k) ∧
    owned (k_heap k') (oarr (k_ptable k') ++ pt_blocks k' (<[Z.to_nat pid := NULL]> l) ++ O)).
Proof.
  intros [Hrep Hpt Hcur Hpid Hent Hn Hx Hsm Hpar Hint] Hc Hns Ho.
  assert (He : exit_lock x ≠ NULL) by (intros He; rewrite He, (pt_nulls _ _ Hpt) in Hsm; done).
  wps_call P_up; [done..|]. intros r k1 [-> ->]. simpl. unfold waitpid_finish, get_proc.
  rewrite wps_bind. unfold wps at 1. simpl. rewrite Hx, wp_ok. simpl.
  set (e := exit_lock x) in *. set (sm' := Sem (sem_name sm) (sem_count sm - 1)).
  set (k1 := set_sems (<[e := sm']> (k_sems k)) k).
  assert (Hbl : ∀ q, proc_blocks k1 q = proc_blocks k q).
  { intros q. unfold proc_blocks, k1. simpl. destruct (k_procs k !! q) as [y|]; [|done].
    destruct (decide (e = exit_lock y)) as [Heq|]; [|by rewrite lookup_insert_ne].
    by rewrite Heq, lookup_insert_eq, <- Heq, Hsm. }
  assert (Hpt1 : ptab k1 l).
  { destruct Hpt as [? ? ? Hpr]. constructor; unfold k1; simpl; try done; [by rewrite lookup_insert_ne|].
    intros q Hq Hqn. destruct (Hpr q Hq Hqn) as (y & Hy & Hl). exists y. split; [done|].
    rewrite lookup_insert_is_Some. destruct (decide (e = exit_lock y)); naive_solver. }
  wps_call (freePid_spec k1 s l pid p x sm' O); try done.
  - destruct Hrep. by constructor.
  - unfold k1; simpl. by rewrite lookup_insert_eq.
  - by rewrite (pt_blocks_ext k k1 l) by auto.
  - intros r k2 (-> & (h & a & b & c & ->) & Hpt2 & Hp2 & _ & Ho2). wps_step. split_and!; try done.
    exists h, a, b, c. by destruct k.
Qed.

(** C33: a parent that waits for a child that has exited gets the child's exit code and
    the child's id, and the child's table entry, semaphore and memory are released;
    nothing else of the kernel changes. *)
Theorem waitpid_collects_child k s l th pid p x sm status O :
  child k s l th pid p x sm → good_status status → 0 < sem_count sm →
  ¬ Exists (λ t, sleeps_on k (exit_lock x) t = true) (s_sleep s) →
  owned (k_heap k) (oarr (k_ptable k) ++ pt_blocks k l ++ O) →
  ∃ k', waitpid pid status 0 k = Ok (WaitDone 0 (exit_code x) pid, k') ∧ proc_only k k' ∧
    ptab k' (<[Z.to_nat pid := NULL]> l) ∧ k_procs k' = delete p (k_procs k) ∧
    owned (k_heap k') (oarr (k_ptable k') ++ pt_blocks k' (<[Z.to_nat pid := NULL]> l) ++ O).
Proof.
  intros Hch Hst Hc Hns Ho. pose proof (collect _ _ _ _ _ _ _ _ _ Hch Hc Hns Ho) as Hw.
  apply (waitpid_to_P _ _ _ _ _ _ _ _ status _ Hch Hst) in Hw.
  apply wps_exists in Hw as (r & k' & Hr & -> & ? & ? & ? & ?). by exists k'.
Qed.

(** a parent that waits for a child that has not exited goes to sleep on the
    child's exit semaphore, and the process table is as it was. *)
Theorem waitpid_blocks_on_running_child k s l th pid p x sm status :
  child k s l th pid p x sm → good_status status → sem_count sm = 0 → k_cur k ≠ NULL →
  (∀ a, k_sleepers k = Some a → zlen (s_sleep s) < a_max a) →
  ∃ k', waitpid pid status 0 k = Ok (WaitBlocked (WP (exit_lock x) (k_spl k)) p pid, k') ∧
    srep k' (a_switch S_SLEEP s) ∧ sleeps_on k' (exit_lock x) (k_cur k) = true ∧
    k_procs k' = k_procs k ∧ k_ptable k' = k_ptable k ∧ k_sems k' = k_sems k.
Proof.
  intros Hch Hst Hc Hcur Hroom. pose proof Hch as [Hrep Hpt _ _ _ Hn Hx Hsm _ Hint].
  assert (He : exit_lock x ≠ NULL) by (intros He; rewrite He, (pt_nulls _ _ Hpt) in Hsm; done).
  rewrite (sr_cur _ _ Hrep) in Hcur |- *.
  pose proof (P_down k s _ sm Hrep He Hint Hsm Hc Hcur Hroom) as Hw.
  apply wps_exists in Hw as (r & k' & Hr & -> & Hpost). exists k'. split; [|done].
  assert (Hw : wps (waitpid pid status 0) k (λ r k2, r = WaitBlocked (WP (exit_lock x) (k_spl k)) p pid ∧ k2 = k')).
  { eapply waitpid_to_P; [done|done|]. rewrite wps_bind. unfold wps at 1. rewrite Hr, wp_ok. simpl. by wps_step. }
  apply wps_exists in Hw as (r & k2 & Hr2 & -> & ->). done.
Qed.
(** ** Exiting *)

Lemma V_wakes k s e sm :
  srep k s → e ≠ NULL → k_sems k !! e = Some sm → 0 ≤ sem_count sm < 2 ^ 31 - 1 → k_cvone k = 0 →
  (∀ q, k_runq k = Some q → zlen (s_ready s) + zlen (s_sleep s) < q_size q) →
  wps (V e) k (λ _ k', srep k' (a_wake_all (sleeps_on k e) s) ∧
    k_sems k' = <[e := Sem (sem_name sm) (sem_count sm + 1)]> (k_sems k) ∧
    k_procs k' = k_procs k ∧ k_ptable k' = k_ptable k ∧ k_threads k' = k_threads k ∧ k_spl k' = k_spl k).
Proof.
  intros Hrep He Hsm Hc Hone Hroom. unfold V. wps_step. unfold k_splhigh, k_splx at 1. wps_step.
  unfold get_sem. unfold wps at 1. simpl. rewrite Hsm, wp_ok. simpl.
  rewrite s32_id by in_range. unfold put_sem. wps_step.
  match goal with |- wps _ ?q _ => set (k1 := q) end.
  assert (Hrep1 : srep k1 s) by (destruct Hrep; by constructor).
  eapply wps_mono; [by apply (thread_wakeup_spec e k1 s)|].
  intros [] k2 (Hrep2 & Hso & _ & _ & _ & Hth & _). destruct Hso as (_ & _ & _ & _ & Hs & _ & _ & Hp & Hpt & _).
  unfold k_splx. wps_step. simpl. split_and!; try done.
  replace (k_cvone k1 =? 1) with false in Hrep2 by (unfold k1; simpl; lia).
  destruct Hrep2. by constructor.
Qed.

(** C34: [_exit] stores the exit code where the parent will look, raises the exit
    semaphore, makes every thread that waits for it ready, and then ends the thread:
    what follows is [thread_exit] in that state. *)
Theorem exit_reports_code k s l th p x sm code :
  srep k s → ptab k l → k_threads k !! k_cur k = Some th → 0 ≤ t_pid th →
  l !! Z.to_nat (t_pid th) = Some p → p ≠ NULL → k_procs k !! p = Some x →
  k_sems k !! exit_lock x = Some sm → 0 ≤ sem_count sm < 2 ^ 31 - 1 → k_cvone k = 0 →
  (∀ q, k_runq k = Some q → zlen (s_ready s) + zlen (s_sleep s) < q_size q) →
  ∃ k1, sys__exit code k = thread_exit k1 ∧
    srep k1 (a_wake_all (sleeps_on k (exit_lock x)) s) ∧
    k_procs k1 !! p = Some (Process (parent_pid x) 1 code (exit_lock x) (mythread x)) ∧
    k_sems k1 !! exit_lock x = Some (Sem (sem_name sm) (sem_count sm + 1)) ∧
    k_ptable k1 = k_ptable k ∧ k_threads k1 = k_threads k.
Proof.
  intros Hrep Hpt Hth Hpid Hent Hn Hx Hsm Hc Hone Hroom.
  destruct (pt_arr _ _ Hpt) as (pt & Hk & Hr).
  assert (He : exit_lock x ≠ NULL) by (intros He; rewrite He, (pt_nulls _ _ Hpt) in Hsm; done).
  set (k0 := set_procs (<[p := Process (parent_pid x) 1 code (exit_lock x) (mythread x)]> (k_procs k)) k).
  assert (Hrep0 : srep k0 s) by (destruct Hrep; by constructor).
  pose proof (V_wakes k0 s (exit_lock x) sm Hrep0 He Hsm Hc Hone Hroom) as Hw.
  apply wps_exists in Hw as ([] & k1 & HV & Hrep1 & Hs1 & Hp1 & Ht1 & Hth1 & _). exists k1. split.
  - unfold sys__exit, mbind, stm_bind, gets, get_thread, get_opt, lift, get_proc, put_proc, modify.
    rewrite Hth, Hk, (array_getguy_spec _ _ _ p Hr) by done. rewrite Hx. fold k0. by rewrite HV.
  - split_and!; [exact Hrep1|by rewrite Hp1; simpl; rewrite lookup_insert_eq
      |by rewrite Hs1, lookup_insert_eq|done|done].
Qed.

(** ** The table *)

(** C35: [allocatePid] takes the lowest free id, records the parent, and leaves the other entries
    and blocks as they are.  It refuses with EAGAIN only when the table has more than [PID_MAX]
    entries and no hole.  With memory for four requests that is its only failure, and the new
    process has its exit semaphore; without, it may answer ENOMEM or panic, and does nothing
    undefined. *)
Theorem allocatePid_takes_lowest_id k l th t O :
  ptab k l → k_threads k !! k_cur k = Some th →
  owned (k_heap k) (oarr (k_ptable k) ++ pt_blocks k l ++ O) →
  PROCESS_SIZE < kh_max → zlen l < 2 ^ 27 → 8 * (zlen l + 1) < kh_max →
  match allocatePid t k with
  | Ok (a, k') => pid_post k l th t O a k'
  | Fault f => f = FPanic ∧ ¬ kh_room 4 (k_heap k)
  end.
Proof.
  intros Hpt Hth Ho Hm1 Hm2 Hm3. pose proof (allocatePid_spec k l th t O Hpt Hth Ho Hm1 Hm2 Hm3) as Hw.
  unfold wpf in Hw. destruct (allocatePid t k) as [[a k']|[]]; done.
Qed.

(** The bound [freePid] checks is wrong: the id just past the end of the table is
    accepted and the kernel panics instead of answering EINVAL. *)
Theorem freePid_past_the_end k l pid :
  ptab k l → 0 < pid ≤ PID_MAX → pid = zlen l → freePid pid k = Fault FPanic.
Proof.
  intros Hpt Hp ->. destruct (pt_arr _ _ Hpt) as (pt & Hk & Hr).
  unfold freePid, mbind, stm_bind, get_opt. rewrite Hk. unfold array_getnum. rewrite (proj1 Hr).
  replace ((zlen l >? PID_MAX) || (zlen l <=? 0) || (zlen l - 1 >? zlen l)) with false by lia.
  assert (array_getguy pt (zlen l) = Fault FPanic) as Hg; [|unfold lift; by rewrite Hg].
  destruct Hr as (Hn & Hm & _). unfold array_getguy, check. rewrite <- Hn.
  replace (a_num pt <=? a_max pt) with true by lia.
  by replace ((0 <=? a_num pt) && (a_num pt <? a_num pt)) with false by lia.
Qed.

(** The process with id 0 can never be waited for, although [allocatePid] gives
    that id to the first process. *)
Theorem pid_zero_cannot_be_waited_for k l status options :
  ptab k l → waitpid 0 status options k = Ok (WaitDone EINVAL 0 0, k) ∧ first_hole [] = 0.
Proof.
  intros Hpt. destruct (pt_arr _ _ Hpt) as (pt & Hk & Hr). split; [|done].
  unfold waitpid, mbind, stm_bind, get_opt. rewrite Hk. done.
Qed.
End thm.

(** ** Examples

    Thread 100 (process 0) has the child process 1, which has exited with code 7;
    thread 200 is process 2, a child of process 0 that still runs. *)

Module ProcDemo.
Import Demo.

Definition family_heap : refheap :=
  RefHeap 20 1000 (list_to_set (demo_blocks ++ [430; 431; 600; 601; 602; 610; 611; 612; 620; 621; 622])).

Definition family : kst refheap refs :=
  set_threads (<[100 := demo_thread 100]> (<[200 := th_set_pid 2 (demo_thread 200)]> {[300 := demo_thread 300]}))
  (set_heap family_heap (set_ptable (Some (Array 430 3 8 431 ([Some 600; Some 610; Some 620] ++ replicate 5 None)))
  (set_procs (<[600 := Process 0 0 (-1) 601 100]> (<[610 := Process 0 1 7 611 300]> {[620 := Process 0 0 (-1) 621 200]}))
  (set_sems (<[601 := Sem 602 0]> (<[611 := Sem 612 1]> {[621 := Sem 622 0]})) demo_k)))).

Definition family_pids : list Z := [600; 610; 620].

Lemma family_srep : srep family demo_sched.
Proof.
  destruct demo_srep as [Hcur Hq Hsl Hz Hnd Hnn Hthr Hm Htl]. constructor; try done.
  - intros t. rewrite Hthr. simpl. rewrite !lookup_insert_is_Some'. tauto.
  - intros t th. simpl. rewrite !lookup_insert_Some, lookup_singleton_Some.
    intros [[<- <-]|[_ [[<- <-]|[_ [<- <-]]]]]; done.
Qed.

Lemma family_ptab : ptab family family_pids.
Proof.
  constructor; [|done|done|].
  - eexists. split; [done|]. by split_and!.
  - intros p Hp _. repeat (apply elem_of_cons in Hp as [->|Hp]); [..|set_solver];
      eexists; (split; [done|right; done]).
Qed.

Lemma family_owned : owned (k_heap family) (oarr (k_ptable family) ++ pt_blocks family family_pids ++ []).
Proof.
  split; [|split].
  - split; [done|]. split; [done|]. intros b Hb%elem_of_list_to_set. revert b Hb.
    apply Forall_forall. by apply (bool_decide_unpack _).
  - by apply (bool_decide_unpack _).
  - intros b Hb. apply elem_of_list_to_set. revert b Hb. apply Forall_forall. by apply (bool_decide_unpack _).
Qed.

Lemma family_child1 :
  child family demo_sched family_pids (demo_thread 100) 1 610 (Process 0 1 7 611 300) (Sem 612 1).
Proof. constructor; try done; [apply family_srep|apply family_ptab]. Qed.

Lemma family_child2 :
  child family demo_sched family_pids (demo_thread 100) 2 620 (Process 0 0 (-1) 621 200) (Sem 622 0).
Proof. constructor; try done; [apply family_srep|apply family_ptab]. Qed.

Lemma waitpid_collects_child_witness :
  ∃ k', waitpid 1 0x1000 0 family = Ok (WaitDone 0 7 1, k') ∧ proc_only family k' ∧
    ptab k' [600; 0; 620] ∧ k_procs k' = delete 610 (k_procs family) ∧
    owned (k_heap k') (oarr (k_ptable k') ++ pt_blocks k' [600; 0; 620] ++ []).
Proof.
  apply (waitpid_collects_child family demo_sched family_pids (demo_thread 100) 1 610
    (Process 0 1 7 611 300) (Sem 612 1) 0x1000 []).
  - exact family_child1.
  - done.
  - done.
  - simpl. intros Hex. by inversion Hex.
  - exact family_owned.
Defined.

Lemma waitpid_blocks_on_running_child_witness :
  ∃ k', waitpid 2 0x1000 0 family = Ok (WaitBlocked (WP 621 0) 620 2, k') ∧
    srep k' (Sched 200 [300] [100] []) ∧ sleeps_on k' 621 100 = true ∧
    k_procs k' = k_procs family ∧ k_ptable k' = k_ptable family ∧ k_sems k' = k_sems family.
Proof.
  apply (waitpid_blocks_on_running_child family demo_sched family_pids (demo_thread 100) 2 620
    (Process 0 0 (-1) 621 200) (Sem 622 0) 0x1000).
  - exact family_child2.
  - done.
  - done.
  - done.
  - intros a Ha. by injection Ha as <-.
Defined.

Lemma exit_reports_code_witness :
  ∃ k1, sys__exit 3 family = thread_exit k1 ∧
    srep k1 (a_wake_all (sleeps_on family 601) demo_sched) ∧
    k_procs k1 !! 600 = Some (Process 0 1 3 601 100) ∧ k_sems k1 !! 601 = Some (Sem 602 1) ∧
    k_ptable k1 = k_ptable family ∧ k_threads k1 = k_threads family.
Proof.
  apply (exit_reports_code family demo_sched family_pids (demo_thread 100) 600
    (Process 0 0 (-1) 601 100) (Sem 602 0) 3); try done.
  - exact family_srep.
  - exact family_ptab.
  - intros q Hq. by injection Hq as <-.
Defined.

Lemma allocatePid_takes_lowest_id_witness :
  ∃ a k', allocatePid 300 family = Ok (a, k') ∧ a.1 = 0 ∧ pid_post family family_pids (demo_thread 100) 300 [] a k'.
Proof.
  pose proof (allocatePid_takes_lowest_id family family_pids (demo_thread 100) 300 []
    family_ptab eq_refl family_owned eq_refl eq_refl eq_refl) as Hw.
  destruct (allocatePid 300 family) as [[a k']|f] eqn:Eq.
  - exists a, k'. split; [reflexivity|]. split; [|exact Hw].
    destruct a as [r pid]. destruct Hw as [(_ & _ & Hz & _)|[(_ & Hr & _)|(Hr & _)]]; [discriminate Hz| |exact Hr].
    destruct Hr. simpl. lia.
  - destruct Hw as [_ Hr]. destruct Hr. simpl. lia.
Defined.

Lemma freePid_past_the_end_witness : freePid 3 family = Fault FPanic.
Proof. apply (freePid_past_the_end family family_pids 3); [exact family_ptab|done|done]. Defined.

Lemma pid_zero_cannot_be_waited_for_witness :
  waitpid 0 0x1000 0 family = Ok (WaitDone EINVAL 0 0, family) ∧ first_hole [] = 0.
Proof. apply (pid_zero_cannot_be_waited_for family family_pids 0x1000 0). exact family_ptab. Defined.
End ProcDemo.

(** * Creating threads: the theorems

    [thread_fork] (src/os161/kern/thread/thread.c) composes the kernel heap, the process table,
    the three thread lists and the scheduler.  [thread_fork_correct] says what a call leaves
    behind, whichever of its allocations fails.  Two concrete runs from a cold boot show where
    the reservations it makes for later use do not hold. *)

From stdpp Require Import base gmap list sorting.
From S2P Require Import Prelude StateM Heap KArray KQueue KState Thread ThreadSpec ThreadHeap.
From S2P Require Import Synch SynchMach SynchThm Process Owned ProcSpec Fork ForkSpec.

Section fork.
Context `{KHeapLaws H} {E : Type} `{!ThreadEnv H E} `{!ThreadEnvLaws H E}.
Implicit Types k : kst H E.
#[local] Set Default Proof Using "All".

(** C24: Forking a thread either fails with an error code, in which case the scheduler, the thread
    count, the interrupt level and every existing thread are as before and every block is still
    owned exactly once (a thread record with no list may be left behind), or succeeds: the new
    thread, with its own stack, the entry point and arguments asked for, the lowest free process id
    and a reference of its own to the current directory, is last on the run queue, the current
    process is its parent, and the sleeping and zombie lists have room for every thread there is.
    With memory for eleven requests the only failure is that all process ids are taken; without,
    it may also fail or panic, and does nothing undefined. *)
Theorem thread_fork_correct k s l O me len data1 data2 func :
  srep k s → counted k s → s_cur s ≠ NULL → ptab k l →
  owned (k_heap k) (sched_blocks k s ++ table_blocks k l ++ O) → fork_fits k l →
  k_threads k !! k_cur k = Some me → (t_cwd me ≠ NULL → vn_held 1 (k_env k) (t_cwd me)) →
  0 ≤ len → len + 1 < kh_max →
  match thread_fork len data1 data2 func k with
  | Ok (a, k') => fork_post 11 k k s l O me data1 data2 func a k'
  | Fault f => f = FPanic ∧ ¬ kh_room 11 (k_heap k)
  end.
Proof.
  intros Hrep Hcnt Hcur Htab Ho Hfits Hme Hcwd Hlen Hmax.
  pose proof (thread_fork_spec k s l O me len data1 data2 func Hrep Hcnt Hcur Htab Ho Hfits Hme Hcwd Hlen Hmax) as Hw.
  unfold wpf in Hw. destruct (thread_fork len data1 data2 func k) as [[a k']|[]]; done.
Qed.

End fork.

(** ** Runs from a cold boot *)
Module ForkDemo.
Import Demo ProcDemo.

(** The family, with thread 100 in the directory 700. *)
Definition family_in : kst refheap refs :=
  set_env {[700 := 1%nat]}
    (set_threads (<[100 := th_set_cwd 700 (demo_thread 100)]> (k_threads family)) family).

Lemma family_in_srep : srep family_in demo_sched.
Proof.
  destruct family_srep as [Hcur Hq Hsl Hz Hnd Hnn Hthr Hm Htl]. constructor; try done.
  - intros t. rewrite Hthr. simpl. rewrite !lookup_insert_is_Some'. tauto.
  - intros t th. simpl. rewrite !lookup_insert_Some, lookup_singleton_Some.
    intros [[<- <-]|[_ [[<- <-]|[_ [[<- <-]|[_ [<- <-]]]]]]]; done.
Qed.

Lemma family_in_ptab : ptab family_in family_pids.
Proof. destruct family_ptab. by constructor. Qed.

Lemma family_in_owned :
  owned (k_heap family_in) (sched_blocks family_in demo_sched ++ table_blocks family_in family_pids ++ []).
Proof.
  split; [apply family_owned|split].
  - by apply (bool_decide_unpack _).
  - intros b Hb. apply elem_of_list_to_set. revert b Hb. apply Forall_forall. by apply (bool_decide_unpack _).
Qed.

Lemma family_in_fits : fork_fits family_in family_pids.
Proof.
  split_and!; try done; split_and!; try done; intros x Hx; by injection Hx as <-.
Qed.

Lemma family_in_held : 700 ≠ NULL → vn_held 1 (k_env family_in) 700.
Proof. intros _. exists 1%nat. split; [reflexivity|lia]. Qed.

Lemma thread_fork_correct_witness :
  ∃ a k', thread_fork 4 1 2 3 family_in = Ok (a, k') ∧ a.1 = 0 ∧
    fork_post 11 family_in family_in demo_sched family_pids [] (th_set_cwd 700 (demo_thread 100)) 1 2 3 a k'.
Proof.
  pose proof (thread_fork_correct family_in demo_sched family_pids [] (th_set_cwd 700 (demo_thread 100)) 4 1 2 3
    family_in_srep eq_refl ltac:(done) family_in_ptab family_in_owned family_in_fits eq_refl family_in_held
    ltac:(lia) eq_refl) as Hw.
  assert (Hroom : kh_room 11 (k_heap family_in)) by (simpl; lia).
  destruct (thread_fork 4 1 2 3 family_in) as [[a k']|f]; [|by destruct Hw as [_ Hr]; destruct Hr].
  exists a, k'. split; [reflexivity|]. split; [|exact Hw].
  destruct Hw as [(_ & _ & [(_ & Hz & _)|Hr])|(Hr & _)]; [discriminate Hz|by destruct Hr|exact Hr].
Defined.

(** The machine at power on, with a heap that serves [b] more requests. *)
Definition power_on (b : nat) : kst refheap refs :=
  KST (ref_empty b) ∅ NULL None None None 0 0 0 15 0 (replicate 64 (0, 0)) ∅ ∅ ∅ ∅ None (0, 0) ∅.

Definition boot : stm (kst refheap refs) unit :=
  _ ← scheduler_bootstrap; _ ← thread_bootstrap; _ ← process_table_bootstrap; _ ← k_spl0; mret tt.

(** [n] forks; the error codes. *)
Fixpoint forks (n : nat) : stm (kst refheap refs) (list Z) :=
  match n with
  | O => mret []
  | S n => a ← thread_fork 4 0 0 0; l ← forks n; mret (a.1 :: l)
  end.

(** [n] new threads run for the first time and yield at once. *)
Fixpoint rounds (n : nat) : stm (kst refheap refs) unit :=
  match n with
  | O => mret tt
  | S n => _ ← thread_yield; _ ← mi_threadstart; rounds n
  end.

(** Boot, fork, let every new thread run until the first thread is back. *)
Definition full_turn (n : nat) : stm (kst refheap refs) (list Z) :=
  _ ← boot; l ← forks n; _ ← rounds n; _ ← thread_yield; _ ← mi_switch_back; mret l.

(** Is the outcome a panic? *)
Definition panics {A S} (m : stm S A) (k : S) : bool :=
  match m k with Fault FPanic => true | _ => false end.

(** After boot and 31 successful forks the run queue holds 31 threads in a ring of 32 slots,
    which is full: [scheduler_preallocate] reserved [numthreads + 1] = 32 slots, one of which a
    ring never uses.  If the heap is then exhausted, a mere [thread_yield] panics. *)
Theorem yield_outgrows_reservation :
  match (_ ← boot; forks 31) (power_on 291) with
  | Ok (l, k) => l = replicate 31 0 ∧ k_num k = 32 ∧ (q_size <$> k_runq k) = Some 32 ∧
                 panics thread_yield k = true
  | Fault _ => False
  end.
Proof. by vm_compute. Qed.

(** [exorcise] empties the zombie list with [array_setsize], which gives the storage of a list
    of more than 16 slots back.  The room [thread_fork] reserved is gone: after 20 successful
    forks and one turn of every thread, 21 threads are alive, the zombie list has no room at all,
    and when the heap is exhausted a [thread_exit] panics. *)
Theorem exorcise_drops_reservation :
  match full_turn 20 (power_on 191) with
  | Ok (l, k) => l = replicate 20 0 ∧ k_num k = 21 ∧ (a_max <$> k_zombies k) = Some 0 ∧
                 panics thread_exit k = true
  | Fault _ => False
  end.
Proof. by vm_compute. Qed.

End ForkDemo.
