(* ===== verification/Uio.v ===== *)
(** * Moving data between the kernel and its callers

    kern/lib/copyinout.c checks user addresses and copies; kern/userprog/uio.c moves bytes
    between a kernel buffer and the region a [struct uio] describes.  A [uio] carries the bytes
    of the object its iovec points into ([u_mem], at address [u_addr]), so a transfer is a
    function of it.  What happens when the kernel touches user memory is decided by the
    processor and the page tables: [um_touch a n] says after how many of the [n] bytes at [a]
    an unresolved fault occurs, if one does. *)

From S2P Require Import Prelude.

Inductive uio_rw_t := UIO_READ | UIO_WRITE.
Inductive uio_seg := UIO_USERSPACE | UIO_SYSSPACE | UIO_USERISPACE.

#[export] Instance uio_rw_eq_dec : EqDecision uio_rw_t.
Proof. solve_decision. Defined.
#[export] Instance uio_seg_eq_dec : EqDecision uio_seg.
Proof. solve_decision. Defined.

Record uio := Uio {
  u_mem : list Z;
  u_addr : Z;
  iov_base : Z;
  iov_len : Z;
  uio_offset : Z;
  uio_resid : Z;
  uio_segflg : uio_seg;
  uio_rw : uio_rw_t;
  uio_space : Z;
}.

Definition uio_set_mem (m : list Z) (u : uio) : uio :=
  Uio m (u_addr u) (iov_base u) (iov_len u) (uio_offset u) (uio_resid u) (uio_segflg u) (uio_rw u)
    (uio_space u).
Definition uio_set_offset (o : Z) (u : uio) : uio :=
  Uio (u_mem u) (u_addr u) (iov_base u) (iov_len u) o (uio_resid u) (uio_segflg u) (uio_rw u)
    (uio_space u).
Definition uio_set_resid (r : Z) (u : uio) : uio :=
  Uio (u_mem u) (u_addr u) (iov_base u) (iov_len u) (uio_offset u) r (uio_segflg u) (uio_rw u)
    (uio_space u).

Record usermem := UserMem {
  um_space : Z;                       (* curthread->t_vmspace *)
  um_touch : Z → Z → option Z;
  um_law : ∀ a n k, um_touch a n = Some k → 0 ≤ k ≤ n;
}.

(** ** copyinout.c *)

Definition USERTOP : Z := 0x80000000.

(** The error code and [*stoplen]. *)
Definition copycheck (userptr len : Z) : Z * Z :=
  let bot := userptr in
  let top := u32 (bot + len - 1) in
  if top <? bot then (EFAULT, len)
  else if bot >=? USERTOP then (EFAULT, len)
  else if top >=? USERTOP then (0, u32 (USERTOP - bot))
  else (0, len).

Section copy.
Variable U : usermem.

(** [src] are the bytes at [usersrc]; they go to index [at_] of the kernel object [dest]. *)
Definition copyin (usersrc : Z) (src dest : list Z) (at_ len : Z) : res (Z * list Z) :=
  let '(result, stoplen) := copycheck usersrc len in
  if negb (result =? 0) then mret (result, dest)
  else if negb (stoplen =? len) then mret (EFAULT, dest)
  else
    match um_touch U usersrc len with
    | Some n => d ← blit dest at_ (sub src 0 n); mret (EFAULT, d)
    | None => s ← slice src 0 len; d ← blit dest at_ s; mret (0, d)
    end.

(** Index [at_] of the kernel object [src]; the bytes go to index [to] of the user region. *)
Definition copyout (src : list Z) (at_ userdest : Z) (dest : list Z) (to len : Z) : res (Z * list Z) :=
  let '(result, stoplen) := copycheck userdest len in
  if negb (result =? 0) then mret (result, dest)
  else if negb (stoplen =? len) then mret (EFAULT, dest)
  else
    match um_touch U userdest len with
    | Some n => d ← blit dest to (sub src at_ n); mret (EFAULT, d)
    | None => s ← slice src at_ len; d ← blit dest to s; mret (0, d)
    end.
End copy.

(** [copystr]: the string that starts [src], with its terminator, into [dest]; the answer
    is the code, [dest] and [*gotlen]. *)
Definition copystr (dest src : list Z) (maxlen stoplen : Z) : res (Z * list Z * Z) :=
  r ← for_loop (Z.to_nat (Z.min maxlen stoplen)) 0 (λ i dest,
        c ← src.[i];
        dest ← dest.[i <- c];
        if c =? 0 then mret (inr (dest, i + 1)) else mret (inl dest)) dest;
  match r with
  | inr (dest, gotlen) => mret (0, dest, gotlen)
  | inl dest => mret (if stoplen <? maxlen then EFAULT else ENAMETOOLONG, dest, 0)
  end.

Definition copyinstr (U : usermem) (usersrc : Z) (src dest : list Z) (len : Z) : res (Z * list Z * Z) :=
  let '(result, stoplen) := copycheck usersrc len in
  if negb (result =? 0) then mret (result, dest, 0)
  else
    match um_touch U usersrc (Z.min len stoplen) with
    | Some n =>
        if bool_decide (0 ∈ sub src 0 n) then copystr dest src len stoplen
        else d ← blit dest 0 (sub src 0 n); mret (EFAULT, d, 0)
    | None => copystr dest src len stoplen
    end.

Definition copyoutstr (U : usermem) (src : list Z) (userdest : Z) (dest : list Z) (len : Z)
    : res (Z * list Z * Z) :=
  let '(result, stoplen) := copycheck userdest len in
  if negb (result =? 0) then mret (result, dest, 0)
  else
    match um_touch U userdest (Z.min len stoplen) with
    | Some n =>
        if bool_decide (0 ∈ sub src 0 n) then copystr dest src len stoplen
        else d ← blit dest 0 (sub src 0 n); mret (EFAULT, d, 0)
    | None => copystr dest src len stoplen
    end.

(** ** uio.c *)

Section uio.
Variable U : usermem.

(** One round of the loop of [uiomove]: [size] bytes between index [at_] of the kernel
    object [buf] and the region. *)
Definition uiomove_chunk (buf : list Z) (at_ size : Z) (u : uio) : res (Z * list Z * list Z) :=
  let pos := iov_base u - u_addr u in
  match uio_segflg u, uio_rw u with
  | UIO_SYSSPACE, UIO_READ => d ← slice buf at_ size; m ← blit (u_mem u) pos d; mret (0, buf, m)
  | UIO_SYSSPACE, UIO_WRITE => d ← slice (u_mem u) pos size; b ← blit buf at_ d; mret (0, b, u_mem u)
  | _, UIO_READ =>
      '(r, m) ← copyout U buf at_ (iov_base u) (u_mem u) pos size; mret (r, buf, m)
  | _, UIO_WRITE =>
      src ← slice (u_mem u) pos (zlen (u_mem u) - pos);
      '(r, b) ← copyin U (iov_base u) src buf at_ size; mret (r, b, u_mem u)
  end.

Definition uiomove (buf : list Z) (at_ n : Z) (u : uio) : res (Z * list Z * uio) :=
  _ ← check (match uio_segflg u with
             | UIO_SYSSPACE => uio_space u =? NULL
             | _ => uio_space u =? um_space U
             end);
  while_loop 3 (λ '(buf, at_, n, u),
    if (n >? 0) && (uio_resid u >? 0) then
      let size := if iov_len u >? n then n else iov_len u in
      if size =? 0 then Fault FPanic
      else
        '(result, buf, m) ← uiomove_chunk buf at_ size u;
        if negb (result =? 0) then mret (inr (result, buf, uio_set_mem m u))
        else
          let u' := Uio m (u_addr u) (u32 (iov_base u + size)) (u32 (iov_len u - size))
                      (s32 (uio_offset u + size)) (u32 (uio_resid u - size))
                      (uio_segflg u) (uio_rw u) (uio_space u) in
          mret (inl (buf, at_ + size, n - size, u'))
    else mret (inr (0, buf, u))) (buf, at_, n, u).

Definition zeros16 : list Z := replicate 16 0.

Definition uiomovezeros (n : Z) (u : uio) : res (Z * uio) :=
  _ ← check (bool_decide (uio_rw u = UIO_READ));
  while_loop (S (Z.to_nat n)) (λ '(n, u),
    if n >? 0 then
      let amt := if 16 >? n then n else 16 in
      '(result, _, u) ← uiomove zeros16 0 amt u;
      if negb (result =? 0) then mret (inr (result, u))
      else mret (inl (n - amt, u))
    else mret (inr (0, u))) (n, u).

Definition mk_kuio (mem : list Z) (kbuf len pos : Z) (rw : uio_rw_t) : uio :=
  Uio mem kbuf kbuf len pos len UIO_SYSSPACE rw NULL.

Definition mk_kuio_pd (mem : list Z) (kbuf memsz filesz pos : Z) (rw : uio_rw_t) : uio :=
  Uio mem kbuf kbuf memsz pos filesz UIO_SYSSPACE rw NULL.

End uio.

(** ** What a transfer does *)

(** The region described by a [uio] lies inside its object, and its fields are in range. *)
Record uio_ok (U : usermem) (u : uio) : Prop := UioOk {
  uo_lo : u_addr u ≤ iov_base u;
  uo_hi : iov_base u + iov_len u ≤ u_addr u + zlen (u_mem u);
  uo_addr : 0 ≤ u_addr u;
  uo_top : u_addr u + zlen (u_mem u) < 2 ^ 32;
  uo_resid : 0 ≤ uio_resid u ≤ iov_len u;
  uo_off : 0 ≤ uio_offset u ∧ uio_offset u + uio_resid u < 2 ^ 31;
  uo_space : uio_space u = match uio_segflg u with UIO_SYSSPACE => NULL | _ => um_space U end;
}.

Abbreviation upos u := (iov_base u - u_addr u).

(** The [uio] after [n] bytes have gone through it, with memory [m]. *)
Definition advance (n : Z) (m : list Z) (u : uio) : uio :=
  Uio m (u_addr u) (iov_base u + n) (iov_len u - n) (uio_offset u + n) (uio_resid u - n)
    (uio_segflg u) (uio_rw u) (uio_space u).

Lemma advance_0 u : advance 0 (u_mem u) u = u.
Proof. destruct u. unfold advance. simpl. f_equal; lia. Qed.

Lemma advance_advance n m n' m' u : advance n' m' (advance n m u) = advance (n + n') m' u.
Proof. unfold advance. simpl. f_equal; lia. Qed.

Lemma advance_ok U n m u :
  uio_ok U u → 0 ≤ n ≤ uio_resid u → length m = length (u_mem u) → uio_ok U (advance n m u).
Proof. intros [] Hn Hm. constructor; simpl; rewrite ?Hm; try lia; done. Qed.

Lemma uio_set_mem_ok U m u : uio_ok U u → length m = length (u_mem u) → uio_ok U (uio_set_mem m u).
Proof. intros [] Hm. constructor; simpl; rewrite ?Hm; try lia; done. Qed.

(** The effect of a transfer of [n] bytes on the kernel object and on the region. *)
Definition moved_buf (buf : list Z) (at_ n : Z) (u : uio) : list Z :=
  match uio_rw u with UIO_READ => buf | UIO_WRITE => splice buf at_ (sub (u_mem u) (upos u) n) end.
Definition moved_mem (buf : list Z) (at_ n : Z) (u : uio) : list Z :=
  match uio_rw u with UIO_READ => splice (u_mem u) (upos u) (sub buf at_ n) | UIO_WRITE => u_mem u end.

(** A transfer that stops half way may have written some of the bytes. *)
Definition move_failed (buf : list Z) (at_ n : Z) (u : uio) (r : Z) (buf' : list Z) (u' : uio) : Prop :=
  r = EFAULT ∧ uio_segflg u ≠ UIO_SYSSPACE ∧ length buf' = length buf ∧
  match uio_rw u with
  | UIO_READ => buf' = buf ∧ ∃ j, 0 ≤ j ≤ n ∧ u' = uio_set_mem (splice (u_mem u) (upos u) (sub buf at_ j)) u
  | UIO_WRITE => u' = u
  end.

Section spec.
Variable U : usermem.

Lemma length_moved_mem buf at_ n u :
  uio_ok U u → 0 ≤ n ≤ uio_resid u → 0 ≤ at_ → at_ + n ≤ zlen buf →
  length (moved_mem buf at_ n u) = length (u_mem u).
Proof.
  intros [] Hn Ha Hb. unfold moved_mem. destruct (uio_rw u); [|done].
  apply length_splice; [lia|]. rewrite length_sub by lia. lia.
Qed.

Lemma length_moved_buf buf at_ n u :
  uio_ok U u → 0 ≤ n ≤ uio_resid u → 0 ≤ at_ → at_ + n ≤ zlen buf →
  length (moved_buf buf at_ n u) = length buf.
Proof.
  intros [] Hn Ha Hb. unfold moved_buf. destruct (uio_rw u); [done|].
  apply length_splice; [lia|]. rewrite length_sub by lia. lia.
Qed.

Lemma copyout_spec buf at_ u n :
  uio_ok U u → 0 ≤ n ≤ iov_len u → 0 ≤ at_ → at_ + n ≤ zlen buf →
  wp (copyout U buf at_ (iov_base u) (u_mem u) (upos u) n) (λ '(r, m),
    (r = 0 ∧ m = splice (u_mem u) (upos u) (sub buf at_ n)) ∨
    (r = EFAULT ∧ ∃ j, 0 ≤ j ≤ n ∧ m = splice (u_mem u) (upos u) (sub buf at_ j))).
Proof.
  intros [] Hn Ha Hb. unfold copyout. assert (u_mem u = splice (u_mem u) (upos u) (sub buf at_ 0)) as Hnop.
  { by rewrite sub_0, splice_nil. } destruct (copycheck _ _) as [c stoplen] eqn:Hc.
  assert (c = 0 ∨ c = EFAULT) as Hcv.
  { unfold copycheck in Hc. repeat case_match; simplify_eq; auto. }
  destruct (negb (c =? 0)) eqn:E1; [wp_val; right; split; [lia|exists 0; split; [lia|done]]|].
  destruct (negb (stoplen =? n)) eqn:E2; [wp_val; right; split; [done|exists 0; split; [lia|done]]|].
  destruct (um_touch U (iov_base u) n) as [k|] eqn:Et.
  - apply um_law in Et. rewrite wp_bind. apply wp_blit; rewrite ?length_sub; [lia..|].
    wp_val. right. split; [done|]. by exists k.
  - rewrite wp_bind. apply wp_slice; [lia..|]. rewrite wp_bind.
    apply wp_blit; rewrite ?length_sub; [lia..|]. wp_val. by left.
Qed.

Lemma copyin_spec buf at_ u n :
  uio_ok U u → 0 ≤ n ≤ iov_len u → 0 ≤ at_ → at_ + n ≤ zlen buf →
  wp (copyin U (iov_base u) (sub (u_mem u) (upos u) (zlen (u_mem u) - upos u)) buf at_ n) (λ '(r, b),
    (r = 0 ∧ b = splice buf at_ (sub (u_mem u) (upos u) n)) ∨
    (r = EFAULT ∧ length b = length buf)).
Proof.
  intros [] Hn Ha Hb. unfold copyin. destruct (copycheck _ _) as [c stoplen] eqn:Hc.
  assert (c = 0 ∨ c = EFAULT) as Hcv.
  { unfold copycheck in Hc. repeat case_match; simplify_eq; auto. }
  destruct (negb (c =? 0)) eqn:E1; [wp_val; right; split; [lia|done]|].
  destruct (negb (stoplen =? n)) eqn:E2; [wp_val; by right|].
  destruct (um_touch U (iov_base u) n) as [k|] eqn:Et.
  - apply um_law in Et. rewrite sub_sub by lia. rewrite wp_bind.
    apply wp_blit; rewrite ?length_sub; [lia..|].
    wp_val. right. split; [done|]. apply length_splice; rewrite ?length_sub; lia.
  - rewrite wp_bind. apply wp_slice; rewrite ?length_sub; [lia..|]. rewrite sub_sub by lia.
    rewrite wp_bind, Z.add_0_r. apply wp_blit; rewrite ?length_sub; [lia..|]. wp_val. by left.
Qed.

Lemma uiomove_chunk_spec buf at_ n u :
  uio_ok U u → 0 ≤ n ≤ iov_len u → 0 ≤ at_ → at_ + n ≤ zlen buf →
  wp (uiomove_chunk U buf at_ n u) (λ '(r, b, m),
    (r = 0 ∧ b = moved_buf buf at_ n u ∧ m = moved_mem buf at_ n u) ∨
    (r ≠ 0 ∧ move_failed buf at_ n u r b (uio_set_mem m u))).
Proof.
  intros Hok Hn Ha Hb. pose proof Hok as [Hlo Hhi _ _ _ _ _].
  unfold uiomove_chunk, moved_buf, moved_mem, move_failed.
  destruct (uio_segflg u) eqn:Es, (uio_rw u) eqn:Er.
  all: rewrite !wp_bind.
  3, 4: apply wp_slice; [lia..|]; rewrite wp_bind; apply wp_blit; rewrite ?length_sub;
    [lia..|]; wp_val; by left.
  1, 3: eapply wp_mono; [by apply copyout_spec|]; intros [r m] [[-> ->]|(-> & j & Hj & ->)]; wp_val;
    [by left|right; split_and!; try done; by exists j].
  all: apply wp_slice; [lia..|]; rewrite wp_bind; eapply wp_mono; [by apply copyin_spec|];
    intros [r b] [[-> ->]|[-> Hm]]; wp_val; [by left|right; split_and!; try done; by destruct u].
Qed.

(** A transfer of at most what is left moves all of it, or fails at a bad user address. *)
Lemma uiomove_spec buf at_ n u :
  uio_ok U u → 0 ≤ n ≤ uio_resid u → 0 ≤ at_ → at_ + n ≤ zlen buf →
  wp (uiomove U buf at_ n u) (λ '(r, b, u'),
    (r = 0 ∧ b = moved_buf buf at_ n u ∧ u' = advance n (moved_mem buf at_ n u) u) ∨
    (r ≠ 0 ∧ move_failed buf at_ n u r b u')).
Proof.
  intros Hok Hn Ha Hb. pose proof Hok as [Hlo Hhi Had Htop Hres Hoff Hsp]. unfold uiomove.
  rewrite wp_bind, wp_check. split.
  { rewrite Hsp. destruct (uio_segflg u); by rewrite Z.eqb_refl. }
  rewrite while_loop_S. destruct (decide (n = 0)) as [->|Hn0].
  { simpl. wp_step. left. unfold moved_buf, moved_mem.
    by destruct (uio_rw u); rewrite !sub_0, splice_nil, advance_0. }
  replace ((n >? 0) && (uio_resid u >? 0)) with true by lia.
  replace (if iov_len u >? n then n else iov_len u) with n by (destruct (iov_len u >? n) eqn:E; lia).
  replace (n =? 0) with false by lia.
  rewrite !wp_bind. wp_call uiomove_chunk_spec; [done|lia..|].
  intros [[r b] m] [(-> & -> & ->)|[Hr Hf]].
  - simpl negb. wp_step. rewrite while_loop_S, Z.sub_diag. simpl.
    wp_step. left. split_and!; try done. unfold advance. f_equal.
    + rewrite u32_id; [done|]. in_range.
    + rewrite u32_id; [done|]. in_range.
    + rewrite s32_id; [done|]. unfold is_s32. lia.
    + rewrite u32_id; [done|]. in_range.
  - replace (negb (r =? 0)) with true by lia. wp_step. by right.
Qed.

(** Reading the bytes [dat] into the region: all of them, or a first part and an error; what
    is written is always a first part of [dat], at least as long as what is counted. *)
Definition read_into (u : uio) (dat : list Z) (r : Z) (u' : uio) : Prop :=
  ∃ k j, 0 ≤ k ≤ j ∧ j ≤ zlen dat ∧ u' = advance k (splice (u_mem u) (upos u) (sub dat 0 j)) u ∧
    (r = 0 → k = zlen dat) ∧ (r = 0 ∨ (r = EFAULT ∧ uio_segflg u ≠ UIO_SYSSPACE)).

Lemma read_into_nil u : uio_ok U u → read_into u [] 0 u.
Proof.
  intros []. exists 0, 0. split_and!; try done; [|by left]. rewrite sub_0, splice_nil. symmetry. apply advance_0.
Qed.

Lemma read_into_done u dat u' :
  read_into u dat 0 u' → u' = advance (zlen dat) (splice (u_mem u) (upos u) dat) u.
Proof.
  intros (k & j & Hk & Hj & -> & Hd & _). rewrite Hd in * by done. replace j with (zlen dat) by lia.
  by rewrite sub_all.
Qed.

Lemma read_into_ok u dat r u' :
  uio_ok U u → zlen dat ≤ uio_resid u → read_into u dat r u' → uio_ok U u'.
Proof.
  intros Hok Hd (k & j & Hk & Hj & -> & _). apply advance_ok; [done|lia|].
  destruct Hok. apply length_splice; rewrite ?length_sub; lia.
Qed.

(** Reading on after a read that went well. *)
Lemma read_into_app u dat dat' u1 r u2 :
  uio_ok U u → zlen dat + zlen dat' ≤ uio_resid u →
  read_into u dat 0 u1 → read_into u1 dat' r u2 → read_into u (dat ++ dat') r u2.
Proof.
  intros [Hlo Hhi _ _ Hres _ _] Hd ->%read_into_done (k & j & Hk & Hj & -> & Hr & Hc).
  exists (zlen dat + k), (zlen dat + j). rewrite !length_app. split_and!; [lia..| | |done].
  - rewrite advance_advance. simpl. f_equal.
    replace (iov_base u + zlen dat - u_addr u) with (upos u + zlen dat) by lia.
    rewrite splice_splice by (rewrite ?length_sub; lia). f_equal. unfold sub. simpl.
    rewrite !drop_0, take_app. f_equal; [symmetry; apply take_ge; lia|]. f_equal. lia.
  - intros H0%Hr. lia.
Qed.

Lemma read_into_more u dat dat' r u' :
  r ≠ 0 → read_into u dat r u' → read_into u (dat ++ dat') r u'.
Proof.
  intros Hr (k & j & Hk & Hj & -> & _ & Hc). exists k, j. rewrite length_app. split_and!; [lia..| |done|done].
  f_equal. f_equal. unfold sub. simpl. rewrite !drop_0. by rewrite take_app_le by lia.
Qed.

Lemma uiomove_read buf at_ n u :
  uio_ok U u → uio_rw u = UIO_READ → 0 ≤ n ≤ uio_resid u → 0 ≤ at_ → at_ + n ≤ zlen buf →
  wp (uiomove U buf at_ n u) (λ '(r, b, u'), read_into u (sub buf at_ n) r u').
Proof.
  intros Hok Hr Hn Ha Hb. eapply wp_mono; [by apply uiomove_spec|].
  intros [[r b] u']. unfold moved_mem, move_failed, read_into. rewrite Hr, length_sub by lia.
  intros [(-> & _ & ->)|(H0 & -> & Hs & _ & _ & j & Hj & ->)].
  - exists n, n. rewrite sub_sub by lia. rewrite Z.add_0_r. split_and!; try done; try lia.
  - exists 0, j. rewrite sub_sub by lia. rewrite Z.add_0_r. split_and!; try done; try lia; [|by right].
    unfold uio_set_mem, advance. f_equal; lia.
Qed.

Lemma uiomovezeros_spec n u :
  uio_ok U u → uio_rw u = UIO_READ → 0 ≤ n ≤ uio_resid u →
  wp (uiomovezeros U n u) (λ '(r, u'), read_into u (replicate (Z.to_nat n) 0) r u').
Proof.
  intros Hok Hrw Hn. unfold uiomovezeros. rewrite wp_bind, wp_check.
  split; [by apply bool_decide_eq_true|].
  apply (wp_while_loop (λ '(m, v), 0 ≤ m ≤ n ∧ uio_rw v = UIO_READ ∧
      read_into u (replicate (Z.to_nat (n - m)) 0) 0 v) _ (λ '(m, _), Z.to_nat m)).
  { split; [lia|]. split; [done|]. rewrite Z.sub_diag. by apply read_into_nil. }
  { simpl. lia. }
  intros [m v] (Hm & Hv & Hi).
  assert (uio_ok U v) as Hvok.
  { eapply read_into_ok; [done| |done]. rewrite length_replicate. lia. }
  assert (uio_resid v = uio_resid u - (n - m)) as Hres.
  { apply read_into_done in Hi as ->. simpl. rewrite length_replicate. lia. }
  destruct (m >? 0) eqn:E.
  - set (amt := if 16 >? m then m else 16).
    assert (0 < amt ≤ m ∧ amt ≤ 16) as Hamt by (unfold amt; destruct (16 >? m) eqn:?; lia).
    wp_call uiomove_read; [done|done|lia|lia|unfold zeros16; simpl; lia|].
    intros [[r b] v']. replace (sub zeros16 0 amt) with (replicate (Z.to_nat amt) 0).
    2:{ unfold sub, zeros16. rewrite drop_0, take_replicate. f_equal. lia. }
    intros Hr'. destruct (negb (r =? 0)) eqn:E0; wp_val; simpl.
    + replace (Z.to_nat n) with (Z.to_nat (n - m) + (Z.to_nat amt + Z.to_nat (m - amt)))%nat by lia.
      rewrite !replicate_add, app_assoc. apply read_into_more; [lia|].
      eapply read_into_app; [done| |done|done]. rewrite !length_replicate. lia.
    + replace r with 0 in * by lia. split; [|lia]. split; [lia|]. split.
      { apply read_into_done in Hr' as ->. done. }
      replace (Z.to_nat (n - (m - amt))) with (Z.to_nat (n - m) + Z.to_nat amt)%nat by lia.
      rewrite replicate_add. eapply read_into_app; [done| |done|done]. rewrite !length_replicate. lia.
  - wp_val. simpl. replace (Z.to_nat n) with (Z.to_nat (n - m)) by lia. done.
Qed.
End spec.
