(* ===== verification/SfsDisk.v ===== *)
(** * Disk blocks (kern/dev/lamebus/lhd.c, kern/fs/sfs/sfs_io.c)

    [disk] is the LAMEbus disk: its sectors, and what the hardware will answer to the operations
    to come ([d_hw]: the status register, and what a write that fails leaves in the sector; once
    the list is used up every operation succeeds).  [lhd_io] is the driver, [sfs_rwblock],
    [sfs_rblock] and [sfs_wblock] the block layer of the file system on top of it.  The driver
    owns the card while it works (its semaphores), so an operation is one step; the card's
    buffer is filled before it is read in every operation and is not kept. *)

From S2P Require Import Prelude Uio.

Definition LHD_SECTSIZE : Z := 512.
Definition LHD_OK : Z := 4.
Definition LHD_INVSECT : Z := 12.
Definition LHD_MEDIA : Z := 20.
Definition LHD_STATEMASK : Z := 0x1d.

Record disk := Disk {
  d_blocks : Z;
  d_sect : list (list Z);
  d_hw : list (Z * list Z);
}.

Definition set_sect (s : list (list Z)) (d : disk) : disk := Disk (d_blocks d) s (d_hw d).

Definition lhd_code_to_errno (code : Z) : Z :=
  let c := Z.land code LHD_STATEMASK in
  if c =? LHD_OK then 0
  else if c =? LHD_INVSECT then EINVAL
  else if c =? LHD_MEDIA then EIO
  else EAGAIN.

(** The interrupt that completes an operation comes only for these codes. *)
Definition lhd_irq_completes (code : Z) : bool :=
  let c := Z.land code LHD_STATEMASK in
  (c =? LHD_OK) || (c =? LHD_INVSECT) || (c =? LHD_MEDIA).

(** The card performs an operation on a sector: the error number the interrupt handler stores
    in [lh_result], the card's buffer and the disk. *)
Definition lhd_start (rw : uio_rw_t) (sector : Z) (buf : list Z) (d : disk) : res (Z * list Z * disk) :=
  let '(code, left_, hw) :=
    match d_hw d with [] => (LHD_OK, [], []) | (c, l) :: hw => (c, l, hw) end in
  if negb (lhd_irq_completes code) then Fault FLoop
  else
    let result := lhd_code_to_errno code in
    let d := Disk (d_blocks d) (d_sect d) hw in
    match rw with
    | UIO_READ =>
        if result =? 0 then s ← (d_sect d).[sector]; mret (result, s, d)
        else mret (result, buf, d)
    | UIO_WRITE =>
        s ← (d_sect d).[sector <- if result =? 0 then buf else left_];
        mret (result, buf, set_sect s d)
    end.

Definition card_buffer : list Z := replicate 512 0.

Section driver.
Variable U : usermem.

(** One round of the loop of [lhd_io]. *)
Definition lhd_sector (sector : Z) (u : uio) (d : disk) : res (Z * uio * disk) :=
  match uio_rw u with
  | UIO_WRITE =>
      '(result, buf, u) ← uiomove U card_buffer 0 LHD_SECTSIZE u;
      if negb (result =? 0) then mret (result, u, d)
      else
        '(result, _, d) ← lhd_start UIO_WRITE sector buf d;
        mret (result, u, d)
  | UIO_READ =>
      '(result, buf, d) ← lhd_start UIO_READ sector card_buffer d;
      if result =? 0 then
        '(result, _, u) ← uiomove U buf 0 LHD_SECTSIZE u;
        mret (result, u, d)
      else mret (result, u, d)
  end.

Definition lhd_io (u : uio) (d : disk) : res (Z * uio * disk) :=
  let sector := u32 (Z.quot (uio_offset u) LHD_SECTSIZE) in
  let sectoff := u32 (Z.rem (uio_offset u) LHD_SECTSIZE) in
  let len := uio_resid u / LHD_SECTSIZE in
  let lenoff := uio_resid u mod LHD_SECTSIZE in
  if negb (sectoff =? 0) || negb (lenoff =? 0) then mret (EINVAL, u, d)
  else if u32 (sector + len) >? d_blocks d then mret (EINVAL, u, d)
  else
    r ← for_loop (Z.to_nat len) 0 (λ i '(u, d),
          '(result, u, d) ← lhd_sector (u32 (sector + i)) u d;
          if negb (result =? 0) then mret (inr (result, u, d)) else mret (inl (u, d))) (u, d);
    match r with
    | inl (u, d) => mret (0, u, d)
    | inr x => mret x
    end.

(** ** sfs_io.c *)

Definition SFS_BLOCKSIZE : Z := 512.

Definition sfs_rwblock (u : uio) (d : disk) : res (Z * uio * disk) :=
  while_loop 12 (λ '(tries, u, d),
    '(result, u, d) ← lhd_io u d;
    if result =? EINVAL then Fault FPanic
    else if (result =? EIO) && (tries <? 10) then mret (inl (tries + 1, u, d))
    else mret (inr (result, u, d))) (0, u, d).

(** Where the kernel's buffers are makes no difference to a transfer. *)
Definition KBUF : Z := 0x80000000.

Definition SFSUIO (data : list Z) (block : Z) (rw : uio_rw_t) : uio :=
  mk_kuio data KBUF SFS_BLOCKSIZE (s32 (s32 block * SFS_BLOCKSIZE)) rw.

(** The code, the buffer and the disk. *)
Definition sfs_rblock (data : list Z) (block : Z) (d : disk) : res (Z * list Z * disk) :=
  '(result, ku, d) ← sfs_rwblock (SFSUIO data block UIO_READ) d;
  mret (result, u_mem ku, d).

Definition sfs_wblock (data : list Z) (block : Z) (d : disk) : res (Z * disk) :=
  '(result, _, d) ← sfs_rwblock (SFSUIO data block UIO_WRITE) d;
  mret (result, d).
End driver.

(** ** What they do *)

Record disk_ok (d : disk) : Prop := DiskOk {
  do_blocks : zlen (d_sect d) = d_blocks d;
  do_max : d_blocks d < 2 ^ 22;
  do_sect : Forall (λ s, length s = 512%nat) (d_sect d);
}.

(** The contents of a block. *)
Definition sector (d : disk) (b : Z) : list Z := default [] (d_sect d !! Z.to_nat b).
Definition put_sector (b : Z) (s : list Z) (d : disk) : disk :=
  set_sect (<[Z.to_nat b := s]> (d_sect d)) d.

Lemma sector_lookup d b :
  disk_ok d → 0 ≤ b < d_blocks d → d_sect d !! Z.to_nat b = Some (sector d b).
Proof.
  intros [Hl _ _] Hb. unfold sector.
  destruct (lookup_lt_is_Some_2 (d_sect d) (Z.to_nat b)) as [s Hs]; [lia|]. by rewrite Hs.
Qed.

Lemma length_sector d b : disk_ok d → 0 ≤ b < d_blocks d → length (sector d b) = 512%nat.
Proof.
  intros Hd Hb. pose proof (sector_lookup d b Hd Hb) as Hs. destruct Hd as [_ _ Hf].
  by eapply Forall_lookup_1 in Hf.
Qed.

Lemma put_sector_ok d b s : disk_ok d → length s = 512%nat → disk_ok (put_sector b s d).
Proof.
  intros [Hl Hm Hf] Hs. constructor; simpl; [by rewrite length_insert|done|]. by apply Forall_insert.
Qed.

Lemma sector_put d b s b' :
  disk_ok d → 0 ≤ b < d_blocks d → 0 ≤ b' →
  sector (put_sector b s d) b' = if decide (b' = b) then s else sector d b'.
Proof.
  intros Hd Hb Hb'. unfold sector, put_sector. simpl. destruct (decide _) as [->|Hne].
  - rewrite list_lookup_insert_eq; [done|]. destruct Hd. lia.
  - by rewrite list_lookup_insert_ne by lia.
Qed.

Section spec.
Variable U : usermem.

(** A request for one block is one round of the driver. *)
Lemma lhd_io_block u d b :
  disk_ok d → 0 ≤ b < d_blocks d → uio_offset u = 512 * b → uio_resid u = 512 →
  lhd_io U u d = lhd_sector U b u d.
Proof.
  intros [_ Hm _] Hb Ho Hr. unfold lhd_io. rewrite Ho, Hr. unfold LHD_SECTSIZE.
  change (512 / 512) with 1. change (512 mod 512) with 0.
  rewrite (Z.mul_comm 512 b), Z.quot_mul, Z.rem_mul by lia.
  rewrite (u32_id b) by in_range. change (u32 0) with 0. simpl negb. simpl orb.
  rewrite (u32_id (b + 1)) by in_range.
  replace (b + 1 >? d_blocks d) with false by lia. change (Z.to_nat 1) with 1%nat.
  unfold for_loop. rewrite Z.add_0_r, (u32_id b) by in_range.
  unfold mbind, res_bind. destruct (lhd_sector U b u d) as [[[r u'] d']|]; [|done].
  destruct (r =? 0) eqn:E; simpl; [|done]. by replace r with 0 by lia.
Qed.

(** ** A disk that does not fail *)

Definition healthy (d : disk) : Prop := d_hw d = [].

Lemma lhd_start_read d b buf :
  disk_ok d → healthy d → 0 ≤ b < d_blocks d → lhd_start UIO_READ b buf d = Ok (0, sector d b, d).
Proof.
  intros Hd Hh Hb. unfold lhd_start. rewrite Hh. simpl.
  assert (getz (d_sect d) b = Ok (sector d b)) as Hg.
  { apply getz_lookup. split; [lia|]. by apply sector_lookup. }
  rewrite Hg. simpl. unfold mret, res_ret. rewrite <- Hh. by destruct d.
Qed.

Lemma lhd_start_write d b buf :
  disk_ok d → healthy d → 0 ≤ b < d_blocks d →
  lhd_start UIO_WRITE b buf d = Ok (0, buf, put_sector b buf d).
Proof.
  intros [Hl _ _] Hh Hb. unfold lhd_start. rewrite Hh. simpl.
  assert (setz (d_sect d) b buf = Ok (<[Z.to_nat b := buf]> (d_sect d))) as Hg.
  { apply setz_Ok. split; [lia|done]. }
  rewrite Hg. simpl. unfold mret, res_ret, put_sector, set_sect. simpl. by rewrite Hh.
Qed.

(** What a write through [u] puts on the disk: all or nothing. *)
Definition block_written (u : uio) (d : disk) (b r : Z) (u' : uio) (d' : disk) : Prop :=
  (r = 0 ∧ u' = advance 512 (u_mem u) u ∧ d' = put_sector b (sub (u_mem u) (upos u) 512) d) ∨
  (r = EFAULT ∧ uio_segflg u ≠ UIO_SYSSPACE ∧ u' = u ∧ d' = d).

Lemma lhd_write_block u d b :
  disk_ok d → healthy d → 0 ≤ b < d_blocks d → uio_ok U u → uio_rw u = UIO_WRITE →
  uio_offset u = 512 * b → uio_resid u = 512 →
  wp (lhd_io U u d) (λ '(r, u', d'), block_written u d b r u' d').
Proof.
  intros Hd Hh Hb Hu Hw Ho Hr. rewrite (lhd_io_block u d b) by done. unfold lhd_sector. rewrite Hw.
  wp_call uiomove_spec; [done|unfold LHD_SECTSIZE; lia|lia|done|].
  intros [[r buf] u']. unfold moved_buf, moved_mem, move_failed. rewrite Hw.
  intros [(-> & -> & ->)|(Hr0 & -> & Hs & _ & ->)].
  - simpl. rewrite lhd_start_write by done. wp_val. left. split_and!; try done. f_equal.
    apply splice_all. pose proof (length_sub (u_mem u) (upos u) 512) as Hl. destruct Hu.
    unfold card_buffer, LHD_SECTSIZE. rewrite length_replicate. lia.
  - simpl. wp_val. by right.
Qed.

Lemma lhd_read_block u d b :
  disk_ok d → healthy d → 0 ≤ b < d_blocks d → uio_ok U u → uio_rw u = UIO_READ →
  uio_offset u = 512 * b → uio_resid u = 512 →
  wp (lhd_io U u d) (λ '(r, u', d'), d' = d ∧ read_into u (sector d b) r u').
Proof.
  intros Hd Hh Hb Hu Hw Ho Hr. rewrite (lhd_io_block u d b) by done. unfold lhd_sector. rewrite Hw.
  rewrite lhd_start_read by done. rewrite wp_bind. wp_val. simpl.
  pose proof (length_sector d b Hd Hb) as Hl.
  wp_call uiomove_read; [done|done|unfold LHD_SECTSIZE; lia|done|unfold LHD_SECTSIZE; lia|].
  intros [[r b'] u'] Hi. wp_val. split; [done|].
  replace (sub (sector d b) 0 LHD_SECTSIZE) with (sector d b) in Hi; [done|].
  rewrite <- (sub_all (sector d b)) at 1. by rewrite Hl.
Qed.

(** The block layer answers as the driver does when the driver's answer is not one it retries. *)
Lemma rwblock_once u d r u' d' :
  lhd_io U u d = Ok (r, u', d') → r ≠ EINVAL → r ≠ EIO → sfs_rwblock U u d = Ok (r, u', d').
Proof.
  intros Hio H1 H2. unfold sfs_rwblock. rewrite while_loop_S. unfold mbind, res_bind. rewrite Hio.
  replace (r =? EINVAL) with false by lia. by replace (r =? EIO) with false by lia.
Qed.

Lemma rwblock_write u d b :
  disk_ok d → healthy d → 0 ≤ b < d_blocks d → uio_ok U u → uio_rw u = UIO_WRITE →
  uio_offset u = 512 * b → uio_resid u = 512 →
  wp (sfs_rwblock U u d) (λ '(r, u', d'), block_written u d b r u' d').
Proof.
  intros Hd Hh Hb Hu Hw Ho Hr.
  destruct (proj1 (wp_exists _ _) (lhd_write_block u d b Hd Hh Hb Hu Hw Ho Hr)) as ([[r u'] d'] & Hio & Hp).
  rewrite (rwblock_once _ _ _ _ _ Hio); [done|..]; destruct Hp as [[-> _]|[-> _]]; done.
Qed.

Lemma rwblock_read u d b :
  disk_ok d → healthy d → 0 ≤ b < d_blocks d → uio_ok U u → uio_rw u = UIO_READ →
  uio_offset u = 512 * b → uio_resid u = 512 →
  wp (sfs_rwblock U u d) (λ '(r, u', d'), d' = d ∧ read_into u (sector d b) r u').
Proof.
  intros Hd Hh Hb Hu Hw Ho Hr.
  destruct (proj1 (wp_exists _ _) (lhd_read_block u d b Hd Hh Hb Hu Hw Ho Hr)) as ([[r u'] d'] & Hio & Hp).
  rewrite (rwblock_once _ _ _ _ _ Hio); [done|..];
    destruct Hp as (_ & k & j & _ & _ & _ & _ & [->|[-> _]]); done.
Qed.

Lemma SFSUIO_ok data b rw :
  length data = 512%nat → 0 ≤ b < 2 ^ 22 - 1 →
  uio_ok U (SFSUIO data b rw) ∧ uio_offset (SFSUIO data b rw) = 512 * b.
Proof.
  intros Hl Hb. assert (s32 (s32 b * SFS_BLOCKSIZE) = 512 * b) as Hs.
  { unfold SFS_BLOCKSIZE. rewrite (s32_id b) by in_range. rewrite s32_id; [lia|]. unfold is_s32. lia. }
  split; [|done]. unfold SFSUIO, mk_kuio. rewrite Hs.
  constructor; simpl; unfold SFS_BLOCKSIZE, KBUF; rewrite ?Hl; try lia; try done.
Qed.

Lemma rblock_spec data d b :
  disk_ok d → healthy d → 0 ≤ b < d_blocks d → length data = 512%nat →
  sfs_rblock U data b d = Ok (0, sector d b, d).
Proof.
  intros Hd Hh Hb Hl. pose proof (do_max _ Hd) as Hm.
  destruct (SFSUIO_ok data b UIO_READ Hl) as [Hu Ho]; [lia|].
  destruct (proj1 (wp_exists _ _) (rwblock_read _ d b Hd Hh Hb Hu eq_refl Ho eq_refl))
    as ([[r u'] d'] & Hio & -> & Hp).
  unfold sfs_rblock, mbind, res_bind. rewrite Hio.
  assert (r = 0) as -> by (destruct Hp as (_ & _ & _ & _ & _ & _ & [->|[_ Hn]]); done).
  apply read_into_done in Hp as ->. simpl. pose proof (length_sector d b Hd Hb).
  by rewrite Z.sub_diag, splice_all by lia.
Qed.

Lemma wblock_spec data d b :
  disk_ok d → healthy d → 0 ≤ b < d_blocks d → length data = 512%nat →
  sfs_wblock U data b d = Ok (0, put_sector b data d).
Proof.
  intros Hd Hh Hb Hl. pose proof (do_max _ Hd) as Hm.
  destruct (SFSUIO_ok data b UIO_WRITE Hl) as [Hu Ho]; [lia|].
  destruct (proj1 (wp_exists _ _) (rwblock_write _ d b Hd Hh Hb Hu eq_refl Ho eq_refl))
    as ([[r u'] d'] & Hio & Hp).
  unfold sfs_wblock, mbind, res_bind. rewrite Hio. simpl.
  destruct Hp as [(-> & _ & ->)|(_ & Hn & _)]; [|done]. simpl. rewrite Z.sub_diag.
  replace 512 with (zlen data) by lia. by rewrite sub_all.
Qed.

(** ** Media errors *)

Definition with_hw (hw : list (Z * list Z)) (d : disk) : disk := Disk (d_blocks d) (d_sect d) hw.

Lemma lhd_read_media u d b l hw :
  disk_ok d → 0 ≤ b < d_blocks d → uio_rw u = UIO_READ → uio_offset u = 512 * b → uio_resid u = 512 →
  lhd_io U u (with_hw ((LHD_MEDIA, l) :: hw) d) = Ok (EIO, u, with_hw hw d).
Proof.
  intros Hd Hb Hw Ho Hr. rewrite (lhd_io_block _ _ b) by (try done; by destruct Hd).
  unfold lhd_sector. rewrite Hw. done.
Qed.

Lemma rblock_retries data d b l (n : nat) tries fuel :
  disk_ok d → healthy d → 0 ≤ b < d_blocks d → length data = 512%nat →
  0 ≤ tries → tries + Z.of_nat n ≤ 10 → (n < fuel)%nat →
  while_loop fuel (λ '(tries, u, d),
    '(result, u, d) ← lhd_io U u d;
    if result =? EINVAL then Fault FPanic
    else if (result =? EIO) && (tries <? 10) then mret (inl (tries + 1, u, d))
    else mret (inr (result, u, d))) (tries, SFSUIO data b UIO_READ, with_hw (replicate n (LHD_MEDIA, l)) d)
  = sfs_rwblock U (SFSUIO data b UIO_READ) d.
Proof.
  intros Hd Hh Hb Hl. pose proof (do_max _ Hd) as Hm.
  destruct (SFSUIO_ok data b UIO_READ Hl) as [Hu Ho]; [lia|].
  revert tries fuel. induction n as [|n IH]; intros tries [|fuel] Ht Hn Hf; try lia.
  - replace (with_hw (replicate 0 (LHD_MEDIA, l)) d) with d
      by (destruct d; unfold healthy in Hh; simpl in *; by subst).
    destruct (proj1 (wp_exists _ _) (lhd_read_block _ d b Hd Hh Hb Hu eq_refl Ho eq_refl))
      as ([[r u'] d'] & Hio & Hp).
    rewrite (rwblock_once _ _ _ _ _ Hio).
    + rewrite while_loop_S. unfold mbind, res_bind. rewrite Hio.
      by destruct Hp as (_ & k & j & _ & _ & _ & _ & [->|[-> _]]).
    + by destruct Hp as (_ & k & j & _ & _ & _ & _ & [->|[-> _]]).
    + by destruct Hp as (_ & k & j & _ & _ & _ & _ & [->|[-> _]]).
  - rewrite while_loop_S. simpl replicate. unfold mbind, res_bind.
    rewrite (lhd_read_media _ d b) by done. simpl. replace (tries <? 10) with true by lia.
    apply IH; lia.
Qed.
End spec.

(** Up to ten media errors in a row do not disturb a block read: it is tried again and
    answers the contents of the block. *)
Theorem read_survives_media_errors U data d b l (n : nat) :
  disk_ok d → healthy d → 0 ≤ b < d_blocks d → length data = 512%nat → (n ≤ 10)%nat →
  sfs_rblock U data b (with_hw (replicate n (LHD_MEDIA, l)) d) = Ok (0, sector d b, d).
Proof.
  intros Hd Hh Hb Hl Hn. rewrite <- (rblock_spec U data d b) by done. unfold sfs_rblock.
  unfold sfs_rwblock at 1. rewrite (rblock_retries U data d b l n 0 12) by (done || lia). done.
Qed.

(** ** Any mixture of media errors and successes *)

(** The number of media errors before the first success. *)
Fixpoint media_errors (hw : list (Z * list Z)) : nat :=
  match hw with
  | (c, _) :: hw => if c =? LHD_MEDIA then S (media_errors hw) else 0
  | [] => 0
  end.

Section attempts.
Variable U : usermem.
Implicit Types (d : disk) (hw : list (Z * list Z)).

Lemma lhd_read_next u d b l hw :
  disk_ok d → 0 ≤ b < d_blocks d → uio_rw u = UIO_READ → uio_offset u = 512 * b → uio_resid u = 512 →
  lhd_io U u (with_hw ((LHD_OK, l) :: hw) d) = ('(r, u, _) ← lhd_io U u (with_hw [] d); mret (r, u, with_hw hw d)).
Proof.
  intros Hd Hb Hw Ho Hr. rewrite !(lhd_io_block _ _ _ b) by (try done; by destruct Hd). unfold lhd_sector. rewrite Hw.
  unfold lhd_start. simpl. destruct (getz (d_sect d) b) as [x|]; [|done]. unfold mbind, res_bind. simpl.
  by destruct (uiomove U x 0 LHD_SECTSIZE u) as [[[r b'] u']|].
Qed.

(** The driver reads the block when the next answer of the card is success, or none is left. *)
Lemma lhd_reads data d b hw : disk_ok d → 0 ≤ b < d_blocks d → length data = 512%nat → media_errors hw = 0%nat →
  Forall (λ x, x.1 = LHD_OK ∨ x.1 = LHD_MEDIA) hw →
  ∃ u, lhd_io U (SFSUIO data b UIO_READ) (with_hw hw d) = Ok (0, u, with_hw (drop 1 hw) d) ∧ u_mem u = sector d b.
Proof.
  intros Hd Hb Hl Hm Hc. pose proof (do_max _ Hd) as Hmax. destruct (SFSUIO_ok U data b UIO_READ Hl) as [Hu Ho]; [lia|].
  assert (disk_ok (with_hw [] d)) as Hd0 by (by destruct Hd).
  destruct (proj1 (wp_exists _ _) (lhd_read_block U _ _ b Hd0 eq_refl Hb Hu eq_refl Ho eq_refl)) as ([[r u'] d'] & Hio & -> & Hp).
  assert (r = 0) as -> by (destruct Hp as (_ & _ & _ & _ & _ & _ & [->|[_ Hn]]); done).
  apply read_into_done in Hp as ->. eexists. split.
  - destruct hw as [|[c l] hw]; [exact Hio|]. apply Forall_cons in Hc as [[Hc|Hc] _]; simpl in Hc, Hm; subst c; [|done].
    rewrite (lhd_read_next _ d b) by done. unfold mbind, res_bind. rewrite Hio. simpl. by rewrite drop_0.
  - simpl. pose proof (length_sector d b Hd Hb). rewrite Z.sub_diag.
    by apply (splice_all data (sector d b)); rewrite Hl.
Qed.

Lemma rblock_attempts data d b : disk_ok d → 0 ≤ b < d_blocks d → length data = 512%nat → ∀ hw (tries fuel : nat),
  Forall (λ x, x.1 = LHD_OK ∨ x.1 = LHD_MEDIA) hw → (tries ≤ 10)%nat → (10 - tries < fuel)%nat →
  ∃ u, while_loop fuel (λ '(tries, u, d),
    '(result, u, d) ← lhd_io U u d;
    if result =? EINVAL then Fault FPanic
    else if (result =? EIO) && (tries <? 10) then mret (inl (tries + 1, u, d))
    else mret (inr (result, u, d))) (Z.of_nat tries, SFSUIO data b UIO_READ, with_hw hw d) =
    (if decide (tries + media_errors hw ≤ 10)%nat then Ok (0, u, with_hw (drop (S (media_errors hw)) hw) d)
     else Ok (EIO, u, with_hw (drop (11 - tries) hw) d))
  ∧ u_mem u = if decide (tries + media_errors hw ≤ 10)%nat then sector d b else data.
Proof.
  intros Hd Hb Hl hw. pose proof (do_max _ Hd) as Hmax. destruct (SFSUIO_ok U data b UIO_READ Hl) as [Hu Ho]; [lia|].
  induction hw as [|[c l] hw IH]; intros tries [|fuel] Hc Ht Hf; try lia.
  - destruct (lhd_reads data d b [] Hd Hb Hl eq_refl Hc) as (u & Hio & Hm). exists u. rewrite !decide_True by (simpl; lia).
    split; [|done]. rewrite while_loop_S. unfold mbind, res_bind. by rewrite Hio.
  - destruct (decide (c = LHD_MEDIA)) as [->|Hne].
    + apply Forall_cons in Hc as [_ Hc]. rewrite while_loop_S. unfold mbind, res_bind. rewrite (lhd_read_media U _ d b) by done.
      cbn [Z.eqb EIO EINVAL Pos.eqb andb]. change (media_errors ((LHD_MEDIA, l) :: hw)) with (S (media_errors hw)).
      destruct (Z.of_nat tries <? 10) eqn:E.
      * destruct (IH (S tries) fuel Hc ltac:(lia) ltac:(lia)) as (u & Hw & Hm). exists u.
        replace (11 - tries)%nat with (S (11 - S tries)) by lia. replace (Z.of_nat tries + 1) with (Z.of_nat (S tries)) by lia.
        rewrite <- plus_n_Sm. simpl drop. split; [exact Hw|exact Hm].
      * eexists. rewrite !decide_False by lia. replace (11 - tries)%nat with 1%nat by lia. simpl. rewrite drop_0. done.
    + assert (media_errors ((c, l) :: hw) = 0%nat) as Hz by (simpl; by replace (c =? LHD_MEDIA) with false by lia).
      destruct (lhd_reads data d b _ Hd Hb Hl Hz Hc) as (u & Hio & Hm). exists u. rewrite Hz, !decide_True by lia. split; [|done].
      rewrite while_loop_S. unfold mbind, res_bind. by rewrite Hio.
Qed.
End attempts.

(** C31: Whatever sequence of media errors and successes the card answers, a block read ends after at
    most eleven attempts: with the contents of the block at the first success, or with EIO and the
    buffer as it was after eleven errors.  It uses up exactly the answers of its attempts. *)
Theorem block_read_ends U data d b hw :
  disk_ok d → 0 ≤ b < d_blocks d → length data = 512%nat → Forall (λ x, x.1 = LHD_OK ∨ x.1 = LHD_MEDIA) hw →
  let n := media_errors hw in
  sfs_rblock U data b (with_hw hw d) =
    if decide (n ≤ 10)%nat then Ok (0, sector d b, with_hw (drop (S n) hw) d) else Ok (EIO, data, with_hw (drop 11 hw) d).
Proof.
  intros Hd Hb Hl Hc n. destruct (rblock_attempts U data d b Hd Hb Hl hw 0 12 Hc ltac:(lia) ltac:(lia)) as (u & Hw & Hm).
  change (Z.of_nat 0) with 0 in Hw. unfold sfs_rblock, sfs_rwblock, mbind, res_bind in *. rewrite Hw. simpl in Hm. fold n in Hm |- *. by destruct (decide _); rewrite <- Hm.
Qed.

(** C37: A write that meets a media error is not tried again: the first attempt has used up the
    request, the second moves nothing and succeeds.  The file system is told the block was
    written, and the block holds whatever the failed attempt left there. *)
Theorem write_lost_on_media_error U data d b l :
  disk_ok d → healthy d → 0 ≤ b < d_blocks d → length data = 512%nat →
  sfs_wblock U data b (with_hw [(LHD_MEDIA, l)] d) = Ok (0, put_sector b l d).
Proof.
  intros Hd Hh Hb Hl. pose proof (do_max _ Hd) as Hm.
  destruct (SFSUIO_ok U data b UIO_WRITE Hl) as [Hu Ho]; [lia|].
  set (d1 := with_hw [(LHD_MEDIA, l)] d).
  assert (disk_ok d1) as Hd1 by (by destruct Hd).
  destruct (proj1 (wp_exists _ _) (uiomove_spec U card_buffer 0 512 (SFSUIO data b UIO_WRITE) Hu
    ltac:(simpl; unfold SFS_BLOCKSIZE; lia) ltac:(lia) ltac:(done))) as ([[r buf] u'] & Hmv & Hp).
  destruct Hp as [(-> & _ & ->)|(Hr & _ & Hs & _)]; [|done].
  assert (lhd_io U (SFSUIO data b UIO_WRITE) d1 =
    Ok (EIO, advance 512 data (SFSUIO data b UIO_WRITE), put_sector b l d)) as H1.
  { rewrite (lhd_io_block _ _ _ b) by done. unfold lhd_sector, mbind, res_bind. simpl uio_rw.
    unfold LHD_SECTSIZE. rewrite Hmv. unfold lhd_start. simpl.
    assert (setz (d_sect d) b l = Ok (<[Z.to_nat b := l]> (d_sect d))) as Hg.
    { apply setz_Ok. destruct Hd. split; [lia|done]. }
    rewrite Hg. unfold put_sector, set_sect, with_hw. simpl. by rewrite Hh. }
  assert (lhd_io U (advance 512 data (SFSUIO data b UIO_WRITE)) (put_sector b l d) =
    Ok (0, advance 512 data (SFSUIO data b UIO_WRITE), put_sector b l d)) as H2.
  { unfold lhd_io. simpl uio_offset. simpl uio_resid. simpl in Ho. rewrite Ho.
    unfold LHD_SECTSIZE, SFS_BLOCKSIZE. replace (512 * b + 512) with ((b + 1) * 512) by lia.
    rewrite Z.quot_mul, Z.rem_mul by lia. simpl. rewrite Z.add_0_r.
    rewrite !(u32_id (b + 1)) by in_range.
    by replace (b + 1 >? d_blocks d) with false by lia. }
  unfold sfs_wblock, sfs_rwblock. rewrite !while_loop_S. unfold mbind, res_bind. rewrite H1. simpl.
  rewrite while_loop_S. unfold mbind, res_bind. by rewrite H2.
Qed.
