(* ===== verification/Sfs.v ===== *)
(** * The simple file system: blocks, files and directories
    (kern/include/kern/sfs.h, kern/fs/sfs/sfs_vnode.c)

    [sfs_fs] is one mounted volume: the superblock, the free block map, the disk, and the vnodes
    that are in memory, by address.  On disk an inode, a superblock, a directory entry and an
    indirect block are arrays of bytes; the processor is big-endian.  The routines that do not
    touch the kernel heap are here; those that create and destroy vnodes are in SfsNode.v. *)

From S2P Require Import Prelude StateM Heap KArray KBitmap Uio SfsDisk.

Definition SFS_MAGIC : Z := 0xabadf001.
Definition SFS_VOLNAME_SIZE : Z := 32.
Definition SFS_NDIRECT : Z := 15.
Definition SFS_DBPERIDB : Z := 128.
Definition SFS_NAMELEN : Z := 60.
Definition SFS_SB_LOCATION : Z := 0.
Definition SFS_ROOT_LOCATION : Z := 1.
Definition SFS_MAP_LOCATION : Z := 2.
Definition SFS_NOINO : Z := 0.
Definition SFS_BLOCKBITS : Z := SFS_BLOCKSIZE * 8.
Definition SFS_ROUNDUP (a b : Z) : Z := u32 (u32 (a + b - 1) / b * b).
Definition SFS_BITMAPSIZE (nblocks : Z) : Z := SFS_ROUNDUP nblocks SFS_BLOCKBITS.
Definition SFS_BITBLOCKS (nblocks : Z) : Z := SFS_BITMAPSIZE nblocks / SFS_BLOCKBITS.
Definition SFS_TYPE_INVAL : Z := 0.
Definition SFS_TYPE_FILE : Z := 1.
Definition SFS_TYPE_DIR : Z := 2.

(** ** Structures on disk *)

Record sfs_super := Super {
  sp_magic : Z;
  sp_nblocks : Z;
  sp_volname : list Z;
  sp_reserved : list Z;
}.

Record sfs_inode := Inode {
  sfi_size : Z;
  sfi_type : Z;
  sfi_linkcount : Z;
  sfi_direct : list Z;
  sfi_indirect : Z;
  sfi_waste : list Z;
}.

Record sfs_dir := Dir { sfd_ino : Z; sfd_name : list Z }.

Definition be32 (z : Z) : list Z :=
  [u8 (Z.shiftr z 24); u8 (Z.shiftr z 16); u8 (Z.shiftr z 8); u8 z].
Definition be16 (z : Z) : list Z := [u8 (Z.shiftr z 8); u8 z].

(** A big-endian number of any width. *)
Definition unbe (l : list Z) : Z := foldl (λ acc b, acc * 256 + b) 0 l.

Definition words_bytes (ws : list Z) : list Z := ws ≫= be32.
Fixpoint bytes_words (n : nat) (l : list Z) : list Z :=
  match n with O => [] | S n => unbe (take 4 l) :: bytes_words n (drop 4 l) end.

Definition super_bytes (s : sfs_super) : list Z :=
  be32 (sp_magic s) ++ be32 (sp_nblocks s) ++ sp_volname s ++ words_bytes (sp_reserved s).
Definition super_of (l : list Z) : sfs_super :=
  Super (unbe (sub l 0 4)) (unbe (sub l 4 4)) (sub l 8 32) (bytes_words 118 (sub l 40 472)).

Definition inode_bytes (i : sfs_inode) : list Z :=
  be32 (sfi_size i) ++ be16 (sfi_type i) ++ be16 (sfi_linkcount i) ++ words_bytes (sfi_direct i) ++
  be32 (sfi_indirect i) ++ words_bytes (sfi_waste i).
Definition inode_of (l : list Z) : sfs_inode :=
  Inode (unbe (sub l 0 4)) (unbe (sub l 4 2)) (unbe (sub l 6 2)) (bytes_words 15 (sub l 8 60))
    (unbe (sub l 68 4)) (bytes_words 110 (sub l 72 440)).

Definition SFS_DIR_SIZE : Z := 64.
Definition dir_bytes (d : sfs_dir) : list Z := be32 (sfd_ino d) ++ sfd_name d.
Definition dir_of (l : list Z) : sfs_dir := Dir (unbe (sub l 0 4)) (sub l 4 60).

(** ** Structures in memory (kern/include/sfs.h, kern/include/vnode.h) *)

(** Which function table a vnode has. *)
Inductive vops := FileOps | DirOps.

Record vnode := Vnode {
  vn_refcount : Z;
  vn_opencount : Z;
  vn_countlock : Z;
  vn_ops : option vops;
}.

Record sfs_vnode := SVnode {
  sv_v : vnode;
  sv_i : sfs_inode;
  sv_ino : Z;
  sv_dirty : Z;
}.

Record sfs_fs := SfsFs {
  sfs_self : Z;
  sfs_super_ : sfs_super;
  sfs_superdirty : Z;
  sfs_device : disk;
  sfs_vnodes : array;
  sfs_freemap : bitmap;
  sfs_freemapdirty : Z;
  sfs_mem : gmap Z sfs_vnode;
}.

Definition set_super (x : sfs_super) (f : sfs_fs) : sfs_fs :=
  SfsFs (sfs_self f) x (sfs_superdirty f) (sfs_device f) (sfs_vnodes f) (sfs_freemap f)
    (sfs_freemapdirty f) (sfs_mem f).
Definition set_superdirty (x : Z) (f : sfs_fs) : sfs_fs :=
  SfsFs (sfs_self f) (sfs_super_ f) x (sfs_device f) (sfs_vnodes f) (sfs_freemap f)
    (sfs_freemapdirty f) (sfs_mem f).
Definition set_device (x : disk) (f : sfs_fs) : sfs_fs :=
  SfsFs (sfs_self f) (sfs_super_ f) (sfs_superdirty f) x (sfs_vnodes f) (sfs_freemap f)
    (sfs_freemapdirty f) (sfs_mem f).
Definition set_vnodes (x : array) (f : sfs_fs) : sfs_fs :=
  SfsFs (sfs_self f) (sfs_super_ f) (sfs_superdirty f) (sfs_device f) x (sfs_freemap f)
    (sfs_freemapdirty f) (sfs_mem f).
Definition set_freemap (x : bitmap) (f : sfs_fs) : sfs_fs :=
  SfsFs (sfs_self f) (sfs_super_ f) (sfs_superdirty f) (sfs_device f) (sfs_vnodes f) x
    (sfs_freemapdirty f) (sfs_mem f).
Definition set_freemapdirty (x : Z) (f : sfs_fs) : sfs_fs :=
  SfsFs (sfs_self f) (sfs_super_ f) (sfs_superdirty f) (sfs_device f) (sfs_vnodes f) (sfs_freemap f)
    x (sfs_mem f).
Definition set_mem (x : gmap Z sfs_vnode) (f : sfs_fs) : sfs_fs :=
  SfsFs (sfs_self f) (sfs_super_ f) (sfs_superdirty f) (sfs_device f) (sfs_vnodes f) (sfs_freemap f)
    (sfs_freemapdirty f) x.

(** Assignments to fields of a vnode and of its inode. *)
Definition sv_set_v (v : vnode) (sv : sfs_vnode) : sfs_vnode := SVnode v (sv_i sv) (sv_ino sv) (sv_dirty sv).
Definition sv_set_i (i : sfs_inode) (sv : sfs_vnode) : sfs_vnode := SVnode (sv_v sv) i (sv_ino sv) (sv_dirty sv).
Definition sv_set_dirty (x : Z) (sv : sfs_vnode) : sfs_vnode := SVnode (sv_v sv) (sv_i sv) (sv_ino sv) x.

Definition i_set_size (x : Z) (i : sfs_inode) : sfs_inode :=
  Inode x (sfi_type i) (sfi_linkcount i) (sfi_direct i) (sfi_indirect i) (sfi_waste i).
Definition i_set_type (x : Z) (i : sfs_inode) : sfs_inode :=
  Inode (sfi_size i) x (sfi_linkcount i) (sfi_direct i) (sfi_indirect i) (sfi_waste i).
Definition i_set_linkcount (x : Z) (i : sfs_inode) : sfs_inode :=
  Inode (sfi_size i) (sfi_type i) x (sfi_direct i) (sfi_indirect i) (sfi_waste i).
Definition i_set_direct (x : list Z) (i : sfs_inode) : sfs_inode :=
  Inode (sfi_size i) (sfi_type i) (sfi_linkcount i) x (sfi_indirect i) (sfi_waste i).
Definition i_set_indirect (x : Z) (i : sfs_inode) : sfs_inode :=
  Inode (sfi_size i) (sfi_type i) (sfi_linkcount i) (sfi_direct i) x (sfi_waste i).

Abbreviation F := (stm sfs_fs).

Definition get_vn (p : Z) : F sfs_vnode := λ f,
  match sfs_mem f !! p with Some sv => Ok (sv, f) | None => Fault FUndef end.
Definition put_vn (p : Z) (sv : sfs_vnode) : F unit := modify (λ f, set_mem (<[p := sv]> (sfs_mem f)) f).
(** Change the inode of a vnode, and mark it dirty. *)
Definition touch_inode (p : Z) (g : sfs_inode → sfs_inode) : F unit :=
  sv ← get_vn p; put_vn p (sv_set_dirty 1 (sv_set_i (g (sv_i sv)) sv)).

Section sfs.
Variable U : usermem.

Definition rblock (data : list Z) (block : Z) : F (Z * list Z) :=
  d ← gets sfs_device;
  '(r, data, d) ← lift (sfs_rblock U data block d);
  _ ← modify (set_device d);
  mret (r, data).
Definition wblock (data : list Z) (block : Z) : F Z :=
  d ← gets sfs_device;
  '(r, d) ← lift (sfs_wblock U data block d);
  _ ← modify (set_device d);
  mret r.

(** ** Simple stuff, space allocation *)

Definition zero_block : list Z := replicate 512 0.

Definition sfs_clearblock (block : Z) : F Z := wblock zero_block block.

Definition sfs_sync_inode (p : Z) : F Z :=
  sv ← get_vn p;
  if negb (sv_dirty sv =? 0) then
    result ← wblock (inode_bytes (sv_i sv)) (sv_ino sv);
    if negb (result =? 0) then mret result
    else _ ← put_vn p (sv_set_dirty 0 sv); mret 0
  else mret 0.

(** The code and the block. *)
Definition sfs_balloc : F (Z * Z) :=
  bm ← gets sfs_freemap;
  '(result, diskblock, bm) ← lift (bitmap_alloc bm);
  _ ← modify (set_freemap bm);
  if negb (result =? 0) then mret (result, diskblock)
  else
    _ ← modify (set_freemapdirty 1);
    sp ← gets sfs_super_;
    if diskblock >=? sp_nblocks sp then fault_ FPanic
    else
      result ← sfs_clearblock diskblock;
      mret (result, diskblock).

Definition sfs_bfree (diskblock : Z) : F unit :=
  bm ← gets sfs_freemap;
  bm ← lift (bitmap_unmark bm diskblock);
  _ ← modify (set_freemap bm);
  modify (set_freemapdirty 1).

Definition sfs_bused (diskblock : Z) : F Z :=
  sp ← gets sfs_super_;
  if diskblock >=? sp_nblocks sp then fault_ FPanic
  else
    bm ← gets sfs_freemap;
    lift (bitmap_isset bm diskblock).

(** ** Block mapping *)

(** The end of both branches: the block has to be marked in use. *)
Definition bmap_answer (block : Z) : F (Z * Z) :=
  if negb (block =? 0) then
    used ← sfs_bused block;
    if used =? 0 then fault_ FPanic else mret (0, block)
  else mret (0, block).

(** A block in the inode itself. *)
Definition bmap_direct (p fileblock : Z) (doalloc : bool) : F (Z * Z) :=
  sv ← get_vn p;
  block ← lift ((sfi_direct (sv_i sv)).[fileblock]);
  if (block =? 0) && doalloc then
    '(result, block) ← sfs_balloc;
    if negb (result =? 0) then mret (result, block)
    else
      direct ← lift ((sfi_direct (sv_i sv)).[fileblock <- block]);
      _ ← touch_inode p (i_set_direct direct);
      bmap_answer block
  else bmap_answer block.

(** A block in the indirect block [idblock], whose contents are [idbuf]. *)
Definition bmap_indirect (idblock : Z) (idbuf : list Z) (idoff : Z) (doalloc : bool) : F (Z * Z) :=
  block ← lift (idbuf.[idoff]);
  if (block =? 0) && doalloc then
    '(result, block) ← sfs_balloc;
    if negb (result =? 0) then mret (result, block)
    else
      idbuf ← lift (idbuf.[idoff <- block]);
      result ← wblock (words_bytes idbuf) idblock;
      if negb (result =? 0) then mret (result, block) else bmap_answer block
  else bmap_answer block.

(** The code and [*diskblock]. *)
Definition sfs_bmap (p fileblock : Z) (doalloc : bool) : F (Z * Z) :=
  if fileblock <? SFS_NDIRECT then bmap_direct p fileblock doalloc
  else
    let fileblock := u32 (fileblock - SFS_NDIRECT) in
    let idnum := fileblock / SFS_DBPERIDB in
    let idoff := fileblock mod SFS_DBPERIDB in
    if idnum >? 0 then mret (EINVAL, 0)
    else
      sv ← get_vn p;
      let idblock := sfi_indirect (sv_i sv) in
      if (idblock =? 0) && negb doalloc then mret (0, 0)
      else if idblock =? 0 then
        '(result, idblock) ← sfs_balloc;
        if negb (result =? 0) then mret (result, 0)
        else
          _ ← touch_inode p (i_set_indirect idblock);
          bmap_indirect idblock (replicate 128 0) idoff doalloc
      else
        '(result, data) ← rblock zero_block idblock;
        if negb (result =? 0) then mret (result, 0)
        else bmap_indirect idblock (bytes_words 128 data) idoff doalloc.

(** ** File-level I/O *)

(** The number of the block of the file the transfer is at. *)
Definition fileblock_of (u : uio) : Z := u32 (Z.quot (uio_offset u) SFS_BLOCKSIZE).

Definition is_write (u : uio) : bool := bool_decide (uio_rw u = UIO_WRITE).

Definition sfs_partialio (p : Z) (u : uio) (skipstart len : Z) : F (Z * uio) :=
  _ ← asrt (u32 (skipstart + len) <=? SFS_BLOCKSIZE);
  '(result, diskblock) ← sfs_bmap p (fileblock_of u) (is_write u);
  if negb (result =? 0) then mret (result, u)
  else
    '(result, iobuf) ← (if diskblock =? 0 then
                          _ ← asrt (negb (is_write u)); mret (0, zero_block)
                        else rblock zero_block diskblock);
    if negb (result =? 0) then mret (result, u)
    else
      '(result, iobuf, u) ← lift (uiomove U iobuf skipstart len u);
      if negb (result =? 0) then mret (result, u)
      else if is_write u then
        result ← wblock iobuf diskblock;
        mret (result, u)
      else mret (0, u).

Definition sfs_blockio (p : Z) (u : uio) : F (Z * uio) :=
  '(result, diskblock) ← sfs_bmap p (fileblock_of u) (is_write u);
  if negb (result =? 0) then mret (result, u)
  else if diskblock =? 0 then
    _ ← asrt (negb (is_write u));
    lift (uiomovezeros U SFS_BLOCKSIZE u)
  else
    let saveoff := uio_offset u in
    let diskoff := s32 (u32 (diskblock * SFS_BLOCKSIZE)) in
    _ ← asrt (uio_resid u >=? SFS_BLOCKSIZE);
    let saveres := s32 (uio_resid u) in
    let diskres := SFS_BLOCKSIZE in
    d ← gets sfs_device;
    '(result, u, d) ← lift (sfs_rwblock U (uio_set_resid diskres (uio_set_offset diskoff u)) d);
    _ ← modify (set_device d);
    mret (result,
      uio_set_resid (u32 (uio_resid u - diskres + saveres))
        (uio_set_offset (s32 (uio_offset u - diskoff + saveoff)) u)).

(** The transfer itself, after the end of file has been seen to. *)
Definition io_blocks (p : Z) (u : uio) : F (Z * uio) :=
  _ ← asrt (Z.rem (uio_offset u) SFS_BLOCKSIZE =? 0);
  let nblocks := uio_resid u / SFS_BLOCKSIZE in
  '(result, u) ← mfor (Z.to_nat nblocks) 0 (λ _ '(result, u),
                   if negb (result =? 0) then mret (result, u) else sfs_blockio p u) (0, u);
  if negb (result =? 0) then mret (result, u)
  else
    _ ← asrt (uio_resid u <? SFS_BLOCKSIZE);
    if uio_resid u >? 0 then sfs_partialio p u 0 (uio_resid u) else mret (result, u).

Definition io_body (p : Z) (u : uio) : F (Z * uio) :=
  let blkoff := u32 (Z.rem (uio_offset u) SFS_BLOCKSIZE) in
  '(result, u) ← (if negb (blkoff =? 0) then
                    let len := SFS_BLOCKSIZE - blkoff in
                    sfs_partialio p u blkoff (if len >? uio_resid u then uio_resid u else len)
                  else mret (0, u));
  if negb (result =? 0) then mret (result, u)
  else if uio_resid u =? 0 then mret (result, u)
  else io_blocks p u.

(** The label [out]: the new length of the file. *)
Definition io_out (p : Z) (u : uio) : F unit :=
  sv ← get_vn p;
  if is_write u && (uio_offset u >? s32 (sfi_size (sv_i sv))) then
    touch_inode p (i_set_size (u32 (uio_offset u)))
  else mret tt.

Definition sfs_io (p : Z) (u : uio) : F (Z * uio) :=
  sv ← get_vn p;
  let size := s32 (sfi_size (sv_i sv)) in
  let endpos := s32 (uio_offset u + uio_resid u) in
  if negb (is_write u) && (uio_offset u >=? size) then mret (0, u)
  else
    let extraresid := if negb (is_write u) && (endpos >? size) then u32 (endpos - size) else 0 in
    _ ← asrt ((extraresid =? 0) || (uio_resid u >? extraresid));
    '(result, u) ← io_body p (uio_set_resid (u32 (uio_resid u - extraresid)) u);
    _ ← io_out p u;
    mret (result, uio_set_resid (u32 (uio_resid u + extraresid)) u).

(** ** Truncation *)

Definition truncate_direct (p blocklen : Z) : F unit :=
  mfor 15 0 (λ i _,
    sv ← get_vn p;
    block ← lift ((sfi_direct (sv_i sv)).[i]);
    if (i >=? blocklen) && negb (block =? 0) then
      _ ← sfs_bfree block;
      direct ← lift ((sfi_direct (sv_i sv)).[i <- 0]);
      touch_inode p (i_set_direct direct)
    else mret tt) tt.

(** The entries of the indirect block: the buffer, [hasnonzero] and [iddirty]. *)
Definition truncate_entries (blocklen : Z) (idbuf : list Z) : F (list Z * bool * bool) :=
  mfor 128 0 (λ j '(idbuf, hasnonzero, iddirty),
    e ← lift (idbuf.[j]);
    '(idbuf, iddirty) ← (if (blocklen <? SFS_NDIRECT + j) && negb (e =? 0) then
                           _ ← sfs_bfree e;
                           idbuf ← lift (idbuf.[j <- 0]);
                           mret (idbuf, true)
                         else mret (idbuf, iddirty));
    e ← lift (idbuf.[j]);
    mret (idbuf, hasnonzero || negb (e =? 0), iddirty)) (idbuf, false, false).

Definition truncate_indirect (p blocklen idblock : Z) : F Z :=
  '(result, data) ← rblock zero_block idblock;
  if negb (result =? 0) then mret result
  else
    '(idbuf, hasnonzero, iddirty) ← truncate_entries blocklen (bytes_words 128 data);
    if negb hasnonzero then
      _ ← sfs_bfree idblock;
      _ ← touch_inode p (i_set_indirect 0);
      mret 0
    else if iddirty : bool then wblock (words_bytes idbuf) idblock
    else mret 0.

Definition sfs_truncate (p len : Z) : F Z :=
  let blocklen := u32 (Z.quot (s32 (len + SFS_BLOCKSIZE - 1)) SFS_BLOCKSIZE) in
  _ ← truncate_direct p blocklen;
  sv ← get_vn p;
  let idblock := sfi_indirect (sv_i sv) in
  let highblock := SFS_NDIRECT + SFS_DBPERIDB - 1 in
  result ← (if (blocklen <? highblock) && negb (idblock =? 0)
            then truncate_indirect p blocklen idblock else mret 0);
  if negb (result =? 0) then mret result
  else _ ← touch_inode p (i_set_size (u32 len)); mret 0.

(** ** Directories *)

(** The C string that starts an array of characters. *)
Fixpoint cstr (l : list Z) : list Z :=
  match l with [] => [] | c :: l => if c =? 0 then [] else c :: cstr l end.

Definition sfs_readdir (p slot : Z) : F (Z * sfs_dir) :=
  let actualpos := s32 (u32 (slot * SFS_DIR_SIZE)) in
  let ku := mk_kuio (replicate 64 0) KBUF SFS_DIR_SIZE actualpos UIO_READ in
  '(result, ku) ← sfs_io p ku;
  if negb (result =? 0) then mret (result, dir_of (u_mem ku))
  else if uio_resid ku >? 0 then fault_ FPanic
  else mret (0, dir_of (u_mem ku)).

Definition sfs_writedir (p : Z) (sd : sfs_dir) (slot : Z) : F Z :=
  _ ← asrt (slot >=? 0);
  let actualpos := s32 (u32 (slot * SFS_DIR_SIZE)) in
  let ku := mk_kuio (dir_bytes sd) KBUF SFS_DIR_SIZE actualpos UIO_WRITE in
  '(result, ku) ← sfs_io p ku;
  if negb (result =? 0) then mret result
  else if uio_resid ku >? 0 then fault_ FPanic
  else mret 0.

Definition sfs_dir_nentries (p : Z) : F Z :=
  sv ← get_vn p;
  _ ← asrt (sfi_type (sv_i sv) =? SFS_TYPE_DIR);
  let size := s32 (sfi_size (sv_i sv)) in
  if negb (u32 size mod SFS_DIR_SIZE =? 0) then fault_ FPanic
  else mret (s32 (u32 size / SFS_DIR_SIZE)).

(** The code, the inode number and slot of the name, and the last free slot seen. *)
Definition sfs_dir_findname (p : Z) (name : list Z) : F (Z * option (Z * Z) * option Z) :=
  nentries ← sfs_dir_nentries p;
  '(result, found, empty) ←
    mfor (Z.to_nat nentries) 0 (λ i '(result, found, empty),
      if negb (result =? 0) then mret (result, found, empty)
      else
        '(result, tsd) ← sfs_readdir p i;
        if negb (result =? 0) then mret (result, found, empty)
        else if sfd_ino tsd =? SFS_NOINO then mret (0, found, Some i)
        else if bool_decide (cstr (take 59 (sfd_name tsd)) = name) then
          _ ← asrt (bool_decide (found = None));
          mret (0, Some (sfd_ino tsd, i), empty)
        else mret (0, found, empty)) (0, None, None);
  if negb (result =? 0) then mret (result, found, empty)
  else mret (match found with Some _ => 0 | None => ENOENT end, found, empty).

(** The code and the slot. *)
Definition sfs_dir_link (p : Z) (name : list Z) (ino : Z) : F (Z * Z) :=
  '(result, _, emptyslot) ← sfs_dir_findname p name;
  if negb (result =? 0) && negb (result =? ENOENT) then mret (result, 0)
  else if result =? 0 then mret (EEXIST, 0)
  else if zlen name + 1 >? SFS_NAMELEN then mret (ENAMETOOLONG, 0)
  else
    slot ← (match emptyslot with Some i => mret i | None => sfs_dir_nentries p end);
    let sd := Dir ino (name ++ replicate (60 - length name) 0) in
    result ← sfs_writedir p sd slot;
    mret (result, slot).

Definition sfs_dir_unlink (p slot : Z) : F Z :=
  sfs_writedir p (Dir SFS_NOINO (replicate 60 0)) slot.
End sfs.
