(* ===== verification/SfsBytes.v ===== *)
(** * Lemmas on the layout of disk structures

    Big-endian words, arrays of words, and files as arrays of equal blocks. *)

From S2P Require Import Prelude Uio SfsDisk KBitmap Sfs.

(** ** Words *)

Lemma unbe_be32 z : is_u32 z → unbe (be32 z) = z.
Proof.
  unfold is_u32, unbe, be32, u8. simpl. intros Hz. rewrite !Z.shiftr_div_pow2 by lia.
  change (2 ^ 24) with 16777216. change (2 ^ 16) with 65536. change (2 ^ 8) with 256.
  change (2 ^ 32) with 4294967296 in Hz.
  pose proof (Z.div_mod z 256 ltac:(lia)). pose proof (Z.div_mod (z / 256) 256 ltac:(lia)).
  pose proof (Z.div_mod (z / 65536) 256 ltac:(lia)).
  rewrite (Z.mod_small (z / 16777216)) by (split; [apply Z.div_pos; lia|apply Z.div_lt_upper_bound; lia]).
  rewrite (Z.div_div z 256 256) in * by lia. rewrite (Z.div_div z 65536 256) in * by lia.
  change (256 * 256) with 65536 in *. change (65536 * 256) with 16777216 in *. lia.
Qed.

Lemma unbe_be16 z : 0 ≤ z < 65536 → unbe (be16 z) = z.
Proof.
  unfold unbe, be16, u8. simpl. intros Hz. rewrite !Z.shiftr_div_pow2 by lia.
  change (2 ^ 8) with 256. pose proof (Z.div_mod z 256 ltac:(lia)).
  rewrite (Z.mod_small (z / 256)) by (split; [apply Z.div_pos; lia|apply Z.div_lt_upper_bound; lia]). lia.
Qed.

Lemma be32_bytes z : bytes_ok (be32 z).
Proof. unfold bytes_ok, be32. repeat constructor; apply u8_range. Qed.

Lemma unbe_range l n : bytes_ok l → length l = n → 0 ≤ unbe l < 256 ^ Z.of_nat n.
Proof.
  unfold unbe. intros Hl <-.
  assert (∀ l acc k, bytes_ok l → 0 ≤ acc < 256 ^ k → 0 ≤ k →
    0 ≤ foldl (λ acc b, acc * 256 + b) acc l < 256 ^ (k + zlen l)) as Hg.
  { clear. induction l as [|b l IH]; intros acc k Hl Hacc Hk; simpl.
    - by rewrite Z.add_0_r.
    - inversion Hl; subst. replace (k + Z.of_nat (S (length l))) with (k + 1 + zlen l) by lia.
      apply IH; [done| |lia]. rewrite Z.pow_add_r, Z.pow_1_r by lia. lia. }
  apply (Hg l 0 0); [done|simpl; lia|lia].
Qed.

Lemma length_words_bytes ws : length (words_bytes ws) = (4 * length ws)%nat.
Proof. induction ws as [|w ws IH]; [done|]. simpl in *. rewrite IH. lia. Qed.

Lemma length_bytes_words n l : length (bytes_words n l) = n.
Proof. revert l. induction n as [|n IH]; intros l; [done|]. simpl. by rewrite IH. Qed.

Lemma bytes_words_bytes ws : Forall is_u32 ws → bytes_words (length ws) (words_bytes ws) = ws.
Proof.
  induction 1 as [|w ws Hw _ IH]; [done|]. simpl length. unfold words_bytes. rewrite bind_cons.
  fold (words_bytes ws). simpl bytes_words. f_equal; [by apply unbe_be32|].
  exact IH.
Qed.

Lemma bytes_words_range n l : bytes_ok l → (4 * n ≤ length l)%nat → Forall is_u32 (bytes_words n l).
Proof.
  revert l. induction n as [|n IH]; intros l Hl Hn; constructor.
  - apply (unbe_range (take 4 l) 4); [|lens].
    by apply Forall_take.
  - apply IH; [by apply Forall_drop|]. rewrite length_drop. lia.
Qed.

Lemma bytes_words_zeros n m : (4 * n ≤ m)%nat → bytes_words n (replicate m 0) = replicate n 0.
Proof.
  revert m. induction n as [|n IH]; intros m Hm; [done|]. simpl.
  rewrite drop_replicate, take_replicate, IH by lia. f_equal.
  by replace (Nat.min 4 m) with 4%nat by lia.
Qed.

#[global] Arguments bytes_words : simpl never.
#[global] Arguments words_bytes : simpl never.
#[global] Arguments unbe : simpl never.
#[global] Arguments be32 : simpl never.
#[global] Arguments be16 : simpl never.
#[global] Arguments sub : simpl never.
#[global] Arguments splice : simpl never.

(** ** Arrays of blocks *)

Section blocks.
Context {A : Type} (n : nat).
Implicit Types (ls : list (list A)).

Lemma length_join ls : Forall (λ l, length l = n) ls → length (mjoin ls) = (n * length ls)%nat.
Proof. induction 1 as [|l ls Hl _ IH]; simpl; [lia|]. rewrite length_app, IH, Hl. lia. Qed.

Lemma lookup_join ls (i j : nat) l :
  Forall (λ l, length l = n) ls → ls !! i = Some l → (j < n)%nat → mjoin ls !! (n * i + j)%nat = l !! j.
Proof.
  intros Hls. revert i. induction Hls as [|l' ls Hl _ IH]; intros i Hi Hj; [done|].
  destruct i as [|i]; simpl in *; simplify_eq.
  - rewrite Nat.mul_0_r. by rewrite lookup_app_l by lia.
  - rewrite lookup_app_r by lia. rewrite <- IH with (i := i) by done. f_equal. lia.
Qed.

Lemma sub_join ls (i : nat) l :
  Forall (λ l, length l = n) ls → ls !! i = Some l →
  sub (mjoin ls) (Z.of_nat n * Z.of_nat i) (Z.of_nat n) = l.
Proof.
  intros Hls Hi. apply list_eq. intros j. rewrite lookup_sub by lia.
  assert (length l = n) as Hl by (by eapply Forall_lookup_1 in Hls).
  destruct (decide _).
  - replace (Z.to_nat (Z.of_nat n * Z.of_nat i)) with (n * i)%nat by lia. apply lookup_join; [done..|lia].
  - symmetry. apply lookup_ge_None_2. lia.
Qed.

Lemma insert_join ls (i : nat) l :
  Forall (λ l, length l = n) ls → (i < length ls)%nat → length l = n →
  mjoin (<[i := l]> ls) = splice (mjoin ls) (Z.of_nat n * Z.of_nat i) l.
Proof.
  intros Hls. revert i. induction Hls as [|l' ls Hl' Hf IH]; intros i Hi Hl; [simpl in *; lia|].
  destruct i as [|i]; simpl in *.
  - unfold splice. rewrite Z.mul_0_r. simpl. by rewrite Hl, <- Hl', drop_app_length.
  - rewrite IH by lia. unfold splice.
    replace (Z.to_nat (Z.of_nat n * Z.of_nat (S i))) with (length l' + n * i)%nat by lia.
    replace (Z.to_nat (Z.of_nat n * Z.of_nat i)) with (n * i)%nat by lia.
    rewrite take_app_add', <- Nat.add_assoc, drop_app_add' by done. by rewrite app_assoc.
Qed.
End blocks.

Lemma splice_next {A} (l d d' : list A) a n :
  0 ≤ a → zlen d = n → a + n + zlen d' ≤ zlen l → splice (splice l a d) (a + n) d' = splice l a (d ++ d').
Proof. intros Ha <- Hd. by apply splice_splice. Qed.

(** A write inside one block of an array. *)
Lemma splice_in_block {A} (l : list A) a n skip d :
  0 ≤ a → 0 ≤ skip → skip + zlen d ≤ n → a + n ≤ zlen l →
  splice l a (splice (sub l a n) skip d) = splice l (a + skip) d.
Proof.
  intros Ha Hs Hd Hn. pose proof (length_sub l a n Ha ltac:(lia) Hn) as Hsub.
  apply list_eq. intros i.
  rewrite (lookup_splice l a) by (rewrite ?length_splice; lia).
  rewrite length_splice by lia. rewrite Hsub.
  destruct (decide (a ≤ Z.of_nat i < a + n)).
  - rewrite !lookup_splice by lia. destruct (decide (skip ≤ Z.of_nat (i - Z.to_nat a) < skip + zlen d)).
    + rewrite decide_True by lia. f_equal. lia.
    + rewrite decide_False by lia. rewrite lookup_sub by lia. rewrite decide_True by lia. f_equal. lia.
  - rewrite lookup_splice by lia. by rewrite decide_False by lia.
Qed.

(** ** Filling a slot that was empty *)

Definition nonzero (l : list Z) : list Z := filter (λ b, b ≠ 0) l.

Lemma nonzero_app l l' : nonzero (l ++ l') = nonzero l ++ nonzero l'.
Proof. apply filter_app. Qed.

Lemma nonzero_zeros n : nonzero (replicate n 0) = [].
Proof. apply filter_none. intros x [-> _]%elem_of_replicate. lia. Qed.

Lemma nonzero_fill (l : list Z) i b :
  l !! i = Some 0 → b ≠ 0 → nonzero (<[i := b]> l) ≡ₚ b :: nonzero l.
Proof.
  intros Hi Hb. rewrite <- (take_drop_middle l i 0 Hi) at 2.
  rewrite insert_take_drop by (by apply lookup_lt_Some in Hi).
  rewrite !nonzero_app. unfold nonzero. rewrite filter_cons_True, filter_cons_False by lia.
  by rewrite Permutation_middle.
Qed.

Lemma elem_of_nonzero b l : b ∈ nonzero l ↔ b ≠ 0 ∧ b ∈ l.
Proof. unfold nonzero. by rewrite list_elem_of_filter. Qed.

(** ** Structures and their bytes *)

Lemma sub_middle {A} (l1 l2 l3 : list A) a n :
  zlen l1 = a → zlen l2 = n → sub (l1 ++ l2 ++ l3) a n = l2.
Proof.
  intros <- <-. unfold sub. rewrite !Nat2Z.id, drop_app_length. apply take_app_length.
Qed.

Lemma sub_front {A} (l2 l3 : list A) n : zlen l2 = n → sub (l2 ++ l3) 0 n = l2.
Proof. intros <-. by apply (sub_middle [] l2 l3). Qed.

Record inode_wf (i : sfs_inode) : Prop := InodeWf {
  iw_size : is_u32 (sfi_size i);
  iw_type : 0 ≤ sfi_type i < 65536;
  iw_link : 0 ≤ sfi_linkcount i < 65536;
  iw_direct : length (sfi_direct i) = 15%nat;
  iw_direct_u32 : Forall is_u32 (sfi_direct i);
  iw_indirect : is_u32 (sfi_indirect i);
  iw_waste : length (sfi_waste i) = 110%nat;
  iw_waste_u32 : Forall is_u32 (sfi_waste i);
}.

Lemma length_inode_bytes i : inode_wf i → length (inode_bytes i) = 512%nat.
Proof.
  intros []. unfold inode_bytes. rewrite !length_app, !length_words_bytes, iw_direct0, iw_waste0. done.
Qed.

Lemma inode_roundtrip i : inode_wf i → inode_of (inode_bytes i) = i.
Proof.
  intros []. assert (length (words_bytes (sfi_direct i)) = 60%nat) as Hd.
  { rewrite length_words_bytes. lia. }
  assert (length (words_bytes (sfi_waste i)) = 440%nat) as Hw.
  { rewrite length_words_bytes. lia. }
  unfold inode_of, inode_bytes. destruct i as [sz ty lk dir ind wa].
  cbn [sfi_size sfi_type sfi_linkcount sfi_direct sfi_indirect sfi_waste] in *.
  set (s := be32 sz). set (t := be16 ty). set (k := be16 lk). set (n := be32 ind).
  set (D := words_bytes dir) in *. set (W := words_bytes wa) in *.
  f_equal.
  - rewrite (sub_front s) by done. by apply unbe_be32.
  - rewrite (sub_middle s t) by done. by apply unbe_be16.
  - replace (s ++ t ++ k ++ D ++ n ++ W) with ((s ++ t) ++ k ++ D ++ n ++ W) by (by rewrite !app_assoc).
    rewrite (sub_middle (s ++ t) k) by done. by apply unbe_be16.
  - replace (s ++ t ++ k ++ D ++ n ++ W) with ((s ++ t ++ k) ++ D ++ n ++ W) by (by rewrite !app_assoc).
    rewrite (sub_middle (s ++ t ++ k) D) by (done || lia). unfold D. rewrite <- iw_direct0.
    by apply bytes_words_bytes.
  - replace (s ++ t ++ k ++ D ++ n ++ W) with ((s ++ t ++ k ++ D) ++ n ++ W) by (by rewrite !app_assoc).
    rewrite (sub_middle (s ++ t ++ k ++ D) n) by (rewrite ?length_app; simpl; lia). by apply unbe_be32.
  - replace (s ++ t ++ k ++ D ++ n ++ W) with ((s ++ t ++ k ++ D ++ n) ++ W ++ [])
      by (by rewrite app_nil_r, !app_assoc).
    rewrite (sub_middle (s ++ t ++ k ++ D ++ n) W) by (rewrite ?length_app; simpl; lia).
    unfold W. rewrite <- iw_waste0. by apply bytes_words_bytes.
Qed.

Record super_wf (s : sfs_super) : Prop := SuperWf {
  sw_magic : is_u32 (sp_magic s);
  sw_nblocks : is_u32 (sp_nblocks s);
  sw_volname : length (sp_volname s) = 32%nat;
  sw_reserved : length (sp_reserved s) = 118%nat;
  sw_reserved_u32 : Forall is_u32 (sp_reserved s);
}.

Lemma length_super_bytes s : super_wf s → length (super_bytes s) = 512%nat.
Proof.
  intros []. unfold super_bytes. rewrite !length_app, !length_words_bytes, sw_volname0, sw_reserved0. done.
Qed.

Lemma super_roundtrip s : super_wf s → super_of (super_bytes s) = s.
Proof.
  intros []. assert (length (words_bytes (sp_reserved s)) = 472%nat) as Hw.
  { rewrite length_words_bytes. lia. }
  unfold super_of, super_bytes. destruct s as [mg nb vol rs].
  cbn [sp_magic sp_nblocks sp_volname sp_reserved] in *.
  set (m := be32 mg). set (n := be32 nb). set (W := words_bytes rs) in *. f_equal.
  - rewrite (sub_front m) by done. by apply unbe_be32.
  - rewrite (sub_middle m n) by done. by apply unbe_be32.
  - replace (m ++ n ++ vol ++ W) with ((m ++ n) ++ vol ++ W) by (by rewrite !app_assoc).
    by rewrite (sub_middle (m ++ n) vol) by (done || lia).
  - replace (m ++ n ++ vol ++ W) with ((m ++ n ++ vol) ++ W ++ []) by (by rewrite app_nil_r, !app_assoc).
    rewrite (sub_middle (m ++ n ++ vol) W) by (rewrite ?length_app; simpl; lia).
    unfold W. rewrite <- sw_reserved0. by apply bytes_words_bytes.
Qed.

Lemma dir_roundtrip d : is_u32 (sfd_ino d) → length (sfd_name d) = 60%nat → dir_of (dir_bytes d) = d.
Proof.
  intros Hi Hn. unfold dir_of, dir_bytes. destruct d as [ino nm].
  cbn [sfd_ino sfd_name] in *. set (n := be32 ino). f_equal.
  - rewrite (sub_front n) by done. by apply unbe_be32.
  - replace (n ++ nm) with (n ++ nm ++ []) by (by rewrite app_nil_r).
    by rewrite (sub_middle n nm) by (done || lia).
Qed.

Lemma nonzero_unique l (n m : nat) d :
  NoDup (nonzero l) → l !! n = Some d → l !! m = Some d → d ≠ 0 → n = m.
Proof.
  revert n m. induction l as [|x l IH]; intros n m Hnd Hn Hm Hd; [done|].
  assert (NoDup (nonzero l)) as Hnd'.
  { unfold nonzero in *. rewrite filter_cons in Hnd. destruct (decide (x ≠ 0)); [|done].
    by apply NoDup_cons in Hnd as [_ ?]. }
  assert (x = d → d ∉ l) as Hx.
  { intros ->. unfold nonzero in Hnd. rewrite filter_cons_True in Hnd by done.
    apply NoDup_cons in Hnd as [Hnd _]. intros Hin. apply Hnd. by apply list_elem_of_filter. }
  destruct n as [|n], m as [|m]; simpl in *; simplify_eq; [done|..].
  - apply list_elem_of_lookup_2 in Hm. naive_solver.
  - apply list_elem_of_lookup_2 in Hn. naive_solver.
  - f_equal. by apply IH.
Qed.
