(* ===== verification/SfsSpec.v ===== *)
(** * Files as arrays of bytes

    [fdata f i] is what the file with inode [i] holds: the contents of its 143 blocks, zeros where
    no block is mapped.  [file f p sv O] says that the vnode at [p] is a well-formed file of a
    well-formed volume and that its blocks, and the blocks [O] of everything else, are marked in
    use and are all different.  Every routine is specified by its effect on [fdata], and leaves
    the blocks in [O] as they were. *)

From S2P Require Import Prelude StateM Heap KArray KBitmap Uio SfsDisk Sfs SfsBytes.

(** [fsimpl] reads fields through the updates of the volume. *)
Ltac fsimpl :=
  cbn [sfs_self sfs_super_ sfs_superdirty sfs_device sfs_vnodes sfs_freemap sfs_freemapdirty sfs_mem
       set_super set_superdirty set_device set_vnodes set_freemap set_freemapdirty set_mem
       sv_v sv_i sv_ino sv_dirty sv_set_v sv_set_i sv_set_dirty
       sfi_size sfi_type sfi_linkcount sfi_direct sfi_indirect sfi_waste
       i_set_size i_set_type i_set_linkcount i_set_direct i_set_indirect] in *.

(** ** Volumes *)

Abbreviation nblocks f := (sp_nblocks (sfs_super_ f)).
Abbreviation used f b := (bm_bit (sfs_freemap f) b).
Abbreviation sec f b := (sector (sfs_device f) b).

Record vol_ok (f : sfs_fs) : Prop := VolOk {
  vo_disk : disk_ok (sfs_device f);
  vo_healthy : healthy (sfs_device f);
  vo_size : 0 < nblocks f ≤ d_blocks (sfs_device f);
  vo_map : bitmap_wf (sfs_freemap f);
  vo_bits : nblocks f ≤ bm_nbits (sfs_freemap f);
  vo_tail : ∀ b, nblocks f ≤ b < bm_nbits (sfs_freemap f) → used f b = true;
  vo_zero : used f 0 = true;
}.

(** Blocks in use, all different. *)
Definition bowned (f : sfs_fs) (B : list Z) : Prop :=
  NoDup B ∧ ∀ b, b ∈ B → 0 < b < nblocks f ∧ used f b = true.

#[export] Instance bowned_perm f : Proper ((≡ₚ) ==> iff) (bowned f).
Proof.
  assert (∀ B B', B ≡ₚ B' → bowned f B → bowned f B') as Hgo.
  { intros B B' HB [Hn Hb]. split; [by rewrite <- HB|]. intros b. rewrite <- HB. apply Hb. }
  intros B B' HB. split; by apply Hgo.
Qed.

Lemma bowned_app_r f B B' : bowned f (B ++ B') → bowned f B'.
Proof.
  intros [Hn Hb]. apply NoDup_app in Hn as (_ & _ & Hn). split; [done|].
  intros b Hin. apply Hb. by apply elem_of_app; right.
Qed.

(** ** Files *)

Definition idwords (f : sfs_fs) (i : sfs_inode) : list Z :=
  if sfi_indirect i =? 0 then replicate 128 0 else bytes_words 128 (sec f (sfi_indirect i)).
(** The disk block of every block of the file, zero where there is none. *)
Definition fmap_ (f : sfs_fs) (i : sfs_inode) : list Z := sfi_direct i ++ idwords f i.
Definition file_blocks (f : sfs_fs) (i : sfs_inode) : list Z := nonzero (sfi_indirect i :: fmap_ f i).
Definition blk (f : sfs_fs) (b : Z) : list Z := if b =? 0 then zero_block else sec f b.
Definition fdata (f : sfs_fs) (i : sfs_inode) : list Z := mjoin (blk f <$> fmap_ f i).

Definition MAXBLOCKS : Z := 143.

Record file (f : sfs_fs) (p : Z) (sv : sfs_vnode) (O : list Z) : Prop := File {
  fi_vol : vol_ok f;
  fi_mem : sfs_mem f !! p = Some sv;
  fi_wf : inode_wf (sv_i sv);
  fi_own : bowned f (file_blocks f (sv_i sv) ++ O);
}.

Lemma length_idwords f i : length (idwords f i) = 128%nat.
Proof. unfold idwords. destruct (_ =? 0); [done|apply length_bytes_words]. Qed.

Lemma length_fmap_ f i : inode_wf i → length (fmap_ f i) = 143%nat.
Proof. intros Hw. unfold fmap_. by rewrite length_app, length_idwords, (iw_direct _ Hw). Qed.

Lemma fmap_in_blocks f i b : b ≠ 0 → b ∈ fmap_ f i → b ∈ file_blocks f i.
Proof. intros Hb Hin. apply elem_of_nonzero. split; [done|]. by constructor. Qed.

Lemma file_block_ok f p sv O b :
  file f p sv O → b ∈ fmap_ f (sv_i sv) → b ≠ 0 → 0 < b < nblocks f ∧ used f b = true.
Proof.
  intros [_ _ _ [_ Hb]] Hin H0. apply Hb. apply elem_of_app; left. by apply fmap_in_blocks.
Qed.

Lemma length_blk f p sv O b :
  file f p sv O → b ∈ fmap_ f (sv_i sv) → length (blk f b) = 512%nat.
Proof.
  intros Hf Hin. unfold blk. destruct (b =? 0) eqn:E; [done|].
  destruct (file_block_ok _ _ _ _ _ Hf Hin) as [? _]; [lia|]. destruct Hf as [[]].
  apply length_sector; [done|lia].
Qed.

Lemma blks_512 f p sv O : file f p sv O → Forall (λ l, length l = 512%nat) (blk f <$> fmap_ f (sv_i sv)).
Proof.
  intros Hf. apply Forall_fmap, Forall_forall. intros b Hb. by eapply length_blk.
Qed.

Lemma length_fdata f p sv O : file f p sv O → zlen (fdata f (sv_i sv)) = 512 * 143.
Proof.
  intros Hf. unfold fdata. rewrite (length_join 512) by (by eapply blks_512).
  rewrite length_fmap, length_fmap_ by apply Hf. lia.
Qed.

Lemma fdata_block f p sv O (n : nat) b :
  file f p sv O → fmap_ f (sv_i sv) !! n = Some b →
  sub (fdata f (sv_i sv)) (512 * Z.of_nat n) 512 = blk f b.
Proof.
  intros Hf Hn. apply (sub_join 512); [by eapply blks_512|]. by rewrite list_lookup_fmap, Hn.
Qed.

(** Nothing the file owns is in [O]. *)
Lemma file_disjoint f p sv O b : file f p sv O → b ∈ file_blocks f (sv_i sv) → b ∉ O.
Proof. intros [_ _ _ [Hn _]] Hb. apply NoDup_app in Hn as (_ & Hd & _). by apply Hd. Qed.

Lemma idwords_ext f f' i :
  (sfi_indirect i ≠ 0 → sec f' (sfi_indirect i) = sec f (sfi_indirect i)) → idwords f' i = idwords f i.
Proof. intros Hs. unfold idwords. destruct (_ =? 0) eqn:E; [done|]. by rewrite Hs by lia. Qed.

Lemma fmap_ext f f' i :
  (sfi_indirect i ≠ 0 → sec f' (sfi_indirect i) = sec f (sfi_indirect i)) → fmap_ f' i = fmap_ f i.
Proof. intros Hs. unfold fmap_. by rewrite (idwords_ext f f'). Qed.

(** A file looks the same when its blocks do. *)
Lemma file_ext f f' i :
  (∀ b, b ∈ file_blocks f i → sec f' b = sec f b) →
  fmap_ f' i = fmap_ f i ∧ file_blocks f' i = file_blocks f i ∧ fdata f' i = fdata f i.
Proof.
  intros Hs. assert (fmap_ f' i = fmap_ f i) as Hm.
  { apply fmap_ext. intros H0. apply Hs. apply elem_of_nonzero. split; [done|constructor]. }
  split_and!; [done|unfold file_blocks; by rewrite Hm|].
  unfold fdata. rewrite Hm. f_equal. apply list_fmap_ext. intros n b Hb. unfold blk.
  destruct (b =? 0) eqn:E; [done|]. apply Hs, fmap_in_blocks; [lia|]. by eapply list_elem_of_lookup_2.
Qed.

(** ** Blocks *)

Section blocks.
Variable U : usermem.

Definition put_sec (b : Z) (s : list Z) (f : sfs_fs) : sfs_fs :=
  set_device (put_sector b s (sfs_device f)) f.

Lemma rblock_ok f data b Φ :
  vol_ok f → 0 ≤ b < nblocks f → length data = 512%nat → Φ (0, sec f b) f → wps (rblock U data b) f Φ.
Proof.
  intros [Hd Hh Hs _ _ _ _] Hb Hl HΦ. unfold rblock. wps_step. rewrite wps_lift, rblock_spec by (done || lia).
  wp_val. wps_step. by replace (set_device (sfs_device f) f) with f by (by destruct f).
Qed.

Lemma wblock_ok f data b Φ :
  vol_ok f → 0 ≤ b < nblocks f → length data = 512%nat → Φ 0 (put_sec b data f) → wps (wblock U data b) f Φ.
Proof.
  intros [Hd Hh Hs _ _ _ _] Hb Hl HΦ. unfold wblock. wps_step. rewrite wps_lift, wblock_spec by (done || lia).
  wp_val. by wps_step.
Qed.

Lemma put_sec_vol f b s : vol_ok f → length s = 512%nat → vol_ok (put_sec b s f).
Proof. intros [] Hs. constructor; try done. by apply put_sector_ok. Qed.

Lemma sec_put f b s b' :
  vol_ok f → 0 ≤ b < nblocks f → 0 ≤ b' →
  sec (put_sec b s f) b' = if decide (b' = b) then s else sec f b'.
Proof. intros [] Hb Hb'. apply sector_put; (done || lia). Qed.

(** [f'] is [f] with block [b], free before, taken and cleared. *)
Definition allocated (f : sfs_fs) (b : Z) (f' : sfs_fs) : Prop :=
  0 < b < nblocks f ∧ used f b = false ∧ vol_ok f' ∧
  ∃ bm, bm_update (sfs_freemap f) bm b true ∧
    f' = put_sec b zero_block (set_freemapdirty 1 (set_freemap bm f)).

Definition full (f : sfs_fs) : Prop := ∀ b, 0 ≤ b < nblocks f → used f b = true.

Lemma vol_set_map f bm b :
  vol_ok f → bitmap_wf bm → bm_update (sfs_freemap f) bm b true →
  vol_ok (set_freemapdirty 1 (set_freemap bm f)).
Proof.
  intros [] Hw (Hself & Hn & Hv & Hb). constructor; simpl; try done; [by rewrite Hn| |].
  - intros b' Hb'. rewrite Hb by lia. destruct (b' =? b); [done|]. apply vo_tail0. by rewrite <- Hn.
  - rewrite Hb by lia. by destruct (0 =? b).
Qed.

Lemma balloc_spec f :
  vol_ok f →
  wps (sfs_balloc U) f (λ '(r, b) f', (r = 0 ∧ allocated f b f') ∨ (r = ENOSPC ∧ f' = f ∧ full f)).
Proof.
  intros Hv. pose proof Hv as []. unfold sfs_balloc. wps_step. rewrite wps_lift.
  eapply wp_mono; [by apply bitmap_alloc_spec|].
  intros [[r b] bm] [(-> & Hb & Hc & Hmin & Hw & Hup)|(-> & -> & Hall)].
  - wps_step. simpl. wps_step.
    assert (b < nblocks f) as Hlt.
    { destruct (decide (b < nblocks f)); [done|]. by rewrite vo_tail0 in Hc by lia. }
    assert (b ≠ 0) by (intros ->; by rewrite vo_zero0 in Hc).
    fsimpl. replace (b >=? sp_nblocks (sfs_super_ f)) with false by lia. wps_step. unfold sfs_clearblock.
    pose proof (vol_set_map f bm b Hv Hw Hup) as Hv'.
    apply wblock_ok; [done|simpl; lia|done|]. wps_step. left. split; [done|].
    split; [lia|]. split; [done|]. split; [by apply put_sec_vol|]. by exists bm.
  - wps_step. simpl. wps_step. right. split; [done|]. split; [by destruct f|].
    intros b' Hb'. apply Hall. lia.
Qed.

Lemma allocated_sec f b f' b' :
  vol_ok f → allocated f b f' → 0 ≤ b' → sec f' b' = if decide (b' = b) then zero_block else sec f b'.
Proof.
  intros [] (Hb & _ & _ & bm & _ & ->) Hb'. simpl. apply sector_put; (done || lia).
Qed.

Lemma allocated_own f b f' B : allocated f b f' → bowned f B → bowned f' (b :: B) ∧ b ∉ B.
Proof.
  intros (Hb & Hu & _ & bm & (_ & _ & _ & Hbit) & ->) [Hn HB].
  assert (b ∉ B) as Hnb by (intros Hin; destruct (HB b Hin) as [_ Ht]; congruence).
  split; [|done]. split; [by constructor|]. intros b' [->|Hin]%elem_of_cons; simpl.
  - split; [lia|]. rewrite Hbit by lia. by rewrite Z.eqb_refl.
  - destruct (HB b' Hin) as [Hr Ht]. split; [done|]. rewrite Hbit by lia. by destruct (b' =? b).
Qed.

Lemma allocated_same f b f' :
  allocated f b f' → sfs_self f' = sfs_self f ∧ sfs_super_ f' = sfs_super_ f ∧
  sfs_superdirty f' = sfs_superdirty f ∧ sfs_vnodes f' = sfs_vnodes f ∧ sfs_mem f' = sfs_mem f.
Proof. by intros (_ & _ & _ & bm & _ & ->). Qed.

Lemma bused_spec f b Φ :
  vol_ok f → 0 ≤ b < nblocks f → (∀ r, (r =? 0) = negb (used f b) → Φ r f) → wps (sfs_bused b) f Φ.
Proof.
  intros [] Hb HΦ. unfold sfs_bused. wps_step. replace (b >=? sp_nblocks (sfs_super_ f)) with false by lia.
  wps_step. rewrite wps_lift. eapply wp_mono; [apply bitmap_isset_spec; [done|lia]|]. done.
Qed.

Lemma bmap_answer_spec f b Φ :
  vol_ok f → (b ≠ 0 → 0 < b < nblocks f ∧ used f b = true) → Φ (0, b) f → wps (bmap_answer b) f Φ.
Proof.
  intros Hv Hb HΦ. unfold bmap_answer. destruct (negb (b =? 0)) eqn:E; [|by wps_step].
  destruct Hb as [Hr Hu]; [lia|]. wps_step. apply bused_spec; [done|lia|]. intros r Hr'.
  rewrite Hu in Hr'. simpl in Hr'. rewrite Hr'. by wps_step.
Qed.
End blocks.

(** ** Steps on one file *)

(** The superblock on disk stays, and the map is marked dirty when it changes. *)
Definition map_kept (f f' : sfs_fs) : Prop :=
  sec f' 0 = sec f 0 ∧
  ((sfs_freemap f' = sfs_freemap f ∧ sfs_freemapdirty f' = sfs_freemapdirty f) ∨ sfs_freemapdirty f' = 1).

Lemma map_kept_refl f : map_kept f f.
Proof. split; [done|by left]. Qed.
Lemma map_kept_trans f f1 f2 : map_kept f f1 → map_kept f1 f2 → map_kept f f2.
Proof. intros [Hs Hm] [Hs' [[Hm' Hd']|Hd']]; (split; [congruence|]); [rewrite Hm', Hd'; done|by right]. Qed.

(** From [f] to [f'] the file at [p] is still a file, and nothing changes that is not its own. *)
Record fstep (p : Z) (O : list Z) (sv : sfs_vnode) (f : sfs_fs) (sv' : sfs_vnode) (f' : sfs_fs) : Prop := FStep {
  fs_file : file f' p sv' O;
  fs_sec : ∀ b, b ∈ O → sec f' b = sec f b;
  fs_mem : sfs_mem f' = <[p := sv']> (sfs_mem f);
  fs_same : sfs_self f' = sfs_self f ∧ sfs_super_ f' = sfs_super_ f ∧
    sfs_superdirty f' = sfs_superdirty f ∧ sfs_vnodes f' = sfs_vnodes f ∧
    bm_nbits (sfs_freemap f') = bm_nbits (sfs_freemap f) ∧
    bm_self (sfs_freemap f') = bm_self (sfs_freemap f) ∧
    bm_vptr (sfs_freemap f') = bm_vptr (sfs_freemap f) ∧
    d_blocks (sfs_device f') = d_blocks (sfs_device f);
  fs_meta : sv_v sv' = sv_v sv ∧ sv_ino sv' = sv_ino sv ∧ sfi_type (sv_i sv') = sfi_type (sv_i sv) ∧
    sfi_linkcount (sv_i sv') = sfi_linkcount (sv_i sv) ∧ sfi_waste (sv_i sv') = sfi_waste (sv_i sv);
  fs_dirty : sv_dirty sv' = 1 ∨ sv' = sv;
  fs_map : map_kept f f';
}.

Lemma fstep_refl p O sv f : file f p sv O → fstep p O sv f sv f.
Proof.
  intros Hf. constructor; [done|done| |split_and!; done|split_and!; done|by right|apply map_kept_refl].
  symmetry. apply insert_id, Hf.
Qed.

Lemma fstep_trans p O sv f sv1 f1 sv2 f2 :
  fstep p O sv f sv1 f1 → fstep p O sv1 f1 sv2 f2 → fstep p O sv f sv2 f2.
Proof.
  intros [Hf Hs Hm Hsm Ht Hd Hk] [Hf' Hs' Hm' Hsm' Ht' Hd' Hk']. constructor; [done| | | | | |by eapply map_kept_trans].
  - intros b Hb. by rewrite Hs', Hs.
  - by rewrite Hm', Hm, insert_insert_eq.
  - destruct Hsm as (?&?&?&?&?&?&?&?), Hsm' as (?&?&?&?&?&?&?&?). split_and!; congruence.
  - destruct Ht as (?&?&?&?&?), Ht' as (?&?&?&?&?). split_and!; congruence.
  - destruct Hd' as [?| ->]; [by left|done].
Qed.

(** The vnode with a new inode. *)
Abbreviation renewed g sv := (sv_set_dirty 1 (sv_set_i (g (sv_i sv)) sv)).
Definition renew (p : Z) (g : sfs_inode → sfs_inode) (sv : sfs_vnode) (f : sfs_fs) : sfs_fs :=
  set_mem (<[p := renewed g sv]> (sfs_mem f)) f.

Lemma touch_inode_ok f p sv g Φ :
  sfs_mem f !! p = Some sv → Φ tt (renew p g sv f) → wps (touch_inode p g) f Φ.
Proof.
  intros Hm HΦ. unfold touch_inode, get_vn. rewrite wps_bind. unfold wps at 1. rewrite Hm. wp_val.
  unfold put_vn. by wps_step.
Qed.

Lemma get_vn_ok f p sv Φ : sfs_mem f !! p = Some sv → Φ sv f → wps (get_vn p) f Φ.
Proof. intros Hm HΦ. unfold get_vn, wps. by rewrite Hm. Qed.

Section fill.
Context (f : sfs_fs) (p : Z) (sv : sfs_vnode) (O : list Z) (b : Z) (f1 : sfs_fs).
Hypothesis Hfile : file f p sv O.
Hypothesis Halloc : allocated f b f1.
#[local] Abbreviation i := (sv_i sv).

Lemma fill_facts :
  b ≠ 0 ∧ is_u32 b ∧ b ∉ file_blocks f i ++ O ∧ bowned f1 (b :: file_blocks f i ++ O) ∧
  sec f1 b = zero_block ∧ (∀ b', b' ∈ file_blocks f i ++ O → sec f1 b' = sec f b').
Proof using Hfile Halloc.
  destruct (allocated_own _ _ _ _ Halloc (fi_own _ _ _ _ Hfile)) as [Ho Hn].
  pose proof Halloc as (Hb & _ & _). pose proof (fi_vol _ _ _ _ Hfile) as Hv.
  split; [lia|]. split.
  { destruct Hv. pose proof (do_max _ vo_disk0). unfold is_u32. lia. }
  split; [done|]. split; [done|]. split.
  - rewrite (allocated_sec f b f1) by (done || lia). by rewrite decide_True.
  - intros b' Hb'. destruct (fi_own _ _ _ _ Hfile) as [_ HB]. destruct (HB b' Hb') as [Hr _].
    rewrite (allocated_sec f b f1) by (done || lia). rewrite decide_False; [done|]. by intros ->.
Qed.

(** The steps that put the new block into the file: the new vnode [sv2] on volume [f2]. *)
Lemma fill_step sv2 f2 :
  (∀ b', b' = 0 ∨ b' ∈ O → sec f2 b' = sec f1 b') → vol_ok f2 →
  file_blocks f2 (sv_i sv2) ≡ₚ b :: file_blocks f i → inode_wf (sv_i sv2) →
  sv_v sv2 = sv_v sv ∧ sv_ino sv2 = sv_ino sv ∧ sfi_type (sv_i sv2) = sfi_type i ∧
    sfi_linkcount (sv_i sv2) = sfi_linkcount i ∧ sfi_waste (sv_i sv2) = sfi_waste i →
  sv_dirty sv2 = 1 ∨ sv2 = sv →
  sfs_mem f2 = <[p := sv2]> (sfs_mem f) →
  sfs_self f2 = sfs_self f1 ∧ sfs_super_ f2 = sfs_super_ f1 ∧
    sfs_superdirty f2 = sfs_superdirty f1 ∧ sfs_vnodes f2 = sfs_vnodes f1 ∧
    sfs_freemap f2 = sfs_freemap f1 ∧ d_blocks (sfs_device f2) = d_blocks (sfs_device f1) ∧
    sfs_freemapdirty f2 = sfs_freemapdirty f1 →
  fstep p O sv f sv2 f2.
Proof using Hfile Halloc.
  intros Hs Hv Hp Hw Hme Hdirty Hm (S1 & S2 & S3 & S4 & S5 & S6 & S7).
  destruct fill_facts as (_ & _ & _ & Ho & _ & Hsec).
  constructor; [| |done| |done|done|].
  - constructor; [done|by rewrite Hm, lookup_insert_eq|done|]. rewrite Hp.
    destruct Ho as [Hnd HB]. split; [done|]. intros b' Hb'. rewrite S2, S5. by apply HB.
  - intros b' Hb'. rewrite Hs by (by right). apply Hsec. apply elem_of_app. by right.
  - destruct Halloc as (_ & _ & _ & bm & (Hx & Hy & Hz & _) & ->). rewrite S1, S2, S3, S4, S5, S6. by split_and!.
  - pose proof Halloc as (Hb & _). split.
    + rewrite Hs by (by left). rewrite (allocated_sec f b f1); [|apply Hfile|done|lia]. rewrite decide_False by lia. done.
    + right. rewrite S7. by destruct Halloc as (_ & _ & _ & bm & _ & ->).
Qed.

Lemma fill_vol : vol_ok f1.
Proof using Halloc. by destruct Halloc as (_ & _ & Hv & _). Qed.

Lemma fill_mem : sfs_mem f1 = sfs_mem f.
Proof using Halloc. by apply (allocated_same f b f1). Qed.

(** The contents of the blocks the file had. *)
Lemma fill_blk b' : b' ∈ fmap_ f i → blk f1 b' = blk f b'.
Proof using Hfile Halloc.
  intros Hb'. unfold blk. destruct (b' =? 0) eqn:E; [done|].
  destruct fill_facts as (_ & _ & _ & _ & _ & Hsec). apply Hsec. apply elem_of_app. left.
  apply fmap_in_blocks; [lia|done].
Qed.

Lemma fill_idwords : idwords f1 i = idwords f i.
Proof using Hfile Halloc.
  apply idwords_ext. intros H0. destruct fill_facts as (_ & _ & _ & _ & _ & Hsec). apply Hsec.
  apply elem_of_app. left. apply elem_of_nonzero. split; [done|constructor].
Qed.

(** A hole that becomes a block of zeros is not seen. *)
Lemma fill_fdata f2 (n : nat) m :
  m = <[n := b]> (fmap_ f i) → fmap_ f i !! n = Some 0 →
  (∀ b', b' ∈ fmap_ f i → blk f2 b' = blk f b') → blk f2 b = zero_block →
  mjoin (blk f2 <$> m) = fdata f i.
Proof using Type.
  intros -> Hn Hold Hnew. unfold fdata. f_equal. rewrite list_fmap_insert, Hnew.
  rewrite (list_fmap_ext (blk f2) (blk f) (fmap_ f i)).
  2:{ intros k b' Hb'. apply Hold. by eapply list_elem_of_lookup_2. }
  apply list_insert_id. by rewrite list_lookup_fmap, Hn.
Qed.

Lemma fill_direct (n : nat) (sv2 := renewed (i_set_direct (<[n := b]> (sfi_direct i))) sv)
    (f2 := renew p (i_set_direct (<[n := b]> (sfi_direct i))) sv f1) :
  sfi_direct i !! n = Some 0 →
  fstep p O sv f sv2 f2 ∧ fmap_ f2 (sv_i sv2) = <[n := b]> (fmap_ f i) ∧
  fdata f2 (sv_i sv2) = fdata f i.
Proof using Hfile Halloc.
  intros Hn. pose proof (lookup_lt_Some _ _ _ Hn) as Hlt.
  destruct fill_facts as (Hb0 & Hbu & Hnew & Hown & Hz & Hsec).
  assert (fmap_ f2 (sv_i sv2) = <[n := b]> (fmap_ f i)) as Hmap.
  { unfold fmap_ at 2. rewrite insert_app_l by done. unfold fmap_. f_equal. apply fill_idwords. }
  assert (fmap_ f i !! n = Some 0) as Hn' by (unfold fmap_; by rewrite lookup_app_l).
  split; [|split; [done|]].
  - apply fill_step.
    + done.
    + pose proof fill_vol as []. by constructor.
    + unfold file_blocks. rewrite Hmap. change (sfi_indirect (sv_i sv2)) with (sfi_indirect i).
      apply (nonzero_fill (sfi_indirect i :: fmap_ f i) (S n) b); done.
    + destruct (fi_wf _ _ _ _ Hfile). unfold sv2. constructor; fsimpl; try done.
      * by rewrite length_insert.
      * by apply Forall_insert.
    + done.
    + by left.
    + unfold f2, renew. fsimpl. by rewrite fill_mem.
    + done.
  - unfold fdata at 1. eapply (fill_fdata f2 n); [done|done| |].
    + intros b' Hb'. by apply fill_blk.
    + unfold blk. replace (b =? 0) with false by lia. done.
Qed.

Lemma fill_indirect (sv2 := renewed (i_set_indirect b) sv) (f2 := renew p (i_set_indirect b) sv f1) :
  sfi_indirect i = 0 →
  fstep p O sv f sv2 f2 ∧ fmap_ f2 (sv_i sv2) = fmap_ f i ∧ fdata f2 (sv_i sv2) = fdata f i ∧
  idwords f2 (sv_i sv2) = replicate 128 0.
Proof using Hfile Halloc.
  intros Hn. destruct fill_facts as (Hb0 & Hbu & Hnew & Hown & Hz & Hsec).
  assert (idwords f2 (sv_i sv2) = replicate 128 0) as Hid.
  { unfold idwords, sv2. fsimpl. replace (b =? 0) with false by lia.
    change (sec f2 b) with (sec f1 b). rewrite Hz. apply bytes_words_zeros. lia. }
  assert (fmap_ f2 (sv_i sv2) = fmap_ f i) as Hmap.
  { unfold fmap_. rewrite Hid. unfold idwords. by rewrite Hn. }
  split; [|split; [done|split; [|done]]].
  - apply fill_step.
    + done.
    + pose proof fill_vol as []. by constructor.
    + unfold file_blocks. rewrite Hmap, Hn. unfold sv2. fsimpl. unfold nonzero.
      rewrite filter_cons_True, filter_cons_False by lia. done.
    + destruct (fi_wf _ _ _ _ Hfile). by constructor.
    + done.
    + by left.
    + unfold f2, renew. fsimpl. by rewrite fill_mem.
    + done.
  - unfold fdata. rewrite Hmap. f_equal. apply list_fmap_ext. intros k b' Hb'. apply fill_blk.
    by eapply list_elem_of_lookup_2.
Qed.

Lemma entries_u32 : Forall is_u32 (fmap_ f i).
Proof using Hfile.
  apply Forall_forall. intros b' Hb'. destruct (decide (b' = 0)) as [->|Hne]; [done|].
  destruct (file_block_ok _ _ _ _ _ Hfile Hb' Hne) as [Hr _].
  destruct (fi_vol _ _ _ _ Hfile). pose proof (do_max _ vo_disk0). unfold is_u32. lia.
Qed.

#[local] Lemma indirect_apart b' : sfi_indirect i ≠ 0 → b' ∈ fmap_ f i → b' ≠ 0 → b' ≠ sfi_indirect i.
Proof using Hfile.
  intros Hid Hb' H0 ->. destruct (fi_own _ _ _ _ Hfile) as [Hnd _].
  apply NoDup_app in Hnd as [Hnd _]. unfold file_blocks, nonzero in Hnd.
  rewrite filter_cons_True in Hnd by done. apply NoDup_cons in Hnd as [Hnd _]. apply Hnd.
  by apply elem_of_nonzero.
Qed.

Lemma fill_entry (n : nat)
    (f2 := put_sec (sfi_indirect i) (words_bytes (<[n := b]> (idwords f i))) f1) :
  sfi_indirect i ≠ 0 → idwords f i !! n = Some 0 →
  fstep p O sv f sv f2 ∧ fmap_ f2 i = <[(15 + n)%nat := b]> (fmap_ f i) ∧ fdata f2 i = fdata f i.
Proof using Hfile Halloc.
  intros Hid Hn. destruct fill_facts as (Hb0 & Hbu & Hnew & Hown & Hz & Hsec).
  set (ws := <[n := b]> (idwords f i)) in *.
  assert (length ws = 128%nat) as Hlen by (unfold ws; by rewrite length_insert, length_idwords).
  assert (sfi_indirect i ∈ file_blocks f i) as Hin by (apply elem_of_nonzero; split; [done|constructor]).
  assert (0 < sfi_indirect i < nblocks f ∧ used f (sfi_indirect i) = true) as [Hir _].
  { apply (fi_own _ _ _ _ Hfile). apply elem_of_app. by left. }
  pose proof fill_vol as Hv1. destruct (allocated_same _ _ _ Halloc) as (_ & Hsup & _).
  assert (∀ b', 0 ≤ b' → sec f2 b' = if decide (b' = sfi_indirect i) then words_bytes ws else sec f1 b') as Hs2.
  { intros b' Hb'. apply sec_put; [done|rewrite Hsup; lia|done]. }
  assert (idwords f2 i = ws) as Hw.
  { unfold idwords. replace (sfi_indirect i =? 0) with false by lia. rewrite Hs2, decide_True by lia.
    rewrite <- Hlen. apply bytes_words_bytes. unfold ws. apply Forall_insert; [|done].
    pose proof entries_u32 as Hu. unfold fmap_ in Hu. by apply Forall_app in Hu as [_ ?]. }
  assert (fmap_ f2 i = <[(15 + n)%nat := b]> (fmap_ f i)) as Hmap.
  { unfold fmap_. rewrite Hw. unfold ws. rewrite <- (iw_direct _ (fi_wf _ _ _ _ Hfile)).
    by rewrite insert_app_r. }
  assert (fmap_ f i !! (15 + n)%nat = Some 0) as Hn'.
  { unfold fmap_. rewrite lookup_app_r; rewrite (iw_direct _ (fi_wf _ _ _ _ Hfile)); [|lia].
    rewrite <- Hn. f_equal. lia. }
  split; [|split; [done|]].
  - apply fill_step.
    + intros b' [->|Hb']; [rewrite Hs2 by done; by rewrite decide_False by lia|].
      assert (0 ≤ b') by (destruct (fi_own _ _ _ _ Hfile) as [_ HB];
        destruct (HB b') as [? _]; [apply elem_of_app; by right|lia]).
      rewrite Hs2 by done. rewrite decide_False; [done|]. intros ->. by eapply file_disjoint.
    + apply put_sec_vol; [done|]. rewrite length_words_bytes. lia.
    + unfold file_blocks. rewrite Hmap. apply (nonzero_fill (sfi_indirect i :: fmap_ f i) (S (15 + n)) b); done.
    + apply Hfile.
    + done.
    + by right.
    + unfold f2, put_sec. fsimpl. rewrite fill_mem. symmetry. apply insert_id, Hfile.
    + done.
  - unfold fdata at 1. eapply (fill_fdata f2 (15 + n)); [done|done| |].
    + intros b' Hb'. rewrite <- fill_blk by done. unfold blk. destruct (b' =? 0) eqn:E; [done|].
      pose proof (proj1 (Forall_forall _ _) entries_u32 b' Hb') as Hu'.
      rewrite Hs2 by (unfold is_u32 in Hu'; lia). rewrite decide_False; [done|]. apply indirect_apart; [done|done|lia].
    + unfold blk. replace (b =? 0) with false by lia. rewrite Hs2 by (unfold is_u32 in Hbu; lia).
      rewrite decide_False; [done|]. intros ->. apply Hnew. apply elem_of_app. by left.
Qed.
End fill.

(** ** Block mapping *)

(** What [sfs_bmap] answers for block [n] of the file: the block, where there is one or one may be
    allocated; the contents of the file do not change. *)
Definition bmap_post (p n : Z) (doalloc : bool) (O : list Z) (sv : sfs_vnode) (f : sfs_fs)
    (a : Z * Z) (f' : sfs_fs) : Prop :=
  ∃ sv', fstep p O sv f sv' f' ∧ fdata f' (sv_i sv') = fdata f (sv_i sv) ∧
    sfi_size (sv_i sv') = sfi_size (sv_i sv) ∧
    ((a.1 = 0 ∧ n < MAXBLOCKS ∧ fmap_ f' (sv_i sv') !! Z.to_nat n = Some a.2 ∧
      (if doalloc then a.2 ≠ 0 else f' = f)) ∨
     (a.1 = ENOSPC ∧ doalloc = true ∧ full f' ∧ fmap_ f (sv_i sv) !! Z.to_nat n = Some 0) ∨
     (a.1 = EINVAL ∧ MAXBLOCKS ≤ n ∧ f' = f)).

Section bmap.
Variable U : usermem.

Lemma bmap_found f p sv O n (doalloc : bool) sv' f' b :
  fstep p O sv f sv' f' → fdata f' (sv_i sv') = fdata f (sv_i sv) →
  sfi_size (sv_i sv') = sfi_size (sv_i sv) → fmap_ f' (sv_i sv') !! Z.to_nat n = Some b →
  n < MAXBLOCKS → (if doalloc then b ≠ 0 else f' = f) →
  wps (bmap_answer b) f' (bmap_post p n doalloc O sv f).
Proof.
  intros Hst Hd Hs Hm Hn Ha. apply bmap_answer_spec; [apply Hst| |].
  - intros H0. eapply file_block_ok; [apply Hst| |done]. by eapply list_elem_of_lookup_2.
  - exists sv'. split_and!; try done. by left.
Qed.

Lemma bmap_full f p sv O n (b : Z) :
  file f p sv O → full f → fmap_ f (sv_i sv) !! Z.to_nat n = Some 0 → bmap_post p n true O sv f (ENOSPC, b) f.
Proof. intros Hf Hfull Hn. exists sv. split; [by apply fstep_refl|]. split_and!; try done. right. by left. Qed.

Lemma bmap_direct_spec f p sv O n doalloc :
  file f p sv O → 0 ≤ n < 15 →
  wps (bmap_direct U p n doalloc) f (bmap_post p n doalloc O sv f).
Proof.
  intros Hf Hn. unfold bmap_direct. rewrite wps_bind. eapply get_vn_ok; [apply Hf|]. wps_step.
  rewrite wps_lift. apply wp_getz; [rewrite (iw_direct _ (fi_wf _ _ _ _ Hf)); lia|]. intros b Hb.
  assert (fmap_ f (sv_i sv) !! Z.to_nat n = Some b) as Hm by (unfold fmap_; by apply lookup_app_l_Some).
  destruct ((b =? 0) && doalloc) eqn:E.
  - apply andb_true_iff in E as [E ->]. replace b with 0 in * by lia.
    wps_call balloc_spec; [apply Hf|]. intros [r b'] f1 [(-> & Ha)|(-> & -> & Hfull)]; simpl.
    + wps_step. rewrite wps_lift. apply wp_setz; [by apply lookup_lt_Some in Hb; lia|]. wps_step.
      destruct (fill_direct f p sv O b' f1 Hf Ha (Z.to_nat n) Hb) as (Hst & Hmap & Hd).
      destruct (fill_facts f p sv O b' f1 Hf Ha) as (Hb0 & _).
      eapply touch_inode_ok; [rewrite (fill_mem f b' f1 Ha); apply Hf|].
      eapply bmap_found; [exact Hst|exact Hd|done| |unfold MAXBLOCKS; lia|done].
      rewrite Hmap. apply list_lookup_insert_eq. by apply lookup_lt_Some in Hm.
    + wps_step. by apply bmap_full.
  - eapply bmap_found; [by apply fstep_refl|done|done|done|unfold MAXBLOCKS; lia|].
    destruct doalloc; [lia|done].
Qed.

Lemma bmap_indirect_spec f p sv O k doalloc :
  file f p sv O → sfi_indirect (sv_i sv) ≠ 0 → 0 ≤ k < 128 →
  wps (bmap_indirect U (sfi_indirect (sv_i sv)) (idwords f (sv_i sv)) k doalloc) f
    (bmap_post p (15 + k) doalloc O sv f).
Proof.
  intros Hf Hid Hk. unfold bmap_indirect. wps_step. rewrite wps_lift.
  apply wp_getz; [rewrite length_idwords; lia|]. intros b Hb.
  assert (fmap_ f (sv_i sv) !! Z.to_nat (15 + k) = Some b) as Hm.
  { unfold fmap_. rewrite lookup_app_r; rewrite (iw_direct _ (fi_wf _ _ _ _ Hf)); [|lia].
    rewrite <- Hb. f_equal. lia. }
  destruct ((b =? 0) && doalloc) eqn:E.
  - apply andb_true_iff in E as [E ->]. replace b with 0 in * by lia.
    wps_call balloc_spec; [apply Hf|]. intros [r b'] f1 [(-> & Ha)|(-> & -> & Hfull)]; simpl.
    + wps_step. rewrite wps_lift. apply wp_setz; [rewrite length_idwords; lia|]. wps_step.
      destruct (fill_entry f p sv O b' f1 Hf Ha (Z.to_nat k) Hid Hb) as (Hst & Hmap & Hd).
      destruct (fill_facts f p sv O b' f1 Hf Ha) as (Hb0 & _).
      replace (15 + Z.to_nat k)%nat with (Z.to_nat (15 + k)) in Hmap by lia.
      apply wblock_ok; [by eapply fill_vol| |rewrite length_words_bytes, length_insert, length_idwords; lia|].
      { destruct (allocated_same _ _ _ Ha) as (_ & -> & _).
        destruct (fi_own _ _ _ _ Hf) as [_ HB]. destruct (HB (sfi_indirect (sv_i sv))) as [? _]; [|lia].
        apply elem_of_app. left. apply elem_of_nonzero. split; [done|constructor]. }
      simpl negb. cbn match. eapply bmap_found; [exact Hst|exact Hd|done| |unfold MAXBLOCKS; lia|done].
      rewrite Hmap. apply list_lookup_insert_eq. by apply lookup_lt_Some in Hm.
    + wps_step. by apply bmap_full.
  - eapply bmap_found; [by apply fstep_refl|done|done|done|unfold MAXBLOCKS; lia|].
    destruct doalloc; [lia|done].
Qed.

(** After a step that is not seen, what holds of the rest holds of the whole. *)
Lemma bmap_after f p sv O n doalloc sv1 f1 a f' :
  fstep p O sv f sv1 f1 → fmap_ f1 (sv_i sv1) = fmap_ f (sv_i sv) → fdata f1 (sv_i sv1) = fdata f (sv_i sv) →
  sfi_size (sv_i sv1) = sfi_size (sv_i sv) → doalloc = true → n < MAXBLOCKS →
  bmap_post p n doalloc O sv1 f1 a f' → bmap_post p n doalloc O sv f a f'.
Proof.
  intros Hst Hm Hd Hs -> Hn (sv' & Hst' & Hd' & Hs' & Hr). exists sv'.
  split; [by eapply fstep_trans|]. split; [congruence|]. split; [congruence|]. rewrite Hm in Hr.
  destruct Hr as [?|[?|(_ & ? & _)]]; [by left|right; by left|lia].
Qed.

Lemma bmap_spec f p sv O n doalloc :
  file f p sv O → is_u32 n → wps (sfs_bmap U p n doalloc) f (bmap_post p n doalloc O sv f).
Proof.
  intros Hf Hn. unfold is_u32 in Hn. unfold sfs_bmap, SFS_NDIRECT, SFS_DBPERIDB.
  destruct (n <? 15) eqn:E15; [apply bmap_direct_spec; [done|lia]|].
  rewrite u32_id by in_range.
  assert (∀ f0, file f0 p sv O → bmap_post p n doalloc O sv f0 (EINVAL, 0) f0 ∨ n < MAXBLOCKS) as Hbig.
  { intros f0 Hf0. destruct (decide (n < MAXBLOCKS)); [by right|]. left. exists sv.
    split; [by apply fstep_refl|]. split_and!; try done. right. right. simpl. split_and!; [done|lia|done]. }
  destruct ((n - 15) / 128 >? 0) eqn:Eid.
  { wps_step. destruct (Hbig f Hf) as [?|Hlt]; [done|]. unfold MAXBLOCKS in Hlt.
    rewrite Z.div_small in Eid by lia. done. }
  assert (n < MAXBLOCKS) as Hmax.
  { unfold MAXBLOCKS. destruct (decide (n < 143)); [done|].
    assert (1 ≤ (n - 15) / 128) by (apply Z.div_le_lower_bound; lia). lia. }
  unfold MAXBLOCKS in Hmax. rewrite (Z.mod_small (n - 15)) by lia.
  rewrite wps_bind. eapply get_vn_ok; [apply Hf|].
  destruct (sfi_indirect (sv_i sv) =? 0) eqn:E0; simpl.
  - destruct doalloc; simpl.
    + wps_call balloc_spec; [apply Hf|]. intros [r b] f1 [(-> & Ha)|(-> & -> & Hfull)]; simpl.
      * destruct (fill_indirect f p sv O b f1 Hf Ha ltac:(lia)) as (Hst & Hmap & Hd & Hz).
        destruct (fill_facts f p sv O b f1 Hf Ha) as (Hb0 & _).
        wps_step. eapply touch_inode_ok; [rewrite (fill_mem f b f1 Ha); apply Hf|].
        pose proof (bmap_indirect_spec _ _ _ _ (n - 15) true (fs_file _ _ _ _ _ _ Hst) Hb0 ltac:(lia)) as Hw.
        rewrite Hz in Hw. replace (15 + (n - 15)) with n in Hw by lia.
        eapply wps_mono; [exact Hw|]. intros a f'. by apply bmap_after.
      * wps_step. apply bmap_full; [done|done|]. unfold fmap_, idwords. rewrite E0.
        rewrite lookup_app_r; rewrite (iw_direct _ (fi_wf _ _ _ _ Hf)); [|lia].
        apply lookup_replicate. split; [done|lia].
    + wps_step. exists sv. split; [by apply fstep_refl|]. split; [done|]. split; [done|]. left.
      split; [done|]. split; [done|]. split; [|done]. unfold fmap_, idwords. rewrite E0.
      rewrite lookup_app_r; rewrite (iw_direct _ (fi_wf _ _ _ _ Hf)); [|lia].
      apply lookup_replicate. split; [done|lia].
  - wps_step. apply rblock_ok; [apply Hf| |done|].
    { destruct (fi_own _ _ _ _ Hf) as [_ HB]. destruct (HB (sfi_indirect (sv_i sv))) as [? _]; [|lia].
      apply elem_of_app. left. apply elem_of_nonzero. split; [lia|constructor]. }
    pose proof (bmap_indirect_spec _ _ _ _ (n - 15) doalloc Hf ltac:(lia) ltac:(lia)) as Hw.
    unfold idwords in Hw. rewrite E0 in Hw. by replace (15 + (n - 15)) with n in Hw by lia.
Qed.
End bmap.
