(* ===== verification/SfsIo.v ===== *)
(** * Reading and writing files

    [sfs_io] (kern/fs/sfs/sfs_vnode.c) moves any range of a file, block by block.  [io_post] is its
    specification, shared by the routines it is made of: a read copies the bytes of the file, a
    write replaces exactly the bytes it covers, and a transfer that stops with an error has moved
    a first part of them. *)

From S2P Require Import Prelude StateM Heap KArray KBitmap Uio SfsDisk Sfs SfsBytes SfsSpec.

Abbreviation MAXSIZE := (512 * 143).

(** Why a transfer may stop. *)
Definition io_error (u : uio) (f' : sfs_fs) (r : Z) (u' : uio) : Prop :=
  (r = ENOSPC ∧ uio_rw u = UIO_WRITE ∧ full f') ∨
  (r = EINVAL ∧ MAXSIZE ≤ uio_offset u' ∧ (uio_resid u' = 0 → uio_resid u = 0)) ∨
  (r = EFAULT ∧ uio_segflg u ≠ UIO_SYSSPACE).

Definition io_read (dat : list Z) (u : uio) (n r : Z) (u' : uio) : Prop :=
  ∃ k j, 0 ≤ k ≤ j ∧ j ≤ n ∧ (j = 0 ∨ uio_offset u + j ≤ MAXSIZE) ∧
    u' = advance k (splice (u_mem u) (upos u) (sub dat (uio_offset u) j)) u ∧ (r = 0 → k = n).

Definition io_write (dat : list Z) (u : uio) (n r : Z) (u' : uio) (dat' : list Z) : Prop :=
  ∃ k, 0 ≤ k ≤ n ∧ (k = 0 ∨ uio_offset u + k ≤ MAXSIZE) ∧ u' = advance k (u_mem u) u ∧
    dat' = splice dat (uio_offset u) (sub (u_mem u) (upos u) k) ∧ (r = 0 → k = n).

(** A transfer of [n] bytes on the file at [p]. *)
Record io_post (p : Z) (O : list Z) (n : Z) (u : uio) (sv : sfs_vnode) (f : sfs_fs)
    (r : Z) (u' : uio) (sv' : sfs_vnode) (f' : sfs_fs) : Prop := IoPost {
  io_step : fstep p O sv f sv' f';
  io_size : sfi_size (sv_i sv') = sfi_size (sv_i sv);
  io_err : r = 0 ∨ io_error u f' r u';
  io_data : match uio_rw u with
            | UIO_READ => f' = f ∧ sv' = sv ∧ io_read (fdata f (sv_i sv)) u n r u'
            | UIO_WRITE => io_write (fdata f (sv_i sv)) u n r u' (fdata f' (sv_i sv'))
            end;
}.

Lemma io_post_ok U p O n u sv f r u' sv' f' :
  file f p sv O → uio_ok U u → n ≤ uio_resid u → io_post p O n u sv f r u' sv' f' →
  uio_ok U u' ∧ uio_rw u' = uio_rw u ∧ uio_segflg u' = uio_segflg u ∧
  (r = 0 → uio_offset u' = uio_offset u + n ∧ uio_resid u' = uio_resid u - n).
Proof.
  intros Hf Hu Hn [_ _ _ Hd]. destruct (uio_rw u) eqn:Hrw.
  - destruct Hd as (_ & _ & k & j & Hk & Hj & Hmax & -> & Hr). split; [|simpl; naive_solver].
    apply advance_ok; [done|lia|]. pose proof (length_fdata _ _ _ _ Hf) as Hl.
    destruct Hu. destruct (decide (j = 0)) as [->|]; [by rewrite sub_0, splice_nil|].
    apply length_splice; rewrite ?length_sub; lia.
  - destruct Hd as (k & Hk & Hmax & -> & _ & Hr). split; [|simpl; naive_solver].
    apply advance_ok; [done|lia|done].
Qed.

(** Nothing moved. *)
Lemma io_post_none p O n u sv f r :
  file f p sv O → 0 ≤ n → r ≠ 0 → io_error u f r u → io_post p O n u sv f r u sv f.
Proof.
  intros Hf Hn Hr He. constructor; [by apply fstep_refl|done|by right|].
  destruct (uio_rw u).
  - split; [done|]. split; [done|]. exists 0, 0. rewrite sub_0, splice_nil, advance_0. split_and!; try done; first [lia|congruence].
  - exists 0. rewrite sub_0, splice_nil, advance_0. split_and!; try done; first [lia|congruence].
Qed.

(** The transfer goes on after a part of it is done. *)
Lemma io_post_app U p O n m u sv f u1 sv1 f1 r u2 sv2 f2 :
  file f p sv O → uio_ok U u → 0 ≤ n → 0 < m → n + m ≤ uio_resid u →
  io_post p O n u sv f 0 u1 sv1 f1 → io_post p O m u1 sv1 f1 r u2 sv2 f2 →
  io_post p O (n + m) u sv f r u2 sv2 f2.
Proof.
  intros Hf Hu Hn Hm Hres H1 H2. pose proof (length_fdata _ _ _ _ Hf) as Hlen.
  assert (n ≤ uio_resid u) as Hn' by lia.
  destruct (io_post_ok _ _ _ _ _ _ _ _ _ _ _ Hf Hu Hn' H1) as (Hu1 & Hrw & Hseg & Ho).
  destruct (Ho eq_refl) as [Hoff Hrs]. destruct H1 as [S1 Z1 _ D1], H2 as [S2 Z2 E2 D2].
  rewrite Hrw in D2.
  constructor; [by eapply fstep_trans|congruence|unfold io_error in *; rewrite Hrw, Hseg in E2; naive_solver lia|].
  destruct Hu. destruct (uio_rw u) eqn:Er.
  - destruct D1 as (-> & -> & k & j & Hk & Hj & Hmax & -> & Hr). rewrite Hr in * by done.
    replace j with n in * by lia. split_and!; try apply D2.
    destruct D2 as (_ & _ & k' & j' & Hk' & Hj' & Hmax' & -> & Hr'). exists (n + k'), (n + j').
    simpl in Hmax'. split_and!; [lia..| |naive_solver lia].
    rewrite advance_advance. f_equal. simpl.
    replace (iov_base u + n - u_addr u) with (upos u + n) by lia.
    destruct (decide (j' = 0)) as [->|].
    { by rewrite sub_0, splice_nil, Z.add_0_r. }
    rewrite splice_next by (rewrite ?length_sub; lia). by rewrite sub_app by lia.
  - destruct D1 as (k & Hk & Hmax & -> & Hd & Hr). rewrite Hr in * by done.
    destruct D2 as (k' & Hk' & Hmax' & -> & -> & Hr'). exists (n + k'). simpl in Hmax'.
    split_and!; [lia..|by rewrite advance_advance| |naive_solver lia]. simpl. rewrite Hd.
    replace (iov_base u + n - u_addr u) with (upos u + n) by lia.
    destruct (decide (k' = 0)) as [->|].
    { by rewrite sub_0, splice_nil, Z.add_0_r. }
    rewrite splice_next by (rewrite ?length_sub; lia). by rewrite sub_app by lia.
Qed.

(** A transfer that failed is a failed transfer of more. *)
Lemma io_post_more p O n m u sv f r u' sv' f' :
  0 ≤ m → r ≠ 0 → io_post p O n u sv f r u' sv' f' → io_post p O (n + m) u sv f r u' sv' f'.
Proof.
  intros Hm Hr [S Z E D]. constructor; try done. destruct (uio_rw u).
  - destruct D as (-> & -> & k & j & Hk & Hj & ? & -> & _). split; [done|]. split; [done|].
    exists k, j. split_and!; try done; first [lia|congruence].
  - destruct D as (k & Hk & ? & -> & Hd & _). exists k. split_and!; try done; first [lia|congruence].
Qed.

Lemma io_post_zero p O u sv f : file f p sv O → io_post p O 0 u sv f 0 u sv f.
Proof.
  intros Hf. constructor; [by apply fstep_refl|done|by left|]. destruct (uio_rw u).
  - split; [done|]. split; [done|]. exists 0, 0. rewrite sub_0, splice_nil, advance_0. split_and!; try done; lia.
  - exists 0. rewrite sub_0, splice_nil, advance_0. split_and!; try done; lia.
Qed.

(** ** Writing a block of the file *)

Lemma fmap_not_indirect f p sv O b :
  file f p sv O → b ∈ fmap_ f (sv_i sv) → b ≠ 0 → b ≠ sfi_indirect (sv_i sv).
Proof.
  intros Hf Hb H0 ->. destruct (fi_own _ _ _ _ Hf) as [Hnd _]. apply NoDup_app in Hnd as [Hnd _].
  unfold file_blocks, nonzero in Hnd. rewrite filter_cons_True in Hnd by done.
  apply NoDup_cons in Hnd as [Hnd _]. apply Hnd. by apply elem_of_nonzero.
Qed.

Lemma fmap_unique f p sv O (n m : nat) b :
  file f p sv O → fmap_ f (sv_i sv) !! n = Some b → fmap_ f (sv_i sv) !! m = Some b → b ≠ 0 → n = m.
Proof.
  intros Hf Hn Hm H0. destruct (fi_own _ _ _ _ Hf) as [Hnd _]. apply NoDup_app in Hnd as [Hnd _].
  assert (S n = S m) as Hs; [|by injection Hs]. by apply (nonzero_unique _ _ _ b Hnd).
Qed.

Lemma put_block f p sv O (n : nat) b s (f' := put_sec b s f) :
  file f p sv O → fmap_ f (sv_i sv) !! n = Some b → b ≠ 0 → length s = 512%nat →
  fstep p O sv f sv f' ∧ fdata f' (sv_i sv) = splice (fdata f (sv_i sv)) (512 * Z.of_nat n) s.
Proof.
  intros Hf Hn H0 Hs. pose proof (list_elem_of_lookup_2 _ _ _ Hn) as Hin.
  destruct (file_block_ok _ _ _ _ _ Hf Hin H0) as [Hb _]. pose proof (fi_vol _ _ _ _ Hf) as Hv.
  assert (∀ b', 0 ≤ b' → b' ≠ b → sec f' b' = sec f b') as Hsec.
  { intros b' Hb' Hne. unfold f'. rewrite sec_put by (done || lia). by rewrite decide_False. }
  assert (∀ b', b' ∈ file_blocks f (sv_i sv) ++ O → 0 ≤ b') as Hpos.
  { intros b' Hb'. destruct (fi_own _ _ _ _ Hf) as [_ HB]. destruct (HB b' Hb'). lia. }
  assert (fmap_ f' (sv_i sv) = fmap_ f (sv_i sv)) as Hmap.
  { apply fmap_ext. intros Hid. apply Hsec.
    - apply Hpos, elem_of_app. left. apply elem_of_nonzero. split; [done|constructor].
    - intros Heq. by apply (fmap_not_indirect f p sv O b). }
  split.
  - constructor.
    + constructor; [by apply put_sec_vol|apply Hf|apply Hf|]. unfold file_blocks. rewrite Hmap. apply Hf.
    + intros b' Hb'. apply Hsec; [apply Hpos, elem_of_app; by right|]. intros ->.
      eapply file_disjoint; [done| |done]. by apply fmap_in_blocks.
    + symmetry. apply insert_id, Hf.
    + by split_and!.
    + by split_and!.
    + by right.
    + split; [apply Hsec; lia|by left].
  - unfold fdata. rewrite Hmap. rewrite <- (insert_join 512 (blk f <$> fmap_ f (sv_i sv)) n s).
    2: by eapply blks_512. 2: rewrite length_fmap; by apply lookup_lt_Some in Hn. 2: done.
    f_equal. apply list_eq. intros m. destruct (decide (m = n)) as [->|Hne].
    + rewrite list_lookup_insert_eq by (rewrite length_fmap; by apply lookup_lt_Some in Hn).
      rewrite list_lookup_fmap, Hn. simpl. f_equal. unfold blk. replace (b =? 0) with false by lia.
      unfold f'. rewrite sec_put by (done || lia). by rewrite decide_True.
    + rewrite list_lookup_insert_ne by done. rewrite !list_lookup_fmap.
      destruct (fmap_ f (sv_i sv) !! m) as [b'|] eqn:Hm; [|done]. simpl. f_equal. unfold blk.
      destruct (b' =? 0) eqn:E; [done|]. apply Hsec.
      * destruct (file_block_ok _ _ _ _ b' Hf) as [? _]; [by eapply list_elem_of_lookup_2|lia|lia].
      * intros ->. apply Hne. by apply (fmap_unique f p sv O m n b).
Qed.

(** ** One block, in part or whole *)

Section io.
Variable U : usermem.

Lemma same_file f p sv O sv' : file f p sv O → fstep p O sv f sv' f → sv' = sv.
Proof. intros Hf Hst. pose proof (fi_mem _ _ _ _ (fs_file _ _ _ _ _ _ Hst)). destruct Hf. congruence. Qed.

(** The block a transfer is at. *)
Lemma fileblock_of_ok u n skip :
  uio_offset u = 512 * n + skip → 0 ≤ n → 0 ≤ skip < 512 → uio_offset u < 2 ^ 31 → fileblock_of u = n.
Proof.
  intros Ho Hn Hs Hm. unfold fileblock_of, SFS_BLOCKSIZE. rewrite Ho, Z.quot_div_nonneg by lia.
  rewrite Z.add_comm, Z.mul_comm, Z.div_add, Z.div_small by lia. apply u32_id. in_range.
Qed.

Lemma block_of_offset o n skip : o = 512 * n + skip → 0 ≤ skip < 512 → o / 512 = n.
Proof. intros -> Hs. symmetry. apply (Z.div_unique _ _ _ skip); lia. Qed.

(** A first part of a transfer that allocates only. *)
Lemma io_post_alloc p O n u sv f r u' sv1 f1 sv' f' :
  fstep p O sv f sv1 f1 → fdata f1 (sv_i sv1) = fdata f (sv_i sv) →
  sfi_size (sv_i sv1) = sfi_size (sv_i sv) → uio_rw u = UIO_WRITE →
  io_post p O n u sv1 f1 r u' sv' f' → io_post p O n u sv f r u' sv' f'.
Proof.
  intros Hst Hd Hs Hw [S Z E D]. constructor; [by eapply fstep_trans|congruence|done|].
  rewrite Hw in *. by rewrite <- Hd.
Qed.

Lemma bmap_failed p n u sv f O a f' m :
  file f p sv O → 0 ≤ m → (MAXBLOCKS ≤ n → MAXSIZE ≤ uio_offset u) →
  bmap_post p n (is_write u) O sv f a f' → a.1 ≠ 0 →
  ∃ sv', io_post p O m u sv f a.1 u sv' f'.
Proof.
  intros Hf Hm Ho (sv' & Hst & Hd & Hs & [(? & _)|[(Hr & Hw & Hfull & _)|(Hr & Hn & ->)]]) H0; [done|..].
  - exists sv'. apply bool_decide_eq_true in Hw.
    eapply io_post_alloc; [done..|]. apply io_post_none; [apply Hst|done|done|]. left. by rewrite Hr.
  - exists sv. apply io_post_none; [done..|]. right. left. rewrite Hr. auto.
Qed.

Lemma is_write_read u : uio_rw u = UIO_READ → is_write u = false.
Proof. intros H. unfold is_write. by rewrite H. Qed.
Lemma is_write_write u : uio_rw u = UIO_WRITE → is_write u = true.
Proof. intros H. unfold is_write. by rewrite H. Qed.

(** A transfer within one block; a write is done whole or not at all, and lacks space only where
    the file has no block yet. *)
Definition at_hole f (i : sfs_inode) (u : uio) : Prop := fmap_ f i !! Z.to_nat (uio_offset u / 512) = Some 0.
Definition io_once p O m u sv f (r : Z) (u' : uio) (f' : sfs_fs) : Prop :=
  (∃ sv', io_post p O m u sv f r u' sv' f') ∧
  (r ≠ 0 → uio_rw u = UIO_WRITE → u' = u ∧ (r = ENOSPC → at_hole f (sv_i sv) u)).

(** Both routines look up the block first; what is left is [K] on the block found, in a state
    where the file has the same contents. *)
Lemma with_block f p sv O n m u (K : Z → F (Z * uio)) :
  file f p sv O → is_u32 n → 0 ≤ m → uio_offset u / 512 = n → (MAXBLOCKS ≤ n → MAXSIZE ≤ uio_offset u) →
  (∀ sv1 f1 b, file f1 p sv1 O → n < 143 → fmap_ f1 (sv_i sv1) !! Z.to_nat n = Some b →
     (uio_rw u = UIO_WRITE → b ≠ 0) →
     wps (K b) f1 (λ '(r, u') f', io_once p O m u sv1 f1 r u' f')) →
  wps ('(result, diskblock) ← sfs_bmap U p n (is_write u);
       if negb (result =? 0) then mret (result, u) else K diskblock) f
    (λ '(r, u') f', io_once p O m u sv f r u' f').
Proof.
  intros Hf Hn Hm Hdiv Ho HK. wps_call bmap_spec; [done|done|]. intros [r b] f1 Hb. simpl.
  destruct (negb (r =? 0)) eqn:Er.
  { wps_step. split; [|intros _ _; split; [done|]; intros ->; unfold at_hole; rewrite Hdiv;
      destruct Hb as (sv1 & _ & _ & _ & [(? & _)|[(_ & _ & _ & ?)|(? & _)]]); done]. eapply (bmap_failed p n u sv f O (r, b)); [done|lia|done|done|simpl; lia]. }
  destruct Hb as (sv1 & Hst & Hd & Hsz & [(_ & Hlt & Hmap & Hal)|[(Hr & _)|(Hr & _)]]);
    [|simpl in Hr; subst r; done..].
  simpl in Hmap, Hal. eapply wps_mono; [apply (HK sv1 f1 b); [apply Hst|done|done|]|].
  { intros Hw. by rewrite is_write_write in Hal. }
  intros [r' u'] f' [[sv' Hp] Hall]. split.
  2: { intros Hr Hw. destruct (Hall Hr Hw) as [-> Hno]. split; [done|]. intros Hr'. specialize (Hno Hr').
       unfold at_hole in Hno. rewrite Hdiv, Hmap in Hno. rewrite is_write_write in Hal by done. congruence. }
  exists sv'. clear Hall. destruct (uio_rw u) eqn:Hrw.
  - rewrite is_write_read in Hal by done. subst f1. apply (same_file f p sv O) in Hst as ->; done.
  - by eapply io_post_alloc.
Qed.

(** Reading a part of block [n] of the file through a buffer that holds the block. *)
Lemma read_part p O sv f (n : nat) skip len u b r u' :
  file f p sv O → fmap_ f (sv_i sv) !! n = Some b → uio_rw u = UIO_READ →
  0 ≤ skip → 0 ≤ len → skip + len ≤ 512 → uio_offset u = 512 * Z.of_nat n + skip →
  read_into u (sub (blk f b) skip len) r u' → io_post p O len u sv f r u' sv f.
Proof.
  intros Hf Hn Hrw Hs Hl Hsl Ho (k & j & Hk & Hj & -> & Hr & He).
  pose proof (lookup_lt_Some _ _ _ Hn) as Hlt. rewrite length_fmap_ in Hlt by apply Hf.
  rewrite <- (fdata_block f p sv O n b Hf Hn) in *.
  rewrite sub_sub, <- Ho in * by lia.
  pose proof (length_fdata _ _ _ _ Hf). rewrite length_sub in * by lia.
  constructor; [by apply fstep_refl|done| |].
  - destruct He as [->|[-> He]]; [by left|]. right. right. right. done.
  - rewrite Hrw. split; [done|]. split; [done|]. exists k, j.
    split_and!; try done; try lia. by rewrite !sub_sub, Z.add_0_r, Ho by lia.
Qed.

(** Writing a part of block [n] of the file. *)
Lemma write_part p O sv f (n : nat) skip len u b :
  file f p sv O → fmap_ f (sv_i sv) !! n = Some b → b ≠ 0 → uio_rw u = UIO_WRITE → uio_ok U u →
  0 ≤ skip → 0 ≤ len ≤ uio_resid u → skip + len ≤ 512 → uio_offset u = 512 * Z.of_nat n + skip →
  io_post p O len u sv f 0 (advance len (u_mem u) u) sv
    (put_sec b (splice (sec f b) skip (sub (u_mem u) (upos u) len)) f).
Proof.
  intros Hf Hn Hb Hrw Hu Hs Hl Hsl Ho.
  pose proof (lookup_lt_Some _ _ _ Hn) as Hlt. rewrite length_fmap_ in Hlt by apply Hf.
  pose proof (length_blk _ _ _ _ b Hf (list_elem_of_lookup_2 _ _ _ Hn)) as Hbl.
  pose proof (fdata_block f p sv O n b Hf Hn) as Hfb. pose proof (length_fdata _ _ _ _ Hf) as Hlen.
  unfold blk in Hbl, Hfb. replace (b =? 0) with false in Hbl, Hfb by lia. destruct Hu.
  assert (zlen (sub (u_mem u) (upos u) len) = len) as Hd by (apply length_sub; lia).
  destruct (put_block f p sv O n b (splice (sec f b) skip (sub (u_mem u) (upos u) len)) Hf Hn Hb) as [Hst Hfd].
  { rewrite length_splice by lia. done. }
  constructor; [done|done|by left|]. rewrite Hrw. exists len. split_and!; try done; try lia.
  rewrite Hfd, <- Hfb, Ho. apply splice_in_block; lia.
Qed.

(** The buffer of [sfs_partialio] is filled with the block, or with zeros where there is none. *)
Lemma load_block f p sv O b w Φ :
  file f p sv O → b ∈ fmap_ f (sv_i sv) → (w = true → b ≠ 0) → Φ (0, blk f b) f →
  wps (if b =? 0 then _ ← asrt (negb w); mret (0, zero_block) else rblock U zero_block b) f Φ.
Proof.
  intros Hf Hin Hw HΦ. unfold blk in HΦ. destruct (b =? 0) eqn:E.
  - rewrite wps_bind, wps_asrt. split; [|by wps_step]. destruct w; [|done]. specialize (Hw eq_refl). lia.
  - destruct (file_block_ok _ _ _ _ b Hf Hin) as [? _]; [lia|]. apply rblock_ok; try done; [apply Hf|lia].
Qed.

Lemma partialio_spec f p sv O n skip len u :
  file f p sv O → uio_ok U u → 0 ≤ n → 0 ≤ skip < 512 → 0 ≤ len ≤ uio_resid u → skip + len ≤ 512 →
  uio_offset u = 512 * n + skip →
  wps (sfs_partialio U p u skip len) f (λ '(r, u') f', io_once p O len u sv f r u' f').
Proof.
  intros Hf Hu Hn Hs Hl Hsl Ho. pose proof (uo_off _ _ Hu) as Huo. unfold sfs_partialio.
  rewrite wps_bind, wps_asrt. split; [rewrite u32_id; unfold is_u32, SFS_BLOCKSIZE; lia|].
  rewrite (fileblock_of_ok u n skip) by (done || lia).
  apply with_block; [done|unfold is_u32; lia|lia|apply (block_of_offset _ n skip); lia|unfold MAXBLOCKS; lia|]. clear sv f Hf.
  intros sv f b Hf Hlt Hm Hal. pose proof (list_elem_of_lookup_2 _ _ _ Hm) as Hin.
  assert (uio_offset u = 512 * Z.of_nat (Z.to_nat n) + skip) as Ho' by lia.
  pose proof (length_blk _ _ _ _ b Hf Hin) as Hbl.
  rewrite wps_bind. eapply load_block; [done|done| |].
  { intros Hw. apply Hal. by apply bool_decide_eq_true in Hw. }
  simpl. wps_step. rewrite wps_lift. destruct (uio_rw u) eqn:Hrw.
  - eapply wp_mono; [apply uiomove_read; [done|done|lia|lia|lia]|]. intros [[r' buf] u'] Hri.
    pose proof (read_part p O sv f _ skip len u b r' u' Hf Hm Hrw ltac:(lia) ltac:(lia) Hsl Ho' Hri) as Hp.
    destruct (negb (r' =? 0)) eqn:Er'; [wps_step; split; [by exists sv|congruence]|].
    rewrite is_write_read by (by destruct Hri as (k & j & _ & _ & -> & _)).
    wps_step. split; [|done]. exists sv. by replace r' with 0 in Hp by lia.
  - specialize (Hal eq_refl). destruct (file_block_ok _ _ _ _ b Hf Hin Hal) as [Hbr _].
    unfold blk in *. replace (b =? 0) with false in * by lia.
    eapply wp_mono; [apply uiomove_spec; [done|lia|lia|lia]|].
    intros [[r' buf] u']. unfold moved_buf, moved_mem, move_failed. rewrite Hrw.
    intros [(-> & -> & ->)|(Hr' & -> & Hsg & _ & ->)].
    + simpl negb. cbn match. rewrite is_write_write by done. wps_step.
      apply wblock_ok; [apply Hf|lia| |].
      { destruct Hu. rewrite length_splice; rewrite ?length_sub; lia. }
      wps_step. split; [|done]. exists sv. apply (write_part p O sv f (Z.to_nat n)); (done || lia).
    + replace (negb (EFAULT =? 0)) with true by done. wps_step. split; [|by intros; split]. exists sv.
      apply io_post_none; [done|lia|done|]. right. right. done.
Qed.

(** The request as the device sees it, and back. *)
Definition to_device (b : Z) (u : uio) : uio := uio_set_resid 512 (uio_set_offset (512 * b) u).

Lemma to_device_ok b u :
  uio_ok U u → 512 ≤ uio_resid u → 0 ≤ b < 2 ^ 22 - 1 → uio_ok U (to_device b u).
Proof. intros [] Hr Hb. constructor; simpl; try lia; done. Qed.

Lemma from_device b k m u :
  uio_ok U u → 0 ≤ k ≤ 512 → 512 ≤ uio_resid u →
  let u' := advance k m (to_device b u) in
  uio_set_resid (u32 (uio_resid u' - 512 + s32 (uio_resid u)))
    (uio_set_offset (s32 (uio_offset u' - 512 * b + uio_offset u)) u') = advance k m u.
Proof.
  intros [] Hk Hr. simpl. unfold uio_set_resid, uio_set_offset, advance. simpl.
  unwrap. f_equal; lia.
Qed.

Lemma block_read p O sv f (n : nat) u b r k m :
  file f p sv O → fmap_ f (sv_i sv) !! n = Some b → b ≠ 0 → uio_rw u = UIO_READ →
  uio_offset u = 512 * Z.of_nat n →
  read_into (to_device b u) (sec f b) r (advance k m (to_device b u)) → 
  io_post p O 512 u sv f r (advance k m u) sv f.
Proof.
  intros Hf Hn Hb Hrw Ho (k' & j & Hk & Hj & Heq & Hr & He).
  assert (k' = k) as -> by (apply (f_equal uio_resid) in Heq; simpl in Heq; lia).
  assert (m = splice (u_mem u) (upos u) (sub (sec f b) 0 j)) as ->.
  { by apply (f_equal u_mem) in Heq. }
  pose proof (length_blk _ _ _ _ b Hf (list_elem_of_lookup_2 _ _ _ Hn)) as Hbl. unfold blk in Hbl.
  replace (b =? 0) with false in Hbl by lia.
  eapply (read_part p O sv f n 0 512 u b); try done; try lia. unfold blk. replace (b =? 0) with false by lia.
  replace (sub (sec f b) 0 512) with (sec f b) by (rewrite <- (sub_all (sec f b)) at 1; f_equal; lia).
  exists k, j. split_and!; try lia; done.
Qed.

Lemma block_write p O sv f (n : nat) u b r u' d' :
  file f p sv O → fmap_ f (sv_i sv) !! n = Some b → b ≠ 0 → uio_rw u = UIO_WRITE → uio_ok U u →
  512 ≤ uio_resid u → uio_offset u = 512 * Z.of_nat n →
  block_written (to_device b u) (sfs_device f) b r u' d' →
  io_once p O 512 u sv f r
    (uio_set_resid (u32 (uio_resid u' - 512 + s32 (uio_resid u)))
      (uio_set_offset (s32 (uio_offset u' - 512 * b + uio_offset u)) u')) (set_device d' f).
Proof.
  intros Hf Hm Hb Hrw Hu Hres Ho [(-> & -> & ->)|(-> & Hsg & -> & ->)].
  - rewrite from_device by (done || lia). split; [exists sv|done].
    pose proof (write_part p O sv f n 0 512 u b Hf Hm Hb Hrw Hu ltac:(lia) ltac:(lia) ltac:(lia) ltac:(lia)) as Hp.
    rewrite splice_all in Hp; [done|].
    pose proof (length_blk _ _ _ _ b Hf (list_elem_of_lookup_2 _ _ _ Hm)) as Hbl. unfold blk in Hbl.
    replace (b =? 0) with false in Hbl by lia.
    pose proof (length_sub (u_mem u) (upos u) 512) as Hl. destruct Hu. lia.
  - replace (set_device (sfs_device f) f) with f by (by destruct f).
    pose proof (from_device b 0 (u_mem u) u Hu ltac:(lia) ltac:(lia)) as Hfd.
    change (u_mem u) with (u_mem (to_device b u)) in Hfd at 1 2. rewrite !advance_0 in Hfd.
    rewrite Hfd. change (u_mem (to_device b u)) with (u_mem u). rewrite advance_0. split; [exists sv|done].
    apply io_post_none; [done|lia|done|]. right. right. done.
Qed.

Lemma blockio_spec f p sv O n u :
  file f p sv O → uio_ok U u → 0 ≤ n → 512 ≤ uio_resid u → uio_offset u = 512 * n →
  wps (sfs_blockio U p u) f (λ '(r, u') f', io_once p O 512 u sv f r u' f').
Proof.
  intros Hf Hu Hn Hres Ho. pose proof (uo_off _ _ Hu) as Huo. unfold sfs_blockio.
  rewrite (fileblock_of_ok u n 0) by (done || lia).
  apply with_block; [done|unfold is_u32; lia|lia|apply (block_of_offset _ n 0); lia|unfold MAXBLOCKS; lia|]. clear sv f Hf.
  intros sv f b Hf Hlt Hm Hal. pose proof (list_elem_of_lookup_2 _ _ _ Hm) as Hin.
  assert (uio_offset u = 512 * Z.of_nat (Z.to_nat n)) as Ho' by lia.
  pose proof (length_blk _ _ _ _ b Hf Hin) as Hbl. destruct (b =? 0) eqn:Eb.
  - destruct (uio_rw u) eqn:Hrw; [|specialize (Hal eq_refl); lia].
    rewrite is_write_read by done. wps_step. rewrite wps_lift.
    eapply wp_mono; [apply uiomovezeros_spec; [done|done|unfold SFS_BLOCKSIZE; lia]|].
    intros [r' u'] Hri. split; [|congruence]. exists sv. eapply (read_part p O sv f _ 0 512 u b); try done; try lia.
    unfold blk. rewrite Eb. by replace (sub zero_block 0 512) with (replicate 512 0) by done.
  - destruct (file_block_ok _ _ _ _ b Hf Hin ltac:(lia)) as [Hbr _].
    pose proof (fi_vol _ _ _ _ Hf) as Hv. pose proof (do_max _ (vo_disk _ Hv)) as Hdm.
    pose proof (vo_size _ Hv) as Hvs. pose proof (vo_disk _ Hv). pose proof (vo_healthy _ Hv).
    assert (s32 (u32 (b * SFS_BLOCKSIZE)) = 512 * b) as ->.
    { unfold SFS_BLOCKSIZE. rewrite u32_id by in_range. rewrite s32_id; in_range. }
    rewrite wps_bind, wps_asrt. split; [unfold SFS_BLOCKSIZE; lia|]. wps_step. rewrite wps_lift.
    change SFS_BLOCKSIZE with 512. fold (to_device b u).
    pose proof (to_device_ok b u Hu ltac:(lia) ltac:(lia)) as Hud.
    destruct (uio_rw u) eqn:Hrw.
    + eapply wp_mono; [apply (rwblock_read U (to_device b u) _ b); (done || lia)|].
      intros [[r' u'] d'] (-> & Hri). wps_step. pose proof Hri as (k & j & Hk & Hj & -> & _).
      unfold blk in Hbl. rewrite Eb in Hbl. rewrite from_device by (done || lia). split; [|congruence]. exists sv.
      replace (set_device (sfs_device f) f) with f by (by destruct f).
      eapply (block_read p O sv f (Z.to_nat n)); (done || lia).
    + eapply wp_mono; [apply (rwblock_write U (to_device b u) _ b); (done || lia)|].
      intros [[r' u'] d'] Hw. wps_step. apply (block_write p O sv f (Z.to_nat n)); (done || lia).
Qed.

(** The first [m] of [N] bytes are done, or the transfer has failed. *)
Definition io_so_far p O (m N : Z) u sv f (r : Z) (u' : uio) (f' : sfs_fs) : Prop :=
  ∃ sv', (r = 0 ∧ io_post p O m u sv f r u' sv' f') ∨ (r ≠ 0 ∧ io_post p O N u sv f r u' sv' f').

(** The rest of a transfer of [N] bytes after the first [m]. *)
Lemma io_go_on p O m k N u sv f u1 f1 (M : F (Z * uio)) :
  file f p sv O → uio_ok U u → 0 ≤ m → 0 < k → m + k ≤ N → N ≤ uio_resid u →
  io_so_far p O m N u sv f 0 u1 f1 →
  (∀ sv1, file f1 p sv1 O → uio_ok U u1 → uio_rw u1 = uio_rw u → uio_offset u1 = uio_offset u + m →
     uio_resid u1 = uio_resid u - m →
     wps M f1 (λ '(r, u2) f2, ∃ sv2, io_post p O k u1 sv1 f1 r u2 sv2 f2)) →
  wps M f1 (λ '(r, u2) f2, io_so_far p O (m + k) N u sv f r u2 f2).
Proof.
  intros Hf Hu Hm Hk HN Hres [sv1 [[_ Hp]|[? _]]] HM; [|done].
  destruct (io_post_ok U p O m u sv f 0 u1 sv1 f1 Hf Hu ltac:(lia) Hp) as (Hu1 & Hrw & _ & Ho).
  destruct (Ho eq_refl) as [Ho1 Hr1].
  eapply wps_mono; [apply (HM sv1); [apply Hp|done..]|]. intros [r u2] f2 [sv2 Hp2]. exists sv2.
  pose proof (io_post_app U p O m k u sv f u1 sv1 f1 r u2 sv2 f2 Hf Hu Hm Hk ltac:(lia) Hp Hp2) as Hp3.
  destruct (decide (r = 0)) as [->|Hr]; [by left|]. right. split; [done|].
  replace N with (m + k + (N - m - k)) by lia. by apply io_post_more; [lia| |].
Qed.

Lemma io_blocks_spec f p sv O n u :
  file f p sv O → uio_ok U u → 0 ≤ n → uio_offset u = 512 * n →
  wps (io_blocks U p u) f (λ '(r, u') f', ∃ sv', io_post p O (uio_resid u) u sv f r u' sv' f').
Proof.
  intros Hf Hu Hn Ho. pose proof (uo_resid _ _ Hu) as Hres. unfold io_blocks, SFS_BLOCKSIZE.
  rewrite wps_bind, wps_asrt. split.
  { rewrite Ho, Z.mul_comm, Z.rem_mul by lia. done. }
  set (N := uio_resid u) in *. pose proof (Z.div_mod N 512 ltac:(lia)) as Hdm.
  pose proof (Z.mod_pos_bound N 512 ltac:(lia)) as Hmb.
  pose proof (Z.div_pos N 512 ltac:(lia) ltac:(lia)) as Hq.
  rewrite wps_bind.
  apply (wps_mfor (λ j '(r, u1) f1, io_so_far p O (512 * j) N u sv f r u1 f1)).
  - exists sv. left. split; [done|]. by apply io_post_zero.
  - intros j [r u1] f1 Hj Hi. destruct (negb (r =? 0)) eqn:Er.
    { wps_step. destruct Hi as [sv1 [[-> _]|Hi]]; [done|]. exists sv1. by right. }
    replace r with 0 in * by lia.
    replace (512 * (j + 1)) with (512 * j + 512) by lia.
    apply (io_go_on p O (512 * j) 512 N u sv f u1); try done; try lia.
    intros sv1 Hf1 Hu1 Hrw1 Ho1 Hr1. 
    eapply wps_mono; [apply (blockio_spec f1 p sv1 O (n + j)); (done || lia)|]. by intros [r' u'] f' [? _].
  - intros [r u1] f1 Hi. rewrite Z.add_0_l, Z2Nat.id in Hi by lia. destruct (negb (r =? 0)) eqn:Er.
    { wps_step. destruct Hi as [sv1 [[-> _]|[_ Hi]]]; [done|]. by exists sv1. }
    replace r with 0 in * by lia. rewrite wps_bind, wps_asrt.
    assert (uio_resid u1 = N mod 512 ∧ uio_rw u1 = uio_rw u) as [Hr1 Hrw1].
    { destruct Hi as [sv1 [[_ Hp]|[? _]]]; [|done].
      destruct (io_post_ok U p O (512 * (N / 512)) u sv f 0 u1 sv1 f1 Hf Hu ltac:(lia) Hp) as (_ & Hrw & _ & Hx).
      destruct (Hx eq_refl). unfold N in *. split; [lia|done]. }
    split; [lia|]. rewrite Hr1. destruct (N mod 512 >? 0) eqn:Em.
    + eapply wps_mono.
      * apply (io_go_on p O (512 * (N / 512)) (N mod 512) N u sv f u1); try done; try lia.
        intros sv1 Hf1 Hu1 _ Ho1 Hr1'. 
        eapply wps_mono; [apply (partialio_spec f1 p sv1 O (n + N / 512)); (done || lia)|].
        by intros [r' u'] f' [? _].
      * intros [r' u2] f2 [sv2 [[-> Hp]|[_ Hp]]]; exists sv2; [|done].
        by replace N with (512 * (N / 512) + N mod 512) by lia.
    + wps_step. destruct Hi as [sv1 [[_ Hp]|[? _]]]; [|done]. exists sv1.
      by replace N with (512 * (N / 512)) by lia.
Qed.

Lemma io_body_spec f p sv O u :
  file f p sv O → uio_ok U u →
  wps (io_body U p u) f (λ '(r, u') f', ∃ sv', io_post p O (uio_resid u) u sv f r u' sv' f').
Proof.
  intros Hf Hu. pose proof (uo_off _ _ Hu) as Hoff. pose proof (uo_resid _ _ Hu) as Hres.
  unfold io_body, SFS_BLOCKSIZE. set (N := uio_resid u) in *. set (o := uio_offset u) in *.
  pose proof (Z.div_mod o 512 ltac:(lia)) as Hdm. pose proof (Z.mod_pos_bound o 512 ltac:(lia)) as Hmb.
  pose proof (Z.div_pos o 512 ltac:(lia) ltac:(lia)) as Hq.
  rewrite Z.rem_mod_nonneg, u32_id by in_range.
  set (len := if negb (o mod 512 =? 0) then (if 512 - o mod 512 >? N then N else 512 - o mod 512) else 0).
  assert (0 ≤ len ≤ N ∧ (len = N ∨ (o + len) mod 512 = 0)) as [Hlen Hend].
  { unfold len. destruct (negb (o mod 512 =? 0)) eqn:E; [|split; [lia|right; rewrite Z.add_0_r; lia]].
    destruct (512 - o mod 512 >? N) eqn:E2; [split; [lia|by left]|]. split; [lia|]. right.
    replace (o + (512 - o mod 512)) with ((o / 512 + 1) * 512) by lia. apply Z.mod_mul. lia. }
  rewrite wps_bind. apply (wps_mono _ _ (λ '(r, u1) f1, io_so_far p O len N u sv f r u1 f1)).
  - unfold len. destruct (negb (o mod 512 =? 0)) eqn:E.
    + eapply wps_mono; [apply (partialio_spec f p sv O (o / 512) (o mod 512)); fold o; try done; try lia|].
      * destruct (512 - o mod 512 >? N) eqn:?; lia.
      * intros [r u1] f1 [[sv1 Hp] _]. exists sv1.
        destruct (decide (r = 0)) as [->|Hr]; [by left|right]. split; [done|].
        set (l := if 512 - o mod 512 >? N then N else 512 - o mod 512) in *.
        replace N with (l + (N - l)) by lia. apply io_post_more; [|done|done].
        unfold l. destruct (512 - o mod 512 >? N) eqn:?; lia.
    + wps_step. exists sv. left. split; [done|]. by apply io_post_zero.
  - intros [r u1] f1 Hi. destruct (negb (r =? 0)) eqn:Er.
    { wps_step. destruct Hi as [sv1 [[-> _]|[_ Hi]]]; [done|]. by exists sv1. }
    replace r with 0 in * by lia.
    assert (uio_resid u1 = N - len) as Hr1.
    { destruct Hi as [sv1 [[_ Hp]|[? _]]]; [|done].
      destruct (io_post_ok U p O len u sv f 0 u1 sv1 f1 Hf Hu ltac:(lia) Hp) as (_ & _ & _ & Hx).
      destruct (Hx eq_refl). unfold N in *. lia. }
    destruct (uio_resid u1 =? 0) eqn:E0.
    { wps_step. destruct Hi as [sv1 [[_ Hp]|[? _]]]; [|done]. exists sv1. by replace N with len by lia. }
    assert ((o + len) mod 512 = 0) as Hal by (destruct Hend; lia).
    pose proof (Z.div_mod (o + len) 512 ltac:(lia)). pose proof (Z.div_pos (o + len) 512 ltac:(lia) ltac:(lia)).
    eapply wps_mono.
    + apply (io_go_on p O len (N - len) N u sv f u1); try done; try lia.
      intros sv1 Hf1 Hu1 _ Ho1 _. rewrite <- Hr1. apply (io_blocks_spec f1 p sv1 O ((o + len) / 512)); try done; try lia.
    + intros [r' u2] f2 [sv2 [[-> Hp]|[_ Hp]]]; exists sv2; [|done].
      by replace (len + (N - len)) with N in Hp by lia.
Qed.

(** A range inside one block is one transfer. *)
Lemma io_body_once f p sv O u :
  file f p sv O → uio_ok U u → 0 < uio_resid u < 512 → uio_offset u mod 512 + uio_resid u ≤ 512 →
  wps (io_body U p u) f (λ '(r, u') f', io_once p O (uio_resid u) u sv f r u' f').
Proof.
  intros Hf Hu HN Hone. pose proof (uo_off _ _ Hu) as Hoff. unfold io_body, SFS_BLOCKSIZE.
  pose proof (Z.div_mod (uio_offset u) 512 ltac:(lia)) as Hdm.
  pose proof (Z.mod_pos_bound (uio_offset u) 512 ltac:(lia)) as Hmb.
  pose proof (Z.div_pos (uio_offset u) 512 ltac:(lia) ltac:(lia)) as Hq.
  rewrite Z.rem_mod_nonneg, u32_id by in_range.
  destruct (negb (uio_offset u mod 512 =? 0)) eqn:E.
  - replace (if 512 - uio_offset u mod 512 >? uio_resid u then uio_resid u else 512 - uio_offset u mod 512)
      with (uio_resid u) by (destruct (512 - uio_offset u mod 512 >? uio_resid u) eqn:?; lia).
    wps_call (partialio_spec f p sv O (uio_offset u / 512)); try done; try lia.
    intros [r u1] f1 Hp. destruct (negb (r =? 0)) eqn:Er; [by wps_step|]. replace r with 0 in * by lia.
    assert (uio_resid u1 = 0) as ->.
    { destruct Hp as [[sv1 Hp] _].
      destruct (io_post_ok U p O (uio_resid u) u sv f 0 u1 sv1 f1 Hf Hu ltac:(lia) Hp) as (_ & _ & _ & Hx).
      destruct (Hx eq_refl). lia. }
    by wps_step.
  - wps_step. simpl negb. cbn match. replace (uio_resid u =? 0) with false by lia.
    unfold io_blocks, SFS_BLOCKSIZE. rewrite wps_bind, wps_asrt. split.
    { rewrite Z.rem_mod_nonneg by lia. lia. }
    rewrite (Z.div_small (uio_resid u)) by lia. rewrite wps_bind. change (Z.to_nat 0) with 0%nat.
    apply (wps_mfor (λ _ a f1, a = (0, u) ∧ f1 = f)); [done|simpl; lia|]. intros _ _ [-> ->].
    simpl negb. cbn match. rewrite wps_bind, wps_asrt. split; [lia|]. replace (uio_resid u >? 0) with true by lia.
    apply (partialio_spec f p sv O (uio_offset u / 512)); (done || lia).
Qed.

(** ** Any range of a file *)

Lemma uio_set_resid_ok u n : uio_ok U u → 0 ≤ n ≤ uio_resid u → uio_ok U (uio_set_resid n u).
Proof. intros [] Hn. constructor; simpl; try lia; done. Qed.

Lemma uio_set_resid_self u : uio_set_resid (uio_resid u) u = u.
Proof. by destruct u. Qed.

Lemma resid_back k m e u :
  uio_ok U u → 0 ≤ k ≤ uio_resid u - e → 0 ≤ e →
  uio_set_resid (u32 (uio_resid (advance k m (uio_set_resid (uio_resid u - e) u)) + e))
    (advance k m (uio_set_resid (uio_resid u - e) u)) = advance k m u.
Proof.
  intros [] Hk He. unfold advance, uio_set_resid. simpl.
  rewrite u32_id by in_range. f_equal. lia.
Qed.

(** How much of the file there is to read. *)
Definition avail (i : sfs_inode) (u : uio) : Z := Z.max 0 (Z.min (uio_resid u) (sfi_size i - uio_offset u)).

Lemma sfs_read_spec f p sv O u :
  file f p sv O → sfi_size (sv_i sv) < 2 ^ 31 → uio_ok U u → uio_rw u = UIO_READ →
  wps (sfs_io U p u) f (λ '(r, u') f', f' = f ∧ (r = 0 ∨ io_error u f r u') ∧
    io_read (fdata f (sv_i sv)) u (avail (sv_i sv) u) r u').
Proof.
  intros Hf Hsz Hu Hrw. pose proof (uo_off _ _ Hu) as Hoff. pose proof (uo_resid _ _ Hu) as Hres.
  pose proof (iw_size _ (fi_wf _ _ _ _ Hf)) as Hs0. unfold is_u32 in Hs0. unfold sfs_io, avail.
  set (size := sfi_size (sv_i sv)) in *. set (o := uio_offset u) in *. set (N := uio_resid u) in *.
  rewrite wps_bind. eapply get_vn_ok; [apply Hf|]. fold size. rewrite is_write_read by done.
  rewrite (s32_id size), (s32_id (o + N)) by in_range. simpl negb. cbn [andb].
  destruct (o >=? size) eqn:E1.
  { wps_step. split; [done|]. split; [by left|]. exists 0, 0.
    rewrite sub_0, splice_nil, advance_0. split_and!; try done; try lia. }
  set (e := if o + N >? size then u32 (o + N - size) else 0).
  assert (0 ≤ e ∧ N - e = Z.max 0 (Z.min N (size - o)) ∧ (e = 0 ∨ e < N)) as (He & HN & Hlt).
  { unfold e. destruct (o + N >? size) eqn:?; [rewrite u32_id by in_range|]; lia. }
  rewrite wps_bind, wps_asrt. split; [lia|]. rewrite u32_id by in_range.
  wps_call io_body_spec; [done|by apply uio_set_resid_ok; fold N; [|lia]|].
  intros [r u1] f1 [sv1 [_ _ Herr Hd]]. simpl uio_rw in Hd. rewrite Hrw in Hd.
  destruct Hd as (-> & -> & k & j & Hk & Hj & Hmax & -> & Hr). simpl uio_resid in Hj, Hr.
  wps_step. unfold io_out. rewrite wps_bind. eapply get_vn_ok; [apply Hf|].
  rewrite is_write_read by done. simpl andb. cbn match. wps_step. split; [done|].
  unfold N. rewrite resid_back by (done || lia). split.
  { unfold io_error in *. simpl in Herr |- *. fold N in Herr |- *. destruct Herr as [?|[?|[?|?]]]; naive_solver lia. }
  exists k, j.
  fold N. rewrite <- HN. by split_and!; try lia.
Qed.

Lemma file_renew_size f p sv O n :
  file f p sv O → is_u32 n → fstep p O sv f (renewed (i_set_size n) sv) (renew p (i_set_size n) sv f).
Proof.
  intros [Hv Hm Hw Ho] Hn. constructor; [|done|done|by split_and!|by split_and!|by left|by split; [|left]]. constructor.
  - destruct Hv. by constructor.
  - by apply lookup_insert_eq.
  - destruct Hw. by constructor.
  - done.
Qed.

(** What a write leaves behind. *)
Definition write_post p O u sv f (r : Z) (u' : uio) (f' : sfs_fs) : Prop :=
  ∃ sv', fstep p O sv f sv' f' ∧ (r = 0 ∨ io_error u f' r u') ∧
    sfi_size (sv_i sv') = Z.max (sfi_size (sv_i sv)) (uio_offset u') ∧
    io_write (fdata f (sv_i sv)) u (uio_resid u) r u' (fdata f' (sv_i sv')).

(** Around [io_body] a write only adjusts the size; [Q] is whatever else is known of the body. *)
Lemma write_around f p sv O u (Q : Z → uio → Prop) :
  file f p sv O → sfi_size (sv_i sv) < 2 ^ 31 → uio_ok U u → uio_rw u = UIO_WRITE →
  wps (io_body U p u) f (λ '(r, u') f', (∃ sv', io_post p O (uio_resid u) u sv f r u' sv' f') ∧ Q r u') →
  wps (sfs_io U p u) f (λ '(r, u') f', write_post p O u sv f r u' f' ∧ Q r u').
Proof.
  intros Hf Hsz Hu Hrw Hbody. pose proof (uo_off _ _ Hu) as Hoff. pose proof (uo_resid _ _ Hu) as Hres.
  pose proof (iw_size _ (fi_wf _ _ _ _ Hf)) as Hs0. unfold is_u32 in Hs0. unfold sfs_io.
  rewrite wps_bind. eapply get_vn_ok; [apply Hf|]. rewrite is_write_write by done. simpl negb. cbn [andb].
  rewrite wps_bind, wps_asrt. split; [done|]. rewrite Z.sub_0_r, u32_id by in_range.
  rewrite uio_set_resid_self. rewrite wps_bind. eapply wps_mono; [exact Hbody|].
  intros [r u1] f1 [[sv1 [Hst Hsz1 Herr Hd]] HQ]. rewrite Hrw in Hd.
  destruct Hd as (k & Hk & Hmax & -> & Hd & Hr). wps_step. unfold io_out. rewrite wps_bind.
  eapply get_vn_ok; [apply Hst|]. rewrite is_write_write by done. simpl andb. rewrite Hsz1.
  rewrite s32_id by in_range. simpl uio_offset.
  set (u' := uio_set_resid _ _). assert (u' = advance k (u_mem u) u) as ->.
  { unfold u'. rewrite Z.add_0_r, u32_id by (simpl; unfold is_u32; lia). apply uio_set_resid_self. }
  destruct (uio_offset u + k >? sfi_size (sv_i sv)) eqn:E.
  - eapply touch_inode_ok; [apply Hst|]. rewrite u32_id by in_range. wps_step.
    split; [|done]. exists (renewed (i_set_size (uio_offset u + k)) sv1). split_and!.
    + eapply fstep_trans; [done|]. apply file_renew_size; [apply Hst|unfold is_u32; lia].
    + done.
    + simpl. lia.
    + by exists k.
  - wps_step. split; [|done]. exists sv1. split_and!; [done|done|simpl; lia|]. by exists k.
Qed.

Lemma sfs_write_spec f p sv O u :
  file f p sv O → sfi_size (sv_i sv) < 2 ^ 31 → uio_ok U u → uio_rw u = UIO_WRITE →
  wps (sfs_io U p u) f (λ '(r, u') f', write_post p O u sv f r u' f').
Proof.
  intros Hf Hsz Hu Hrw. eapply wps_mono.
  - apply (write_around f p sv O u (λ _ _, True)); [done..|]. eapply wps_mono; [by apply io_body_spec|].
    by intros [r u'] f' Hp.
  - by intros [r u'] f' [Hp _].
Qed.

Lemma sfs_write_once f p sv O u :
  file f p sv O → sfi_size (sv_i sv) < 2 ^ 31 → uio_ok U u → uio_rw u = UIO_WRITE →
  0 < uio_resid u < 512 → uio_offset u mod 512 + uio_resid u ≤ 512 →
  wps (sfs_io U p u) f (λ '(r, u') f', write_post p O u sv f r u' f' ∧
    (r ≠ 0 → u' = u ∧ (r = ENOSPC → at_hole f (sv_i sv) u))).
Proof.
  intros Hf Hsz Hu Hrw HN Hone.
  apply (write_around f p sv O u (λ r u', r ≠ 0 → u' = u ∧ (r = ENOSPC → at_hole f (sv_i sv) u))); [done..|].
  eapply wps_mono; [by apply io_body_once|]. intros [r u'] f' [Hp Hq]. split; [done|]. intros Hr. by apply Hq.
Qed.
End io.
