(* ===== verification/SfsDirs.v ===== *)
(** * Directories as finite maps

    A directory is a file of 64-byte slots.  [dirents f i] are its entries; [dmap] is the finite
    map from names to inode numbers they stand for.  [sfs_dir_findname] is its lookup,
    [sfs_dir_link] its insertion and [sfs_dir_unlink] its deletion. *)

From S2P Require Import Prelude StateM Heap KArray KBitmap Uio SfsDisk Sfs SfsBytes SfsSpec SfsIo.

(** ** Entries *)

Definition dname (d : sfs_dir) : list Z := cstr (take 59 (sfd_name d)).

Definition nslots (i : sfs_inode) : Z := sfi_size i / 64.

(** The entries of a directory, read off its bytes. *)
Definition entries (dat : list Z) (n : nat) : list sfs_dir :=
  (λ k, dir_of (sub dat (64 * Z.of_nat k) 64)) <$> seq 0 n.
Definition dirents (f : sfs_fs) (i : sfs_inode) : list sfs_dir :=
  entries (fdata f i) (Z.to_nat (nslots i)).

Definition live (d : sfs_dir) : Prop := sfd_ino d ≠ SFS_NOINO.
#[export] Instance live_dec d : Decision (live d).
Proof. unfold live. apply _. Defined.

Definition dmap (es : list sfs_dir) : gmap (list Z) Z :=
  list_to_map ((λ d, (dname d, sfd_ino d)) <$> filter live es).

(** No name appears twice. *)
Definition names_once (es : list sfs_dir) : Prop := NoDup (dname <$> filter live es).

Record dir_ok (f : sfs_fs) (p : Z) (sv : sfs_vnode) (O : list Z) : Prop := DirOk {
  di_file : file f p sv O;
  di_type : sfi_type (sv_i sv) = SFS_TYPE_DIR;
  di_slots : sfi_size (sv_i sv) mod 64 = 0;
  di_max : sfi_size (sv_i sv) ≤ MAXSIZE;
  di_names : names_once (dirents f (sv_i sv));
}.

Lemma length_entries dat n : length (entries dat n) = n.
Proof. unfold entries. by rewrite length_fmap, length_seq. Qed.

Lemma entries_lookup dat n (k : nat) :
  (k < n)%nat → entries dat n !! k = Some (dir_of (sub dat (64 * Z.of_nat k) 64)).
Proof.
  intros Hk. unfold entries. rewrite list_lookup_fmap, lookup_seq_lt by done. done.
Qed.

(** ** The finite map *)

Section maps.
Implicit Types (es : list sfs_dir) (nm : list Z).

Lemma dmap_perm es es' :
  names_once es → filter live es ≡ₚ filter live es' → dmap es = dmap es'.
Proof.
  intros Hn Hp. unfold dmap. apply list_to_map_proper; [|by rewrite Hp].
  unfold names_once in Hn. by rewrite <- list_fmap_compose.
Qed.

Lemma dmap_lookup es nm ino :
  names_once es → dmap es !! nm = Some ino ↔ ∃ d, d ∈ es ∧ live d ∧ dname d = nm ∧ sfd_ino d = ino.
Proof.
  intros Hn. unfold dmap. rewrite <- elem_of_list_to_map.
  - rewrite list_elem_of_fmap. setoid_rewrite list_elem_of_filter. naive_solver.
  - unfold names_once in Hn. by rewrite <- list_fmap_compose.
Qed.

Lemma dmap_lookup_None es nm :
  dmap es !! nm = None ↔ ∀ d, d ∈ es → live d → dname d ≠ nm.
Proof.
  unfold dmap. rewrite <- not_elem_of_list_to_map, <- list_fmap_compose, list_elem_of_fmap.
  setoid_rewrite list_elem_of_filter. naive_solver.
Qed.

(** An entry put into a slot that was free, or at the end. *)
Lemma filter_put es (k : nat) d :
  live d → (k = length es ∨ ∃ d0, es !! k = Some d0 ∧ ¬ live d0) →
  filter live (take k es ++ [d] ++ drop (S k) es) ≡ₚ d :: filter live es.
Proof.
  intros Hd Hk. rewrite !filter_app, filter_cons_True, filter_nil by done.
  simpl. rewrite <- Permutation_middle. f_equiv. destruct Hk as [->|(d0 & Hd0 & Hl)].
  - rewrite take_ge, drop_ge by lia. by rewrite filter_nil, app_nil_r.
  - rewrite <- (take_drop_middle es k d0) at 3 by done. rewrite filter_app.
    by rewrite filter_cons_False by done.
Qed.

Lemma dmap_put es (k : nat) d :
  names_once es → live d → (k = length es ∨ ∃ d0, es !! k = Some d0 ∧ ¬ live d0) →
  dmap es !! dname d = None →
  let es' := take k es ++ [d] ++ drop (S k) es in
  names_once es' ∧ dmap es' = <[dname d := sfd_ino d]> (dmap es).
Proof.
  intros Hn Hd Hk Hnone es'. pose proof (filter_put es k d Hd Hk) as Hp. fold es' in Hp.
  assert (names_once es') as Hn'.
  { unfold names_once. rewrite Hp. simpl. constructor; [|done].
    rewrite list_elem_of_fmap. intros (d' & Heq & [Hl Hin]%list_elem_of_filter).
    apply (proj1 (dmap_lookup_None es (dname d)) Hnone d' Hin Hl). done. }
  split; [done|].
  assert (NoDup ((λ d, (dname d, sfd_ino d)) <$> filter live es').*1) as Hnd.
  { unfold names_once in Hn'. by rewrite <- list_fmap_compose. }
  unfold dmap at 1. rewrite (list_to_map_proper _ ((dname d, sfd_ino d) :: ((λ d, (dname d, sfd_ino d)) <$> filter live es))); [done|done|].
  by rewrite Hp.
Qed.

(** An entry cleared. *)
Lemma dmap_clear es (k : nat) d d0 :
  names_once es → es !! k = Some d0 → live d0 → ¬ live d →
  names_once (<[k := d]> es) ∧ dmap (<[k := d]> es) = delete (dname d0) (dmap es).
Proof.
  intros Hn Hk H0 Hd.
  assert (filter live es ≡ₚ d0 :: filter live (<[k := d]> es)) as Hp.
  { rewrite <- (take_drop_middle es k d0 Hk) at 1. rewrite insert_take_drop by (by apply lookup_lt_Some in Hk).
    rewrite !filter_app, filter_cons_True, filter_cons_False by done. by rewrite Permutation_middle. }
  unfold names_once in *. pose proof Hn as Hn2. rewrite Hp in Hn. simpl in Hn.
  apply NoDup_cons in Hn as [Hnot Hn]. split; [done|].
  unfold dmap at 2.
  rewrite (list_to_map_proper _ ((dname d0, sfd_ino d0) :: ((λ d, (dname d, sfd_ino d)) <$> filter live (<[k := d]> es)))).
  - simpl. rewrite delete_insert_id; [done|]. apply not_elem_of_list_to_map. by rewrite <- list_fmap_compose.
  - by rewrite <- list_fmap_compose.
  - by rewrite Hp.
Qed.
End maps.

(** ** Slots *)

Section dirs.
Variable U : usermem.

Definition dir_uio (mem : list Z) (slot : Z) (rw : uio_rw_t) : uio :=
  mk_kuio mem KBUF SFS_DIR_SIZE (s32 (u32 (slot * SFS_DIR_SIZE))) rw.

Lemma dir_uio_ok mem slot rw :
  length mem = 64%nat → 0 ≤ slot ≤ 1144 →
  uio_ok U (dir_uio mem slot rw) ∧ uio_offset (dir_uio mem slot rw) = 64 * slot.
Proof.
  intros Hm Hs. assert (s32 (u32 (slot * SFS_DIR_SIZE)) = 64 * slot) as He.
  { unfold SFS_DIR_SIZE. rewrite u32_id by in_range. rewrite s32_id; in_range. }
  split; [|done]. unfold dir_uio, mk_kuio. rewrite He.
  constructor; simpl; unfold SFS_DIR_SIZE, KBUF; rewrite ?Hm; try lia; done.
Qed.

Lemma slots_bound i : is_u32 (sfi_size i) → sfi_size i ≤ MAXSIZE → sfi_size i mod 64 = 0 →
  0 ≤ nslots i ≤ 1144 ∧ sfi_size i = 64 * nslots i.
Proof.
  unfold is_u32, nslots. intros Hu Hm Hmod. pose proof (Z.div_mod (sfi_size i) 64 ltac:(lia)). lia.
Qed.

Lemma dir_bound f p sv O :
  dir_ok f p sv O → 0 ≤ nslots (sv_i sv) ≤ 1144 ∧ sfi_size (sv_i sv) = 64 * nslots (sv_i sv).
Proof. intros [Hf _ Hs Hm _]. apply slots_bound; try done. apply Hf. Qed.

Lemma length_dirents f i : length (dirents f i) = Z.to_nat (nslots i).
Proof. apply length_entries. Qed.

Lemma readdir_spec f p sv O slot :
  dir_ok f p sv O → 0 ≤ slot < nslots (sv_i sv) →
  wps (sfs_readdir U p slot) f (λ '(r, d) f', f' = f ∧ r = 0 ∧
    dirents f (sv_i sv) !! Z.to_nat slot = Some d).
Proof.
  intros Hd Hs. destruct (dir_bound _ _ _ _ Hd) as [Hb Hsz]. pose proof (di_file _ _ _ _ Hd) as Hf.
  destruct (dir_uio_ok (replicate 64 0) slot UIO_READ) as [Hu Ho]; [done|lia|].
  unfold sfs_readdir. fold (dir_uio (replicate 64 0) slot UIO_READ). set (u := dir_uio _ _ _) in *.
  assert (uio_resid u = 64) as Hr by done.
  wps_call sfs_read_spec; [done|lia|done|done|].
  intros [r u'] f' (-> & Herr & k & j & Hk & Hj & Hmax & -> & Hdone).
  assert (avail (sv_i sv) u = 64) as Hav by (unfold avail; lia). rewrite Hav in *.
  assert (r = 0) as ->.
  { destruct Herr as [?|[(_ & ? & _)|[(_ & Hge & Hz)|(_ & Hseg)]]]; [done|done| |done].
    change (64 - k = 0 → 64 = 0) in Hz. change (MAXSIZE ≤ uio_offset u + k) in Hge. lia. }
  rewrite Hdone in * by done. replace j with 64 in * by lia. set (u' := advance 64 _ u).
  replace (uio_resid u' >? 0) with false by done. simpl negb. cbn match. wps_step.
  split; [done|]. split; [done|]. pose proof (length_fdata _ _ _ _ Hf).
  unfold dirents. rewrite entries_lookup by lia. rewrite Z2Nat.id by lia. f_equal. f_equal.
  unfold u'. cbn [u_mem advance]. rewrite Ho. symmetry. change (upos u) with (KBUF - KBUF). rewrite Z.sub_diag. apply splice_all.
  change (length (u_mem u)) with 64%nat. pose proof (length_sub (fdata f (sv_i sv)) (64 * slot) 64). lia.
Qed.

Lemma nentries_spec f p sv O Φ : dir_ok f p sv O → Φ (nslots (sv_i sv)) f → wps (sfs_dir_nentries p) f Φ.
Proof.
  intros Hd HΦ. destruct (dir_bound _ _ _ _ Hd) as [Hb Hsz]. pose proof (di_slots _ _ _ _ Hd) as Hm.
  unfold sfs_dir_nentries. rewrite wps_bind. eapply get_vn_ok; [apply Hd|].
  rewrite wps_bind, wps_asrt. split; [rewrite (di_type _ _ _ _ Hd); done|].
  unwrap.
  unfold SFS_DIR_SIZE. rewrite Hm. simpl. wps_step. fold (nslots (sv_i sv)).
  by rewrite s32_id by in_range.
Qed.

(** The free slot [sfs_dir_findname] reports: the last one, if there is one. *)
Definition free_slot (es : list sfs_dir) (empty : option Z) : Prop :=
  match empty with
  | None => ∀ d, d ∈ es → live d
  | Some s => 0 ≤ s ∧ ∃ d, es !! Z.to_nat s = Some d ∧ ¬ live d
  end.

(** What the loop of [sfs_dir_findname] knows after the first [n] slots. *)
Definition scanned (es : list sfs_dir) (name : list Z) (n : nat) (found : option (Z * Z)) (empty : option Z) : Prop :=
  match found with
  | Some (ino, s) => 0 ≤ s < Z.of_nat n ∧ ∃ d, es !! Z.to_nat s = Some d ∧ live d ∧ dname d = name ∧ sfd_ino d = ino
  | None => ∀ k d, (k < n)%nat → es !! k = Some d → live d → dname d ≠ name
  end ∧
  match empty with
  | Some s => 0 ≤ s < Z.of_nat n ∧ ∃ d, es !! Z.to_nat s = Some d ∧ ¬ live d
  | None => ∀ k d, (k < n)%nat → es !! k = Some d → live d
  end.

Lemma names_once_unique es (j k : nat) d d' :
  names_once es → es !! j = Some d → es !! k = Some d' → live d → live d' → dname d = dname d' → (j < k)%nat → False.
Proof.
  intros Hn Hj Hk Hd Hd' Heq Hlt. unfold names_once in Hn.
  rewrite <- (take_drop_middle es j d Hj) in Hn.
  rewrite filter_app, filter_cons_True, fmap_app, fmap_cons in Hn by done.
  apply NoDup_app in Hn as (_ & _ & Hn). apply NoDup_cons in Hn as [Hn _]. apply Hn.
  rewrite Heq. apply list_elem_of_fmap. exists d'. split; [done|]. apply list_elem_of_filter. split; [done|].
  apply (list_elem_of_lookup_2 _ (k - S j)). rewrite lookup_drop. by replace (S j + (k - S j))%nat with k by lia.
Qed.

(** One more slot. *)
Lemma scanned_free es name n d found empty :
  scanned es name n found empty → es !! n = Some d → ¬ live d → scanned es name (S n) found (Some (Z.of_nat n)).
Proof.
  intros [Hf _] Hd Hl. split.
  - destruct found as [[ino s]|]; [naive_solver lia|]. intros k d' Hk Hk' Hl'.
    destruct (decide (k = n)) as [->|]; [naive_solver|]. apply (Hf k); [lia|done|done].
  - split; [lia|]. exists d. by rewrite Nat2Z.id.
Qed.

Lemma scanned_other es name n d found empty :
  scanned es name n found empty → es !! n = Some d → live d → dname d ≠ name → scanned es name (S n) found empty.
Proof.
  intros [Hf He] Hd Hl Hn. split.
  - destruct found as [[ino s]|]; [naive_solver lia|]. intros k d' Hk Hk' Hl'.
    destruct (decide (k = n)) as [->|]; [naive_solver|]. apply (Hf k); [lia|done|done].
  - destruct empty as [s|]; [naive_solver lia|]. intros k d' Hk Hk'.
    destruct (decide (k = n)) as [->|]; [naive_solver|]. apply (He k); [lia|done].
Qed.

Lemma scanned_found es name n d found empty :
  names_once es → scanned es name n found empty → es !! n = Some d → live d → dname d = name →
  found = None ∧ scanned es name (S n) (Some (sfd_ino d, Z.of_nat n)) empty.
Proof.
  intros Hn [Hf He] Hd Hl Hnm. split.
  - destruct found as [[ino s]|]; [|done]. destruct Hf as (Hs & d' & Hd' & Hl' & Hnm' & _). exfalso.
    eapply (names_once_unique es (Z.to_nat s) n d' d); try done; [congruence|lia].
  - split; [split; [lia|]; exists d; by rewrite Nat2Z.id|].
    destruct empty as [s|]; [naive_solver lia|]. intros k d' Hk Hk'.
    destruct (decide (k = n)) as [->|]; [naive_solver|]. apply (He k); [lia|done].
Qed.

(** What [sfs_dir_findname] answers. *)
Definition found_post (es : list sfs_dir) (name : list Z) (r : Z) (found : option (Z * Z)) : Prop :=
  match found with
  | Some (ino, s) => r = 0 ∧ 0 ≤ s ∧ ∃ d, es !! Z.to_nat s = Some d ∧ live d ∧ dname d = name ∧ sfd_ino d = ino
  | None => r = ENOENT ∧ dmap es !! name = None
  end.

Lemma scanned_all es name found empty :
  scanned es name (length es) found empty →
  free_slot es empty ∧ found_post es name (match found with Some _ => 0 | None => ENOENT end) found.
Proof.
  intros [Hf He]. split.
  - destruct empty as [s|]; [naive_solver|]. intros d [k Hk]%list_elem_of_lookup.
    apply (He k); [by apply lookup_lt_Some in Hk|done].
  - destruct found as [[ino s]|]; [naive_solver|]. split; [done|]. apply dmap_lookup_None.
    intros d [k Hk]%list_elem_of_lookup Hl. apply (Hf k); [by apply lookup_lt_Some in Hk|done|done].
Qed.

Lemma findname_spec f p sv O name :
  dir_ok f p sv O →
  wps (sfs_dir_findname U p name) f (λ '(r, found, empty) f', f' = f ∧
    free_slot (dirents f (sv_i sv)) empty ∧ found_post (dirents f (sv_i sv)) name r found).
Proof.
  intros Hd. set (es := dirents f (sv_i sv)). destruct (dir_bound _ _ _ _ Hd) as [Hb _].
  assert (length es = Z.to_nat (nslots (sv_i sv))) as Hlen by apply length_dirents.
  unfold sfs_dir_findname. rewrite wps_bind. eapply nentries_spec; [done|]. rewrite wps_bind.
  apply (wps_mfor (λ j '(r, found, empty) f', f' = f ∧ r = 0 ∧ scanned es name (Z.to_nat j) found empty)).
  - split; [done|]. split; [done|]. split; intros k d Hk; lia.
  - intros j [[r found] empty] f' Hj (-> & -> & Hsc). simpl negb. cbn match.
    wps_call readdir_spec; [done|lia|]. intros [r d] f' (-> & -> & He). simpl negb. cbn match.
    fold es in He. replace (Z.to_nat (j + 1)) with (S (Z.to_nat j)) by lia.
    unfold SFS_NOINO. destruct (sfd_ino d =? 0) eqn:E0.
    + wps_step. split; [done|]. split; [done|]. rewrite <- (Z2Nat.id j) at 2 by lia.
      eapply scanned_free; [done|done|]. unfold live, SFS_NOINO. lia.
    + assert (live d) as Hl by (unfold live, SFS_NOINO; lia).
      case_bool_decide as Hnm.
      * destruct (scanned_found es name (Z.to_nat j) d found empty) as [-> Hs]; try done; [apply Hd|].
        wps_step. split; [done|]. split; [done|]. by rewrite Z2Nat.id in Hs by lia.
      * wps_step. split; [done|]. split; [done|]. by eapply scanned_other.
  - intros [[r found] empty] f' (-> & -> & Hsc). simpl negb. cbn match. wps_step. split; [done|].
    apply scanned_all. rewrite Hlen. by replace (Z.to_nat (0 + Z.of_nat (Z.to_nat (nslots (sv_i sv)))))
      with (Z.to_nat (nslots (sv_i sv))) in Hsc by lia.
Qed.

(** ** Writing a slot *)

Definition put_entry (k : nat) (d : sfs_dir) (es : list sfs_dir) : list sfs_dir :=
  take k es ++ [d] ++ drop (S k) es.

Lemma put_entry_insert k d es : (k < length es)%nat → put_entry k d es = <[k := d]> es.
Proof. intros Hk. unfold put_entry. by rewrite insert_take_drop. Qed.

Lemma entries_put dat n (k : nat) d :
  is_u32 (sfd_ino d) → length (sfd_name d) = 60%nat → (k ≤ n)%nat →
  64 * Z.of_nat n ≤ zlen dat → 64 * Z.of_nat (S k) ≤ zlen dat →
  entries (splice dat (64 * Z.of_nat k) (dir_bytes d)) (Nat.max n (S k)) = put_entry k d (entries dat n).
Proof.
  intros Hi Hn Hk Hd1 Hd2. assert (zlen (dir_bytes d) = 64) as Hl.
  { unfold dir_bytes. rewrite length_app, Hn. done. }
  assert (length (take k (entries dat n)) = k) as Htk by (rewrite length_take, length_entries; lia).
  apply list_eq. intros j. unfold put_entry. destruct (decide (j < Nat.max n (S k))%nat) as [Hj|Hj].
  - rewrite entries_lookup by done. destruct (decide (j = k)) as [->|Hne].
    + rewrite lookup_app_r by lia. rewrite Htk, Nat.sub_diag. simpl. f_equal.
      pose proof (sub_splice_same dat (64 * Z.of_nat k) (dir_bytes d) ltac:(lia) ltac:(lia)) as Hx.
      rewrite Hl in Hx. rewrite Hx. by apply dir_roundtrip.
    + rewrite sub_splice_other by lia. destruct (decide (j < k)%nat).
      * rewrite lookup_app_l by lia. rewrite lookup_take_lt by lia. by rewrite entries_lookup by lia.
      * rewrite lookup_app_r by lia. rewrite lookup_app_r by (simpl; lia). rewrite lookup_drop, Htk.
        replace (S k + (j - k - length [d]))%nat with j by (simpl; lia). by rewrite entries_lookup by lia.
  - rewrite !lookup_ge_None_2; [done| |rewrite length_entries; lia].
    rewrite !length_app, length_drop, length_entries, Htk. simpl. lia.
Qed.

Lemma slot_in_block slot : 0 ≤ slot → (64 * slot) mod 512 + 64 ≤ 512.
Proof.
  intros Hs. change 512 with (64 * 8). rewrite Z.mul_mod_distr_l by lia.
  pose proof (Z.mod_pos_bound slot 8). lia.
Qed.

(** The state after an entry has been written, or could not be. *)
Definition slot_post p O (slot : Z) (d : sfs_dir) sv f (r : Z) f' : Prop :=
  ∃ sv', fstep p O sv f sv' f' ∧ sfi_size (sv_i sv') mod 64 = 0 ∧ sfi_size (sv_i sv') ≤ MAXSIZE ∧
    ((r = 0 ∧ dirents f' (sv_i sv') = put_entry (Z.to_nat slot) d (dirents f (sv_i sv))) ∨
     (((r = ENOSPC ∧ full f' ∧ fmap_ f (sv_i sv) !! Z.to_nat (64 * slot / 512) = Some 0) ∨
       (r = EINVAL ∧ slot = 1144)) ∧ dirents f' (sv_i sv') = dirents f (sv_i sv))).

Lemma writedir_spec f p sv O d slot :
  dir_ok f p sv O → is_u32 (sfd_ino d) → length (sfd_name d) = 60%nat →
  0 ≤ slot ≤ nslots (sv_i sv) →
  wps (sfs_writedir U p d slot) f (slot_post p O slot d sv f).
Proof.
  intros Hd Hi Hn Hs. destruct (dir_bound _ _ _ _ Hd) as [Hb Hsz]. pose proof (di_file _ _ _ _ Hd) as Hf.
  assert (length (dir_bytes d) = 64%nat) as Hl by (unfold dir_bytes; rewrite length_app, Hn; done).
  destruct (dir_uio_ok (dir_bytes d) slot UIO_WRITE) as [Hu Ho]; [done|lia|].
  unfold sfs_writedir. rewrite wps_bind, wps_asrt. split; [lia|].
  fold (dir_uio (dir_bytes d) slot UIO_WRITE). set (u := dir_uio _ _ _) in *.
  pose proof (length_fdata _ _ _ _ Hf) as Hlen.
  wps_call sfs_write_once; [done|lia|done|done|done| |].
  { rewrite Ho. apply slot_in_block. lia. }
  intros [r u'] f' [(sv' & Hst & Herr & Hsz' & k & Hk & Hkm & Hu' & Hdat & Hdone) Hall].
  destruct (negb (r =? 0)) eqn:Er.
  - wps_step. destruct (Hall ltac:(lia)) as [-> Hhole]. exists sv'. rewrite Ho in Hsz'.
    unfold at_hole in Hhole. rewrite Ho in Hhole.
    assert (k = 0) as -> by (apply (f_equal uio_resid) in Hu'; simpl in Hu'; lia).
    rewrite sub_0, splice_nil in Hdat. assert (sfi_size (sv_i sv') = sfi_size (sv_i sv)) as Hse by lia.
    split; [done|]. rewrite Hse. split; [apply Hd|]. split; [apply Hd|]. right.
    unfold dirents, nslots. rewrite Hse, Hdat. split; [|done].
    destruct Herr as [->|[(-> & _ & ?)|[(-> & Hge & _)|(_ & Hseg)]]]; [done|left; by auto| |done].
    right. split; [done|lia].
  - replace r with 0 in * by lia. rewrite Hdone in * by done. subst u'.
    change (uio_resid (advance _ _ u) >? 0) with (64 - 64 >? 0). simpl. wps_step.
    change (uio_offset (advance _ _ u)) with (uio_offset u + 64) in Hsz'. rewrite Ho in *.
    change (upos u) with (KBUF - KBUF) in Hdat. change (u_mem u) with (dir_bytes d) in Hdat.
    change (uio_resid u) with 64 in Hdat. rewrite Z.sub_diag in Hdat.
    replace 64 with (zlen (dir_bytes d)) in Hdat at 2 by lia. rewrite sub_all in Hdat.
    change (uio_resid u) with 64 in Hkm.
    exists sv'. split; [done|].
    assert (sfi_size (sv_i sv') = 64 * Z.max (nslots (sv_i sv)) (slot + 1)) as Hs' by lia.
    split; [rewrite Hs', Z.mul_comm; apply Z.mod_mul; lia|]. split; [lia|]. left.
    split; [done|]. unfold dirents.
    replace (nslots (sv_i sv')) with (Z.max (nslots (sv_i sv)) (slot + 1))
      by (unfold nslots at 2; rewrite Hs', Z.mul_comm, Z.div_mul; lia).
    rewrite Hdat.
    replace (64 * slot) with (64 * Z.of_nat (Z.to_nat slot)) by lia.
    rewrite <- entries_put by (done || lia). f_equal. lia.
Qed.

(** ** Link and unlink *)

Lemma cstr_pad name n : (∀ c, c ∈ name → c ≠ 0) → cstr (name ++ replicate n 0) = name.
Proof.
  induction name as [|c name IH]; intros Hc; simpl; [by destruct n|].
  assert (c ≠ 0) by (apply Hc; constructor). replace (c =? 0) with false by lia. f_equal. apply IH.
  intros c' Hc'. apply Hc. by constructor.
Qed.

Definition new_entry (ino : Z) (name : list Z) : sfs_dir := Dir ino (name ++ replicate (60 - length name) 0).

Lemma dname_new ino name :
  (∀ c, c ∈ name → c ≠ 0) → (length name ≤ 59)%nat → dname (new_entry ino name) = name.
Proof.
  intros Hc Hl. unfold dname, new_entry. simpl. rewrite take_app, (take_ge name) by lia.
  rewrite take_replicate. by apply cstr_pad.
Qed.

Lemma dir_after f p sv O sv' f' :
  dir_ok f p sv O → fstep p O sv f sv' f' → sfi_size (sv_i sv') mod 64 = 0 →
  sfi_size (sv_i sv') ≤ MAXSIZE → names_once (dirents f' (sv_i sv')) → dir_ok f' p sv' O.
Proof.
  intros Hd Hst Hm Hmax Hn. constructor; try done; [apply Hst|].
  destruct (fs_meta _ _ _ _ _ _ Hst) as (_ & _ & -> & _). apply Hd.
Qed.

(** A directory operation: the directory before and after stand for the maps [m] and [m']. *)
Definition dir_step p O sv f sv' f' : Prop := fstep p O sv f sv' f' ∧ dir_ok f' p sv' O.

Definition dirmap (f : sfs_fs) (sv : sfs_vnode) : gmap (list Z) Z := dmap (dirents f (sv_i sv)).

Definition link_post p O (name : list Z) (ino : Z) sv f (r slot : Z) f' : Prop :=
  ∃ sv', dir_step p O sv f sv' f' ∧
    ((r = 0 ∧ dirmap f sv !! name = None ∧ zlen name < SFS_NAMELEN ∧
      dirmap f' sv' = <[name := ino]> (dirmap f sv) ∧ 0 ≤ slot ∧
      dirents f' (sv_i sv') !! Z.to_nat slot = Some (new_entry ino name) ∧
      ∀ j d, dirents f (sv_i sv) !! j = Some d → live d → dirents f' (sv_i sv') !! j = Some d) ∨
     (r = EEXIST ∧ is_Some (dirmap f sv !! name) ∧ f' = f) ∨
     (r = ENAMETOOLONG ∧ SFS_NAMELEN ≤ zlen name ∧ dirmap f sv !! name = None ∧ f' = f) ∨
     (((r = ENOSPC ∧ full f') ∨ (r = EINVAL ∧ nslots (sv_i sv) = 1144)) ∧
      dirmap f' sv' = dirmap f sv)).

Lemma dir_step_refl f p sv O : dir_ok f p sv O → dir_step p O sv f sv f.
Proof. intros Hd. split; [|done]. apply fstep_refl, Hd. Qed.

Lemma dir_step_same p O sv f sv' : dir_ok f p sv O → dir_step p O sv f sv' f → sv' = sv.
Proof.
  intros [[_ Hm _ _] _ _ _ _] [[[_ Hm' _ _] _ _ _ _] _]. congruence.
Qed.

(** The slot that is written is free. *)
Lemma chosen_slot es empty (slot : Z) :
  free_slot es empty → slot = match empty with Some s => s | None => zlen es end →
  0 ≤ slot ≤ zlen es ∧
  (Z.to_nat slot = length es ∨ ∃ d0, es !! Z.to_nat slot = Some d0 ∧ ¬ live d0).
Proof.
  intros Hf ->. destruct empty as [s|].
  - destruct Hf as (H0 & d & Hd & Hl). split; [apply lookup_lt_Some in Hd; lia|]. right. by exists d.
  - split; [lia|]. left. lia.
Qed.

Lemma put_other es (k j : nat) d d' :
  (k = length es ∨ ∃ d0, es !! k = Some d0 ∧ ¬ live d0) → es !! j = Some d → live d →
  (take k es ++ [d'] ++ drop (S k) es) !! j = Some d.
Proof.
  intros Hk Hj Hl. pose proof (lookup_lt_Some _ _ _ Hj) as Hlt. destruct Hk as [->|(d0 & Hd0 & Hn)].
  - rewrite take_ge, lookup_app_l by lia. done.
  - pose proof (lookup_lt_Some _ _ _ Hd0) as Hk. fold (put_entry k d' es). rewrite put_entry_insert by done.
    rewrite list_lookup_insert_ne; [done|]. intros ->. by simplify_eq.
Qed.

Lemma dir_link_spec f p sv O name ino :
  dir_ok f p sv O → is_u32 ino → ino ≠ 0 → (∀ c, c ∈ name → c ≠ 0) →
  wps (sfs_dir_link U p name ino) f (λ '(r, slot) f', link_post p O name ino sv f r slot f').
Proof.
  intros Hd Hi Hi0 Hc. set (es := dirents f (sv_i sv)). unfold sfs_dir_link.
  wps_call findname_spec; [done|]. intros [[r found] empty] f' (-> & Hfree & Hfound). fold es in Hfree, Hfound.
  destruct found as [[ino' s]|]; simpl in Hfound.
  { destruct Hfound as (-> & Hs & d & Hds & Hl & Hnm & _). simpl. wps_step. exists sv.
    split; [by apply dir_step_refl|]. right. left. split; [done|]. split; [|done]. exists (sfd_ino d).
    apply dmap_lookup; [apply Hd|]. exists d. split_and!; try done. by eapply list_elem_of_lookup_2. }
  destruct Hfound as [-> Hnone]. simpl andb. cbn match. unfold SFS_NAMELEN.
  destruct (zlen name + 1 >? 60) eqn:El.
  { simpl. wps_step. exists sv. split; [by apply dir_step_refl|]. right. right. left. unfold SFS_NAMELEN. split_and!; (done || lia). }
  simpl. rewrite wps_bind.
  assert (zlen es = nslots (sv_i sv)) as Hlen.
  { destruct (dir_bound _ _ _ _ Hd) as [Hb _]. unfold es. rewrite length_dirents. lia. }
  apply (wps_mono _ _ (λ slot f1, f1 = f ∧ slot = match empty with Some s => s | None => zlen es end)).
  { destruct empty as [s|]; [by wps_step|]. eapply nentries_spec; [done|]. by rewrite Hlen. }
  intros slot f1 [-> Hslot]. destruct (chosen_slot es empty slot Hfree Hslot) as [Hs Hk].
  fold (new_entry ino name). wps_call writedir_spec; [done|done| |lia|].
  { unfold new_entry. simpl. rewrite length_app, length_replicate. lia. }
  intros r' f' (sv' & Hst & Hmod & Hmax & Hres). fold es in Hres. wps_step. exists sv'.
  pose proof (dname_new ino name Hc ltac:(lia)) as Hdn.
  destruct Hres as [[-> Hes]|[Hr Hes]].
  - destruct (dmap_put es (Z.to_nat slot) (new_entry ino name)) as [Hn' Hm]; [apply Hd|done|done|by rewrite Hdn|].
    unfold put_entry in Hes. rewrite <- Hes, Hdn in *. split; [split; [done|by eapply dir_after]|]. left.
    unfold dirmap. unfold SFS_NAMELEN. split_and!; try done; try lia.
    + rewrite Hes. rewrite lookup_app_r; rewrite length_take; [|lia]. by replace (_ - _)%nat with 0%nat by lia.
    + intros j d Hj Hl. rewrite Hes. by eapply put_other.
  - split; [split; [done|eapply dir_after; try done; rewrite Hes; apply Hd]|].
    right. right. right. unfold dirmap. rewrite Hes. split; [|done].
    destruct Hr as [(? & ? & _)|[? ->]]; [by left|right]. split; [done|]. destruct (dir_bound _ _ _ _ Hd). lia.
Qed.

Definition unlink_post p O (d : sfs_dir) sv f (r : Z) f' : Prop :=
  r = 0 ∧ ∃ sv', dir_step p O sv f sv' f' ∧ dirmap f' sv' = delete (dname d) (dirmap f sv).

(** There is no entry in a block the directory does not have. *)
Lemma live_not_hole f p sv O (slot : Z) d :
  dir_ok f p sv O → 0 ≤ slot → dirents f (sv_i sv) !! Z.to_nat slot = Some d → live d →
  fmap_ f (sv_i sv) !! Z.to_nat (64 * slot / 512) ≠ Some 0.
Proof.
  intros Hd Hs Hlk Hl Hz. pose proof (lookup_lt_Some _ _ _ Hlk) as Hlt. rewrite length_dirents in Hlt.
  pose proof (di_file _ _ _ _ Hd) as Hf. pose proof (fdata_block f p sv O _ 0 Hf Hz) as Hb.
  pose proof (lookup_lt_Some _ _ _ Hz) as Hlz. rewrite length_fmap_ in Hlz by apply Hf.
  unfold dirents in Hlk. rewrite entries_lookup in Hlk by lia. apply Hl. injection Hlk as <-.
  pose proof (Z.div_mod (64 * slot) 512 ltac:(lia)) as Hdm. pose proof (slot_in_block slot Hs) as Hin.
  pose proof (Z.mod_pos_bound (64 * slot) 512 ltac:(lia)) as Hmb.
  pose proof (Z.div_pos (64 * slot) 512 ltac:(lia) ltac:(lia)) as Hq.
  replace (sub (fdata f (sv_i sv)) (64 * Z.of_nat (Z.to_nat slot)) 64)
    with (sub (sub (fdata f (sv_i sv)) (512 * Z.of_nat (Z.to_nat (64 * slot / 512))) 512) ((64 * slot) mod 512) 64).
  2: { rewrite sub_sub by lia. f_equal. lia. }
  rewrite Hb. unfold dir_of, blk, SFS_NOINO. simpl sfd_ino. rewrite sub_sub by lia.
  unfold zero_block, sub. rewrite drop_replicate, take_replicate. by replace (_ `min` _)%nat with 4%nat by lia.
Qed.

Lemma dir_unlink_spec f p sv O slot d :
  dir_ok f p sv O → 0 ≤ slot → dirents f (sv_i sv) !! Z.to_nat slot = Some d → live d →
  wps (sfs_dir_unlink U p slot) f (unlink_post p O d sv f).
Proof.
  intros Hd Hs Hlk Hl. pose proof (lookup_lt_Some _ _ _ Hlk) as Hlt. rewrite length_dirents in Hlt.
  destruct (dir_bound _ _ _ _ Hd) as [Hb _]. unfold sfs_dir_unlink.
  eapply wps_mono; [apply writedir_spec; [done|done|done|lia]|].
  intros r f' (sv' & Hst & Hmod & Hmax & Hres).
  destruct Hres as [[-> Hes]|[[(_ & _ & Hz)|[_ ->]] _]]; [|by destruct (live_not_hole f p sv O slot d)|lia].
  split; [done|]. exists sv'. rewrite put_entry_insert in Hes by (rewrite length_dirents; lia).
  destruct (dmap_clear (dirents f (sv_i sv)) (Z.to_nat slot) (Dir SFS_NOINO (replicate 60 0)) d) as [Hn Hm];
    [apply Hd|done|done|intros Hx; by apply Hx|].
  rewrite <- Hes in *. split; [split; [done|by eapply dir_after]|done].
Qed.
End dirs.
