(* ===== verification/SfsTrunc.v ===== *)
(** * Truncation

    [sfs_truncate] (kern/fs/sfs/sfs_vnode.c) gives back the blocks past the new end of a file.
    [cut keep l] is a block map of which only the entries that [keep] selects are left. *)

From S2P Require Import Prelude StateM Heap KArray KBitmap Uio SfsDisk Sfs SfsBytes SfsSpec SfsIo.

(** ** Block maps with entries removed *)

Definition cut (keep : nat → bool) (l : list Z) : list Z := imap (λ n b, if keep n then b else 0) l.

Lemma cut_lookup keep l (n : nat) : cut keep l !! n = (λ b, if keep n then b else 0) <$> l !! n.
Proof. apply list_lookup_imap. Qed.

Lemma length_cut keep l : length (cut keep l) = length l.
Proof. apply length_imap. Qed.

Lemma cut_all l keep : (∀ n, (n < length l)%nat → keep n = true) → cut keep l = l.
Proof.
  intros Hk. apply list_eq. intros n. rewrite cut_lookup. destruct (l !! n) eqn:E; [|done]. simpl.
  by rewrite Hk by (by apply lookup_lt_Some in E).
Qed.

Lemma cut_ext keep keep' l :
  (∀ n b, l !! n = Some b → b ≠ 0 → keep n = keep' n) → cut keep l = cut keep' l.
Proof.
  intros Hk. apply list_eq. intros n. rewrite !cut_lookup. destruct (l !! n) as [b|] eqn:E; [|done]. simpl. f_equal.
  destruct (decide (b = 0)) as [->|Hb]; [by destruct (keep n), (keep' n)|]. by rewrite (Hk n b).
Qed.

Lemma cut_app keep l l' : cut keep (l ++ l') = cut keep l ++ cut (λ n, keep (length l + n)%nat) l'.
Proof. unfold cut. rewrite imap_app. done. Qed.

(** The entries kept and the entries removed are all entries. *)
Lemma cut_split keep l : nonzero l ≡ₚ nonzero (cut (λ n, negb (keep n)) l) ++ nonzero (cut keep l).
Proof.
  revert keep. induction l as [|b l IH]; intros keep; [done|].
  assert (∀ k, cut k (b :: l) = (if k 0%nat then b else 0) :: cut (k ∘ S) l) as Hc by (intros k; apply imap_cons).
  assert (∀ x l', nonzero (x :: l') = (if decide (x = 0) then [] else [x]) ++ nonzero l') as Hn.
  { intros x l'. unfold nonzero. destruct (decide (x = 0)); [by rewrite filter_cons_False by lia|].
    by rewrite filter_cons_True by done. }
  rewrite !Hc, !Hn, (IH (keep ∘ S)). destruct (keep 0%nat); simpl negb; cbn match.
  - rewrite (decide_True (P := 0 = 0)) by done. simpl. rewrite !app_assoc. f_equiv. by rewrite Permutation_app_comm.
  - rewrite (decide_True (P := 0 = 0)) by done. simpl. by rewrite app_assoc.
Qed.

Lemma elem_of_cut keep l b : b ∈ cut keep l → b ≠ 0 → b ∈ l.
Proof.
  intros [n Hn]%list_elem_of_lookup Hb. rewrite cut_lookup in Hn. destruct (l !! n) as [b'|] eqn:E; [|done].
  simpl in Hn. destruct (keep n); simplify_eq. by eapply list_elem_of_lookup_2.
Qed.

(** Removing one entry more. *)
Lemma cut_step keep keep' l (j : nat) b :
  l !! j = Some b → keep j = true → keep' j = false → (∀ n, n ≠ j → keep' n = keep n) →
  cut keep' l = <[j := 0]> (cut keep l) ∧
  nonzero (cut (λ n, negb (keep' n)) l) ≡ₚ (if decide (b = 0) then [] else [b]) ++ nonzero (cut (λ n, negb (keep n)) l).
Proof.
  intros Hj Hk Hk' Hrest. split.
  - apply list_eq. intros n. rewrite cut_lookup. destruct (decide (n = j)) as [->|Hne].
    + rewrite list_lookup_insert_eq by (rewrite length_cut; by apply lookup_lt_Some in Hj).
      by rewrite Hj, Hk'.
    + by rewrite list_lookup_insert_ne, cut_lookup, Hrest by done.
  - destruct (decide (b = 0)) as [->|Hb].
    + simpl. rewrite (cut_ext (λ n, negb (keep' n)) (λ n, negb (keep n))); [done|].
      intros n b' Hn Hb'. f_equal. apply Hrest. congruence.
    + assert (cut (λ n, negb (keep' n)) l = <[j := b]> (cut (λ n, negb (keep n)) l)) as ->.
      { apply list_eq. intros n. rewrite cut_lookup. destruct (decide (n = j)) as [->|Hne].
        - rewrite list_lookup_insert_eq by (rewrite length_cut; by apply lookup_lt_Some in Hj).
          by rewrite Hj, Hk'.
        - by rewrite list_lookup_insert_ne, cut_lookup, Hrest by done. }
      apply nonzero_fill; [|done]. by rewrite cut_lookup, Hj, Hk.
Qed.

(** ** Freeing blocks *)

(** [f'] is [f] with the blocks [B] marked free. *)
Definition freed (f : sfs_fs) (B : list Z) (f' : sfs_fs) : Prop :=
  vol_ok f' ∧ ∃ bm x, f' = set_freemapdirty x (set_freemap bm f) ∧
    bm_self bm = bm_self (sfs_freemap f) ∧ bm_nbits bm = bm_nbits (sfs_freemap f) ∧
    bm_vptr bm = bm_vptr (sfs_freemap f) ∧
    (∀ b, 0 ≤ b → bm_bit bm b = used f b && negb (bool_decide (b ∈ B))) ∧
    ((bm = sfs_freemap f ∧ x = sfs_freemapdirty f) ∨ x = 1).

#[export] Instance freed_perm f : Proper ((≡ₚ) ==> eq ==> iff) (freed f).
Proof.
  assert (∀ B B' f', B ≡ₚ B' → freed f B f' → freed f B' f') as Hgo.
  { intros B B' f' HB (Hv & bm & x & Hf & H1 & H2 & H3 & Hb & Hx). split; [done|]. exists bm, x. split_and!; try done.
    intros b Hb0. rewrite Hb by done. f_equal. f_equal. apply bool_decide_ext. by rewrite HB. }
  intros B B' HB f' ? <-. split; by apply Hgo.
Qed.

Lemma freed_refl f : vol_ok f → freed f [] f.
Proof.
  intros Hv. split; [done|]. exists (sfs_freemap f), (sfs_freemapdirty f).
  split; [by destruct f|]. do 3 (split; [done|]). split; [|by left]. intros b Hb. rewrite bool_decide_false by apply not_elem_of_nil. by rewrite andb_true_r.
Qed.

Lemma freed_trans f B f1 B' f2 : freed f B f1 → freed f1 B' f2 → freed f (B' ++ B) f2.
Proof.
  intros (_ & bm & x & -> & H1 & H2 & H3 & Hb & Hx) (Hv & bm' & x' & -> & H1' & H2' & H3' & Hb' & Hx').
  split; [done|]. exists bm', x'. fsimpl.
  split; [done|]. do 3 (split; [congruence|]). split; [|destruct Hx' as [[-> ->]| ->]; [done|by right]]. intros b Hb0.
  rewrite Hb', Hb by done. rewrite <- andb_assoc. f_equal. rewrite <- negb_orb. f_equal.
  rewrite <- bool_decide_or. apply bool_decide_ext. rewrite elem_of_app. tauto.
Qed.

Lemma bfree_spec f b :
  vol_ok f → 0 < b < nblocks f → used f b = true → wps (sfs_bfree b) f (λ _ f', freed f [b] f').
Proof.
  intros [] Hb Hu. unfold sfs_bfree. wps_step. rewrite wps_lift.
  eapply wp_mono; [apply bitmap_unmark_spec; [done|lia|done]|].
  intros bm [Hw (Hs & Hn & Hv & Hbit)]. wps_step. split.
  - constructor; fsimpl; try done; [by rewrite Hn| |].
    + intros b' Hb'. rewrite Hbit by lia. replace (b' =? b) with false by lia. apply vo_tail. by rewrite <- Hn.
    + rewrite Hbit by lia. by replace (0 =? b) with false by lia.
  - exists bm, 1. split_and!; try done; [|by right]. intros b' Hb'. rewrite Hbit by done.
    destruct (b' =? b) eqn:E.
    + rewrite bool_decide_true by (apply list_elem_of_singleton; lia). by rewrite andb_false_r.
    + rewrite bool_decide_false by (rewrite list_elem_of_singleton; lia). by rewrite andb_true_r.
Qed.

Lemma freed_mem M f B f' :
  freed (set_mem M f) B f' → vol_ok f → ∃ f1, freed f B f1 ∧ f' = set_mem M f1.
Proof.
  intros (Hv & bm & x & -> & Hrest) Hv0. exists (set_freemapdirty x (set_freemap bm f)). split; [|done].
  split; [destruct Hv; by constructor|]. by exists bm, x.
Qed.

Lemma freed_used f B f' b : freed f B f' → 0 ≤ b → used f b = true → b ∉ B → used f' b = true.
Proof.
  intros (_ & bm & x & -> & _ & _ & _ & Hb & _) H0 Hu Hn. fsimpl. rewrite Hb, Hu by done.
  by rewrite bool_decide_false.
Qed.

Lemma freed_frame f B f' : freed f B f' →
  vol_ok f' ∧ sfs_device f' = sfs_device f ∧ sfs_super_ f' = sfs_super_ f ∧ sfs_mem f' = sfs_mem f.
Proof. by intros (Hv & bm & x & -> & _). Qed.

(** Entries [0 .. j-1] of a table have been looked at. *)
Definition seen (stay : nat → bool) (j n : nat) : bool := stay n || (j <=? n)%nat.

Lemma seen_0 stay l : cut (seen stay 0) l = l ∧ nonzero (cut (λ n, negb (seen stay 0 n)) l) = [].
Proof.
  split; [apply cut_all; intros n _; unfold seen; by rewrite orb_true_r|].
  apply filter_none. intros b [n Hn]%list_elem_of_lookup. rewrite cut_lookup in Hn. unfold seen in Hn.
  rewrite orb_true_r in Hn. destruct (l !! n); simpl in Hn; simplify_eq. intros Hx. by apply Hx.
Qed.

Lemma seen_all stay l j : length l = j →
  cut (seen stay j) l = cut stay l ∧
  cut (λ n, negb (seen stay j n)) l = cut (λ n, negb (stay n)) l.
Proof.
  intros <-. split; apply cut_ext; intros n b Hn _; apply lookup_lt_Some in Hn; unfold seen;
    replace (length l <=? n)%nat with false by (symmetry; apply Nat.leb_gt; lia); by rewrite orb_false_r.
Qed.

(** The next entry is left alone, or removed. *)
Lemma seen_stay stay l j b : l !! j = Some b → stay j = true ∨ b = 0 →
  cut (seen stay (S j)) l = cut (seen stay j) l ∧
  cut (λ n, negb (seen stay (S j) n)) l = cut (λ n, negb (seen stay j n)) l.
Proof.
  intros Hj Hs. assert (∀ n b', l !! n = Some b' → b' ≠ 0 → seen stay (S j) n = seen stay j n) as Hx.
  { intros n b' Hn Hb'. unfold seen. destruct (decide (n = j)) as [->|Hne].
    - destruct Hs as [->| ->]; [done|congruence].
    - f_equal. destruct (S j <=? n)%nat eqn:E1, (j <=? n)%nat eqn:E2; try done;
        rewrite ?Nat.leb_le, ?Nat.leb_gt in E1, E2; lia. }
  split; apply cut_ext; [done|]. intros n b' Hn Hb'. f_equal. by eapply Hx.
Qed.

Lemma seen_drop stay l j b : l !! j = Some b → stay j = false → b ≠ 0 →
  cut (seen stay (S j)) l = <[j := 0]> (cut (seen stay j) l) ∧
  nonzero (cut (λ n, negb (seen stay (S j) n)) l) ≡ₚ b :: nonzero (cut (λ n, negb (seen stay j n)) l).
Proof.
  intros Hj Hs Hb. destruct (cut_step (seen stay j) (seen stay (S j)) l j b Hj) as [H1 H2].
  - unfold seen. rewrite Nat.leb_refl. apply orb_true_r.
  - unfold seen. rewrite Hs. apply Nat.leb_gt. lia.
  - intros n Hn. unfold seen. f_equal.
    destruct (S j <=? n)%nat eqn:E1, (j <=? n)%nat eqn:E2; try done;
      rewrite ?Nat.leb_le, ?Nat.leb_gt in E1, E2; lia.
  - split; [done|]. by rewrite decide_False in H2.
Qed.

(** An entry not looked at yet is not among the freed blocks. *)
Lemma seen_fresh stay l j b :
  NoDup (nonzero l) → l !! j = Some b → b ≠ 0 → b ∉ nonzero (cut (λ n, negb (seen stay j n)) l).
Proof.
  intros Hnd Hj Hb Hin. rewrite (cut_split (seen stay j) l) in Hnd. apply NoDup_app in Hnd as (_ & Hd & _).
  apply (Hd b Hin). apply elem_of_nonzero. split; [done|]. apply (list_elem_of_lookup_2 _ j).
  rewrite cut_lookup, Hj. simpl. unfold seen. by rewrite Nat.leb_refl, orb_true_r.
Qed.

(** ** The two tables *)

Section tables.
Variable U : usermem.

Definition below (bl : Z) (n : nat) : bool := Z.of_nat n <? bl.

Definition direct_cut p (stay : nat → bool) (j : nat) sv f f' : Prop :=
  ∃ f1 sv', freed f (nonzero (cut (λ n, negb (seen stay j n)) (sfi_direct (sv_i sv)))) f1 ∧
    f' = set_mem (<[p := sv']> (sfs_mem f)) f1 ∧
    sv_i sv' = i_set_direct (cut (seen stay j) (sfi_direct (sv_i sv))) (sv_i sv) ∧
    sv_v sv' = sv_v sv ∧ sv_ino sv' = sv_ino sv.

Lemma direct_nodup f p sv O : file f p sv O → NoDup (nonzero (sfi_direct (sv_i sv))).
Proof.
  intros Hf. destruct (fi_own _ _ _ _ Hf) as [Hnd _]. apply NoDup_app in Hnd as [Hnd _].
  unfold file_blocks, fmap_ in Hnd. change (sfi_indirect (sv_i sv) :: sfi_direct (sv_i sv) ++ idwords f (sv_i sv))
    with ([sfi_indirect (sv_i sv)] ++ sfi_direct (sv_i sv) ++ idwords f (sv_i sv)) in Hnd.
  rewrite !nonzero_app in Hnd. apply NoDup_app in Hnd as (_ & _ & Hnd). by apply NoDup_app in Hnd as [? _].
Qed.

Lemma truncate_direct_spec f p sv O bl :
  file f p sv O → wps (truncate_direct p bl) f (λ _ f', direct_cut p (below bl) 15 sv f f').
Proof.
  intros Hf. unfold truncate_direct.
  apply (wps_mfor (λ j _ f', direct_cut p (below bl) (Z.to_nat j) sv f f')).
  - destruct (seen_0 (below bl) (sfi_direct (sv_i sv))) as [Hc Hn].
    exists f, sv. change (Z.to_nat 0) with 0%nat. rewrite Hc, Hn. split; [apply freed_refl, Hf|].
    split; [rewrite insert_id by apply Hf; by destruct f|]. split; [by destruct (sv_i sv)|done].
  - intros j _ f' Hj (f1 & sv' & Hfr & -> & Hi & Hv & Hino).
    destruct (freed_frame _ _ _ Hfr) as (Hvol & _ & Hsup & _).
    rewrite wps_bind. eapply get_vn_ok; [by apply lookup_insert_eq|]. rewrite Hi. fsimpl. rewrite wps_bind, wps_lift.
    pose proof (iw_direct _ (fi_wf _ _ _ _ Hf)) as Hlen.
    apply wp_getz; [rewrite length_cut; lia|]. intros b Hb. rewrite cut_lookup in Hb.
    destruct (sfi_direct (sv_i sv) !! Z.to_nat j) as [b0|] eqn:Eb; [|done]. simpl in Hb.
    assert (b0 = b) as ->.
    { unfold seen in Hb. rewrite Nat.leb_refl, orb_true_r in Hb. by simplify_eq. }
    replace (Z.to_nat (j + 1)) with (S (Z.to_nat j)) by lia.
    destruct ((j >=? bl) && negb (b =? 0)) eqn:E.
    + assert (b ≠ 0 ∧ below bl (Z.to_nat j) = false) as [Hb0 Hbl] by (unfold below; lia).
      destruct (seen_drop (below bl) _ _ _ Eb Hbl Hb0) as [Hc Hp].
      destruct (file_block_ok _ _ _ _ b Hf) as [Hr Hu]; [|done|].
      { unfold fmap_. apply elem_of_app. left. by eapply list_elem_of_lookup_2. }
      wps_call bfree_spec.
      * destruct Hvol. by constructor.
      * fsimpl. rewrite Hsup. done.
      * fsimpl. eapply freed_used; [exact Hfr|lia|done|]. eapply seen_fresh; [by eapply direct_nodup|done|done].
      * intros [] f2 Hf2. destruct (freed_mem _ _ _ _ Hf2 Hvol) as (f3 & Hf3 & ->).
        rewrite wps_bind, wps_lift. apply wp_setz; [rewrite length_cut; lia|].
        eapply touch_inode_ok; [by apply lookup_insert_eq|]. unfold renew. fsimpl.
        eexists f3, _. split; [|split; [|split; [|split]]].
        -- rewrite Hp. exact (freed_trans _ _ _ _ _ Hfr Hf3).
        -- by rewrite insert_insert_eq.
        -- fsimpl. rewrite Hi, Hc. done.
        -- done.
        -- done.
    + wps_step. assert (below bl (Z.to_nat j) = true ∨ b = 0) as Hst by (unfold below; lia).
      destruct (seen_stay _ _ _ _ Eb Hst) as [Hc1 Hc2]. exists f1, sv'. by rewrite Hc1, Hc2.
  - intros _ f' Hd. done.
Qed.

Definition entry_stays (bl : Z) (n : nat) : bool := negb (bl <? SFS_NDIRECT + Z.of_nat n).

(** The state of the loop over the indirect block. *)
Definition entries_cut bl (ids : list Z) (j : nat) f (a : list Z * bool * bool) f' : Prop :=
  let stay := entry_stays bl in
  freed f (nonzero (cut (λ n, negb (seen stay j n)) ids)) f' ∧
  a = (cut (seen stay j) ids, bool_decide (nonzero (take j (cut stay ids)) ≠ []),
       bool_decide (nonzero (cut (λ n, negb (seen stay j n)) ids) ≠ [])).

Lemma has_more l (j : nat) e :
  l !! j = Some e →
  bool_decide (nonzero (take j l) ≠ []) || negb (e =? 0) = bool_decide (nonzero (take (S j) l) ≠ []).
Proof.
  intros He. rewrite (take_S_r l j e He), nonzero_app. destruct (e =? 0) eqn:E.
  - replace (nonzero [e]) with (@nil Z) by (replace e with 0 by lia; done).
    by rewrite app_nil_r, orb_false_r.
  - replace (nonzero [e]) with [e] by (unfold nonzero; by rewrite filter_cons_True by lia).
    rewrite orb_true_r. symmetry. apply bool_decide_true. by destruct (nonzero (take j l)).
Qed.

Lemma truncate_entries_spec f bl ids :
  vol_ok f → length ids = 128%nat → NoDup (nonzero ids) →
  (∀ b, b ∈ ids → b ≠ 0 → 0 < b < nblocks f ∧ used f b = true) →
  wps (truncate_entries bl ids) f (entries_cut bl ids 128 f).
Proof.
  intros Hv Hlen Hnd Hok. unfold truncate_entries. set (stay := entry_stays bl).
  apply (wps_mfor (λ j a f', entries_cut bl ids (Z.to_nat j) f a f')).
  - destruct (seen_0 stay ids) as [Hc Hn]. unfold entries_cut. change (Z.to_nat 0) with 0%nat. fold stay.
    rewrite Hc, Hn. split; [by apply freed_refl|]. done.
  - intros j [[idbuf has] dirty] f' Hj [Hfr [= -> -> ->]]. fold stay in Hfr |- *.
    destruct (freed_frame _ _ _ Hfr) as (Hvol & _ & Hsup & _).
    destruct (lookup_lt_is_Some_2 ids (Z.to_nat j)) as [b Eb]; [lia|].
    assert (cut (seen stay (Z.to_nat j)) ids !! Z.to_nat j = Some b) as Hb.
    { rewrite cut_lookup, Eb. simpl. unfold seen. by rewrite Nat.leb_refl, orb_true_r. }
    rewrite wps_bind, wps_lift. apply wp_getz; [rewrite length_cut; lia|]. intros b' Hb'.
    rewrite Hb in Hb'. simplify_eq. unfold entries_cut. fold stay.
    replace (Z.to_nat (j + 1)) with (S (Z.to_nat j)) by lia.
    assert (stay (Z.to_nat j) = negb (bl <? SFS_NDIRECT + j)) as Hsj.
    { unfold stay, entry_stays. by rewrite Z2Nat.id by lia. }
    destruct ((bl <? SFS_NDIRECT + j) && negb (b' =? 0)) eqn:E.
    + assert (b' ≠ 0 ∧ stay (Z.to_nat j) = false) as [Hb0 Hst] by (rewrite Hsj; lia).
      destruct (seen_drop stay _ _ _ Eb Hst Hb0) as [Hc Hp].
      destruct (Hok b') as [Hr Hu]; [by eapply list_elem_of_lookup_2|done|].
      rewrite !wps_bind. eapply wps_mono; [apply bfree_spec|].
      * done.
      * by rewrite Hsup.
      * eapply freed_used; [exact Hfr|lia|done|]. by eapply seen_fresh.
      * intros [] f2 Hf2. rewrite wps_bind, wps_lift. apply wp_setz; [rewrite length_cut; lia|].
        wps_step. rewrite wps_lift. rewrite <- Hc.
        assert (cut (seen stay (S (Z.to_nat j))) ids !! Z.to_nat j = Some 0) as Hb1.
        { rewrite Hc. apply list_lookup_insert_eq. rewrite length_cut. lia. }
        apply wp_getz; [rewrite length_cut; lia|]. intros e He. rewrite Hb1 in He. simplify_eq. wps_step.
        split; [rewrite Hp; exact (freed_trans _ _ _ _ _ Hfr Hf2)|]. f_equal; [f_equal|].
        -- rewrite <- (has_more _ _ 0); [done|]. rewrite cut_lookup, Eb. simpl. by rewrite Hst.
        -- symmetry. apply bool_decide_true. intros Hx. rewrite Hx in Hp. by apply Permutation_nil_cons in Hp.
    + assert (stay (Z.to_nat j) = true ∨ b' = 0) as Hst by (rewrite Hsj; lia).
      destruct (seen_stay _ _ _ _ Eb Hst) as [Hc1 Hc2]. rewrite Hc1, Hc2. wps_step. rewrite wps_lift.
      apply wp_getz; [rewrite length_cut; lia|]. intros e He. rewrite Hb in He. simplify_eq. wps_step.
      split; [done|]. f_equal. f_equal. apply has_more. rewrite cut_lookup, Eb. simpl. f_equal.
      destruct Hst as [->| ->]; [done|by destruct (stay (Z.to_nat j))].
  - intros a f' Ha. done.
Qed.

(** ** The whole operation *)

(** The blocks that stay: those before the new end, and, in the indirect block, the one right
    after it. *)
Definition stays (bl : Z) (n : nat) : bool := (Z.of_nat n <? bl) || ((15 <=? n)%nat && (Z.of_nat n =? bl)).

Lemma stays_split f i bl :
  length (sfi_direct i) = 15%nat →
  cut (stays bl) (fmap_ f i) = cut (below bl) (sfi_direct i) ++ cut (entry_stays bl) (idwords f i) ∧
  nonzero (cut (λ n, negb (stays bl n)) (fmap_ f i)) =
    nonzero (cut (λ n, negb (below bl n)) (sfi_direct i)) ++
    nonzero (cut (λ n, negb (entry_stays bl n)) (idwords f i)).
Proof.
  intros Hl. assert (∀ n, (n < 15)%nat → stays bl n = below bl n) as H1.
  { intros n Hn. unfold stays, below. destruct (15 <=? n)%nat eqn:E; [apply Nat.leb_le in E; lia|]. by rewrite orb_false_r. }
  assert (∀ n, stays bl (15 + n) = entry_stays bl n) as H2.
  { intros n. unfold stays, entry_stays, SFS_NDIRECT. replace (15 <=? 15 + n)%nat with true by (symmetry; apply Nat.leb_le; lia). lia. }
  unfold fmap_. rewrite !cut_app, Hl. split.
  - f_equal; apply cut_ext; intros n b Hn _; [apply H1; apply lookup_lt_Some in Hn; lia|apply H2].
  - rewrite nonzero_app. f_equal; f_equal; apply cut_ext; intros n b Hn _; f_equal;
      [apply H1; apply lookup_lt_Some in Hn; lia|apply H2].
Qed.

(** What truncation leaves: the file of length [len] with block map [cut (stays bl)], and the
    other blocks free. *)
Record truncated p O bl len sv f sv' f' : Prop := Truncated {
  tr_step : fstep p O sv f sv' f';
  tr_size : sfi_size (sv_i sv') = len;
  tr_map : fmap_ f' (sv_i sv') = cut (stays bl) (fmap_ f (sv_i sv));
  tr_data : fdata f' (sv_i sv') = mjoin (blk f <$> cut (stays bl) (fmap_ f (sv_i sv)));
  tr_free : ∀ b, b ∈ file_blocks f (sv_i sv) → b ∉ file_blocks f' (sv_i sv') → used f' b = false;
  tr_indirect : Forall (λ b, b = 0) (idwords f' (sv_i sv')) → bl < 142 → sfi_indirect (sv_i sv') = 0;
  tr_same : sfi_indirect (sv_i sv') = 0 ∨ sfi_indirect (sv_i sv') = sfi_indirect (sv_i sv);
}.

Lemma truncated_intro p O bl len sv f sv' d B f0 (f' := set_mem (<[p := sv']> (sfs_mem f)) (set_device d f0)) :
  file f p sv O → freed f B f0 → vol_ok f' → inode_wf (sv_i sv') →
  (∀ b, 0 ≤ b → b = 0 ∨ b ≠ sfi_indirect (sv_i sv) → sector d b = sec f b) → d_blocks d = d_blocks (sfs_device f) →
  fmap_ f' (sv_i sv') = cut (stays bl) (fmap_ f (sv_i sv)) →
  file_blocks f (sv_i sv) ≡ₚ B ++ file_blocks f' (sv_i sv') →
  sv_v sv' = sv_v sv ∧ sv_ino sv' = sv_ino sv ∧ sfi_type (sv_i sv') = sfi_type (sv_i sv) ∧
    sfi_linkcount (sv_i sv') = sfi_linkcount (sv_i sv) ∧ sfi_waste (sv_i sv') = sfi_waste (sv_i sv) →
  sv_dirty sv' = 1 → sfi_size (sv_i sv') = len →
  (Forall (λ b, b = 0) (idwords f' (sv_i sv')) → bl < 142 → sfi_indirect (sv_i sv') = 0) →
  sfi_indirect (sv_i sv') = 0 ∨ sfi_indirect (sv_i sv') = sfi_indirect (sv_i sv) →
  truncated p O bl len sv f sv' f'.
Proof.
  intros Hf Hfr Hvol Hwf Hsec Hdb Hmap Hperm Hmeta Hdirty Hsz Hid Hsame.
  pose proof (fi_own _ _ _ _ Hf) as [Hnd HB]. rewrite Hperm in Hnd.
  assert (∀ b, b ∈ file_blocks f' (sv_i sv') ++ O → b ∈ file_blocks f (sv_i sv) ++ O ∧ b ∉ B) as Hin.
  { intros b [Hb|Hb]%elem_of_app; rewrite Hperm, !elem_of_app; (split; [tauto|]); intros HbB;
      rewrite <- app_assoc in Hnd; apply NoDup_app in Hnd as (_ & Hd & _); apply (Hd b HbB), elem_of_app; tauto. }
  destruct Hfr as (_ & bm & x & -> & B1 & B2 & B3 & Hbit & Hx). constructor; try done.
  - constructor; [|  |done|unfold f'; fsimpl; by split_and!|done|by left|].
    + constructor; [done|by apply lookup_insert_eq|done|]. rewrite <- app_assoc in Hnd.
      split; [by apply NoDup_app in Hnd as (_ & _ & ?)|]. intros b Hb. destruct (Hin b Hb) as [Hb' HnB].
      destruct (HB b Hb') as [Hr Hu]. split; [done|]. unfold f'. fsimpl. rewrite Hbit, Hu by lia.
      by rewrite bool_decide_false.
    + intros b Hb. apply Hsec; [|right].
      * destruct (HB b) as [? _]; [apply elem_of_app; by right|lia].
      * intros ->. eapply (file_disjoint f p sv O); [done| |done]. apply elem_of_nonzero.
        split; [|constructor]. destruct (HB (sfi_indirect (sv_i sv))) as [? _]; [apply elem_of_app; by right|lia].
    + split; [apply Hsec; [lia|by left]|]. unfold f'. fsimpl. destruct Hx as [[-> ->]| ->]; [by left|by right].
  - unfold fdata. rewrite Hmap. f_equal. apply list_fmap_ext. intros n b Hb. unfold blk.
    destruct (b =? 0) eqn:E; [done|]. apply list_elem_of_lookup_2, elem_of_cut in Hb; [|lia].
    apply Hsec; [destruct (file_block_ok _ _ _ _ b Hf Hb) as [? _]; lia|right].
    apply (fmap_not_indirect f p sv O); [done|done|lia].
  - intros b Hb HnB. unfold f'. fsimpl. destruct (HB b) as [? _]; [apply elem_of_app; by left|].
    rewrite Hbit by lia. rewrite bool_decide_true; [by rewrite andb_false_r|].
    rewrite Hperm, elem_of_app in Hb. tauto.
Qed.

(** What the indirect block becomes: freed with the entries when nothing is left in it, and
    rewritten otherwise. *)
Definition indirect_cut p bl ids idb sv g (r : Z) g' : Prop :=
  r = 0 ∧ ∃ B g1 d sv', freed g B g1 ∧ g' = set_mem (<[p := sv']> (sfs_mem g)) (set_device d g1) ∧
    sv_v sv' = sv_v sv ∧ sv_ino sv' = sv_ino sv ∧
    disk_ok d ∧ healthy d ∧ d_blocks d = d_blocks (sfs_device g) ∧
    (∀ b, 0 ≤ b → b ≠ idb → sector d b = sec g b) ∧
    ((sv_i sv' = i_set_indirect 0 (sv_i sv) ∧ nonzero (cut (entry_stays bl) ids) = [] ∧
      B = idb :: nonzero (cut (λ n, negb (entry_stays bl n)) ids)) ∨
     (sv_i sv' = sv_i sv ∧ nonzero (cut (entry_stays bl) ids) ≠ [] ∧
      bytes_words 128 (sector d idb) = cut (entry_stays bl) ids ∧
      B = nonzero (cut (λ n, negb (entry_stays bl n)) ids))).

Lemma cut_none keep l : nonzero (cut (λ n, negb (keep n)) l) = [] → cut keep l = l.
Proof.
  intros Hn. rewrite <- (cut_all l (λ _, true)) at 2 by done. apply cut_ext. intros n b Hb Hb0.
  destruct (keep n) eqn:E; [done|]. assert (b ∈ nonzero (cut (λ n, negb (keep n)) l)) as Hin.
  { apply elem_of_nonzero. split; [done|]. apply (list_elem_of_lookup_2 _ n). by rewrite cut_lookup, Hb; simpl; rewrite E. }
  rewrite Hn in Hin. by apply elem_of_nil in Hin.
Qed.

Lemma nonzero_cons x l : nonzero (x :: l) = if x =? 0 then nonzero l else x :: nonzero l.
Proof.
  unfold nonzero. rewrite filter_cons. destruct (x =? 0) eqn:E; [rewrite decide_False by lia|rewrite decide_True by lia]; done.
Qed.

Lemma all_zero l n : nonzero l = [] → length l = n → l = replicate n 0.
Proof.
  intros Hl <-. induction l as [|x l IH]; [done|]. unfold nonzero in *. rewrite filter_cons in Hl.
  destruct (decide _) as [|Hx]; [done|]. simpl. f_equal; [lia|by apply IH].
Qed.

Lemma cut_u32 keep l : Forall is_u32 l → Forall is_u32 (cut keep l).
Proof.
  intros Hl. apply Forall_lookup. intros n b. rewrite cut_lookup. destruct (l !! n) as [b0|] eqn:E; [|done].
  simpl. intros [= <-]. destruct (keep n); [by eapply Forall_lookup_1|done].
Qed.

Lemma truncate_indirect_spec g p sv bl idb ids :
  bytes_words 128 (sec g idb) = ids → vol_ok g → sfs_mem g !! p = Some sv → 0 < idb < nblocks g → used g idb = true →
  NoDup (idb :: nonzero ids) → Forall is_u32 ids →
  (∀ b, b ∈ ids → b ≠ 0 → 0 < b < nblocks g ∧ used g b = true) →
  wps (truncate_indirect U p bl idb) g (indirect_cut p bl ids idb sv g).
Proof.
  intros Hids Hv Hm Hidb Hu [Hni Hnd]%NoDup_cons H32 Hok. unfold truncate_indirect. rewrite wps_bind.
  assert (length ids = 128%nat) as Hlen by (rewrite <- Hids; apply length_bytes_words).
  apply rblock_ok; [done|lia|done|]. cbn -[truncate_entries]. rewrite wps_bind, Hids.
  eapply wps_mono; [by apply (truncate_entries_spec g bl ids)|].
  intros a g1 [Hfr ->]. destruct (seen_all (entry_stays bl) ids 128 Hlen) as [Hc Hcn].
  rewrite Hc. rewrite Hcn in Hfr |- *.
  rewrite (take_ge (cut (entry_stays bl) ids)) by (rewrite length_cut; lia).
  destruct (freed_frame _ _ _ Hfr) as (Hv1 & Hd1 & Hs1 & Hm1). pose proof Hv as [Hdk Hhe _ _ _ _ _].
  destruct (decide (nonzero (cut (entry_stays bl) ids) = [])) as [He|He].
  - rewrite bool_decide_false by tauto. simpl. wps_call bfree_spec; [done|by rewrite Hs1| |].
    + eapply freed_used; [exact Hfr|lia|done|]. intros Hin. apply Hni.
      rewrite (cut_split (entry_stays bl)), elem_of_app. by left.
    + intros [] g2 Hg2. destruct (freed_frame _ _ _ Hg2) as (Hv2 & Hd2 & Hs2 & Hm2).
      rewrite wps_bind. eapply touch_inode_ok; [by rewrite Hm2, Hm1|]. wps_step. split; [done|].
      eexists _, g2, (sfs_device g), _. split; [exact (freed_trans _ _ _ _ _ Hfr Hg2)|].
      split; [unfold renew; rewrite Hm2, Hm1, <- Hd1, <- Hd2; by destruct g2|].
      do 6 (split; [done|]). left. by split_and!.
  - rewrite bool_decide_true by done. simpl. case_bool_decide as Hd.
    + apply wblock_ok; [done|rewrite Hs1; lia|rewrite length_words_bytes, length_cut; lia|]. split; [done|].
      eexists _, g1, (put_sector idb (words_bytes (cut (entry_stays bl) ids)) (sfs_device g)), sv.
      split; [exact Hfr|]. split; [rewrite insert_id, <- Hm1 by done; unfold put_sec; rewrite Hd1; by destruct g1|].
      do 2 (split; [done|]). split; [apply put_sector_ok; [done|rewrite length_words_bytes, length_cut; lia]|].
      do 2 (split; [done|]). destruct Hv.
      split; [intros b Hb Hne; rewrite sector_put by (done || lia); by rewrite decide_False|].
      right. split; [done|]. split; [done|]. split; [|done]. rewrite sector_put by (done || lia).
      rewrite decide_True by done. rewrite <- (length_cut (entry_stays bl) ids) in Hlen. rewrite <- Hlen at 1.
      by apply bytes_words_bytes, cut_u32.
    + wps_step. split; [done|]. eexists _, g1, (sfs_device g), sv. split; [exact Hfr|].
      split; [rewrite insert_id, <- Hm1, <- Hd1 by done; by destruct g1|]. do 6 (split; [done|]).
      right. split; [done|]. split; [done|]. split; [|done]. fold (sec g idb). rewrite Hids. symmetry. apply cut_none.
      by destruct (decide (nonzero (cut (λ n, negb (entry_stays bl n)) ids) = [])).
Qed.

Lemma blocklen_eq len :
  0 ≤ len ≤ 2 ^ 31 - 512 → u32 (Z.quot (s32 (len + SFS_BLOCKSIZE - 1)) SFS_BLOCKSIZE) = (len + 511) / 512.
Proof.
  intros Hl. unfold SFS_BLOCKSIZE. replace (len + 512 - 1) with (len + 511) by lia.
  rewrite s32_id by in_range. rewrite Z.quot_div_nonneg by lia. apply u32_id. unfold is_u32.
  split; [apply Z.div_pos; lia|]. apply Z.div_lt_upper_bound; lia.
Qed.

(** The blocks of a file are those that go and those that stay. *)
Lemma blocks_split f i bl :
  length (sfi_direct i) = 15%nat →
  nonzero (fmap_ f i) ≡ₚ
    (nonzero (cut (λ n, negb (below bl n)) (sfi_direct i)) ++
     nonzero (cut (λ n, negb (entry_stays bl n)) (idwords f i))) ++ nonzero (cut (stays bl) (fmap_ f i)).
Proof. intros Hl. destruct (stays_split f i bl Hl) as [_ <-]. apply cut_split. Qed.

Lemma entries_all_stay f i bl :
  142 ≤ bl ∨ sfi_indirect i = 0 →
  cut (entry_stays bl) (idwords f i) = idwords f i ∧
  nonzero (cut (λ n, negb (entry_stays bl n)) (idwords f i)) = [].
Proof.
  intros Hc. assert (cut (entry_stays bl) (idwords f i) = idwords f i) as Hcut.
  { rewrite <- (cut_all (idwords f i) (λ _, true)) at 2 by done. apply cut_ext. intros n b Hn Hb.
    destruct Hc as [Hc|Hc].
    - apply lookup_lt_Some in Hn. rewrite length_idwords in Hn. unfold entry_stays, SFS_NDIRECT. lia.
    - unfold idwords in Hn. rewrite Hc, Z.eqb_refl in Hn. by apply lookup_replicate in Hn as [? _]. }
  split; [done|]. pose proof (cut_split (entry_stays bl) (idwords f i)) as Hp. rewrite Hcut in Hp.
  apply Permutation_length in Hp. rewrite length_app in Hp.
  destruct (nonzero (cut (λ n, negb (entry_stays bl n)) (idwords f i))); [done|simpl in Hp; lia].
Qed.

Lemma indirect_nodup f p sv O :
  file f p sv O → sfi_indirect (sv_i sv) ≠ 0 →
  NoDup (sfi_indirect (sv_i sv) :: nonzero (sfi_direct (sv_i sv)) ++ nonzero (idwords f (sv_i sv))).
Proof.
  intros Hf Hi. destruct (fi_own _ _ _ _ Hf) as [Hnd _]. apply NoDup_app in Hnd as [Hnd _].
  unfold file_blocks, fmap_ in Hnd. rewrite <- nonzero_app.
  unfold nonzero in Hnd |- *. by rewrite filter_cons_True in Hnd by done.
Qed.

Section outcome.
Context (f : sfs_fs) (p : Z) (sv : sfs_vnode) (O : list Z) (bl len : Z).
Context (B : list Z) (f0 : sfs_fs) (d : disk) (sv' : sfs_vnode).
Hypothesis Hf : file f p sv O.
Hypothesis Hlen : is_u32 len.
Hypothesis Hfr : freed f B f0.
Hypothesis Hd : disk_ok d ∧ healthy d ∧ d_blocks d = d_blocks (sfs_device f).
Hypothesis Hsec : ∀ b, 0 ≤ b → b = 0 ∨ b ≠ sfi_indirect (sv_i sv) → sector d b = sec f b.
Hypothesis Hvn : sv_v sv' = sv_v sv ∧ sv_ino sv' = sv_ino sv ∧ sv_dirty sv' = 1.
Abbreviation i := (sv_i sv).
Abbreviation idb := (sfi_indirect (sv_i sv)).
Abbreviation gone := (nonzero (cut (λ n, negb (below bl n)) (sfi_direct i)) ++
                      nonzero (cut (λ n, negb (entry_stays bl n)) (idwords f i))).
Abbreviation f' := (set_mem (<[p := sv']> (sfs_mem f)) (set_device d f0)).

Lemma outcome_vol : vol_ok f'.
Proof using Hfr Hd Hf.
  destruct (freed_frame _ _ _ Hfr) as ([] & Hdev & _ & _). destruct Hd as (? & ? & Hdb).
  constructor; fsimpl; try done. by rewrite Hdb, <- Hdev.
Qed.

Lemma outcome_wf ind : is_u32 ind → sv_i sv' = i_set_size len (i_set_indirect ind (i_set_direct (cut (below bl) (sfi_direct i)) i)) → inode_wf (sv_i sv').
Proof using Hlen Hf.
  intros Hind ->. destruct (fi_wf _ _ _ _ Hf). constructor; fsimpl; try done; [by rewrite length_cut|by apply cut_u32].
Qed.

Lemma outcome_keep :
  sv_i sv' = i_set_size len (i_set_direct (cut (below bl) (sfi_direct i)) i) →
  (idb ≠ 0 → bytes_words 128 (sector d idb) = cut (entry_stays bl) (idwords f i)) →
  (idb ≠ 0 → bl < 142 → nonzero (cut (entry_stays bl) (idwords f i)) ≠ []) → B ≡ₚ gone →
  truncated p O bl len sv f sv' f'.
Proof using All.
  intros Hi Hid Hne HB. pose proof (fi_wf _ _ _ _ Hf) as Hw.
  destruct (stays_split f i bl (iw_direct _ Hw)) as [Hst _].
  assert (idwords f' (sv_i sv') = cut (entry_stays bl) (idwords f i)) as Hids.
  { unfold idwords at 1. rewrite Hi. fsimpl. destruct (idb =? 0) eqn:E; [|apply Hid; lia].
    destruct (entries_all_stay f i bl) as [-> _]; [right; lia|]. unfold idwords. by rewrite E. }
  assert (fmap_ f' (sv_i sv') = cut (stays bl) (fmap_ f i)) as Hmap.
  { unfold fmap_ at 1. rewrite Hids, Hst, Hi. done. }
  apply truncated_intro with B; try done.
  - apply outcome_vol.
  - apply (outcome_wf idb); [apply Hw|]. rewrite Hi. by destruct i.
  - apply Hd.
  - unfold file_blocks. rewrite Hmap, Hi. fsimpl. rewrite !nonzero_cons.
    pose proof (blocks_split f i bl (iw_direct _ Hw)) as Hp.
    destruct (idb =? 0); rewrite HB, Hp; [done|by rewrite Permutation_middle].
  - rewrite Hi. fsimpl. by destruct Hvn as (? & ? & _).
  - apply Hvn.
  - by rewrite Hi.
  - rewrite Hids, Hi. fsimpl. intros Hz Hbl. destruct (decide (idb = 0)) as [|Hn]; [done|]. destruct (Hne Hn Hbl).
    apply filter_none. intros b Hb. rewrite Forall_forall in Hz. rewrite (Hz b Hb). intros Hx. by apply Hx.
  - right. by rewrite Hi.
Qed.

Lemma outcome_drop :
  sv_i sv' = i_set_size len (i_set_indirect 0 (i_set_direct (cut (below bl) (sfi_direct i)) i)) → idb ≠ 0 →
  nonzero (cut (entry_stays bl) (idwords f i)) = [] → B ≡ₚ idb :: gone →
  truncated p O bl len sv f sv' f'.
Proof using All.
  intros Hi Hn0 He HB. pose proof (fi_wf _ _ _ _ Hf) as Hw.
  destruct (stays_split f i bl (iw_direct _ Hw)) as [Hst _].
  assert (idwords f' (sv_i sv') = cut (entry_stays bl) (idwords f i)) as Hids.
  { unfold idwords at 1. rewrite Hi. fsimpl. rewrite Z.eqb_refl.
    rewrite (all_zero _ 128 He); [done|]. by rewrite length_cut, length_idwords. }
  assert (fmap_ f' (sv_i sv') = cut (stays bl) (fmap_ f i)) as Hmap.
  { unfold fmap_ at 1. rewrite Hids, Hst, Hi. done. }
  apply truncated_intro with B; try done.
  - apply outcome_vol.
  - by apply (outcome_wf 0).
  - apply Hd.
  - unfold file_blocks. rewrite Hmap, Hi. fsimpl. rewrite !nonzero_cons. replace (idb =? 0) with false by lia.
    by rewrite HB, (blocks_split f i bl) by apply Hw.
  - rewrite Hi. fsimpl. by destruct Hvn as (? & ? & _).
  - apply Hvn.
  - by rewrite Hi.
  - intros _ _. by rewrite Hi.
  - left. by rewrite Hi.
Qed.
End outcome.

(** The call of [truncate_indirect], after the direct blocks have gone. *)
Lemma truncate_indirect_call f p sv O bl sv1 f1 (idb := sfi_indirect (sv_i sv)) :
  file f p sv O → idb ≠ 0 →
  freed f (nonzero (cut (λ n, negb (below bl n)) (sfi_direct (sv_i sv)))) f1 →
  wps (truncate_indirect U p bl idb) (set_mem (<[p := sv1]> (sfs_mem f)) f1)
    (indirect_cut p bl (idwords f (sv_i sv)) idb sv1 (set_mem (<[p := sv1]> (sfs_mem f)) f1)).
Proof.
  intros Hf Hn0 Hfr. destruct (freed_frame _ _ _ Hfr) as (Hvol1 & Hd1 & Hs1 & Hm1).
  pose proof (indirect_nodup _ _ _ _ Hf Hn0) as Hnd. fold idb in Hnd.
  assert (∀ b, b = idb ∨ b ∈ idwords f (sv_i sv) → b ≠ 0 → 0 < b < nblocks f ∧ used f1 b = true) as Hok.
  { intros b Hb Hb0. destruct (fi_own _ _ _ _ Hf) as [_ HB]. destruct (HB b) as [Hr Hu].
    - apply elem_of_app. left. apply elem_of_nonzero. split; [done|]. unfold fmap_.
      rewrite elem_of_cons, elem_of_app. tauto.
    - split; [done|]. eapply freed_used; [exact Hfr|lia|done|].
      intros [_ Hin%elem_of_cut]%elem_of_nonzero; [|done]. apply NoDup_cons in Hnd as [Hni Hnd].
      apply NoDup_app in Hnd as (_ & Hd & _). assert (b ∈ nonzero (sfi_direct (sv_i sv))) as Hin' by (by apply elem_of_nonzero).
      destruct Hb as [->|Hb]; [apply Hni, elem_of_app; by left|].
      apply (Hd b Hin'). by apply elem_of_nonzero. }
  apply truncate_indirect_spec; fsimpl; rewrite ?Hd1, ?Hs1.
  - unfold idwords. by replace (sfi_indirect (sv_i sv) =? 0) with false by lia.
  - destruct Hvol1. by constructor.
  - by apply lookup_insert_eq.
  - by apply Hok; [left|].
  - by apply Hok; [left|].
  - rewrite NoDup_cons in Hnd |- *. destruct Hnd as [Hni Hnd]. apply NoDup_app in Hnd as (_ & _ & Hnd).
    split; [|done]. intros Hin. by apply Hni, elem_of_app; right.
  - pose proof (entries_u32 f p sv O Hf) as Hu. by apply Forall_app in Hu as [_ ?].
  - intros b Hb. apply Hok. by right.
Qed.

(** [sfs_truncate] always succeeds on a healthy volume. *)
Lemma truncate_spec f p sv O len (bl := (len + 511) / 512) :
  file f p sv O → 0 ≤ len ≤ 2 ^ 31 - 512 →
  wps (sfs_truncate U p len) f (λ r f', r = 0 ∧ ∃ sv', truncated p O bl len sv f sv' f').
Proof.
  intros Hf Hl. unfold sfs_truncate. rewrite blocklen_eq by done. fold bl.
  assert (is_u32 len) as H32 by in_range. rewrite u32_id by done.
  pose proof (fi_wf _ _ _ _ Hf) as Hw. wps_call truncate_direct_spec; [done|].
  intros [] f1' (f1 & sv1 & Hfr & -> & Hi1 & Hv1 & Hino1).
  destruct (seen_all (below bl) (sfi_direct (sv_i sv)) 15 (iw_direct _ Hw)) as [Hc Hcn].
  rewrite Hc in Hi1. rewrite Hcn in Hfr. destruct (freed_frame _ _ _ Hfr) as (Hvol1 & Hd1 & Hs1 & Hm1).
  rewrite wps_bind. eapply get_vn_ok; [by apply lookup_insert_eq|]. rewrite Hi1. fsimpl.
  destruct (fi_vol _ _ _ _ Hf) as [Hdk Hhe _ _ _ _ _].
  destruct ((bl <? SFS_NDIRECT + SFS_DBPERIDB - 1) && negb (sfi_indirect (sv_i sv) =? 0)) eqn:E.
  - unfold SFS_NDIRECT, SFS_DBPERIDB in E. assert (sfi_indirect (sv_i sv) ≠ 0) as Hn0 by lia.
    rewrite wps_bind. eapply wps_mono; [by eapply (truncate_indirect_call f p sv O)|].
    intros r f2 [-> (B & g1 & d & sv2 & Hg & -> & Hv2 & Hino2 & Hdk2 & Hhe2 & Hdb2 & Hsec2 & Hcase)].
    destruct (freed_mem _ _ _ _ Hg Hvol1) as (f3 & Hf3 & ->). fsimpl. rewrite insert_insert_eq. cbn [negb Z.eqb]. rewrite wps_bind.
    eapply touch_inode_ok; [by apply lookup_insert_eq|]. wps_step. split; [done|]. unfold renew. fsimpl.
    rewrite insert_insert_eq. eexists. pose proof (freed_trans _ _ _ _ _ Hfr Hf3) as Hall.
    rewrite Hd1 in Hdb2, Hsec2.
    assert (∀ b, 0 ≤ b → b = 0 ∨ b ≠ sfi_indirect (sv_i sv) → sector d b = sec f b) as Hsec3.
    { intros b Hb [->|Hne]; apply Hsec2; done. }
    destruct Hcase as [(Hi2 & He & ->)|(Hi2 & He & Hb2 & ->)].
    + eapply (outcome_drop f p sv O bl len _ f3 d); [done|done|exact Hall|done|done|fsimpl; split_and!; congruence| |done|done|].
      { fsimpl. by rewrite Hi2, Hi1. }
      apply perm_skip, Permutation_app_comm.
    + eapply (outcome_keep f p sv O bl len _ f3 d); [done|done|exact Hall|done|done|fsimpl; split_and!; congruence| |done|done|].
      { fsimpl. by rewrite Hi2, Hi1. }
      apply Permutation_app_comm.
  - wps_step. cbn [negb Z.eqb]. rewrite wps_bind. eapply touch_inode_ok; [by apply lookup_insert_eq|].
    wps_step. split; [done|]. unfold renew. fsimpl.
    rewrite insert_insert_eq. eexists. unfold SFS_NDIRECT, SFS_DBPERIDB in E.
    destruct (entries_all_stay f (sv_i sv) bl) as [Hst Hno]; [lia|].
    replace f1 with (set_device (sfs_device f) f1) by (rewrite <- Hd1; by destruct f1).
    eapply (outcome_keep f p sv O bl len _ f1); [done|done|exact Hfr|done|done|fsimpl; by split|fsimpl; by rewrite Hi1| | |].
    + intros Hn0. rewrite Hst. unfold idwords. by replace (sfi_indirect (sv_i sv) =? 0) with false by lia.
    + lia.
    + by rewrite Hno, app_nil_r.
Qed.
End tables.

(** ** What follows from [truncated] *)

Section after.
Context (p : Z) (O : list Z) (bl len : Z) (sv : sfs_vnode) (f : sfs_fs) (sv' : sfs_vnode) (f' : sfs_fs).
Hypothesis Hf : file f p sv O.
Hypothesis Ht : truncated p O bl len sv f sv' f'.

Lemma truncated_blk (n : nat) b :
  fmap_ f (sv_i sv) !! n = Some b → fmap_ f' (sv_i sv') !! n = Some b → blk f' b = blk f b.
Proof using Hf Ht.
  intros Hn Hn'. destruct Ht as [Hst _ Hmap Hd _ _ _].
  rewrite <- (fdata_block f' p sv' O n b); [|apply Hst|done]. rewrite Hd.
  apply (sub_join 512).
  - apply Forall_fmap, Forall_forall. intros c Hc. destruct (decide (c = 0)) as [->|Hc0]; [done|].
    eapply (length_blk f p sv O); [done|by eapply elem_of_cut].
  - rewrite list_lookup_fmap, <- Hmap, Hn'. done.
Qed.

Lemma truncated_gone (n : nat) b :
  fmap_ f (sv_i sv) !! n = Some b → b ≠ 0 → stays bl n = false → used f' b = false.
Proof using Hf Ht.
  intros Hn Hb Hs. destruct Ht as [Hst _ Hmap _ Hfree _ Hsame]. apply Hfree.
  { apply fmap_in_blocks; [done|by eapply list_elem_of_lookup_2]. }
  intros [_ [Hi|[m Hm]%list_elem_of_lookup]%elem_of_cons]%elem_of_nonzero.
  - destruct Hsame as [H0|Hsame]; [congruence|]. rewrite Hsame in Hi.
    by apply (fmap_not_indirect f p sv O b Hf); [eapply list_elem_of_lookup_2| |].
  - rewrite Hmap, cut_lookup in Hm. destruct (fmap_ f (sv_i sv) !! m) as [c|] eqn:Em; [|done]. simpl in Hm.
    destruct (stays bl m) eqn:Es; [|congruence]. simplify_eq.
    assert (n = m) as ->; [|congruence]. eapply (nonzero_unique (fmap_ f (sv_i sv))); [|done..].
    destruct (fi_own _ _ _ _ Hf) as [Hnd _]. apply NoDup_app in Hnd as [Hnd _].
    unfold file_blocks in Hnd. rewrite nonzero_cons in Hnd. destruct (_ =? 0); [done|by apply NoDup_cons in Hnd as [_ ?]].
Qed.

Lemma truncated_nil : bl = 0 → file_blocks f' (sv_i sv') = [].
Proof using Ht.
  intros ->. destruct Ht as [Hst _ Hmap _ _ Hid _].
  assert (Forall (λ b, b = 0) (fmap_ f' (sv_i sv'))) as Hz.
  { rewrite Hmap. apply Forall_lookup. intros n b. rewrite cut_lookup. destruct (_ !! n); [|done]. simpl.
    intros [= <-]. unfold stays. replace (Z.of_nat n <? 0) with false by lia.
    destruct (15 <=? n)%nat eqn:E; [|done]. apply Nat.leb_le in E. by replace (Z.of_nat n =? 0) with false by lia. }
  unfold file_blocks. rewrite nonzero_cons, Hid; [|by apply Forall_app in Hz as [_ ?]|lia]. simpl.
  apply filter_none. intros b Hb. rewrite Forall_forall in Hz. rewrite (Hz b Hb). intros Hx. by apply Hx.
Qed.
End after.
