(* ===== verification/Mksfs.v ===== *)
(** * Making a file system (sbin/mksfs)

    The program that puts an empty SFS on a disk, with the routines of disk.c that read and write
    blocks.  The calls of the operating system on the disk's file are modelled by what they are
    documented to do; which of them fail, and how much each [write] takes, is given by a list of
    answers, one for each call.  The program is the one built for OS/161 (HOST is not defined). *)

From S2P Require Import Prelude StateM KBitmap Uio SfsDisk Sfs.

(** ** System calls *)

(** A call fails with an error number, or [write] and [read] move at most so many bytes. *)
Inductive answer := Fails (errno : Z) | Moves (n : Z).

Record mksfs := Mk {
  mk_bytes : list Z;          (* the disk's file *)
  mk_pos : Z;                 (* the seek position of its descriptor *)
  mk_answers : list answer;   (* what the next calls do; they succeed when there is no answer *)
  mk_errno : Z;
  mk_fd : Z;                  (* static fd of disk.c *)
  mk_nblocks : Z;             (* static nblocks of disk.c *)
  mk_bitbuf : list Z;         (* static bitbuf of mksfs.c *)
}.

Abbreviation P := (prog mksfs).

Definition mk_set_bytes (x : list Z) (s : mksfs) : mksfs :=
  Mk x (mk_pos s) (mk_answers s) (mk_errno s) (mk_fd s) (mk_nblocks s) (mk_bitbuf s).
Definition mk_set_pos (x : Z) (s : mksfs) : mksfs :=
  Mk (mk_bytes s) x (mk_answers s) (mk_errno s) (mk_fd s) (mk_nblocks s) (mk_bitbuf s).
Definition mk_set_answers (x : list answer) (s : mksfs) : mksfs :=
  Mk (mk_bytes s) (mk_pos s) x (mk_errno s) (mk_fd s) (mk_nblocks s) (mk_bitbuf s).
Definition mk_set_errno (x : Z) (s : mksfs) : mksfs :=
  Mk (mk_bytes s) (mk_pos s) (mk_answers s) x (mk_fd s) (mk_nblocks s) (mk_bitbuf s).
Definition mk_set_fd (x : Z) (s : mksfs) : mksfs :=
  Mk (mk_bytes s) (mk_pos s) (mk_answers s) (mk_errno s) x (mk_nblocks s) (mk_bitbuf s).
Definition mk_set_nblocks (x : Z) (s : mksfs) : mksfs :=
  Mk (mk_bytes s) (mk_pos s) (mk_answers s) (mk_errno s) (mk_fd s) x (mk_bitbuf s).
Definition mk_set_bitbuf (x : list Z) (s : mksfs) : mksfs :=
  Mk (mk_bytes s) (mk_pos s) (mk_answers s) (mk_errno s) (mk_fd s) (mk_nblocks s) x.

Definition next : P (option answer) :=
  run (s ← gets mk_answers;
       match s with
       | [] => mret None
       | a :: rest => _ ← modify (mk_set_answers rest); mret (Some a)
       end).

(** A failing call answers -1 and sets [errno]. *)
Definition failed {A} (x : A) (e : Z) : P A := _ ← run (modify (mk_set_errno e)); mret x.

Definition sys_open : P Z := a ← next; match a with Some (Fails e) => failed (-1) e | _ => mret 3 end.
Definition sys_close : P Z := a ← next; match a with Some (Fails e) => failed (-1) e | _ => mret 0 end.

(** The code and [st_size]. *)
Definition sys_fstat : P (Z * Z) :=
  a ← next;
  match a with
  | Some (Fails e) => failed (-1, 0) e
  | _ => n ← run (gets (λ s, zlen (mk_bytes s))); mret (0, n)
  end.

Definition sys_lseek (pos : Z) : P Z :=
  a ← next;
  match a with
  | Some (Fails e) => failed (-1) e
  | _ => if pos <? 0 then failed (-1) EINVAL else _ ← run (modify (mk_set_pos pos)); mret pos
  end.

Definition amount (a : option answer) (n : Z) : Z := match a with Some (Moves m) => Z.min m n | _ => n end.

Definition sys_write (data : list Z) : P Z :=
  a ← next;
  match a with
  | Some (Fails e) => failed (-1) e
  | _ =>
      s ← run (gets (λ s, s));
      let n := amount a (zlen data) in
      if (n <? 0) || (mk_pos s + n >? zlen (mk_bytes s)) then failed (-1) EINVAL
      else
        _ ← run (modify (λ s, mk_set_pos (mk_pos s + n)
                   (mk_set_bytes (splice (mk_bytes s) (mk_pos s) (take (Z.to_nat n) data)) s)));
        mret n
  end.

(** The code and the bytes. *)
Definition sys_read (len : Z) : P (Z * list Z) :=
  a ← next;
  match a with
  | Some (Fails e) => failed (-1, []) e
  | _ =>
      s ← run (gets (λ s, s));
      let n := Z.max 0 (Z.min (amount a len) (zlen (mk_bytes s) - mk_pos s)) in
      _ ← run (modify (mk_set_pos (mk_pos s + n)));
      mret (n, sub (mk_bytes s) (mk_pos s) n)
  end.

(** ** disk.c *)

Definition BLOCKSIZE : Z := 512.
Definition EINTR : Z := 0.

Definition passert (b : bool) : P unit := run (asrt b).
Definition err {A} (code : Z) : P A := pexit code.
Definition errx {A} (code : Z) : P A := pexit code.

Definition opendisk : P unit :=
  fd ← run (gets mk_fd);
  _ ← passert (fd <? 0);
  fd ← sys_open;
  _ ← run (modify (mk_set_fd fd));
  if fd <? 0 then err 1
  else
    '(r, st_size) ← sys_fstat;
    if negb (r =? 0) then err 1
    else run (modify (mk_set_nblocks (u32 (st_size / BLOCKSIZE)))).

Definition diskblocksize : P Z := fd ← run (gets mk_fd); _ ← passert (0 <=? fd); mret BLOCKSIZE.
Definition diskblocks : P Z := fd ← run (gets mk_fd); _ ← passert (0 <=? fd); run (gets mk_nblocks).

(** Every turn of the loop uses an answer, until there are none and all of the rest is moved. *)
Definition retry : P bool := e ← run (gets mk_errno); mret ((e =? EINTR) || (e =? EAGAIN)).
Definition turns : P nat := n ← run (gets (λ s, length (mk_answers s))); mret (n + 2)%nat.

Definition diskwrite (data : list Z) (block : Z) : P unit :=
  fd ← run (gets mk_fd);
  _ ← passert (0 <=? fd);
  r ← sys_lseek (s32 (u32 (block * BLOCKSIZE)));
  if r <? 0 then err 1
  else
    fuel ← turns;
    pwhile (X := Z) (R := unit) fuel (λ tot,
      if tot <? BLOCKSIZE then
        len ← sys_write (sub data tot (BLOCKSIZE - tot));
        if len <? 0 then
          again ← retry;
          if (again : bool) then mret (inl tot) else err 1
        else if len =? 0 then err 1
        else mret (inl (u32 (tot + len)))
      else mret (inr tt)) 0.

Definition diskread (block : Z) : P (list Z) :=
  fd ← run (gets mk_fd);
  _ ← passert (0 <=? fd);
  r ← sys_lseek (s32 (u32 (block * BLOCKSIZE)));
  if r <? 0 then err 1
  else
    fuel ← turns;
    pwhile (X := Z * list Z) (R := list Z) fuel (λ '(tot, data),
      if tot <? BLOCKSIZE then
        '(len, got) ← sys_read (BLOCKSIZE - tot);
        if len <? 0 then
          again ← retry;
          if (again : bool) then mret (inl (tot, data)) else err 1
        else if len =? 0 then err 1
        else mret (inl (u32 (tot + len), data ++ got))
      else mret (inr data)) (0, []).

Definition closedisk : P unit :=
  fd ← run (gets mk_fd);
  _ ← passert (0 <=? fd);
  r ← sys_close;
  if negb (r =? 0) then err 1 else run (modify (mk_set_fd (-1))).

(** ** mksfs.c *)

Definition MAXBITBLOCKS : Z := 32.

Definition writesuper (volname : list Z) (nblocks : Z) : P unit :=
  if SFS_VOLNAME_SIZE <=? zlen volname then errx 1
  else
    let sp := Super SFS_MAGIC nblocks (volname ++ replicate (Z.to_nat (SFS_VOLNAME_SIZE - zlen volname)) 0) (replicate 118 0) in
    diskwrite (super_bytes sp) SFS_SB_LOCATION.

Definition writerootdir : P unit :=
  let sfi := Inode 0 SFS_TYPE_DIR 1 (replicate 15 0) 0 (replicate 110 0) in
  diskwrite (inode_bytes sfi) SFS_ROOT_LOCATION.

Definition doallocbit (bit : Z) : P unit :=
  let byte := bit / 8 in
  let mask := u8 (Z.shiftl 1 (bit mod 8)) in
  buf ← run (gets mk_bitbuf);
  w ← run (lift (buf.[byte]));
  _ ← passert (Z.land w mask =? 0);
  buf ← run (lift (or_byte buf byte mask));
  run (modify (mk_set_bitbuf buf)).

Definition writebitmap (fsblocks : Z) : P unit :=
  let nbits := SFS_BITMAPSIZE fsblocks in
  let nblocks := SFS_BITBLOCKS fsblocks in
  if nblocks >? MAXBITBLOCKS then errx 1
  else
    _ ← doallocbit SFS_SB_LOCATION;
    _ ← doallocbit SFS_ROOT_LOCATION;
    _ ← pfor (Z.to_nat nblocks) 0 (λ i, doallocbit (SFS_MAP_LOCATION + i));
    _ ← pfor (Z.to_nat (nbits - fsblocks)) fsblocks doallocbit;
    pfor (Z.to_nat nblocks) 0 (λ i,
      buf ← run (gets mk_bitbuf);
      ptr ← run (lift (slice buf (i * SFS_BLOCKSIZE) SFS_BLOCKSIZE));
      diskwrite ptr (SFS_MAP_LOCATION + i)).

(** The index of a character, as [strchr] finds it. *)
Definition COLON : Z := 58.
Definition SLASH : Z := 47.
Definition chr_index (s : list Z) (c : Z) : option nat := fst <$> list_find (λ x, x = c) s.

(** The volume name without one colon at its end. *)
Definition getvolname (volname : list Z) : P (list Z) :=
  volname ← match chr_index volname COLON with
            | Some n => if negb (zlen (drop n volname) =? 1) then errx 1 else mret (take n volname)
            | None => mret volname
            end;
  match chr_index volname SLASH with
  | Some _ => errx 1
  | None => mret volname
  end.

(** [check] is decided by the compiler and holds. *)
Definition main (argv : list (list Z)) : P Z :=
  match argv with
  | [_; _; volname] =>
      volname ← getvolname volname;
      _ ← opendisk;
      blocksize ← diskblocksize;
      if negb (blocksize =? SFS_BLOCKSIZE) then errx 1
      else
        size ← diskblocks;
        _ ← writesuper volname size;
        _ ← writerootdir;
        _ ← writebitmap size;
        _ ← closedisk;
        mret 0
  | _ => errx 1
  end.
