(* ===== verification/SfsVolume.v ===== *)
(** * Vnode operations of SFS (kern/fs/sfs/sfs_vnode.c, kern/include/vnode.h)

    The operations of the two function tables that work on one loaded vnode, and the tables:
    [VOP_READ] and the others look the operation up in the table of the vnode.  A vnode with no
    table is what [vnode_check] panics on. *)

From S2P Require Import Prelude StateM Heap KArray KBitmap Uio SfsDisk Sfs.

(** ** kern/stat.h and kern/unistd.h *)

Definition S_IFREG : Z := 4096.
Definition S_IFDIR : Z := 8192.

Record stat := Stat { st_mode : Z; st_nlink : Z; st_size : Z; st_blocks : Z }.
Definition stat0 : stat := Stat 0 0 0 0.

Definition O_RDONLY : Z := 0.
Definition O_APPEND : Z := 32.
Definition O_ACCMODE : Z := 3.

Section vnode.
Variable U : usermem.

Definition sfs_open (p openflags : Z) : F Z :=
  mret (if negb (Z.land openflags O_APPEND =? 0) then EUNIMP else 0).

Definition sfs_opendir (p openflags : Z) : F Z :=
  mret (if negb (Z.land openflags O_ACCMODE =? O_RDONLY) then EISDIR
        else if negb (Z.land openflags O_APPEND =? 0) then EISDIR else 0).

Definition sfs_read (p : Z) (u : uio) : F (Z * uio) :=
  _ ← asrt (negb (is_write u)); sfs_io U p u.
Definition sfs_write (p : Z) (u : uio) : F (Z * uio) :=
  _ ← asrt (is_write u); sfs_io U p u.
Definition sfs_ioctl (p op data : Z) : F Z := mret EINVAL.

(** The code and the type. *)
Definition sfs_gettype (p : Z) : F (Z * Z) :=
  sv ← get_vn p;
  let ty := sfi_type (sv_i sv) in
  if ty =? SFS_TYPE_FILE then mret (0, S_IFREG)
  else if ty =? SFS_TYPE_DIR then mret (0, S_IFDIR)
  else fault_ FPanic.

Definition sfs_tryseek (p pos : Z) : F Z := mret (if pos <? 0 then EINVAL else 0).
Definition sfs_fsync (p : Z) : F Z := sfs_sync_inode U p.
Definition sfs_mmap (p : Z) : F Z := mret EUNIMP.
Definition sfs_namefile (p : Z) (u : uio) : F (Z * uio) :=
  sv ← get_vn p;
  _ ← asrt (sv_ino sv =? SFS_ROOT_LOCATION);
  mret (0, u).

Definition sfs_notdir : F Z := mret ENOTDIR.
Definition sfs_isdir : F Z := mret EISDIR.
Definition sfs_unimp : F Z := mret EUNIMP.

(** ** The tables *)

(** [vnode_check] and the choice of the table. *)
Definition vop {A} (p : Z) (onfile ondir : F A) : F A :=
  sv ← get_vn p;
  match vn_ops (sv_v sv) with
  | Some FileOps => onfile
  | Some DirOps => ondir
  | None => fault_ FPanic
  end.

(** An entry that only answers a code leaves the arguments as they are. *)
Definition keeps {A} (m : F Z) (a : A) : F (Z * A) := r ← m; mret (r, a).

Definition VOP_OPEN p flags := vop p (sfs_open p flags) (sfs_opendir p flags).
Definition VOP_READ p u := vop p (sfs_read p u) (keeps sfs_isdir u).
Definition VOP_READLINK p (u : uio) := vop p (keeps sfs_notdir u) (keeps sfs_isdir u).
Definition VOP_GETDIRENTRY p (u : uio) := vop p (keeps sfs_notdir u) (keeps sfs_unimp u).
Definition VOP_WRITE p u := vop p (sfs_write p u) (keeps sfs_isdir u).
Definition VOP_IOCTL p op data := vop p (sfs_ioctl p op data) (sfs_ioctl p op data).
Definition VOP_GETTYPE p := vop p (sfs_gettype p) (sfs_gettype p).
Definition VOP_TRYSEEK p pos := vop p (sfs_tryseek p pos) sfs_unimp.
Definition VOP_FSYNC p := vop p (sfs_fsync p) (sfs_fsync p).
Definition VOP_MMAP p := vop p (sfs_mmap p) sfs_isdir.
Definition VOP_TRUNCATE p len := vop p (sfs_truncate U p len) sfs_isdir.
Definition VOP_NAMEFILE p u := vop p (keeps sfs_notdir u) (sfs_namefile p u).

(** [sfs_stat] asks the table for the type, and the inode for the size. *)
Definition sfs_stat (p : Z) : F (Z * stat) :=
  '(result, mode) ← VOP_GETTYPE p;
  if negb (result =? 0) then mret (result, stat0)
  else
    sv ← get_vn p;
    mret (0, Stat mode 0 (s32 (sfi_size (sv_i sv))) 0).
Definition VOP_STAT p := vop p (sfs_stat p) (sfs_stat p).

Definition sfs_close (p : Z) : F Z := VOP_FSYNC p.
Definition VOP_CLOSE p := vop p (sfs_close p) (sfs_close p).
End vnode.

(** * Volumes with several files

    [volume f vs O] is the invariant of a mounted volume whose loaded vnodes are [vs]: the inodes
    are well-formed, the blocks of the files, the inode blocks and the blocks [O] of everything
    else are all different and marked in use, and directories hold each name once.  Every
    operation keeps it and touches no file but its own. *)

From S2P Require Import Prelude StateM Heap KArray KBitmap Uio SfsDisk Sfs SfsBytes SfsSpec SfsIo SfsDirs SfsTrunc.

Definition vblocks (f : sfs_fs) (vs : list (Z * sfs_vnode)) : list Z :=
  mjoin ((λ x, file_blocks f (sv_i x.2)) <$> vs).
Definition inos (vs : list (Z * sfs_vnode)) : list Z := (λ x, sv_ino x.2) <$> vs.

(** What the function table of a vnode says about its inode. *)
Definition node_ok (f : sfs_fs) (sv : sfs_vnode) : Prop :=
  match vn_ops (sv_v sv) with
  | Some FileOps => sfi_type (sv_i sv) = SFS_TYPE_FILE ∧ sfi_size (sv_i sv) < 2 ^ 31
  | Some DirOps => sfi_type (sv_i sv) = SFS_TYPE_DIR ∧ sfi_size (sv_i sv) mod 64 = 0 ∧
      sfi_size (sv_i sv) ≤ 512 * 143 ∧ names_once (dirents f (sv_i sv))
  | None => False
  end.

Record volume (f : sfs_fs) (vs : list (Z * sfs_vnode)) (O : list Z) : Prop := Vol {
  vl_vol : vol_ok f;
  vl_keys : NoDup vs.*1;
  vl_mem : ∀ p sv, (p, sv) ∈ vs → sfs_mem f !! p = Some sv ∧ inode_wf (sv_i sv) ∧ node_ok f sv;
  vl_own : bowned f (vblocks f vs ++ inos vs ++ O);
}.

Lemma vblocks_app f vs vs' : vblocks f (vs ++ vs') = vblocks f vs ++ vblocks f vs'.
Proof. unfold vblocks. by rewrite fmap_app, join_app. Qed.
Lemma vblocks_cons f p sv vs : vblocks f ((p, sv) :: vs) = file_blocks f (sv_i sv) ++ vblocks f vs.
Proof. done. Qed.

Lemma elem_of_vblocks f vs b : b ∈ vblocks f vs ↔ ∃ p sv, (p, sv) ∈ vs ∧ b ∈ file_blocks f (sv_i sv).
Proof.
  unfold vblocks. rewrite list_elem_of_join. split.
  - intros (l & Hb & ([p sv] & -> & Hin)%list_elem_of_fmap). by exists p, sv.
  - intros (p & sv & Hin & Hb). exists (file_blocks f (sv_i sv)). split; [done|].
    apply list_elem_of_fmap. by exists (p, sv).
Qed.

(** One file of the volume, and the blocks of all the others. *)
Definition around f vs1 (sv : sfs_vnode) vs2 O : list Z :=
  vblocks f (vs1 ++ vs2) ++ sv_ino sv :: inos (vs1 ++ vs2) ++ O.

Lemma volume_perm f vs1 p sv vs2 O :
  vblocks f (vs1 ++ (p, sv) :: vs2) ++ inos (vs1 ++ (p, sv) :: vs2) ++ O ≡ₚ
  file_blocks f (sv_i sv) ++ around f vs1 sv vs2 O.
Proof.
  unfold around, inos. rewrite !vblocks_app, vblocks_cons, !fmap_app. simpl. rewrite <- !app_assoc.
  rewrite (Permutation_app_swap_app (vblocks f vs1)). apply Permutation_app_head, Permutation_app_head, Permutation_app_head.
  simpl. symmetry. apply Permutation_middle.
Qed.

Lemma volume_focus f vs1 p sv vs2 O :
  volume f (vs1 ++ (p, sv) :: vs2) O → file f p sv (around f vs1 sv vs2 O) ∧ node_ok f sv.
Proof.
  intros [Hv _ Hm Ho]. destruct (Hm p sv) as (Hl & Hw & Hn); [apply elem_of_app; right; constructor|].
  split; [|done]. constructor; [done|done|done|]. by rewrite volume_perm in Ho.
Qed.

(** The other files look the same when their blocks do. *)
Definition unmoved f f' (sv : sfs_vnode) : Prop :=
  fmap_ f' (sv_i sv) = fmap_ f (sv_i sv) ∧ file_blocks f' (sv_i sv) = file_blocks f (sv_i sv) ∧
  fdata f' (sv_i sv) = fdata f (sv_i sv).

Lemma node_unmoved f f' sv : unmoved f f' sv → node_ok f sv → node_ok f' sv.
Proof. intros (_ & _ & Hd). unfold node_ok, dirents. by rewrite Hd. Qed.

Lemma vblocks_unmoved f f' vs :
  (∀ p sv, (p, sv) ∈ vs → unmoved f f' sv) → vblocks f' vs = vblocks f vs.
Proof.
  intros Hu. unfold vblocks. f_equal. apply list_fmap_ext. intros n [p sv] Hn.
  by destruct (Hu p sv (list_elem_of_lookup_2 _ _ _ Hn)) as (_ & Hb & _).
Qed.

Lemma elem_of_others {A} (x y : A) l1 l2 : x ∈ l1 ++ l2 → x ∈ l1 ++ y :: l2.
Proof. rewrite !elem_of_app, elem_of_cons. tauto. Qed.

Lemma elem_of_this {A} (x y : A) l1 l2 : x ∈ l1 ++ y :: l2 → x = y ∨ x ∈ l1 ++ l2.
Proof. rewrite !elem_of_app, elem_of_cons. tauto. Qed.

Lemma key_other (vs1 vs2 : list (Z * sfs_vnode)) p q svq :
  NoDup (vs1.*1 ++ p :: vs2.*1) → (q, svq) ∈ vs1 ++ vs2 → p ≠ q.
Proof.
  intros Hk Hq ->. rewrite <- Permutation_middle, <- fmap_app in Hk. apply NoDup_cons in Hk as [Hk _].
  apply Hk, list_elem_of_fmap. by exists (q, svq).
Qed.

Lemma volume_step f vs1 p sv vs2 O sv' f' :
  volume f (vs1 ++ (p, sv) :: vs2) O → fstep p (around f vs1 sv vs2 O) sv f sv' f' → node_ok f' sv' →
  volume f' (vs1 ++ (p, sv') :: vs2) O ∧ ∀ q svq, (q, svq) ∈ vs1 ++ vs2 → unmoved f f' svq.
Proof.
  intros Hvol Hst Hn. assert (∀ q svq, (q, svq) ∈ vs1 ++ vs2 → unmoved f f' svq) as Hu.
  { intros q svq Hq. apply file_ext. intros b Hb. apply Hst. apply elem_of_app. left.
    apply elem_of_vblocks. by exists q, svq. }
  split; [|done]. destruct Hst as [Hf _ Hmem Hsame (_ & Hino & _)]. destruct Hvol as [_ Hk Hm _].
  rewrite fmap_app in Hk. simpl in Hk.
  constructor.
  - apply Hf.
  - rewrite fmap_app. done.
  - intros q svq Hq. rewrite Hmem. destruct (elem_of_this _ _ _ _ Hq) as [[= -> ->]|Hq'].
    + rewrite lookup_insert_eq. split; [done|]. split; [apply Hf|done].
    + rewrite lookup_insert_ne by (by eapply key_other). destruct (Hm q svq) as (? & ? & ?); [by apply elem_of_others|].
      split; [done|]. split; [done|]. eapply node_unmoved; [by eapply Hu|done].
  - rewrite volume_perm. unfold around. rewrite (vblocks_unmoved f f') by done. rewrite Hino. apply Hf.
Qed.

(** ** Operations *)

Section ops.
Variable U : usermem.

Inductive fop :=
  | FRead (p : Z) (u : uio)
  | FWrite (p : Z) (u : uio)
  | FTruncate (p len : Z)
  | FSync (p : Z)
  | FStat (p : Z)
  | FFind (p : Z) (name : list Z)
  | FLink (p : Z) (name : list Z) (ino : Z)
  | FRemove (p : Z) (name : list Z).

Definition fop_file (op : fop) : Z :=
  match op with
  | FRead p _ | FWrite p _ | FTruncate p _ | FSync p | FStat p | FFind p _ | FLink p _ _ | FRemove p _ => p
  end.

(** Finding a name and clearing its slot, as [sfs_remove] does. *)
Definition dir_remove (p : Z) (name : list Z) : F Z :=
  '(result, found, _) ← sfs_dir_findname U p name;
  match found with
  | Some (_, slot) => sfs_dir_unlink U p slot
  | None => mret result
  end.

(** The code each operation answers. *)
Definition run_fop (op : fop) : F Z :=
  match op with
  | FRead p u => '(r, _) ← VOP_READ U p u; mret r
  | FWrite p u => '(r, _) ← VOP_WRITE U p u; mret r
  | FTruncate p len => VOP_TRUNCATE U p len
  | FSync p => VOP_FSYNC U p
  | FStat p => '(r, _) ← VOP_STAT p; mret r
  | FFind p name => vop p sfs_notdir ('(r, _, _) ← sfs_dir_findname U p name; mret r)
  | FLink p name ino => vop p sfs_notdir ('(r, _) ← sfs_dir_link U p name ino; mret r)
  | FRemove p name => vop p sfs_notdir (dir_remove p name)
  end.

Fixpoint run_fops (ops : list fop) : F (list Z) :=
  match ops with
  | [] => mret []
  | op :: ops => r ← run_fop op; rs ← run_fops ops; mret (r :: rs)
  end.

(** The arguments the layers above pass. *)
Definition fop_ok (op : fop) : Prop :=
  match op with
  | FRead _ u => uio_ok U u ∧ uio_rw u = UIO_READ
  | FWrite _ u => uio_ok U u ∧ uio_rw u = UIO_WRITE
  | FTruncate _ len => 0 ≤ len ≤ 2 ^ 31 - 512
  | FLink _ name ino => is_u32 ino ∧ ino ≠ 0 ∧ ∀ c, c ∈ name → c ≠ 0
  | FSync _ | FStat _ | FFind _ _ | FRemove _ _ => True
  end.

(** What an operation on [p] leaves: the invariant, with at most the vnode of [p] changed. *)
Definition kept vs1 p vs2 O f f' : Prop :=
  ∃ sv', volume f' (vs1 ++ (p, sv') :: vs2) O ∧
    (∀ q svq, (q, svq) ∈ vs1 ++ vs2 → unmoved f f' svq) ∧ ∀ b, b ∈ O → sec f' b = sec f b.

Lemma kept_refl f vs1 p sv vs2 O : volume f (vs1 ++ (p, sv) :: vs2) O → kept vs1 p vs2 O f f.
Proof. intros Hv. exists sv. by split_and!. Qed.

Lemma kept_step f vs1 p sv vs2 O sv' f' :
  volume f (vs1 ++ (p, sv) :: vs2) O → fstep p (around f vs1 sv vs2 O) sv f sv' f' → node_ok f' sv' →
  kept vs1 p vs2 O f f'.
Proof.
  intros Hv Hst Hn. destruct (volume_step _ _ _ _ _ _ _ _ Hv Hst Hn) as [Hv' Hu]. exists sv'.
  split_and!; [done|done|]. intros b Hb. apply Hst. unfold around. rewrite elem_of_app, elem_of_cons, elem_of_app. tauto.
Qed.

Lemma vop_spec {A} f p sv (m1 m2 : F A) Φ :
  sfs_mem f !! p = Some sv → node_ok f sv →
  (vn_ops (sv_v sv) = Some FileOps → wps m1 f Φ) → (vn_ops (sv_v sv) = Some DirOps → wps m2 f Φ) →
  wps (vop p m1 m2) f Φ.
Proof.
  intros Hm Hn H1 H2. unfold vop. rewrite wps_bind. eapply get_vn_ok; [done|]. unfold node_ok in Hn.
  destruct (vn_ops (sv_v sv)) as [[]|]; [by apply H1|by apply H2|done].
Qed.

Lemma node_file f sv f' sv' p O :
  vn_ops (sv_v sv) = Some FileOps → node_ok f sv → fstep p O sv f sv' f' → sfi_size (sv_i sv') < 2 ^ 31 →
  node_ok f' sv'.
Proof.
  intros Ho Hn [_ _ _ _ (Hv & _ & Ht & _)] Hs. unfold node_ok in *. rewrite Hv, Ho, Ht. rewrite Ho in Hn. tauto.
Qed.

Lemma node_dir f sv p O : vn_ops (sv_v sv) = Some DirOps → file f p sv O → node_ok f sv ↔ dir_ok f p sv O.
Proof.
  intros Ho Hf. unfold node_ok. rewrite Ho. split; [intros (? & ? & ? & ?); by constructor|].
  intros [_ ? ? ? ?]. by split_and!.
Qed.

Lemma node_dir_step f sv f' sv' p O :
  vn_ops (sv_v sv) = Some DirOps → dir_step p O sv f sv' f' → node_ok f' sv'.
Proof.
  intros Ho [Hst Hd]. apply (node_dir f' sv' p O); [|apply Hst|done]. by rewrite (proj1 (fs_meta _ _ _ _ _ _ Hst)).
Qed.

(** The vnode of [p] gets new fields, and the files stay. *)
Lemma volume_rewrite f vs1 p sv vs2 O sv' f' :
  volume f (vs1 ++ (p, sv) :: vs2) O → vol_ok f' → sfs_mem f' = <[p := sv']> (sfs_mem f) →
  sfs_super_ f' = sfs_super_ f → sfs_freemap f' = sfs_freemap f →
  sv_i sv' = sv_i sv → sv_v sv' = sv_v sv → sv_ino sv' = sv_ino sv →
  (∀ q svq, (q, svq) ∈ vs1 ++ (p, sv) :: vs2 → unmoved f f' svq) →
  volume f' (vs1 ++ (p, sv') :: vs2) O.
Proof.
  intros Hv Hvol Hmem Hsup Hmap Hi Hvv Hino Hun.
  assert (unmoved f f' sv) as Hup by (apply (Hun p); apply elem_of_app; right; constructor).
  destruct (volume_focus _ _ _ _ _ _ Hv) as [Hf Hn].
  assert (∀ q svq, (q, svq) ∈ vs1 ++ vs2 → unmoved f f' svq) as Hoth.
  { intros q svq Hq. by apply (Hun q), elem_of_others. }
  pose proof (vl_keys _ _ _ Hv) as Hk. rewrite fmap_app in Hk. simpl in Hk. constructor; [done|by rewrite fmap_app| |].
  - intros q svq Hq. rewrite Hmem. destruct (elem_of_this _ _ _ _ Hq) as [[= -> ->]|Hq'].
    + rewrite lookup_insert_eq. split; [done|]. rewrite Hi. split; [apply Hf|].
      apply (node_unmoved f f') in Hn; [|done]. unfold node_ok in *. by rewrite Hi, Hvv.
    + rewrite lookup_insert_ne by (by eapply key_other). destruct (vl_mem _ _ _ Hv q svq) as (? & ? & ?); [by apply elem_of_others|].
      split; [done|]. split; [done|]. eapply node_unmoved; [by eapply Hun, elem_of_others|done].
  - rewrite volume_perm. unfold around. rewrite (vblocks_unmoved f f') by done. rewrite Hino, Hi.
    destruct Hup as (_ & -> & _). destruct (fi_own _ _ _ _ Hf) as [Hnd HB]. split; [done|].
    intros b Hb. rewrite Hsup, Hmap. by apply HB.
Qed.

(** *** Each operation *)

Lemma sync_spec f vs1 p sv vs2 O :
  volume f (vs1 ++ (p, sv) :: vs2) O →
  wps (sfs_sync_inode U p) f (λ r f', r = 0 ∧ kept vs1 p vs2 O f f' ∧
    ∃ sv', sfs_mem f' !! p = Some sv' ∧ sv_i sv' = sv_i sv ∧ sv_dirty sv' = 0 ∧
      (sv_dirty sv ≠ 0 → inode_of (sec f' (sv_ino sv)) = sv_i sv)).
Proof.
  intros Hv. destruct (volume_focus _ _ _ _ _ _ Hv) as [Hf Hn]. unfold sfs_sync_inode. rewrite wps_bind.
  eapply get_vn_ok; [apply Hf|]. destruct (sv_dirty sv =? 0) eqn:E; simpl negb; cbv iota.
  { wps_step. split; [done|]. split; [by eapply kept_refl|]. exists sv. split; [apply Hf|]. split; [done|]. lia. }
  pose proof (fi_own _ _ _ _ Hf) as [Hnd HB]. pose proof (fi_vol _ _ _ _ Hf) as Hvol.
  assert (sv_ino sv ∈ around f vs1 sv vs2 O) as Hin by (unfold around; rewrite elem_of_app, elem_of_cons; tauto).
  destruct (HB (sv_ino sv)) as [Hr Hu]; [apply elem_of_app; by right|].
  assert (length (inode_bytes (sv_i sv)) = 512%nat) as Hl by apply length_inode_bytes, Hf.
  rewrite wps_bind. apply wblock_ok; [done|lia|done|]. cbn [negb Z.eqb]. unfold put_vn. wps_step. split; [done|].
  set (f' := set_mem _ _). set (sv' := sv_set_dirty 0 sv).
  assert (∀ b, 0 ≤ b → b ≠ sv_ino sv → sec f' b = sec f b) as Hsec.
  { intros b Hb Hne. transitivity (sec (put_sec (sv_ino sv) (inode_bytes (sv_i sv)) f) b); [done|].
    rewrite sec_put by (done || lia). by rewrite decide_False. }
  assert (sec f' (sv_ino sv) = inode_bytes (sv_i sv)) as Hino.
  { transitivity (sec (put_sec (sv_ino sv) (inode_bytes (sv_i sv)) f) (sv_ino sv)); [done|].
    rewrite sec_put by (done || lia). by rewrite decide_True. }
  split; [|exists sv'; split; [by apply lookup_insert_eq|]; split_and!; try done; intros _; rewrite Hino; apply inode_roundtrip, Hf].
  assert (∀ q svq, (q, svq) ∈ vs1 ++ (p, sv) :: vs2 → unmoved f f' svq) as Hun.
  { intros q svq Hq. apply file_ext. intros b Hb.
    assert (b ∈ vblocks f (vs1 ++ (p, sv) :: vs2)) as Hb' by (apply elem_of_vblocks; by exists q, svq).
    destruct (vl_own _ _ _ Hv) as [Hnd' HB']. apply Hsec; [destruct (HB' b); [apply elem_of_app; by left|lia]|].
    intros ->. apply NoDup_app in Hnd' as (_ & Hd & _). apply (Hd _ Hb'). apply elem_of_app. left.
    apply list_elem_of_fmap. exists (p, sv). split; [done|]. apply elem_of_app. right. constructor. }
  exists sv'. split_and!.
  - apply (volume_rewrite f vs1 p sv vs2 O); try done. destruct (put_sec_vol f (sv_ino sv) _ Hvol Hl). by constructor.
  - intros q svq Hq. by apply (Hun q), elem_of_others.
  - intros b Hb. assert (b ∈ file_blocks f (sv_i sv) ++ around f vs1 sv vs2 O) as Hb'.
    { unfold around. rewrite !elem_of_app, elem_of_cons, elem_of_app. tauto. }
    apply Hsec; [destruct (HB b Hb'); lia|]. intros ->. apply NoDup_app in Hnd as (_ & _ & Hnd).
    unfold around in Hnd. apply NoDup_app in Hnd as (_ & _ & [Hx _]%NoDup_cons). apply Hx, elem_of_app. by right.
Qed.

Section one.
Context (f : sfs_fs) (vs1 : list (Z * sfs_vnode)) (p : Z) (sv : sfs_vnode) (vs2 : list (Z * sfs_vnode)) (O : list Z).
Hypothesis Hv : volume f (vs1 ++ (p, sv) :: vs2) O.
Abbreviation A := (around f vs1 sv vs2 O).
Abbreviation keep := (kept vs1 p vs2 O f).

Lemma focus : file f p sv A ∧ node_ok f sv ∧ sfs_mem f !! p = Some sv ∧ keep f.
Proof using Hv.
  destruct (volume_focus _ _ _ _ _ _ Hv) as [Hf Hn]. split; [done|]. split; [done|]. split; [apply Hf|].
  by eapply kept_refl.
Qed.

Lemma read_keeps u :
  uio_ok U u → uio_rw u = UIO_READ → wps (VOP_READ U p u) f (λ _ f', keep f').
Proof using Hv.
  intros Hu Hrw. destruct focus as (Hf & Hn & Hm & Hk). apply (vop_spec f p sv); [done|done| |].
  - intros Ho. unfold sfs_read. rewrite wps_bind, wps_asrt, is_write_read by done. split; [done|].
    unfold node_ok in Hn. rewrite Ho in Hn. destruct Hn as [_ Hsz].
    eapply wps_mono; [by apply (sfs_read_spec U f p sv A)|]. by intros [r u'] f' (-> & _).
  - intros _. unfold keeps, sfs_isdir. by wps_step.
Qed.

Lemma write_keeps u :
  uio_ok U u → uio_rw u = UIO_WRITE → wps (VOP_WRITE U p u) f (λ _ f', keep f').
Proof using Hv.
  intros Hu Hrw. destruct focus as (Hf & Hn & Hm & Hk). apply (vop_spec f p sv); [done|done| |].
  - intros Ho. unfold sfs_write. rewrite wps_bind, wps_asrt, is_write_write by done. split; [done|].
    pose proof Hn as Hn'. unfold node_ok in Hn'. rewrite Ho in Hn'. destruct Hn' as [_ Hsz].
    eapply wps_mono; [by apply (sfs_write_spec U f p sv A)|].
    intros [r u'] f' (sv' & Hst & _ & Hs & k & Hk' & _ & -> & _). eapply kept_step; [done|done|].
    eapply node_file; [done|done|done|]. pose proof (uo_off _ _ Hu). simpl in Hs. lia.
  - intros _. unfold keeps, sfs_isdir. by wps_step.
Qed.

Lemma truncate_keeps len : 0 ≤ len ≤ 2 ^ 31 - 512 → wps (VOP_TRUNCATE U p len) f (λ _ f', keep f').
Proof using Hv.
  intros Hl. destruct focus as (Hf & Hn & Hm & Hk). apply (vop_spec f p sv); [done|done| |].
  - intros Ho. eapply wps_mono; [by apply (truncate_spec U f p sv A)|]. intros r f' (_ & sv' & Ht).
    destruct Ht as [Hst Hs _ _ _ _ _]. eapply kept_step; [done|done|]. eapply node_file; [done|done|done|lia].
  - intros _. unfold sfs_isdir. by wps_step.
Qed.

Lemma fsync_keeps : wps (VOP_FSYNC U p) f (λ _ f', keep f').
Proof using Hv.
  destruct focus as (Hf & Hn & Hm & Hk). apply (vop_spec f p sv); [done|done| |]; intros _; unfold sfs_fsync;
    (eapply wps_mono; [by apply (sync_spec f vs1 p sv vs2 O)|]); by intros r f' (_ & ? & _).
Qed.

Lemma gettype_keeps Φ : (∀ x, Φ (0, x) f) → wps (VOP_GETTYPE p) f Φ.
Proof using Hv.
  intros HΦ. destruct focus as (Hf & Hn & Hm & Hk). apply (vop_spec f p sv); [done|done| |]; intros Ho;
    unfold node_ok in Hn; rewrite Ho in Hn; destruct Hn as [Ht _]; unfold sfs_gettype; rewrite wps_bind;
    (eapply get_vn_ok; [done|]); rewrite Ht; simpl; wps_step; apply HΦ.
Qed.

Lemma stat_keeps : wps (VOP_STAT p) f (λ _ f', keep f').
Proof using Hv.
  destruct focus as (Hf & Hn & Hm & Hk).
  assert (wps (sfs_stat p) f (λ _ f', keep f')) as Hs.
  { unfold sfs_stat. rewrite wps_bind. apply gettype_keeps. intros x. cbn [negb Z.eqb]. rewrite wps_bind.
    eapply get_vn_ok; [done|]. by wps_step. }
  by apply (vop_spec f p sv).
Qed.

Lemma find_keeps name : wps (run_fop (FFind p name)) f (λ _ f', keep f').
Proof using Hv.
  destruct focus as (Hf & Hn & Hm & Hk). apply (vop_spec f p sv); [done|done|intros _; unfold sfs_notdir; by wps_step|].
  intros Ho. apply (node_dir f sv p A Ho Hf) in Hn. wps_call findname_spec; [done|].
  intros [[r found] empty] f' (-> & _). by wps_step.
Qed.

Lemma link_keeps name ino :
  is_u32 ino → ino ≠ 0 → (∀ c, c ∈ name → c ≠ 0) → wps (run_fop (FLink p name ino)) f (λ _ f', keep f').
Proof using Hv.
  intros H1 H2 H3. destruct focus as (Hf & Hn & Hm & Hk).
  apply (vop_spec f p sv); [done|done|intros _; unfold sfs_notdir; by wps_step|].
  intros Ho. apply (node_dir f sv p A Ho Hf) in Hn. wps_call dir_link_spec; [done|done|done|done|].
  intros [r slot] f' (sv' & Hst & _). wps_step. eapply kept_step; [done|apply Hst|]. by eapply node_dir_step.
Qed.

Lemma remove_keeps name : wps (run_fop (FRemove p name)) f (λ _ f', keep f').
Proof using Hv.
  destruct focus as (Hf & Hn & Hm & Hk). apply (vop_spec f p sv); [done|done|intros _; unfold sfs_notdir; by wps_step|].
  intros Ho. apply (node_dir f sv p A Ho Hf) in Hn. unfold dir_remove. wps_call findname_spec; [done|].
  intros [[r [[ino slot]|]] empty] f' (-> & _ & Hfound); [|by wps_step].
  destruct Hfound as (-> & Hs & d & Hd & Hl & _). eapply wps_mono; [by eapply dir_unlink_spec|].
  intros r f' (_ & sv' & Hst & _). eapply kept_step; [done|apply Hst|]. by eapply node_dir_step.
Qed.
End one.

Lemma fop_keeps f vs1 sv vs2 O op :
  volume f (vs1 ++ (fop_file op, sv) :: vs2) O → fop_ok op →
  wps (run_fop op) f (λ _ f', kept vs1 (fop_file op) vs2 O f f').
Proof.
  intros Hv Hok. destruct op as [p u|p u|p len|p|p|p name|p name ino|p name]; simpl in *.
  - wps_call read_keeps; [done|apply Hok..|]. intros [r u'] f' Hk. by wps_step.
  - wps_call write_keeps; [done|apply Hok..|]. intros [r u'] f' Hk. by wps_step.
  - by eapply truncate_keeps.
  - by eapply fsync_keeps.
  - wps_call stat_keeps; [done|]. intros [r st] f' Hk. by wps_step.
  - by eapply find_keeps.
  - destruct Hok as (? & ? & ?). by eapply link_keeps.
  - by eapply remove_keeps.
Qed.

(** Files no operation names stay. *)
Definition untouched (ps : list Z) (vs : list (Z * sfs_vnode)) f (vs' : list (Z * sfs_vnode)) f' : Prop :=
  ∀ q svq, (q, svq) ∈ vs → q ∉ ps → (q, svq) ∈ vs' ∧ unmoved f f' svq.

Lemma run_fops_spec f vs O ops :
  volume f vs O → Forall fop_ok ops → (∀ op, op ∈ ops → fop_file op ∈ vs.*1) →
  wps (run_fops ops) f (λ rs f', length rs = length ops ∧ ∃ vs', volume f' vs' O ∧ vs'.*1 = vs.*1 ∧
    untouched (fop_file <$> ops) vs f vs' f' ∧ ∀ b, b ∈ O → sec f' b = sec f b).
Proof.
  revert f vs. induction ops as [|op ops IH]; intros f vs Hv Hok Hkeys; simpl.
  - wps_step. split; [done|]. exists vs. split_and!; try done.
  - apply Forall_cons in Hok as [Ho Hok].
    assert (fop_file op ∈ vs.*1) as ([p sv] & Hp & Hin)%list_elem_of_fmap by (apply Hkeys; constructor).
    simpl in Hp. apply list_elem_of_split in Hin as (vs1 & vs2 & ->). rewrite <- Hp in Hv.
    rewrite wps_bind. eapply wps_mono; [by eapply fop_keeps|]. intros r f1 (sv1 & Hv1 & Hun1 & Hsec1).
    rewrite wps_bind. eapply wps_mono; [apply (IH f1 (vs1 ++ (fop_file op, sv1) :: vs2)); [done|done|]|].
    { intros op' Hop'. rewrite fmap_app. simpl. rewrite Hp. specialize (Hkeys op'). rewrite fmap_app in Hkeys.
      apply Hkeys. by constructor. }
    intros rs f2 (Hlen & vs' & Hv' & Hk' & Hun & Hsec). wps_step. split; [simpl; lia|]. exists vs'.
    split; [done|]. split; [rewrite Hk', !fmap_app, <- Hp; done|]. split.
    + intros q svq Hq Hnq. apply not_elem_of_cons in Hnq as [Hne Hnq]. rewrite <- Hp in Hq.
      destruct (elem_of_this _ _ _ _ Hq) as [[= -> ->]|Hq']; [done|].
      destruct (Hun q svq) as [Hin (E1 & E2 & E3)]; [by apply elem_of_others|done|].
      destruct (Hun1 q svq Hq') as (F1 & F2 & F3). split; [done|]. unfold unmoved.
      by rewrite E1, E2, E3, F1, F2, F3.
    + intros b Hb. by rewrite Hsec, Hsec1.
Qed.
End ops.
