(* ===== verification/SfsTree.v ===== *)
(** * All files of a volume, loaded or not

    [fsvol f vs us O]: the volume [f] has the loaded vnodes [vs] and, on disk only, the files [us]
    with their inode numbers; the inode of a vnode that is not dirty is on disk as well.  Loading
    and discarding a vnode moves a file between the two lists; creating and erasing a file takes a
    block for its inode and gives it back. *)

From S2P Require Import Prelude StateM Heap KArray KBitmap Uio SfsDisk Sfs SfsBytes SfsSpec SfsIo SfsDirs SfsTrunc.
From S2P Require Import SfsVolume.

Definition ublocks (f : sfs_fs) (us : list (Z * sfs_inode)) : list Z :=
  mjoin ((λ x, x.1 :: file_blocks f x.2) <$> us).
Definition numbered (vs : list (Z * sfs_vnode)) : list (Z * sfs_inode) := (λ x, (sv_ino x.2, sv_i x.2)) <$> vs.
Definition inodes (vs : list (Z * sfs_vnode)) (us : list (Z * sfs_inode)) : list (Z * sfs_inode) := numbered vs ++ us.

Lemma ublocks_app f us us' : ublocks f (us ++ us') = ublocks f us ++ ublocks f us'.
Proof. unfold ublocks. by rewrite fmap_app, join_app. Qed.
Lemma ublocks_cons f ino i us : ublocks f ((ino, i) :: us) = ino :: file_blocks f i ++ ublocks f us.
Proof. done. Qed.

#[export] Instance ublocks_perm f : Proper ((≡ₚ) ==> (≡ₚ)) (ublocks f).
Proof. intros us us' Hp. unfold ublocks. by rewrite Hp. Qed.

Lemma elem_of_ublocks f us b :
  b ∈ ublocks f us ↔ ∃ ino i, (ino, i) ∈ us ∧ (b = ino ∨ b ∈ file_blocks f i).
Proof.
  unfold ublocks. rewrite list_elem_of_join. split.
  - intros (l & Hb & ([ino i] & -> & Hin)%list_elem_of_fmap). exists ino, i. split; [done|]. simpl in Hb.
    by apply elem_of_cons in Hb.
  - intros (ino & i & Hin & Hb). exists (ino :: file_blocks f i). split; [by apply elem_of_cons|].
    apply list_elem_of_fmap. by exists (ino, i).
Qed.

Lemma elem_of_numbered vs ino i : (ino, i) ∈ numbered vs ↔ ∃ p sv, (p, sv) ∈ vs ∧ ino = sv_ino sv ∧ i = sv_i sv.
Proof.
  unfold numbered. rewrite list_elem_of_fmap. split.
  - intros ([p sv] & [= -> ->] & Hin). by exists p, sv.
  - intros (p & sv & Hin & -> & ->). by exists (p, sv).
Qed.

Lemma numbered_perm f vs O : vblocks f vs ++ inos vs ++ O ≡ₚ ublocks f (numbered vs) ++ O.
Proof.
  rewrite app_assoc. apply Permutation_app_tail. induction vs as [|[p sv] vs IH]; [done|].
  unfold numbered, inos in *. simpl. rewrite vblocks_cons, ublocks_cons, <- IH.
  rewrite <- Permutation_middle. by rewrite <- app_assoc.
Qed.

Lemma all_perm f vs us O : vblocks f vs ++ inos vs ++ ublocks f us ++ O ≡ₚ ublocks f (inodes vs us) ++ O.
Proof. unfold inodes. rewrite ublocks_app, numbered_perm. by rewrite app_assoc. Qed.

(** The file of an inode looks the same. *)
Definition still (f f' : sfs_fs) (i : sfs_inode) : Prop :=
  fmap_ f' i = fmap_ f i ∧ file_blocks f' i = file_blocks f i ∧ fdata f' i = fdata f i.

Lemma still_refl f i : still f f i.
Proof. done. Qed.
Lemma still_trans f f1 f2 i : still f f1 i → still f1 f2 i → still f f2 i.
Proof. intros (A1 & A2 & A3) (B1 & B2 & B3). unfold still. by rewrite B1, B2, B3. Qed.

Lemma ublocks_still f f' us : (∀ ino i, (ino, i) ∈ us → still f f' i) → ublocks f' us = ublocks f us.
Proof.
  intros Hs. unfold ublocks. f_equal. apply list_fmap_ext. intros n [ino i] Hn. simpl. f_equal.
  by apply (Hs ino), list_elem_of_lookup_2 with n.
Qed.

Record fsvol (f : sfs_fs) (vs : list (Z * sfs_vnode)) (us : list (Z * sfs_inode)) (O : list Z) : Prop := FsVol {
  fv_vol : volume f vs (ublocks f us ++ O);
  fv_clean : ∀ p sv, (p, sv) ∈ vs → sv_dirty sv = 0 → sec f (sv_ino sv) = inode_bytes (sv_i sv);
  fv_un : ∀ ino i, (ino, i) ∈ us → sec f ino = inode_bytes i ∧ inode_wf i ∧
    sfi_type i = SFS_TYPE_FILE ∧ sfi_size i < 2 ^ 31;
}.

Section tree.
Implicit Types (f : sfs_fs) (vs : list (Z * sfs_vnode)) (us : list (Z * sfs_inode)).

Lemma fsvol_own f vs us O : fsvol f vs us O → bowned f (ublocks f (inodes vs us) ++ O).
Proof. intros Hv. rewrite <- all_perm. apply Hv. Qed.

Lemma fsvol_wf f vs us O ino i : fsvol f vs us O → (ino, i) ∈ inodes vs us → inode_wf i.
Proof.
  intros Hv [(p & sv & Hin & _ & ->)%elem_of_numbered|Hin]%elem_of_app.
  - by apply (vl_mem _ _ _ (fv_vol _ _ _ _ Hv) p).
  - by apply (fv_un _ _ _ _ Hv ino).
Qed.

(** An inode number belongs to one file. *)
Lemma fsvol_unique f vs us O :
  fsvol f vs us O → NoDup (inodes vs us).*1.
Proof.
  intros Hv. destruct (fsvol_own _ _ _ _ Hv) as [Hnd _]. apply NoDup_app in Hnd as [Hnd _].
  induction (inodes vs us) as [|[ino i] l IH]; [constructor|]. simpl. rewrite ublocks_cons in Hnd.
  apply NoDup_cons in Hnd as [Hn Hnd]. apply NoDup_app in Hnd as (_ & _ & Hnd). constructor; [|by apply IH].
  intros ([ino' i'] & -> & Hin)%list_elem_of_fmap. apply Hn. apply elem_of_app. right. apply elem_of_ublocks.
  exists ino', i'. auto.
Qed.

Lemma inode_range f vs us O ino i :
  fsvol f vs us O → (ino, i) ∈ inodes vs us → 0 < ino < nblocks f ∧ used f ino = true.
Proof.
  intros Hv Hin. destruct (fsvol_own _ _ _ _ Hv) as [_ HB]. apply HB. apply elem_of_app. left.
  apply elem_of_ublocks. exists ino, i. auto.
Qed.

(** Another state with the same files. *)
Lemma fsvol_frame f f' vs us O O' :
  fsvol f vs us O → vol_ok f' → (∀ p sv, (p, sv) ∈ vs → sfs_mem f' !! p = Some sv) →
  (∀ b, b ∈ ublocks f (inodes vs us) → sec f' b = sec f b) →
  bowned f' (ublocks f (inodes vs us) ++ O') →
  fsvol f' vs us O' ∧ ∀ ino i, (ino, i) ∈ inodes vs us → still f f' i.
Proof.
  intros Hv Hok Hmem Hsec Hown.
  assert (∀ ino i, (ino, i) ∈ inodes vs us → still f f' i) as Hst.
  { intros ino i Hin. apply file_ext. intros b Hb. apply Hsec, elem_of_ublocks. exists ino, i. auto. }
  assert (∀ ino i, (ino, i) ∈ inodes vs us → sec f' ino = sec f ino) as Hino.
  { intros ino i Hin. apply Hsec, elem_of_ublocks. exists ino, i. auto. }
  split; [|done]. destruct Hv as [[_ Hk Hm _] Hc Hu].
  assert (∀ p sv, (p, sv) ∈ vs → (sv_ino sv, sv_i sv) ∈ inodes vs us) as Hvs.
  { intros p sv Hin. apply elem_of_app. left. apply elem_of_numbered. by exists p, sv. }
  constructor.
  - constructor; [done|done| |].
    + intros p sv Hin. destruct (Hm p sv Hin) as (_ & Hw & Hn). split; [by apply Hmem|]. split; [done|].
      eapply node_unmoved; [|done]. by apply (Hst (sv_ino sv)), Hvs with p.
    + rewrite all_perm. by rewrite (ublocks_still f f').
  - intros p sv Hin Hd. rewrite (Hino _ (sv_i sv)) by (by apply Hvs with p). by apply (Hc p).
  - intros ino i Hin. rewrite (Hino ino i) by (apply elem_of_app; by right). by apply Hu.
Qed.

(** ** Moving a file between the lists

    A file whose blocks are [ino :: file_blocks f i] is one of [us], one of [vs], or neither. *)

Lemma own_swap f ino i l O :
  ublocks f ((ino, i) :: l) ++ O ≡ₚ ublocks f l ++ (ino :: file_blocks f i ++ O).
Proof.
  rewrite ublocks_cons. change (ino :: file_blocks f i ++ O) with ((ino :: file_blocks f i) ++ O).
  rewrite Permutation_app_swap_app. by rewrite app_assoc.
Qed.

Lemma inodes_un vs us1 x us2 : inodes vs (us1 ++ x :: us2) ≡ₚ x :: inodes vs (us1 ++ us2).
Proof. unfold inodes. rewrite !app_assoc. symmetry. apply Permutation_middle. Qed.

Lemma inodes_vn vs1 p sv vs2 us :
  inodes (vs1 ++ (p, sv) :: vs2) us ≡ₚ (sv_ino sv, sv_i sv) :: inodes (vs1 ++ vs2) us.
Proof. unfold inodes, numbered. rewrite !fmap_app. simpl. rewrite <- !app_assoc. symmetry. apply Permutation_middle. Qed.

Lemma del_un f vs us1 ino i us2 O :
  fsvol f vs (us1 ++ (ino, i) :: us2) O → fsvol f vs (us1 ++ us2) (ino :: file_blocks f i ++ O).
Proof.
  intros Hv. pose proof (fsvol_own _ _ _ _ Hv) as Ho. rewrite inodes_un, own_swap, <- all_perm in Ho.
  destruct Hv as [[] Hc Hu]. constructor; [by constructor|done|]. intros ino' i' Hin. by apply Hu, elem_of_others.
Qed.

Lemma add_un f vs us ino i O :
  fsvol f vs us (ino :: file_blocks f i ++ O) → sec f ino = inode_bytes i → inode_wf i →
  sfi_type i = SFS_TYPE_FILE → sfi_size i < 2 ^ 31 → fsvol f vs ((ino, i) :: us) O.
Proof.
  intros Hv Hs Hw Ht Hz. pose proof (fsvol_own _ _ _ _ Hv) as Ho.
  pose proof (inodes_un vs [] (ino, i) us) as Hp. simpl in Hp. rewrite <- own_swap, <- Hp, <- all_perm in Ho.
  destruct Hv as [[] Hc Hu]. constructor; [by constructor|done|].
  intros ino' i' [[= -> ->]|Hin]%elem_of_cons; [done|by apply Hu].
Qed.

Lemma del_vnode f vs1 p sv vs2 us O :
  fsvol f (vs1 ++ (p, sv) :: vs2) us O → fsvol f (vs1 ++ vs2) us (sv_ino sv :: file_blocks f (sv_i sv) ++ O).
Proof.
  intros Hv. pose proof (fsvol_own _ _ _ _ Hv) as Ho. rewrite inodes_vn, own_swap, <- all_perm in Ho.
  destruct Hv as [[Hok Hk Hm _] Hc Hu]. constructor; [|intros q svq Hq; by apply (Hc q), elem_of_others|done].
  constructor; [done| |intros q svq Hq; by apply Hm, elem_of_others|done].
  rewrite fmap_app in *. simpl in Hk. rewrite <- Permutation_middle in Hk. by apply NoDup_cons in Hk as [_ ?].
Qed.

Definition retag (p : Z) (sv : sfs_vnode) (f : sfs_fs) : sfs_fs := set_mem (<[p := sv]> (sfs_mem f)) f.

Lemma add_vnode f vs1 vs2 us p sv O :
  fsvol f (vs1 ++ vs2) us (sv_ino sv :: file_blocks f (sv_i sv) ++ O) → p ∉ (vs1 ++ vs2).*1 →
  inode_wf (sv_i sv) → node_ok f sv →
  (sv_dirty sv = 0 → sec f (sv_ino sv) = inode_bytes (sv_i sv)) →
  fsvol (retag p sv f) (vs1 ++ (p, sv) :: vs2) us O.
Proof.
  intros Hv Hp Hw Hn Hd. pose proof (fsvol_own _ _ _ _ Hv) as Ho.
  rewrite <- own_swap, <- (inodes_vn vs1 p), <- all_perm in Ho. destruct Hv as [[Hok Hk Hm _] Hc Hu]. constructor.
  - constructor; [by destruct Hok; constructor| | |done].
    + rewrite fmap_app. simpl. rewrite <- Permutation_middle, <- fmap_app. by constructor.
    + intros q svq Hq. simpl. destruct (elem_of_this _ _ _ _ Hq) as [[= -> ->]|Hq'].
      * by rewrite lookup_insert_eq.
      * rewrite lookup_insert_ne; [by apply Hm|]. intros ->. apply Hp, list_elem_of_fmap. by exists (q, svq).
  - intros q svq Hq. destruct (elem_of_this _ _ _ _ Hq) as [[= -> ->]|Hq']; [done|by apply (Hc q)].
  - done.
Qed.

Lemma key_not_other f vs1 p sv vs2 us O : fsvol f (vs1 ++ (p, sv) :: vs2) us O → p ∉ (vs1 ++ vs2).*1.
Proof.
  intros Hv. pose proof (vl_keys _ _ _ (fv_vol _ _ _ _ Hv)) as Hk. rewrite fmap_app in Hk. simpl in Hk.
  rewrite <- Permutation_middle in Hk. apply NoDup_cons in Hk as [Hk _]. by rewrite fmap_app.
Qed.

(** A vnode with other counts, or another link count. *)
Lemma fsvol_retag f vs1 p sv sv' vs2 us O :
  fsvol f (vs1 ++ (p, sv) :: vs2) us O → sv_ino sv' = sv_ino sv →
  file_blocks f (sv_i sv') = file_blocks f (sv_i sv) → inode_wf (sv_i sv') → node_ok f sv' →
  (sv_dirty sv' = 0 → sv_dirty sv = 0 ∧ sv_i sv' = sv_i sv) →
  fsvol (retag p sv' f) (vs1 ++ (p, sv') :: vs2) us O.
Proof.
  intros Hv Hi Hb Hw Hn Hd. apply add_vnode; [|by eapply key_not_other|done|done|].
  - rewrite Hi, Hb. by eapply del_vnode.
  - intros H0. destruct (Hd H0) as [Hd0 ->]. rewrite Hi. apply (fv_clean _ _ _ _ Hv p); [|done].
    apply elem_of_app. right. constructor.
Qed.

(** ** An operation on one file *)

Lemma fsvol_step f vs1 p sv vs2 us O sv' f' :
  fsvol f (vs1 ++ (p, sv) :: vs2) us O →
  fstep p (around f vs1 sv vs2 (ublocks f us ++ O)) sv f sv' f' → node_ok f' sv' →
  fsvol f' (vs1 ++ (p, sv') :: vs2) us O ∧ ∀ ino i, (ino, i) ∈ inodes (vs1 ++ vs2) us → still f f' i.
Proof.
  intros Hv Hst Hn. destruct (volume_step _ _ _ _ _ _ _ _ (fv_vol _ _ _ _ Hv) Hst Hn) as [Hv' Hun].
  assert (∀ b, b ∈ sv_ino sv :: ublocks f (inodes (vs1 ++ vs2) us) ++ O → sec f' b = sec f b) as Hsec.
  { intros b Hb. apply Hst. unfold around. rewrite <- all_perm in Hb.
    rewrite elem_of_cons, !elem_of_app in Hb. rewrite !elem_of_app, elem_of_cons, !elem_of_app. tauto. }
  assert (∀ ino i, (ino, i) ∈ inodes (vs1 ++ vs2) us → still f f' i ∧ sec f' ino = sec f ino) as Hall.
  { intros ino i Hin. split.
    - apply file_ext. intros b Hb. apply Hsec. right. apply elem_of_app. left. apply elem_of_ublocks. eauto.
    - apply Hsec. right. apply elem_of_app. left. apply elem_of_ublocks. eauto. }
  split; [|intros ino i Hin; by apply (Hall ino)]. constructor.
  - rewrite (ublocks_still f f'); [done|]. intros ino i Hin. apply (Hall ino), elem_of_app. by right.
  - intros q svq Hq Hd. destruct (elem_of_this _ _ _ _ Hq) as [[= -> ->]|Hq'].
    + destruct (fs_meta _ _ _ _ _ _ Hst) as (_ & -> & _). destruct (fs_dirty _ _ _ _ _ _ Hst) as [?| ->]; [lia|].
      rewrite Hsec by constructor. apply (fv_clean _ _ _ _ Hv p); [|done]. apply elem_of_app. right. constructor.
    + destruct (Hall (sv_ino svq) (sv_i svq)) as [_ ->]; [apply elem_of_app; left; apply elem_of_numbered; eauto|].
      apply (fv_clean _ _ _ _ Hv q); [by apply elem_of_others|done].
  - intros ino i Hin. destruct (Hall ino i) as [_ ->]; [apply elem_of_app; by right|]. by apply (fv_un _ _ _ _ Hv).
Qed.

(** ** Blocks for inodes *)

Lemma fsvol_alloc f vs us O b f' :
  fsvol f vs us O → allocated f b f' →
  fsvol f' vs us (b :: O) ∧ (∀ ino i, (ino, i) ∈ inodes vs us → still f f' i) ∧ sec f' b = zero_block.
Proof.
  intros Hv Ha. pose proof Ha as (Hb & _ & Hok & _). pose proof (vl_vol _ _ _ (fv_vol _ _ _ _ Hv)) as Hok0.
  destruct (allocated_own _ _ _ _ Ha (fsvol_own _ _ _ _ Hv)) as [Ho Hnb].
  destruct (fsvol_own _ _ _ _ Hv) as [_ HB].
  destruct (fsvol_frame f f' vs us O (b :: O) Hv) as [Hv' Hst].
  - done.
  - intros p sv Hin. destruct (allocated_same _ _ _ Ha) as (_ & _ & _ & _ & ->). by apply (vl_mem _ _ _ (fv_vol _ _ _ _ Hv)).
  - intros b' Hb'. assert (b' ∈ ublocks f (inodes vs us) ++ O) as Hin by (apply elem_of_app; by left).
    destruct (HB b' Hin). rewrite (allocated_sec f b f') by (done || lia). rewrite decide_False; [done|]. by intros ->.
  - by rewrite <- Permutation_middle.
  - split; [done|]. split; [done|]. rewrite (allocated_sec f b f') by (done || lia). by rewrite decide_True.
Qed.

Lemma fsvol_free f vs us O b f' :
  fsvol f vs us (b :: O) → freed f [b] f' →
  fsvol f' vs us O ∧ ∀ ino i, (ino, i) ∈ inodes vs us → still f f' i.
Proof.
  intros Hv (Hok & bm & x & -> & B1 & B2 & B3 & Hbit & _). apply (fsvol_frame f _ vs us (b :: O) O Hv); [done| |done|].
  - intros p sv Hin. by apply (vl_mem _ _ _ (fv_vol _ _ _ _ Hv)).
  - pose proof (fsvol_own _ _ _ _ Hv) as Ho. rewrite <- Permutation_middle in Ho. destruct Ho as [Hnd HB].
    apply NoDup_cons in Hnd as [Hn Hnd]. split; [done|]. intros b' Hb'. destruct (HB b') as [Hr Hu]; [by right|].
    split; [done|]. fsimpl. rewrite Hbit, Hu by lia. rewrite bool_decide_false; [done|].
    intros ->%list_elem_of_singleton. done.
Qed.

Lemma fsvol_forget_mem f vs us O p :
  fsvol f vs us O → p ∉ vs.*1 → fsvol (set_mem (delete p (sfs_mem f)) f) vs us O.
Proof.
  intros [[Hok Hk Hm Ho] Hc Hu] Hp. constructor; [|done|done]. constructor; [by destruct Hok; constructor|done| |done].
  intros q svq Hq. simpl. rewrite lookup_delete_ne; [by apply Hm|]. intros ->. apply Hp, list_elem_of_fmap.
  by exists (q, svq).
Qed.

Lemma fsvol_mem f vs us O p sv : fsvol f vs us O → (p, sv) ∈ vs → sfs_mem f !! p = Some sv ∧ node_ok f sv.
Proof. intros Hv Hin. by destruct (vl_mem _ _ _ (fv_vol _ _ _ _ Hv) p sv Hin) as (? & _ & ?). Qed.

(** Writing the inode back. *)
Lemma fsvol_sync U f vs1 p sv vs2 us O :
  fsvol f (vs1 ++ (p, sv) :: vs2) us O →
  wps (sfs_sync_inode U p) f (λ r f', r = 0 ∧ fsvol f' (vs1 ++ (p, sv_set_dirty 0 sv) :: vs2) us O ∧
    (∀ ino i, (ino, i) ∈ inodes (vs1 ++ (p, sv) :: vs2) us → still f f' i) ∧
    sfs_vnodes f' = sfs_vnodes f ∧ sfs_mem f' = <[p := sv_set_dirty 0 sv]> (sfs_mem f) ∧
    ∃ d, f' = set_mem (sfs_mem f') (set_device d f) ∧ ∀ b, 0 ≤ b → b ≠ sv_ino sv → sector d b = sec f b).
Proof.
  intros Hv. assert ((p, sv) ∈ vs1 ++ (p, sv) :: vs2) as Hin by (apply elem_of_app; right; constructor).
  destruct (fsvol_mem _ _ _ _ _ _ Hv Hin) as [Hm Hn]. unfold sfs_sync_inode. rewrite wps_bind.
  eapply get_vn_ok; [done|]. destruct (sv_dirty sv =? 0) eqn:E; cbn [negb]; cbv iota.
  { wps_step. apply Z.eqb_eq in E.
    assert (sv_set_dirty 0 sv = sv) as -> by (unfold sv_set_dirty; rewrite <- E; by destruct sv).
    split_and!; try done; [symmetry; by apply insert_id|]. exists (sfs_device f). split; [by destruct f|done]. }
  assert ((sv_ino sv, sv_i sv) ∈ inodes (vs1 ++ (p, sv) :: vs2) us) as Hi.
  { apply elem_of_app. left. apply elem_of_numbered. eauto. }
  destruct (inode_range _ _ _ _ _ _ Hv Hi) as [Hr _]. pose proof (fsvol_wf _ _ _ _ _ _ Hv Hi) as Hw.
  pose proof (vl_vol _ _ _ (fv_vol _ _ _ _ Hv)) as Hok. pose proof (length_inode_bytes _ Hw) as Hl.
  rewrite wps_bind. apply wblock_ok; [done|lia|done|]. cbn [negb Z.eqb]. unfold put_vn. wps_step. split; [done|].
  set (f1 := put_sec (sv_ino sv) (inode_bytes (sv_i sv)) f).
  assert (∀ b, 0 ≤ b → sec f1 b = if decide (b = sv_ino sv) then inode_bytes (sv_i sv) else sec f b) as Hsec.
  { intros b Hb. apply sec_put; (done || lia). }
  pose proof (del_vnode _ _ _ _ _ _ _ Hv) as Hd. destruct (fsvol_own _ _ _ _ Hd) as [Hnd HB].
  destruct (fsvol_frame f f1 _ _ _ (sv_ino sv :: file_blocks f (sv_i sv) ++ O) Hd) as [Hv1 Hst1].
  { by apply put_sec_vol. }
  { intros q svq Hq. by apply (fsvol_mem _ _ _ _ _ _ Hd). }
  { intros b Hb. destruct (HB b) as [Hb0 _]; [apply elem_of_app; by left|]. rewrite Hsec by lia.
    rewrite decide_False; [done|]. intros ->. apply NoDup_app in Hnd as (_ & Hx & _). by apply (Hx _ Hb), elem_of_cons; left. }
  { done. }
  assert (still f f1 (sv_i sv)) as Hst.
  { apply file_ext. intros b Hb. destruct (HB b) as [Hb0 _]; [rewrite elem_of_app, elem_of_cons, elem_of_app; tauto|].
    rewrite Hsec by lia. rewrite decide_False; [done|]. intros ->. apply NoDup_app in Hnd as (_ & _ & [Hx _]%NoDup_cons).
    apply Hx, elem_of_app. by left. }
  split_and!; [|intros ino i; rewrite inodes_vn; intros [[= -> ->]|Hx]%elem_of_cons; [done|by apply (Hst1 ino)]|done|done|].
  2: { exists (sfs_device f1). split; [done|]. intros b Hb Hne. fold (sec f1 b). rewrite Hsec by done. by rewrite decide_False. }
  apply (add_vnode f1); [|by eapply key_not_other|done| |].
  - simpl. by destruct Hst as (_ & -> & _).
  - apply (node_unmoved f f1 sv Hst Hn).
  - intros _. simpl. rewrite Hsec by lia. by rewrite decide_True.
Qed.
End tree.

(** * The metadata of a volume

    [meta S f O]: the superblock in memory is [S], that of a formatted volume, the map in memory covers
    the blocks of the disk, and each of the two is on disk as it is in memory unless it is marked
    dirty.  The blocks of the map belong to no file.  Every operation keeps this. *)

From S2P Require Import Prelude StateM Heap KArray KBitmap Uio SfsDisk Sfs SfsBytes SfsSpec SfsIo SfsDirs SfsTrunc.
From S2P Require Import SfsVolume.

Definition mapsize (f : sfs_fs) : Z := SFS_BITBLOCKS (nblocks f).

Lemma bitmapsize_eq n : 0 ≤ n < 2 ^ 22 →
  SFS_BITMAPSIZE n = 4096 * ((n + 4095) / 4096) ∧ SFS_BITBLOCKS n = (n + 4095) / 4096.
Proof.
  intros Hn. unfold SFS_BITBLOCKS, SFS_BITMAPSIZE, SFS_ROUNDUP, SFS_BLOCKBITS, SFS_BLOCKSIZE.
  change (512 * 8) with 4096. replace (n + 4096 - 1) with (n + 4095) by lia. rewrite (u32_id (n + 4095)) by in_range.
  pose proof (Z.div_mod (n + 4095) 4096 ltac:(lia)) as Hd. pose proof (Z.mod_pos_bound (n + 4095) 4096 ltac:(lia)) as Hm.
  rewrite u32_id by in_range. split; [lia|]. by rewrite Z.div_mul.
Qed.

Record meta (S : sfs_super) (f : sfs_fs) (O : list Z) : Prop := Meta {
  me_same : sfs_super_ f = S;
  me_super : super_wf (sfs_super_ f);
  me_magic : sp_magic (sfs_super_ f) = SFS_MAGIC;
  me_name : sp_volname (sfs_super_ f) !! 31%nat = Some 0;
  me_bits : bm_nbits (sfs_freemap f) = SFS_BITMAPSIZE (nblocks f);
  me_blocks : ∀ j, 0 ≤ j < mapsize f → SFS_MAP_LOCATION + j ∈ O;
  me_sb : sfs_superdirty f = 0 → sec f 0 = super_bytes (sfs_super_ f);
  me_map : sfs_freemapdirty f = 0 → ∀ j, 0 ≤ j < mapsize f →
    sec f (SFS_MAP_LOCATION + j) = sub (bm_v (sfs_freemap f)) (512 * j) 512;
}.

(** What the operations do to the metadata. *)
Record mkeep (f : sfs_fs) (O : list Z) (f' : sfs_fs) : Prop := MKeep {
  mk_super : sfs_super_ f' = sfs_super_ f;
  mk_sdirty : sfs_superdirty f' = sfs_superdirty f;
  mk_bits : bm_nbits (sfs_freemap f') = bm_nbits (sfs_freemap f);
  mk_map : map_kept f f';
  mk_sec : ∀ b, b ∈ O → sec f' b = sec f b;
}.

Section meta.
Implicit Types (f : sfs_fs) (O : list Z) (S : sfs_super).

Lemma meta_keep S f O f' : meta S f O → mkeep f O f' → meta S f' O.
Proof.
  intros [HS Hs Hm Hn Hb Ho H0 Hd] [Ks Kd Kb [K0 Km] Ksec]. constructor; unfold mapsize in *; rewrite ?Ks, ?Kb; try done.
  - intros Hz. rewrite K0. apply H0. congruence.
  - intros Hz j Hj. destruct Km as [[-> Kdirty]|Kdirty]; [|lia]. rewrite Ksec by (by apply Ho). apply Hd; [congruence|done].
Qed.

Lemma meta_more S f O O' : meta S f O → (∀ b, b ∈ O → b ∈ O') → meta S f O'.
Proof. intros [] Hin. constructor; try done. auto. Qed.

Lemma mkeep_refl f O : mkeep f O f.
Proof. constructor; try done. apply map_kept_refl. Qed.
Lemma mkeep_trans f O f1 f2 : mkeep f O f1 → mkeep f1 O f2 → mkeep f O f2.
Proof.
  intros [] []. constructor; try congruence; [by eapply map_kept_trans|]. intros b Hb. rewrite mk_sec1, mk_sec0; done.
Qed.
Lemma mkeep_mem f O f' :
  sfs_super_ f' = sfs_super_ f → sfs_superdirty f' = sfs_superdirty f → sfs_freemap f' = sfs_freemap f →
  sfs_freemapdirty f' = sfs_freemapdirty f → sfs_device f' = sfs_device f → mkeep f O f'.
Proof. intros ? ? Hm ? Hd. constructor; rewrite ?Hm, ?Hd; try done. split; [by rewrite Hd|by left]. Qed.
Lemma mkeep_less f O O' f' : mkeep f O f' → (∀ b, b ∈ O' → b ∈ O) → mkeep f O' f'.
Proof. intros [] Hin. constructor; try done. auto. Qed.

Lemma mkeep_fstep p A sv f sv' f' O : fstep p A sv f sv' f' → (∀ b, b ∈ O → b ∈ A) → mkeep f O f'.
Proof.
  intros [_ Hs _ (_ & H1 & H2 & _ & H3 & _) _ _ Hm] Hin. constructor; try done. auto.
Qed.

Lemma mkeep_alloc f b f' O : vol_ok f → bowned f O → allocated f b f' → mkeep f O f'.
Proof.
  intros Hv [_ HB] Ha. pose proof Ha as (Hb & Hu & _). destruct (allocated_same _ _ _ Ha) as (_ & Hs & Hd & _).
  constructor; [done|done| | |].
  - by destruct Ha as (_ & _ & _ & bm & (_ & ? & _) & ->).
  - split; [|right; by destruct Ha as (_ & _ & _ & bm & _ & ->)].
    rewrite (allocated_sec f b f') by (done || lia). by rewrite decide_False by lia.
  - intros b' Hb'. destruct (HB b' Hb') as [? Hu']. rewrite (allocated_sec f b f') by (done || lia).
    rewrite decide_False; [done|]. intros ->. congruence.
Qed.

Lemma mkeep_freed f B f' O : freed f B f' → mkeep f O f'.
Proof.
  intros (_ & bm & x & -> & _ & Hn & _ & _ & Hx). by constructor.
Qed.

(** An inode is written. *)
Lemma mkeep_inode f vs us O ino i m d :
  fsvol f vs us O → (ino, i) ∈ inodes vs us → (∀ b, 0 ≤ b → b ≠ ino → sector d b = sec f b) →
  mkeep f O (set_mem m (set_device d f)).
Proof.
  intros Hv Hi Hd. destruct (inode_range _ _ _ _ _ _ Hv Hi) as [Hrg _]. destruct (fsvol_own _ _ _ _ Hv) as [Hnd HB].
  constructor; try done; [split; [apply Hd; lia|by left]|]. intros b Hb.
  destruct (HB b) as [Hb0 _]; [apply elem_of_app; by right|]. apply Hd; [lia|]. intros ->.
  apply NoDup_app in Hnd as (_ & Hx & _). eapply Hx; [|exact Hb]. apply elem_of_ublocks. exists ino, i. split; [done|by left].
Qed.
End meta.
