(* ===== verification/SfsNode.v ===== *)
(** * Vnodes in memory (kern/fs/vfs/vnode.c, kern/fs/sfs/sfs_vnode.c)

    Reference counts, and the operations of SFS that load, create, name and discard vnodes.  They
    run on the state of the thread system, whose environment is here one mounted volume: the
    counts are guarded by locks, and vnodes are allocated from the kernel heap.

    The routines run one at a time: no thread is preempted inside one of them.  So a count lock
    is free whenever one of them takes it; finding it held is [FLoop], the fault of a routine
    that does not come to an end. *)

From S2P Require Import Prelude StateM Heap KArray KBitmap KState Synch Uio SfsDisk Sfs SfsVolume.

Section node.
Context {H : Type} `{KHeap H}.
Abbreviation K := (stm (kst H sfs_fs)).
Variable U : usermem.

(** A routine that works on the volume alone. *)
Definition inF {A} (m : F A) : K A := zoom k_env set_env m.

Definition getv (p : Z) : K sfs_vnode := inF (get_vn p).
Definition upd_vnode (p : Z) (g : vnode → vnode) : K unit :=
  inF (sv ← get_vn p; put_vn p (sv_set_v (g (sv_v sv)) sv)).
Definition upd_inode (p : Z) (g : sfs_inode → sfs_inode) : K unit :=
  inF (sv ← get_vn p; put_vn p (sv_set_i (g (sv_i sv)) sv)).

Definition v_set_refcount (x : Z) (v : vnode) : vnode := Vnode x (vn_opencount v) (vn_countlock v) (vn_ops v).
Definition v_set_opencount (x : Z) (v : vnode) : vnode := Vnode (vn_refcount v) x (vn_countlock v) (vn_ops v).

(** ** vnode.c *)

(** The string vnode-countlock has 15 characters. *)
Definition vnode_init (p : Z) (ops : vops) : K Z :=
  _ ← asrt (negb (p =? NULL));
  _ ← upd_vnode p (λ v, Vnode 1 0 (vn_countlock v) (Some ops));
  lk ← lock_create 15;
  _ ← upd_vnode p (λ v, Vnode (vn_refcount v) (vn_opencount v) lk (vn_ops v));
  mret (if lk =? NULL then ENOMEM else 0).

Definition vnode_kill (p : Z) : K unit :=
  sv ← getv p;
  let v := sv_v sv in
  _ ← asrt (vn_refcount v =? 1);
  _ ← asrt (vn_opencount v =? 0);
  _ ← asrt (negb (vn_countlock v =? NULL));
  _ ← lock_destroy (vn_countlock v);
  upd_vnode p (λ _, Vnode 0 0 NULL None).

Definition vnode_incref (p : Z) : K unit :=
  _ ← asrt (negb (p =? NULL));
  sv ← getv p;
  _ ← acquire (vn_countlock (sv_v sv));
  _ ← upd_vnode p (λ v, v_set_refcount (s32 (vn_refcount v + 1)) v);
  lock_release (vn_countlock (sv_v sv)).

(** [vnode_check]; the name of the operation matters only for "reclaim". *)
Definition vnode_check (reclaim : bool) (p : Z) : K unit :=
  if (p =? NULL) || (p =? DEADBEEF) then fault_ FPanic
  else
    sv ← getv p;
    match vn_ops (sv_v sv) with
    | None => fault_ FPanic
    | Some _ =>
        _ ← acquire (vn_countlock (sv_v sv));
        sv ← getv p;
        let v := sv_v sv in
        if vn_refcount v <? 0 then fault_ FPanic
        else if (vn_refcount v =? 0) && negb reclaim then fault_ FPanic
        else if vn_opencount v <? 0 then fault_ FPanic
        else lock_release (vn_countlock v)
    end.

(** A call through the table of a vnode, and one of the operations of SfsVolume. *)
Definition __VOP {A} (reclaim : bool) (p : Z) (onfile ondir : K A) : K A :=
  _ ← vnode_check reclaim p;
  sv ← getv p;
  match vn_ops (sv_v sv) with
  | Some FileOps => onfile
  | Some DirOps => ondir
  | None => fault_ FUndef
  end.
Definition VOP_ {A} (p : Z) (m : F A) : K A := _ ← vnode_check false p; inF m.

(** ** sfs_vnode.c: discarding a vnode *)

Definition set_linkcount (p : Z) (d : Z) : K unit :=
  upd_inode p (λ i, i_set_linkcount (u16 (sfi_linkcount i + d)) i).
Definition mark_dirty (p : Z) : K unit := inF (sv ← get_vn p; put_vn p (sv_set_dirty 1 sv)).

(** [kfree(sv)]. *)
Definition free_vnode (p : Z) : K unit :=
  _ ← kfree_ p; inF (modify (λ f, set_mem (delete p (sfs_mem f)) f)).

(** The search in the table of loaded vnodes. *)
Definition vnode_index (p : Z) : F (option Z) :=
  a ← gets sfs_vnodes;
  mwhile (S (Z.to_nat (array_getnum a))) (λ i,
    if i <? array_getnum a then
      q ← lift (array_getguy a i);
      if q =? p then mret (inr (Some i)) else mret (inl (i + 1))
    else mret (inr None)) 0.

(** What follows once nobody else holds the vnode. *)
Definition discard (p : Z) : K Z :=
  result ← inF (sfs_sync_inode U p);
  if negb (result =? 0) then mret result
  else
    sv ← getv p;
    _ ← (if sfi_linkcount (sv_i sv) =? 0 then inF (sfs_bfree (sv_ino sv)) else mret tt);
    ix ← inF (vnode_index p);
    match ix with
    | None => fault_ FPanic
    | Some ix =>
        _ ← inF (a ← gets sfs_vnodes; a ← lift (array_remove a ix); modify (set_vnodes a));
        _ ← vnode_kill p;
        _ ← free_vnode p;
        mret 0
    end.

Definition sfs_reclaim (p : Z) : K Z :=
  sv ← getv p;
  _ ← acquire (vn_countlock (sv_v sv));
  sv ← getv p;
  let v := sv_v sv in
  if negb (vn_refcount v =? 1) then
    _ ← asrt (vn_refcount v >? 1);
    _ ← upd_vnode p (v_set_refcount (vn_refcount v - 1));
    _ ← lock_release (vn_countlock v);
    mret EBUSY
  else
    _ ← lock_release (vn_countlock v);
    sv ← getv p;
    result ← (if sfi_linkcount (sv_i sv) =? 0 then VOP_ p (VOP_TRUNCATE U p 0) else mret 0);
    if negb (result =? 0) then mret result else discard p.

Definition VOP_RECLAIM (p : Z) : K Z := __VOP true p (sfs_reclaim p) (sfs_reclaim p).

(** ** vnode.c, continued *)

Definition vnode_decref (p : Z) : K unit :=
  _ ← asrt (negb (p =? NULL));
  sv ← getv p;
  _ ← acquire (vn_countlock (sv_v sv));
  sv ← getv p;
  let v := sv_v sv in
  _ ← asrt (vn_refcount v >? 0);
  _ ← (if vn_refcount v >? 1 then upd_vnode p (v_set_refcount (vn_refcount v - 1)) else mret tt);
  _ ← lock_release (vn_countlock v);
  if vn_refcount v >? 1 then mret tt else _ ← VOP_RECLAIM p; mret tt.

Definition vnode_incopen (p : Z) : K unit :=
  _ ← asrt (negb (p =? NULL));
  sv ← getv p;
  _ ← acquire (vn_countlock (sv_v sv));
  _ ← upd_vnode p (λ v, v_set_opencount (s32 (vn_opencount v + 1)) v);
  lock_release (vn_countlock (sv_v sv)).

Definition vnode_decopen (p : Z) : K unit :=
  _ ← asrt (negb (p =? NULL));
  sv ← getv p;
  _ ← acquire (vn_countlock (sv_v sv));
  sv ← getv p;
  let v := sv_v sv in
  _ ← asrt (vn_opencount v >? 0);
  let opencount := vn_opencount v - 1 in
  _ ← upd_vnode p (v_set_opencount opencount);
  _ ← lock_release (vn_countlock v);
  if opencount >? 0 then mret tt else _ ← VOP_ p (VOP_CLOSE U p); mret tt.

(** ** sfs_vnode.c: loading and creating *)

Definition find_loaded (ino : Z) : F (option Z) :=
  a ← gets sfs_vnodes;
  mwhile (S (Z.to_nat (array_getnum a))) (λ i,
    if i <? array_getnum a then
      p ← lift (array_getguy a i);
      sv ← get_vn p;
      used ← sfs_bused (sv_ino sv);
      if used =? 0 then fault_ FPanic
      else if sv_ino sv =? ino then mret (inr (Some p)) else mret (inl (i + 1))
    else mret (inr None)) 0.

Definition vnodes_add (p : Z) : K Z :=
  a ← gets (λ k, sfs_vnodes (k_env k));
  h ← gets k_heap;
  '(r, a, h) ← lift (array_add a p h);
  _ ← modify (set_heap h);
  _ ← inF (modify (set_vnodes a));
  mret r.

Definition SFS_VNODE_SIZE : Z := 544.

(** From the choice of the function table on. *)
Definition install (p ino : Z) (i : sfs_inode) (dirty : Z) : K (Z * Z) :=
  ops ← (if sfi_type i =? SFS_TYPE_FILE then mret FileOps
         else if sfi_type i =? SFS_TYPE_DIR then mret DirOps
         else fault_ FPanic);
  _ ← inF (put_vn p (SVnode (Vnode 0 0 0 None) i 0 dirty));
  result ← vnode_init p ops;
  if negb (result =? 0) then _ ← free_vnode p; mret (result, NULL)
  else
    _ ← inF (sv ← get_vn p; put_vn p (SVnode (sv_v sv) (sv_i sv) ino (sv_dirty sv)));
    result ← vnodes_add p;
    if negb (result =? 0) then
      _ ← vnode_kill p;
      _ ← free_vnode p;
      mret (result, NULL)
    else mret (0, p).

(** The code and the vnode. *)
Definition sfs_loadvnode (ino forcetype : Z) : K (Z * Z) :=
  found ← inF (find_loaded ino);
  match found with
  | Some p =>
      _ ← asrt (forcetype =? SFS_TYPE_INVAL);
      _ ← vnode_incref p;
      mret (0, p)
  | None =>
      p ← kalloc SFS_VNODE_SIZE;
      if p =? NULL then mret (ENOMEM, NULL)
      else
        used ← inF (sfs_bused ino);
        if used =? 0 then fault_ FPanic
        else
          '(result, data) ← inF (rblock U zero_block ino);
          if negb (result =? 0) then _ ← kfree_ p; mret (result, NULL)
          else
            let i := inode_of data in
            if negb (forcetype =? SFS_TYPE_INVAL) then
              _ ← asrt (sfi_type i =? SFS_TYPE_INVAL);
              install p ino (i_set_type forcetype i) 1
            else install p ino i 0
  end.

Definition sfs_getroot : K Z :=
  '(result, p) ← sfs_loadvnode SFS_ROOT_LOCATION SFS_TYPE_INVAL;
  if negb (result =? 0) then fault_ FPanic else mret p.

(** The code, the vnode and the slot. *)
Definition sfs_lookonce (p : Z) (name : list Z) : K (Z * Z * Z) :=
  '(result, found, _) ← inF (sfs_dir_findname U p name);
  match found with
  | None => mret (result, NULL, 0)
  | Some (ino, slot) =>
      if negb (result =? 0) then mret (result, NULL, 0)
      else
        '(result, q) ← sfs_loadvnode ino SFS_TYPE_INVAL;
        if negb (result =? 0) then mret (result, NULL, 0)
        else
          sv ← getv q;
          if sfi_linkcount (sv_i sv) =? 0 then fault_ FPanic else mret (0, q, slot)
  end.

Definition sfs_makeobj (type : Z) : K (Z * Z) :=
  '(result, ino) ← inF (sfs_balloc U);
  if negb (result =? 0) then mret (result, NULL) else sfs_loadvnode ino type.

(** ** sfs_vnode.c: operations on directories *)

Definition sfs_creat (p : Z) (name : list Z) (excl : bool) : K (Z * Z) :=
  '(result, found, _) ← inF (sfs_dir_findname U p name);
  if negb (result =? 0) && negb (result =? ENOENT) then mret (result, NULL)
  else if (result =? 0) && excl then mret (EEXIST, NULL)
  else if result =? 0 then
    match found with
    | Some (ino, _) => sfs_loadvnode ino SFS_TYPE_INVAL
    | None => fault_ FUndef
    end
  else
    '(result, newguy) ← sfs_makeobj SFS_TYPE_FILE;
    if negb (result =? 0) then mret (result, NULL)
    else
      sv ← getv newguy;
      '(result, _) ← inF (sfs_dir_link U p name (sv_ino sv));
      if negb (result =? 0) then _ ← vnode_decref newguy; mret (result, NULL)
      else
        _ ← set_linkcount newguy 1;
        _ ← mark_dirty newguy;
        mret (0, newguy).

(** The assertion that both vnodes belong to one file system is what [getv] demands: the table of
    vnodes is that of the volume. *)
Definition sfs_link (p : Z) (name : list Z) (file : Z) : K Z :=
  f ← getv file;
  '(result, _) ← inF (sfs_dir_link U p name (sv_ino f));
  if negb (result =? 0) then mret result
  else
    _ ← set_linkcount file 1;
    _ ← mark_dirty file;
    mret 0.

Definition sfs_remove (p : Z) (name : list Z) : K Z :=
  '(result, victim, slot) ← sfs_lookonce p name;
  if negb (result =? 0) then mret result
  else
    result ← inF (sfs_dir_unlink U p slot);
    _ ← (if result =? 0 then
           sv ← getv victim;
           _ ← asrt (sfi_linkcount (sv_i sv) >? 0);
           _ ← set_linkcount victim (-1);
           mark_dirty victim
         else mret tt);
    _ ← vnode_decref victim;
    mret result.

Definition sfs_rename (d1 : Z) (n1 : list Z) (d2 : Z) (n2 : list Z) : K Z :=
  sv ← getv d1;
  _ ← asrt (d1 =? d2);
  _ ← asrt (sv_ino sv =? SFS_ROOT_LOCATION);
  '(result, g1, slot1) ← sfs_lookonce d1 n1;
  if negb (result =? 0) then mret result
  else
    g ← getv g1;
    _ ← asrt (sfi_type (sv_i g) =? SFS_TYPE_FILE);
    '(result, slot2) ← inF (sfs_dir_link U d1 n2 (sv_ino g));
    if negb (result =? 0) then _ ← vnode_decref g1; mret result
    else
      _ ← set_linkcount g1 1;
      _ ← mark_dirty g1;
      result ← inF (sfs_dir_unlink U d1 slot1);
      if negb (result =? 0) then
        result2 ← inF (sfs_dir_unlink U d1 slot2);
        if negb (result2 =? 0) then fault_ FPanic
        else
          _ ← set_linkcount g1 (-1);
          _ ← vnode_decref g1;
          mret result
      else
        g ← getv g1;
        _ ← asrt (sfi_linkcount (sv_i g) >? 0);
        _ ← set_linkcount g1 (-1);
        _ ← mark_dirty g1;
        _ ← vnode_decref g1;
        mret 0.

(** The code, the directory and the name copied to the buffer. *)
Definition sfs_lookparent (p : Z) (path : list Z) (buflen : Z) : K (Z * Z * list Z) :=
  sv ← getv p;
  if negb (sfi_type (sv_i sv) =? SFS_TYPE_DIR) then mret (ENOTDIR, NULL, [])
  else if u32 (zlen path + 1) >? buflen then mret (ENAMETOOLONG, NULL, [])
  else _ ← vnode_incref p; mret (0, p, path).

Definition sfs_lookup (p : Z) (path : list Z) : K (Z * Z) :=
  sv ← getv p;
  if negb (sfi_type (sv_i sv) =? SFS_TYPE_DIR) then mret (ENOTDIR, NULL)
  else
    '(result, final, _) ← sfs_lookonce p path;
    if negb (result =? 0) then mret (result, NULL) else mret (0, final).

(** ** The tables, continued *)

Definition VOP_CREAT p name excl := __VOP false p (mret (ENOTDIR, NULL)) (sfs_creat p name excl).
Definition VOP_SYMLINK p (contents name : list Z) : K Z := __VOP false p (mret ENOTDIR) (mret EUNIMP).
Definition VOP_MKDIR p (name : list Z) : K Z := __VOP false p (mret ENOTDIR) (mret EUNIMP).
Definition VOP_LINK p name file := __VOP false p (mret ENOTDIR) (sfs_link p name file).
Definition VOP_REMOVE p name := __VOP false p (mret ENOTDIR) (sfs_remove p name).
Definition VOP_RMDIR p (name : list Z) : K Z := __VOP false p (mret ENOTDIR) (mret EUNIMP).
Definition VOP_RENAME p n1 p2 n2 := __VOP false p (mret ENOTDIR) (sfs_rename p n1 p2 n2).
Definition VOP_LOOKUP p path := __VOP false p (mret (ENOTDIR, NULL)) (sfs_lookup p path).
Definition VOP_LOOKPARENT p path buflen :=
  __VOP false p (mret (ENOTDIR, NULL, [])) (sfs_lookparent p path buflen).
End node.

(** * Mounting and syncing (kern/fs/sfs/sfs_fs.c)

    The routines that bring a volume into memory, write it back and give its memory up.  The
    environment of the thread system is the structure [sfs_fs]: while [sfs_domount] runs it is
    the memory it sets up, of which only the device means anything at first. *)

From S2P Require Import Prelude StateM Heap KArray KBitmap KState Owned Synch Uio SfsDisk Sfs SfsVolume.

Definition SFS_FS_SIZE : Z := 552.

Section mount.
Context {H : Type} `{KHeap H}.
Abbreviation K := (stm (kst H sfs_fs)).
Variable U : usermem.

Definition SFS_FS_BITMAPSIZE (f : sfs_fs) : Z := SFS_BITMAPSIZE (sp_nblocks (sfs_super_ f)).
Definition SFS_FS_BITBLOCKS (f : sfs_fs) : Z := SFS_BITBLOCKS (sp_nblocks (sfs_super_ f)).

(** The bytes of the map are read into or written from the memory of the bitmap. *)
Definition sfs_mapio (rw : uio_rw_t) : F Z :=
  mapsize ← gets SFS_FS_BITBLOCKS;
  mwhile (S (Z.to_nat mapsize)) (λ j,
    if j <? mapsize then
      b ← gets sfs_freemap;
      ptr ← lift (slice (bm_v b) (j * SFS_BLOCKSIZE) SFS_BLOCKSIZE);
      result ← match rw with
               | UIO_READ =>
                   '(result, data) ← rblock U ptr (u32 (SFS_MAP_LOCATION + j));
                   _ ← modify (λ f, set_freemap (bm_set_v (sfs_freemap f)
                                      (splice (bm_v (sfs_freemap f)) (j * SFS_BLOCKSIZE) data)) f);
                   mret result
               | UIO_WRITE => wblock U ptr (u32 (SFS_MAP_LOCATION + j))
               end;
      if negb (result =? 0) then mret (inr result) else mret (inl (j + 1))
    else mret (inr 0)) 0.

(** What [VOP_FSYNC] answers is ignored. *)
Definition sfs_sync : K Z :=
  num ← gets (λ k, array_getnum (sfs_vnodes (k_env k)));
  _ ← mfor (Z.to_nat num) 0 (λ i _,
        a ← gets (λ k, sfs_vnodes (k_env k));
        sv ← lift (array_getguy a i);
        _ ← VOP_ sv (VOP_FSYNC U sv);
        mret tt) tt;
  f ← gets k_env;
  result ← (if negb (sfs_freemapdirty f =? 0) then
              result ← inF (sfs_mapio UIO_WRITE);
              if negb (result =? 0) then mret result
              else _ ← inF (modify (set_freemapdirty 0)); mret 0
            else mret 0);
  if negb (result =? 0) then mret result
  else
    f ← gets k_env;
    if negb (sfs_superdirty f =? 0) then
      result ← inF (wblock U (super_bytes (sfs_super_ f)) SFS_SB_LOCATION);
      if negb (result =? 0) then mret result
      else _ ← inF (modify (set_superdirty 0)); mret 0
    else mret 0.

Definition sfs_getvolname : F (list Z) := gets (λ f, sp_volname (sfs_super_ f)).

Definition sfs_unmount : K Z :=
  f ← gets k_env;
  if array_getnum (sfs_vnodes f) >? 0 then mret EBUSY
  else
    _ ← asrt (sfs_superdirty f =? 0);
    _ ← asrt (sfs_freemapdirty f =? 0);
    _ ← heap_do (array_destroy (sfs_vnodes f));
    _ ← heap_do (bitmap_destroy (sfs_freemap f));
    _ ← kfree_ (sfs_self f);
    mret 0.

Definition set_self (x : Z) (f : sfs_fs) : sfs_fs :=
  SfsFs x (sfs_super_ f) (sfs_superdirty f) (sfs_device f) (sfs_vnodes f) (sfs_freemap f) (sfs_freemapdirty f) (sfs_mem f).

(** The last byte of the volume name. *)
Definition terminate (s : sfs_super) : sfs_super :=
  Super (sp_magic s) (sp_nblocks s) (<[31%nat := 0]> (sp_volname s)) (sp_reserved s).

(** The error exits give back what has been allocated. *)
Definition undo_array (r : Z) : K Z :=
  f ← gets k_env;
  _ ← heap_do (array_destroy (sfs_vnodes f));
  _ ← kfree_ (sfs_self f);
  mret r.

(** The code; [blocksize] is the sector size of the device. *)
Definition sfs_domount (blocksize : Z) : K Z :=
  if negb (blocksize =? SFS_BLOCKSIZE) then mret ENXIO
  else
    sfs ← kalloc SFS_FS_SIZE;
    if sfs =? NULL then mret ENOMEM
    else
      _ ← inF (modify (set_self sfs));
      oa ← heap_op array_create;
      match oa with
      | None => _ ← kfree_ sfs; mret ENOMEM
      | Some a =>
          _ ← inF (modify (set_vnodes a));
          '(result, data) ← inF (rblock U (replicate 512 0) SFS_SB_LOCATION);
          _ ← inF (modify (set_super (super_of data)));
          if negb (result =? 0) then undo_array result
          else
            f ← gets k_env;
            if negb (sp_magic (sfs_super_ f) =? SFS_MAGIC) then undo_array EINVAL
            else
              _ ← inF (modify (λ f, set_super (terminate (sfs_super_ f)) f));
              f ← gets k_env;
              ob ← heap_op (bitmap_create (SFS_FS_BITMAPSIZE f));
              match ob with
              | None => undo_array ENOMEM
              | Some b =>
                  _ ← inF (modify (set_freemap b));
                  result ← inF (sfs_mapio UIO_READ);
                  if negb (result =? 0) then
                    f ← gets k_env;
                    _ ← heap_do (bitmap_destroy (sfs_freemap f));
                    undo_array result
                  else
                    _ ← inF (modify (λ f, set_freemapdirty 0 (set_superdirty 0 f)));
                    mret 0
              end
      end.
End mount.
