(* ===== verification/SfsNodeSpec.v ===== *)
(** * Vnodes in memory: counts, locks and memory

    [nodes k s vs B] says that the loaded vnodes [vs] are in memory as they should be: each in a
    block of its own, with a free count lock of its own, all listed in the table of the volume; the
    scheduler is in state [s], and [B] is what the rest of the kernel has: its blocks, the threads
    and its own locks, which the volume never touches, the open counts of the vnodes, and the
    superblock, which never changes. *)

From S2P Require Import Prelude StateM Heap KArray KBitmap Coremap KState Thread ThreadSpec ThreadHeap Synch SynchSpec Owned.
From S2P Require Import ProcSpec Uio SfsDisk Sfs SfsBytes SfsSpec SfsIo SfsDirs SfsTrunc SfsVolume SfsTree SfsNode.

Section locks.
Context {H E : Type} `{KHeapLaws H}.
Implicit Types k : kst H E.

(** Nobody sleeps on [a], so waking those who do changes nothing. *)
Lemma wakeup_quiet k s a :
  srep k s → 0 < k_spl k → (∀ t, t ∈ s_sleep s → sleeps_on k a t = false) →
  wps (thread_wakeup a) k (λ _ k', k' = k).
Proof.
  intros Hrep Hspl Hq. destruct (sr_sleep _ _ Hrep) as (sl & Hsl & Har). unfold thread_wakeup. wps_step.
  eapply wps_get_opt; [done|]. pose proof (proj1 Har) as Hn. unfold array_getnum.
  apply (wps_mwhile (λ n i k', k' = k ∧ 0 ≤ i ≤ a_num sl ∧ n = Z.to_nat (a_num sl - i)) _ (Z.to_nat (a_num sl)));
    [split_and!; [done|lia|lia|f_equal; lia]|lia|].
  intros n i k' (-> & Hi & ->). wps_step. eapply wps_get_opt; [done|]. destruct (i <? a_num sl) eqn:E1; [|by wps_step].
  destruct (lookup_lt_is_Some_2 (s_sleep s) (Z.to_nat i)) as [t Ht]; [lia|].
  rewrite wps_bind, wps_lift. eapply wp_of_eq; [apply (array_getguy_spec _ _ _ t Har); [lia|done]|].
  assert (t ∈ s_sleep s) as Hin by (by eapply list_elem_of_lookup_2).
  destruct (proj1 (sr_thr _ _ Hrep t)) as [th Hth]; [unfold all_threads; set_solver|].
  wps_step. eapply wps_get_thread; [done|]. specialize (Hq t Hin). unfold sleeps_on in Hq. rewrite Hth in Hq.
  rewrite Hq. wps_step. exists (Z.to_nat (a_num sl - (i + 1))). split; [lia|]. split_and!; (done || lia).
Qed.

Lemma acquire_ok k lk n Φ :
  k_inint k = 0 → lk ≠ NULL → k_locks k !! lk = Some (Lock n 1) →
  Φ tt (set_locks (<[lk := Lock n 0]> (k_locks k)) k) → wps (acquire lk) k Φ.
Proof.
  intros Hi Hl Hlk HΦ. unfold acquire, lock_acquire, acquire_loop. wps_step. unfold k_splhigh. apply wps_splx. wps_step.
  eapply wps_get_lock; [done|]. simpl lock_count. cbn [Z.eqb]. unfold put_lock. wps_step. apply wps_splx. wps_step.
  by destruct k.
Qed.

Lemma release_quiet k s lk n Φ :
  srep k s → lk ≠ NULL → k_locks k !! lk = Some (Lock n 0) → (∀ t, t ∈ s_sleep s → sleeps_on k lk t = false) →
  Φ tt (set_locks (<[lk := Lock n 1]> (k_locks k)) k) → wps (lock_release lk) k Φ.
Proof.
  intros Hrep Hn Hlk Hq HΦ. unfold lock_release. wps_step. unfold k_splhigh. apply wps_splx. wps_step.
  eapply wps_get_lock; [done|]. simpl lock_count. unfold put_lock. wps_step.
  eapply wps_mono; [apply (wakeup_quiet _ s)|].
  - destruct Hrep. by constructor.
  - done.
  - done.
  - intros [] k' ->. wps_step. apply wps_splx. by destruct k.
Qed.

Lemma lock_create_spec k len B :
  owned (k_heap k) B → 0 ≤ len → len + 1 < kh_max → 8 < kh_max →
  wps (lock_create len) k (λ lk k', ∃ h', rooms 2 (k_heap k) (lk ≠ NULL) h' ∧
    ((lk = NULL ∧ k' = set_heap h' k ∧ owned h' B) ∨
     (lk ≠ NULL ∧ ∃ name, owned h' (lk :: name :: B) ∧
        k' = set_locks (<[lk := Lock name 1]> (k_locks k)) (set_heap h' k)))).
Proof.
  intros Ho Hlen Hmax Hmax8. unfold lock_create. wps_step. pose proof Ho as (Hi & _).
  wps_call wps_kalloc_full; [done|lia|]. intros e k1 (h1 & -> & Hi1 & [[-> Hl1]|(He & Hne & Hl1)] & Hr1).
  { simpl. wps_step. exists h1. split; [apply (rooms_le 1); [no_room|lia]|]. left. split_and!; try done. by eapply owned_live_eq. }
  replace (e =? NULL) with false by lia. unfold kstrdup.
  pose proof (owned_new _ _ _ _ Ho Hi1 Hne Hl1) as Ho1.
  wps_call wps_kalloc_full; [done|lia|]. simpl.
  intros name k2 (h2 & -> & Hi2 & [[-> Hl2]|(Hn & Hnn & Hl2)] & Hr2); simpl in *.
  - wps_call wps_kfree; [done|simpl; rewrite Hl2, Hl1; set_solver|].
    intros [] k3 (h3 & -> & Hi3 & Hl3). wps_step. simpl in *. exists h3.
    split; [eapply (rooms_bind 1 1); [done|intros _; no_room]|]. left. split_and!; try done.
    eapply owned_del; [|done|done]. by eapply owned_live_eq.
  - replace (name =? NULL) with false by lia. unfold put_lock. wps_step. exists h2.
    split; [eapply (rooms_bind 1 1); [done|intros _; by eapply rooms_mono]|]. right.
    split; [done|]. exists name. split; [|done]. rewrite (Permutation_swap name e). by eapply owned_new.
Qed.

Lemma lock_destroy_spec k s e x B :
  srep k s → e ≠ NULL → k_locks k !! e = Some x → (∀ t, t ∈ s_sleep s → sleeps_on k e t = false) →
  owned (k_heap k) (e :: lock_name x :: B) →
  wps (lock_destroy e) k (λ _ k', ∃ h', k' = set_locks (delete e (k_locks k)) (set_heap h' k) ∧ owned h' B).
Proof.
  intros Hrep He Hx Hns Ho. unfold lock_destroy. wps_step. unfold k_splhigh. apply wps_splx.
  rewrite wps_bind. eapply wps_mono; [apply (thread_hassleepers_spec e (set_spl SPL_HIGH k) s)|].
  { destruct Hrep. by constructor. }
  { done. }
  intros n k1 [-> ->]. rewrite bool_decide_false.
  2: { rewrite Exists_exists. intros (t & Ht & Hs). specialize (Hns t Ht). unfold sleeps_on in *. simpl in Hs. congruence. }
  wps_step. apply wps_splx. rewrite wps_bind. unfold get_lock. unfold wps at 1. simpl. rewrite Hx, wp_ok. simpl.
  pose proof Ho as (Hi & _ & Hl).
  wps_call wps_kfree; [done|apply Hl; set_solver|]. intros [] k2 (h2 & -> & Hi2 & Hl2). simpl in *.
  assert (Ho2 : owned h2 (e :: B)) by (rewrite Permutation_swap in Ho; by eapply owned_del).
  wps_call wps_kfree; [done|apply Ho2; set_solver|]. intros [] k3 (h3 & -> & Hi3 & Hl3). wps_step. simpl in *.
  exists h3. split; [by destruct k|]. by eapply owned_del.
Qed.
End locks.

(** ** The vnodes in memory *)

Definition lkname (L : gmap Z lock) (v : vnode) : Z :=
  match L !! vn_countlock v with Some x => lock_name x | None => NULL end.
Definition node_blocks (L : gmap Z lock) (x : Z * sfs_vnode) : list Z :=
  [x.1; vn_countlock (sv_v x.2); lkname L (sv_v x.2)].
Definition nblks (L : gmap Z lock) (vs : list (Z * sfs_vnode)) : list Z := mjoin (node_blocks L <$> vs).

Lemma nblks_app L vs vs' : nblks L (vs ++ vs') = nblks L vs ++ nblks L vs'.
Proof. unfold nblks. by rewrite fmap_app, join_app. Qed.
Lemma nblks_cons L x vs : nblks L (x :: vs) = node_blocks L x ++ nblks L vs.
Proof. done. Qed.

Lemma elem_of_nblks L vs b : b ∈ nblks L vs ↔ ∃ p sv, (p, sv) ∈ vs ∧ b ∈ node_blocks L (p, sv).
Proof.
  unfold nblks. rewrite list_elem_of_join. split.
  - intros (l & Hb & ([p sv] & -> & Hin)%list_elem_of_fmap). by exists p, sv.
  - intros (p & sv & Hin & Hb). exists (node_blocks L (p, sv)). split; [done|].
    apply list_elem_of_fmap. by exists (p, sv).
Qed.

Lemma nblks_ext L L' vs :
  (∀ p sv, (p, sv) ∈ vs → lkname L' (sv_v sv) = lkname L (sv_v sv)) → nblks L' vs = nblks L vs.
Proof.
  intros He. unfold nblks. f_equal. apply list_fmap_ext. intros n [p sv] Hn. unfold node_blocks. simpl.
  by rewrite (He p) by (by eapply list_elem_of_lookup_2).
Qed.

Record outside := Outside { o_outer :> outer; o_open : Z → Z; o_super : sfs_super }.

Section nodes.
Context {H : Type} `{KHeapLaws H}.
Variable U : usermem.
Implicit Types (k : kst H sfs_fs) (B : outside).

Record nodes k s (vs : list (Z * sfs_vnode)) B : Prop := Nodes {
  nd_rep : srep k s;
  nd_int : k_inint k = 0;
  nd_null : k_locks k !! NULL = None;
  nd_locks : ∀ p sv, (p, sv) ∈ vs → ∃ n, k_locks k !! vn_countlock (sv_v sv) = Some (Lock n 1);
  nd_arr : array_rep (sfs_vnodes (k_env k)) vs.*1;
  nd_own : owned (k_heap k) (arr_blocks (sfs_vnodes (k_env k)) ++ nblks (k_locks k) vs ++ B);
  nd_sleep : ∀ t th, t ∈ s_sleep s → k_threads k !! t = Some th → t_sleepaddr th ∈ o_blocks B;
  nd_threads : k_threads k = o_threads B;
  nd_out : ∀ b, b ∈ o_blocks B → k_locks k !! b = o_locks B !! b;
}.

(** The open counts do not matter here. *)
Lemma nodes_outer k s vs B B' : nodes k s vs B → o_outer B' = o_outer B → nodes k s vs B'.
Proof. intros [] He. constructor; rewrite ?He; done. Qed.

(** The scheduler does not look at the heap, the locks or the volume. *)
Lemma srep_fs k s h L e : srep k s → srep (set_env e (set_locks L (set_heap h k))) s.
Proof. intros []. by constructor. Qed.

Lemma sleeper_in k s (B : list Z) t a :
  (∀ t th, t ∈ s_sleep s → k_threads k !! t = Some th → t_sleepaddr th ∈ B) → a ∉ B →
  t ∈ s_sleep s → sleeps_on k a t = false.
Proof.
  intros Hs Ha Ht. unfold sleeps_on. destruct (k_threads k !! t) as [th|] eqn:E; [|done].
  apply Z.eqb_neq. intros <-. by apply Ha, (Hs t).
Qed.

Lemma nodes_quiet k s vs B p sv t :
  nodes k s vs B → (p, sv) ∈ vs → t ∈ s_sleep s → sleeps_on k (vn_countlock (sv_v sv)) t = false.
Proof.
  intros Hn Hp Ht. eapply sleeper_in; [apply Hn| |done].
  destruct (nd_own _ _ _ _ Hn) as (_ & Hnd & _). apply NoDup_app in Hnd as (_ & _ & Hnd).
  apply NoDup_app in Hnd as (_ & Hd & _). apply Hd. apply elem_of_nblks. exists p, sv.
  split; [done|]. unfold node_blocks. simpl. set_solver.
Qed.

Lemma nodes_ptr k s vs B p sv : nodes k s vs B → (p, sv) ∈ vs →
  p ≠ NULL ∧ p ≠ DEADBEEF ∧ vn_countlock (sv_v sv) ≠ NULL.
Proof.
  intros Hn Hp. destruct (nd_own _ _ _ _ Hn) as (Hi & _ & Hl).
  assert (∀ b, b ∈ node_blocks (k_locks k) (p, sv) → b ∈ kh_live (k_heap k)) as Hb.
  { intros b Hb. apply Hl. rewrite !elem_of_app. right. left. apply elem_of_nblks. by exists p, sv. }
  pose proof (kh_live_nonnull _ Hi) as Hn0. pose proof (kh_live_nodead _ Hi) as Hd0. unfold node_blocks in Hb. simpl in Hb.
  split_and!; intros Heq; [apply Hn0|apply Hd0|apply Hn0]; rewrite <- Heq; apply Hb; set_solver.
Qed.

(** A part guarded by the count lock of a vnode that changes the volume only. *)
Lemma unlock_ok k s vs B p sv n e L Φ :
  nodes k s vs B → (p, sv) ∈ vs → L = <[vn_countlock (sv_v sv) := Lock n 0]> (k_locks k) →
  k_locks k !! vn_countlock (sv_v sv) = Some (Lock n 1) →
  Φ tt (set_env e k) → wps (lock_release (vn_countlock (sv_v sv))) (set_env e (set_locks L k)) Φ.
Proof.
  intros Hn Hp -> Hlk HΦ. destruct (nodes_ptr _ _ _ _ _ _ Hn Hp) as (_ & _ & Hl0).
  eapply (release_quiet _ s); [|done|by apply lookup_insert_eq| |].
  - destruct (nd_rep _ _ _ _ Hn). by constructor.
  - intros t Ht. by apply (nodes_quiet k s vs B p sv).
  - ksimpl. rewrite insert_insert_eq, insert_id by done. by destruct k.
Qed.

Lemma getv_ok k p sv Φ : sfs_mem (k_env k) !! p = Some sv → Φ sv k → wps (getv p) k Φ.
Proof.
  intros Hm HΦ. unfold getv, inF. rewrite wps_zoom. unfold get_vn. rewrite Hm. wp_val. by destruct k.
Qed.

Lemma inF_ok {A} (m : F A) k Φ : wps m (k_env k) (λ a f, Φ a (set_env f k)) → wps (inF m) k Φ.
Proof. intros Hm. unfold inF. rewrite wps_zoom. eapply wp_mono; [exact Hm|]. by intros [a f]. Qed.

(** ** Reference counts *)

(** A vnode with another reference count. *)
Definition recount (n : Z) (sv : sfs_vnode) : sfs_vnode := sv_set_v (v_set_refcount n (sv_v sv)) sv.
Definition reopen (n : Z) (sv : sfs_vnode) : sfs_vnode := sv_set_v (v_set_opencount n (sv_v sv)) sv.

Lemma nodes_env k s vs1 p sv sv' vs2 B f' :
  nodes k s (vs1 ++ (p, sv) :: vs2) B → vn_countlock (sv_v sv') = vn_countlock (sv_v sv) →
  sfs_vnodes f' = sfs_vnodes (k_env k) → nodes (set_env f' k) s (vs1 ++ (p, sv') :: vs2) B.
Proof.
  intros [Hr Hi Hn Hl Ha Ho Hs Ht Hout] Hc Hv. rewrite fmap_app in Ha. rewrite nblks_app, nblks_cons in Ho.
  constructor; ksimpl; rewrite ?Hv; try done.
  - destruct Hr. by constructor.
  - intros q svq [[= -> ->]|Hq]%elem_of_this.
    + rewrite Hc. apply (Hl p). apply elem_of_app. right. constructor.
    + by apply (Hl q), elem_of_others.
  - by rewrite fmap_app.
  - rewrite nblks_app, nblks_cons. unfold node_blocks, lkname in *. simpl in *. by rewrite Hc.
Qed.

Section one.
Context (k : kst H sfs_fs) (s : sched) (vs : list (Z * sfs_vnode)) (B : outside) (p : Z) (sv : sfs_vnode).
Hypothesis Hn : nodes k s vs B.
Hypothesis Hp : (p, sv) ∈ vs.
Hypothesis Hm : sfs_mem (k_env k) !! p = Some sv.

(** Between [acquire] and [lock_release]. *)
Lemma guarded {A} (m : stm (kst H sfs_fs) A) (rest : A → stm (kst H sfs_fs) unit) g e Φ :
  (∀ L, wps m (set_locks L k) (λ a k', k' = set_env e (set_locks L k) ∧ a = g)) →
  Φ tt (set_env e k) → (rest = λ _, lock_release (vn_countlock (sv_v sv))) →
  wps (_ ← acquire (vn_countlock (sv_v sv)); a ← m; rest a) k Φ.
Proof using Hn Hp.
  intros Hbody HΦ ->. destruct (nd_locks _ _ _ _ Hn p sv Hp) as [n Hlk].
  destruct (nodes_ptr _ _ _ _ _ _ Hn Hp) as (_ & _ & Hl0).
  rewrite wps_bind. eapply acquire_ok; [apply Hn|done|done|]. rewrite wps_bind.
  eapply wps_mono; [apply Hbody|]. intros a k' [-> ->]. by eapply unlock_ok.
Qed.

Lemma upd_vnode_ok L g Φ :
  Φ tt (set_env (retag p (sv_set_v (g (sv_v sv)) sv) (k_env k)) (set_locks L k)) →
  wps (upd_vnode p g) (set_locks L k) Φ.
Proof using Hm.
  intros HΦ. unfold upd_vnode. apply inF_ok. rewrite wps_bind. eapply get_vn_ok; [done|]. unfold put_vn. by wps_step.
Qed.

Lemma incref_ok Φ :
  1 ≤ vn_refcount (sv_v sv) < 2 ^ 31 - 1 →
  Φ tt (set_env (retag p (recount (vn_refcount (sv_v sv) + 1) sv) (k_env k)) k) → wps (vnode_incref p) k Φ.
Proof using Hn Hp Hm.
  intros Hr HΦ. destruct (nodes_ptr _ _ _ _ _ _ Hn Hp) as (Hp0 & _). unfold vnode_incref. wps_step.
  eapply getv_ok; [done|]. eapply guarded; [|exact HΦ|done]. intros L. apply upd_vnode_ok.
  by rewrite s32_id by in_range.
Qed.

Lemma check_ok reclaim Φ :
  vn_ops (sv_v sv) ≠ None → 1 ≤ vn_refcount (sv_v sv) → 0 ≤ vn_opencount (sv_v sv) →
  Φ tt k → wps (vnode_check reclaim p) k Φ.
Proof using Hn Hp Hm.
  intros Hops Hr Ho HΦ. destruct (nodes_ptr _ _ _ _ _ _ Hn Hp) as (Hp0 & Hpd & Hl0).
  destruct (nd_locks _ _ _ _ Hn p sv Hp) as [n Hlk].
  unfold vnode_check. replace ((p =? NULL) || (p =? DEADBEEF)) with false by lia. wps_step. eapply getv_ok; [done|].
  destruct (vn_ops (sv_v sv)); [|done]. rewrite wps_bind. eapply acquire_ok; [apply Hn|done|done|].
  wps_step. eapply getv_ok; [done|].
  replace (vn_refcount (sv_v sv) <? 0) with false by lia. replace (vn_refcount (sv_v sv) =? 0) with false by lia.
  replace (vn_opencount (sv_v sv) <? 0) with false by lia. cbn [andb].
  replace (set_locks (<[vn_countlock (sv_v sv) := Lock n 0]> (k_locks k)) k)
    with (set_env (k_env k) (set_locks (<[vn_countlock (sv_v sv) := Lock n 0]> (k_locks k)) k)) by (by destruct k).
  eapply unlock_ok; [done|done|done|done|]. by destruct k.
Qed.

Lemma decref_ok Φ :
  1 < vn_refcount (sv_v sv) →
  Φ tt (set_env (retag p (recount (vn_refcount (sv_v sv) - 1) sv) (k_env k)) k) → wps (vnode_decref U p) k Φ.
Proof using Hn Hp Hm.
  intros Hr HΦ. destruct (nodes_ptr _ _ _ _ _ _ Hn Hp) as (Hp0 & _ & Hl0).
  destruct (nd_locks _ _ _ _ Hn p sv Hp) as [n Hlk]. unfold vnode_decref. wps_step. eapply getv_ok; [done|].
  rewrite wps_bind. eapply acquire_ok; [apply Hn|done|done|]. wps_step. eapply getv_ok; [done|]. wps_step.
  replace (vn_refcount (sv_v sv) >? 1) with true by lia. apply upd_vnode_ok. rewrite wps_bind.
  eapply unlock_ok; [done|done|done|done|]. by wps_step.
Qed.

Lemma decref_last_ok Φ :
  vn_refcount (sv_v sv) = 1 → wps (VOP_RECLAIM U p) k (λ _, Φ tt) → wps (vnode_decref U p) k Φ.
Proof using Hn Hp Hm.
  intros Hr HΦ. destruct (nodes_ptr _ _ _ _ _ _ Hn Hp) as (Hp0 & _ & Hl0).
  destruct (nd_locks _ _ _ _ Hn p sv Hp) as [n Hlk]. unfold vnode_decref. wps_step. eapply getv_ok; [done|].
  rewrite wps_bind. eapply acquire_ok; [apply Hn|done|done|]. wps_step. eapply getv_ok; [done|]. rewrite Hr. wps_step.
  change (1 >? 1) with false. cbv iota. wps_step.
  replace (set_locks (<[vn_countlock (sv_v sv) := Lock n 0]> (k_locks k)) k)
    with (set_env (k_env k) (set_locks (<[vn_countlock (sv_v sv) := Lock n 0]> (k_locks k)) k)) by (by destruct k).
  eapply unlock_ok; [done|done|done|done|]. replace (set_env (k_env k) k) with k by (by destruct k).
  wps_step. eapply wps_mono; [exact HΦ|]. intros a k'. by wps_step.
Qed.

(** Calls through the table. *)
Lemma VOP__ok {A} (m : F A) Φ :
  vn_ops (sv_v sv) ≠ None → 1 ≤ vn_refcount (sv_v sv) → 0 ≤ vn_opencount (sv_v sv) →
  wps m (k_env k) (λ a f, Φ a (set_env f k)) → wps (VOP_ p m) k Φ.
Proof using Hn Hp Hm. intros Ho Hr Hc Hw. unfold VOP_. rewrite wps_bind. apply check_ok; [done..|]. by apply inF_ok. Qed.

Lemma VOP_file_ok {A} reclaim (m1 m2 : stm (kst H sfs_fs) A) Φ :
  vn_ops (sv_v sv) = Some FileOps → 1 ≤ vn_refcount (sv_v sv) → 0 ≤ vn_opencount (sv_v sv) →
  wps m1 k Φ → wps (__VOP reclaim p m1 m2) k Φ.
Proof using Hn Hp Hm.
  intros Ho Hr Hc Hw. unfold __VOP. rewrite wps_bind. apply check_ok; [congruence|done|done|].
  rewrite wps_bind. eapply getv_ok; [done|]. by rewrite Ho.
Qed.

Lemma VOP_dir_ok {A} reclaim (m1 m2 : stm (kst H sfs_fs) A) Φ :
  vn_ops (sv_v sv) = Some DirOps → 1 ≤ vn_refcount (sv_v sv) → 0 ≤ vn_opencount (sv_v sv) →
  wps m2 k Φ → wps (__VOP reclaim p m1 m2) k Φ.
Proof using Hn Hp Hm.
  intros Ho Hr Hc Hw. unfold __VOP. rewrite wps_bind. apply check_ok; [congruence|done|done|].
  rewrite wps_bind. eapply getv_ok; [done|]. by rewrite Ho.
Qed.
End one.
End nodes.

(** * Loading and discarding vnodes

    [fsk k s vs us O B]: the kernel [k] has the volume with the loaded vnodes [vs] and the files
    [us] on disk only; the loaded vnodes are in memory with their counts and locks. *)

From S2P Require Import Prelude StateM Heap KArray KBitmap Coremap KState Thread ThreadSpec ThreadHeap Synch SynchSpec Owned.
From S2P Require Import ProcSpec Uio SfsDisk Sfs SfsBytes SfsSpec SfsIo SfsDirs SfsTrunc SfsVolume SfsTree SfsNode.

Section load.
Context {H : Type} `{KHeapLaws H}.
Variable U : usermem.
Implicit Types (k : kst H sfs_fs) (vs : list (Z * sfs_vnode)) (us : list (Z * sfs_inode)) (B : outside).

(** The counts of a vnode. *)
Definition counted B (p : Z) (sv : sfs_vnode) : Prop :=
  1 ≤ vn_refcount (sv_v sv) ∧ vn_opencount (sv_v sv) = o_open B p ∧ 0 ≤ o_open B p.

Record fsk k s vs us (O : list Z) B : Prop := Fsk {
  fk_nodes : nodes k s vs B;
  fk_vol : fsvol (k_env k) vs us O;
  fk_cnt : ∀ p sv, (p, sv) ∈ vs → counted B p sv;
  fk_zero : ∀ p, p ∉ vs.*1 → o_open B p = 0;
}.

Lemma fsk_mem k s vs us O B p sv : fsk k s vs us O B → (p, sv) ∈ vs → sfs_mem (k_env k) !! p = Some sv.
Proof. intros Hk Hp. by apply (fsvol_mem _ _ _ _ _ _ (fk_vol _ _ _ _ _ _ Hk)). Qed.

(** Only the table and the vnodes in memory change. *)
Definition in_memory (f f' : sfs_fs) : Prop := ∃ a m, f' = set_vnodes a (set_mem m f).

Lemma in_memory_refl f : in_memory f f.
Proof. exists (sfs_vnodes f), (sfs_mem f). by destruct f. Qed.
Lemma in_memory_trans f f1 f2 : in_memory f f1 → in_memory f1 f2 → in_memory f f2.
Proof. intros (a & m & ->) (a' & m' & ->). exists a', m'. by destruct f. Qed.
Lemma in_memory_still f f' i : in_memory f f' → still f f' i.
Proof. by intros (a & m & ->). Qed.

(** ** The searches *)

Lemma find_loaded_spec f vs us O ino :
  fsvol f vs us O → array_rep (sfs_vnodes f) vs.*1 →
  wps (find_loaded ino) f (λ r f', f' = f ∧
    match r with Some p => ∃ sv, (p, sv) ∈ vs ∧ sv_ino sv = ino | None => ino ∉ inos vs end).
Proof.
  intros Hv Har. unfold find_loaded. wps_step. pose proof (proj1 Har) as Hn. rewrite length_fmap in Hn.
  unfold array_getnum.
  apply (wps_mwhile (λ n i f', f' = f ∧ 0 ≤ i ≤ a_num (sfs_vnodes f) ∧ n = Z.to_nat (a_num (sfs_vnodes f) - i) ∧
    ino ∉ inos (take (Z.to_nat i) vs)) _ (Z.to_nat (a_num (sfs_vnodes f)))).
  { split_and!; [done|lia|lia|f_equal; lia|]. simpl. apply not_elem_of_nil. }
  { lia. }
  intros n i f' (-> & Hi & -> & Hno). destruct (i <? a_num (sfs_vnodes f)) eqn:E1.
  2: { wps_step. split; [done|]. by rewrite take_ge in Hno by lia. }
  destruct (lookup_lt_is_Some_2 vs (Z.to_nat i)) as [[p sv] Hx]; [lia|].
  pose proof (list_elem_of_lookup_2 _ _ _ Hx) as Hin.
  rewrite wps_bind, wps_lift. eapply wp_of_eq; [apply (array_getguy_spec _ _ _ p Har); [lia|by rewrite list_lookup_fmap, Hx]|].
  rewrite wps_bind. eapply get_vn_ok; [by apply (fsvol_mem _ _ _ _ _ _ Hv)|].
  destruct (inode_range f vs us O (sv_ino sv) (sv_i sv) Hv) as [Hr Hu].
  { apply elem_of_app. left. apply elem_of_numbered. eauto. }
  rewrite wps_bind. apply bused_spec; [apply Hv|lia|]. intros r Hru. rewrite Hu in Hru. rewrite Hru. cbn [negb].
  destruct (sv_ino sv =? ino) eqn:E2.
  - wps_step. split; [done|]. exists sv. split; [done|lia].
  - wps_step. exists (Z.to_nat (a_num (sfs_vnodes f) - (i + 1))). split; [lia|]. split_and!; try (done || lia).
    replace (Z.to_nat (i + 1)) with (S (Z.to_nat i)) by lia. rewrite (take_S_r _ _ _ Hx). unfold inos.
    rewrite fmap_app, elem_of_app. simpl. rewrite list_elem_of_singleton. intros [?|?]; [done|lia].
Qed.

Lemma vnode_index_spec f vs1 p sv vs2 :
  array_rep (sfs_vnodes f) (vs1 ++ (p, sv) :: vs2).*1 → NoDup (vs1 ++ (p, sv) :: vs2).*1 →
  wps (vnode_index p) f (λ r f', f' = f ∧ r = Some (Z.of_nat (length vs1))).
Proof.
  intros Har Hnd. unfold vnode_index. wps_step. pose proof (proj1 Har) as Hn. rewrite length_fmap, length_app in Hn.
  simpl in Hn. unfold array_getnum.
  apply (wps_mwhile (λ n i f', f' = f ∧ 0 ≤ i ≤ Z.of_nat (length vs1) ∧ n = Z.to_nat (a_num (sfs_vnodes f) - i)) _
    (Z.to_nat (a_num (sfs_vnodes f)))).
  { split_and!; [done|lia|lia|f_equal; lia]. }
  { lia. }
  intros n i f' (-> & Hi & ->). replace (i <? a_num (sfs_vnodes f)) with true by lia.
  destruct (lookup_lt_is_Some_2 (vs1 ++ (p, sv) :: vs2) (Z.to_nat i)) as [[q svq] Hx]; [rewrite length_app; simpl; lia|].
  rewrite wps_bind, wps_lift. eapply wp_of_eq; [apply (array_getguy_spec _ _ _ q Har); [lia|by rewrite list_lookup_fmap, Hx]|].
  assert (Hp : (vs1 ++ (p, sv) :: vs2).*1 !! length vs1 = Some p).
  { rewrite list_lookup_fmap, lookup_app_r, Nat.sub_diag by lia. done. }
  destruct (q =? p) eqn:E2; wps_step.
  - split; [done|]. do 2 f_equal. apply Z.eqb_eq in E2 as ->.
    assert (Hq : (vs1 ++ (p, sv) :: vs2).*1 !! Z.to_nat i = Some p) by (by rewrite list_lookup_fmap, Hx).
    pose proof (proj1 (NoDup_alt _) Hnd _ _ _ Hp Hq). lia.
  - exists (Z.to_nat (a_num (sfs_vnodes f) - (i + 1))). split; [lia|]. split_and!; try (done || lia).
    destruct (decide (i = Z.of_nat (length vs1))) as [->|]; [|lia]. rewrite Nat2Z.id, lookup_app_r, Nat.sub_diag in Hx by lia.
    injection Hx as -> _. lia.
Qed.

(** ** The vnodes in memory, rebuilt *)

Lemma nodes_build k s vs B vs' h L e :
  nodes k s vs B → L !! NULL = None →
  (∀ p sv, (p, sv) ∈ vs' → ∃ n, L !! vn_countlock (sv_v sv) = Some (Lock n 1)) →
  array_rep (sfs_vnodes e) vs'.*1 → owned h (arr_blocks (sfs_vnodes e) ++ nblks L vs' ++ B) →
  (∀ b, b ∈ o_blocks B → L !! b = k_locks k !! b) →
  nodes (set_env e (set_locks L (set_heap h k))) s vs' B.
Proof. intros [] ? ? ? ? Hout. constructor; try done; [by apply srep_fs|]. intros b Hb. ksimpl. rewrite Hout by done. auto. Qed.

(** A table of locks that differs at [lk] only. *)
Lemma locks_frame (L L' : gmap Z lock) lk vs :
  (∀ l, l ≠ lk → L' !! l = L !! l) → lk ∉ nblks L vs →
  (∀ p sv, (p, sv) ∈ vs → L' !! vn_countlock (sv_v sv) = L !! vn_countlock (sv_v sv)) ∧ nblks L' vs = nblks L vs.
Proof.
  intros HL Hlk. assert (∀ p sv, (p, sv) ∈ vs → L' !! vn_countlock (sv_v sv) = L !! vn_countlock (sv_v sv)) as He.
  { intros p sv Hin. apply HL. intros Heq. apply Hlk, elem_of_nblks. exists p, sv. split; [done|].
    unfold node_blocks. simpl. set_solver. }
  split; [done|]. apply nblks_ext. intros p sv Hin. unfold lkname. by rewrite (He p sv Hin).
Qed.

Lemma nodes_frame k s vs B h lk L :
  nodes k s vs B → (∀ l, l ≠ lk → L !! l = k_locks k !! l) → L !! NULL = None → lk ∉ nblks (k_locks k) vs ++ B →
  ∀ e, sfs_vnodes e = sfs_vnodes (k_env k) →
  owned h (arr_blocks (sfs_vnodes (k_env k)) ++ nblks (k_locks k) vs ++ B) →
  nodes (set_env e (set_locks L (set_heap h k))) s vs B.
Proof.
  intros Hn HL Hnull [Hlk HlB]%not_elem_of_app e He Ho. destruct (locks_frame _ _ _ _ HL Hlk) as [Hl Hb].
  apply (nodes_build k s vs B); rewrite ?He, ?Hb; try done; [|apply Hn|].
  - intros p sv Hin. rewrite (Hl p sv Hin). by apply (nd_locks _ _ _ _ Hn p).
  - intros b Hin. apply HL. by intros ->.
Qed.

(** One more vnode at the end of the table. *)
Lemma nodes_snoc k s vs B h lk name L e p sv :
  nodes k s vs B → L = <[lk := Lock name 1]> (k_locks k) → lk ≠ NULL → vn_countlock (sv_v sv) = lk →
  array_rep (sfs_vnodes e) (vs.*1 ++ [p]) →
  owned h (arr_blocks (sfs_vnodes e) ++ lk :: name :: p :: nblks (k_locks k) vs ++ B) →
  nodes (set_env e (set_locks L (set_heap h k))) s (vs ++ [(p, sv)]) B.
Proof.
  intros Hn -> Hlk Hc Har Ho.
  assert (lk ∉ nblks (k_locks k) vs ∧ lk ∉ o_blocks B) as [Hni HnB].
  { destruct Ho as (_ & Hnd & _). apply NoDup_app in Hnd as (_ & _ & Hnd). apply NoDup_cons in Hnd as [Hni _].
    split; intros Hin; apply Hni; rewrite !elem_of_cons, elem_of_app; auto. }
  destruct (locks_frame (k_locks k) (<[lk := Lock name 1]> (k_locks k)) lk vs) as [Hl Hb]; [|done|].
  { intros l Hne. by rewrite lookup_insert_ne. }
  apply (nodes_build k s vs B); [done| | | | |].
  - rewrite lookup_insert_ne by done. apply Hn.
  - intros q svq [Hin|[= -> ->]%list_elem_of_singleton]%elem_of_app.
    + rewrite (Hl q svq Hin). by apply (nd_locks _ _ _ _ Hn q).
    + rewrite Hc, lookup_insert_eq. by exists name.
  - by rewrite fmap_app.
  - rewrite nblks_app, Hb. unfold nblks at 2, node_blocks, lkname. simpl. rewrite Hc, lookup_insert_eq. simpl.
    eapply owned_perm; [|exact Ho]. apply Permutation_app_head. rewrite <- app_assoc. simpl.
    solve_Permutation.
  - intros b Hin. rewrite lookup_insert_ne; [done|]. by intros <-.
Qed.
End load.

Section install_vnode.
Context {H : Type} `{KHeapLaws H}.
Variable U : usermem.
Implicit Types (k : kst H sfs_fs) (vs : list (Z * sfs_vnode)) (us : list (Z * sfs_inode)).
Hypothesis Hroom : SFS_VNODE_SIZE < kh_max.

(** ** Installing a vnode *)

Definition mk_node (lk : Z) (ops : vops) (i : sfs_inode) (ino dirty : Z) : sfs_vnode :=
  SVnode (Vnode 1 0 lk (Some ops)) i ino dirty.

Lemma retag_retag p sv sv' (f : sfs_fs) : retag p sv' (retag p sv f) = retag p sv' f.
Proof. unfold retag. destruct f. simpl. by rewrite insert_insert_eq. Qed.

Lemma upd_ok k p sv g Φ :
  sfs_mem (k_env k) !! p = Some sv → Φ tt (set_env (retag p (sv_set_v (g (sv_v sv)) sv) (k_env k)) k) →
  wps (upd_vnode p g) k Φ.
Proof.
  intros Hm HΦ. unfold upd_vnode. apply inF_ok. rewrite wps_bind. eapply get_vn_ok; [done|]. unfold put_vn. by wps_step.
Qed.

Lemma vnode_init_spec k p sv ops C :
  p ≠ NULL → sfs_mem (k_env k) !! p = Some sv → owned (k_heap k) C →
  wps (vnode_init p ops) k (λ r k', ∃ h', rooms 2 (k_heap k) (r = 0) h' ∧
    ((r = ENOMEM ∧ owned h' C ∧ ∃ v, k' = set_env (retag p (sv_set_v v sv) (k_env k)) (set_heap h' k)) ∨
     (r = 0 ∧ ∃ lk name, lk ≠ NULL ∧ owned h' (lk :: name :: C) ∧
        k' = set_env (retag p (sv_set_v (Vnode 1 0 lk (Some ops)) sv) (k_env k))
               (set_locks (<[lk := Lock name 1]> (k_locks k)) (set_heap h' k))))).
Proof using Hroom.
  intros Hp Hm Ho. unfold vnode_init. wps_step. eapply upd_ok; [done|]. unfold SFS_VNODE_SIZE in Hroom.
  wps_call lock_create_spec; [exact Ho|lia|lia|lia|].
  intros lk k1 (h1 & Hr1 & [(-> & -> & Ho1)|(Hlk & name & Ho1 & ->)]); rewrite wps_bind.
  - eapply upd_ok; [by apply lookup_insert_eq|]. ksimpl. rewrite retag_retag. wps_step. exists h1. split; [no_room|]. left.
    split_and!; [done|done|]. eexists. done.
  - eapply upd_ok; [by apply lookup_insert_eq|]. ksimpl. rewrite retag_retag. wps_step.
    replace (lk =? NULL) with false by lia. exists h1. split; [by eapply rooms_mono|]. right. split; [done|]. exists lk, name. done.
Qed.

Lemma vnode_kill_spec k s p sv x C :
  srep k s → sfs_mem (k_env k) !! p = Some sv → vn_refcount (sv_v sv) = 1 → vn_opencount (sv_v sv) = 0 →
  vn_countlock (sv_v sv) ≠ NULL → k_locks k !! vn_countlock (sv_v sv) = Some x →
  (∀ t, t ∈ s_sleep s → sleeps_on k (vn_countlock (sv_v sv)) t = false) →
  owned (k_heap k) (vn_countlock (sv_v sv) :: lock_name x :: C) →
  wps (vnode_kill p) k (λ _ k', ∃ h' v, owned h' C ∧
    k' = set_env (retag p (sv_set_v v sv) (k_env k))
           (set_locks (delete (vn_countlock (sv_v sv)) (k_locks k)) (set_heap h' k))).
Proof.
  intros Hr Hm H1' H0' Hl Hx Hq Ho. unfold vnode_kill. rewrite wps_bind. eapply getv_ok; [done|]. rewrite H1', H0'. wps_step.
  wps_call (lock_destroy_spec k s _ x C); [done|done|done|done|done|]. intros [] k1 (h1 & -> & Ho1).
  eapply upd_ok; [done|]. exists h1. eexists. split; [done|]. by destruct k.
Qed.

Lemma free_vnode_spec k p C :
  owned (k_heap k) (p :: C) →
  wps (free_vnode p) k (λ _ k', ∃ h', owned h' C ∧
    k' = set_env (set_mem (delete p (sfs_mem (k_env k))) (k_env k)) (set_heap h' k)).
Proof.
  intros Ho. unfold free_vnode. wps_call wps_kfree; [apply Ho|apply Ho; by constructor|].
  intros [] k1 (h1 & -> & Hi1 & Hl1). apply inF_ok. wps_step. exists h1. split; [by eapply owned_del|done].
Qed.

Lemma forget_retag p sv (f : sfs_fs) :
  set_mem (delete p (sfs_mem (retag p sv f))) (retag p sv f) = set_mem (delete p (sfs_mem f)) f.
Proof. unfold retag. destruct f. simpl. by rewrite delete_insert_eq. Qed.

Lemma vnodes_add_spec k l p C :
  array_rep (sfs_vnodes (k_env k)) l → owned (k_heap k) (arr_blocks (sfs_vnodes (k_env k)) ++ C) →
  zlen l < 2 ^ 27 → 8 * (zlen l + 1) < kh_max →
  wps (vnodes_add p) k (λ r k', ∃ h' a',
    k' = set_env (set_vnodes a' (k_env k)) (set_heap h' k) ∧ owned h' (arr_blocks a' ++ C) ∧
    ((r = 0 ∧ array_rep a' (l ++ [p])) ∨ (r = ENOMEM ∧ ¬ kh_room 1 (k_heap k) ∧ a' = sfs_vnodes (k_env k)))).
Proof.
  intros Har Ho Hl Hk. unfold vnodes_add. wps_step. rewrite wps_lift.
  eapply wp_mono; [apply (array_add_full _ l); [by eapply owned_array_inv|done|done]|].
  intros [[r a'] h'] Hpost. wps_step. apply inF_ok. wps_step. exists h', a'. split; [by destruct k|].
  destruct Hpost as [[[-> Hkept]|(-> & -> & Hi' & Hl')] Hroom'].
  - split; [by eapply owned_array_kept|]. left. split; [done|]. apply Hkept.
  - split; [by eapply owned_live_eq|]. right. split; [done|]. split; [|done]. by apply (rooms_fail _ _ _ _ Hroom').
Qed.

Definition ops_for (i : sfs_inode) (ops : vops) : Prop :=
  (sfi_type i = SFS_TYPE_FILE ∧ ops = FileOps) ∨ (sfi_type i = SFS_TYPE_DIR ∧ ops = DirOps).

Section install.
Context (k : kst H sfs_fs) (s : sched) (vs : list (Z * sfs_vnode)) (B : outside) (p ino dirty : Z) (i : sfs_inode) (ops : vops).
Hypothesis Hn : nodes k s vs B.
Hypothesis Ho : owned (k_heap k) (p :: arr_blocks (sfs_vnodes (k_env k)) ++ nblks (k_locks k) vs ++ B).
Hypothesis Hops : ops_for i ops.
Hypothesis Hlen : zlen vs < 2 ^ 27.
Hypothesis Hmax : 8 * (zlen vs + 1) < kh_max.
Abbreviation f := (k_env k).

(** The answers: ENOMEM only when memory is [short]. *)
Definition installed (short : Prop) (r : Z * Z) k' : Prop :=
  (r = (ENOMEM, NULL) ∧ short ∧ nodes k' s vs B ∧ k_env k' = set_mem (delete p (sfs_mem f)) f) ∨
  (r = (0, p) ∧ ∃ lk a, nodes k' s (vs ++ [(p, mk_node lk ops i ino dirty)]) B ∧
     k_env k' = set_vnodes a (retag p (mk_node lk ops i ino dirty) f)).

(** The lock exists, the vnode has its number and is put in the table. *)
Lemma enter_spec h lk name :
  lk ≠ NULL → owned h (lk :: name :: p :: arr_blocks (sfs_vnodes f) ++ nblks (k_locks k) vs ++ B) →
  wps (result ← vnodes_add p;
       if negb (result =? 0) then _ ← vnode_kill p; _ ← free_vnode p; mret (result, NULL) else mret (0, p))
    (set_env (retag p (mk_node lk ops i ino dirty) f) (set_locks (<[lk := Lock name 1]> (k_locks k)) (set_heap h k))) (installed (¬ kh_room 1 h)).
Proof using Hn Ho Hops Hlen Hmax Hroom.
  intros Hlk Ho1. rewrite wps_bind.
  eapply wps_mono; [apply (vnodes_add_spec _ vs.*1 p (lk :: name :: p :: nblks (k_locks k) vs ++ B))|].
  { apply Hn. }
  { eapply owned_perm; [|exact Ho1]. ksimpl. unfold retag. fsimpl. solve_Permutation. }
  { by rewrite length_fmap. }
  { by rewrite length_fmap. }
  intros r k1 (h1 & a1 & -> & Ho2 & [[-> Har]|(-> & Hfull & ->)]); cbn [negb Z.eqb].
  - wps_step. right. split; [done|]. exists lk, a1. ksimpl. split; [|done].
    eapply (nodes_snoc k s vs B h1 lk name _ _ p (mk_node lk ops i ino dirty)); [exact Hn|done|done|done|done|done].
  - change (negb (ENOMEM =? 0)) with true. cbv iota. rewrite wps_bind.
    assert (lk ∉ nblks (k_locks k) vs ++ B) as Hni.
    { destruct Ho1 as (_ & Hnd & _). apply NoDup_cons in Hnd as [Hni _]. set_solver. }
    eapply wps_mono; [apply (vnode_kill_spec _ s p (mk_node lk ops i ino dirty) (Lock name 1)
      (p :: arr_blocks (sfs_vnodes f) ++ nblks (k_locks k) vs ++ B))|].
    { destruct (nd_rep _ _ _ _ Hn). by constructor. }
    { ksimpl. unfold retag. fsimpl. by rewrite lookup_insert_eq. }
    { done. }
    { done. }
    { done. }
    { ksimpl. by rewrite lookup_insert_eq. }
    { intros t Ht. apply (sleeper_in k s B); [apply Hn| |done]. set_solver. }
    { ksimpl. eapply owned_perm; [|exact Ho2]. unfold retag. fsimpl. solve_Permutation. }
    intros [] k2 (h2 & v & Ho3 & ->). ksimpl. rewrite wps_bind.
    eapply wps_mono; [by apply free_vnode_spec|]. intros [] k3 (h3 & Ho4 & ->). wps_step. left. split; [done|]. split; [exact Hfull|].
    ksimpl. rewrite forget_retag. unfold retag. split; [|fsimpl; by rewrite delete_insert_eq; destruct (k_env k)].
    apply (nodes_frame k s vs B h3 lk (delete lk (<[lk := Lock name 1]> (k_locks k))) Hn); [|..|done].
    + intros l Hl. by rewrite lookup_delete_ne, lookup_insert_ne by done.
    + rewrite lookup_delete_ne, lookup_insert_ne by done. apply Hn.
    + done.
    + done.
Qed.

Lemma install_spec : wps (install p ino i dirty) k (installed (¬ kh_room 3 (k_heap k))).
Proof using Hn Ho Hops Hlen Hmax Hroom.
  assert (p ≠ NULL) as Hp.
  { intros ->. destruct Ho as (Hi & _ & Hl). apply (kh_live_nonnull _ Hi), Hl. constructor. }
  unfold install. rewrite wps_bind.
  eapply (wps_mono _ _ (λ o k', o = ops ∧ k' = k)).
  { destruct Hops as [[-> ->]|[-> ->]]; by wps_step. }
  intros o k0 [-> ->]. rewrite wps_bind. apply inF_ok. unfold put_vn. wps_step.
  eapply wps_mono; [apply (vnode_init_spec _ p (SVnode (Vnode 0 0 0 None) i 0 dirty))|].
  { done. }
  { ksimpl. fsimpl. by rewrite lookup_insert_eq. }
  { exact Ho. }
  intros r k1 (h1 & Hr1 & [(-> & Ho1 & v & ->)|(-> & lk & name & Hlk & Ho1 & ->)]).
  - change (negb (ENOMEM =? 0)) with true. cbv iota. rewrite wps_bind.
    eapply wps_mono; [by apply free_vnode_spec|]. intros [] k2 (h2 & Ho2 & ->). wps_step. left. split; [done|].
    split; [apply (rooms_fail 3 _ _ _ (rooms_le _ 3 _ _ _ Hr1 ltac:(lia))); done|]. ksimpl. unfold retag. fsimpl. rewrite !delete_insert_eq. split; [|by destruct (k_env k)].
    apply (nodes_frame k s vs B h2 NULL (k_locks k) Hn); try done; [apply Hn|].
    intros Hin. destruct Ho2 as (Hi & _ & Hl). apply (kh_live_nonnull _ Hi), Hl. set_solver.
  - cbn [negb Z.eqb]. cbv iota. rewrite wps_bind. apply inF_ok. rewrite wps_bind.
    eapply get_vn_ok; [ksimpl; unfold retag; fsimpl; by rewrite lookup_insert_eq|]. unfold put_vn. wps_step.
    pose proof (enter_spec h1 lk name Hlk Ho1) as Hen.
    apply (wps_mono _ _ _ (installed (¬ kh_room 3 (k_heap k)))) in Hen.
    2: { intros r k' [(-> & Hfull & Hn')|Hok]; [left|by right]. split_and!; [done| |apply Hn'..].
         intros Hr. apply (Hr1 1%nat) in Hr as [_ Hr]. done. }
    rewrite wps_bind in Hen. unfold retag in *. ksimpl. fsimpl. rewrite !insert_insert_eq. exact Hen.
Qed.
End install.
End install_vnode.
