(* ===== verification/SfsThm.v ===== *)
(** * What the file system promises

    The theorems about SFS files, directories and volumes, each with an example on a small
    formatted volume. *)

From S2P Require Import Prelude StateM Heap KArray KBitmap Uio SfsDisk Sfs SfsBytes SfsSpec SfsIo SfsDirs SfsTrunc SfsVolume.

(** ** A small volume *)

Module Volume.
(** Sixteen blocks: the superblock, the root directory in block 1, the map in block 2, a file whose
    inode is in block 3 and whose first block is block 4, and the first block of the root in
    block 5.  The others are free. *)
Definition file_inode : sfs_inode := Inode 512 SFS_TYPE_FILE 1 (4 :: replicate 14 0) 0 (replicate 110 0).
Definition root_inode : sfs_inode := Inode 64 SFS_TYPE_DIR 1 (5 :: replicate 14 0) 0 (replicate 110 0).
Definition entry : sfs_dir := new_entry 3 [97].
Definition dev : disk :=
  Disk 16 (<[5%nat := dir_bytes entry ++ replicate 448 0]> (<[4%nat := replicate 512 7]> (replicate 16 zero_block))) [].
Definition vfile : sfs_vnode := SVnode (Vnode 1 0 0 (Some FileOps)) file_inode 3 0.
Definition vroot : sfs_vnode := SVnode (Vnode 1 0 0 (Some DirOps)) root_inode 1 0.
Definition vol : sfs_fs :=
  SfsFs 0 (Super SFS_MAGIC 16 (replicate 32 0) (replicate 118 0)) 0 dev (Array 0 0 0 0 [])
    (Bitmap 0 16 0 [63; 0]) 0 (<[100 := vfile]> (<[200 := vroot]> ∅)).
Definition noumem : usermem.
Proof. refine (UserMem 0 (λ _ _, None) _). done. Defined.

Lemma vol_vol_ok : vol_ok vol.
Proof.
  constructor; try done.
  - constructor; [done|done|]. by repeat constructor.
  - split_and!; try done; [repeat constructor; lia|]. intros i Hi. change (8 * zlen [63; 0]) with 16 in Hi. simpl in Hi. lia.
  - intros b Hb. simpl in Hb. lia.
Qed.

Lemma file_inode_wf : inode_wf file_inode.
Proof. constructor; try done; by repeat constructor. Qed.
Lemma root_inode_wf : inode_wf root_inode.
Proof. constructor; try done; by repeat constructor. Qed.

Lemma vfile_file : file vol 100 vfile [1; 2; 3; 5].
Proof.
  constructor; [apply vol_vol_ok|done|apply file_inode_wf|]. change (file_blocks vol (sv_i vfile)) with [4].
  split; [by apply (bool_decide_unpack _)|].
  intros b Hb. repeat (apply elem_of_cons in Hb as [->|Hb]; [done|]). by apply elem_of_nil in Hb.
Qed.

Lemma vroot_dir : dir_ok vol 200 vroot [4; 1; 3; 2].
Proof.
  constructor; [|done|done|by apply (bool_decide_unpack _)|].
  - constructor; [apply vol_vol_ok|done|apply root_inode_wf|]. change (file_blocks vol (sv_i vroot)) with [5].
    split; [by apply (bool_decide_unpack _)|].
    intros b Hb. repeat (apply elem_of_cons in Hb as [->|Hb]; [done|]). by apply elem_of_nil in Hb.
  - apply (bool_decide_unpack (NoDup _)). by vm_compute.
Qed.

Lemma vol_volume : volume vol [(100, vfile); (200, vroot)] [2].
Proof.
  constructor; [apply vol_vol_ok|by apply (bool_decide_unpack _)| |].
  - intros p sv [[= -> ->]|[[= -> ->]|[]%elem_of_nil]%elem_of_cons]%elem_of_cons.
    + split; [done|]. split; [apply file_inode_wf|done].
    + split; [done|]. split; [apply root_inode_wf|]. by apply (node_dir vol vroot 200 [4; 1; 3; 2]); [|apply vroot_dir|apply vroot_dir].
  - change (vblocks vol _ ++ _ ++ _) with [4; 5; 3; 1; 2]. split; [by apply (bool_decide_unpack _)|].
    intros b Hb. repeat (apply elem_of_cons in Hb as [->|Hb]; [done|]). by apply elem_of_nil in Hb.
Qed.
End Volume.

(** ** Files *)

Section files.
Variable U : usermem.

(** A write of [data] at [pos] from a kernel buffer, and a read into [buf]. *)
Definition wuio (data : list Z) (pos : Z) : uio := mk_kuio data KBUF (zlen data) pos UIO_WRITE.
Definition ruio (buf : list Z) (pos : Z) : uio := mk_kuio buf KBUF (zlen buf) pos UIO_READ.

Lemma kuio_ok data pos rw :
  0 ≤ pos → pos + zlen data ≤ 512 * 143 → uio_ok U (mk_kuio data KBUF (zlen data) pos rw).
Proof. intros Hp Hn. unfold mk_kuio, KBUF. constructor; simpl; try lia; done. Qed.

Definition wrote p O sv f (pos : Z) (data : list Z) sv' f' : Prop :=
  fstep p O sv f sv' f' ∧ sfi_size (sv_i sv') = Z.max (sfi_size (sv_i sv)) (pos + zlen data) ∧
  fdata f' (sv_i sv') = splice (fdata f (sv_i sv)) pos data.

Lemma write_data f p sv O data pos :
  file f p sv O → sfi_size (sv_i sv) < 2 ^ 31 → 0 ≤ pos → 0 < zlen data → pos + zlen data ≤ 512 * 143 →
  wps (sfs_io U p (wuio data pos)) f (λ '(r, u') f', ∃ sv',
    (r = 0 ∧ wrote p O sv f pos data sv' f') ∨
    (r = ENOSPC ∧ full f' ∧ ∃ k, wrote p O sv f pos (take k data) sv' f')).
Proof.
  intros Hf Hsz Hp Hn Hmax. eapply wps_mono; [apply (sfs_write_spec U f p sv O); try done; by apply kuio_ok|].
  intros [r u'] f' (sv' & Hst & Hr & Hs & k & Hk & _ & -> & Hd & Hall). exists sv'.
  simpl in Hk, Hd, Hs, Hall. replace (KBUF - KBUF) with 0 in Hd by lia.
  assert (sub data 0 k = take (Z.to_nat k) data) as Hsub by done. rewrite Hsub in Hd.
  assert (zlen (take (Z.to_nat k) data) = k) as Hlk by (lens).
  assert (wrote p O sv f pos (take (Z.to_nat k) data) sv' f') as Hw.
  { split; [done|]. by rewrite Hlk. }
  destruct Hr as [->|[(-> & _ & Hfull)|[(-> & He1 & He2)|[_ Hseg]]]]; [left|right|exfalso|done].
  - split; [done|]. specialize (Hall eq_refl). rewrite take_ge in Hw by lia. done.
  - split; [done|]. split; [done|]. by exists (Z.to_nat k).
  - simpl in He1, He2. lia.
Qed.

Lemma read_data f p sv O buf pos :
  file f p sv O → sfi_size (sv_i sv) < 2 ^ 31 → 0 ≤ pos → 0 < zlen buf → pos + zlen buf ≤ 512 * 143 →
  pos + zlen buf ≤ sfi_size (sv_i sv) →
  wps (sfs_io U p (ruio buf pos)) f (λ '(r, u') f', r = 0 ∧ f' = f ∧ uio_resid u' = 0 ∧
    u_mem u' = sub (fdata f (sv_i sv)) pos (zlen buf)).
Proof.
  intros Hf Hsz Hp Hn Hmax Hend. eapply wps_mono; [apply (sfs_read_spec U f p sv O); try done; by apply kuio_ok|].
  intros [r u'] f' (-> & Hr & k & j & Hkj & Hj & Hlim & -> & Hall).
  assert (avail (sv_i sv) (ruio buf pos) = zlen buf) as Hav by (unfold avail; simpl; lia).
  rewrite Hav in Hj, Hall. simpl in *. replace (KBUF - KBUF) with 0 by lia.
  destruct Hr as [->|[(_ & Hx & _)|[(-> & He1 & He2)|[_ Hseg]]]]; [|done|exfalso; simpl in He1, He2; lia|done].
  specialize (Hall eq_refl). replace j with (zlen buf) by lia. split; [done|]. split; [done|]. split; [lia|].
  pose proof (length_fdata f p sv O Hf) as Hlf.
  apply splice_all, Nat2Z.inj. by rewrite length_sub by lia.
Qed.

(** C9: What is written to a file is read back: a write of any bytes within the largest file either
    succeeds, and then a read of the same range answers those bytes and nothing changes, or it
    stops because the volume is full.  (The disk has no media errors.) *)
Theorem write_then_read f p sv O data buf pos :
  file f p sv O → sfi_size (sv_i sv) < 2 ^ 31 → 0 ≤ pos → 0 < zlen data → pos + zlen data ≤ 512 * 143 →
  length buf = length data →
  wps (sfs_io U p (wuio data pos)) f (λ '(r, _) f',
    (r = 0 ∧ wps (sfs_io U p (ruio buf pos)) f' (λ '(r', u') f'',
       r' = 0 ∧ f'' = f' ∧ uio_resid u' = 0 ∧ u_mem u' = data)) ∨
    (r = ENOSPC ∧ full f')).
Proof.
  intros Hf Hsz Hp Hn Hmax Hbuf. eapply wps_mono; [by apply (write_data f p sv O)|].
  intros [r u'] f' (sv' & [(-> & Hst & Hs & Hd)|(-> & Hfull & _)]); [left|by right].
  split; [done|]. eapply wps_mono; [apply (read_data f' p sv' (O)); [apply Hst|lia|done|lia|lia|lia]|].
  intros [r' u2] f'' (-> & -> & Hr & ->). split; [done|]. split; [done|]. split; [done|].
  rewrite Hd, Hbuf. apply sub_splice_same; [done|]. by rewrite (length_fdata f p sv O).
Qed.
End files.

Lemma write_then_read_witness :
  wps (sfs_io Volume.noumem 100 (wuio [1; 2; 3] 510)) Volume.vol (λ '(r, _) f',
    (r = 0 ∧ wps (sfs_io Volume.noumem 100 (ruio [0; 0; 0] 510)) f' (λ '(r', u') f'',
       r' = 0 ∧ f'' = f' ∧ uio_resid u' = 0 ∧ u_mem u' = [1; 2; 3])) ∨
    (r = ENOSPC ∧ full f')).
Proof.
  apply (write_then_read Volume.noumem Volume.vol 100 Volume.vfile [1; 2; 3; 5]);
    [apply Volume.vfile_file|done|lia|simpl; lia|simpl; lia|done].
Defined.

(** ** Truncation *)

Section truncation.
Variable U : usermem.

(** C29: On a volume without media errors [sfs_truncate] succeeds, sets the length and keeps every block
    below the new end with its contents.  It takes every block past the end out of the file and
    marks it free, with one exception: the block right after the new end, when it is reached
    through the indirect block, may stay ([truncate_keeps_a_block_too_many]).  Truncating to
    nothing frees every block. *)
Theorem truncate_releases_blocks f p sv O len (bl := (len + 511) / 512) :
  file f p sv O → 0 ≤ len ≤ 2 ^ 31 - 512 →
  wps (sfs_truncate U p len) f (λ r f', r = 0 ∧ ∃ sv', fstep p O sv f sv' f' ∧ sfi_size (sv_i sv') = len ∧
    (∀ n b, fmap_ f (sv_i sv) !! n = Some b → Z.of_nat n < bl →
       fmap_ f' (sv_i sv') !! n = Some b ∧ blk f' b = blk f b) ∧
    (∀ n b, fmap_ f (sv_i sv) !! n = Some b → b ≠ 0 → bl < Z.of_nat n ∨ (bl = Z.of_nat n ∧ bl < 15) →
       fmap_ f' (sv_i sv') !! n = Some 0 ∧ used f' b = false) ∧
    (len = 0 → file_blocks f' (sv_i sv') = [] ∧ ∀ b, b ∈ file_blocks f (sv_i sv) → used f' b = false)).
Proof.
  intros Hf Hl. eapply wps_mono; [by apply (truncate_spec U f p sv O)|].
  intros r f' (-> & sv' & Ht). split; [done|]. exists sv'. pose proof Ht as [Hst Hs Hmap Hdat Hfree _ _]. fold bl in Hmap.
  assert (∀ n b, fmap_ f (sv_i sv) !! n = Some b → fmap_ f' (sv_i sv') !! n = Some (if stays bl n then b else 0)) as Hat.
  { intros n b Hn. by rewrite Hmap, cut_lookup, Hn. }
  split; [done|]. split; [done|]. split; [|split].
  - intros n b Hn Hlt. assert (stays bl n = true) as Hst' by (unfold stays; lia). pose proof (Hat n b Hn) as Hn'.
    rewrite Hst' in Hn'. split; [done|]. by eapply (truncated_blk _ _ _ _ _ _ _ _ Hf Ht n).
  - intros n b Hn Hb0 Hpast. assert (stays bl n = false) as Hst' by (unfold stays; lia). pose proof (Hat n b Hn) as Hn'.
    rewrite Hst' in Hn'. split; [done|]. by eapply (truncated_gone _ _ _ _ _ _ _ _ Hf Ht n).
  - intros ->. assert (file_blocks f' (sv_i sv') = []) as Hnil by (by eapply truncated_nil).
    split; [done|]. intros b Hb. apply Hfree; [done|]. rewrite Hnil. apply not_elem_of_nil.
Qed.

(** When the new length is a whole number of blocks reached through the indirect block,
    the block just past the new end is not freed: it stays in the block map of the file and marked
    in use, although the file ends before it. *)
Theorem truncate_keeps_a_block_too_many f p sv O (n : nat) b :
  file f p sv O → (15 ≤ n ≤ 142)%nat → fmap_ f (sv_i sv) !! n = Some b → b ≠ 0 →
  wps (sfs_truncate U p (512 * Z.of_nat n)) f (λ r f', r = 0 ∧ ∃ sv', sfs_mem f' !! p = Some sv' ∧
    sfi_size (sv_i sv') = 512 * Z.of_nat n ∧ fmap_ f' (sv_i sv') !! n = Some b ∧ used f' b = true).
Proof.
  intros Hf Hn Hb Hb0. eapply wps_mono; [apply (truncate_spec U f p sv O); [done|lia]|].
  intros r f' (-> & sv' & [Hst Hs Hmap _ _ _ _]). split; [done|]. exists sv'.
  assert ((512 * Z.of_nat n + 511) / 512 = Z.of_nat n) as Hbl.
  { rewrite (Z.mul_comm 512), Z.div_add_l by lia. by rewrite Z.add_0_r. }
  assert (fmap_ f' (sv_i sv') !! n = Some b) as Hb'.
  { rewrite Hmap, Hbl, cut_lookup, Hb. simpl. unfold stays. rewrite Z.eqb_refl.
    replace (15 <=? n)%nat with true by (symmetry; apply Nat.leb_le; lia). by rewrite orb_true_r. }
  split; [apply Hst|]. split; [done|]. split; [done|].
  destruct (file_block_ok f' p sv' O b) as [_ Hu]; [apply Hst|by eapply list_elem_of_lookup_2|done|done].
Qed.
End truncation.

Module Sparse.
(** A file whose only data block, block 7, is the first one reached through the indirect block 6. *)
Definition inode : sfs_inode := Inode 8192 SFS_TYPE_FILE 1 (replicate 15 0) 6 (replicate 110 0).
Definition vn : sfs_vnode := SVnode (Vnode 1 0 0 (Some FileOps)) inode 3 0.
Definition vol : sfs_fs :=
  SfsFs 0 (Super SFS_MAGIC 16 (replicate 32 0) (replicate 118 0)) 0
    (Disk 16 (<[6%nat := words_bytes (7 :: replicate 127 0)]> (replicate 16 zero_block)) []) (Array 0 0 0 0 [])
    (Bitmap 0 16 0 [207; 0]) 0 (<[100 := vn]> ∅).

Lemma vol_file : file vol 100 vn [1; 2; 3].
Proof.
  constructor; [| done | |].
  - constructor; try done.
    + constructor; [done|done|]. by repeat constructor.
    + split_and!; try done; [repeat constructor; lia|]. intros i Hi. change (8 * zlen [207; 0]) with 16 in Hi. simpl in Hi. lia.
    + intros b Hb. simpl in Hb. lia.
  - constructor; try done; by repeat constructor.
  - assert (file_blocks vol (sv_i vn) = [6; 7]) as -> by (by vm_compute). split; [by apply (bool_decide_unpack _)|].
    intros b Hb. repeat (apply elem_of_cons in Hb as [->|Hb]; [done|]). by apply elem_of_nil in Hb.
Qed.
End Sparse.

Lemma truncate_releases_blocks_witness :
  wps (sfs_truncate Volume.noumem 100 0) Sparse.vol (λ r f', r = 0 ∧ ∃ sv',
    fstep 100 [1; 2; 3] Sparse.vn Sparse.vol sv' f' ∧ sfi_size (sv_i sv') = 0 ∧
    file_blocks f' (sv_i sv') = [] ∧ ∀ b, b ∈ file_blocks Sparse.vol (sv_i Sparse.vn) → used f' b = false).
Proof.
  eapply wps_mono.
  - apply (truncate_releases_blocks Volume.noumem Sparse.vol 100 Sparse.vn [1; 2; 3] 0); [apply Sparse.vol_file|lia].
  - intros r f' (Hr & sv' & Hst & Hs & _ & _ & H0). split; [done|]. exists sv'. destruct (H0 eq_refl). by split_and!.
Defined.

Lemma truncate_keeps_a_block_too_many_witness :
  wps (sfs_truncate Volume.noumem 100 7680) Sparse.vol (λ r f', r = 0 ∧ ∃ sv', sfs_mem f' !! 100 = Some sv' ∧
    sfi_size (sv_i sv') = 7680 ∧ fmap_ f' (sv_i sv') !! 15%nat = Some 7 ∧ used f' 7 = true).
Proof.
  apply (truncate_keeps_a_block_too_many Volume.noumem Sparse.vol 100 Sparse.vn [1; 2; 3] 15 7);
    [apply Sparse.vol_file|lia|by vm_compute|done].
Defined.

(** ** Volumes *)

(** C7: On a consistent volume without media errors any sequence of reads, writes, truncations, syncs, stats, look-ups,
    links and removals runs to the end without a panic or a bad access, leaves the volume
    consistent (no block in two files, every block of a file marked in use, directory names
    unique), and leaves every file that no operation names, and every block outside the files,
    as it was. *)
Theorem volume_runs_safe U f vs O ops :
  volume f vs O → Forall (fop_ok U) ops → (∀ op, op ∈ ops → fop_file op ∈ vs.*1) →
  wps (run_fops U ops) f (λ rs f', length rs = length ops ∧ ∃ vs', volume f' vs' O ∧ vs'.*1 = vs.*1 ∧
    untouched (fop_file <$> ops) vs f vs' f' ∧ ∀ b, b ∈ O → sec f' b = sec f b).
Proof. apply run_fops_spec. Qed.

Definition demo_ops : list fop :=
  [FLink 200 [98] 3; FWrite 100 (wuio [1; 2; 3] 510); FTruncate 100 5; FRemove 200 [97]; FSync 100].

Lemma volume_runs_safe_witness :
  wps (run_fops Volume.noumem demo_ops) Volume.vol (λ rs f', length rs = 5%nat ∧ ∃ vs', volume f' vs' [2] ∧
    vs'.*1 = [100; 200] ∧ untouched (fop_file <$> demo_ops) [(100, Volume.vfile); (200, Volume.vroot)] Volume.vol vs' f' ∧
    ∀ b, b ∈ [2] → sec f' b = sec Volume.vol b).
Proof.
  apply (volume_runs_safe Volume.noumem Volume.vol [(100, Volume.vfile); (200, Volume.vroot)] [2] demo_ops).
  - apply Volume.vol_volume.
  - repeat constructor; simpl; try lia; try done.
    intros c Hc. apply elem_of_cons in Hc as [->|Hc]; [done|by apply elem_of_nil in Hc].
  - intros op Hop. repeat (apply elem_of_cons in Hop as [->|Hop]; [by apply (bool_decide_unpack _)|]).
    by apply elem_of_nil in Hop.
Defined.

(** ** Directories *)

Inductive dop := DFind (name : list Z) | DLink (name : list Z) (ino : Z) | DRemove (name : list Z).

Definition dop_ok (op : dop) : Prop :=
  match op with
  | DLink name ino => is_u32 ino ∧ ino ≠ 0 ∧ ∀ c, c ∈ name → c ≠ 0
  | _ => True
  end.

(** A directory as a finite map from names to inode numbers: the code an operation answers, the
    inode number a look-up finds, and the map afterwards.  A link can also fail because the volume
    has no free block or the directory no free slot; a removal of a name that exists cannot fail. *)
Definition dspec (M : gmap (list Z) Z) (op : dop) (r ino : Z) (M' : gmap (list Z) Z) : Prop :=
  match op with
  | DFind name =>
      M' = M ∧ ((r = 0 ∧ M !! name = Some ino) ∨ (r = ENOENT ∧ M !! name = None))
  | DLink name i =>
      (r = 0 ∧ M !! name = None ∧ zlen name < SFS_NAMELEN ∧ M' = <[name := i]> M) ∨
      (M' = M ∧ ((r = EEXIST ∧ is_Some (M !! name)) ∨
                 (r = ENAMETOOLONG ∧ M !! name = None ∧ SFS_NAMELEN ≤ zlen name) ∨
                 r = ENOSPC ∨ r = EINVAL))
  | DRemove name =>
      (r = 0 ∧ is_Some (M !! name) ∧ M' = delete name M) ∨
      (M' = M ∧ r = ENOENT ∧ M !! name = None)
  end.

Inductive dspecs : gmap (list Z) Z → list dop → list (Z * Z) → gmap (list Z) Z → Prop :=
  | dspecs_nil M : dspecs M [] [] M
  | dspecs_cons M op r ino M1 ops rs M2 :
      dspec M op r ino M1 → dspecs M1 ops rs M2 → dspecs M (op :: ops) ((r, ino) :: rs) M2.

Section dirs.
Variable U : usermem.

Definition run_dop (p : Z) (op : dop) : F (Z * Z) :=
  match op with
  | DFind name =>
      '(r, found, _) ← sfs_dir_findname U p name; mret (r, match found with Some (ino, _) => ino | None => 0 end)
  | DLink name ino => '(r, _) ← sfs_dir_link U p name ino; mret (r, 0)
  | DRemove name => r ← dir_remove U p name; mret (r, 0)
  end.

Fixpoint run_dops (p : Z) (ops : list dop) : F (list (Z * Z)) :=
  match ops with
  | [] => mret []
  | op :: ops => x ← run_dop p op; xs ← run_dops p ops; mret (x :: xs)
  end.

Lemma dir_step_trans p O sv f sv1 f1 sv2 f2 :
  dir_step p O sv f sv1 f1 → dir_step p O sv1 f1 sv2 f2 → dir_step p O sv f sv2 f2.
Proof. intros [H1 _] [H2 Hd]. split; [by eapply fstep_trans|done]. Qed.

Lemma run_dop_spec f p sv O op :
  dir_ok f p sv O → dop_ok op →
  wps (run_dop p op) f (λ '(r, ino) f', ∃ sv', dir_step p O sv f sv' f' ∧
    dspec (dirmap f sv) op r ino (dirmap f' sv')).
Proof.
  intros Hd Hok. destruct op as [name|name i|name]; simpl.
  - wps_call findname_spec; [done|]. intros [[r found] empty] f' (-> & _ & Hfound). wps_step. exists sv.
    split; [by apply dir_step_refl|]. split; [done|]. destruct found as [[ino s]|]; simpl in Hfound.
    + destruct Hfound as (-> & Hs & d & Hds & Hl & Hnm & <-). left. split; [done|].
      apply dmap_lookup; [apply Hd|]. exists d. split_and!; try done. by eapply list_elem_of_lookup_2.
    + destruct Hfound as [-> Hno]. by right.
  - destruct Hok as (? & ? & ?). wps_call dir_link_spec; [done..|].
    intros [r slot] f' (sv' & Hst & Hres). wps_step. exists sv'. split; [done|].
    destruct Hres as [(-> & Hn & Hl & Hm & _)|[(-> & Hs & ->)|[(-> & Hl & Hn & ->)|[Hr Hm]]]].
    + left. by split_and!.
    + right. split; [by rewrite (dir_step_same _ _ _ _ _ Hd Hst)|]. by left.
    + right. split; [by rewrite (dir_step_same _ _ _ _ _ Hd Hst)|]. right. by left.
    + right. split; [done|]. destruct Hr as [[-> _]|[-> _]]; tauto.
  - unfold dir_remove. rewrite !wps_bind. eapply wps_mono; [by eapply findname_spec|].
    intros [[r [[ino slot]|]] empty] f' (-> & _ & Hfound).
    + destruct Hfound as (-> & Hs & d & Hds & Hl & Hnm & _). eapply wps_mono; [by eapply dir_unlink_spec|].
      intros r f' (-> & sv' & Hst & Hm). wps_step. exists sv'. split; [done|].
      assert (is_Some (dirmap f sv !! name)) as Hsome.
      { exists (sfd_ino d). apply dmap_lookup; [apply Hd|]. exists d. split_and!; try done. by eapply list_elem_of_lookup_2. }
      left. by rewrite <- Hnm in *.
    + destruct Hfound as [-> Hno]. wps_step. exists sv. split; [by apply dir_step_refl|]. by right.
Qed.

(** C8: A directory behaves as a finite map from names to inode numbers: any sequence of look-ups,
    links and removals answers what the same sequence answers on the map, with no way to fail other
    than a link on a full volume or in a full directory, and leaves the directory consistent.  (The
    disk has no media errors.) *)
Theorem directory_refines_map f p sv O ops :
  dir_ok f p sv O → Forall dop_ok ops →
  wps (run_dops p ops) f (λ rs f', ∃ sv', dir_step p O sv f sv' f' ∧
    dspecs (dirmap f sv) ops rs (dirmap f' sv')).
Proof.
  revert f sv. induction ops as [|op ops IH]; intros f sv Hd Hok; simpl.
  - wps_step. exists sv. split; [by apply dir_step_refl|constructor].
  - apply Forall_cons in Hok as [Ho Hok]. wps_call run_dop_spec; [done|done|].
    intros [r ino] f1 (sv1 & Hst1 & Hs1). rewrite wps_bind. eapply wps_mono; [apply IH; [apply Hst1|done]|].
    intros rs f2 (sv2 & Hst2 & Hs2). wps_step. exists sv2. split; [by eapply dir_step_trans|by econstructor].
Qed.
End dirs.

Lemma directory_refines_map_witness :
  wps (run_dops Volume.noumem 200 [DFind [97]; DLink [98] 3; DRemove [97]]) Volume.vol (λ rs f', ∃ sv',
    dir_step 200 [4; 1; 3; 2] Volume.vroot Volume.vol sv' f' ∧
    dspecs (dirmap Volume.vol Volume.vroot) [DFind [97]; DLink [98] 3; DRemove [97]] rs (dirmap f' sv')).
Proof.
  apply (directory_refines_map Volume.noumem Volume.vol 200 Volume.vroot [4; 1; 3; 2]); [apply Volume.vroot_dir|].
  repeat constructor; simpl; try lia. intros c Hc. apply elem_of_cons in Hc as [->|Hc]; [done|by apply elem_of_nil in Hc].
Defined.

(** ** Disk errors *)

Lemma read_survives_media_errors_witness :
  sfs_rblock Volume.noumem zero_block 4 (with_hw (replicate 10 (LHD_MEDIA, [])) Volume.dev) =
  Ok (0, replicate 512 7, Volume.dev).
Proof.
  apply (read_survives_media_errors Volume.noumem zero_block Volume.dev 4 [] 10); try done. apply Volume.vol_vol_ok.
Defined.

Lemma block_read_ends_witness :
  sfs_rblock Volume.noumem zero_block 4 (with_hw (replicate 12 (LHD_MEDIA, [])) Volume.dev) =
  Ok (EIO, zero_block, with_hw [(LHD_MEDIA, [])] Volume.dev).
Proof.
  apply (block_read_ends Volume.noumem zero_block Volume.dev 4 (replicate 12 (LHD_MEDIA, []))); try done.
  - apply Volume.vol_vol_ok.
  - repeat constructor; by right.
Defined.

Lemma write_lost_on_media_error_witness :
  sfs_wblock Volume.noumem (replicate 512 1) 4 (with_hw [(LHD_MEDIA, replicate 512 9)] Volume.dev) =
  Ok (0, put_sector 4 (replicate 512 9) Volume.dev).
Proof. apply (write_lost_on_media_error Volume.noumem (replicate 512 1) Volume.dev 4); try done. apply Volume.vol_vol_ok. Defined.
