(* ===== verification/SfsRep.v ===== *)
(** * A volume as names, files and references

    [afs] is what a client of a mounted volume sees: the entries of the root directory, the files by
    inode number with their link counts and contents, and the vnodes that are held, with their
    reference counts.  [Rep root k s B A]: the kernel state [k] stands for the file system [A];
    [root] is the vnode of the root directory, [s] the scheduler and [B] the heap blocks that
    belong to the rest of the kernel. *)

From S2P Require Import Prelude StateM Heap KArray KBitmap Coremap KState Thread ThreadSpec ThreadHeap Synch SynchSpec Owned.
From S2P Require Import ProcSpec Uio SfsDisk Sfs SfsBytes SfsSpec SfsIo SfsDirs SfsTrunc SfsVolume SfsTree SfsNode SfsNodeSpec.
From S2P Require Import SfsTree SfsNodeSpec.

Record afile := AFile { af_links : Z; af_size : Z; af_data : list Z }.
Record afs := Afs {
  a_ents : list sfs_dir;
  a_files : gmap Z afile;
  a_held : gmap Z (Z * Z);
}.

Definition set_ents (x : list sfs_dir) (A : afs) : afs := Afs x (a_files A) (a_held A).
Definition set_files (x : gmap Z afile) (A : afs) : afs := Afs (a_ents A) x (a_held A).
Definition set_held (x : gmap Z (Z * Z)) (A : afs) : afs := Afs (a_ents A) (a_files A) x.

(** The names, as a finite map. *)
Definition a_names (A : afs) : gmap (list Z) Z := dmap (a_ents A).

Definition afile_of (f : sfs_fs) (i : sfs_inode) : afile := AFile (sfi_linkcount i) (sfi_size i) (fdata f i).
Definition files_of (f : sfs_fs) (l : list (Z * sfs_inode)) : gmap Z afile :=
  list_to_map ((λ x, (x.1, afile_of f x.2)) <$> l).
Definition held_of (vs : list (Z * sfs_vnode)) : gmap Z (Z * Z) :=
  list_to_map ((λ x, (x.1, (sv_ino x.2, vn_refcount (sv_v x.2)))) <$> vs).

(** ** The maps *)

Lemma keyed_keys {A B C} (g : A * B → C) (l : list (A * B)) : ((λ x, (x.1, g x)) <$> l).*1 = l.*1.
Proof. by rewrite <- list_fmap_compose. Qed.

Section maps.
Implicit Types (f : sfs_fs) (l : list (Z * sfs_inode)) (vs : list (Z * sfs_vnode)).

Lemma files_of_perm f l l' : NoDup l.*1 → l ≡ₚ l' → files_of f l = files_of f l'.
Proof. intros Hnd Hp. apply list_to_map_proper; [by rewrite (keyed_keys (λ x, afile_of f x.2))|by rewrite Hp]. Qed.

Lemma files_of_cons f ino i l : files_of f ((ino, i) :: l) = <[ino := afile_of f i]> (files_of f l).
Proof. done. Qed.

Lemma files_of_still f f' l : (∀ ino i, (ino, i) ∈ l → still f f' i) → files_of f' l = files_of f l.
Proof.
  intros Hs. unfold files_of. f_equal. apply list_fmap_ext. intros n [ino i] Hn. unfold afile_of. simpl.
  destruct (Hs ino i) as (_ & _ & ->); [by eapply list_elem_of_lookup_2|done].
Qed.

Lemma files_of_None f l ino : ino ∉ l.*1 → files_of f l !! ino = None.
Proof. intros Hn. apply not_elem_of_list_to_map_1. by rewrite (keyed_keys (λ x, afile_of f x.2)). Qed.

Lemma files_of_Some f l ino a :
  NoDup l.*1 → files_of f l !! ino = Some a ↔ ∃ i, (ino, i) ∈ l ∧ a = afile_of f i.
Proof.
  intros Hnd. unfold files_of. rewrite <- elem_of_list_to_map by (by rewrite (keyed_keys (λ x, afile_of f x.2))).
  rewrite list_elem_of_fmap. split.
  - intros ([j i] & [= -> ->] & Hin). by exists i.
  - intros (i & Hin & ->). by exists (ino, i).
Qed.

Lemma held_of_perm vs vs' : NoDup vs.*1 → vs ≡ₚ vs' → held_of vs = held_of vs'.
Proof.
  intros Hnd Hp. apply list_to_map_proper; [|by rewrite Hp].
  by rewrite (keyed_keys (λ x, (sv_ino x.2, vn_refcount (sv_v x.2)))).
Qed.

Lemma held_of_cons p sv vs : held_of ((p, sv) :: vs) = <[p := (sv_ino sv, vn_refcount (sv_v sv))]> (held_of vs).
Proof. done. Qed.

Lemma held_of_None vs p : p ∉ vs.*1 → held_of vs !! p = None.
Proof.
  intros Hn. apply not_elem_of_list_to_map_1.
  by rewrite (keyed_keys (λ x, (sv_ino x.2, vn_refcount (sv_v x.2)))).
Qed.

Lemma held_of_Some vs p ino n :
  NoDup vs.*1 → held_of vs !! p = Some (ino, n) ↔ ∃ sv, (p, sv) ∈ vs ∧ sv_ino sv = ino ∧ vn_refcount (sv_v sv) = n.
Proof.
  intros Hnd. unfold held_of.
  rewrite <- elem_of_list_to_map by (by rewrite (keyed_keys (λ x, (sv_ino x.2, vn_refcount (sv_v x.2))))).
  rewrite list_elem_of_fmap. split.
  - intros ([q sv] & [= -> -> ->] & Hin). by exists sv.
  - intros (sv & Hin & <- & <-). by exists (p, sv).
Qed.

Lemma size_held_of vs : NoDup vs.*1 → size (held_of vs) = length vs.
Proof.
  induction vs as [|[p sv] vs IH]; intros Hnd; [done|]. apply NoDup_cons in Hnd as [Hn Hnd].
  rewrite held_of_cons, map_size_insert_None by (by apply held_of_None). simpl. by rewrite IH.
Qed.

(** One vnode in the middle of the table. *)
Lemma held_of_mid vs1 p sv vs2 :
  NoDup (vs1 ++ (p, sv) :: vs2).*1 →
  held_of (vs1 ++ (p, sv) :: vs2) = <[p := (sv_ino sv, vn_refcount (sv_v sv))]> (held_of (vs1 ++ vs2)) ∧
  held_of (vs1 ++ vs2) !! p = None.
Proof.
  intros Hnd. split; [rewrite <- held_of_cons; by apply held_of_perm, symmetry, Permutation_middle|].
  apply held_of_None. rewrite fmap_app in Hnd. simpl in Hnd. rewrite <- Permutation_middle, <- fmap_app in Hnd.
  by apply NoDup_cons in Hnd as [? _].
Qed.

Lemma files_of_vn f vs1 p sv vs2 us :
  NoDup (inodes (vs1 ++ (p, sv) :: vs2) us).*1 →
  files_of f (inodes (vs1 ++ (p, sv) :: vs2) us) =
    <[sv_ino sv := afile_of f (sv_i sv)]> (files_of f (inodes (vs1 ++ vs2) us)) ∧
  files_of f (inodes (vs1 ++ vs2) us) !! sv_ino sv = None.
Proof.
  intros Hnd. split; [rewrite <- files_of_cons; apply files_of_perm; [done|apply inodes_vn]|].
  apply files_of_None. rewrite inodes_vn in Hnd. by apply NoDup_cons in Hnd as [? _].
Qed.

Lemma files_of_un f vs us1 ino i us2 :
  NoDup (inodes vs (us1 ++ (ino, i) :: us2)).*1 →
  files_of f (inodes vs (us1 ++ (ino, i) :: us2)) =
    <[ino := afile_of f i]> (files_of f (inodes vs (us1 ++ us2))) ∧
  files_of f (inodes vs (us1 ++ us2)) !! ino = None.
Proof.
  intros Hnd. split; [rewrite <- files_of_cons; apply files_of_perm; [done|apply inodes_un]|].
  apply files_of_None. rewrite inodes_un in Hnd. by apply NoDup_cons in Hnd as [? _].
Qed.
End maps.

(** ** The kernel state of a file system *)

Section rep.
Context {H : Type} `{KHeapLaws H}.
Variable U : usermem.
Variable root : Z.
Implicit Types (k : kst H sfs_fs) (vs : list (Z * sfs_vnode)) (us : list (Z * sfs_inode)) (A : afs).

Record rep k s B A vs us O : Prop := MkRep {
  rp_k : fsk k s vs us O B;
  rp_root : ∃ sv, (root, sv) ∈ vs ∧ sv_ino sv = SFS_ROOT_LOCATION ∧ vn_ops (sv_v sv) = Some DirOps ∧
    a_ents A = dirents (k_env k) (sv_i sv);
  rp_ops : ∀ p sv, (p, sv) ∈ vs → p ≠ root → vn_ops (sv_v sv) = Some FileOps;
  rp_files : a_files A = delete SFS_ROOT_LOCATION (files_of (k_env k) (inodes vs us));
  rp_held : a_held A = held_of vs;
  rp_meta : meta (o_super B) (k_env k) O;
}.

Definition Rep k s B A : Prop := ∃ vs us O, rep k s B A vs us O.

(** The number of vnodes and their counts are within bounds. *)
Definition room A : Prop :=
  Z.of_nat (size (a_held A)) < 2 ^ 27 ∧ 8 * (Z.of_nat (size (a_held A)) + 1) < kh_max ∧
  ∀ p ino n, a_held A !! p = Some (ino, n) → n < 2 ^ 31 - 1.

Section facts.
Context k s B A vs us O (Hr : rep k s B A vs us O).

Lemma rep_vol : fsvol (k_env k) vs us O.
Proof using Hr. apply Hr. Qed.
Lemma rep_keys : NoDup vs.*1.
Proof using Hr. apply (vl_keys _ _ _ (fv_vol _ _ _ _ rep_vol)). Qed.
Lemma rep_unique : NoDup (inodes vs us).*1.
Proof using Hr. apply (fsvol_unique _ _ _ _ rep_vol). Qed.

Lemma rep_key_inj p sv sv' : (p, sv) ∈ vs → (p, sv') ∈ vs → sv = sv'.
Proof using Hr.
  intros Hi1 Hi2. pose proof (fsk_mem _ _ _ _ _ _ _ _ (rp_k _ _ _ _ _ _ _ Hr) Hi1).
  pose proof (fsk_mem _ _ _ _ _ _ _ _ (rp_k _ _ _ _ _ _ _ Hr) Hi2). congruence.
Qed.

Lemma in_numbered p sv : (p, sv) ∈ vs → (sv_ino sv, sv_i sv) ∈ inodes vs us.
Proof using. intros Hin. apply elem_of_app. left. apply elem_of_numbered. eauto. Qed.

(** A file has one vnode. *)
Lemma rep_ino_inj p sv q svq : (p, sv) ∈ vs → (q, svq) ∈ vs → sv_ino sv = sv_ino svq → p = q ∧ sv = svq.
Proof using Hr.
  intros Hin Hinq He. pose proof rep_unique as Hnd. unfold inodes in Hnd. rewrite fmap_app in Hnd.
  apply NoDup_app in Hnd as [Hnd _]. unfold numbered in Hnd. rewrite <- list_fmap_compose in Hnd.
  apply list_elem_of_lookup in Hin as [n Hn], Hinq as [m Hm].
  assert (n = m) as ->; [|by simplify_eq].
  apply (proj1 (NoDup_alt _) Hnd n m (sv_ino sv)); rewrite list_lookup_fmap, ?Hn, ?Hm; simpl; congruence.
Qed.

(** Only the root directory has the root's number. *)
Lemma rep_ino p sv : (p, sv) ∈ vs → p ≠ root → sv_ino sv ≠ SFS_ROOT_LOCATION.
Proof using Hr.
  intros Hin Hp He. destruct (rp_root _ _ _ _ _ _ _ Hr) as (svr & Hroot & Hri & _).
  by destruct (rep_ino_inj p sv root svr Hin Hroot) as [-> _]; [congruence|].
Qed.

Lemma rep_held p ino n :
  a_held A !! p = Some (ino, n) ↔ ∃ sv, (p, sv) ∈ vs ∧ sv_ino sv = ino ∧ vn_refcount (sv_v sv) = n.
Proof using Hr. rewrite (rp_held _ _ _ _ _ _ _ Hr). by apply held_of_Some, rep_keys. Qed.

Lemma rep_size : size (a_held A) = length vs.
Proof using Hr. rewrite (rp_held _ _ _ _ _ _ _ Hr). by apply size_held_of, rep_keys. Qed.

Lemma rep_files ino fl :
  a_files A !! ino = Some fl ↔
  ino ≠ SFS_ROOT_LOCATION ∧ ∃ i, (ino, i) ∈ inodes vs us ∧ fl = afile_of (k_env k) i.
Proof using Hr.
  rewrite (rp_files _ _ _ _ _ _ _ Hr), lookup_delete_Some. rewrite files_of_Some by apply rep_unique. naive_solver.
Qed.

(** A vnode that is held, other than the root. *)
Lemma rep_vnode p ino n :
  a_held A !! p = Some (ino, n) → p ≠ root → ∃ sv, (p, sv) ∈ vs ∧ sfs_mem (k_env k) !! p = Some sv ∧
    sv_ino sv = ino ∧ vn_refcount (sv_v sv) = n ∧ 1 ≤ n ∧ vn_ops (sv_v sv) = Some FileOps ∧
    sfi_type (sv_i sv) = SFS_TYPE_FILE ∧ a_files A !! ino = Some (afile_of (k_env k) (sv_i sv)).
Proof using Hr.
  intros (sv & Hin & <- & <-)%rep_held Hp. exists sv. destruct (fsvol_mem _ _ _ _ _ _ rep_vol Hin) as [Hm Hn].
  pose proof (rp_ops _ _ _ _ _ _ _ Hr p sv Hin Hp) as Ho. unfold node_ok in Hn. rewrite Ho in Hn.
  destruct (fk_cnt _ _ _ _ _ _ (rp_k _ _ _ _ _ _ _ Hr) p sv Hin) as [Hc _].
  split_and!; try done; [apply Hn|]. apply rep_files. split; [by apply (rep_ino p)|]. exists (sv_i sv).
  split; [by apply (in_numbered p)|done].
Qed.

Lemma rep_dir : ∃ sv vs1 vs2, vs = vs1 ++ (root, sv) :: vs2 ∧ sv_ino sv = SFS_ROOT_LOCATION ∧
  vn_ops (sv_v sv) = Some DirOps ∧ a_ents A = dirents (k_env k) (sv_i sv) ∧ sfs_mem (k_env k) !! root = Some sv ∧
  dir_ok (k_env k) root sv (around (k_env k) vs1 sv vs2 (ublocks (k_env k) us ++ O)).
Proof using Hr.
  destruct (rp_root _ _ _ _ _ _ _ Hr) as (sv & Hin & Hi & Ho & Hn). exists sv.
  pose proof rep_vol as Hv. destruct (list_elem_of_split _ _ Hin) as (vs1 & vs2 & ->). exists vs1, vs2.
  destruct (volume_focus _ _ _ _ _ _ (fv_vol _ _ _ _ Hv)) as [Hf Hnode].
  split_and!; try done; [apply Hf|]. by apply (node_dir _ sv root _ Ho Hf).
Qed.
End facts.

(** ** Transitions *)

Lemma fsvol_vnodes f vs us O a : fsvol f vs us O → fsvol (set_vnodes a f) vs us O.
Proof. intros [[Hok Hk Hm Ho] Hc Hu]. constructor; [|done|done]. by constructor; [destruct Hok; constructor|..]. Qed.

Lemma dirents_still f f' i : still f f' i → dirents f' i = dirents f i.
Proof. intros (_ & _ & Hd). unfold dirents. by rewrite Hd. Qed.

(** The root directory stays as it is. *)
Lemma rep_build k k' s B B' A vs us O vs' us' O' :
  rep k s B A vs us O → nodes k' s vs' B' → fsvol (k_env k') vs' us' O' →
  (∀ p sv, (p, sv) ∈ vs' → counted B' p sv) → (∀ p, p ∉ vs'.*1 → o_open B' p = 0) →
  (∀ p sv, (p, sv) ∈ vs' → p ≠ root → vn_ops (sv_v sv) = Some FileOps) →
  (∀ sv, (root, sv) ∈ vs → (root, sv) ∈ vs' ∧ still (k_env k) (k_env k') (sv_i sv)) →
  meta (o_super B') (k_env k') O' →
  rep k' s B' (Afs (a_ents A) (delete SFS_ROOT_LOCATION (files_of (k_env k') (inodes vs' us'))) (held_of vs')) vs' us' O'.
Proof.
  intros Hr Hn Hv Hc Hz Ho Hroot Hmeta. destruct (rp_root _ _ _ _ _ _ _ Hr) as (sv & Hin & Hi & Hop & Hd).
  destruct (Hroot sv Hin) as [Hin' Hst]. constructor; try done.
  exists sv. split_and!; try done. simpl. by rewrite (dirents_still _ _ _ Hst).
Qed.

(** One vnode changes. *)
Section change.
Context (k k' : kst H sfs_fs) (s : sched) (B B' : outside) (A : afs) (vs1 vs2 : list (Z * sfs_vnode)) (p : Z).
Context (sv sv' : sfs_vnode) (us : list (Z * sfs_inode)) (O O' : list Z).
Hypothesis Hr : rep k s B A (vs1 ++ (p, sv) :: vs2) us O.
Hypothesis Hn : nodes k' s (vs1 ++ (p, sv') :: vs2) B'.
Hypothesis Hv : fsvol (k_env k') (vs1 ++ (p, sv') :: vs2) us O'.
Hypothesis Hst : ∀ ino i, (ino, i) ∈ inodes (vs1 ++ vs2) us → still (k_env k) (k_env k') i.
Hypothesis Hino : sv_ino sv' = sv_ino sv.
Hypothesis Hops : vn_ops (sv_v sv') = vn_ops (sv_v sv).
Hypothesis Hcnt : counted B' p sv'.
Hypothesis HB : ∀ q, q ≠ p → o_open B' q = o_open B q.
Hypothesis Hmeta : meta (o_super B') (k_env k') O'.

Lemma change_held :
  held_of (vs1 ++ (p, sv') :: vs2) = <[p := (sv_ino sv, vn_refcount (sv_v sv'))]> (a_held A).
Proof using Hr Hino Hv.
  rewrite (rp_held _ _ _ _ _ _ _ Hr). destruct (held_of_mid _ _ _ _ (rep_keys _ _ _ _ _ _ _ Hr)) as [-> _].
  destruct (held_of_mid vs1 p sv' vs2) as [-> _]; [apply Hv|]. by rewrite insert_insert_eq, Hino.
Qed.

Lemma change_files :
  files_of (k_env k') (inodes (vs1 ++ (p, sv') :: vs2) us) =
  <[sv_ino sv := afile_of (k_env k') (sv_i sv')]> (files_of (k_env k) (inodes (vs1 ++ (p, sv) :: vs2) us)).
Proof using Hr Hino Hv Hst.
  destruct (files_of_vn (k_env k) _ _ _ _ _ (rep_unique _ _ _ _ _ _ _ Hr)) as [-> _].
  destruct (files_of_vn (k_env k') _ _ _ _ _ (fsvol_unique _ _ _ _ Hv)) as [-> _].
  by rewrite insert_insert_eq, Hino, (files_of_still _ _ _ Hst).
Qed.

Lemma change_all q svq : (q, svq) ∈ vs1 ++ (p, sv') :: vs2 →
  counted B' q svq ∧ (q ≠ root → vn_ops (sv_v svq) = Some FileOps).
Proof using Hr Hops Hcnt HB Hv.
  intros [[= -> ->]|Hq]%elem_of_this.
  - split; [done|]. intros Hp. rewrite Hops. apply (rp_ops _ _ _ _ _ _ _ Hr p); [|done]. apply elem_of_app. right. constructor.
  - assert (q ≠ p) as Hne by (symmetry; eapply (key_other vs1 vs2); [pose proof (vl_keys _ _ _ (fv_vol _ _ _ _ Hv)) as Hk; by rewrite fmap_app in Hk|exact Hq]).
    apply (elem_of_others _ (p, sv)) in Hq. split; [|by apply (rp_ops _ _ _ _ _ _ _ Hr)].
    unfold counted. rewrite HB by done. by apply (fk_cnt _ _ _ _ _ _ (rp_k _ _ _ _ _ _ _ Hr) q).
Qed.

Lemma change_zero q : q ∉ (vs1 ++ (p, sv') :: vs2).*1 → o_open B' q = 0.
Proof using Hr HB.
  intros Hq. rewrite HB.
  - apply (fk_zero _ _ _ _ _ _ (rp_k _ _ _ _ _ _ _ Hr)). by rewrite fmap_app in *.
  - intros ->. apply Hq. rewrite fmap_app. apply elem_of_app. right. constructor.
Qed.

Lemma rep_change_file : p ≠ root →
  rep k' s B' (Afs (a_ents A) (<[sv_ino sv := afile_of (k_env k') (sv_i sv')]> (a_files A))
    (<[p := (sv_ino sv, vn_refcount (sv_v sv'))]> (a_held A))) (vs1 ++ (p, sv') :: vs2) us O'.
Proof using Hr Hn Hv Hst Hino Hops Hcnt Hmeta HB.
  intros Hp. assert (sv_ino sv ≠ SFS_ROOT_LOCATION) as Hne.
  { apply (rep_ino _ _ _ _ _ _ _ Hr p); [|done]. apply elem_of_app. right. constructor. }
  rewrite (rp_files _ _ _ _ _ _ _ Hr), <- delete_insert_ne, <- change_files, <- change_held by done.
  eapply rep_build; [exact Hr|done|done|by apply change_all|apply change_zero|intros q svq Hq; by apply change_all| |done].
  intros svr Hroot. destruct (elem_of_this _ _ _ _ Hroot) as [[= <- <-]|Hin]; [done|].
  split; [by apply elem_of_others|]. apply (Hst (sv_ino svr)), (in_numbered _ _ root), Hin.
Qed.

Lemma rep_change_root : p = root →
  rep k' s B' (Afs (dirents (k_env k') (sv_i sv')) (a_files A) (<[p := (sv_ino sv, vn_refcount (sv_v sv'))]> (a_held A)))
    (vs1 ++ (p, sv') :: vs2) us O'.
Proof using Hr Hn Hv Hst Hino Hops Hcnt Hmeta HB.
  intros Hp. destruct (rp_root _ _ _ _ _ _ _ Hr) as (svr & Hin & Hi & Hop & _). rewrite <- Hp in Hin.
  assert (svr = sv) as -> by (eapply rep_key_inj; [done|done|apply elem_of_app; right; constructor]).
  rewrite (rp_files _ _ _ _ _ _ _ Hr), <- change_held.
  constructor; simpl; [constructor; [done|done|by apply change_all|apply change_zero]| |intros q svq Hq; by apply change_all| |done|done].
  - exists sv'. rewrite <- Hp. split; [apply elem_of_app; right; constructor|]. by rewrite Hino, Hops.
  - by rewrite change_files, Hi, delete_insert_eq.
Qed.
End change.

(** An operation on one file or on the root directory. *)
Section step.
Context (k : kst H sfs_fs) (s : sched) (B : outside) (A : afs) (vs1 vs2 : list (Z * sfs_vnode)) (p : Z).
Context (sv sv' : sfs_vnode) (us : list (Z * sfs_inode)) (O : list Z) (f' : sfs_fs).
Hypothesis Hr : rep k s B A (vs1 ++ (p, sv) :: vs2) us O.
Hypothesis Hst : fstep p (around (k_env k) vs1 sv vs2 (ublocks (k_env k) us ++ O)) sv (k_env k) sv' f'.
Hypothesis Hnode : node_ok f' sv'.

Lemma step_facts :
  nodes (set_env f' k) s (vs1 ++ (p, sv') :: vs2) B ∧ fsvol f' (vs1 ++ (p, sv') :: vs2) us O ∧
  (∀ ino i, (ino, i) ∈ inodes (vs1 ++ vs2) us → still (k_env k) f' i) ∧
  counted B p sv' ∧
  <[p := (sv_ino sv, vn_refcount (sv_v sv'))]> (a_held A) = a_held A ∧ meta (o_super B) f' O.
Proof using Hr Hst Hnode.
  assert ((p, sv) ∈ vs1 ++ (p, sv) :: vs2) as Hin by (apply elem_of_app; right; constructor).
  destruct (fsvol_step _ _ _ _ _ _ _ _ _ (rep_vol _ _ _ _ _ _ _ Hr) Hst Hnode) as [Hv' Hs'].
  destruct (fs_meta _ _ _ _ _ _ Hst) as (Hvv & _). destruct (fs_same _ _ _ _ _ _ Hst) as (_ & _ & _ & Hvn & _).
  unfold counted. rewrite Hvv. split; [|split; [|split; [|split; [|split]]]]; try done.
  - eapply nodes_env; [apply Hr|by rewrite Hvv|done].
  - apply (fk_cnt _ _ _ _ _ _ (rp_k _ _ _ _ _ _ _ Hr) p sv Hin).
  - apply insert_id. apply (rep_held _ _ _ _ _ _ _ Hr). eauto.
  - eapply meta_keep; [apply Hr|]. eapply mkeep_fstep; [exact Hst|]. intros b Hb. unfold around.
    rewrite !elem_of_app, elem_of_cons, !elem_of_app. tauto.
Qed.

Lemma rep_fstep : p ≠ root →
  rep (set_env f' k) s B (set_files (<[sv_ino sv := afile_of f' (sv_i sv')]> (a_files A)) A) (vs1 ++ (p, sv') :: vs2) us O.
Proof using Hr Hst Hnode.
  intros Hp. destruct step_facts as (Hn & Hv & Hs & Hc & Hh & Hmeta). destruct (fs_meta _ _ _ _ _ _ Hst) as (Hvv & Hi & _).
  pose proof (rep_change_file k (set_env f' k) s B B A vs1 vs2 p sv sv' us O O Hr Hn Hv Hs Hi) as Hx.
  rewrite Hh in Hx. by apply Hx; [rewrite Hvv|..].
Qed.

Lemma rep_dstep : p = root →
  rep (set_env f' k) s B (set_ents (dirents f' (sv_i sv')) A) (vs1 ++ (p, sv') :: vs2) us O.
Proof using Hr Hst Hnode.
  intros Hp. destruct step_facts as (Hn & Hv & Hs & Hc & Hh & Hmeta). destruct (fs_meta _ _ _ _ _ _ Hst) as (Hvv & Hi & _).
  pose proof (rep_change_root k (set_env f' k) s B B A vs1 vs2 p sv sv' us O O Hr Hn Hv Hs Hi) as Hx.
  rewrite Hh in Hx. by apply Hx; [rewrite Hvv|..].
Qed.
End step.
End rep.
