(* ===== verification/SfsLife.v ===== *)
(** * Taking and giving up references

    [sfs_loadvnode] takes a reference to a file, from disk or to the vnode already loaded;
    [vnode_decref] gives one up, and with the last one [sfs_reclaim] writes the inode back or, when
    the file has no name left, erases the file. *)

From S2P Require Import Prelude StateM Heap KArray KBitmap Coremap KState Thread ThreadSpec ThreadHeap Synch SynchSpec Owned.
From S2P Require Import ProcSpec Uio SfsDisk Sfs SfsBytes SfsSpec SfsIo SfsDirs SfsTrunc SfsVolume SfsTree SfsNode SfsNodeSpec.
From S2P Require Import SfsTree SfsNodeSpec SfsRep.

Definition a_hold (p ino : Z) (A : afs) : afs :=
  set_held (<[p := (ino, default 0 (snd <$> a_held A !! p) + 1)]> (a_held A)) A.

(** The vnode that stands for a file is the one already held, if there is one. *)
Definition grabs (p ino : Z) (A : afs) : Prop :=
  match a_held A !! p with
  | Some (j, _) => j = ino
  | None => ∀ q j n, a_held A !! q = Some (j, n) → j ≠ ino
  end.

Definition a_drop (p : Z) (A : afs) : afs :=
  match a_held A !! p with
  | Some (ino, n) =>
      if 1 <? n then set_held (<[p := (ino, n - 1)]> (a_held A)) A
      else
        let A' := set_held (delete p (a_held A)) A in
        match a_files A !! ino with
        | Some fl => if af_links fl =? 0 then set_files (delete ino (a_files A)) A' else A'
        | None => A'
        end
  | None => A
  end.

Section life.
Context {H : Type} `{KHeapLaws H}.
Variable U : usermem.
Variable root : Z.
Hypothesis Hroom : SFS_VNODE_SIZE < kh_max.
Implicit Types (k : kst H sfs_fs) (vs : list (Z * sfs_vnode)) (us : list (Z * sfs_inode)) (A : afs).
Abbreviation rep := (rep root).
Abbreviation Rep := (Rep root).

(** ** Counts *)

(** A vnode with other counts, the rest of which stays. *)
Definition recounted (sv sv' : sfs_vnode) : Prop :=
  ∃ n m, sv' = sv_set_v (Vnode n m (vn_countlock (sv_v sv)) (vn_ops (sv_v sv))) sv.

Lemma rep_recounts k s B B' A vs us O p sv sv' :
  rep k s B A vs us O → (p, sv) ∈ vs → recounted sv sv' → counted B' p sv' →
  o_outer B' = o_outer B → (∀ q, q ≠ p → o_open B' q = o_open B q) → o_super B' = o_super B →
  Rep (set_env (retag p sv' (k_env k)) k) s B' (set_held (<[p := (sv_ino sv, vn_refcount (sv_v sv'))]> (a_held A)) A).
Proof.
  intros Hr Hin (n & m & ->) Hc HB1 HB2 HB3. destruct (list_elem_of_split _ _ Hin) as (vs1 & vs2 & ->).
  pose proof (rep_vol _ _ _ _ _ _ _ _ Hr) as Hv. set (sv' := sv_set_v _ sv) in *. set (k' := set_env _ k).
  assert (nodes k' s (vs1 ++ (p, sv') :: vs2) B') as Hn'.
  { eapply nodes_outer; [|exact HB1]. eapply nodes_env; [apply Hr|done|done]. }
  assert (fsvol (k_env k') (vs1 ++ (p, sv') :: vs2) us O) as Hv'.
  { eapply fsvol_retag; [exact Hv|done|done|exact (fsvol_wf _ _ _ _ _ _ Hv (in_numbered _ us p sv Hin))| |done].
    apply (fsvol_mem _ _ _ _ _ _ Hv Hin). }
  assert (∀ ino i, (ino, i) ∈ inodes (vs1 ++ vs2) us → still (k_env k) (k_env k') i) as Hst by done.
  assert (meta (o_super B') (k_env k') O) as Hmeta by (rewrite HB3; eapply meta_keep; [apply Hr|by apply mkeep_mem]).
  exists (vs1 ++ (p, sv') :: vs2), us, O. destruct (decide (p = root)) as [Hp|Hp].
  - pose proof (rep_change_root root k k' s B B' A vs1 vs2 p sv _ us O O Hr Hn' Hv' Hst eq_refl eq_refl Hc HB2 Hmeta Hp) as Hr'.
    destruct (rp_root _ _ _ _ _ _ _ _ Hr) as (svr & Hinr & _ & _ & Hd). rewrite <- Hp in Hinr.
    rewrite (rep_key_inj _ _ _ _ _ _ _ _ Hr _ _ _ Hinr Hin) in Hd. destruct A. simpl in *. by rewrite Hd.
  - pose proof (rep_change_file root k k' s B B' A vs1 vs2 p sv _ us O O Hr Hn' Hv' Hst eq_refl eq_refl Hc HB2 Hmeta Hp) as Hr'.
    rewrite insert_id in Hr'; [by destruct A|]. apply (rep_files _ _ _ _ _ _ _ _ Hr).
    split; [by apply (rep_ino _ _ _ _ _ _ _ _ Hr p)|]. exists (sv_i sv). split; [by eapply in_numbered|done].
Qed.

Lemma rep_recount k s B A vs us O p sv n :
  rep k s B A vs us O → (p, sv) ∈ vs → 1 ≤ n →
  Rep (set_env (retag p (recount n sv) (k_env k)) k) s B (set_held (<[p := (sv_ino sv, n)]> (a_held A)) A).
Proof.
  intros Hr Hin Hn. apply (rep_recounts k s B B A vs us O p sv (recount n sv)); try done.
  - by exists n, (vn_opencount (sv_v sv)).
  - split; [done|]. apply (fk_cnt _ _ _ _ _ _ (rp_k _ _ _ _ _ _ _ _ Hr) p sv Hin).
Qed.

Lemma hold_spec k s B A vs us O p sv :
  rep k s B A vs us O → (p, sv) ∈ vs → room (H:=H) A →
  wps (vnode_incref p) k (λ _ k', Rep k' s B (a_hold p (sv_ino sv) A)).
Proof.
  intros Hr Hin (_ & _ & Hc). pose proof (rp_k _ _ _ _ _ _ _ _ Hr) as Hk.
  assert (a_held A !! p = Some (sv_ino sv, vn_refcount (sv_v sv))) as Hh by (apply (rep_held _ _ _ _ _ _ _ _ Hr); eauto).
  eapply (incref_ok k s vs B p sv); [apply Hk|done|by eapply fsk_mem| |].
  - destruct (fk_cnt _ _ _ _ _ _ Hk p sv Hin). specialize (Hc _ _ _ Hh). lia.
  - unfold a_hold. rewrite Hh. simpl. apply (rep_recount _ _ _ _ _ _ _ _ _ _ Hr Hin).
    destruct (fk_cnt _ _ _ _ _ _ Hk p sv Hin). lia.
Qed.

(** ** A new vnode *)

Lemma fresh_key (h : H) L a vs B p : owned h (p :: arr_blocks a ++ nblks L vs ++ B) → p ∉ vs.*1.
Proof.
  intros (_ & [Hn _]%NoDup_cons & _) ([q sv] & -> & Hin)%list_elem_of_fmap. apply Hn. rewrite !elem_of_app.
  right. left. apply elem_of_nblks. exists q, sv. split; [done|]. constructor.
Qed.

Lemma rep_enter k k' s B A vs us O us' O' p ino i lk dirty a :
  rep k s B A vs us O → fsvol (k_env k) vs us' (ino :: file_blocks (k_env k) i ++ O') → meta (o_super B) (k_env k) O' → p ∉ vs.*1 →
  ino ≠ SFS_ROOT_LOCATION → inode_wf i → sfi_type i = SFS_TYPE_FILE → sfi_size i < 2 ^ 31 →
  (dirty = 0 → sec (k_env k) ino = inode_bytes i) →
  nodes k' s (vs ++ [(p, mk_node lk FileOps i ino dirty)]) B →
  k_env k' = set_vnodes a (retag p (mk_node lk FileOps i ino dirty) (k_env k)) →
  Rep k' s B (Afs (a_ents A) (<[ino := afile_of (k_env k) i]> (delete SFS_ROOT_LOCATION (files_of (k_env k) (inodes vs us'))))
    (<[p := (ino, 1)]> (a_held A))).
Proof.
  intros Hr Hv Hmeta Hp Hino Hw Ht Hs Hd Hn He. set (sv := mk_node _ _ _ _ _) in *.
  assert (fsvol (k_env k') (vs ++ [(p, sv)]) us' O') as Hv'.
  { rewrite He. apply fsvol_vnodes. apply (add_vnode _ vs []); rewrite ?app_nil_r; try done. }
  pose proof (vl_keys _ _ _ (fv_vol _ _ _ _ Hv')) as Hk. pose proof (fsvol_unique _ _ _ _ Hv') as Hu.
  assert (∀ j i', (j, i') ∈ inodes vs us' → still (k_env k) (k_env k') i') as Hst by (by rewrite He).
  exists (vs ++ [(p, sv)]), us', O'.
  destruct (files_of_vn (k_env k') vs p sv [] us' Hu) as [Hf _]. destruct (held_of_mid vs p sv [] Hk) as [Hh _].
  rewrite app_nil_r in Hf, Hh.
  replace (afile_of (k_env k) i) with (afile_of (k_env k') (sv_i sv)) by (by rewrite He).
  rewrite (rp_held _ _ _ _ _ _ _ _ Hr), <- delete_insert_ne by done. rewrite <- (files_of_still _ _ _ Hst).
  change ino with (sv_ino sv) at 1. change (ino, 1) with (sv_ino sv, vn_refcount (sv_v sv)). rewrite <- Hf, <- Hh.
  pose proof (fk_zero _ _ _ _ _ _ (rp_k _ _ _ _ _ _ _ _ Hr)) as Hz.
  eapply rep_build; [exact Hr|done|done| | | | |rewrite He; eapply meta_keep; [exact Hmeta|by apply mkeep_mem]].
  - intros q svq [Hq|[= -> ->]%list_elem_of_singleton]%elem_of_app.
    + by apply (fk_cnt _ _ _ _ _ _ (rp_k _ _ _ _ _ _ _ _ Hr) q).
    + unfold counted. by rewrite (Hz p Hp).
  - intros q Hq. apply Hz. intros Hin. apply Hq. rewrite fmap_app. apply elem_of_app. by left.
  - intros q svq [Hq|[= -> ->]%list_elem_of_singleton]%elem_of_app; [|done]. by apply (rp_ops _ _ _ _ _ _ _ _ Hr).
  - intros svr Hin. split; [apply elem_of_app; by left|]. rewrite He. done.
Qed.

Lemma rep_forget k s B A vs us O k' p :
  rep k s B A vs us O → p ∉ vs.*1 → nodes k' s vs B →
  k_env k' = set_mem (delete p (sfs_mem (k_env k))) (k_env k) → Rep k' s B A.
Proof.
  intros Hr Hp Hn He. exists vs, us, O. destruct Hr as [[_ Hv Hc Hz] Hroot Hops Hf Hh Hm]. constructor; rewrite ?He; try done.
  - constructor; [done|rewrite He; by apply fsvol_forget_mem|done|done].
  - eapply meta_keep; [exact Hm|by apply mkeep_mem].
Qed.

Lemma nodes_heap k s vs B h :
  nodes k s vs B → owned h (arr_blocks (sfs_vnodes (k_env k)) ++ nblks (k_locks k) vs ++ B) → nodes (set_heap h k) s vs B.
Proof. intros [[]] Ho. constructor; try done. Qed.

(** What is read from the disk is the inode, or an empty block that becomes one. *)
Definition on_disk (f : sfs_fs) (ino forcetype : Z) (i : sfs_inode) : Prop :=
  (forcetype = SFS_TYPE_INVAL ∧ sec f ino = inode_bytes i) ∨
  (forcetype = SFS_TYPE_FILE ∧ sfi_type (inode_of (sec f ino)) = SFS_TYPE_INVAL ∧
   i = i_set_type SFS_TYPE_FILE (inode_of (sec f ino))).

Section new.
Context (k : kst H sfs_fs) (s : sched) (B : outside) (A : afs) (vs : list (Z * sfs_vnode)).
Context (us us' : list (Z * sfs_inode)) (O O' : list Z) (ino forcetype : Z) (i : sfs_inode).
Hypothesis Hr : rep k s B A vs us O.
Hypothesis HA : room (H:=H) A.
Hypothesis Hv : fsvol (k_env k) vs us' (ino :: file_blocks (k_env k) i ++ O').
Hypothesis Hino : ino ≠ SFS_ROOT_LOCATION.
Hypothesis Hw : inode_wf i.
Hypothesis Ht : sfi_type i = SFS_TYPE_FILE.
Hypothesis Hs : sfi_size i < 2 ^ 31.
Hypothesis Hd : on_disk (k_env k) ino forcetype i.
Hypothesis HM : meta (o_super B) (k_env k) O'.

Definition A_new (p : Z) : afs :=
  Afs (a_ents A) (<[ino := afile_of (k_env k) i]> (delete SFS_ROOT_LOCATION (files_of (k_env k) (inodes vs us'))))
    (<[p := (ino, 1)]> (a_held A)).

Definition new_post (r : Z * Z) k' : Prop :=
  (r = (ENOMEM, NULL) ∧ Rep k' s B A) ∨
  ∃ p, r = (0, p) ∧ p ≠ root ∧ a_held A !! p = None ∧ Rep k' s B (A_new p).

Lemma new_range : 0 < ino < nblocks (k_env k) ∧ used (k_env k) ino = true ∧ ino ∉ inos vs.
Proof using Hv.
  destruct (fsvol_own _ _ _ _ Hv) as [Hnd HB]. destruct (HB ino) as [Hrg Hu]; [apply elem_of_app; right; constructor|].
  split; [done|]. split; [done|]. intros ([p sv] & He & Hin)%list_elem_of_fmap. apply NoDup_app in Hnd as (_ & Hx & _).
  apply (Hx ino); [|constructor]. apply elem_of_ublocks. exists ino, (sv_i sv). split; [|by left].
  simpl in He. rewrite He. by eapply in_numbered.
Qed.

Lemma new_install h p dirty :
  owned h (p :: arr_blocks (sfs_vnodes (k_env k)) ++ nblks (k_locks k) vs ++ B) →
  (dirty = 0 → sec (k_env k) ino = inode_bytes i) → wps (install p ino i dirty) (set_heap h k) new_post.
Proof using Hr HA Hv Hino Hw Ht Hs HM Hroom.
  intros Ho Hdirty. pose proof (rp_k _ _ _ _ _ _ _ _ Hr) as Hk. pose proof (fresh_key _ _ _ _ _ _ Ho) as Hp.
  destruct HA as (HA1 & HA2 & _). rewrite (rep_size _ _ _ _ _ _ _ _ Hr) in HA1, HA2.
  eapply wps_mono; [apply (install_spec Hroom (set_heap h k) s vs B p ino dirty i FileOps)|].
  - apply nodes_heap; [apply Hk|]. destruct Ho as (Hi & [_ Hnd]%NoDup_cons & Hl). split_and!; [done|done|].
    intros b Hb. apply Hl. by right.
  - done.
  - by left.
  - done.
  - done.
  - intros r k' [(-> & _ & Hn & He)|(-> & lk & a & Hn & He)].
    + left. split; [done|]. eapply (rep_forget k); [exact Hr|exact Hp|exact Hn|exact He].
    + right. exists p. split; [done|]. split_and!.
      * intros ->. destruct (rp_root _ _ _ _ _ _ _ _ Hr) as (svr & Hin & _). apply Hp, list_elem_of_fmap. by exists (root, svr).
      * rewrite (rp_held _ _ _ _ _ _ _ _ Hr). by apply held_of_None.
      * by eapply rep_enter.
Qed.

Lemma new_spec : wps (sfs_loadvnode U ino forcetype) k new_post.
Proof using Hr HA Hv Hino Hw Ht Hs Hd HM Hroom.
  pose proof (rp_k _ _ _ _ _ _ _ _ Hr) as Hk. destruct new_range as (Hrg & Hu & Hni). unfold sfs_loadvnode.
  pose proof (vl_vol _ _ _ (fv_vol _ _ _ _ Hv)) as Hok.
  rewrite wps_bind. apply inF_ok. eapply wps_mono; [apply (find_loaded_spec _ vs us' _ ino Hv); apply Hk|].
  intros [q|] f' [-> Hq]; [destruct Hq as (svq & Hin & <-); exfalso; apply Hni, list_elem_of_fmap; by exists (q, svq)|].
  replace (set_env (k_env k) k) with k by (by destruct k). pose proof (nd_own _ _ _ _ (fk_nodes _ _ _ _ _ _ Hk)) as Ho.
  wps_call wps_kalloc; [apply Ho|unfold SFS_VNODE_SIZE in *; lia|].
  intros p k1 (h1 & -> & Hi1 & [[-> Hl1]|(Hp & Hnp & Hl1)]).
  { simpl. wps_step. left. split; [done|]. exists vs, us, O. destruct Hr as [[_ _ Hc Hz] Hroot Hops Hf Hh HM'].
    constructor; try done. constructor; [|apply Hk|done|done]. apply nodes_heap; [apply Hk|]. by eapply owned_live_eq. }
  replace (p =? NULL) with false by lia. pose proof (owned_new _ _ _ _ Ho Hi1 Hnp Hl1) as Ho1.
  rewrite wps_bind. apply inF_ok. apply bused_spec; [done|simpl; lia|]. simpl. intros r Hru. rewrite Hu in Hru. rewrite Hru. cbn [negb].
  rewrite wps_bind. apply inF_ok. apply rblock_ok; [done|simpl; lia|done|]. cbn [negb Z.eqb]. ksimpl.
  replace (set_env (k_env k) (set_env (k_env k) (set_heap h1 k))) with (set_heap h1 k) by (by destruct k).
  destruct Hd as [[-> Hsec]|(-> & Hty & Hi)].
  - cbn [Z.eqb negb SFS_TYPE_INVAL]. rewrite Hsec, inode_roundtrip by done. by apply new_install.
  - change (negb (SFS_TYPE_FILE =? SFS_TYPE_INVAL)) with true. cbv iota. rewrite wps_bind, wps_asrt.
    split; [by apply Z.eqb_eq|]. rewrite <- Hi.
    by apply new_install.
Qed.
End new.

(** ** Taking a reference *)

Lemma load_found_spec k s B A vs us O p sv :
  rep k s B A vs us O → room (H:=H) A → (p, sv) ∈ vs →
  wps (sfs_loadvnode U (sv_ino sv) SFS_TYPE_INVAL) k (λ r k', r = (0, p) ∧ Rep k' s B (a_hold p (sv_ino sv) A)).
Proof.
  intros Hr HA Hin. pose proof (rp_k _ _ _ _ _ _ _ _ Hr) as Hk. unfold sfs_loadvnode. rewrite wps_bind. apply inF_ok.
  eapply wps_mono; [eapply find_loaded_spec; apply Hk|]. intros [q|] f' [-> Hq].
  - destruct Hq as (svq & Hinq & He). destruct (rep_ino_inj _ _ _ _ _ _ _ _ Hr _ _ _ _ Hinq Hin He) as [-> ->].
    replace (set_env (k_env k) k) with k by (by destruct k). wps_step. wps_call hold_spec; [done|done|done|].
    intros [] k' Hr'. by wps_step.
  - exfalso. apply Hq, list_elem_of_fmap. by exists (p, sv).
Qed.

Definition load_post s B A (ino : Z) (r : Z * Z) k' : Prop :=
  (r = (ENOMEM, NULL) ∧ Rep k' s B A) ∨
  ∃ p, r = (0, p) ∧ p ≠ root ∧ grabs p ino A ∧ Rep k' s B (a_hold p ino A).

Lemma load_spec k s B A ino :
  Rep k s B A → room (H:=H) A → is_Some (a_files A !! ino) →
  wps (sfs_loadvnode U ino SFS_TYPE_INVAL) k (load_post s B A ino).
Proof using Hroom.
  intros (vs & us & O & Hr) HA [fl Hfl]. pose proof (rep_vol _ _ _ _ _ _ _ _ Hr) as Hv.
  apply (rep_files _ _ _ _ _ _ _ _ Hr) in Hfl as (Hne & i & Hin & ->).
  apply elem_of_app in Hin as [(p & sv & Hin & -> & ->)%elem_of_numbered|Hin].
  - eapply wps_mono; [by eapply load_found_spec|]. intros r k' [-> Hr']. right. exists p. split_and!; try done.
    + intros ->. destruct (rp_root _ _ _ _ _ _ _ _ Hr) as (svr & Hroot & Hi & _).
      by rewrite (rep_key_inj _ _ _ _ _ _ _ _ Hr _ _ _ Hin Hroot) in Hne.
    + unfold grabs. replace (a_held A !! p) with (Some (sv_ino sv, vn_refcount (sv_v sv))); [done|]. symmetry.
      apply (rep_held _ _ _ _ _ _ _ _ Hr). eauto.
  - destruct (fv_un _ _ _ _ Hv ino i Hin) as (Hsec & Hw & Ht & Hs).
    destruct (list_elem_of_split _ _ Hin) as (us1 & us2 & ->).
    destruct (files_of_un (k_env k) vs us1 ino i us2 (rep_unique _ _ _ _ _ _ _ _ Hr)) as [Hf Hnone].
    pose proof (del_un _ _ _ _ _ _ _ Hv) as Hv'.
    eapply wps_mono; [eapply (new_spec k s B A vs _ (us1 ++ us2) O O ino SFS_TYPE_INVAL i); (done || (by left) || apply Hr)|].
    intros r k' [[-> Hr']|(p & -> & Hp & Hh & Hr')]; [by left|right]. exists p. split; [done|]. split; [done|].
    unfold grabs, a_hold. rewrite Hh. simpl. split.
    + intros q j n (sv & Hq & <- & _)%(rep_held _ _ _ _ _ _ _ _ Hr) He.
      destruct (new_range k vs (us1 ++ us2) O ino i Hv') as (_ & _ & Hni). apply Hni, list_elem_of_fmap. by exists (q, sv).
    + unfold A_new in Hr'. rewrite <- delete_insert_ne, <- Hf, <- (rp_files _ _ _ _ _ _ _ _ Hr) in Hr' by done. done.
Qed.

(** ** A new file *)

Definition no_data : list Z := mjoin (replicate 143 zero_block).
Definition empty_inode : sfs_inode := Inode 0 SFS_TYPE_FILE 0 (replicate 15 0) 0 (replicate 110 0).

Lemma empty_inode_file f :
  inode_wf empty_inode ∧ file_blocks f empty_inode = [] ∧ afile_of f empty_inode = AFile 0 0 no_data.
Proof. split; [|done]. constructor; try done; by repeat constructor. Qed.

Lemma inode_of_zero : inode_of zero_block = Inode 0 SFS_TYPE_INVAL 0 (replicate 15 0) 0 (replicate 110 0).
Proof. by vm_compute. Qed.

Definition make_post s B A (r : Z * Z) k' : Prop :=
  (r.2 = NULL ∧ (r.1 = ENOSPC ∨ r.1 = ENOMEM) ∧ Rep k' s B A) ∨
  ∃ p ino, r = (0, p) ∧ p ≠ root ∧ ino ≠ SFS_ROOT_LOCATION ∧ a_held A !! p = None ∧ a_files A !! ino = None ∧
    Rep k' s B (Afs (a_ents A) (<[ino := AFile 0 0 no_data]> (a_files A)) (<[p := (ino, 1)]> (a_held A))).

Lemma make_spec k s B A :
  Rep k s B A → room (H:=H) A → wps (sfs_makeobj U SFS_TYPE_FILE) k (make_post s B A).
Proof using Hroom.
  intros (vs & us & O & Hr) HA. pose proof (rp_k _ _ _ _ _ _ _ _ Hr) as Hk. pose proof (rep_vol _ _ _ _ _ _ _ _ Hr) as Hv.
  unfold sfs_makeobj. rewrite wps_bind. apply inF_ok.
  eapply wps_mono; [apply (balloc_spec U (k_env k)), Hv|]. intros [r b] f' [[-> Ha]|(-> & -> & _)].
  2: { change (negb (ENOSPC =? 0)) with true. cbv iota. wps_step. left. replace (set_env (k_env k) k) with k by (by destruct k).
       split; [done|]. split; [by left|]. by exists vs, us, O. }
  cbn [negb Z.eqb]. destruct (fsvol_alloc _ _ _ _ _ _ Hv Ha) as (Hv' & Hst & Hz).
  destruct (empty_inode_file f') as (Hw & Hb & _).
  assert (meta (o_super B) f' O) as Hmeta.
  { eapply meta_keep; [apply Hr|]. eapply mkeep_alloc; [apply Hv| |exact Ha]. eapply bowned_app_r, (fsvol_own _ _ _ _ Hv). }
  assert (rep (set_env f' k) s B A vs us (b :: O)) as Hr'.
  { destruct (allocated_same _ _ _ Ha) as (_ & _ & _ & Hvn & _).
    pose proof (rep_build root k (set_env f' k) s B B A vs us O vs us (b :: O) Hr) as Hx.
    change (k_env (set_env f' k)) with f' in Hx.
    rewrite <- (rp_held _ _ _ _ _ _ _ _ Hr), (files_of_still _ _ _ Hst), <- (rp_files _ _ _ _ _ _ _ _ Hr) in Hx.
    replace (Afs (a_ents A) (a_files A) (a_held A)) with A in Hx by (by destruct A). apply Hx.
    - destruct (fk_nodes _ _ _ _ _ _ Hk) as [[]]. constructor; ksimpl; rewrite ?Hvn; done.
    - exact Hv'.
    - apply Hk.
    - apply Hk.
    - apply Hr.
    - intros sv Hin. split; [done|]. apply (Hst (sv_ino sv)). by eapply in_numbered.
    - eapply meta_more; [exact Hmeta|]. intros b' Hb'. by right. }
  assert (b ≠ SFS_ROOT_LOCATION ∧ a_files A !! b = None) as [Hb1 Hbn].
  { destruct (new_range (set_env f' k) vs us O b empty_inode) as (Hrg & _ & _); [ksimpl; by rewrite Hb|].
    destruct (fsvol_own _ _ _ _ Hv') as [Hnd _]. apply NoDup_app in Hnd as (_ & Hx & _).
    assert (∀ i, (b, i) ∉ inodes vs us) as Hno.
    { intros i Hin. apply (Hx b); [|constructor]. apply elem_of_ublocks. exists b, i. auto. }
    split; [|apply eq_None_not_Some; intros [fl (_ & i & Hin & _)%(rep_files _ _ _ _ _ _ _ _ Hr)]; by apply (Hno i)].
    intros ->. destruct (rp_root _ _ _ _ _ _ _ _ Hr) as (svr & Hroot & Hi & _). apply (Hno (sv_i svr)).
    rewrite <- Hi. by eapply in_numbered. }
  eapply wps_mono; [eapply (new_spec _ s B A vs us us (b :: O) O b SFS_TYPE_FILE empty_inode Hr' HA); try done|].
  - right. ksimpl. by rewrite Hz, inode_of_zero.
  - intros r k' [[-> Hr2]|(p & -> & Hp & Hh & Hr2)]; [left; split; [done|]; split; [by right|done]|right].
    exists p, b. split_and!; try done. unfold A_new in Hr2. ksimpl.
    by rewrite (proj2 (proj2 (empty_inode_file f'))), (files_of_still _ _ _ Hst), <- (rp_files _ _ _ _ _ _ _ _ Hr) in Hr2.
Qed.
End life.

(** * Giving up a reference

    The last reference to a vnode goes through [sfs_reclaim]: the vnode leaves the table and the
    memory, and the file stays on disk, or is erased when it has no name left. *)

From S2P Require Import Prelude StateM Heap KArray KBitmap Coremap KState Thread ThreadSpec ThreadHeap Synch SynchSpec Owned.
From S2P Require Import ProcSpec Uio SfsDisk Sfs SfsBytes SfsSpec SfsIo SfsDirs SfsTrunc SfsVolume SfsTree SfsNode SfsNodeSpec.
From S2P Require Import SfsTree SfsNodeSpec SfsRep.

Section drop.
Context {H : Type} `{KHeapLaws H}.
Variable U : usermem.
Variable root : Z.
Implicit Types (k : kst H sfs_fs) (vs : list (Z * sfs_vnode)) (us : list (Z * sfs_inode)) (A : afs).
Abbreviation rep := (rep root).
Abbreviation Rep := (Rep root).

(** ** Out of the table and the memory *)

Definition unlist (p : Z) : stm (kst H sfs_fs) Z :=
  ix ← inF (vnode_index p);
  match ix with
  | None => fault_ FPanic
  | Some ix =>
      _ ← inF (a ← gets sfs_vnodes; a ← lift (array_remove a ix); modify (set_vnodes a));
      _ ← vnode_kill p;
      _ ← free_vnode p;
      mret 0
  end.

Lemma nodes_remove k s vs1 p sv vs2 B n h a e :
  nodes k s (vs1 ++ (p, sv) :: vs2) B → k_locks k !! vn_countlock (sv_v sv) = Some (Lock n 1) →
  array_rep a (vs1 ++ vs2).*1 → arr_blocks a = arr_blocks (sfs_vnodes (k_env k)) → sfs_vnodes e = a →
  owned h (arr_blocks a ++ nblks (k_locks k) (vs1 ++ vs2) ++ B) →
  nodes (set_env e (set_locks (delete (vn_countlock (sv_v sv)) (k_locks k)) (set_heap h k))) s (vs1 ++ vs2) B.
Proof.
  intros Hn Hlk Har Hab He Ho. set (lk := vn_countlock (sv_v sv)) in *.
  assert (lk ∈ node_blocks (k_locks k) (p, sv)) as Hin by (apply elem_of_cons; right; apply elem_of_cons; by left).
  assert (lk ∉ nblks (k_locks k) (vs1 ++ vs2) ∧ lk ∉ o_blocks B) as [Hni HnB].
  { destruct (nd_own _ _ _ _ Hn) as (_ & Hnd & _). apply NoDup_app in Hnd as (_ & _ & Hnd).
    rewrite nblks_app, nblks_cons in Hnd. apply NoDup_app in Hnd as (Hnd & HB & _). split.
    - rewrite Permutation_app_swap_app in Hnd. apply NoDup_app in Hnd as (_ & Hx & _). rewrite nblks_app. by apply Hx.
    - apply HB. rewrite !elem_of_app. auto. }
  destruct (locks_frame (k_locks k) (delete lk (k_locks k)) lk (vs1 ++ vs2)) as [Hl Hb]; [|done|].
  { intros l Hne. by rewrite lookup_delete_ne. }
  eapply nodes_build; [exact Hn| | | | |].
  - apply lookup_delete_None. right. apply Hn.
  - intros q svq Hq. rewrite (Hl q svq Hq). apply (nd_locks _ _ _ _ Hn q). by apply elem_of_others.
  - by rewrite He.
  - by rewrite He, Hb.
  - intros b Hbb. rewrite lookup_delete_ne; [done|]. by intros <-.
Qed.

Lemma unlist_spec k s vs1 p sv vs2 B :
  nodes k s (vs1 ++ (p, sv) :: vs2) B → NoDup (vs1 ++ (p, sv) :: vs2).*1 → sfs_mem (k_env k) !! p = Some sv →
  vn_refcount (sv_v sv) = 1 → vn_opencount (sv_v sv) = 0 →
  wps (unlist p) k (λ r k', r = 0 ∧ nodes k' s (vs1 ++ vs2) B ∧
    ∃ a, k_env k' = set_vnodes a (set_mem (delete p (sfs_mem (k_env k))) (k_env k))).
Proof.
  intros Hn Hnd Hm Hrc Hoc. unfold unlist. pose proof (nd_arr _ _ _ _ Hn) as Har.
  assert ((p, sv) ∈ vs1 ++ (p, sv) :: vs2) as Hin by (apply elem_of_app; right; constructor).
  destruct (nd_locks _ _ _ _ Hn p sv Hin) as [n Hlk]. destruct (nodes_ptr _ _ _ _ _ _ Hn Hin) as (_ & _ & Hl0).
  rewrite wps_bind. apply inF_ok. eapply wps_mono; [by eapply vnode_index_spec|]. intros ix f' [-> ->].
  rewrite wps_bind. apply inF_ok. wps_step. rewrite wps_lift. ksimpl.
  eapply wp_mono; [apply (array_remove_spec _ _ _ Har); rewrite fmap_app, length_app, length_fmap; simpl; lia|].
  intros a (Har' & Ha1 & Ha2 & _). wps_step. ksimpl.
  assert (delete (Z.to_nat (Z.of_nat (length vs1))) (vs1 ++ (p, sv) :: vs2).*1 = (vs1 ++ vs2).*1) as Hdel.
  { rewrite Nat2Z.id, !fmap_app. simpl. rewrite <- (length_fmap fst vs1). apply delete_middle. }
  rewrite Hdel in Har'. pose proof (arr_blocks_eq _ _ Ha1 Ha2) as Hab.
  set (k1 := set_env (set_vnodes a (k_env k)) k).
  eapply wps_mono; [apply (vnode_kill_spec k1 s p sv (Lock n 1) (p :: arr_blocks a ++ nblks (k_locks k) (vs1 ++ vs2) ++ B))|].
  - destruct (nd_rep _ _ _ _ Hn). by constructor.
  - done.
  - done.
  - done.
  - done.
  - done.
  - intros t Ht. by apply (nodes_quiet k s _ B p sv t Hn).
  - eapply owned_perm; [|apply (nd_own _ _ _ _ Hn)]. rewrite Hab, !nblks_app, nblks_cons. unfold node_blocks, lkname.
    simpl. rewrite Hlk. simpl. solve_Permutation.
  - intros [] k2 (h2 & v & Ho2 & ->). rewrite wps_bind. ksimpl.
    eapply wps_mono; [by apply free_vnode_spec|]. intros [] k3 (h3 & Ho3 & ->). wps_step. split; [done|]. ksimpl.
    rewrite forget_retag. split; [|by exists a]. refine (nodes_remove k s vs1 p sv vs2 B n h3 a (set_mem _ (set_vnodes a (k_env k))) Hn Hlk Har' Hab _ Ho3). done.
Qed.

(** ** Discarding a vnode *)

(** The file of the vnode [sv] is on disk only, or gone. *)
Definition settled (sv : sfs_vnode) us us' : Prop :=
  us' = if sfi_linkcount (sv_i sv) =? 0 then us else (sv_ino sv, sv_i sv) :: us.

Section discard.
Context (k : kst H sfs_fs) (s : sched) (B : outside) (vs1 vs2 : list (Z * sfs_vnode)) (p : Z) (sv : sfs_vnode).
Context (us : list (Z * sfs_inode)) (O : list Z).
Hypothesis Hn : nodes k s (vs1 ++ (p, sv) :: vs2) B.
Hypothesis Hv : fsvol (k_env k) (vs1 ++ (p, sv) :: vs2) us O.
Hypothesis Hops : vn_ops (sv_v sv) = Some FileOps.
Hypothesis Hrc : vn_refcount (sv_v sv) = 1.
Hypothesis Hoc : vn_opencount (sv_v sv) = 0.
Hypothesis Hempty : sfi_linkcount (sv_i sv) = 0 → file_blocks (k_env k) (sv_i sv) = [].

Definition discarded (r : Z) k' : Prop :=
  r = 0 ∧ nodes k' s (vs1 ++ vs2) B ∧ ∃ us', fsvol (k_env k') (vs1 ++ vs2) us' O ∧ settled sv us us' ∧
    (∀ ino i, (ino, i) ∈ inodes (vs1 ++ vs2) us' → still (k_env k) (k_env k') i) ∧ mkeep (k_env k) O (k_env k').

Lemma in_middle : (p, sv) ∈ vs1 ++ (p, sv) :: vs2.
Proof using. apply elem_of_app. right. constructor. Qed.

(** From the number of links on, when the inode is on disk. *)
Lemma settle_spec f1 (sv1 := sv_set_dirty 0 sv) :
  fsvol f1 (vs1 ++ (p, sv1) :: vs2) us O → file_blocks f1 (sv_i sv) = file_blocks (k_env k) (sv_i sv) →
  wps (if sfi_linkcount (sv_i sv) =? 0 then sfs_bfree (sv_ino sv) else mret tt) f1
    (λ _ f2, sfs_vnodes f2 = sfs_vnodes f1 ∧ sfs_mem f2 = sfs_mem f1 ∧ ∃ us',
       fsvol f2 (vs1 ++ vs2) us' O ∧ settled sv us us' ∧
       (∀ ino i, (ino, i) ∈ inodes (vs1 ++ vs2) us' → still f1 f2 i) ∧ mkeep f1 O f2).
Proof using Hops Hempty.
  intros Hv1 Hfb. pose proof (del_vnode _ _ _ _ _ _ _ Hv1) as Hd.
  assert ((p, sv1) ∈ vs1 ++ (p, sv1) :: vs2) as Hin by (apply elem_of_app; right; constructor).
  pose proof (in_numbered _ us _ _ Hin) as Hi. destruct (inode_range _ _ _ _ _ _ Hv1 Hi) as [Hrg Hu].
  change (sv_ino sv1) with (sv_ino sv) in *. change (sv_i sv1) with (sv_i sv) in *. rewrite Hfb in Hd.
  unfold settled. destruct (sfi_linkcount (sv_i sv) =? 0) eqn:E.
  - rewrite Hempty in Hd by lia. simpl in Hd. eapply wps_mono; [apply bfree_spec; [apply Hv1|done|done]|].
    intros [] f2 Hf. destruct (fsvol_free _ _ _ _ _ _ Hd Hf) as [Hv2 Hst].
    pose proof (mkeep_freed _ _ _ O Hf) as Hkeep.
    destruct Hf as (_ & bm & x & -> & _). split; [done|]. split; [done|]. exists us. by split_and!.
  - wps_step. split; [done|]. split; [done|]. exists ((sv_ino sv, sv_i sv) :: us). split_and!; try done; [|apply mkeep_refl].
    destruct (fsvol_mem _ _ _ _ _ _ Hv1 Hin) as [_ Hnode]. unfold node_ok in Hnode.
    change (sv_v sv1) with (sv_v sv) in Hnode. rewrite Hops in Hnode. destruct Hnode as [Ht Hs].
    apply add_un; [by rewrite Hfb|by apply (fv_clean _ _ _ _ Hv1 p sv1)|exact (fsvol_wf _ _ _ _ _ _ Hv1 Hi)|done|done].
Qed.

Lemma discard_spec : wps (discard U p) k discarded.
Proof using Hn Hv Hops Hrc Hoc Hempty.
  unfold discard. fold (unlist p). rewrite wps_bind. apply inF_ok. eapply wps_mono; [by apply fsvol_sync|].
  intros r f1 (-> & Hv1 & Hst1 & Hvn1 & Hm1 & d & Hf1 & Hd1). cbn [negb Z.eqb]. rewrite wps_bind.
  eapply getv_ok; [ksimpl; by rewrite Hm1, lookup_insert_eq|]. change (sv_i (sv_set_dirty 0 sv)) with (sv_i sv).
  change (sv_ino (sv_set_dirty 0 sv)) with (sv_ino sv). rewrite wps_bind.
  destruct (Hst1 (sv_ino sv) (sv_i sv)) as (_ & Hfb & _); [by eapply in_numbered, in_middle|].
  eapply (wps_mono _ _ (λ (_ : unit) k2, ∃ f2, k2 = set_env f2 k ∧ sfs_vnodes f2 = sfs_vnodes f1 ∧
    sfs_mem f2 = sfs_mem f1 ∧ ∃ us', fsvol f2 (vs1 ++ vs2) us' O ∧ settled sv us us' ∧
       (∀ ino i, (ino, i) ∈ inodes (vs1 ++ vs2) us' → still f1 f2 i) ∧ mkeep f1 O f2)).
  { pose proof (settle_spec f1 Hv1 Hfb) as Hs. destruct (sfi_linkcount (sv_i sv) =? 0).
    - apply inF_ok. ksimpl. eapply wps_mono; [exact Hs|]. intros [] f2 Hx. exists f2. split; [by destruct k|done].
    - wps_step. exists f1. split; [done|]. exact Hs. }
  assert (mkeep (k_env k) O f1) as Hk1.
  { rewrite Hf1. eapply mkeep_inode; [exact Hv|by eapply in_numbered, in_middle|done]. }
  intros [] k2 (f2 & -> & Hvn2 & Hm2 & us' & Hv2 & Hset & Hst2 & Hk2).
  set (sv1 := sv_set_dirty 0 sv). eapply wps_mono; [apply (unlist_spec (set_env f2 k) s vs1 p sv1 vs2 B)|].
  - eapply nodes_env; [exact Hn|done|]. by rewrite Hvn2, Hvn1.
  - apply Hv1.
  - ksimpl. by rewrite Hm2, Hm1, lookup_insert_eq.
  - done.
  - done.
  - intros r k3 (-> & Hn3 & a & He3). split; [done|]. split; [done|]. exists us'. rewrite He3. ksimpl. split_and!.
    + apply fsvol_vnodes, fsvol_forget_mem; [done|]. by eapply key_not_other.
    + done.
    + intros ino i Hin. apply (still_trans _ f1); [|apply (Hst2 ino i Hin)]. apply (Hst1 ino). rewrite inodes_vn.
      rewrite Hset in Hin. destruct (sfi_linkcount (sv_i sv) =? 0); [by right|].
      apply elem_of_app in Hin as [Hin|[[= -> ->]|Hin]%elem_of_cons]; [right|left|right];
        apply elem_of_app; by constructor.
    + eapply mkeep_trans; [exact Hk1|]. eapply mkeep_trans; [exact Hk2|]. by apply mkeep_mem.
Qed.
End discard.

(** ** The last reference *)

Lemma rep_discard k k' s B A vs1 p sv vs2 us O us' O' :
  rep k s B A (vs1 ++ (p, sv) :: vs2) us O → p ≠ root → vn_refcount (sv_v sv) = 1 → o_open B p = 0 →
  nodes k' s (vs1 ++ vs2) B → fsvol (k_env k') (vs1 ++ vs2) us' O' → settled sv us us' →
  (∀ ino i, (ino, i) ∈ inodes (vs1 ++ vs2) us' → still (k_env k) (k_env k') i) → meta (o_super B) (k_env k') O' →
  Rep k' s B (a_drop p A).
Proof.
  intros Hr Hp Hrc Hzero Hn Hv Hset Hst Hmeta. pose proof (in_middle vs1 vs2 p sv) as Hin.
  pose proof (rep_ino _ _ _ _ _ _ _ _ Hr p sv Hin Hp) as Hne.
  assert (a_held A !! p = Some (sv_ino sv, 1)) as Hh by (apply (rep_held _ _ _ _ _ _ _ _ Hr); eauto).
  assert (a_files A !! sv_ino sv = Some (afile_of (k_env k) (sv_i sv))) as Hf.
  { apply (rep_files _ _ _ _ _ _ _ _ Hr). split; [done|]. exists (sv_i sv). split; [by eapply in_numbered|done]. }
  exists (vs1 ++ vs2), us', O'.
  pose proof (rep_build root k k' s B B A _ us O (vs1 ++ vs2) us' O' Hr Hn Hv) as Hx.
  assert (delete SFS_ROOT_LOCATION (files_of (k_env k') (inodes (vs1 ++ vs2) us')) = a_files (a_drop p A) ∧
    held_of (vs1 ++ vs2) = delete p (a_held A)) as [HF HH].
  { destruct (held_of_mid _ _ _ _ (rep_keys _ _ _ _ _ _ _ _ Hr)) as [Hho Hnone]. split.
    2: { by rewrite (rp_held _ _ _ _ _ _ _ _ Hr), Hho, delete_insert_id. }
    rewrite (files_of_still _ _ _ Hst). unfold a_drop. rewrite Hh, Hf. cbn [Z.ltb Z.compare Pos.compare af_links afile_of].
    destruct (files_of_vn (k_env k) _ _ _ _ _ (rep_unique _ _ _ _ _ _ _ _ Hr)) as [Hfi Hfn].
    unfold settled in Hset. change (1 <? 1) with false. cbv iota. destruct (sfi_linkcount (sv_i sv) =? 0); subst us'; simpl.
    - rewrite (rp_files _ _ _ _ _ _ _ _ Hr), Hfi, delete_delete, delete_insert_id by done. done.
    - rewrite (rp_files _ _ _ _ _ _ _ _ Hr). f_equal. apply files_of_perm; [apply (fsvol_unique _ _ _ _ Hv)|].
      rewrite inodes_vn. apply (inodes_un _ []). }
  rewrite HF, HH in Hx.
  assert (a_drop p A = Afs (a_ents A) (a_files (a_drop p A)) (delete p (a_held A))) as ->.
  { unfold a_drop. rewrite Hh, Hf. change (1 <? 1) with false. cbv iota. by destruct (af_links _ =? 0). }
  apply Hx.
  - intros q svq Hq. by apply (fk_cnt _ _ _ _ _ _ (rp_k _ _ _ _ _ _ _ _ Hr) q), elem_of_others.
  - intros q Hq. destruct (decide (q = p)) as [->|Hqp]; [done|]. apply (fk_zero _ _ _ _ _ _ (rp_k _ _ _ _ _ _ _ _ Hr)).
    rewrite fmap_app in *. by intros [[=]|Hin']%elem_of_this.
  - intros q svq Hq. by apply (rp_ops _ _ _ _ _ _ _ _ Hr), elem_of_others.
  - intros svr Hq. destruct (elem_of_this _ _ _ _ Hq) as [[= <- <-]|Hq']; [done|]. split; [done|].
    apply (Hst (sv_ino svr)). by eapply in_numbered.
  - done.
Qed.

Section last.
Context (k : kst H sfs_fs) (s : sched) (B : outside) (A : afs) (vs1 vs2 : list (Z * sfs_vnode)) (p : Z) (sv : sfs_vnode).
Context (us : list (Z * sfs_inode)) (O : list Z).
Hypothesis Hr : rep k s B A (vs1 ++ (p, sv) :: vs2) us O.
Hypothesis Hp : p ≠ root.
Hypothesis Hzero : o_open B p = 0.

Lemma last_facts : sfs_mem (k_env k) !! p = Some sv ∧ node_ok (k_env k) sv ∧ vn_ops (sv_v sv) = Some FileOps ∧
  1 ≤ vn_refcount (sv_v sv) ∧ vn_opencount (sv_v sv) = 0.
Proof using Hr Hp Hzero.
  pose proof (in_middle vs1 vs2 p sv) as Hin. pose proof (rp_k _ _ _ _ _ _ _ _ Hr) as Hk.
  destruct (fsvol_mem _ _ _ _ _ _ (fk_vol _ _ _ _ _ _ Hk) Hin). split; [done|]. split; [done|].
  split; [by apply (rp_ops _ _ _ _ _ _ _ _ Hr p)|]. destruct (fk_cnt _ _ _ _ _ _ Hk p sv Hin) as (? & ? & _). by rewrite <- Hzero.
Qed.

(** Truncating to nothing. *)
Lemma empty_spec :
  wps (VOP_ p (VOP_TRUNCATE U p 0)) k (λ r k', r = 0 ∧ ∃ sv' fl, af_links fl = sfi_linkcount (sv_i sv) ∧
    rep k' s B (set_files (<[sv_ino sv := fl]> (a_files A)) A) (vs1 ++ (p, sv') :: vs2) us O ∧
    sfi_linkcount (sv_i sv') = sfi_linkcount (sv_i sv) ∧ sv_v sv' = sv_v sv ∧ file_blocks (k_env k') (sv_i sv') = []).
Proof using Hr Hp Hzero.
  destruct last_facts as (Hm & Hnode & Hops & Hrc & Hoc). pose proof (rp_k _ _ _ _ _ _ _ _ Hr) as Hk.
  destruct (volume_focus _ _ _ _ _ _ (fv_vol _ _ _ _ (fk_vol _ _ _ _ _ _ Hk))) as [Hf _].
  eapply (VOP__ok k s _ B p sv); [apply Hk|apply in_middle|done|congruence|done|lia|].
  apply (vop_spec _ p sv); [done|done| |congruence]. intros _.
  eapply wps_mono; [apply (truncate_spec U _ p sv _ 0 Hf); lia|]. intros r f' (-> & sv' & Ht). split; [done|].
  pose proof (tr_step _ _ _ _ _ _ _ _ Ht) as Hst. destruct (fs_meta _ _ _ _ _ _ Hst) as (Hv & _ & _ & Hl & _).
  exists sv', (afile_of f' (sv_i sv')). split_and!; [done| |done|done|by eapply truncated_nil].
  apply rep_fstep; [done|done| |done]. eapply node_file; [done|done|done|]. rewrite (tr_size _ _ _ _ _ _ _ _ Ht). lia.
Qed.

Lemma reclaim_spec : vn_refcount (sv_v sv) = 1 → wps (sfs_reclaim U p) k (λ _ k', Rep k' s B (a_drop p A)).
Proof using Hr Hp Hzero.
  intros Hrc1. destruct last_facts as (Hm & Hnode & Hops & _ & Hoc). pose proof (rp_k _ _ _ _ _ _ _ _ Hr) as Hk.
  pose proof (in_middle vs1 vs2 p sv) as Hin. pose proof (fk_nodes _ _ _ _ _ _ Hk) as Hn.
  destruct (nd_locks _ _ _ _ Hn p sv Hin) as [n Hlk]. destruct (nodes_ptr _ _ _ _ _ _ Hn Hin) as (_ & _ & Hl0).
  unfold sfs_reclaim. rewrite wps_bind. eapply getv_ok; [done|]. rewrite wps_bind.
  eapply acquire_ok; [apply Hn|done|done|]. rewrite wps_bind. eapply getv_ok; [done|]. rewrite Hrc1. cbn [negb Z.eqb Pos.eqb].
  rewrite wps_bind. replace (set_locks (<[vn_countlock (sv_v sv) := Lock n 0]> (k_locks k)) k)
    with (set_env (k_env k) (set_locks (<[vn_countlock (sv_v sv) := Lock n 0]> (k_locks k)) k)) by (by destruct k).
  eapply unlock_ok; [done|done|done|done|]. replace (set_env (k_env k) k) with k by (by destruct k).
  rewrite wps_bind. eapply getv_ok; [done|]. rewrite wps_bind. destruct (sfi_linkcount (sv_i sv) =? 0) eqn:E.
  - eapply wps_mono; [apply empty_spec|]. intros r k1 (-> & sv1 & fl & Hfl & Hr1 & Hl1 & Hv1 & Hb1). cbn [negb Z.eqb].
    pose proof (rp_k _ _ _ _ _ _ _ _ Hr1) as Hk1.
    eapply wps_mono; [apply (discard_spec k1 s B vs1 vs2 p sv1 us O)|]; try (by rewrite ?Hv1); [apply Hk1|apply Hk1|].
    intros r k2 (_ & Hn2 & us2 & Hv2 & Hset & Hst & Hkeep).
    assert (a_drop p A = a_drop p (set_files (<[sv_ino sv := fl]> (a_files A)) A)) as ->; 
      [|eapply rep_discard; rewrite ?Hv1; try done; eapply meta_keep; [apply Hr1|done]].
    unfold a_drop. cbn [set_files a_held a_files].
    replace (a_held A !! p) with (Some (sv_ino sv, 1)) by (symmetry; apply (rep_held _ _ _ _ _ _ _ _ Hr); eauto).
    change (1 <? 1) with false. cbv iota. rewrite lookup_insert_eq, Hfl, E.
    replace (a_files A !! sv_ino sv) with (Some (afile_of (k_env k) (sv_i sv))).
    2: { symmetry. apply (rep_files _ _ _ _ _ _ _ _ Hr). split; [by apply (rep_ino _ _ _ _ _ _ _ _ Hr p)|].
         exists (sv_i sv). split; [by eapply in_numbered|done]. }
    simpl. rewrite E. unfold set_files, set_held. simpl. by rewrite delete_insert_eq.
  - wps_step. cbn [negb Z.eqb]. eapply wps_mono; [apply (discard_spec k s B vs1 vs2 p sv us O)|]; try done; [apply Hk|lia|].
    intros r k2 (_ & Hn2 & us2 & Hv2 & Hset & Hst & Hkeep). eapply rep_discard; try done. eapply meta_keep; [apply Hr|done].
Qed.
End last.

(** Giving up a reference; the last one to the root directory stays. *)
Lemma drop_spec k s B A p ino n :
  Rep k s B A → a_held A !! p = Some (ino, n) → (p ≠ root ∧ o_open B p = 0) ∨ 1 < n →
  wps (vnode_decref U p) k (λ _ k', Rep k' s B (a_drop p A)).
Proof.
  intros (vs & us & O & Hr) Hh Hpn. pose proof Hh as (sv & Hin & <- & <-)%(rep_held _ _ _ _ _ _ _ _ Hr).
  pose proof (rp_k _ _ _ _ _ _ _ _ Hr) as Hk. pose proof (fsk_mem _ _ _ _ _ _ _ _ Hk Hin) as Hm.
  destruct (fk_cnt _ _ _ _ _ _ Hk p sv Hin) as (Hrc & Hoc & _). destruct (decide (1 < vn_refcount (sv_v sv))) as [Hlt|Hle].
  - eapply (decref_ok U k s vs B p sv); [apply Hk|done|done|done|]. unfold a_drop. rewrite Hh.
    replace (1 <? vn_refcount (sv_v sv)) with true by lia. apply (rep_recount root _ _ _ _ _ _ _ _ _ _ Hr Hin). lia.
  - assert (p ≠ root ∧ o_open B p = 0) as [Hp Hz] by tauto. eapply (decref_last_ok U k s vs B p sv); [apply Hk|done|done|lia|].
    eapply (VOP_file_ok k s vs B p sv); [apply Hk|done|done|by apply (rp_ops _ _ _ _ _ _ _ _ Hr p)|done|lia|].
    destruct (list_elem_of_split _ _ Hin) as (vs1 & vs2 & ->). eapply wps_mono; [eapply reclaim_spec; [done|done|done|lia]|]. done.
Qed.
End drop.

(** * The steps of the directory operations

    What the parts of [sfs_creat], [sfs_link], [sfs_remove], [sfs_rename] and [sfs_lookup] do to
    the file system [afs]: looking a name up, entering and clearing a slot of the root directory,
    and changing a link count. *)

From S2P Require Import Prelude StateM Heap KArray KBitmap Coremap KState Thread ThreadSpec ThreadHeap Synch SynchSpec Owned.
From S2P Require Import ProcSpec Uio SfsDisk Sfs SfsBytes SfsSpec SfsIo SfsDirs SfsTrunc SfsVolume SfsTree SfsNode SfsNodeSpec.
From S2P Require Import SfsTree SfsNodeSpec SfsRep.

Section name.
Context {H : Type} `{KHeapLaws H}.
Variable U : usermem.
Variable root : Z.
Hypothesis Hroom : SFS_VNODE_SIZE < kh_max.
Implicit Types (k : kst H sfs_fs) (vs : list (Z * sfs_vnode)) (us : list (Z * sfs_inode)) (A : afs).
Abbreviation rep := (rep root).
Abbreviation Rep := (Rep root).

Lemma Rep_dir k s B A : Rep k s B A → names_once (a_ents A) ∧ zlen (a_ents A) ≤ 1144.
Proof.
  intros (vs & us & O & Hr). destruct (rep_dir _ _ _ _ _ _ _ _ Hr) as (sv & vs1 & vs2 & _ & _ & _ & -> & _ & Hd).
  split; [apply Hd|]. destruct (dir_bound _ _ _ _ Hd) as [Hb _]. rewrite length_dirents. lia.
Qed.

(** Numbers of files fit in a directory entry. *)
Lemma Rep_ino k s B A ino fl : Rep k s B A → a_files A !! ino = Some fl → is_u32 ino ∧ ino ≠ 0 ∧ 0 ≤ af_links fl.
Proof.
  intros (vs & us & O & Hr) (_ & i & Hin & ->)%(rep_files _ _ _ _ _ _ _ _ Hr). pose proof (rep_vol _ _ _ _ _ _ _ _ Hr) as Hv.
  destruct (inode_range _ _ _ _ _ _ Hv Hin) as [Hi _]. destruct (fsvol_wf _ _ _ _ _ _ Hv Hin) as [_ _ Hl _ _ _ _ _].
  pose proof (vl_vol _ _ _ (fv_vol _ _ _ _ Hv)) as [[_ Hmax _] _ Hs _ _ _ _]. split_and!; [in_range|lia|apply Hl].
Qed.

Lemma Rep_count k s B A p ino n : Rep k s B A → a_held A !! p = Some (ino, n) → 1 ≤ n.
Proof.
  intros (vs & us & O & Hr) (sv & Hin & _ & <-)%(rep_held _ _ _ _ _ _ _ _ Hr).
  by apply (fk_cnt _ _ _ _ _ _ (rp_k _ _ _ _ _ _ _ _ Hr) p).
Qed.

(** Two vnodes never stand for one file. *)
Lemma Rep_inj k s B A p q ino n m :
  Rep k s B A → a_held A !! p = Some (ino, n) → a_held A !! q = Some (ino, m) → p = q.
Proof.
  intros (vs & us & O & Hr) (sv & Hin & He & _)%(rep_held _ _ _ _ _ _ _ _ Hr) (svq & Hinq & Heq & _)%(rep_held _ _ _ _ _ _ _ _ Hr).
  by destruct (rep_ino_inj _ _ _ _ _ _ _ _ Hr p sv q svq Hin Hinq) as [-> _]; [congruence|].
Qed.

(** A vnode that is held is in memory. *)
Lemma Rep_vnode k s B A p ino n :
  Rep k s B A → a_held A !! p = Some (ino, n) → p ≠ root → ∃ sv, sfs_mem (k_env k) !! p = Some sv ∧ sv_ino sv = ino ∧
    sfi_type (sv_i sv) = SFS_TYPE_FILE ∧ a_files A !! ino = Some (afile_of (k_env k) (sv_i sv)).
Proof.
  intros (vs & us & O & Hr) Hh Hp. destruct (rep_vnode _ _ _ _ _ _ _ _ Hr p ino n Hh Hp) as (sv & _ & ? & ? & _ & _ & _ & ? & ?).
  by exists sv.
Qed.

Lemma Rep_root k s B A : Rep k s B A → ∃ sv n, sfs_mem (k_env k) !! root = Some sv ∧ sv_ino sv = SFS_ROOT_LOCATION ∧
  sfi_type (sv_i sv) = SFS_TYPE_DIR ∧ a_held A !! root = Some (SFS_ROOT_LOCATION, n).
Proof.
  intros (vs & us & O & Hr). destruct (rep_dir _ _ _ _ _ _ _ _ Hr) as (sv & vs1 & vs2 & -> & Hi & _ & _ & Hm & Hd).
  exists sv, (vn_refcount (sv_v sv)). split_and!; [done|done|apply Hd|]. apply (rep_held _ _ _ _ _ _ _ _ Hr).
  exists sv. split; [apply in_middle|done].
Qed.

(** ** The root directory *)

Lemma find_spec k s B A name :
  Rep k s B A →
  wps (inF (sfs_dir_findname U root name)) k (λ '(r, found, _) k', k' = k ∧ found_post (a_ents A) name r found).
Proof.
  intros (vs & us & O & Hr). destruct (rep_dir _ _ _ _ _ _ _ _ Hr) as (sv & vs1 & vs2 & -> & _ & _ & He & _ & Hd).
  apply inF_ok. eapply wps_mono; [by eapply findname_spec|]. intros [[r found] empty] f' (-> & _ & Hf).
  split; [by destruct k|]. by rewrite He.
Qed.

Lemma found_name A name r ino slot :
  names_once (a_ents A) → found_post (a_ents A) name r (Some (ino, slot)) → a_names A !! name = Some ino.
Proof.
  intros Hn (_ & _ & d & Hd & Hl & Hnm & Hi). apply dmap_lookup; [done|]. exists d. split_and!; try done.
  by eapply list_elem_of_lookup_2.
Qed.

(** A new entry, or none. *)
Definition linked A (name : list Z) (ino r slot : Z) (es : list sfs_dir) : Prop :=
  (r = 0 ∧ a_names A !! name = None ∧ zlen name < SFS_NAMELEN ∧ dmap es = <[name := ino]> (a_names A) ∧ 0 ≤ slot ∧
   es !! Z.to_nat slot = Some (new_entry ino name) ∧
   ∀ j d, a_ents A !! j = Some d → live d → es !! j = Some d) ∨
  (dmap es = a_names A ∧
   ((r = EEXIST ∧ is_Some (a_names A !! name)) ∨ (r = ENAMETOOLONG ∧ SFS_NAMELEN ≤ zlen name ∧ a_names A !! name = None) ∨
    r = ENOSPC ∨ r = EINVAL)).

Lemma link_spec k s B A name ino :
  Rep k s B A → is_u32 ino → ino ≠ 0 → (∀ c, c ∈ name → c ≠ 0) →
  wps (inF (sfs_dir_link U root name ino)) k (λ '(r, slot) k', ∃ es,
    Rep k' s B (set_ents es A) ∧ linked A name ino r slot es).
Proof.
  intros (vs & us & O & Hr) Hi Hi0 Hc.
  destruct (rep_dir _ _ _ _ _ _ _ _ Hr) as (sv & vs1 & vs2 & -> & _ & Hops & He & _ & Hd).
  apply inF_ok. eapply wps_mono; [by eapply dir_link_spec|]. intros [r slot] f' (sv' & Hst & Hres).
  exists (dirents f' (sv_i sv')). split.
  { exists (vs1 ++ (root, sv') :: vs2), us, O. apply rep_dstep with sv; [done|apply Hst|by eapply node_dir_step|done]. }
  unfold linked, a_names, dirmap in *. rewrite He. destruct Hres as [Hres|[(-> & Hs & ->)|[(-> & Hl & Hn & ->)|[Hr' Hm]]]].
  - by left.
  - right. rewrite (dir_step_same _ _ _ _ _ Hd Hst). split; [done|]. by left.
  - right. rewrite (dir_step_same _ _ _ _ _ Hd Hst). split; [done|]. right. by left.
  - right. split; [done|]. destruct Hr' as [[-> _]|[-> _]]; tauto.
Qed.

Lemma unlink_spec k s B A slot d :
  Rep k s B A → 0 ≤ slot → a_ents A !! Z.to_nat slot = Some d → live d →
  wps (inF (sfs_dir_unlink U root slot)) k (λ r k', r = 0 ∧ ∃ es,
    Rep k' s B (set_ents es A) ∧ dmap es = delete (dname d) (a_names A)).
Proof.
  intros (vs & us & O & Hr) Hs He0 Hl.
  destruct (rep_dir _ _ _ _ _ _ _ _ Hr) as (sv & vs1 & vs2 & -> & _ & Hops & He & _ & Hd). rewrite He in He0.
  apply inF_ok. eapply wps_mono; [by eapply dir_unlink_spec|]. intros r f' (-> & sv' & Hst & Hm). split; [done|].
  exists (dirents f' (sv_i sv')). split.
  - exists (vs1 ++ (root, sv') :: vs2), us, O. apply rep_dstep with sv; [done|apply Hst|by eapply node_dir_step|done].
  - unfold a_names. by rewrite He.
Qed.

(** ** Link counts *)

Definition a_relink (ino d : Z) A : afs :=
  set_files (alter (λ fl, AFile (af_links fl + d) (af_size fl) (af_data fl)) ino (a_files A)) A.

Lemma relink_spec k s B A p ino n fl d :
  Rep k s B A → a_held A !! p = Some (ino, n) → p ≠ root → a_files A !! ino = Some fl →
  0 ≤ af_links fl + d < 65536 →
  wps (set_linkcount p d) k (λ _ k1, wps (mark_dirty p) k1 (λ _ k', Rep k' s B (a_relink ino d A))).
Proof.
  intros (vs & us & O & Hr) Hh Hp Hfl Hd.
  destruct (rep_vnode _ _ _ _ _ _ _ _ Hr p ino n Hh Hp) as (sv & Hin & Hm & Hi & Hn & Hn1 & Hops & Ht & Hf).
  rewrite Hfl in Hf. injection Hf as ->. simpl in Hd.
  destruct (list_elem_of_split _ _ Hin) as (vs1 & vs2 & ->). pose proof (rep_vol _ _ _ _ _ _ _ _ Hr) as Hv.
  set (i' := i_set_linkcount (sfi_linkcount (sv_i sv) + d) (sv_i sv)). set (sv' := sv_set_dirty 1 (sv_set_i i' sv)).
  unfold set_linkcount, upd_inode. apply inF_ok. rewrite wps_bind. eapply get_vn_ok; [done|]. unfold put_vn. wps_step.
  unfold mark_dirty. apply inF_ok. rewrite wps_bind. eapply get_vn_ok; [by apply lookup_insert_eq|]. unfold put_vn. wps_step.
  unfold u16. rewrite Z.mod_small by lia. ksimpl.
  change (Rep (set_env (retag p sv' (retag p (sv_set_i i' sv) (k_env k))) k) s B (a_relink ino d A)).
  rewrite retag_retag. set (f' := retag p sv' (k_env k)). exists (vs1 ++ (p, sv') :: vs2), us, O.
  pose proof (rep_change_file root k (set_env f' k) s B B A vs1 vs2 p sv sv' us O O Hr) as Hx.
  rewrite (insert_id (a_held A) p) in Hx by (by rewrite Hh, <- Hi, <- Hn).
  unfold a_relink. replace (alter _ ino (a_files A)) with (<[sv_ino sv := afile_of f' (sv_i sv')]> (a_files A)).
  2: { rewrite Hi. apply map_eq. intros j. destruct (decide (j = ino)) as [->|Hne].
       - rewrite lookup_insert_eq, lookup_alter_eq, Hfl. done.
       - by rewrite lookup_insert_ne, lookup_alter_ne by done. }
  apply Hx; [| | |done|done| |done| |done].
  - eapply nodes_env; [apply Hr|done|done].
  - destruct (fsvol_wf _ _ _ _ _ _ Hv (in_numbered _ us _ _ Hin)). destruct (fsvol_mem _ _ _ _ _ _ Hv Hin) as [_ Hnode].
    eapply fsvol_retag; [exact Hv|done|done| | |done]; [by constructor; simpl|done].
  - done.
  - exact (fk_cnt _ _ _ _ _ _ (rp_k _ _ _ _ _ _ _ _ Hr) p sv Hin).
  - eapply meta_keep; [apply Hr|by apply mkeep_mem].
Qed.
End name.
