(* ===== verification/SfsView.v ===== *)
(** * What the file system promises its clients

    [view] is a file system without its mechanics: names for files, the files with their bytes, and
    the references clients hold.  [nspec] says what each operation may answer and how the view
    changes.  A file lives as long as it has a name or is held; [consistent] is the condition on
    link counts that makes the code keep that promise. *)

From S2P Require Import Prelude StateM Heap KArray KBitmap Coremap KState Thread ThreadSpec ThreadHeap Synch SynchSpec Owned.
From S2P Require Import ProcSpec Uio SfsDisk Sfs SfsBytes SfsSpec SfsIo SfsDirs SfsTrunc SfsVolume SfsTree SfsNode SfsNodeSpec.
From S2P Require Import SfsTree SfsNodeSpec SfsRep SfsLife.

Record view := View {
  v_names : gmap (list Z) Z;
  v_files : gmap Z (Z * list Z);
  v_held : gmap Z (Z * Z);
}.

Definition bytes_of (fl : afile) : Z * list Z := (af_size fl, af_data fl).
Definition view_of (A : afs) : view := View (a_names A) (bytes_of <$> a_files A) (a_held A).

Definition in_use (ino : Z) (V : view) : Prop :=
  (∃ nm, v_names V !! nm = Some ino) ∨ (∃ p n, v_held V !! p = Some (ino, n)).

(** ** The operations *)

Inductive nop :=
  | NLookup (name : list Z)
  | NCreat (name : list Z) (excl : bool)
  | NLink (name : list Z) (p : Z)
  | NRemove (name : list Z)
  | NRename (n1 n2 : list Z)
  | NHold (p : Z)
  | NDrop (p : Z)
  | NRead (p pos len : Z)
  | NWrite (p pos : Z) (data : list Z)
  | NTruncate (p len : Z).

(** The code, the vnode and the bytes an operation answers. *)
Record nres := NRes { n_code : Z; n_ptr : Z; n_bytes : list Z }.

Definition v_hold (p ino : Z) (V : view) : view :=
  View (v_names V) (v_files V) (<[p := (ino, default 0 (snd <$> v_held V !! p) + 1)]> (v_held V)).
Definition v_grabs (p ino : Z) (V : view) : Prop :=
  match v_held V !! p with
  | Some (j, _) => j = ino
  | None => ∀ q j n, v_held V !! q = Some (j, n) → j ≠ ino
  end.

(** A file that is no longer in use disappears. *)
Definition settle (ino : Z) (V V' : view) : Prop :=
  (in_use ino V ∧ V' = V) ∨ (¬ in_use ino V ∧ V' = View (v_names V) (delete ino (v_files V)) (v_held V)).

Definition with_names (m : gmap (list Z) Z) (V : view) : view := View m (v_files V) (v_held V).
Definition with_file (ino : Z) (x : Z * list Z) (V : view) : view := View (v_names V) (<[ino := x]> (v_files V)) (v_held V).
Definition code (r : Z) : nres := NRes r NULL [].

(** Why a name cannot be entered. *)
Inductive noentry (V : view) (name : list Z) : Z → Prop :=
  | ne_exists : is_Some (v_names V !! name) → noentry V name EEXIST
  | ne_long : SFS_NAMELEN ≤ zlen name → v_names V !! name = None → noentry V name ENAMETOOLONG
  | ne_full : noentry V name ENOSPC
  | ne_slots : noentry V name EINVAL.

Inductive nspec (V : view) : nop → nres → view → Prop :=
  | s_lookup name ino p :
      v_names V !! name = Some ino → v_grabs p ino V → nspec V (NLookup name) (NRes 0 p []) (v_hold p ino V)
  | s_lookup_none name : v_names V !! name = None → nspec V (NLookup name) (code ENOENT) V
  | s_lookup_nomem name : nspec V (NLookup name) (code ENOMEM) V
  | s_creat_new name excl ino p :
      v_names V !! name = None → zlen name < SFS_NAMELEN → v_files V !! ino = None → v_held V !! p = None →
      nspec V (NCreat name excl) (NRes 0 p [])
        (View (<[name := ino]> (v_names V)) (<[ino := (0, no_data)]> (v_files V)) (<[p := (ino, 1)]> (v_held V)))
  | s_creat_old name ino p :
      v_names V !! name = Some ino → v_grabs p ino V → nspec V (NCreat name false) (NRes 0 p []) (v_hold p ino V)
  | s_creat_excl name : is_Some (v_names V !! name) → nspec V (NCreat name true) (code EEXIST) V
  | s_creat_noentry name excl r :
      v_names V !! name = None → noentry V name r → nspec V (NCreat name excl) (code r) V
  | s_creat_nomem name excl : nspec V (NCreat name excl) (code ENOMEM) V
  | s_link name p ino n :
      v_held V !! p = Some (ino, n) → v_names V !! name = None → zlen name < SFS_NAMELEN →
      nspec V (NLink name p) (code 0) (with_names (<[name := ino]> (v_names V)) V)
  | s_link_noentry name p r : noentry V name r → nspec V (NLink name p) (code r) V
  | s_remove name ino V' :
      v_names V !! name = Some ino → settle ino (with_names (delete name (v_names V)) V) V' →
      nspec V (NRemove name) (code 0) V'
  | s_remove_none name : v_names V !! name = None → nspec V (NRemove name) (code ENOENT) V
  | s_remove_nomem name : nspec V (NRemove name) (code ENOMEM) V
  | s_rename n1 n2 ino :
      v_names V !! n1 = Some ino → v_names V !! n2 = None → zlen n2 < SFS_NAMELEN →
      nspec V (NRename n1 n2) (code 0) (with_names (delete n1 (<[n2 := ino]> (v_names V))) V)
  | s_rename_none n1 n2 : v_names V !! n1 = None → nspec V (NRename n1 n2) (code ENOENT) V
  | s_rename_noentry n1 n2 r : is_Some (v_names V !! n1) → noentry V n2 r → nspec V (NRename n1 n2) (code r) V
  | s_rename_nomem n1 n2 : nspec V (NRename n1 n2) (code ENOMEM) V
  | s_hold p ino n : v_held V !! p = Some (ino, n) → nspec V (NHold p) (code 0) (v_hold p ino V)
  | s_drop p ino n :
      v_held V !! p = Some (ino, n) → 1 < n →
      nspec V (NDrop p) (code 0) (View (v_names V) (v_files V) (<[p := (ino, n - 1)]> (v_held V)))
  | s_drop_last p ino V' :
      v_held V !! p = Some (ino, 1) → settle ino (View (v_names V) (v_files V) (delete p (v_held V))) V' →
      nspec V (NDrop p) (code 0) V'
  | s_read p pos len ino n size data :
      v_held V !! p = Some (ino, n) → v_files V !! ino = Some (size, data) →
      nspec V (NRead p pos len) (NRes 0 NULL (sub data pos (Z.min len (size - pos)))) V
  | s_write p pos data ino n size old :
      v_held V !! p = Some (ino, n) → v_files V !! ino = Some (size, old) →
      nspec V (NWrite p pos data) (code 0) (with_file ino (Z.max size (pos + zlen data), splice old pos data) V)
  | s_write_full p pos data j ino n size old :
      v_held V !! p = Some (ino, n) → v_files V !! ino = Some (size, old) →
      nspec V (NWrite p pos data) (code ENOSPC)
        (with_file ino (Z.max size (pos + zlen (take j data)), splice old pos (take j data)) V)
  | s_truncate p len ino n size old new :
      v_held V !! p = Some (ino, n) → v_files V !! ino = Some (size, old) →
      (∀ b, 0 ≤ b < Z.min len (512 * 143) → new !! Z.to_nat b = old !! Z.to_nat b) →
      nspec V (NTruncate p len) (code 0) (with_file ino (len, new) V).

(** ** Counting names *)

Definition nlinks (m : gmap (list Z) Z) (ino : Z) : Z := Z.of_nat (size (filter (λ x, x.2 = ino) m)).

Section links.
Implicit Types (m : gmap (list Z) Z).

Lemma nlinks_insert m nm j ino :
  m !! nm = None → nlinks (<[nm := j]> m) ino = nlinks m ino + (if decide (j = ino) then 1 else 0).
Proof.
  intros Hn. unfold nlinks. destruct (decide (j = ino)) as [->|Hne].
  - rewrite map_filter_insert_True by done. rewrite map_size_insert_None; [lia|].
    apply map_lookup_filter_None. by left.
  - rewrite map_filter_insert_False by done. rewrite delete_id by done. lia.
Qed.

Lemma nlinks_delete m nm j ino :
  m !! nm = Some j → nlinks (delete nm m) ino = nlinks m ino - (if decide (j = ino) then 1 else 0).
Proof.
  intros Hj. rewrite <- (insert_delete_id m nm j) at 2 by done.
  rewrite nlinks_insert by apply lookup_delete_eq. destruct (decide _); lia.
Qed.

Lemma nlinks_zero m ino : nlinks m ino = 0 ↔ ∀ nm, m !! nm ≠ Some ino.
Proof.
  unfold nlinks. change 0 with (Z.of_nat 0). rewrite Nat2Z.inj_iff, map_size_empty_iff, map_empty_filter. split.
  - intros Hall nm Hnm. by apply (Hall nm ino Hnm).
  - intros Hno nm j Hj Heq. simpl in Heq. rewrite Heq in Hj. by apply (Hno nm).
Qed.

Lemma nlinks_le m ino : 0 ≤ nlinks m ino ≤ Z.of_nat (size m).
Proof.
  unfold nlinks. split; [lia|]. apply Nat2Z.inj_le, map_subseteq_size, map_filter_subseteq.
Qed.

Lemma size_dmap es : names_once es → Z.of_nat (size (dmap es)) ≤ zlen es.
Proof.
  intros Hn. unfold dmap. rewrite map_size_list_to_map by (by rewrite <- list_fmap_compose).
  rewrite length_fmap. apply Nat2Z.inj_le, length_filter.
Qed.
End links.

(** ** Link counts that agree with the names *)

Record consistent (A : afs) : Prop := Consistent {
  co_named : ∀ nm ino, a_names A !! nm = Some ino → is_Some (a_files A !! ino);
  co_links : ∀ ino fl, a_files A !! ino = Some fl → af_links fl = nlinks (a_names A) ino;
  co_kept : ∀ ino fl, a_files A !! ino = Some fl → in_use ino (view_of A);
}.

Section consistent.
Implicit Types (A : afs).

Lemma view_relink ino d A : bytes_of <$> a_files (a_relink ino d A) = bytes_of <$> a_files A.
Proof.
  apply map_eq. intros j. unfold a_relink. simpl. rewrite !lookup_fmap. destruct (decide (j = ino)) as [->|Hne].
  - rewrite lookup_alter_eq. by destruct (a_files A !! ino) as [[]|].
  - by rewrite lookup_alter_ne.
Qed.

Lemma view_of_relink ino d A : view_of (a_relink ino d A) = view_of A.
Proof. unfold view_of. by rewrite view_relink. Qed.

Lemma lookup_relink ino d A j fl :
  a_files (a_relink ino d A) !! j = Some fl ↔
  ∃ fl0, a_files A !! j = Some fl0 ∧
    fl = AFile (af_links fl0 + (if decide (j = ino) then d else 0)) (af_size fl0) (af_data fl0).
Proof.
  unfold a_relink. simpl. destruct (decide (j = ino)) as [->|Hne].
  - rewrite lookup_alter_eq. destruct (a_files A !! ino); simpl; naive_solver.
  - rewrite lookup_alter_ne by done. split; [|intros ([] & -> & ->); simpl; by rewrite Z.add_0_r].
    intros Hfl. exists fl. split; [done|]. destruct fl. simpl. by rewrite Z.add_0_r.
Qed.

Lemma consistent_hold p ino A :
  consistent A → is_Some (a_files A !! ino) → grabs p ino A → consistent (a_hold p ino A).
Proof.
  intros [Hn Hl Hk] _ Hg. constructor; [done|done|]. intros j fl Hj. destruct (Hk j fl Hj) as [Hu|(q & n & Hq)]; [by left|].
  right. simpl in *. destruct (decide (q = p)) as [->|Hne].
  - unfold grabs in Hg. rewrite Hq in Hg. simpl in Hg. subst j. exists p. eexists. by rewrite lookup_insert_eq.
  - exists q, n. by rewrite lookup_insert_ne.
Qed.

Lemma consistent_link nm ino es A :
  consistent A → a_names A !! nm = None → is_Some (a_files A !! ino) → dmap es = <[nm := ino]> (a_names A) →
  consistent (a_relink ino 1 (set_ents es A)).
Proof.
  intros [Hn Hl Hk] Hnm [fl Hfl] He. constructor.
  - intros nm' j. unfold a_names at 1. simpl. rewrite He, lookup_insert_Some. intros [[_ <-]|[_ Hj]].
    + rewrite lookup_alter_eq, Hfl. by eexists.
    + destruct (Hn _ _ Hj) as [fl' Hfl']. destruct (decide (j = ino)) as [->|]; [rewrite lookup_alter_eq|rewrite lookup_alter_ne by done];
        rewrite Hfl'; by eexists.
  - intros j fl' (fl0 & Hfl0 & ->)%lookup_relink. unfold a_names. simpl. rewrite He, nlinks_insert by done.
    rewrite (Hl j fl0 Hfl0). destruct (decide (j = ino)) as [->|]; [by rewrite decide_True|rewrite decide_False by done; lia].
  - intros j fl' (fl0 & Hfl0 & ->)%lookup_relink. destruct (Hk j fl0 Hfl0) as [[nm' Hu]|Hu]; [left|by right].
    exists nm'. simpl. unfold a_names. simpl. rewrite He. rewrite lookup_insert_ne; [done|]. intros ->. simpl in Hu. congruence.
Qed.

Lemma consistent_unlink nm ino es p n A :
  consistent A → a_names A !! nm = Some ino → a_held A !! p = Some (ino, n) → dmap es = delete nm (a_names A) →
  consistent (a_relink ino (-1) (set_ents es A)).
Proof.
  intros [Hn Hl Hk] Hnm Hp He. constructor.
  - intros nm' j. unfold a_names at 1. simpl. rewrite He, lookup_delete_Some. intros [_ Hj]. destruct (Hn _ _ Hj) as [fl' Hfl'].
    destruct (decide (j = ino)) as [->|]; [rewrite lookup_alter_eq|rewrite lookup_alter_ne by done]; rewrite Hfl'; by eexists.
  - intros j fl' (fl0 & Hfl0 & ->)%lookup_relink. unfold a_names. simpl. rewrite He, (nlinks_delete _ _ ino) by done.
    rewrite (Hl j fl0 Hfl0). destruct (decide (j = ino)) as [->|]; [by rewrite decide_True|rewrite decide_False by done; lia].
  - intros j fl' (fl0 & Hfl0 & ->)%lookup_relink. destruct (decide (j = ino)) as [->|Hne]; [right; by exists p, n|].
    destruct (Hk j fl0 Hfl0) as [[nm' Hu]|Hu]; [left|by right]. exists nm'. simpl in *. unfold a_names. simpl. rewrite He.
    rewrite lookup_delete_ne; [done|]. intros ->. congruence.
Qed.

(** Giving up the last reference to a file. *)
Lemma consistent_drop p ino n fl A :
  consistent A → a_held A !! p = Some (ino, n) → 1 ≤ n → a_files A !! ino = Some fl →
  (∀ q m, a_held A !! q = Some (ino, m) → q = p) →
  consistent (a_drop p A) ∧
  (1 < n → view_of (a_drop p A) = View (a_names A) (bytes_of <$> a_files A) (<[p := (ino, n - 1)]> (a_held A))) ∧
  (n = 1 → settle ino (View (a_names A) (bytes_of <$> a_files A) (delete p (a_held A))) (view_of (a_drop p A))).
Proof.
  intros [Hn Hl Hk] Hp Hn1 Hfl Hinj. unfold a_drop. rewrite Hp, Hfl. destruct (1 <? n) eqn:E.
  { split; [|split; [done|lia]]. constructor; [done|done|]. intros j fl' Hj.
    destruct (Hk j fl' Hj) as [Hu|(q & m & Hq)]; [by left|right]. simpl in *. destruct (decide (q = p)) as [->|].
    - exists p, (n - 1). rewrite lookup_insert_eq. congruence.
    - exists q, m. by rewrite lookup_insert_ne. }
  assert (n = 1) as -> by lia. assert (∀ j fl', j ≠ ino → a_files A !! j = Some fl' → ∀ F,
    in_use j (View (a_names A) F (delete p (a_held A)))) as Hother.
  { intros j fl' Hne Hj F. destruct (Hk j fl' Hj) as [Hu|(q & m & Hq)]; [by left|right]. exists q, m. simpl in *.
    rewrite lookup_delete_ne; [done|]. intros ->. congruence. }
  assert (∀ F, in_use ino (View (a_names A) F (delete p (a_held A))) ↔ af_links fl ≠ 0) as Huse.
  { intros F. rewrite (Hl ino fl Hfl), nlinks_zero. split.
    - intros [[nm Hnm]|(q & m & Hq)]; [intros Hno; by apply (Hno nm)|]. simpl in Hq.
      apply lookup_delete_Some in Hq as [Hne Hq]. destruct Hne. symmetry. by apply (Hinj q m).
    - intros Hno. left. destruct (decide (nlinks (a_names A) ino = 0)) as [Hz|Hz]; [by rewrite nlinks_zero in Hz|].
      unfold nlinks in Hz. destruct (map_choose (filter (λ x, x.2 = ino) (a_names A))) as (nm & j & Hj).
      { intros He. rewrite He in Hz. by rewrite map_size_empty in Hz. }
      apply map_lookup_filter_Some in Hj as [Hj Heq]. exists nm. simpl in *. congruence. }
  destruct (af_links fl =? 0) eqn:El.
  - split; [|split; [lia|intros _; right]].
    + constructor.
      * intros nm j Hj. simpl. destruct (Hn nm j Hj) as [fl' Hfl']. exists fl'. rewrite lookup_delete_ne; [done|].
        intros <-. assert (nlinks (a_names A) ino = 0) as Hz by (rewrite <- (Hl ino fl Hfl); lia).
        rewrite nlinks_zero in Hz. by apply (Hz nm).
      * intros j fl'. simpl. rewrite lookup_delete_Some. intros [_ Hj]. by apply Hl.
      * intros j fl'. simpl. rewrite lookup_delete_Some. intros [Hne Hj]. by apply (Hother j fl').
    + split; [rewrite Huse; lia|]. unfold view_of. simpl. by rewrite fmap_delete.
  - split; [|split; [lia|intros _; left]].
    + constructor; [done|done|]. intros j fl' Hj. destruct (decide (j = ino)) as [->|Hne]; [|by apply (Hother j fl')].
      apply Huse. lia.
    + split; [apply Huse; lia|done].
Qed.

(** A reference taken and given up again. *)
Lemma regain p ino fl A A' :
  grabs p ino A → (∀ q j m, a_held A !! q = Some (j, m) → 1 ≤ m) → (∀ q m, a_held A !! q = Some (ino, m) → q = p) →
  consistent A' → a_held A' = a_held (a_hold p ino A) → a_files A' !! ino = Some fl →
  consistent (a_drop p A') ∧
  settle ino (View (a_names A') (bytes_of <$> a_files A') (a_held A)) (view_of (a_drop p A')).
Proof.
  intros Hg Hc Hinj Hco Hh Hfl. unfold a_hold in Hh. simpl in Hh.
  assert (a_held A' !! p = Some (ino, default 0 (snd <$> a_held A !! p) + 1)) as Hp by (by rewrite Hh, lookup_insert_eq).
  assert (∀ q m, a_held A' !! q = Some (ino, m) → q = p) as Hinj'.
  { intros q m. rewrite Hh, lookup_insert_Some. intros [[-> _]|[_ Hq]]; [done|by eapply Hinj]. }
  unfold grabs in Hg. destruct (a_held A !! p) as [[j n]|] eqn:Ep; simpl in Hp.
  - subst j. pose proof (Hc _ _ _ Ep). destruct (consistent_drop p ino (n + 1) fl A' Hco Hp) as (? & Hlt & _); [lia|done|done|].
    split; [done|]. left. rewrite Hlt, Hh, insert_insert_eq by lia. replace (n + 1 - 1) with n by lia.
    rewrite insert_id by done. split; [right; by exists p, n|done].
  - destruct (consistent_drop p ino 1 fl A' Hco Hp) as (? & _ & Hs); [lia|done|done|]. split; [done|].
    rewrite Hh, delete_insert_id in Hs by done. by apply Hs.
Qed.
End consistent.
