(* ===== verification/SfsSync.v ===== *)
(** * Writing a volume back

    [sfs_sync] leaves the inodes, the map and the superblock on disk as they are in memory, and
    changes nothing that a client sees. *)

From S2P Require Import Prelude StateM Heap KArray KBitmap Coremap KState Thread ThreadSpec ThreadHeap Synch SynchSpec Owned.
From S2P Require Import ProcSpec Uio SfsDisk Sfs SfsBytes SfsSpec SfsIo SfsDirs SfsTrunc SfsVolume SfsTree SfsNode SfsNodeSpec.
From S2P Require Import SfsTree SfsNodeSpec SfsNode SfsRep.

(** ** The map *)

Section map.
Variable U : usermem.
Implicit Types f : sfs_fs.

Lemma mapsize_bound f : 0 ≤ nblocks f < 2 ^ 22 → 0 ≤ mapsize f ≤ 1024 ∧ SFS_BITMAPSIZE (nblocks f) = 4096 * mapsize f.
Proof.
  intros Hn. unfold mapsize. destruct (bitmapsize_eq _ Hn) as [-> ->]. split; [|done].
  split; [apply Z.div_pos; lia|]. apply Z.lt_succ_r, Z.div_lt_upper_bound; lia.
Qed.

Lemma vol_nblocks f : vol_ok f → 0 ≤ nblocks f < 2 ^ 22.
Proof. intros Hv. destruct (vo_size _ Hv), (vo_disk _ Hv) as [_ Hm _]. lia. Qed.

Lemma map_bytes f : vol_ok f → bm_nbits (sfs_freemap f) = SFS_BITMAPSIZE (nblocks f) →
  zlen (bm_v (sfs_freemap f)) = 512 * mapsize f.
Proof.
  intros Hv Hb. destruct (vo_map _ Hv) as (_ & _ & -> & _). rewrite Hb.
  destruct (mapsize_bound f (vol_nblocks f Hv)) as [_ ->]. rewrite <- (Z.div_unique _ 8 (512 * mapsize f) 7); lia.
Qed.

(** The blocks of the map on disk are those in memory. *)
Definition map_sector f b : list Z := sub (bm_v (sfs_freemap f)) (512 * (b - SFS_MAP_LOCATION)) 512.

Lemma map_write_spec f :
  vol_ok f → bm_nbits (sfs_freemap f) = SFS_BITMAPSIZE (nblocks f) →
  (∀ j, 0 ≤ j < mapsize f → SFS_MAP_LOCATION + j < nblocks f) →
  wps (sfs_mapio U UIO_WRITE) f (λ r f', r = 0 ∧ vol_ok f' ∧ ∃ d, f' = set_device d f ∧ ∀ b, 0 ≤ b →
    sector d b = if decide (SFS_MAP_LOCATION ≤ b < SFS_MAP_LOCATION + mapsize f) then map_sector f b else sec f b).
Proof.
  intros Hv Hb Hin. pose proof (map_bytes f Hv Hb) as Hlen.
  destruct (mapsize_bound f (vol_nblocks f Hv)) as [Hms _]. unfold sfs_mapio. wps_step.
  change (SFS_FS_BITBLOCKS f) with (mapsize f). unfold SFS_MAP_LOCATION in *.
  apply (wps_mwhile (λ n j f', n = Z.to_nat (mapsize f - j) ∧ 0 ≤ j ≤ mapsize f ∧ vol_ok f' ∧ ∃ d,
    f' = set_device d f ∧ ∀ b, 0 ≤ b → sector d b = if decide (2 ≤ b < 2 + j) then map_sector f b else sec f b)
    _ (Z.to_nat (mapsize f))).
  { split_and!; [f_equal; lia|lia|lia|done|]. exists (sfs_device f). split; [by destruct f|].
    intros b Hb0. by rewrite decide_False by lia. }
  { lia. }
  intros n j f' (-> & Hj & Hv' & d & -> & Hd). destruct (j <? mapsize f) eqn:E.
  2: { wps_step. split_and!; [done|done|]. exists d. split; [done|]. by replace (mapsize f) with j by lia. }
  wps_step. rewrite wps_lift. simpl sfs_freemap. unfold SFS_BLOCKSIZE. apply wp_slice; [lia|lia|lia|].
  assert (zlen (sub (bm_v (sfs_freemap f)) (j * 512) 512) = 512) as Hl by (rewrite length_sub; lia).
  pose proof (Hin j ltac:(lia)). rewrite u32_id by in_range.
  rewrite wps_bind. apply wblock_ok; [done|simpl; lia|lia|]. cbn [negb Z.eqb]. wps_step.
  set (f1 := put_sec (2 + j) (sub (bm_v (sfs_freemap f)) (j * 512) 512) (set_device d f)).
  exists (Z.to_nat (mapsize f - (j + 1))). split_and!; [lia|done|lia|lia|by apply put_sec_vol; [|lia]|].
  exists (sfs_device f1). split; [by destruct f|]. intros b Hb0. unfold f1.
  rewrite sec_put by (done || (simpl; lia)). destruct (decide (b = 2 + j)) as [->|Hne].
  - rewrite decide_True by lia. unfold map_sector, SFS_MAP_LOCATION. f_equal. lia.
  - simpl. rewrite Hd by done. destruct (decide (2 ≤ b < 2 + j)); [by rewrite decide_True by lia|by rewrite decide_False by lia].
Qed.
End map.

(** ** The whole volume *)

Section sync.
Context {H : Type} `{KHeapLaws H}.
Variable U : usermem.
Variable root : Z.
Implicit Types (k : kst H sfs_fs) (vs : list (Z * sfs_vnode)) (us : list (Z * sfs_inode)) (A : afs).
Abbreviation rep := (rep root).

Lemma rep_clean k s B A vs1 p sv vs2 us O f' :
  rep k s B A (vs1 ++ (p, sv) :: vs2) us O →
  fsvol f' (vs1 ++ (p, sv_set_dirty 0 sv) :: vs2) us O →
  (∀ ino i, (ino, i) ∈ inodes (vs1 ++ (p, sv) :: vs2) us → still (k_env k) f' i) →
  sfs_vnodes f' = sfs_vnodes (k_env k) → meta (o_super B) f' O →
  rep (set_env f' k) s B A (vs1 ++ (p, sv_set_dirty 0 sv) :: vs2) us O.
Proof.
  intros Hr Hv Hst Hvn Hm. pose proof (rp_k _ _ _ _ _ _ _ _ Hr) as Hk.
  assert (numbered (vs1 ++ (p, sv_set_dirty 0 sv) :: vs2) = numbered (vs1 ++ (p, sv) :: vs2)) as Hnum.
  { unfold numbered. by rewrite !fmap_app. }
  assert (held_of (vs1 ++ (p, sv_set_dirty 0 sv) :: vs2) = held_of (vs1 ++ (p, sv) :: vs2)) as Hheld.
  { unfold held_of. by rewrite !fmap_app. }
  assert (∀ q svq, (q, svq) ∈ vs1 ++ (p, sv_set_dirty 0 sv) :: vs2 →
    ∃ sv0, (q, sv0) ∈ vs1 ++ (p, sv) :: vs2 ∧ sv_v svq = sv_v sv0) as Hold.
  { intros q svq [[= -> ->]|Hq]%elem_of_this; [exists sv|exists svq]; split; try done; [|by apply elem_of_others].
    apply elem_of_app. right. constructor. }
  constructor.
  - constructor; [eapply nodes_env; [apply Hk|done|done]|done| |].
    + intros q svq (sv0 & Hq & Hvv)%Hold. unfold counted. rewrite Hvv. by apply (fk_cnt _ _ _ _ _ _ Hk q).
    + intros q Hq. apply (fk_zero _ _ _ _ _ _ Hk). by rewrite fmap_app in *.
  - destruct (rp_root _ _ _ _ _ _ _ _ Hr) as (svr & Hin & Hi & Ho & He). destruct (elem_of_this _ _ _ _ Hin) as [[= <- <-]|Hin'].
    + exists (sv_set_dirty 0 svr). split; [apply elem_of_app; right; constructor|]. split_and!; try done.
      rewrite He. symmetry. apply dirents_still, (Hst (sv_ino svr)). by eapply in_numbered.
    + exists svr. split; [by apply elem_of_others|]. split_and!; try done.
      rewrite He. symmetry. apply dirents_still, (Hst (sv_ino svr)). by eapply in_numbered.
  - intros q svq (sv0 & Hq & ->)%Hold. by apply (rp_ops _ _ _ _ _ _ _ _ Hr).
  - unfold inodes. rewrite Hnum. change (numbered _ ++ us) with (inodes (vs1 ++ (p, sv) :: vs2) us). ksimpl.
    rewrite (files_of_still _ _ _ Hst). apply Hr.
  - rewrite Hheld. apply Hr.
  - done.
Qed.

(** A call through the table that writes the inode. *)
Lemma sync_vop k s B A vs1 p sv vs2 us O (m : F Z) :
  rep k s B A (vs1 ++ (p, sv) :: vs2) us O → m = VOP_FSYNC U p ∨ m = VOP_CLOSE U p →
  wps (VOP_ p m) k (λ _ k', rep k' s B A (vs1 ++ (p, sv_set_dirty 0 sv) :: vs2) us O).
Proof.
  intros Hr Hm'. assert ((p, sv) ∈ vs1 ++ (p, sv) :: vs2) as Hin by (apply elem_of_app; right; constructor).
  pose proof (rp_k _ _ _ _ _ _ _ _ Hr) as Hk. pose proof (fk_vol _ _ _ _ _ _ Hk) as Hv.
  destruct (fk_cnt _ _ _ _ _ _ Hk p sv Hin) as [Hrc Hoc]. destruct (fsvol_mem _ _ _ _ _ _ Hv Hin) as [Hm Hn].
  assert (wps (sfs_sync_inode U p) (k_env k) (λ _ f', rep (set_env f' k) s B A (vs1 ++ (p, sv_set_dirty 0 sv) :: vs2) us O)) as Hs.
  { eapply wps_mono; [by apply fsvol_sync|]. intros r f' (-> & Hv' & Hst & Hvn & _ & d & Hf & Hd).
    eapply rep_clean; try done. eapply meta_keep; [apply Hr|]. rewrite Hf.
    eapply mkeep_inode; [exact Hv|by eapply in_numbered|done]. }
  eapply (VOP__ok k s _ B p sv); [apply Hk|done|done| |lia|lia|].
  { unfold node_ok in Hn. by destruct (vn_ops (sv_v sv)). }
  destruct Hm' as [-> | ->]; [by apply (vop_spec _ p sv)|]. by apply (vop_spec _ p sv); [done|done|..]; intros _; apply (vop_spec _ p sv).
Qed.

Lemma sync_one k s B A vs1 p sv vs2 us O :
  rep k s B A (vs1 ++ (p, sv) :: vs2) us O →
  wps (VOP_ p (VOP_FSYNC U p)) k (λ _ k', rep k' s B A (vs1 ++ (p, sv_set_dirty 0 sv) :: vs2) us O).
Proof. intros Hr. apply sync_vop; [done|by left]. Qed.

(** The vnodes with their inodes written. *)
Definition cleaned vs : list (Z * sfs_vnode) := (λ x, (x.1, sv_set_dirty 0 x.2)) <$> vs.

Lemma sync_loop k s B A vs us O :
  rep k s B A vs us O →
  wps (mfor (Z.to_nat (array_getnum (sfs_vnodes (k_env k)))) 0 (λ i _,
        a ← gets (λ k, sfs_vnodes (k_env k));
        sv ← lift (array_getguy a i);
        _ ← VOP_ sv (VOP_FSYNC U sv);
        mret tt) tt) k (λ _ k', rep k' s B A (cleaned vs) us O).
Proof.
  intros Hr. assert (array_getnum (sfs_vnodes (k_env k)) = zlen vs) as Hnum.
  { destruct (nd_arr _ _ _ _ (fk_nodes _ _ _ _ _ _ (rp_k _ _ _ _ _ _ _ _ Hr))) as [Hn _]. by rewrite length_fmap in Hn. }
  rewrite Hnum. apply (wps_mfor (λ i _ k', rep k' s B A (cleaned (take (Z.to_nat i) vs) ++ drop (Z.to_nat i) vs) us O)).
  - done.
  - intros j [] k' Hj Hr'. destruct (lookup_lt_is_Some_2 vs (Z.to_nat j)) as [[p sv] Hx]; [lia|].
    rewrite (drop_S _ _ _ Hx) in Hr'. set (vs1 := cleaned (take (Z.to_nat j) vs)) in *.
    assert (length vs1 = Z.to_nat j) as Hl1 by (unfold vs1, cleaned; rewrite length_fmap, length_take; lia).
    wps_step. rewrite wps_lift. eapply wp_of_eq.
    { apply (array_getguy_spec _ (vs1 ++ (p, sv) :: drop (S (Z.to_nat j)) vs).*1 j p); [apply Hr'|lia|].
      by rewrite fmap_app, lookup_app_r, length_fmap, Hl1, Nat.sub_diag by (rewrite length_fmap; lia). }
    wps_call sync_one; [exact Hr'|]. intros r k2 Hr2. wps_step.
    replace (Z.to_nat (j + 1)) with (S (Z.to_nat j)) by lia. rewrite (take_S_r _ _ _ Hx). unfold cleaned at 1.
    rewrite fmap_app, <- app_assoc. exact Hr2.
  - intros [] k' Hr'. rewrite take_ge, drop_ge, app_nil_r in Hr' by lia. done.
Qed.

(** Blocks that belong to no file change. *)
Lemma rep_sectors k s B A vs us O f' :
  rep k s B A vs us O → vol_ok f' → meta (o_super B) f' O → sfs_mem f' = sfs_mem (k_env k) → sfs_vnodes f' = sfs_vnodes (k_env k) →
  sfs_super_ f' = sfs_super_ (k_env k) → sfs_freemap f' = sfs_freemap (k_env k) →
  (∀ b, b ∈ ublocks (k_env k) (inodes vs us) → sec f' b = sec (k_env k) b) →
  rep (set_env f' k) s B A vs us O.
Proof.
  intros [[Hn Hv Hc Hz] Hroot Hops Hf Hh Hm] Hok Hm' Hmem Hvn Hsup Hmap Hsec.
  destruct (fsvol_frame (k_env k) f' vs us O O Hv Hok) as [Hv' Hst].
  - intros p sv Hin. rewrite Hmem. by apply (fsvol_mem _ _ _ _ _ _ Hv).
  - done.
  - pose proof (fsvol_own _ _ _ _ Hv) as [Hnd HB]. split; [done|]. intros b Hb. rewrite Hsup, Hmap. by apply HB.
  - constructor; ksimpl; try done.
    + constructor; [|done|done|done]. destruct Hn as [[]]. constructor; ksimpl; rewrite ?Hvn; done.
    + destruct Hroot as (sv & Hin & Hi & Ho & He). exists sv. split_and!; try done. rewrite He. symmetry.
      apply dirents_still, (Hst (sv_ino sv)). by eapply in_numbered.
    + by rewrite (files_of_still _ _ _ Hst).
Qed.

Lemma elem_of_file_block k s B A vs us O b :
  rep k s B A vs us O → b ∈ ublocks (k_env k) (inodes vs us) → 0 < b ∧ b ∉ O.
Proof.
  intros Hr Hb. destruct (fsvol_own _ _ _ _ (rep_vol _ _ _ _ _ _ _ _ Hr)) as [Hnd HB].
  split; [apply HB, elem_of_app; by left|]. apply NoDup_app in Hnd as (_ & Hx & _). by apply Hx.
Qed.

Lemma sync_map k s B A vs us O :
  rep k s B A vs us O → 
  wps (inF (sfs_mapio U UIO_WRITE)) k (λ r k', r = 0 ∧ k_env k' = set_device (sfs_device (k_env k')) (k_env k) ∧
    rep (set_env (set_freemapdirty 0 (k_env k')) k') s B A vs us O).
Proof.
  intros Hr. pose proof (rep_vol _ _ _ _ _ _ _ _ Hr) as Hv. pose proof (rp_meta _ _ _ _ _ _ _ _ Hr) as Hm.
  destruct (fsvol_own _ _ _ _ Hv) as [_ HB]. apply inF_ok.
  eapply wps_mono; [apply map_write_spec; [apply Hv|apply Hm|]|].
  { intros j Hj. apply HB, elem_of_app. right. by apply (me_blocks _ _ _ Hm). }
  intros r f' (-> & Hok & d & -> & Hd). ksimpl. split; [done|]. split; [done|].
  replace (set_env _ (set_env _ k)) with (set_env (set_freemapdirty 0 (set_device d (k_env k))) k) by (by destruct k).
  assert (0 ≤ mapsize (k_env k)) as Hms by (apply mapsize_bound, vol_nblocks, Hv).
  eapply rep_sectors; try done.
  - by destruct Hok.
  - destruct Hm as [HS Hs Hmg Hnm Hb Ho Hsb _]. constructor; try done.
    + intros Hz. simpl. rewrite Hd by done. rewrite decide_False by (unfold SFS_MAP_LOCATION; lia). by apply Hsb.
    + intros _ j Hj. simpl. change (mapsize _) with (mapsize (k_env k)) in Hj. unfold SFS_MAP_LOCATION in *.
      rewrite Hd by lia. rewrite decide_True by lia. unfold map_sector, SFS_MAP_LOCATION. simpl. do 2 f_equal; lia.
  - intros b Hb. destruct (elem_of_file_block _ _ _ _ _ _ _ _ Hr Hb) as [Hb0 Hno]. simpl. rewrite Hd by lia.
    rewrite decide_False; [done|]. intros Hx. apply Hno. replace b with (SFS_MAP_LOCATION + (b - SFS_MAP_LOCATION)) by lia.
    apply (me_blocks _ _ _ Hm). lia.
Qed.

Lemma sync_super k s B A vs us O :
  rep k s B A vs us O →
  wps (inF (wblock U (super_bytes (sfs_super_ (k_env k))) SFS_SB_LOCATION)) k (λ r k', r = 0 ∧
    sfs_freemapdirty (k_env k') = sfs_freemapdirty (k_env k) ∧
    rep (set_env (set_superdirty 0 (k_env k')) k') s B A vs us O).
Proof.
  intros Hr. pose proof (rep_vol _ _ _ _ _ _ _ _ Hr) as Hv. pose proof (rp_meta _ _ _ _ _ _ _ _ Hr) as Hm.
  pose proof (vl_vol _ _ _ (fv_vol _ _ _ _ Hv)) as Hok. pose proof (length_super_bytes _ (me_super _ _ _ Hm)) as Hl.
  destruct (vo_size _ Hok) as [Hpos _]. unfold SFS_SB_LOCATION. apply inF_ok. apply wblock_ok; [done|lia|done|]. ksimpl.
  split; [done|]. split; [done|].
  set (f1 := put_sec 0 (super_bytes (sfs_super_ (k_env k))) (k_env k)).
  assert (∀ b, 0 < b → sec f1 b = sec (k_env k) b) as Hsec.
  { intros b Hb. unfold f1. rewrite sec_put by (done || lia). by rewrite decide_False by lia. }
  replace (set_env _ (set_env _ k)) with (set_env (set_superdirty 0 f1) k) by (by destruct k).
  pose proof (put_sec_vol (k_env k) 0 _ Hok Hl) as Hok1. eapply rep_sectors; try done.
  - fold f1 in Hok1. by destruct Hok1.
  - destruct Hm as [HS Hs Hmg Hnm Hb Ho _ Hmp]. constructor; try done.
    + intros _. change (sec f1 0 = super_bytes (sfs_super_ (k_env k))). unfold f1. rewrite sec_put by (done || lia).
      by rewrite decide_True.
    + intros Hz j Hj. change (sec f1 (SFS_MAP_LOCATION + j) = sub (bm_v (sfs_freemap (k_env k))) (512 * j) 512).
      rewrite Hsec by (unfold SFS_MAP_LOCATION; lia). by apply Hmp.
  - intros b Hb. destruct (elem_of_file_block _ _ _ _ _ _ _ _ Hr Hb) as [Hb0 _]. by apply Hsec.
Qed.

(** All of it is on disk. *)
Record synced k vs : Prop := Synced {
  sy_super : sfs_superdirty (k_env k) = 0;
  sy_map : sfs_freemapdirty (k_env k) = 0;
  sy_nodes : ∀ p sv, (p, sv) ∈ vs → sv_dirty sv = 0;
}.

Lemma cleaned_clean vs p sv : (p, sv) ∈ cleaned vs → sv_dirty sv = 0.
Proof. by intros ([q svq] & [= -> ->] & _)%list_elem_of_fmap. Qed.

Lemma sync_all_spec k s B A vs us O :
  rep k s B A vs us O →
  wps (sfs_sync U) k (λ r k', r = 0 ∧ rep k' s B A (cleaned vs) us O ∧ synced k' (cleaned vs)).
Proof.
  intros Hr. unfold sfs_sync. wps_step. eapply wps_mono; [by eapply sync_loop|]. intros [] k1 Hr1. wps_step.
  eapply (wps_mono _ _ (λ r k2, r = 0 ∧ sfs_freemapdirty (k_env k2) = 0 ∧ rep k2 s B A (cleaned vs) us O)).
  { destruct (sfs_freemapdirty (k_env k1) =? 0) eqn:E; cbn [negb]; [wps_step; split_and!; [done|lia|done]|].
    rewrite wps_bind. eapply wps_mono; [by eapply sync_map|]. intros r k2 (-> & _ & Hr2). cbn [negb Z.eqb]. rewrite wps_bind.
    apply inF_ok. wps_step. split_and!; [done|done|]. by destruct k2. }
  intros r k2 (-> & Hmap & Hr2). cbn [negb Z.eqb]. wps_step.
  destruct (sfs_superdirty (k_env k2) =? 0) eqn:E; cbn [negb].
  { wps_step. split_and!; [done|done|]. constructor; [lia|done|apply cleaned_clean]. }
  rewrite wps_bind. eapply wps_mono; [by eapply sync_super|]. intros r k3 (-> & Hmap3 & Hr3). cbn [negb Z.eqb]. rewrite wps_bind.
  apply inF_ok. wps_step. split_and!; [done|by destruct k3|]. constructor; [done|ksimpl; fsimpl; congruence|apply cleaned_clean].
Qed.
End sync.
