(* ===== verification/SfsOps.v ===== *)
(** * The operations of the file system

    Each operation of the function table of the root directory, and each operation on a vnode that
    a client holds, does what [nspec] says, whatever the state of the volume, the heap and the
    table of vnodes. *)

From S2P Require Import Prelude StateM Heap KArray KBitmap Coremap KState Thread ThreadSpec ThreadHeap Synch SynchSpec Owned.
From S2P Require Import ProcSpec Uio SfsDisk Sfs SfsBytes SfsSpec SfsIo SfsDirs SfsTrunc SfsVolume SfsTree SfsNode SfsNodeSpec.
From S2P Require Import SfsTree SfsNodeSpec SfsRep SfsLife SfsView.

Section ops.
Context {H : Type} `{KHeapLaws H}.
Variable U : usermem.
Variable root : Z.
Hypothesis Hroom : SFS_VNODE_SIZE < kh_max.
Implicit Types (k : kst H sfs_fs) (A : afs) (V : view).
Abbreviation Rep := (Rep root).

(** The kernel state [k] holds the file system [V]. *)
Definition Fs k s B V : Prop := ∃ A, Rep k s B A ∧ consistent A ∧ view_of A = V.

Lemma Rep_grabs k s B A p ino q m :
  Rep k s B A → grabs p ino A → a_held A !! q = Some (ino, m) → q = p.
Proof.
  intros Hr Hg Hq. unfold grabs in Hg. destruct (a_held A !! p) as [[j n]|] eqn:E.
  - subst j. by eapply Rep_inj.
  - by destruct (Hg q ino m).
Qed.

Lemma Rep_zero k s B A p : Rep k s B A → a_held A !! p = None → o_open B p = 0.
Proof.
  intros (vs & us & O & Hr) Hp. apply (fk_zero _ _ _ _ _ _ (rp_k _ _ _ _ _ _ _ _ Hr)).
  intros ([q sv] & -> & Hin)%list_elem_of_fmap. simpl in Hp.
  assert (a_held A !! q = Some (sv_ino sv, vn_refcount (sv_v sv))) as Hh by (apply (rep_held _ _ _ _ _ _ _ _ Hr); eauto).
  congruence.
Qed.

Lemma held_hold p ino A : a_held (a_hold p ino A) !! p = Some (ino, default 0 (snd <$> a_held A !! p) + 1).
Proof. unfold a_hold. simpl. by rewrite lookup_insert_eq. Qed.

(** Links are few enough to count. *)
Lemma links_bound k s B A ino fl :
  Rep k s B A → consistent A → a_files A !! ino = Some fl → 0 ≤ af_links fl ≤ 1144.
Proof.
  intros Hr Hc Hfl. rewrite (co_links _ Hc ino fl Hfl). destruct (Rep_dir root k s B A Hr) as [Hn Hl].
  pose proof (nlinks_le (a_names A) ino). pose proof (size_dmap (a_ents A) Hn). unfold a_names in *. lia.
Qed.

Lemma root_dir_ok {X} k s B A (m1 m2 : stm (kst H sfs_fs) X) Φ :
  Rep k s B A → wps m2 k Φ → wps (__VOP false root m1 m2) k Φ.
Proof.
  intros (vs & us & O & Hr) Hm. destruct (rp_root _ _ _ _ _ _ _ _ Hr) as (sv & Hin & _ & Hops & _).
  pose proof (rp_k _ _ _ _ _ _ _ _ Hr) as Hk. destruct (fk_cnt _ _ _ _ _ _ Hk root sv Hin) as [Hrc Hoc].
  eapply (VOP_dir_ok k s vs B root sv); [apply Hk|done|by eapply fsk_mem|done|done|lia|done].
Qed.

(** ** Looking a name up *)

Definition looked s B A (name : list Z) (r : Z * Z * Z) k' : Prop :=
  (r = (ENOENT, NULL, 0) ∧ a_names A !! name = None ∧ Rep k' s B A) ∨
  (r = (ENOMEM, NULL, 0) ∧ Rep k' s B A) ∨
  ∃ p slot ino d, r = (0, p, slot) ∧ a_names A !! name = Some ino ∧ p ≠ root ∧ grabs p ino A ∧
    Rep k' s B (a_hold p ino A) ∧ 0 ≤ slot ∧ a_ents A !! Z.to_nat slot = Some d ∧ live d ∧ dname d = name.

Lemma lookonce_spec k s B A name :
  Rep k s B A → consistent A → room (H:=H) A → wps (sfs_lookonce U root name) k (looked s B A name).
Proof using Hroom.
  intros Hr Hc HA. unfold sfs_lookonce. rewrite wps_bind. eapply wps_mono; [by apply (find_spec U root k s B A)|].
  intros [[r found] empty] k' [-> Hf]. destruct (Rep_dir root k s B A Hr) as [Hn _].
  destruct found as [[ino slot]|].
  2: { destruct Hf as [-> Hno]. wps_step. left. done. }
  pose proof (found_name _ _ _ _ _ Hn Hf) as Hnm. destruct Hf as (-> & Hs & d & Hd & Hl & Hdn & Hi). cbn [negb Z.eqb].
  destruct (co_named _ Hc _ _ Hnm) as [fl Hfl]. rewrite wps_bind.
  eapply wps_mono; [apply (load_spec U root Hroom k s B A ino Hr HA); by eexists|].
  intros r k1 [[-> Hr1]|(p & -> & Hp & Hg & Hr1)].
  { change (negb (ENOMEM =? 0)) with true. cbv iota. wps_step. right. left. done. }
  cbn [negb Z.eqb]. rewrite wps_bind.
  destruct (Rep_vnode root k1 s B _ p _ _ Hr1 (held_hold p ino A) Hp) as (sv & Hm & _ & _ & Hf1). simpl in Hf1.
  eapply getv_ok; [done|]. rewrite Hfl in Hf1. injection Hf1 as ->.
  assert (sfi_linkcount (sv_i sv) ≠ 0) as Hl0.
  { pose proof (co_links _ Hc _ _ Hfl) as Hlk. simpl in Hlk. rewrite Hlk. intros Hz. rewrite nlinks_zero in Hz. by apply (Hz name). }
  replace (sfi_linkcount (sv_i sv) =? 0) with false by lia. wps_step. right. right. exists p, slot, ino, d. by split_and!.
Qed.

Lemma lookup_refines k s B A name :
  Rep k s B A → consistent A → room (H:=H) A →
  wps (VOP_LOOKUP U root name) k (λ r k', ∃ V', Fs k' s B V' ∧ nspec (view_of A) (NLookup name) (NRes r.1 r.2 []) V').
Proof using Hroom.
  intros Hr Hc HA. unfold VOP_LOOKUP. eapply root_dir_ok; [done|]. unfold sfs_lookup. rewrite wps_bind.
  destruct (Rep_root root k s B A Hr) as (sv & n & Hm & _ & Ht & _). eapply getv_ok; [done|]. rewrite Ht. cbn [negb Z.eqb Pos.eqb SFS_TYPE_DIR].
  rewrite wps_bind. eapply wps_mono; [by apply lookonce_spec|].
  intros r k1 [(-> & Hno & Hr1)|[[-> Hr1]|(p & slot & ino & d & -> & Hnm & Hp & Hg & Hr1 & _)]].
  - change (negb (ENOENT =? 0)) with true. cbv iota. wps_step. exists (view_of A). split; [by exists A|by constructor].
  - change (negb (ENOMEM =? 0)) with true. cbv iota. wps_step. exists (view_of A). split; [by exists A|constructor].
  - cbn [negb Z.eqb]. wps_step. exists (view_of (a_hold p ino A)). split; [|by apply (s_lookup (view_of A) name ino p)].
    exists (a_hold p ino A). split_and!; try done. apply consistent_hold; [done|by eapply co_named|done].
Qed.

(** ** Entering a name *)

Lemma linked_entry A name ino r slot es :
  linked A name ino r slot es → r ≠ 0 → dmap es = a_names A ∧ noentry (view_of A) name r.
Proof.
  intros [(-> & _)|[Hm [[-> Hs]|[(-> & Hl & Hn)|[-> | ->]]]]] Hr; [done|..]; split; try done; by constructor.
Qed.

Lemma consistent_ents A es : consistent A → dmap es = a_names A → consistent (set_ents es A).
Proof.
  intros [Hn Hl Hk] He. assert (a_names (set_ents es A) = a_names A) as Ha by done.
  assert (view_of (set_ents es A) = view_of A) as Hv by (unfold view_of; by rewrite Ha).
  constructor; rewrite ?Ha, ?Hv; done.
Qed.

Lemma Fs_names k s B A es : Rep k s B (set_ents es A) → consistent A → dmap es = a_names A → Fs k s B (view_of A).
Proof.
  intros Hr Hc He. exists (set_ents es A). split; [done|]. split; [by apply consistent_ents|].
  unfold view_of. unfold a_names at 1. simpl. by rewrite He.
Qed.

(** The count follows the entry. *)
Lemma link_count_spec k s B A p ino n es nm :
  Rep k s B (set_ents es A) → consistent A → a_held A !! p = Some (ino, n) → p ≠ root →
  a_names A !! nm = None → dmap es = <[nm := ino]> (a_names A) →
  wps (set_linkcount p 1) k (λ _ k1, wps (mark_dirty p) k1 (λ _ k',
    Rep k' s B (a_relink ino 1 (set_ents es A)) ∧ consistent (a_relink ino 1 (set_ents es A)))).
Proof.
  intros Hr Hc Hh Hp Hnm He. destruct (Rep_vnode root k s B _ p ino n Hr Hh Hp) as (sv & _ & _ & _ & Hf).
  eapply wps_mono; [eapply (relink_spec root k s B _ p ino n _ 1 Hr Hh Hp Hf)|].
  { destruct (Rep_dir root k s B _ Hr) as [Hn Hl]. pose proof (co_links A Hc ino _ Hf) as Hlk. rewrite Hlk.
    pose proof (nlinks_insert (a_names A) nm ino ino Hnm) as Hi. rewrite decide_True in Hi by done. rewrite <- He in Hi.
    pose proof (nlinks_le (dmap es) ino). pose proof (size_dmap _ Hn). pose proof (nlinks_le (a_names A) ino). simpl in *. lia. }
  intros [] k1 Hk1. eapply wps_mono; [exact Hk1|]. intros [] k2 Hr2. split; [done|].
  eapply consistent_link; [done|done|by eexists|done].
Qed.

Lemma link_refines k s B A name p ino n :
  Rep k s B A → consistent A → a_held A !! p = Some (ino, n) → p ≠ root → (∀ c, c ∈ name → c ≠ 0) →
  wps (VOP_LINK U root name p) k (λ r k', ∃ V', Fs k' s B V' ∧ nspec (view_of A) (NLink name p) (code r) V').
Proof.
  intros Hr Hc Hh Hp Hch. unfold VOP_LINK. eapply root_dir_ok; [done|]. unfold sfs_link. rewrite wps_bind.
  destruct (Rep_vnode root k s B A p ino n Hr Hh Hp) as (sv & Hm & Hi & _ & Hf). eapply getv_ok; [done|]. rewrite Hi.
  destruct (Rep_ino root k s B A ino _ Hr Hf) as (Hu & H0' & _).
  rewrite wps_bind. eapply wps_mono; [by apply (link_spec U root k s B A)|].
  intros [r slot] k1 (es & Hr1 & Hl). destruct (r =? 0) eqn:E; cbn [negb].
  - destruct Hl as [(_ & Hnm & Hlen & He & _)|[_ [[-> _]|[[-> _]|[-> | ->]]]]]; [|done..].
    rewrite wps_bind. eapply wps_mono; [by eapply (link_count_spec k1 s B A p ino n es name)|].
    intros [] k2 Hk2. rewrite wps_bind. eapply wps_mono; [exact Hk2|]. intros [] k3 [Hr3 Hc3]. wps_step.
    eexists. split; [by exists (a_relink ino 1 (set_ents es A))|].
    replace (view_of (a_relink ino 1 (set_ents es A))) with (with_names (<[name := ino]> (a_names A)) (view_of A)).
    + exact (s_link (view_of A) name p ino n Hh Hnm Hlen).
    + rewrite view_of_relink. unfold view_of, with_names. simpl. unfold a_names at 2. simpl. by rewrite He.
  - wps_step. destruct (linked_entry _ _ _ _ _ _ Hl) as [He Hne]; [lia|]. exists (view_of A).
    split; [by eapply Fs_names|by constructor].
Qed.

(** ** Creating a file *)

(** A file that has just been made. *)
Definition a_new (p ino : Z) A : afs :=
  Afs (a_ents A) (<[ino := AFile 0 0 no_data]> (a_files A)) (<[p := (ino, 1)]> (a_held A)).

Lemma consistent_new p ino A :
  consistent A → a_held A !! p = None → a_files A !! ino = None → consistent (a_new p ino A).
Proof.
  intros [Hn Hl Hk] Hp Hi. constructor.
  - intros nm j Hj. simpl. destruct (decide (j = ino)) as [->|]; [rewrite lookup_insert_eq; by eexists|].
    rewrite lookup_insert_ne by done. by eapply Hn.
  - intros j fl. simpl. rewrite lookup_insert_Some. intros [[<- <-]|[_ Hj]]; [|by apply Hl]. simpl. symmetry.
    apply nlinks_zero. intros nm Hnm. destruct (Hn _ _ Hnm) as [fl Hfl]. congruence.
  - intros j fl. simpl. rewrite lookup_insert_Some. intros [[<- <-]|[_ Hj]].
    + right. exists p, 1. simpl. by rewrite lookup_insert_eq.
    + destruct (Hk j fl Hj) as [Hu|(q & n & Hq)]; [by left|right]. exists q, n. simpl in *. rewrite lookup_insert_ne; [done|].
      intros ->. congruence.
Qed.

(** The file that cannot be named is erased. *)
Lemma unmake_spec k s B A p ino es :
  Rep k s B (set_ents es (a_new p ino A)) → consistent A → p ≠ root → o_open B p = 0 → a_held A !! p = None → a_files A !! ino = None →
  dmap es = a_names A → wps (vnode_decref U p) k (λ _ k', Fs k' s B (view_of A)).
Proof.
  intros Hr Hc Hp Hz Hh Hi He. assert (a_held (set_ents es (a_new p ino A)) !! p = Some (ino, 1)) as Hh1 by (simpl; by rewrite lookup_insert_eq).
  eapply wps_mono; [eapply (drop_spec U root k s B _ p ino 1 Hr Hh1); by left|]. intros [] k' Hr'.
  unfold a_drop in Hr'. rewrite Hh1 in Hr'. simpl in Hr'. rewrite lookup_insert_eq in Hr'. simpl in Hr'.
  unfold set_files, set_held, set_ents, a_new in Hr'. simpl in Hr'. rewrite !delete_insert_id in Hr' by done.
  eapply (Fs_names k' s B A es); [|done|done]. by destruct A.
Qed.

Lemma makeobj_link_spec k s B A name excl :
  Rep k s B A → consistent A → room (H:=H) A → a_names A !! name = None → (∀ c, c ∈ name → c ≠ 0) →
  wps ('(result, newguy) ← sfs_makeobj U SFS_TYPE_FILE;
    if negb (result =? 0) then mret (result, NULL)
    else
      sv ← getv newguy;
      '(result, _) ← inF (sfs_dir_link U root name (sv_ino sv));
      if negb (result =? 0) then _ ← vnode_decref U newguy; mret (result, NULL)
      else
        _ ← set_linkcount newguy 1;
        _ ← mark_dirty newguy;
        mret (0, newguy)) k
    (λ r k', ∃ V', Fs k' s B V' ∧ nspec (view_of A) (NCreat name excl) (NRes r.1 r.2 []) V').
Proof using Hroom.
  intros Hr Hc HA Hnm Hch. rewrite wps_bind. eapply wps_mono; [by apply (make_spec U root Hroom k s B A)|].
  intros r k1 [(Hr0 & Hr1 & Hk1)|(p & ino & -> & Hp & Hi1 & Hh & Hf & Hk1)].
  { destruct r as [r q]. simpl in Hr0, Hr1. subst q.
    replace (negb (r =? 0)) with true by (destruct Hr1 as [-> | ->]; done). wps_step.
    exists (view_of A). split; [by exists A|]. destruct Hr1 as [-> | ->]; [|apply s_creat_nomem].
    apply s_creat_noentry; [done|constructor]. }
  cbn [negb Z.eqb]. fold (a_new p ino A) in Hk1. rewrite wps_bind.
  assert (a_held (a_new p ino A) !! p = Some (ino, 1)) as Hh1 by (simpl; by rewrite lookup_insert_eq).
  destruct (Rep_vnode root k1 s B _ p ino 1 Hk1 Hh1 Hp) as (sv & Hm & Hi & _ & Hf1). eapply getv_ok; [done|]. rewrite Hi.
  destruct (Rep_ino root k1 s B _ ino _ Hk1 Hf1) as (Hu & H0' & _).
  rewrite wps_bind. eapply wps_mono; [by apply (link_spec U root k1 s B (a_new p ino A))|].
  intros [r slot] k2 (es & Hr2 & Hl). destruct (r =? 0) eqn:E; cbn [negb].
  - destruct Hl as [(_ & _ & Hlen & He & _)|[_ [[-> _]|[[-> _]|[-> | ->]]]]]; [|done..]. change (a_names (a_new p ino A)) with (a_names A) in He.
    rewrite wps_bind. eapply wps_mono; [eapply (link_count_spec k2 s B (a_new p ino A) p ino 1 es name); [done|by apply consistent_new|done..]|].
    intros [] k3 Hk3. rewrite wps_bind. eapply wps_mono; [exact Hk3|]. intros [] k4 [Hr4 Hc4]. wps_step.
    eexists. split; [by exists (a_relink ino 1 (set_ents es (a_new p ino A)))|].
    replace (view_of (a_relink ino 1 (set_ents es (a_new p ino A)))) with
      (View (<[name := ino]> (a_names A)) (<[ino := (0, no_data)]> (v_files (view_of A))) (<[p := (ino, 1)]> (a_held A))).
    + apply (s_creat_new (view_of A)); try done. simpl. by rewrite lookup_fmap, Hf.
    + rewrite view_of_relink. unfold view_of. simpl. unfold a_names at 2. simpl. by rewrite He, fmap_insert.
  - destruct (linked_entry _ _ _ _ _ _ Hl) as [He Hne]; [lia|]. rewrite wps_bind.
    pose proof (Rep_zero k s B A p Hr Hh). eapply wps_mono; [by apply (unmake_spec k2 s B A p ino es)|]. intros [] k3 HF. wps_step. exists (view_of A). split; [done|].
    apply s_creat_noentry; [done|]. destruct Hne; by constructor.
Qed.

Lemma creat_refines k s B A name excl :
  Rep k s B A → consistent A → room (H:=H) A → (∀ c, c ∈ name → c ≠ 0) →
  wps (VOP_CREAT U root name excl) k (λ r k', ∃ V', Fs k' s B V' ∧
    nspec (view_of A) (NCreat name excl) (NRes r.1 r.2 []) V').
Proof using Hroom.
  intros Hr Hc HA Hch. unfold VOP_CREAT. eapply root_dir_ok; [done|]. unfold sfs_creat. rewrite wps_bind.
  eapply wps_mono; [by apply (find_spec U root k s B A)|]. intros [[r found] empty] k' [-> Hf].
  destruct (Rep_dir root k s B A Hr) as [Hn _]. destruct found as [[ino slot]|].
  - pose proof (found_name _ _ _ _ _ Hn Hf) as Hnm. destruct Hf as (-> & _). cbn [negb Z.eqb andb].
    destruct excl; cbn [andb].
    + wps_step. exists (view_of A). split; [by exists A|]. apply s_creat_excl. by eexists.
    + eapply wps_mono; [apply (load_spec U root Hroom k s B A ino Hr HA); by eapply co_named|].
      intros r k1 [[-> Hr1]|(p & -> & Hp & Hg & Hr1)].
      * exists (view_of A). split; [by exists A|apply s_creat_nomem].
      * exists (view_of (a_hold p ino A)). split; [|by apply (s_creat_old (view_of A) name ino p)].
        exists (a_hold p ino A). split_and!; try done. apply consistent_hold; [done|by eapply co_named|done].
  - destruct Hf as [-> Hno]. change (negb (ENOENT =? 0)) with true. change (ENOENT =? ENOENT) with true.
    change (ENOENT =? 0) with false. cbn [negb andb]. by apply makeobj_link_spec.
Qed.

(** ** Removing a name *)

Section unlink.
Context (k : kst H sfs_fs) (s : sched) (B : outside) (A : afs) (p ino n : Z) (es : list sfs_dir) (nm : list Z).
Hypothesis Hr : Rep k s B (set_ents es A).
Hypothesis Hc : consistent A.
Hypothesis Hh : a_held A !! p = Some (ino, n).
Hypothesis Hp : p ≠ root.
Hypothesis Hnm : a_names A !! nm = Some ino.
Hypothesis He : dmap es = delete nm (a_names A).

Lemma unlink_count_pos : ∃ sv, sfs_mem (k_env k) !! p = Some sv ∧ a_files A !! ino = Some (afile_of (k_env k) (sv_i sv)) ∧
  0 < sfi_linkcount (sv_i sv) < 65536.
Proof using Hr Hc Hh Hp Hnm He.
  destruct (Rep_vnode root k s B _ p ino n Hr Hh Hp) as (sv & Hm & _ & _ & Hf). exists sv. split; [done|]. split; [done|].
  pose proof (co_links A Hc ino _ Hf) as Hlk. simpl in Hlk. rewrite Hlk.
  pose proof (nlinks_delete (a_names A) nm ino ino Hnm) as Hi. rewrite decide_True, <- He in Hi by done.
  destruct (Rep_dir root k s B _ Hr) as [Hn Hl]. pose proof (nlinks_le (dmap es) ino). pose proof (size_dmap _ Hn). simpl in *. lia.
Qed.

Lemma unlink_count_spec :
  wps (set_linkcount p (-1)) k (λ _ k1, wps (mark_dirty p) k1 (λ _ k',
    Rep k' s B (a_relink ino (-1) (set_ents es A)) ∧ consistent (a_relink ino (-1) (set_ents es A)))).
Proof using Hr Hc Hh Hp Hnm He.
  destruct unlink_count_pos as (sv & _ & Hf & Hl).
  eapply wps_mono; [eapply (relink_spec root k s B _ p ino n _ (-1) Hr Hh Hp Hf); simpl; lia|].
  intros [] k1 Hk1. eapply wps_mono; [exact Hk1|]. intros [] k2 Hr2. split; [done|]. by eapply consistent_unlink.
Qed.
End unlink.

(** Giving the looked-up vnode back. *)
Lemma regain_spec k s B k0 A A' p ino :
  Rep k s B A' → Rep k0 s B A → grabs p ino A → p ≠ root → consistent A' → a_held A' = a_held (a_hold p ino A) →
  wps (vnode_decref U p) k (λ _ k', ∃ V', Fs k' s B V' ∧
    settle ino (View (a_names A') (bytes_of <$> a_files A') (a_held A)) V').
Proof.
  intros Hr Hr0 Hg Hp Hc Hh. pose proof (held_hold p ino A) as Hhp. rewrite <- Hh in Hhp.
  destruct (Rep_vnode root k s B A' p ino _ Hr Hhp Hp) as (sv & _ & _ & _ & Hf).
  assert ((p ≠ root ∧ o_open B p = 0) ∨ 1 < default 0 (snd <$> a_held A !! p) + 1) as Hlast.
  { destruct (a_held A !! p) as [[j m]|] eqn:E; [right|left; split; [done|by eapply Rep_zero]].
    pose proof (Rep_count root k0 s B A p j m Hr0 E). simpl. lia. }
  eapply wps_mono; [eapply (drop_spec U root k s B A' p ino _ Hr Hhp Hlast)|]. intros [] k' Hr'.
  destruct (regain p ino (afile_of (k_env k) (sv_i sv)) A A' Hg) as [Hc' Hs].
  - intros q j m. by eapply Rep_count.
  - intros q m. by eapply Rep_grabs.
  - done.
  - done.
  - done.
  - exists (view_of (a_drop p A')). split; [by exists (a_drop p A')|done].
Qed.

Lemma remove_refines k s B A name :
  Rep k s B A → consistent A → room (H:=H) A →
  wps (VOP_REMOVE U root name) k (λ r k', ∃ V', Fs k' s B V' ∧ nspec (view_of A) (NRemove name) (code r) V').
Proof using Hroom.
  intros Hr Hc HA. unfold VOP_REMOVE. eapply root_dir_ok; [done|]. unfold sfs_remove. rewrite wps_bind.
  eapply wps_mono; [by apply lookonce_spec|].
  intros r k1 [(-> & Hno & Hr1)|[[-> Hr1]|(p & slot & ino & d & -> & Hnm & Hp & Hg & Hr1 & Hs & Hd & Hl & Hdn)]].
  { change (negb (ENOENT =? 0)) with true. cbv iota. wps_step. exists (view_of A). split; [by exists A|by constructor]. }
  { change (negb (ENOMEM =? 0)) with true. cbv iota. wps_step. exists (view_of A). split; [by exists A|constructor]. }
  cbn [negb Z.eqb]. rewrite wps_bind. pose proof (held_hold p ino A) as Hh.
  assert (consistent (a_hold p ino A)) as Hc1 by (apply consistent_hold; [done|by eapply co_named|done]).
  eapply wps_mono; [by apply (unlink_spec U root k1 s B (a_hold p ino A) slot d)|]. rewrite Hdn.
  intros r k2 (-> & es & Hr2 & He). cbn [Z.eqb]. rewrite !wps_bind.
  destruct (unlink_count_pos k2 s B _ p ino _ es name Hr2 Hc1 Hh Hp Hnm He) as (sv & Hm & _ & Hlk).
  eapply getv_ok; [done|]. rewrite wps_bind, wps_asrt. split; [lia|]. rewrite wps_bind.
  eapply wps_mono; [by apply (unlink_count_spec k2 s B _ p ino _ es name Hr2 Hc1 Hh Hp Hnm He)|].
  intros [] k3 Hk3. eapply wps_mono; [exact Hk3|]. intros [] k4 [Hr4 Hc4]. rewrite wps_bind.
  eapply wps_mono; [by eapply (regain_spec k4 s B k A _ p ino)|]. intros [] k5 (V' & HF & HV). wps_step. exists V'. split; [done|].
  apply (s_remove (view_of A) name ino); [done|]. rewrite view_relink in HV. unfold a_names in HV at 1. simpl in HV.
  rewrite He in HV. exact HV.
Qed.

(** ** Renaming *)

Lemma settle_used ino V V' : settle ino V V' → in_use ino V → V' = V.
Proof. by intros [[_ ->]|[Hn _]] Hu. Qed.

(** The old name is cleared once the new one is entered. *)
Lemma rename_tail_spec k s B k0 A A2 p ino n2 slot d (bad : Z → stm (kst H sfs_fs) Z) :
  Rep k s B A2 → Rep k0 s B A → consistent A2 → grabs p ino A → p ≠ root → a_held A2 = a_held (a_hold p ino A) →
  0 ≤ slot → a_ents A2 !! Z.to_nat slot = Some d → live d → a_names A !! dname d = Some ino → a_names A !! n2 = None →
  a_names A2 = <[n2 := ino]> (a_names A) → bytes_of <$> a_files A2 = bytes_of <$> a_files A →
  wps (result ← inF (sfs_dir_unlink U root slot);
    if negb (result =? 0) then bad result
    else
      g ← getv p;
      _ ← asrt (sfi_linkcount (sv_i g) >? 0);
      _ ← set_linkcount p (-1);
      _ ← mark_dirty p;
      _ ← vnode_decref U p;
      mret 0) k (λ r k', r = 0 ∧ Fs k' s B (with_names (delete (dname d) (<[n2 := ino]> (a_names A))) (view_of A))).
Proof.
  intros Hr Hr0 Hc Hg Hp Hh Hs Hd Hl Hn1 Hn2 Hn Hb. pose proof (held_hold p ino A) as Hhp. rewrite <- Hh in Hhp.
  assert (n2 ≠ dname d) as Hne by congruence.
  assert (a_names A2 !! dname d = Some ino) as Hnd by (by rewrite Hn, lookup_insert_ne).
  rewrite wps_bind. eapply wps_mono; [by apply (unlink_spec U root k s B A2 slot d)|].
  intros r k2 (-> & es & Hr2 & He). cbn [negb Z.eqb]. rewrite wps_bind.
  destruct (unlink_count_pos k2 s B A2 p ino _ es (dname d) Hr2 Hc Hhp Hp Hnd He) as (sv & Hm & _ & Hlk).
  eapply getv_ok; [done|]. rewrite wps_bind, wps_asrt. split; [lia|]. rewrite wps_bind.
  eapply wps_mono; [by apply (unlink_count_spec k2 s B A2 p ino _ es (dname d) Hr2 Hc Hhp Hp Hnd He)|].
  intros [] k3 Hk3. rewrite wps_bind. eapply wps_mono; [exact Hk3|]. intros [] k4 [Hr4 Hc4]. rewrite wps_bind.
  eapply wps_mono; [by eapply (regain_spec k4 s B k0 A _ p ino)|]. intros [] k5 (V' & HF & HV). wps_step. split; [done|].
  rewrite view_relink in HV. unfold a_names in HV at 1. simpl in HV. rewrite He, Hn, Hb in HV.
  apply settle_used in HV as ->; [exact HF|]. left. exists n2. simpl. rewrite lookup_delete_ne by done. apply lookup_insert_eq.
Qed.

Lemma rename_refines k s B A n1 n2 :
  Rep k s B A → consistent A → room (H:=H) A → (∀ c, c ∈ n2 → c ≠ 0) →
  wps (VOP_RENAME U root n1 root n2) k (λ r k', ∃ V', Fs k' s B V' ∧ nspec (view_of A) (NRename n1 n2) (code r) V').
Proof using Hroom.
  intros Hr Hc HA Hch. unfold VOP_RENAME. eapply root_dir_ok; [done|]. unfold sfs_rename. rewrite wps_bind.
  destruct (Rep_root root k s B A Hr) as (svr & n & Hmr & Hir & _ & _). eapply getv_ok; [done|].
  rewrite wps_bind, wps_asrt. split; [apply Z.eqb_refl|]. rewrite wps_bind, wps_asrt. split; [by apply Z.eqb_eq|].
  rewrite wps_bind. eapply wps_mono; [by apply lookonce_spec|].
  intros r k1 [(-> & Hno & Hr1)|[[-> Hr1]|(p & slot & ino & d & -> & Hnm & Hp & Hg & Hr1 & Hs & Hd & Hl & Hdn)]].
  { change (negb (ENOENT =? 0)) with true. cbv iota. wps_step. exists (view_of A). split; [by exists A|by apply s_rename_none]. }
  { change (negb (ENOMEM =? 0)) with true. cbv iota. wps_step. exists (view_of A). split; [by exists A|apply s_rename_nomem]. }
  cbn [negb Z.eqb]. rewrite wps_bind. pose proof (held_hold p ino A) as Hh. subst n1.
  assert (consistent (a_hold p ino A)) as Hc1 by (apply consistent_hold; [done|by eapply co_named|done]).
  destruct (Rep_vnode root k1 s B _ p ino _ Hr1 Hh Hp) as (sv & Hm & Hi & Ht & Hf). eapply getv_ok; [done|]. rewrite Hi.
  destruct (Rep_ino root k1 s B _ ino _ Hr1 Hf) as (Hu & H0' & _).
  rewrite wps_bind, wps_asrt. split; [by apply Z.eqb_eq|]. rewrite wps_bind.
  eapply wps_mono; [by apply (link_spec U root k1 s B (a_hold p ino A))|].
  intros [r slot2] k2 (es & Hr2 & Hlk). destruct (r =? 0) eqn:E; cbn [negb].
  - destruct Hlk as [(_ & Hn2 & Hlen & He & _ & _ & Hkeep)|[_ [[-> _]|[[-> _]|[-> | ->]]]]]; [|done..].
    rewrite wps_bind. eapply wps_mono; [by eapply (link_count_spec k2 s B _ p ino _ es n2)|].
    intros [] k3 Hk3. rewrite wps_bind. eapply wps_mono; [exact Hk3|]. intros [] k4 [Hr4 Hc4].
    eapply wps_mono; [eapply (rename_tail_spec k4 s B k A _ p ino n2 slot d)|].
    1-7: done. 1: by apply Hkeep. 1-3: done. 1: exact He. 1: exact (view_relink ino 1 (set_ents es (a_hold p ino A))).
    intros r' k5 [-> HF]. eexists. split; [exact HF|]. by apply (s_rename (view_of A)).
  - destruct (linked_entry _ _ _ _ _ _ Hlk) as [He Hne]; [lia|]. rewrite wps_bind.
    eapply wps_mono; [eapply (regain_spec k2 s B k A (set_ents es (a_hold p ino A)) p ino)|].
    1-4: done. 1: by apply consistent_ents. 1: done.
    intros [] k3 (V' & HF & HV). wps_step. exists V'. split; [done|]. unfold a_names in HV at 1. simpl in HV. rewrite He in HV.
    apply settle_used in HV as ->; [|left; by exists (dname d)]. apply s_rename_noentry; [by eexists|].
    destruct Hne; by constructor.
Qed.

(** ** References *)

Lemma hold_refines k s B A p ino n :
  Rep k s B A → consistent A → room (H:=H) A → a_held A !! p = Some (ino, n) →
  wps (vnode_incref p) k (λ _ k', ∃ V', Fs k' s B V' ∧ nspec (view_of A) (NHold p) (code 0) V').
Proof.
  intros (vs & us & O & Hr) Hc HA Hh. pose proof Hh as (sv & Hin & <- & _)%(rep_held _ _ _ _ _ _ _ _ Hr).
  eapply wps_mono; [by eapply hold_spec|]. intros [] k' Hr'. exists (view_of (a_hold p (sv_ino sv) A)).
  split; [|exact (s_hold (view_of A) p (sv_ino sv) n Hh)]. exists (a_hold p (sv_ino sv) A). split; [done|]. split; [|done].
  destruct Hc as [Hn Hl Hk]. constructor; [done|done|]. intros j fl Hj. destruct (Hk j fl Hj) as [Hu|(q & m & Hq)]; [by left|right].
  simpl in *. destruct (decide (q = p)) as [->|].
  - exists p. eexists. rewrite lookup_insert_eq. rewrite Hh in Hq. by injection Hq as -> _.
  - exists q, m. by rewrite lookup_insert_ne.
Qed.

Lemma drop_refines k s B A p ino n :
  Rep k s B A → consistent A → a_held A !! p = Some (ino, n) → (p ≠ root ∧ o_open B p = 0) ∨ 1 < n →
  wps (vnode_decref U p) k (λ _ k', ∃ V', Fs k' s B V' ∧ nspec (view_of A) (NDrop p) (code 0) V').
Proof.
  intros Hr Hc Hh Hpn. eapply wps_mono; [by eapply (drop_spec U root k s B A p ino n)|]. intros [] k' Hr'.
  pose proof (Rep_count root k s B A p ino n Hr Hh) as Hn1. exists (view_of (a_drop p A)). destruct (decide (p = root)) as [->|Hp].
  - assert (1 < n) as Hlt by tauto. unfold a_drop in *. rewrite Hh in *. replace (1 <? n) with true in * by lia.
    split; [|exact (s_drop (view_of A) root ino n Hh Hlt)]. eexists. split; [done|]. split; [|done].
    destruct Hc as [Hn Hl Hk]. constructor; [done|done|]. intros j fl Hj. destruct (Hk j fl Hj) as [Hu|(q & m & Hq)]; [by left|right].
    simpl in *. destruct (decide (q = root)) as [->|].
    + exists root, (n - 1). rewrite lookup_insert_eq. rewrite Hh in Hq. by injection Hq as -> _.
    + exists q, m. by rewrite lookup_insert_ne.
  - destruct (Rep_vnode root k s B A p ino n Hr Hh Hp) as (sv & _ & _ & _ & Hf).
    destruct (consistent_drop p ino n _ A Hc Hh Hn1 Hf) as (Hc' & Hlt & Hlast).
    { intros q m Hq. by apply (Rep_inj root k s B A q p ino m n). }
    split; [by exists (a_drop p A)|]. destruct (decide (1 < n)) as [Hgt|Hle].
    + rewrite Hlt by done. exact (s_drop (view_of A) p ino n Hh Hgt).
    + assert (n = 1) as -> by lia. exact (s_drop_last (view_of A) p ino _ Hh (Hlast eq_refl)).
Qed.

(** ** Operations on a file that is held *)

Section held.
Context (k : kst H sfs_fs) (s : sched) (B : outside) (A : afs) (p ino n : Z).
Hypothesis Hr : Rep k s B A.
Hypothesis Hc : consistent A.
Hypothesis Hh : a_held A !! p = Some (ino, n).
Hypothesis Hp : p ≠ root.

(** The file, and what becomes of the file system when it changes. *)
Lemma held_file : ∃ sv O, file (k_env k) p sv O ∧ sfi_size (sv_i sv) < 2 ^ 31 ∧
  a_files A !! ino = Some (afile_of (k_env k) (sv_i sv)) ∧
  (∀ X (m1 m2 : F X) Φ, wps m1 (k_env k) (λ a f, Φ a (set_env f k)) → wps (VOP_ p (vop p m1 m2)) k Φ) ∧
  (∀ sv' f', fstep p O sv (k_env k) sv' f' → sfi_size (sv_i sv') < 2 ^ 31 →
     Fs (set_env f' k) s B (with_file ino (sfi_size (sv_i sv'), fdata f' (sv_i sv')) (view_of A))).
Proof using Hr Hc Hh Hp.
  destruct Hr as (vs & us & O & Hr'). pose proof (rp_k _ _ _ _ _ _ _ _ Hr') as Hk.
  destruct (rep_vnode _ _ _ _ _ _ _ _ Hr' p ino n Hh Hp) as (sv & Hin & Hm & Hi & Hn & Hn1 & Hops & Ht & Hf).
  destruct (fsvol_mem _ _ _ _ _ _ (fk_vol _ _ _ _ _ _ Hk) Hin) as [_ Hnode]. destruct (fk_cnt _ _ _ _ _ _ Hk p sv Hin) as [Hrc Hoc].
  destruct (list_elem_of_split _ _ Hin) as (vs1 & vs2 & ->). exists sv, (around (k_env k) vs1 sv vs2 (ublocks (k_env k) us ++ O)).
  split_and!.
  - apply (volume_focus _ _ _ _ _ _ (fv_vol _ _ _ _ (fk_vol _ _ _ _ _ _ Hk))).
  - unfold node_ok in Hnode. rewrite Hops in Hnode. apply Hnode.
  - done.
  - intros X m1 m2 Φ Hw. eapply (VOP__ok k s _ B p sv); [apply Hk|done|done|congruence|done|lia|].
    apply (vop_spec _ p sv); [done|done|done|congruence].
  - intros sv' f' Hst Hs. set (A' := set_files (<[sv_ino sv := afile_of f' (sv_i sv')]> (a_files A)) A).
    exists A'. split; [|split].
    + exists (vs1 ++ (p, sv') :: vs2), us, O. apply rep_fstep; [done|done|by eapply node_file|done].
    + destruct (fs_meta _ _ _ _ _ _ Hst) as (_ & _ & _ & Hl & _). destruct Hc as [Hn' Hl' Hk'].
      assert (∀ j fl, a_files A' !! j = Some fl → ∃ fl0, a_files A !! j = Some fl0 ∧ af_links fl = af_links fl0) as Hback.
      { intros j fl. unfold A'. simpl. rewrite lookup_insert_Some. intros [[<- <-]|[_ Hj]]; [|by exists fl].
        rewrite Hi, Hf. eexists. split; [done|]. simpl. by rewrite Hl. }
      constructor.
      * intros nm j Hj. destruct (Hn' nm j Hj) as [fl Hfl]. unfold A'. simpl. apply lookup_insert_is_Some'. right. by exists fl.
      * intros j fl Hj. destruct (Hback j fl Hj) as (fl0 & Hfl0 & ->). by apply Hl'.
      * intros j fl Hj. destruct (Hback j fl Hj) as (fl0 & Hfl0 & _). by apply (Hk' j fl0).
    + unfold view_of, with_file, A'. simpl. by rewrite fmap_insert, Hi.
Qed.
End held.
End ops.
