(* ===== verification/SfsBoot.v ===== *)
(** * Mounting a volume

    [stored f us ir O]: the disk of [f] holds a complete volume, with the inode [ir] of the root
    directory and the files [us]; [O] are the blocks of the map and those that belong to files
    without a name.  [sfs_domount] and [sfs_getroot] bring such a disk into memory.  A volume that
    has been synced is stored, and what is found on it again are the names and the named files. *)

From S2P Require Import Prelude StateM Heap KArray KBitmap Coremap KState Thread ThreadSpec ThreadHeap Synch SynchSpec Owned.
From S2P Require Import ProcSpec Uio SfsDisk Sfs SfsBytes SfsSpec SfsIo SfsDirs SfsTrunc SfsVolume SfsTree SfsNode SfsNodeSpec.
From S2P Require Import Owned SfsTree SfsNodeSpec SfsNode SfsRep SfsLife SfsView SfsSync SfsOps.

(** ** Reading the map *)

Section read.
Variable U : usermem.
Implicit Types f : sfs_fs.

Lemma rblock_disk f data b Φ :
  disk_ok (sfs_device f) → healthy (sfs_device f) → 0 ≤ b < d_blocks (sfs_device f) → length data = 512%nat →
  Φ (0, sec f b) f → wps (rblock U data b) f Φ.
Proof.
  intros Hd Hh Hb Hl HΦ. unfold rblock. wps_step. rewrite wps_lift, rblock_spec by done.
  wp_val. wps_step. by replace (set_device (sfs_device f) f) with f by (by destruct f).
Qed.

Lemma set_freemap_again f b b' : set_freemap b' (set_freemap b f) = set_freemap b' f.
Proof. done. Qed.

Lemma map_read_spec f v :
  disk_ok (sfs_device f) → healthy (sfs_device f) → 0 ≤ mapsize f ≤ 1024 →
  zlen (bm_v (sfs_freemap f)) = 512 * mapsize f → zlen v = 512 * mapsize f →
  (∀ j, 0 ≤ j < mapsize f → SFS_MAP_LOCATION + j < d_blocks (sfs_device f)) →
  (∀ j, 0 ≤ j < mapsize f → sec f (SFS_MAP_LOCATION + j) = sub v (512 * j) 512) →
  wps (sfs_mapio U UIO_READ) f (λ r f', r = 0 ∧ f' = set_freemap (bm_set_v (sfs_freemap f) v) f).
Proof.
  intros Hd Hh Hms Hlen Hlv Hin Hsec. unfold sfs_mapio. wps_step.
  change (SFS_FS_BITBLOCKS f) with (mapsize f). unfold SFS_MAP_LOCATION in *.
  apply (wps_mwhile (λ n j f', n = Z.to_nat (mapsize f - j) ∧ 0 ≤ j ≤ mapsize f ∧ ∃ v',
    f' = set_freemap (bm_set_v (sfs_freemap f) v') f ∧ zlen v' = zlen v ∧ sub v' 0 (512 * j) = sub v 0 (512 * j))
    _ (Z.to_nat (mapsize f))).
  { split_and!; [f_equal; lia|lia|lia|]. exists (bm_v (sfs_freemap f)). rewrite !sub_0. split_and!; [by destruct f as [? ? ? ? ? []]|lia|done]. }
  { lia. }
  intros n j f' (-> & Hj & v' & -> & Hl' & Hv'). destruct (j <? mapsize f) eqn:E.
  2: { wps_step. split; [done|]. do 2 f_equal. replace (512 * j) with (zlen v) in Hv' by lia. rewrite sub_all in Hv'.
       rewrite <- Hl' in Hv'. by rewrite sub_all in Hv'. }
  wps_step. rewrite wps_lift. simpl sfs_freemap. simpl bm_v. unfold SFS_BLOCKSIZE. apply wp_slice; [lia|lia|lia|].
  assert (zlen (sub v' (j * 512) 512) = 512) as Hl by (rewrite length_sub; lia).
  assert (zlen (sub v (512 * j) 512) = 512) as Hl2 by (rewrite length_sub; lia).
  pose proof (Hin j ltac:(lia)). rewrite u32_id by in_range. rewrite !wps_bind.
  apply rblock_disk; [done|done|simpl; lia|lia|]. wps_step. cbn [negb Z.eqb]. wps_step.
  change (sec (set_freemap (bm_set_v (sfs_freemap f) v') f) (2 + j)) with (sec f (2 + j)). rewrite Hsec by lia.
  exists (Z.to_nat (mapsize f - (j + 1))). split_and!; [lia|done|lia|lia|].
  exists (splice v' (j * 512) (sub v (512 * j) 512)). replace (j * 512) with (512 * j) by lia.
  split_and!; [done|rewrite length_splice; lia|]. replace (512 * (j + 1)) with (512 * j + 512) by lia.
  rewrite <- !sub_app by lia. rewrite sub_splice_other, Hv' by lia. f_equal.
  rewrite Z.add_0_l. pose proof (sub_splice_same v' (512 * j) (sub v (512 * j) 512)) as Hs. rewrite Hl2 in Hs.
  apply Hs; lia.
Qed.
End read.

(** ** A volume on disk *)

Record stored (f : sfs_fs) (us : list (Z * sfs_inode)) (ir : sfs_inode) (O : list Z) : Prop := Stored {
  st_vol : vol_ok f;
  st_meta : meta (sfs_super_ f) f O;
  st_super : sfs_superdirty f = 0;
  st_map : sfs_freemapdirty f = 0;
  st_own : bowned f (ublocks f ((SFS_ROOT_LOCATION, ir) :: us) ++ O);
  st_inode : sec f SFS_ROOT_LOCATION = inode_bytes ir ∧ inode_wf ir;
  st_root : sfi_type ir = SFS_TYPE_DIR ∧ sfi_size ir mod 64 = 0 ∧ sfi_size ir ≤ 512 * 143 ∧ names_once (dirents f ir);
  st_files : ∀ ino i, (ino, i) ∈ us → sec f ino = inode_bytes i ∧ inode_wf i ∧
    sfi_type i = SFS_TYPE_FILE ∧ sfi_size i < 2 ^ 31;
}.

Section mount.
Context {H : Type} `{KHeapLaws H}.
Variable U : usermem.
Implicit Types (k : kst H sfs_fs) (f : sfs_fs) (us : list (Z * sfs_inode)).

(** The structure is not there; the memory and the disk are as they were. *)
Definition given_back k k' : Prop :=
  ∃ h e, k' = set_heap h (set_env e k) ∧ taken h (kh_live (k_heap k)) [] ∧ sfs_device e = sfs_device (k_env k).

Lemma undo_spec k k0 L f r h :
  sfs_self f ≠ NULL → array_rep (sfs_vnodes f) [] → taken h L (arr_blocks (sfs_vnodes f) ++ [sfs_self f]) →
  L = kh_live (k_heap k0) → sfs_device f = sfs_device (k_env k0) → k = set_heap h (set_env f k0) →
  wps (undo_array r) k (λ r' k', r' = r ∧ given_back k0 k').
Proof.
  intros Hs Ha Ht -> Hd ->. unfold undo_array. wps_step. wps_call destroy_taken; [exact Ht|done|].
  intros [] k1 (h1 & -> & Ht1). wps_call free_taken; [exact Ht1|]. intros [] k2 (h2 & -> & Ht2). wps_step. split; [done|].
  exists h2, f. split_and!; [by destruct k0|done|done].
Qed.

(** What [sfs_domount] makes of the disk of [f]. *)
Definition mount_of f (self : Z) (a : array) (bs bv : Z) (m : gmap Z sfs_vnode) : sfs_fs :=
  SfsFs self (sfs_super_ f) 0 (sfs_device f) a (Bitmap bs (bm_nbits (sfs_freemap f)) bv (bm_v (sfs_freemap f))) 0 m.

Definition mounted f k k' : Prop :=
  ∃ h a self bs bv, k' = set_heap h (set_env (mount_of f self a bs bv (sfs_mem (k_env k))) k) ∧ array_rep a [] ∧
    taken h (kh_live (k_heap k)) (arr_blocks a ++ [bv; bs; self]).

Lemma terminate_done s : super_wf s → sp_volname s !! 31%nat = Some 0 → terminate s = s.
Proof. intros Hw Hn. unfold terminate. rewrite list_insert_id by done. by destruct s. Qed.

Section stored.
Context (f : sfs_fs) (us : list (Z * sfs_inode)) (ir : sfs_inode) (O : list Z) (k : kst H sfs_fs).
Hypothesis Hst : stored f us ir O.
Hypothesis Hdev : sfs_device (k_env k) = sfs_device f.
Hypothesis Hmax : 512 * mapsize f < kh_max.
Hypothesis Hfs : SFS_FS_SIZE < kh_max.

Lemma stored_bounds : 0 ≤ mapsize f ≤ 1024 ∧ SFS_BITMAPSIZE (nblocks f) = 4096 * mapsize f ∧
  zlen (bm_v (sfs_freemap f)) = 512 * mapsize f ∧
  ∀ j, 0 ≤ j < mapsize f → SFS_MAP_LOCATION + j < d_blocks (sfs_device f).
Proof using Hst.
  destruct Hst as [Hv Hm _ _ [_ HB] _ _ _]. destruct (mapsize_bound f (vol_nblocks f Hv)) as [Hb1 Hb2].
  split_and!; [lia|lia|done|by apply map_bytes; [|apply Hm]|]. intros j Hj.
  destruct (HB (SFS_MAP_LOCATION + j)) as [Hr _]; [apply elem_of_app; right; by apply (me_blocks _ _ _ Hm)|].
  destruct (vo_size _ Hv). lia.
Qed.

(** From the point where the superblock is in memory. *)
Lemma load_map_spec h g self a :
  self ≠ NULL → array_rep a [] → taken h (kh_live (k_heap k)) (arr_blocks a ++ [self]) →
  sfs_self g = self → sfs_vnodes g = a → sfs_super_ g = sfs_super_ f → sfs_device g = sfs_device f → sfs_mem g = sfs_mem (k_env k) →
  wps (ob ← heap_op (bitmap_create (SFS_FS_BITMAPSIZE g));
       match ob with
       | None => undo_array ENOMEM
       | Some b =>
           _ ← inF (modify (set_freemap b));
           result ← inF (sfs_mapio U UIO_READ);
           if negb (result =? 0) then
             f ← gets k_env;
             _ ← heap_do (bitmap_destroy (sfs_freemap f));
             undo_array result
           else
             _ ← inF (modify (λ f, set_freemapdirty 0 (set_superdirty 0 f)));
             mret 0
       end) (set_heap h (set_env g k)) (λ r k', (r = ENOMEM ∧ ¬ kh_room 2 h ∧ given_back k k') ∨ (r = 0 ∧ mounted f k k' ∧ rooms 2 h True (k_heap k'))).
Proof using Hst Hdev Hmax Hfs.
  intros Hs Ha Ht G1 G2 G3 G4 G5. destruct stored_bounds as (Hms & Hbits & Hlen & Hin). pose proof Hst as [Hv Hm _ Hz _ _ _ _].
  assert (SFS_FS_BITMAPSIZE g = 4096 * mapsize f) as Hsz by (unfold SFS_FS_BITMAPSIZE; by rewrite G3).
  assert (mapsize g = mapsize f) as Hmg by (unfold mapsize; by rewrite G3).
  assert ((4096 * mapsize f + 7) / 8 = 512 * mapsize f) as Hdiv by (symmetry; apply (Z.div_unique _ 8 _ 7); lia).
  rewrite wps_bind. eapply wps_mono.
  { rewrite Hsz. apply create_bitmap_taken; [exact Ht|lia|lia|unfold SFS_FS_SIZE in Hfs; lia|lia]. }
  intros [b|] k1 (h1 & -> & Hr1 & Ht1); change (k_heap (set_heap h (set_env g k))) with h in Hr1.
  2: { eapply wps_mono; [apply (undo_spec _ k (kh_live (k_heap k)) g ENOMEM h1); rewrite ?G1, ?G2, ?G4; (done || by destruct k)|].
       intros r k2 [-> Hg]. left. split; [done|]. split; [|done]. apply (rooms_fail _ _ _ _ Hr1). naive_solver. }
  destruct Ht1 as (Hw & Hnb & Ht1). rewrite wps_bind. apply inF_ok. wps_step. apply inF_ok. ksimpl.
  eapply wps_mono; [apply (map_read_spec U (set_freemap b g) (bm_v (sfs_freemap f)))|].
  { simpl. rewrite G4. apply Hv. }
  { simpl. rewrite G4. apply Hv. }
  { change (mapsize _) with (mapsize g). by rewrite Hmg. }
  { change (mapsize _) with (mapsize g). simpl. destruct Hw as (_ & _ & -> & _). by rewrite Hnb, Hmg. }
  { change (mapsize _) with (mapsize g). by rewrite Hmg. }
  { change (mapsize _) with (mapsize g). rewrite Hmg. simpl. by rewrite G4. }
  { change (mapsize _) with (mapsize g). rewrite Hmg. simpl. rewrite G4. by apply (me_map _ _ _ Hm Hz). }
  intros r f' [-> ->]. cbn [negb Z.eqb]. rewrite wps_bind. apply inF_ok. wps_step. right. split; [done|].
  split; [|by eapply rooms_mono]. exists h1, a, self, (bm_self b), (bm_vptr b). split_and!; [|done|].
  - ksimpl. unfold mount_of. fsimpl. rewrite <- G1, <- G2, <- G3, <- G4, <- G5, (me_bits _ _ _ Hm), Hbits, <- Hnb.
    destruct k, g. done.
  - eapply taken_perm; [|exact Ht1]. solve_Permutation.
Qed.

Lemma domount_spec :
  kh_inv (k_heap k) →
  wps (sfs_domount U SFS_BLOCKSIZE) k (λ r k', (r = ENOMEM ∧ ¬ kh_room 4 (k_heap k) ∧ given_back k k') ∨
    (r = 0 ∧ mounted f k k' ∧ rooms 4 (k_heap k) True (k_heap k'))).
Proof using Hst Hdev Hmax Hfs.
  intros Hi. pose proof Hst as [Hv Hm Hsd _ _ _ _ _]. destruct (vo_size _ Hv) as [Hpos Hle]. unfold sfs_domount.
  cbn [negb Z.eqb SFS_BLOCKSIZE Pos.eqb]. rewrite wps_bind.
  eapply wps_mono; [apply alloc_taken; [by apply taken_nil|unfold SFS_FS_SIZE in *; lia]|].
  intros self k1 (h1 & -> & Hr1 & [[-> Ht1]|[Hself Ht1]]).
  { simpl. wps_step. left. split; [done|]. split; [by apply (rooms_fail 4 _ _ _ (rooms_le _ 4 _ _ _ Hr1 ltac:(lia))); naive_solver|]. exists h1, (k_env k). split_and!; [by destruct k|done|done]. }
  replace (self =? NULL) with false by lia. rewrite wps_bind. apply inF_ok. wps_step.
  eapply wps_mono; [apply create_taken; [exact Ht1|unfold SFS_FS_SIZE in *; lia]|].
  intros oa k2 (h2 & -> & Hr2 & Ht2). pose proof (rooms_bind 1 1 _ _ _ _ _ Hr1 (λ _, Hr2)) as Hr. clear Hr1 Hr2. destruct oa as [a|].
  2: { wps_call free_taken; [exact Ht2|]. intros [] k3 (h3 & -> & Ht3). wps_step. left. split; [done|].
       split; [by apply (rooms_fail 4 _ _ _ (rooms_le _ 4 _ _ _ Hr ltac:(lia))); naive_solver|].
       exists h3, (set_self self (k_env k)). split_and!; [by destruct k|done|done]. }
  destruct Ht2 as [Ha Ht2]. rewrite wps_bind. apply inF_ok. wps_step. apply inF_ok. ksimpl.
  apply rblock_disk; [simpl; rewrite Hdev; apply Hv..|simpl; rewrite Hdev; unfold SFS_SB_LOCATION; lia|done|].
  rewrite wps_bind. apply inF_ok. wps_step. cbn [negb Z.eqb]. wps_step. ksimpl. unfold set_self. fsimpl. rewrite Hdev.
  unfold SFS_SB_LOCATION. rewrite (me_sb _ _ _ Hm Hsd), super_roundtrip by apply Hm. rewrite (me_magic _ _ _ Hm), Z.eqb_refl. cbn [negb].
  rewrite wps_bind. apply inF_ok. wps_step. ksimpl. fsimpl. rewrite terminate_done by apply Hm.
  set (g := SfsFs self (sfs_super_ f) (sfs_superdirty (k_env k)) (sfs_device f) a (sfs_freemap (k_env k)) (sfs_freemapdirty (k_env k)) (sfs_mem (k_env k))).
  pose proof (load_map_spec h2 g self a Hself Ha Ht2 eq_refl eq_refl eq_refl eq_refl eq_refl) as Hload.
  apply (wps_mono _ _ _ (λ r k', (r = ENOMEM ∧ ¬ kh_room 4 (k_heap k) ∧ given_back k k') ∨
    (r = 0 ∧ mounted f k k' ∧ rooms 4 (k_heap k) True (k_heap k')))) in Hload.
  - rewrite wps_bind in Hload. unfold g in Hload. exact Hload.
  - intros r k' [(-> & Hfull & Hg)|(-> & Hmt & Hr3)]; [left|right]; (split; [done|]).
    + split; [|done]. intros Hroom. apply (Hr 2%nat) in Hroom as [_ Hroom]. done.
    + split; [done|]. by eapply (rooms_bind 2 2); [exact Hr|intros _].
Qed.
End stored.

(** ** The root directory *)

(** A kernel whose heap has the blocks [C]. *)
Record idle k s (C : list Z) : Prop := Idle {
  id_rep : srep k s;
  id_int : k_inint k = 0;
  id_null : k_locks k !! NULL = None;
  id_own : owned (k_heap k) C;
  id_sleep : ∀ t th, t ∈ s_sleep s → k_threads k !! t = Some th → t_sleepaddr th ∈ C;
}.

(** What else the kernel [k] has when no file of a volume with the superblock [S] is open. *)
Definition beyond (S : sfs_super) k (B : list Z) : outside := Outside (Outer B (k_threads k) (k_locks k)) (λ _, 0) S.

Lemma mounted_nodes f k k' s C :
  mounted f k k' → idle k s C →
  ∃ a self bs bv, k_env k' = mount_of f self a bs bv (sfs_mem (k_env k)) ∧ nodes k' s [] (beyond (sfs_super_ f) k ([bv; bs; self] ++ C)).
Proof.
  intros (h & a & self & bs & bv & -> & Ha & Ht) [Hr Hi Hn Ho Hs]. exists a, self, bs, bv. split; [done|].
  constructor; ksimpl; try done.
  - destruct Hr. by constructor.
  - intros p sv Hin. by apply elem_of_nil in Hin.
  - pose proof (taken_owned _ _ _ _ Ho Ht) as Ho'. by rewrite <- app_assoc in Ho'.
  - intros t th Hin Hth. apply elem_of_app. right. by apply (Hs t).
Qed.

Lemma mount_of_vol f self a bs bv m : vol_ok f → vol_ok (mount_of f self a bs bv m).
Proof. intros []. by constructor. Qed.

Lemma stored_fsvol f us ir O self a bs bv m :
  stored f us ir O →
  fsvol (mount_of f self a bs bv m) [] us (SFS_ROOT_LOCATION :: file_blocks f ir ++ O).
Proof.
  intros [Hv _ _ _ Hown _ _ Hf]. constructor; [|by intros p sv ?%elem_of_nil|done].
  constructor; [by apply mount_of_vol|constructor|by intros p sv ?%elem_of_nil|]. simpl. by rewrite own_swap in Hown.
Qed.

Section getroot.
Context (f : sfs_fs) (us : list (Z * sfs_inode)) (ir : sfs_inode) (O : list Z) (k : kst H sfs_fs) (s : sched) (B : outside).
Context (self : Z) (a : array) (bs bv : Z) (m : gmap Z sfs_vnode).
Hypothesis Hst : stored f us ir O.
Hypothesis Henv : k_env k = mount_of f self a bs bv m.
Hypothesis Hn : nodes k s [] B.
Hypothesis Hclosed : ∀ p, o_open B p = 0.
Hypothesis Hsup : o_super B = sfs_super_ f.
Hypothesis Hroom : SFS_VNODE_SIZE < kh_max.

Definition A_stored (p : Z) : afs := Afs (dirents f ir) (files_of f us) {[p := (SFS_ROOT_LOCATION, 1)]}.

Definition root_post (r : Z * Z) k' : Prop :=
  (r = (ENOMEM, NULL) ∧ ¬ kh_room 4 (k_heap k)) ∨ ∃ p, r = (0, p) ∧ sfs_super_ (k_env k') = sfs_super_ f ∧ Rep p k' s B (A_stored p).

Lemma root_install h p :
  owned h (p :: arr_blocks (sfs_vnodes (k_env k)) ++ B) → (¬ kh_room 3 h → ¬ kh_room 4 (k_heap k)) →
  wps (install p SFS_ROOT_LOCATION ir 0) (set_heap h k) root_post.
Proof using Hst Henv Hn Hclosed Hsup Hroom.
  intros Ho Hshort. destruct Hst as [Hv Hm Hsd Hmd Hown [Hsec Hw] (Hty & Hmod & Hsz & Hnm) Hfiles].
  eapply wps_mono; [apply (install_spec Hroom (set_heap h k) s [] B p SFS_ROOT_LOCATION 0 ir DirOps)|].
  - apply nodes_heap; [done|]. change (p :: ?l) with ([p] ++ l) in Ho. by apply owned_app_r in Ho.
  - done.
  - by right.
  - done.
  - unfold SFS_VNODE_SIZE in Hroom. simpl. lia.
  - intros r k' [(-> & Hfull & _)|(-> & lk & a' & Hn' & He)]; [left; split; [done|by apply Hshort]|right]. exists p. split; [done|].
    ksimpl. rewrite Henv in He. split; [by rewrite He|]. set (sv := mk_node _ _ _ _ _) in *. exists [(p, sv)], us, O.
    assert (fsvol (k_env k') [(p, sv)] us O) as Hv'.
    { rewrite He. apply fsvol_vnodes, (add_vnode _ [] []); [exact (stored_fsvol f us ir O self a bs bv m Hst)|by apply not_elem_of_nil|done|done|done]. }
    assert (∀ j i, (j, i) ∈ us → still f (k_env k') i) as Hstill by (by rewrite He).
    pose proof (fsvol_unique _ _ _ _ Hv') as Hu. destruct (files_of_vn (k_env k') [] p sv [] us Hu) as [Hf1 Hf2].
    constructor; try done.
    + constructor; [done|done| |done]. intros q svq [[= -> ->]|[]%elem_of_nil]%elem_of_cons. unfold counted. by rewrite Hclosed.
    + exists sv. split; [by left|]. split; [done|]. split; [done|]. by rewrite He.
    + intros q svq [[= -> ->]|[]%elem_of_nil]%elem_of_cons. done.
    + simpl. simpl app in Hf1, Hf2. rewrite Hf1, delete_insert_id by done. by rewrite (files_of_still f (k_env k')).
    + rewrite He, Hsup. destruct Hm as [M0 M1 M2 M3 M4 M5 M6 M7]. by constructor; auto.
Qed.

Lemma root_spec : wps (sfs_loadvnode U SFS_ROOT_LOCATION SFS_TYPE_INVAL) k root_post.
Proof using Hst Henv Hn Hclosed Hsup Hroom.
  pose proof Hst as [Hv _ _ _ [_ HB] [Hsec Hw] _ _]. pose proof (stored_fsvol f us ir O self a bs bv m Hst) as Hfv.
  pose proof (mount_of_vol f self a bs bv m Hv) as Hok. rewrite <- Henv in Hok, Hfv.
  destruct (HB SFS_ROOT_LOCATION) as [Hrg Hu]; [by left|]. unfold sfs_loadvnode. rewrite wps_bind. apply inF_ok.
  eapply wps_mono; [apply (find_loaded_spec _ [] _ _ SFS_ROOT_LOCATION Hfv); apply Hn|].
  intros [q|] f' [-> Hq]; [by destruct Hq as (svq & []%elem_of_nil & _)|].
  replace (set_env (k_env k) k) with k by (by destruct k). pose proof (nd_own _ _ _ _ Hn) as Ho. simpl in Ho.
  wps_call wps_kalloc_full; [apply Ho|unfold SFS_VNODE_SIZE in *; lia|].
  intros p k1 (h1 & -> & Hi1 & [[-> Hl1]|(Hp & Hnp & Hl1)] & Hr1).
  { simpl. wps_step. left. split; [done|]. apply (rooms_fail 4 _ _ _ (rooms_le _ 4 _ _ _ Hr1 ltac:(lia))). naive_solver. }
  replace (p =? NULL) with false by lia. pose proof (owned_new _ _ _ _ Ho Hi1 Hnp Hl1) as Ho1.
  assert (nblocks (k_env k) = nblocks f ∧ used (k_env k) SFS_ROOT_LOCATION = true ∧ sec (k_env k) SFS_ROOT_LOCATION = inode_bytes ir)
    as (Hnb & Hused & Hsec') by (by rewrite Henv).
  rewrite wps_bind. apply inF_ok. apply bused_spec; [done|ksimpl; lia|]. ksimpl. intros r Hru. rewrite Hused in Hru. rewrite Hru.
  cbn [negb]. rewrite wps_bind. apply inF_ok. apply rblock_ok; [done|ksimpl; lia|done|]. cbn [negb Z.eqb SFS_TYPE_INVAL]. ksimpl.
  replace (set_env (k_env k) (set_env (k_env k) (set_heap h1 k))) with (set_heap h1 k) by (by destruct k).
  rewrite Hsec', inode_roundtrip by done. apply root_install; [done|].
  intros Hno Hr. apply (Hr1 3%nat) in Hr as [_ Hr]. done.
Qed.

Lemma getroot_spec :
  wpf (¬ kh_room 4 (k_heap k)) (sfs_getroot U) k (λ p k', sfs_super_ (k_env k') = sfs_super_ f ∧ Rep p k' s B (A_stored p)).
Proof using Hst Henv Hn Hclosed Hsup Hroom.
  unfold sfs_getroot. rewrite wpf_bind. eapply wpf_mono; [apply wpf_of_wps, root_spec|].
  intros r k' [[-> Hfull]|(p & -> & Hr)]; [by apply wpf_panic|]. by apply wpf_ret.
Qed.
End getroot.

(** ** A synced volume is stored *)

Section synced.
Context (root : Z) (k : kst H sfs_fs) (s : sched) (B : outside) (A : afs).
Context (vs : list (Z * sfs_vnode)) (us : list (Z * sfs_inode)) (O : list Z).
Hypothesis Hr : rep root k s B A vs us O.
Hypothesis Hsy : synced k vs.
Abbreviation f := (k_env k).

(** Every inode is on disk. *)
Lemma synced_inode ino i : (ino, i) ∈ inodes vs us → sec f ino = inode_bytes i ∧ inode_wf i.
Proof using Hr Hsy.
  intros Hin. pose proof (rep_vol _ _ _ _ _ _ _ _ Hr) as Hv. split; [|exact (fsvol_wf _ _ _ _ _ _ Hv Hin)].
  apply elem_of_app in Hin as [(p & sv & Hin & -> & ->)%elem_of_numbered|Hin].
  - apply (fv_clean _ _ _ _ Hv p); [done|]. by apply (sy_nodes _ _ Hsy p).
  - by apply (fv_un _ _ _ _ Hv).
Qed.

Lemma other_file vs1 sv vs2 ino i :
  vs = vs1 ++ (root, sv) :: vs2 → (ino, i) ∈ inodes (vs1 ++ vs2) us → sfi_type i = SFS_TYPE_FILE ∧ sfi_size i < 2 ^ 31.
Proof using Hr.
  intros Hvs Hin. pose proof (rep_vol _ _ _ _ _ _ _ _ Hr) as Hv.
  apply elem_of_app in Hin as [(p & svp & Hin & -> & ->)%elem_of_numbered|Hin]; [|by apply (fv_un _ _ _ _ Hv ino)].
  assert (p ≠ root) as Hp.
  { intros ->. rewrite Hvs in Hv. apply (key_not_other _ _ _ _ _ _ _ Hv), list_elem_of_fmap. by exists (root, svp). }
  assert ((p, svp) ∈ vs) as Hin' by (rewrite Hvs; by apply elem_of_others).
  destruct (fsvol_mem _ _ _ _ _ _ Hv Hin') as [_ Hn]. unfold node_ok in Hn.
  by rewrite (rp_ops _ _ _ _ _ _ _ _ Hr p svp Hin' Hp) in Hn.
Qed.

Definition linked (x : Z * sfs_inode) : Prop := sfi_linkcount x.2 ≠ 0.
#[local] Instance linked_dec x : Decision (linked x).
Proof. unfold linked. apply _. Defined.

Lemma files_of_linked l :
  NoDup l.*1 → files_of f (filter linked l) = filter (λ x, af_links x.2 ≠ 0) (files_of f l).
Proof using.
  intros Hnd. assert (NoDup (filter linked l).*1) as Hnd'.
  { eapply sublist_NoDup; [exact Hnd|]. apply fmap_sublist, sublist_filter. }
  apply map_eq. intros ino. apply option_eq. intros fl. rewrite map_lookup_filter_Some, !files_of_Some by done. split.
  - intros (i & [Hl Hin]%list_elem_of_filter & ->). split; [by exists i|done].
  - intros [(i & Hin & ->) Hl]. exists i. split; [|done]. by apply list_elem_of_filter.
Qed.

Lemma synced_stored :
  ∃ us' ir O', stored f us' ir O' ∧ dirents f ir = a_ents A ∧ files_of f us' = filter (λ x, af_links x.2 ≠ 0) (a_files A).
Proof using Hr Hsy.
  pose proof (rep_vol _ _ _ _ _ _ _ _ Hr) as Hv. pose proof (rep_unique _ _ _ _ _ _ _ _ Hr) as Hu.
  destruct (rep_dir _ _ _ _ _ _ _ _ Hr) as (sv & vs1 & vs2 & Hvs & Hino & Hops & Hents & Hm & Hdir).
  set (rest := inodes (vs1 ++ vs2) us).
  assert (inodes vs us ≡ₚ (SFS_ROOT_LOCATION, sv_i sv) :: rest) as Hp by (rewrite Hvs, inodes_vn; by rewrite Hino).
  assert (rest ≡ₚ filter linked rest ++ filter (λ x, ¬ linked x) rest) as Hsplit by (symmetry; apply filter_app_complement).
  exists (filter linked rest), (sv_i sv), (ublocks f (filter (λ x, ¬ linked x) rest) ++ O).
  assert (∀ x, x ∈ rest → x ∈ inodes vs us) as Hsub by (intros x Hx; rewrite Hp; by right).
  rewrite Hp in Hu. apply NoDup_cons in Hu as [Hu1 Hu2]. split_and!; [constructor|done|].
  - apply Hv.
  - pose proof (rp_meta _ _ _ _ _ _ _ _ Hr) as Hme. rewrite (me_same _ _ _ Hme). eapply meta_more; [exact Hme|]. intros b Hb. apply elem_of_app. by right.
  - apply Hsy.
  - apply Hsy.
  - pose proof (fsvol_own _ _ _ _ Hv) as Ho. rewrite Hp in Ho. rewrite Hsplit in Ho at 1.
    rewrite ublocks_cons in Ho |- *. rewrite ublocks_app in Ho.
    eapply bowned_perm; [|exact Ho]. simpl. by rewrite <- !app_assoc.
  - apply synced_inode. rewrite Hp. by left.
  - destruct Hdir. by split_and!.
  - intros ino i [_ Hin]%list_elem_of_filter. destruct (synced_inode ino i (Hsub _ Hin)) as [? ?].
    by destruct (other_file vs1 sv vs2 ino i Hvs Hin).
  - rewrite files_of_linked by done. f_equal. rewrite (rp_files _ _ _ _ _ _ _ _ Hr).
    rewrite (files_of_perm f _ _ (rep_unique _ _ _ _ _ _ _ _ Hr) Hp), files_of_cons. symmetry. apply delete_insert_id.
    by apply files_of_None.
Qed.
End synced.

(** ** Mounting and getting the root *)

Definition mount_root : stm (kst H sfs_fs) (Z * Z) :=
  result ← sfs_domount U SFS_BLOCKSIZE;
  if negb (result =? 0) then mret (result, NULL) else p ← sfs_getroot U; mret (0, p).

Lemma mount_root_spec k s C f us ir O :
  stored f us ir O → idle k s C → sfs_device (k_env k) = sfs_device f →
  SFS_FS_SIZE < kh_max → 512 * mapsize f < kh_max → let short := ¬ kh_room 8 (k_heap k) in
  wpf short mount_root k (λ '(r, p) k', (r = ENOMEM ∧ p = NULL ∧ short ∧ given_back k k') ∨
    (r = 0 ∧ sfs_super_ (k_env k') = sfs_super_ f ∧ ∃ B, Rep p k' s (beyond (sfs_super_ f) k (B ++ C)) (A_stored f us ir p))).
Proof.
  intros Hst Hid Hdev Hfs Hmax short. unfold mount_root. rewrite wpf_bind.
  eapply wpf_mono; [apply wpf_of_wps, (domount_spec f us ir O k Hst Hdev Hmax Hfs); apply Hid|].
  intros r k1 [(-> & Hfull & Hg)|(-> & Hm & Hrm)].
  { cbn [negb]. wpf_step. left. split_and!; [done|done| |done]. intros Hr. apply Hfull. eapply room_sub; [exact Hr|lia]. }
  cbn [negb Z.eqb]. destruct (mounted_nodes _ _ _ _ _ Hm Hid) as (a & self & bs & bv & He & Hn). rewrite wpf_bind.
  eapply wpf_mono; [eapply wpf_weaken; [apply (getroot_spec f us ir O k1 s _ self a bs bv (sfs_mem (k_env k)) Hst He Hn)|]|].
  { done. }
  { done. }
  { unfold SFS_FS_SIZE, SFS_VNODE_SIZE in *. lia. }
  { intros Hno Hr. apply (Hrm 4%nat) in Hr as [_ Hr]. done. }
  intros p k2 [Hs Hr]. wpf_step. right. split; [done|]. split; [done|]. by exists [bv; bs; self].
Qed.

(** Unmounting gives back exactly what mounting took. *)
Lemma unmount_spec f k k' : mounted f k k' → sfs_device (k_env k) = sfs_device f → wps sfs_unmount k' (λ r k2, r = 0 ∧ given_back k k2).
Proof.
  intros (h & a & self & bs & bv & -> & Ha & Ht) Hdev. unfold sfs_unmount. wps_step. ksimpl. unfold mount_of. fsimpl.
  pose proof (proj1 Ha) as Hnum. simpl in Hnum. unfold array_getnum. rewrite Hnum. change (Z.of_nat 0 >? 0) with false. cbv iota.
  rewrite wps_bind, wps_asrt. split; [done|]. rewrite wps_bind, wps_asrt. split; [done|].
  wps_call destroy_taken; [exact Ht|exact Ha|]. intros [] k1 (h1 & -> & Ht1).
  wps_call destroy_bitmap_taken; [exact Ht1|]. intros [] k2 (h2 & -> & Ht2).
  wps_call free_taken; [exact Ht2|]. intros [] k3 (h3 & -> & Ht3). wps_step. split; [done|].
  eexists h3, _. split_and!; [by destruct k|done|done].
Qed.

Definition mount_unmount : stm (kst H sfs_fs) (Z * Z) :=
  result ← sfs_domount U SFS_BLOCKSIZE;
  if negb (result =? 0) then mret (result, 0) else r ← sfs_unmount; mret (result, r).

Lemma mount_unmount_spec k f us ir O :
  stored f us ir O → kh_inv (k_heap k) → sfs_device (k_env k) = sfs_device f →
  SFS_FS_SIZE < kh_max → 512 * mapsize f < kh_max →
  wps mount_unmount k (λ '(r, r2) k', r2 = 0 ∧ (r = 0 ∨ (r = ENOMEM ∧ ¬ kh_room 4 (k_heap k))) ∧ given_back k k').
Proof.
  intros Hst Hi Hdev Hfs Hmax. unfold mount_unmount. rewrite wps_bind.
  eapply wps_mono; [by apply (domount_spec f us ir O k Hst Hdev Hmax Hfs)|].
  intros r k1 [(-> & Hfull & Hg)|(-> & Hm & _)]; cbn [negb Z.eqb]; [wps_step; split_and!; [done|by right|done]|].
  wps_call (unmount_spec f k k1 Hm Hdev). intros r k2 [-> Hg]. wps_step. split_and!; [done|by left|done].
Qed.
End mount.

(** ** What is left after a restart *)

(** The named files; the root directory is held once, and nothing else. *)
Definition restart (p : Z) (V : view) : view :=
  View (v_names V) (filter (λ x, nlinks (v_names V) x.1 ≠ 0) (v_files V)) {[p := (SFS_ROOT_LOCATION, 1)]}.

Lemma consistent_restart A p :
  consistent A →
  let A' := Afs (a_ents A) (filter (λ x, af_links x.2 ≠ 0) (a_files A)) {[p := (SFS_ROOT_LOCATION, 1)]} in
  consistent A' ∧ view_of A' = restart p (view_of A).
Proof.
  intros [Hn Hl Hk]. split.
  - constructor; simpl.
    + intros nm ino Hnm. destruct (Hn nm ino Hnm) as [fl Hfl]. exists fl. apply map_lookup_filter_Some. split; [done|]. simpl.
      rewrite (Hl ino fl Hfl). intros Hz. by apply (proj1 (nlinks_zero _ _) Hz nm).
    + intros ino fl [Hfl _]%map_lookup_filter_Some. by apply Hl.
    + intros ino fl [Hfl Hne]%map_lookup_filter_Some. simpl in Hne. rewrite (Hl ino fl Hfl) in Hne.
      destruct (decide (map_Exists (λ _ j, j = ino) (a_names A))) as [(nm & j & Hnm & ->)|Hno]; [left; by exists nm|].
      exfalso. apply Hne, nlinks_zero. intros nm Hnm. apply Hno. by exists nm, ino.
  - unfold view_of, restart, a_names. simpl. f_equal. apply map_eq. intros ino. apply option_eq. intros x.
    rewrite map_lookup_filter_Some, !lookup_fmap_Some. simpl. split.
    + intros (fl & <- & [Hfl Hne]%map_lookup_filter_Some). simpl in Hne. rewrite (Hl ino fl Hfl) in Hne.
      split; [by exists fl|done].
    + intros [(fl & <- & Hfl) Hne]. exists fl. split; [done|]. apply map_lookup_filter_Some. split; [done|]. simpl.
      by rewrite (Hl ino fl Hfl).
Qed.

Section restart.
Context {H : Type} `{KHeapLaws H}.
Variables (U : usermem) (root : Z).
Implicit Types (k : kst H sfs_fs).

Lemma sync_restart k s B V :
  Fs root k s B V → SFS_FS_SIZE < kh_max → 512 * mapsize (k_env k) < kh_max →
  wps (sfs_sync U) k (λ r k', r = 0 ∧ Fs root k' s B V ∧
    ∀ k1 s1 C, idle k1 s1 C → sfs_device (k_env k1) = sfs_device (k_env k') →
      let short := ¬ kh_room 8 (k_heap k1) in
      wps (mount_unmount U) k1 (λ '(r, r2) k2,
        r2 = 0 ∧ (r = 0 ∨ (r = ENOMEM ∧ ¬ kh_room 4 (k_heap k1))) ∧ given_back k1 k2) ∧
      wpf short (mount_root U) k1 (λ '(r, p) k2, (r = ENOMEM ∧ p = NULL ∧ short ∧ given_back k1 k2) ∨
        (r = 0 ∧ ∃ B', Fs p k2 s1 (beyond (o_super B) k1 (B' ++ C)) (restart p V)))).
Proof.
  intros (A & (vs & us & O & Hr) & Hc & <-) Hfs Hmax.
  eapply wps_mono; [by eapply sync_all_spec|]. intros r k' (-> & Hr' & Hsy). split; [done|].
  split; [exists A; split; [by exists (cleaned vs), us, O|done]|]. intros k1 s1 C Hid Hdev short.
  destruct (synced_stored root k' s B A _ us O Hr' Hsy) as (us' & ir & O' & Hst & He & Hf).
  assert (mapsize (k_env k') = mapsize (k_env k)) as Hms.
  { unfold mapsize. by rewrite (me_same _ _ _ (rp_meta _ _ _ _ _ _ _ _ Hr')), (me_same _ _ _ (rp_meta _ _ _ _ _ _ _ _ Hr)). }
  split; [by apply (mount_unmount_spec U k1 (k_env k') us' ir O' Hst (proj1 (id_own _ _ _ Hid)) Hdev Hfs); lia|].
  eapply wpf_mono; [apply (mount_root_spec U k1 s1 C (k_env k') us' ir O' Hst Hid Hdev Hfs); lia|].
  intros [r p] k2 [Hg|(-> & _ & B' & Hr2)]; [by left|]. right. split; [done|]. exists B'. unfold A_stored in Hr2.
  rewrite He, Hf, (me_same _ _ _ (rp_meta _ _ _ _ _ _ _ _ Hr')) in Hr2.
  destruct (consistent_restart A p Hc) as [Hc2 Hv2]. eexists. split; [exact Hr2|]. by split.
Qed.
End restart.
