(* ===== verification/MksfsSpec.v ===== *)
(** * What mksfs leaves on the disk

    Whatever the system calls answer, [main] comes to an end without a failed assertion or a bad
    access: it exits with 1, and then a call has failed, or it answers 0 and the disk holds an
    empty volume that can be mounted. *)

From S2P Require Import Prelude StateM Heap KArray KBitmap Coremap KState Thread ThreadSpec ThreadHeap Synch SynchSpec Owned.
From S2P Require Import ProcSpec Uio SfsDisk Sfs SfsBytes Mksfs SfsSpec SfsIo SfsDirs SfsTrunc SfsVolume SfsTree SfsNode.
From S2P Require Import SfsNodeSpec Owned SfsTree SfsNode SfsRep SfsLife SfsView SfsSync SfsOps SfsBoot.

Implicit Types (s t : mksfs) (data : list Z).

Ltac wpx_step :=
  repeat first [ rewrite wpx_bind | rewrite wpx_ret | rewrite wpx_exit | rewrite wpx_run | rewrite wps_bind | rewrite wps_gets
               | rewrite wps_modify | rewrite wps_ret ].
Ltac msimpl :=
  cbn [mk_bytes mk_pos mk_answers mk_errno mk_fd mk_nblocks mk_bitbuf mk_set_bytes mk_set_pos mk_set_answers mk_set_errno
       mk_set_fd mk_set_nblocks mk_set_bitbuf] in *.

(** A call that fails or moves nothing. *)
Definition bad (a : answer) : Prop := match a with Fails _ => True | Moves n => n ≤ 0 end.
Definition trouble (l : list answer) : Prop := Exists bad l.

(** The calls made between two states. *)
Definition later s t : Prop := ∃ l, mk_answers s = l ++ mk_answers t.

Lemma later_refl s : later s s.
Proof. by exists []. Qed.
Lemma later_trans s1 s2 s3 : later s1 s2 → later s2 s3 → later s1 s3.
Proof. intros [l1 H1] [l2 H2]. exists (l1 ++ l2). by rewrite H1, H2, app_assoc. Qed.
Lemma later_trouble s t : later s t → trouble (mk_answers t) → trouble (mk_answers s).
Proof. intros [l ->] Ht. apply Exists_app. by right. Qed.

(** [t] is [s] with other contents of the file, another position and fewer answers. *)
Record moved s t : Prop := Moved {
  mv_later : later s t;
  mv_len : length (mk_bytes t) = length (mk_bytes s);
  mv_fd : mk_fd t = mk_fd s;
  mv_nblocks : mk_nblocks t = mk_nblocks s;
  mv_bitbuf : mk_bitbuf t = mk_bitbuf s;
}.

Lemma moved_trans s1 s2 s3 : moved s1 s2 → moved s2 s3 → moved s1 s3.
Proof. intros [] []. constructor; try congruence. by eapply later_trans. Qed.

(** A program that ends early does so with code 1, because of a bad answer. *)
Definition gave_up s (c : Z) t : Prop := c = 1 ∧ trouble (mk_answers s).

Lemma gave_up_later s t c t' : later s t → gave_up t c t' → gave_up s c t'.
Proof. intros Hl [-> Ht]. split; [done|]. by eapply later_trouble. Qed.

(** One answer is taken. *)
Lemma next_spec s (Φ : option answer → mksfs → Prop) Ψ :
  (mk_answers s = [] → Φ None s) →
  (∀ a l, mk_answers s = a :: l → Φ (Some a) (mk_set_answers l s)) → wpx next s Φ Ψ.
Proof.
  intros H0 H1. unfold next. wpx_step. destruct (mk_answers s) as [|a l] eqn:E; wpx_step; [by apply H0|by apply H1].
Qed.

Definition blk (bytes : list Z) (b : Z) : list Z := sub bytes (512 * b) 512.

(** [write] at the position of the file. *)
Lemma write_spec s d :
  0 ≤ mk_pos s → 0 < zlen d → mk_pos s + zlen d ≤ zlen (mk_bytes s) →
  wpx (sys_write d) s (λ r t, later s t ∧ (length (mk_answers t) < length (mk_answers s) ∨ r = zlen d)%nat ∧
    ((r = -1 ∧ trouble (mk_answers s) ∧ t = mk_set_errno (mk_errno t) (mk_set_answers (mk_answers t) s)) ∨
     (0 ≤ r ≤ zlen d ∧ (r = 0 → trouble (mk_answers s)) ∧ t = mk_set_answers (mk_answers t) (mk_set_pos (mk_pos s + r)
        (mk_set_bytes (splice (mk_bytes s) (mk_pos s) (take (Z.to_nat r) d)) s)))))
  (λ _ _, False).
Proof.
  intros Hp Hd Hfit. unfold sys_write. rewrite wpx_bind. apply next_spec.
  - intros E. unfold amount. wpx_step. replace ((zlen d <? 0) || (mk_pos s + zlen d >? zlen (mk_bytes s))) with false by lia.
    wpx_step. msimpl. split; [by exists []|]. split; [by right|]. right. split; [lia|]. split; [lia|]. by destruct s.
  - intros a l E. assert (later s (mk_set_answers l s)) as Hl by (exists [a]; by rewrite E).
    assert (length l < length (mk_answers s))%nat as Hlen by (rewrite E; simpl; lia).
    destruct a as [e|n].
    + unfold failed. wpx_step. msimpl. split; [exact Hl|]. split; [by left|]. left. split; [done|]. split; [rewrite E; by left|done].
    + unfold amount. wpx_step. msimpl.
      destruct ((Z.min n (zlen d) <? 0) || (mk_pos s + Z.min n (zlen d) >? zlen (mk_bytes s))) eqn:Eb.
      * unfold failed. wpx_step. msimpl. split; [exact Hl|]. split; [by left|]. left. split; [done|].
        split; [rewrite E; left; simpl; lia|done].
      * wpx_step. msimpl. split; [exact Hl|]. split; [by left|]. right. split; [lia|].
        split; [intros Hz; rewrite E; left; simpl; lia|done].
Qed.

Lemma lseek_spec s pos :
  0 ≤ pos → wpx (sys_lseek pos) s (λ r t, later s t ∧
    ((r = -1 ∧ trouble (mk_answers s)) ∨ (r = pos ∧ t = mk_set_answers (mk_answers t) (mk_set_pos pos s)))) (λ _ _, False).
Proof.
  intros Hp. unfold sys_lseek. rewrite wpx_bind. replace (pos <? 0) with false by lia. apply next_spec.
  - intros E. wpx_step. split; [by exists []|]. right. split; [done|by destruct s].
  - intros a l E. assert (later s (mk_set_answers l s)) as Hl by (exists [a]; by rewrite E). destruct a as [e|n].
    + unfold failed. wpx_step. split; [exact Hl|]. left. split; [done|]. rewrite E. by left.
    + wpx_step. split; [exact Hl|]. by right.
Qed.

Lemma splice_more (bytes : list Z) a data tot n :
  0 ≤ a → 0 ≤ tot → 0 ≤ n → tot + n ≤ 512 → length data = 512%nat → a + 512 ≤ zlen bytes →
  splice (splice bytes a (take (Z.to_nat tot) data)) (a + tot) (take (Z.to_nat n) (sub data tot (512 - tot))) =
  splice bytes a (take (Z.to_nat (tot + n)) data).
Proof.
  intros Ha Ht Hn Hm Hl Hfit. assert (zlen (take (Z.to_nat tot) data) = tot) as Hz by (rewrite length_take; lia).
  rewrite <- Hz at 2. rewrite splice_splice; [| |].
  - f_equal. unfold sub. rewrite (take_ge (drop _ _)) by (rewrite length_drop; lia).
    rewrite Z2Nat.inj_add by lia. by rewrite take_take_drop.
  - lia.
  - rewrite Hz. unfold sub. rewrite length_take, length_take, length_drop. lia.
Qed.

Lemma blk_splice (bytes : list Z) block data b :
  0 ≤ block → 512 * block + 512 ≤ zlen bytes → length data = 512%nat → 0 ≤ b → 512 * b + 512 ≤ zlen bytes →
  blk (splice bytes (512 * block) data) b = if decide (b = block) then data else blk bytes b.
Proof.
  intros Hb Hfit Hl Hb' Hfit'. unfold blk. destruct (decide (b = block)) as [->|Hne].
  - pose proof (sub_splice_same bytes (512 * block) data) as Hs. replace (zlen data) with 512 in Hs by lia. apply Hs; lia.
  - apply sub_splice_other; lia.
Qed.

Section write.
Context (s : mksfs) (data : list Z) (block : Z).
Hypothesis Hfd : 0 ≤ mk_fd s.
Hypothesis Hblock : 0 ≤ block.
Hypothesis Hfit : 512 * block + 512 ≤ zlen (mk_bytes s).
Hypothesis Hsize : zlen (mk_bytes s) < 2 ^ 31.
Hypothesis Hdata : length data = 512%nat.

(** [tot] bytes are written. *)
Definition written (tot : Z) t : Prop :=
  0 ≤ tot ≤ 512 ∧ mk_pos t = 512 * block + tot ∧ mk_bytes t = splice (mk_bytes s) (512 * block) (take (Z.to_nat tot) data) ∧ moved s t.

Lemma write_turn tot t :
  written tot t → tot < 512 →
  wpx (len ← sys_write (sub data tot (BLOCKSIZE - tot));
       if len <? 0 then again ← retry; if (again : bool) then mret (inl tot) else err 1
       else if len =? 0 then err 1 else mret (inl (u32 (tot + len)))) t
    (λ r t', ∃ tot' : Z, r = (inl tot' : Z + unit) ∧ written tot' t' ∧ tot ≤ tot' ∧
       ((length (mk_answers t') < length (mk_answers t))%nat ∨ tot' = 512)) (gave_up s).
Proof using Hblock Hfit Hdata.
  intros (Htot & Hpos & Hbytes & Hmv) Hlt. unfold BLOCKSIZE.
  assert (zlen (sub data tot (512 - tot)) = 512 - tot) as Hz by (rewrite length_sub; lia).
  assert (length (mk_bytes t) = length (mk_bytes s)) as Hlen by apply Hmv.
  rewrite wpx_bind. eapply wpx_mono; [apply write_spec; rewrite ?Hz; lia| |done].
  intros r t' (Hl & Hdec & [(-> & Htr & Et)|(Hr & Hr0 & Et)]).
  - cbn [Z.ltb Z.compare]. unfold retry. wpx_step.
    assert (trouble (mk_answers s)) as Htr' by (eapply later_trouble; [apply Hmv|done]).
    destruct ((mk_errno t' =? EINTR) || (mk_errno t' =? EAGAIN)); wpx_step; [|done]. exists tot. split; [done|].
    split; [|split; [lia|left; destruct Hdec as [?|?]; [done|lia]]]. rewrite Et. split; [done|]. split; [done|]. split; [done|].
    eapply moved_trans; [exact Hmv|]. rewrite Et in Hl. by constructor.
  - replace (r <? 0) with false by lia. destruct (r =? 0) eqn:E0.
    + unfold err. wpx_step. split; [done|]. eapply later_trouble; [apply Hmv|]. apply Hr0. lia.
    + wpx_step. rewrite u32_id by in_range. exists (tot + r). split; [done|]. rewrite Hz in Hr, Hdec.
      split; [|split; [lia|destruct Hdec as [?|?]; [by left|right; lia]]]. rewrite Et. split; [lia|]. msimpl. split; [lia|].
      split; [rewrite Hbytes, Hpos; by apply splice_more; lia|]. eapply moved_trans; [exact Hmv|].
      rewrite Et in Hl. constructor; try done. msimpl. rewrite length_splice; [done|lia|]. rewrite Hlen, Hpos, length_take. lia.
Qed.

Lemma diskwrite_spec :
  wpx (diskwrite data block) s (λ _ t, moved s t ∧ ∀ b, 0 ≤ b → 512 * b + 512 ≤ zlen (mk_bytes s) →
    blk (mk_bytes t) b = if decide (b = block) then data else blk (mk_bytes s) b) (gave_up s).
Proof using Hfd Hblock Hfit Hsize Hdata.
  unfold diskwrite. wpx_step. unfold passert. wpx_step. rewrite wps_asrt. split; [lia|].
  unfold BLOCKSIZE. rewrite u32_id, s32_id by in_range. wpx_step.
  eapply wpx_mono; [apply lseek_spec; lia| |done]. intros r t (Hl & [[-> Ht]|[-> Et]]); [cbn; unfold err; by wpx_step|].
  replace (block * 512 <? 0) with false by lia. unfold turns. wpx_step.
  apply (wpx_while (λ n tot t', written tot t' ∧ n = if decide (tot = 512) then O else S (length (mk_answers t'))) _ _
    (S (length (mk_answers t)))); [|lia|].
  - split; [|done]. rewrite Et in Hl |- *. split; [lia|]. msimpl. split; [lia|]. change (take (Z.to_nat 0) data) with (@nil Z). rewrite splice_nil.
    split; [done|]. by constructor.
  - intros n tot t' [Hw ->]. pose proof Hw as (Htot & _). destruct (tot <? 512) eqn:E.
    + eapply wpx_mono; [apply write_turn; [done|lia]| |done]. intros r t2 (tot' & -> & Hw' & Hle & Hdec). eexists. split; [|by split].
      rewrite (decide_False (P := tot = 512)) by lia. destruct (decide (tot' = 512)); [lia|]. destruct Hdec; lia.
    + wpx_step. destruct Hw as (_ & _ & Hb & Hm). split; [done|]. intros b H0 H1. rewrite Hb, take_ge by lia. by apply blk_splice.
Qed.
End write.

(** ** The map *)

Section bits.
Implicit Types (buf : list Z).

(** The bits of [buf] below [N] are those of [R]. *)
Definition bits_are (N : Z) (R : Z → Prop) buf : Prop :=
  bytes_ok buf ∧ zlen buf = 512 * 32 ∧ ∀ i, 0 ≤ i < N → vbit buf i = true ↔ R i.

Lemma allocbit_spec s N R bit :
  bits_are N R (mk_bitbuf s) → 0 ≤ bit < N → N ≤ 8 * (512 * 32) → ¬ R bit →
  wpx (doallocbit bit) s (λ _ t, ∃ buf, t = mk_set_bitbuf buf s ∧ bits_are N (λ i, R i ∨ i = bit) buf) (λ _ _, False).
Proof.
  intros (Hok & Hlen & Hbits) Hbit HN HR. unfold doallocbit, passert.
  pose proof (Z.mod_pos_bound bit 8 ltac:(lia)) as Hm. pose proof (Z.div_mod bit 8 ltac:(lia)) as Hdm.
  assert (0 ≤ bit / 8 < zlen (mk_bitbuf s)) as Hix by (rewrite Hlen; split; [apply Z.div_pos; lia|apply Z.div_lt_upper_bound; lia]).
  assert (vbit (mk_bitbuf s) bit = false) as Hclear.
  { destruct (vbit (mk_bitbuf s) bit) eqn:E; [|done]. exfalso. by apply HR, Hbits. }
  wpx_step. rewrite wps_lift. apply wp_getz; [done|]. intros w Hw. wpx_step. rewrite wps_asrt. split.
  { rewrite land_mask_zero by done. rewrite <- (vbit_at (mk_bitbuf s) (bit / 8)) by (try done; lia).
    replace (8 * (bit / 8) + bit mod 8) with bit by lia. by rewrite Hclear. }
  wpx_step. rewrite wps_lift. apply wp_or_byte; [done|done|done|]. intros v' Hl' Hok' Hv'. wpx_step.
  exists v'. split; [done|]. split; [done|]. split; [lia|]. intros i Hi. rewrite Hv' by lia.
  replace (8 * (bit / 8) + bit mod 8) with bit by lia. destruct (i =? bit) eqn:E.
  - split; [intros _; right; lia|done].
  - rewrite Hbits by done. split; [by left|]. intros [?|?]; [done|lia].
Qed.

Lemma bits_are_ext N (R R' : Z → Prop) buf : (∀ i, 0 ≤ i < N → R i ↔ R' i) → bits_are N R buf → bits_are N R' buf.
Proof. intros He (H1 & H2 & H3). split; [done|]. split; [done|]. intros i Hi. by rewrite H3, He. Qed.

(** A loop that marks the bits [a, a + n). *)
Lemma allocbits_spec s N R (g : Z → Z) a n i0 :
  (∀ j, i0 ≤ j < i0 + Z.of_nat n → g j = a + (j - i0)) →
  bits_are N R (mk_bitbuf s) → 0 ≤ a → a + Z.of_nat n ≤ N → N ≤ 8 * (512 * 32) →
  (∀ i, a ≤ i < a + Z.of_nat n → ¬ R i) →
  wpx (pfor n i0 (λ i, doallocbit (g i))) s
    (λ _ t, ∃ buf, t = mk_set_bitbuf buf s ∧ bits_are N (λ i, R i ∨ a ≤ i < a + Z.of_nat n) buf) (λ _ _, False).
Proof.
  intros Hg Hb Ha Hn HN HR.
  eapply wpx_mono; [apply (wpx_for (λ j t, ∃ buf, t = mk_set_bitbuf buf s ∧ bits_are N (λ i, R i ∨ a ≤ i < a + (j - i0)) buf)
    (λ _ _, False))| |done].
  - exists (mk_bitbuf s). split; [by destruct s|]. eapply bits_are_ext; [|exact Hb]. intros i Hi. simpl. split; [by left|].
    intros [?|?]; [done|lia].
  - intros j t Hj (buf & -> & Hbuf). rewrite Hg by lia.
    eapply wpx_mono; [apply (allocbit_spec (mk_set_bitbuf buf s) N _ _ Hbuf); [lia|done|]| |done].
    + intros [Hx|Hx]; [|lia]. revert Hx. apply HR. lia.
    + intros [] t (buf' & -> & Hbuf'). exists buf'. split; [done|]. eapply bits_are_ext; [|exact Hbuf']. intros i Hi. simpl.
      split; [intros [[?|?]| ->]|intros [?|?]]; [by left|right; lia|right; lia|by left; left|].
      destruct (decide (i = a + (j - i0))); [by right|left; right; lia].
  - intros [] t (buf & -> & Hbuf). exists buf. split; [done|]. by replace (i0 + Z.of_nat n - i0) with (Z.of_nat n) in Hbuf by lia.
Qed.
End bits.

(** ** The blocks of a formatted disk *)

Definition vol_super (volname : list Z) (n : Z) : sfs_super :=
  Super SFS_MAGIC n (volname ++ replicate (Z.to_nat (32 - zlen volname)) 0) (replicate 118 0).
Definition root_dir : sfs_inode := Inode 0 SFS_TYPE_DIR 1 (replicate 15 0) 0 (replicate 110 0).

(** The bits of a map for [n] blocks: the superblock, the root directory, the map itself and what is
    beyond the end of the disk are in use. *)
Definition map_bits (n ms i : Z) : Prop := i < 2 + ms ∨ n ≤ i.

Record formatted (volname : list Z) (n : Z) (bytes : list Z) (buf : list Z) : Prop := Formatted {
  fm_super : blk bytes 0 = super_bytes (vol_super volname n);
  fm_root : blk bytes 1 = inode_bytes root_dir;
  fm_map : ∀ j, 0 ≤ j < SFS_BITBLOCKS n → blk bytes (2 + j) = sub buf (512 * j) 512;
  fm_bits : bits_are (4096 * SFS_BITBLOCKS n) (map_bits n (SFS_BITBLOCKS n)) buf;
}.

Section format.
Context (n : Z).
Abbreviation ms := (SFS_BITBLOCKS n).
Hypothesis Hn : 0 ≤ n < 2 ^ 22.
Hypothesis Hroom : 2 + ms ≤ n.
Hypothesis Hms : ms ≤ MAXBITBLOCKS.

Lemma ms_facts : 0 ≤ ms ≤ 32 ∧ SFS_BITMAPSIZE n = 4096 * ms ∧ n ≤ 4096 * ms.
Proof using Hn Hms.
  clear Hroom. destruct (bitmapsize_eq n Hn) as [E1 E2]. rewrite E1, E2 in *. unfold MAXBITBLOCKS in Hms.
  pose proof (Z.div_mod (n + 4095) 4096 ltac:(lia)). pose proof (Z.mod_pos_bound (n + 4095) 4096 ltac:(lia)).
  split_and!; try lia.
Qed.

(** The disk is open, and has [n] blocks. *)
Definition opened s : Prop := 0 ≤ mk_fd s ∧ zlen (mk_bytes s) = 512 * n.

Lemma opened_moved s t : opened s → moved s t → opened t.
Proof using. intros [? ?] []. unfold opened. rewrite mv_fd0, mv_len0. done. Qed.

Lemma write_block s data block :
  opened s → 0 ≤ block < n → length data = 512%nat →
  wpx (diskwrite data block) s (λ _ t, moved s t ∧ opened t ∧ ∀ b, 0 ≤ b < n →
    blk (mk_bytes t) b = if decide (b = block) then data else blk (mk_bytes s) b) (gave_up s).
Proof using Hn.
  intros Ho Hb Hd. pose proof Ho as [Hfd Hz]. eapply wpx_mono; [apply diskwrite_spec; (done || lia)| |done].
  intros [] t [Hm Hx]. split; [done|]. split; [by eapply opened_moved|]. intros b Hb'. apply Hx; lia.
Qed.

Lemma write_map s :
  opened s → zlen (mk_bitbuf s) = 512 * 32 →
  wpx (pfor (Z.to_nat ms) 0 (λ i,
        buf ← run (gets mk_bitbuf);
        ptr ← run (lift (slice buf (i * SFS_BLOCKSIZE) SFS_BLOCKSIZE));
        diskwrite ptr (SFS_MAP_LOCATION + i))) s
    (λ _ t, moved s t ∧ opened t ∧ ∀ b, 0 ≤ b < n → blk (mk_bytes t) b =
       if decide (2 ≤ b < 2 + ms) then sub (mk_bitbuf s) (512 * (b - 2)) 512 else blk (mk_bytes s) b) (gave_up s).
Proof using Hn Hroom Hms.
  intros Ho Hbuf. destruct ms_facts as (Hms0 & _).
  eapply wpx_mono; [apply (wpx_for (λ j t, moved s t ∧ opened t ∧ ∀ b, 0 ≤ b < n → blk (mk_bytes t) b =
    if decide (2 ≤ b < 2 + j) then sub (mk_bitbuf s) (512 * (b - 2)) 512 else blk (mk_bytes s) b) (gave_up s))| |done].
  - split; [by constructor; [apply later_refl|..]|]. split; [done|]. intros b Hb. by rewrite decide_False by lia.
  - intros j t Hj (Hm & Hot & Hx). wpx_step. rewrite wps_lift. unfold SFS_BLOCKSIZE, SFS_MAP_LOCATION.
    pose proof (mv_bitbuf _ _ Hm) as Hbb. rewrite Hbb. apply wp_slice; [lia|lia|lia|].
    assert (zlen (sub (mk_bitbuf s) (j * 512) 512) = 512) as Hl by (rewrite length_sub; lia).
    eapply wpx_mono; [apply write_block; [done|lia|lia]| |intros c t'; apply gave_up_later, Hm].
    intros [] t2 (Hm2 & Hot2 & Hx2). split; [by eapply moved_trans|]. split; [done|]. intros b Hb. rewrite Hx2 by done.
    destruct (decide (b = 2 + j)) as [->|Hne].
    + rewrite decide_True by lia. f_equal. lia.
    + rewrite Hx by done. destruct (decide (2 ≤ b < 2 + j)); [by rewrite decide_True by lia|by rewrite decide_False by lia].
  - intros [] t. by replace (0 + Z.of_nat (Z.to_nat ms)) with ms by lia.
Qed.

(** Before: nothing is in the map. *)
Definition blank s : Prop := bits_are (4096 * ms) (λ _, False) (mk_bitbuf s).

Lemma writebitmap_spec s :
  opened s → blank s →
  wpx (writebitmap n) s (λ _ t, later s t ∧ opened t ∧ bits_are (4096 * ms) (map_bits n ms) (mk_bitbuf t) ∧
    ∀ b, 0 ≤ b < n → blk (mk_bytes t) b =
      if decide (2 ≤ b < 2 + ms) then sub (mk_bitbuf t) (512 * (b - 2)) 512 else blk (mk_bytes s) b) (gave_up s).
Proof using Hn Hroom Hms.
  intros Ho Hbl. destruct ms_facts as (Hms0 & Hbits & Hle). unfold writebitmap. rewrite Hbits. unfold MAXBITBLOCKS.
  replace (ms >? 32) with false by lia.
  rewrite wpx_bind. eapply wpx_mono; [apply (allocbit_spec _ _ _ _ Hbl); [unfold SFS_SB_LOCATION; lia|lia|tauto]| |done].
  intros [] t (b1 & -> & H1). rewrite wpx_bind.
  eapply wpx_mono; [apply (allocbit_spec (mk_set_bitbuf b1 s) _ _ _ H1);
    unfold SFS_ROOT_LOCATION, SFS_SB_LOCATION; simpl; lia| |done].
  intros [] t (b2 & -> & H2). rewrite wpx_bind. unfold SFS_ROOT_LOCATION, SFS_SB_LOCATION, SFS_MAP_LOCATION in *.
  eapply wpx_mono; [apply (allocbits_spec (mk_set_bitbuf b2 s) _ _ (λ i, 2 + i) 2 (Z.to_nat ms) 0 ltac:(intros; simpl; lia) H2);
    [lia|lia|lia|intros i Hi; simpl; lia]| |done].
  intros [] t (b3 & -> & H3). rewrite wpx_bind.
  eapply wpx_mono; [apply (allocbits_spec (mk_set_bitbuf b3 s) _ _ (λ i, i) n (Z.to_nat (4096 * ms - n)) n ltac:(intros; simpl; lia) H3);
    [lia|lia|lia|intros i Hi; simpl; lia]| |done].
  intros [] t (b4 & -> & H4).
  eapply wpx_mono; [apply (write_map (mk_set_bitbuf b4 s)); [exact Ho|apply H4]| |done].
  intros [] t (Hm & Hot & Hx). pose proof (mv_bitbuf _ _ Hm) as Hbb. msimpl. rewrite Hbb.
  split; [apply Hm|]. split; [done|]. split; [|done].
  eapply bits_are_ext; [|exact H4]. intros i Hi. simpl. unfold map_bits. lia.
Qed.

Lemma length_vol_super volname : zlen volname < 32 → super_wf (vol_super volname n).
Proof using Hn.
  intros Hl. constructor; cbn [vol_super sp_magic sp_nblocks sp_volname sp_reserved];
    [done|in_range|rewrite length_app, length_replicate; lia|done|]. apply Forall_replicate. in_range.
Qed.

Lemma root_dir_wf : inode_wf root_dir.
Proof using. constructor; try done; by repeat constructor. Qed.
End format.

(** ** The program *)

Lemma opendisk_spec s n :
  mk_fd s = -1 → zlen (mk_bytes s) = 512 * n → 0 ≤ n < 2 ^ 22 →
  wpx opendisk s (λ _ t, later s t ∧ opened n t ∧ mk_nblocks t = n ∧ mk_bitbuf t = mk_bitbuf s) (gave_up s).
Proof.
  intros Hfd Hz Hn. unfold opendisk, passert. wpx_step. rewrite wps_asrt. split; [lia|]. unfold sys_open. rewrite !wpx_bind.
  assert (∀ t, later s t → mk_bytes t = mk_bytes s → mk_bitbuf t = mk_bitbuf s → mk_fd t = 3 →
    wpx ('(r, st_size) ← sys_fstat;
         if negb (r =? 0) then err 1 else run (modify (mk_set_nblocks (u32 (st_size / BLOCKSIZE))))) t
      (λ _ t', later s t' ∧ opened n t' ∧ mk_nblocks t' = n ∧ mk_bitbuf t' = mk_bitbuf s) (gave_up s)) as Hstat.
  { intros t Hl Hb Hbb Hf. assert (∀ l, later t (mk_set_answers l t) →
      wpx (run (modify (mk_set_nblocks (u32 (zlen (mk_bytes t) / BLOCKSIZE))))) (mk_set_answers l t)
        (λ _ t', later s t' ∧ opened n t' ∧ mk_nblocks t' = n ∧ mk_bitbuf t' = mk_bitbuf s) (gave_up s)) as Hdone.
    { intros l Hlt. wpx_step. split; [eapply later_trans; [exact Hl|exact Hlt]|]. unfold opened. msimpl. rewrite Hb, Hz, Hf.
      unfold BLOCKSIZE. replace (512 * n / 512) with n by (rewrite Z.mul_comm, Z.div_mul; lia). rewrite u32_id by in_range. by split_and!. }
    unfold sys_fstat. rewrite !wpx_bind. apply next_spec.
    - intros E. wpx_step. replace t with (mk_set_answers (mk_answers t) t) at 2 by (by destruct t).
      apply Hdone. exists []. done.
    - intros a l E. assert (later t (mk_set_answers l t)) as Hlt by (exists [a]; by rewrite E). destruct a as [e|m].
      + unfold failed. wpx_step. split; [done|]. eapply later_trouble; [exact Hl|]. rewrite E. by left.
      + wpx_step. by apply Hdone. }
  apply next_spec.
  - intros E. wpx_step. apply Hstat; try done. exists []. done.
  - intros a l E. destruct a as [e|m].
    + unfold failed. wpx_step. split; [done|]. rewrite E. by left.
    + wpx_step. apply Hstat; try done. exists [Moves m]. by rewrite E.
Qed.

Lemma closedisk_spec s :
  0 ≤ mk_fd s → wpx closedisk s (λ _ t, mk_bytes t = mk_bytes s ∧ mk_bitbuf t = mk_bitbuf s) (gave_up s).
Proof.
  intros Hfd. unfold closedisk, passert. wpx_step. rewrite wps_asrt. split; [lia|]. unfold sys_close. wpx_step. apply next_spec.
  - intros E. by wpx_step.
  - intros a l E. destruct a as [e|m]; [|by wpx_step]. unfold failed. wpx_step. split; [done|]. rewrite E. by left.
Qed.

(** The name on the command line, without the colon. *)
Inductive names_volume : list Z → list Z → Prop :=
  | nv_plain v : COLON ∉ v → SLASH ∉ v → names_volume v v
  | nv_colon v : COLON ∉ v → SLASH ∉ v → names_volume (v ++ [COLON]) v.

Lemma strchr_none (v : list Z) c : c ∉ v → chr_index v c = None.
Proof.
  intros Hc. unfold chr_index. rewrite (proj2 (list_find_None _ v)); [done|]. apply Forall_forall. by intros x Hx ->.
Qed.

Lemma getvolname_spec s arg v : names_volume arg v → wpx (getvolname arg) s (λ r t, r = v ∧ t = s) (λ _ _, False).
Proof.
  intros Hv. unfold getvolname. destruct Hv as [v Hc Hs|v Hc Hs].
  - rewrite (strchr_none v COLON Hc). wpx_step. rewrite (strchr_none v SLASH Hs). by wpx_step.
  - assert (chr_index (v ++ [COLON]) COLON = Some (length v)) as ->.
    { unfold chr_index. rewrite (list_find_app_r _ v [COLON]).
      - done.
      - by apply list_find_None, Forall_forall; intros x Hx ->. }
    rewrite drop_app_length, take_app_length. wpx_step. change (negb (zlen [COLON] =? 1)) with false. cbv iota. wpx_step. rewrite (strchr_none v SLASH Hs). by wpx_step.
Qed.

(** Formatting a disk of [n] blocks. *)
Lemma main_spec s path arg volname n p0 :
  mk_fd s = -1 → mk_bitbuf s = replicate 16384 0 → zlen (mk_bytes s) = 512 * n →
  0 ≤ n < 2 ^ 22 → 2 + SFS_BITBLOCKS n ≤ n → SFS_BITBLOCKS n ≤ MAXBITBLOCKS →
  names_volume arg volname → zlen volname < SFS_VOLNAME_SIZE →
  wpx (main [p0; path; arg]) s (λ r t, r = 0 ∧ zlen (mk_bytes t) = 512 * n ∧
    formatted volname n (mk_bytes t) (mk_bitbuf t)) (gave_up s).
Proof.
  intros Hfd Hbuf Hz Hn Hroom Hms Hvol Hlen. unfold main. rewrite wpx_bind.
  eapply wpx_mono; [by apply getvolname_spec| |done]. intros v t [-> ->]. rewrite wpx_bind.
  eapply wpx_mono; [by apply opendisk_spec| |done]. intros [] t1 (Hl1 & Ho1 & Hnb & Hbb1).
  assert (blank n t1) as Hblank.
  { unfold blank. rewrite Hbb1, Hbuf. split; [apply Forall_replicate; lia|]. split; [done|]. intros i Hi. split; [|done].
    unfold vbit. destruct (replicate _ _ !! _) eqn:E; [|done]. apply lookup_replicate in E as [-> _]. by rewrite Z.testbit_0_l. }
  unfold diskblocksize, passert. wpx_step. rewrite wps_asrt. split; [destruct Ho1; lia|]. wpx_step.
  change (negb (BLOCKSIZE =? SFS_BLOCKSIZE)) with false. cbv iota. unfold diskblocks, passert. wpx_step. rewrite wps_asrt.
  split; [destruct Ho1; lia|]. wpx_step. rewrite Hnb. unfold writesuper. unfold SFS_VOLNAME_SIZE in *.
  replace (32 <=? zlen volname) with false by lia. fold (vol_super volname n).
  destruct (ms_facts n Hn Hms) as (Hms0 & _).
  eapply wpx_mono; [apply (write_block n Hn); [done|unfold SFS_SB_LOCATION; lia|by apply length_super_bytes, length_vol_super]| |].
  2: { intros c t. by apply gave_up_later. }
  intros [] t2 (Hm2 & Ho2 & Hx2). unfold writerootdir. fold root_dir. rewrite wpx_bind.
  pose proof (later_trans _ _ _ Hl1 (mv_later _ _ Hm2)) as Hl2.
  eapply wpx_mono; [apply (write_block n Hn); [done|unfold SFS_ROOT_LOCATION; lia|by apply length_inode_bytes, root_dir_wf]| |].
  2: { intros c t. by apply gave_up_later. }
  intros [] t3 (Hm3 & Ho3 & Hx3). pose proof (later_trans _ _ _ Hl2 (mv_later _ _ Hm3)) as Hl3. rewrite wpx_bind.
  eapply wpx_mono; [apply (writebitmap_spec n Hn Hroom Hms); [done|]| |intros c t; by apply gave_up_later].
  { unfold blank. by rewrite (mv_bitbuf _ _ Hm3), (mv_bitbuf _ _ Hm2). }
  intros [] t4 (Hl4 & Ho4 & Hbits & Hx4). pose proof (later_trans _ _ _ Hl3 Hl4) as Hl. rewrite wpx_bind.
  eapply wpx_mono; [apply closedisk_spec, Ho4| |intros c t; by apply gave_up_later].
  intros [] t5 [Hb5 Hbb5]. wpx_step. split; [done|]. rewrite Hb5, Hbb5. split; [apply Ho4|].
  unfold SFS_SB_LOCATION, SFS_ROOT_LOCATION in *. constructor.
  - rewrite Hx4, decide_False by lia. rewrite Hx3, decide_False by lia. by rewrite Hx2, decide_True by lia.
  - rewrite Hx4, decide_False by lia. by rewrite Hx3, decide_True by lia.
  - intros j Hj. rewrite Hx4, decide_True by lia. f_equal. lia.
  - done.
Qed.

(** ** A formatted disk can be mounted *)

Definition disk_of (n : Z) (bytes : list Z) : disk := Disk n (blk bytes <$> seqZ 0 n) [].

Section fresh.
Context (volname : list Z) (n : Z) (bytes buf : list Z).
Hypothesis Hn : 0 ≤ n < 2 ^ 22.
Hypothesis Hroom : 2 + SFS_BITBLOCKS n ≤ n.
Hypothesis Hms : SFS_BITBLOCKS n ≤ MAXBITBLOCKS.
Hypothesis Hlen : zlen volname < 32.
Hypothesis Hz : zlen bytes = 512 * n.
Hypothesis Hf : formatted volname n bytes buf.

Definition fresh_fs : sfs_fs :=
  SfsFs 0 (vol_super volname n) 0 (disk_of n bytes) (Array 0 0 0 NULL [])
    (Bitmap 0 (4096 * SFS_BITBLOCKS n) 0 (sub buf 0 (512 * SFS_BITBLOCKS n))) 0 ∅.

Lemma sector_disk_of b : 0 ≤ b < n → sector (disk_of n bytes) b = blk bytes b.
Proof using.
  clear Hlen Hz Hf. intros Hb. unfold sector, disk_of. simpl. rewrite list_lookup_fmap, lookup_seqZ_lt by lia. simpl. f_equal. lia.
Qed.

Lemma disk_of_ok : disk_ok (disk_of n bytes).
Proof using Hn Hz.
  clear Hlen Hf. constructor; simpl; [rewrite length_fmap, length_seqZ; lia|lia|]. apply Forall_forall.
  intros l (b & -> & Hb%elem_of_seqZ)%list_elem_of_fmap. apply Nat2Z.inj. unfold blk. rewrite length_sub; lia.
Qed.

Lemma fresh_bit i : 0 ≤ i < 4096 * SFS_BITBLOCKS n → used fresh_fs i = true ↔ map_bits n (SFS_BITBLOCKS n) i.
Proof using Hf Hn Hms.
  intros Hi. destruct Hf as [_ _ _ (Hok & Hl & Hbits)]. rewrite <- Hbits by done.
  destruct (ms_facts n Hn Hms) as (Hms0 & _). unfold bm_bit, vbit, fresh_fs. simpl. rewrite lookup_sub by lia.
  assert (0 ≤ i / 8 < 512 * SFS_BITBLOCKS n) as Hx.
  { split; [apply Z.div_pos; lia|apply Z.div_lt_upper_bound; lia]. }
  rewrite decide_True by lia. done.
Qed.

Lemma fresh_vol : vol_ok fresh_fs.
Proof using Hf Hn Hms Hz Hroom.
  destruct (ms_facts n Hn Hms) as (Hms0 & _ & Hle). destruct Hf as [_ _ _ (Hok & Hl & _)]. constructor; simpl.
  - apply disk_of_ok.
  - done.
  - lia.
  - split_and!; simpl; try lia.
    + rewrite length_sub by lia. apply (Z.div_unique _ 8 _ 7); lia.
    + unfold bytes_ok, sub. apply Forall_take, Forall_drop, Hok.
    + rewrite length_sub by lia. lia.
  - lia.
  - intros b Hb. apply fresh_bit; [lia|]. unfold map_bits. lia.
  - apply fresh_bit; [lia|]. unfold map_bits. lia.
Qed.

Lemma fresh_meta : meta (sfs_super_ fresh_fs) fresh_fs (seqZ 2 (SFS_BITBLOCKS n)).
Proof using Hf Hn Hms Hz Hroom Hlen.
  destruct (ms_facts n Hn Hms) as (Hms0 & Hbits & Hle). destruct Hf as [H0 _ Hm (_ & Hl & _)]. constructor.
  - done.
  - by apply length_vol_super.
  - done.
  - simpl. rewrite lookup_app_r by lia. apply lookup_replicate. split; [done|lia].
  - done.
  - intros j Hj. change (mapsize fresh_fs) with (SFS_BITBLOCKS n) in Hj. apply elem_of_seqZ. unfold SFS_MAP_LOCATION. lia.
  - intros _. simpl. rewrite sector_disk_of by lia. done.
  - intros _ j Hj. change (mapsize fresh_fs) with (SFS_BITBLOCKS n) in Hj. unfold SFS_MAP_LOCATION. simpl.
    rewrite sector_disk_of by lia. rewrite Hm by done. rewrite sub_sub by lia. by rewrite Z.add_0_l.
Qed.

Lemma fresh_stored : stored fresh_fs [] root_dir (seqZ 2 (SFS_BITBLOCKS n)).
Proof using Hf Hn Hms Hz Hroom Hlen.
  destruct (ms_facts n Hn Hms) as (Hms0 & Hbits & Hle). constructor; try done.
  - apply fresh_vol.
  - apply fresh_meta.
  - change (ublocks fresh_fs [(SFS_ROOT_LOCATION, root_dir)]) with [1]. split.
    + apply NoDup_cons. split; [|apply NoDup_seqZ]. rewrite elem_of_seqZ. lia.
    + intros b Hb. assert (1 ≤ b < 2 + SFS_BITBLOCKS n) as Hb'.
      { apply elem_of_cons in Hb as [->|Hb]; [lia|]. apply elem_of_seqZ in Hb. lia. }
      simpl. split; [lia|]. apply fresh_bit; [lia|]. unfold map_bits. lia.
  - split; [|apply root_dir_wf]. simpl. unfold SFS_ROOT_LOCATION. rewrite sector_disk_of by lia. apply Hf.
  - split; [done|]. split; [done|]. split; [done|]. apply NoDup_nil_2.
  - intros ino i Hin. by apply elem_of_nil in Hin.
Qed.
End fresh.
