(* ===== verification/SfsClient.v ===== *)
(** * Clients of the file system

    A client is any program that calls the operations of SFS and decides by their answers what to
    call next.  As long as it uses only references it holds, its run on the code is a run on the
    abstract file system [view]. *)

From S2P Require Import Prelude StateM Heap KArray KBitmap Coremap KState Thread ThreadSpec ThreadHeap Synch SynchSpec Owned.
From S2P Require Import ProcSpec Uio SfsDisk Sfs SfsBytes SfsSpec SfsIo SfsDirs SfsTrunc SfsVolume SfsTree SfsNode SfsNodeSpec.
From S2P Require Import SfsTree SfsNodeSpec SfsRep SfsLife SfsView SfsOps SfsThm.

Section client.
Context {H : Type} `{KHeapLaws H}.
Variable U : usermem.
Variable root : Z.
Hypothesis Hroom : SFS_VNODE_SIZE < kh_max.
Implicit Types (k : kst H sfs_fs) (B : outside) (A : afs) (V : view).
Abbreviation Rep := (Rep root).
Abbreviation Fs := (Fs root).

Definition run_nop (op : nop) : stm (kst H sfs_fs) nres :=
  match op with
  | NLookup name => '(r, p) ← VOP_LOOKUP U root name; mret (NRes r p [])
  | NCreat name excl => '(r, p) ← VOP_CREAT U root name excl; mret (NRes r p [])
  | NLink name p => r ← VOP_LINK U root name p; mret (code r)
  | NRemove name => r ← VOP_REMOVE U root name; mret (code r)
  | NRename n1 n2 => r ← VOP_RENAME U root n1 root n2; mret (code r)
  | NHold p => _ ← vnode_incref p; mret (code 0)
  | NDrop p => _ ← vnode_decref U p; mret (code 0)
  | NRead p pos len =>
      '(r, u) ← VOP_ p (VOP_READ U p (ruio (replicate (Z.to_nat len) 0) pos));
      mret (NRes r NULL (sub (u_mem u) 0 (len - uio_resid u)))
  | NWrite p pos data => '(r, _) ← VOP_ p (VOP_WRITE U p (wuio data pos)); mret (code r)
  | NTruncate p len => r ← VOP_ p (VOP_TRUNCATE U p len); mret (code r)
  end.

(** A file that the client holds. *)
Definition holds (p : Z) V : Prop := p ≠ root ∧ is_Some (v_held V !! p).
Definition c_name (name : list Z) : Prop := ∀ c, c ∈ name → c ≠ 0.

(** What a client may ask for; a vnode is not given up while it is open, which [oc] counts. *)
Definition nop_ok (oc : Z → Z) V (op : nop) : Prop :=
  match op with
  | NLookup _ | NRemove _ => True
  | NCreat name _ => c_name name
  | NLink name p => c_name name ∧ holds p V
  | NRename _ n2 => c_name n2
  | NHold p => is_Some (v_held V !! p)
  | NDrop p => ∃ ino n, v_held V !! p = Some (ino, n) ∧ ((p ≠ root ∧ oc p = 0) ∨ 1 < n)
  | NRead p pos len => holds p V ∧ 0 ≤ pos ∧ 0 < len ∧ pos + len ≤ 512 * 143
  | NWrite p pos data => holds p V ∧ 0 ≤ pos ∧ 0 < zlen data ∧ pos + zlen data ≤ 512 * 143
  | NTruncate p len => holds p V ∧ 0 ≤ len ≤ 2 ^ 31 - 512
  end.

(** Room for one more vnode and one more reference. *)
Definition vroom V : Prop :=
  Z.of_nat (size (v_held V)) < 2 ^ 27 ∧ 8 * (Z.of_nat (size (v_held V)) + 1) < kh_max ∧
  ∀ p ino n, v_held V !! p = Some (ino, n) → n < 2 ^ 31 - 1.

(** ** Reading and writing *)

Section io.
Context (k : kst H sfs_fs) (s : sched) (B : outside) (A : afs) (p : Z).
Hypothesis Hr : Rep k s B A.
Hypothesis Hc : consistent A.
Hypothesis Hh : holds p (view_of A).

Definition does (op : nop) : Prop :=
  wps (run_nop op) k (λ r k', ∃ V', Fs k' s B V' ∧ nspec (view_of A) op r V').

Lemma read_refines pos len : 0 ≤ pos → 0 < len → pos + len ≤ 512 * 143 → does (NRead p pos len).
Proof using Hr Hc Hh.
  intros Hpos Hlen Hmax. destruct Hh as [Hp [[ino n] Hpn]].
  destruct (held_file root k s B A p ino n Hr Hc Hpn Hp) as (sv & O & Hf & Hsz & Hfl & Hvop & _).
  unfold does. simpl. rewrite wps_bind. apply Hvop. unfold sfs_read. set (buf := replicate (Z.to_nat len) 0).
  assert (zlen buf = len) as Hbuf by (unfold buf; rewrite length_replicate; lia).
  rewrite wps_bind, wps_asrt. split; [done|].
  eapply wps_mono; [apply (sfs_read_spec U _ p sv O); [done|done|apply kuio_ok; lia|done]|].
  intros [r u'] f' (-> & Herr & kk & j & Hkj & Hj & Hlim & -> & Hall). wps_step. simpl in Hj, Hlim, Herr |- *.
  replace (set_env (k_env k) k) with k by (by destruct k). unfold avail in *. simpl in Hj, Hall. rewrite Hbuf in *.
  set (av := Z.max 0 (Z.min len (sfi_size (sv_i sv) - pos))) in *.
  destruct Herr as [->|[(_ & Hx & _)|[(-> & He1 & He2)|[_ Hseg]]]]; [|done|exfalso; simpl in He1, He2; lia|done].
  specialize (Hall eq_refl). assert (j = av) as -> by lia. exists (view_of A). split; [by exists A|].
  pose proof (length_fdata _ _ _ _ Hf) as Hlf. replace (len - (len - kk)) with av by lia. replace (KBUF - KBUF) with 0 by lia.
  assert (zlen (sub (fdata (k_env k) (sv_i sv)) pos av) = av) as Hls by (apply length_sub; lia).
  rewrite <- Hls at 2. rewrite sub_splice_same by lia.
  replace (sub (fdata (k_env k) (sv_i sv)) pos av) with (sub (fdata (k_env k) (sv_i sv)) pos (Z.min len (sfi_size (sv_i sv) - pos))).
  - apply (s_read (view_of A) p pos len ino n); [done|]. simpl. by rewrite lookup_fmap, Hfl.
  - unfold av, sub. f_equal. lia.
Qed.

Lemma write_refines pos data : 0 ≤ pos → 0 < zlen data → pos + zlen data ≤ 512 * 143 → does (NWrite p pos data).
Proof using Hr Hc Hh.
  intros Hpos Hlen Hmax. destruct Hh as [Hp [[ino n] Hpn]].
  destruct (held_file root k s B A p ino n Hr Hc Hpn Hp) as (sv & O & Hf & Hsz & Hfl & Hvop & Hstep).
  unfold does. simpl. rewrite wps_bind. apply Hvop. unfold sfs_write. rewrite wps_bind, wps_asrt. split; [done|].
  eapply wps_mono; [by apply (write_data U _ p sv O data pos)|]. intros [r u'] f' (sv' & Hres). wps_step.
  assert (v_files (view_of A) !! ino = Some (sfi_size (sv_i sv), fdata (k_env k) (sv_i sv))) as Hv.
  { simpl. by rewrite lookup_fmap, Hfl. }
  destruct Hres as [(-> & Hst & Hs & Hd)|(-> & _ & j & Hst & Hs & Hd)]; (eexists; split; [apply (Hstep sv' f' Hst)|]).
  - simpl. lia.
  - rewrite Hs, Hd. by apply (s_write (view_of A) p pos data ino n).
  - pose proof (length_take_le data j). rewrite length_take in Hs. lia.
  - rewrite Hs, Hd. by apply (s_write_full (view_of A) p pos data j ino n).
Qed.

(** Bytes below the new end stay. *)
Lemma truncated_bytes O len sv f sv' f' b :
  file f p sv O → 0 ≤ len → truncated p O ((len + 511) / 512) len sv f sv' f' → 0 ≤ b < Z.min len (512 * 143) →
  fdata f' (sv_i sv') !! Z.to_nat b = fdata f (sv_i sv) !! Z.to_nat b.
Proof using.
  intros Hf Hl Ht Hb. pose proof (tr_step _ _ _ _ _ _ _ _ Ht) as Hst. set (q := b / 512).
  pose proof (Z.div_mod b 512 ltac:(lia)) as Hdm. pose proof (Z.mod_pos_bound b 512 ltac:(lia)) as Hm. fold q in Hdm.
  pose proof (Z.div_mod (len + 511) 512 ltac:(lia)) as Hdl. pose proof (Z.mod_pos_bound (len + 511) 512 ltac:(lia)) as Hml.
  destruct (lookup_lt_is_Some_2 (fmap_ f (sv_i sv)) (Z.to_nat q)) as [x Hx]; [rewrite length_fmap_; [lia|apply Hf]|].
  assert (fmap_ f' (sv_i sv') !! Z.to_nat q = Some x) as Hx'.
  { rewrite (tr_map _ _ _ _ _ _ _ _ Ht), cut_lookup, Hx. simpl. unfold stays.
    by replace (Z.of_nat (Z.to_nat q) <? (len + 511) / 512) with true by lia. }
  pose proof (fdata_block f p sv O _ x Hf Hx) as Hb1. pose proof (fdata_block f' p sv' O _ x (fs_file _ _ _ _ _ _ Hst) Hx') as Hb2.
  rewrite (truncated_blk _ _ _ _ _ _ _ _ Hf Ht _ _ Hx Hx'), <- Hb1 in Hb2.
  assert (∀ l : list Z, l !! Z.to_nat b = sub l (512 * Z.of_nat (Z.to_nat q)) 512 !! Z.to_nat (b mod 512)) as Hsub.
  { intros l. unfold sub. rewrite lookup_take_lt by lia. rewrite lookup_drop. f_equal. lia. }
  by rewrite (Hsub (fdata f' _)), (Hsub (fdata f _)), Hb2.
Qed.

Lemma truncate_refines len : 0 ≤ len ≤ 2 ^ 31 - 512 → does (NTruncate p len).
Proof using Hr Hc Hh.
  intros Hlen. destruct Hh as [Hp [[ino n] Hpn]].
  destruct (held_file root k s B A p ino n Hr Hc Hpn Hp) as (sv & O & Hf & Hsz & Hfl & Hvop & Hstep).
  unfold does. simpl. rewrite wps_bind. apply Hvop. eapply wps_mono; [by apply (truncate_spec U _ p sv O len)|].
  intros r f' (-> & sv' & Ht). wps_step. pose proof (tr_size _ _ _ _ _ _ _ _ Ht) as Hs.
  eexists. split; [apply (Hstep sv' f'); [apply Ht|lia]|]. rewrite Hs.
  apply (s_truncate (view_of A) p len ino n (sfi_size (sv_i sv)) (fdata (k_env k) (sv_i sv))); [done| |].
  - simpl. by rewrite lookup_fmap, Hfl.
  - intros b Hb. apply (truncated_bytes O len sv); [done|lia|done|done].
Qed.
End io.

Lemma nop_refines k s B V op :
  Fs k s B V → vroom V → nop_ok (o_open B) V op → wps (run_nop op) k (λ r k', ∃ V', Fs k' s B V' ∧ nspec V op r V').
Proof using Hroom.
  intros (A & Hr & Hc & <-) HA Hok. destruct op as [nm|nm e|nm p|nm|n1 n2|p|p|p pos len|p pos data|p len]; simpl in Hok.
  - simpl. rewrite wps_bind. eapply wps_mono; [by apply lookup_refines|]. intros [r p] k' HV. by wps_step.
  - simpl. rewrite wps_bind. eapply wps_mono; [by apply creat_refines|]. intros [r p] k' HV. by wps_step.
  - destruct Hok as (Hn & Hp & [[ino n] Hh]). simpl. rewrite wps_bind.
    eapply wps_mono; [by apply (link_refines U root k s B A nm p ino n)|]. intros r k' HV. by wps_step.
  - simpl. rewrite wps_bind. eapply wps_mono; [by apply remove_refines|]. intros r k' HV. by wps_step.
  - simpl. rewrite wps_bind. eapply wps_mono; [by apply rename_refines|]. intros r k' HV. by wps_step.
  - destruct Hok as [[ino n] Hh]. simpl. rewrite wps_bind.
    eapply wps_mono; [by apply (hold_refines root k s B A p ino n)|]. intros [] k' HV. by wps_step.
  - destruct Hok as (ino & n & Hh & Hp). simpl. rewrite wps_bind.
    eapply wps_mono; [by apply (drop_refines U root k s B A p ino n)|]. intros [] k' HV. by wps_step.
  - destruct Hok as (Hh & ? & ? & ?). by apply read_refines.
  - destruct Hok as (Hh & ? & ? & ?). by apply write_refines.
  - destruct Hok as (Hh & ?). by apply truncate_refines.
Qed.

(** ** Programs *)

Inductive client := CDone | CCall (op : nop) (next : nres → client).

Fixpoint run_client (c : client) : stm (kst H sfs_fs) (list nres) :=
  match c with
  | CDone => mret []
  | CCall op next => r ← run_nop op; rs ← run_client (next r); mret (r :: rs)
  end.

(** A run on the abstract file system. *)
Inductive cspec : view → client → list nres → view → Prop :=
  | cs_done V : cspec V CDone [] V
  | cs_call V op next r V1 rs V2 : nspec V op r V1 → cspec V1 (next r) rs V2 → cspec V (CCall op next) (r :: rs) V2.

(** The client asks only for what it may, whatever the answers are. *)
Inductive behaves (oc : Z → Z) : view → client → Prop :=
  | be_done V : behaves oc V CDone
  | be_call V op next :
      vroom V → nop_ok oc V op → (∀ r V', nspec V op r V' → behaves oc V' (next r)) → behaves oc V (CCall op next).

Lemma client_refines k s B V c :
  Fs k s B V → behaves (o_open B) V c → wps (run_client c) k (λ rs k', ∃ V', Fs k' s B V' ∧ cspec V c rs V').
Proof using Hroom.
  intros HF Hb. revert k HF. induction Hb as [V|V op next HA Hok _ IH]; intros k HF; simpl.
  - wps_step. exists V. split; [done|constructor].
  - rewrite wps_bind. eapply wps_mono; [by apply nop_refines|]. intros r k1 (V1 & HF1 & Hs).
    rewrite wps_bind. eapply wps_mono; [by apply (IH r V1 Hs)|]. intros rs k2 (V2 & HF2 & Hcs). wps_step.
    exists V2. split; [done|by econstructor].
Qed.
End client.

(** * What the file system promises its clients: the theorems

    The theorems, with an example on a small formatted volume whose root
    directory is loaded. *)

From S2P Require Import Prelude StateM Heap KArray KQueue KBitmap Coremap KState Thread ThreadSpec ThreadHeap Synch SynchSpec Owned.
From S2P Require Import ProcSpec Uio SfsDisk Sfs SfsBytes SfsSpec SfsIo SfsDirs SfsTrunc SfsVolume SfsTree SfsNode SfsNodeSpec.
From S2P Require Import SfsTree SfsNodeSpec SfsRep SfsLife SfsView SfsOps SfsThm.

(** ** A kernel with a volume *)

Module Mounted.
Import Volume.

(** The volume of [Volume] with its superblock, map and inodes on disk: the file a (inode 3) is not
    loaded. *)
Definition super1 : sfs_super := Super SFS_MAGIC 16 (replicate 32 0) (replicate 118 0).
Definition map1 : list Z := 63 :: 0 :: replicate 510 255.
Definition disk1 : disk :=
  Disk 16 (<[0%nat := super_bytes super1]> (<[1%nat := inode_bytes root_inode]> (<[2%nat := map1]>
    (<[3%nat := inode_bytes file_inode]> (d_sect dev))))) [].
Definition vroot1 : sfs_vnode := SVnode (Vnode 1 0 501 (Some DirOps)) root_inode 1 0.
Definition fs1 : sfs_fs :=
  SfsFs 0 super1 0 disk1 (Array 510 1 8 511 (Some 500 :: replicate 7 None)) (Bitmap 0 4096 0 map1) 0 {[500 := vroot1]}.

(** One thread, and a heap that serves forty more requests. *)
Definition blocks : list Z := [100; 101; 102; 400; 401; 410; 411; 420; 421].
Definition thread1 : thread := Thread (PCB 0 0 0 NULL None) 101 NULL 102 STACK_MAGIC NULL NULL 0 NULL.
Definition kern1 : kst refheap sfs_fs :=
  KST (RefHeap 40 1000 (list_to_set ([500; 501; 502; 510; 511] ++ blocks))) {[100 := thread1]} 100
    (Some (Array 400 0 8 401 (replicate 8 None))) (Some (Array 410 0 8 411 (replicate 8 None)))
    (Some (Queue 420 8 0 0 421 (replicate 8 None)))
    1 0 0 0 0 (replicate 64 (0, 0)) ∅ {[501 := Lock 502 1]} ∅ ∅ None (0, 0) fs1.
Definition sched1 : sched := Sched 100 [] [] [].
Definition outside1 : outside := Outside (Outer blocks {[100 := thread1]} ∅) (λ _, 0) (sfs_super_ fs1).

Definition afs1 : afs :=
  Afs [entry] {[3 := afile_of fs1 file_inode]} {[500 := (1, 1)]}.

Lemma srep1 : srep kern1 sched1.
Proof.
  constructor.
  - done.
  - eexists. split; [done|]. split_and!; done.
  - eexists. split; [done|]. by split_and!.
  - eexists. split; [done|]. by split_and!.
  - by apply (bool_decide_unpack _).
  - set_solver.
  - intros t. simpl. unfold all_threads. simpl. rewrite lookup_singleton_is_Some. set_solver.
  - intros t th. simpl. rewrite lookup_singleton_Some. intros [<- <-] _. done.
  - done.
Qed.

Lemma super1_wf : super_wf super1.
Proof. constructor; try done. by apply (bool_decide_unpack _). Qed.

Lemma vol_ok1 : vol_ok fs1.
Proof.
  destruct vol_vol_ok as [[D1 D2 D3] ? ? ? ? ? ?]. constructor; try done.
  - constructor; [done|done|].
    apply Forall_insert; [apply Forall_insert; [apply Forall_insert; [apply Forall_insert; [exact D3|]|]|]|].
    + apply length_inode_bytes, file_inode_wf.
    + done.
    + apply length_inode_bytes, root_inode_wf.
    + apply length_super_bytes, super1_wf.
  - split_and!; try done; [|intros i Hi; change (8 * zlen (bm_v (sfs_freemap fs1))) with 4096 in Hi; simpl in Hi; lia].
    apply (bool_decide_unpack (Forall _ _)). by vm_compute.
  - assert (Forall (λ b, used fs1 b = true) (seqZ 16 4080)) as Hall by (apply (bool_decide_unpack _); by vm_compute).
    intros b Hb. rewrite Forall_forall in Hall. apply Hall, elem_of_seqZ. simpl in Hb. lia.
Qed.

Lemma meta1 : meta (sfs_super_ fs1) fs1 [2].
Proof.
  constructor; try done; [apply super1_wf| |].
  - intros j Hj. change (mapsize fs1) with 1 in Hj. replace j with 0 by lia. by left.
  - intros _ j Hj. change (mapsize fs1) with 1 in Hj. by replace j with 0 by lia.
Qed.

Lemma nodes1 : nodes kern1 sched1 [(500, vroot1)] outside1.
Proof.
  constructor; try done.
  - apply srep1.
  - intros p sv [[= -> ->]|[]%elem_of_nil]%elem_of_cons. by exists 502.
  - split; [|split].
    + split; [done|]. split; [done|]. intros b Hb%elem_of_list_to_set. revert b Hb. apply Forall_forall. by apply (bool_decide_unpack _).
    + by apply (bool_decide_unpack _).
    + intros b Hb. apply elem_of_list_to_set. revert b Hb. apply Forall_forall. by apply (bool_decide_unpack _).
  - intros t th Ht. by apply elem_of_nil in Ht.
  - apply (Forall_forall (λ b, k_locks kern1 !! b = o_locks outside1 !! b)). by apply (bool_decide_unpack _).
Qed.

Lemma fsvol1 : fsvol fs1 [(500, vroot1)] [(3, file_inode)] [2].
Proof.
  constructor.
  - constructor; [apply vol_ok1|by apply (bool_decide_unpack _)| |].
    + intros p sv [[= -> ->]|[]%elem_of_nil]%elem_of_cons. split; [done|]. split; [apply root_inode_wf|].
      split; [done|]. split; [done|]. split; [done|]. apply (bool_decide_unpack (NoDup _)). by vm_compute.
    + change (vblocks fs1 _ ++ _ ++ _) with [5; 1; 3; 4; 2]. split; [by apply (bool_decide_unpack _)|].
      intros b Hb. repeat (apply elem_of_cons in Hb as [->|Hb]; [done|]). by apply elem_of_nil in Hb.
  - intros p sv [[= -> ->]|[]%elem_of_nil]%elem_of_cons _. done.
  - intros ino i [[= -> ->]|[]%elem_of_nil]%elem_of_cons. split; [done|]. split; [apply file_inode_wf|done].
Qed.

Lemma rep1 : rep 500 kern1 sched1 outside1 afs1 [(500, vroot1)] [(3, file_inode)] [2].
Proof.
  constructor.
  - constructor; [apply nodes1|apply fsvol1| |done]. intros p sv [[= -> ->]|[]%elem_of_nil]%elem_of_cons. done.
  - exists vroot1. split; [by left|]. split; [done|]. split; [done|]. by vm_compute.
  - intros p sv [[= -> ->]|[]%elem_of_nil]%elem_of_cons. done.
  - apply map_eq. intros j. simpl. destruct (decide (j = 1)) as [->|Hj1]; [done|]. rewrite lookup_delete_ne by done.
    unfold files_of, inodes, numbered. simpl. rewrite lookup_insert_ne by done. done.
  - done.
  - apply meta1.
Qed.

Lemma consistent1 : consistent afs1.
Proof.
  assert (a_names afs1 = {[[97] := 3]}) as Hn by (by vm_compute). constructor.
  - intros nm ino. rewrite Hn, lookup_singleton_Some. intros [<- <-]. simpl. rewrite lookup_singleton_eq. by eexists.
  - intros ino fl. simpl. rewrite lookup_singleton_Some. intros [<- <-]. rewrite Hn. done.
  - intros ino fl. simpl. rewrite lookup_singleton_Some. intros [<- _]. left. exists [97]. simpl. by rewrite Hn.
Qed.

Lemma Fs1 : Fs 500 kern1 sched1 outside1 (view_of afs1).
Proof. exists afs1. split; [|split; [apply consistent1|done]]. exists [(500, vroot1)], [(3, file_inode)], [2]. apply rep1. Qed.
End Mounted.

(** ** Refinement *)

Section refinement.
Context {H : Type} `{KHeapLaws H}.
Variables (U : usermem) (root : Z).

(** C1: A program that looks up, creates, links, removes and renames names in the root directory
    and reads, writes, truncates, holds and gives up files, in any order and deciding by the
    answers, runs on SFS to its end without a panic, a failed assertion or a bad access, and
    every answer and every change is one the abstract file system allows: a name leads to the file
    it was given to, a file keeps its bytes under all its names and references, and it disappears
    exactly when its last name and its last reference are gone.  This includes the cases where
    memory, disk blocks or directory slots run out, but not media errors of the disk. *)
Theorem sfs_refines_view k s B V c :
  SFS_VNODE_SIZE < kh_max → Fs root k s B V → behaves root (o_open B) V c →
  wps (run_client U root c) k (λ rs k', ∃ V', Fs root k' s B V' ∧ cspec V c rs V').
Proof. intros Hroom HF Hb. by apply client_refines. Qed.
End refinement.

(** An unlinked file is still there for the client that holds it. *)
Definition demo_client : client :=
  CCall (NCreat [98] true) (λ r,
    if n_code r =? 0 then
      CCall (NWrite (n_ptr r) 0 [7; 8; 9]) (λ _,
      CCall (NRemove [98]) (λ _,
      CCall (NRead (n_ptr r) 0 3) (λ _,
      CCall (NDrop (n_ptr r)) (λ _, CDone))))
    else CDone).

Lemma keeps_held V op r V' :
  nspec V op r V' →
  match op with
  | NLink _ _ | NRemove _ | NRename _ _ | NRead _ _ _ | NWrite _ _ _ | NTruncate _ _ => v_held V' = v_held V
  | _ => True
  end.
Proof. intros []; simpl; try done. by destruct H0 as [[_ ->]|[_ ->]]. Qed.

Lemma demo_behaves root V0 : v_held V0 = {[root := (SFS_ROOT_LOCATION, 1)]} → behaves (H:=refheap) root (λ _, 0) V0 demo_client.
Proof.
  intros Hheld.
  assert (∀ c, c ∈ [98] → c ≠ 0) as Hnm by (intros c [->|[]%elem_of_nil]%elem_of_cons; done).
  constructor; [|done|].
  { unfold vroom. rewrite Hheld, map_size_singleton. split; [done|]. split; [done|]. intros p ino n. simpl. rewrite lookup_singleton_Some. by intros [_ [= <- <-]]. }
  intros r V1 Hs. destruct (n_code r =? 0) eqn:E; [|constructor]. remember (NCreat [98] true) as op eqn:Eop.
  destruct Hs; inversion Eop; subst; clear Eop; try done.
  2: { exfalso. by destruct H0. }
  rewrite Hheld in *. set (V1 := View _ _ _). simpl n_ptr.
  assert (p ≠ root) as Hp by (intros ->; simplify_map_eq).
  assert (∀ V, v_held V = v_held V1 → vroom (H:=refheap) V ∧ holds root p V ∧ v_held V !! p = Some (ino, 1)) as Hstay.
  { intros V HV. unfold holds, vroom. rewrite HV. unfold V1. simpl. rewrite lookup_insert_eq, map_size_insert_None, map_size_singleton by done.
    split; [|split; [split; [done|by eexists]|done]]. split; [done|]. split; [done|].
    intros q j m. rewrite lookup_insert_Some, lookup_singleton_Some. intros [[_ [= _ <-]]|[_ [_ [= _ <-]]]]; done. }
  destruct (Hstay V1 eq_refl) as (Hr1 & Hh1 & _). constructor; [done|done|]. intros r2 V2 Hs2%keeps_held. simpl in Hs2.
  destruct (Hstay V2 Hs2) as (Hr2 & _). constructor; [done|done|]. intros r3 V3 Hs3%keeps_held. simpl in Hs3.
  rewrite Hs2 in Hs3. destruct (Hstay V3 Hs3) as (Hr3 & Hh3 & _). constructor; [done|done|].
  intros r4 V4 Hs4%keeps_held. simpl in Hs4. rewrite Hs3 in Hs4. destruct (Hstay V4 Hs4) as (Hr4 & Hh4 & Hx4).
  constructor; [done|exists ino, 1; split; [done|left; split; [done|done]]|]. intros r5 V5 _. constructor.
Qed.

Lemma sfs_refines_view_witness :
  wps (run_client Volume.noumem 500 demo_client) Mounted.kern1 (λ rs k', ∃ V',
    Fs 500 k' Mounted.sched1 Mounted.outside1 V' ∧ cspec (view_of Mounted.afs1) demo_client rs V').
Proof.
  apply (sfs_refines_view Volume.noumem 500 Mounted.kern1 Mounted.sched1 Mounted.outside1 (view_of Mounted.afs1) demo_client).
  - done.
  - apply Mounted.Fs1.
  - by apply demo_behaves.
Defined.

(** The answers of the run. *)
Lemma demo_answers :
  match run_client Volume.noumem 500 demo_client Mounted.kern1 with
  | Ok (rs, k') => (λ r, (n_code r, n_bytes r)) <$> rs = [(0, []); (0, []); (0, []); (0, [7; 8; 9]); (0, [])] ∧
                   bm_v (sfs_freemap (k_env k')) = Mounted.map1
  | Fault _ => False
  end.
Proof. by vm_compute. Qed.
