(* ===== verification/SfsBootThm.v ===== *)
(** * The life of a volume: the theorems

    From mksfs over mounting, use and syncing to the next start of the system. *)

From S2P Require Import Prelude StateM Heap KArray KQueue KBitmap Coremap KState Thread ThreadSpec ThreadHeap Synch SynchSpec Owned.
From S2P Require Import ProcSpec Uio SfsDisk Sfs SfsBytes Mksfs SfsSpec SfsIo SfsDirs SfsTrunc SfsVolume SfsTree SfsNode.
From S2P Require Import SfsNodeSpec Owned SfsTree SfsNode SfsRep SfsLife SfsView SfsSync SfsOps SfsBoot.
From S2P Require Import MksfsSpec SfsThm SfsClient.

Section life.
Context {H : Type} `{KHeapLaws H}.
Variable U : usermem.
Implicit Types (k : kst H sfs_fs).

(** C4: What has been synced survives.  On a disk without media errors, [sfs_sync] answers 0 and
    changes nothing a client sees; and a kernel that afterwards starts on a copy of the disk, mounts
    it and asks for the root directory finds all names and, under each name, the file with its
    bytes.  Only files without a name are gone.  With room for eight requests in the heap this always
    happens; without that room [sfs_domount] may answer ENOMEM, with all of its memory given back,
    or [sfs_getroot] panic.  The heap must serve requests of the size of the volume's block map:
    the kernel's serves one page, so volumes of up to 32768 blocks. *)
Theorem sync_survives_restart root k s B V :
  SFS_FS_SIZE < kh_max → 512 * mapsize (k_env k) < kh_max → Fs root k s B V →
  wps (sfs_sync U) k (λ r k', r = 0 ∧ Fs root k' s B V ∧
    ∀ k1 s1 C, idle k1 s1 C → sfs_device (k_env k1) = sfs_device (k_env k') →
      let short := ¬ kh_room 8 (k_heap k1) in
      wpf short (mount_root U) k1 (λ '(r, p) k2, (r = ENOMEM ∧ p = NULL ∧ short ∧ given_back k1 k2) ∨
        (r = 0 ∧ ∃ B', Fs p k2 s1 (beyond (o_super B) k1 (B' ++ C)) (restart p V)))).
Proof.
  intros Hfs Hmax HF. eapply wps_mono; [by apply (sync_restart U root k s B V)|]. intros r k' (Hr & HF' & Hre).
  split_and!; [done|done|]. intros k1 s1 C Hid Hdev. by apply (Hre k1 s1 C).
Qed.

(** C32: Mounting a synced volume and unmounting it again leaves no trace: [sfs_domount] answers 0, or
    ENOMEM when the heap has no room for four requests; after 0 [sfs_unmount] answers 0; and either
    way exactly the blocks in use before are in use again and the disk is as it was.  (No media
    errors; the heap serves requests of the size of the volume's block map.) *)
Theorem unmount_leaves_no_trace root k s B V :
  SFS_FS_SIZE < kh_max → 512 * mapsize (k_env k) < kh_max → Fs root k s B V →
  wps (sfs_sync U) k (λ _ k', ∀ k1 s1 C, idle k1 s1 C → sfs_device (k_env k1) = sfs_device (k_env k') →
    wps (mount_unmount U) k1 (λ '(r, r2) k2,
      r2 = 0 ∧ (r = 0 ∨ (r = ENOMEM ∧ ¬ kh_room 4 (k_heap k1))) ∧ given_back k1 k2)).
Proof.
  intros Hfs Hmax HF. eapply wps_mono; [by apply (sync_restart U root k s B V)|]. intros r k' (_ & _ & Hre) k1 s1 C Hid Hdev.
  by apply (Hre k1 s1 C).
Qed.

Lemma Fs_super root k s B V : Fs root k s B V → sfs_super_ (k_env k) = o_super B.
Proof. intros (A & (vs & us & O & Hr) & _). apply (me_same _ _ _ (rp_meta _ _ _ _ _ _ _ _ Hr)). Qed.

(** A new volume. *)
Definition empty_view (p : Z) : view := View ∅ ∅ {[p := (SFS_ROOT_LOCATION, 1)]}.

Lemma stored_empty f k s B ir p :
  dirents f ir = [] → Rep p k s B (A_stored f [] ir p) → Fs p k s B (empty_view p).
Proof.
  intros He Hr. eexists. split; [exact Hr|]. unfold A_stored. rewrite He. split; [|done].
  change (files_of f []) with (∅ : gmap Z afile).
  constructor; [|intros ino fl Hfl; simpl in Hfl; by rewrite lookup_empty in Hfl..]. intros nm ino Hnm. change (a_names _) with (∅ : gmap (list Z) Z) in Hnm.
  by rewrite lookup_empty in Hnm.
Qed.

Lemma fresh_mounts k s C volname n bytes buf :
  SFS_FS_SIZE < kh_max → 512 * SFS_BITBLOCKS n < kh_max →
  0 ≤ n < 2 ^ 22 → 2 + SFS_BITBLOCKS n ≤ n → SFS_BITBLOCKS n ≤ MAXBITBLOCKS → zlen volname < SFS_VOLNAME_SIZE →
  zlen bytes = 512 * n → formatted volname n bytes buf → idle k s C → sfs_device (k_env k) = disk_of n bytes →
  let short := ¬ kh_room 8 (k_heap k) in
  wpf short (mount_root U) k (λ '(r, p) k', (r = ENOMEM ∧ short) ∨
    (r = 0 ∧ sfs_super_ (k_env k') = vol_super volname n ∧ ∃ B, Fs p k' s (beyond (vol_super volname n) k (B ++ C)) (empty_view p))).
Proof.
  intros Hfs Hmax Hn Hroom Hms Hl Hz Hf Hid Hdev short. pose proof (fresh_stored volname n bytes buf Hn Hroom Hms Hl Hz Hf) as Hst.
  eapply wpf_mono; [by apply (mount_root_spec U k s C _ _ _ _ Hst Hid Hdev)|].
  intros [r p] k' [(-> & _ & Hfull & _)|(-> & Hs & B & Hr)]; [by left|right]. split; [done|]. split; [done|]. exists B.
  eapply stored_empty; [|exact Hr]. apply nil_length_inv. by rewrite length_dirents.
Qed.

(** C3: The life of a volume.  [main] of mksfs formats a disk or exits with 1 because a system call
    failed, whatever the calls answer and however [write] cuts the blocks up, for a volume name of
    fewer than 32 bytes and a disk that has room for its own metadata and at most 32 map blocks.  A
    kernel with room for eight requests in its heap mounts the new volume, under the name that was
    given, and finds it empty; any program of file operations that behaves runs on it to its end as
    on the abstract file system; and after a sync another such kernel that mounts the disk finds
    the names and files the program has left.  A kernel without that room may answer ENOMEM or panic
    in [sfs_getroot] instead.  The disk has no media errors, and the heap serves requests of the size
    of the block map (the kernel's: one page, so up to 32768 blocks). *)
Theorem volume_life s p0 path arg volname n c :
  SFS_FS_SIZE < kh_max → 512 * SFS_BITBLOCKS n < kh_max → mk_fd s = -1 → mk_bitbuf s = replicate 16384 0 → zlen (mk_bytes s) = 512 * n →
  0 ≤ n < 2 ^ 22 → 2 + SFS_BITBLOCKS n ≤ n → SFS_BITBLOCKS n ≤ MAXBITBLOCKS →
  names_volume arg volname → zlen volname < SFS_VOLNAME_SIZE →
  wpx (main [p0; path; arg]) s (λ r t, r = 0 ∧
    ∀ k1 s1 C1, idle k1 s1 C1 → sfs_device (k_env k1) = disk_of n (mk_bytes t) →
      let short := ¬ kh_room 8 (k_heap k1) in
      wpf short (mount_root U) k1 (λ '(r, p) k2, (r = ENOMEM ∧ short) ∨
        (r = 0 ∧ sfs_super_ (k_env k2) = vol_super volname n ∧ (behaves (H := H) p (λ _, 0) (empty_view p) c →
          wps (rs ← run_client U p c; e ← sfs_sync U; mret (rs, e)) k2 (λ '(rs, e) k3, e = 0 ∧
            ∃ V, cspec (empty_view p) c rs V ∧
              ∀ k4 s4 C4, idle k4 s4 C4 → sfs_device (k_env k4) = sfs_device (k_env k3) →
                let short := ¬ kh_room 8 (k_heap k4) in
                wpf short (mount_root U) k4 (λ '(r, q) k5, (r = ENOMEM ∧ short) ∨
                  (r = 0 ∧ ∃ B, Fs q k5 s4 (beyond (vol_super volname n) k4 (B ++ C4)) (restart q V))))))))
    (λ r t, r = 1 ∧ trouble (mk_answers s)).
Proof.
  intros Hfs Hmax Hfd Hbuf Hz Hn Hroom Hms Hv Hl.
  eapply wpx_mono; [by apply (main_spec s path arg volname n p0)| |done]. intros r t (-> & Hzt & Hf). split; [done|].
  intros k1 s1 C1 Hid Hdev. eapply wpf_mono; [by eapply fresh_mounts|]. intros [r p] k2 [Hno|(-> & Hs & B & HF)]; [by left|right].
  split; [done|]. split; [done|]. intros Hb. rewrite wps_bind.
  eapply wps_mono; [apply (client_refines U p); [unfold SFS_VNODE_SIZE, SFS_FS_SIZE in *; lia|exact HF|exact Hb]|].
  intros rs k3 (V & HF3 & Hc). rewrite wps_bind. eapply wps_mono; [apply (sync_restart U p); [exact HF3|done|]|].
  { unfold mapsize. by rewrite (Fs_super _ _ _ _ _ HF3). }
  intros e k4 (-> & _ & Hre). wps_step. split; [done|]. exists V. split; [done|]. intros k5 s5 C5 Hid5 Hdev5. cbv zeta.
  eapply wpf_mono; [by apply (Hre k5 s5 C5)|]. intros [r' q] k6 [(-> & _ & Hfull & _)|Hx]; [by left|by right].
Qed.
End life.

(** ** Examples *)

(** A kernel with 60 requests left in its heap that starts on the disk [d]. *)
Definition boot_kernel (d : disk) : kst refheap sfs_fs :=
  set_env (SfsFs 0 (Super 0 0 [] []) 0 d (Array 0 0 0 NULL []) (Bitmap 0 0 0 []) 0 ∅)
    (set_locks ∅ (set_heap (RefHeap 60 1000 (list_to_set Mounted.blocks)) Mounted.kern1)).

Lemma boot_idle d : idle (boot_kernel d) Mounted.sched1 Mounted.blocks.
Proof.
  pose proof Mounted.srep1 as Hs. constructor; try done.
  - destruct Hs. by constructor.
  - split; [|split].
    + split; [done|]. split; [done|]. intros b Hb%elem_of_list_to_set. revert b Hb. apply Forall_forall. by apply (bool_decide_unpack _).
    + by apply (bool_decide_unpack _).
    + intros b Hb. by apply elem_of_list_to_set.
  - intros t th Ht. by apply elem_of_nil in Ht.
Qed.

Lemma boot_room d : ¬ ¬ kh_room 8 (k_heap (boot_kernel d)).
Proof. intros Hno. apply Hno. simpl. lia. Qed.

Lemma sync_survives_restart_witness :
  wps (sfs_sync Volume.noumem) Mounted.kern1 (λ r k', r = 0 ∧
    wps (mount_root Volume.noumem) (boot_kernel (sfs_device (k_env k'))) (λ '(r, p) k2, r = 0 ∧
      ∃ B, Fs p k2 Mounted.sched1 B (restart p (view_of Mounted.afs1)))).
Proof.
  eapply wps_mono;
    [apply (sync_survives_restart Volume.noumem 500 Mounted.kern1 Mounted.sched1 Mounted.outside1 (view_of Mounted.afs1)); [done|done|apply Mounted.Fs1]|].
  intros r k' (-> & _ & Hre). split; [done|]. specialize (Hre _ _ _ (boot_idle (sfs_device (k_env k'))) eq_refl).
  eapply wps_mono; [exact (wps_of_wpf _ _ _ _ Hre (boot_room _))|].
  intros [r p] k2 [(_ & _ & Hno & _)|(-> & B & HF)]; [by destruct (boot_room _ Hno)|]. split; [done|by eexists].
Defined.

Lemma unmount_leaves_no_trace_witness :
  wps (sfs_sync Volume.noumem) Mounted.kern1 (λ _ k', let k1 := boot_kernel (sfs_device (k_env k')) in
    wps (mount_unmount Volume.noumem) k1 (λ '(r, r2) k2, r = 0 ∧ r2 = 0 ∧ given_back k1 k2)).
Proof.
  eapply wps_mono;
    [apply (unmount_leaves_no_trace Volume.noumem 500 Mounted.kern1 Mounted.sched1 Mounted.outside1 (view_of Mounted.afs1)); [done|done|apply Mounted.Fs1]|].
  intros r0 k' Hre. specialize (Hre _ _ _ (boot_idle (sfs_device (k_env k'))) eq_refl). cbv zeta.
  eapply wps_mono; [exact Hre|]. intros [r r2] k2 (-> & [->|[_ Hno]] & Hg); [by split_and!|]. destruct Hno. simpl. lia.
Defined.

(** A disk of 16 blocks with old data; the first [write] is interrupted and others are cut short. *)
Definition mksfs1 : mksfs :=
  Mk (replicate 8192 7) 0 [Moves 0; Moves 0; Moves 0; Fails EINTR; Moves 100; Moves 412; Moves 0; Moves 300] 0 (-1) 0 (replicate 16384 0).

(** The volume [v:], in two kernels one after the other. *)
Lemma volume_life_witness :
  wpx (main [[109]; [100]; [118; 58]]) mksfs1 (λ r t, r = 0 ∧
    wps (mount_root Volume.noumem) (boot_kernel (disk_of 16 (mk_bytes t))) (λ '(r, p) k2, r = 0 ∧
      wps (rs ← run_client Volume.noumem p demo_client; e ← sfs_sync Volume.noumem; mret (rs, e)) k2 (λ '(rs, e) k3, e = 0 ∧
        ∃ V, cspec (empty_view p) demo_client rs V ∧
          wps (mount_root Volume.noumem) (boot_kernel (sfs_device (k_env k3))) (λ '(r, q) k5, r = 0 ∧ ∃ B,
            Fs q k5 Mounted.sched1 B (restart q V)))))
    (λ r t, r = 1 ∧ trouble (mk_answers mksfs1)).
Proof.
  eapply wpx_mono; [apply (volume_life (H := refheap) Volume.noumem mksfs1 [109] [100] [118; 58] [118] 16 demo_client); try done|..].
  - apply (nv_colon [118]); by apply (bool_decide_unpack _).
  - intros r t [-> Hlife]. split; [done|]. specialize (Hlife _ _ _ (boot_idle (disk_of 16 (mk_bytes t))) eq_refl).
    eapply wps_mono; [exact (wps_of_wpf _ _ _ _ Hlife (boot_room _))|].
    intros [r p] k2 [[_ Hno]|(-> & _ & Hrun)]; [by destruct (boot_room _ Hno)|]. split; [done|].
    eapply wps_mono; [apply Hrun, demo_behaves; done|]. intros [rs e] k3 (-> & V & Hc & Hre). split; [done|]. exists V. split; [done|].
    specialize (Hre _ _ _ (boot_idle (sfs_device (k_env k3))) eq_refl).
    eapply wps_mono; [exact (wps_of_wpf _ _ _ _ Hre (boot_room _))|].
    intros [r q] k5 [[_ Hno]|(-> & B & HF)]; [by destruct (boot_room _ Hno)|]. split; [done|by eexists].
  - done.
Defined.

(** The run itself, and the kernel that mounts the disk and runs the program. *)
Lemma volume_runs :
  match main [[109]; [100]; [118; 58]] mksfs1 with
  | Ok (inr r, t) =>
      r = 0 ∧
      match mount_root Volume.noumem (boot_kernel (disk_of 16 (mk_bytes t))) with
      | Ok ((r, p), k) =>
          r = 0 ∧
          match run_client Volume.noumem p demo_client k with
          | Ok (rs, k) => (λ r, (n_code r, n_bytes r)) <$> rs = [(0, []); (0, []); (0, []); (0, [7; 8; 9]); (0, [])]
          | Fault _ => False
          end
      | Fault _ => False
      end
  | _ => False
  end.
Proof. by vm_compute. Qed.
