(* ===== verification/Vm.v ===== *)
(** * Virtual memory (kern/vm/pagetable.c, segmentation.c, bitmap_disk.c, swap.c, page_replacement.c,
    tlb.c, addrspace.c and kern/userprog/sys_sbrk.c)

    Page directories and page tables are pages of kernel memory, and their entries are words with
    bit fields (the first field in the high bits, as the compiler lays them out on a big-endian
    processor).  Memory that was never written holds what the machine started with, [ram0].  The
    swap device and the program files are reached through [PageIO]: opening the program, and reads
    and writes that consume a [uio]. *)

From S2P Require Import Prelude StateM Heap Coremap Kheap Uio Sfs.

(** ** Constants *)

Definition PAGE_TABLE_ENTRY_NUM : Z := 1024.
Definition SECOND_PAGE_TABLE : Z := 0x003ff000.
Definition FIRST_PAGE_TABLE : Z := 0xffc00000.
Definition EXTRACT_PAGE_TABLE (vaddr : Z) : Z := Z.shiftr (Z.land vaddr SECOND_PAGE_TABLE) 12.
Definition EXTRACT_PAGE_DIRECTORY (vaddr : Z) : Z := Z.shiftr (Z.land vaddr FIRST_PAGE_TABLE) 22.

Definition PF_W : Z := 2.
Definition TLBLO_DIRTY : Z := 0x400.
Definition TLBLO_VALID : Z := 0x200.
Definition TLBLO_NO_WRITE : Z := 0.
Definition TLBHI_VPAGE : Z := 0xfffff000.
Definition TLBLO_GLOBAL : Z := 0x100.
Definition VM_FAULT_READ : Z := 0.
Definition VM_FAULT_WRITE : Z := 1.
Definition VM_FAULT_READONLY : Z := 2.
Definition DUMBVM_STACKPAGES : Z := 12.
Definition HEAP_TOP : Z := 0x70000000.
Definition USERSTACK : Z := USERTOP.

(** ** Bit fields *)

Definition bf_get (pos len w : Z) : Z := Z.land (Z.shiftr w pos) (Z.ones len).
Definition bf_set (pos len v w : Z) : Z :=
  Z.lor (Z.ldiff w (Z.shiftl (Z.ones len) pos)) (Z.shiftl (Z.land v (Z.ones len)) pos).

(** [struct page_table_entry]. *)
Record field := Field { fd_pos : Z; fd_len : Z }.
Definition swapped : field := Field 25 1.
Definition exist : field := Field 24 1.
Definition global : field := Field 23 1.
Definition valid : field := Field 22 1.
Definition writable : field := Field 21 1.
Definition nocache : field := Field 20 1.
Definition physical_frame_number : field := Field 0 20.
(** [struct page_directory_entry]. *)
Definition pd_exist : field := Field 20 1.
Definition addr_page_table : field := Field 0 20.

Definition fget (d : field) (w : Z) : Z := bf_get (fd_pos d) (fd_len d) w.
Definition fset (d : field) (v w : Z) : Z := bf_set (fd_pos d) (fd_len d) v w.

(** ** Address spaces *)

Record addrspace := AS {
  as_vbase1 : Z; as_pbase1 : Z; as_npages1 : Z;
  as_vbase2 : Z; as_pbase2 : Z; as_npages2 : Z;
  as_stackpbase : Z;
  as_permission1 : Z; as_permission2 : Z;
  as_segmentSize1 : Z; as_segmentSize1_refine : Z;
  as_segmentSize2 : Z; as_segmentSize2_refine : Z;
  as_offset1 : Z; as_offset2 : Z;
  as_filez1 : Z; as_filez2 : Z;
  as_progname : Z; as_v : Z;
}.
Definition ADDRSPACE_SIZE : Z := 76.
Definition as_zero : addrspace := AS 0 0 0 0 0 0 0 0 0 0 0 0 0 0 0 0 0 NULL NULL.

(** ** Reading and writing pages *)

(** The file system below the pager, with state [D]. *)
Class PageIO (D : Type) := {
  prog_open : Z → D → res (Z * D);                 (* vfs_open(as_progname, ...) *)
  prog_io : Z → uio → D → res (Z * uio * D);       (* VOP_READ, VOP_WRITE on the program *)
  swap_io : uio → D → res (Z * uio * D);           (* VOP_READ, VOP_WRITE on the swap device *)
}.

Record vmst (D : Type) := VM {
  vm_h : kheap;
  vm_tlb : list (Z * Z);
  swap_map : Z;
  num_bitmap_entries : Z;
  num_bitmap_free : Z;
  vm_as : gmap Z addrspace;
  vm_space : Z;                   (* curthread->t_vmspace *)
  vm_pd : Z;                      (* curthread->page_directory_addr *)
  vm_dev : D;
}.
Arguments VM {D}. Arguments vm_h {D}. Arguments vm_tlb {D}. Arguments swap_map {D}.
Arguments num_bitmap_entries {D}. Arguments num_bitmap_free {D}. Arguments vm_as {D}.
Arguments vm_space {D}. Arguments vm_pd {D}. Arguments vm_dev {D}.

Section setters.
Context {D : Type}.
Implicit Types s : vmst D.
Definition set_h (x : kheap) s : vmst D :=
  VM x (vm_tlb s) (swap_map s) (num_bitmap_entries s) (num_bitmap_free s) (vm_as s) (vm_space s) (vm_pd s) (vm_dev s).
Definition set_vtlb (x : list (Z * Z)) s : vmst D :=
  VM (vm_h s) x (swap_map s) (num_bitmap_entries s) (num_bitmap_free s) (vm_as s) (vm_space s) (vm_pd s) (vm_dev s).
Definition set_swap (m n f : Z) s : vmst D :=
  VM (vm_h s) (vm_tlb s) m n f (vm_as s) (vm_space s) (vm_pd s) (vm_dev s).
Definition set_as (x : gmap Z addrspace) s : vmst D :=
  VM (vm_h s) (vm_tlb s) (swap_map s) (num_bitmap_entries s) (num_bitmap_free s) x (vm_space s) (vm_pd s) (vm_dev s).
Definition set_dev (x : D) s : vmst D :=
  VM (vm_h s) (vm_tlb s) (swap_map s) (num_bitmap_entries s) (num_bitmap_free s) (vm_as s) (vm_space s) (vm_pd s) x.
End setters.

Definition uio_set_rw (rw : uio_rw_t) (u : uio) : uio :=
  Uio (u_mem u) (u_addr u) (iov_base u) (iov_len u) (uio_offset u) (uio_resid u) (uio_segflg u) rw (uio_space u).

(** Assignments to fields of a coremap entry. *)
Definition ce_set_use (ref dirt : Z) (e : coremap_entry) : coremap_entry :=
  CE (selfAddr e) (pageState e) (ce_as e) (startAddr e) (ce_length e) (isKernel e) (ce_fixed e)
     ref (counter e) dirt (ce_copy e) (ce_vaddr e) (pd_addr e) (pt_addr e).
Definition ce_set_map (va pt pd : Z) (e : coremap_entry) : coremap_entry :=
  CE (selfAddr e) (pageState e) (ce_as e) (startAddr e) (ce_length e) (isKernel e) (ce_fixed e)
     (reference e) (counter e) (dirty e) (ce_copy e) va pd pt.
Definition ce_set_copy (c : Z) (e : coremap_entry) : coremap_entry :=
  CE (selfAddr e) (pageState e) (ce_as e) (startAddr e) (ce_length e) (isKernel e) (ce_fixed e)
     (reference e) (counter e) (dirty e) c (ce_vaddr e) (pd_addr e) (pt_addr e).
(** One tick of [ref_bit_counter]. *)
Definition ce_tick (e : coremap_entry) : coremap_entry :=
  let c := if reference e =? 0 then u32 (counter e + 1) else if reference e =? 1 then 0 else counter e in
  CE (selfAddr e) (pageState e) (ce_as e) (startAddr e) (ce_length e) (isKernel e) (ce_fixed e)
     0 c (dirty e) (ce_copy e) (ce_vaddr e) (pd_addr e) (pt_addr e).

Section vm.
Context {D : Type} `{PageIO D}.
Variable U : usermem.
Variable ram0 : Z → Z.
Abbreviation V := (stm (vmst D)).

(** ** Memory *)

Definition vload (a : Z) : V Z := gets (λ s, default (ram0 a) (kmem (kh_cm (vm_h s)) !! a)).
Definition vstore (a v : Z) : V unit := modify (λ s, set_h (kstore (vm_h s) a v) s).

(** An assignment to a bit field of element [i] of the array at [base]. *)
Definition put_field (d : field) (base i v : Z) : V unit :=
  let a := u32 (base + 4 * i) in
  w ← vload a; vstore a (fset d v w).
Definition get_field (d : field) (base i : Z) : V Z :=
  w ← vload (u32 (base + 4 * i)); mret (fget d w).

Definition get_ce (i : Z) : V coremap_entry :=
  s ← gets (λ s, kh_cm (vm_h s)); lift (getz (coremap s) i).
Definition upd_ce (i : Z) (g : coremap_entry → coremap_entry) : V unit :=
  s ← gets (λ s, kh_cm (vm_h s));
  e ← lift ((coremap s).[i]);
  l ← lift ((coremap s).[i <- g e]);
  modify (λ s, set_h (kh_set_cm (vm_h s) (cm_set_coremap (kh_cm (vm_h s)) l)) s).
Definition coremap_index (paddr : Z) : V Z := gets (λ s, PADDR_TO_COREMAP (kh_cm (vm_h s)) paddr).

(** The 4096 bytes of the page at a kernel address, and storing them. *)
Definition get_page (kva : Z) : V (list Z) :=
  gets (λ s, words_bytes ((λ i, default (ram0 (u32 (kva + 4 * i))) (kmem (kh_cm (vm_h s)) !! u32 (kva + 4 * i))) <$> seqZ 0 1024)).
Definition put_page (kva : Z) (bytes : list Z) : V unit :=
  modify (λ s, set_h (kh_set_cm (vm_h s) (cm_set_kmem (kh_cm (vm_h s))
    (foldr (λ '(i, w) m, <[u32 (kva + 4 * i) := w]> m) (kmem (kh_cm (vm_h s)))
       (zip (seqZ 0 1024) (bytes_words 1024 bytes))))) s).

Definition frames (npages kernel : Z) : V Z :=
  zoom (λ s, kh_cm (vm_h s)) (λ c s, set_h (kh_set_cm (vm_h s) c) s) (getppages npages kernel).
Definition splhigh_ : V Z :=
  zoom (λ s, kh_cm (vm_h s)) (λ c s, set_h (kh_set_cm (vm_h s) c) s) (λ c, Ok (splhigh c)).
Definition splx_ (spl : Z) : V unit :=
  zoom (λ s, kh_cm (vm_h s)) (λ c s, set_h (kh_set_cm (vm_h s) c) s) (λ c, Ok (tt, (splx spl c).2)).

(** ** The TLB (tlb_mips1.S): a probe matches the page, and the address space unless the entry is
    global; [tlbwr] writes the slot [rnd] the processor picks. *)

Definition tlb_match (ehi : Z) (x : Z * Z) : bool :=
  (Z.land x.1 TLBHI_VPAGE =? Z.land ehi TLBHI_VPAGE) &&
  ((Z.land x.1 0xfc0 =? Z.land ehi 0xfc0) || negb (Z.land x.2 TLBLO_GLOBAL =? 0)).
Definition TLB_Probe (ehi elo : Z) : V Z :=
  l ← gets vm_tlb;
  mret (match list_find (λ x, tlb_match ehi x = true) l with Some (i, _) => Z.of_nat i | None => -1 end).
Definition TLB_Set (ehi elo i : Z) : V unit :=
  l ← gets vm_tlb;
  l ← lift (l.[i <- (ehi, elo)]);
  modify (set_vtlb l).

(** ** bitmap_disk.c *)

Definition bitmapDiskAllocatePage : V Z :=
  '(n, nfree, m) ← gets (λ s, (num_bitmap_entries s, num_bitmap_free s, swap_map s));
  if nfree =? 0 then fault_ FPanic
  else
    candidate ← mfor (Z.to_nat n) 0 (λ i candidate,
      match candidate with
      | Some c => mret (Some c)
      | None => e ← vload (u32 (m + 4 * i)); mret (if e =? 1 then None else Some i)
      end) None;
    match candidate with
    | None => fault_ FUndef
    | Some candidate =>
        _ ← vstore (u32 (m + 4 * candidate)) 1;
        _ ← modify (set_swap m n (u32 (nfree - 1)));
        mret candidate
    end.

(** ** swap.c *)

Definition swap_out (kva swap_index : Z) : V Z :=
  bytes ← get_page kva;
  let u := mk_kuio bytes kva PAGE_SIZE (s32 (swap_index * PAGE_SIZE)) UIO_WRITE in
  '(result, _) ← zoom vm_dev set_dev (swap_io u);
  mret result.

(** ** page_replacement.c *)

Definition ref_bit_counter : V unit :=
  n ← gets (λ s, num_coremap_entries (kh_cm (vm_h s)));
  mfor (Z.to_nat n) 0 (λ i _, upd_ce i ce_tick) tt.

(** The page of a user process that has gone unused longest; [None] is [evict_index] not set. *)
Definition evict_choice : V (option Z) :=
  n ← gets (λ s, num_coremap_entries (kh_cm (vm_h s)));
  '(_, evict) ← mfor (Z.to_nat n) 0 (λ i '(max, evict),
    e ← get_ce i;
    if isKernel e =? 1 then mret (max, evict)
    else if counter e >? max then mret (counter e, Some i)
    else mret (max, evict)) (0, None);
  mret evict.

Definition evictPage : V Z :=
  choice ← evict_choice;
  evict_index ← lift (res_of_option FUndef choice);
  e ← get_ce evict_index;
  let vaddr_first := EXTRACT_PAGE_DIRECTORY (ce_vaddr e) in
  let vaddr_second := EXTRACT_PAGE_TABLE (ce_vaddr e) in
  t ← get_field addr_page_table (pd_addr e) vaddr_first;
  let temp_addr := PADDR_TO_KVADDR t in
  swap_index ← (if (dirty e =? 1) || (ce_copy e =? 0) then
      _ ← asrt (isKernel e =? 0);
      swap_index ← bitmapDiskAllocatePage;
      result ← swap_out (PADDR_TO_KVADDR (selfAddr e)) swap_index;
      if negb (result =? 0) then fault_ FPanic
      else
        _ ← upd_ce evict_index (ce_set_copy 1);
        _ ← put_field swapped temp_addr vaddr_second 1;
        mret (Some swap_index)
    else mret None);
  i ← TLB_Probe (ce_vaddr e) 0;
  _ ← (if i >=? 0 then TLB_Set (u32 (Z.shiftl (0x80000 + i) 12)) 0 i else mret tt);
  _ ← asrt (pt_addr e =? temp_addr);
  _ ← put_field valid temp_addr vaddr_second 0;
  _ ← put_field exist temp_addr vaddr_second 0;
  swap_index ← lift (res_of_option FUndef swap_index);
  _ ← put_field physical_frame_number temp_addr vaddr_second swap_index;
  _ ← upd_ce evict_index reset_entry;
  _ ← modify (λ s, set_h (kh_set_cm (vm_h s) (cm_set_free (kh_cm (vm_h s)) (u32 (num_coremap_free (kh_cm (vm_h s)) + 1)))) s);
  phy_ptr ← gets (λ s, PADDR_TO_KVADDR (COREMAP_TO_PADDR (kh_cm (vm_h s)) evict_index));
  _ ← modify (λ s, set_h (kh_set_cm (vm_h s) (cm_set_kmem (kh_cm (vm_h s)) (zero_page phy_ptr (kmem (kh_cm (vm_h s)))))) s);
  mret phy_ptr.

(** ** The kernel heap with page replacement (kheap.c): a large request that finds no frames takes
    the page that [evictPage] frees. *)

Definition vkmalloc (sz : Z) : V Z :=
  if LARGEST_SUBPAGE_SIZE <=? sz then
    let npages := u32 (u32 (sz + PAGE_SIZE) - 1) / PAGE_SIZE in
    address ← zoom (λ s, kh_cm (vm_h s)) (λ c s, set_h (kh_set_cm (vm_h s) c) s) (alloc_kpages npages);
    if address =? 0 then evictPage else mret address
  else zoom vm_h set_h (subpage_kmalloc sz).
Definition vkfree (ptr : Z) : V unit :=
  h ← gets vm_h; h ← lift (kfree_c ptr h); modify (set_h h).

(** ** bitmap_disk.c, swap.c *)

(** The loop clears element 0 every time. *)
Definition bitmapCreate (nbits : Z) : V Z :=
  _ ← modify (λ s, set_swap (swap_map s) nbits nbits s);
  b ← vkmalloc (u32 (4 * nbits));
  _ ← mfor (Z.to_nat nbits) 0 (λ _ _, vstore b 0) tt;
  mret b.

(** [st_size] is what [VOP_STAT] answers for the swap device, which [vfs_open] has opened. *)
Definition swap_bootstrap (st_size : Z) : V unit :=
  m ← bitmapCreate (u32 (st_size / PAGE_SIZE));
  _ ← modify (λ s, set_swap m (num_bitmap_entries s) (num_bitmap_free s) s);
  if m =? NULL then fault_ FPanic else mret tt.

(** [swap_pagein] from the swap device falls off the end of the function after closing it: the
    value it answers is whatever the processor holds, [None]. *)
Definition swap_pagein (kva : Z) (rw : uio_rw_t) (mem file offset : Z) (swap : bool) (swap_index : Z)
  : V (option Z) :=
  bytes ← get_page kva;
  if swap then
    let u := mk_kuio bytes kva PAGE_SIZE (s32 (swap_index * PAGE_SIZE)) UIO_READ in
    '(result, u) ← zoom vm_dev set_dev (swap_io u);
    _ ← put_page kva (u_mem u);
    mret (if negb (result =? 0) then Some result else None)
  else
    '(p, sp) ← gets (λ s, (vm_space s, vm_as s));
    a ← lift (res_of_option FUndef (sp !! p));
    result ← zoom vm_dev set_dev (prog_open (as_progname a));
    if negb (result =? 0) then mret (Some result)
    else
      let u := mk_kuio_pd bytes kva mem file (s32 offset) rw in
      '(result, u) ← zoom vm_dev set_dev (prog_io (as_progname a) u);
      _ ← put_page kva (u_mem u);
      if negb (uio_resid u =? 0) then mret (Some ENOEXEC)
      else
        let fillamt := s32 (mem - file) in
        '(result, u) ← (if fillamt >? 0
          then lift (uiomovezeros U fillamt (uio_set_rw UIO_READ (uio_set_resid (uio_resid u + fillamt) u)))
          else mret (result, u));
        _ ← put_page kva (u_mem u);
        if negb (result =? 0) then fault_ FPanic else mret (Some 0).

(** ** pagetable.c *)

Definition page_table_initializer : V Z :=
  pde ← vkmalloc (PAGE_TABLE_ENTRY_NUM * 4);
  if pde =? NULL then fault_ FPanic
  else
    _ ← mfor (Z.to_nat PAGE_TABLE_ENTRY_NUM) 0 (λ i _,
          _ ← put_field addr_page_table pde i 0;
          put_field pd_exist pde i 0) tt;
    mret pde.

(** The assignments to the entry of the page. *)
Definition set_entry (pte i p_addr write : Z) : V unit :=
  _ ← put_field physical_frame_number pte i p_addr;
  _ ← put_field global pte i 0;
  _ ← put_field valid pte i 1;
  _ ← put_field nocache pte i 0;
  _ ← put_field exist pte i 1;
  _ ← put_field swapped pte i 0;
  put_field writable pte i (if negb (write =? 0) then 1 else 0).

Definition map_page_table (p_addr vaddr_vm_fault flag : Z) (alloc_pagetable : bool) (pde : Z) : V Z :=
  let write := Z.land flag PF_W in
  let vaddr_first := EXTRACT_PAGE_DIRECTORY vaddr_vm_fault in
  let vaddr_second := EXTRACT_PAGE_TABLE vaddr_vm_fault in
  pte ← (if alloc_pagetable then vkmalloc (PAGE_TABLE_ENTRY_NUM * 4)
         else t ← get_field addr_page_table pde vaddr_first; mret (PADDR_TO_KVADDR t));
  if alloc_pagetable && (pte =? NULL) then mret ENOMEM
  else
    _ ← set_entry pte vaddr_second p_addr write;
    ppn ← coremap_index (KVADDR_TO_PADDR p_addr);
    _ ← upd_ce ppn (ce_set_map vaddr_vm_fault pte pde);
    _ ← put_field addr_page_table pde vaddr_first pte;
    _ ← put_field pd_exist pde vaddr_first 1;
    mret 0.

(** ** tlb.c *)

(** The entry of a page that is present. *)
Definition present_entry (w : Z) : Z :=
  let attribute := Z.lor (Z.lor (Z.lor (fget global w) (Z.shiftl (fget valid w) 1))
    (Z.shiftl (fget writable w) 2)) (Z.shiftl (fget nocache w) 3) in
  Z.lor (fget physical_frame_number w) (Z.shiftl attribute 8).

(** The page is present: refill the TLB and note the use. *)
Definition tlb_hit (rw : uio_rw_t) (w : Z) : V Z :=
  ppn ← coremap_index (fget physical_frame_number w);
  e ← get_ce ppn;
  _ ← upd_ce ppn (ce_set_use 1 (match rw with UIO_WRITE => 1 | UIO_READ => dirty e end));
  mret (present_entry w).

(** The page is not present ([readPage]): the code, and the TLB entry when it is 0.  [from_stack]
    other than 0 and 1 does not occur. *)
Definition read_page (faultaddress memSize fileSize offset permission : Z) (rw : uio_rw_t)
    (from_stack : bool) (pages : Z) (alloc_pagetable swap : bool) (swap_index pde : Z) : V (Z * Z) :=
  pa ← frames 1 0;
  let paddr := PADDR_TO_KVADDR pa in
  paddr ← (if paddr =? 0 then evictPage else mret paddr);
  ppn ← coremap_index (KVADDR_TO_PADDR paddr);
  _ ← upd_ce ppn (ce_set_use 1 0);
  if from_stack then
    result ← map_page_table paddr faultaddress 6 alloc_pagetable pde;
    mret (result, Z.lor (Z.lor (KVADDR_TO_PADDR paddr) TLBLO_DIRTY) TLBLO_VALID)
  else
    let '(fileSize, memSize) := if pages >? 1 then (0x1000, 0x1000) else (fileSize, memSize) in
    r ← swap_pagein paddr rw memSize fileSize offset swap swap_index;
    result ← lift (res_of_option FUndef r);
    if negb (result =? 0) then mret (result, 0)
    else
      let lo := if negb (Z.land permission PF_W =? 0)
                then Z.lor (Z.lor (KVADDR_TO_PADDR paddr) TLBLO_DIRTY) TLBLO_VALID
                else Z.lor (Z.lor (KVADDR_TO_PADDR paddr) TLBLO_NO_WRITE) TLBLO_VALID in
      result ← map_page_table paddr faultaddress permission alloc_pagetable pde;
      mret (result, lo).

Definition tlb_handling (faultaddress memSize fileSize offset permission : Z) (rw : uio_rw_t)
    (from_stack : bool) (pages pde : Z) : V (Z * Z) :=
  let vaddr_first := EXTRACT_PAGE_DIRECTORY faultaddress in
  let vaddr_second := EXTRACT_PAGE_TABLE faultaddress in
  let offset := u32 (offset + u32 (faultaddress - Z.land faultaddress 0xfff00000)) in
  pd ← get_field pd_exist pde vaddr_first;
  if pd =? 1 then
    t ← get_field addr_page_table pde vaddr_first;
    w ← vload (u32 (PADDR_TO_KVADDR t + 4 * vaddr_second));
    if fget exist w =? 1 then lo ← tlb_hit rw w; mret (0, lo)
    else read_page faultaddress memSize fileSize offset permission rw from_stack pages
           false (fget swapped w =? 1) (fget physical_frame_number w) pde
  else read_page faultaddress memSize fileSize offset permission rw from_stack pages true false 0 pde.

(** ** segmentation.c: whether the fault kills the process. *)

Definition in_region (bottom top a : Z) : bool := (bottom <=? a) && (a <=? top).
Definition segmentation_handler (faultaddress faulttype heap_start stacktop segment1_top segment1_bottom
    segment2_top segment2_bottom : Z) : bool :=
  if in_region segment1_bottom segment1_top faultaddress then faulttype =? VM_FAULT_READONLY
  else if in_region segment2_bottom segment2_top faultaddress then faulttype =? VM_FAULT_READONLY
  else if in_region heap_start stacktop faultaddress then faulttype =? VM_FAULT_READONLY
  else true.

(** ** addrspace.c *)

Definition get_as (p : Z) : V addrspace :=
  m ← gets vm_as; lift (res_of_option FUndef (m !! p)).
Definition put_as (p : Z) (a : addrspace) : V unit := modify (λ s, set_as (<[p := a]> (vm_as s)) s).

Definition as_create : V Z :=
  p ← vkmalloc ADDRSPACE_SIZE;
  if p =? NULL then mret NULL
  else _ ← put_as p as_zero; mret p.

(** The fields [as_copy] takes over. *)
Definition as_inherit (old new : addrspace) : addrspace :=
  AS (as_vbase1 old) (as_pbase1 new) (as_npages1 old) (as_vbase2 old) (as_pbase2 new) (as_npages2 old)
     (as_stackpbase new) (as_permission1 old) (as_permission2 old)
     (as_segmentSize1 old) (as_segmentSize1_refine old) (as_segmentSize2 old) (as_segmentSize2_refine old)
     (as_offset1 old) (as_offset2 old) (as_filez1 old) (as_filez2 old) (as_progname new) (as_v new).

(** The inner loop of [as_copy]: every page of one table is copied into a new frame. *)
Definition copy_table (pte pte_new : Z) : V unit :=
  mfor (Z.to_nat PAGE_TABLE_ENTRY_NUM) 0 (λ j _,
    w ← vload (u32 (pte + 4 * j));
    if fget exist w =? 1 then
      let find_phy_frame := PADDR_TO_KVADDR (fget physical_frame_number w) in
      paddr ← vkmalloc PAGE_SIZE;
      bytes ← get_page find_phy_frame;
      _ ← put_page paddr bytes;
      _ ← put_field physical_frame_number pte_new j paddr;
      _ ← put_field global pte_new j (fget global w);
      _ ← put_field valid pte_new j (fget valid w);
      _ ← put_field nocache pte_new j (fget nocache w);
      _ ← put_field exist pte_new j (fget exist w);
      put_field writable pte_new j (fget writable w)
    else mret tt) tt.

(** The test after the allocation looks at [pte], which has not been set in the first round; [pte]
    starts with whatever the stack holds, [junk]. *)
Definition as_copy (junk old old_pd new_pd : Z) : V (Z * Z) :=
  new ← as_create;
  if new =? NULL then mret (ENOMEM, NULL)
  else
    o ← get_as old;
    n ← get_as new;
    _ ← put_as new (as_inherit o n);
    r ← mfor (Z.to_nat PAGE_TABLE_ENTRY_NUM) 0 (λ i r,
      match r with
      | inr code => mret (inr code)
      | inl pte =>
          x ← get_field pd_exist old_pd i;
          if x =? 1 then
            pte_new ← vkmalloc (PAGE_TABLE_ENTRY_NUM * 4);
            if pte =? NULL then mret (inr ENOMEM)
            else
              _ ← put_field addr_page_table new_pd i pte_new;
              _ ← put_field pd_exist new_pd i x;
              t ← get_field addr_page_table old_pd i;
              let pte := PADDR_TO_KVADDR t in
              _ ← copy_table pte pte_new;
              mret (inl pte)
          else mret (inl pte)
      end) (inl junk);
    match r with
    | inr code => mret (code, NULL)
    | inl _ => mret (0, new)
    end.

Definition as_destroy (p : Z) : V unit :=
  pd ← gets vm_pd;
  _ ← mfor (Z.to_nat PAGE_TABLE_ENTRY_NUM) 0 (λ i _,
    x ← get_field pd_exist pd i;
    if x =? 1 then
      t ← get_field addr_page_table pd i;
      let pt := PADDR_TO_KVADDR t in
      _ ← mfor (Z.to_nat PAGE_TABLE_ENTRY_NUM) 0 (λ j _,
            w ← vload (u32 (pt + 4 * j));
            if fget exist w =? 1 then
              _ ← vkfree (PADDR_TO_KVADDR (fget physical_frame_number w));
              _ ← put_field physical_frame_number pt j 0;
              _ ← put_field exist pt j 0;
              _ ← put_field global pt j 0;
              _ ← put_field valid pt j 0;
              _ ← put_field writable pt j 0;
              put_field nocache pt j 0
            else mret tt) tt;
      _ ← put_field pd_exist pd i 0;
      _ ← put_field addr_page_table pd i 0;
      vkfree pt
    else mret tt) tt;
  _ ← vkfree p;
  modify (λ s, set_as (delete p (vm_as s)) s).

Definition as_activate (p : Z) : V unit :=
  spl ← splhigh_;
  _ ← mfor 64 0 (λ i _, TLB_Set (u32 (Z.shiftl (0x80000 + i) 12)) 0 i) tt;
  splx_ spl.

(** [namelen] is the length of [progname]; [strcpy] into the block of 20 bytes runs over its end
    when the name does not fit, and faults when there is no block. *)
Definition as_define_region (p vaddr sz offset v file_size protectionFlag namelen : Z) : V Z :=
  let origi_sz := sz in
  let sz := u32 (sz + Z.land vaddr (u32 (Z.lnot PAGE_FRAME))) in
  let vaddr := Z.land vaddr PAGE_FRAME in
  let sz := Z.land (u32 (sz + PAGE_SIZE - 1)) PAGE_FRAME in
  let npages := sz / PAGE_SIZE in
  name ← vkmalloc 20;
  if (name =? NULL) || (20 <? namelen + 1) then fault_ FUndef
  else
    a ← get_as p;
    let a := AS (as_vbase1 a) (as_pbase1 a) (as_npages1 a) (as_vbase2 a) (as_pbase2 a) (as_npages2 a)
      (as_stackpbase a) (as_permission1 a) (as_permission2 a) (as_segmentSize1 a) (as_segmentSize1_refine a)
      (as_segmentSize2 a) (as_segmentSize2_refine a) (as_offset1 a) (as_offset2 a) (as_filez1 a) (as_filez2 a)
      name v in
    if as_vbase1 a =? 0 then
      _ ← put_as p (AS vaddr (as_pbase1 a) npages (as_vbase2 a) (as_pbase2 a) (as_npages2 a) (as_stackpbase a)
            protectionFlag (as_permission2 a) origi_sz sz (as_segmentSize2 a) (as_segmentSize2_refine a)
            offset (as_offset2 a) file_size (as_filez2 a) name v);
      mret 0
    else if as_vbase2 a =? 0 then
      _ ← put_as p (AS (as_vbase1 a) (as_pbase1 a) (as_npages1 a) vaddr (as_pbase2 a) npages (as_stackpbase a)
            (as_permission1 a) protectionFlag (as_segmentSize1 a) (as_segmentSize1_refine a) origi_sz sz
            (as_offset1 a) offset (as_filez1 a) file_size name v);
      mret 0
    else _ ← put_as p a; mret EUNIMP.

Definition as_set_bases (b1 b2 st : Z) (a : addrspace) : addrspace :=
  AS (as_vbase1 a) b1 (as_npages1 a) (as_vbase2 a) b2 (as_npages2 a) st (as_permission1 a) (as_permission2 a)
     (as_segmentSize1 a) (as_segmentSize1_refine a) (as_segmentSize2 a) (as_segmentSize2_refine a)
     (as_offset1 a) (as_offset2 a) (as_filez1 a) (as_filez2 a) (as_progname a) (as_v a).

Definition as_prepare_load (p : Z) : V Z :=
  a ← get_as p;
  _ ← asrt (as_pbase1 a =? 0);
  _ ← asrt (as_pbase2 a =? 0);
  _ ← asrt (as_stackpbase a =? 0);
  b1 ← frames (as_npages1 a) 1;
  _ ← put_as p (as_set_bases b1 0 0 a);
  if b1 =? 0 then mret ENOMEM
  else
    b2 ← frames (as_npages2 a) 1;
    _ ← put_as p (as_set_bases b1 b2 0 a);
    if b2 =? 0 then mret ENOMEM
    else
      st ← frames DUMBVM_STACKPAGES 1;
      _ ← put_as p (as_set_bases b1 b2 st a);
      if st =? 0 then mret ENOMEM else mret 0.

Definition as_complete_load (p : Z) : V Z := mret 0.

(** The code and the stack pointer. *)
Definition as_define_stack (p : Z) : V (Z * Z) := mret (0, USERSTACK).

(** [Some code], or [None] when the process is killed: [segmentation_handler] frees its id and
    calls [thread_exit], which does not return.  [result] is not set when no branch is taken. *)
Definition vm_fault (rnd faulttype faultaddress : Z) : V (option Z) :=
  spl ← splhigh_;
  let faultaddress := Z.land faultaddress PAGE_FRAME in
  if negb ((faulttype =? VM_FAULT_READONLY) || (faulttype =? VM_FAULT_READ) || (faulttype =? VM_FAULT_WRITE)) then
    _ ← splx_ spl; mret (Some EINVAL)
  else
    let rw := if faulttype =? VM_FAULT_READ then UIO_READ else UIO_WRITE in
    space ← gets vm_space;
    if space =? NULL then mret (Some EFAULT)
    else
      a ← get_as space;
      let heap_start := u32 (as_vbase2 a + as_segmentSize2_refine a) in
      let stacktop := USERSTACK in
      let segment1_top := u32 (as_vbase1 a + u32 (as_npages1 a * PAGE_SIZE)) in
      let segment2_top := u32 (as_vbase2 a + u32 (as_npages2 a * PAGE_SIZE)) in
      if segmentation_handler faultaddress faulttype heap_start stacktop segment1_top (as_vbase1 a)
           segment2_top (as_vbase2 a)
      then mret None
      else
        pd ← gets vm_pd;
        '(result, tlb_lo) ←
          (if (heap_start <=? faultaddress) && (faultaddress <? stacktop) then
             tlb_handling faultaddress (as_segmentSize1 a) (as_filez1 a) (as_offset1 a) (as_permission1 a) rw
               true (s32 (as_npages1 a)) pd
           else if (as_vbase1 a <=? faultaddress) && (faultaddress <? segment1_top) then
             tlb_handling faultaddress (as_segmentSize1 a) (as_filez1 a) (as_offset1 a) (as_permission1 a) rw
               false (s32 (as_npages1 a)) pd
           else if (as_vbase2 a <=? faultaddress) && (faultaddress <? segment2_top) then
             tlb_handling faultaddress (as_segmentSize2 a) (as_filez2 a) (as_offset2 a) (as_permission2 a) rw
               false (s32 (as_npages2 a)) pd
           else fault_ FUndef);
        if negb (result =? 0) then mret (Some result)
        else
          i ← TLB_Probe faultaddress tlb_lo;
          _ ← TLB_Set faultaddress tlb_lo (if i >=? 0 then i else rnd);
          _ ← splx_ spl;
          mret (Some 0).

(** ** sys_sbrk.c: the code and [*old_break], [None] where it is not set. *)

Definition sbrk (amount : Z) : V (Z * option Z) :=
  space ← gets vm_space;
  a ← get_as space;
  let heap_start := u32 (as_vbase2 a + as_segmentSize2_refine a) in
  let heap_end := heap_start in
  if u32 (heap_end + amount) <? heap_start then mret (EINVAL, None)
  else if u32 (heap_start + amount) >=? HEAP_TOP then mret (ENOMEM, None)
  else if amount =? 0 then mret (0, Some heap_end)
  else if amount mod 4 =? 0 then mret (0, Some heap_end)
  else mret (0, None).
End vm.
