(* ===== verification/VmSpec.v ===== *)
(** * Page tables

    Bit fields, the memory of page tables, and what a page fault on the stack or the heap leaves:
    the page is mapped to a frame nobody else has, and a later TLB miss on it finds the entry the
    fault installed.  The frame number has 20 bits and receives an address, so this needs physical
    memory of at most one megabyte. *)

From S2P Require Import Prelude StateM Heap Coremap Kheap KheapInv Uio Sfs Vm.

(** ** Bit fields *)

Lemma bf_get_set pos len v w : 0 ≤ pos → 0 ≤ len → bf_get pos len (bf_set pos len v w) = v mod 2 ^ len.
Proof.
  intros Hp Hl. unfold bf_get, bf_set. rewrite Z.land_ones by done. apply Z.bits_inj'. intros n Hn.
  destruct (decide (n < len)) as [Hlt|Hge].
  - rewrite !Z.mod_pow2_bits_low by lia. rewrite Z.shiftr_spec, Z.lor_spec, Z.ldiff_spec, !Z.shiftl_spec by lia.
    replace (n + pos - pos) with n by lia. rewrite Z.ones_spec_low by lia. rewrite Z.land_spec, Z.ones_spec_low by lia.
    by rewrite andb_false_r, andb_true_r.
  - by rewrite !Z.mod_pow2_bits_high by lia.
Qed.

Lemma bf_get_other pos len pos' len' v w :
  0 ≤ pos → 0 ≤ len → 0 ≤ pos' → 0 ≤ len' → pos + len ≤ pos' ∨ pos' + len' ≤ pos →
  bf_get pos len (bf_set pos' len' v w) = bf_get pos len w.
Proof.
  intros Hp Hl Hp' Hl' Hd. unfold bf_get, bf_set. apply Z.bits_inj'. intros n Hn.
  rewrite !Z.land_spec. destruct (decide (n < len)) as [Hlt|Hge]; [|by rewrite !Z.ones_spec_high, !andb_false_r by lia].
  rewrite Z.ones_spec_low, !andb_true_r by lia.
  rewrite !Z.shiftr_spec, Z.lor_spec, Z.ldiff_spec, !Z.shiftl_spec by lia.
  assert (Z.testbit (Z.ones len') (n + pos - pos') = false) as Ho.
  { destruct (decide (n + pos - pos' < 0)) as [Hneg|Hpos]; [by apply Z.testbit_neg_r|].
    apply Z.ones_spec_high. lia. }
  rewrite Z.land_spec, Ho. simpl. by rewrite andb_true_r, andb_false_r, orb_false_r.
Qed.

Definition apart (d d' : field) : Prop :=
  0 ≤ fd_pos d ∧ 0 ≤ fd_len d ∧ 0 ≤ fd_pos d' ∧ 0 ≤ fd_len d' ∧
  (fd_pos d + fd_len d ≤ fd_pos d' ∨ fd_pos d' + fd_len d' ≤ fd_pos d).

Lemma fget_same d v w : 0 ≤ fd_pos d → 0 ≤ fd_len d → fget d (fset d v w) = v mod 2 ^ fd_len d.
Proof. apply bf_get_set. Qed.
Lemma fget_other d d' v w : apart d d' → fget d (fset d' v w) = fget d w.
Proof. intros (? & ? & ? & ? & ?). by apply bf_get_other. Qed.

(** Read a field through assignments to the others. *)
Ltac fields :=
  repeat first
    [ rewrite fget_same by (simpl; lia)
    | rewrite fget_other by (unfold apart; simpl; lia) ].

(** ** An entry *)

(** The word [set_entry] leaves where [w] was. *)
Definition entry_word (p_addr write w : Z) : Z :=
  fset writable (if negb (write =? 0) then 1 else 0) (fset swapped 0 (fset exist 1 (fset nocache 0
    (fset valid 1 (fset global 0 (fset physical_frame_number p_addr w)))))).

#[local] Strategy opaque [fset].

(** The low half of the TLB entry of a mapped page. *)
Definition tlb_word (pa write : Z) : Z :=
  Z.lor (Z.lor pa (if negb (write =? 0) then TLBLO_DIRTY else TLBLO_NO_WRITE)) TLBLO_VALID.

Lemma entry_exists p_addr write w : fget exist (entry_word p_addr write w) = 1.
Proof. unfold entry_word. by fields. Qed.

Lemma entry_frame p_addr write w : fget physical_frame_number (entry_word p_addr write w) = p_addr mod 2 ^ 20.
Proof. unfold entry_word. by fields. Qed.

Lemma entry_present p_addr write w :
  present_entry (entry_word p_addr write w) = tlb_word (p_addr mod 2 ^ 20) write.
Proof.
  unfold present_entry. rewrite entry_frame. unfold entry_word, tlb_word, TLBLO_DIRTY, TLBLO_NO_WRITE, TLBLO_VALID.
  fields. destruct (negb (write =? 0)); rewrite <- (Z.lor_assoc (p_addr mod 2 ^ 20)); reflexivity.
Qed.

Lemma kva_low s c : 0 ≤ frame_paddr s c < 2 ^ 20 → kva s c mod 2 ^ 20 = frame_paddr s c.
Proof.
  intros Hc. unfold kva, MIPS_KSEG0. replace 0x80000000 with (2048 * 2 ^ 20) by lia.
  rewrite Z.mod_add by lia. by apply Z.mod_small.
Qed.

Lemma second_range va : 0 ≤ EXTRACT_PAGE_TABLE va < 1024.
Proof.
  unfold EXTRACT_PAGE_TABLE. rewrite Z.shiftr_land. change (Z.shiftr SECOND_PAGE_TABLE 12) with (Z.ones 10).
  rewrite Z.land_ones by lia. apply Z.mod_pos_bound. lia.
Qed.
Lemma first_range va : 0 ≤ EXTRACT_PAGE_DIRECTORY va < 1024.
Proof.
  unfold EXTRACT_PAGE_DIRECTORY. rewrite Z.shiftr_land. change (Z.shiftr FIRST_PAGE_TABLE 22) with (Z.ones 10).
  rewrite Z.land_ones by lia. apply Z.mod_pos_bound. lia.
Qed.

(** ** The memory of the machine *)

(** Steps towards a fault. *)
Lemma bind_ok {S A B} (m : stm S A) (k : A → stm S B) s a s' r :
  m s = Ok (a, s') → k a s' = r → (m ≫= k) s = r.
Proof. intros Hm Hk. unfold mbind, stm_bind. by rewrite Hm. Qed.
Lemma bind_fault {S A B} (m : stm S A) (k : A → stm S B) s e : m s = Fault e → (m ≫= k) s = Fault e.
Proof. intros Hm. unfold mbind, stm_bind. by rewrite Hm. Qed.

Section spec.
Context {D : Type} `{PageIO D}.
Variable U : usermem.
Variable ram0 : Z → Z.
Implicit Types s : vmst D.

Abbreviation cm s := (kh_cm (vm_h s)).
Definition mem s (a : Z) : Z := default (ram0 a) (kmem (cm s) !! a).
Definition vput (a v : Z) s : vmst D := set_h (kstore (vm_h s) a v) s.
Definition with_cm (c : cmstate) s : vmst D := set_h (kh_set_cm (vm_h s) c) s.

Lemma mem_vput a v s b : mem (vput a v s) b = if decide (b = a) then v else mem s b.
Proof.
  unfold mem, vput. simpl. destruct (decide (b = a)) as [->|Hne].
  - by rewrite lookup_insert_eq.
  - by rewrite lookup_insert_ne.
Qed.

Lemma vload_ok a s Φ : Φ (mem s a) s → wps (vload ram0 a) s Φ.
Proof. done. Qed.

Lemma get_field_ok d base i s Φ :
  Φ (fget d (mem s (u32 (base + 4 * i)))) s → wps (get_field ram0 d base i) s Φ.
Proof. intros HΦ. unfold get_field. rewrite wps_bind. by apply vload_ok. Qed.

Lemma put_field_ok d base i v s Φ :
  Φ tt (vput (u32 (base + 4 * i)) (fset d v (mem s (u32 (base + 4 * i)))) s) → wps (put_field ram0 d base i v) s Φ.
Proof. intros HΦ. unfold put_field. rewrite wps_bind. by apply vload_ok. Qed.

Lemma vput_vput a v v' s : vput a v' (vput a v s) = vput a v' s.
Proof.
  unfold vput, kstore. destruct s as [h]. unfold set_h. simpl. f_equal. unfold kh_set_cm, cm_set_kmem. simpl.
  by rewrite insert_insert_eq.
Qed.

(** A second assignment to the same word. *)
Lemma put_field_again d base i v w s Φ :
  Φ tt (vput (u32 (base + 4 * i)) (fset d v w) s) →
  wps (put_field ram0 d base i v) (vput (u32 (base + 4 * i)) w s) Φ.
Proof. intros HΦ. apply put_field_ok. by rewrite mem_vput, decide_True, vput_vput. Qed.

Lemma set_entry_ok pte i p_addr write s Φ :
  Φ tt (vput (u32 (pte + 4 * i)) (entry_word p_addr write (mem s (u32 (pte + 4 * i)))) s) → wps (set_entry ram0 pte i p_addr write) s Φ.
Proof.
  intros HΦ. unfold set_entry. rewrite wps_bind. apply put_field_ok.
  do 5 (rewrite wps_bind; apply put_field_again).
  apply put_field_again. exact HΦ.
Qed.

(** Word [i] of the page at [p]. *)
Definition word (p i : Z) : Z := p + 4 * i.

Lemma word_inj x c c' i j :
  0 ≤ i < 1024 → 0 ≤ j < 1024 → word (kva x c) i = word (kva x c') j → c = c' ∧ i = j.
Proof. unfold word, kva, frame_paddr, PAGE_SIZE. lia. Qed.

Lemma upd_ce_ok i g s e Φ :
  0 ≤ i → coremap (cm s) !! Z.to_nat i = Some e →
  Φ tt (with_cm (cm_set_coremap (cm s) (<[Z.to_nat i := g e]> (coremap (cm s)))) s) → wps (upd_ce i g) s Φ.
Proof.
  intros Hi He HΦ. pose proof (lookup_lt_Some _ _ _ He) as Hlt. unfold upd_ce. wps_step. rewrite wps_lift.
  apply wp_getz; [lia|]. intros e' He'. rewrite He in He'. simplify_eq. rewrite wps_bind, wps_lift.
  apply wp_setz; [lia|]. by wps_step.
Qed.

(** ** Frames *)

(** The coremap is consistent with the blocks [A], and physical memory ends below one megabyte. *)
Record vm_ok s (A : gmap Z Z) : Prop := VmOk {
  vo_cm : cm_inv (cm s) A;
  vo_spl : spl_ok (cm s);
  vo_meg : base_coremap_page (cm s) + num_coremap_entries (cm s) ≤ 256;
}.

Lemma frame_low s A c : vm_ok s A → 0 ≤ c < num_coremap_entries (cm s) → 0 < frame_paddr (cm s) c ≤ 2 ^ 20 - 4096.
Proof.
  intros [((Hb & _ & _) & _) _ Hm] Hc. unfold frame_paddr, PAGE_SIZE. lia.
Qed.

Lemma owned_frame s A c : vm_ok s A → A !! c = Some 1 → 0 ≤ c < num_coremap_entries (cm s).
Proof. intros [(_ & _ & (Hb & _) & _) _ _] Hc. destruct (Hb c 1 Hc) as (? & ? & ?). lia. Qed.

Lemma getppages_takes_one kernel c0 pa c1 :
  getppages 1 kernel c0 = Ok (pa, c1) → pa ≠ 0 → num_coremap_free c1 = u32 (num_coremap_free c0 - 1).
Proof.
  unfold getppages, coremapAllocateOneFrame. simpl. destruct (num_coremap_free c0 =? 0); [by intros [= <- <-]|].
  destruct (for_loop _ _ _ _) as [r|]; [|done]. simpl. destruct (getz _ _); [|done]. simpl.
  destruct (setz _ _ _); [|done]. simpl. destruct (_ =? INVALID_PADDR); by intros [= <- <-].
Qed.

Definition took s A (c : Z) c1 : Prop :=
  0 ≤ c < num_coremap_entries (cm s) ∧ A !! c = None ∧ vm_ok (with_cm c1 s) (<[c := 1]> A) ∧
  same_but_frames (cm s) c1 ∧ num_coremap_free c1 = num_coremap_free (cm s) - 1.

Lemma getppages_ok s A kernel :
  vm_ok s A → 0 < num_coremap_free (cm s) →
  wp (getppages 1 kernel (cm s)) (λ '(pa, c1), ∃ c, pa = frame_paddr (cm s) c ∧ took s A c c1).
Proof.
  intros Hv Hfree. pose proof Hv as [Hinv Hspl Hm].
  pose proof (getppages_one (cm s) A kernel Hinv Hspl) as Hg. apply wp_exists in Hg as ([pa c1] & Hg & Hpost).
  apply wp_exists. exists (pa, c1). split; [done|].
  destruct Hpost as [(Hz & _)|(c & Hc & -> & Hne & HA & _ & Hinv' & Hsame)]; [lia|]. exists c. split; [done|].
  pose proof (getppages_takes_one _ _ _ _ Hg Hne) as Hn. pose proof Hsame as (Hk & Hsp & Hie & Hb & Hnum).
  split; [done|]. split; [done|]. split; [|split; [done|]].
  - constructor; simpl; [done|unfold spl_ok; by rewrite Hsp, Hie|by rewrite Hb, Hnum].
  - rewrite Hn, u32_id; [done|]. destruct Hinv as ((Hb0 & Hlen & Hb2) & Hfr & _). unfold is_u32.
    pose proof (n_free_bounds (coremap (cm s))). lia.
Qed.

Lemma frames_ok s A :
  vm_ok s A → 0 < num_coremap_free (cm s) →
  wps (frames 1 0) s (λ pa s', ∃ c c1, pa = frame_paddr (cm s) c ∧ s' = with_cm c1 s ∧ took s A c c1).
Proof.
  intros Hv Hfree. unfold frames. rewrite wps_zoom. eapply wp_mono; [by apply (getppages_ok s A)|].
  intros [pa c1] (c & -> & Ht). by exists c, c1.
Qed.

Lemma kv_of_frame s A c : vm_ok s A → 0 ≤ c < num_coremap_entries (cm s) →
  PADDR_TO_KVADDR (frame_paddr (cm s) c) = kva (cm s) c ∧ KVADDR_TO_PADDR (kva (cm s) c) = frame_paddr (cm s) c ∧
  0 < kva (cm s) c ∧ kva (cm s) c + PAGE_SIZE < 2 ^ 32.
Proof.
  intros Hv Hc. pose proof (frame_low s A c Hv Hc) as Hl. unfold PADDR_TO_KVADDR, KVADDR_TO_PADDR, kva, MIPS_KSEG0, PAGE_SIZE in *.
  rewrite !u32_id by in_range. lia.
Qed.

Lemma vkmalloc_page s A :
  vm_ok s A → 0 < num_coremap_free (cm s) →
  wps (vkmalloc ram0 (PAGE_TABLE_ENTRY_NUM * 4)) s (λ a s', ∃ c c1, a = kva (cm s) c ∧ s' = with_cm c1 s ∧ took s A c c1).
Proof.
  intros Hv Hfree. unfold vkmalloc. simpl. change (u32 (u32 (4096 + PAGE_SIZE) - 1) / PAGE_SIZE) with 1.
  rewrite wps_bind, wps_zoom. unfold alloc_kpages. wp_call (getppages_ok s A); [done|done|].
  intros [pa c1] (c & -> & Ht). destruct Ht as (Hc & Ht). destruct (kv_of_frame s A c Hv Hc) as (-> & _ & Hpos & _).
  pose proof (frame_low s A c Hv Hc). replace (frame_paddr (cm s) c =? 0) with false by lia. wp_val.
  replace (kva (cm s) c =? 0) with false by lia. wps_step. by exists c, c1.
Qed.

(** ** Noting the use of a frame *)

(** A change of an entry that leaves the allocation state alone. *)
Definition same_alloc (g : coremap_entry → coremap_entry) : Prop :=
  ∀ e, selfAddr (g e) = selfAddr e ∧ pageState (g e) = pageState e ∧ startAddr (g e) = startAddr e ∧
    ce_length (g e) = ce_length e.

Lemma n_free_insert l (i : nat) e e' :
  l !! i = Some e → pageState e' = pageState e → n_free (<[i := e']> l) = n_free l.
Proof.
  intros Hi Hp. pose proof (lookup_lt_Some _ _ _ Hi). rewrite insert_take_drop by done.
  rewrite <- (take_drop_middle l i e Hi) at 3. unfold n_free. rewrite !filter_app, !length_app, !filter_cons, Hp.
  by destruct (decide _).
Qed.

Lemma touch_vm s A i g e :
  vm_ok s A → same_alloc g → coremap (cm s) !! i = Some e →
  vm_ok (with_cm (cm_set_coremap (cm s) (<[i := g e]> (coremap (cm s)))) s) A.
Proof.
  intros [(Hsh & Hfr & Hbl & Hfo) Hspl Hm] Hg He. constructor; [|done|done].
  destruct Hsh as (Hb & Hn & Hm2). destruct (Hg e) as (G1 & G2 & G3 & G4).
  split; [unfold cm_shape; simpl; by rewrite length_insert|]. simpl.
  split; [by rewrite (n_free_insert _ _ e)|]. split; [done|].
  intros j x. destruct (decide (j = i)) as [->|Hne].
  - rewrite list_lookup_insert_eq by (by eapply lookup_lt_Some). intros [= <-]. destruct (Hfo i e He) as [Hs Hf].
    rewrite G1. split; [done|]. unfold frame_ok in *. by rewrite G1, G2, G3, G4.
  - rewrite list_lookup_insert_ne by done. apply Hfo.
Qed.

Lemma vput_vm s A a v : vm_ok s A → vm_ok (vput a v s) A.
Proof. by intros [? ? ?]. Qed.

(** ** Mapping a page *)

Abbreviation first va := (EXTRACT_PAGE_DIRECTORY va).
Abbreviation second va := (EXTRACT_PAGE_TABLE va).
Abbreviation pdw s cpd va := (word (kva (cm s) cpd) (first va)).
Abbreviation ptw s ct va := (word (kva (cm s) ct) (second va)).

Lemma word_u32 s A c i :
  vm_ok s A → 0 ≤ c < num_coremap_entries (cm s) → 0 ≤ i < 1024 →
  u32 (kva (cm s) c + 4 * i) = word (kva (cm s) c) i.
Proof.
  intros Hv Hc Hi. destruct (kv_of_frame s A c Hv Hc) as (_ & _ & ? & ?). 
  apply u32_id. unfold is_u32, word, PAGE_SIZE in *. lia.
Qed.

(** In the directory of frame [cpd] the page of [va] has its entry, [w], in the table of frame [ct]. *)
Definition mapped s (cpd ct va w : Z) : Prop :=
  fget pd_exist (mem s (pdw s cpd va)) = 1 ∧
  fget addr_page_table (mem s (pdw s cpd va)) = frame_paddr (cm s) ct ∧ mem s (ptw s ct va) = w.

(** What changes in memory when a page is mapped: the two words. *)
Definition map_frame s cpd ct va s' : Prop :=
  base_coremap_page (cm s') = base_coremap_page (cm s) ∧
  num_coremap_entries (cm s') = num_coremap_entries (cm s) ∧
  num_coremap_free (cm s') = num_coremap_free (cm s) ∧
  ∀ a, a ≠ ptw s ct va → a ≠ pdw s cpd va → mem s' a = mem s a.

Definition map_rest (p_addr va write pte pde : Z) : stm (vmst D) Z :=
  _ ← set_entry ram0 pte (second va) p_addr write;
  ppn ← coremap_index (KVADDR_TO_PADDR p_addr);
  _ ← upd_ce ppn (ce_set_map va pte pde);
  _ ← put_field ram0 addr_page_table pde (first va) pte;
  _ ← put_field ram0 pd_exist pde (first va) 1;
  mret 0.

Lemma map_rest_spec s A c cpd ct va write :
  vm_ok s A → A !! c = Some 1 → A !! cpd = Some 1 → A !! ct = Some 1 → ct ≠ cpd →
  wps (map_rest (kva (cm s) c) va write (kva (cm s) ct) (kva (cm s) cpd)) s (λ r s', r = 0 ∧ vm_ok s' A ∧
    mapped s' cpd ct va (entry_word (kva (cm s) c) write (mem s (ptw s ct va))) ∧ map_frame s cpd ct va s').
Proof.
  intros Hv Hc Hcpd Hct Hne. pose proof (owned_frame _ _ _ Hv Hc) as Rc. pose proof (owned_frame _ _ _ Hv Hcpd) as Rpd.
  pose proof (owned_frame _ _ _ Hv Hct) as Rt. pose proof (first_range va) as R1. pose proof (second_range va) as R2.
  unfold map_rest. rewrite wps_bind. apply set_entry_ok. rewrite (word_u32 s A) by done.
  set (w := entry_word _ _ _). set (s1 := vput _ w s).
  rewrite wps_bind. unfold coremap_index. wps_step. change (cm s1) with (cm (vput (ptw s ct va) w s)).
  destruct (kv_of_frame s A c Hv Rc) as (_ & -> & _ & _).
  change (PADDR_TO_COREMAP (cm (vput (ptw s ct va) w s)) (frame_paddr (cm s) c)) with (PADDR_TO_COREMAP (cm s) (frame_paddr (cm s) c)).
  rewrite frame_of_paddr by (done || apply Hv).
  destruct (lookup_lt_is_Some_2 (coremap (cm s)) (Z.to_nat c)) as [e He].
  { destruct (vo_cm _ _ Hv) as ((_ & Hn & _) & _). lia. }
  apply (upd_ce_ok _ _ s1 e); [lia|done|]. set (s2 := with_cm _ _).
  assert (vm_ok s2 A) as Hv2 by (apply (touch_vm s1 A); [by apply vput_vm|done|done]).
  rewrite wps_bind. apply put_field_ok. rewrite (word_u32 s A) by done.
  rewrite wps_bind. rewrite <- (word_u32 s A cpd (first va)) at 1 by done.
  pose proof (put_field_again pd_exist (kva (cm s) cpd) (first va) 1) as Hag.
  rewrite (word_u32 s A cpd (first va)) in Hag by done. rewrite (word_u32 s A cpd (first va)) by done.
  apply Hag. wps_step. split; [done|]. split; [by apply vput_vm|].
  assert (ptw s ct va ≠ pdw s cpd va) as Hdiff by (intros Hx; apply word_inj in Hx as [? _]; done).
  assert (∀ a, mem s2 a = mem s1 a) as Hm2 by done.
  split.
  - split; [|split].
    + rewrite mem_vput, decide_True by done. by fields.
    + rewrite mem_vput, decide_True by done. fields. pose proof (frame_low s A ct Hv Rt).
      transitivity (frame_paddr (cm s) ct); [apply kva_low; lia|done].
    + rewrite mem_vput, decide_False by done. rewrite Hm2. unfold s1. by rewrite mem_vput, decide_True.
  - split; [done|]. split; [done|]. split; [done|]. intros a H1 H2. rewrite mem_vput, decide_False by done.
    rewrite Hm2. unfold s1. by rewrite mem_vput, decide_False.
Qed.

Lemma kva_base c0 c1 c :
  base_coremap_page c1 = base_coremap_page c0 → kva c1 c = kva c0 c ∧ frame_paddr c1 c = frame_paddr c0 c.
Proof. intros Hb. unfold kva, frame_paddr. by rewrite Hb. Qed.

(** Where the page table is: a new frame, or the one the directory names. *)
Definition has_table s (A : gmap Z Z) cpd va (alloc : bool) : Prop :=
  if alloc then 0 < num_coremap_free (cm s)
  else ∃ ct, A !! ct = Some 1 ∧ ct ≠ cpd ∧ fget addr_page_table (mem s (pdw s cpd va)) = frame_paddr (cm s) ct.

(** The page of [va] is mapped to frame [c], with a page table of the directory's own. *)
Definition page_at s (A : gmap Z Z) cpd va c write : Prop :=
  vm_ok s A ∧ A !! c = Some 1 ∧ A !! cpd = Some 1 ∧ ∃ ct w0, A !! ct = Some 1 ∧ ct ≠ cpd ∧
    mapped s cpd ct va (entry_word (kva (cm s) c) write w0).

Lemma map_page_table_spec s A c cpd va flag alloc :
  vm_ok s A → A !! c = Some 1 → A !! cpd = Some 1 → has_table s A cpd va alloc →
  wps (map_page_table ram0 (kva (cm s) c) va flag alloc (kva (cm s) cpd)) s (λ r s', r = 0 ∧
    base_coremap_page (cm s') = base_coremap_page (cm s) ∧
    ∃ A', A ⊆ A' ∧ page_at s' A' cpd va c (Z.land flag PF_W)).
Proof.
  intros Hv Hc Hpd Ht. unfold map_page_table. rewrite wps_bind. destruct alloc; simpl in Ht.
  - eapply wps_mono; [by apply (vkmalloc_page s A)|]. intros a s1 (ct & c1 & -> & -> & Hr & HA & Hv1 & Hsame & _).
    destruct (kv_of_frame s A ct Hv Hr) as (_ & _ & Hpos & _). unfold NULL.
    replace (kva (cm s) ct =? 0) with false by lia. simpl andb. cbv iota.
    destruct Hsame as (_ & _ & _ & Hb & _). assert (∀ x, kva (cm s) x = kva (cm (with_cm c1 s)) x) as Hk.
    { intros x. symmetry. by apply kva_base. }
    rewrite !Hk. assert (c ≠ ct ∧ cpd ≠ ct) as [Hx Hy] by (split; congruence).
    eapply wps_mono; [apply (map_rest_spec (with_cm c1 s) (<[ct := 1]> A) c cpd ct va (Z.land flag PF_W));
      [done|by rewrite lookup_insert_ne|by rewrite lookup_insert_ne|by rewrite lookup_insert_eq|done]|].
    intros r s2 (-> & Hv2 & Hm2 & Hb2 & _). split; [done|]. split; [by rewrite Hb2|]. exists (<[ct := 1]> A).
    split; [by apply insert_subseteq|]. split; [done|]. split; [by rewrite lookup_insert_ne|].
    split; [by rewrite lookup_insert_ne|]. destruct (kva_base (cm (with_cm c1 s)) (cm s2) c Hb2) as [-> _].
    eexists ct, _. split; [by rewrite lookup_insert_eq|]. split; [done|exact Hm2].
  - destruct Ht as (ct & Hct & Hne & Hent). pose proof (owned_frame _ _ _ Hv Hct) as Rt.
    pose proof (owned_frame _ _ _ Hv Hpd) as Rpd. rewrite wps_bind. apply get_field_ok.
    rewrite (word_u32 s A) by (done || apply first_range). rewrite Hent. wps_step.
    destruct (kv_of_frame s A ct Hv Rt) as (-> & _ & _ & _). simpl andb. cbv iota.
    eapply wps_mono; [by apply (map_rest_spec s A c cpd ct va (Z.land flag PF_W))|].
    intros r s2 (-> & Hv2 & Hm2 & Hb2 & _). split; [done|]. split; [done|]. exists A. split; [done|]. split; [done|].
    split; [done|]. split; [done|]. destruct (kva_base (cm s) (cm s2) c Hb2) as [-> _]. by eexists ct, _.
Qed.

(** ** The next miss *)

(** Only the use bits of the coremap change. *)
Definition use_noted s s' : Prop :=
  ∃ i ref dirt e, coremap (cm s) !! i = Some e ∧
    s' = with_cm (cm_set_coremap (cm s) (<[i := ce_set_use ref dirt e]> (coremap (cm s)))) s.

Lemma tlb_hit_spec s A cpd va c write memSize fileSize offset permission rw from_stack pages :
  page_at s A cpd va c write →
  wps (tlb_handling U ram0 va memSize fileSize offset permission rw from_stack pages (kva (cm s) cpd)) s
    (λ '(r, lo) s', r = 0 ∧ lo = tlb_word (frame_paddr (cm s) c) write ∧ use_noted s s').
Proof.
  intros (Hv & Hc & Hpd & ct & w0 & Hct & Hne & Hx & Ha & Hw).
  pose proof (owned_frame _ _ _ Hv Hc) as Rc. pose proof (owned_frame _ _ _ Hv Hct) as Rt.
  pose proof (owned_frame _ _ _ Hv Hpd) as Rpd. pose proof (frame_low s A c Hv Rc) as Hlow.
  unfold tlb_handling. rewrite wps_bind. apply get_field_ok. rewrite (word_u32 s A) by (done || apply first_range).
  rewrite Hx. cbn [Z.eqb Pos.eqb]. rewrite wps_bind. apply get_field_ok.
  rewrite (word_u32 s A) by (done || apply first_range). rewrite Ha.
  destruct (kv_of_frame s A ct Hv Rt) as (-> & _ & _ & _). rewrite wps_bind.
  rewrite (word_u32 s A) by (done || apply second_range). apply vload_ok. rewrite Hw, entry_exists. cbn [Z.eqb Pos.eqb].
  rewrite wps_bind. unfold tlb_hit. rewrite entry_frame, entry_present, kva_low by lia.
  unfold coremap_index. wps_step. rewrite frame_of_paddr by (done || apply Hv).
  destruct (lookup_lt_is_Some_2 (coremap (cm s)) (Z.to_nat c)) as [e He].
  { destruct (vo_cm _ _ Hv) as ((_ & Hn & _) & _). lia. }
  unfold get_ce. wps_step. rewrite wps_lift. apply wp_getz; [apply lookup_lt_Some in He; lia|].
  intros e' He'. rewrite He in He'. simplify_eq. rewrite wps_bind. apply (upd_ce_ok _ _ s e'); [lia|done|].
  wps_step. split; [done|]. split; [done|]. by eexists _, _, _, e'.
Qed.

(** ** A fault on the stack or the heap *)

Definition absent s (A : gmap Z Z) cpd va : Prop :=
  fget pd_exist (mem s (pdw s cpd va)) ≠ 1 ∨
  (fget pd_exist (mem s (pdw s cpd va)) = 1 ∧ ∃ ct, A !! ct = Some 1 ∧ ct ≠ cpd ∧
     fget addr_page_table (mem s (pdw s cpd va)) = frame_paddr (cm s) ct ∧ fget exist (mem s (ptw s ct va)) ≠ 1).

Lemma read_page_spec s A cpd va memSize fileSize offset permission rw pages alloc swap swap_index :
  vm_ok s A → A !! cpd = Some 1 → 2 ≤ num_coremap_free (cm s) →
  (alloc = false → has_table s A cpd va false) →
  wps (read_page U ram0 va memSize fileSize offset permission rw true pages alloc swap swap_index (kva (cm s) cpd)) s
    (λ '(r, lo) s', r = 0 ∧ base_coremap_page (cm s') = base_coremap_page (cm s) ∧
      ∃ c A', A !! c = None ∧ A ⊆ A' ∧ page_at s' A' cpd va c PF_W ∧ lo = tlb_word (frame_paddr (cm s) c) PF_W).
Proof.
  intros Hv Hpd Hfree Htab. unfold read_page. rewrite wps_bind. eapply wps_mono; [apply (frames_ok s A); [done|lia]|].
  intros pa s1 (c & c1 & -> & -> & Hr & HA & Hv1 & (Hk1 & _ & _ & Hb1 & Hn1) & Hf1).
  destruct (kv_of_frame s A c Hv Hr) as (-> & Hback & Hpos & _). replace (kva (cm s) c =? 0) with false by lia.
  wps_step. unfold coremap_index. wps_step. rewrite Hback. simpl (cm (with_cm c1 s)).
  assert (frame_paddr (cm s) c = frame_paddr c1 c) as Hfp by (symmetry; by apply kva_base).
  rewrite Hfp, frame_of_paddr; [|apply (vo_cm _ _ Hv1)|by rewrite Hn1].
  destruct (lookup_lt_is_Some_2 (coremap c1) (Z.to_nat c)) as [e He].
  { destruct (vo_cm _ _ Hv1) as ((_ & Hn & _) & _). simpl in Hn. lia. }
  apply (upd_ce_ok _ _ (with_cm c1 s) e); [lia|done|]. set (s2 := with_cm (cm_set_coremap _ _) _).
  assert (vm_ok s2 (<[c := 1]> A)) as Hv2 by (by apply (touch_vm (with_cm c1 s))).
  assert (∀ x, kva (cm s) x = kva (cm s2) x) as Hk by (intros x; symmetry; by apply kva_base).
  assert (∀ a, mem s2 a = mem s a) as Hm by (intros a; unfold mem; simpl; by rewrite Hk1).
  assert (cpd ≠ c) as Hne by congruence.
  rewrite wps_bind, !Hk. eapply wps_mono; [apply (map_page_table_spec s2 (<[c := 1]> A) c cpd)|].
  - done.
  - by rewrite lookup_insert_eq.
  - by rewrite lookup_insert_ne.
  - destruct alloc; simpl; [lia|]. destruct (Htab eq_refl) as (ct & Hct & Hx & Hent). exists ct.
    rewrite lookup_insert_ne by congruence. split; [done|]. split; [done|]. rewrite Hm. rewrite <- Hk.
    rewrite Hent. symmetry. by apply kva_base.
  - intros r s3 (-> & Hb3 & A' & Hsub & Hpage). wps_step. split; [done|]. split; [rewrite Hb3; simpl; done|].
    exists c, A'. split; [done|]. split; [etrans; [by apply (insert_subseteq A c 1)|done]|]. split; [done|].
    unfold tlb_word. simpl. by rewrite Hfp.
Qed.

Lemma stack_fault_spec s A cpd va memSize fileSize offset permission rw pages :
  vm_ok s A → A !! cpd = Some 1 → 2 ≤ num_coremap_free (cm s) → absent s A cpd va →
  wps (tlb_handling U ram0 va memSize fileSize offset permission rw true pages (kva (cm s) cpd)) s
    (λ '(r, lo) s', r = 0 ∧ base_coremap_page (cm s') = base_coremap_page (cm s) ∧
      ∃ c A', A !! c = None ∧ A ⊆ A' ∧ page_at s' A' cpd va c PF_W ∧ lo = tlb_word (frame_paddr (cm s) c) PF_W).
Proof.
  intros Hv Hpd Hfree Habs. pose proof (owned_frame _ _ _ Hv Hpd) as Rpd. unfold tlb_handling.
  rewrite wps_bind. apply get_field_ok. rewrite (word_u32 s A) by (done || apply first_range).
  destruct Habs as [Hno|(Hyes & ct & Hct & Hne & Hent & Hex)].
  - replace (fget pd_exist _ =? 1) with false by lia. by apply (read_page_spec s A).
  - rewrite Hyes. cbn [Z.eqb Pos.eqb]. pose proof (owned_frame _ _ _ Hv Hct) as Rt.
    rewrite wps_bind. apply get_field_ok. rewrite (word_u32 s A) by (done || apply first_range). rewrite Hent.
    destruct (kv_of_frame s A ct Hv Rt) as (-> & _ & _ & _). rewrite wps_bind.
    rewrite (word_u32 s A) by (done || apply second_range). apply vload_ok.
    replace (fget exist _ =? 1) with false by lia. apply (read_page_spec s A); try done. intros _. by exists ct.
Qed.

(** ** A fault when no frame is free *)

Lemma upd_ce_outside i g s : zlen (coremap (cm s)) ≤ i → upd_ce i g s = Fault FUndef.
Proof.
  intros Hi. unfold upd_ce. eapply bind_ok; [done|]. apply bind_fault. unfold lift, getz.
  rewrite lookup_ge_None_2 by lia. by destruct (0 <=? i).
Qed.

Lemma read_page_full s A pde va memSize fileSize offset permission rw from_stack pages alloc swap swap_index :
  vm_ok s A → num_coremap_free (cm s) = 0 →
  read_page U ram0 va memSize fileSize offset permission rw from_stack pages alloc swap swap_index pde s = Fault FUndef.
Proof.
  intros [((Hb & Hn & Hm2) & _) _ Hm] Hfree. unfold read_page.
  eapply (bind_ok _ _ _ 0 (with_cm (splhigh (cm s)).2 s)).
  { unfold frames, zoom, getppages, coremapAllocateOneFrame. simpl. by rewrite Hfree. }
  change (PADDR_TO_KVADDR 0 =? 0) with false. cbv iota zeta.
  eapply bind_ok; [reflexivity|]. eapply bind_ok; [reflexivity|].
  apply bind_fault, upd_ce_outside. simpl.
  unfold PADDR_TO_COREMAP. change (KVADDR_TO_PADDR (PADDR_TO_KVADDR 0) / PAGE_SIZE) with 0. simpl. unfold u32.
  rewrite <- (Z.mod_add _ 1) by lia. rewrite Z.mod_small; lia.
Qed.

Lemma fault_full s A cpd va memSize fileSize offset permission rw from_stack pages :
  vm_ok s A → A !! cpd = Some 1 → num_coremap_free (cm s) = 0 → absent s A cpd va →
  tlb_handling U ram0 va memSize fileSize offset permission rw from_stack pages (kva (cm s) cpd) s = Fault FUndef.
Proof.
  intros Hv Hpd Hfree Habs. pose proof (owned_frame _ _ _ Hv Hpd) as Rpd. unfold tlb_handling.
  eapply (bind_ok _ _ _ (fget pd_exist (mem s (pdw s cpd va)))).
  { unfold get_field. rewrite (word_u32 s A) by (done || apply first_range). done. }
  destruct Habs as [Hno|(Hyes & ct & Hct & Hne & Hent & Hex)].
  - replace (fget pd_exist _ =? 1) with false by lia. by eapply read_page_full.
  - rewrite Hyes. cbn [Z.eqb Pos.eqb]. pose proof (owned_frame _ _ _ Hv Hct) as Rt.
    eapply (bind_ok _ _ _ (frame_paddr (cm s) ct)).
    { unfold get_field. rewrite (word_u32 s A) by (done || apply first_range). rewrite <- Hent. done. }
    destruct (kv_of_frame s A ct Hv Rt) as (-> & _ & _ & _).
    rewrite (word_u32 s A) by (done || apply second_range). eapply (bind_ok _ _ _ (mem s (ptw s ct va))); [done|].
    replace (fget exist _ =? 1) with false by lia. by eapply read_page_full.
Qed.
End spec.

(** * What the page tables guarantee, and where the pager goes wrong *)

From S2P Require Import Prelude StateM Heap Coremap Kheap KheapInv Uio SfsDisk Sfs SfsBytes Vm.

Section thm.
Context {D : Type} `{PageIO D}.
Variable U : usermem.
Variable ram0 : Z → Z.
Implicit Types s : vmst D.

(** C28: The two ways of building a TLB entry agree, on a machine with at most one megabyte of physical
    memory ([vo_meg]) and with two free frames left.  A fault on a stack or heap page that is not
    mapped takes a frame that nobody has and installs the entry of that frame, writable; the very
    next miss on the page, whatever its kind, finds the same entry in the page table, and notes
    the use of the frame. *)
Theorem tlb_refill_agrees s A cpd va memSize fileSize offset permission rw pages :
  vm_ok s A → A !! cpd = Some 1 → 2 ≤ num_coremap_free (kh_cm (vm_h s)) → absent ram0 s A cpd va →
  wps (tlb_handling U ram0 va memSize fileSize offset permission rw true pages (kva (kh_cm (vm_h s)) cpd)) s
    (λ '(r, lo) s1, r = 0 ∧
      (∃ c, A !! c = None ∧ lo = tlb_word (frame_paddr (kh_cm (vm_h s)) c) PF_W) ∧
      ∀ memSize' fileSize' offset' permission' rw' from_stack pages',
        wps (tlb_handling U ram0 va memSize' fileSize' offset' permission' rw' from_stack pages'
               (kva (kh_cm (vm_h s)) cpd)) s1 (λ '(r', lo') s2, r' = 0 ∧ lo' = lo ∧ use_noted s1 s2)).
Proof.
  intros Hv Hpd Hfree Habs. eapply wps_mono; [by apply (stack_fault_spec U ram0 s A cpd va)|].
  intros [r lo] s1 (-> & Hb & c & A' & HA & Hsub & Hpage & ->). split; [done|]. split; [by exists c|].
  intros memSize' fileSize' offset' permission' rw' from_stack pages'.
  destruct (kva_base (kh_cm (vm_h s)) (kh_cm (vm_h s1)) cpd Hb) as [<- _].
  destruct (kva_base (kh_cm (vm_h s)) (kh_cm (vm_h s1)) c Hb) as [_ <-].
  by apply (tlb_hit_spec U ram0 s1 A' cpd va c PF_W).
Qed.

(** C39: When no frame is free a page fault does not evict a page: the test for a failed allocation
    looks at the address after the kernel offset has been added, which is not 0, and the handler
    goes on to frame 0 of physical memory and writes outside the coremap. *)
Theorem fault_without_memory_is_undefined s A cpd va memSize fileSize offset permission rw from_stack pages :
  vm_ok s A → A !! cpd = Some 1 → num_coremap_free (kh_cm (vm_h s)) = 0 → absent ram0 s A cpd va →
  tlb_handling U ram0 va memSize fileSize offset permission rw from_stack pages (kva (kh_cm (vm_h s)) cpd) s =
  Fault FUndef.
Proof. apply fault_full. Qed.
End thm.

(** ** A small machine *)

Module VmDemo.
(** A program file and a swap device, each an array of bytes; a transfer stops at its end. *)
Record files := Files { f_prog : list Z; f_swap : list Z }.

Definition noumem : usermem.
Proof. refine (UserMem 0 (λ _ _, None) _). done. Defined.

Definition byte_io (dat : list Z) (u : uio) : res (Z * uio * list Z) :=
  let n := Z.max 0 (Z.min (uio_resid u) (zlen dat - uio_offset u)) in
  '(r, buf, u') ← uiomove noumem (sub dat (uio_offset u) n) 0 n u;
  mret (r, u', splice dat (uio_offset u) buf).

#[export] Instance files_io : PageIO files := {|
  prog_open := λ _ d, Ok (0, d);
  prog_io := λ _ u d, '(r, u', b) ← byte_io (f_prog d) u; mret (r, u', Files b (f_swap d));
  swap_io := λ u d, '(r, u', b) ← byte_io (f_swap d) u; mret (r, u', Files (f_prog d) b);
|}.

(** A process with one program page at 0x400000, readable and writable, filled with sevens on disk. *)
Definition space : addrspace :=
  AS 0x400000 0 1 0x10000000 0 1 0 6 6 4096 4096 4096 4096 0 4096 4096 4096 77 0.
Definition program : list Z := replicate 4096 7.

(** The first frame holds the page directory. *)
Definition cm1 : cmstate := match coremapAllocateOneFrame 1 1 boot_state with Ok (_, s) => s | Fault _ => boot_state end.
Definition machine : vmst files :=
  VM (kheap_init cm1) (replicate 64 (0x80000000, 0)) 0 0 0 {[500 := space]} 500 (kva cm1 0) (Files program []).
Definition ram : Z → Z := λ _, 0.

Lemma cm1_inv : cm_inv cm1 {[0 := 1]}.
Proof.
  assert (coremapAllocateOneFrame 1 1 boot_state = Ok (45056, cm1)) as Ha by (by vm_compute).
  pose proof (wp_inv _ _ _ (coremapAllocateOneFrame_spec boot_state ∅ 1 (cm_reach_inv _ _ boot_state_reach)) Ha) as
    [(Hz & _)|(c & _ & Hpa & _ & _ & _ & Hinv & _)]; [by vm_compute in Hz|].
  assert (c = 0) as -> by (unfold frame_paddr, PAGE_SIZE in Hpa; change (base_coremap_page boot_state) with 11 in Hpa; lia).
  by rewrite insert_empty in Hinv.
Qed.

Lemma machine_ok : vm_ok machine {[0 := 1]}.
Proof. constructor; [apply cm1_inv|by vm_compute|by vm_compute]. Qed.
End VmDemo.
Import VmDemo.

Lemma tlb_refill_agrees_witness :
  wps (tlb_handling VmDemo.noumem VmDemo.ram 0x7ffff000 0 0 0 0 UIO_WRITE true 1 (kva VmDemo.cm1 0)) VmDemo.machine
    (λ '(r, lo) s1, r = 0 ∧ (∃ c, ({[0 := 1]} : gmap Z Z) !! c = None ∧ lo = tlb_word (frame_paddr VmDemo.cm1 c) PF_W) ∧
      ∀ memSize' fileSize' offset' permission' rw' from_stack pages',
        wps (tlb_handling VmDemo.noumem VmDemo.ram 0x7ffff000 memSize' fileSize' offset' permission' rw' from_stack
               pages' (kva VmDemo.cm1 0)) s1 (λ '(r', lo') s2, r' = 0 ∧ lo' = lo ∧ use_noted s1 s2)).
Proof.
  apply (tlb_refill_agrees VmDemo.noumem VmDemo.ram VmDemo.machine {[0 := 1]} 0 0x7ffff000 0 0 0 0 UIO_WRITE 1).
  - apply VmDemo.machine_ok.
  - apply lookup_singleton_eq.
  - vm_compute. discriminate.
  - left. vm_compute. discriminate.
Defined.

(** The only frame of this machine holds the page directory. *)
Definition full_machine : vmst files :=
  VM (kheap_init full_state) (replicate 64 (0x80000000, 0)) 0 0 0 {[500 := space]} 500 (kva full_state 0) (Files program []).

Lemma fault_without_memory_is_undefined_witness :
  tlb_handling noumem ram 0x7ffff000 0 0 0 0 UIO_WRITE true 1 (kva full_state 0) full_machine = Fault FUndef.
Proof.
  apply (fault_without_memory_is_undefined noumem ram full_machine {[0 := 1]} 0 0x7ffff000 0 0 0 0 UIO_WRITE true 1).
  - constructor; [apply full_state_inv|by vm_compute|by vm_compute].
  - apply lookup_singleton_eq.
  - reflexivity.
  - left. vm_compute. discriminate.
Defined.

(** A write to a program page that is not in memory yet does not load it: the pager passes the
    direction of the faulting access on to the file, so the new, empty frame is written over the
    program and mapped in its place, and the fault is reported as handled. *)
Theorem write_fault_overwrites_program :
  f_prog (vm_dev machine) = replicate 4096 7 ∧
  wps (vm_fault noumem ram 9 VM_FAULT_WRITE 0x400000) machine (λ r s, r = Some 0 ∧
    f_prog (vm_dev s) = replicate 4096 0).
Proof.
  split; [reflexivity|].
  assert (match vm_fault noumem ram 9 VM_FAULT_WRITE 0x400000 machine with
          | Ok (r, s) => (r, f_prog (vm_dev s)) | Fault _ => (None, []) end = (Some 0, replicate 4096 0)) as He
    by (vm_compute; reflexivity).
  unfold wps. destruct (vm_fault _ _ _ _ _ _) as [[r s]|]; [|discriminate He]. simpl. by simplify_eq.
Qed.
