(* ===== verification/MallocVm.v ===== *)
(** * The user heap on this kernel

    malloc with the system call that the kernel implements (kern/userprog/sys_sbrk.c, called from
    mips_syscall).  The kernel computes a new break and forgets it: every call answers the end of the data
    segment.  The library notices, on the second request that has to expand the heap, that the break is
    not where it left it. *)

From S2P Require Import Prelude StateM Heap KArray KBitmap Coremap Kheap KState Thread Process Uio SfsDisk Vm VmSpec Malloc MallocSpec MallocThm.

Section kernel.
Context {D : Type}.
Implicit Types w : vmst D.

(** SYS_sbrk in mips_syscall and the stub of the library: an error code becomes -1, and [old_break] is what the
    call gives back, which is undefined where the kernel did not set it. *)
Definition vm_sbrk (amount : Z) (w : vmst D) (m : words) : res (Z * vmst D * words) :=
  match Vm.sbrk (u32 amount) w with
  | Ok ((err, old_break), w') =>
      if err =? 0 then match old_break with Some b => Ok (b, w', m) | None => Fault FUndef end
      else Ok (SBRK_FAILED, w', m)
  | Fault e => Fault e
  end.

(** The end of the data segment of the running program. *)
Definition heap_start w (h : Z) : Prop :=
  ∃ a, vm_as w !! vm_space w = Some a ∧ h = u32 (as_vbase2 a + as_segmentSize2_refine a).

Lemma vm_sbrk_stays w h n m : heap_start w h → 0 ≤ n → n mod 4 = 0 → h + n < HEAP_TOP → vm_sbrk n w m = Ok (h, w, m).
Proof.
  intros (a & Ha & ->) Hn Hm Hh. unfold vm_sbrk, Vm.sbrk, get_as. pose proof (u32_range (as_vbase2 a + as_segmentSize2_refine a)) as Hr.
  unfold mbind, stm_bind, gets, HEAP_TOP in *. unfold is_u32 in Hr. rewrite Ha. simpl. unfold mret, stm_ret.
  rewrite (u32_id n), (u32_id (u32 _ + n)) by in_range.
  replace (_ <? _) with false by lia. replace (_ >=? _) with false by lia. destruct (n =? 0); [done|]. rewrite Hm. done.
Qed.

(** A request for [n] bytes takes this many with the header. *)
Definition taken_by (n : Z) : Z := 8 * ((n + 7) / 8 + 1).

(** C38: On this kernel a program gets one block: the first request is served, and the second one, since nothing was
    freed, makes malloc find the break where it was before the first and exit with 1. *)
Theorem second_malloc_exits w h (m : words) n1 n2 :
  heap_start w h → 0 < h → h mod 8 = 0 → 0 ≤ n1 → 0 ≤ n2 → h + taken_by n1 < HEAP_TOP → h + taken_by n2 < HEAP_TOP →
  mem_ok h (h + taken_by n1) m →
  wpx (p ← malloc vm_sbrk n1; q ← malloc vm_sbrk n2; mret (p, q)) (Umem 0 0 m w)
    (λ _ _, False) (λ c t, c = 1 ∧ heaptop t = h + taken_by n1).
Proof.
  intros Hw Hh Hal Hn1 Hn2 Hf1 Hf2 Hok. unfold taken_by, HEAP_TOP in *. set (k1 := (n1 + 7) / 8) in *. set (k2 := (n2 + 7) / 8) in *.
  assert (0 ≤ k1 ∧ 8 * k1 < n1 + 8) by (unfold k1; Z.to_euclidean_division_equations; lia).
  assert (n1 ≤ 8 * k1 ∧ n2 ≤ 8 * k2 ∧ 0 ≤ k2) by (unfold k1, k2; Z.to_euclidean_division_equations; lia).
  rewrite wpx_bind. apply (malloc_first vm_sbrk _ _ h); try done; [lia|apply vm_sbrk_stays; done || (unfold HEAP_TOP; lia)|]. simpl.
  assert (heap (λ _, h) (Umem h h m w) []) as Hheap.
  { constructor; simpl; try done; try lia. split; [intros; lia|apply Hok]. }
  apply (malloc_enter vm_sbrk (λ _, h) _ []); [done|lia| |by intros t [] ? ?]. fold k1. intros _.
  apply (new_block_spec vm_sbrk (λ _, h) (λ _, h + 8 * (k1 + 1)) _ [] k1 w m); [done|lia|simpl; lia| |done| |].
  { simpl. apply vm_sbrk_stays; [done|lia|Z.to_euclidean_division_equations; lia|unfold HEAP_TOP; lia]. }
  { destruct Hok as [O1 O2]. split_and!; [intros x Hx Hm; by apply O1|intros x v _ Hv; by apply (O2 x)|done]. }
  simpl. intros t Ht Eb Ew _. rewrite wpx_bind. pose proof (hp_top _ _ _ Ht) as Htop. simpl in Htop.
  apply (malloc_enter vm_sbrk (λ _, h + 8 * (k1 + 1)) t [Block (k1 + 1) true]); [exact Ht|lia| |].
  2: { intros t' l1 n l2 E. destruct l1 as [|? []]; simplify_eq/=. }
  fold k2. intros _. unfold new_block, __malloc_sbrk, MBLOCKSIZE. rewrite !wpx_bind. rewrite (u32_id (8 * k2 + 8)) by in_range.
  unfold call_sbrk at 1. unfold wpx at 1. rewrite s32_id by in_range. rewrite Ew, (vm_sbrk_stays w h) by
    (done || (unfold HEAP_TOP; lia) || (Z.to_euclidean_division_equations; lia)).
  replace (h =? SBRK_FAILED) with false by (unfold SBRK_FAILED; lia). rewrite wpx_bind. apply wpx_guser. simpl heaptop.
  rewrite Htop, Eb. replace (h =? h + (8 * (k1 + 1) + 0)) with false by lia. cbn [negb exit_if]. rewrite wpx_bind, wpx_exit.
  split; [done|]. simpl. lia.
Qed.
End kernel.

(** The program of the small machine, whose data segment ends at 0x10001000. *)
Lemma second_malloc_exits_witness :
  wpx (p ← malloc vm_sbrk 100; q ← malloc vm_sbrk 100; mret (p, q)) (Umem 0 0 (new_words 0x10001000 4096) VmDemo.machine)
    (λ _ _, False) (λ c t, c = 1 ∧ heaptop t = 0x10001000 + taken_by 100).
Proof.
  apply (second_malloc_exits VmDemo.machine 0x10001000 (new_words 0x10001000 4096) 100 100);
    [exists VmDemo.space; split; reflexivity|reflexivity|reflexivity|lia|lia|reflexivity|reflexivity|]. change (taken_by 100) with 112. split.
  - intros x Hx _. rewrite new_words_in by lia. by eexists.
  - intros x v Hv. destruct (decide (0x10001000 ≤ x < 0x10001000 + 4096)) as [Hx|Hx].
    + rewrite new_words_in in Hv by exact Hx. by injection Hv as <-.
    + rewrite new_words_out in Hv by exact Hx. discriminate Hv.
Defined.
