(* ===== verification/Interleave.v ===== *)
(** * Threads that share a state

    A pool of threads over a shared state.  A thread is its local state; [act] is what the next
    statement of a thread does: it waits, panics, or changes the shared state and goes on,
    possibly starting threads.  A run follows a list of choices: which thread goes next, and the
    value it gets should it ask for one (a random number, an error code).  A thread that waits
    or does not exist does nothing when it is chosen.

    The primitives appear by their contracts, which SynchThm proves of thread/synch.c: a thread
    waits in [lock_acquire] while the lock is held and in [P] while the count is zero. *)

From S2P Require Import Prelude.

(** Why a thread panics: a failed assertion, a check of its own, or an error of a routine it called. *)
Inductive why := WAssert | WCheck | WError.

Inductive outcome (L S : Type) : Type :=
| Waits
| Panics (w : why)
| Goes (l : L) (s : S) (new : list L).
Arguments Waits {L S}.
Arguments Panics {L S} w.
Arguments Goes {L S} l s new.

Record pool (L S : Type) : Type := Pool { shared : S; threads : list L }.
Arguments Pool {L S} shared threads.
Arguments shared {L S} p.
Arguments threads {L S} p.

Definition choice : Type := nat * Z.

Section pool.
Context {L S : Type}.
Variable act : Z → L → S → outcome L S.
Implicit Types (p : pool L S) (c : choice) (l : L) (s : S).

Definition pstep c p : pool L S + why :=
  match threads p !! c.1 with
  | None => inl p
  | Some l =>
      match act c.2 l (shared p) with
      | Waits => inl p
      | Panics w => inr w
      | Goes l' s' new => inl (Pool s' (<[c.1 := l']> (threads p) ++ new))
      end
  end.

Fixpoint prun (cs : list choice) p : pool L S + why :=
  match cs with
  | [] => inl p
  | c :: cs => match pstep c p with inl p' => prun cs p' | inr w => inr w end
  end.

Lemma prun_app cs1 cs2 p :
  prun (cs1 ++ cs2) p = match prun cs1 p with inl p' => prun cs2 p' | inr w => inr w end.
Proof. revert p. induction cs1 as [|c cs1 IH]; intros p; [done|]. simpl. destruct (pstep c p); [apply IH|done]. Qed.

(** [to p p']: some run leads from [p] to [p']. *)
Definition to p p' : Prop := ∃ cs, prun cs p = inl p'.

Lemma to_refl p : to p p.
Proof. by exists []. Qed.
Lemma to_trans p1 p2 p3 : to p1 p2 → to p2 p3 → to p1 p3.
Proof. intros [cs1 H1] [cs2 H2]. exists (cs1 ++ cs2). by rewrite prun_app, H1. Qed.
Lemma to_step i r l l' s' p new :
  threads p !! i = Some l → act r l (shared p) = Goes l' s' new →
  to p (Pool s' (<[i := l']> (threads p) ++ new)).
Proof. intros Hl Ha. exists [(i, r)]. unfold prun, pstep. simpl. by rewrite Hl, Ha. Qed.

(** Reaching [Q] step by step, each step bringing the measure down. *)
Lemma to_measure (R Q : pool L S → Prop) (m : pool L S → nat) :
  (∀ p, R p → Q p ∨ ∃ p', to p p' ∧ R p' ∧ (m p' < m p)%nat) →
  ∀ p, R p → ∃ p', to p p' ∧ R p' ∧ Q p'.
Proof.
  intros Hstep p. remember (m p) as n eqn:Hn. revert p Hn. induction (lt_wf n) as [n _ IH]. intros p -> HR.
  destruct (Hstep p HR) as [HQ|(p1 & H1 & HR1 & Hlt)]; [exists p; eauto using to_refl|].
  destruct (IH (m p1) Hlt p1 eq_refl HR1) as (p2 & H2 & HR2 & HQ2). exists p2. eauto using to_trans.
Qed.

(** ** Invariants

    [I] holds of every pool that is reached; a panic only happens for a reason in [W]. *)
Definition safe (I : pool L S → Prop) (W : why → Prop) (r : pool L S + why) : Prop :=
  match r with inl p => I p | inr w => W w end.

Lemma prun_safe (I : pool L S → Prop) (W : why → Prop) :
  (∀ i r l p, I p → threads p !! i = Some l →
     match act r l (shared p) with
     | Waits => True
     | Panics w => W w
     | Goes l' s' new => I (Pool s' (<[i := l']> (threads p) ++ new))
     end) →
  ∀ cs p, I p → safe I W (prun cs p).
Proof.
  intros Hact cs. induction cs as [|[i r] cs IH]; intros p Hp; [done|]. simpl. unfold pstep. simpl.
  destruct (threads p !! i) as [l|] eqn:Hl; [|by apply IH]. specialize (Hact i r l p Hp Hl).
  destruct (act r l (shared p)); [by apply IH|done|by apply IH].
Qed.
End pool.

(** ** Counting threads *)

Section count.
Context {L : Type}.
Implicit Types (P : L → bool) (ls : list L).

Definition count P ls : Z := zlen (filter (λ l, P l = true) ls).

Lemma count_nil P : count P [] = 0.
Proof. done. Qed.
Lemma count_cons P l ls : count P (l :: ls) = Z.b2z (P l) + count P ls.
Proof. unfold count. rewrite filter_cons. destruct (P l); [rewrite decide_True by done|rewrite decide_False by done]; simpl; lia. Qed.
Lemma count_app P ls ls' : count P (ls ++ ls') = count P ls + count P ls'.
Proof. unfold count. rewrite filter_app, length_app. lia. Qed.
Lemma count_nonneg P ls : 0 ≤ count P ls.
Proof. unfold count. lia. Qed.

Lemma count_length P ls : count P ls ≤ zlen ls.
Proof. unfold count. rewrite <- Nat2Z.inj_le. apply length_filter. Qed.

Lemma count_insert P ls i l l' :
  ls !! i = Some l → count P (<[i := l']> ls) = count P ls - Z.b2z (P l) + Z.b2z (P l').
Proof.
  intros Hl. rewrite insert_take_drop by (by eapply lookup_lt_Some).
  pose proof (f_equal (count P) (take_drop_middle ls i l Hl)) as Hd. rewrite count_app, count_cons in *. lia.
Qed.

Lemma count_zero P ls : count P ls = 0 → ∀ i l, ls !! i = Some l → P l = false.
Proof.
  induction ls as [|x ls IH]; intros Hc i l Hl; [done|]. rewrite count_cons in Hc. pose proof (count_nonneg P ls).
  destruct (P x) eqn:Ex; simpl in Hc; [lia|]. destruct i as [|i]; [by injection Hl as ->|]. by apply (IH ltac:(lia) i).
Qed.

Lemma count_pos P ls i l : ls !! i = Some l → P l = true → 1 ≤ count P ls.
Proof.
  intros Hl HP. destruct (decide (count P ls = 0)) as [H0|]; [|pose proof (count_nonneg P ls); lia].
  by rewrite (count_zero P ls H0 i l Hl) in HP.
Qed.

Lemma count_exists P ls : 1 ≤ count P ls → ∃ i l, ls !! i = Some l ∧ P l = true.
Proof.
  induction ls as [|x ls IH]; [done|]. rewrite count_cons. intros Hc. destruct (P x) eqn:Ex; [by exists 0%nat, x|].
  destruct (IH ltac:(simpl in Hc; lia)) as (i & l & ? & ?). by exists (S i), l.
Qed.

Lemma count_none P ls : (∀ i l, ls !! i = Some l → P l = false) → count P ls = 0.
Proof.
  induction ls as [|x ls IH]; intros Hn; [done|]. rewrite count_cons, (Hn 0%nat x), IH; [done| |done].
  intros i l. apply (Hn (S i)).
Qed.

Lemma count_full P ls : (∀ i l, ls !! i = Some l → P l = true) → count P ls = zlen ls.
Proof.
  induction ls as [|x ls IH]; intros Hn; [done|]. rewrite count_cons, (Hn 0%nat x), IH; [simpl; lia| |done].
  intros i l. apply (Hn (S i)).
Qed.

Lemma count_le P Q ls : (∀ i l, ls !! i = Some l → P l = true → Q l = true) → count P ls ≤ count Q ls.
Proof.
  induction ls as [|x ls IH]; intros Hn; [done|]. rewrite !count_cons. specialize (IH (λ i, Hn (S i))).
  specialize (Hn 0%nat x eq_refl). destruct (P x), (Q x); simpl; try lia; by specialize (Hn eq_refl).
Qed.

Lemma count_all P ls : count P ls = zlen ls → ∀ i l, ls !! i = Some l → P l = true.
Proof.
  induction ls as [|x ls IH]; intros Hc i l Hl; [done|]. rewrite count_cons in Hc. simpl in Hc.
  pose proof (count_length P ls).
  destruct (P x) eqn:Ex; simpl in Hc; [|lia]. destruct i as [|i]; [by injection Hl as ->|]. apply (IH ltac:(lia) i l Hl).
Qed.

Lemma count_unique P ls i j l l' :
  count P ls ≤ 1 → ls !! i = Some l → ls !! j = Some l' → P l = true → P l' = true → i = j.
Proof.
  intros Hc Hi Hj Hl Hl'. destruct (decide (i = j)); [done|]. exfalso.
  revert i j l l' Hc Hi Hj Hl Hl' n. induction ls as [|x ls IH]; intros i j l l' Hc Hi Hj Hl Hl' Hne; [done|].
  rewrite count_cons in Hc. destruct i as [|i], j as [|j]; try done; simpl in *.
  - injection Hi as ->. rewrite Hl in Hc. pose proof (count_pos P ls j l' Hj Hl'). simpl in Hc. lia.
  - injection Hj as ->. rewrite Hl' in Hc. pose proof (count_pos P ls i l Hi Hl). simpl in Hc. lia.
  - pose proof (count_nonneg P ls). destruct (P x); simpl in Hc; eapply (IH i j l l'); try done; try lia; congruence.
Qed.
End count.
