(* ===== verification/Stoplight.v ===== *)
(** * Cars at an intersection (kern/asst1/stoplight.c)

    Four regions guarded by a lock each; a car takes the lock of a region, marks the region, and
    lets go of the region before.  A car is a thread that runs the statements of its route one at
    a time, interleaved with the other cars and with the thread that starts them.  Statements
    that touch neither the locks nor the regions are steps without effect, so that cars may be
    preempted there as well. *)

From stdpp Require Import functions.
From S2P Require Import Prelude Interleave.

Inductive dir := dN | dE | dS | dW.
Inductive reg := NW | NE | SW | SE.
Inductive turn := Right | Straight | Left.
Inductive lockid := mutex (d : dir) | lock (r : reg) | approaching (d : dir).

#[export] Instance dir_eq_dec : EqDecision dir.
Proof. solve_decision. Defined.
#[export] Instance reg_eq_dec : EqDecision reg.
Proof. solve_decision. Defined.
#[export] Instance turn_eq_dec : EqDecision turn.
Proof. solve_decision. Defined.
#[export] Instance lockid_eq_dec : EqDecision lockid.
Proof. solve_decision. Defined.

Definition NCARS : Z := 20.

(** [directions]. *)
Definition directions (i : Z) : dir :=
  if i =? 0 then dN else if i =? 1 then dE else if i =? 2 then dS else dW.

(** A line printed by [message]. *)
Record line : Type := Line { msg_nr : Z; carnumber : Z; cardirection : dir; destdirection : dir }.

Definition APPROACHING : Z := 0.
Definition REGION1 : Z := 1.
Definition REGION2 : Z := 2.
Definition REGION3 : Z := 3.
Definition LEAVING : Z := 4.

Record traffic : Type := Traffic {
  region : reg → Z;
  held : lockid → bool;
  CarsWait : Z;
  printed : list line;
}.
Definition set_region (x : reg → Z) (s : traffic) : traffic := Traffic x (held s) (CarsWait s) (printed s).
Definition set_held (x : lockid → bool) (s : traffic) : traffic := Traffic (region s) x (CarsWait s) (printed s).
Definition set_CarsWait (x : Z) (s : traffic) : traffic := Traffic (region s) (held s) x (printed s).
Definition message (m : line) (s : traffic) : traffic := Traffic (region s) (held s) (CarsWait s) (printed s ++ [m]).

(** ** The statements of a car

    [Spin r] is the empty loop [while (region.r == 1)]; [PanicIf r] the test before entering;
    [SkipUnless r n] goes [n] statements on unless the region is taken; [Back n] is a [goto]
    [n] statements back. *)
Inductive stmt :=
| Acquire (l : lockid) | Release (l : lockid)
| Spin (r : reg) | PanicIf (r : reg) | SkipUnless (r : reg) (n : nat) | Back (n : nat) | AssertFree (r : reg)
| Mark (r : reg) (v : Z)
| Message (m : Z) | Print | Clocksleep | V_CarsWait.

(** From the approach to the mark of the first region: [r1] is entered once [rc] is seen free. *)
Definition enter_first (d : dir) (r1 rc : reg) : list stmt :=
  [Acquire (mutex d); Spin rc; Acquire (lock r1); PanicIf r1; SkipUnless rc 3; Release (lock r1); Back 5;
   Mark r1 1; Message REGION1; Release (mutex d); Clocksleep].
(** From region [r1] to region [r2]. *)
Definition enter_second (r1 r2 : reg) : list stmt :=
  [Acquire (lock r2); PanicIf r2; AssertFree r2; Mark r2 1; Message REGION2; Mark r1 0; Release (lock r1); Clocksleep].
Definition enter_third (r2 r3 : reg) : list stmt :=
  [Acquire (lock r3); PanicIf r3; Mark r3 1; Message REGION3; Mark r2 0; Release (lock r2); Clocksleep].
Definition leave (r : reg) : list stmt := [Mark r 0; Message LEAVING; Release (lock r)].

Definition gostraight_N : list stmt := enter_first dN NW SW ++ enter_second NW SW ++ leave SW.
Definition gostraight_S : list stmt := enter_first dS SE NE ++ enter_second SE NE ++ leave NE.
Definition gostraight_W : list stmt := enter_first dW SW SE ++ enter_second SW SE ++ leave SE.
Definition gostraight_E : list stmt := enter_first dE NE NW ++ enter_second NE NW ++ leave NW.
Definition gostraight (d : dir) : list stmt :=
  match d with dN => gostraight_N | dS => gostraight_S | dW => gostraight_W | dE => gostraight_E end.

Definition turnleft_N : list stmt := enter_first dN NW SE ++ enter_second NW SW ++ enter_third SW SE ++ leave SE.
Definition turnleft_S : list stmt := enter_first dS SE NW ++ enter_second SE NE ++ enter_third NE NW ++ leave NW.
Definition turnleft_W : list stmt := enter_first dW SW NE ++ enter_second SW SE ++ enter_third SE NE ++ leave NE.
Definition turnleft_E : list stmt := enter_first dE NE SW ++ enter_second NE NW ++ enter_third NW SW ++ leave SW.
Definition turnleft (d : dir) : list stmt :=
  Print :: match d with dN => turnleft_N | dS => turnleft_S | dW => turnleft_W | dE => turnleft_E end.

Definition right_of (d : dir) (r : reg) : list stmt :=
  [Acquire (mutex d); Release (mutex d); Acquire (lock r); PanicIf r; Message REGION1; Mark r 1; Clocksleep] ++ leave r.
Definition turnright_N : list stmt := right_of dN NW.
Definition turnright_S : list stmt := right_of dS SE.
Definition turnright_W : list stmt := right_of dW SW.
Definition turnright_E : list stmt := right_of dE NE.
Definition turnright (d : dir) : list stmt :=
  match d with dN => turnright_N | dS => turnright_S | dW => turnright_W | dE => turnright_E end.

(** No turn when a car goes back where it came from: the variable is left unset. *)
Definition turnDirectionMaking (d dest : dir) : option turn :=
  match d, dest with
  | dN, dW | dS, dE | dW, dS | dE, dN => Some Right
  | dN, dS | dS, dN | dW, dE | dE, dW => Some Straight
  | dN, dE | dS, dW | dW, dN | dE, dS => Some Left
  | _, _ => None
  end.

(** [approachintersection] once the directions are chosen. *)
Definition approachintersection (d : dir) (t : turn) : list stmt :=
  [Acquire (approaching d); Message APPROACHING; Release (approaching d)] ++
  match t with Right => turnright d | Left => turnleft d | Straight => gostraight d end ++
  [Print; V_CarsWait].

(** ** The threads *)

Record car : Type := Car { c_no : Z; c_dir : dir; c_dest : dir; c_turn : turn; c_pc : nat }.
Definition at_pc (pc : nat) (c : car) : car := Car (c_no c) (c_dir c) (c_dest c) (c_turn c) pc.

(** The thread of [createcars]: creating the objects, the forks, the waiting, the end. *)
Inductive driver := DCreate | DFork (index : Z) | DWait (i : Z) | DDone.

Inductive thread := Driver (d : driver) | Arriving (no : Z) | Heading (no : Z) (d : dir) | Driving (c : car).

Definition flag (b : Z) : bool := b =? 1.

Definition run_stmt (i : stmt) (c : car) (s : traffic) : outcome thread traffic :=
  let at_ pc s := Goes (Driving (at_pc pc c)) s [] in
  let next s := at_ (S (c_pc c)) s in
  match i with
  | Acquire l => if held s l then Waits else next (set_held (<[l := true]> (held s)) s)
  | Release l => next (set_held (<[l := false]> (held s)) s)
  | Spin r => if flag (region s r) then at_ (c_pc c) s else next s
  | PanicIf r => if flag (region s r) then Panics WCheck else next s
  | SkipUnless r n => if flag (region s r) then next s else at_ (c_pc c + n)%nat s
  | Back n => at_ (c_pc c - n)%nat s
  | AssertFree r => if region s r =? 0 then next s else Panics WAssert
  | Mark r v => next (set_region (<[r := v]> (region s)) s)
  | Message m => next (message (Line m (c_no c) (c_dir c) (c_dest c)) s)
  | Print | Clocksleep => next s
  | V_CarsWait => next (set_CarsWait (CarsWait s + 1) s)
  end.

Definition code (c : car) : list stmt := approachintersection (c_dir c) (c_turn c).

(** [createcars]; [r] is what [lock_create] (as NULL or not) and [thread_fork] answer. *)
Definition createcars (r : Z) (d : driver) (s : traffic) : outcome thread traffic :=
  match d with
  | DCreate => if r =? 0 then Goes (Driver (DFork 0)) s [] else Panics WError
  | DFork index =>
      if index <? NCARS then
        if r =? 0 then Goes (Driver (DFork (index + 1))) s [Arriving index] else Panics WError
      else Goes (Driver (DWait 0)) s []
  | DWait i =>
      if i <? NCARS then
        if CarsWait s =? 0 then Waits else Goes (Driver (DWait (i + 1))) (set_CarsWait (CarsWait s - 1) s) []
      else Goes (Driver DDone) s []
  | DDone => Waits
  end.

(** Calling [strcmp] on the unset variable is undefined; it is a failed assertion here. *)
Definition act (r : Z) (t : thread) (s : traffic) : outcome thread traffic :=
  match t with
  | Driver d => createcars r d s
  | Arriving no => Goes (Heading no (directions (r mod 4))) s []
  | Heading no d =>
      let dest := directions (r mod 4) in
      if bool_decide (dest = d) then Goes t s []
      else match turnDirectionMaking d dest with
           | None => Panics WAssert
           | Some tn => Goes (Driving (Car no d dest tn 0)) s []
           end
  | Driving c => match code c !! c_pc c with None => Waits | Some i => run_stmt i c s end
  end.

Definition start : pool thread traffic :=
  Pool (Traffic (λ _, 0) (λ _, false) 0 []) [Driver DCreate].
