(* ===== verification/StoplightThm.v ===== *)
(** * Cars at an intersection: what holds in every run

    A type system for the code of a car: at each statement, the locks it holds, the regions it
    has marked and the last line it printed.  Well-typed cars never meet in a region, whatever
    the interleaving; every route is well typed.  The protocol can deadlock, though. *)

From stdpp Require Import functions.
From S2P Require Import Prelude Interleave Stoplight.

(** ** Types *)

Record ctx : Type := Ctx { x_held : list lockid; x_in : list reg; x_msg : option Z; x_done : bool }.

#[export] Instance ctx_eq_dec : EqDecision ctx.
Proof. solve_decision. Defined.

(** The regions a route goes through, in order, and where a car is that printed [m] last. *)
Definition route (d : dir) (t : turn) : list reg :=
  match d, t with
  | dN, Right => [NW] | dN, Straight => [NW; SW] | dN, Left => [NW; SW; SE]
  | dS, Right => [SE] | dS, Straight => [SE; NE] | dS, Left => [SE; NE; NW]
  | dW, Right => [SW] | dW, Straight => [SW; SE] | dW, Left => [SW; SE; NE]
  | dE, Right => [NE] | dE, Straight => [NE; NW] | dE, Left => [NE; NW; SW]
  end.
Definition place (d : dir) (t : turn) (m : Z) : option reg :=
  if (REGION1 <=? m) && (m <=? REGION3) then route d t !! Z.to_nat (m - REGION1) else None.

Section typing.
Variables (d : dir) (t : turn).

Definition drop_lock (l : lockid) : list lockid → list lockid := filter (λ l', l' ≠ l).
Definition drop_reg (r : reg) : list reg → list reg := filter (λ r', r' ≠ r).

(** The context after a statement. *)
Definition after (i : stmt) (x : ctx) : ctx :=
  match i with
  | Acquire l => Ctx (l :: x_held x) (x_in x) (x_msg x) (x_done x)
  | Release l => Ctx (drop_lock l (x_held x)) (x_in x) (x_msg x) (x_done x)
  | Mark r v => Ctx (x_held x) (if v =? 1 then r :: x_in x else drop_reg r (x_in x)) (x_msg x) (x_done x)
  | Message m => Ctx (x_held x) (x_in x) (Some m) (x_done x)
  | V_CarsWait => Ctx (x_held x) (x_in x) (x_msg x) true
  | _ => x
  end.

(** The contexts along the code: a [SkipUnless] hands its context to its target. *)
Fixpoint flow (skip : option (nat * ctx)) (x : ctx) (code : list stmt) : list ctx :=
  let x := match skip with Some (O, y) => y | _ => x end in
  let skip := match skip with Some (S n, y) => Some (n, y) | _ => None end in
  match code with
  | [] => [x]
  | i :: code => x :: flow (match i with SkipUnless _ n => Some (n - 1, x)%nat | _ => skip end) (after i x) code
  end.

Definition x_place (x : ctx) : option reg := x_msg x ≫= place d t.

(** A marked region, and the region a car was seen in, is locked. *)
Definition ctx_ok (x : ctx) : Prop :=
  Forall (λ r, lock r ∈ x_held x) (x_in x) ∧ match x_place x with Some r => lock r ∈ x_held x | None => True end ∧
  (x_done x = true → x_msg x = Some LEAVING).

Definition stmt_ok (Γ : list ctx) (pc : nat) (x : ctx) (i : stmt) : Prop :=
  match i with
  | Acquire l => l ∉ x_held x ∧ Γ !! S pc = Some (after i x)
  | Release l => l ∈ x_held x ∧ Γ !! S pc = Some (after i x)
  | Spin r => Γ !! S pc = Some x
  | PanicIf r | AssertFree r => lock r ∈ x_held x ∧ r ∉ x_in x ∧ Γ !! S pc = Some x
  | SkipUnless r n => Γ !! S pc = Some x ∧ Γ !! (pc + n)%nat = Some x
  | Back n => Γ !! (pc - n)%nat = Some x
  | Mark r v => ((v = 1 ∧ lock r ∈ x_held x ∧ r ∉ x_in x) ∨ (v = 0 ∧ r ∈ x_in x)) ∧ Γ !! S pc = Some (after i x)
  | Message _ | Print | Clocksleep => Γ !! S pc = Some (after i x)
  | V_CarsWait => x_done x = false ∧ Γ !! S pc = Some (after i x)
  end.

#[export] Instance ctx_ok_dec x : Decision (ctx_ok x).
Proof. unfold ctx_ok. destruct (x_place x); apply _. Defined.
#[export] Instance stmt_ok_dec Γ pc x i : Decision (stmt_ok Γ pc x i).
Proof. destruct i; simpl; apply _. Defined.
End typing.

Definition empty_ctx : ctx := Ctx [] [] None false.
Definition ctxs (d : dir) (t : turn) : list ctx := flow None empty_ctx (approachintersection d t).

Definition typed_at (d : dir) (t : turn) (pc : nat) (x : ctx) : Prop :=
  ctx_ok d t x ∧
  match approachintersection d t !! pc with
  | Some i => stmt_ok (ctxs d t) pc x i
  | None => x = Ctx [] [] (Some LEAVING) true
  end.

#[export] Instance typed_at_dec d t pc x : Decision (typed_at d t pc x).
Proof. unfold typed_at. destruct (approachintersection d t !! pc); apply _. Defined.

(** Every route is well typed: by evaluation. *)
Lemma routes_typed d t pc x : ctxs d t !! pc = Some x → typed_at d t pc x.
Proof.
  assert (Forall (λ '(pc, x), typed_at d t pc x) (zip (seq 0 (length (ctxs d t))) (ctxs d t))) as Hall.
  { destruct d, t; apply (bool_decide_unpack _); vm_compute; done. }
  intros Hx. rewrite Forall_forall in Hall. apply (Hall (pc, x)), list_elem_of_lookup. exists pc.
  apply lookup_zip_with_Some. exists pc, x. split_and!; [done| |done].
  apply lookup_seq. split; [lia|]. by eapply lookup_lt_Some.
Qed.

(** ** The invariant *)

Definition car_ctx (c : car) : ctx := default empty_ctx (ctxs (c_dir c) (c_turn c) !! c_pc c).
Definition ctx_of (t : thread) : ctx := match t with Driving c => car_ctx c | _ => empty_ctx end.
Definition holds (l : lockid) (t : thread) : bool := bool_decide (l ∈ x_held (ctx_of t)).
Definition marks (r : reg) (t : thread) : bool := bool_decide (r ∈ x_in (ctx_of t)).
Definition finished (t : thread) : bool := x_done (ctx_of t).

Definition number (t : thread) : Z :=
  match t with Driver _ => -1 | Arriving no | Heading no _ => no | Driving c => c_no c end.
Definition car_ok (t : thread) : Prop :=
  match t with
  | Driver _ => False
  | Driving c => is_Some (ctxs (c_dir c) (c_turn c) !! c_pc c) ∧ turnDirectionMaking (c_dir c) (c_dest c) = Some (c_turn c)
  | _ => True
  end.

(** The last line a car printed, as the log and as its position tell. *)
Definition last_line (ls : list line) (no : Z) : option line := last (filter (λ m, carnumber m = no) ls).
Definition told (t : thread) : option line :=
  match t with
  | Driving c => (λ m, Line m (c_no c) (c_dir c) (c_dest c)) <$> x_msg (car_ctx c)
  | _ => None
  end.

Definition forked (d : driver) : Z :=
  match d with DCreate => 0 | DFork index => index | _ => NCARS end.
Definition waited (d : driver) : Z :=
  match d with DWait i => i | DDone => NCARS | _ => 0 end.

Record inv (p : pool thread traffic) : Prop := Inv {
  i_cars : ∀ k t, threads p !! S k = Some t →
    number t = Z.of_nat k ∧ car_ok t ∧ last_line (printed (shared p)) (Z.of_nat k) = told t;
  i_lines : ∀ m, m ∈ printed (shared p) → 0 ≤ carnumber m < zlen (threads p) - 1;
  i_driver : ∃ d, threads p !! 0%nat = Some (Driver d) ∧ zlen (threads p) = 1 + forked d ∧ 0 ≤ forked d ≤ NCARS ∧
    waited d ≤ NCARS ∧ 0 ≤ CarsWait (shared p) ∧ count finished (threads p) = CarsWait (shared p) + waited d;
  i_locks : ∀ l, count (holds l) (threads p) = Z.b2z (held (shared p) l);
  i_regs : ∀ r, count (marks r) (threads p) = region (shared p) r;
}.

Lemma start_inv : inv start.
Proof.
  constructor; try done.
  - simpl. intros m Hm. by apply elem_of_nil in Hm.
  - exists DCreate. done.
Qed.

Lemma last_line_snoc ls m no :
  last_line (ls ++ [m]) no = if decide (carnumber m = no) then Some m else last_line ls no.
Proof.
  unfold last_line. rewrite filter_app, filter_cons, filter_nil. case_decide; [apply last_snoc|by rewrite app_nil_r].
Qed.

(** Moving one car. *)
Lemma inv_move p k t t' s' :
  inv p → threads p !! S k = Some t → number t' = number t → car_ok t' →
  (∀ l, Z.b2z (held s' l) = Z.b2z (held (shared p) l) - Z.b2z (holds l t) + Z.b2z (holds l t')) →
  (∀ r, region s' r = region (shared p) r - Z.b2z (marks r t) + Z.b2z (marks r t')) →
  CarsWait (shared p) ≤ CarsWait s' → CarsWait s' = CarsWait (shared p) - Z.b2z (finished t) + Z.b2z (finished t') →
  (printed s' = printed (shared p) ∧ told t' = told t ∨
   ∃ m, printed s' = printed (shared p) ++ [m] ∧ carnumber m = number t ∧ told t' = Some m) →
  inv (Pool s' (<[S k := t']> (threads p) ++ [])).
Proof.
  intros Hi Ht Hno Hok Hl Hr Hge Hw Hp. rewrite app_nil_r. destruct (i_cars _ Hi k t Ht) as (Hk & _ & Hll).
  pose proof (lookup_lt_Some _ _ _ Ht) as Hlt.
  constructor; simpl; rewrite ?length_insert.
  - intros j u Hj. destruct (decide (j = k)) as [->|Hne].
    + rewrite list_lookup_insert_eq in Hj by done. injection Hj as <-. split_and!; [congruence|done|].
      destruct Hp as [[-> ->]|(m & -> & Hm & ->)]; [done|]. rewrite last_line_snoc. by rewrite decide_True by congruence.
    + rewrite list_lookup_insert_ne in Hj by congruence. destruct (i_cars _ Hi j u Hj) as (Hj1 & Hj2 & Hj3).
      split_and!; [done|done|]. destruct Hp as [[-> _]|(m & -> & Hm & _)]; [done|].
      rewrite last_line_snoc, decide_False; [done|]. lia.
  - intros m Hm. destruct Hp as [[Hp _]|(m' & Hp & Hm' & _)]; rewrite Hp in Hm; [by apply Hi|].
    apply elem_of_app in Hm as [Hm| ->%list_elem_of_singleton]; [by apply Hi|]. lia.
  - destruct (i_driver _ Hi) as (d & Hd & H1 & H2 & H3 & H4 & H5). exists d.
    rewrite list_lookup_insert_ne, (count_insert _ _ _ t) by done. split_and!; try done; lia.
  - intros l. rewrite (count_insert _ _ _ t), (i_locks _ Hi l), Hl by done. done.
  - intros r. rewrite (count_insert _ _ _ t), (i_regs _ Hi r), Hr by done. done.
Qed.

Lemma elem_of_drop_lock l l' L : l ∈ drop_lock l' L ↔ l ≠ l' ∧ l ∈ L.
Proof. unfold drop_lock. by rewrite list_elem_of_filter. Qed.
Lemma elem_of_drop_reg r r' L : r ∈ drop_reg r' L ↔ r ≠ r' ∧ r ∈ L.
Proof. unfold drop_reg. by rewrite list_elem_of_filter. Qed.

(** A marked region is locked, so it is marked once. *)
Lemma marked_locked p j t r : inv p → threads p !! j = Some t → marks r t = true → holds (lock r) t = true.
Proof.
  intros Hi Ht E. unfold marks, holds in *. apply bool_decide_eq_true in E.
  destruct t as [| | |c]; simpl in E; try by apply elem_of_nil in E. destruct j as [|j].
  { destruct (i_driver _ Hi) as (d & Hd & _). congruence. }
  destruct (i_cars _ Hi j _ Ht) as (_ & [[y Hy] _] & _). unfold ctx_of, car_ctx in *. rewrite Hy in *. simpl in *.
  destruct (routes_typed _ _ _ _ Hy) as [(Hin & _) _]. apply bool_decide_eq_true. rewrite Forall_forall in Hin. by apply Hin.
Qed.

Lemma count_holds p l : inv p → count (holds l) (threads p) ≤ 1.
Proof. intros Hi. rewrite (i_locks _ Hi). destruct (held (shared p) l); simpl; lia. Qed.
Lemma count_marks p r : inv p → count (marks r) (threads p) ≤ 1.
Proof.
  intros Hi. etrans; [|by apply (count_holds p (lock r))]. apply count_le. intros j t Ht. by apply (marked_locked p j).
Qed.

Section one_car.
Context (p : pool thread traffic) (k : nat) (c : car) (x : ctx).
Hypothesis Hi : inv p.
Hypothesis Hc : threads p !! S k = Some (Driving c).
Hypothesis Hx : ctxs (c_dir c) (c_turn c) !! c_pc c = Some x.

Abbreviation moved pc s' := (Pool s' (<[S k := Driving (at_pc pc c)]> (threads p) ++ [])).

Lemma ctx_here : ctx_of (Driving c) = x.
Proof using Hx. unfold ctx_of, car_ctx. by rewrite Hx. Qed.

Lemma inv_go pc y s' :
  ctxs (c_dir c) (c_turn c) !! pc = Some y →
  (∀ l, Z.b2z (held s' l) = Z.b2z (held (shared p) l) - Z.b2z (bool_decide (l ∈ x_held x)) + Z.b2z (bool_decide (l ∈ x_held y))) →
  (∀ r, region s' r = region (shared p) r - Z.b2z (bool_decide (r ∈ x_in x)) + Z.b2z (bool_decide (r ∈ x_in y))) →
  CarsWait (shared p) ≤ CarsWait s' → CarsWait s' = CarsWait (shared p) - Z.b2z (x_done x) + Z.b2z (x_done y) →
  (printed s' = printed (shared p) ∧ x_msg y = x_msg x ∨
   ∃ m, printed s' = printed (shared p) ++ [Line m (c_no c) (c_dir c) (c_dest c)] ∧ x_msg y = Some m) →
  inv (moved pc s').
Proof using Hi Hc Hx.
  intros Hy Hl Hr Hge Hw Hp. destruct (i_cars _ Hi k _ Hc) as (Hno & [_ Ht] & _).
  apply (inv_move p k (Driving c)); [done|done|done| | | |done| |].
  - split; [by exists y|done].
  - intros l. unfold holds, ctx_of, car_ctx. simpl. rewrite Hx, Hy. apply Hl.
  - intros r. unfold marks, ctx_of, car_ctx. simpl. rewrite Hx, Hy. apply Hr.
  - unfold finished, ctx_of, car_ctx. simpl. by rewrite Hx, Hy.
  - unfold told, car_ctx. simpl. rewrite Hx, Hy. simpl. destruct Hp as [[-> ->]|(m & -> & ->)]; [by left|].
    right. by eexists.
Qed.

Lemma inv_same pc : ctxs (c_dir c) (c_turn c) !! pc = Some x → inv (moved pc (shared p)).
Proof using Hi Hc Hx. intros Hy. eapply inv_go; [done| | | | |by left]; intros; lia. Qed.

(** A locked region that the car has not marked is not marked by any other. *)
Lemma region_free r : lock r ∈ x_held x → r ∉ x_in x → region (shared p) r = 0.
Proof using Hi Hc Hx.
  intros Hl Hr. rewrite <- (i_regs _ Hi r). apply count_none. intros j t Ht.
  destruct (marks r t) eqn:E; [|done]. exfalso.
  assert (j = S k) as ->.
  { apply (count_unique (holds (lock r)) (threads p) j (S k) t (Driving c)); [by apply count_holds|done|done| |].
    - by eapply marked_locked.
    - unfold holds. rewrite ctx_here. by apply bool_decide_eq_true. }
  assert (t = Driving c) as -> by congruence. unfold marks in E. rewrite ctx_here in E. by apply bool_decide_eq_true in E.
Qed.

Lemma acquire_safe l :
  held (shared p) l = false → l ∉ x_held x → ctxs (c_dir c) (c_turn c) !! S (c_pc c) = Some (after (Acquire l) x) →
  inv (moved (S (c_pc c)) (set_held (<[l := true]> (held (shared p))) (shared p))).
Proof using Hi Hc Hx.
  intros E Hl Hy. eapply inv_go; [done| | | | |by left]; simpl; try (intros; lia).
  intros l'. destruct (decide (l' = l)) as [->|Hne].
  - rewrite fn_lookup_insert, E, bool_decide_false, bool_decide_true by (done || constructor). done.
  - rewrite fn_lookup_insert_ne by done.
    rewrite (bool_decide_ext (l' ∈ l :: x_held x) (l' ∈ x_held x)); [lia|]. rewrite elem_of_cons. naive_solver.
Qed.

Lemma release_safe l :
  l ∈ x_held x → ctxs (c_dir c) (c_turn c) !! S (c_pc c) = Some (after (Release l) x) →
  inv (moved (S (c_pc c)) (set_held (<[l := false]> (held (shared p))) (shared p))).
Proof using Hi Hc Hx.
  intros Hl Hy. eapply inv_go; [done| | | | |by left]; simpl; try (intros; lia).
  assert (held (shared p) l = true) as E.
  { pose proof (i_locks _ Hi l) as Hcnt. pose proof (count_pos (holds l) _ _ _ Hc) as Hpos.
    rewrite Hcnt in Hpos. destruct (held (shared p) l); [done|]. simpl in Hpos.
    assert (1 ≤ 0); [|lia]. apply Hpos. unfold holds. rewrite ctx_here. by apply bool_decide_eq_true. }
  intros l'. destruct (decide (l' = l)) as [->|Hne].
  - rewrite fn_lookup_insert, E, bool_decide_true by done.
    rewrite bool_decide_false; [done|]. by intros [? _]%elem_of_drop_lock.
  - rewrite fn_lookup_insert_ne by done.
    rewrite (bool_decide_ext (l' ∈ drop_lock l (x_held x)) (l' ∈ x_held x)); [lia|]. rewrite elem_of_drop_lock. naive_solver.
Qed.

Lemma mark_safe r v :
  (v = 1 ∧ lock r ∈ x_held x ∧ r ∉ x_in x) ∨ (v = 0 ∧ r ∈ x_in x) →
  ctxs (c_dir c) (c_turn c) !! S (c_pc c) = Some (after (Mark r v) x) →
  inv (moved (S (c_pc c)) (set_region (<[r := v]> (region (shared p))) (shared p))).
Proof using Hi Hc Hx.
  intros Hv Hy. eapply inv_go; [done| | | | |by left]; simpl; try (intros; lia).
  intros r'. destruct (decide (r' = r)) as [->|Hne].
  - rewrite fn_lookup_insert. destruct Hv as [(-> & Hl & Hr)|(-> & Hr)]; simpl.
    + rewrite (region_free r Hl Hr), bool_decide_false, bool_decide_true by (done || constructor). done.
    + rewrite (bool_decide_true (r ∈ x_in x)) by done. rewrite (bool_decide_false (r ∈ drop_reg r (x_in x))).
      2: { by intros [? _]%elem_of_drop_reg. }
      rewrite <- (i_regs _ Hi r). pose proof (count_pos (marks r) _ _ _ Hc) as Hpos.
      pose proof (count_marks p r Hi). assert (1 ≤ count (marks r) (threads p)); [|simpl; lia].
      apply Hpos. unfold marks. rewrite ctx_here. by apply bool_decide_eq_true.
  - rewrite fn_lookup_insert_ne by done. destruct Hv as [(-> & Hl & Hr)|(-> & Hr)]; simpl.
    + rewrite (bool_decide_ext (r' ∈ r :: x_in x) (r' ∈ x_in x)); [lia|]. rewrite elem_of_cons. naive_solver.
    + rewrite (bool_decide_ext (r' ∈ drop_reg r (x_in x)) (r' ∈ x_in x)); [lia|]. rewrite elem_of_drop_reg. naive_solver.
Qed.

(** A statement of a well-typed car. *)
Lemma stmt_safe i :
  stmt_ok (ctxs (c_dir c) (c_turn c)) (c_pc c) x i →
  match run_stmt i c (shared p) with
  | Waits => True
  | Panics w => False
  | Goes l' s' new => inv (Pool s' (<[S k := l']> (threads p) ++ new))
  end.
Proof using Hi Hc Hx.
  intros Hok. destruct i as [l|l|r|r|r n|n|r|r v|m| | |]; simpl in *.
  - destruct Hok as [Hl Hy]. destruct (held (shared p) l) eqn:E; [done|]. by apply acquire_safe.
  - destruct Hok as [Hl Hy]. by apply release_safe.
  - destruct (flag (region (shared p) r)); by apply inv_same.
  - destruct Hok as (Hl & Hr & Hy). rewrite (region_free r Hl Hr). by apply inv_same.
  - destruct Hok as [Hy1 Hy2]. destruct (flag (region (shared p) r)); by apply inv_same.
  - by apply inv_same.
  - destruct Hok as (Hl & Hr & Hy). rewrite (region_free r Hl Hr). by apply inv_same.
  - destruct Hok as [Hv Hy]. by apply mark_safe.
  - eapply inv_go; [done| | | | |right; by exists m]; simpl; intros; lia.
  - by apply inv_same.
  - by apply inv_same.
  - destruct Hok as [Hd Hy]. eapply inv_go; [done| | | | |by left]; simpl; rewrite ?Hd; simpl; intros; lia.
Qed.
End one_car.

(** Cars before they start, and the thread that starts them. *)
Lemma chosen_safe p k t t' :
  inv p → threads p !! S k = Some t → number t' = number t → car_ok t' → ctx_of t = empty_ctx → ctx_of t' = empty_ctx →
  told t = None → told t' = None → inv (Pool (shared p) (<[S k := t']> (threads p) ++ [])).
Proof.
  intros Hi Ht Hno Hok Hc Hc' Hl Hl'. apply (inv_move p k t); try done; unfold holds, marks, finished; rewrite ?Hc, ?Hc';
    simpl; try (intros; lia). left. by rewrite Hl, Hl'.
Qed.

Lemma last_line_none ls no : (∀ m, m ∈ ls → carnumber m < no) → last_line ls no = None.
Proof.
  intros Hl. unfold last_line. rewrite filter_none; [done|]. intros m Hm Heq. specialize (Hl m Hm). lia.
Qed.

Lemma inv_drive p d d' s' new :
  inv p → threads p !! 0%nat = Some (Driver d) → region s' = region (shared p) → held s' = held (shared p) →
  printed s' = printed (shared p) → 0 ≤ CarsWait s' → CarsWait s' + waited d' = CarsWait (shared p) + waited d →
  (new = [] ∧ forked d' = forked d ∨ new = [Arriving (forked d)] ∧ forked d' = forked d + 1) →
  0 ≤ forked d' ≤ NCARS → waited d' ≤ NCARS →
  inv (Pool s' (<[0%nat := Driver d']> (threads p) ++ new)).
Proof.
  intros Hi Hd Hr Hl Hp Hge Hw Hnew Hf Hwd.
  destruct (i_driver _ Hi) as (d0 & Hd0 & H1 & H2 & H3 & H4 & H5). assert (d0 = d) as -> by congruence.
  assert (∀ P : thread → bool, P (Driver d) = false → P (Driver d') = false → P (Arriving (forked d)) = false →
    count P (<[0%nat := Driver d']> (threads p) ++ new) = count P (threads p)) as Hcount.
  { intros P HP HP' HPa. rewrite count_app, (count_insert P _ _ (Driver d)), HP, HP' by done.
    destruct Hnew as [[-> _]|[-> _]]; rewrite ?count_cons, ?count_nil, ?HPa; simpl; lia. }
  assert (zlen (<[0%nat := Driver d']> (threads p) ++ new) = 1 + forked d') as Hlen.
  { rewrite length_app, length_insert. destruct Hnew as [[-> ?]|[-> ?]]; simpl; lia. }
  constructor; simpl; rewrite ?Hlen, ?Hr, ?Hl, ?Hp.
  - intros k t Ht. destruct (decide (S k < length (threads p))%nat) as [Hk|Hk].
    + rewrite lookup_app_l in Ht by (by rewrite length_insert). rewrite list_lookup_insert_ne in Ht by done. by apply Hi.
    + destruct Hnew as [[-> _]|[-> _]].
      { rewrite app_nil_r in Ht. apply lookup_lt_Some in Ht. rewrite length_insert in Ht. lia. }
      pose proof (lookup_lt_Some _ _ _ Ht) as Hlt. rewrite length_app, length_insert in Hlt. simpl in Hlt.
      rewrite lookup_app_r, length_insert in Ht by (rewrite length_insert; lia).
      replace (S k - length (threads p))%nat with 0%nat in Ht by lia. injection Ht as <-. simpl.
      split_and!; [lia|done|]. apply last_line_none. intros m Hm. pose proof (i_lines _ Hi m Hm). lia.
  - intros m Hm. pose proof (i_lines _ Hi m Hm). destruct Hnew as [[_ ?]|[_ ?]]; lia.
  - exists d'. rewrite Hcount by done. split_and!; try done; try lia.
    rewrite lookup_app_l by (rewrite length_insert; apply lookup_lt_Some in Hd; lia).
    by rewrite list_lookup_insert_eq by (by eapply lookup_lt_Some).
  - intros l. rewrite Hcount by done. apply Hi.
  - intros r. rewrite Hcount by done. apply Hi.
Qed.

Lemma createcars_safe p r d :
  inv p → threads p !! 0%nat = Some (Driver d) →
  match createcars r d (shared p) with
  | Waits => True
  | Panics w => w = WError
  | Goes t' s' new => inv (Pool s' (<[0%nat := t']> (threads p) ++ new))
  end.
Proof.
  intros Hi Hd. destruct (i_driver _ Hi) as (d0 & Hd0 & H1 & H2 & H3 & H4 & H5). assert (d0 = d) as -> by congruence.
  destruct d as [|index|i|]; simpl in *.
  - destruct (r =? 0); [|done]. apply (inv_drive p DCreate); simpl; (done || auto || lia).
  - destruct (index <? NCARS) eqn:E1; [destruct (r =? 0); [|done]|].
    + apply (inv_drive p (DFork index)); simpl; (done || auto || lia).
    + apply (inv_drive p (DFork index)); simpl; try (done || auto || lia). left. split; [done|]. unfold NCARS in *. lia.
  - destruct (i <? NCARS) eqn:E1; [destruct (CarsWait (shared p) =? 0) eqn:E2; [done|]|].
    + apply (inv_drive p (DWait i)); simpl; (done || auto || lia).
    + apply (inv_drive p (DWait i)); simpl; (done || auto || lia).
  - done.
Qed.

Lemma act_safe p i r t :
  inv p → threads p !! i = Some t →
  match act r t (shared p) with
  | Waits => True
  | Panics w => w = WError
  | Goes t' s' new => inv (Pool s' (<[i := t']> (threads p) ++ new))
  end.
Proof.
  intros Hi Ht. destruct i as [|k].
  { destruct (i_driver _ Hi) as (d & Hd & _). assert (t = Driver d) as -> by congruence. by apply createcars_safe. }
  destruct (i_cars _ Hi k t Ht) as (Hno & Hok & _). destruct t as [d|no|no d|c]; simpl; [done| | |].
  - by apply (chosen_safe p k (Arriving no)).
  - case_bool_decide as Hdd; [by apply (chosen_safe p k (Heading no d))|].
    destruct (turnDirectionMaking d (directions (r mod 4))) as [tn|] eqn:Etn.
    + apply (chosen_safe p k (Heading no d)); try done; destruct d, tn; try done; (split; [by eexists|done]).
    + by destruct d, (directions (r mod 4)).
  - destruct Hok as [[x Hx] Htn]. unfold code. destruct (routes_typed _ _ _ _ Hx) as [_ Hst].
    destruct (approachintersection (c_dir c) (c_turn c) !! c_pc c) as [st|]; [|done].
    pose proof (stmt_safe p k c x Hi Ht Hx st Hst) as Hs. by destruct (run_stmt st c (shared p)).
Qed.

(** ** No collision *)

(** The region the log shows a car in. *)
Definition seen_in (ls : list line) (no : Z) : option reg :=
  m ← last_line ls no; t ← turnDirectionMaking (cardirection m) (destdirection m); place (cardirection m) t (msg_nr m).

Lemma seen_holds p no r :
  inv p → seen_in (printed (shared p)) no = Some r →
  ∃ k t, no = Z.of_nat k ∧ threads p !! S k = Some t ∧ holds (lock r) t = true.
Proof.
  intros Hi Hs. unfold seen_in in Hs. destruct (last_line (printed (shared p)) no) as [m|] eqn:Hl; [|done].
  assert (m ∈ printed (shared p) ∧ carnumber m = no) as [Hm Hno].
  { unfold last_line in Hl. apply last_Some_elem_of, list_elem_of_filter in Hl. tauto. }
  pose proof (i_lines _ Hi m Hm) as Hr. destruct (lookup_lt_is_Some_2 (threads p) (S (Z.to_nat no))) as [t Ht]; [lia|].
  exists (Z.to_nat no), t. split_and!; [lia|done|]. destruct (i_cars _ Hi _ _ Ht) as (_ & Hok & Htold).
  rewrite Z2Nat.id, Hl in Htold by lia. destruct t as [| | |c]; try done. simpl in Htold, Hok.
  destruct Hok as [[x Hx] Htn]. unfold holds, ctx_of, car_ctx in *. rewrite Hx in *. simpl in *.
  destruct (x_msg x) as [m0|] eqn:Hm0; [|done]. simpl in Htold. injection Htold as ->. simpl in Hs. rewrite Htn in Hs. simpl in Hs.
  destruct (routes_typed _ _ _ _ Hx) as [(_ & Hpl & _) _]. unfold x_place in Hpl. rewrite Hm0 in Hpl. simpl in Hpl.
  rewrite Hs in Hpl. by apply bool_decide_eq_true.
Qed.

Lemma inv_no_collision p no no' r :
  inv p → seen_in (printed (shared p)) no = Some r → seen_in (printed (shared p)) no' = Some r → no = no'.
Proof.
  intros Hi H1 H2. destruct (seen_holds _ _ _ Hi H1) as (k & t & -> & Ht & Hl).
  destruct (seen_holds _ _ _ Hi H2) as (k' & t' & -> & Ht' & Hl').
  assert (S k = S k') as Hkk; [|lia].
  by apply (count_unique (holds (lock r)) (threads p) (S k) (S k') t t'); [apply count_holds|..].
Qed.

Lemma inv_all_left p no :
  inv p → threads p !! 0%nat = Some (Driver DDone) → 0 ≤ no < NCARS → msg_nr <$> last_line (printed (shared p)) no = Some LEAVING.
Proof.
  intros Hi Hd Hno. destruct (i_driver _ Hi) as (d & Hd' & Hlen & _ & _ & Hge & Hcnt).
  assert (d = DDone) as -> by congruence. simpl in *.
  destruct (threads p) as [|t0 ts] eqn:Hts; [done|]. simpl in Hd. injection Hd as ->. rewrite count_cons in Hcnt. simpl in *.
  pose proof (count_length finished ts).
  destruct (lookup_lt_is_Some_2 ts (Z.to_nat no)) as [t Ht]; [lia|].
  pose proof (count_all finished ts ltac:(lia) _ _ Ht) as Hfin.
  destruct (i_cars _ Hi (Z.to_nat no) t) as (_ & Hok & Htold); [by rewrite Hts|]. rewrite Z2Nat.id in Htold by lia. rewrite Htold.
  unfold finished in Hfin. destruct t as [| | |c]; try done. simpl in *. destruct Hok as [[x Hx] _].
  unfold car_ctx in *. rewrite Hx in *. simpl in *. destruct (routes_typed _ _ _ _ Hx) as [(_ & _ & Hdone) _].
  by rewrite (Hdone Hfin).
Qed.

(** C18: in every run of [createcars] with its cars, whatever the interleaving and the random
    numbers, no car panics or fails an assertion (only a failed creation or fork stops the
    program), the printed log never shows two cars in one region of the intersection, and once
    [createcars] is about to return all cars have left. *)
Theorem cars_never_collide (cs : list choice) :
  safe (λ p,
    (∀ no no' r, seen_in (printed (shared p)) no = Some r → seen_in (printed (shared p)) no' = Some r → no = no') ∧
    (threads p !! 0%nat = Some (Driver DDone) →
     ∀ no, 0 ≤ no < NCARS → msg_nr <$> last_line (printed (shared p)) no = Some LEAVING))
  (λ w, w = WError) (prun act cs start).
Proof.
  pose proof (prun_safe act inv (λ w, w = WError) (λ i r t p, act_safe p i r t) cs start start_inv) as Hs.
  destruct (prun act cs start) as [p|w]; simpl in *; [|done]. split.
  - intros no no' r. by apply inv_no_collision.
  - intros Hd no Hno. by apply inv_all_left.
Qed.

(** ** Gridlock

    Four cars that go straight, one from each side: each looks at the region after its first one
    before any of them has marked its own. *)

Definition stuck_cars : list thread :=
  [Driving (Car 0 dN dS Straight 14); Driving (Car 1 dW dE Straight 14);
   Driving (Car 2 dS dN Straight 14); Driving (Car 3 dE dW Straight 14)].

Definition gridlock : list choice :=
  replicate 5 (0%nat, 0) ++
  [(1%nat, 0); (1%nat, 2); (2%nat, 3); (2%nat, 1); (3%nat, 2); (3%nat, 0); (4%nat, 1); (4%nat, 3)] ++
  mjoin ((λ i, replicate 8 (i, 0)) <$> [1%nat; 2%nat; 3%nat; 4%nat]) ++
  mjoin ((λ i, replicate 4 (i, 0)) <$> [1%nat; 2%nat; 3%nat; 4%nat]).

Definition stuck (p : pool thread traffic) : Prop :=
  inv p ∧ ∀ j t, stuck_cars !! j = Some t → threads p !! S j = Some t.

Lemma stuck_locked p r : stuck p → held (shared p) (lock r) = true.
Proof.
  intros [Hi Hs]. assert (∃ j t, stuck_cars !! j = Some t ∧ holds (lock r) t = true) as (j & t & Hj & Hh).
  { destruct r; [exists 0%nat|exists 3%nat|exists 1%nat|exists 2%nat]; by eexists. }
  pose proof (count_pos (holds (lock r)) _ _ _ (Hs j t Hj) Hh) as Hc. rewrite (i_locks _ Hi) in Hc.
  by destruct (held (shared p) (lock r)).
Qed.

(** A stuck car is about to take a lock. *)
Lemma stuck_waits r t s j :
  stuck_cars !! j = Some t → (∀ rg, held s (lock rg) = true) → act r t s = Waits.
Proof.
  intros Hj Hh. do 4 (destruct j as [|j]; [injection Hj as <-; cbn; by rewrite Hh|]). done.
Qed.

Lemma act_stuck p i r t :
  stuck p → threads p !! i = Some t →
  match act r t (shared p) with
  | Waits => True
  | Panics w => w = WError
  | Goes t' s' new => stuck (Pool s' (<[i := t']> (threads p) ++ new))
  end.
Proof.
  intros Hst Ht. pose proof Hst as [Hi Hs]. pose proof (act_safe p i r t Hi Ht) as Hsafe.
  destruct (act r t (shared p)) as [|w|t' s' new] eqn:Ea; [done|done|]. split; [done|].
  intros j u Hj. pose proof (Hs j u Hj) as Hu. simpl. destruct (decide (i = S j)) as [->|Hne].
  - assert (t = u) as -> by congruence. rewrite (stuck_waits r u _ j) in Ea; [done|done|]. intros rg. by apply stuck_locked.
  - rewrite lookup_app_l by (rewrite length_insert; by eapply lookup_lt_Some). by rewrite list_lookup_insert_ne.
Qed.

(** C19: the protocol can deadlock.  There is a run of [createcars] after which four cars that go
    straight hold one region each and wait for the next one for ever: whatever runs afterwards,
    [createcars] never gets to its return. *)
Theorem intersection_can_deadlock :
  ∃ p, prun act gridlock start = inl p ∧ (∀ r, held (shared p) (lock r) = true) ∧
    ∀ cs, safe (λ p', threads p' !! 0%nat ≠ Some (Driver DDone)) (λ w, w = WError) (prun act cs p).
Proof.
  pose proof (prun_safe act inv (λ w, w = WError) (λ i r t p, act_safe p i r t) gridlock start start_inv) as Hinv.
  assert (match prun act gridlock start with inl p => take 4 (drop 1 (threads p)) | inr _ => [] end = stuck_cars) as Heq
    by (vm_compute; reflexivity).
  destruct (prun act gridlock start) as [p|w]; [|done].
  assert (stuck p) as Hst.
  { split; [done|]. intros j t Hj. rewrite <- Heq, lookup_take_Some, lookup_drop in Hj. apply Hj. }
  exists p. split_and!; [done|intros r; by apply stuck_locked|]. intros cs.
  pose proof (prun_safe act stuck (λ w, w = WError) (λ i r t p, act_stuck p i r t) cs p Hst) as Hs.
  destruct (prun act cs p) as [p'|w]; simpl in *; [|done]. destruct Hs as [Hi Hcars]. intros Hd.
  pose proof (inv_all_left p' 0 Hi Hd ltac:(done)) as Hleft.
  destruct (i_cars _ Hi 0 _ (Hcars 0%nat _ eq_refl)) as (_ & _ & Htold). change (Z.of_nat 0) with 0 in Htold.
  rewrite Htold in Hleft. vm_compute in Hleft. discriminate Hleft.
Qed.

(** When the cars cross one after the other they all leave. *)
Definition one_by_one : list choice :=
  replicate 22 (0%nat, 0) ++
  mjoin ((λ i, (i, Z.of_nat i) :: (i, Z.of_nat i + 1 + Z.of_nat (i / 4) mod 3) :: replicate 40 (i, 0)) <$> seq 1 20) ++
  replicate 21 (0%nat, 0).

Lemma cars_all_cross :
  match prun act one_by_one start with inl p => threads p !! 0%nat | inr _ => None end = Some (Driver DDone).
Proof. vm_compute. reflexivity. Qed.
