(* ===== verification/Catsem.v ===== *)
(** * Cats and mice (kern/asst1/catsem.c)

    Cats and mice eat from bowls, never at the same time and never two at one bowl.  Each animal
    is a thread that runs the statements of [catsem] or [mousesem] one at a time; the two
    functions are the same but for the names, which [who] stands for.  A statement that touches
    nothing shared, such as printing, is a step without effect. *)

From S2P Require Import Prelude Interleave.

Inductive species := Cat | Mouse.
#[export] Instance species_eq_dec : EqDecision species.
Proof. solve_decision. Defined.

Definition NFOODBOWLS : Z := 2.
Definition NCATS : Z := 6.
Definition NMICE : Z := 2.
Definition NLOOPS : Z := 4.

(** The characters c, m and - in [bowls]. *)
Definition mark (w : species) : Z := match w with Cat => 99 | Mouse => 109 end.
Definition EMPTY : Z := 45.
Definition other (w : species) : species := match w with Cat => Mouse | Mouse => Cat end.

Record kitchen : Type := Kitchen {
  bowls : list Z;
  eating : species → Z;      (* eating_cats_count, eating_mice_count *)
  numbers : species → Z;     (* cat_num_count, mouse_num_count *)
  sem_mutex : Z;
  CatMouseWait : Z;
}.
Definition set_bowls x k := Kitchen x (eating k) (numbers k) (sem_mutex k) (CatMouseWait k).
Definition set_eating (w : species) x k :=
  Kitchen (bowls k) (λ v, if bool_decide (v = w) then x else eating k v) (numbers k) (sem_mutex k) (CatMouseWait k).
Definition set_numbers (w : species) x k :=
  Kitchen (bowls k) (eating k) (λ v, if bool_decide (v = w) then x else numbers k v) (sem_mutex k) (CatMouseWait k).
Definition set_mutex x k := Kitchen (bowls k) (eating k) (numbers k) x (CatMouseWait k).
Definition set_wait x k := Kitchen (bowls k) (eating k) (numbers k) (sem_mutex k) x.

(** ** The statements

    A jump is relative.  [LoopTest n] leaves the loop by going [n] on; [NextRound n] counts and goes
    back to the test.  [IfTaken n] and [IfOthers n] go on when the bowl is taken or the others eat,
    and skip [n] otherwise; [V_back n] is [V(mutex); goto back]. *)
Inductive stmt :=
| P_mutex | V_mutex | V_back (n : nat)
| TakeNumber
| LoopTest (n : nat) | ChooseBowl | CheckBowl | NextRound (n : nat)
| SpinBowl | SpinOthers
| IfTaken (n : nat) | IfOthers (n : nat)
| AssertEmpty | AssertNoOthers | CountUp | MarkBowl
| Print | Clocksleep
| AssertCounted | AssertMine | CountDown | ClearBowl
| V_CatMouseWait.

Definition sem_eat : list stmt :=
  [P_mutex; Print; V_mutex; Clocksleep; P_mutex; Print; V_mutex; Print].

(** The body of the loop from the label [back] to the end of the round. *)
Definition eat_round : list stmt :=
  [SpinBowl; SpinOthers; P_mutex; IfTaken 3; Print; V_back 5; IfOthers 3; Print; V_back 8;
   AssertEmpty; AssertNoOthers; CountUp; MarkBowl; V_mutex] ++ sem_eat ++
  [P_mutex; AssertCounted; AssertMine; CountDown; ClearBowl; V_mutex].

Definition animal_code : list stmt :=
  [P_mutex; TakeNumber; V_mutex; LoopTest 32; ChooseBowl; CheckBowl] ++ eat_round ++
  [NextRound 31; P_mutex; Print; V_mutex; V_CatMouseWait].
Definition catsem : list stmt := animal_code.
Definition mousesem : list stmt := animal_code.

Record animal : Type := Animal { who : species; num : Z; round : Z; bowl : Z; pc : nat }.
Definition at_pc x a := Animal (who a) (num a) (round a) (bowl a) x.
Definition set_num x a := Animal (who a) x (round a) (bowl a) (pc a).
Definition set_round x a := Animal (who a) (num a) x (bowl a) (pc a).
Definition set_bowl x a := Animal (who a) (num a) (round a) x (pc a).

(** [catmousesem]: set-up, starting the cats and the mice, waiting for them, cleaning up. *)
Inductive driver := DInit | DCats (index : Z) | DMice (index : Z) | DWait (i : Z) | DDone.
Inductive thread := Driver (d : driver) | Beast (a : animal).

Definition run_stmt (r : Z) (i : stmt) (a : animal) (k : kitchen) : outcome thread kitchen :=
  let go a k := Goes (Beast a) k [] in
  let at_ n k := go (at_pc n a) k in
  let next k := at_ (S (pc a)) k in
  let mine := mark (who a) in
  let look (f : Z → outcome thread kitchen) :=
    match bowls k !! Z.to_nat (bowl a - 1) with None => Panics WAssert | Some c => f c end in
  let put c := next (set_bowls (<[Z.to_nat (bowl a - 1) := c]> (bowls k)) k) in
  match i with
  | P_mutex => if sem_mutex k =? 0 then Waits else next (set_mutex (sem_mutex k - 1) k)
  | V_mutex => next (set_mutex (sem_mutex k + 1) k)
  | V_back n => at_ (pc a - n)%nat (set_mutex (sem_mutex k + 1) k)
  | TakeNumber => go (at_pc (S (pc a)) (set_num (numbers k (who a)) a)) (set_numbers (who a) (numbers k (who a) + 1) k)
  | LoopTest n => if round a <? NLOOPS then next k else at_ (pc a + n)%nat k
  | ChooseBowl => go (at_pc (S (pc a)) (set_bowl (r mod NFOODBOWLS + 1) a)) k
  | CheckBowl => if (bowl a =? 0) || (NFOODBOWLS <? bowl a) then Panics WCheck else next k
  | NextRound n => go (at_pc (pc a - n) (set_round (round a + 1) a)) k
  | SpinBowl => look (λ c, if c =? mine then at_ (pc a) k else next k)
  | SpinOthers => if 0 <? eating k (other (who a)) then at_ (pc a - 1)%nat k else next k
  | IfTaken n => look (λ c, if c =? mine then next k else at_ (pc a + n)%nat k)
  | IfOthers n => if 0 <? eating k (other (who a)) then next k else at_ (pc a + n)%nat k
  | AssertEmpty => look (λ c, if c =? EMPTY then next k else Panics WAssert)
  | AssertNoOthers => if eating k (other (who a)) =? 0 then next k else Panics WAssert
  | CountUp => next (set_eating (who a) (eating k (who a) + 1) k)
  | MarkBowl => put mine
  | Print | Clocksleep => next k
  | AssertCounted => if 0 <? eating k (who a) then next k else Panics WAssert
  | AssertMine => look (λ c, if c =? mine then next k else Panics WAssert)
  | CountDown => next (set_eating (who a) (eating k (who a) - 1) k)
  | ClearBowl => put EMPTY
  | V_CatMouseWait => next (set_wait (CatMouseWait k + 1) k)
  end.

(** [initialize_bowls], which leaves the numbering of the mice as it was. *)
Definition initialize_bowls (bowlcount : Z) (k : kitchen) : option kitchen :=
  if bowlcount =? 0 then None
  else Some (Kitchen (replicate (Z.to_nat bowlcount) EMPTY) (λ _, 0)
               (λ w, match w with Cat => 0 | Mouse => numbers k Mouse end) 1 (CatMouseWait k)).

Definition cleanup_bowls (k : kitchen) : kitchen := set_bowls [] k.

(** A new animal: its number and its bowl are set later. *)
Definition newborn (w : species) : animal := Animal w 0 0 0 0.

(** [catmousesem]; [r] is what the creation of a semaphore (as NULL or not) and [thread_fork] answer. *)
Definition catmousesem (r : Z) (d : driver) (k : kitchen) : outcome thread kitchen :=
  match d with
  | DInit =>
      if r =? 0 then
        match initialize_bowls NFOODBOWLS (set_wait 0 k) with
        | Some k => Goes (Driver (DCats 0)) k []
        | None => Panics WError
        end
      else Panics WError
  | DCats index =>
      if index <? NCATS then
        if r =? 0 then Goes (Driver (DCats (index + 1))) k [Beast (newborn Cat)] else Panics WError
      else Goes (Driver (DMice 0)) k []
  | DMice index =>
      if index <? NMICE then
        if r =? 0 then Goes (Driver (DMice (index + 1))) k [Beast (newborn Mouse)] else Panics WError
      else Goes (Driver (DWait 0)) k []
  | DWait i =>
      if i <? NCATS + NMICE then
        if CatMouseWait k =? 0 then Waits else Goes (Driver (DWait (i + 1))) (set_wait (CatMouseWait k - 1) k) []
      else Goes (Driver DDone) (cleanup_bowls k) []
  | DDone => Waits
  end.

Definition code (a : animal) : list stmt := match who a with Cat => catsem | Mouse => mousesem end.

Definition act (r : Z) (t : thread) (k : kitchen) : outcome thread kitchen :=
  match t with
  | Driver d => catmousesem r d k
  | Beast a => match code a !! pc a with None => Waits | Some i => run_stmt r i a k end
  end.

(** Before [catmousesem]: whatever an earlier run left behind. *)
Definition start (k : kitchen) : pool thread kitchen := Pool k [Driver DInit].
