(* ===== verification/CatsemThm.v ===== *)
(** * Cats and mice: safety and progress

    Again a type system: at each statement, whether the animal holds the mutex, what it has found
    out about its bowl, whether it is counted as eating and whether it has marked its bowl.  Every
    run of well-typed animals is safe; and from every state that can be reached, the program can
    still be run to its end. *)

From S2P Require Import Prelude Interleave Catsem.

(** ** Types *)

(** [x_know] is 1 when the bowl is known not to be taken by the own kind, 2 when moreover the other
    kind is known not to eat. *)
Record ctx : Type := Ctx {
  x_mutex : bool; x_named : bool; x_round : bool; x_bowl : bool;
  x_know : nat; x_counted : bool; x_marked : bool; x_done : bool;
}.
#[export] Instance ctx_eq_dec : EqDecision ctx.
Proof. solve_decision. Defined.

Definition x_set_mutex b x := Ctx b (x_named x) (x_round x) (x_bowl x) (x_know x) (x_counted x) (x_marked x) (x_done x).
Definition x_set_know n x := Ctx (x_mutex x) (x_named x) (x_round x) (x_bowl x) n (x_counted x) (x_marked x) (x_done x).
Definition x_set_round r b x := Ctx (x_mutex x) (x_named x) r b (x_know x) (x_counted x) (x_marked x) (x_done x).
Definition x_set_eating c m x := Ctx (x_mutex x) (x_named x) (x_round x) (x_bowl x) (x_know x) c m (x_done x).

(** The context after a statement, and at the target of its jump. *)
Definition after (i : stmt) (x : ctx) : ctx :=
  match i with
  | P_mutex => x_set_mutex true x
  | V_mutex => x_set_know 0 (x_set_mutex false x)
  | TakeNumber => Ctx (x_mutex x) true (x_round x) (x_bowl x) (x_know x) (x_counted x) (x_marked x) (x_done x)
  | LoopTest _ => x_set_round true (x_bowl x) x
  | ChooseBowl => x_set_round (x_round x) true x
  | CountUp => x_set_eating true (x_marked x) x
  | MarkBowl => x_set_know 0 (x_set_eating (x_counted x) true x)
  | CountDown => x_set_eating false (x_marked x) x
  | ClearBowl => x_set_eating (x_counted x) false x
  | V_CatMouseWait => Ctx (x_mutex x) (x_named x) (x_round x) (x_bowl x) (x_know x) (x_counted x) (x_marked x) true
  | _ => x
  end.
Definition jump (i : stmt) (x : ctx) : ctx :=
  match i with
  | V_back _ => x_set_know 0 (x_set_mutex false x)
  | NextRound _ => x_set_round false false x
  | IfTaken _ => x_set_know 1 x
  | IfOthers _ => x_set_know 2 x
  | _ => x
  end.

Definition skips (i : stmt) : option nat :=
  match i with LoopTest n | IfTaken n | IfOthers n => Some n | _ => None end.

(** The contexts along the code; a jump forward hands its context to its target. *)
Fixpoint flow (pending : list (nat * ctx)) (x : ctx) (cs : list stmt) : list ctx :=
  let x := match list_find (λ q, q.1 = 0%nat) pending with Some (_, q) => q.2 | None => x end in
  let pending := (λ q, (q.1 - 1, q.2)%nat) <$> filter (λ q, q.1 ≠ 0%nat) pending in
  match cs with
  | [] => [x]
  | i :: cs => x :: flow (match skips i with Some n => (n - 1, jump i x)%nat :: pending | None => pending end) (after i x) cs
  end.

Definition empty_ctx : ctx := Ctx false false false false 0 false false false.
Definition ctxs : list ctx := flow [] empty_ctx animal_code.

Definition ctx_ok (x : ctx) : Prop :=
  (x_marked x = true → (x_counted x = true ∨ x_mutex x = true) ∧ x_bowl x = true) ∧
  (x_know x ≠ 0%nat → x_mutex x = true ∧ x_bowl x = true ∧ x_marked x = false) ∧
  (x_bowl x = true → x_named x = true).

(** What a statement asks of its context. *)
Definition pre (i : stmt) (x : ctx) : Prop :=
  match i with
  | P_mutex => x_mutex x = false
  | V_mutex | V_back _ => x_mutex x = true
  | TakeNumber => x_mutex x = true ∧ x_named x = false
  | CheckBowl | SpinBowl => x_bowl x = true
  | ChooseBowl => x_marked x = false ∧ x_know x = 0%nat
  | NextRound _ => x_round x = true ∧ x_marked x = false ∧ x_know x = 0%nat
  | IfTaken _ => x_mutex x = true ∧ x_bowl x = true ∧ x_marked x = false
  | IfOthers _ => x_mutex x = true ∧ x_know x = 1%nat
  | AssertEmpty | AssertNoOthers => x_know x = 2%nat
  | CountUp => x_know x = 2%nat ∧ x_counted x = false
  | MarkBowl => x_know x = 2%nat ∧ x_counted x = true ∧ x_marked x = false
  | AssertCounted => x_counted x = true
  | AssertMine => x_marked x = true
  | CountDown => x_mutex x = true ∧ x_counted x = true ∧ x_know x = 0%nat
  | ClearBowl => x_mutex x = true ∧ x_counted x = false ∧ x_marked x = true ∧ x_know x = 0%nat
  | V_CatMouseWait => x_mutex x = false ∧ x_counted x = false ∧ x_marked x = false ∧ x_done x = false
  | _ => True
  end.

Definition goes_on (i : stmt) : bool := match i with V_back _ | NextRound _ => false | _ => true end.
Definition target (pc : nat) (i : stmt) : option nat :=
  match i with
  | LoopTest n | IfTaken n | IfOthers n => Some (pc + n)%nat
  | V_back n | NextRound n => Some (pc - n)%nat
  | SpinBowl => Some pc
  | SpinOthers => Some (pc - 1)%nat
  | _ => None
  end.

Definition stmt_ok (pc : nat) (x : ctx) (i : stmt) : Prop :=
  pre i x ∧ (goes_on i = true → ctxs !! S pc = Some (after i x)) ∧
  match target pc i with Some n => ctxs !! n = Some (jump i x) | None => True end.

Definition typed_at (pc : nat) (x : ctx) : Prop :=
  ctx_ok x ∧
  match animal_code !! pc with
  | Some i => stmt_ok pc x i ∧ x_done x = false
  | None => x = Ctx false true false false 0 false false true
  end.

#[export] Instance typed_at_dec pc x : Decision (typed_at pc x).
Proof.
  unfold typed_at. apply and_dec; [unfold ctx_ok; apply _|]. destruct (animal_code !! pc) as [i|]; [|apply _].
  apply and_dec; [|apply _]. unfold stmt_ok. apply and_dec; [destruct i; simpl; apply _|].
  destruct (target pc i); apply _.
Defined.

Lemma animals_typed pc x : ctxs !! pc = Some x → typed_at pc x.
Proof.
  assert (Forall (λ '(pc, x), typed_at pc x) (zip (seq 0 (length ctxs)) ctxs)) as Hall.
  { apply (bool_decide_unpack _). vm_compute. done. }
  intros Hx. rewrite Forall_forall in Hall. apply (Hall (pc, x)), list_elem_of_lookup. exists pc.
  apply lookup_zip_with_Some. exists pc, x. split_and!; [done| |done].
  apply lookup_seq. split; [lia|]. by eapply lookup_lt_Some.
Qed.

#[local] Opaque ctxs.

(** ** The invariant *)

Definition ctx_of (a : animal) : ctx := default empty_ctx (ctxs !! pc a).
Definition beast (f : animal → ctx → bool) (t : thread) : bool :=
  match t with Beast a => f a (ctx_of a) | Driver _ => false end.
Definition holds : thread → bool := beast (λ _ x, x_mutex x).
Definition counted (w : species) : thread → bool := beast (λ a x, bool_decide (who a = w) && x_counted x).
Definition marks (w : species) (b : nat) : thread → bool :=
  beast (λ a x, bool_decide (who a = w) && x_marked x && (Z.to_nat (bowl a - 1) =? b)%nat).
Definition finished : thread → bool := beast (λ _ x, x_done x).

Definition fits (a : animal) (x : ctx) : Prop :=
  0 ≤ round a ≤ NLOOPS ∧ (x_round x = true → round a < NLOOPS) ∧ (x_bowl x = true → 1 ≤ bowl a ≤ NFOODBOWLS).
Definition knows (k : kitchen) (a : animal) (x : ctx) : Prop :=
  (x_know x ≠ 0%nat → bowls k !! Z.to_nat (bowl a - 1) ≠ Some (mark (who a))) ∧
  (x_know x = 2%nat → eating k (other (who a)) = 0).

Definition food (c : Z) : Prop := c = EMPTY ∨ c = mark Cat ∨ c = mark Mouse.

Record kitchen_ok (k : kitchen) (ls : list thread) : Prop := KitchenOk {
  k_beasts : ∀ i a, ls !! i = Some (Beast a) → ∃ x, ctxs !! pc a = Some x ∧ fits a x ∧ knows k a x ∧
    (x_named x = true → num a < numbers k (who a));
  k_nums : ∀ i j a b, ls !! i = Some (Beast a) → ls !! j = Some (Beast b) → x_named (ctx_of a) = true →
    x_named (ctx_of b) = true → who a = who b → num a = num b → i = j;
  k_mutex : 0 ≤ sem_mutex k ∧ sem_mutex k + count holds ls = 1;
  k_eat : ∀ w, eating k w = count (counted w) ls;
  k_excl : ∀ w, eating k w = 0 ∨ eating k (other w) = 0;
  k_len : zlen (bowls k) = NFOODBOWLS;
  k_marks : ∀ b c, bowls k !! b = Some c → food c ∧ ∀ w, count (marks w b) ls = Z.b2z (c =? mark w);
}.

(** An animal that knows about its bowl holds the mutex, so it is alone in that. *)
Lemma beast_typed k ls i a :
  kitchen_ok k ls → ls !! i = Some (Beast a) → typed_at (pc a) (ctx_of a) ∧ ctxs !! pc a = Some (ctx_of a).
Proof.
  intros Hk Ha. destruct (k_beasts _ _ Hk i a Ha) as (x & Hx & _). unfold ctx_of. rewrite Hx. simpl.
  split; [by apply animals_typed|done].
Qed.

Lemma mutex_alone k ls i j a b :
  kitchen_ok k ls → ls !! i = Some (Beast a) → ls !! j = Some (Beast b) →
  x_mutex (ctx_of a) = true → x_mutex (ctx_of b) = true → i = j.
Proof.
  intros Hk Ha Hb Hma Hmb. apply (count_unique holds ls i j (Beast a) (Beast b)); try done.
  pose proof (k_mutex _ _ Hk). lia.
Qed.

(** ** One animal moves *)

Section move.
Context (k k' : kitchen) (ls : list thread) (i : nat) (a a' : animal) (x y : ctx).
Hypothesis Hk : kitchen_ok k ls.
Hypothesis Ha : ls !! i = Some (Beast a).
Hypothesis Hx : ctxs !! pc a = Some x.
Hypothesis Hy : ctxs !! pc a' = Some y.
Hypothesis Hwho : who a' = who a.
Hypothesis Hfit : fits a' y.
Hypothesis Hknow : knows k' a' y.

Abbreviation ls' := (<[i := Beast a']> ls ++ []).

Lemma ctx_old : ctx_of a = x.
Proof using Hx. unfold ctx_of. by rewrite Hx. Qed.
Lemma ctx_new : ctx_of a' = y.
Proof using Hy. unfold ctx_of. by rewrite Hy. Qed.

Lemma others_know j b :
  (x_mutex x = true ∨ bowls k' = bowls k ∧ eating k' = eating k) → i ≠ j → ls !! j = Some (Beast b) →
  knows k' b (ctx_of b).
Proof using Hk Ha Hx.
  intros Hor Hne Hb. destruct (k_beasts _ _ Hk j b Hb) as (z & Hz & _ & Hkn & _).
  assert (ctx_of b = z) as -> by (unfold ctx_of; by rewrite Hz).
  destruct Hor as [Hmx|[Hb' He']]; [|by unfold knows; rewrite Hb', He'].
  destruct (animals_typed _ _ Hz) as [(_ & Hkm & _) _].
  assert (x_know z = 0%nat) as H0.
  { destruct (decide (x_know z = 0%nat)) as [|Hkz]; [done|]. destruct Hne.
    apply (mutex_alone k ls i j a b Hk Ha Hb); [by rewrite ctx_old|]. unfold ctx_of. rewrite Hz. by apply Hkm. }
  split; intros; lia.
Qed.

Lemma kitchen_move :
  (x_mutex x = true ∨ bowls k' = bowls k ∧ eating k' = eating k) →
  (x_named y = x_named x ∧ num a' = num a ∧ numbers k' = numbers k ∨
   num a' = numbers k (who a) ∧ (∀ w, numbers k w ≤ numbers k' w) ∧ numbers k (who a) < numbers k' (who a)) →
  0 ≤ sem_mutex k' → sem_mutex k' = sem_mutex k + Z.b2z (x_mutex x) - Z.b2z (x_mutex y) →
  (∀ w, eating k' w = eating k w - Z.b2z (counted w (Beast a)) + Z.b2z (counted w (Beast a'))) →
  (∀ w, eating k' w = 0 ∨ eating k' (other w) = 0) →
  zlen (bowls k') = NFOODBOWLS →
  (∀ b c, bowls k' !! b = Some c → food c ∧
     ∀ w, count (marks w b) ls - Z.b2z (marks w b (Beast a)) + Z.b2z (marks w b (Beast a')) = Z.b2z (c =? mark w)) →
  kitchen_ok k' ls'.
Proof using Hk Ha Hx Hy Hwho Hfit Hknow.
  intros Hor Hnum Hm0 Hm He Hex Hlen Hmk. rewrite app_nil_r. pose proof (lookup_lt_Some _ _ _ Ha) as Hlt.
  destruct (k_beasts _ _ Hk i a Ha) as (x0 & Hx0 & _ & _ & Hnx). assert (x0 = x) as -> by congruence.
  assert (∀ j b, <[i := Beast a']> ls !! j = Some (Beast b) →
    (j = i ∧ b = a') ∨ (i ≠ j ∧ ls !! j = Some (Beast b))) as Hlook.
  { intros j b Hj. destruct (decide (i = j)) as [<-|Hne].
    - rewrite list_lookup_insert_eq in Hj by done. left. split; [done|congruence].
    - rewrite list_lookup_insert_ne in Hj by done. by right. }
  constructor.
  - intros j b [[-> ->]|[Hne Hj]]%Hlook.
    + exists y. split_and!; [done|done|done|]. intros Hny. destruct Hnum as [(Hn & -> & ->)|(-> & _ & Hlt')].
      * rewrite Hwho. apply Hnx. congruence.
      * by rewrite Hwho.
    + destruct (k_beasts _ _ Hk j b Hj) as (z & Hz & Hf & _ & Hn). exists z. split_and!; [done|done| |].
      * pose proof (others_know j b Hor Hne Hj) as Hkn. unfold ctx_of in Hkn. by rewrite Hz in Hkn.
      * intros Hnz. specialize (Hn Hnz). destruct Hnum as [(_ & _ & ->)|(_ & Hle & _)]; [done|]. specialize (Hle (who b)). lia.
  - assert (∀ j b, i ≠ j → ls !! j = Some (Beast b) → x_named y = true → x_named (ctx_of b) = true →
      who a' = who b → num a' = num b → False) as Hcl.
    { intros j b Hne Hj Hny Hnb Hw Hn. destruct Hnum as [(Hnn & Hna & _)|(Hna & _ & _)].
      - apply Hne. apply (k_nums _ _ Hk i j a b); try done; [rewrite ctx_old|..]; congruence.
      - destruct (k_beasts _ _ Hk j b Hj) as (z & Hz & _ & _ & Hnz). unfold ctx_of in Hnb. rewrite Hz in Hnb. simpl in Hnb.
        specialize (Hnz Hnb). rewrite <- Hw, Hwho, <- Hn, Hna in Hnz. lia. }
    intros j1 j2 b1 b2 [[-> ->]|[Hne1 Hj1]]%Hlook [[-> ->]|[Hne2 Hj2]]%Hlook H1 H2 Hw Hn; try done.
    + exfalso. rewrite ctx_new in H1. by eapply (Hcl j2 b2).
    + exfalso. rewrite ctx_new in H2. by eapply (Hcl j1 b1).
    + by eapply (k_nums _ _ Hk).
  - split; [done|]. rewrite (count_insert holds ls i (Beast a)) by done. unfold holds, beast in *.
    rewrite ctx_old, ctx_new, Hm. pose proof (k_mutex _ _ Hk) as [_ Hs]. unfold holds, beast in Hs. lia.
  - intros w. rewrite (count_insert (counted w) ls i (Beast a)), He, (k_eat _ _ Hk) by done. done.
  - done.
  - done.
  - intros b c Hc. destruct (Hmk b c Hc) as [Hf Hcnt]. split; [done|]. intros w. by rewrite (count_insert _ ls i (Beast a)).
Qed.
End move.

(** Nothing taken away and added again. *)
Ltac flat := simpl; rewrite ?Z.sub_add, ?Z.add_simpl_r, ?Z.sub_0_r, ?Z.add_0_r; reflexivity.

Section statements.
Context (k : kitchen) (ls : list thread) (i : nat) (a : animal) (x : ctx).
Hypothesis Hk : kitchen_ok k ls.
Hypothesis Ha : ls !! i = Some (Beast a).
Hypothesis Hx : ctxs !! pc a = Some x.

Lemma old_facts : fits a x ∧ knows k a x ∧ ctx_ok x ∧ (x_bowl x = true → is_Some (bowls k !! Z.to_nat (bowl a - 1))).
Proof using Hk Ha Hx.
  destruct (k_beasts _ _ Hk i a Ha) as (x0 & Hx0 & Hf & Hkn & _). assert (x0 = x) as -> by congruence.
  split_and!; [done|done|by apply animals_typed in Hx as [? _]|]. intros Hb. destruct Hf as (_ & _ & Hbr). specialize (Hbr Hb).
  apply lookup_lt_is_Some_2. pose proof (k_len _ _ Hk). unfold NFOODBOWLS in *. lia.
Qed.

(** A statement that changes nothing but the mutex. *)
Lemma kitchen_quiet a' y m :
  ctxs !! pc a' = Some y → who a' = who a → num a' = num a → fits a' y → knows (set_mutex m k) a' y →
  x_named y = x_named x → x_counted y = x_counted x → x_marked y = x_marked x →
  (x_marked x = true → bowl a' = bowl a) →
  0 ≤ m → m = sem_mutex k + Z.b2z (x_mutex x) - Z.b2z (x_mutex y) →
  kitchen_ok (set_mutex m k) (<[i := Beast a']> ls ++ []).
Proof using Hk Ha Hx.
  intros Hy Hw Hn Hf Hkn Hnn Hc Hmk Hb Hm0 Hm.
  eapply (kitchen_move k _ ls i a a' x y); try done; simpl.
  - by right.
  - by left.
  - intros w. unfold ctx_of. rewrite Hx, Hy, Hw. simpl. rewrite Hc. flat.
  - apply (k_excl _ _ Hk).
  - apply (k_len _ _ Hk).
  - intros b c Hbc. destruct (k_marks _ _ Hk b c Hbc) as [Hfo Hcnt]. split; [done|]. intros w. rewrite <- Hcnt.
    unfold ctx_of. rewrite Hx, Hy, Hw. simpl. rewrite Hmk. destruct (x_marked x); [rewrite (Hb eq_refl); flat|].
    rewrite andb_false_r. flat.
Qed.

(** One that changes nothing at all: only the position. *)
Lemma kitchen_same n y :
  ctxs !! n = Some y → x_mutex y = x_mutex x → x_named y = x_named x → x_counted y = x_counted x → x_marked y = x_marked x →
  fits a y → knows k a y → kitchen_ok k (<[i := Beast (at_pc n a)]> ls ++ []).
Proof using Hk Ha Hx.
  intros Hy Hm Hn Hc Hmk Hf Hkn. replace k with (set_mutex (sem_mutex k) k) at 1 by (by destruct k).
  apply (kitchen_quiet (at_pc n a) y); [done|done|done|done|by destruct k|done|done|done|done|apply Hk|rewrite Hm; flat].
Qed.

Lemma taken_spec : x_bowl x = true → ∃ c, bowls k !! Z.to_nat (bowl a - 1) = Some c ∧ food c ∧
  ∀ w, count (marks w (Z.to_nat (bowl a - 1))) ls = Z.b2z (c =? mark w).
Proof using Hk Ha Hx.
  intros Hb. destruct old_facts as (_ & _ & _ & Hs). destruct (Hs Hb) as [c Hc]. exists c. split; [done|].
  by apply (k_marks _ _ Hk).
Qed.

(** Whoever has marked a bowl is counted, unless it is the one with the mutex. *)
Lemma bowl_empty c :
  x_know x = 2%nat → bowls k !! Z.to_nat (bowl a - 1) = Some c → c = EMPTY.
Proof using Hk Ha Hx.
  intros Hkn Hc. destruct old_facts as (_ & [K1 K2] & (_ & Hkm & _) & _). specialize (K1 ltac:(lia)). specialize (K2 Hkn).
  destruct (Hkm ltac:(lia)) as (Hmx & Hbx & Hmm). destruct (k_marks _ _ Hk _ _ Hc) as [Hf Hcnt].
  assert (c ≠ mark (other (who a))) as Hno.
  { intros ->. specialize (Hcnt (other (who a))). rewrite Z.eqb_refl in Hcnt. simpl in Hcnt.
    destruct (count_exists (marks (other (who a)) (Z.to_nat (bowl a - 1))) ls) as (j & t & Ht & Hmk); [lia|].
    destruct t as [|b]; [done|]. simpl in Hmk. apply andb_prop in Hmk as [[Hw Hxm]%andb_prop _]. apply bool_decide_eq_true in Hw.
    destruct (beast_typed _ _ _ _ Hk Ht) as [[(Hcm & _) _] Hb]. destruct (Hcm Hxm) as [[Hct|Hmb] _].
    - assert (1 ≤ eating k (other (who a))); [|lia]. rewrite (k_eat _ _ Hk). apply (count_pos _ _ j (Beast b)); [done|].
      simpl. rewrite Hct, bool_decide_true by done. done.
    - assert (i = j) as <-. { apply (mutex_alone k ls i j a b); try done. unfold ctx_of. by rewrite Hx. }
      assert (a = b) as <- by congruence. by destruct (who a). }
  destruct Hf as [?|[?|?]]; [done|..]; subst c; destruct (who a); try done; simpl in *; congruence.
Qed.

Lemma mine_spec c : x_marked x = true → bowls k !! Z.to_nat (bowl a - 1) = Some c → c = mark (who a).
Proof using Hk Ha Hx.
  intros Hmk Hc. destruct (k_marks _ _ Hk _ _ Hc) as [_ Hcnt]. specialize (Hcnt (who a)).
  assert (1 ≤ Z.b2z (c =? mark (who a))) as Hge.
  { rewrite <- Hcnt. apply (count_pos _ _ i (Beast a)); [done|]. simpl. unfold ctx_of. rewrite Hx. simpl.
    rewrite Hmk, bool_decide_true, Nat.eqb_refl by done. done. }
  destruct (c =? mark (who a)) eqn:E; [by apply Z.eqb_eq|done].
Qed.

Lemma counted_pos : x_counted x = true → 1 ≤ eating k (who a).
Proof using Hk Ha Hx.
  intros Hc. rewrite (k_eat _ _ Hk). apply (count_pos _ _ i (Beast a)); [done|]. simpl. unfold ctx_of. rewrite Hx. simpl.
  by rewrite Hc, bool_decide_true.
Qed.

(** The context right after. *)
Abbreviation next n k' := (kitchen_ok k' (<[i := Beast (at_pc n a)]> ls ++ [])).

Lemma count_safe (up : bool) n y :
  x_mutex x = true → x_counted x = negb up → ctxs !! n = Some y → y = x_set_eating up (x_marked x) x →
  (if up then x_know x = 2%nat else x_know x = 0%nat) →
  next n (set_eating (who a) (eating k (who a) + (if up then 1 else -1)) k).
Proof using Hk Ha Hx.
  intros Hmx Hc Hy -> Hkn. destruct old_facts as (Hf & [K1 K2] & _ & _).
  eapply (kitchen_move k _ ls i a (at_pc n a) x); try done; simpl.
  - split; simpl; [done|]. intros Hk2. rewrite bool_decide_false by (by destruct (who a)). by apply K2.
  - by left.
  - by left.
  - apply (k_mutex _ _ Hk).
  - flat.
  - intros w. unfold ctx_of. simpl. rewrite Hx, Hy. simpl. rewrite Hc. rewrite (bool_decide_ext (w = who a) (who a = w)) by done.
    case_bool_decide as Hw; [subst w; destruct up; flat|flat].
  - intros w. assert (eating k (other (who a)) = 0) as Ho.
    { destruct up; [by apply K2|]. destruct (k_excl _ _ Hk (who a)) as [H0|]; [|done].
      rewrite (k_eat _ _ Hk) in H0. exfalso. pose proof (count_zero _ _ H0 _ _ Ha) as Hz. simpl in Hz. unfold ctx_of in Hz.
      rewrite Hx in Hz. simpl in Hz. by rewrite Hc, bool_decide_true in Hz by done. }
    destruct (decide (w = who a)) as [->|Hw]; [right; rewrite bool_decide_false by (by destruct (who a)); done|left].
    rewrite bool_decide_false by done. replace w with (other (who a)); [done|]. by destruct w, (who a).
  - apply (k_len _ _ Hk).
  - intros b c Hbc. destruct (k_marks _ _ Hk b c Hbc) as [Hfo Hcnt]. split; [done|]. intros w. rewrite <- Hcnt.
    unfold ctx_of. simpl. rewrite Hx, Hy. flat.
Qed.

Lemma put_safe (c : Z) n y :
  x_mutex x = true → x_bowl x = true → ctxs !! n = Some y →
  (c = mark (who a) ∧ x_know x = 2%nat ∧ x_marked x = false ∧ y = x_set_know 0 (x_set_eating (x_counted x) true x) ∨
   c = EMPTY ∧ x_know x = 0%nat ∧ x_marked x = true ∧ y = x_set_eating (x_counted x) false x) →
  next n (set_bowls (<[Z.to_nat (bowl a - 1) := c]> (bowls k)) k).
Proof using Hk Ha Hx.
  intros Hmx Hbx Hy Hc. destruct old_facts as (Hf & _ & _ & _). destruct (taken_spec Hbx) as (c0 & Hc0 & Hfo0 & Hcnt0).
  assert (x_mutex y = x_mutex x ∧ x_named y = x_named x ∧ x_counted y = x_counted x ∧ x_know y = 0%nat ∧
    x_marked y = negb (x_marked x) ∧ fits a y) as (Em & En & Ec & Ek & Emk & Ef).
  { destruct Hc as [(_ & Hk2 & Hm2 & ->)|(_ & Hk2 & Hm2 & ->)]; simpl; rewrite Hm2; done. }
  eapply (kitchen_move k _ ls i a (at_pc n a) x y); try done; simpl.
  - unfold knows. rewrite Ek. done.
  - by left.
  - by left.
  - apply (k_mutex _ _ Hk).
  - rewrite Em. flat.
  - intros w. unfold ctx_of. simpl. rewrite Hx, Hy. simpl. rewrite Ec. flat.
  - apply (k_excl _ _ Hk).
  - rewrite length_insert. apply (k_len _ _ Hk).
  - intros b cb Hcb. unfold ctx_of. simpl. rewrite Hx, Hy. simpl. destruct (decide (b = Z.to_nat (bowl a - 1))) as [->|Hne].
    + rewrite list_lookup_insert_eq in Hcb by (by eapply lookup_lt_Some). injection Hcb as <-.
      split; [destruct Hc as [(-> & _)|(-> & _)]; unfold food; destruct (who a); auto|]. intros w. rewrite Hcnt0, Emk, Nat.eqb_refl, !andb_true_r.
      destruct Hc as [(-> & Hkn & -> & _)|(-> & Hkn & Hmk & _)]; simpl.
      * rewrite (bowl_empty c0 Hkn Hc0). destruct w, (who a); done.
      * rewrite (mine_spec c0 Hmk Hc0).
        rewrite Hmk. destruct w, (who a); done.
    + rewrite list_lookup_insert_ne in Hcb by done. destruct (k_marks _ _ Hk b cb Hcb) as [Hfo Hcnt]. split; [done|].
      intros w. rewrite <- Hcnt. assert ((Z.to_nat (bowl a - 1) =? b)%nat = false) as -> by (by apply Nat.eqb_neq, not_eq_sym).
      rewrite !andb_false_r. flat.
Qed.

Lemma number_safe n y :
  x_mutex x = true → ctxs !! n = Some y → y = after TakeNumber x →
  kitchen_ok (set_numbers (who a) (numbers k (who a) + 1) k) (<[i := Beast (at_pc n (set_num (numbers k (who a)) a))]> ls ++ []).
Proof using Hk Ha Hx.
  intros Hmx Hy ->. destruct old_facts as (Hf & Hkn & _ & _).
  eapply (kitchen_move k _ ls i a _ x); [done|done|done|exact Hy|done|done|done| |..]; simpl.
  - by left.
  - right. split; [done|]. split; [|rewrite bool_decide_true by done; lia]. intros w. case_bool_decide; subst; lia.
  - apply (k_mutex _ _ Hk).
  - flat.
  - intros w. unfold ctx_of. simpl. rewrite Hx, Hy. flat.
  - apply (k_excl _ _ Hk).
  - apply (k_len _ _ Hk).
  - intros b c Hbc. destruct (k_marks _ _ Hk b c Hbc) as [Hfo Hcnt]. split; [done|]. intros w. rewrite <- Hcnt.
    unfold ctx_of. simpl. rewrite Hx, Hy. flat.
Qed.

(** What a statement of a well-typed animal does. *)
Definition stmt_post (o : outcome thread kitchen) : Prop :=
  match o with
  | Waits => x_mutex x = false ∧ sem_mutex k = 0
  | Panics _ => False
  | Goes t k' new => new = [] ∧ ∃ a', t = Beast a' ∧ who a' = who a ∧ kitchen_ok k' (<[i := Beast a']> ls ++ []) ∧
      CatMouseWait k ≤ CatMouseWait k' ∧ CatMouseWait k' = CatMouseWait k + Z.b2z (x_done (ctx_of a'))
  end.

Lemma post_same n y :
  ctxs !! n = Some y → x_done y = false → x_mutex y = x_mutex x → x_named y = x_named x → x_counted y = x_counted x →
  x_marked y = x_marked x → fits a y → knows k a y → stmt_post (Goes (Beast (at_pc n a)) k []).
Proof using Hk Ha Hx.
  intros Hy Hd Hm Hn Hc Hmk Hf Hkn. split; [done|]. exists (at_pc n a). split_and!; [done|done|by eapply kitchen_same|done|].
  unfold ctx_of. simpl. rewrite Hy. simpl. rewrite Hd. flat.
Qed.

Lemma post_mutex n y m :
  ctxs !! n = Some y → x_done y = false → x_named y = x_named x → x_counted y = x_counted x →
  x_marked y = x_marked x → fits a y → knows k a y → 0 ≤ m → m = sem_mutex k + Z.b2z (x_mutex x) - Z.b2z (x_mutex y) →
  stmt_post (Goes (Beast (at_pc n a)) (set_mutex m k) []).
Proof using Hk Ha Hx.
  intros Hy Hd Hn Hc Hmk Hf Hkn Hm0 Hm. split; [done|]. exists (at_pc n a).
  split_and!; [done|done|by eapply kitchen_quiet|done|]. unfold ctx_of. simpl. rewrite Hy. simpl. rewrite Hd. flat.
Qed.

(** Other changes of the kitchen; an animal with another round or bowl. *)
Lemma post_go k' a' y :
  ctxs !! pc a' = Some y → who a' = who a → x_done y = false → CatMouseWait k' = CatMouseWait k →
  kitchen_ok k' (<[i := Beast a']> ls ++ []) → stmt_post (Goes (Beast a') k' []).
Proof using Type.
  intros Hy Hw Hd Hcm Hko. split; [done|]. exists a'. split_and!; [done|done|done|by rewrite Hcm|].
  unfold ctx_of. rewrite Hy. simpl. rewrite Hd, Hcm. flat.
Qed.

Lemma post_local a' y :
  ctxs !! pc a' = Some y → who a' = who a → num a' = num a → x_done y = false → x_mutex y = x_mutex x → x_named y = x_named x →
  x_counted y = x_counted x → x_marked y = false → x_marked x = false → fits a' y → x_know y = 0%nat →
  stmt_post (Goes (Beast a') k []).
Proof using Hk Ha Hx.
  intros Hy Hw Hn Hd Hm Hnm Hc Hmy Hmx Hf Hkn. eapply post_go; [done..|]. replace k with (set_mutex (sem_mutex k) k) at 1 by (by destruct k).
  apply (kitchen_quiet a' y); [done|done|done|done| |done|done|congruence|congruence|apply Hk|rewrite Hm; flat].
  unfold knows. rewrite Hkn. done.
Qed.

Lemma wait_safe n y :
  x_done x = false → x_mutex x = false → ctxs !! n = Some y → y = after V_CatMouseWait x →
  stmt_post (Goes (Beast (at_pc n a)) (set_wait (CatMouseWait k + 1) k) []).
Proof using Hk Ha Hx.
  intros Hd Hm Hy ->. destruct old_facts as (Hf & Hkn & _). split; [done|]. exists (at_pc n a).
  assert (kitchen_ok k (<[i := Beast (at_pc n a)]> ls ++ [])) as [] by (by eapply kitchen_same).
  split_and!; [done|done|by constructor|simpl; lia|]. unfold ctx_of. simpl. by rewrite Hy.
Qed.
End statements.

#[local] Arguments stmt_post : simpl never.

Lemma deed_safe k ls i a x r st :
  kitchen_ok k ls → ls !! i = Some (Beast a) → ctxs !! pc a = Some x → stmt_ok (pc a) x st → x_done x = false →
  stmt_post k ls i a x (run_stmt r st a k).
Proof.
  intros Hk Ha Hx (Hpre & Hnext & Htgt) Hd. destruct (old_facts k ls i a x Hk Ha Hx) as (Hf & Hkn & Hok & _).
  pose proof (k_mutex _ _ Hk) as [Hm0 Hmc].
  destruct st; simpl in Hpre; simpl in Hnext; try specialize (Hnext eq_refl); simpl in Htgt; simpl.
  - destruct (sem_mutex k =? 0) eqn:E; [split; [done|by apply Z.eqb_eq]|].
    eapply post_mutex; try done; simpl; rewrite ?Hpre; simpl; lia.
  - eapply post_mutex; try done; simpl; rewrite ?Hpre; simpl; lia.
  - eapply post_mutex; try done; simpl; rewrite ?Hpre; simpl; lia.
  - eapply post_go; [done..|]. by apply (number_safe k ls i a x Hk Ha Hx _ _ (proj1 Hpre) Hnext).
  - destruct (round a <? NLOOPS) eqn:E; eapply post_same; try done. destruct Hf as (? & ? & ?). split_and!; try done; simpl; lia.
  - destruct Hpre as [Hmk Hk0]. eapply post_local; try done. destruct Hf as (? & ? & ?).
    split_and!; try done; simpl; try lia. intros _. pose proof (Z.mod_pos_bound r NFOODBOWLS ltac:(done)). lia.
  - destruct Hf as (? & ? & Hb). specialize (Hb Hpre). replace ((bowl a =? 0) || (NFOODBOWLS <? bowl a)) with false by lia.
    by eapply post_same.
  - destruct Hpre as (Hpre & Hmk & Hk0). eapply post_local; try done. destruct Hf as (? & Hr & ?). specialize (Hr Hpre).
    split_and!; try done; simpl; lia.
  - destruct (taken_spec k ls i a x Hk Ha Hx Hpre) as (c & -> & _). destruct (c =? mark (who a)); by eapply post_same.
  - destruct (0 <? eating k (other (who a))); by eapply post_same.
  - destruct Hpre as (Hm & Hb & Hmk). destruct (taken_spec k ls i a x Hk Ha Hx Hb) as (c & Hc & _). rewrite Hc.
    destruct (c =? mark (who a)) eqn:E; eapply post_same; try done. split; [|done]. intros _. rewrite Hc. intros [= ->]. lia.
  - destruct Hpre as (Hm & Hk1). destruct (0 <? eating k (other (who a))) eqn:E; eapply post_same; try done.
    destruct Hkn as [K1 _]. split; [intros _; apply K1; by rewrite Hk1|]. intros _. rewrite (k_eat _ _ Hk) in *.
    pose proof (count_nonneg (counted (other (who a))) ls). lia.
  - destruct Hok as (_ & Hok & _). rewrite Hpre in Hok. destruct (Hok ltac:(done)) as (_ & Hb & _).
    destruct (taken_spec k ls i a x Hk Ha Hx Hb) as (c & Hc & _). rewrite Hc, (bowl_empty k ls i a x Hk Ha Hx c Hpre Hc).
    by eapply post_same.
  - destruct Hkn as [K1 K2]. rewrite (K2 Hpre). by eapply post_same.
  - destruct Hpre as [Hk2 Hc]. destruct Hok as (_ & Hok & _). rewrite Hk2 in Hok. destruct (Hok ltac:(done)) as (Hm & _).
    eapply post_go; [done..|]. by apply (count_safe k ls i a x Hk Ha Hx true _ _ Hm Hc Hnext).
  - destruct Hpre as (Hk2 & Hc & Hmk). destruct Hok as (_ & Hok & _). rewrite Hk2 in Hok. destruct (Hok ltac:(done)) as (Hm & Hb & _).
    eapply post_go; [done..|]. apply (put_safe k ls i a x Hk Ha Hx _ _ _ Hm Hb Hnext). by left.
  - by eapply post_same.
  - by eapply post_same.
  - pose proof (counted_pos k ls i a x Hk Ha Hx Hpre). replace (0 <? eating k (who a)) with true by lia. by eapply post_same.
  - destruct (proj1 Hok Hpre) as [_ Hb]. destruct (taken_spec k ls i a x Hk Ha Hx Hb) as (c & Hc & _).
    rewrite Hc, (mine_spec k ls i a x Hk Ha Hx c Hpre Hc), Z.eqb_refl. by eapply post_same.
  - destruct Hpre as (Hm & Hc & Hk0). eapply post_go; [done..|].
    by apply (count_safe k ls i a x Hk Ha Hx false _ _ Hm Hc Hnext).
  - destruct Hpre as (Hm & Hc & Hmk & Hk0). destruct (proj1 Hok Hmk) as [_ Hb]. eapply post_go; [done..|].
    apply (put_safe k ls i a x Hk Ha Hx _ _ _ Hm Hb Hnext). by right.
  - destruct Hpre as (Hm & _). by eapply wait_safe.
Qed.

(** ** The whole pool *)

#[export] Instance driver_eq_dec : EqDecision driver.
Proof. solve_decision. Defined.

Definition forked (d : driver) : Z :=
  match d with DInit => 0 | DCats index => index | DMice index => NCATS + index | _ => NCATS + NMICE end.
Definition waited (d : driver) : Z := match d with DWait i => i | DDone => NCATS + NMICE | _ => 0 end.
Definition driver_ok (d : driver) : Prop :=
  match d with DCats index => 0 ≤ index ≤ NCATS | DMice index => 0 ≤ index ≤ NMICE | DWait i => 0 ≤ i ≤ NCATS + NMICE | _ => True end.

Definition running (d : driver) (p : pool thread kitchen) : Prop :=
  match d with
  | DInit => True
  | DDone => ∀ i a, threads p !! i = Some (Beast a) → pc a = length animal_code ∧
      ∀ j b, threads p !! j = Some (Beast b) → who a = who b → num a = num b → i = j
  | _ => kitchen_ok (shared p) (threads p) ∧ 0 ≤ CatMouseWait (shared p) ∧
         count finished (threads p) = CatMouseWait (shared p) + waited d
  end.

Record inv (p : pool thread kitchen) : Prop := Inv {
  i_driver : ∃ d, threads p !! 0%nat = Some (Driver d) ∧ driver_ok d ∧ zlen (threads p) = 1 + forked d ∧ running d p;
  i_beasts : ∀ i t, threads p !! S i = Some t → ∃ a, t = Beast a;
}.

Lemma kitchen_start_inv k : inv (start k).
Proof. constructor; [by exists DInit|done]. Qed.

Lemma kitchen_drive k m ls d d' new :
  kitchen_ok k ls → ls !! 0%nat = Some (Driver d) → (new = [] ∨ ∃ w, new = [Beast (newborn w)]) →
  kitchen_ok (set_wait m k) (<[0%nat := Driver d']> ls ++ new).
Proof.
  intros Hk Hd Hnew.
  assert (∀ P : thread → bool, P (Driver d) = false → P (Driver d') = false → (∀ w, P (Beast (newborn w)) = false) →
    count P (<[0%nat := Driver d']> ls ++ new) = count P ls) as Hcount.
  { intros P HP HP' HPn. rewrite count_app, (count_insert P _ _ (Driver d)), HP, HP' by done.
    destruct Hnew as [->|[w ->]]; rewrite ?count_cons, ?count_nil, ?HPn; flat. }
  assert (∀ i a, (<[0%nat := Driver d']> ls ++ new) !! i = Some (Beast a) →
    ls !! i = Some (Beast a) ∨ ∃ w, a = newborn w) as Hlook.
  { intros i a. rewrite lookup_app_Some. intros [Hi|[_ Hi]].
    - left. destruct i as [|i]; [|by rewrite list_lookup_insert_ne in Hi].
      rewrite list_lookup_insert_eq in Hi by (by eapply lookup_lt_Some). done.
    - right. destruct Hnew as [->|[w ->]]; [done|]. apply list_lookup_singleton_Some in Hi as [_ [= <-]]. by exists w. }
  assert (∀ w, ctx_of (newborn w) = empty_ctx) as Hnb by (intros w; vm_compute; reflexivity).
  assert (∀ w, ctxs !! pc (newborn w) = Some empty_ctx) as Hnb' by (intros w; vm_compute; reflexivity).
  constructor; simpl.
  - intros i a [Hi|[w ->]]%Hlook; [by apply (k_beasts _ _ Hk i)|]. exists empty_ctx. split_and!; try done.
  - intros i j a b Hi Hj Ha Hb. pose proof (Hlook _ _ Hi) as [Hi'|[w ->]]; [|by rewrite Hnb in Ha].
    pose proof (Hlook _ _ Hj) as [Hj'|[w ->]]; [|by rewrite Hnb in Hb]. by apply (k_nums _ _ Hk i j a b).
  - rewrite Hcount; [apply Hk|done|done|]. intros w. unfold holds, beast. by rewrite Hnb.
  - intros w. rewrite Hcount; [apply Hk|done|done|]. intros w'. unfold counted, beast. rewrite Hnb. by rewrite andb_false_r.
  - apply Hk.
  - apply Hk.
  - intros b c Hbc. destruct (k_marks _ _ Hk b c Hbc) as [Hf Hcnt]. split; [done|]. intros w. rewrite Hcount; [apply Hcnt|done|done|].
    intros w'. unfold marks, beast. rewrite Hnb. by rewrite andb_false_r.
Qed.

(** All threads but the first are counted: all animals are done. *)
Lemma all_finished k ls d :
  kitchen_ok k ls → ls !! 0%nat = Some (Driver d) → zlen ls = 1 + (NCATS + NMICE) → NCATS + NMICE ≤ count finished ls →
  ∀ i a, ls !! i = Some (Beast a) → pc a = length animal_code ∧ x_named (ctx_of a) = true.
Proof.
  intros Hk Hd Hlen Hc i a Ha. destruct (beast_typed _ _ _ _ Hk Ha) as [[_ Ht] Hx].
  assert (x_done (ctx_of a) = true) as Hdone.
  { destruct ls as [|t0 ts]; [done|]. injection Hd as ->. destruct i as [|i]; [done|]. simpl in *. rewrite count_cons in Hc. simpl in Hc.
    pose proof (count_length finished ts). apply (count_all finished ts ltac:(lia) i (Beast a) Ha). }
  destruct (animal_code !! pc a) as [st|] eqn:E; [destruct Ht as [_ Ht]; congruence|]. split; [|by rewrite Ht].
  apply lookup_ge_None in E. apply lookup_lt_Some in Hx. assert (length ctxs = S (length animal_code)) by (vm_compute; reflexivity). lia.
Qed.

Lemma beast_safe p i r a :
  inv p → threads p !! S i = Some (Beast a) →
  match act r (Beast a) (shared p) with
  | Waits => True
  | Panics w => False
  | Goes t' s' new => inv (Pool s' (<[S i := t']> (threads p) ++ new))
  end.
Proof.
  intros Hi Ha. destruct (i_driver _ Hi) as (d & Hd & Hdo & Hlen & Hrun). pose proof (lookup_lt_Some _ _ _ Ha) as Hlt. simpl.
  assert (code a = animal_code) as -> by (unfold code; by destruct (who a)).
  destruct (decide (d = DInit)) as [->|Hni]; [simpl in Hlen; lia|].
  destruct (decide (d = DDone)) as [->|Hnd].
  { simpl in Hrun. rewrite (proj1 (Hrun _ _ Ha)). rewrite lookup_ge_None_2 by done. done. }
  assert (kitchen_ok (shared p) (threads p) ∧ 0 ≤ CatMouseWait (shared p) ∧
    count finished (threads p) = CatMouseWait (shared p) + waited d) as (Hk & Hw0 & Hw) by (by destruct d).
  destruct (beast_typed _ _ _ _ Hk Ha) as [[_ Ht] Hx]. destruct (animal_code !! pc a) as [st|]; [|done]. destruct Ht as [Hst Hdn].
  pose proof (deed_safe _ _ _ _ _ r st Hk Ha Hx Hst Hdn) as Hs.
  destruct (run_stmt r st a (shared p)) as [|w|t' k' new]; [done|done|]. destruct Hs as (-> & a' & -> & _ & Hk' & Hge & Hcw).
  constructor; simpl.
  - exists d. rewrite app_nil_r in *. rewrite list_lookup_insert_ne, length_insert by done. split_and!; [done|done|done|].
    assert (kitchen_ok k' (<[S i := Beast a']> (threads p)) ∧ 0 ≤ CatMouseWait k' ∧
      count finished (<[S i := Beast a']> (threads p)) = CatMouseWait k' + waited d) as Hgoal; [|by destruct d].
    split_and!; [done|lia|]. rewrite (count_insert _ _ _ (Beast a)), Hw, Hcw by done. simpl. rewrite Hdn. simpl. lia.
  - intros j t Hj. rewrite app_nil_r in Hj. destruct (decide (j = i)) as [->|Hne].
    + rewrite list_lookup_insert_eq in Hj by done. injection Hj as <-. by exists a'.
    + rewrite list_lookup_insert_ne in Hj by congruence. by apply (i_beasts _ Hi j).
Qed.

(** The start of [catmousesem] sets the kitchen up. *)
Lemma fresh_kitchen nums d : kitchen_ok (Kitchen (replicate 2 EMPTY) (λ _, 0) nums 1 0) [Driver d].
Proof.
  constructor; simpl; try done.
  - intros [|i] a Ha; done.
  - intros [|i] j a b Ha; done.
  - auto.
  - intros [|[|b]] c Hc; try done; injection Hc as <-; (split; [by left|by intros []]).
Qed.

Lemma inv_fork p d d' k' new :
  inv p → threads p !! 0%nat = Some (Driver d) → driver_ok d' → (new = [] ∨ ∃ w, new = [Beast (newborn w)]) →
  zlen (threads p) + zlen new = 1 + forked d' →
  running d' (Pool k' (<[0%nat := Driver d']> (threads p) ++ new)) →
  inv (Pool k' (<[0%nat := Driver d']> (threads p) ++ new)).
Proof.
  intros Hi Hd Hok Hnew Hl Hr. constructor; simpl.
  - exists d'. rewrite length_app, length_insert. split_and!; [|done|lia|done].
    apply lookup_lt_Some in Hd. rewrite lookup_app_l by (by rewrite length_insert). by rewrite list_lookup_insert_eq.
  - intros i t. rewrite lookup_app_Some. intros [Ht|[_ Ht]].
    + rewrite list_lookup_insert_ne in Ht by done. by apply (i_beasts _ Hi i).
    + destruct Hnew as [->|[w ->]]; [done|]. apply list_lookup_singleton_Some in Ht as [_ <-]. by eexists.
Qed.

Lemma running_drive p d d' m new :
  threads p !! 0%nat = Some (Driver d) → d' ≠ DDone → kitchen_ok (shared p) (threads p) →
  (new = [] ∨ ∃ w, new = [Beast (newborn w)]) → 0 ≤ m → count finished (threads p) = m + waited d' →
  running d' (Pool (set_wait m (shared p)) (<[0%nat := Driver d']> (threads p) ++ new)).
Proof.
  intros Hd Hnd Hk Hnew Hm Hc.
  assert (kitchen_ok (set_wait m (shared p)) (<[0%nat := Driver d']> (threads p) ++ new) ∧ 0 ≤ CatMouseWait (set_wait m (shared p)) ∧
    count finished (<[0%nat := Driver d']> (threads p) ++ new) = CatMouseWait (set_wait m (shared p)) + waited d') as Hgo; [|by destruct d'].
  split_and!; [by eapply kitchen_drive|done|]. simpl. rewrite <- Hc.
  rewrite count_app, (count_insert _ _ _ (Driver d)) by done. simpl. rewrite Z.sub_0_r, Z.add_0_r.
  destruct Hnew as [->|[w ->]]; [by rewrite count_nil, Z.add_0_r|]. rewrite count_cons, count_nil.
  replace (finished (Beast (newborn w))) with false by (destruct w; vm_compute; reflexivity). simpl. lia.
Qed.

Lemma set_wait_id k : set_wait (CatMouseWait k) k = k.
Proof. by destruct k. Qed.

Lemma driver_safe p r d :
  inv p → threads p !! 0%nat = Some (Driver d) →
  match act r (Driver d) (shared p) with
  | Waits => True
  | Panics w => w = WError
  | Goes t' s' new => inv (Pool s' (<[0%nat := t']> (threads p) ++ new))
  end.
Proof.
  intros Hi Hd. destruct (i_driver _ Hi) as (d0 & Hd0 & Hdo & Hlen & Hrun). assert (d0 = d) as -> by congruence. simpl.
  destruct d as [|n|n|n|]; simpl in *; [| | | |done].
  - destruct (r =? 0); [|done]. destruct (threads p) as [|t0 [|]] eqn:Hts; try (simpl in Hlen; lia). injection Hd as ->.
    constructor; [|by intros [|] t]. exists (DCats 0). split_and!; try done. simpl. split_and!; try done. apply fresh_kitchen.
  - destruct Hrun as (Hk & Hw0 & Hw). destruct (n <? NCATS) eqn:E; [destruct (r =? 0); [|done]|].
    + eapply inv_fork; simpl; try done; try lia; [right; by eexists|]. rewrite <- (set_wait_id (shared p)) at 1.
      apply (running_drive p (DCats n) (DCats (n + 1))); try done. right. by eexists.
    + eapply inv_fork; simpl; try done; try lia; [by left|]. rewrite <- (set_wait_id (shared p)) at 1.
      apply (running_drive p (DCats n) (DMice 0)); try done. by left.
  - destruct Hrun as (Hk & Hw0 & Hw). destruct (n <? NMICE) eqn:E; [destruct (r =? 0); [|done]|].
    + eapply inv_fork; simpl; try done; try lia; [right; by eexists|]. rewrite <- (set_wait_id (shared p)) at 1.
      apply (running_drive p (DMice n) (DMice (n + 1))); try done. right. by eexists.
    + eapply inv_fork; simpl; try done; try lia; [by left|]. rewrite <- (set_wait_id (shared p)) at 1.
      apply (running_drive p (DMice n) (DWait 0)); try done. by left.
  - destruct Hrun as (Hk & Hw0 & Hw). destruct (n <? NCATS + NMICE) eqn:E; [destruct (CatMouseWait (shared p) =? 0) eqn:E0; [done|]|].
    + eapply inv_fork; simpl; try done; try lia; [by left|].
      apply (running_drive p (DWait n) (DWait (n + 1))); try done; [by left|lia|simpl; lia].
    + eapply inv_fork; simpl; try done; try lia; [by left|]. intros i a Ha. rewrite app_nil_r in Ha. destruct i as [|i].
      { rewrite list_lookup_insert_eq in Ha by (by eapply lookup_lt_Some). done. }
      rewrite list_lookup_insert_ne in Ha by done. destruct (all_finished _ _ _ Hk Hd ltac:(done) ltac:(lia) _ _ Ha) as [Hpc Hna].
      split; [done|]. intros [|j] b Hb.
      { rewrite app_nil_r, list_lookup_insert_eq in Hb by (by eapply lookup_lt_Some). done. }
      rewrite app_nil_r, list_lookup_insert_ne in Hb by done.
      destruct (all_finished _ _ _ Hk Hd ltac:(done) ltac:(lia) _ _ Hb) as [_ Hnb]. by apply (k_nums _ _ Hk _ _ a b).
Qed.

Lemma animals_safe p i r t :
  inv p → threads p !! i = Some t →
  match act r t (shared p) with
  | Waits => True
  | Panics w => w = WError
  | Goes t' s' new => inv (Pool s' (<[i := t']> (threads p) ++ new))
  end.
Proof.
  intros Hi Ht. destruct i as [|i].
  - destruct (i_driver _ Hi) as (d & Hd & _). assert (t = Driver d) as -> by congruence. by apply driver_safe.
  - destruct (i_beasts _ Hi i t Ht) as [a ->]. pose proof (beast_safe p i r a Hi Ht) as Hs. by destruct (act r (Beast a) (shared p)).
Qed.

(** ** Safety *)

(** The animal is in [sem_eat]. *)
Definition dines (a : animal) : Prop := (20 ≤ pc a < 20 + length sem_eat)%nat.
Definition numbered (a : animal) : Prop := (2 ≤ pc a)%nat.

Lemma sem_eat_at : take (length sem_eat) (drop 20 animal_code) = sem_eat.
Proof. reflexivity. Qed.

Lemma dines_ctx a : dines a → x_counted (ctx_of a) = true ∧ x_marked (ctx_of a) = true.
Proof.
  unfold dines, ctx_of. intros Hpc. change (length sem_eat) with 8%nat in Hpc. generalize dependent (pc a). intros n Hn.
  do 28 (destruct n as [|n]; [try lia; vm_compute; done|]). lia.
Qed.

Lemma named_ctx a x : numbered a → ctxs !! pc a = Some x → x_named x = true.
Proof.
  intros Hn Hx. assert (Forall (λ q, (2 ≤ q.1)%nat → x_named q.2 = true) (zip (seq 0 (length ctxs)) ctxs)) as Hall.
  { apply (bool_decide_unpack _). vm_compute. done. }
  rewrite Forall_forall in Hall. apply (Hall (pc a, x)); [|done]. apply list_elem_of_lookup. exists (pc a).
  apply lookup_zip_with_Some. exists (pc a), x. split_and!; [done| |done].
  apply lookup_seq. split; [lia|]. by eapply lookup_lt_Some.
Qed.

Lemma kitchen_safe k ls i j a b :
  kitchen_ok k ls → ls !! i = Some (Beast a) → ls !! j = Some (Beast b) → i ≠ j → dines a → dines b →
  who a = who b ∧ bowl a ≠ bowl b.
Proof.
  intros Hk Ha Hb Hne Hda Hdb. destruct (dines_ctx a Hda) as [Hca Hma]. destruct (dines_ctx b Hdb) as [Hcb Hmb].
  destruct (beast_typed _ _ _ _ Hk Ha) as [_ Hxa]. destruct (beast_typed _ _ _ _ Hk Hb) as [_ Hxb].
  pose proof (counted_pos k ls i a _ Hk Ha Hxa Hca) as Hpa. pose proof (counted_pos k ls j b _ Hk Hb Hxb Hcb) as Hpb.
  assert (who a = who b) as Hw.
  { destruct (k_excl _ _ Hk (who a)); [lia|]. destruct (who a), (who b); try done; simpl in *; lia. }
  split; [done|]. intros Hbowl. apply Hne. destruct (old_facts k ls i a _ Hk Ha Hxa) as (_ & _ & (Hok & _) & Hsome).
  destruct (Hok Hma) as [_ Hbx]. destruct (Hsome Hbx) as [c Hc]. destruct (k_marks _ _ Hk _ _ Hc) as [_ Hcnt].
  apply (count_unique (marks (who a) (Z.to_nat (bowl a - 1))) ls i j (Beast a) (Beast b)); try done.
  - rewrite Hcnt. destruct (c =? mark (who a)); simpl; lia.
  - simpl. by rewrite Hma, bool_decide_true, Nat.eqb_refl.
  - simpl. by rewrite Hmb, bool_decide_true, Hbowl, Nat.eqb_refl.
Qed.

(** C17: whatever the interleaving and the random bowls, no assertion and no check of [catsem] or
    [mousesem] fails (only a failed creation or fork stops the program); two animals that eat at
    the same time are of one kind and at different bowls; no two cats, and no two mice, get the
    same number. *)
Theorem cats_and_mice_safe (k : kitchen) (cs : list choice) :
  safe (λ p, ∀ i j a b, threads p !! i = Some (Beast a) → threads p !! j = Some (Beast b) → i ≠ j →
    (dines a → dines b → who a = who b ∧ bowl a ≠ bowl b) ∧
    (numbered a → numbered b → who a = who b → num a ≠ num b))
  (λ w, w = WError) (prun act cs (start k)).
Proof.
  pose proof (prun_safe act inv (λ w, w = WError) (λ i r t p, animals_safe p i r t) cs (start k) (kitchen_start_inv k)) as Hs.
  destruct (prun act cs (start k)) as [p|w]; simpl in *; [|done]. intros i j a b Ha Hb Hne.
  destruct (i_driver _ Hs) as (d & Hd & _ & Hlen & Hrun). destruct (decide (d = DDone)) as [->|Hnd].
  { pose proof (Hrun _ _ Ha) as [Hpc Hu]. split; [|intros _ _ Hw Hn; by apply Hne, (Hu j b)]. intros Hda. unfold dines in Hda. rewrite Hpc in Hda. exfalso.
    change (length animal_code) with 39%nat in Hda. change (length sem_eat) with 8%nat in Hda. lia. }
  assert (d ≠ DInit) as Hni.
  { intros ->. simpl in Hlen. apply lookup_lt_Some in Ha, Hb. lia. }
  assert (kitchen_ok (shared p) (threads p)) as Hk by (by destruct d as [| | | |]; try done; apply Hrun).
  split; [by apply (kitchen_safe _ _ i j a b Hk)|]. intros Hna Hnb Hw Hn. apply Hne.
  destruct (beast_typed _ _ _ _ Hk Ha) as [_ Hxa]. destruct (beast_typed _ _ _ _ Hk Hb) as [_ Hxb].
  apply (k_nums _ _ Hk i j a b Ha Hb (named_ctx a _ Hna Hxa) (named_ctx b _ Hnb Hxb)); done.
Qed.

(** * Cats and mice: the program can always finish

    From every reachable state there is a way on to the end of [catmousesem]: the animal in the
    critical section leaves it, those that eat finish, then one animal after the other finishes
    its rounds, and the first thread collects them.  So no interleaving leads into a deadlock, or
    into a state that can only go round in circles. *)

From S2P Require Import Prelude Interleave Catsem.

#[local] Opaque ctxs.

(** An animal that others may have to wait for. *)
Definition busy_ctx (x : ctx) : bool := x_mutex x || x_counted x || x_marked x.
Definition busy : thread → bool := beast (λ _ x, busy_ctx x).

(** ** What is known of the code *)

Definition succs (pc : nat) (st : stmt) : list nat :=
  (if goes_on st then [S pc] else []) ++ match target pc st with Some n => [n] | None => [] end.

(** A busy animal goes forward until it is no longer busy. *)
Definition forward (pc : nat) (x : ctx) : Prop :=
  match animal_code !! pc with
  | Some st => busy_ctx x = true → Forall (λ n, (pc < n)%nat ∨ (busy_ctx <$> ctxs !! n) = Some false) (succs pc st)
  | None => True
  end.
#[local] Instance forward_dec pc x : Decision (forward pc x).
Proof. unfold forward. destruct (animal_code !! pc); apply _. Defined.

(** The statements after a failed check of the bowl or of the others. *)
Definition detour (pc : nat) : Prop := pc ∈ [10; 11; 13; 14]%nat.

(** Outside the detours, a statement goes forward, into no detour, unless it is one of those that
    look at the bowl or at the others, or it starts the next round. *)
Definition steady (pc : nat) (x : ctx) : Prop :=
  match animal_code !! pc with
  | Some (V_back _) => detour pc
  | Some (NextRound n) => ¬ detour (pc - n) ∧ (n ≤ pc < 50)%nat
  | Some SpinBowl | Some SpinOthers => ¬ detour (S pc) ∧ x_marked x = false ∧ x_counted x = false ∧ x_bowl x = true
  | Some (IfTaken n) | Some (IfOthers n) =>
      ¬ detour (pc + n) ∧ (0 < n)%nat ∧ x_marked x = false ∧ x_counted x = false ∧ x_bowl x = true
  | Some (LoopTest n) => ¬ detour (S pc) ∧ ¬ detour (pc + n) ∧ (0 < n)%nat
  | Some _ => detour pc ∨ ¬ detour (S pc)
  | None => True
  end.
#[local] Instance detour_dec pc : Decision (detour pc).
Proof. unfold detour. apply _. Defined.
#[local] Instance steady_dec pc x : Decision (steady pc x).
Proof. unfold steady. destruct (animal_code !! pc) as [[]|]; apply _. Defined.

Lemma code_facts pc x : ctxs !! pc = Some x → forward pc x ∧ steady pc x ∧ (detour pc → busy_ctx x = true).
Proof.
  assert (Forall (λ '(pc, x), forward pc x ∧ steady pc x ∧ (detour pc → busy_ctx x = true)) (zip (seq 0 (length ctxs)) ctxs)) as Hall.
  { apply (bool_decide_unpack _). vm_compute. done. }
  intros Hx. rewrite Forall_forall in Hall. apply (Hall (pc, x)), list_elem_of_lookup. exists pc.
  apply lookup_zip_with_Some. exists pc, x. split_and!; [done| |done].
  apply lookup_seq. split; [lia|]. by eapply lookup_lt_Some.
Qed.

Lemma run_succ r st a k a' k' new : run_stmt r st a k = Goes (Beast a') k' new → pc a' ∈ succs (pc a) st.
Proof.
  intros Hr. unfold succs.
  destruct st; simpl in Hr; repeat (case_match; simplify_eq); simplify_eq/=; rewrite ?elem_of_cons; auto.
Qed.

(** ** One animal runs alone *)

Definition waiting (p : pool thread kitchen) : Prop := inv p ∧ ∃ n, threads p !! 0%nat = Some (Driver (DWait n)).

Lemma waiting_kitchen p : waiting p → kitchen_ok (shared p) (threads p).
Proof.
  intros [Hi [n Hn]]. destruct (i_driver _ Hi) as (d & Hd & _ & _ & Hrun). assert (d = DWait n) as -> by congruence. apply Hrun.
Qed.

(** No thread but [i] satisfies [P]. *)
Definition only (P : thread → bool) (i : nat) (ls : list thread) : Prop := ∀ j t, j ≠ i → ls !! j = Some t → P t = false.

Lemma only_insert P i ls t : only P i ls → only P i (<[i := t]> ls).
Proof. intros Ho j u Hne Hj. rewrite list_lookup_insert_ne in Hj by done. by apply (Ho j). Qed.

Abbreviation stepped p i a k := (Pool k (<[S i := Beast a]> (threads p))).

Lemma solo_step p i a st :
  waiting p → threads p !! S i = Some (Beast a) → animal_code !! pc a = Some st → only holds (S i) (threads p) →
  ∃ a' k', run_stmt 0 st a (shared p) = Goes (Beast a') k' [] ∧ to act p (stepped p i a' k') ∧ waiting (stepped p i a' k').
Proof.
  intros Hw Ha Hst Honly. pose proof (waiting_kitchen p Hw) as Hk. destruct Hw as [Hi [n Hn]].
  assert (act 0 (Beast a) (shared p) = run_stmt 0 st a (shared p)) as Hact.
  { simpl. unfold code. by destruct (who a); unfold catsem, mousesem; rewrite Hst. }
  destruct (beast_typed _ _ _ _ Hk Ha) as [[_ Ht] Hx]. rewrite Hst in Ht. destruct Ht as [Hok Hd].
  pose proof (deed_safe _ _ _ _ _ 0 st Hk Ha Hx Hok Hd) as Hpost.
  pose proof (beast_safe p i 0 a Hi Ha) as Hinv. rewrite Hact in Hinv.
  destruct (run_stmt 0 st a (shared p)) as [|w|t' k' new] eqn:Hrun.
  - exfalso. destruct Hpost as [Hm Hs]. pose proof (k_mutex _ _ Hk) as [_ Hc]. rewrite count_none in Hc; [lia|].
    intros j t Hj. destruct (decide (j = S i)) as [->|Hne]; [|by apply (Honly j)]. assert (t = Beast a) as -> by congruence.
    done.
  - done.
  - destruct Hpost as (-> & a' & -> & _). exists a', k'. rewrite app_nil_r in Hinv. split_and!; [done| |].
    + rewrite <- (app_nil_r (<[S i := _]> _)). by eapply (to_step act (S i) 0 (Beast a)).
    + split; [done|]. exists n. simpl. by rewrite list_lookup_insert_ne.
Qed.

Definition rest (i : nat) (p : pool thread kitchen) : nat :=
  match threads p !! S i with
  | Some (Beast a) => if busy (Beast a) then S (length animal_code - pc a) else 0
  | _ => 0
  end.

(** A busy animal that holds the mutex, or could take it, gets to a point where it is not busy. *)
Lemma calm_down p i :
  waiting p → is_Some (threads p !! S i) → only holds (S i) (threads p) →
  ∃ p', to act p p' ∧ waiting p' ∧ length (threads p') = length (threads p) ∧
    (∀ j, j ≠ S i → threads p' !! j = threads p !! j) ∧ (∀ t, threads p' !! S i = Some t → busy t = false).
Proof.
  intros Hw Hs Ho.
  destruct (to_measure act (λ q, waiting q ∧ length (threads q) = length (threads p) ∧ is_Some (threads q !! S i) ∧
      only holds (S i) (threads q) ∧ ∀ j, j ≠ S i → threads q !! j = threads p !! j)
    (λ q, ∀ t, threads q !! S i = Some t → busy t = false) (rest i)) with (p := p) as (p' & Hto & (Hw' & Hl & _ & _ & Hsame) & HQ).
  - intros q (Hq & Hl & [t Ht] & Hoq & Hsame). destruct (i_beasts _ (proj1 Hq) i t Ht) as [a ->].
    destruct (busy (Beast a)) eqn:Hb; [|left; intros t' Ht'; congruence]. right.
    pose proof (waiting_kitchen q Hq) as Hk. destruct (beast_typed _ _ _ _ Hk Ht) as [[_ Hty] Hx].
    destruct (animal_code !! pc a) as [st|] eqn:Hst.
    2: { rewrite Hty in *. simpl in Hb. by rewrite Hty in Hb. }
    destruct (solo_step q i a st Hq Ht Hst Hoq) as (a' & k' & Hrun & Hto & Hw').
    destruct (code_facts _ _ Hx) as (Hfw & _). unfold forward in Hfw. rewrite Hst in Hfw. specialize (Hfw Hb).
    rewrite Forall_forall in Hfw. specialize (Hfw _ (run_succ _ _ _ _ _ _ _ Hrun)).
    exists (stepped q i a' k'). pose proof (lookup_lt_Some _ _ _ Ht) as Hlt.
    split; [done|]. split.
    + split_and!; simpl; [done|by rewrite length_insert|rewrite list_lookup_insert_eq by done; by eexists| |].
      * by apply only_insert.
      * intros j Hj. rewrite list_lookup_insert_ne by done. by apply Hsame.
    + unfold rest. cbn [threads]. rewrite Ht, list_lookup_insert_eq by done. rewrite Hb.
      pose proof (waiting_kitchen _ Hw') as Hk'. destruct (beast_typed _ _ (S i) a' Hk') as [_ Hx'].
      { simpl. by rewrite list_lookup_insert_eq. }
      destruct (busy (Beast a')) eqn:Hb'; [|lia]. simpl in Hb'. rewrite Hx' in Hfw. simpl in Hfw. rewrite Hb' in Hfw.
      apply lookup_lt_Some in Hst. destruct Hfw as [Hfw|Hfw]; [lia|done].
  - split_and!; try done.
  - exists p'. done.
Qed.

(** Nobody busy: first the one that holds the mutex, then the others. *)
Lemma all_calm p : waiting p → ∃ p', to act p p' ∧ waiting p' ∧ length (threads p') = length (threads p) ∧
  ∀ j t, threads p' !! j = Some t → busy t = false.
Proof.
  intros Hw. destruct (to_measure act (λ q, waiting q ∧ length (threads q) = length (threads p))
    (λ q, ∀ j t, threads q !! j = Some t → busy t = false) (λ q, Z.to_nat (count busy (threads q)))) with (p := p)
    as (p' & Hto & (Hw' & Hl) & HQ); [|done|by exists p'].
  intros q [Hq Hl]. destruct (decide (count busy (threads q) = 0)) as [H0|Hn0]; [left; by apply count_zero|right].
  pose proof (waiting_kitchen q Hq) as Hk. pose proof (count_nonneg busy (threads q)).
  assert (∃ i t, threads q !! i = Some t ∧ busy t = true ∧ only holds i (threads q)) as (i & t & Ht & Hb & Ho).
  { destruct (decide (count holds (threads q) = 0)) as [Hh|Hh].
    - destruct (count_exists busy (threads q)) as (i & t & Ht & Hb); [lia|]. exists i, t. split_and!; [done|done|].
      intros j u _ Hj. by apply (count_zero holds _ Hh j).
    - pose proof (count_nonneg holds (threads q)). destruct (count_exists holds (threads q)) as (i & t & Ht & Hh'); [lia|].
      exists i, t. split_and!; [done|by destruct t; [|simpl in *; unfold busy_ctx; rewrite Hh']|].
      intros j u Hne Hj. destruct (holds u) eqn:Hu; [|done]. destruct Hne.
      apply (count_unique holds (threads q) j i u t); try done. pose proof (k_mutex _ _ Hk). lia. }
  destruct i as [|i]; [destruct Hq as [_ [n Hn]]; assert (t = Driver (DWait n)) as -> by congruence; done|].
  destruct (calm_down q i Hq) as (q' & Hto & Hq' & Hl' & Hsame & Hcalm); [by eexists|done|].
  exists q'. split; [done|]. split; [split; [done|congruence]|].
  destruct (lookup_lt_is_Some_2 (threads q') (S i)) as [t' Ht']; [rewrite Hl'; by eapply lookup_lt_Some|].
  assert (threads q' = <[S i := t']> (threads q)) as ->.
  { apply list_eq. intros j. destruct (decide (j = S i)) as [->|Hne].
    - rewrite list_lookup_insert_eq by (by eapply lookup_lt_Some). done.
    - rewrite list_lookup_insert_ne by done. by apply Hsame. }
  rewrite (count_insert _ _ _ t) by done. rewrite Hb, (Hcalm t' Ht'). simpl. lia.
Qed.

(** ** One animal finishes while the others are not busy *)

Definition work (a : animal) : nat := Z.to_nat (NLOOPS - round a) * 100 + (length animal_code - pc a).

Section alone.
Context (k : kitchen) (ls : list thread) (i : nat) (a : animal) (x : ctx).
Hypothesis Hk : kitchen_ok k ls.
Hypothesis Ha : ls !! i = Some (Beast a).
Hypothesis Hx : ctxs !! pc a = Some x.
Hypothesis Honly : only busy i ls.

Lemma nobody (P : thread → bool) :
  (∀ t, P t = true → busy t = true) → P (Beast a) = false → count P ls = 0.
Proof using Ha Honly.
  intros HP Hself. apply count_none. intros j t Hj. destruct (decide (j = i)) as [->|Hne]; [congruence|].
  destruct (P t) eqn:E; [|done]. specialize (HP t E). by rewrite (Honly j t Hne Hj) in HP.
Qed.

Lemma bowl_mine_free c :
  x_marked x = false → bowls k !! Z.to_nat (bowl a - 1) = Some c → (c =? mark (who a)) = false.
Proof using Hk Ha Hx Honly.
  intros Hm Hc. destruct (k_marks _ _ Hk _ _ Hc) as [_ Hcnt]. specialize (Hcnt (who a)). rewrite nobody in Hcnt.
  - by destruct (c =? mark (who a)).
  - intros [|b]; [done|]. simpl. intros [[_ Hb]%andb_prop _]%andb_prop. unfold busy_ctx. rewrite Hb. by rewrite orb_true_r.
  - simpl. unfold ctx_of. rewrite Hx. simpl. rewrite Hm. by rewrite andb_false_r.
Qed.

Lemma others_hungry : (0 <? eating k (other (who a))) = false.
Proof using Hk Ha Honly.
  rewrite (k_eat _ _ Hk), nobody; [done| |].
  - intros [|b]; [done|]. simpl. intros [_ Hb]%andb_prop. unfold busy_ctx. rewrite Hb. by rewrite orb_true_r.
  - simpl. by rewrite bool_decide_false by (by destruct (who a)).
Qed.

Lemma work_next n : (pc a < n)%nat → (pc a < length animal_code)%nat → (work (at_pc n a) < work a)%nat.
Proof using Type. unfold work. simpl. lia. Qed.

Lemma steady_step st a' k' :
  ¬ detour (pc a) → animal_code !! pc a = Some st → run_stmt 0 st a k = Goes (Beast a') k' [] →
  (work a' < work a)%nat ∧ ¬ detour (pc a').
Proof using Hk Ha Hx Honly.
  intros Hnd Hst Hrun. pose proof (lookup_lt_Some _ _ _ Hst) as Hlt.
  destruct (code_facts _ _ Hx) as (_ & Hsd & _). unfold steady in Hsd. rewrite Hst in Hsd.
  destruct (old_facts k ls i a x Hk Ha Hx) as ((Hr0 & Hr & _) & _ & _ & Hsome).
  destruct (animals_typed _ _ Hx) as [_ Hty]. rewrite Hst in Hty. destruct Hty as [(Hpre & _) _].
  assert (∀ b, round b = round a → pc b = S (pc a) → (work b < work a)%nat) as Hnext.
  { intros b Hb Hpc. unfold work. rewrite Hb, Hpc. clear -Hlt. lia. }
  assert (∀ n, (0 < n)%nat → (work (at_pc (pc a + n) a) < work a)%nat) as Hskip.
  { intros n Hn. unfold work. cbn [at_pc pc round]. clear -Hlt Hn. lia. }
  assert (∀ b k'', round b = round a → pc b = S (pc a) → ¬ detour (S (pc a)) → Goes (Beast b) k'' [] = Goes (Beast a') k' [] →
    (work a' < work a)%nat ∧ ¬ detour (pc a')) as Hgo.
  { intros b k'' Hb Hpc Hd [= <- _]. rewrite Hpc. split; [by apply Hnext|done]. }
  destruct st; simpl in Hrun; try (destruct Hsd as [?|Hsd]; [done|]); try (by eapply Hgo; [| | |exact Hrun]);
    try (by case_match; [done|]; eapply Hgo; [| | |exact Hrun]); try (by case_match; [|done]; eapply Hgo; [| | |exact Hrun]);
    try (by case_match; [|done]; case_match; [|done]; eapply Hgo; [| | |exact Hrun]).
  - destruct Hsd as (Hd1 & Hd2 & Hn). case_match; [by eapply Hgo; [| | |exact Hrun]|].
    injection Hrun as <- _. split; [by apply Hskip|done].
  - destruct Hsd as [Hd Hn]. injection Hrun as <- _. split; [|done]. specialize (Hr (proj1 Hpre)). unfold work. cbn [at_pc pc round set_round].
    change (length animal_code) with 39%nat in *. clear -Hr Hn Hlt. lia.
  - destruct Hsd as (Hd & Hm & _ & Hb). destruct (Hsome Hb) as [c Hc]. rewrite Hc, (bowl_mine_free c Hm Hc) in Hrun.
    by eapply Hgo; [| | |exact Hrun].
  - rewrite others_hungry in Hrun. by eapply Hgo; [| |apply Hsd|exact Hrun].
  - destruct Hsd as (Hd & Hn & Hm & _ & Hb). destruct (Hsome Hb) as [c Hc]. rewrite Hc, (bowl_mine_free c Hm Hc) in Hrun.
    injection Hrun as <- _. split; [by apply Hskip|done].
  - destruct Hsd as (Hd & Hn & _). rewrite others_hungry in Hrun. injection Hrun as <- _. split; [by apply Hskip|done].
Qed.
End alone.

Definition undone (i : nat) (p : pool thread kitchen) : nat :=
  match threads p !! S i with Some (Beast a) => work a | _ => 0 end.

Lemma busy_holds t : holds t = true → busy t = true.
Proof. destruct t; [done|]. simpl. unfold busy_ctx. by intros ->. Qed.

Lemma finish_one p i :
  waiting p → is_Some (threads p !! S i) → (∀ j t, threads p !! j = Some t → busy t = false) →
  ∃ p', to act p p' ∧ waiting p' ∧ length (threads p') = length (threads p) ∧
    (∀ j, j ≠ S i → threads p' !! j = threads p !! j) ∧ (∀ t, threads p' !! S i = Some t → finished t = true).
Proof.
  intros Hw Hs Hcalm.
  destruct (to_measure act (λ q, waiting q ∧ length (threads q) = length (threads p) ∧
      (∃ a, threads q !! S i = Some (Beast a) ∧ ¬ detour (pc a)) ∧ ∀ j, j ≠ S i → threads q !! j = threads p !! j)
    (λ q, ∀ t, threads q !! S i = Some t → finished t = true) (undone i)) with (p := p) as (p' & Hto & (Hw' & Hl & _ & Hsame) & HQ).
  - intros q (Hq & Hl & (a & Ht & Hnd) & Hsame). pose proof (waiting_kitchen q Hq) as Hk.
    assert (only busy (S i) (threads q)) as Hob.
    { intros j t Hne Hj. rewrite Hsame in Hj by done. by apply (Hcalm j). }
    assert (only holds (S i) (threads q)) as Hoh.
    { intros j t Hne Hj. destruct (holds t) eqn:E; [|done]. apply busy_holds in E. by rewrite (Hob j t Hne Hj) in E. }
    destruct (beast_typed _ _ _ _ Hk Ht) as [[_ Hty] Hx]. destruct (animal_code !! pc a) as [st|] eqn:Hst.
    2: { left. intros t Ht'. assert (t = Beast a) as -> by congruence. simpl. by rewrite Hty. }
    right. destruct (solo_step q i a st Hq Ht Hst Hoh) as (a' & k' & Hrun & Hto & Hw').
    destruct (steady_step _ _ _ _ _ Hk Ht Hx Hob st a' k' Hnd Hst Hrun) as [Hlt Hnd'].
    exists (stepped q i a' k'). pose proof (lookup_lt_Some _ _ _ Ht) as Hlen. split; [done|]. split.
    + split_and!; simpl; [done|by rewrite length_insert|exists a'; by rewrite list_lookup_insert_eq|].
      intros j Hj. rewrite list_lookup_insert_ne by done. by apply Hsame.
    + unfold undone. cbn [threads]. by rewrite Ht, list_lookup_insert_eq.
  - split_and!; try done. destruct Hs as [t Ht]. destruct (i_beasts _ (proj1 Hw) i t Ht) as [a ->]. exists a. split; [done|].
    intros Hd. pose proof (waiting_kitchen p Hw) as Hk. destruct (beast_typed _ _ _ _ Hk Ht) as [_ Hx].
    destruct (code_facts _ _ Hx) as (_ & _ & Hdb). specialize (Hdb Hd). specialize (Hcalm _ _ Ht). simpl in Hcalm. congruence.
  - exists p'. done.
Qed.

(** ** All of them, and the first thread *)

Lemma finished_not_busy k ls i t : kitchen_ok k ls → ls !! i = Some t → finished t = true → busy t = false.
Proof.
  intros Hk Ht Hf. destruct t as [|a]; [done|]. simpl in *. destruct (beast_typed _ _ _ _ Hk Ht) as [[_ Hty] _].
  destruct (animal_code !! pc a); [destruct Hty as [_ Hd]; congruence|]. by rewrite Hty.
Qed.

Definition left_over : thread → bool := beast (λ _ x, negb (x_done x)).

Lemma all_done p : waiting p → (∀ j t, threads p !! j = Some t → busy t = false) →
  ∃ p', to act p p' ∧ waiting p' ∧ ∀ j t, threads p' !! S j = Some t → finished t = true.
Proof.
  intros Hw Hcalm. destruct (to_measure act (λ q, waiting q ∧ ∀ j t, threads q !! j = Some t → busy t = false)
    (λ q, ∀ j t, threads q !! S j = Some t → finished t = true) (λ q, Z.to_nat (count left_over (threads q)))) with (p := p)
    as (p' & Hto & (Hw' & _) & HQ); [|done|by exists p'].
  intros q [Hq Hc]. destruct (decide (count left_over (threads q) = 0)) as [H0|Hn0].
  { left. intros j t Ht. destruct (i_beasts _ (proj1 Hq) j t Ht) as [a ->]. pose proof (count_zero _ _ H0 _ _ Ht) as Hz.
    simpl in *. by destruct (x_done (ctx_of a)). }
  right. pose proof (count_nonneg left_over (threads q)). destruct (count_exists left_over (threads q)) as (i & t & Ht & Hl); [lia|].
  destruct i as [|i]; [destruct Hq as [_ [n Hn]]; assert (t = Driver (DWait n)) as -> by congruence; done|].
  destruct (finish_one q i Hq) as (q' & Hto & Hq' & Hlen & Hsame & Hfin); [by eexists|done|].
  exists q'. destruct (lookup_lt_is_Some_2 (threads q') (S i)) as [t' Ht']; [rewrite Hlen; by eapply lookup_lt_Some|].
  split; [done|]. split; [split; [done|]|].
  - intros j u Hu. destruct (decide (j = S i)) as [->|Hne]; [|rewrite Hsame in Hu by done; by apply (Hc j)].
    apply (finished_not_busy _ _ _ _ (waiting_kitchen q' Hq') Hu). by apply Hfin.
  - assert (threads q' = <[S i := t']> (threads q)) as ->.
    { apply list_eq. intros j. destruct (decide (j = S i)) as [->|Hne].
      - rewrite list_lookup_insert_eq by (by eapply lookup_lt_Some). done.
      - rewrite list_lookup_insert_ne by done. by apply Hsame. }
    rewrite (count_insert _ _ _ t) by done. rewrite Hl. specialize (Hfin t' Ht'). destruct t' as [|a']; [done|].
    simpl in *. rewrite Hfin. simpl. lia.
Qed.

(** The first thread goes on as long as it is not waiting for the animals. *)
Definition to_start (d : driver) : nat :=
  match d with DInit => 20 | DCats n => 10 + Z.to_nat (NCATS - n) | DMice n => 1 + Z.to_nat (NMICE - n) | _ => 0 end.
Definition to_collect (d : driver) : nat := match d with DWait i => 1 + Z.to_nat (NCATS + NMICE - i) | _ => 0 end.
Definition of_driver (f : driver → nat) (p : pool thread kitchen) : nat :=
  match threads p !! 0%nat with Some (Driver d) => f d | _ => 0 end.

Lemma drive_step p d d' k' new :
  inv p → threads p !! 0%nat = Some (Driver d) → act 0 (Driver d) (shared p) = Goes (Driver d') k' new →
  to act p (Pool k' (<[0%nat := Driver d']> (threads p) ++ new)) ∧ inv (Pool k' (<[0%nat := Driver d']> (threads p) ++ new)) ∧
  (<[0%nat := Driver d']> (threads p) ++ new) !! 0%nat = Some (Driver d').
Proof.
  intros Hi Hd Ha. split_and!.
  - by eapply (to_step act 0%nat 0 (Driver d)).
  - pose proof (animals_safe p 0 0 _ Hi Hd) as Hs. by rewrite Ha in Hs.
  - apply lookup_lt_Some in Hd. rewrite lookup_app_l by (by rewrite length_insert). by rewrite list_lookup_insert_eq.
Qed.

Lemma all_started p : inv p → threads p !! 0%nat ≠ Some (Driver DDone) → ∃ p', to act p p' ∧ waiting p'.
Proof.
  intros Hi Hn. destruct (to_measure act (λ q, inv q ∧ threads q !! 0%nat ≠ Some (Driver DDone)) (λ q, waiting q) (of_driver to_start))
    with (p := p) as (p' & Hto & _ & HQ); [|done|by exists p'].
  intros q [Hq Hnd]. destruct (i_driver _ Hq) as (d & Hd & Hok & _).
  assert (∀ d' k' new, act 0 (Driver d) (shared q) = Goes (Driver d') k' new → d' ≠ DDone → (to_start d' < to_start d)%nat →
    waiting q ∨ ∃ p', to act q p' ∧ (inv p' ∧ threads p' !! 0%nat ≠ Some (Driver DDone)) ∧ (of_driver to_start p' < of_driver to_start q)%nat) as Hgo.
  { intros d' k' new Ha Hd' Hlt. destruct (drive_step q d d' k' new Hq Hd Ha) as (Hto & Hi' & Hl). right. eexists. split; [exact Hto|].
    split; [split; [done|]|unfold of_driver; by rewrite Hd; cbn [threads]; rewrite Hl]. cbn [threads]. rewrite Hl. congruence. }
  destruct d as [|n|n|n|]; [| | |left; split; [done|by exists n]|done]; simpl in Hok.
  - eapply Hgo; [reflexivity|done|]. unfold to_start, NCATS. lia.
  - destruct (n <? NCATS) eqn:E; (eapply Hgo; [simpl; rewrite E; reflexivity|done|]); unfold to_start, NCATS, NMICE in *; lia.
  - destruct (n <? NMICE) eqn:E; (eapply Hgo; [simpl; rewrite E; reflexivity|done|]); unfold to_start, NCATS, NMICE in *; lia.
Qed.

(** Once all animals are done the semaphore has been raised often enough. *)
Lemma all_collected p :
  waiting p → (∀ j t, threads p !! S j = Some t → finished t = true) →
  ∃ p', to act p p' ∧ inv p' ∧ threads p' !! 0%nat = Some (Driver DDone).
Proof.
  intros Hw Hfin.
  destruct (to_measure act (λ q, inv q ∧ (threads q !! 0%nat = Some (Driver DDone) ∨
      waiting q ∧ ∀ j t, threads q !! S j = Some t → finished t = true))
    (λ q, threads q !! 0%nat = Some (Driver DDone)) (of_driver to_collect)) with (p := p) as (p' & Hto & (Hi & _) & HQ).
  - intros q (Hq & [Hd|(Hwq & Hf)]); [by left|right]. pose proof (waiting_kitchen q Hwq) as Hk. destruct Hwq as [_ [n Hd]].
    destruct (i_driver _ Hq) as (d & Hd' & Hok & Hlen & Hr). assert (d = DWait n) as -> by congruence.
    destruct Hr as (_ & Hw0 & Hc). simpl in Hok, Hlen, Hc.
    assert (count finished (threads q) = NCATS + NMICE) as Hall.
    { destruct (threads q) as [|t0 ts] eqn:Hts; [done|]. simpl in Hd. injection Hd as ->. rewrite count_cons. simpl in Hlen |- *.
      rewrite (count_full finished ts) by (intros i t Ht; by apply (Hf i)). lia. }
    destruct (n <? NCATS + NMICE) eqn:E.
    + destruct (drive_step q (DWait n) (DWait (n + 1)) (set_wait (CatMouseWait (shared q) - 1) (shared q)) [] Hq Hd) as (Hto & Hi' & Hl).
      { simpl. rewrite E. replace (CatMouseWait (shared q) =? 0) with false by lia. done. }
      eexists. split; [exact Hto|]. rewrite app_nil_r in *. split.
      * split; [done|]. right. split; [split; [done|by exists (n + 1)]|]. intros j t Hj. cbn [threads] in Hj.
        rewrite list_lookup_insert_ne in Hj by done. by apply (Hf j).
      * unfold of_driver. rewrite Hd. cbn [threads]. rewrite Hl. unfold to_collect. lia.
    + destruct (drive_step q (DWait n) DDone (cleanup_bowls (shared q)) [] Hq Hd) as (Hto & Hi' & Hl); [simpl; by rewrite E|].
      eexists. split; [exact Hto|]. split; [split; [done|by left]|]. unfold of_driver. rewrite Hd. cbn [threads]. rewrite Hl. simpl. lia.
  - split; [apply Hw|by right].
  - by exists p'.
Qed.

(** C16: the program can always finish.  Whatever has happened so far, unless a creation or a fork
    failed, there is a way to go on after which [catmousesem] gets to its return and every cat and
    mouse has run to its end: no deadlock is reachable, and no state from which the busy waiting
    could only go on for ever. *)
Theorem catmousesem_can_finish (k : kitchen) (cs : list choice) (p : pool thread kitchen) :
  prun act cs (start k) = inl p →
  ∃ cs' p', prun act cs' p = inl p' ∧ threads p' !! 0%nat = Some (Driver DDone) ∧
    ∀ i a, threads p' !! i = Some (Beast a) → pc a = length (code a).
Proof.
  intros Hrun. pose proof (prun_safe act inv (λ w, w = WError) (λ i r t p, animals_safe p i r t) cs (start k) (kitchen_start_inv k)) as Hi.
  rewrite Hrun in Hi. simpl in Hi.
  assert (∃ p', to act p p' ∧ inv p' ∧ threads p' !! 0%nat = Some (Driver DDone)) as (p' & [cs' Hto] & Hi' & Hd).
  { destruct (i_driver _ Hi) as (d & Hd & _). destruct (decide (d = DDone)) as [->|Hn]; [exists p; eauto using to_refl|].
    destruct (all_started p Hi ltac:(congruence)) as (p1 & H1 & Hw1). destruct (all_calm p1 Hw1) as (p2 & H2 & Hw2 & _ & Hc2).
    destruct (all_done p2 Hw2 Hc2) as (p3 & H3 & Hw3 & Hf3). destruct (all_collected p3 Hw3 Hf3) as (p4 & H4 & Hi4 & Hd4).
    exists p4. split; [|done]. by eapply to_trans; [|eapply to_trans; [|eapply to_trans]]. }
  exists cs', p'. split_and!; [done|done|]. intros i a Ha. destruct (i_driver _ Hi') as (d & Hd' & _ & _ & Hr).
  assert (d = DDone) as -> by congruence. destruct (Hr i a Ha) as [-> _]. unfold code. by destruct (who a).
Qed.

Definition empty_house : kitchen := Kitchen [] (λ _, 0) (λ _, 0) 0 0.

(** All are started, the first cat eats, and the second mouse waits for the cats. *)
Definition cat_eats : list choice :=
  replicate 11 (0%nat, 0) ++ replicate 20 (1%nat, 0) ++ replicate 3 (7%nat, 0) ++ replicate 7 (8%nat, 1).

Definition positions (p : pool thread kitchen + why) : option (list nat) :=
  match p with
  | inl p => Some ((λ t, match t with Beast a => pc a | Driver _ => 0%nat end) <$> threads p)
  | inr _ => None
  end.

Lemma catmousesem_can_finish_witness :
  ∃ p, prun act cat_eats (start empty_house) = inl p ∧ positions (inl p) = Some [0; 24; 0; 0; 0; 0; 0; 3; 7]%nat ∧
  ∃ cs' p', prun act cs' p = inl p' ∧ threads p' !! 0%nat = Some (Driver DDone) ∧
    ∀ i a, threads p' !! i = Some (Beast a) → pc a = length (code a).
Proof.
  assert (positions (prun act cat_eats (start empty_house)) = Some [0; 24; 0; 0; 0; 0; 0; 3; 7]%nat) as E
    by (vm_compute; reflexivity).
  destruct (prun act cat_eats (start empty_house)) as [p|w] eqn:Hp; [|discriminate E].
  exists p. split; [reflexivity|]. split; [exact E|]. exact (catmousesem_can_finish empty_house cat_eats p Hp).
Defined.
