(* ===== verification/Vfs.v ===== *)
(** * The virtual file system layer (kern/fs/vfs)

    The table of named devices (vfslist.c), the translation of path names (vfslookup.c), the current
    directory (vfscwd.c) and the operations on path names (vfspath.c).  They call vnodes and file
    systems through tables of functions: the class [Vnodes] is [struct vnode_ops] and [struct fs],
    with the counts of vnode.c, on any environment [E].  The state is that of the thread system with
    the variables of this layer around [E].

    The routines run one at a time, as in SfsNode: a lock that is not free when one of them takes it
    is [FLoop].  A path is the list of its characters before the final zero; the zero that
    [getdevice] writes over a colon ends the device name, and no caller reads the path afterwards. *)

From S2P Require Import Prelude StateM Heap KArray KState Owned Synch Uio SfsDisk Sfs SfsVolume.

Definition NAME_MAX : Z := 255.
Definition O_WRONLY : Z := 1.
Definition O_RDWR : Z := 2.
Definition O_CREAT : Z := 4.
Definition O_EXCL : Z := 8.
Definition O_TRUNC : Z := 16.
Definition S_IFMT : Z := 0x7000.
Definition S_ISDIR (mode : Z) : bool := Z.land mode S_IFMT =? S_IFDIR.
Definition COLON : Z := 58.
Definition SLASH : Z := 47.

(** ** What lies below *)

Class Vnodes (H E : Type) := {
  vop_incref : Z → stm (kst H E) unit;
  vop_decref : Z → stm (kst H E) unit;
  vop_incopen : Z → stm (kst H E) unit;
  vop_decopen : Z → stm (kst H E) unit;
  vn_fs : Z → stm (kst H E) Z;
  vop_open : Z → Z → stm (kst H E) Z;
  vop_readlink : Z → uio → stm (kst H E) (Z * uio);
  vop_gettype : Z → stm (kst H E) (Z * Z);
  vop_truncate : Z → Z → stm (kst H E) Z;
  vop_namefile : Z → uio → stm (kst H E) (Z * uio);
  vop_creat : Z → list Z → bool → stm (kst H E) (Z * Z);
  vop_symlink : Z → list Z → list Z → stm (kst H E) Z;
  vop_mkdir : Z → list Z → stm (kst H E) Z;
  vop_link : Z → list Z → Z → stm (kst H E) Z;
  vop_remove : Z → list Z → stm (kst H E) Z;
  vop_rmdir : Z → list Z → stm (kst H E) Z;
  vop_rename : Z → list Z → Z → list Z → stm (kst H E) Z;
  vop_lookup : Z → list Z → stm (kst H E) (Z * Z);
  vop_lookparent : Z → list Z → Z → stm (kst H E) (Z * Z * list Z);
  fs_sync : Z → stm (kst H E) Z;
  fs_getvolname : Z → stm (kst H E) (option (list Z));
  fs_getroot : Z → stm (kst H E) Z;
  fs_unmount : Z → stm (kst H E) Z;
  dev_create_vnode : Z → stm (kst H E) Z;
  vnode_free : Z → stm (kst H E) unit;   (* kfree of the block of a vnode *)
  null_device : Z → stm (kst H E) unit;  (* the functions and sizes of the null device, stored in a block *)
}.

(** ** The state *)

(** A string in memory: its block and its characters. *)
Record kstr := KStr { ks_ptr : Z; ks_text : list Z }.

Record knowndev := Knowndev {
  kd_name : kstr;
  kd_rawname : option kstr;
  kd_device : Z;
  kd_vnode : Z;
  kd_fs : Z;
}.
Definition KNOWNDEV_SIZE : Z := 20.
Definition kd_set_fs (x : Z) (kd : knowndev) : knowndev :=
  Knowndev (kd_name kd) (kd_rawname kd) (kd_device kd) (kd_vnode kd) x.

Record vfs (E : Type) := Vfs {
  knowndevs : option array;
  knowndevs_lock : Z;
  bootfs_vnode : Z;
  bootfs_lock : Z;
  kd_mem : gmap Z knowndev;
  v_env : E;
}.
Arguments Vfs {E}. Arguments knowndevs {E}. Arguments knowndevs_lock {E}. Arguments bootfs_vnode {E}.
Arguments bootfs_lock {E}. Arguments kd_mem {E}. Arguments v_env {E}.

Section setters.
Context {E : Type}.
Implicit Types x : vfs E.
Definition set_knowndevs a x := Vfs a (knowndevs_lock x) (bootfs_vnode x) (bootfs_lock x) (kd_mem x) (v_env x).
Definition set_knowndevs_lock l x := Vfs (knowndevs x) l (bootfs_vnode x) (bootfs_lock x) (kd_mem x) (v_env x).
Definition set_bootfs p x := Vfs (knowndevs x) (knowndevs_lock x) p (bootfs_lock x) (kd_mem x) (v_env x).
Definition set_bootfs_lock l x := Vfs (knowndevs x) (knowndevs_lock x) (bootfs_vnode x) l (kd_mem x) (v_env x).
Definition set_kds m x := Vfs (knowndevs x) (knowndevs_lock x) (bootfs_vnode x) (bootfs_lock x) m (v_env x).
Definition set_venv (e : E) x := Vfs (knowndevs x) (knowndevs_lock x) (bootfs_vnode x) (bootfs_lock x) (kd_mem x) e.
End setters.

(** The same kernel around another environment. *)
Definition with_env {H E E'} (e : E') (k : kst H E) : kst H E' :=
  KST (k_heap k) (k_threads k) (k_cur k) (k_sleepers k) (k_zombies k) (k_runq k) (k_num k)
    (k_cvone k) (k_inint k) (k_spl k) (k_kstack k) (k_tlb k) (k_sems k) (k_locks k)
    (k_cvs k) (k_procs k) (k_ptable k) (k_clock k) e.
Definition below {H E} (k : kst H (vfs E)) : kst H E := with_env (v_env (k_env k)) k.

Section vfs.
Context {H E : Type} `{KHeap H} `{Vnodes H E}.
Abbreviation V := (stm (kst H (vfs E))).

(** A call below this layer. *)
Definition low {A} (m : stm (kst H E) A) : V A := λ k,
  match m (below k) with
  | Ok (a, k') => Ok (a, with_env (set_venv (k_env k') (k_env k)) k')
  | Fault e => Fault e
  end.

Definition upd_vfs (f : vfs E → vfs E) : V unit := zoom k_env set_env (modify f).

(** ** The current directory (vfscwd.c) *)

Definition curdir : V Z := cur ← gets k_cur; th ← get_thread cur; mret (t_cwd th).
Definition put_curdir (p : Z) : V unit := cur ← gets k_cur; upd_thread cur (th_set_cwd p).

(** The code and the vnode. *)
Definition vfs_getcurdir : V (Z * Z) :=
  cwd ← curdir;
  if negb (cwd =? NULL) then _ ← low (vop_incref cwd); mret (0, cwd)
  else mret (ENOENT, NULL).

Definition vfs_setcurdir (dir : Z) : V Z :=
  '(result, vtype) ← low (vop_gettype dir);
  if negb (result =? 0) then mret result
  else if negb (S_ISDIR vtype) then mret ENOTDIR
  else
    _ ← low (vop_incref dir);
    old ← curdir;
    _ ← put_curdir dir;
    _ ← (if negb (old =? NULL) then low (vop_decref old) else mret tt);
    mret 0.

Definition vfs_clearcurdir : V Z :=
  old ← curdir;
  _ ← put_curdir NULL;
  _ ← (if negb (old =? NULL) then low (vop_decref old) else mret tt);
  mret 0.

(** ** The table of devices (vfslist.c) *)

Definition known : V array := get_opt (λ k, knowndevs (k_env k)).
Definition get_kd (p : Z) : V knowndev := λ k,
  match kd_mem (k_env k) !! p with Some kd => Ok (kd, k) | None => Fault FUndef end.
Definition put_kd (p : Z) (kd : knowndev) : V unit := upd_vfs (λ x, set_kds (<[p := kd]> (kd_mem x)) x).

(** The search of the table: the first device for which [body] answers something. *)
Definition scan {R} (body : Z → knowndev → V (option R)) : V (option R) :=
  a ← known;
  mwhile (S (Z.to_nat (array_getnum a))) (λ i,
    if i <? array_getnum a then
      a ← known;
      p ← lift (array_getguy a i);
      kd ← get_kd p;
      r ← body p kd;
      match r with Some x => mret (inr (Some x)) | None => mret (inl (i + 1)) end
    else mret (inr None)) 0.

Definition vfs_sync : V Z :=
  lk ← gets (λ k, knowndevs_lock (k_env k));
  _ ← acquire lk;
  _ ← scan (λ _ kd,
        _ ← (if negb (kd_fs kd =? NULL) then low (fs_sync (kd_fs kd)) else mret 0);
        mret (@None unit));
  _ ← lock_release lk;
  mret 0.

Definition is_text (s : kstr) (t : list Z) : bool := bool_decide (ks_text s = t).
Definition is_raw (s : option kstr) (t : list Z) : bool := match s with Some s => is_text s t | None => false end.
Definition is_vol (v : option (list Z)) (t : list Z) : bool := match v with Some v => bool_decide (v = t) | None => false end.

(** What one device answers to a name, if it has it. *)
Definition kd_match (devname : list Z) (kd : knowndev) : V (option (Z * Z)) :=
  let itself :=
    _ ← asrt (negb (kd_device kd =? NULL));
    _ ← low (vop_incref (kd_vnode kd));
    mret (Some (0, kd_vnode kd)) in
  let by_device :=
    if is_text (kd_name kd) devname then
      _ ← asrt (kd_fs kd =? NULL);
      _ ← asrt (match kd_rawname kd with None => true | Some _ => false end);
      itself
    else if is_raw (kd_rawname kd) devname then itself
    else mret None in
  if negb (kd_fs kd =? NULL) then
    volname ← low (fs_getvolname (kd_fs kd));
    if is_text (kd_name kd) devname || is_vol volname devname then
      root ← low (fs_getroot (kd_fs kd)); mret (Some (0, root))
    else by_device
  else
    match kd_rawname kd with
    | Some _ => if is_text (kd_name kd) devname then mret (Some (ENXIO, NULL)) else by_device
    | None => by_device
    end.

Definition vfs_getroot (devname : list Z) : V (Z * Z) :=
  lk ← gets (λ k, knowndevs_lock (k_env k));
  _ ← acquire lk;
  r ← scan (λ _ kd, kd_match devname kd);
  _ ← lock_release lk;
  mret (match r with Some x => x | None => (ENODEV, NULL) end).

Definition vfs_getdevname (fs : Z) : V (option (list Z)) :=
  _ ← asrt (negb (fs =? NULL));
  lk ← gets (λ k, knowndevs_lock (k_env k));
  _ ← acquire lk;
  r ← scan (λ _ kd, mret (if kd_fs kd =? fs then Some (ks_text (kd_name kd)) else None));
  _ ← lock_release lk;
  mret r.

(** A copy of a string, and the name of the raw device. *)
Definition dup (t : list Z) : V (option kstr) :=
  p ← kalloc (zlen t + 1); mret (if p =? NULL then None else Some (KStr p t)).
Definition raw : list Z := [114; 97; 119].
Definition mkrawname (name : list Z) : V (option kstr) :=
  p ← kalloc (zlen name + 3 + 1); mret (if p =? NULL then None else Some (KStr p (name ++ raw))).

Definition samestring (a b : option (list Z)) : bool :=
  match a, b with Some a, Some b => bool_decide (a = b) | _, _ => false end.
Definition samestring3 (a b c d : option (list Z)) : bool := samestring a b || samestring a c || samestring a d.

Definition badnames (n1 n2 n3 : option (list Z)) : V bool :=
  lk ← gets (λ k, knowndevs_lock (k_env k));
  _ ← asrt (negb (lock_do_i_hold lk =? 0));
  r ← scan (λ _ kd,
        volname ← (if negb (kd_fs kd =? NULL) then low (fs_getvolname (kd_fs kd)) else mret None);
        mret (if negb (kd_fs kd =? NULL) && samestring3 volname n1 n2 n3 then Some tt
              else if samestring3 (ks_text <$> kd_rawname kd) n1 n2 n3 || samestring3 (Some (ks_text (kd_name kd))) n1 n2 n3
                   then Some tt else None));
  mret (match r with Some _ => true | None => false end).

(** What the error exit gives back; it is reached only without a [knowndev]. *)
Definition puke (name rawname : option kstr) (vnode : Z) : V Z :=
  _ ← (match name with Some s => kfree_ (ks_ptr s) | None => mret tt end);
  _ ← (match rawname with Some s => kfree_ (ks_ptr s) | None => mret tt end);
  _ ← (if negb (vnode =? NULL) then low (vnode_free vnode) else mret tt);
  mret ENOMEM.

Definition vfs_doadd (dname : list Z) (mountable : bool) (dev fs : Z) : V Z :=
  name ← dup dname;
  match name with
  | None => puke None None NULL
  | Some name =>
      rawname ← (if mountable then mkrawname (ks_text name) else mret None);
      if mountable && match rawname with None => true | Some _ => false end then puke (Some name) None NULL
      else
        vnode ← low (dev_create_vnode dev);
        if vnode =? NULL then puke (Some name) rawname NULL
        else
          kd ← kalloc KNOWNDEV_SIZE;
          if kd =? NULL then puke (Some name) rawname vnode
          else
            _ ← put_kd kd (Knowndev name rawname dev vnode fs);
            volname ← (if negb (fs =? NULL) then low (fs_getvolname fs) else mret None);
            lk ← gets (λ k, knowndevs_lock (k_env k));
            _ ← acquire lk;
            bad ← badnames (Some (ks_text name)) (ks_text <$> rawname) volname;
            err ← (if negb bad then
                     a ← known;
                     '(r, a) ← heap_op (λ h, '(r, a, h) ← array_add a kd h; mret (r, a, h));
                     _ ← upd_vfs (set_knowndevs (Some a));
                     mret r
                   else mret EEXIST);
            _ ← lock_release lk;
            mret err
  end.

Definition vfs_adddev (devname : list Z) (dev : Z) (mountable : bool) : V Z := vfs_doadd devname mountable dev NULL.
Definition vfs_addfs (devname : list Z) (fs : Z) : V Z := vfs_doadd devname false NULL fs.

(** The code and the device. *)
Definition findmount (devname : list Z) : V (Z * Z) :=
  lk ← gets (λ k, knowndevs_lock (k_env k));
  _ ← asrt (negb (lock_do_i_hold lk =? 0));
  r ← scan (λ p kd,
        mret (match kd_rawname kd with
              | None => None
              | Some _ => if is_text (kd_name kd) devname then Some p else None
              end));
  mret (match r with Some p => (0, p) | None => (ENODEV, NULL) end).

Definition mounts (kd : knowndev) : V unit :=
  _ ← asrt (match kd_rawname kd with None => false | Some _ => true end);
  asrt (negb (kd_device kd =? NULL)).

(** [mountfunc] answers a code and a file system. *)
Definition vfs_mount (devname : list Z) (mountfunc : Z → stm (kst H E) (Z * Z)) : V Z :=
  lk ← gets (λ k, knowndevs_lock (k_env k));
  _ ← acquire lk;
  '(result, p) ← findmount devname;
  result ← (if negb (result =? 0) then mret result
            else
              kd ← get_kd p;
              if negb (kd_fs kd =? NULL) then mret EBUSY
              else
                _ ← mounts kd;
                '(result, fs) ← low (mountfunc (kd_device kd));
                if negb (result =? 0) then mret result
                else
                  _ ← asrt (negb (fs =? NULL));
                  _ ← put_kd p (kd_set_fs fs kd);
                  _ ← low (fs_getvolname fs);
                  mret 0);
  _ ← lock_release lk;
  mret result.

Definition vfs_unmount (devname : list Z) : V Z :=
  lk ← gets (λ k, knowndevs_lock (k_env k));
  _ ← acquire lk;
  '(result, p) ← findmount devname;
  result ← (if negb (result =? 0) then mret result
            else
              kd ← get_kd p;
              if kd_fs kd =? NULL then mret EINVAL
              else
                _ ← mounts kd;
                result ← low (fs_sync (kd_fs kd));
                if negb (result =? 0) then mret result
                else
                  result ← low (fs_unmount (kd_fs kd));
                  if negb (result =? 0) then mret result
                  else _ ← put_kd p (kd_set_fs NULL kd); mret 0);
  _ ← lock_release lk;
  mret result.

Definition unmount_one (p : Z) (kd : knowndev) : V unit :=
  match kd_rawname kd with
  | None => mret tt
  | Some _ =>
      if kd_fs kd =? NULL then mret tt
      else
        result ← low (fs_sync (kd_fs kd));
        result ← (if negb (result =? 0) then low (fs_sync (kd_fs kd)) else mret 0);
        if negb (result =? 0) then mret tt
        else
          result ← low (fs_unmount (kd_fs kd));
          if negb (result =? 0) then mret tt else put_kd p (kd_set_fs NULL kd)
  end.

Definition vfs_unmountall : V Z :=
  lk ← gets (λ k, knowndevs_lock (k_env k));
  _ ← acquire lk;
  _ ← scan (λ p kd, _ ← unmount_one p kd; mret (@None unit));
  _ ← lock_release lk;
  mret 0.

(** ** Path names (vfslookup.c) *)

Definition vfs_initbootfs : V unit :=
  _ ← upd_vfs (set_bootfs NULL);
  lk ← lock_create 11;
  _ ← upd_vfs (set_bootfs_lock lk);
  if lk =? NULL then fault_ FPanic else mret tt.

(** devnull.c *)
Definition DEVICE_SIZE : Z := 28.
Definition null : list Z := [110; 117; 108; 108].
Definition devnull_create : V unit :=
  dev ← kalloc DEVICE_SIZE;
  if dev =? NULL then fault_ FPanic
  else
    _ ← low (null_device dev);
    result ← vfs_adddev null dev false;
    if negb (result =? 0) then fault_ FPanic else mret tt.

Definition vfs_bootstrap : V unit :=
  oa ← heap_op array_create;
  _ ← upd_vfs (set_knowndevs oa);
  match oa with
  | None => fault_ FPanic
  | Some _ =>
      lk ← lock_create 9;
      _ ← upd_vfs (set_knowndevs_lock lk);
      if lk =? NULL then fault_ FPanic
      else _ ← vfs_initbootfs; devnull_create
  end.

Definition change_bootfs (newguy : Z) : V unit :=
  lk ← gets (λ k, bootfs_lock (k_env k));
  _ ← acquire lk;
  oldguy ← gets (λ k, bootfs_vnode (k_env k));
  _ ← upd_vfs (set_bootfs newguy);
  _ ← lock_release lk;
  if negb (oldguy =? NULL) then low (vop_decref oldguy) else mret tt.

Definition vfs_clearbootfs : V unit := change_bootfs NULL.

(** The first colon or slash: [slash] and [colon], -1 where there is none. *)
Fixpoint first_mark (i : Z) (path : list Z) : Z * Z :=
  match path with
  | [] => (-1, -1)
  | c :: path => if c =? COLON then (-1, i) else if c =? SLASH then (i, -1) else first_mark (i + 1) path
  end.

Fixpoint skip_slashes (path : list Z) : list Z :=
  match path with
  | [] => []
  | c :: rest => if c =? SLASH then skip_slashes rest else path
  end.

(** The code, the rest of the path and the vnode to start from. *)
Definition getdevice (path : list Z) : V (Z * list Z * Z) :=
  let '(slash, colon) := first_mark 0 path in
  if (colon <? 0) && negb (slash =? 0) then
    '(result, vn) ← vfs_getcurdir; mret (result, path, vn)
  else if colon >? 0 then
    let subpath := skip_slashes (drop (Z.to_nat (colon + 1)) path) in
    '(result, vn) ← vfs_getroot (take (Z.to_nat colon) path);
    mret (result, subpath, vn)
  else
    _ ← asrt ((colon =? 0) || (slash =? 0));
    c ← lift (getz path 0);
    '(result, vn) ←
      (if c =? SLASH then
         lk ← gets (λ k, bootfs_lock (k_env k));
         _ ← acquire lk;
         boot ← gets (λ k, bootfs_vnode (k_env k));
         if boot =? NULL then _ ← lock_release lk; mret (ENOENT, NULL)
         else
           _ ← low (vop_incref boot);
           _ ← lock_release lk;
           mret (0, boot)
       else
         _ ← asrt (c =? COLON);
         '(result, vn) ← vfs_getcurdir;
         if negb (result =? 0) then mret (result, NULL)
         else
           fs ← low (vn_fs vn);
           _ ← asrt (negb (fs =? NULL));
           root ← low (fs_getroot fs);
           _ ← low (vop_decref vn);
           mret (0, root));
    mret (result, skip_slashes (drop 1 path), vn).

(** The code, the directory and the last name. *)
Definition vfs_lookparent (path : list Z) (buflen : Z) : V (Z * Z * list Z) :=
  '(result, path, startvn) ← getdevice path;
  if negb (result =? 0) then mret (result, NULL, [])
  else
    r ← (if zlen path =? 0 then mret (EINVAL, NULL, [])
         else low (vop_lookparent startvn path buflen));
    _ ← low (vop_decref startvn);
    mret r.

Definition vfs_lookup (path : list Z) : V (Z * Z) :=
  '(result, path, startvn) ← getdevice path;
  if negb (result =? 0) then mret (result, NULL)
  else if zlen path =? 0 then mret (0, startvn)
  else
    r ← low (vop_lookup startvn path);
    _ ← low (vop_decref startvn);
    mret r.

Definition vfs_chdir (path : list Z) : V Z :=
  '(result, vn) ← vfs_lookup path;
  if negb (result =? 0) then mret result
  else
    result ← vfs_setcurdir vn;
    _ ← low (vop_decref vn);
    mret result.

Variable U : usermem.

Definition vfs_getcwd (u : uio) : V (Z * uio) :=
  _ ← asrt (bool_decide (uio_rw u = UIO_READ));
  '(result, cwd) ← vfs_getcurdir;
  if negb (result =? 0) then mret (result, u)
  else
    fs ← low (vn_fs cwd);
    _ ← asrt (negb (fs =? NULL));
    volname ← low (fs_getvolname fs);
    name ← (match volname with Some n => mret (Some n) | None => vfs_getdevname fs end);
    match name with
    | None => fault_ FPanic
    | Some name =>
        '(result, _, u) ← lift (uiomove U name 0 (zlen name) u);
        '(result, u) ←
          (if negb (result =? 0) then mret (result, u)
           else
             '(result, _, u) ← lift (uiomove U [COLON] 0 1 u);
             if negb (result =? 0) then mret (result, u) else low (vop_namefile cwd u));
        _ ← low (vop_decref cwd);
        mret (result, u)
    end.

(** The text the format [%s] leaves in a buffer of 255 characters; a colon found by [strchr] begins a
    string that is not empty. *)
Definition vfs_setbootfs (fsname : list Z) : V Z :=
  let tmp := take 254 fsname in
  if existsb (λ c, c =? COLON) tmp then mret EINVAL
  else
    result ← vfs_chdir (tmp ++ [COLON]);
    if negb (result =? 0) then mret result
    else
      '(result, newguy) ← vfs_getcurdir;
      if negb (result =? 0) then mret result
      else _ ← change_bootfs newguy; mret 0.

(** ** Operations on path names (vfspath.c) *)

Definition canwrite (how : Z) : option bool :=
  if how =? O_RDONLY then Some false
  else if (how =? O_WRONLY) || (how =? O_RDWR) then Some true else None.

(** The vnode that is to be opened. *)
Definition open_target (path : list Z) (openflags : Z) : V (Z * Z) :=
  if negb (Z.land openflags O_CREAT =? 0) then
    let excl := negb (Z.land openflags O_EXCL =? 0) in
    '(result, dir, name) ← vfs_lookparent path (NAME_MAX + 1);
    if negb (result =? 0) then mret (result, NULL)
    else
      r ← low (vop_creat dir name excl);
      _ ← low (vop_decref dir);
      mret r
  else vfs_lookup path.

Definition vfs_open (path : list Z) (openflags : Z) : V (Z * Z) :=
  match canwrite (Z.land openflags O_ACCMODE) with
  | None => mret (EINVAL, NULL)
  | Some canwrite =>
      '(result, vn) ← open_target path openflags;
      if negb (result =? 0) then mret (result, NULL)
      else
        _ ← asrt (negb (vn =? NULL));
        result ← low (vop_open vn openflags);
        if negb (result =? 0) then _ ← low (vop_decref vn); mret (result, NULL)
        else
          _ ← low (vop_incopen vn);
          result ← (if negb (Z.land openflags O_TRUNC =? 0) then
                      if negb canwrite then mret EINVAL else low (vop_truncate vn 0)
                    else mret 0);
          if negb (result =? 0) then
            _ ← low (vop_decopen vn);
            _ ← low (vop_decref vn);
            mret (result, NULL)
          else mret (0, vn)
  end.

Definition vfs_close (vn : Z) : V unit := _ ← low (vop_decopen vn); low (vop_decref vn).

(** The operations that look up a parent and call one of its operations. *)
Definition at_parent (path : list Z) (op : Z → list Z → stm (kst H E) Z) : V Z :=
  '(result, dir, name) ← vfs_lookparent path (NAME_MAX + 1);
  if negb (result =? 0) then mret result
  else
    result ← low (op dir name);
    _ ← low (vop_decref dir);
    mret result.

Definition vfs_remove (path : list Z) : V Z := at_parent path vop_remove.
Definition vfs_symlink (contents path : list Z) : V Z := at_parent path (λ dir name, vop_symlink dir name contents).
Definition vfs_mkdir (path : list Z) : V Z := at_parent path vop_mkdir.
Definition vfs_rmdir (path : list Z) : V Z := at_parent path vop_rmdir.

(** Whether two vnodes lie on different file systems. *)
Definition crosses (p q : Z) : V bool :=
  f ← low (vn_fs p);
  g ← low (vn_fs q);
  mret ((f =? NULL) || (g =? NULL) || negb (f =? g)).

Definition vfs_rename (oldpath newpath : list Z) : V Z :=
  '(result, olddir, oldname) ← vfs_lookparent oldpath (NAME_MAX + 1);
  if negb (result =? 0) then mret result
  else
    '(result, newdir, newname) ← vfs_lookparent newpath (NAME_MAX + 1);
    if negb (result =? 0) then _ ← low (vop_decref olddir); mret result
    else
      x ← crosses olddir newdir;
      result ← (if (x : bool) then mret EXDEV else low (vop_rename olddir oldname newdir newname));
      _ ← low (vop_decref newdir);
      _ ← low (vop_decref olddir);
      mret result.

Definition vfs_link (oldpath newpath : list Z) : V Z :=
  '(result, oldfile) ← vfs_lookup oldpath;
  if negb (result =? 0) then mret result
  else
    '(result, newdir, newname) ← vfs_lookparent newpath (NAME_MAX + 1);
    if negb (result =? 0) then _ ← low (vop_decref oldfile); mret result
    else
      x ← crosses oldfile newdir;
      result ← (if (x : bool) then mret EXDEV else low (vop_link newdir newname oldfile));
      _ ← low (vop_decref newdir);
      _ ← low (vop_decref oldfile);
      mret result.

Definition vfs_readlink (path : list Z) (u : uio) : V (Z * uio) :=
  '(result, vn) ← vfs_lookup path;
  if negb (result =? 0) then mret (result, u)
  else
    r ← low (vop_readlink vn u);
    _ ← low (vop_decref vn);
    mret r.
End vfs.
