(* ===== verification/VfsLaws.v ===== *)
(** * What the virtual file system layer relies on, and what it promises

    [VnodesLaws] states what vnodes and file systems promise: every operation keeps the kernel in
    order, a reference taken is a reference to give back, and the contents of the file systems
    change only as the operation may change them.  References are kept in a list; an open file is
    a reference that is marked as open.

    The promise of this layer is [vspec]: what each call on path names may answer and how the
    contents, the current directory and the boot file system change.  Counting, locking and the
    cleaning up after errors do not appear in it. *)

From S2P Require Import Prelude StateM Heap KArray Coremap KState Thread ThreadSpec ThreadHeap Owned Synch SynchSpec.
From S2P Require Import ProcSpec Uio SfsDisk Sfs SfsVolume Vfs.

(** ** References *)

(** An object is named by its file system and its number there; a device is an object of no file
    system. *)
Abbreviation oid := (Z * Z)%type.

Record vref := Ref { r_ptr : Z; r_fs : Z; r_obj : Z; r_open : bool }.
Definition r_oid (r : vref) : oid := (r_fs r, r_obj r).

#[export] Instance vref_eq_dec : EqDecision vref.
Proof. solve_decision. Defined.

(** A reference that an operation hands back when it succeeds. *)
Definition got (code p f o : Z) (R : list vref) : list vref := if code =? 0 then Ref p f o false :: R else R.

(** The operations that change a file system; a file that loses its last name stays while it is held. *)
Inductive dop :=
  | DRemove (d : oid) (name : list Z) (held : list oid)
  | DLink (d : oid) (name : list Z) (o : oid)
  | DRename (d1 : oid) (n1 : list Z) (d2 : oid) (n2 : list Z)
  | DMkdir (d : oid) (name : list Z)
  | DRmdir (d : oid) (name : list Z)
  | DSymlink (d : oid) (name contents : list Z)
  | DTruncate (o : oid) (len : Z).

Definition nozero (t : list Z) : Prop := ∀ c, c ∈ t → c ≠ 0.

(** What the kernel [k] has in the blocks [B]. *)
Definition here {H E} (k : kst H E) (B : list Z) : outer := Outer B (k_threads k) (k_locks k).

(** ** The laws *)

Class VnodesLaws (H E : Type) `{KHeapLaws H} `{Vnodes H E} := {
  fsys : Type;
  volname : fsys → Z → option (list Z);
  rootof : fsys → Z → Z;
  lasting : oid → Prop;
  finds : fsys → oid → list Z → Z → Z → Prop;
  parent : fsys → oid → list Z → Z → Z → Z → list Z → Prop;
  creates : fsys → oid → list Z → bool → Z → Z → fsys → Prop;
  does : fsys → dop → Z → fsys → Prop;
  drops : fsys → list oid → oid → fsys → Prop;
  opens : fsys → oid → Z → Z → Prop;
  kind : fsys → oid → Z → Z → Prop;
  names : fsys → oid → uio → Z → uio → Prop;
  driver : fsys → Z → Prop;
  ejects : fsys → Z → fsys → Prop;
  vmax : Z;
  vinv : kst H E → sched → outer → list vref → gset Z → fsys → Prop;

  (* the rest of the kernel *)
  l_base k s X R M a : vinv k s X R M a →
    srep k s ∧ k_inint k = 0 ∧ k_locks k !! NULL = None ∧ owned (k_heap k) X ∧
    (∀ t th, t ∈ s_sleep s → k_threads k !! t = Some th → t_sleepaddr th ∈ o_blocks X) ∧
    k_threads k = o_threads X ∧ (∀ b, b ∈ o_blocks X → k_locks k !! b = o_locks X !! b) ∧ NULL ∉ M;
  l_here k s X R M a B : vinv k s X R M a → o_blocks X ≡ₚ B → vinv k s (here k B) R M a;
  l_perm k s X R R' M a : vinv k s X R M a → R ≡ₚ R' → vinv k s X R' M a;
  l_heap k s A A' B R M a h : vinv k s (here k (A ++ B)) R M a → kh_inv h → NoDup A' →
    kh_live h = (kh_live (k_heap k) ∖ list_to_set A) ∪ list_to_set A' →
    (∀ b, b ∈ A' → b ∉ kh_live (k_heap k) ∖ list_to_set A) →
    (∀ t th, t ∈ s_sleep s → k_threads k !! t = Some th → t_sleepaddr th ∈ B) →
    vinv (set_heap h k) s (here k (A' ++ B)) R M a;
  l_locks k s B R M a L : vinv k s (here k B) R M a → (∀ b, b ∉ B → L !! b = k_locks k !! b) → L !! NULL = None →
    vinv (set_locks L k) s (here (set_locks L k) B) R M a;
  l_cwd k s B R M a th p : vinv k s (here k B) R M a → k_threads k !! k_cur k = Some th →
    let k' := set_threads (<[k_cur k := th_set_cwd p th]> (k_threads k)) k in vinv k' s (here k' B) R M a;

  (* references *)
  l_ref k s X R M a r : vinv k s X R M a → r ∈ R → r_ptr r ≠ NULL ∧ (r_fs r = NULL ∨ r_fs r ∈ M);
  l_incref k s X R M a r : vinv k s X R M a → r ∈ R → zlen R < vmax →
    wps (vop_incref (r_ptr r)) k (λ _ k', vinv k' s X (Ref (r_ptr r) (r_fs r) (r_obj r) false :: R) M a);
  l_decref k s X R M a p f o : vinv k s X (Ref p f o false :: R) M a →
    wps (vop_decref p) k (λ _ k', ∃ a', vinv k' s X R M a' ∧ drops a (r_oid <$> R) (f, o) a');
  l_incopen k s X R M a p f o : vinv k s X (Ref p f o false :: R) M a → zlen R < vmax →
    wps (vop_incopen p) k (λ _ k', vinv k' s X (Ref p f o true :: R) M a);
  l_decopen k s X R M a p f o : vinv k s X (Ref p f o true :: R) M a →
    wps (vop_decopen p) k (λ _ k', vinv k' s X (Ref p f o false :: R) M a);
  l_fs k s X R M a r : vinv k s X R M a → r ∈ R → wps (vn_fs (r_ptr r)) k (λ f k', f = r_fs r ∧ k' = k);
  drops_lasting a R o a' : lasting o → drops a R o a' → a' = a;

  (* operations on a vnode *)
  l_open k s X R M a r flags : vinv k s X R M a → r ∈ R →
    wps (vop_open (r_ptr r) flags) k (λ e k', vinv k' s X R M a ∧ opens a (r_oid r) flags e);
  l_gettype k s X R M a r : vinv k s X R M a → r ∈ R →
    wps (vop_gettype (r_ptr r)) k (λ '(e, t) k', vinv k' s X R M a ∧ kind a (r_oid r) e t);
  kind_dir a f o t : kind a (f, o) 0 t → S_ISDIR t = true → f ≠ NULL ∧ lasting (f, o);
  l_truncate k s X R M a r : vinv k s X R M a → r ∈ R →
    wps (vop_truncate (r_ptr r) 0) k (λ e k', ∃ a', vinv k' s X R M a' ∧ does a (DTruncate (r_oid r) 0) e a');
  l_readlink k s X R M a r u : vinv k s X R M a → r ∈ R →
    wps (vop_readlink (r_ptr r) u) k (λ _ k', vinv k' s X R M a);
  l_namefile k s X R M a r u : vinv k s X R M a → r ∈ R → r_fs r ≠ NULL → lasting (r_oid r) →
    wps (vop_namefile (r_ptr r) u) k (λ '(e, u') k', vinv k' s X R M a ∧ names a (r_oid r) u e u');

  (* operations on a directory *)
  l_lookup k s X R M a r path : vinv k s X R M a → r ∈ R → lasting (r_oid r) → nozero path → zlen R < vmax →
    wps (vop_lookup (r_ptr r) path) k (λ '(e, q) k', ∃ o,
      vinv k' s X (got e q (r_fs r) o R) M a ∧ finds a (r_oid r) path e o);
  l_lookparent k s X R M a r path len : vinv k s X R M a → r ∈ R → lasting (r_oid r) → nozero path → zlen R < vmax →
    wps (vop_lookparent (r_ptr r) path len) k (λ '(e, q, nm) k', ∃ o,
      vinv k' s X (got e q (r_fs r) o R) M a ∧ parent a (r_oid r) path len e o nm);
  parent_dir a f o path len o' nm : parent a (f, o) path len 0 o' nm → f ≠ NULL ∧ lasting (f, o') ∧ (nozero path → nozero nm);
  l_creat k s X R M a r nm excl : vinv k s X R M a → r ∈ R → r_fs r ≠ NULL → lasting (r_oid r) → nozero nm → zlen R < vmax →
    wps (vop_creat (r_ptr r) nm excl) k (λ '(e, q) k', ∃ o a',
      vinv k' s X (got e q (r_fs r) o R) M a' ∧ creates a (r_oid r) nm excl e o a');
  l_remove k s X R M a r nm : vinv k s X R M a → r ∈ R → r_fs r ≠ NULL → lasting (r_oid r) → nozero nm → zlen R < vmax →
    wps (vop_remove (r_ptr r) nm) k (λ e k', ∃ a', vinv k' s X R M a' ∧ does a (DRemove (r_oid r) nm (r_oid <$> R)) e a');
  l_mkdir k s X R M a r nm : vinv k s X R M a → r ∈ R → r_fs r ≠ NULL → lasting (r_oid r) → nozero nm →
    wps (vop_mkdir (r_ptr r) nm) k (λ e k', ∃ a', vinv k' s X R M a' ∧ does a (DMkdir (r_oid r) nm) e a');
  l_rmdir k s X R M a r nm : vinv k s X R M a → r ∈ R → r_fs r ≠ NULL → lasting (r_oid r) → nozero nm →
    wps (vop_rmdir (r_ptr r) nm) k (λ e k', ∃ a', vinv k' s X R M a' ∧ does a (DRmdir (r_oid r) nm) e a');
  l_symlink k s X R M a r nm t : vinv k s X R M a → r ∈ R → r_fs r ≠ NULL → lasting (r_oid r) → nozero nm →
    wps (vop_symlink (r_ptr r) nm t) k (λ e k', ∃ a', vinv k' s X R M a' ∧ does a (DSymlink (r_oid r) nm t) e a');
  l_link k s X R M a r nm r2 : vinv k s X R M a → r ∈ R → r_fs r ≠ NULL → lasting (r_oid r) → nozero nm → zlen R < vmax →
    r2 ∈ R → r_fs r2 = r_fs r → ¬ lasting (r_oid r2) →
    wps (vop_link (r_ptr r) nm (r_ptr r2)) k (λ e k', ∃ a', vinv k' s X R M a' ∧ does a (DLink (r_oid r) nm (r_oid r2)) e a');
  l_rename k s X R M a r n1 r2 n2 : vinv k s X R M a → r ∈ R → r_fs r ≠ NULL → lasting (r_oid r) → nozero n1 → zlen R < vmax →
    r2 ∈ R → r_fs r2 = r_fs r → lasting (r_oid r2) → nozero n2 →
    wps (vop_rename (r_ptr r) n1 (r_ptr r2) n2) k (λ e k', ∃ a',
      vinv k' s X R M a' ∧ does a (DRename (r_oid r) n1 (r_oid r2) n2) e a');

  (* file systems *)
  l_sync k s X R M a f : vinv k s X R M a → f ∈ M → wps (fs_sync f) k (λ _ k', vinv k' s X R M a);
  l_volname k s X R M a f : vinv k s X R M a → f ∈ M → wps (fs_getvolname f) k (λ v k', v = volname a f ∧ k' = k);
  l_getroot k s X R M a f : vinv k s X R M a → f ∈ M → zlen R < vmax →
    wps (fs_getroot f) k (λ p k', vinv k' s X (Ref p f (rootof a f) false :: R) M a);
  root_lasting k s X R M a f : vinv k s X R M a → f ∈ M → lasting (f, rootof a f);
  l_unmount k s X R M a f : vinv k s X R M a → f ∈ M →
    wps (fs_unmount f) k (λ e k', (e ≠ 0 ∧ vinv k' s X R M a) ∨
      (e = 0 ∧ (∀ r, r ∈ R → r_fs r ≠ f) ∧ ∃ a', vinv k' s X R (M ∖ {[f]}) a' ∧ ejects a f a'));

  (* devices *)
  l_device p : lasting (NULL, p);
  l_create k s X R M a dev : vinv k s X R M a → driver a dev → zlen R < vmax →
    wpf (¬ kh_room 3 (k_heap k)) (dev_create_vnode dev) k (λ p k',
      ((p = NULL ∧ vinv k' s X R M a) ∨ (p ≠ NULL ∧ p ∉ r_ptr <$> R ∧ vinv k' s X (Ref p NULL p false :: R) M a)) ∧
      rooms 3 (k_heap k) (p ≠ NULL) (k_heap k'));
  l_free k s X R M a p : vinv k s X (Ref p NULL p false :: R) M a → p ∉ r_ptr <$> R → wps (vnode_free p) k (λ _ k', vinv k' s X R M a);
}.

(** ** Path names

    A path is [name] relative to the current directory, [dev:name] on a device or volume, [/name]
    on the boot file system or [:name] on the file system of the current directory; slashes after
    the mark mean nothing. *)

Inductive pathform :=
  | PRel
  | PDev (dev sub : list Z)
  | PBoot (sub : list Z)
  | PHere (sub : list Z).

Definition is_mark (c : Z) : bool := (c =? COLON) || (c =? SLASH).

(** The characters before the first mark, and the rest from there. *)
Fixpoint cut (path : list Z) : list Z * list Z :=
  match path with
  | [] => ([], [])
  | c :: rest => if is_mark c then ([], path) else let '(pre, post) := cut rest in (c :: pre, post)
  end.

Definition parse (path : list Z) : pathform :=
  match cut path with
  | (_, []) => PRel
  | ([], m :: post) => if m =? COLON then PHere (skip_slashes post) else PBoot (skip_slashes post)
  | (pre, m :: post) => if m =? COLON then PDev pre (skip_slashes post) else PRel
  end.

Lemma skip_slashes_app n sub : head sub ≠ Some SLASH → skip_slashes (replicate n SLASH ++ sub) = sub.
Proof.
  intros Hs. induction n as [|n IH]; [|done]. destruct sub as [|c sub]; [done|]. simpl in *.
  destruct (c =? SLASH) eqn:E; [|done]. by replace c with SLASH in Hs by lia.
Qed.

Lemma cut_at_mark pre m post : Forall (λ c, is_mark c = false) pre → is_mark m = true → cut (pre ++ m :: post) = (pre, m :: post).
Proof. intros Hp Hm. induction Hp as [|c pre Hc _ IH]; simpl; [by rewrite Hm|]. by rewrite Hc, IH. Qed.

Lemma cut_no_mark path : Forall (λ c, is_mark c = false) path → cut path = (path, []).
Proof. induction 1 as [|c path Hc _ IH]; simpl; [done|]. by rewrite Hc, IH. Qed.

(** The four forms are read as they are written. *)
Lemma parse_dev dev n sub :
  dev ≠ [] → Forall (λ c, is_mark c = false) dev → head sub ≠ Some SLASH →
  parse (dev ++ COLON :: replicate n SLASH ++ sub) = PDev dev sub.
Proof. intros Hne Hd Hs. unfold parse. rewrite cut_at_mark, skip_slashes_app by done. by destruct dev. Qed.
Lemma parse_boot n sub : head sub ≠ Some SLASH → parse (SLASH :: replicate n SLASH ++ sub) = PBoot sub.
Proof. intros Hs. unfold parse. simpl. by rewrite skip_slashes_app. Qed.
Lemma parse_here n sub : head sub ≠ Some SLASH → parse (COLON :: replicate n SLASH ++ sub) = PHere sub.
Proof. intros Hs. unfold parse. simpl. by rewrite skip_slashes_app. Qed.
Lemma parse_name name : Forall (λ c, is_mark c = false) name → parse name = PRel.
Proof. intros Hn. unfold parse. by rewrite cut_no_mark by done; destruct name. Qed.
Lemma parse_rel name path :
  name ≠ [] → Forall (λ c, is_mark c = false) name → parse (name ++ SLASH :: path) = PRel.
Proof. intros Hne Hn. unfold parse. rewrite cut_at_mark by done. by destruct name. Qed.

(** The code finds the same mark. *)
Lemma first_mark_cut i path :
  first_mark i path =
    match cut path with
    | (_, []) => (-1, -1)
    | (pre, m :: _) => if m =? COLON then (-1, i + zlen pre) else (i + zlen pre, -1)
    end ∧
  path = (cut path).1 ++ (cut path).2 ∧ Forall (λ c, is_mark c = false) (cut path).1 ∧
  match (cut path).2 with [] => True | m :: _ => is_mark m = true end.
Proof.
  revert i. induction path as [|c path IH]; intros i; [by split_and!|]. simpl. destruct (is_mark c) eqn:Em.
  { simpl. rewrite Z.add_0_r. split_and!; [|done|constructor|done]. unfold is_mark in Em.
    destruct (c =? COLON); [done|]. simpl in Em. by rewrite Em. }
  pose proof Em as [E1 E2]%orb_false_iff. rewrite E1, E2.
  destruct (IH (i + 1)) as (-> & Hp & Hpre & Hm). destruct (cut path) as [pre post]. simpl in *.
  split; [|split; [by rewrite Hp at 1|split; [by constructor|done]]].
  destruct post as [|m post]; [done|]. replace (i + 1 + zlen pre) with (i + zlen (c :: pre)) by (rewrite length_cons; lia).
  done.
Qed.

(** ** The configuration *)

Record vcfg := Cfg {
  c_kds : list (Z * knowndev);
  c_cwd : option vref;
  c_boot : option vref;
}.
Definition set_cwd (r : option vref) (c : vcfg) : vcfg := Cfg (c_kds c) r (c_boot c).
Definition set_boot (r : option vref) (c : vcfg) : vcfg := Cfg (c_kds c) (c_cwd c) r.
Definition set_devs (l : list (Z * knowndev)) (c : vcfg) : vcfg := Cfg l (c_cwd c) (c_boot c).

Definition kd_ref (x : Z * knowndev) : vref := Ref (kd_vnode x.2) NULL (kd_vnode x.2) false.
Definition own (c : vcfg) : list vref := (kd_ref <$> c_kds c) ++ option_list (c_cwd c) ++ option_list (c_boot c).

(** What a device answers to a name. *)
Inductive kdans := ARoot (fs : Z) | ANoFs | ADev (p : Z).

Section spec.
Context {H E : Type} `{VnodesLaws H E}.
Implicit Types (c : vcfg) (R : list vref) (a : fsys).

Definition kd_answer a (nm : list Z) (kd : knowndev) : option kdans :=
  if negb (kd_fs kd =? NULL) && (is_text (kd_name kd) nm || is_vol (volname a (kd_fs kd)) nm) then Some (ARoot (kd_fs kd))
  else if is_text (kd_name kd) nm then
    match kd_rawname kd with Some _ => Some ANoFs | None => Some (ADev (kd_vnode kd)) end
  else if is_raw (kd_rawname kd) nm then Some (ADev (kd_vnode kd))
  else None.

(** The first device that has the name. *)
Fixpoint find_dev a nm (kds : list (Z * knowndev)) : option kdans :=
  match kds with
  | [] => None
  | x :: kds => match kd_answer a nm x.2 with Some r => Some r | None => find_dev a nm kds end
  end.

(** Where a path begins: an error, or an object and the rest of the path. *)
Definition dev_start a (ans : option kdans) (sub : list Z) : Z + oid * list Z :=
  match ans with
  | Some (ARoot f) => inr ((f, rootof a f), sub)
  | Some ANoFs => inl ENXIO
  | Some (ADev p) => inr ((NULL, p), sub)
  | None => inl ENODEV
  end.
Definition start_of c a (path : list Z) : Z + oid * list Z :=
  match parse path with
  | PRel => match c_cwd c with Some r => inr (r_oid r, path) | None => inl ENOENT end
  | PDev dev sub => dev_start a (find_dev a dev (c_kds c)) sub
  | PBoot sub => match c_boot c with Some r => inr (r_oid r, sub) | None => inl ENOENT end
  | PHere sub => match c_cwd c with Some r => inr ((r_fs r, rootof a (r_fs r)), sub) | None => inl ENOENT end
  end.

Inductive looks_up c a (path : list Z) : Z → oid → Prop :=
  | lk_fail e o : start_of c a path = inl e → looks_up c a path e o
  | lk_self o : start_of c a path = inr (o, []) → looks_up c a path 0 o
  | lk_find o sub e x : start_of c a path = inr (o, sub) → sub ≠ [] → finds a o sub e x → looks_up c a path e (o.1, x).

Inductive parent_of c a (path : list Z) : Z → oid → list Z → Prop :=
  | pa_fail e o nm : start_of c a path = inl e → parent_of c a path e o nm
  | pa_none o o' nm : start_of c a path = inr (o, []) → parent_of c a path EINVAL o' nm
  | pa_at o sub e x nm :
      start_of c a path = inr (o, sub) → sub ≠ [] → parent a o sub (NAME_MAX + 1) e x nm → parent_of c a path e (o.1, x) nm.

(** What one of the operations with a parent does. *)
Inductive at_dir c R a (path : list Z) (op : list oid → oid → list Z → dop) : Z → fsys → Prop :=
  | ad_fail e o nm : parent_of c a path e o nm → e ≠ 0 → at_dir c R a path op e a
  | ad_do d nm e a' : parent_of c a path 0 d nm → does a (op ((r_oid <$> own c) ++ d :: (r_oid <$> R)) d nm) e a' →
      at_dir c R a path op e a'.

(** The object that [vfs_open] finds or makes. *)
Inductive target c a (path : list Z) (flags : Z) : Z → oid → fsys → Prop :=
  | tg_find e o : Z.land flags O_CREAT = 0 → looks_up c a path e o → target c a path flags e o a
  | tg_fail e o nm : Z.land flags O_CREAT ≠ 0 → parent_of c a path e o nm → e ≠ 0 → target c a path flags e o a
  | tg_make d nm e x a' :
      Z.land flags O_CREAT ≠ 0 → parent_of c a path 0 d nm → creates a d nm (negb (Z.land flags O_EXCL =? 0)) e x a' →
      target c a path flags e (d.1, x) a'.

(** Truncating on opening. *)
Definition cuts (flags : Z) (w : bool) (o : oid) a e a' : Prop :=
  if Z.land flags O_TRUNC =? 0 then e = 0 ∧ a' = a
  else if w then does a (DTruncate o 0) e a' else e = EINVAL ∧ a' = a.

Inductive opened c R a (path : list Z) (flags : Z) : Z → oid → fsys → Prop :=
  | op_mode o : canwrite (Z.land flags O_ACCMODE) = None → opened c R a path flags EINVAL o a
  | op_none w e o a' : canwrite (Z.land flags O_ACCMODE) = Some w →
      target c a path flags e o a' → e ≠ 0 → opened c R a path flags e o a'
  | op_refused w e o a1 a' : canwrite (Z.land flags O_ACCMODE) = Some w →
      target c a path flags 0 o a1 → opens a1 o flags e → e ≠ 0 → drops a1 (r_oid <$> own c ++ R) o a' →
      opened c R a path flags e o a'
  | op_uncut w e o a1 a2 a' : canwrite (Z.land flags O_ACCMODE) = Some w →
      target c a path flags 0 o a1 → opens a1 o flags 0 → cuts flags w o a1 e a2 → e ≠ 0 →
      drops a2 (r_oid <$> own c ++ R) o a' → opened c R a path flags e o a'
  | op_done w o a1 a' : canwrite (Z.land flags O_ACCMODE) = Some w →
      target c a path flags 0 o a1 → opens a1 o flags 0 → cuts flags w o a1 0 a' → opened c R a path flags 0 o a'.

(** Renaming and linking stay on one file system. *)
Definition same_fs (o1 o2 : oid) : Prop := o1.1 = o2.1 ∧ o1.1 ≠ NULL.

Inductive renames c a (path1 path2 : list Z) : Z → fsys → Prop :=
  | rn_fail1 e o nm : parent_of c a path1 e o nm → e ≠ 0 → renames c a path1 path2 e a
  | rn_fail2 d1 n1 e o nm : parent_of c a path1 0 d1 n1 → parent_of c a path2 e o nm → e ≠ 0 → renames c a path1 path2 e a
  | rn_cross d1 n1 d2 n2 : parent_of c a path1 0 d1 n1 → parent_of c a path2 0 d2 n2 → ¬ same_fs d1 d2 →
      renames c a path1 path2 EXDEV a
  | rn_do d1 n1 d2 n2 e a' : parent_of c a path1 0 d1 n1 → parent_of c a path2 0 d2 n2 → same_fs d1 d2 →
      does a (DRename d1 n1 d2 n2) e a' → renames c a path1 path2 e a'.

Inductive links c R a (path1 path2 : list Z) : Z → fsys → Prop :=
  | li_fail1 e o : looks_up c a path1 e o → e ≠ 0 → links c R a path1 path2 e a
  | li_fail2 o e d nm a' : looks_up c a path1 0 o → parent_of c a path2 e d nm → e ≠ 0 →
      drops a (r_oid <$> own c ++ R) o a' → links c R a path1 path2 e a'
  | li_cross o d nm a' : looks_up c a path1 0 o → parent_of c a path2 0 d nm → ¬ same_fs o d →
      drops a (r_oid <$> own c ++ R) o a' → links c R a path1 path2 EXDEV a'
  | li_do o d nm e a1 a' : looks_up c a path1 0 o → parent_of c a path2 0 d nm → same_fs o d →
      does a (DLink d nm o) e a1 → drops a1 (r_oid <$> own c ++ R) o a' → links c R a path1 path2 e a'.

Inductive changes_dir c R a (path : list Z) : Z → vcfg → fsys → Prop :=
  | cd_fail e o : looks_up c a path e o → e ≠ 0 → changes_dir c R a path e c a
  | cd_kind o e t a' : looks_up c a path 0 o → kind a o e t → e ≠ 0 → drops a (r_oid <$> own c ++ R) o a' →
      changes_dir c R a path e c a'
  | cd_file o t a' : looks_up c a path 0 o → kind a o 0 t → S_ISDIR t = false → drops a (r_oid <$> own c ++ R) o a' →
      changes_dir c R a path ENOTDIR c a'
  | cd_done o t p : looks_up c a path 0 o → kind a o 0 t → S_ISDIR t = true →
      changes_dir c R a path 0 (set_cwd (Some (Ref p o.1 o.2 false)) c) a.

(** The boot file system becomes the one that is named, and so does the current directory. *)
Inductive sets_boot c R a (name : list Z) : Z → vcfg → fsys → Prop :=
  | sb_colon : COLON ∈ take 254 name → sets_boot c R a name EINVAL c a
  | sb_fail e a' : COLON ∉ take 254 name → changes_dir c R a (take 254 name ++ [COLON]) e c a' → e ≠ 0 →
      sets_boot c R a name e c a'
  | sb_done c' a' r : COLON ∉ take 254 name → changes_dir c R a (take 254 name ++ [COLON]) 0 c' a' → c_cwd c' = Some r →
      sets_boot c R a name 0 (set_boot (Some r) c') a'.

(** The name of the current directory: its volume or device, a colon, and its path there. *)
Fixpoint dev_of (f : Z) (kds : list (Z * knowndev)) : option (list Z) :=
  match kds with
  | [] => None
  | x :: kds => if kd_fs x.2 =? f then Some (ks_text (kd_name x.2)) else dev_of f kds
  end.
Definition fs_text c a (f : Z) : option (list Z) :=
  match volname a f with Some v => Some v | None => dev_of f (c_kds c) end.

Inductive tells_cwd c a (u : uio) : Z → uio → Prop :=
  | tc_none : c_cwd c = None → tells_cwd c a u ENOENT u
  | tc_fault r name e u' : c_cwd c = Some r → fs_text c a (r_fs r) = Some name → read_into u (name ++ [COLON]) e u' → e ≠ 0 →
      tells_cwd c a u e u'
  | tc_done r name u1 e u' : c_cwd c = Some r → fs_text c a (r_fs r) = Some name → read_into u (name ++ [COLON]) 0 u1 →
      names a (r_oid r) u1 e u' → tells_cwd c a u e u'.

Inductive reads_link c R a (path : list Z) : Z → fsys → Prop :=
  | rl_fail e o : looks_up c a path e o → e ≠ 0 → reads_link c R a path e a
  | rl_done o e a' : looks_up c a path 0 o → drops a (r_oid <$> own c ++ R) o a' → reads_link c R a path e a'.

(** The first mountable device with a name. *)
Definition mountable (nm : list Z) (x : Z * knowndev) : bool :=
  match kd_rawname x.2 with Some _ => is_text (kd_name x.2) nm | None => false end.
Fixpoint find_mount nm (kds : list (Z * knowndev)) : option (Z * knowndev) :=
  match kds with
  | [] => None
  | x :: kds => if mountable nm x then Some x else find_mount nm kds
  end.
Definition with_fs (p fs : Z) (x : Z * knowndev) : Z * knowndev := (x.1, if x.1 =? p then kd_set_fs fs x.2 else x.2).

Inductive unmounts c R a (name : list Z) : Z → vcfg → fsys → Prop :=
  | um_none : find_mount name (c_kds c) = None → unmounts c R a name ENODEV c a
  | um_not p kd : find_mount name (c_kds c) = Some (p, kd) → kd_fs kd = NULL → unmounts c R a name EINVAL c a
  | um_fail p kd e : find_mount name (c_kds c) = Some (p, kd) → kd_fs kd ≠ NULL → e ≠ 0 → unmounts c R a name e c a
  | um_done p kd a' : find_mount name (c_kds c) = Some (p, kd) → kd_fs kd ≠ NULL →
      (∀ r, r ∈ own c ++ R → r_fs r ≠ kd_fs kd) → ejects a (kd_fs kd) a' →
      unmounts c R a name 0 (set_devs (with_fs p NULL <$> c_kds c) c) a'.

(** Every mountable device is unmounted, or stays as it is. *)
Definition released (x y : Z * knowndev) : Prop :=
  y = x ∨ (kd_rawname x.2 ≠ None ∧ y = (x.1, kd_set_fs NULL x.2)).
Definition unmounts_all c a c' a' : Prop :=
  Forall2 released (c_kds c) (c_kds c') ∧ c_cwd c' = c_cwd c ∧ c_boot c' = c_boot c ∧ rtc (λ x y, ∃ f, ejects x f y) a a'.

Inductive mounts_on c (name : list Z) : Z → vcfg → Prop :=
  | mo_none : find_mount name (c_kds c) = None → mounts_on c name ENODEV c
  | mo_busy p kd : find_mount name (c_kds c) = Some (p, kd) → kd_fs kd ≠ NULL → mounts_on c name EBUSY c
  | mo_fail p kd e : find_mount name (c_kds c) = Some (p, kd) → kd_fs kd = NULL → e ≠ 0 → mounts_on c name e c
  | mo_done p kd f : find_mount name (c_kds c) = Some (p, kd) → kd_fs kd = NULL → f ≠ NULL →
      mounts_on c name 0 (set_devs (with_fs p f <$> c_kds c) c).

(** The names a device goes by. *)
Definition kd_texts a (kd : knowndev) : list (list Z) :=
  ks_text (kd_name kd) :: option_list (ks_text <$> kd_rawname kd) ++
  (if kd_fs kd =? NULL then [] else option_list (volname a (kd_fs kd))).
Definition names_once a (kds : list (Z * knowndev)) : Prop :=
  ∀ i j x y t, kds !! i = Some x → kds !! j = Some y → t ∈ kd_texts a x.2 → t ∈ kd_texts a y.2 → i = j.
End spec.
