(* ===== verification/VfsSpec.v ===== *)
(** * The virtual file system layer: invariant and specifications

    [vst k s B c l1 l2 R M a]: the kernel [k] has the configuration [c] (devices, current directory,
    boot file system), the locks of this layer have the counts [l1] and [l2], the callers hold the
    references [R], the file systems [M] are there and hold [a].  Besides [R] the layer holds the
    references [own c].  Each routine is specified against the laws of VfsLaws. *)

From S2P Require Import Prelude StateM Heap KArray Coremap KState Thread ThreadSpec ThreadHeap Owned Synch SynchSpec.
From S2P Require Import ProcSpec Uio SfsDisk Sfs SfsVolume SfsNode SfsNodeSpec Vfs VfsLaws.

Definition ptr_of (o : option vref) : Z := match o with Some r => r_ptr r | None => NULL end.

Definition kd_ok (M : gset Z) (kd : knowndev) : Prop :=
  (kd_fs kd = NULL ∨ kd_fs kd ∈ M) ∧ (kd_rawname kd ≠ None ∨ kd_fs kd = NULL → kd_device kd ≠ NULL).

Section spec.
Context {H E : Type} `{VnodesLaws H E}.
Implicit Types (c : vcfg) (R : list vref) (M : gset Z) (a : fsys).

(** The kernel after a call below. *)
Definition above (x : vfs E) (k : kst H E) : kst H (vfs E) := with_env (set_venv (k_env k) x) k.

Lemma below_above x (k : kst H E) : below (above x k) = k.
Proof. by destruct k. Qed.

Lemma low_ok {A} (m : stm (kst H E) A) k Φ :
  wps m (below k) (λ x k1, Φ x (above (k_env k) k1)) → wps (low m) k Φ.
Proof. unfold wps, low. by destruct (m (below k)) as [[x k1]|]. Qed.

(** The table of devices, the two locks and the blocks of the layer. *)
Record fixture := Fixture { x_arr : array; x_dlock : Z; x_block : Z; x_blocks : list Z }.
Definition mine (F : fixture) (B : list Z) : list Z := arr_blocks (x_arr F) ++ x_blocks F ++ B.

Record vst (F : fixture) (k : kst H (vfs E)) (s : sched) (B : list Z) c (l1 l2 : Z) R M a : Prop := Vst {
  v_vars : knowndevs (k_env k) = Some (x_arr F) ∧ knowndevs_lock (k_env k) = x_dlock F ∧ bootfs_lock (k_env k) = x_block F;
  v_rep : array_rep (x_arr F) (c_kds c).*1;
  v_kds : ∀ p kd, (p, kd) ∈ c_kds c → kd_mem (k_env k) !! p = Some kd;
  v_once : NoDup (c_kds c).*1;
  v_keys : ∀ p, p ∈ (c_kds c).*1 → p ∈ x_blocks F;
  v_ok : ∀ p kd, (p, kd) ∈ c_kds c → kd_ok M kd;
  v_single : ∀ p kd p' kd', (p, kd) ∈ c_kds c → (p', kd') ∈ c_kds c → kd_fs kd = kd_fs kd' → kd_fs kd ≠ NULL → p = p';
  v_low : vinv (below k) s (here k (mine F B)) (own c ++ R) M a;
  v_lk1 : ∃ n, k_locks k !! x_dlock F = Some (Lock n l1);
  v_lk2 : ∃ n, k_locks k !! x_block F = Some (Lock n l2);
  v_lks : x_dlock F ≠ x_block F ∧ x_dlock F ∈ x_blocks F ∧ x_block F ∈ x_blocks F;
  v_cwd : ∃ th, k_threads k !! k_cur k = Some th ∧ t_cwd th = ptr_of (c_cwd c);
  v_boot : bootfs_vnode (k_env k) = ptr_of (c_boot c);
  v_dirs : ∀ r, c_cwd c = Some r ∨ c_boot c = Some r → lasting (r_oid r) ∧ r_open r = false ∧ r_fs r ≠ NULL;
  v_sleep : ∀ t th, t ∈ s_sleep s → k_threads k !! t = Some th → t_sleepaddr th ∈ B;
}.

Section fixed.
Context (F : fixture) (s : sched) (B : list Z).
Abbreviation st := (λ k c l1 l2 R M a, vst F k s B c l1 l2 R M a).

Lemma v_base k c l1 l2 R M a : st k c l1 l2 R M a →
  srep (below k) s ∧ k_inint k = 0 ∧ k_locks k !! NULL = None ∧ owned (k_heap k) (mine F B) ∧ NULL ∉ M.
Proof. intros Hv. destruct (l_base _ _ _ _ _ _ (v_low _ _ _ _ _ _ _ _ _ _ Hv)) as (? & ? & ? & ? & _ & _ & _ & ?). done. Qed.

Lemma vst_perm k c l1 l2 R R' M a : st k c l1 l2 R M a → R ≡ₚ R' → st k c l1 l2 R' M a.
Proof. intros [] HR. constructor; try done. eapply l_perm; [done|]. by rewrite HR. Qed.

(** ** Calls below *)

Lemma vst_low k k1 c l1 l2 R R' M a a' :
  st k c l1 l2 R M a → vinv k1 s (here k (mine F B)) (own c ++ R') M a' →
  st (above (k_env k) k1) c l1 l2 R' M a'.
Proof.
  intros Hv Hl. destruct (l_base _ _ _ _ _ _ Hl) as (Hs & _ & _ & _ & _ & Ht & Hlk & _).
  destruct (v_base _ _ _ _ _ _ _ Hv) as (Hs0 & _). simpl in Ht, Hlk.
  destruct Hv as [? ? ? ? ? ? ? _ Hk1 Hk2 (Hne & Hw1 & Hw2) Hcwd ? ? Hsl]. constructor; try done; unfold mine in *.
  - rewrite below_above.
    change (here (above (k_env k) k1)) with (here k1). by apply (l_here k1 s (here k (mine F B))).
  - destruct Hk1 as [n Hn]. exists n. simpl. rewrite Hlk; [done|]. rewrite !elem_of_app. auto.
  - destruct Hk2 as [n Hn]. exists n. simpl. rewrite Hlk; [done|]. rewrite !elem_of_app. auto.
  - simpl. rewrite Ht. rewrite (sr_cur _ _ Hs), <- (sr_cur _ _ Hs0). done.
  - simpl. by rewrite Ht.
Qed.

Lemma vcall {A} (m : stm (kst H E) A) k c l1 l2 R M a (Q : A → list vref → fsys → Prop) :
  st k c l1 l2 R M a →
  (∀ X, vinv (below k) s X (own c ++ R) M a →
     wps m (below k) (λ x k1, ∃ R' a', vinv k1 s X (own c ++ R') M a' ∧ Q x R' a')) →
  wps (low m) k (λ x k', ∃ R' a', st k' c l1 l2 R' M a' ∧ Q x R' a').
Proof.
  intros Hv Hm. apply low_ok. eapply wps_mono; [apply (Hm _ (v_low _ _ _ _ _ _ _ _ _ _ Hv))|]. intros x k1 (R' & a' & Hl & HQ). exists R', a'.
  split; [by apply (vst_low k k1 c l1 l2 R R' M a a')|done].
Qed.

(** ** References *)

Lemma own_perm c r R : own c ++ r :: R ≡ₚ r :: own c ++ R.
Proof. symmetry. apply Permutation_middle. Qed.

Abbreviation room n c R := (zlen (own c ++ R) + n ≤ vmax).

Lemma room_cons n c r R : room n c (r :: R) ↔ room (n + 1) c R.
Proof. rewrite !length_app, length_cons. lia. Qed.

Lemma v_incref k c l1 l2 R M a r :
  st k c l1 l2 R M a → r ∈ own c ++ R → room 1 c R →
  wps (low (vop_incref (r_ptr r))) k (λ _ k', st k' c l1 l2 (Ref (r_ptr r) (r_fs r) (r_obj r) false :: R) M a).
Proof.
  intros Hv Hr Hroom. eapply wps_mono; [apply (vcall _ _ _ _ _ _ _ _ (λ _ R' a', R' = Ref (r_ptr r) (r_fs r) (r_obj r) false :: R ∧ a' = a) Hv)|].
  - intros X HX. eapply wps_mono; [apply (l_incref _ _ _ _ _ _ _ HX Hr); lia|]. intros [] k1 Hk1. eexists _, _.
    split; [|done]. eapply l_perm; [exact Hk1|]. by rewrite own_perm.
  - by intros [] k' (R' & a' & Hv' & -> & ->).
Qed.

Lemma v_decref k c l1 l2 R M a p f o :
  st k c l1 l2 (Ref p f o false :: R) M a →
  wps (low (vop_decref p)) k (λ _ k', ∃ a', st k' c l1 l2 R M a' ∧ drops a (r_oid <$> own c ++ R) (f, o) a').
Proof.
  intros Hv. eapply wps_mono; [apply (vcall _ _ _ _ _ _ _ _ (λ _ R' a', R' = R ∧ drops a (r_oid <$> own c ++ R) (f, o) a') Hv)|].
  - intros X HX. eapply l_perm in HX; [|apply own_perm]. eapply wps_mono; [by apply l_decref|].
    intros [] k1 (a' & Hk1 & Hd). by exists R, a'.
  - intros [] k' (R' & a' & Hv' & -> & Hd). by exists a'.
Qed.

(** A reference to an object that lasts. *)
Lemma v_release k c l1 l2 R M a p f o :
  st k c l1 l2 (Ref p f o false :: R) M a → lasting (f, o) → wps (low (vop_decref p)) k (λ _ k', st k' c l1 l2 R M a).
Proof.
  intros Hv Hl. eapply wps_mono; [by apply (v_decref _ _ _ _ _ _ _ _ _ _ Hv)|]. intros [] k' (a' & Hv' & Hd). by rewrite (drops_lasting _ _ _ _ Hl Hd) in Hv'.
Qed.

(** The references change, the contents stay. *)
Lemma vkeep {A} (m : stm (kst H E) A) k c l1 l2 R R' M a (Q : A → Prop) :
  st k c l1 l2 R M a →
  (∀ X, vinv (below k) s X (own c ++ R) M a → wps m (below k) (λ x k1, vinv k1 s X (own c ++ R') M a ∧ Q x)) →
  wps (low m) k (λ x k', st k' c l1 l2 R' M a ∧ Q x).
Proof.
  intros Hv Hm. eapply wps_mono; [apply (vcall _ _ _ _ _ _ _ _ (λ x R1 a1, R1 = R' ∧ a1 = a ∧ Q x) Hv)|].
  - intros X HX. eapply wps_mono; [by apply Hm|]. intros x k1 [Hk1 HQ]. by exists R', a.
  - by intros x k' (R1 & a1 & Hv' & -> & -> & HQ).
Qed.

Lemma v_ref k c l1 l2 R M a r : st k c l1 l2 R M a → r ∈ own c ++ R → r_ptr r ≠ NULL ∧ (r_fs r = NULL ∨ r_fs r ∈ M).
Proof. intros Hv Hr. by apply (l_ref _ _ _ _ _ _ _ (v_low _ _ _ _ _ _ _ _ _ _ Hv)). Qed.

Lemma v_fs k c l1 l2 R M a r Φ :
  st k c l1 l2 R M a → r ∈ own c ++ R → (∀ k', st k' c l1 l2 R M a → Φ (r_fs r) k') → wps (low (vn_fs (r_ptr r))) k Φ.
Proof.
  intros Hv Hr HΦ. eapply wps_mono; [apply (vkeep _ _ _ _ _ _ R _ _ (λ x, x = r_fs r) Hv)|].
  - intros X HX. eapply wps_mono; [by apply (l_fs _ _ _ _ _ _ _ HX Hr)|]. by intros x k1 [-> ->].
  - intros x k' [Hv' ->]. by apply HΦ.
Qed.

(** ** Locks *)

Lemma v_mine k c l1 l2 R M a lk : st k c l1 l2 R M a → lk ∈ x_blocks F →
  lk ≠ NULL ∧ ∀ t, t ∈ s_sleep s → sleeps_on k lk t = false.
Proof.
  intros Hv Hlk. destruct (v_base _ _ _ _ _ _ _ Hv) as (_ & _ & _ & (Hi & Hnd & Hl) & _). unfold mine in *. split.
  - intros ->. apply (kh_live_nonnull _ Hi), Hl. rewrite !elem_of_app. auto.
  - intros t Ht. unfold sleeps_on. destruct (k_threads k !! t) as [th|] eqn:Eth; [|done]. apply Z.eqb_neq. intros Heq.
    pose proof (v_sleep _ _ _ _ _ _ _ _ _ _ Hv t th Ht Eth) as Hs. rewrite Heq in Hs.
    apply NoDup_app in Hnd as (_ & _ & Hnd). apply NoDup_app in Hnd as (_ & Hnd & _). by apply (Hnd lk).
Qed.

Lemma vst_locks k c l1 l2 l1' l2' R M a lk n l :
  st k c l1 l2 R M a → lk ∈ x_blocks F →
  (lk = x_dlock F ∧ l1' = l ∧ l2' = l2) ∨ (lk = x_block F ∧ l1' = l1 ∧ l2' = l) →
  st (set_locks (<[lk := Lock n l]> (k_locks k)) k) c l1' l2' R M a.
Proof.
  intros Hv Hin Hlk. destruct (v_mine _ _ _ _ _ _ _ _ Hv Hin) as [Hn0 _]. pose proof (v_base _ _ _ _ _ _ _ Hv) as (_ & _ & Hnull & _).
  destruct Hv as [Hvars Hrep Hkds Honce Hkeys Hok Hsingle Hlow [n1 H1'] [n2 H2'] (Hne & Hw1 & Hw2) Hcwd Hboot Hdirs Hsl].
  constructor; ksimpl; try done.
  - apply (l_locks (below k) s (mine F B) (own c ++ R) M a (<[lk := Lock n l]> (k_locks k))); [done| |rewrite lookup_insert_ne by done; exact Hnull].
    intros b Hb. rewrite lookup_insert_ne; [done|]. intros <-. apply Hb. unfold mine. rewrite !elem_of_app. auto.
  - destruct Hlk as [(-> & -> & _)|(-> & -> & _)]; [exists n; by rewrite lookup_insert_eq|exists n1; by rewrite lookup_insert_ne].
  - destruct Hlk as [(-> & _ & ->)|(-> & _ & ->)]; [exists n2; by rewrite lookup_insert_ne|exists n; by rewrite lookup_insert_eq].
Qed.

Lemma v_acquire k c l1 l2 R M a lk n :
  st k c l1 l2 R M a → lk ∈ x_blocks F → k_locks k !! lk = Some (Lock n 1) →
  wps (acquire lk) k (λ _ k', k' = set_locks (<[lk := Lock n 0]> (k_locks k)) k).
Proof.
  intros Hv Hin Hn. destruct (v_mine _ _ _ _ _ _ _ _ Hv Hin) as [Hn0 _]. destruct (v_base _ _ _ _ _ _ _ Hv) as (_ & Hi & _).
  by eapply acquire_ok.
Qed.

Lemma v_unlock k c l1 l2 R M a lk n :
  st k c l1 l2 R M a → lk ∈ x_blocks F → k_locks k !! lk = Some (Lock n 0) →
  wps (lock_release lk) k (λ _ k', k' = set_locks (<[lk := Lock n 1]> (k_locks k)) k).
Proof.
  intros Hv Hin Hn. destruct (v_mine _ _ _ _ _ _ _ _ Hv Hin) as [Hn0 Hq]. destruct (v_base _ _ _ _ _ _ _ Hv) as (Hs & _).
  eapply (release_quiet k s); try done. destruct Hs. by constructor.
Qed.

Lemma v_dacquire k c l2 R M a : st k c 1 l2 R M a → wps (acquire (x_dlock F)) k (λ _ k', st k' c 0 l2 R M a).
Proof.
  intros Hv. destruct (v_lk1 _ _ _ _ _ _ _ _ _ _ Hv) as [n Hn]. destruct (v_lks _ _ _ _ _ _ _ _ _ _ Hv) as (_ & Hin & _).
  eapply wps_mono; [exact (v_acquire _ _ _ _ _ _ _ _ n Hv Hin Hn)|]. intros [] k' ->. apply (vst_locks k c _ _ _ _ _ _ _ _ n _ Hv Hin); by left.
Qed.
Lemma v_drelease k c l2 R M a : st k c 0 l2 R M a → wps (lock_release (x_dlock F)) k (λ _ k', st k' c 1 l2 R M a).
Proof.
  intros Hv. destruct (v_lk1 _ _ _ _ _ _ _ _ _ _ Hv) as [n Hn]. destruct (v_lks _ _ _ _ _ _ _ _ _ _ Hv) as (_ & Hin & _).
  eapply wps_mono; [exact (v_unlock _ _ _ _ _ _ _ _ n Hv Hin Hn)|]. intros [] k' ->. apply (vst_locks k c _ _ _ _ _ _ _ _ n _ Hv Hin); by left.
Qed.
Lemma v_bacquire k c l1 R M a : st k c l1 1 R M a → wps (acquire (x_block F)) k (λ _ k', st k' c l1 0 R M a).
Proof.
  intros Hv. destruct (v_lk2 _ _ _ _ _ _ _ _ _ _ Hv) as [n Hn]. destruct (v_lks _ _ _ _ _ _ _ _ _ _ Hv) as (_ & _ & Hin).
  eapply wps_mono; [exact (v_acquire _ _ _ _ _ _ _ _ n Hv Hin Hn)|]. intros [] k' ->. apply (vst_locks k c _ _ _ _ _ _ _ _ n _ Hv Hin); by right.
Qed.
Lemma v_brelease k c l1 R M a : st k c l1 0 R M a → wps (lock_release (x_block F)) k (λ _ k', st k' c l1 1 R M a).
Proof.
  intros Hv. destruct (v_lk2 _ _ _ _ _ _ _ _ _ _ Hv) as [n Hn]. destruct (v_lks _ _ _ _ _ _ _ _ _ _ Hv) as (_ & _ & Hin).
  eapply wps_mono; [exact (v_unlock _ _ _ _ _ _ _ _ n Hv Hin Hn)|]. intros [] k' ->. apply (vst_locks k c _ _ _ _ _ _ _ _ n _ Hv Hin); by right.
Qed.

(** ** The variables *)

Lemma v_curdir k c l1 l2 R M a Φ : st k c l1 l2 R M a → Φ (ptr_of (c_cwd c)) k → wps curdir k Φ.
Proof.
  intros Hv HΦ. destruct (v_cwd _ _ _ _ _ _ _ _ _ _ Hv) as (th & Hth & Hc). unfold curdir. wps_step.
  eapply wps_get_thread; [done|]. wps_step. by rewrite Hc.
Qed.

Definition dir_ok (r : vref) : Prop := lasting (r_oid r) ∧ r_open r = false ∧ r_fs r ≠ NULL.

Lemma v_put_curdir k c l1 l2 R R' M a o :
  st k c l1 l2 R M a → own (set_cwd o c) ++ R' ≡ₚ own c ++ R → (∀ r, o = Some r → dir_ok r) →
  wps (put_curdir (ptr_of o)) k (λ _ k', st k' (set_cwd o c) l1 l2 R' M a).
Proof.
  intros [Hvars Hrep Hkds Honce Hkeys Hok Hsingle Hlow H1' H2' Hlks (th & Hth & Hc) Hboot Hdirs Hsl] Hp Ho.
  unfold put_curdir, upd_thread, put_thread. wps_step. eapply wps_get_thread; [done|]. wps_step.
  constructor; ksimpl; try done.
  - eapply l_perm; [|by symmetry]. by apply (l_cwd (below k) s (mine F B) (own c ++ R) M a th).
  - exists (th_set_cwd (ptr_of o) th). by rewrite lookup_insert_eq.
  - intros r [Hr|Hr]; [by apply Ho|apply Hdirs; by right].
  - intros t th'. rewrite lookup_insert_Some. intros Ht [[<- <-]|[_ Ht']]; [|by apply (Hsl t)]. simpl. by apply (Hsl (k_cur k)).
Qed.

Lemma v_put_boot k c l1 l2 R R' M a o :
  st k c l1 l2 R M a → own (set_boot o c) ++ R' ≡ₚ own c ++ R → (∀ r, o = Some r → dir_ok r) →
  wps (upd_vfs (set_bootfs (ptr_of o))) k (λ _ k', st k' (set_boot o c) l1 l2 R' M a).
Proof.
  intros [Hvars Hrep Hkds Honce Hkeys Hok Hsingle Hlow H1' H2' Hlks Hcwd Hboot Hdirs Hsl] Hp Ho.
  unfold upd_vfs. rewrite wps_zoom. unfold modify. wp_val. constructor; ksimpl; try done.
  - eapply l_perm; [|by symmetry]. done.
  - intros r [Hr|Hr]; [apply Hdirs; by left|by apply Ho].
Qed.

(** ** The search of the table *)

Lemma v_scan {X} (body : Z → knowndev → stm (kst H (vfs E)) (option X)) (kds : list (Z * knowndev)) k
    (I : nat → kst H (vfs E) → Prop) (Φ : option X → kst H (vfs E) → Prop) :
  array_rep (x_arr F) kds.*1 →
  (∀ i k', I i k' → knowndevs (k_env k') = Some (x_arr F) ∧
     ∀ p kd, kds !! i = Some (p, kd) → kd_mem (k_env k') !! p = Some kd) →
  I 0%nat k →
  (∀ i p kd k', kds !! i = Some (p, kd) → I i k' →
     wps (body p kd) k' (λ r k'', match r with Some x => Φ (Some x) k'' | None => I (S i) k'' end)) →
  (∀ k', I (length kds) k' → Φ None k') →
  wps (scan body) k Φ.
Proof.
  intros Hrep HI H0' Hb HN. unfold scan, known. wps_step. eapply wps_get_opt; [by apply HI in H0' as [-> _]|].
  pose proof (proj1 Hrep) as Hnum. rewrite length_fmap in Hnum. unfold array_getnum. rewrite Hnum.
  apply (wps_mwhile (λ n i k', ∃ j, i = Z.of_nat j ∧ (j ≤ length kds)%nat ∧ n = (length kds - j)%nat ∧ I j k') _ (length kds)).
  - exists 0%nat. split_and!; (done || lia).
  - lia.
  - intros n i k' (j & -> & Hj & -> & Hk'). destruct (HI _ _ Hk') as [Harr Hmem]. destruct (decide (j = length kds)) as [->|Hlt].
    { replace (Z.of_nat (length kds) <? Z.of_nat (length kds)) with false by lia. wps_step. by apply HN. }
    replace (Z.of_nat j <? Z.of_nat (length kds)) with true by lia. wps_step. eapply wps_get_opt; [done|].
    destruct (lookup_lt_is_Some_2 kds j) as [[p kd] Hp]; [lia|]. rewrite wps_bind, wps_lift.
    eapply wp_of_eq; [apply (array_getguy_spec _ _ _ p Hrep); [lia|]; by rewrite Nat2Z.id, list_lookup_fmap, Hp|].
    rewrite wps_bind. unfold get_kd. unfold wps at 1. rewrite (Hmem p kd Hp), wp_ok. simpl.
    rewrite wps_bind. eapply wps_mono; [by apply (Hb j p kd)|]. intros [x|] k'' Hx; wps_step; [done|].
    exists (length kds - S j)%nat. split; [lia|]. exists (S j). split_and!; (done || lia).
Qed.
End fixed.
End spec.
