(* ===== verification/VfsOps.v ===== *)
(** * The virtual file system layer: path names

    Where a path begins ([getdevice]), look-up, and the operations on path names, each against
    what VfsLaws says it means. *)

From S2P Require Import Prelude StateM Heap KArray Coremap KState Thread ThreadSpec ThreadHeap Owned Synch SynchSpec.
From S2P Require Import ProcSpec Uio SfsDisk Sfs SfsVolume Vfs VfsLaws VfsSpec.

Section ops.
Context {H E : Type} `{VnodesLaws H E}.
Context (F : fixture) (s : sched) (B : list Z).
Implicit Types (c : vcfg) (R : list vref) (M : gset Z) (a : fsys).
Abbreviation st := (λ k c l1 l2 R M a, vst F k s B c l1 l2 R M a).
Abbreviation room n c R := (zlen (own c ++ R) + n ≤ vmax).

(** ** File systems and devices *)

Lemma v_volname k c l1 l2 R M a f Φ :
  st k c l1 l2 R M a → f ∈ M → (∀ k', st k' c l1 l2 R M a → Φ (volname a f) k') → wps (low (fs_getvolname f)) k Φ.
Proof.
  intros Hv Hf HΦ. eapply wps_mono; [apply (vkeep _ _ _ _ _ _ _ _ _ R _ _ (λ x, x = volname a f) Hv)|].
  - intros X HX. eapply wps_mono; [by apply (l_volname _ _ _ _ _ _ _ HX)|]. by intros x k1 [-> ->].
  - intros x k' [Hv' ->]. by apply HΦ.
Qed.

Lemma v_getroot k c l1 l2 R M a f :
  st k c l1 l2 R M a → f ∈ M → room 1 c R →
  wps (low (fs_getroot f)) k (λ p k', st k' c l1 l2 (Ref p f (rootof a f) false :: R) M a ∧ lasting (f, rootof a f)).
Proof.
  intros Hv Hf Hr.
  eapply wps_mono; [apply (vcall _ _ _ _ _ _ _ _ _ _ _ (λ p R' a', R' = Ref p f (rootof a f) false :: R ∧ a' = a) Hv)|].
  - intros X HX. eapply wps_mono; [apply (l_getroot _ _ _ _ _ _ _ HX); [done|lia]|]. intros p k1 Hk1. eexists _, _.
    split; [|done]. eapply l_perm; [exact Hk1|]. by rewrite own_perm.
  - intros p k' (R' & a' & Hv' & -> & ->). split; [done|]. by eapply root_lasting; [apply (v_low _ _ _ _ _ _ _ _ _ _ Hv)|].
Qed.

(** The state once a starting point has been looked for. *)
Definition begun k c l1 l2 R M a (x : Z + oid * list Z) (e q : Z) : Prop :=
  match x with
  | inl e' => e = e' ∧ e ≠ 0 ∧ st k c l1 l2 R M a
  | inr (o, _) => e = 0 ∧ lasting o ∧ st k c l1 l2 (Ref q o.1 o.2 false :: R) M a
  end.

Lemma kd_in c R p kd : (p, kd) ∈ c_kds c → kd_ref (p, kd) ∈ own c ++ R.
Proof. intros Hin. unfold own. rewrite !elem_of_app. do 2 left. apply list_elem_of_fmap. by exists (p, kd). Qed.

(** A device itself. *)
Lemma v_device k c l1 l2 R M a p kd :
  st k c l1 l2 R M a → (p, kd) ∈ c_kds c → room 1 c R →
  wps (low (vop_incref (kd_vnode kd))) k (λ _ k', begun k' c l1 l2 R M a (dev_start a (Some (ADev (kd_vnode kd))) []) 0 (kd_vnode kd)).
Proof.
  intros Hv Hin Hr. eapply wps_mono; [apply (v_incref F s B k c l1 l2 R M a (kd_ref (p, kd)) Hv); [by apply kd_in|done]|].
  intros [] k' Hv'. split; [done|]. split; [apply l_device|]. done.
Qed.

Definition matched k c l2 R M a nm kd (r : option (Z * Z)) : Prop :=
  match r with
  | None => kd_answer a nm kd = None ∧ st k c 0 l2 R M a
  | Some (e, q) => ∃ ans, kd_answer a nm kd = Some ans ∧ begun k c 0 l2 R M a (dev_start a (Some ans) []) e q
  end.

Lemma v_kd_match k c l2 R M a nm p kd :
  st k c 0 l2 R M a → (p, kd) ∈ c_kds c → room 1 c R →
  wps (kd_match nm kd) k (λ r k', matched k' c l2 R M a nm kd r).
Proof.
  intros Hv Hin Hr. destruct (v_ok _ _ _ _ _ _ _ _ _ _ Hv p kd Hin) as [Hfs Hdev]. unfold kd_match, matched, kd_answer.
  assert (∀ k', st k' c 0 l2 R M a → kd_device kd ≠ NULL →
    wps (_ ← asrt (negb (kd_device kd =? NULL)); _ ← low (vop_incref (kd_vnode kd)); mret (Some (0, kd_vnode kd))) k' (λ r k'',
      ∃ e q, r = Some (e, q) ∧ begun k'' c 0 l2 R M a (dev_start a (Some (ADev (kd_vnode kd))) []) e q)) as Hself.
  { intros k' Hv' Hd. rewrite wps_bind, wps_asrt. split; [lia|]. rewrite wps_bind.
    eapply wps_mono; [by apply (v_device k' c 0 l2 R M a p kd)|]. intros [] k'' Hb. wps_step. by eexists _, _. }
  destruct (kd_fs kd =? NULL) eqn:E0; cbn [negb andb].
  - assert (kd_device kd ≠ NULL) as Hd by (apply Hdev; right; lia). destruct (kd_rawname kd) as [raw|] eqn:Er.
    + destruct (is_text (kd_name kd) nm) eqn:Et; [wps_step; exists ANoFs; by split_and!|]. simpl.
      destruct (is_text raw nm); [|by wps_step]. eapply wps_mono; [by apply Hself|]. intros r k' (e & q & -> & Hb).
      by exists (ADev (kd_vnode kd)).
    + destruct (is_text (kd_name kd) nm) eqn:Et; [|simpl; by wps_step]. rewrite wps_bind, wps_asrt. split; [done|].
      rewrite wps_bind, wps_asrt. split; [done|]. eapply wps_mono; [by apply Hself|]. intros r k' (e & q & -> & Hb).
      by exists (ADev (kd_vnode kd)).
  - assert (kd_fs kd ∈ M) as HM by (destruct Hfs; [lia|done]). rewrite wps_bind. eapply v_volname; [exact Hv|done|].
    intros k1 Hv1. destruct (is_text (kd_name kd) nm || is_vol (volname a (kd_fs kd)) nm) eqn:Et.
    + rewrite wps_bind. eapply wps_mono; [by apply (v_getroot k1 c 0 l2 R M a (kd_fs kd))|]. intros q k2 [Hv2 Hl]. wps_step.
      exists (ARoot (kd_fs kd)). split; [done|]. by split_and!.
    + apply orb_false_iff in Et as [Et _]. rewrite Et. destruct (is_raw (kd_rawname kd) nm) eqn:Er; [|by wps_step].
      assert (kd_device kd ≠ NULL) as Hd by (apply Hdev; left; by destruct (kd_rawname kd)).
      eapply wps_mono; [by apply Hself|]. intros r k' (e & q & -> & Hb). by exists (ADev (kd_vnode kd)).
Qed.

Lemma find_dev_None a nm kds i p kd :
  find_dev a nm (take i kds) = None → kds !! i = Some (p, kd) → kd_answer a nm kd = None → find_dev a nm (take (S i) kds) = None.
Proof.
  intros Hf Hi Ha. rewrite (take_S_r _ _ _ Hi). clear Hi. revert Hf. generalize (take i kds). intros l.
  induction l as [|x l IH]; simpl; [by rewrite Ha|]. destruct (kd_answer a nm x.2); [done|]. auto.
Qed.

Lemma find_dev_Some a nm kds i p kd ans :
  find_dev a nm (take i kds) = None → kds !! i = Some (p, kd) → kd_answer a nm kd = Some ans → find_dev a nm kds = Some ans.
Proof.
  revert i. induction kds as [|x kds IH]; intros i Hf Hi Ha; [done|]. destruct i as [|i]; simpl in *.
  - injection Hi as ->. simpl. by rewrite Ha.
  - destruct (kd_answer a nm x.2); [done|]. by eapply IH.
Qed.

Lemma v_vfs_getroot k c l2 R M a nm :
  st k c 1 l2 R M a → room 1 c R →
  wps (vfs_getroot nm) k (λ '(e, q) k', begun k' c 1 l2 R M a (dev_start a (find_dev a nm (c_kds c)) []) e q).
Proof.
  intros Hv Hr. unfold vfs_getroot. wps_step. destruct (v_vars _ _ _ _ _ _ _ _ _ _ Hv) as (_ & -> & _).
  wps_call (v_dacquire _ _ _ _ _ _ _ _ _ Hv). intros [] k1 Hv1.
  wps_call (v_scan F (λ _ kd, kd_match nm kd) (c_kds c) k1 (λ i k', st k' c 0 l2 R M a ∧ find_dev a nm (take i (c_kds c)) = None)
    (λ r k', match r with
             | None => find_dev a nm (c_kds c) = None ∧ st k' c 0 l2 R M a
             | Some (e, q) => begun k' c 0 l2 R M a (dev_start a (find_dev a nm (c_kds c)) []) e q
             end)).
  - apply Hv1.
  - intros i k' [Hv' _]. split; [apply Hv'|]. intros p kd Hi. apply Hv'. by eapply list_elem_of_lookup_2.
  - done.
  - intros i p kd k' Hi [Hv' Hf]. eapply wps_mono; [apply (v_kd_match k' c l2 R M a nm p kd Hv'); [by eapply list_elem_of_lookup_2|done]|].
    intros [[e q]|] k''; simpl.
    + intros (ans & Ha & Hb). by rewrite (find_dev_Some a nm (c_kds c) i p kd ans).
    + intros [Ha Hv'']. split; [done|]. by eapply find_dev_None.
  - intros k' [Hv' Hf]. by rewrite firstn_all in Hf.
  - intros [[e q]|] k2 Hp.
    + unfold begun in *. destruct (dev_start _ _ _) as [e'|[o sub]].
      * destruct Hp as (-> & He & Hv2). wps_call (v_drelease _ _ _ _ _ _ _ _ _ Hv2). intros [] k3 Hv3. by wps_step.
      * destruct Hp as (-> & Hl & Hv2). wps_call (v_drelease _ _ _ _ _ _ _ _ _ Hv2). intros [] k3 Hv3. by wps_step.
    + destruct Hp as [-> Hv2]. wps_call (v_drelease _ _ _ _ _ _ _ _ _ Hv2). intros [] k3 Hv3. by wps_step.
Qed.

(** ** Where a path begins *)

Definition cwd_start c : Z + oid * list Z :=
  match c_cwd c with Some r => inr (r_oid r, []) | None => inl ENOENT end.

Lemma cwd_in c R r : c_cwd c = Some r → r ∈ own c ++ R.
Proof. intros Hr. unfold own. rewrite Hr, !elem_of_app. left. right. left. by left. Qed.
Lemma boot_in c R r : c_boot c = Some r → r ∈ own c ++ R.
Proof. intros Hr. unfold own. rewrite Hr, !elem_of_app. left. right. right. by left. Qed.

Lemma v_getcurdir k c l1 l2 R M a :
  st k c l1 l2 R M a → room 1 c R →
  wps vfs_getcurdir k (λ '(e, q) k', begun k' c l1 l2 R M a (cwd_start c) e q ∧ q = ptr_of (c_cwd c)).
Proof.
  intros Hv Hr. unfold vfs_getcurdir, cwd_start. rewrite wps_bind. eapply v_curdir; [exact Hv|].
  destruct (c_cwd c) as [r|] eqn:Ec; simpl; [|by wps_step]. destruct (v_ref _ _ _ _ _ _ _ _ _ _ r Hv) as [Hp _]; [by apply cwd_in|].
  replace (r_ptr r =? NULL) with false by lia. cbn [negb]. rewrite wps_bind.
  eapply wps_mono; [apply (v_incref F s B k c l1 l2 R M a r Hv); [by apply cwd_in|done]|]. intros [] k' Hv'. wps_step.
  split; [|done]. split; [done|]. split; [|done]. apply (v_dirs _ _ _ _ _ _ _ _ _ _ Hv). by left.
Qed.

(** [/name] *)
Definition boot_start c : Z + oid * list Z :=
  match c_boot c with Some r => inr (r_oid r, []) | None => inl ENOENT end.

Lemma v_from_boot k c R M a :
  st k c 1 1 R M a → room 1 c R →
  wps (lk ← gets (λ k, bootfs_lock (k_env k));
       _ ← acquire lk;
       boot ← gets (λ k, bootfs_vnode (k_env k));
       if boot =? NULL then _ ← lock_release lk; mret (ENOENT, NULL)
       else _ ← low (vop_incref boot); _ ← lock_release lk; mret (0, boot)) k
    (λ '(e, q) k', begun k' c 1 1 R M a (boot_start c) e q).
Proof.
  intros Hv Hr. unfold boot_start. wps_step. destruct (v_vars _ _ _ _ _ _ _ _ _ _ Hv) as (_ & _ & ->).
  wps_call (v_bacquire _ _ _ _ _ _ _ _ _ Hv). intros [] k1 Hv1. wps_step. rewrite (v_boot _ _ _ _ _ _ _ _ _ _ Hv1).
  destruct (c_boot c) as [r|] eqn:Ec; simpl.
  - destruct (v_ref _ _ _ _ _ _ _ _ _ _ r Hv1) as [Hp _]; [by apply boot_in|]. replace (r_ptr r =? NULL) with false by lia.
    rewrite wps_bind. eapply wps_mono; [apply (v_incref F s B k1 c 1 0 R M a r Hv1); [by apply boot_in|done]|].
    intros [] k2 Hv2. wps_call (v_brelease _ _ _ _ _ _ _ _ _ Hv2). intros [] k3 Hv3. wps_step.
    split; [done|]. split; [|done]. apply (v_dirs _ _ _ _ _ _ _ _ _ _ Hv). by right.
  - wps_call (v_brelease _ _ _ _ _ _ _ _ _ Hv1). intros [] k2 Hv2. by wps_step.
Qed.

(** [:name] *)
Definition here_start c a : Z + oid * list Z :=
  match c_cwd c with Some r => inr ((r_fs r, rootof a (r_fs r)), []) | None => inl ENOENT end.

Lemma v_from_here k c R M a :
  st k c 1 1 R M a → room 2 c R →
  wps ('(result, vn) ← vfs_getcurdir;
       if negb (result =? 0) then mret (result, NULL)
       else
         fs ← low (vn_fs vn);
         _ ← asrt (negb (fs =? NULL));
         root ← low (fs_getroot fs);
         _ ← low (vop_decref vn);
         mret (0, root)) k
    (λ '(e, q) k', begun k' c 1 1 R M a (here_start c a) e q).
Proof.
  intros Hv Hr. unfold here_start. rewrite wps_bind. eapply wps_mono; [apply (v_getcurdir k c 1 1 R M a Hv); lia|].
  intros [e q] k1 [Hb ->]. unfold cwd_start in Hb. destruct (c_cwd c) as [r|] eqn:Ec; simpl in *.
  2: { destruct Hb as (-> & _ & Hv1). by wps_step. }
  destruct Hb as (-> & Hl & Hv1). cbn [negb Z.eqb]. set (r1 := Ref (r_ptr r) (r_fs r) (r_obj r) false) in *.
  destruct (v_dirs _ _ _ _ _ _ _ _ _ _ Hv r (or_introl Ec)) as (_ & _ & Hf).
  destruct (v_ref _ _ _ _ _ _ _ _ _ _ r Hv) as [_ [?|HM]]; [by apply cwd_in|done|].
  rewrite wps_bind. eapply (v_fs F s B k1 c 1 1 (r1 :: R) M a r1 _ Hv1); [apply elem_of_app; right; by left|]. intros k2 Hv2.
  rewrite wps_bind, wps_asrt. split; [simpl; lia|]. rewrite wps_bind.
  eapply wps_mono; [apply (v_getroot k2 c 1 1 (r1 :: R) M a (r_fs r) Hv2 HM); rewrite length_app, length_cons in *; lia|].
  intros q k3 [Hv3 Hlr]. rewrite wps_bind.
  eapply wps_mono; [apply (v_release F s B k3 c 1 1 (Ref q (r_fs r) (rootof a (r_fs r)) false :: R) M a (r_ptr r) (r_fs r) (r_obj r))|].
  - eapply vst_perm; [exact Hv3|apply Permutation_swap].
  - done.
  - intros [] k4 Hv4. by wps_step.
Qed.

Lemma begun_sub k c l1 l2 R M a x y e q :
  begun k c l1 l2 R M a x e q → match x, y with inl e, inl e' => e = e' | inr (o, _), inr (o', _) => o = o' | _, _ => False end →
  begun k c l1 l2 R M a y e q.
Proof. unfold begun. destruct x as [?|[? ?]], y as [?|[? ?]]; naive_solver. Qed.

Definition starts k c R M a path (r : Z * list Z * Z) : Prop :=
  begun k c 1 1 R M a (start_of c a path) r.1.1 r.2 ∧ ∀ o sub, start_of c a path = inr (o, sub) → r.1.2 = sub.

Lemma v_start_rel k c R M a path :
  st k c 1 1 R M a → room 1 c R → parse path = PRel →
  wps ('(result, vn) ← vfs_getcurdir; mret (result, path, vn)) k (λ r k', starts k' c R M a path r).
Proof.
  intros Hv Hr Hp. rewrite wps_bind. eapply wps_mono; [by apply (v_getcurdir k c 1 1 R M a Hv)|]. intros [e q] k' [Hb _]. wps_step.
  unfold starts, start_of. rewrite Hp. split; [|by destruct (c_cwd c); intros o sub [= _ <-]].
  eapply begun_sub; [exact Hb|]. unfold cwd_start. by destruct (c_cwd c).
Qed.

Lemma v_getdevice k c R M a path :
  st k c 1 1 R M a → room 2 c R → wps (getdevice path) k (λ r k', starts k' c R M a path r).
Proof.
  intros Hv Hr. destruct (first_mark_cut 0 path) as (Hm & Hp & Hpre & Hmk). unfold getdevice. rewrite Hm.
  assert (parse path = parse path) as Hpa by done. unfold parse in Hpa at 2.
  destruct (cut path) as [pre [|m post]]; simpl in Hp, Hpre, Hmk.
  { simpl. apply v_start_rel; [done|lia|]. rewrite Hpa. by destruct pre. }
  unfold is_mark in Hmk. destruct (m =? COLON) eqn:Em; cbn [Z.eqb Z.ltb Z.compare andb negb].
  - assert (m = COLON) as -> by lia. destruct pre as [|c0 pre].
    + simpl. rewrite wps_bind, wps_asrt. split; [done|]. rewrite Hp. cbn [app]. rewrite wps_bind, wps_lift.
      eapply wp_of_eq; [reflexivity|]. change (COLON =? SLASH) with false. cbv iota. rewrite wps_bind, wps_bind, wps_asrt. split; [done|].
      eapply wps_mono; [by apply (v_from_here k c R M a Hv)|]. intros [e q] k' Hb. wps_step.
      simpl in Hp. rewrite Hp in Hpa. unfold starts, start_of. rewrite Hpa. split; [|by destruct (c_cwd c); intros o sub [= _ <-]].
      eapply begun_sub; [exact Hb|]. unfold here_start. by destruct (c_cwd c).
    + replace (0 + zlen (c0 :: pre) <? 0) with false by lia. replace (0 + zlen (c0 :: pre) >? 0) with true by (rewrite length_cons; lia).
      cbn [andb]. rewrite wps_bind.
      replace (take (Z.to_nat (0 + zlen (c0 :: pre))) path) with (c0 :: pre).
      2: { rewrite Hp, take_app_length'; [done|lia]. }
      replace (drop (Z.to_nat (0 + zlen (c0 :: pre) + 1)) path) with post.
      2: { rewrite Hp. change ((c0 :: pre) ++ COLON :: post) with ((c0 :: pre) ++ [COLON] ++ post). rewrite app_assoc.
           rewrite drop_app_length'; [done|]. rewrite length_app. simpl. lia. }
      eapply wps_mono; [apply (v_vfs_getroot k c 1 R M a (c0 :: pre) Hv); lia|]. intros [e q] k' Hb. wps_step.
      unfold starts, start_of. rewrite Hpa. simpl fst. simpl snd. split.
      * eapply begun_sub; [exact Hb|]. by destruct (find_dev _ _ _) as [[]|].
      * intros o sub. destruct (find_dev _ _ _) as [[]|]; simpl; congruence.
  - assert (m = SLASH) as -> by lia. destruct pre as [|c0 pre].
    + simpl. rewrite wps_bind, wps_asrt. split; [done|]. rewrite Hp. cbn [app]. rewrite wps_bind, wps_lift.
      eapply wp_of_eq; [reflexivity|]. change (SLASH =? SLASH) with true. cbv iota. rewrite wps_bind.
      eapply wps_mono; [apply (v_from_boot k c R M a Hv); lia|]. intros [e q] k' Hb. wps_step.
      simpl in Hp. rewrite Hp in Hpa. unfold starts, start_of. rewrite Hpa. split; [|by destruct (c_boot c); intros o sub [= _ <-]].
      eapply begun_sub; [exact Hb|]. unfold boot_start. by destruct (c_boot c).
    + replace (0 + zlen (c0 :: pre) =? 0) with false by (rewrite length_cons; lia). cbn [negb].
      apply v_start_rel; [done|lia|]. by rewrite Hpa.
Qed.

(** ** Look-up *)

Lemma nozero_app t1 t2 : nozero (t1 ++ t2) → nozero t2.
Proof. intros Hn x Hx. apply Hn, elem_of_app. by right. Qed.

Lemma nozero_skip t : nozero t → nozero (skip_slashes t).
Proof.
  induction t as [|x t IH]; intros Hn; [done|]. simpl. destruct (x =? SLASH); [|done]. apply IH. intros y Hy. apply Hn. by right.
Qed.

Lemma start_nozero c a path o sub : nozero path → start_of c a path = inr (o, sub) → nozero sub.
Proof.
  intros Hn. destruct (first_mark_cut 0 path) as (_ & Hp & _). unfold start_of, parse.
  destruct (cut path) as [pre [|m post]]; simpl in Hp.
  { destruct pre; destruct (c_cwd c); naive_solver. }
  assert (nozero (skip_slashes post)) as Hs.
  { apply nozero_skip. rewrite Hp in Hn. apply nozero_app in Hn. by apply (nozero_app [m]) in Hn. }
  destruct pre as [|x pre].
  - destruct (m =? COLON); [destruct (c_cwd c)|destruct (c_boot c)]; naive_solver.
  - destruct (m =? COLON); [destruct (find_dev _ _ _) as [[]|]|destruct (c_cwd c)]; simpl; naive_solver.
Qed.

Lemma got_own e q f x c R : got e q f x (own c ++ R) ≡ₚ own c ++ got e q f x R.
Proof. unfold got. destruct (e =? 0); [apply Permutation_middle|done]. Qed.
Lemma got_cons e q f x r R : got e q f x (r :: R) ≡ₚ r :: got e q f x R.
Proof. unfold got. destruct (e =? 0); [apply Permutation_swap|done]. Qed.

(** A call on the starting point, which is given back afterwards. *)
Lemma v_lookup k c R M a path :
  st k c 1 1 R M a → room 2 c R → nozero path →
  wps (vfs_lookup path) k (λ '(e, q) k', ∃ o, looks_up c a path e o ∧ st k' c 1 1 (got e q o.1 o.2 R) M a).
Proof.
  intros Hv Hr Hn. unfold vfs_lookup. rewrite wps_bind. eapply wps_mono; [by apply (v_getdevice k c R M a path)|].
  intros [[e sub] q] k1 [Hb Hsub]. simpl in Hb, Hsub. destruct (start_of c a path) as [e'|[o sub']] eqn:Es; simpl in Hb.
  { destruct Hb as (-> & He & Hv1). replace (e' =? 0) with false by lia. cbn [negb]. wps_step. exists (NULL, NULL).
    split; [by apply lk_fail|]. unfold got. by replace (e' =? 0) with false by lia. }
  destruct Hb as (-> & Hl & Hv1). rewrite (Hsub o sub' eq_refl). cbn [negb Z.eqb]. destruct (zlen sub' =? 0) eqn:E0.
  { wps_step. exists o. split; [|done]. apply lk_self. rewrite Es. by destruct sub'. }
  destruct o as [f o]. simpl in Hv1. rewrite wps_bind.
  eapply wps_mono; [apply (vcall F s B _ _ _ _ _ _ _ _ (λ '(e, q') R' a', a' = a ∧ ∃ x, finds a (f, o) sub' e x ∧ R' = got e q' f x (Ref q f o false :: R)) Hv1)|].
  - intros X HX. eapply wps_mono; [apply (l_lookup _ _ _ _ _ _ (Ref q f o false) sub' HX)|].
    + apply elem_of_app. right. by left.
    + done.
    + by eapply start_nozero.
    + rewrite !length_app, length_cons in *. lia.
    + intros [e q'] k2 (x & Hk2 & Hf). eexists _, a. split; [|split; [done|by exists x]]. eapply l_perm; [exact Hk2|]. apply got_own.
  - intros [e q'] k2 (R' & a' & Hv2 & -> & x & Hf & ->). rewrite wps_bind.
    eapply wps_mono; [apply (v_release F s B k2 c 1 1 (got e q' f x R) M a q f o); [|done]|].
    { eapply vst_perm; [exact Hv2|apply got_cons]. }
    intros [] k3 Hv3. wps_step. exists (f, x). split; [|done].
    apply (lk_find c a path (f, o) sub' e x); [done|by intros ->|done].
Qed.

Lemma v_lookparent k c R M a path :
  st k c 1 1 R M a → room 2 c R → nozero path →
  wps (vfs_lookparent path (NAME_MAX + 1)) k (λ '(e, q, nm) k', ∃ o,
    parent_of c a path e o nm ∧ st k' c 1 1 (got e q o.1 o.2 R) M a).
Proof.
  intros Hv Hr Hn. unfold vfs_lookparent. rewrite wps_bind. eapply wps_mono; [by apply (v_getdevice k c R M a path)|].
  intros [[e sub] q] k1 [Hb Hsub]. simpl in Hb, Hsub. destruct (start_of c a path) as [e'|[o sub']] eqn:Es; simpl in Hb.
  { destruct Hb as (-> & He & Hv1). replace (e' =? 0) with false by lia. cbn [negb]. wps_step. exists (NULL, NULL).
    split; [by apply pa_fail|]. unfold got. by replace (e' =? 0) with false by lia. }
  destruct Hb as (-> & Hl & Hv1). rewrite (Hsub o sub' eq_refl). cbn [negb Z.eqb]. destruct o as [f o]. simpl in Hv1.
  destruct (zlen sub' =? 0) eqn:E0; rewrite wps_bind.
  { wps_step. eapply wps_mono; [by apply (v_release F s B k1 c 1 1 R M a q f o)|]. intros [] k2 Hv2. wps_step.
    exists (f, o). split; [|done]. apply (pa_none c a path (f, o)). rewrite Es. by destruct sub'. }
  eapply wps_mono; [apply (vcall F s B _ _ _ _ _ _ _ _ (λ '(e, q', nm) R' a', a' = a ∧ ∃ x, parent a (f, o) sub' (NAME_MAX + 1) e x nm ∧
    R' = got e q' f x (Ref q f o false :: R)) Hv1)|].
  - intros X HX. eapply wps_mono; [apply (l_lookparent _ _ _ _ _ _ (Ref q f o false) sub' _ HX)|].
    + apply elem_of_app. right. by left.
    + done.
    + by eapply start_nozero.
    + rewrite !length_app, length_cons in *. lia.
    + intros [[e q'] nm] k2 (x & Hk2 & Hf). eexists _, a. split; [|split; [done|by exists x]]. eapply l_perm; [exact Hk2|]. apply got_own.
  - intros [[e q'] nm] k2 (R' & a' & Hv2 & -> & x & Hf & ->). rewrite wps_bind.
    eapply wps_mono; [apply (v_release F s B k2 c 1 1 (got e q' f x R) M a q f o); [|done]|].
    { eapply vst_perm; [exact Hv2|apply got_cons]. }
    intros [] k3 Hv3. wps_step. exists (f, x). split; [|done].
    apply (pa_at c a path (f, o) sub' e x nm); [done|by intros ->|done].
Qed.

(** A parent that was found is a directory. *)
Lemma parent_of_dir c a path o nm : parent_of c a path 0 o nm → o.1 ≠ NULL ∧ lasting o ∧ (nozero path → nozero nm).
Proof.
  intros Hp. inversion Hp as [? ? ? Hs| |d sub ? x ? Hs _ Hpar]; subst.
  - unfold start_of in Hs. destruct (parse path); [destruct (c_cwd c)| |destruct (c_boot c)|destruct (c_cwd c)]; try done.
    by destruct (find_dev _ _ _) as [[]|].
  - destruct d as [f d]. destruct (parent_dir _ _ _ _ _ _ _ Hpar) as (Hf & Hl & Hz). split; [done|]. split; [done|].
    intros Hn. apply Hz. by eapply start_nozero.
Qed.

(** ** One operation on a directory *)

Section at_dir.
Context (op : Z → list Z → stm (kst H E) Z) (dp : list oid → oid → list Z → dop).
Hypothesis Hop : ∀ k X R M a r nm, vinv k s X R M a → r ∈ R → r_fs r ≠ NULL → lasting (r_oid r) → nozero nm → zlen R < vmax →
  wps (op (r_ptr r) nm) k (λ e k', ∃ a', vinv k' s X R M a' ∧ does a (dp (r_oid <$> R) (r_oid r) nm) e a').

Lemma v_at_parent k c R M a path :
  st k c 1 1 R M a → room 2 c R → nozero path →
  wps (at_parent path op) k (λ e k', ∃ a', at_dir c R a path dp e a' ∧ st k' c 1 1 R M a').
Proof using Hop.
  intros Hv Hr Hn. unfold at_parent. rewrite wps_bind. eapply wps_mono; [by apply (v_lookparent k c R M a path)|].
  intros [[e q] nm] k1 (o & Hp & Hv1). unfold got in Hv1. destruct (e =? 0) eqn:Ee; cbn [negb].
  2: { wps_step. exists a. split; [eapply ad_fail; [exact Hp|lia]|done]. }
  assert (e = 0) as -> by lia. destruct (parent_of_dir _ _ _ _ _ Hp) as (Hf & Hl & Hz). destruct o as [f o]. simpl in *.
  rewrite wps_bind.
  eapply wps_mono; [apply (vcall F s B _ _ _ _ _ _ _ _ (λ e R' a', R' = Ref q f o false :: R ∧ does a (dp (r_oid <$> own c ++ Ref q f o false :: R) (f, o) nm) e a') Hv1)|].
  - intros X HX. eapply wps_mono; [apply (Hop _ _ _ _ _ (Ref q f o false) nm HX)|].
    + apply elem_of_app. right. by left.
    + done.
    + done.
    + by apply Hz.
    + rewrite !length_app, length_cons in *. lia.
    + intros e k2 (a' & Hk2 & Hd). by eexists _, a'.
  - intros e k2 (R' & a' & Hv2 & -> & Hd). rewrite wps_bind.
    eapply wps_mono; [by apply (v_release F s B k2 c 1 1 R M a' q f o)|]. intros [] k3 Hv3. wps_step.
    exists a'. split; [|done]. eapply ad_do; [exact Hp|]. by rewrite fmap_app in Hd.
Qed.
End at_dir.

(** ** Opening and closing *)

Lemma v_open_target k c R M a path flags :
  st k c 1 1 R M a → room 2 c R → nozero path →
  wps (open_target path flags) k (λ '(e, q) k', ∃ o a', target c a path flags e o a' ∧ st k' c 1 1 (got e q o.1 o.2 R) M a').
Proof.
  intros Hv Hr Hn. unfold open_target. destruct (Z.land flags O_CREAT =? 0) eqn:Ec; cbn [negb].
  { eapply wps_mono; [by apply (v_lookup k c R M a path)|]. intros [e q] k' (o & Hl & Hv'). exists o, a.
    split; [|done]. apply tg_find; [lia|done]. }
  rewrite wps_bind. eapply wps_mono; [by apply (v_lookparent k c R M a path)|].
  intros [[e q] nm] k1 (o & Hp & Hv1). unfold got in Hv1. destruct (e =? 0) eqn:Ee; cbn [negb].
  2: { wps_step. exists o, a. unfold got. rewrite Ee. split; [eapply tg_fail; [lia|exact Hp|lia]|done]. }
  assert (e = 0) as -> by lia. destruct (parent_of_dir _ _ _ _ _ Hp) as (Hf & Hl & Hz). destruct o as [f o]. simpl in *.
  set (excl := negb (Z.land flags O_EXCL =? 0)). rewrite wps_bind.
  eapply wps_mono; [apply (vcall F s B _ _ _ _ _ _ _ _ (λ '(e, q') R' a', ∃ x, R' = got e q' f x (Ref q f o false :: R) ∧ creates a (f, o) nm excl e x a') Hv1)|].
  - intros X HX. eapply wps_mono; [apply (l_creat _ _ _ _ _ _ (Ref q f o false) nm excl HX)|].
    + apply elem_of_app. right. by left.
    + done.
    + done.
    + by apply Hz.
    + rewrite !length_app, length_cons in *. lia.
    + intros [e q'] k2 (x & a' & Hk2 & Hd). eexists _, a'. split; [|by exists x]. eapply l_perm; [exact Hk2|]. apply got_own.
  - intros [e q'] k2 (R' & a' & Hv2 & x & -> & Hd). rewrite wps_bind.
    eapply wps_mono; [apply (v_release F s B k2 c 1 1 (got e q' f x R) M a' q f o); [|done]|].
    { eapply vst_perm; [exact Hv2|apply got_cons]. }
    intros [] k3 Hv3. wps_step. exists (f, x), a'. split; [|done]. apply (tg_make c a path flags (f, o) nm); [lia|done|done].
Qed.

Lemma v_incopen k c R M a q f o :
  st k c 1 1 (Ref q f o false :: R) M a → room 2 c R →
  wps (low (vop_incopen q)) k (λ _ k', st k' c 1 1 (Ref q f o true :: R) M a).
Proof.
  intros Hv Hr. eapply wps_mono; [apply (vkeep F s B _ _ _ _ _ _ (Ref q f o true :: R) _ _ (λ _, True) Hv)|].
  - intros X HX. eapply l_perm in HX; [|apply own_perm]. eapply wps_mono; [apply (l_incopen _ _ _ _ _ _ _ _ _ HX); lia|].
    intros [] k1 Hk1. split; [|done]. eapply l_perm; [exact Hk1|]. by rewrite own_perm.
  - by intros [] k' [Hv' _].
Qed.

Lemma v_decopen k c R M a q f o :
  st k c 1 1 (Ref q f o true :: R) M a → wps (low (vop_decopen q)) k (λ _ k', st k' c 1 1 (Ref q f o false :: R) M a).
Proof.
  intros Hv. eapply wps_mono; [apply (vkeep F s B _ _ _ _ _ _ (Ref q f o false :: R) _ _ (λ _, True) Hv)|].
  - intros X HX. eapply l_perm in HX; [|apply own_perm]. eapply wps_mono; [apply (l_decopen _ _ _ _ _ _ _ _ _ HX)|].
    intros [] k1 Hk1. split; [|done]. eapply l_perm; [exact Hk1|]. by rewrite own_perm.
  - by intros [] k' [Hv' _].
Qed.

Lemma v_close k c R M a q f o :
  st k c 1 1 (Ref q f o true :: R) M a →
  wps (vfs_close q) k (λ _ k', ∃ a', st k' c 1 1 R M a' ∧ drops a (r_oid <$> own c ++ R) (f, o) a').
Proof.
  intros Hv. unfold vfs_close. rewrite wps_bind. eapply wps_mono; [exact (v_decopen _ _ _ _ _ _ _ _ Hv)|].
  intros [] k1 Hv1. exact (v_decref _ _ _ _ _ _ _ _ _ _ _ _ _ Hv1).
Qed.

(** Truncating on opening. *)
Lemma v_cuts k c R M a q f o flags w :
  st k c 1 1 (Ref q f o true :: R) M a →
  wps (if negb (Z.land flags O_TRUNC =? 0) then if negb w then mret EINVAL else low (vop_truncate q 0) else mret 0) k
    (λ e k', ∃ a', cuts flags w (f, o) a e a' ∧ st k' c 1 1 (Ref q f o true :: R) M a').
Proof.
  intros Hv. unfold cuts. destruct (Z.land flags O_TRUNC =? 0); cbn [negb]; [wps_step; by exists a|].
  destruct w; cbn [negb]; [|wps_step; by exists a].
  eapply wps_mono; [apply (vcall F s B _ _ _ _ _ _ _ _ (λ e R' a', R' = Ref q f o true :: R ∧ does a (DTruncate (f, o) 0) e a') Hv)|].
  - intros X HX. eapply wps_mono; [apply (l_truncate _ _ _ _ _ _ (Ref q f o true) HX); apply elem_of_app; right; by left|].
    intros e k1 (a' & Hk1 & Hd). by eexists _, a'.
  - intros e k' (R' & a' & Hv' & -> & Hd). by exists a'.
Qed.

Definition opened_refs (e q : Z) (o : oid) R : list vref := if e =? 0 then Ref q o.1 o.2 true :: R else R.

Lemma v_open k c R M a path flags :
  st k c 1 1 R M a → room 3 c R → nozero path →
  wps (vfs_open path flags) k (λ '(e, q) k', ∃ o a', opened c R a path flags e o a' ∧ st k' c 1 1 (opened_refs e q o R) M a').
Proof.
  intros Hv Hr Hn. unfold vfs_open, opened_refs. destruct (canwrite (Z.land flags O_ACCMODE)) as [w|] eqn:Ew.
  2: { wps_step. exists (NULL, NULL), a. split; [by apply op_mode|done]. }
  rewrite wps_bind. eapply wps_mono; [apply (v_open_target k c R M a path flags Hv); [lia|done]|].
  intros [e q] k1 (o & a1 & Ht & Hv1). unfold got in Hv1. destruct (e =? 0) eqn:Ee; cbn [negb].
  2: { wps_step. rewrite Ee. exists o, a1. split; [by eapply op_none; [done|done|lia]|done]. }
  assert (e = 0) as -> by lia. clear Ee. destruct o as [f o]. simpl in Hv1. set (r := Ref q f o false) in *.
  assert (r ∈ own c ++ r :: R) as Hin by (apply elem_of_app; right; by left).
  destruct (v_ref _ _ _ _ _ _ _ _ _ _ r Hv1 Hin) as [Hq _]. rewrite wps_bind, wps_asrt. split; [simpl in Hq; lia|]. rewrite wps_bind.
  eapply wps_mono; [apply (vkeep F s B _ _ _ _ _ _ (r :: R) _ _ (λ e, opens a1 (f, o) flags e) Hv1)|].
  { intros X HX. by apply (l_open _ _ _ _ _ _ r flags HX). }
  intros e k2 [Hv2 Ho]. destruct (e =? 0) eqn:Ee; cbn [negb].
  2: { rewrite wps_bind. eapply wps_mono; [exact (v_decref _ _ _ _ _ _ _ _ _ _ _ _ _ Hv2)|]. intros [] k3 (a' & Hv3 & Hd). wps_step.
       rewrite Ee. exists (f, o), a'. split; [|done]. eapply op_refused; [done|done|done|lia|done]. }
  assert (e = 0) as -> by lia. clear Ee. rewrite wps_bind. eapply wps_mono; [apply (v_incopen k2 c R M a1 q f o Hv2); lia|].
  intros [] k3 Hv3. rewrite wps_bind. eapply wps_mono; [exact (v_cuts _ _ _ _ _ _ _ _ flags w Hv3)|].
  intros e k4 (a2 & Hc & Hv4). destruct (e =? 0) eqn:Ee; cbn [negb].
  - assert (e = 0) as -> by lia. clear Ee. wps_step. exists (f, o), a2. split; [by eapply op_done|done].
  - rewrite wps_bind. eapply wps_mono; [exact (v_decopen _ _ _ _ _ _ _ _ Hv4)|]. intros [] k5 Hv5. rewrite wps_bind.
    eapply wps_mono; [exact (v_decref _ _ _ _ _ _ _ _ _ _ _ _ _ Hv5)|]. intros [] k6 (a' & Hv6 & Hd). wps_step. rewrite Ee.
    exists (f, o), a'. split; [|done]. eapply op_uncut; [done|done|done|done|lia|done].
Qed.
End ops.

(** * The virtual file system layer: two paths, directories and devices

    The operations that take two paths, the current directory and the boot file system, and the
    operations on the table of devices. *)

From S2P Require Import Prelude StateM Heap KArray Coremap KState Thread ThreadSpec ThreadHeap Owned Synch SynchSpec.
From S2P Require Import ProcSpec Uio SfsDisk Sfs SfsVolume Vfs VfsLaws VfsSpec.

Section calls.
Context {H E : Type} `{VnodesLaws H E}.
Context (F : fixture) (s : sched) (B : list Z).
Implicit Types (c : vcfg) (R : list vref) (M : gset Z) (a : fsys).
Abbreviation st := (λ k c l1 l2 R M a, vst F k s B c l1 l2 R M a).
Abbreviation room n c R := (zlen (own c ++ R) + n ≤ vmax).

(** ** Two paths *)

Lemma v_crosses k c R M a r1 r2 Φ :
  st k c 1 1 R M a → r1 ∈ R → r2 ∈ R →
  (∀ k' (x : bool), st k' c 1 1 R M a → (x = false ↔ same_fs (r_oid r1) (r_oid r2)) → Φ x k') →
  wps (crosses (r_ptr r1) (r_ptr r2)) k Φ.
Proof.
  intros Hv Hr1 Hr2 HΦ. unfold crosses. rewrite wps_bind.
  eapply (v_fs F s B k c 1 1 R M a r1); [exact Hv|apply elem_of_app; by right|]. intros k1 Hv1. rewrite wps_bind.
  eapply (v_fs F s B k1 c 1 1 R M a r2); [exact Hv1|apply elem_of_app; by right|]. intros k2 Hv2. wps_step.
  apply HΦ; [done|]. unfold same_fs, r_oid. simpl. lia.
Qed.

Lemma v_rename k c R M a path1 path2 :
  st k c 1 1 R M a → room 3 c R → nozero path1 → nozero path2 →
  wps (vfs_rename path1 path2) k (λ e k', ∃ a', renames c a path1 path2 e a' ∧ st k' c 1 1 R M a').
Proof.
  intros Hv Hr Hn1 Hn2. unfold vfs_rename. rewrite wps_bind. eapply wps_mono; [apply (v_lookparent F s B k c R M a path1 Hv); [lia|done]|].
  intros [[e q1] n1] k1 (o1 & Hp1 & Hv1). unfold got in Hv1. destruct (e =? 0) eqn:Ee; cbn [negb].
  2: { wps_step. exists a. split; [eapply rn_fail1; [exact Hp1|lia]|done]. }
  assert (e = 0) as -> by lia. clear Ee. destruct (parent_of_dir _ _ _ _ _ Hp1) as (Hf1 & Hl1 & Hz1). destruct o1 as [f1 o1]. simpl in *.
  set (r1 := Ref q1 f1 o1 false) in *. rewrite wps_bind.
  eapply wps_mono; [apply (v_lookparent F s B k1 c (r1 :: R) M a path2 Hv1); [rewrite length_app, length_cons in *; lia|done]|].
  intros [[e q2] n2] k2 (o2 & Hp2 & Hv2). unfold got in Hv2. destruct (e =? 0) eqn:Ee; cbn [negb].
  2: { rewrite wps_bind. eapply wps_mono; [by apply (v_release F s B k2 c 1 1 R M a q1 f1 o1)|]. intros [] k3 Hv3. wps_step.
       exists a. split; [eapply rn_fail2; [exact Hp1|exact Hp2|lia]|done]. }
  assert (e = 0) as -> by lia. clear Ee. destruct (parent_of_dir _ _ _ _ _ Hp2) as (Hf2 & Hl2 & Hz2). destruct o2 as [f2 o2]. simpl in *.
  set (r2 := Ref q2 f2 o2 false) in *. rewrite wps_bind.
  eapply (v_crosses k2 c (r2 :: r1 :: R) M a r1 r2 _ Hv2); [right; by left|by left|]. intros k3 x Hv3 Hx. rewrite wps_bind.
  eapply (wps_mono _ _ (λ e k', ∃ a', renames c a path1 path2 e a' ∧ st k' c 1 1 (r2 :: r1 :: R) M a')).
  - destruct x.
    + wps_step. exists a. split; [|done]. eapply rn_cross; [exact Hp1|exact Hp2|]. intros Hs. by apply Hx in Hs.
    + assert (same_fs (f1, o1) (f2, o2)) as Hs by (by apply Hx). destruct (Hs) as [Hfs _]. simpl in Hfs.
      eapply wps_mono; [apply (vcall F s B _ _ _ _ _ _ _ _ (λ e R' a', R' = r2 :: r1 :: R ∧ does a (DRename (f1, o1) n1 (f2, o2) n2) e a') Hv3)|].
      * intros X HX. eapply wps_mono; [apply (l_rename _ _ _ _ _ _ r1 n1 r2 n2 HX); try done; [|by apply Hz1| | |by apply Hz2]|].
        -- apply elem_of_app. right. right. by left.
        -- rewrite !length_app, !length_cons in *. lia.
        -- apply elem_of_app. right. by left.
        -- intros e k4 (a' & Hk4 & Hd). by eexists _, a'.
      * intros e k4 (R' & a' & Hv4 & -> & Hd). exists a'. split; [by eapply rn_do|done].
  - intros e k4 (a' & Hn & Hv4). rewrite wps_bind. eapply wps_mono; [by apply (v_release F s B k4 c 1 1 (r1 :: R) M a' q2 f2 o2)|].
    intros [] k5 Hv5. rewrite wps_bind. eapply wps_mono; [by apply (v_release F s B k5 c 1 1 R M a' q1 f1 o1)|].
    intros [] k6 Hv6. wps_step. by exists a'.
Qed.

Lemma v_link k c R M a path1 path2 :
  st k c 1 1 R M a → room 3 c R → nozero path1 → nozero path2 → (∀ o, looks_up c a path1 0 o → ¬ lasting o) →
  wps (vfs_link path1 path2) k (λ e k', ∃ a', links c R a path1 path2 e a' ∧ st k' c 1 1 R M a').
Proof.
  intros Hv Hr Hn1 Hn2 Hnl. unfold vfs_link. rewrite wps_bind. eapply wps_mono; [apply (v_lookup F s B k c R M a path1 Hv); [lia|done]|].
  intros [e q1] k1 (o1 & Hp1 & Hv1). unfold got in Hv1. destruct (e =? 0) eqn:Ee; cbn [negb].
  2: { wps_step. exists a. split; [eapply li_fail1; [exact Hp1|lia]|done]. }
  assert (e = 0) as -> by lia. clear Ee. specialize (Hnl _ Hp1). destruct o1 as [f1 o1]. simpl in *.
  set (r1 := Ref q1 f1 o1 false) in *. rewrite wps_bind.
  eapply wps_mono; [apply (v_lookparent F s B k1 c (r1 :: R) M a path2 Hv1); [rewrite length_app, length_cons in *; lia|done]|].
  intros [[e q2] n2] k2 (o2 & Hp2 & Hv2). unfold got in Hv2. destruct (e =? 0) eqn:Ee; cbn [negb].
  2: { rewrite wps_bind. eapply wps_mono; [exact (v_decref _ _ _ _ _ _ _ _ _ _ _ _ _ Hv2)|]. intros [] k3 (a' & Hv3 & Hd). wps_step.
       exists a'. split; [eapply li_fail2; [exact Hp1|exact Hp2|lia|done]|done]. }
  assert (e = 0) as -> by lia. clear Ee. destruct (parent_of_dir _ _ _ _ _ Hp2) as (Hf2 & Hl2 & Hz2). destruct o2 as [f2 o2]. simpl in *.
  set (r2 := Ref q2 f2 o2 false) in *. rewrite wps_bind.
  eapply (v_crosses k2 c (r2 :: r1 :: R) M a r1 r2 _ Hv2); [right; by left|by left|]. intros k3 x Hv3 Hx. rewrite wps_bind.
  eapply (wps_mono _ _ (λ e k', ∃ a1, st k' c 1 1 (r2 :: r1 :: R) M a1 ∧
    ∀ a', drops a1 (r_oid <$> own c ++ R) (f1, o1) a' → links c R a path1 path2 e a')).
  - destruct x.
    + wps_step. exists a. split; [done|]. intros a' Hd. eapply li_cross; [exact Hp1|exact Hp2| |done]. intros Hs. by apply Hx in Hs.
    + assert (same_fs (f1, o1) (f2, o2)) as Hs by (by apply Hx). destruct (Hs) as [Hfs _]. simpl in Hfs.
      eapply wps_mono; [apply (vcall F s B _ _ _ _ _ _ _ _ (λ e R' a', R' = r2 :: r1 :: R ∧ does a (DLink (f2, o2) n2 (f1, o1)) e a') Hv3)|].
      * intros X HX. eapply wps_mono; [apply (l_link _ _ _ _ _ _ r2 n2 r1 HX); try done; [|by apply Hz2| |]|].
        -- apply elem_of_app. right. by left.
        -- rewrite !length_app, !length_cons in *. lia.
        -- apply elem_of_app. right. right. by left.
        -- intros e k4 (a' & Hk4 & Hd). by eexists _, a'.
      * intros e k4 (R' & a1 & Hv4 & -> & Hd). exists a1. split; [done|]. intros a' Hdr. by eapply li_do.
  - intros e k4 (a1 & Hv4 & Hn). rewrite wps_bind. eapply wps_mono; [by apply (v_release F s B k4 c 1 1 (r1 :: R) M a1 q2 f2 o2)|].
    intros [] k5 Hv5. rewrite wps_bind. eapply wps_mono; [exact (v_decref _ _ _ _ _ _ _ _ _ _ _ _ _ Hv5)|].
    intros [] k6 (a' & Hv6 & Hd). wps_step. exists a'. split; [by apply Hn|done].
Qed.

(** ** The current directory *)

Lemma own_cwd c r R : own (set_cwd (Some r) c) ++ option_list (c_cwd c) ++ R ≡ₚ own c ++ r :: R.
Proof. unfold own. simpl. destruct (c_cwd c); simpl; solve_Permutation. Qed.

(** Giving up the old directory. *)
Lemma v_drop_old k c l1 l2 R M a (o : option vref) :
  st k c l1 l2 (option_list o ++ R) M a → (∀ r, o = Some r → dir_ok r) →
  wps (if negb (ptr_of o =? NULL) then low (vop_decref (ptr_of o)) else mret tt) k (λ _ k', st k' c l1 l2 R M a).
Proof.
  intros Hv Ho. destruct o as [[p f x op]|]; simpl in *; [|by wps_step].
  destruct (v_ref _ _ _ _ _ _ _ _ _ _ (Ref p f x op) Hv) as [Hp _]; [apply elem_of_app; right; by left|]. simpl in Hp.
  replace (p =? NULL) with false by lia. cbn [negb]. destruct (Ho _ eq_refl) as (Hl & Hop & _). simpl in Hop. subst op.
  by apply (v_release F s B k c l1 l2 R M a p f x).
Qed.

Lemma v_dir_ok k c l1 l2 R M a r : st k c l1 l2 R M a → c_cwd c = Some r ∨ c_boot c = Some r → dir_ok r.
Proof. intros Hv. apply (v_dirs _ _ _ _ _ _ _ _ _ _ Hv). Qed.

Lemma v_setcurdir k c R M a q f o :
  st k c 1 1 (Ref q f o false :: R) M a → room 2 c R →
  wps (vfs_setcurdir q) k (λ e k',
    (∃ t, kind a (f, o) e t ∧ e ≠ 0 ∧ st k' c 1 1 (Ref q f o false :: R) M a) ∨
    (e = ENOTDIR ∧ ∃ t, kind a (f, o) 0 t ∧ S_ISDIR t = false ∧ st k' c 1 1 (Ref q f o false :: R) M a) ∨
    (e = 0 ∧ ∃ t, kind a (f, o) 0 t ∧ S_ISDIR t = true ∧
       st k' (set_cwd (Some (Ref q f o false)) c) 1 1 (Ref q f o false :: R) M a)).
Proof.
  intros Hv Hr. set (r := Ref q f o false) in *. assert (r ∈ own c ++ r :: R) as Hin by (apply elem_of_app; right; by left).
  unfold vfs_setcurdir. rewrite wps_bind.
  eapply wps_mono; [apply (vkeep F s B _ _ _ _ _ _ (r :: R) _ _ (λ x, kind a (f, o) x.1 x.2) Hv)|].
  { intros X HX. eapply wps_mono; [by apply (l_gettype _ _ _ _ _ _ r HX)|]. by intros [e t] k1 [Hk1 Hk]. }
  intros [e t] k1 [Hv1 Hk]. simpl in Hk. destruct (e =? 0) eqn:Ee; cbn [negb]; [|wps_step; left; exists t; split_and!; (done || lia)].
  assert (e = 0) as -> by lia. clear Ee. destruct (S_ISDIR t) eqn:Et; cbn [negb]; [|wps_step; right; left; split; [done|by exists t]].
  destruct (kind_dir _ _ _ _ Hk Et) as [Hf Hl]. rewrite wps_bind.
  eapply wps_mono; [apply (v_incref F s B k1 c 1 1 (r :: R) M a r Hv1 Hin); rewrite length_app, length_cons in *; lia|].
  intros [] k2 Hv2. change (Ref (r_ptr r) (r_fs r) (r_obj r) false) with r in Hv2.
  rewrite wps_bind. eapply v_curdir; [exact Hv2|]. rewrite wps_bind.
  eapply wps_mono; [apply (v_put_curdir F s B k2 c 1 1 (r :: r :: R) (option_list (c_cwd c) ++ r :: R) M a (Some r) Hv2)|].
  { apply own_cwd. }
  { by intros ? [= <-]. }
  intros [] k3 Hv3. rewrite wps_bind. eapply wps_mono; [apply (v_drop_old k3 _ 1 1 (r :: R) M a (c_cwd c) Hv3)|].
  { intros r0 Hr0. eapply (v_dir_ok _ _ _ _ _ _ _ _ Hv). by left. }
  intros [] k4 Hv4. wps_step. right. right. split; [done|]. by exists t.
Qed.

Lemma v_clearcurdir k c R M a :
  st k c 1 1 R M a → wps vfs_clearcurdir k (λ e k', e = 0 ∧ st k' (set_cwd None c) 1 1 R M a).
Proof.
  intros Hv. unfold vfs_clearcurdir. rewrite wps_bind. eapply v_curdir; [exact Hv|]. rewrite wps_bind.
  eapply wps_mono; [apply (v_put_curdir F s B k c 1 1 R (option_list (c_cwd c) ++ R) M a None Hv)|].
  { unfold own. simpl. destruct (c_cwd c); simpl; solve_Permutation. }
  { done. }
  intros [] k1 Hv1. rewrite wps_bind. eapply wps_mono; [apply (v_drop_old k1 _ 1 1 R M a (c_cwd c) Hv1)|].
  { intros r0 Hr0. eapply (v_dir_ok _ _ _ _ _ _ _ _ Hv). by left. }
  intros [] k2 Hv2. by wps_step.
Qed.

Lemma v_chdir k c R M a path :
  st k c 1 1 R M a → room 3 c R → nozero path →
  wps (vfs_chdir path) k (λ e k', ∃ c' a', changes_dir c R a path e c' a' ∧ st k' c' 1 1 R M a').
Proof.
  intros Hv Hr Hn. unfold vfs_chdir. rewrite wps_bind. eapply wps_mono; [apply (v_lookup F s B k c R M a path Hv); [lia|done]|].
  intros [e q] k1 (o & Hp & Hv1). unfold got in Hv1. destruct (e =? 0) eqn:Ee; cbn [negb].
  2: { wps_step. exists c, a. split; [eapply cd_fail; [exact Hp|lia]|done]. }
  assert (e = 0) as -> by lia. clear Ee. destruct o as [f o]. simpl in Hv1. rewrite wps_bind.
  eapply wps_mono; [apply (v_setcurdir k1 c R M a q f o Hv1); lia|].
  intros e k2 [(t & Hk & He & Hv2)|[(-> & t & Hk & Ht & Hv2)|(-> & t & Hk & Ht & Hv2)]]; rewrite wps_bind.
  - eapply wps_mono; [exact (v_decref _ _ _ _ _ _ _ _ _ _ _ _ _ Hv2)|]. intros [] k3 (a' & Hv3 & Hd). wps_step.
    exists c, a'. split; [by eapply cd_kind|done].
  - eapply wps_mono; [exact (v_decref _ _ _ _ _ _ _ _ _ _ _ _ _ Hv2)|]. intros [] k3 (a' & Hv3 & Hd). wps_step.
    exists c, a'. split; [by eapply cd_file|done].
  - eapply wps_mono; [exact (v_release _ _ _ _ _ _ _ _ _ _ _ _ _ Hv2 (proj2 (kind_dir _ _ _ _ Hk Ht)))|]. intros [] k3 Hv3. wps_step.
    eexists _, a. split; [by apply (cd_done c R a path (f, o) t q)|done].
Qed.

(** ** The boot file system *)

Lemma v_change_bootfs k c R R' M a (o : option vref) :
  st k c 1 1 R M a → own (set_boot o c) ++ option_list (c_boot c) ++ R' ≡ₚ own c ++ R → (∀ r, o = Some r → dir_ok r) →
  wps (change_bootfs (ptr_of o)) k (λ _ k', st k' (set_boot o c) 1 1 R' M a).
Proof.
  intros Hv Hp Ho. unfold change_bootfs. wps_step. destruct (v_vars _ _ _ _ _ _ _ _ _ _ Hv) as (_ & _ & ->).
  wps_call (v_bacquire _ _ _ _ _ _ _ _ _ Hv). intros [] k1 Hv1. wps_step. rewrite (v_boot _ _ _ _ _ _ _ _ _ _ Hv1).
  eapply wps_mono; [apply (v_put_boot F s B k1 c 1 0 R (option_list (c_boot c) ++ R') M a o Hv1 Hp Ho)|].
  intros [] k2 Hv2. wps_call (v_brelease _ _ _ _ _ _ _ _ _ Hv2). intros [] k3 Hv3.
  apply (v_drop_old k3 _ 1 1 R' M a (c_boot c) Hv3). intros r Hr. eapply (v_dir_ok _ _ _ _ _ _ _ _ Hv). by right.
Qed.

Lemma v_clearbootfs k c R M a : st k c 1 1 R M a → wps vfs_clearbootfs k (λ _ k', st k' (set_boot None c) 1 1 R M a).
Proof.
  intros Hv. apply (v_change_bootfs k c R R M a None Hv); [|done]. unfold own. simpl. destruct (c_boot c); simpl; solve_Permutation.
Qed.

Lemma v_setbootfs k c R M a name :
  st k c 1 1 R M a → room 3 c R → nozero name →
  wps (vfs_setbootfs name) k (λ e k', ∃ c' a', sets_boot c R a name e c' a' ∧ st k' c' 1 1 R M a').
Proof.
  intros Hv Hr Hn. unfold vfs_setbootfs. destruct (existsb (λ x, x =? COLON) (take 254 name)) eqn:Ex.
  { wps_step. exists c, a. split; [|done]. apply sb_colon. apply existsb_exists in Ex as (x & Hx & Heq).
    replace COLON with x by lia. by apply list_elem_of_In. }
  assert (COLON ∉ take 254 name) as Hc.
  { intros Hx. apply not_true_iff_false in Ex. apply Ex, existsb_exists. exists COLON. split; [by apply list_elem_of_In|lia]. }
  assert (nozero (take 254 name ++ [COLON])) as Hnz.
  { intros x [Hx|Hx]%elem_of_app; [apply Hn; rewrite <- (take_drop 254 name); apply elem_of_app; by left|]. by apply list_elem_of_singleton in Hx as ->. }
  rewrite wps_bind. eapply wps_mono; [by apply (v_chdir k c R M a _ Hv Hr)|]. intros e k1 (c1 & a1 & Hcd & Hv1).
  destruct (e =? 0) eqn:Ee; cbn [negb].
  2: { wps_step. exists c1, a1. split; [|done]. inversion Hcd; subst; try lia; (apply sb_fail; [done|done|lia]). }
  assert (e = 0) as -> by lia. clear Ee. inversion Hcd as [? ? ? ?|? ? ? ? ? ? ?|? ? ? ? ? ? ?|o t p Hlk Hk Ht]; subst; try done.
  set (r := Ref p o.1 o.2 false) in *. set (c1 := set_cwd (Some r) c) in *.
  assert (zlen (own c1) ≤ zlen (own c) + 1) as Hlen.
  { unfold own, c1. rewrite !length_app. simpl. destruct (c_cwd c); simpl; lia. }
  rewrite wps_bind. eapply wps_mono; [apply (v_getcurdir F s B k1 c1 1 1 R M a1 Hv1); rewrite length_app in *; lia|].
  intros [e q] k2 [(-> & Hl & Hv2) Hq]. simpl in Hq. subst q. cbn [negb Z.eqb]. rewrite wps_bind.
  change (Ref (r_ptr r) (r_oid r).1 (r_oid r).2 false) with r in Hv2.
  eapply wps_mono; [apply (v_change_bootfs k2 c1 (r :: R) R M a1 (Some r) Hv2)|].
  { unfold own. simpl. destruct (c_boot c); simpl; solve_Permutation. }
  { intros r0 [= <-]. eapply (v_dir_ok _ _ _ _ _ _ _ _ Hv1). by left. }
  intros [] k3 Hv3. wps_step. eexists _, a1. split; [|exact Hv3]. by apply (sb_done c R a1 name c1 a1 r).
Qed.

(** ** The name of the current directory, symbolic links *)

Lemma v_getdevname k c l2 R M a f Φ :
  st k c 1 l2 R M a → f ≠ NULL → (∀ k', st k' c 1 l2 R M a → Φ (dev_of f (c_kds c)) k') → wps (vfs_getdevname f) k Φ.
Proof.
  intros Hv Hf HΦ. unfold vfs_getdevname. rewrite wps_bind, wps_asrt. split; [lia|]. wps_step.
  destruct (v_vars _ _ _ _ _ _ _ _ _ _ Hv) as (_ & -> & _). wps_call (v_dacquire _ _ _ _ _ _ _ _ _ Hv). intros [] k1 Hv1.
  assert (∀ i p kd, c_kds c !! i = Some (p, kd) → dev_of f (take i (c_kds c)) = None →
    (kd_fs kd = f → dev_of f (c_kds c) = Some (ks_text (kd_name kd))) ∧
    (kd_fs kd ≠ f → dev_of f (take (S i) (c_kds c)) = None)) as Hfind.
  { generalize (c_kds c). clear. intros l. induction l as [|x l IH]; intros i p kd Hi Hn; [done|]. destruct i as [|i]; simpl in *.
    - injection Hi as ->. simpl. split; intros Hx; [by replace (kd_fs kd =? f) with true by lia|by replace (kd_fs kd =? f) with false by lia].
    - destruct (kd_fs x.2 =? f); [done|]. by eapply IH. }
  wps_call (v_scan F (λ _ kd, mret (if kd_fs kd =? f then Some (ks_text (kd_name kd)) else None)) (c_kds c) k1
    (λ i k', st k' c 0 l2 R M a ∧ dev_of f (take i (c_kds c)) = None) (λ r k', r = dev_of f (c_kds c) ∧ st k' c 0 l2 R M a)).
  - apply Hv1.
  - intros i k' [Hv' _]. split; [apply Hv'|]. intros p kd Hi. apply Hv'. by eapply list_elem_of_lookup_2.
  - done.
  - intros i p kd k' Hi [Hv' Hn]. wps_step. destruct (Hfind i p kd Hi Hn) as [Hyes Hno]. destruct (kd_fs kd =? f) eqn:Ef.
    + split; [by rewrite Hyes by lia|done].
    + split; [done|apply Hno; lia].
  - intros k' [Hv' Hn]. by rewrite firstn_all in Hn.
  - intros r k2 [-> Hv2]. wps_call (v_drelease _ _ _ _ _ _ _ _ _ Hv2). intros [] k3 Hv3. wps_step. by apply HΦ.
Qed.

Lemma v_getcwd U k c R M a u :
  st k c 1 1 R M a → room 1 c R → uio_ok U u → uio_rw u = UIO_READ →
  (∀ r, c_cwd c = Some r → ∃ name, fs_text c a (r_fs r) = Some name ∧ zlen name + 1 ≤ uio_resid u) →
  wps (vfs_getcwd U u) k (λ '(e, u') k', tells_cwd c a u e u' ∧ st k' c 1 1 R M a).
Proof.
  intros Hv Hr Hu Hrw Hname. unfold vfs_getcwd. rewrite wps_bind, wps_asrt. split; [by apply bool_decide_eq_true|].
  rewrite wps_bind. eapply wps_mono; [by apply (v_getcurdir F s B k c 1 1 R M a Hv)|]. intros [e q] k1 [Hb ->]. unfold cwd_start in Hb.
  destruct (c_cwd c) as [r|] eqn:Ec; simpl in Hb.
  2: { destruct Hb as (-> & _ & Hv1). cbn. wps_step. split; [by apply tc_none|done]. }
  destruct Hb as (-> & Hl & Hv1). cbn [negb Z.eqb ptr_of]. set (r1 := Ref (r_ptr r) (r_fs r) (r_obj r) false) in *.
  destruct (v_dir_ok _ _ _ _ _ _ _ r Hv (or_introl Ec)) as (_ & _ & Hf).
  destruct (v_ref _ _ _ _ _ _ _ _ _ _ r Hv) as [_ [?|HM]]; [by apply cwd_in|done|].
  destruct (Hname r eq_refl) as (name & Hnm & Hlen).
  rewrite wps_bind. eapply (v_fs F s B k1 c 1 1 (r1 :: R) M a r1 _ Hv1); [apply elem_of_app; right; by left|]. intros k2 Hv2.
  rewrite wps_bind, wps_asrt. split; [simpl; lia|]. rewrite wps_bind. eapply v_volname; [exact Hv2|exact HM|]. intros k3 Hv3.
  rewrite wps_bind. eapply (wps_mono _ _ (λ x k', x = Some name ∧ st k' c 1 1 (r1 :: R) M a)).
  { change (r_fs r1) with (r_fs r). unfold fs_text in Hnm. destruct (volname a (r_fs r)); [injection Hnm as ->; by wps_step|]. by eapply v_getdevname; [exact Hv3|done|intros k' Hv'; rewrite Hnm]. }
  intros x k4 [-> Hv4]. rewrite wps_bind, wps_lift.
  eapply wp_mono; [apply (uiomove_read U name 0 (zlen name) u Hu Hrw); lia|]. intros [[e b] u1] Hr1. rewrite sub_all in Hr1 by lia.
  rewrite wps_bind. eapply (wps_mono _ _ (λ x k', tells_cwd c a u x.1 x.2 ∧ st k' c 1 1 (r1 :: R) M a)).
  - destruct (e =? 0) eqn:Ee; cbn [negb].
    2: { wps_step. split; [|done]. simpl. eapply tc_fault; [exact Ec|exact Hnm|apply read_into_more; [lia|done]|lia]. }
    assert (e = 0) as -> by lia. pose proof (read_into_done _ _ _ Hr1) as Hu1.
    assert (uio_ok U u1) as Hok1 by (apply (read_into_ok U u name 0 u1 Hu); [lia|done]).
    rewrite wps_bind, wps_lift. eapply wp_mono; [apply (uiomove_read U [COLON] 0 1 u1 Hok1)|].
    { by rewrite Hu1. }
    { rewrite Hu1. simpl. lia. }
    { lia. }
    { done. }
    intros [[e2 b2] u2] Hr2. change (sub [COLON] 0 1) with [COLON] in Hr2. destruct (e2 =? 0) eqn:Ee2; cbn [negb].
    2: { wps_step. split; [|done]. simpl. eapply tc_fault; [exact Ec|exact Hnm|apply (read_into_app U u name [COLON] u1 e2 u2 Hu); [simpl; lia|done|done]|lia]. }
    assert (e2 = 0) as -> by lia.
    eapply wps_mono; [apply (vkeep F s B _ _ _ _ _ _ (r1 :: R) _ _ (λ x, names a (r_oid r) u2 x.1 x.2) Hv4)|].
    { intros X HX. eapply wps_mono; [apply (l_namefile _ _ _ _ _ _ r1 u2 HX); [apply elem_of_app; right; by left|done|done]|].
      by intros [e3 u3] k5 [Hk5 Hn5]. }
    intros [e3 u3] k5 [Hv5 Hn5]. split; [|done]. eapply tc_done; [exact Ec|exact Hnm|apply (read_into_app U u name [COLON] u1 0 u2 Hu); [simpl; lia|done|done]|done].
  - intros [e1 u2] k5 [Ht Hv5]. rewrite wps_bind. eapply wps_mono; [exact (v_release _ _ _ _ _ _ _ _ _ _ _ _ _ Hv5 Hl)|].
    intros [] k6 Hv6. by wps_step.
Qed.

Lemma v_readlink k c R M a path u :
  st k c 1 1 R M a → room 2 c R → nozero path →
  wps (vfs_readlink path u) k (λ '(e, _) k', ∃ a', reads_link c R a path e a' ∧ st k' c 1 1 R M a').
Proof.
  intros Hv Hr Hn. unfold vfs_readlink. rewrite wps_bind. eapply wps_mono; [by apply (v_lookup F s B k c R M a path Hv)|].
  intros [e q] k1 (o & Hp & Hv1). unfold got in Hv1. destruct (e =? 0) eqn:Ee; cbn [negb].
  2: { wps_step. exists a. split; [eapply rl_fail; [exact Hp|lia]|done]. }
  assert (e = 0) as -> by lia. destruct o as [f o]. simpl in Hv1. rewrite wps_bind.
  eapply wps_mono; [apply (vkeep F s B _ _ _ _ _ _ (Ref q f o false :: R) _ _ (λ _, True) Hv1)|].
  { intros X HX. eapply wps_mono; [apply (l_readlink _ _ _ _ _ _ (Ref q f o false) u HX); apply elem_of_app; right; by left|]. done. }
  intros [e u'] k2 [Hv2 _]. rewrite wps_bind. eapply wps_mono; [exact (v_decref _ _ _ _ _ _ _ _ _ _ _ _ _ Hv2)|].
  intros [] k3 (a' & Hv3 & Hd). wps_step. exists a'. split; [by eapply rl_done|done].
Qed.

(** ** Syncing and unmounting *)

Lemma v_fs_sync k c l1 l2 R M a f : st k c l1 l2 R M a → f ∈ M → wps (low (fs_sync f)) k (λ _ k', st k' c l1 l2 R M a).
Proof.
  intros Hv Hf. eapply wps_mono; [apply (vkeep F s B _ _ _ _ _ _ R _ _ (λ _, True) Hv)|].
  - intros X HX. eapply wps_mono; [by apply (l_sync _ _ _ _ _ _ f HX)|]. done.
  - by intros e k' [Hv' _].
Qed.

Lemma v_sync k c l2 R M a : st k c 1 l2 R M a → wps vfs_sync k (λ e k', e = 0 ∧ st k' c 1 l2 R M a).
Proof.
  intros Hv. unfold vfs_sync. wps_step. destruct (v_vars _ _ _ _ _ _ _ _ _ _ Hv) as (_ & -> & _).
  wps_call (v_dacquire _ _ _ _ _ _ _ _ _ Hv). intros [] k1 Hv1.
  wps_call (v_scan F (λ _ kd, _ ← (if negb (kd_fs kd =? NULL) then low (fs_sync (kd_fs kd)) else mret 0); mret (@None unit)) (c_kds c) k1
    (λ i k', st k' c 0 l2 R M a) (λ r k', st k' c 0 l2 R M a)).
  - apply Hv1.
  - intros i k' Hv'. split; [apply Hv'|]. intros p kd Hi. apply Hv'. by eapply list_elem_of_lookup_2.
  - done.
  - intros i p kd k' Hi Hv'. destruct (v_ok _ _ _ _ _ _ _ _ _ _ Hv' p kd) as [Hfs _]; [by eapply list_elem_of_lookup_2|].
    rewrite wps_bind. destruct (kd_fs kd =? NULL) eqn:E0; cbn [negb]; [by wps_step|].
    eapply wps_mono; [apply (v_fs_sync k' c 0 l2 R M a (kd_fs kd) Hv'); destruct Hfs; [lia|done]|]. intros e k'' Hv''. by wps_step.
  - done.
  - intros r k2 Hv2. wps_call (v_drelease _ _ _ _ _ _ _ _ _ Hv2). intros [] k3 Hv3. by wps_step.
Qed.
End calls.
