(* ===== verification/VfsDevs.v ===== *)
(** * The virtual file system layer: mounting, unmounting and adding devices

    The operations that change the table of devices. *)

From S2P Require Import Prelude StateM Heap KArray Coremap KState Thread ThreadSpec ThreadHeap Owned Synch SynchSpec.
From S2P Require Import ProcSpec Uio SfsDisk Sfs SfsVolume Vfs VfsLaws VfsSpec VfsOps.

Section devs.
Context {H E : Type} `{VnodesLaws H E}.
Context (F : fixture) (s : sched) (B : list Z).
Implicit Types (c : vcfg) (R : list vref) (M : gset Z) (a : fsys).
Abbreviation st := (λ k c l1 l2 R M a, vst F k s B c l1 l2 R M a).

(** ** A file system appears or disappears *)

Lemma with_fs_keys p f (kds : list (Z * knowndev)) : (with_fs p f <$> kds).*1 = kds.*1.
Proof. rewrite <- list_fmap_compose. by apply list_fmap_ext. Qed.

Lemma own_with_fs p f c : own (set_devs (with_fs p f <$> c_kds c) c) = own c.
Proof.
  unfold own. simpl. f_equal. rewrite <- list_fmap_compose. apply list_fmap_ext. intros i [q kd] _. unfold with_fs, kd_ref. simpl.
  by destruct (q =? p).
Qed.

Lemma elem_of_with_fs p f (kds : list (Z * knowndev)) q kd' :
  (q, kd') ∈ with_fs p f <$> kds ↔ ∃ kd, (q, kd) ∈ kds ∧ kd' = (if q =? p then kd_set_fs f kd else kd).
Proof.
  rewrite list_elem_of_fmap. split.
  - intros ([q' kd] & [= -> ->] & Hin). by exists kd.
  - intros (kd & Hin & ->). by exists (q, kd).
Qed.

Lemma kd_unique (kds : list (Z * knowndev)) p kd kd' : NoDup kds.*1 → (p, kd) ∈ kds → (p, kd') ∈ kds → kd = kd'.
Proof.
  intros Hnd (i & Hi)%list_elem_of_lookup (j & Hj)%list_elem_of_lookup. assert (i = j) as ->.
  { eapply (NoDup_lookup kds.*1); [done|by rewrite list_lookup_fmap, Hi|by rewrite list_lookup_fmap, Hj]. }
  congruence.
Qed.

(** The device [p] gets the file system [f] once a call below has made or ended it. *)
Lemma vst_setfs k k1 c l1 l2 R M M' a a' p kd f :
  st k c l1 l2 R M a → (p, kd) ∈ c_kds c → vinv k1 s (here k (mine F B)) (own c ++ R) M' a' →
  kd_ok M' (kd_set_fs f kd) → (∀ q kq, (q, kq) ∈ c_kds c → q ≠ p → kd_ok M' kq) →
  (∀ q kq, (q, kq) ∈ c_kds c → q ≠ p → f ≠ NULL → kd_fs kq ≠ f) →
  wps (put_kd p (kd_set_fs f kd)) (above (k_env k) k1) (λ _ k',
    st k' (set_devs (with_fs p f <$> c_kds c) c) l1 l2 R M' a').
Proof.
  intros Hv Hin Hl Hok' Hothers Hnew. destruct (l_base _ _ _ _ _ _ Hl) as (Hs & _ & _ & _ & _ & Ht & Hlk & _).
  destruct (v_base _ _ _ _ _ _ _ _ _ _ Hv) as (Hs0 & _). simpl in Ht, Hlk.
  destruct Hv as [Hvars Hrep Hkds Honce Hkeys Hok Hsingle _ [n1 Hk1] [n2 Hk2] (Hne & Hw1 & Hw2) Hcwd ? ? Hsl].
  unfold put_kd, upd_vfs. rewrite wps_zoom. unfold modify. wp_val.
  constructor; ksimpl; cbn [set_devs c_kds c_cwd c_boot]; rewrite ?with_fs_keys, ?own_with_fs; try done.
  - intros q kq (kq0 & Hq & ->)%elem_of_with_fs. simpl. destruct (q =? p) eqn:Eq.
    + assert (q = p) as -> by lia. rewrite lookup_insert_eq. by rewrite (kd_unique _ p kd kq0 Honce Hin Hq).
    + rewrite lookup_insert_ne by lia. by apply Hkds.
  - intros q kq (kq0 & Hq & ->)%elem_of_with_fs. destruct (q =? p) eqn:Eq; [|by apply (Hothers q); [|lia]].
    assert (q = p) as -> by lia. by rewrite (kd_unique _ p kq0 kd Honce Hq Hin).
  - intros q1 kq1 q2 kq2 (x1 & Hq1 & ->)%elem_of_with_fs (x2 & Hq2 & ->)%elem_of_with_fs.
    destruct (q1 =? p) eqn:E1, (q2 =? p) eqn:E2; simpl.
    + lia.
    + intros Heq Hf. by destruct (Hnew q2 x2 Hq2 ltac:(lia) Hf).
    + intros Heq Hf. rewrite Heq in Hf. by destruct (Hnew q1 x1 Hq1 ltac:(lia) Hf).
    + by apply Hsingle.
  - change (below (set_env ?e (above (k_env k) k1))) with (with_env (k_env k1) k1).
    replace (with_env (k_env k1) k1) with k1 by (by destruct k1).
    change (here (set_env ?e (above (k_env k) k1))) with (here k1). by apply (l_here k1 s (here k (mine F B))).
  - exists n1. simpl. rewrite Hlk; [done|]. unfold mine. rewrite !elem_of_app. auto.
  - exists n2. simpl. rewrite Hlk; [done|]. unfold mine. rewrite !elem_of_app. auto.
  - simpl. rewrite Ht. rewrite (sr_cur _ _ Hs), <- (sr_cur _ _ Hs0). done.
  - simpl. by rewrite Ht.
Qed.

(** ** The search for a mountable device *)

Lemma find_mount_in nm kds x : find_mount nm kds = Some x → x ∈ kds ∧ kd_rawname x.2 ≠ None.
Proof.
  induction kds as [|y kds IH]; simpl; [done|]. unfold mountable. destruct (kd_rawname y.2) eqn:Er.
  - destruct (is_text (kd_name y.2) nm); [|intros [? ?]%IH; split; [by right|done]]. intros [= <-]. split; [by left|congruence].
  - intros [? ?]%IH. split; [by right|done].
Qed.

Lemma find_mount_step nm kds i x : kds !! i = Some x → find_mount nm (take i kds) = None →
  if mountable nm x then find_mount nm kds = Some x else find_mount nm (take (S i) kds) = None.
Proof.
  revert i. induction kds as [|y kds IH]; intros i Hi Hn; [done|]. destruct i as [|i]; simpl in *.
  - injection Hi as ->. by destruct (mountable nm x).
  - destruct (mountable nm y); [done|]. by apply IH.
Qed.

Lemma v_findmount k c l1 l2 R M a nm :
  st k c l1 l2 R M a →
  wps (findmount nm) k (λ r k', st k' c l1 l2 R M a ∧
    r = match find_mount nm (c_kds c) with Some x => (0, x.1) | None => (ENODEV, NULL) end).
Proof.
  intros Hv. unfold findmount. wps_step.
  wps_call (v_scan F (λ p kd, mret (match kd_rawname kd with None => None | Some _ => if is_text (kd_name kd) nm then Some p else None end))
    (c_kds c) k (λ i k', st k' c l1 l2 R M a ∧ find_mount nm (take i (c_kds c)) = None)
    (λ r k', st k' c l1 l2 R M a ∧ r = fst <$> find_mount nm (c_kds c))).
  - apply Hv.
  - intros i k' [Hv' _]. split; [apply Hv'|]. intros p kd Hi. apply Hv'. by eapply list_elem_of_lookup_2.
  - done.
  - intros i p kd k' Hi [Hv' Hn]. wps_step. pose proof (find_mount_step nm _ _ _ Hi Hn) as Hm. unfold mountable in Hm. simpl in Hm.
    destruct (kd_rawname kd); [|done]. destruct (is_text (kd_name kd) nm); [by rewrite Hm|done].
  - intros k' [Hv' Hn]. rewrite firstn_all in Hn. by rewrite Hn.
  - intros r k' [Hv' ->]. wps_step. split; [done|]. by destruct (find_mount nm (c_kds c)) as [[p kd]|].
Qed.

(** ** Unmounting *)

(** The end of a file system. *)
Lemma v_end k c l1 l2 R M a p kd :
  st k c l1 l2 R M a → (p, kd) ∈ c_kds c → kd_rawname kd ≠ None → kd_fs kd ≠ NULL →
  wps (low (fs_unmount (kd_fs kd))) k (λ e k1, (e ≠ 0 ∧ st k1 c l1 l2 R M a) ∨
    (e = 0 ∧ (∀ r, r ∈ own c ++ R → r_fs r ≠ kd_fs kd) ∧
     ∃ a', ejects a (kd_fs kd) a' ∧ wps (put_kd p (kd_set_fs NULL kd)) k1 (λ _ k', st k' (set_devs (with_fs p NULL <$> c_kds c) c) l1 l2 R (M ∖ {[kd_fs kd]}) a'))).
Proof.
  intros Hv Hin Hraw Hf. destruct (v_ok _ _ _ _ _ _ _ _ _ _ Hv p kd Hin) as [Hfs Hdev]. destruct Hfs as [?|HM]; [done|].
  apply low_ok. eapply wps_mono; [by apply (l_unmount _ _ _ _ _ _ _ (v_low _ _ _ _ _ _ _ _ _ _ Hv))|].
  intros e k1 [[He Hk1]|(-> & Hno & a' & Hk1 & Hej)].
  - left. split; [done|]. by apply (vst_low F s B k k1 c l1 l2 R R M a a).
  - right. split; [done|]. split; [done|]. exists a'. split; [done|].
    apply (vst_setfs k k1 c l1 l2 R M _ a a' p kd NULL Hv Hin Hk1).
    + split; [by left|]. intros _. simpl. apply Hdev. by left.
    + intros q kq Hq Hqp. destruct (v_ok _ _ _ _ _ _ _ _ _ _ Hv q kq Hq) as [Hx Hd]. split; [|done].
      destruct Hx as [?|Hx]; [by left|]. destruct (decide (kd_fs kq = NULL)); [by left|right].
      apply elem_of_difference. split; [done|]. intros Heq%elem_of_singleton. apply Hqp.
      by apply (v_single _ _ _ _ _ _ _ _ _ _ Hv q kq p kd).
    + done.
Qed.

Lemma v_get_kd k c l1 l2 R M a p kd Φ : st k c l1 l2 R M a → (p, kd) ∈ c_kds c → Φ kd k → wps (get_kd p) k Φ.
Proof. intros Hv Hin HΦ. unfold get_kd, wps. by rewrite (v_kds _ _ _ _ _ _ _ _ _ _ Hv p kd Hin). Qed.

Lemma v_mounts k c l1 l2 R M a p kd Φ :
  st k c l1 l2 R M a → (p, kd) ∈ c_kds c → kd_rawname kd ≠ None → Φ tt k → wps (mounts kd) k Φ.
Proof.
  intros Hv Hin Hraw HΦ. destruct (v_ok _ _ _ _ _ _ _ _ _ _ Hv p kd Hin) as [_ Hdev]. unfold mounts.
  rewrite wps_bind, wps_asrt. split; [by destruct (kd_rawname kd)|]. rewrite wps_asrt. split; [|done].
  assert (kd_device kd ≠ NULL) by (apply Hdev; by left). lia.
Qed.

Lemma v_unmount k c l2 R M a nm :
  st k c 1 l2 R M a →
  wps (vfs_unmount nm) k (λ e k', ∃ c' M' a', unmounts c R a nm e c' a' ∧ st k' c' 1 l2 R M' a').
Proof.
  intros Hv. unfold vfs_unmount. wps_step. destruct (v_vars _ _ _ _ _ _ _ _ _ _ Hv) as (_ & -> & _).
  wps_call (v_dacquire _ _ _ _ _ _ _ _ _ Hv). intros [] k1 Hv1. wps_call (v_findmount _ _ _ _ _ _ _ nm Hv1).
  intros r k2 [Hv2 ->].
  assert (∀ m, wps m k2 (λ e k', ∃ c' M' a', unmounts c R a nm e c' a' ∧ st k' c' 0 l2 R M' a') →
    wps (result ← m; _ ← lock_release (x_dlock F); mret result) k2
      (λ e k', ∃ c' M' a', unmounts c R a nm e c' a' ∧ st k' c' 1 l2 R M' a')) as Hfin.
  { intros m Hm. rewrite wps_bind. eapply wps_mono; [exact Hm|]. intros e k3 (c' & M' & a' & Hu & Hv3).
    wps_call (v_drelease _ _ _ _ _ _ _ _ _ Hv3). intros [] k4 Hv4. wps_step. by exists c', M', a'. }
  destruct (find_mount nm (c_kds c)) as [[p kd]|] eqn:Ef; apply Hfin; cbn [negb Z.eqb fst].
  2: { wps_step. exists c, M, a. split; [by apply um_none|done]. }
  destruct (find_mount_in _ _ _ Ef) as [Hin Hraw]. simpl in Hraw. rewrite wps_bind. eapply v_get_kd; [exact Hv2|exact Hin|].
  destruct (kd_fs kd =? NULL) eqn:E0.
  { wps_step. exists c, M, a. split; [|done]. eapply um_not; [done|lia]. }
  assert (kd_fs kd ∈ M) as HM by (destruct (v_ok _ _ _ _ _ _ _ _ _ _ Hv p kd Hin) as [[?|?] _]; [lia|done]).
  rewrite wps_bind. eapply v_mounts; [exact Hv2|exact Hin|done|]. rewrite wps_bind.
  eapply wps_mono; [exact (v_fs_sync _ _ _ _ _ _ _ _ _ _ (kd_fs kd) Hv2 HM)|]. intros e k3 Hv3.
  destruct (e =? 0) eqn:Ee; cbn [negb].
  2: { wps_step. exists c, M, a. split; [|done]. eapply um_fail; [done|lia|lia]. }
  rewrite wps_bind. eapply wps_mono; [apply (v_end k3 c 0 l2 R M a p kd Hv3 Hin Hraw); lia|].
  intros e2 k4 [[He2 Hv4]|(-> & Hno & a' & Hej & Hput)].
  - replace (e2 =? 0) with false by lia. cbn [negb]. wps_step. exists c, M, a. split; [|done]. eapply um_fail; [done|lia|lia].
  - cbn [negb Z.eqb]. rewrite wps_bind. eapply wps_mono; [exact Hput|]. intros [] k5 Hv5. wps_step.
    eexists _, _, a'. split; [|exact Hv5]. eapply um_done; [done|lia|done|done].
Qed.

Lemma v_unmount_one k c l2 R M a p kd :
  st k c 0 l2 R M a → (p, kd) ∈ c_kds c →
  wps (unmount_one p kd) k (λ _ k', st k' c 0 l2 R M a ∨
    (kd_rawname kd ≠ None ∧ ∃ M' a', ejects a (kd_fs kd) a' ∧ st k' (set_devs (with_fs p NULL <$> c_kds c) c) 0 l2 R M' a')).
Proof.
  intros Hv Hin. destruct (v_ok _ _ _ _ _ _ _ _ _ _ Hv p kd Hin) as [Hfs _]. unfold unmount_one.
  destruct (kd_rawname kd) as [raw|] eqn:Er; [|wps_step; by left]. destruct (kd_fs kd =? NULL) eqn:E0; [wps_step; by left|].
  assert (kd_fs kd ∈ M) as HM by (destruct Hfs; [lia|done]). rewrite wps_bind.
  eapply wps_mono; [exact (v_fs_sync _ _ _ _ _ _ _ _ _ _ (kd_fs kd) Hv HM)|]. intros e k1 Hv1. rewrite wps_bind.
  eapply (wps_mono _ _ (λ _ k', st k' c 0 l2 R M a)).
  { destruct (e =? 0); cbn [negb]; [by wps_step|]. exact (v_fs_sync _ _ _ _ _ _ _ _ _ _ (kd_fs kd) Hv1 HM). }
  intros e2 k2 Hv2. destruct (e2 =? 0); cbn [negb]; [|wps_step; by left]. rewrite wps_bind.
  eapply wps_mono; [apply (v_end k2 c 0 l2 R M a p kd Hv2 Hin); [congruence|lia]|].
  intros e3 k3 [[He3 Hv3]|(-> & _ & a' & Hej & Hput)].
  - replace (e3 =? 0) with false by lia. cbn [negb]. wps_step. by left.
  - cbn [negb Z.eqb]. eapply wps_mono; [exact Hput|]. intros [] k4 Hv4. right. split; [done|]. by exists (M ∖ {[kd_fs kd]}), a'.
Qed.

Lemma released_step (kds kds' : list (Z * knowndev)) i p kd :
  Forall2 released kds kds' → NoDup kds'.*1 → (∀ j, (i ≤ j)%nat → kds' !! j = kds !! j) → kds !! i = Some (p, kd) → kd_rawname kd ≠ None →
  Forall2 released kds (with_fs p NULL <$> kds') ∧ ∀ j, (S i ≤ j)%nat → (with_fs p NULL <$> kds') !! j = kds !! j.
Proof.
  intros Hf Hnd Hsame Hi Hraw.
  assert (∀ j x, kds' !! j = Some x → x.1 = p → j = i) as Hkey.
  { intros j x Hj Hx. eapply (NoDup_lookup kds'.*1); [done|by rewrite list_lookup_fmap, Hj|]. rewrite list_lookup_fmap, Hsame, Hi by lia. by rewrite Hx. }
  split.
  - apply Forall2_same_length_lookup. split; [rewrite length_fmap; by eapply Forall2_length|]. intros j x y Hx Hy.
    rewrite list_lookup_fmap in Hy. destruct (kds' !! j) as [z|] eqn:Ez; [|done]. injection Hy as <-. unfold with_fs.
    destruct (z.1 =? p) eqn:Eq.
    + assert (j = i) as -> by (eapply Hkey; [done|lia]). rewrite Hsame, Hi in Ez by lia. injection Ez as <-. rewrite Hi in Hx. injection Hx as <-.
      right. done.
    + replace (z.1, z.2) with z by (by destruct z). eapply Forall2_lookup_lr; [exact Hf|done|done].
  - intros j Hj. rewrite list_lookup_fmap. rewrite Hsame by lia. destruct (kds !! j) as [z|] eqn:Ez; [|done]. simpl. f_equal. unfold with_fs.
    destruct (z.1 =? p) eqn:Eq; [|by destruct z]. assert (j = i); [|lia]. eapply Hkey; [rewrite Hsame by lia; exact Ez|lia].
Qed.

Lemma v_unmountall k c l2 R M a :
  st k c 1 l2 R M a → wps vfs_unmountall k (λ e k', e = 0 ∧ ∃ c' M' a', unmounts_all c a c' a' ∧ st k' c' 1 l2 R M' a').
Proof.
  intros Hv. unfold vfs_unmountall. wps_step. destruct (v_vars _ _ _ _ _ _ _ _ _ _ Hv) as (_ & -> & _).
  wps_call (v_dacquire _ _ _ _ _ _ _ _ _ Hv). intros [] k1 Hv1.
  wps_call (v_scan F (λ p kd, _ ← unmount_one p kd; mret (@None unit)) (c_kds c) k1
    (λ i k', ∃ c' M' a', st k' c' 0 l2 R M' a' ∧ unmounts_all c a c' a' ∧ ∀ j, (i ≤ j)%nat → c_kds c' !! j = c_kds c !! j)
    (λ r k', ∃ c' M' a', st k' c' 0 l2 R M' a' ∧ unmounts_all c a c' a')).
  - apply Hv1.
  - intros i k' (c' & M' & a' & Hv' & _ & Hs). split; [apply Hv'|]. intros p kd Hi. rewrite <- Hs in Hi by lia.
    apply Hv'. by eapply list_elem_of_lookup_2.
  - exists c, M, a. split; [done|]. split; [|done]. split; [|by split_and!]. apply Forall_Forall2_diag, Forall_forall. intros x _. by left.
  - intros i p kd k' Hi (c' & M' & a' & Hv' & (Hf & Hc & Hb & Ha) & Hs). rewrite wps_bind.
    assert ((p, kd) ∈ c_kds c') as Hin by (apply (list_elem_of_lookup_2 _ i); rewrite Hs by lia; exact Hi).
    eapply wps_mono; [by apply (v_unmount_one k' c' l2 R M' a' p kd)|]. intros [] k'' [Hv''|(Hraw & M'' & a'' & Hej & Hv'')]; wps_step.
    + exists c', M', a'. split; [done|]. split; [done|]. intros j Hj. apply Hs. lia.
    + destruct (released_step _ _ i p kd Hf (v_once _ _ _ _ _ _ _ _ _ _ Hv') Hs Hi Hraw) as [Hf' Hs'].
      eexists _, M'', a''. split; [exact Hv''|]. split; [|exact Hs']. split; [done|]. split; [done|]. split; [done|]. eapply rtc_r; [exact Ha|by eexists].
  - intros k' (c' & M' & a' & Hv' & Hu & _). by exists c', M', a'.
  - intros r k2 (c' & M' & a' & Hv2 & Hu). wps_call (v_drelease _ _ _ _ _ _ _ _ _ Hv2). intros [] k3 Hv3. wps_step.
    split; [done|]. by exists c', M', a'.
Qed.

(** ** Mounting *)

Section mount.
Context (mountfunc : Z → stm (kst H E) (Z * Z)).
Hypothesis Hmount : ∀ k X R M a dev, vinv k s X R M a → wps (mountfunc dev) k (λ '(e, f) k',
  (e ≠ 0 ∧ vinv k' s X R M a) ∨ (e = 0 ∧ f ≠ NULL ∧ f ∉ M ∧ ∃ a', vinv k' s X R ({[f]} ∪ M) a')).

Lemma v_mount k c l2 R M a nm :
  st k c 1 l2 R M a →
  wps (vfs_mount nm mountfunc) k (λ e k', ∃ c' M' a', mounts_on c nm e c' ∧ st k' c' 1 l2 R M' a').
Proof using Hmount.
  intros Hv. unfold vfs_mount. wps_step. destruct (v_vars _ _ _ _ _ _ _ _ _ _ Hv) as (_ & -> & _).
  wps_call (v_dacquire _ _ _ _ _ _ _ _ _ Hv). intros [] k1 Hv1. wps_call (v_findmount _ _ _ _ _ _ _ nm Hv1).
  intros r k2 [Hv2 ->].
  assert (∀ m, wps m k2 (λ e k', ∃ c' M' a', mounts_on c nm e c' ∧ st k' c' 0 l2 R M' a') →
    wps (result ← m; _ ← lock_release (x_dlock F); mret result) k2
      (λ e k', ∃ c' M' a', mounts_on c nm e c' ∧ st k' c' 1 l2 R M' a')) as Hfin.
  { intros m Hm. rewrite wps_bind. eapply wps_mono; [exact Hm|]. intros e k3 (c' & M' & a' & Hu & Hv3).
    wps_call (v_drelease _ _ _ _ _ _ _ _ _ Hv3). intros [] k4 Hv4. wps_step. by exists c', M', a'. }
  destruct (find_mount nm (c_kds c)) as [[p kd]|] eqn:Ef; apply Hfin; cbn [negb Z.eqb fst].
  2: { wps_step. exists c, M, a. split; [by apply mo_none|done]. }
  destruct (find_mount_in _ _ _ Ef) as [Hin Hraw]. simpl in Hraw. rewrite wps_bind. eapply v_get_kd; [exact Hv2|exact Hin|].
  destruct (kd_fs kd =? NULL) eqn:E0; cbn [negb].
  2: { wps_step. exists c, M, a. split; [|done]. eapply mo_busy; [done|lia]. }
  destruct (v_ok _ _ _ _ _ _ _ _ _ _ Hv2 p kd Hin) as [_ Hdev].
  rewrite wps_bind. eapply v_mounts; [exact Hv2|exact Hin|done|]. rewrite wps_bind. apply low_ok.
  eapply wps_mono; [apply (Hmount _ _ _ _ _ _ (v_low _ _ _ _ _ _ _ _ _ _ Hv2))|].
  intros [e f] k3 [[He Hk3]|(-> & Hf & HfM & a' & Hk3)].
  - replace (e =? 0) with false by lia. cbn [negb]. wps_step. exists c, M, a. split; [eapply mo_fail; [done|lia|done]|].
    by apply (vst_low F s B k2 k3 c 0 l2 R R M a a).
  - cbn [negb Z.eqb]. rewrite wps_bind, wps_asrt. split; [lia|]. rewrite wps_bind.
    eapply wps_mono; [apply (vst_setfs k2 k3 c 0 l2 R M _ a a' p kd f Hv2 Hin Hk3)|].
    + split; [right; simpl; set_solver|]. intros _. apply Hdev. by left.
    + intros q kq Hq Hqp. destruct (v_ok _ _ _ _ _ _ _ _ _ _ Hv2 q kq Hq) as [[?|?] ?]; (split; [|done]); [by left|right; set_solver].
    + intros q kq Hq _ _ Heq. destruct (v_ok _ _ _ _ _ _ _ _ _ _ Hv2 q kq Hq) as [[?|HM] _]; [congruence|]. by rewrite Heq in HM.
    + intros [] k4 Hv4. rewrite wps_bind. eapply v_volname; [exact Hv4|set_solver|]. intros k5 Hv5. wps_step.
      eexists _, _, a'. split; [|exact Hv5]. eapply mo_done; [done|lia|done].
Qed.
End mount.
End devs.

(** * The virtual file system layer: a new device

    [vfs_doadd] makes the copies of the names, the vnode and the record of a device, and puts the
    device in the table unless one of its names is in use. *)

From S2P Require Import Prelude StateM Heap KArray Coremap KState Thread ThreadSpec ThreadHeap Owned Synch SynchSpec.
From S2P Require Import ProcSpec Uio SfsDisk Sfs SfsVolume Vfs VfsLaws VfsSpec VfsOps.

(** One more block of the layer. *)
Definition more (p : Z) (F : fixture) : fixture := Fixture (x_arr F) (x_dlock F) (x_block F) (p :: x_blocks F).
Definition with_arr (a : array) (F : fixture) : fixture := Fixture a (x_dlock F) (x_block F) (x_blocks F).

Lemma mine_more p F B : mine (more p F) B ≡ₚ p :: mine F B.
Proof. unfold mine. simpl. symmetry. apply Permutation_middle. Qed.

Section add.
Context {H E : Type} `{VnodesLaws H E}.
Context (s : sched) (B : list Z).
Implicit Types (c : vcfg) (R : list vref) (M : gset Z) (a : fsys) (F : fixture) (h : H).
Abbreviation st := (λ F k c l1 l2 R M a, vst F k s B c l1 l2 R M a).

(** ** The heap *)

Lemma vst_heap F F' k c l1 l2 R M a h A A' C :
  st F k c l1 l2 R M a → mine F B ≡ₚ A ++ C → mine F' B ≡ₚ A' ++ C → (∀ b, b ∈ B → b ∈ C) → kh_inv h → NoDup A' →
  kh_live h = (kh_live (k_heap k) ∖ list_to_set A) ∪ list_to_set A' → (∀ b, b ∈ A' → b ∉ kh_live (k_heap k) ∖ list_to_set A) →
  vinv (below (set_heap h k)) s (here (set_heap h k) (mine F' B)) (own c ++ R) M a.
Proof.
  intros Hv HA HA' HB Hi Hnd Hl Hn. pose proof (v_sleep _ _ _ _ _ _ _ _ _ _ Hv) as Hsl.
  assert (vinv (below k) s (here (below k) (A ++ C)) (own c ++ R) M a) as Hlow by (eapply l_here; [apply Hv|done]).
  change (here (set_heap h k) (mine F' B)) with (here (below (set_heap h k)) (mine F' B)).
  eapply (l_here _ _ (here (below k) (A' ++ C))); [|simpl; by symmetry].
  apply (l_heap (below k) s A A' C (own c ++ R) M a h Hlow Hi Hnd Hl Hn). intros t th Ht Hth. by eapply HB, Hsl.
Qed.

(** The parts of the invariant that name blocks. *)
Definition placed F c : Prop :=
  (x_dlock F ≠ x_block F ∧ x_dlock F ∈ x_blocks F ∧ x_block F ∈ x_blocks F) ∧ ∀ p, p ∈ (c_kds c).*1 → p ∈ x_blocks F.

Lemma vst_placed F k c l1 l2 R M a : st F k c l1 l2 R M a → placed F c.
Proof. intros []. by split. Qed.

Lemma placed_more p F c : placed F c → placed (more p F) c.
Proof. intros [(? & ? & ?) Hk]. split; [split; [done|split; by right]|]. intros q Hq. right. by apply Hk. Qed.

Lemma vst_blocks F k c l1 l2 R M a h bs :
  let F' := Fixture (x_arr F) (x_dlock F) (x_block F) bs in
  st F k c l1 l2 R M a → placed F' c → vinv (below (set_heap h k)) s (here (set_heap h k) (mine F' B)) (own c ++ R) M a →
  st F' (set_heap h k) c l1 l2 R M a.
Proof. intros F' [] [Hp Hk] Hl. by constructor. Qed.

Lemma v_kalloc F k c l1 l2 R M a sz :
  st F k c l1 l2 R M a → 0 ≤ sz < kh_max →
  wps (kalloc sz) k (λ p k', ((p = NULL ∧ st F k' c l1 l2 R M a) ∨ (p ≠ NULL ∧ p ∉ mine F B ∧ st (more p F) k' c l1 l2 R M a)) ∧
    rooms 1 (k_heap k) (p ≠ NULL) (k_heap k')).
Proof.
  intros Hv Hsz. destruct (v_base _ _ _ _ _ _ _ _ _ _ Hv) as (_ & _ & _ & (Hi & Hnd & Hl) & _).
  eapply wps_mono; [by apply wps_kalloc_full|]. intros p k' (h & -> & Hi' & [[-> Hh]|(Hp & Hpn & Hh)] & Hroom); (split; [|exact Hroom]).
  - left. split; [done|]. destruct F as [ar dl bl bs]. apply (vst_blocks _ _ _ _ _ _ _ _ _ bs Hv); [by eapply vst_placed|].
    apply (vst_heap _ _ _ _ _ _ _ _ _ _ [] [] (mine (Fixture ar dl bl bs) B) Hv); try done.
    + unfold mine. set_solver.
    + constructor.
    + set_solver.
    + set_solver.
  - right. split; [done|]. split; [intros Hin; by apply Hpn, Hl|].
    apply (vst_blocks _ _ _ _ _ _ _ _ _ (p :: x_blocks F) Hv); [apply placed_more; exact (vst_placed _ _ _ _ _ _ _ _ Hv)|].
    apply (vst_heap F (more p F) _ _ _ _ _ _ _ _ [] [p] (mine F B) Hv); try done.
    + by rewrite mine_more.
    + unfold mine. set_solver.
    + apply NoDup_singleton.
    + set_solver.
    + set_solver.
Qed.

Lemma v_kfree F k c l1 l2 R M a p :
  st (more p F) k c l1 l2 R M a → placed F c → wps (kfree_ p) k (λ _ k', st F k' c l1 l2 R M a).
Proof.
  intros Hv Hpl. destruct (v_base _ _ _ _ _ _ _ _ _ _ Hv) as (_ & _ & _ & (Hi & Hnd & Hl) & _).
  assert (p ∈ kh_live (k_heap k)) by (apply Hl; rewrite mine_more; by left).
  eapply wps_mono; [by apply wps_kfree|]. intros [] k' (h & -> & Hi' & Hh). destruct F as [ar dl bl bs].
  apply (vst_blocks _ _ _ _ _ _ _ _ _ bs Hv); [done|].
  apply (vst_heap _ _ _ _ _ _ _ _ _ _ [p] [] (mine (Fixture ar dl bl bs) B) Hv); try done.
  - by rewrite mine_more.
  - unfold mine. set_solver.
  - constructor.
  - rewrite Hh. set_solver.
  - set_solver.
Qed.

(** ** The names in use *)

Lemma samestring3_true x n1 n2 n3 :
  samestring3 x n1 n2 n3 = true ↔ ∃ t, x = Some t ∧ t ∈ option_list n1 ++ option_list n2 ++ option_list n3.
Proof.
  unfold samestring3, samestring. destruct x as [t|]; [|split; [done|by intros (? & ? & _)]].
  rewrite !orb_true_iff. setoid_rewrite elem_of_app. setoid_rewrite elem_of_app.
  assert (∀ n : option (list Z), (match n with Some b => bool_decide (t = b) | None => false end) = true ↔ t ∈ option_list n) as Hn.
  { intros [b|]; simpl; [rewrite bool_decide_eq_true, list_elem_of_singleton; done|]. split; [done|]. by intros ?%not_elem_of_nil. }
  rewrite !Hn. split; [intros Ht; exists t; tauto|]. intros (t' & [= <-] & Ht). tauto.
Qed.

Definition in_use a (kds : list (Z * knowndev)) (ts : list (list Z)) : Prop :=
  ∃ x t, x ∈ kds ∧ t ∈ kd_texts a x.2 ∧ t ∈ ts.

Lemma in_use_snoc a kds x ts : in_use a (kds ++ [x]) ts ↔ in_use a kds ts ∨ ∃ t, t ∈ kd_texts a x.2 ∧ t ∈ ts.
Proof.
  unfold in_use. split.
  - intros (y & t & [Hy| ->%list_elem_of_singleton]%elem_of_app & Ht & Hts); [left; by exists y, t|right; by exists t].
  - intros [(y & t & Hy & ? & ?)|(t & ? & ?)]; [exists y, t|exists x, t]; split_and!; try done; apply elem_of_app; [by left|right; by left].
Qed.

(** The test of one device. *)
Lemma kd_same a kd n1 n2 n3 :
  let ts := option_list n1 ++ option_list n2 ++ option_list n3 in
  let v := if negb (kd_fs kd =? NULL) then volname a (kd_fs kd) else None in
  (negb (kd_fs kd =? NULL) && samestring3 v n1 n2 n3) ||
    (samestring3 (ks_text <$> kd_rawname kd) n1 n2 n3 || samestring3 (Some (ks_text (kd_name kd))) n1 n2 n3) = true
  ↔ ∃ t, t ∈ kd_texts a kd ∧ t ∈ ts.
Proof.
  intros ts v. rewrite !orb_true_iff, andb_true_iff, !samestring3_true. fold ts. unfold kd_texts.
  setoid_rewrite elem_of_cons. setoid_rewrite elem_of_app.
  assert (∀ (o : option (list Z)) t, t ∈ option_list o ↔ o = Some t) as Ho.
  { intros [b|] t; simpl; [rewrite list_elem_of_singleton; split; [by intros ->|by intros [= ->]]|]. split; [by intros ?%not_elem_of_nil|done]. }
  setoid_rewrite Ho. subst v. destruct (kd_fs kd =? NULL); simpl.
  - split.
    + intros [[? _]|[(t & ? & ?)|(t & [= <-] & ?)]]; [done|exists t; tauto|eexists; split; [by left|done]].
    + intros (t & [->|[Ht|Ht%not_elem_of_nil]] & ?); [right; right|right; left|done]; by eexists.
  - split.
    + intros [[_ (t & ? & ?)]|[(t & ? & ?)|(t & [= <-] & ?)]]; [exists t; rewrite Ho; tauto|exists t; tauto|eexists; split; [by left|done]].
    + intros (t & [->|[Ht|Ht%Ho]] & ?); [right; right|right; left|left; split; [done|]]; by eexists.
Qed.

Lemma v_volname_same F k c l1 l2 R M a f Φ :
  st F k c l1 l2 R M a → f ∈ M → Φ (volname a f) k → wps (low (fs_getvolname f)) k Φ.
Proof.
  intros Hv Hf HΦ. apply low_ok. eapply wps_mono; [by apply (l_volname _ _ _ _ _ _ _ (v_low _ _ _ _ _ _ _ _ _ _ Hv))|].
  intros x k1 [-> ->]. by replace (above (k_env k) (below k)) with k by (by destruct k as [? ? ? ? ? ? ? ? ? ? ? ? ? ? ? ? ? ? []]).
Qed.

Lemma v_volume F k c l1 l2 R M a kd :
  st F k c l1 l2 R M a → kd_ok M kd →
  wps (if negb (kd_fs kd =? NULL) then low (fs_getvolname (kd_fs kd)) else mret None) k (λ v k',
    v = (if negb (kd_fs kd =? NULL) then volname a (kd_fs kd) else None) ∧ k' = k).
Proof.
  intros Hv [[Hf|Hf] _]; [rewrite Hf; by wps_step|]. destruct (kd_fs kd =? NULL) eqn:Ef; cbn [negb]; [by wps_step|].
  exact (v_volname_same _ _ _ _ _ _ _ _ _ _ Hv Hf (conj eq_refl eq_refl)).
Qed.

Lemma v_badnames F k c l1 l2 R M a n1 n2 n3 :
  st F k c l1 l2 R M a →
  wps (badnames n1 n2 n3) k (λ b k', k' = k ∧
    (b = true ↔ in_use a (c_kds c) (option_list n1 ++ option_list n2 ++ option_list n3))).
Proof.
  intros Hv. unfold badnames. wps_step. set (ts := option_list n1 ++ option_list n2 ++ option_list n3).
  wps_call (v_scan F _ (c_kds c) k (λ i k', k' = k ∧ ¬ in_use a (take i (c_kds c)) ts)
    (λ r k', k' = k ∧ match r with Some _ => in_use a (c_kds c) ts | None => ¬ in_use a (c_kds c) ts end)).
  - apply Hv.
  - intros i k' [-> _]. split; [apply Hv|]. intros p kd Hi. apply Hv. by eapply list_elem_of_lookup_2.
  - split; [done|]. by intros (x & t & Hx%not_elem_of_nil & _).
  - intros i p kd k' Hi [-> Hn]. assert ((p, kd) ∈ c_kds c) as Hin by (by eapply list_elem_of_lookup_2).
    wps_call (v_volume F k c l1 l2 R M a kd Hv (v_ok _ _ _ _ _ _ _ _ _ _ Hv p kd Hin)).
    intros v k1 [-> ->]. wps_step. pose proof (kd_same a kd n1 n2 n3) as Hs. cbv zeta in Hs. fold ts in Hs.
    destruct (negb (kd_fs kd =? NULL) && _); [split; [done|]|destruct (_ || _); split; try done].
    + destruct (proj1 Hs ltac:(done)) as (t & ? & ?). by exists (p, kd), t.
    + destruct (proj1 Hs ltac:(done)) as (t & ? & ?). by exists (p, kd), t.
    + rewrite (take_S_r _ _ _ Hi), in_use_snoc. intros [?|Ht]; [done|]. apply Hs in Ht. done.
  - intros k' [-> Hn]. by rewrite firstn_all in Hn.
  - intros r k' [-> Hr]. wps_step. split; [done|]. by destruct r.
Qed.

(** ** The table *)

Lemma own_snoc c x R : own c ++ kd_ref x :: R ≡ₚ own (set_devs (c_kds c ++ [x]) c) ++ R.
Proof.
  unfold own. cbn [set_devs c_kds c_cwd c_boot]. rewrite fmap_app. cbn [fmap list_fmap]. rewrite <- !app_assoc. apply Permutation_app_head.
  rewrite !app_assoc. symmetry. apply Permutation_middle.
Qed.

Lemma array_moved ar l h ar' h' : array_kept ar h l ar' h' →
  kh_inv h' ∧ NoDup (arr_blocks ar') ∧
  kh_live h' = (kh_live h ∖ list_to_set (arr_blocks ar)) ∪ list_to_set (arr_blocks ar') ∧
  ∀ b, b ∈ arr_blocks ar' → b ∉ kh_live h ∖ list_to_set (arr_blocks ar).
Proof.
  intros ((Hi & _ & Hb & Hne) & Hf & _).
  assert (∀ x, list_to_set (arr_blocks x) =@{gset Z} array_blocks x) as Hset.
  { intros x. apply set_eq. intros b. by rewrite elem_of_list_to_set, elem_of_arr_blocks. }
  rewrite !Hset. fold (array_frame ar h). rewrite <- Hf. unfold array_frame. split_and!; [done|by apply arr_blocks_once| |].
  - apply set_eq. intros b. rewrite elem_of_union, elem_of_difference. destruct (decide (b ∈ array_blocks ar')); set_solver.
  - intros b Hb'%elem_of_arr_blocks. set_solver.
Qed.

Definition into_table (p : Z) : stm (kst H (vfs E)) Z :=
  a ← known;
  '(r, a) ← heap_op (λ h, '(r, a, h) ← array_add a p h; mret (r, a, h));
  _ ← upd_vfs (set_knowndevs (Some a));
  mret r.

Lemma v_into_table F k c l1 l2 R M a p kd :
  st F k c l1 l2 (kd_ref (p, kd) :: R) M a → kd_mem (k_env k) !! p = Some kd → p ∈ x_blocks F → p ∉ (c_kds c).*1 → kd_ok M kd →
  (∀ q kq, (q, kq) ∈ c_kds c → kd_fs kq = kd_fs kd → kd_fs kd = NULL) → zlen (c_kds c) < 2 ^ 27 → 8 * (zlen (c_kds c) + 1) < kh_max →
  wps (into_table p) k (λ r k',
    (r = 0 ∧ ∃ ar, st (with_arr ar F) k' (set_devs (c_kds c ++ [(p, kd)]) c) l1 l2 R M a) ∨
    (r = ENOMEM ∧ ¬ kh_room 1 (k_heap k) ∧ st F k' c l1 l2 (kd_ref (p, kd) :: R) M a)).
Proof.
  intros Hv Hkd Hp Hnew Hok Hfs Hlen Hmax. unfold into_table, known. rewrite wps_bind. eapply wps_get_opt; [apply Hv|].
  destruct (v_base _ _ _ _ _ _ _ _ _ _ Hv) as (_ & _ & _ & Hown & _).
  pose proof (owned_array_inv _ _ _ _ Hown (v_rep _ _ _ _ _ _ _ _ _ _ Hv)) as Hinv.
  rewrite wps_bind. unfold heap_op. rewrite wps_zoom. rewrite wp_bind.
  eapply wp_mono; [apply (array_add_full _ _ _ p Hinv); by rewrite length_fmap|].
  intros [[r ar] h] [[[-> Hkept]|(-> & -> & Hi & Hl)] Hroom]; wp_val; unfold upd_vfs; rewrite wps_bind, wps_zoom; unfold modify; wp_val; wps_step.
  - left. split; [done|]. exists ar. destruct (array_moved _ _ _ _ _ Hkept) as (Hi' & Hnd & Hl & Hn).
    pose proof (vst_heap F (with_arr ar F) k c l1 l2 _ M a h (arr_blocks (x_arr F)) (arr_blocks ar) (x_blocks F ++ B)
      Hv ltac:(done) ltac:(done) ltac:(set_solver) Hi' Hnd Hl Hn) as Hlow.
    destruct Hkept as ((_ & Hrep & _) & _ & _).
    destruct Hv as [Hvars _ Hkds Honce Hkeys Hok0 Hsingle _ Hk1 Hk2 Hlks Hcwd Hboot Hdirs Hsl].
    constructor; try done; cbn [set_devs c_kds c_cwd c_boot]; try done.
    + split_and!; [done|apply Hvars|apply Hvars].
    + by rewrite fmap_app.
    + intros q kq [Hq|[= -> ->]%list_elem_of_singleton]%elem_of_app; [by apply Hkds|done].
    + rewrite fmap_app. apply NoDup_app. split_and!; [done| |apply NoDup_singleton]. intros q Hq ->%list_elem_of_singleton. done.
    + rewrite fmap_app. intros q [Hq| ->%list_elem_of_singleton]%elem_of_app; [by apply Hkeys|done].
    + intros q kq [Hq|[= -> ->]%list_elem_of_singleton]%elem_of_app; [by eapply Hok0|done].
    + intros q kq q' kq' [Hq|[= -> ->]%list_elem_of_singleton]%elem_of_app [Hq'|[= -> ->]%list_elem_of_singleton]%elem_of_app; try done.
      * by apply Hsingle.
      * intros He Hne. destruct Hne. rewrite He. by eapply Hfs.
      * intros He Hne. destruct Hne. by eapply Hfs.
    + eapply l_perm; [exact Hlow|]. apply own_snoc.
  - right. split; [done|]. split; [by apply (rooms_fail _ _ _ _ Hroom)|].
    pose proof (vst_heap F F k c l1 l2 _ M a h [] [] (mine F B) Hv ltac:(done) ltac:(done) ltac:(unfold mine; set_solver) Hi ltac:(constructor)
      ltac:(rewrite Hl; clear; set_solver) ltac:(clear; set_solver)) as Hlow.
    destruct Hv as [(? & ? & ?)]. constructor; try done.
Qed.

(** ** The pieces of a new device *)

Definition more_opt (o : option kstr) F : fixture := match o with Some n => more (ks_ptr n) F | None => F end.

Lemma placed_opt o F c : placed F c → placed (more_opt o F) c.
Proof. destruct o; [apply placed_more|done]. Qed.

Lemma v_dup F k c l1 l2 R M a t :
  st F k c l1 l2 R M a → zlen t + 1 < kh_max →
  wps (dup t) k (λ o k', st (more_opt o F) k' c l1 l2 R M a ∧ (∀ n, o = Some n → ks_text n = t) ∧
    rooms 1 (k_heap k) (o ≠ None) (k_heap k')).
Proof.
  intros Hv Hl. unfold dup. rewrite wps_bind. eapply wps_mono; [apply (v_kalloc _ _ _ _ _ _ _ _ _ Hv); lia|].
  intros p k1 [[[-> Hv1]|(Hp & _ & Hv1)] Hr]; wps_step; [split_and!; [done|done|no_room]|]. replace (p =? NULL) with false by lia.
  split_and!; [done|by intros n [= <-]|by eapply rooms_mono].
Qed.

Lemma v_rawname F k c l1 l2 R M a (mnt : bool) t :
  st F k c l1 l2 R M a → zlen t + 4 < kh_max →
  wps (if mnt then mkrawname t else mret None) k (λ o k', st (more_opt o F) k' c l1 l2 R M a ∧
    ((mnt = true ∧ o = None) ∨ ks_text <$> o = (if mnt then Some (t ++ raw) else None)) ∧
    rooms 1 (k_heap k) (mnt = true → o ≠ None) (k_heap k')).
Proof.
  intros Hv Hl. destruct mnt; [|wps_step; split_and!; [done|by right|by apply (rooms_le 0); [apply rooms_refl|lia]]]. unfold mkrawname. rewrite wps_bind.
  eapply wps_mono; [apply (v_kalloc _ _ _ _ _ _ _ _ _ Hv); lia|].
  intros p k1 [[[-> Hv1]|(Hp & _ & Hv1)] Hr]; wps_step; [split_and!; [done|by left|no_room]|]. replace (p =? NULL) with false by lia.
  split_and!; [done|by right|by eapply rooms_mono].
Qed.

Lemma v_free_str F k c l1 l2 R M a o :
  st (more_opt o F) k c l1 l2 R M a → placed F c →
  wps (match o with Some n => kfree_ (ks_ptr n) | None => mret tt end) k (λ _ k', st F k' c l1 l2 R M a).
Proof. intros Hv Hp. destruct o; [by apply v_kfree|by wps_step]. Qed.

(** The vnode of a device that is not made after all. *)
Definition spare (v : Z) (R : list vref) : list vref := if v =? NULL then R else Ref v NULL v false :: R.

Lemma v_puke F k c l1 l2 R M a name rawname v :
  st (more_opt rawname (more_opt name F)) k c l1 l2 (spare v R) M a → placed F c → v ∉ r_ptr <$> own c ++ R →
  wps (puke name rawname v) k (λ e k', e = ENOMEM ∧ st F k' c l1 l2 R M a).
Proof.
  intros Hv Hp Hn. unfold puke.
  assert (st (more_opt name (more_opt rawname F)) k c l1 l2 (spare v R) M a) as Hv0.
  { destruct name as [n|], rawname as [r|]; try done. simpl in *. pose proof Hv as [? ? ? ? ? ? ? Hlow].
    assert (more (ks_ptr n) (more (ks_ptr r) F) = Fixture (x_arr F) (x_dlock F) (x_block F) (ks_ptr n :: ks_ptr r :: x_blocks F)) as -> by done.
    constructor; try done; simpl in *.
    - set_solver.
    - eapply l_here in Hlow; [exact Hlow|]. unfold mine. simpl. apply Permutation_app_head, perm_swap.
    - set_solver. }
  wps_call (v_free_str _ _ _ _ _ _ _ _ _ Hv0 (placed_opt _ _ _ Hp)). intros [] k1 Hv1.
  wps_call (v_free_str _ _ _ _ _ _ _ _ _ Hv1 Hp). intros [] k2 Hv2. rewrite wps_bind.
  eapply (wps_mono _ _ (λ _ k', st F k' c l1 l2 R M a)); [|intros [] k' Hv'; by wps_step].
  unfold spare in Hv2. destruct (v =? NULL); cbn [negb]; [by wps_step|].
  eapply wps_mono; [apply (vkeep F s B _ _ _ _ _ _ R _ _ (λ _, True) Hv2)|by intros [] k' [? _]].
  intros X HX. eapply l_perm in HX; [|apply own_perm]. eapply wps_mono; [by apply (l_free _ _ _ _ _ _ _ HX)|]. by intros [] k' Hk'.
Qed.

Lemma v_create F k c l1 l2 R M a dev :
  st F k c l1 l2 R M a → driver a dev → zlen (own c ++ R) < vmax →
  wpf (¬ kh_room 3 (k_heap k)) (low (dev_create_vnode dev)) k (λ v k',
    (v ∉ r_ptr <$> own c ++ R ∧ st F k' c l1 l2 (spare v R) M a) ∧ rooms 3 (k_heap k) (v ≠ NULL) (k_heap k')).
Proof.
  intros Hv Hdrv Hroom. pose proof (l_create _ _ _ _ _ _ dev (v_low _ _ _ _ _ _ _ _ _ _ Hv) Hdrv Hroom) as Hc.
  assert (NULL ∉ r_ptr <$> own c ++ R) as Hnull.
  { intros (r & Hr & Hin)%list_elem_of_fmap. by destruct (v_ref _ _ _ _ _ _ _ _ _ _ _ Hv Hin) as [? _]. }
  unfold wpf, low in *. destruct (dev_create_vnode dev (below k)) as [[v k1]|[]]; try done. unfold spare.
  destruct Hc as [[[-> Hk1]|(Hv0 & Hnew & Hk1)] Hr]; (split; [split; [done|]|exact Hr]).
  - by apply (vst_low F s B k k1 c l1 l2 R R M a a).
  - replace (v =? NULL) with false by lia. apply (vst_low F s B k k1 c l1 l2 R _ M a a Hv). eapply l_perm; [exact Hk1|]. by rewrite own_perm.
Qed.

Lemma v_put_new F k c l1 l2 R M a p kd :
  st F k c l1 l2 R M a → p ∉ (c_kds c).*1 →
  wps (put_kd p kd) k (λ _ k', kd_mem (k_env k') !! p = Some kd ∧ st F k' c l1 l2 R M a ∧ k_heap k' = k_heap k).
Proof.
  intros Hv Hp. unfold put_kd, upd_vfs. rewrite wps_zoom. unfold modify. wp_val. split; [simpl; by rewrite lookup_insert_eq|]. split; [|done].
  destruct Hv as [(? & ? & ?) ? Hkds]. constructor; try done. simpl. intros q kq Hq. rewrite lookup_insert_ne; [by apply Hkds|].
  intros ->. apply Hp. apply list_elem_of_fmap. by exists (q, kq).
Qed.

(** ** [vfs_doadd] *)

(** The device that a call adds; [v] is its vnode. *)
Definition device_of (dname : list Z) (mnt : bool) (dev f : Z) (kd : knowndev) : Prop :=
  ks_text (kd_name kd) = dname ∧ ks_text <$> kd_rawname kd = (if mnt then Some (dname ++ raw) else None) ∧
  kd_device kd = dev ∧ kd_fs kd = f.

(** The answers of [vfs_doadd]: ENOMEM only when memory is [short]. *)
Inductive adds (short : Prop) a c R dname mnt dev f : Z → vcfg → list vref → Prop :=
  | ad_memory : short → adds short a c R dname mnt dev f ENOMEM c R
  | ad_lost e p kd : device_of dname mnt dev f kd →
      (e = EEXIST ∧ in_use a (c_kds c) (kd_texts a kd)) ∨ (e = ENOMEM ∧ short ∧ ¬ in_use a (c_kds c) (kd_texts a kd)) →
      adds short a c R dname mnt dev f e c (kd_ref (p, kd) :: R)
  | ad_done p kd : device_of dname mnt dev f kd → ¬ in_use a (c_kds c) (kd_texts a kd) →
      adds short a c R dname mnt dev f 0 (set_devs (c_kds c ++ [(p, kd)]) c) R.

(** The names of a device, as [badnames] gets them. *)
Lemma kd_texts_args a kd :
  option_list (Some (ks_text (kd_name kd))) ++ option_list (ks_text <$> kd_rawname kd) ++
    option_list (if negb (kd_fs kd =? NULL) then volname a (kd_fs kd) else None) = kd_texts a kd.
Proof. unfold kd_texts. by destruct (kd_fs kd =? NULL). Qed.

(** The last part: the names are free, or the new device is lost. *)
Definition enter (p : Z) (kd : knowndev) : stm (kst H (vfs E)) Z :=
  volname ← (if negb (kd_fs kd =? NULL) then low (fs_getvolname (kd_fs kd)) else mret None);
  lk ← gets (λ k, knowndevs_lock (k_env k));
  _ ← acquire lk;
  bad ← badnames (Some (ks_text (kd_name kd))) (ks_text <$> kd_rawname kd) volname;
  err ← (if negb bad then into_table p else mret EEXIST);
  _ ← lock_release lk;
  mret err.

Lemma v_enter F k c l2 R M a p kd dname mnt dev f :
  st F k c 1 l2 (kd_ref (p, kd) :: R) M a → kd_mem (k_env k) !! p = Some kd → p ∈ x_blocks F → p ∉ (c_kds c).*1 → kd_ok M kd →
  (∀ q kq, (q, kq) ∈ c_kds c → kd_fs kq = kd_fs kd → kd_fs kd = NULL) → zlen (c_kds c) < 2 ^ 27 → 8 * (zlen (c_kds c) + 1) < kh_max →
  device_of dname mnt dev f kd →
  wps (enter p kd) k (λ e k', ∃ F' c' R', st F' k' c' 1 l2 R' M a ∧ adds (¬ kh_room 1 (k_heap k)) a c R dname mnt dev f e c' R').
Proof.
  intros Hv Hkd Hp Hnew Hok Hfs Hlen Hmax Hdev. unfold enter.
  wps_call (v_volume F k c 1 l2 _ M a kd Hv Hok). intros v k1 [-> ->]. wps_step.
  destruct (v_vars _ _ _ _ _ _ _ _ _ _ Hv) as (_ & -> & _). destruct (v_lk1 _ _ _ _ _ _ _ _ _ _ Hv) as [n Hn].
  destruct (v_lks _ _ _ _ _ _ _ _ _ _ Hv) as (_ & Hin & _).
  wps_call (v_acquire _ _ _ _ _ _ _ _ _ _ _ n Hv Hin Hn). intros [] k1 ->.
  pose proof (vst_locks F s B k c 1 l2 0 l2 _ M a _ n 0 Hv Hin (or_introl (conj eq_refl (conj eq_refl eq_refl)))) as Hv1.
  wps_call (v_badnames _ _ _ _ _ _ _ _ _ _ _ Hv1). rewrite kd_texts_args. intros b k2 [-> Hb]. destruct b; cbn [negb].
  - wps_step. wps_call (v_drelease _ _ _ _ _ _ _ _ _ Hv1). intros [] k3 Hv3. wps_step. exists F, c, (kd_ref (p, kd) :: R). split; [done|].
    eapply ad_lost; [done|]. left. split; [done|]. by apply Hb.
  - assert (¬ in_use a (c_kds c) (kd_texts a kd)) as Hno by (intros Hu; by apply Hb in Hu).
    wps_call (v_into_table _ _ _ _ _ _ _ _ p kd Hv1 Hkd Hp Hnew Hok Hfs Hlen Hmax). intros e k3 [[-> [ar Hv3]]|(-> & Hfull & Hv3)].
    + change (x_dlock F) with (x_dlock (with_arr ar F)). wps_call (v_drelease _ _ _ _ _ _ _ _ _ Hv3). intros [] k4 Hv4. wps_step.
      eexists _, _, R. split; [exact Hv4|]. by apply ad_done.
    + wps_call (v_drelease _ _ _ _ _ _ _ _ _ Hv3). intros [] k4 Hv4. wps_step. eexists _, _, _. split; [exact Hv4|].
      eapply ad_lost; [done|]. by right.
Qed.

Lemma adds_weaken (P Q : Prop) a c R dname mnt dev f e c' R' :
  adds P a c R dname mnt dev f e c' R' → (P → Q) → adds Q a c R dname mnt dev f e c' R'.
Proof. intros [HP|? p kd Hd Hp|p kd Hd Hn] HPQ; [by apply ad_memory, HPQ|eapply ad_lost; naive_solver|by apply ad_done]. Qed.

Lemma v_doadd F k c l2 R M a dname mnt dev f :
  st F k c 1 l2 R M a → zlen dname + 20 < kh_max → 20 < kh_max → zlen (c_kds c) < 2 ^ 27 → 8 * (zlen (c_kds c) + 1) < kh_max →
  zlen (own c ++ R) < vmax → driver a dev →
  (f = NULL ∧ dev ≠ NULL) ∨ (f ≠ NULL ∧ f ∈ M ∧ mnt = false ∧ ∀ q kq, (q, kq) ∈ c_kds c → kd_fs kq ≠ f) →
  let short := ¬ kh_room 7 (k_heap k) in
  wpf short (vfs_doadd dname mnt dev f) k (λ e k', ∃ F' c' R', st F' k' c' 1 l2 R' M a ∧ adds short a c R dname mnt dev f e c' R').
Proof.
  intros Hv Hl Hsz Hlen Hmax Hroom Hdrv Harg short. pose proof (vst_placed _ _ _ _ _ _ _ _ Hv) as Hpl. unfold vfs_doadd.
  assert (NULL ∉ r_ptr <$> own c ++ R) as Hnull.
  { intros (r & Hr & Hin)%list_elem_of_fmap. by destruct (v_ref _ _ _ _ _ _ _ _ _ _ _ Hv Hin) as [? _]. }
  assert (∀ k1 (o1 o2 : option kstr) v, st (more_opt o2 (more_opt o1 F)) k1 c 1 l2 (spare v R) M a → v ∉ r_ptr <$> own c ++ R → short →
    wpf short (puke o1 o2 v) k1 (λ e k', ∃ F' c' R', st F' k' c' 1 l2 R' M a ∧ adds short a c R dname mnt dev f e c' R')) as Hpuke.
  { intros k1 o1 o2 v Hv1 Hn Hs. eapply wpf_mono; [eapply wpf_of_wps, (v_puke F k1 c 1 l2 R M a o1 o2 v Hv1 Hpl Hn)|].
    intros e k' [-> Hv']. exists F, c, R. split; [done|by apply ad_memory]. }
  assert (∀ n (ok : Prop) h, (n ≤ 7)%nat → rooms n (k_heap k) ok h → ¬ ok → short) as Hshort.
  { intros n ok h Hn Hr. apply (rooms_fail 7 _ _ _ (rooms_le _ _ _ _ _ Hr Hn)). }
  wpf_call (v_dup _ _ _ _ _ _ _ _ dname Hv ltac:(lia)). intros [nm|] k1 (Hv1 & Hnm & Hr1);
    [|apply Hpuke; [done|done|apply (Hshort 1%nat _ _ ltac:(lia) Hr1); naive_solver]].
  specialize (Hnm _ eq_refl).
  wpf_call (v_rawname _ _ _ _ _ _ _ _ mnt (ks_text nm) Hv1 ltac:(rewrite Hnm; lia)). intros rn k2 (Hv2 & Hrn & Hr2).
  pose proof (rooms_bind 1 1 _ _ _ _ _ Hr1 (λ _, Hr2)) as Hrs2.
  rewrite Hnm in Hrn.
  destruct (mnt && match rn with None => true | Some _ => false end) eqn:Efail.
  { apply andb_true_iff in Efail as [-> Hr]. destruct rn; [done|].
    apply Hpuke; [done|done|apply (Hshort 2%nat _ _ ltac:(lia) Hrs2); naive_solver]. }
  destruct Hrn as [[-> ->]|Hrn]; [done|].
  rewrite wpf_bind. eapply wpf_mono; [eapply wpf_weaken; [apply (v_create _ _ _ _ _ _ _ _ dev Hv2 Hdrv Hroom)|]|].
  { intros Hno Hr. apply (Hrs2 5%nat) in Hr as [_ Hr]. apply Hno. eapply room_sub; [exact Hr|lia]. }
  intros v k3 [[Hnv Hv3] Hr3]. pose proof (rooms_bind 2 3 _ _ _ _ _ Hrs2 (λ _, Hr3)) as Hrs3. destruct (v =? NULL) eqn:Ev.
  { assert (v = NULL) as -> by lia. apply Hpuke; [done|done|apply (Hshort 5%nat _ _ ltac:(lia) Hrs3); naive_solver]. }
  wpf_call (v_kalloc _ _ _ _ _ _ _ _ KNOWNDEV_SIZE Hv3 ltac:(unfold KNOWNDEV_SIZE; lia)).
  intros p k4 [Hk4 Hr4]. pose proof (rooms_bind 5 1 _ _ _ _ _ Hrs3 (λ _, Hr4)) as Hrs4.
  destruct Hk4 as [[-> Hv4]|(Hp & Hpn & Hv4)];
    [apply Hpuke; [done|done|apply (Hshort 6%nat _ _ ltac:(lia) Hrs4); naive_solver]|]. replace (p =? NULL) with false by lia.
  assert (p ∉ (c_kds c).*1) as Hnew.
  { intros Hin. apply Hpn. unfold mine. apply elem_of_app. right. apply elem_of_app. left.
    by apply (placed_opt rn _ _ (placed_more (ks_ptr nm) _ _ Hpl)). }
  set (kd := Knowndev nm rn dev v f). wpf_call (v_put_new _ _ _ _ _ _ _ _ p kd Hv4 Hnew). intros [] k5 (Hkd & Hv5 & Hh5).
  unfold spare in Hv5. rewrite Ev in Hv5.
  change (wpf short (enter p kd) k5 (λ e k', ∃ F' c' R', st F' k' c' 1 l2 R' M a ∧ adds short a c R dname mnt dev f e c' R')).
  apply wpf_of_wps. eapply wps_mono; [eapply v_enter; [exact Hv5|exact Hkd|by left|exact Hnew| | |done|done|done]|].
  - destruct Harg as [[-> Hd]|(Hf & HM & -> & _)]; (split; simpl; [tauto|]); [done|]. intros [Hr|?]; [|done]. by destruct rn.
  - intros q kq Hq. simpl. intros Heq. destruct Harg as [[-> _]|(_ & _ & _ & Hno)]; [done|]. by destruct (Hno q kq Hq).
  - intros e k6 (F' & c' & R' & Hv6 & Hadd). exists F', c', R'. split; [done|]. eapply adds_weaken; [exact Hadd|].
    rewrite Hh5. intros Hno Hr. apply (Hrs4 1%nat) in Hr as [_ Hr]. done.
Qed.

(** ** Finding the new device *)

Lemma kd_answer_text a t kd x : kd_answer a t kd = Some x → t ∈ kd_texts a kd.
Proof.
  unfold kd_answer, kd_texts, is_text, is_raw, is_vol. intros Ha. rewrite elem_of_cons, elem_of_app.
  destruct (bool_decide_reflect (ks_text (kd_name kd) = t)) as [<-|Hn]; [by left|right].
  destruct (kd_fs kd =? NULL); simpl in *.
  - destruct (kd_rawname kd) as [r|]; [|done]. left. simpl. unfold is_text in Ha. case_bool_decide; [|done]. subst t. by left.
  - destruct (volname a (kd_fs kd)) as [v|]; simpl in *.
    + case_bool_decide; [right; subst t; by left|]. destruct (kd_rawname kd) as [r|]; [|done]. left. simpl. unfold is_text in Ha. case_bool_decide; [|done].
      subst t. by left.
    + destruct (kd_rawname kd) as [r|]; [|done]. left. simpl. unfold is_text in Ha. case_bool_decide; [|done]. subst t. by left.
Qed.

Lemma find_dev_new a t kds kd p : ¬ in_use a kds (kd_texts a kd) → t ∈ kd_texts a kd → find_dev a t (kds ++ [(p, kd)]) = kd_answer a t kd.
Proof.
  intros Hno Ht. assert (∀ x, x ∈ kds → t ∉ kd_texts a x.2) as Hk by (intros x Hx Htx; apply Hno; by exists x, t). clear Hno.
  induction kds as [|y kds IH]; simpl; [by destruct (kd_answer a t kd)|].
  destruct (kd_answer a t y.2) as [z|] eqn:Ey; [|apply IH; intros x Hx; apply Hk; by right].
  destruct (Hk y); [by left|]. by eapply kd_answer_text.
Qed.

Lemma names_once_add a kds x : names_once a kds → ¬ in_use a kds (kd_texts a x.2) → names_once a (kds ++ [x]).
Proof.
  intros Ho Hno i j y z t Hi Hj Hy Hz.
  assert (∀ l w, (kds ++ [x]) !! l = Some w → kds !! l = Some w ∨ (l = length kds ∧ w = x)) as Hat.
  { intros l w [Hl|[Hl Hw]]%lookup_app_Some; [by left|]. right. apply list_lookup_singleton_Some in Hw as [Hl0 ->]. split; [lia|done]. }
  destruct (Hat i y Hi) as [Hi'|[-> ->]], (Hat j z Hj) as [Hj'|[-> ->]]; [by eapply Ho| | |done];
    destruct Hno; [exists y, t|exists z, t]; (split; [by eapply list_elem_of_lookup_2|done]).
Qed.
(** The name by which the device itself is reached. *)
Definition own_name (nm : list Z) (mnt : bool) : list Z := if mnt then nm ++ raw else nm.

Lemma own_name_found a kds p kd nm mnt dev :
  ¬ in_use a kds (kd_texts a kd) → device_of nm mnt dev NULL kd → find_dev a (own_name nm mnt) (kds ++ [(p, kd)]) = Some (ADev (kd_vnode kd)).
Proof.
  intros Hno (Hn & Hr & Hd & Hf).
  rewrite find_dev_new by (try done; unfold kd_texts, own_name; rewrite Hn, Hr; destruct mnt; simpl; set_solver).
  unfold kd_answer, is_text, own_name. rewrite Hn, Hf. cbn [negb Z.eqb NULL andb]. destruct mnt.
  - destruct (kd_rawname kd) as [r|]; [|done]. injection Hr as Hr. rewrite bool_decide_false.
    + simpl. unfold is_text. by rewrite Hr, bool_decide_true.
    + intros Heq%(f_equal length). rewrite length_app in Heq. simpl in Heq. lia.
  - rewrite bool_decide_true by done. by destruct (kd_rawname kd).
Qed.

Lemma path_of_device nm : nm ≠ [] → Forall (λ x, is_mark x = false) nm → parse (nm ++ [COLON]) = PDev nm [].
Proof. intros Hne Hm. by apply (parse_dev nm 0 []). Qed.

(** The names that a new device without a file system takes. *)
Definition new_names (nm : list Z) (mnt : bool) : list (list Z) := nm :: if mnt then [nm ++ raw] else [].

Lemma kd_texts_new a nm mnt dev kd : device_of nm mnt dev NULL kd → kd_texts a kd = new_names nm mnt.
Proof. intros (Hn & Hr & _ & Hf). unfold kd_texts, new_names. rewrite Hn, Hr, Hf. by destruct mnt. Qed.

(** Without a file system, the plain name of a device for file systems leads nowhere. *)
Lemma plain_name_found a kds p kd nm dev :
  ¬ in_use a kds (kd_texts a kd) → device_of nm true dev NULL kd → find_dev a nm (kds ++ [(p, kd)]) = Some ANoFs.
Proof.
  intros Hno Hof. rewrite find_dev_new by (try done; rewrite (kd_texts_new _ _ _ _ _ Hof); by left). destruct Hof as (Hn & Hr & _ & Hf).
  unfold kd_answer, is_text. rewrite Hn, Hf, bool_decide_true by done. by destruct (kd_rawname kd).
Qed.

Lemma own_name_plain nm mnt : nm ≠ own_name nm mnt → mnt = true.
Proof. by destruct mnt. Qed.

(** Where the two names of the new device lead. *)
Lemma new_device_start c a p kd nm mnt dev t :
  ¬ in_use a (c_kds c) (kd_texts a kd) → device_of nm mnt dev NULL kd → t = own_name nm mnt ∨ t = nm →
  t ≠ [] → Forall (λ x, is_mark x = false) t →
  start_of (set_devs (c_kds c ++ [(p, kd)]) c) a (t ++ [COLON]) =
    if decide (t = own_name nm mnt) then inr ((NULL, kd_vnode kd), []) else inl ENXIO.
Proof.
  intros Hno Hof Ht Hne Hm. unfold start_of. rewrite path_of_device by done. cbn [set_devs c_kds]. case_decide as Hd.
  - subst t. by rewrite (own_name_found a (c_kds c) p kd nm mnt dev Hno Hof).
  - destruct Ht as [?| ->]; [done|]. rewrite (own_name_plain _ _ Hd) in Hof. by rewrite (plain_name_found a (c_kds c) p kd nm dev Hno Hof).
Qed.

Lemma v_add_find F k c R M a nm mnt dev t :
  st F k c 1 1 R M a → zlen nm + 20 < kh_max → 20 < kh_max → zlen (c_kds c) < 2 ^ 27 → 8 * (zlen (c_kds c) + 1) < kh_max →
  zlen (own c ++ R) + 3 ≤ vmax → driver a dev → dev ≠ NULL →
  t = own_name nm mnt ∨ t = nm → t ≠ [] → Forall (λ x, is_mark x = false) t → nozero t →
  let short := ¬ kh_room 7 (k_heap k) in
  wpf short (e ← vfs_adddev nm dev mnt; r ← vfs_lookup (t ++ [COLON]); mret (e, r)) k (λ '(e, (e2, q)) k',
    (e = 0 ∧ ¬ in_use a (c_kds c) (new_names nm mnt) ∧ ∃ F' p kd, let c' := set_devs (c_kds c ++ [(p, kd)]) c in
      device_of nm mnt dev NULL kd ∧
      if decide (t = own_name nm mnt) then e2 = 0 ∧ st F' k' c' 1 1 (Ref q NULL (kd_vnode kd) false :: R) M a
      else e2 = ENXIO ∧ st F' k' c' 1 1 R M a) ∨
    (((e = EEXIST ∧ in_use a (c_kds c) (new_names nm mnt)) ∨ (e = ENOMEM ∧ short)) ∧ ∃ F' R', st F' k' c 1 1 R' M a)).
Proof.
  intros Hv Hl H20 Hlen Hmax Hroom Hdrv Hdev Ht Hne Hmark Hnz short. rewrite wpf_bind. unfold vfs_adddev.
  eapply wpf_mono; [apply (v_doadd F k c 1 R M a nm mnt dev NULL Hv); try done; [lia|by left]|].
  intros e k1 (F' & c' & R' & Hv1 & Hadd). rewrite wpf_bind.
  assert (nozero (t ++ [COLON])) as Hnz'.
  { intros x [Hx|Hx%list_elem_of_singleton]%elem_of_app; [by apply Hnz|by subst]. }
  assert (zlen (own c' ++ R') + 2 ≤ vmax) as Hroom'.
  { destruct Hadd as [|? p kd|p kd]; [lia|rewrite length_app in *; simpl; lia|].
    unfold own in *. simpl. rewrite fmap_app, !length_app in *. simpl. lia. }
  eapply wpf_mono; [apply wpf_of_wps, (v_lookup F' s B k1 c' R' M a _ Hv1 Hroom' Hnz')|].
  intros [e2 q] k2 (o & Hlk & Hv2). apply wpf_ret.
  destruct Hadd as [Hs|e p kd Hof Hwhy|p kd Hof Hno].
  - right. split; [by right|]. by eexists _, _.
  - right. rewrite (kd_texts_new _ _ _ _ _ Hof) in Hwhy. split; [naive_solver|]. by eexists _, _.
  - left. pose proof (new_device_start c a p kd nm mnt dev t Hno Hof Ht Hne Hmark) as Hst. rewrite (kd_texts_new _ _ _ _ _ Hof) in Hno.
    split; [done|]. split; [done|]. exists F', p, kd. cbn zeta. split; [done|].
    case_decide; destruct Hlk as [e o Hs|o Hs|o sub e x Hs Hsub]; rewrite Hst in Hs; try done.
    + injection Hs as <-. by split.
    + by injection Hs as _ <-.
    + injection Hs as <-. by split.
Qed.
End add.
