(* ===== verification/Device.v ===== *)
(** * Devices as vnodes (kern/fs/vfs/device.c, kern/fs/vfs/devnull.c)

    A device is a table of functions on the state [D] of the hardware; a vnode made for it hands its
    operations on to them.  [sys] is the environment of the thread system with one mounted volume
    and the devices: a call on a vnode goes to device.c when the vnode is that of a device, and to
    SFS otherwise.  This makes the table [Vnodes] of the layer above. *)

From S2P Require Import Prelude StateM Heap KArray KBitmap KState Owned Synch Uio SfsDisk Sfs SfsVolume SfsNode Vfs.

Definition ESPIPE : Z := 12.
Definition S_IFCHR : Z := 16384.
Definition S_IFBLK : Z := 20480.

(** [struct device]; the functions have the device data. *)
Record device (D : Type) := Dev {
  d_open : Z → stm D Z;
  d_close : stm D Z;
  d_io : uio → stm D (Z * uio);
  d_ioctl : Z → Z → stm D Z;
  d_blocks : Z;
  d_blocksize : Z;
}.
Arguments Dev {D}. Arguments d_open {D}. Arguments d_close {D}. Arguments d_io {D}.
Arguments d_ioctl {D}. Arguments d_blocks {D}. Arguments d_blocksize {D}.

(** The vnode of a device: no file system, and the table [dev_vnode_ops]. *)
Record dvnode := DVnode { dv_refcount : Z; dv_opencount : Z; dv_countlock : Z; dv_data : Z }.
Definition dv_set_refcount (x : Z) (v : dvnode) : dvnode := DVnode x (dv_opencount v) (dv_countlock v) (dv_data v).
Definition dv_set_opencount (x : Z) (v : dvnode) : dvnode := DVnode (dv_refcount v) x (dv_countlock v) (dv_data v).
Definition VNODE_SIZE : Z := 24.

Record sys (D : Type) := Sys {
  y_fs : sfs_fs;
  y_vn : gmap Z dvnode;
  y_dev : gmap Z (device D);
  y_io : D;
}.
Arguments Sys {D}. Arguments y_fs {D}. Arguments y_vn {D}. Arguments y_dev {D}. Arguments y_io {D}.

Section setters.
Context {D : Type}.
Implicit Types e : sys D.
Definition set_yfs f e := Sys f (y_vn e) (y_dev e) (y_io e).
Definition set_yvn m e := Sys (y_fs e) m (y_dev e) (y_io e).
Definition set_ydev m e := Sys (y_fs e) (y_vn e) m (y_io e).
Definition set_yio x e := Sys (y_fs e) (y_vn e) (y_dev e) x.
End setters.

Section device.
Context {H D : Type} `{KHeap H}.
Abbreviation K := (stm (kst H (sys D))).

Definition getd (p : Z) : K dvnode := λ k,
  match y_vn (k_env k) !! p with Some v => Ok (v, k) | None => Fault FUndef end.
Definition upd_sys (g : sys D → sys D) : K unit := zoom k_env set_env (modify g).
Definition putd (p : Z) (v : dvnode) : K unit := upd_sys (λ e, set_yvn (<[p := v]> (y_vn e)) e).
Definition get_dev (p : Z) : K (device D) := λ k,
  match y_dev (k_env k) !! p with Some d => Ok (d, k) | None => Fault FUndef end.

(** [v->vn_data], and a call of one of its functions. *)
Definition data (p : Z) : K (device D) := v ← getd p; get_dev (dv_data v).
Definition on_hw {A} (m : stm D A) : K A := zoom (λ k, y_io (k_env k)) (λ x k, set_env (set_yio x (k_env k)) k) m.

(** ** vnode.c, on the vnode of a device *)

Definition dv_incref (p : Z) : K unit :=
  _ ← asrt (negb (p =? NULL));
  v ← getd p;
  _ ← acquire (dv_countlock v);
  v ← getd p;
  _ ← putd p (dv_set_refcount (s32 (dv_refcount v + 1)) v);
  lock_release (dv_countlock v).

Definition dv_check (reclaim : bool) (p : Z) : K unit :=
  if (p =? NULL) || (p =? DEADBEEF) then fault_ FPanic
  else
    v ← getd p;
    _ ← acquire (dv_countlock v);
    v ← getd p;
    if dv_refcount v <? 0 then fault_ FPanic
    else if (dv_refcount v =? 0) && negb reclaim then fault_ FPanic
    else if dv_opencount v <? 0 then fault_ FPanic
    else lock_release (dv_countlock v).

(** A call through the table. *)
Definition dvop {A} (p : Z) (m : K A) : K A := _ ← dv_check false p; m.

(** ** device.c *)

Definition dev_open (p flags : Z) : K Z :=
  d ← data p;
  if negb (Z.land flags (Z.lor (Z.lor O_CREAT O_TRUNC) (Z.lor O_EXCL O_APPEND)) =? 0) then mret EINVAL
  else on_hw (d_open d flags).

Definition dev_close (p : Z) : K Z := d ← data p; on_hw (d_close d).
Definition dev_reclaim (p : Z) : K Z := mret 0.

Definition dev_read (p : Z) (u : uio) : K (Z * uio) :=
  d ← data p; _ ← asrt (negb (is_write u)); on_hw (d_io d u).
Definition null_io (p : Z) (u : uio) : K (Z * uio) := mret (EINVAL, u).
Definition dev_write (p : Z) (u : uio) : K (Z * uio) :=
  d ← data p; _ ← asrt (is_write u); on_hw (d_io d u).
Definition dev_ioctl (p op dat : Z) : K Z := d ← data p; on_hw (d_ioctl d op dat).

(** The code and the type. *)
Definition dev_gettype (p : Z) : K (Z * Z) :=
  d ← data p; mret (0, if d_blocks d >? 0 then S_IFBLK else S_IFCHR).

(** [VOP_GETTYPE] is a call through the table. *)
Definition dev_stat (p : Z) : K (Z * stat) :=
  d ← data p;
  '(result, mode) ← dvop p (dev_gettype p);
  if negb (result =? 0) then mret (result, stat0)
  else mret (0, Stat mode 1 (if d_blocks d >? 0 then s32 (u32 (d_blocks d * d_blocksize d)) else 0) (d_blocks d)).

(** The position is converted to unsigned for the division. *)
Definition dev_tryseek (p pos : Z) : K Z :=
  d ← data p;
  if d_blocks d >? 0 then
    _ ← (if d_blocksize d =? 0 then fault_ FUndef else mret tt);
    if negb (u32 pos mod d_blocksize d =? 0) then mret EINVAL
    else if pos <? 0 then mret EINVAL
    else if u32 pos / d_blocksize d >=? d_blocks d then mret EINVAL
    else mret 0
  else mret ESPIPE.

Definition null_fsync (p : Z) : K Z := mret 0.
Definition dev_mmap (p : Z) : K Z := mret EUNIMP.

Definition dev_truncate (p len : Z) : K Z :=
  d ← data p;
  mret (if (d_blocks d >? 0) && (s32 (u32 (d_blocks d * d_blocksize d)) =? len) then 0 else EINVAL).

Definition dev_namefile (p : Z) (u : uio) : K (Z * uio) := mret (0, u).
Definition null_creat (p : Z) (name : list Z) (excl : bool) : K (Z * Z) := mret (ENOTDIR, NULL).
Definition null_symlink (p : Z) (contents name : list Z) : K Z := mret ENOTDIR.
Definition null_nameop (p : Z) (name : list Z) : K Z := mret ENOTDIR.
Definition null_link (p : Z) (name : list Z) (file : Z) : K Z := mret ENOTDIR.
Definition null_rename (p : Z) (n1 : list Z) (p2 : Z) (n2 : list Z) : K Z := mret ENOTDIR.

Definition dev_lookup (p : Z) (path : list Z) : K (Z * Z) :=
  if zlen path >? 0 then mret (ENOENT, NULL) else _ ← dv_incref p; mret (0, p).
Definition dev_lookparent (p : Z) (path : list Z) (buflen : Z) : K (Z * Z * list Z) := mret (ENOTDIR, NULL, []).

(** [vnode_init] of a new block, with the name of the lock as in SfsNode. *)
Definition dev_create_vnode_ (dev : Z) : K Z :=
  p ← kalloc VNODE_SIZE;
  if p =? NULL then mret NULL
  else
    lk ← lock_create 15;
    _ ← putd p (DVnode 1 0 lk dev);
    if lk =? NULL then fault_ FPanic else mret p.

(** ** vnode.c, continued *)

Definition dv_decref (p : Z) : K unit :=
  _ ← asrt (negb (p =? NULL));
  v ← getd p;
  _ ← acquire (dv_countlock v);
  v ← getd p;
  _ ← asrt (dv_refcount v >? 0);
  _ ← (if dv_refcount v >? 1 then putd p (dv_set_refcount (dv_refcount v - 1) v) else mret tt);
  _ ← lock_release (dv_countlock v);
  if dv_refcount v >? 1 then mret tt
  else _ ← dv_check true p; _ ← dev_reclaim p; mret tt.

Definition dv_incopen (p : Z) : K unit :=
  _ ← asrt (negb (p =? NULL));
  v ← getd p;
  _ ← acquire (dv_countlock v);
  v ← getd p;
  _ ← putd p (dv_set_opencount (s32 (dv_opencount v + 1)) v);
  lock_release (dv_countlock v).

Definition dv_decopen (p : Z) : K unit :=
  _ ← asrt (negb (p =? NULL));
  v ← getd p;
  _ ← acquire (dv_countlock v);
  v ← getd p;
  _ ← asrt (dv_opencount v >? 0);
  let opencount := dv_opencount v - 1 in
  _ ← putd p (dv_set_opencount opencount v);
  _ ← lock_release (dv_countlock v);
  if opencount >? 0 then mret tt else _ ← dvop p (dev_close p); mret tt.

(** ** The null device *)

Definition nullopen (openflags : Z) : stm D Z := mret 0.
Definition nullclose : stm D Z := mret 0.
Definition nullio (u : uio) : stm D (Z * uio) :=
  mret (0, if is_write u then uio_set_resid 0 u else u).
Definition nullioctl (op dat : Z) : stm D Z := mret EINVAL.
Definition null_dev : device D := Dev nullopen nullclose nullio nullioctl 0 1.

(** ** The tables of the layer above *)

(** The kernel with the volume alone, and a call of SFS. *)
Definition down (k : kst H (sys D)) : kst H sfs_fs := with_env (y_fs (k_env k)) k.
Definition fsm {A} (m : stm (kst H sfs_fs) A) : K A := λ k,
  match m (down k) with
  | Ok (a, k') => Ok (a, with_env (set_yfs (k_env k') (k_env k)) k')
  | Fault e => Fault e
  end.

(** [vn_ops] tells the vnode of a device from those of the volume. *)
Definition by_ops {A} (p : Z) (dev : K A) (fs : stm (kst H sfs_fs) A) : K A := λ k,
  match y_vn (k_env k) !! p with Some _ => dev k | None => fsm fs k end.

(** There is one volume; [fsp] is the address of its [struct fs]. *)
Variable U : usermem.
Variable fsp : Z.
Definition on_fs {A} (f : Z) (m : stm (kst H sfs_fs) A) : K A := if f =? fsp then fsm m else fault_ FUndef.

Definition sys_vnodes : Vnodes H (sys D) := {|
  vop_incref p := by_ops p (dv_incref p) (vnode_incref p);
  vop_decref p := by_ops p (dv_decref p) (vnode_decref U p);
  vop_incopen p := by_ops p (dv_incopen p) (vnode_incopen p);
  vop_decopen p := by_ops p (dv_decopen p) (vnode_decopen U p);
  vn_fs p := by_ops p (mret NULL) (mret fsp);
  vop_open p flags := by_ops p (dvop p (dev_open p flags)) (VOP_ p (VOP_OPEN p flags));
  vop_readlink p u := by_ops p (dvop p (null_io p u)) (VOP_ p (VOP_READLINK p u));
  vop_gettype p := by_ops p (dvop p (dev_gettype p)) (VOP_ p (VOP_GETTYPE p));
  vop_truncate p len := by_ops p (dvop p (dev_truncate p len)) (VOP_ p (VOP_TRUNCATE U p len));
  vop_namefile p u := by_ops p (dvop p (dev_namefile p u)) (VOP_ p (VOP_NAMEFILE p u));
  vop_creat p name excl := by_ops p (dvop p (null_creat p name excl)) (VOP_CREAT U p name excl);
  vop_symlink p x y := by_ops p (dvop p (null_symlink p x y)) (VOP_SYMLINK p x y);
  vop_mkdir p name := by_ops p (dvop p (null_nameop p name)) (VOP_MKDIR p name);
  vop_link p name file := by_ops p (dvop p (null_link p name file)) (VOP_LINK U p name file);
  vop_remove p name := by_ops p (dvop p (null_nameop p name)) (VOP_REMOVE U p name);
  vop_rmdir p name := by_ops p (dvop p (null_nameop p name)) (VOP_RMDIR p name);
  vop_rename p n1 p2 n2 := by_ops p (dvop p (null_rename p n1 p2 n2)) (VOP_RENAME U p n1 p2 n2);
  vop_lookup p path := by_ops p (dvop p (dev_lookup p path)) (VOP_LOOKUP U p path);
  vop_lookparent p path len := by_ops p (dvop p (dev_lookparent p path len)) (VOP_LOOKPARENT p path len);
  fs_sync f := on_fs f (sfs_sync U);
  fs_getvolname f := on_fs f (inF (v ← sfs_getvolname; mret (Some (cstr v))));
  fs_getroot f := on_fs f (sfs_getroot U);
  fs_unmount f := on_fs f sfs_unmount;
  dev_create_vnode := dev_create_vnode_;
  vnode_free p := _ ← kfree_ p; upd_sys (λ e, set_yvn (delete p (y_vn e)) e);
  null_device p := upd_sys (λ e, set_ydev (<[p := null_dev]> (y_dev e)) e);
|}.
End device.
