(* ===== verification/SfsHeld.v ===== *)
(** * The file system and the rest of the kernel

    [Fs root k s B V] says of the kernel only that the volume is in order and that the rest is as
    [B] says: when the heap, the locks or the threads change outside the volume, it still holds. *)

From S2P Require Import Prelude StateM Heap KArray KBitmap Coremap KState Thread ThreadSpec ThreadHeap Synch SynchSpec Owned.
From S2P Require Import ProcSpec Uio SfsDisk Sfs SfsBytes SfsSpec SfsIo SfsDirs SfsTrunc SfsVolume SfsTree SfsNode SfsNodeSpec.
From S2P Require Import SfsTree SfsNodeSpec SfsRep SfsLife SfsView SfsOps.

Section frame.
Context {H : Type} `{KHeapLaws H}.
Implicit Types (k : kst H sfs_fs) (B : outside) (V : view).

(** ** The vnodes in memory *)

(** The same rest of the kernel, described in another way. *)
Record alike (X X' : outer) : Prop := Alike {
  al_blocks : o_blocks X ≡ₚ o_blocks X';
  al_threads : o_threads X' = o_threads X;
  al_locks : ∀ b, b ∈ o_blocks X → o_locks X' !! b = o_locks X !! b;
}.

Lemma nodes_alike k s vs B B' : nodes k s vs B → alike B B' → nodes k s vs B'.
Proof.
  intros [Hr Hi Hn Hl Ha Ho Hs Ht Hout] [Hb Hth Hlk]. constructor; try done.
  - by rewrite <- Hb.
  - intros t th Hin E. rewrite <- Hb. by apply (Hs t).
  - congruence.
  - intros b Hin. rewrite <- Hb in Hin. rewrite Hlk by done. by apply Hout.
Qed.

(** Blocks [A] of the rest become [A']. *)
Lemma owned_swap (h h' : H) P A A' C :
  owned h (P ++ A ++ C) → kh_inv h' → NoDup A' → kh_live h' = (kh_live h ∖ list_to_set A) ∪ list_to_set A' →
  (∀ b, b ∈ A' → b ∉ kh_live h ∖ list_to_set A) → owned h' (P ++ A' ++ C).
Proof.
  intros Ho Hi' Hnd' Hl Hnew. assert (owned h (A ++ P ++ C)) as (Hi & Hnd & Hb).
  { eapply owned_perm; [|exact Ho]. rewrite !app_assoc. by rewrite (Permutation_app_comm P A). }
  apply NoDup_app in Hnd as (_ & Hd & Hnd). cut (owned h' (A' ++ P ++ C)).
  { intros Ho'. eapply owned_perm; [|exact Ho']. rewrite !app_assoc. by rewrite (Permutation_app_comm P A'). }
  assert (∀ b, b ∈ P ++ C → b ∈ kh_live h ∖ list_to_set A) as Hold.
  { intros b Hin. apply elem_of_difference. split; [apply Hb, elem_of_app; by right|].
    rewrite elem_of_list_to_set. intros HA. by apply (Hd b). }
  split_and!; [done| |].
  - apply NoDup_app. split_and!; [done| |done]. intros b HA Hin. by apply (Hnew b HA), Hold.
  - intros b Hin. rewrite Hl. apply elem_of_union. apply elem_of_app in Hin as [Hin|Hin]; [right; by apply elem_of_list_to_set|].
    left. by apply Hold.
Qed.

Definition on_blocks (bs : list Z) (X : outer) : outer := Outer bs (o_threads X) (o_locks X).
Definition with_outer (X : outer) B : outside := Outside X (o_open B) (o_super B).

Lemma nodes_heap_swap k s vs B h P A A' C :
  nodes k s vs B → o_blocks B = P ++ A ++ C → (∀ b, k_locks k !! b = o_locks B !! b) →
  kh_inv h → NoDup A' → kh_live h = (kh_live (k_heap k) ∖ list_to_set A) ∪ list_to_set A' →
  (∀ b, b ∈ A' → b ∉ kh_live (k_heap k) ∖ list_to_set A) →
  (∀ t th, t ∈ s_sleep s → k_threads k !! t = Some th → t_sleepaddr th ∈ C) →
  nodes (set_heap h k) s vs (with_outer (on_blocks (P ++ A' ++ C) B) B).
Proof.
  intros [Hr Hi Hn Hl Ha Ho Hs Ht Hout] HB HL Hi' Hnd Hlive Hnew Hsl. constructor; ksimpl; try done.
  - destruct Hr. by constructor.
  - set (Q := arr_blocks (sfs_vnodes (k_env k))) in *. set (N := nblks (k_locks k) vs) in *. simpl.
    replace (Q ++ N ++ P ++ A' ++ C) with ((Q ++ N ++ P) ++ A' ++ C) by (by rewrite <- !app_assoc).
    apply (owned_swap (k_heap k) h (Q ++ N ++ P) A A' C); try done. rewrite HB in Ho. by rewrite <- !app_assoc.
  - intros t th Hin E. simpl. rewrite !elem_of_app. right. right. by apply (Hsl t th).
Qed.

(** Some blocks are forgotten. *)
Lemma nodes_less k s vs B Q C :
  nodes k s vs B → o_blocks B = Q ++ C → (∀ t th, t ∈ s_sleep s → k_threads k !! t = Some th → t_sleepaddr th ∈ C) →
  nodes k s vs (with_outer (on_blocks C B) B).
Proof.
  intros [Hr Hi Hn Hl Ha Ho Hs Ht Hout] HB Hsl. constructor; try done; simpl.
  - rewrite HB in Ho. assert (∀ b, b ∈ arr_blocks (sfs_vnodes (k_env k)) ++ nblks (k_locks k) vs ++ C →
      b ∈ arr_blocks (sfs_vnodes (k_env k)) ++ nblks (k_locks k) vs ++ Q ++ C) as Hsub by (intros b; rewrite !elem_of_app; tauto).
    destruct Ho as (Hi' & Hnd & Hl'). split_and!; [done| |intros b Hb; by apply Hl', Hsub].
    assert (sublist (arr_blocks (sfs_vnodes (k_env k)) ++ nblks (k_locks k) vs ++ C) (arr_blocks (sfs_vnodes (k_env k)) ++ nblks (k_locks k) vs ++ Q ++ C)) as Hsubl.
    { apply sublist_app; [done|]. apply sublist_app; [done|]. by apply sublist_inserts_l. }
    by eapply sublist_NoDup.
  - intros b Hb. apply Hout. rewrite HB, elem_of_app. by right.
Qed.

(** The locks of the rest change. *)
Lemma nodes_locks k s vs B L :
  nodes k s vs B → (∀ b, b ∉ o_blocks B → L !! b = k_locks k !! b) → L !! NULL = None →
  nodes (set_locks L k) s vs (with_outer (Outer B (o_threads B) L) B).
Proof.
  intros Hnd HL Hnull. pose proof Hnd as [Hr Hi Hn Hl Ha Ho Hs Ht Hout].
  assert (∀ p sv, (p, sv) ∈ vs → L !! vn_countlock (sv_v sv) = k_locks k !! vn_countlock (sv_v sv)) as Hsame.
  { intros p sv Hin. apply HL. destruct Ho as (_ & Hdup & _). apply NoDup_app in Hdup as (_ & _ & Hdup).
    apply NoDup_app in Hdup as (_ & Hd & _). apply Hd, elem_of_nblks. exists p, sv. split; [done|]. unfold node_blocks. simpl. set_solver. }
  constructor; ksimpl; try done.
  - destruct Hr. by constructor.
  - intros p sv Hin. rewrite (Hsame p sv Hin). by apply (Hl p).
  - replace (nblks L vs) with (nblks (k_locks k) vs); [done|]. symmetry. apply nblks_ext. intros p sv Hin. unfold lkname. by rewrite (Hsame p sv Hin).
Qed.

(** The current directory of the running thread changes. *)
Lemma nodes_cwd k s vs B th p :
  nodes k s vs B → k_threads k !! k_cur k = Some th →
  let k' := set_threads (<[k_cur k := th_set_cwd p th]> (k_threads k)) k in
  nodes k' s vs (with_outer (Outer B (k_threads k') (o_locks B)) B).
Proof.
  intros [Hr Hi Hn Hl Ha Ho Hs Ht Hout] Hth k'. subst k'. constructor; ksimpl; try done.
  - destruct Hr as [? ? ? ? ? ? Ht' Hm' ?]. constructor; try done; ksimpl.
    + intros t. rewrite Ht'. destruct (decide (t = k_cur k)) as [->|]; [by rewrite lookup_insert_eq, Hth|by rewrite lookup_insert_ne].
    + intros t th' Hl'. destruct (decide (t = k_cur k)) as [->|]; [|rewrite lookup_insert_ne in Hl' by done; by apply (Hm' t)].
      rewrite lookup_insert_eq in Hl'. injection Hl' as <-. exact (Hm' (k_cur k) th Hth).
  - intros t th' Hin. destruct (decide (t = k_cur k)) as [->|]; [|rewrite lookup_insert_ne by done; by apply (Hs t)].
    rewrite lookup_insert_eq. intros [= <-]. exact (Hs (k_cur k) th Hin Hth).
Qed.

(** ** The file system *)

Variable root : Z.

Lemma Fs_frame k k' s B B' V :
  Fs root k s B V → k_env k' = k_env k → (∀ vs, nodes k s vs B → nodes k' s vs B') →
  (∀ p, o_open B' p = o_open B p) → o_super B' = o_super B → Fs root k' s B' V.
Proof.
  intros (A & (vs & us & O & [[Hn Hv Hc Hz] Hr Ho Hf Hh Hm]) & Hco & HV) He Hnode Hopen Hsup. exists A. split; [|done].
  exists vs, us, O. constructor; rewrite ?He, ?Hsup; try done. constructor; rewrite ?He; try done.
  - by apply Hnode.
  - intros p sv Hin. unfold SfsNodeSpec.counted. rewrite Hopen. by apply (Hc p).
  - intros p Hp. rewrite Hopen. by apply Hz.
Qed.

(** What it says of the kernel. *)
Lemma Fs_nodes k s B V : Fs root k s B V → ∃ vs, nodes k s vs B ∧
  (∀ p ino n, v_held V !! p = Some (ino, n) ↔ ∃ sv, (p, sv) ∈ vs ∧ sv_ino sv = ino ∧ vn_refcount (sv_v sv) = n) ∧
  (∀ p sv, (p, sv) ∈ vs → SfsNodeSpec.counted B p sv).
Proof.
  intros (A & (vs & us & O & Hr) & _ & <-). exists vs. split; [apply (rp_k _ _ _ _ _ _ _ _ Hr)|].
  split; [|apply (rp_k _ _ _ _ _ _ _ _ Hr)]. intros p ino n. apply (rep_held _ _ _ _ _ _ _ _ Hr).
Qed.
End frame.

(** * Vnodes that are held: open counts, types, the root

    What the layer above asks of SFS besides the operations on files: counting how often a vnode
    is open, with the inode written back on the last close, the type of a vnode, the root directory
    of the volume and [sfs_lookparent]. *)

From S2P Require Import Prelude StateM Heap KArray KBitmap Coremap KState Thread ThreadSpec ThreadHeap Synch SynchSpec Owned.
From S2P Require Import ProcSpec Uio SfsDisk Sfs SfsBytes SfsSpec SfsIo SfsDirs SfsTrunc SfsVolume SfsTree SfsNode SfsNodeSpec.
From S2P Require Import SfsTree SfsNodeSpec SfsRep SfsLife SfsView SfsSync SfsOps.

Section held.
Context {H : Type} `{KHeapLaws H}.
Variable U : usermem.
Variable root : Z.
Implicit Types (k : kst H sfs_fs) (B : outside) (V : view).
Abbreviation Fs := (Fs root).

(** The vnode [p] is open [d] times more. *)
Definition reopened B (p d : Z) : outside := Outside B (λ q, if q =? p then o_open B q + d else o_open B q) (o_super B).

Lemma Fs_reopen k s B A vs us O p sv d :
  rep root k s B A vs us O → consistent A → (p, sv) ∈ vs → 0 ≤ o_open B p + d →
  Fs (set_env (retag p (reopen (vn_opencount (sv_v sv) + d) sv) (k_env k)) k) s (reopened B p d) (view_of A).
Proof.
  intros Hr Hc Hin Hd. destruct (fk_cnt _ _ _ _ _ _ (rp_k _ _ _ _ _ _ _ _ Hr) p sv Hin) as (H1' & H2' & H3').
  exists A. split; [|done]. assert (a_held A !! p = Some (sv_ino sv, vn_refcount (sv_v sv))) as Hh by (apply (rep_held _ _ _ _ _ _ _ _ Hr); eauto).
  replace A with (set_held (<[p := (sv_ino sv, vn_refcount (sv_v sv))]> (a_held A)) A) by (rewrite insert_id by done; by destruct A).
  apply (rep_recounts root k s B (reopened B p d) A vs us O p sv (reopen (vn_opencount (sv_v sv) + d) sv)); try done.
  - by exists (vn_refcount (sv_v sv)), (vn_opencount (sv_v sv) + d).
  - unfold counted, reopened. simpl. rewrite Z.eqb_refl. split; [done|]. split; [by rewrite H2'|lia].
  - intros q Hq. unfold reopened. simpl. by replace (q =? p) with false by lia.
Qed.

Lemma held_rep' k s B V p ino n : Fs k s B V → v_held V !! p = Some (ino, n) → ∃ A vs us O sv,
  rep root k s B A vs us O ∧ consistent A ∧ view_of A = V ∧ (p, sv) ∈ vs.
Proof.
  intros (A & (vs & us & O & Hr) & Hc & <-) (sv & Hin & _)%(rep_held _ _ _ _ _ _ _ _ Hr). by exists A, vs, us, O, sv.
Qed.

Section one.
Context (k : kst H sfs_fs) (s : sched) (B : outside) (V : view) (p ino n : Z).
Hypothesis HF : Fs k s B V.
Hypothesis Hh : v_held V !! p = Some (ino, n).

Lemma held_rep : ∃ A vs us O sv, rep root k s B A vs us O ∧ consistent A ∧ view_of A = V ∧ (p, sv) ∈ vs ∧
  sfs_mem (k_env k) !! p = Some sv ∧ sv_ino sv = ino ∧ vn_refcount (sv_v sv) = n ∧ counted B p sv ∧ vn_ops (sv_v sv) ≠ None.
Proof using HF Hh.
  destruct HF as (A & (vs & us & O & Hr) & Hc & HV). pose proof Hh as Hh'. rewrite <- HV in Hh'. apply (rep_held _ _ _ _ _ _ _ _ Hr) in Hh' as (sv & Hin & Hi & Hn).
  exists A, vs, us, O, sv. pose proof (rp_k _ _ _ _ _ _ _ _ Hr) as Hk. destruct (fsvol_mem _ _ _ _ _ _ (fk_vol _ _ _ _ _ _ Hk) Hin) as [Hm Hnode].
  split_and!; try done; [by apply (fk_cnt _ _ _ _ _ _ Hk)|]. unfold node_ok in Hnode. by destruct (vn_ops (sv_v sv)).
Qed.

Lemma held_count : 1 ≤ n ∧ 0 ≤ o_open B p ∧ p ≠ NULL.
Proof using HF Hh.
  destruct held_rep as (A & vs & us & O & sv & Hr & _ & _ & Hin & _ & _ & Hn & (Hc & _ & Ho) & _).
  destruct (nodes_ptr k s vs B p sv) as [Hp _]; [apply Hr|done|]. split; [lia|done].
Qed.

Lemma incopen_refines :
  o_open B p < 2 ^ 31 - 1 → wps (vnode_incopen p) k (λ _ k', Fs k' s (reopened B p 1) V).
Proof using HF Hh.
  intros Hlt. destruct held_rep as (A & vs & us & O & sv & Hr & Hc & <- & Hin & Hm & _ & _ & (_ & Ho & Ho') & _).
  assert (nodes k s vs B) as Hn by apply Hr. destruct (nodes_ptr _ _ _ _ _ _ Hn Hin) as (Hp0 & _). unfold vnode_incopen.
  wps_step. eapply getv_ok; [done|]. eapply (guarded k s vs B p sv Hn Hin); [|by apply (Fs_reopen _ _ _ _ _ _ _ _ _ 1 Hr Hc Hin); lia|done].
  intros L. eapply upd_vnode_ok; [done|]. rewrite s32_id by in_range. done.
Qed.

Lemma decopen_refines :
  0 < o_open B p → wps (vnode_decopen U p) k (λ _ k', Fs k' s (reopened B p (-1)) V).
Proof using HF Hh.
  intros Hgt. destruct held_rep as (A & vs & us & O & sv & Hr & Hc & HV & Hin & Hm & _ & _ & (_ & Ho & _) & _).
  assert (nodes k s vs B) as Hn by apply Hr. destruct (nodes_ptr _ _ _ _ _ _ Hn Hin) as (Hp0 & _ & Hl0).
  destruct (nd_locks _ _ _ _ Hn p sv Hin) as [m Hlk]. unfold vnode_decopen. wps_step. eapply getv_ok; [done|].
  rewrite wps_bind. eapply acquire_ok; [apply Hn|done|done|]. wps_step. eapply getv_ok; [done|].
  rewrite wps_bind, wps_asrt. split; [lia|]. rewrite wps_bind. eapply upd_vnode_ok; [done|]. rewrite wps_bind.
  eapply unlock_ok; [done|done|done|done|].
  pose proof (Fs_reopen _ _ _ _ _ _ _ _ _ (-1) Hr Hc Hin ltac:(lia)) as HF1. rewrite HV in HF1.
  change (vn_opencount (sv_v sv) + -1) with (vn_opencount (sv_v sv) - 1) in HF1.
  change (sv_set_v (v_set_opencount (vn_opencount (sv_v sv) - 1) (sv_v sv)) sv) with (reopen (vn_opencount (sv_v sv) - 1) sv).
  set (k1 := set_env _ k) in *. destruct (vn_opencount (sv_v sv) - 1 >? 0); [by wps_step|].
  clearbody k1. clear Hr Hc HV Hin Hm Ho Hn Hl0 Hlk A vs us O sv.
  destruct (held_rep' k1 s (reopened B p (-1)) V p ino n HF1 Hh) as (A & vs & us & O & sv & Hr & Hc & <- & Hin).
  destruct (list_elem_of_split _ _ Hin) as (vs1 & vs2 & ->). rewrite wps_bind.
  eapply wps_mono; [apply (sync_vop U root k1 s _ A vs1 p sv vs2 us O _ Hr); by right|]. intros e k2 Hr2. wps_step.
  exists A. split; [|done]. eexists _, _, _. exact Hr2.
Qed.

(** A call through the table. *)
Lemma held_vop {X} (m1 m2 : F X) Φ :
  (p ≠ root → wps m1 (k_env k) (λ a f, Φ a (set_env f k))) → (p = root → wps m2 (k_env k) (λ a f, Φ a (set_env f k))) →
  wps (VOP_ p (vop p m1 m2)) k Φ.
Proof using HF Hh.
  intros H1' H2'. destruct held_rep as (A & vs & us & O & sv & Hr & _ & _ & Hin & Hm & _ & _ & (Hc & Ho1 & Ho2) & Hops).
  eapply (VOP__ok k s vs B p sv); [apply Hr|done|done|done|done|lia|].
  destruct (fsvol_mem _ _ _ _ _ _ (rep_vol _ _ _ _ _ _ _ _ Hr) Hin) as [_ Hnode]. apply (vop_spec _ p sv); [done|done|..]; intros Ho.
  - apply H1'. intros ->. destruct (rp_root _ _ _ _ _ _ _ _ Hr) as (svr & Hinr & _ & Hor & _).
    rewrite (rep_key_inj _ _ _ _ _ _ _ _ Hr _ _ _ Hinr Hin) in Hor. congruence.
  - apply H2'. destruct (decide (p = root)) as [->|Hp]; [done|]. pose proof (rp_ops _ _ _ _ _ _ _ _ Hr p sv Hin Hp). congruence.
Qed.

(** The number and the type of what is held. *)
Lemma held_type : ∃ sv, sfs_mem (k_env k) !! p = Some sv ∧
  sfi_type (sv_i sv) = (if p =? root then SFS_TYPE_DIR else SFS_TYPE_FILE) ∧ (p = root ↔ ino = SFS_ROOT_LOCATION).
Proof using HF Hh.
  destruct held_rep as (A & vs & us & O & sv & Hr & _ & HV & Hin & Hm & Hi & _ & _). exists sv. split; [done|].
  destruct (decide (p = root)) as [->|Hp].
  - rewrite Z.eqb_refl. destruct (Rep_root root k s B A) as (svr & m & Hmr & _ & Ht & _); [by eexists _, _, _|].
    rewrite Hm in Hmr. injection Hmr as <-. split; [done|]. split; [|done]. intros _.
    destruct (rp_root _ _ _ _ _ _ _ _ Hr) as (svr & Hinr & Hir & _). by rewrite (rep_key_inj _ _ _ _ _ _ _ _ Hr _ _ _ Hinr Hin), Hi in Hir.
  - replace (p =? root) with false by lia. pose proof Hh as Hh'. rewrite <- HV in Hh'.
    destruct (rep_vnode _ _ _ _ _ _ _ _ Hr p ino n Hh' Hp) as (sv' & _ & Hm' & _ & _ & _ & _ & Ht & _).
    rewrite Hm in Hm'. injection Hm' as <-. split; [done|]. split; [done|]. intros Hroot.
    destruct (rep_ino _ _ _ _ _ _ _ _ Hr p sv Hin Hp). congruence.
Qed.
End one.

(** ** The volume *)

Lemma held_root k s B V : Fs k s B V → ∃ n, v_held V !! root = Some (SFS_ROOT_LOCATION, n).
Proof.
  intros (A & (vs & us & O & Hr) & _ & <-). destruct (rp_root _ _ _ _ _ _ _ _ Hr) as (sv & Hin & Hi & _).
  exists (vn_refcount (sv_v sv)). apply (rep_held _ _ _ _ _ _ _ _ Hr). by exists sv.
Qed.

(** A file has one vnode. *)
Lemma held_inj k s B V p q ino m n : Fs k s B V → v_held V !! p = Some (ino, m) → v_held V !! q = Some (ino, n) → p = q.
Proof.
  intros (A & (vs & us & O & Hr) & _ & <-) (sv & Hin & Hi & _)%(rep_held _ _ _ _ _ _ _ _ Hr) (svq & Hinq & Hiq & _)%(rep_held _ _ _ _ _ _ _ _ Hr).
  apply (rep_ino_inj _ _ _ _ _ _ _ _ Hr p sv q svq Hin Hinq). congruence.
Qed.

Lemma getroot_refines k s B V :
  Fs k s B V → (∀ p ino n, v_held V !! p = Some (ino, n) → n < 2 ^ 31 - 1) →
  wps (sfs_getroot U) k (λ p k', p = root ∧ Fs k' s B (v_hold root SFS_ROOT_LOCATION V)).
Proof.
  intros HF Hroom. destruct (held_root _ _ _ _ HF) as [n Hn].
  destruct (held_rep _ _ _ _ _ _ _ HF Hn) as (A & vs & us & O & sv & Hr & Hc & HV & Hin & Hm & Hi & Hrc & (Hc1 & _) & _).
  assert (nodes k s vs B) as Hnodes by apply Hr. unfold sfs_getroot, sfs_loadvnode. rewrite !wps_bind. apply inF_ok.
  eapply wps_mono; [apply (find_loaded_spec _ vs us O); [apply (rep_vol _ _ _ _ _ _ _ _ Hr)|apply Hnodes]|].
  intros r f [-> Hf]. replace (set_env (k_env k) k) with k by (by destruct k). destruct r as [p|].
  2: { destruct Hf. apply list_elem_of_fmap. exists (root, sv). done. }
  destruct Hf as (svp & Hp & Hpi). destruct (rep_ino_inj _ _ _ _ _ _ _ _ Hr p svp root sv Hp Hin) as [-> ->]; [congruence|].
  rewrite wps_bind, wps_asrt. split; [done|]. rewrite wps_bind.
  eapply (incref_ok k s vs B root sv); [done|done|done|specialize (Hroom _ _ _ Hn); lia|]. wps_step. cbn [negb Z.eqb]. wps_step.
  split; [done|].
  exists (a_hold root SFS_ROOT_LOCATION A).
  assert (a_held A !! root = Some (SFS_ROOT_LOCATION, n)) as Hh by (rewrite <- HV in Hn; exact Hn).
  split; [|split].
  - unfold a_hold. rewrite Hh. simpl. pose proof (rep_recount root _ _ _ _ _ _ _ _ _ (n + 1) Hr Hin ltac:(lia)) as Hr'.
    rewrite Hrc. by rewrite Hi in Hr'.
  - destruct Hc as [Hcn Hl Hk]. constructor; [done|done|]. intros j fl Hj. destruct (Hk j fl Hj) as [Hu|(q & m & Hq)]; [by left|right].
    simpl in *. rewrite Hh. simpl. destruct (decide (q = root)) as [->|].
    + exists root, (n + 1). rewrite lookup_insert_eq. rewrite Hh in Hq. by injection Hq as -> _.
    + exists q, m. by rewrite lookup_insert_ne.
  - by rewrite <- HV.
Qed.

Lemma sync_refines k s B V : Fs k s B V → wps (sfs_sync U) k (λ _ k', Fs k' s B V).
Proof.
  intros (A & (vs & us & O & Hr) & Hc & HV). eapply wps_mono; [by apply (sync_all_spec U root _ _ _ _ _ _ _ Hr)|].
  intros e k' (_ & Hr' & _). exists A. split; [|done]. by eexists _, _, _.
Qed.

(** A volume in use is not unmounted. *)
Lemma unmount_refines k s B V : Fs k s B V → wps (sfs_unmount) k (λ e k', e = EBUSY ∧ k' = k).
Proof.
  intros (A & (vs & us & O & Hr) & Hc & HV). unfold sfs_unmount. wps_step.
  destruct (rp_root _ _ _ _ _ _ _ _ Hr) as (sv & Hin & _).
  destruct (nd_arr _ _ _ _ (fk_nodes _ _ _ _ _ _ (rp_k _ _ _ _ _ _ _ _ Hr))) as [Hn _]. rewrite length_fmap in Hn.
  unfold array_getnum. rewrite Hn. destruct vs as [|x vs]; [by apply elem_of_nil in Hin|].
  replace (zlen (x :: vs) >? 0) with true by (rewrite length_cons; lia). by wps_step.
Qed.

Lemma volname_refines k s B V : Fs k s B V → sfs_super_ (k_env k) = o_super B.
Proof. intros (A & (vs & us & O & Hr) & _). apply (rp_meta _ _ _ _ _ _ _ _ Hr). Qed.
End held.
