(* ===== verification/VfsSys.v ===== *)
(** * One volume and the devices: the invariant

    [sysinv k s X R M a]: the volume of the kernel [k] holds the names and files of [a], the vnodes
    of devices are in memory with free locks, and all reference and open counts are what the list
    [R] of references says.  One more reference to the root directory is never given up: somebody
    else holds it, as the first thread of the kernel does. *)

From S2P Require Import Prelude StateM Heap KArray KBitmap Coremap KState Thread ThreadSpec ThreadHeap Synch SynchSpec Owned.
From S2P Require Import ProcSpec Uio SfsDisk Sfs SfsBytes SfsSpec SfsIo SfsDirs SfsTrunc SfsVolume SfsTree SfsNode SfsNodeSpec.
From S2P Require Import SfsTree SfsNodeSpec SfsRep SfsLife SfsView SfsSync SfsOps SfsHeld Vfs Device VfsLaws VfsSpec.

(** ** Counting references *)

Section counting.
Implicit Types (R : list vref).

Fixpoint cnt (f p : Z) R : Z :=
  match R with [] => 0 | r :: R => (if (r_fs r =? f) && (r_ptr r =? p) then 1 else 0) + cnt f p R end.
Fixpoint ocnt (f p : Z) R : Z :=
  match R with [] => 0 | r :: R => (if (r_fs r =? f) && (r_ptr r =? p) && r_open r then 1 else 0) + ocnt f p R end.

Lemma cnt_ref f p q g o b R : cnt f p (Ref q g o b :: R) = (if decide (g = f ∧ q = p) then 1 else 0) + cnt f p R.
Proof. simpl. case_decide; [by replace ((g =? f) && (q =? p)) with true by lia|by replace ((g =? f) && (q =? p)) with false by lia]. Qed.
Lemma ocnt_ref f p q g o b R : ocnt f p (Ref q g o b :: R) = (if decide (g = f ∧ q = p ∧ b = true) then 1 else 0) + ocnt f p R.
Proof.
  simpl. case_decide as E; [by replace ((g =? f) && (q =? p) && b) with true by lia|].
  destruct b; [|by rewrite andb_false_r]. by replace ((g =? f) && (q =? p) && true) with false by (destruct (g =? f) eqn:?, (q =? p) eqn:?; simpl; try done; destruct E; lia).
Qed.

Lemma cnt_perm f p R R' : R ≡ₚ R' → cnt f p R = cnt f p R'.
Proof. induction 1; simpl; lia. Qed.
Lemma ocnt_perm f p R R' : R ≡ₚ R' → ocnt f p R = ocnt f p R'.
Proof. induction 1; simpl; lia. Qed.

Lemma cnt_bound f p R : 0 ≤ ocnt f p R ≤ cnt f p R ∧ cnt f p R ≤ zlen R.
Proof.
  induction R as [|r R IH]; simpl; [lia|]. rewrite Nat2Z.inj_succ.
  destruct ((r_fs r =? f) && (r_ptr r =? p)), (r_open r); simpl; lia.
Qed.

Lemma cnt_pos f p R : 0 < cnt f p R ↔ ∃ r, r ∈ R ∧ r_fs r = f ∧ r_ptr r = p.
Proof.
  induction R as [|r R IH]; simpl.
  - split; [lia|]. by intros (r & []%elem_of_nil & _).
  - pose proof (cnt_bound f p R) as Hb. destruct ((r_fs r =? f) && (r_ptr r =? p)) eqn:E.
    + split; [|lia]. intros _. exists r. split; [by left|lia].
    + rewrite Z.add_0_l, IH. split; intros (r' & Hin & ? & ?); exists r'; (split; [|done]); [by right|].
      apply elem_of_cons in Hin as [->|?]; [lia|done].
Qed.

Lemma cnt_zero f p R : cnt f p R = 0 ↔ ∀ r, r ∈ R → r_fs r = f → r_ptr r ≠ p.
Proof.
  pose proof (cnt_bound f p R). split.
  - intros Hz r Hin Hf Hp. assert (0 < cnt f p R); [|lia]. apply cnt_pos. by exists r.
  - intros Hno. destruct (decide (0 < cnt f p R)) as [(r & Hin & Hf & Hp)%cnt_pos|]; [by destruct (Hno r Hin Hf)|lia].
Qed.
End counting.
#[global] Arguments cnt : simpl never.
#[global] Arguments ocnt : simpl never.

(** ** The vnodes of devices *)

Definition dblocks (L : gmap Z lock) (x : Z * dvnode) : list Z :=
  [x.1; dv_countlock x.2; match L !! dv_countlock x.2 with Some l => lock_name l | None => NULL end].
Definition dblks (L : gmap Z lock) (m : gmap Z dvnode) : list Z := mjoin (dblocks L <$> map_to_list m).

Lemma elem_of_dblks L m b : b ∈ dblks L m ↔ ∃ p v, m !! p = Some v ∧ b ∈ dblocks L (p, v).
Proof.
  unfold dblks. rewrite list_elem_of_join. split.
  - intros (l & Hb & ([p v] & -> & Hin)%list_elem_of_fmap). apply elem_of_map_to_list in Hin. by exists p, v.
  - intros (p & v & Hm & Hb). exists (dblocks L (p, v)). split; [done|]. apply list_elem_of_fmap. exists (p, v).
    split; [done|]. by apply elem_of_map_to_list.
Qed.

Lemma dblks_insert L m p v : m !! p = None → dblks L (<[p := v]> m) ≡ₚ dblocks L (p, v) ++ dblks L m.
Proof. intros Hm. unfold dblks. rewrite map_to_list_insert by done. done. Qed.

Lemma dblks_delete L m p v : m !! p = Some v → dblks L m ≡ₚ dblocks L (p, v) ++ dblks L (delete p m).
Proof. intros Hm. rewrite <- (insert_delete_id m p v Hm) at 1. apply dblks_insert, lookup_delete_eq. Qed.

Lemma dblks_update L m p v v' : m !! p = Some v → dv_countlock v' = dv_countlock v → dblks L (<[p := v']> m) ≡ₚ dblks L m.
Proof.
  intros Hm Hl. rewrite (dblks_delete L m p v Hm). rewrite <- insert_delete_eq, dblks_insert by apply lookup_delete_eq.
  unfold dblocks. simpl. by rewrite Hl.
Qed.

Lemma dblks_ext L L' m : (∀ p v, m !! p = Some v → L' !! dv_countlock v = L !! dv_countlock v) → dblks L' m = dblks L m.
Proof.
  intros He. unfold dblks. f_equal. apply list_fmap_ext. intros n [p v] Hn. apply list_elem_of_lookup_2, elem_of_map_to_list in Hn.
  unfold dblocks. simpl. by rewrite (He p v Hn).
Qed.

(** ** The invariant *)

(** What the file systems hold: names and files of the volume and its name, and the devices. *)
Record sysv := SysV {
  sy_names : gmap (list Z) Z;
  sy_files : gmap Z (Z * list Z);
  sy_vol : list Z;
  sy_drv : gset Z;
}.

(** The functions of a device return. *)
Record tame {D} (d : device D) : Prop := Tame {
  tm_open : ∀ x flags, wps (d_open d flags) x (λ _ _, True);
  tm_close : ∀ x, wps (d_close d) x (λ _ _, True);
}.

Lemma null_tame {D} : tame (null_dev (D := D)).
Proof. split; intros; by wps_step. Qed.

Section inv.
Context {H D : Type} `{KHeapLaws H}.
Variables (U : usermem) (fsp root : Z).
Implicit Types (k : kst H (sys D)) (R : list vref) (M : gset Z) (a : sysv) (X : outer) (V : view).

(** What the volume finds around it: the blocks of the device vnodes and the rest of the kernel. *)
Definition beside k X : outer := Outer (dblks (k_locks k) (y_vn (k_env k)) ++ o_blocks X) (o_threads X) (k_locks k).
Definition fsview (S : sfs_super) k X R : outside := Outside (beside k X) (λ p, ocnt fsp p R) S.

Record dev_ok k R (p : Z) (v : dvnode) : Prop := DevOk {
  do_lock : ∃ n, k_locks k !! dv_countlock v = Some (Lock n 1);
  do_ref : dv_refcount v = Z.max 1 (cnt NULL p R);
  do_open : dv_opencount v = ocnt NULL p R;
  do_dev : ∃ d, y_dev (k_env k) !! dv_data v = Some d ∧ tame d;
}.

Definition held_ok V R : Prop :=
  ∀ p ino n, v_held V !! p = Some (ino, n) → n = cnt fsp p R + (if p =? root then 1 else 0).
Definition ref_ok k V (r : vref) : Prop :=
  (r_fs r = NULL ∧ r_obj r = r_ptr r ∧ is_Some (y_vn (k_env k) !! r_ptr r)) ∨
  (r_fs r = fsp ∧ ∃ n, v_held V !! r_ptr r = Some (r_obj r, n)).

Record sysrep (S : sfs_super) V k s X R M a : Prop := SysRep {
  sy_fsp : M = {[fsp]} ∧ fsp ≠ NULL;
  sy_fs : Fs root (down k) s (fsview S k X R) V;
  sy_a : a = SysV (v_names V) (v_files V) (cstr (sp_volname S)) (sy_drv a);
  sy_held : held_ok V R;
  sy_refs : ∀ r, r ∈ R → ref_ok k V r;
  sy_devs : ∀ p v, y_vn (k_env k) !! p = Some v → dev_ok k R p v;
  sy_drvs : ∀ dev, dev ∈ sy_drv a → ∃ d, y_dev (k_env k) !! dev = Some d ∧ tame d;
  sy_out : ∀ b, b ∈ o_blocks X → k_locks k !! b = o_locks X !! b;
  sy_sleep : ∀ t th, t ∈ s_sleep s → k_threads k !! t = Some th → t_sleepaddr th ∈ o_blocks X;
}.
Definition sysinv k s X R M a : Prop := ∃ S V, sysrep S V k s X R M a.

Section facts.
Context (S : sfs_super) (V : view) (k : kst H (sys D)) (s : sched) (X : outer) (R : list vref) (M : gset Z) (a : sysv).
Hypothesis Hy : sysrep S V k s X R M a.

Lemma sys_nodes : ∃ vs, nodes (down k) s vs (fsview S k X R) ∧
  ∀ p ino n, v_held V !! p = Some (ino, n) → ∃ sv, (p, sv) ∈ vs.
Proof using Hy.
  destruct (Fs_nodes _ _ _ _ _ (sy_fs _ _ _ _ _ _ _ _ Hy)) as (vs & Hn & Hh & _). exists vs. split; [done|].
  intros p ino n (sv & ? & _)%Hh. by exists sv.
Qed.

Lemma sys_base : srep k s ∧ k_inint k = 0 ∧ k_locks k !! NULL = None ∧
  owned (k_heap k) (dblks (k_locks k) (y_vn (k_env k)) ++ o_blocks X) ∧ k_threads k = o_threads X.
Proof using Hy.
  destruct sys_nodes as (vs & [Hr Hi Hn _ _ Ho _ Ht _] & _). split_and!; try done; [by destruct Hr|].
  apply owned_app_r in Ho. by apply owned_app_r in Ho.
Qed.

(** The count lock of a device vnode. *)
Lemma sys_dev p v : y_vn (k_env k) !! p = Some v →
  p ≠ NULL ∧ p ≠ DEADBEEF ∧ dv_countlock v ≠ NULL ∧ ∀ t, t ∈ s_sleep s → sleeps_on k (dv_countlock v) t = false.
Proof using Hy.
  intros Hp. destruct sys_base as (_ & _ & _ & (Hi & Hnd & Hl) & _).
  assert (∀ b, b ∈ dblocks (k_locks k) (p, v) → b ∈ dblks (k_locks k) (y_vn (k_env k))) as Hb by (intros b Hb; apply elem_of_dblks; by exists p, v).
  assert (∀ b, b ∈ dblocks (k_locks k) (p, v) → b ∈ kh_live (k_heap k)) as Hlive by (intros b Hin; apply Hl, elem_of_app; left; by apply Hb).
  pose proof (kh_live_nonnull _ Hi) as Hnull. pose proof (kh_live_nodead _ Hi) as Hdead. apply NoDup_app in Hnd as (_ & Hd & _).
  split_and!.
  - intros ->. apply Hnull, Hlive. unfold dblocks. simpl. by left.
  - intros ->. apply Hdead, Hlive. unfold dblocks. simpl. by left.
  - intros E. apply Hnull. rewrite <- E. apply Hlive. unfold dblocks. simpl. right. by left.
  - intros t Ht. unfold sleeps_on. destruct (k_threads k !! t) as [th|] eqn:Eth; [|done]. apply Z.eqb_neq. intros E.
    apply (Hd (dv_countlock v)); [apply Hb; unfold dblocks; simpl; right; by left|]. rewrite <- E. by apply (sy_sleep _ _ _ _ _ _ _ _ Hy t).
Qed.

(** A vnode of the volume is not that of a device. *)
Lemma sys_sep p ino n : v_held V !! p = Some (ino, n) → y_vn (k_env k) !! p = None.
Proof using Hy.
  intros Hp. destruct sys_nodes as (vs & Hn & Hh). destruct (Hh _ _ _ Hp) as [sv Hin]. destruct (y_vn (k_env k) !! p) as [v|] eqn:E; [|done].
  destruct (nd_own _ _ _ _ Hn) as (_ & Hnd & _). apply NoDup_app in Hnd as (_ & _ & Hnd). apply NoDup_app in Hnd as (_ & Hd & _).
  destruct (Hd p).
  - apply elem_of_nblks. exists p, sv. split; [done|]. by left.
  - simpl. apply elem_of_app. left. apply elem_of_dblks. exists p, v. split; [done|]. by left.
Qed.

Lemma sys_ref r : r ∈ R → r_ptr r ≠ NULL ∧ (r_fs r = NULL ∨ r_fs r ∈ M).
Proof using Hy.
  intros Hr. destruct (sy_fsp _ _ _ _ _ _ _ _ Hy) as [HM _]. rewrite HM. destruct (sy_refs _ _ _ _ _ _ _ _ Hy r Hr) as [(Hf & _ & [v Hv])|(Hf & n & Hn)].
  - split; [by apply (sys_dev _ v)|by left].
  - split; [|right; set_solver]. by apply (held_count root (down k) s _ V _ _ _ (sy_fs _ _ _ _ _ _ _ _ Hy) Hn).
Qed.
End facts.

(** ** Changes *)

Lemma sys_perm S V k s X R R' M a : sysrep S V k s X R M a → R ≡ₚ R' → sysrep S V k s X R' M a.
Proof.
  intros [? HF ? Hh Hr Hd ? ? ?] HR. constructor; try done.
  - eapply Fs_frame; [exact HF|done|intros vs Hn; by eapply nodes_alike|intros p; symmetry; by apply ocnt_perm|done].
  - intros p ino n Hp. rewrite <- (cnt_perm fsp p R R' HR). by apply (Hh p ino).
  - intros r Hin. apply Hr. by rewrite HR.
  - intros p v Hp. destruct (Hd p v Hp). constructor; [done|by rewrite <- (cnt_perm NULL p R R' HR)|by rewrite <- (ocnt_perm NULL p R R' HR)|done].
Qed.

Lemma sys_here S V k s X R M a B :
  sysrep S V k s X R M a → o_blocks X ≡ₚ B → sysrep S V k s (here k B) R M a.
Proof.
  intros Hy HB. destruct (sys_base _ _ _ _ _ _ _ _ Hy) as (_ & _ & _ & _ & Ht). destruct Hy as [? HF ? ? ? ? ? ? Hs]. constructor; try done.
  - eapply Fs_frame; [exact HF|done|intros vs Hn; eapply nodes_alike; [exact Hn|]|done|done].
    constructor; [simpl; by rewrite HB|done|done].
  - intros t th Ht' Hth. simpl. rewrite <- HB. by apply (Hs t).
Qed.

Lemma sys_heap S V k s A A' B R M a h :
  sysrep S V k s (here k (A ++ B)) R M a → kh_inv h → NoDup A' → kh_live h = (kh_live (k_heap k) ∖ list_to_set A) ∪ list_to_set A' →
  (∀ b, b ∈ A' → b ∉ kh_live (k_heap k) ∖ list_to_set A) →
  (∀ t th, t ∈ s_sleep s → k_threads k !! t = Some th → t_sleepaddr th ∈ B) →
  sysrep S V (set_heap h k) s (here k (A' ++ B)) R M a.
Proof.
  intros [? HF ? ? ? Hd ? ? Hs] Hi Hnd Hl Hnew Hsl. constructor; try done.
  - eapply Fs_frame; [exact HF|done| |done|done]. intros vs Hn.
    exact (nodes_heap_swap (down k) s vs _ h (dblks (k_locks k) (y_vn (k_env k))) A A' B Hn eq_refl (λ _, eq_refl) Hi Hnd Hl Hnew Hsl).
  - intros p v Hp. by destruct (Hd p v Hp).
  - intros t th Ht Hth. simpl. apply elem_of_app. right. by apply (Hsl t th).
Qed.

(** The locks of the blocks [B] change. *)
Lemma sys_locks S V k s B R M a L :
  sysrep S V k s (here k B) R M a → (∀ b, b ∉ B → L !! b = k_locks k !! b) → L !! NULL = None →
  sysrep S V (set_locks L k) s (here (set_locks L k) B) R M a.
Proof.
  intros Hy HL Hnull. destruct (sys_base _ _ _ _ _ _ _ _ Hy) as (_ & _ & _ & (_ & Hnd & _) & _). apply NoDup_app in Hnd as (_ & Hdis & _).
  assert (∀ p v, y_vn (k_env k) !! p = Some v → L !! dv_countlock v = k_locks k !! dv_countlock v) as Hsame.
  { intros p v Hp. apply HL. apply Hdis, elem_of_dblks. exists p, v. split; [done|]. unfold dblocks. simpl. right. by left. }
  destruct Hy as [? HF ? ? ? Hd ? ? Hs]. constructor; try done.
  - eapply Fs_frame; [exact HF|done| |done|done]. intros vs Hn.
    pose proof (nodes_locks (down k) s vs _ L Hn) as Hn'. eapply nodes_alike; [apply Hn'; [|exact Hnull]|].
    + intros b Hb. apply HL. intros Hin. apply Hb. simpl. apply elem_of_app. by right.
    + constructor; [|done|done]. simpl. ksimpl. by rewrite (dblks_ext (k_locks k) L).
  - intros p v Hp. ksimpl. destruct (Hd p v Hp). constructor; try done. ksimpl. by rewrite (Hsame p v Hp).
Qed.

Lemma sys_cwd S V k s B R M a th p :
  sysrep S V k s (here k B) R M a → k_threads k !! k_cur k = Some th →
  let k' := set_threads (<[k_cur k := th_set_cwd p th]> (k_threads k)) k in sysrep S V k' s (here k' B) R M a.
Proof.
  intros [? HF ? ? ? Hd ? ? Hs] Hth k'. constructor; try done.
  - eapply Fs_frame; [exact HF|done| |done|done]. intros vs Hn. exact (nodes_cwd (down k) s vs _ th p Hn Hth).
  - intros q v Hq. by destruct (Hd q v Hq).
  - intros t th' Hin. unfold k'. ksimpl. destruct (decide (t = k_cur k)) as [->|]; [|rewrite lookup_insert_ne by done; by apply (Hs t)].
    rewrite lookup_insert_eq. intros [= <-]. exact (Hs (k_cur k) th Hin Hth).
Qed.

(** After an operation of the volume. *)
Lemma sys_step S V k s X R M a (k1 : kst H sfs_fs) V1 R1 oc :
  sysrep S V k s X R M a → Fs root k1 s (Outside (beside k X) oc S) V1 → (∀ p, ocnt fsp p R1 = oc p) →
  held_ok V1 R1 → (∀ r, r ∈ R1 → ref_ok k V1 r) → (∀ p, cnt NULL p R1 = cnt NULL p R ∧ ocnt NULL p R1 = ocnt NULL p R) →
  sysrep S V1 (with_env (set_yfs (k_env k1) (k_env k)) k1) s X R1 M (SysV (v_names V1) (v_files V1) (sy_vol a) (sy_drv a)).
Proof.
  intros Hy HF1 Hoc Hh1 Hr1 Hc1. destruct (Fs_nodes _ _ _ _ _ HF1) as (vs1 & Hn1 & _).
  assert (∀ b, b ∈ dblks (k_locks k) (y_vn (k_env k)) ++ o_blocks X → k_locks k1 !! b = k_locks k !! b) as Hlk by apply (nd_out _ _ _ _ Hn1).
  assert (∀ p v, y_vn (k_env k) !! p = Some v → k_locks k1 !! dv_countlock v = k_locks k !! dv_countlock v) as Hsame.
  { intros p v Hp. apply Hlk, elem_of_app. left. apply elem_of_dblks. exists p, v. split; [done|]. unfold dblocks. simpl. right. by left. }
  destruct Hy as [? HF Ha ? ? Hd ? Hout Hs]. constructor; try done.
  - eapply Fs_frame; [exact HF1|done| |done|done]. intros vs Hn.
    replace (down _) with k1 by (by destruct k1). eapply nodes_alike; [exact Hn|]. constructor; simpl; [|done|done].
    by rewrite (dblks_ext (k_locks k) (k_locks k1)).
  - simpl. rewrite Ha. done.
  - intros p v Hp. simpl in Hp. destruct (Hd p v Hp). destruct (Hc1 p) as [Hc Ho]. constructor; simpl; [by rewrite (Hsame p v Hp)|by rewrite Hc|by rewrite Ho|done].
  - intros b Hb. simpl. rewrite Hlk by (apply elem_of_app; by right). by apply Hout.
  - intros t th Ht Hth. simpl in Hth. apply (Hs t th Ht).
    destruct (Fs_nodes _ _ _ _ _ HF) as (vs & Hn & _). pose proof (nd_threads _ _ _ _ Hn) as E. pose proof (nd_threads _ _ _ _ Hn1) as E1.
    simpl in E, E1. by rewrite E, <- E1.
Qed.

(** A device vnode with other counts. *)
Lemma sys_recount S V k s X R M a p v v' R1 x :
  sysrep S V k s X R M a → y_vn (k_env k) !! p = Some v → dv_countlock v' = dv_countlock v → dv_data v' = dv_data v →
  dv_refcount v' = Z.max 1 (cnt NULL p R1) → dv_opencount v' = ocnt NULL p R1 →
  (∀ q, q ≠ p → cnt NULL q R1 = cnt NULL q R ∧ ocnt NULL q R1 = ocnt NULL q R) →
  (∀ q, cnt fsp q R1 = cnt fsp q R ∧ ocnt fsp q R1 = ocnt fsp q R) → (∀ r, r ∈ R1 → ref_ok k V r) →
  sysrep S V (set_env (set_yio x (set_yvn (<[p := v']> (y_vn (k_env k))) (k_env k))) k) s X R1 M a.
Proof.
  intros [Hf HF Ha Hh Hr Hd Hdr Hout Hs] Hp Hl Hdata Hrc Hoc Hq Hfs Hr1. constructor; try done.
  - eapply Fs_frame; [exact HF|done| |intros q; apply Hfs|done]. intros vs Hn. eapply nodes_alike; [exact Hn|].
    constructor; simpl; [|done|done]. by rewrite (dblks_update _ _ p v v').
  - intros q ino n Hn. destruct (Hfs q) as [-> _]. by apply (Hh q ino).
  - intros r Hin. destruct (Hr1 r Hin) as [(H1' & H2' & H3')|Hx]; [left|by right]. split_and!; try done. simpl.
    destruct (decide (r_ptr r = p)) as [->|]; [by rewrite lookup_insert_eq|by rewrite lookup_insert_ne].
  - intros q w Hw. simpl in Hw. destruct (decide (q = p)) as [->|Hne].
    + rewrite lookup_insert_eq in Hw. injection Hw as <-. destruct (Hd p v Hp) as [Hlk _ _ Hdv]. constructor; simpl; [by rewrite Hl|done|done|by rewrite Hdata].
    + rewrite lookup_insert_ne in Hw by done. destruct (Hd q w Hw) as [? Hc Ho ?]. destruct (Hq q Hne) as [E1 E2]. constructor; [done|by rewrite E1|by rewrite E2|done].
Qed.
End inv.

(** * Operations on the vnodes of devices

    What device.c and vnode.c do to the vnode of a device, against the invariant of VfsSys. *)

From S2P Require Import Prelude StateM Heap KArray KBitmap Coremap KState Thread ThreadSpec ThreadHeap Synch SynchSpec Owned.
From S2P Require Import ProcSpec Uio SfsDisk Sfs SfsBytes SfsSpec SfsIo SfsDirs SfsTrunc SfsVolume SfsTree SfsNode SfsNodeSpec.
From S2P Require Import SfsTree SfsNodeSpec SfsRep SfsLife SfsView SfsSync SfsOps SfsHeld Vfs Device VfsLaws VfsSpec.

Section dev.
Context {H D : Type} `{KHeapLaws H}.
Variables (U : usermem) (fsp root : Z).
Implicit Types (k : kst H (sys D)) (R : list vref) (M : gset Z) (a : sysv) (X : outer) (V : view).
Abbreviation sysrep := (sysrep fsp root).

Lemma by_ops_dev {A} k p v (dev : stm (kst H (sys D)) A) fs Φ :
  y_vn (k_env k) !! p = Some v → wps dev k Φ → wps (by_ops p dev fs) k Φ.
Proof. intros Hp Hd. unfold wps, by_ops in *. by rewrite Hp. Qed.

Lemma by_ops_fs {A} k p (dev : stm (kst H (sys D)) A) fs Φ :
  y_vn (k_env k) !! p = None → wps fs (down k) (λ x (k1 : kst H sfs_fs), Φ x (with_env (set_yfs (k_env k1) (k_env k)) k1)) → wps (by_ops p dev fs) k Φ.
Proof. intros Hp Hf. unfold wps, by_ops, fsm in *. rewrite Hp. by destruct (fs (down k)) as [[x k1]|]. Qed.

Lemma getd_ok k p v Φ : y_vn (k_env k) !! p = Some v → Φ v k → wps (getd p) k Φ.
Proof. intros Hp HΦ. unfold getd, wps. by rewrite Hp. Qed.

Lemma putd_ok k p v Φ : Φ tt (set_env (set_yvn (<[p := v]> (y_vn (k_env k))) (k_env k)) k) → wps (putd p v) k Φ.
Proof. intros HΦ. unfold putd, upd_sys. rewrite wps_zoom. unfold modify. wp_val. done. Qed.

Section one.
Context (S : sfs_super) (V : view) (k : kst H (sys D)) (s : sched) (X : outer) (R : list vref) (M : gset Z) (a : sysv) (p : Z) (v : dvnode).
Hypothesis Hy : sysrep S V k s X R M a.
Hypothesis Hp : y_vn (k_env k) !! p = Some v.

Lemma dlock_ok Φ : (∀ n, k_locks k !! dv_countlock v = Some (Lock n 1) →
    Φ tt (set_locks (<[dv_countlock v := Lock n 0]> (k_locks k)) k)) → wps (acquire (dv_countlock v)) k Φ.
Proof using Hy Hp.
  intros HΦ. destruct (do_lock _ _ _ _ (sy_devs _ _ _ _ _ _ _ _ _ _ Hy p v Hp)) as [n Hn].
  destruct (sys_dev _ _ _ _ _ _ _ _ _ _ Hy p v Hp) as (_ & _ & Hl & _). destruct (sys_base _ _ _ _ _ _ _ _ _ _ Hy) as (_ & Hi & _).
  eapply acquire_ok; [done|done|exact Hn|]. by apply HΦ.
Qed.

Lemma dunlock_ok n e Φ :
  k_locks k !! dv_countlock v = Some (Lock n 1) → Φ tt (set_env e k) →
  wps (lock_release (dv_countlock v)) (set_env e (set_locks (<[dv_countlock v := Lock n 0]> (k_locks k)) k)) Φ.
Proof using Hy Hp.
  intros Hn HΦ. destruct (sys_dev _ _ _ _ _ _ _ _ _ _ Hy p v Hp) as (_ & _ & Hl & Hq). destruct (sys_base _ _ _ _ _ _ _ _ _ _ Hy) as (Hr & _).
  eapply (release_quiet _ s); [|done|by apply lookup_insert_eq|done|].
  - destruct Hr. by constructor.
  - ksimpl. rewrite insert_insert_eq, insert_id by done. by destruct k.
Qed.

Lemma dv_check_ok reclaim Φ : Φ tt k → wps (dv_check reclaim p) k Φ.
Proof using Hy Hp.
  intros HΦ. destruct (sys_dev _ _ _ _ _ _ _ _ _ _ Hy p v Hp) as (Hp0 & Hpd & _ & _). unfold dv_check.
  replace ((p =? NULL) || (p =? DEADBEEF)) with false by lia. rewrite wps_bind. eapply getd_ok; [done|]. rewrite wps_bind.
  apply dlock_ok. intros n Hn. rewrite wps_bind. eapply getd_ok; [done|]. destruct (sy_devs _ _ _ _ _ _ _ _ _ _ Hy p v Hp) as [_ Hrc Hoc _].
  pose proof (cnt_bound NULL p R). replace (dv_refcount v <? 0) with false by lia. replace (dv_refcount v =? 0) with false by lia.
  replace (dv_opencount v <? 0) with false by lia. cbn [andb].
  set (L := <[dv_countlock v := Lock n 0]> (k_locks k)). replace (set_locks L k) with (set_env (k_env k) (set_locks L k)) by (by destruct k).
  apply dunlock_ok; [done|]. by destruct k.
Qed.

Lemma dvop_ok {A} (m : stm (kst H (sys D)) A) Φ : wps m k Φ → wps (dvop p m) k Φ.
Proof using Hy Hp. intros Hm. unfold dvop. rewrite wps_bind. by apply dv_check_ok. Qed.

Lemma data_ok Φ : (∀ d, tame d → Φ d k) → wps (data p) k Φ.
Proof using Hy Hp.
  intros HΦ. unfold data. rewrite wps_bind. eapply getd_ok; [done|].
  destruct (sy_devs _ _ _ _ _ _ _ _ _ _ Hy p v Hp) as [_ _ _ (d & Hd & Ht)]. unfold get_dev, wps. rewrite Hd. by apply HΦ.
Qed.

(** The counts change under the lock. *)
Lemma recount_ok v' n Φ :
  k_locks k !! dv_countlock v = Some (Lock n 1) →
  Φ tt (set_env (set_yvn (<[p := v']> (y_vn (k_env k))) (k_env k)) k) →
  wps (_ ← putd p v'; lock_release (dv_countlock v)) (set_locks (<[dv_countlock v := Lock n 0]> (k_locks k)) k) Φ.
Proof using Hy Hp. intros Hn HΦ. rewrite wps_bind. apply putd_ok. ksimpl. by apply dunlock_ok. Qed.
End one.

(** The hardware moves. *)
Lemma sys_io S V k s X R M a x : sysrep S V k s X R M a → sysrep S V (set_env (set_yio x (k_env k)) k) s X R M a.
Proof.
  intros [? ? ? ? Hr Hd Hdr ? ?]. constructor; try done. intros p v Hp. by destruct (Hd p v Hp).
Qed.

Lemma on_hw_ok {A} S V k s X R M a (m : stm D A) (Q : A → Prop) :
  sysrep S V k s X R M a → wps m (y_io (k_env k)) (λ r _, Q r) → wps (on_hw m) k (λ r k', Q r ∧ sysrep S V k' s X R M a).
Proof.
  intros Hy Hm. unfold on_hw. rewrite wps_zoom. eapply wp_mono; [exact Hm|]. intros [r x] HQ. split; [done|]. by apply sys_io.
Qed.

(** ** References *)

(** The references of the volume are not those of devices. *)
Lemma ref_dev S V k s X R M a r : sysrep S V k s X R M a → r ∈ R → r_fs r = NULL →
  r_obj r = r_ptr r ∧ ∃ v, y_vn (k_env k) !! r_ptr r = Some v ∧ dv_refcount v = cnt NULL (r_ptr r) R ∧ 1 ≤ cnt NULL (r_ptr r) R.
Proof.
  intros Hy Hr Hf. destruct (sy_fsp _ _ _ _ _ _ _ _ _ _ Hy) as [_ Hne]. destruct (sy_refs _ _ _ _ _ _ _ _ _ _ Hy r Hr) as [(_ & Ho & v & Hv)|[? _]]; [|congruence].
  split; [done|]. exists v. split; [done|]. assert (0 < cnt NULL (r_ptr r) R) by (apply cnt_pos; by exists r).
  destruct (sy_devs _ _ _ _ _ _ _ _ _ _ Hy _ v Hv) as [_ Hrc _ _]. split; [rewrite Hrc; lia|lia].
Qed.

(** The counts of one device follow the references. *)
Lemma sys_count S V k s X R M a p v rc oc R1 :
  sysrep S V k s X R M a → y_vn (k_env k) !! p = Some v →
  rc = Z.max 1 (cnt NULL p R1) → oc = ocnt NULL p R1 →
  (∀ q, q ≠ p → cnt NULL q R1 = cnt NULL q R ∧ ocnt NULL q R1 = ocnt NULL q R) →
  (∀ q, cnt fsp q R1 = cnt fsp q R ∧ ocnt fsp q R1 = ocnt fsp q R) → (∀ r, r ∈ R1 → r_oid r = (NULL, p) ∧ r_ptr r = p ∨ r ∈ R) →
  sysrep S V (set_env (set_yvn (<[p := DVnode rc oc (dv_countlock v) (dv_data v)]> (y_vn (k_env k))) (k_env k)) k) s X R1 M a.
Proof.
  intros Hy Hp -> -> Hq Hf Hr.
  pose proof (sys_recount fsp root S V k s X R M a p v (DVnode (Z.max 1 (cnt NULL p R1)) (ocnt NULL p R1) (dv_countlock v) (dv_data v)) R1 (y_io (k_env k)) Hy Hp) as Hs.
  apply Hs; try done. intros r [[[= H1' H2'] H3']|Hin]%Hr; [|by apply (sy_refs _ _ _ _ _ _ _ _ _ _ Hy)].
  left. rewrite H3'. split_and!; [done|congruence|by exists v].
Qed.

Lemma sys_same k p v : y_vn (k_env k) !! p = Some v →
  set_env (set_yvn (<[p := DVnode (dv_refcount v) (dv_opencount v) (dv_countlock v) (dv_data v)]> (y_vn (k_env k))) (k_env k)) k = k.
Proof. intros Hp. rewrite insert_id by (by destruct v). by destruct k as [? ? ? ? ? ? ? ? ? ? ? ? ? ? ? ? ? ? []]. Qed.

Ltac counts := intros; rewrite ?cnt_ref, ?ocnt_ref; simpl; repeat case_decide; naive_solver lia.

Lemma dev_incref S V k s X R M a r :
  sysrep S V k s X R M a → r ∈ R → r_fs r = NULL → zlen R < 2 ^ 30 →
  wps (dv_incref (r_ptr r)) k (λ _ k', sysrep S V k' s X (Ref (r_ptr r) (r_fs r) (r_obj r) false :: R) M a).
Proof.
  intros Hy Hr Hf Hlen. destruct (ref_dev _ _ _ _ _ _ _ _ _ Hy Hr Hf) as (Ho & v & Hv & Hrc & Hc).
  destruct (sys_dev _ _ _ _ _ _ _ _ _ _ Hy _ v Hv) as (Hp0 & _). destruct (sy_fsp _ _ _ _ _ _ _ _ _ _ Hy) as [_ Hne].
  destruct (sy_devs _ _ _ _ _ _ _ _ _ _ Hy _ v Hv) as [_ _ Hoc _]. pose proof (cnt_bound NULL (r_ptr r) R) as Hb.
  unfold dv_incref. wps_step. eapply getd_ok; [done|]. rewrite wps_bind. eapply dlock_ok; [done|done|]. intros n Hn.
  rewrite wps_bind. eapply getd_ok; [done|]. eapply recount_ok; [done|done|done|]. rewrite s32_id by in_range.
  rewrite Hf, Ho. apply (sys_count S V k s X R M a (r_ptr r) v _ _ _ Hy Hv); try counts.
  intros r' [->|?]%elem_of_cons; [by left|by right].
Qed.

Lemma dev_decref S V k s X R M a p :
  sysrep S V k s X (Ref p NULL p false :: R) M a → wps (dv_decref p) k (λ _ k', sysrep S V k' s X R M a).
Proof.
  intros Hy. destruct (ref_dev _ _ _ _ _ _ _ _ (Ref p NULL p false) Hy ltac:(by left) eq_refl) as (_ & v & Hv & Hrc & Hc). simpl r_ptr in *.
  destruct (sys_dev _ _ _ _ _ _ _ _ _ _ Hy _ v Hv) as (Hp0 & _). destruct (sy_fsp _ _ _ _ _ _ _ _ _ _ Hy) as [_ Hne].
  destruct (sy_devs _ _ _ _ _ _ _ _ _ _ Hy _ v Hv) as [_ _ Hoc _]. pose proof (cnt_bound NULL p R) as Hb.
  rewrite cnt_ref in Hrc, Hc. rewrite ocnt_ref in Hoc. rewrite decide_True in Hrc, Hc by done. rewrite decide_False in Hoc by naive_solver.
  unfold dv_decref. wps_step. eapply getd_ok; [done|]. rewrite wps_bind. eapply dlock_ok; [done|done|]. intros n Hn.
  rewrite wps_bind. eapply getd_ok; [done|]. rewrite wps_bind, wps_asrt. split; [lia|].
  assert (sysrep S V (set_env (set_yvn (<[p := DVnode (Z.max 1 (cnt NULL p R)) (dv_opencount v) (dv_countlock v) (dv_data v)]> (y_vn (k_env k))) (k_env k)) k) s X R M a) as Hfin.
  { apply (sys_count S V k s X _ M a p v _ _ _ Hy Hv); try counts. intros r' ?. right. by right. }
  destruct (dv_refcount v >? 1) eqn:E.
  - rewrite wps_bind. apply putd_ok. rewrite wps_bind. eapply dunlock_ok; [done|done|done|]. wps_step. ksimpl.
    replace (Z.max 1 (cnt NULL p R)) with (dv_refcount v - 1) in Hfin by lia. exact Hfin.
  - wps_step. set (L := <[dv_countlock v := Lock n 0]> (k_locks k)). replace (set_locks L k) with (set_env (k_env k) (set_locks L k)) by (by destruct k).
    eapply dunlock_ok; [done|done|done|]. replace (set_env (k_env k) k) with k by (by destruct k). rewrite wps_bind.
    eapply dv_check_ok; [done|done|]. unfold dev_reclaim. wps_step.
    replace (Z.max 1 (cnt NULL p R)) with (dv_refcount v) in Hfin by lia. by rewrite (sys_same k p v Hv) in Hfin.
Qed.

Lemma dev_incopen S V k s X R M a p :
  sysrep S V k s X (Ref p NULL p false :: R) M a → zlen R < 2 ^ 30 →
  wps (dv_incopen p) k (λ _ k', sysrep S V k' s X (Ref p NULL p true :: R) M a).
Proof.
  intros Hy Hlen. destruct (ref_dev _ _ _ _ _ _ _ _ (Ref p NULL p false) Hy ltac:(by left) eq_refl) as (_ & v & Hv & Hrc & Hc). simpl r_ptr in *.
  destruct (sys_dev _ _ _ _ _ _ _ _ _ _ Hy _ v Hv) as (Hp0 & _). destruct (sy_fsp _ _ _ _ _ _ _ _ _ _ Hy) as [_ Hne].
  destruct (sy_devs _ _ _ _ _ _ _ _ _ _ Hy _ v Hv) as [_ _ Hoc _]. pose proof (cnt_bound NULL p R) as Hb.
  rewrite cnt_ref in Hrc, Hc. rewrite ocnt_ref in Hoc. rewrite decide_True in Hrc, Hc by done. rewrite decide_False in Hoc by naive_solver.
  unfold dv_incopen. wps_step. eapply getd_ok; [done|]. rewrite wps_bind. eapply dlock_ok; [done|done|]. intros n Hn.
  rewrite wps_bind. eapply getd_ok; [done|]. eapply recount_ok; [done|done|done|]. rewrite s32_id by in_range.
  apply (sys_count S V k s X _ M a p v _ _ _ Hy Hv); try counts. intros r' [->|?]%elem_of_cons; [by left|right; by right].
Qed.

Lemma dev_decopen S V k s X R M a p :
  sysrep S V k s X (Ref p NULL p true :: R) M a → wps (dv_decopen p) k (λ _ k', sysrep S V k' s X (Ref p NULL p false :: R) M a).
Proof.
  intros Hy. destruct (ref_dev _ _ _ _ _ _ _ _ (Ref p NULL p true) Hy ltac:(by left) eq_refl) as (_ & v & Hv & Hrc & Hc). simpl r_ptr in *.
  destruct (sys_dev _ _ _ _ _ _ _ _ _ _ Hy _ v Hv) as (Hp0 & _). destruct (sy_fsp _ _ _ _ _ _ _ _ _ _ Hy) as [_ Hne].
  destruct (sy_devs _ _ _ _ _ _ _ _ _ _ Hy _ v Hv) as [_ _ Hoc _]. pose proof (cnt_bound NULL p R) as Hb.
  rewrite cnt_ref in Hrc, Hc. rewrite ocnt_ref in Hoc. rewrite decide_True in Hrc, Hc by done. rewrite decide_True in Hoc by done.
  unfold dv_decopen. wps_step. eapply getd_ok; [done|]. rewrite wps_bind. eapply dlock_ok; [done|done|]. intros n Hn.
  rewrite wps_bind. eapply getd_ok; [done|]. rewrite wps_bind, wps_asrt. split; [lia|]. rewrite wps_bind. apply putd_ok. rewrite wps_bind. ksimpl.
  eapply dunlock_ok; [done|done|done|].
  assert (sysrep S V (set_env (set_yvn (<[p := dv_set_opencount (dv_opencount v - 1) v]> (y_vn (k_env k))) (k_env k)) k) s X (Ref p NULL p false :: R) M a) as Hfin.
  { apply (sys_count S V k s X _ M a p v _ _ _ Hy Hv); try counts. intros r' [->|?]%elem_of_cons; [by left|right; by right]. }
  destruct (dv_opencount v - 1 >? 0); [by wps_step|]. rewrite wps_bind.
  eapply dvop_ok; [exact Hfin|simpl; by rewrite lookup_insert_eq|]. unfold dev_close. rewrite wps_bind.
  eapply data_ok; [exact Hfin|simpl; by rewrite lookup_insert_eq|]. intros d Hd.
  eapply wps_mono; [apply (on_hw_ok S V _ s X _ M a _ (λ _, True) Hfin), tm_close, Hd|]. intros e k' [_ Hy']. by wps_step.
Qed.

(** ** A new vnode *)

Lemma lock_create_live k len :
  kh_inv (k_heap k) → 0 ≤ len → len + 1 < kh_max → 8 < kh_max →
  wps (lock_create len) k (λ lk k', ∃ h, kh_inv h ∧ rooms 2 (k_heap k) (lk ≠ NULL) h ∧
    ((lk = NULL ∧ k' = set_heap h k ∧ kh_live h = kh_live (k_heap k)) ∨
     (lk ≠ NULL ∧ ∃ name, NoDup [lk; name] ∧ lk ∉ kh_live (k_heap k) ∧ name ∉ kh_live (k_heap k) ∧
        kh_live h = {[lk; name]} ∪ kh_live (k_heap k) ∧ k' = set_locks (<[lk := Lock name 1]> (k_locks k)) (set_heap h k)))).
Proof.
  intros Hi Hlen Hmax Hmax8. unfold lock_create. wps_step.
  wps_call wps_kalloc_full; [done|lia|]. intros e k1 (h1 & -> & Hi1 & [[-> Hl1]|(He & Hne & Hl1)] & Hr1).
  { simpl. wps_step. exists h1. split; [done|]. split; [apply (rooms_le 1); [no_room|lia]|by left]. }
  replace (e =? NULL) with false by lia. unfold kstrdup.
  wps_call wps_kalloc_full; [done|lia|]. simpl. intros name k2 (h2 & -> & Hi2 & [[-> Hl2]|(Hn & Hnn & Hl2)] & Hr2); simpl in *.
  - wps_call wps_kfree; [done|simpl; rewrite Hl2, Hl1; set_solver|].
    intros [] k3 (h3 & -> & Hi3 & Hl3). wps_step. simpl in *. exists h3. split; [done|].
    split; [eapply (rooms_bind 1 1); [done|intros _; no_room]|]. left. split_and!; [done|done|].
    rewrite Hl3, Hl2, Hl1. set_solver.
  - replace (name =? NULL) with false by lia. unfold put_lock. wps_step. exists h2. split; [done|].
    split; [eapply (rooms_bind 1 1); [done|intros _; by eapply rooms_mono]|]. right.
    split; [done|]. rewrite Hl1 in Hnn. apply not_elem_of_union in Hnn as [Hnn1 Hnn2]. apply not_elem_of_singleton in Hnn1.
    exists name. split_and!; [|done|done| |done].
    + apply NoDup_cons. split; [set_solver|apply NoDup_singleton].
    + rewrite Hl2, Hl1. set_solver.
Qed.

(** Blocks that are not allocated belong to no device. *)
Lemma sys_fresh S V k s X R M a p : sysrep S V k s X R M a → p ∉ kh_live (k_heap k) →
  y_vn (k_env k) !! p = None ∧ cnt NULL p R = 0 ∧ ocnt NULL p R = 0.
Proof.
  intros Hy Hp. destruct (sys_base _ _ _ _ _ _ _ _ _ _ Hy) as (_ & _ & _ & (_ & _ & Hl) & _). destruct (sy_fsp _ _ _ _ _ _ _ _ _ _ Hy) as [_ Hne].
  assert (y_vn (k_env k) !! p = None) as Hno.
  { destruct (y_vn (k_env k) !! p) as [v|] eqn:E; [|done]. destruct Hp. apply Hl, elem_of_app. left. apply elem_of_dblks. exists p, v. split; [done|by left]. }
  assert (cnt NULL p R = 0) as Hc.
  { apply cnt_zero. intros r Hr Hf <-. destruct (sy_refs _ _ _ _ _ _ _ _ _ _ Hy r Hr) as [(_ & _ & v & Hv)|[? _]]; congruence. }
  pose proof (cnt_bound NULL p R). split_and!; [done|done|lia].
Qed.

Lemma sys_new S V k s X R M a h p lk name dev d :
  sysrep S V k s X R M a → kh_inv h → NoDup [p; lk; name] → (∀ b, b ∈ [p; lk; name] → b ∉ kh_live (k_heap k)) → lk ≠ NULL →
  kh_live h = list_to_set [p; lk; name] ∪ kh_live (k_heap k) → y_dev (k_env k) !! dev = Some d → tame d →
  sysrep S V (set_env (set_yvn (<[p := DVnode 1 0 lk dev]> (y_vn (k_env k))) (k_env k))
    (set_locks (<[lk := Lock name 1]> (k_locks k)) (set_heap h k))) s X (Ref p NULL p false :: R) M a.
Proof.
  intros Hy Hi Hnd Hfresh Hlk Hl Hd Ht. destruct (sy_fsp _ _ _ _ _ _ _ _ _ _ Hy) as [_ Hne].
  destruct (sys_fresh _ _ _ _ _ _ _ _ p Hy ltac:(apply Hfresh; by left)) as (Hno & Hc & Ho).
  pose proof (sys_base _ _ _ _ _ _ _ _ _ _ Hy) as (_ & _ & Hnull & (_ & _ & Hlive) & _).
  assert (∀ b, b ∈ dblks (k_locks k) (y_vn (k_env k)) ++ o_blocks X → b ≠ lk) as Hold.
  { intros b Hb ->. apply (Hfresh lk); [right; by left|]. by apply Hlive. }
  assert (∀ q v, y_vn (k_env k) !! q = Some v → dv_countlock v ≠ lk) as Holdl.
  { intros q v Hq. apply Hold, elem_of_app. left. apply elem_of_dblks. exists q, v. split; [done|]. right. by left. }
  destruct Hy as [? HF Ha Hh Hr Hdv Hdr Hout Hs]. constructor; try done.
  - eapply Fs_frame; [exact HF|done| |intros q; cbn [fsview o_open]; rewrite ocnt_ref, decide_False by naive_solver; lia|done]. intros vs Hn.
    pose proof (nodes_heap_swap (down k) s vs _ h [] [] [p; lk; name] (dblks (k_locks k) (y_vn (k_env k)) ++ o_blocks X) Hn eq_refl (λ _, eq_refl) Hi Hnd) as Hn1.
    specialize (Hn1 ltac:(rewrite Hl; clear; set_solver) ltac:(intros b Hb; apply Hfresh in Hb; clear -Hb; set_solver)
      ltac:(intros t th Ht' Hth; apply elem_of_app; right; by apply (Hs t))).
    pose proof (nodes_locks _ s vs _ (<[lk := Lock name 1]> (k_locks k)) Hn1) as Hn2.
    eapply nodes_alike; [apply Hn2|].
    + intros b Hb. ksimpl. rewrite lookup_insert_ne; [done|]. intros <-. apply Hb. simpl. right. by left.
    + rewrite lookup_insert_ne by done. exact Hnull.
    + constructor; simpl; [|done|done]. ksimpl. rewrite (dblks_insert _ (y_vn (k_env k)) p _ Hno). unfold dblocks. simpl. rewrite lookup_insert_eq. simpl.
      rewrite (dblks_ext (k_locks k) (<[lk := Lock name 1]> (k_locks k))); [done|]. intros q v Hq. rewrite lookup_insert_ne; [done|]. symmetry. by apply (Holdl q v).
  - intros q ino n Hq. rewrite cnt_ref. rewrite decide_False by naive_solver. by apply (Hh q ino).
  - intros r [->|Hin]%elem_of_cons.
    + left. simpl. split_and!; [done|done|by rewrite lookup_insert_eq].
    + destruct (Hr r Hin) as [(H1' & H2' & v & Hv)|Hx]; [left|by right]. split_and!; try done. simpl.
      rewrite lookup_insert_ne; [by exists v|]. intros ->. congruence.
  - intros q v Hq. simpl in Hq. destruct (decide (q = p)) as [->|Hqp].
    + rewrite lookup_insert_eq in Hq. injection Hq as <-. constructor; simpl.
      * ksimpl. rewrite lookup_insert_eq. by exists name.
      * rewrite cnt_ref, decide_True by done. lia.
      * rewrite ocnt_ref, decide_False by naive_solver. lia.
      * by exists d.
    + rewrite lookup_insert_ne in Hq by done. destruct (Hdv q v Hq) as [Hlk' Hrc Hoc Hdd]. constructor; simpl.
      * ksimpl. rewrite lookup_insert_ne; [done|]. symmetry. by apply (Holdl q v).
      * rewrite cnt_ref, decide_False by naive_solver. lia.
      * rewrite ocnt_ref, decide_False by naive_solver. lia.
      * done.
  - intros b Hb. ksimpl. rewrite lookup_insert_ne; [by apply Hout|]. symmetry. apply Hold, elem_of_app. by right.
Qed.

Lemma sys_heap_same S V k s X R M a h :
  sysrep S V k s X R M a → kh_inv h → kh_live h = kh_live (k_heap k) → sysrep S V (set_heap h k) s X R M a.
Proof.
  intros [? HF ? ? ? Hd ? ? Hs] Hi Hl. constructor; try done; [|intros p v Hp; by destruct (Hd p v Hp)].
  eapply Fs_frame; [exact HF|done| |done|done]. intros vs Hn.
  pose proof (nodes_heap_swap (down k) s vs _ h [] [] [] (dblks (k_locks k) (y_vn (k_env k)) ++ o_blocks X) Hn eq_refl (λ _, eq_refl) Hi ltac:(constructor)) as Hn1.
  apply Hn1; [rewrite Hl; clear; set_solver|clear; set_solver|].
  intros t th Ht' Hth. apply elem_of_app. right. by apply (Hs t).
Qed.

Lemma sys_live S V k s X R M a r : sysrep S V k s X R M a → r ∈ R → r_ptr r ∈ kh_live (k_heap k).
Proof.
  intros Hy Hr. destruct (sys_nodes _ _ _ _ _ _ _ _ _ _ Hy) as (vs & Hn & Hh). destruct (nd_own _ _ _ _ Hn) as (_ & _ & Hl). apply Hl.
  destruct (sy_refs _ _ _ _ _ _ _ _ _ _ Hy r Hr) as [(_ & _ & v & Hv)|(_ & n & Hp)]; rewrite !elem_of_app; right.
  - right. simpl. apply elem_of_app. left. apply elem_of_dblks. exists (r_ptr r), v. split; [done|by left].
  - left. destruct (Hh _ _ _ Hp) as [sv Hin]. apply elem_of_nblks. exists (r_ptr r), sv. split; [done|by left].
Qed.

Lemma dev_create S V k s X R M a dev :
  sysrep S V k s X R M a → dev ∈ sy_drv a → 24 < kh_max →
  wpf (¬ kh_room 3 (k_heap k)) (dev_create_vnode_ dev) k (λ p k', ((p = NULL ∧ sysrep S V k' s X R M a) ∨
    (p ≠ NULL ∧ p ∉ r_ptr <$> R ∧ sysrep S V k' s X (Ref p NULL p false :: R) M a)) ∧
    rooms 3 (k_heap k) (p ≠ NULL) (k_heap k')).
Proof.
  intros Hy Hdev Hmax. destruct (sy_drvs _ _ _ _ _ _ _ _ _ _ Hy dev Hdev) as (d & Hd & Ht).
  pose proof (sys_base _ _ _ _ _ _ _ _ _ _ Hy) as (_ & _ & _ & (Hi & _ & Hlive) & _). unfold dev_create_vnode_.
  wpf_call (wps_kalloc_full k VNODE_SIZE Hi ltac:(unfold VNODE_SIZE; lia)). intros p k1 (h1 & -> & Hi1 & [[-> Hl1]|(Hp & Hpn & Hl1)] & Hr1).
  { simpl. wpf_step. split; [|apply (rooms_le 1); [no_room|lia]]. left. split; [done|]. by apply sys_heap_same. }
  replace (p =? NULL) with false by lia.
  wpf_call (lock_create_live (set_heap h1 k) 15 Hi1 ltac:(lia) ltac:(lia) ltac:(lia)).
  intros lk k2 (h2 & Hi2 & Hr2 & [(-> & -> & Hl2)|(Hlk & name & Hnd & Hn1 & Hn2 & Hl2 & ->)]); simpl in Hr2;
    pose proof (rooms_bind 1 2 _ _ _ _ _ Hr1 (λ _, Hr2)) as Hroom.
  { wpf_call (putd_ok _ _ _ (λ _ _, True) I). intros [] k3 _. apply wpf_panic. apply (rooms_fail _ _ _ _ Hroom). naive_solver. }
  simpl in Hn1, Hn2, Hl2. rewrite Hl1 in Hn1, Hn2, Hl2. apply not_elem_of_union in Hn1 as [Hn1 Hn1'], Hn2 as [Hn2 Hn2'].
  rewrite wpf_bind. apply wpf_of_wps, putd_ok. ksimpl. replace (lk =? NULL) with false by lia.
  wpf_step. split; [|by eapply rooms_mono]. right. split; [done|]. split; [intros (r & -> & Hr)%list_elem_of_fmap; by apply Hpn, (sys_live _ _ _ _ _ _ _ _ _ Hy)|].
  apply (sys_new S V k s X R M a h2 p lk name dev d); try done.
  - apply NoDup_cons. split; [|done]. set_solver.
  - intros b Hb. rewrite !elem_of_cons in Hb. destruct Hb as [->|[->|[->|?%elem_of_nil]]]; done.
  - rewrite Hl2. clear. set_solver.
Qed.

Lemma dev_free S V k s X R M a p :
  sysrep S V k s X (Ref p NULL p false :: R) M a → p ∉ r_ptr <$> R →
  wps (_ ← kfree_ p; upd_sys (λ e, set_yvn (delete p (y_vn e)) e)) k (λ _ k', sysrep S V k' s X R M a).
Proof.
  intros Hy Hnot. pose proof (sys_live _ _ _ _ _ _ _ _ _ Hy ltac:(by left)) as Hlive. simpl in Hlive.
  pose proof (sys_base _ _ _ _ _ _ _ _ _ _ Hy) as (_ & _ & _ & (Hi & _ & _) & _).
  wps_call (wps_kfree k p Hi Hlive). intros [] k1 (h & -> & Hi' & Hl). unfold upd_sys. rewrite wps_zoom. unfold modify. wp_val. ksimpl.
  destruct (ref_dev _ _ _ _ _ _ _ _ (Ref p NULL p false) Hy ltac:(by left) eq_refl) as (_ & v & Hv & _). simpl in Hv.
  assert (∀ f, cnt f p R = 0 ∧ ocnt f p R = 0) as Hz.
  { intros f. pose proof (cnt_bound f p R). assert (cnt f p R = 0); [|lia]. apply cnt_zero. intros r Hr _ <-. apply Hnot, list_elem_of_fmap. by exists r. }
  destruct Hy as [[HM Hne] HF Ha Hh Hr Hdv Hdr Hout Hs]. constructor; try done.
  - eapply Fs_frame; [exact HF|done| |intros q; cbn [fsview o_open]; rewrite ocnt_ref, decide_False by naive_solver; lia|done]. intros vs Hn.
    set (l := dv_countlock v). set (nm := match k_locks k !! l with Some x => lock_name x | None => NULL end).
    set (C := dblks (k_locks k) (delete p (y_vn (k_env k))) ++ o_blocks X).
    assert (nodes (down k) s vs (Outside (Outer ([p] ++ [l; nm] ++ C) (o_threads X) (k_locks k)) (λ q, ocnt fsp q (Ref p NULL p false :: R)) S)) as Hn0.
    { eapply nodes_alike; [exact Hn|]. constructor; [|done|done]. simpl. rewrite (dblks_delete _ _ p v Hv) at 1. done. }
    assert (∀ t th, t ∈ s_sleep s → k_threads k !! t = Some th → t_sleepaddr th ∈ C) as Hsl.
    { intros t th Ht Hth. apply elem_of_app. right. by apply (Hs t). }
    pose proof (nodes_heap_swap (down k) s vs _ h [] [p] [] ([l; nm] ++ C) Hn0 eq_refl (λ _, eq_refl) Hi' ltac:(constructor)) as Hn1.
    specialize (Hn1 ltac:(rewrite Hl; clear; set_solver) ltac:(clear; set_solver) ltac:(intros t th Ht Hth; right; right; by apply (Hsl t th))).
    eapply nodes_alike; [exact (nodes_less _ s vs _ [l; nm] C Hn1 eq_refl Hsl)|by constructor].
  - intros q ino n Hq. rewrite (Hh q ino n Hq), cnt_ref, decide_False by naive_solver. done.
  - intros r Hin. destruct (Hr r ltac:(by right)) as [(H1' & H2' & w & Hw)|Hx]; [left|by right]. split_and!; try done. simpl.
    rewrite lookup_delete_ne; [by exists w|]. intros ->. apply Hnot, list_elem_of_fmap. by exists r.
  - intros q w Hq. simpl in Hq. apply lookup_delete_Some in Hq as [Hqp Hq]. destruct (Hdv q w Hq) as [? Hrc Hoc ?].
    rewrite cnt_ref, decide_False in Hrc by naive_solver. rewrite ocnt_ref, decide_False in Hoc by naive_solver. by constructor.
Qed.
End dev.
