(* ===== verification/VfsSysFs.v ===== *)
(** * Operations on the vnodes of the volume

    What SFS does to names, files and references, against the invariant of VfsSys, and the
    relations on names and files that say it. *)

From S2P Require Import Prelude StateM Heap KArray KBitmap Coremap KState Thread ThreadSpec ThreadHeap Synch SynchSpec Owned.
From S2P Require Import ProcSpec Uio SfsDisk Sfs SfsBytes SfsSpec SfsIo SfsDirs SfsTrunc SfsVolume SfsTree SfsNode SfsNodeSpec.
From S2P Require Import SfsTree SfsNodeSpec SfsRep SfsLife SfsView SfsSync SfsOps SfsHeld SfsClient Vfs Device VfsLaws VfsSpec VfsSys.

(** ** Names and files *)

Definition sy_set_names m a := SysV m (sy_files a) (sy_vol a) (sy_drv a).
Definition sy_set_files m a := SysV (sy_names a) m (sy_vol a) (sy_drv a).

Section relations.
Variable fsp : Z.
Implicit Types (a : sysv) (o d : oid).

(** Devices and the root directory are never discarded. *)
Definition slasting o : Prop := o.1 = NULL ∨ o.2 = SFS_ROOT_LOCATION.

(** Looking a path up in a directory: a name; a device has only itself. *)
Inductive sfinds a o (path : list Z) : Z → Z → Prop :=
  | sf_self : o.1 = NULL → path = [] → sfinds a o path 0 o.2
  | sf_dev x : o.1 = NULL → path ≠ [] → sfinds a o path ENOENT x
  | sf_found x : o.1 ≠ NULL → sy_names a !! path = Some x → sfinds a o path 0 x
  | sf_none x : o.1 ≠ NULL → sy_names a !! path = None → sfinds a o path ENOENT x
  | sf_nomem x : o.1 ≠ NULL → sfinds a o path ENOMEM x.

(** The directory of a path is the root directory, and the path is the name. *)
Inductive sparent a o (path : list Z) (len : Z) : Z → Z → list Z → Prop :=
  | sp_dev x nm : o.1 = NULL → sparent a o path len ENOTDIR x nm
  | sp_long x nm : o.1 ≠ NULL → u32 (zlen path + 1) > len → sparent a o path len ENAMETOOLONG x nm
  | sp_name : o.1 ≠ NULL → o.2 = SFS_ROOT_LOCATION → u32 (zlen path + 1) ≤ len → sparent a o path len 0 o.2 path.

Inductive snoentry a (name : list Z) : Z → Prop :=
  | sn_exists : is_Some (sy_names a !! name) → snoentry a name EEXIST
  | sn_long : SFS_NAMELEN ≤ zlen name → sy_names a !! name = None → snoentry a name ENAMETOOLONG
  | sn_full : snoentry a name ENOSPC
  | sn_slots : snoentry a name EINVAL.

Inductive screates a (nm : list Z) (excl : bool) : Z → Z → sysv → Prop :=
  | sc_new x : sy_names a !! nm = None → zlen nm < SFS_NAMELEN → sy_files a !! x = None →
      screates a nm excl 0 x (sy_set_names (<[nm := x]> (sy_names a)) (sy_set_files (<[x := (0, no_data)]> (sy_files a)) a))
  | sc_old x : sy_names a !! nm = Some x → excl = false → screates a nm excl 0 x a
  | sc_excl x : is_Some (sy_names a !! nm) → excl = true → screates a nm excl EEXIST x a
  | sc_noentry e x : sy_names a !! nm = None → snoentry a nm e → screates a nm excl e x a
  | sc_nomem x : screates a nm excl ENOMEM x a.

(** A file lives as long as it has a name or is held. *)
Definition sused a (held : list oid) (ino : Z) : Prop := (∃ nm, sy_names a !! nm = Some ino) ∨ (fsp, ino) ∈ held.
Inductive sdrops a (held : list oid) o : sysv → Prop :=
  | sd_keeps : slasting o ∨ sused a held o.2 → sdrops a held o a
  | sd_erases : ¬ slasting o → ¬ sused a held o.2 → sdrops a held o (sy_set_files (delete o.2 (sy_files a)) a).

Inductive sdoes a : dop → Z → sysv → Prop :=
  | sx_remove d nm held ino a' : sy_names a !! nm = Some ino →
      sdrops (sy_set_names (delete nm (sy_names a)) a) held (fsp, ino) a' → sdoes a (DRemove d nm held) 0 a'
  | sx_remove_none d nm held : sy_names a !! nm = None → sdoes a (DRemove d nm held) ENOENT a
  | sx_remove_nomem d nm held : sdoes a (DRemove d nm held) ENOMEM a
  | sx_link d nm o : sy_names a !! nm = None → zlen nm < SFS_NAMELEN →
      sdoes a (DLink d nm o) 0 (sy_set_names (<[nm := o.2]> (sy_names a)) a)
  | sx_link_noentry d nm o e : snoentry a nm e → sdoes a (DLink d nm o) e a
  | sx_rename d1 n1 d2 n2 ino : sy_names a !! n1 = Some ino → sy_names a !! n2 = None → zlen n2 < SFS_NAMELEN →
      sdoes a (DRename d1 n1 d2 n2) 0 (sy_set_names (delete n1 (<[n2 := ino]> (sy_names a))) a)
  | sx_rename_none d1 n1 d2 n2 : sy_names a !! n1 = None → sdoes a (DRename d1 n1 d2 n2) ENOENT a
  | sx_rename_noentry d1 n1 d2 n2 e : is_Some (sy_names a !! n1) → snoentry a n2 e → sdoes a (DRename d1 n1 d2 n2) e a
  | sx_rename_nomem d1 n1 d2 n2 : sdoes a (DRename d1 n1 d2 n2) ENOMEM a
  | sx_mkdir d nm : sdoes a (DMkdir d nm) EUNIMP a
  | sx_rmdir d nm : sdoes a (DRmdir d nm) EUNIMP a
  | sx_symlink d nm t : sdoes a (DSymlink d nm t) EUNIMP a
  | sx_cut o len size old new : o.1 ≠ NULL → sy_files a !! o.2 = Some (size, old) →
      (∀ b, 0 ≤ b < Z.min len (512 * 143) → new !! Z.to_nat b = old !! Z.to_nat b) →
      sdoes a (DTruncate o len) 0 (sy_set_files (<[o.2 := (len, new)]> (sy_files a)) a)
  | sx_cut_dir o len : o.1 ≠ NULL → o.2 = SFS_ROOT_LOCATION → sdoes a (DTruncate o len) EISDIR a
  | sx_cut_dev o len e : o.1 = NULL → e = 0 ∨ e = EINVAL → sdoes a (DTruncate o len) e a.

Definition sopens a o (flags e : Z) : Prop :=
  if o.1 =? NULL then Z.land flags (Z.lor (Z.lor O_CREAT O_TRUNC) (Z.lor O_EXCL O_APPEND)) ≠ 0 → e = EINVAL
  else if o.2 =? SFS_ROOT_LOCATION then
    e = if negb (Z.land flags O_ACCMODE =? O_RDONLY) then EISDIR else if negb (Z.land flags O_APPEND =? 0) then EISDIR else 0
  else e = if negb (Z.land flags O_APPEND =? 0) then EUNIMP else 0.

Definition skind a o (e t : Z) : Prop :=
  e = 0 ∧ if o.1 =? NULL then t = S_IFBLK ∨ t = S_IFCHR
          else t = if o.2 =? SFS_ROOT_LOCATION then S_IFDIR else S_IFREG.
End relations.

(** ** What the operations of the volume may answer *)

Section answers.
Implicit Types (V : view).

Lemma hold_inv V p r V1 : nspec V (NHold p) r V1 → ∃ ino n, v_held V !! p = Some (ino, n) ∧ V1 = v_hold p ino V.
Proof. inversion 1; subst. eauto. Qed.

Lemma drop_inv V p r V1 : nspec V (NDrop p) r V1 → ∃ ino n, v_held V !! p = Some (ino, n) ∧
  ((1 < n ∧ V1 = View (v_names V) (v_files V) (<[p := (ino, n - 1)]> (v_held V))) ∨
   (n = 1 ∧ settle ino (View (v_names V) (v_files V) (delete p (v_held V))) V1)).
Proof. inversion 1; subst; eauto 10. Qed.

Lemma lookup_inv V path e p V1 : nspec V (NLookup path) (NRes e p []) V1 →
  (∃ ino, e = 0 ∧ v_names V !! path = Some ino ∧ v_grabs p ino V ∧ V1 = v_hold p ino V) ∨
  (e = ENOENT ∧ v_names V !! path = None ∧ V1 = V) ∨ (e = ENOMEM ∧ V1 = V).
Proof. inversion 1; subst; eauto 10. Qed.

Lemma creat_inv V nm excl e p V1 : nspec V (NCreat nm excl) (NRes e p []) V1 →
  (∃ ino, e = 0 ∧ v_names V !! nm = None ∧ zlen nm < SFS_NAMELEN ∧ v_files V !! ino = None ∧ v_held V !! p = None ∧
     V1 = View (<[nm := ino]> (v_names V)) (<[ino := (0, no_data)]> (v_files V)) (<[p := (ino, 1)]> (v_held V))) ∨
  (∃ ino, e = 0 ∧ excl = false ∧ v_names V !! nm = Some ino ∧ v_grabs p ino V ∧ V1 = v_hold p ino V) ∨
  (e ≠ 0 ∧ V1 = V ∧ ((e = EEXIST ∧ excl = true ∧ is_Some (v_names V !! nm)) ∨ (v_names V !! nm = None ∧ noentry V nm e) ∨ e = ENOMEM)).
Proof.
  inversion 1; subst; [left; eauto 10|right; left; eauto 10|..]; right; right; (split; [|split; [done|]]); eauto.
  match goal with Hn : noentry _ _ _ |- _ => by inversion Hn end.
Qed.

Lemma remove_inv V nm e V1 : nspec V (NRemove nm) (code e) V1 →
  (∃ ino, e = 0 ∧ v_names V !! nm = Some ino ∧ settle ino (with_names (delete nm (v_names V)) V) V1) ∨
  (e = ENOENT ∧ v_names V !! nm = None ∧ V1 = V) ∨ (e = ENOMEM ∧ V1 = V).
Proof. inversion 1; subst; eauto 10. Qed.

Lemma rename_inv V n1 n2 e V1 : nspec V (NRename n1 n2) (code e) V1 →
  (∃ ino, e = 0 ∧ v_names V !! n1 = Some ino ∧ v_names V !! n2 = None ∧ zlen n2 < SFS_NAMELEN ∧
     V1 = with_names (delete n1 (<[n2 := ino]> (v_names V))) V) ∨
  (V1 = V ∧ ((e = ENOENT ∧ v_names V !! n1 = None) ∨ (is_Some (v_names V !! n1) ∧ noentry V n2 e) ∨ e = ENOMEM)).
Proof. inversion 1; subst; eauto 10. Qed.

Lemma link_inv V nm p e V1 : nspec V (NLink nm p) (code e) V1 →
  (∃ ino n, e = 0 ∧ v_held V !! p = Some (ino, n) ∧ v_names V !! nm = None ∧ zlen nm < SFS_NAMELEN ∧
     V1 = with_names (<[nm := ino]> (v_names V)) V) ∨ (V1 = V ∧ noentry V nm e).
Proof. inversion 1; subst; eauto 10. Qed.

Lemma cut_inv V p len e V1 : nspec V (NTruncate p len) (code e) V1 →
  ∃ ino n size old new, e = 0 ∧ v_held V !! p = Some (ino, n) ∧ v_files V !! ino = Some (size, old) ∧
    (∀ b, 0 ≤ b < Z.min len (512 * 143) → new !! Z.to_nat b = old !! Z.to_nat b) ∧ V1 = with_file ino (len, new) V.
Proof. inversion 1; subst. eauto 10. Qed.
End answers.

(** ** The operations *)

Lemma size_set_le (l : list Z) : (size (list_to_set l : gset Z) ≤ length l)%nat.
Proof.
  induction l as [|x l IH]; simpl; [done|]. destruct (decide (x ∈ (list_to_set l : gset Z))) as [Hx|Hx].
  - replace ({[x]} ∪ list_to_set l : gset Z) with (list_to_set l : gset Z) by set_solver. lia.
  - rewrite size_union by set_solver. rewrite size_singleton. lia.
Qed.

Section fs.
Context {H D : Type} `{KHeapLaws H}.
Variables (U : usermem) (fsp root : Z).
Hypothesis Hmax : 600 < kh_max.
Implicit Types (k : kst H (sys D)) (R : list vref) (M : gset Z) (a : sysv) (X : outer) (V : view).
Abbreviation sysrep := (sysrep fsp root).

(** How many references there may be. *)
Definition smax : Z := Z.min (2 ^ 26) (kh_max (H := H) / 8 - 3).

Lemma vnode_fits : SFS_VNODE_SIZE < kh_max (H := H).
Proof using Hmax. unfold SFS_VNODE_SIZE. lia. Qed.

Definition set_view V a : sysv := SysV (v_names V) (v_files V) (sy_vol a) (sy_drv a).
Definition back k (k1 : kst H sfs_fs) : kst H (sys D) := with_env (set_yfs (k_env k1) (k_env k)) k1.

Lemma back_down k : back k (down k) = k.
Proof. by destruct k as [? ? ? ? ? ? ? ? ? ? ? ? ? ? ? ? ? ? []]. Qed.

Section one.
Context (S : sfs_super) (V : view) (k : kst H (sys D)) (s : sched) (X : outer) (R : list vref) (M : gset Z) (a : sysv).
Hypothesis Hy : sysrep S V k s X R M a.

Lemma sys_view : set_view V a = a.
Proof using Hy. pose proof (sy_a _ _ _ _ _ _ _ _ _ _ Hy) as Ha. unfold set_view. rewrite Ha. done. Qed.

(** A reference to the volume. *)
Lemma ref_fs r : r ∈ R → r_fs r ≠ NULL →
  r_fs r = fsp ∧ y_vn (k_env k) !! r_ptr r = None ∧ (∃ n, v_held V !! r_ptr r = Some (r_obj r, n)) ∧
  (r_ptr r = root ↔ r_obj r = SFS_ROOT_LOCATION).
Proof using Hy.
  intros Hr Hf. destruct (sy_refs _ _ _ _ _ _ _ _ _ _ Hy r Hr) as [[? _]|(Hfs & n & Hn)]; [done|].
  split; [done|]. split; [by eapply sys_sep|]. split; [by exists n|].
  by destruct (held_type root _ _ _ _ _ _ _ (sy_fs _ _ _ _ _ _ _ _ _ _ Hy) Hn) as (sv & _ & _ & ?).
Qed.

Lemma root_held : v_held V !! root = Some (SFS_ROOT_LOCATION, cnt fsp root R + 1).
Proof using Hy.
  destruct (held_root root _ _ _ _ (sy_fs _ _ _ _ _ _ _ _ _ _ Hy)) as [n Hn]. rewrite Hn. do 2 f_equal.
  rewrite (sy_held _ _ _ _ _ _ _ _ _ _ Hy _ _ _ Hn), Z.eqb_refl. done.
Qed.

Lemma held_refs p ino n : v_held V !! p = Some (ino, n) → p ≠ root → ∃ r, r ∈ R ∧ r_fs r = fsp ∧ r_ptr r = p ∧ r_obj r = ino.
Proof using Hy.
  intros Hn Hp. pose proof (sy_held _ _ _ _ _ _ _ _ _ _ Hy _ _ _ Hn) as Hc. replace (p =? root) with false in Hc by lia.
  destruct (held_count root _ _ _ _ _ _ _ (sy_fs _ _ _ _ _ _ _ _ _ _ Hy) Hn) as [H1' _].
  assert (0 < cnt fsp p R) as (r & Hr & Hf & Hptr)%cnt_pos by lia. exists r. split_and!; try done.
  destruct (sy_fsp _ _ _ _ _ _ _ _ _ _ Hy) as [_ Hne]. destruct (ref_fs r Hr) as (_ & _ & (m & Hm) & _); [congruence|]. rewrite Hptr, Hn in Hm. congruence.
Qed.

(** A file is held when there is a reference to it. *)
Lemma held_iff ino : ino ≠ SFS_ROOT_LOCATION → (∃ p n, v_held V !! p = Some (ino, n)) ↔ (fsp, ino) ∈ r_oid <$> R.
Proof using Hy.
  intros Hino. destruct (sy_fsp _ _ _ _ _ _ _ _ _ _ Hy) as [_ Hne]. rewrite list_elem_of_fmap. split.
  - intros (p & n & Hn). destruct (held_refs p ino n Hn) as (r & Hr & Hf & _ & Ho).
    { intros ->. rewrite root_held in Hn. congruence. }
    exists r. split; [|done]. unfold r_oid. congruence.
  - intros (r & [= Hf Ho] & Hr). destruct (ref_fs r Hr) as (_ & _ & (n & Hn) & _); [congruence|]. exists (r_ptr r), n. by rewrite Ho.
Qed.

(** There is room for one more vnode. *)
Lemma sys_room : zlen R < smax → vroom (H := H) V.
Proof using Hy.
  intros Hlen. unfold smax in Hlen. assert (Z.of_nat (size (v_held V)) ≤ zlen R + 1) as Hsize.
  { rewrite <- (size_dom (v_held V)). assert (dom (v_held V) ⊆ list_to_set (root :: (r_ptr <$> R))) as Hsub.
    { intros p ([ino n] & Hn)%elem_of_dom. rewrite elem_of_list_to_set. destruct (decide (p = root)) as [->|Hp]; [by left|].
      destruct (held_refs p ino n Hn Hp) as (r & Hr & _ & <- & _). right. apply list_elem_of_fmap. by exists r. }
    apply subseteq_size in Hsub. pose proof (size_set_le (root :: (r_ptr <$> R))) as Hle. rewrite length_cons, length_fmap in Hle. lia. }
  pose proof (Z.div_mod (kh_max (H := H)) 8 ltac:(lia)). pose proof (Z.mod_pos_bound (kh_max (H := H)) 8 ltac:(lia)).
  split_and!; [lia|lia|]. intros p ino n Hn. rewrite (sy_held _ _ _ _ _ _ _ _ _ _ Hy _ _ _ Hn). pose proof (cnt_bound fsp p R). destruct (p =? root); lia.
Qed.

End one.

(** A file that may have lost its last name or reference. *)
Lemma settle_drops S V k s X R M a a0 ino V0 :
  sysrep S V k s X R M a → settle ino V0 V → v_held V = v_held V0 → ino ≠ SFS_ROOT_LOCATION →
  sdrops fsp (set_view V0 a0) (r_oid <$> R) (fsp, ino) (set_view V a0).
Proof.
  intros Hy Hs Hh Hino. destruct (sy_fsp _ _ _ _ _ _ _ _ _ _ Hy) as [_ Hne].
  assert (in_use ino V0 ↔ sused fsp (set_view V0 a0) (r_oid <$> R) ino) as Hiff.
  { unfold in_use, sused. rewrite <- Hh. by rewrite (held_iff _ _ _ _ _ _ _ _ Hy). }
  destruct Hs as [[Hu ->]|[Hu ->]].
  - apply sd_keeps. right. by apply Hiff.
  - apply (sd_erases fsp (set_view V0 a0)); [intros [?|?]; done|]. by rewrite <- Hiff.
Qed.

Section two.
Context (S : sfs_super) (V : view) (k : kst H (sys D)) (s : sched) (X : outer) (R : list vref) (M : gset Z) (a : sysv).
Hypothesis Hy : sysrep S V k s X R M a.
Abbreviation sys_view := (sys_view S V k s X R M a Hy).
Abbreviation ref_fs := (ref_fs S V k s X R M a Hy).
Abbreviation root_held := (root_held S V k s X R M a Hy).
Abbreviation held_refs := (held_refs S V k s X R M a Hy).
Abbreviation sys_room := (sys_room S V k s X R M a Hy).

(** One more reference. *)
Lemma sys_grab (k1 : kst H sfs_fs) V1 p ino :
  Fs root k1 s (fsview fsp S k X R) V1 → v_held V1 = v_held (v_hold p ino V) →
  (∀ j n, v_held V !! p = Some (j, n) → j = ino) →
  sysrep S V1 (back k k1) s X (Ref p fsp ino false :: R) M (set_view V1 a).
Proof using Hy.
  intros HF1 Hh Hsame. destruct (sy_fsp _ _ _ _ _ _ _ _ _ _ Hy) as [_ Hne].
  assert (∀ q j n, v_held V !! q = Some (j, n) → ∃ m, v_held V1 !! q = Some (j, m)) as Hmono.
  { intros q j n Hq. rewrite Hh. simpl. destruct (decide (q = p)) as [->|]; [|rewrite lookup_insert_ne by done; eauto].
    rewrite lookup_insert_eq, (Hsame j n Hq). eauto. }
  eapply sys_step; [done|exact HF1| | | |].
  - intros q. rewrite ocnt_ref, decide_False by naive_solver. done.
  - intros q j n Hq. rewrite Hh in Hq. simpl in Hq. rewrite cnt_ref. destruct (decide (q = p)) as [->|Hqp].
    + rewrite lookup_insert_eq in Hq. injection Hq as <- <-. rewrite decide_True by done. destruct (v_held V !! p) as [[i m]|] eqn:E; simpl.
      * rewrite (sy_held _ _ _ _ _ _ _ _ _ _ Hy _ _ _ E). lia.
      * replace (p =? root) with false; [|symmetry; apply Z.eqb_neq; intros ->; by rewrite root_held in E].
        assert (cnt fsp p R = 0) as ->; [|done]. apply cnt_zero. intros r Hr Hf <-.
        destruct (ref_fs r Hr) as (_ & _ & (m & Hm) & _); congruence.
    + rewrite lookup_insert_ne in Hq by done. rewrite decide_False by naive_solver. by rewrite (sy_held _ _ _ _ _ _ _ _ _ _ Hy _ _ _ Hq).
  - intros r [->|Hr]%elem_of_cons.
    + right. split; [done|]. simpl. rewrite Hh. simpl. rewrite lookup_insert_eq. eauto.
    + destruct (sy_refs _ _ _ _ _ _ _ _ _ _ Hy r Hr) as [?|(Hf & n & Hn)]; [by left|right]. split; [done|]. by eapply Hmono.
  - intros q. rewrite cnt_ref, ocnt_ref, !decide_False by naive_solver. done.
Qed.

(** The references stay. *)
Lemma sys_stay (k1 : kst H sfs_fs) V1 :
  Fs root k1 s (fsview fsp S k X R) V1 → v_held V1 = v_held V → sysrep S V1 (back k k1) s X R M (set_view V1 a).
Proof using Hy.
  intros HF1 Hh. eapply sys_step; [done|exact HF1|done| | |done].
  - intros q j n Hq. rewrite Hh in Hq. by apply (sy_held _ _ _ _ _ _ _ _ _ _ Hy _ _ _ Hq).
  - intros r Hr. destruct (sy_refs _ _ _ _ _ _ _ _ _ _ Hy r Hr) as [?|?]; [by left|right]. by rewrite Hh.
Qed.

(** [by_ops] on a vnode of the volume. *)
Lemma fs_call {A} r (dev : stm (kst H (sys D)) A) fs Φ :
  r ∈ R → r_fs r ≠ NULL → wps fs (down k) (λ x (k1 : kst H sfs_fs), Φ x (back k k1)) → wps (by_ops (r_ptr r) dev fs) k Φ.
Proof using Hy. intros Hr Hf Hw. destruct (ref_fs r Hr Hf) as (_ & Hno & _). by apply by_ops_fs. Qed.

Lemma fs_nop op : zlen R < smax → nop_ok root (λ p, ocnt fsp p R) V op →
  wps (run_nop U root op) (down k) (λ r (k1 : kst H sfs_fs), ∃ V1, Fs root k1 s (fsview fsp S k X R) V1 ∧ nspec V op r V1).
Proof using Hy Hmax U. intros Hlen Hok. apply (nop_refines U root vnode_fits); [apply Hy|by apply sys_room|done]. Qed.

Lemma fs_incref r : r ∈ R → r_fs r ≠ NULL → zlen R < smax →
  wps (vnode_incref (r_ptr r)) (down k) (λ _ (k1 : kst H sfs_fs), sysinv fsp root (back k k1) s X (Ref (r_ptr r) (r_fs r) (r_obj r) false :: R) M a).
Proof using Hy Hmax U.
  intros Hr Hf Hlen. destruct (ref_fs r Hr Hf) as (-> & _ & (n & Hn) & _).
  pose proof (fs_nop (NHold (r_ptr r)) Hlen ltac:(by eexists)) as Hw.
  simpl in Hw. rewrite wps_bind in Hw. eapply wps_mono; [exact Hw|]. intros [] k1 HV1. rewrite wps_ret in HV1.
  destruct HV1 as (V1 & HF1 & (ino & m & Hm & ->)%hold_inv). assert (ino = r_obj r) as -> by congruence.
  exists S, (v_hold (r_ptr r) (r_obj r) V). rewrite <- sys_view. change (set_view V a) with (set_view (v_hold (r_ptr r) (r_obj r) V) a).
  apply sys_grab; [done|done|]. intros j m' Hj. congruence.
Qed.

(** The root directory. *)
Lemma fs_getroot : zlen R < smax →
  wps (sfs_getroot U) (down k) (λ p (k1 : kst H sfs_fs), sysinv fsp root (back k k1) s X (Ref p fsp SFS_ROOT_LOCATION false :: R) M a).
Proof using Hy.
  intros Hlen. destruct (sys_room Hlen) as (_ & _ & Hc). eapply wps_mono; [exact (getroot_refines U root _ _ _ V (sy_fs _ _ _ _ _ _ _ _ _ _ Hy) Hc)|].
  intros p k1 [-> HF1]. exists S, (v_hold root SFS_ROOT_LOCATION V). rewrite <- sys_view.
  change (set_view V a) with (set_view (v_hold root SFS_ROOT_LOCATION V) a). apply sys_grab; [done|done|].
  intros j m Hj. rewrite root_held in Hj. congruence.
Qed.

(** The root directory has no name. *)
Lemma sys_named nm ino : v_names V !! nm = Some ino → ino ≠ SFS_ROOT_LOCATION.
Proof using Hy.
  intros Hnm ->. destruct (sy_fs _ _ _ _ _ _ _ _ _ _ Hy) as (A & (vs & us & O & Hr) & Hc & HV). rewrite <- HV in Hnm.
  destruct (co_named _ Hc nm _ Hnm) as [fl Hfl]. by apply (rep_files _ _ _ _ _ _ _ _ Hr) in Hfl as [? _].
Qed.

Section root.
Context (r : vref).
Hypothesis Hr : r ∈ R.
Hypothesis Hf : r_fs r ≠ NULL.
Hypothesis Hl : slasting (r_oid r).
Hypothesis Hlen : zlen R < smax.

Lemma root_ref : r_ptr r = root ∧ r_fs r = fsp ∧ r_obj r = SFS_ROOT_LOCATION.
Proof using Hy Hr Hf Hl.
  destruct (ref_fs r Hr Hf) as (Hfs & _ & _ & Hroot). destruct Hl as [?|Ho]; [done|]. simpl in Ho. by rewrite Hroot.
Qed.

Lemma fs_lookup path :
  wps (VOP_LOOKUP U (r_ptr r) path) (down k) (λ '(e, q) (k1 : kst H sfs_fs), ∃ o,
    sysinv fsp root (back k k1) s X (got e q (r_fs r) o R) M a ∧ sfinds a (r_oid r) path e o).
Proof using Hy Hr Hf Hl Hlen Hmax.
  destruct root_ref as (-> & Hfs & Ho). pose proof (fs_nop (NLookup path) Hlen I) as Hw.
  simpl in Hw. rewrite wps_bind in Hw. eapply wps_mono; [exact Hw|]. intros [e q] k1 HV1. rewrite wps_ret in HV1.
  destruct HV1 as (V1 & HF1 & [(ino & -> & Hnm & Hg & ->)|[(-> & Hnm & ->)|[-> ->]]]%lookup_inv); rewrite <- sys_view; unfold got; simpl.
  - exists ino. split; [|by apply sf_found]. exists S, (v_hold q ino V). rewrite Hfs.
    change (set_view V a) with (set_view (v_hold q ino V) a). apply sys_grab; [done|done|].
    intros j m Hj. unfold v_grabs in *. by rewrite Hj in *.
  - exists 0. split; [exists S, V; by apply sys_stay|by apply sf_none].
  - exists 0. split; [exists S, V; by apply sys_stay|by apply sf_nomem].
Qed.

(** A call through the table of the root directory. *)
Lemma root_call {A} (m1 m2 : stm (kst H sfs_fs) A) Φ : wps m2 (down k) Φ → wps (__VOP false root m1 m2) (down k) Φ.
Proof using Hy. intros Hw. destruct (sy_fs _ _ _ _ _ _ _ _ _ _ Hy) as (A' & HR & _). by eapply root_dir_ok. Qed.

Lemma sys_done : sysinv fsp root (back k (down k)) s X R M a.
Proof using Hy. rewrite back_down. by exists S, V. Qed.

Lemma fs_lookparent path len :
  wps (VOP_LOOKPARENT (r_ptr r) path len) (down k) (λ '(e, q, nm) (k1 : kst H sfs_fs), ∃ o,
    sysinv fsp root (back k k1) s X (got e q (r_fs r) o R) M a ∧ sparent a (r_oid r) path len e o nm).
Proof using Hy Hr Hf Hl Hlen Hmax U.
  destruct root_ref as (Hp & Hfs & Ho). rewrite Hp. unfold VOP_LOOKPARENT. apply root_call. unfold sfs_lookparent. rewrite wps_bind.
  destruct (held_type root _ _ _ _ _ _ _ (sy_fs _ _ _ _ _ _ _ _ _ _ Hy) root_held) as (sv & Hm & Ht & _). eapply getv_ok; [done|].
  rewrite Ht, Z.eqb_refl. cbn [negb Z.eqb Pos.eqb SFS_TYPE_DIR]. destruct (u32 (zlen path + 1) >? len) eqn:El.
  - wps_step. exists 0. split; [unfold got; simpl; apply sys_done|]. apply sp_long; [done|lia].
  - rewrite wps_bind. pose proof (fs_incref r Hr Hf Hlen) as Hi. rewrite Hp in Hi. eapply wps_mono; [exact Hi|]. intros [] k1 Hy1. wps_step.
    exists (r_obj r). split; [done|]. apply (sp_name a (r_oid r)); [done|done|lia].
Qed.

Lemma fs_creat nm excl : nozero nm →
  wps (VOP_CREAT U (r_ptr r) nm excl) (down k) (λ '(e, q) (k1 : kst H sfs_fs), ∃ o a',
    sysinv fsp root (back k k1) s X (got e q (r_fs r) o R) M a' ∧ screates a nm excl e o a').
Proof using Hy Hr Hf Hl Hlen Hmax.
  intros Hnz. destruct root_ref as (-> & Hfs & Ho). pose proof (fs_nop (NCreat nm excl) Hlen Hnz) as Hw.
  simpl in Hw. rewrite wps_bind in Hw. eapply wps_mono; [exact Hw|]. intros [e q] k1 HV1. rewrite wps_ret in HV1. rewrite Hfs.
  destruct HV1 as (V1 & HF1 & [(ino & -> & Hnm & Hln & Hfi & Hq & ->)|[(ino & -> & -> & Hnm & Hg & ->)|(He & -> & Hx)]]%creat_inv); rewrite <- sys_view; unfold got.
  - exists ino. eexists. split; [|by apply (sc_new (set_view V a))]. eexists S, _.
    exact (sys_grab k1 _ q ino HF1 ltac:(simpl; by rewrite Hq) ltac:(intros j m Hj; congruence)).
  - exists ino, (set_view V a). split; [|by apply sc_old]. exists S, (v_hold q ino V). change (set_view V a) with (set_view (v_hold q ino V) a).
    apply sys_grab; [done|done|]. intros j m Hj. unfold v_grabs in *. by rewrite Hj in *.
  - exists 0, (set_view V a). replace (e =? 0) with false by lia. split; [exists S, V; by apply sys_stay|].
    destruct Hx as [(-> & -> & Hs)|[[Hs Hne]| ->]]; [by apply sc_excl| |apply sc_nomem]. apply sc_noentry; [done|]. by inversion Hne; constructor.
Qed.

Lemma fs_nodir (m1 : stm (kst H sfs_fs) Z) op : sdoes fsp a op EUNIMP a →
  wps (__VOP false (r_ptr r) m1 (mret EUNIMP)) (down k) (λ e (k1 : kst H sfs_fs), ∃ a', sysinv fsp root (back k k1) s X R M a' ∧ sdoes fsp a op e a').
Proof using Hy Hr Hf Hl.
  intros Hd. destruct root_ref as (-> & _). apply root_call. wps_step. exists a. split; [apply sys_done|done].
Qed.

Lemma fs_remove nm :
  wps (VOP_REMOVE U (r_ptr r) nm) (down k) (λ e (k1 : kst H sfs_fs), ∃ a',
    sysinv fsp root (back k k1) s X R M a' ∧ sdoes fsp a (DRemove (r_oid r) nm (r_oid <$> R)) e a').
Proof using Hy Hr Hf Hl Hlen Hmax.
  destruct root_ref as (-> & Hfs & Ho). pose proof (fs_nop (NRemove nm) Hlen I) as Hw.
  simpl in Hw. rewrite wps_bind in Hw. eapply wps_mono; [exact Hw|]. intros e k1 HV1. rewrite wps_ret in HV1.
  destruct HV1 as (V1 & HF1 & [(ino & -> & Hnm & Hs)|[(-> & Hnm & ->)|[-> ->]]]%remove_inv); rewrite <- sys_view.
  - assert (v_held V1 = v_held V) as Hh by (destruct Hs as [[_ ->]|[_ ->]]; done). pose proof (sys_stay k1 V1 HF1 Hh) as Hy1.
    exists (set_view V1 a). split; [by exists S, V1|]. eapply sx_remove; [exact Hnm|].
    exact (settle_drops _ _ _ _ _ _ _ _ a ino _ Hy1 Hs Hh (sys_named nm ino Hnm)).
  - exists (set_view V a). split; [exists S, V; by apply sys_stay|by apply sx_remove_none].
  - exists (set_view V a). split; [exists S, V; by apply sys_stay|by apply sx_remove_nomem].
Qed.

Lemma fs_rename n1 n2 : nozero n2 →
  wps (VOP_RENAME U (r_ptr r) n1 (r_ptr r) n2) (down k) (λ e (k1 : kst H sfs_fs), ∃ a',
    sysinv fsp root (back k k1) s X R M a' ∧ sdoes fsp a (DRename (r_oid r) n1 (r_oid r) n2) e a').
Proof using Hy Hr Hf Hl Hlen Hmax.
  intros Hnz. destruct root_ref as (-> & Hfs & Ho). pose proof (fs_nop (NRename n1 n2) Hlen Hnz) as Hw.
  simpl in Hw. rewrite wps_bind in Hw. eapply wps_mono; [exact Hw|]. intros e k1 HV1. rewrite wps_ret in HV1.
  destruct HV1 as (V1 & HF1 & [(ino & -> & H1' & H2' & H3' & ->)|[-> Hx]]%rename_inv); rewrite <- sys_view.
  - eexists. split; [eexists S, _; exact (sys_stay k1 _ HF1 eq_refl)|]. by apply (sx_rename fsp (set_view V a)).
  - exists (set_view V a). split; [exists S, V; by apply sys_stay|].
    destruct Hx as [[-> ?]|[[? Hne]| ->]]; [by apply sx_rename_none| |by apply sx_rename_nomem].
    apply sx_rename_noentry; [done|]. by inversion Hne; constructor.
Qed.

Lemma fs_link nm r2 : nozero nm → r2 ∈ R → r_fs r2 = r_fs r → ¬ slasting (r_oid r2) →
  wps (VOP_LINK U (r_ptr r) nm (r_ptr r2)) (down k) (λ e (k1 : kst H sfs_fs), ∃ a',
    sysinv fsp root (back k k1) s X R M a' ∧ sdoes fsp a (DLink (r_oid r) nm (r_oid r2)) e a').
Proof using Hy Hr Hf Hl Hlen Hmax.
  intros Hnz Hr2 Hf2 Hl2. destruct (ref_fs r2 Hr2 ltac:(congruence)) as (_ & _ & (n & Hn) & Hiff).
  destruct root_ref as (-> & Hfs & Ho).
  assert (r_ptr r2 ≠ root) as Hne by (intros Hp; apply Hl2; right; by apply Hiff).
  pose proof (fs_nop (NLink nm (r_ptr r2)) Hlen ltac:(split; [done|split; [done|by eexists]])) as Hw.
  simpl in Hw. rewrite wps_bind in Hw. eapply wps_mono; [exact Hw|]. intros e k1 HV1. rewrite wps_ret in HV1.
  destruct HV1 as (V1 & HF1 & [(ino & m & -> & Hm & H2' & H3' & ->)|[-> Hx]]%link_inv); rewrite <- sys_view.
  - assert (ino = r_obj r2) as -> by congruence.
    eexists. split; [eexists S, _; exact (sys_stay k1 _ HF1 eq_refl)|]. by apply (sx_link fsp (set_view V a) (r_oid r) nm (r_oid r2)).
  - exists (set_view V a). split; [exists S, V; by apply sys_stay|]. apply sx_link_noentry. by inversion Hx; constructor.
Qed.
End root.

(** ** Operations on one vnode *)

Lemma sys_quiet (k1 : kst H sfs_fs) : Fs root k1 s (fsview fsp S k X R) V → sysinv fsp root (back k k1) s X R M a.
Proof using Hy. intros HF. exists S, V. rewrite <- sys_view. by apply sys_stay. Qed.

Section vnode.
Context (r : vref).
Hypothesis Hr : r ∈ R.
Hypothesis Hf : r_fs r ≠ NULL.

(** A call that changes nothing. *)
Lemma fs_still {A} (m1 m2 : F A) (Q : A → Prop) :
  (r_obj r ≠ SFS_ROOT_LOCATION → wps m1 (k_env (down k)) (λ x f, f = k_env (down k) ∧ Q x)) →
  (r_obj r = SFS_ROOT_LOCATION → wps m2 (k_env (down k)) (λ x f, f = k_env (down k) ∧ Q x)) →
  wps (VOP_ (r_ptr r) (vop (r_ptr r) m1 m2)) (down k) (λ x (k1 : kst H sfs_fs), sysinv fsp root (back k k1) s X R M a ∧ Q x).
Proof using Hy Hr Hf.
  intros Hm1 Hm2. destruct (ref_fs r Hr Hf) as (_ & _ & (n & Hn) & Hiff).
  eapply (held_vop root _ _ _ _ _ _ _ (sy_fs _ _ _ _ _ _ _ _ _ _ Hy) Hn); intros Hp; (eapply wps_mono; [first [apply Hm1; rewrite <- Hiff; done|apply Hm2; by apply Hiff]|]);
    intros x f [-> HQ]; (split; [|done]); replace (set_env (k_env (down k)) (down k)) with (down k) by done; apply sys_done.
Qed.

Lemma fs_open flags : wps (VOP_ (r_ptr r) (VOP_OPEN (r_ptr r) flags)) (down k) (λ e (k1 : kst H sfs_fs),
  sysinv fsp root (back k k1) s X R M a ∧ sopens a (r_oid r) flags e).
Proof using Hy Hr Hf.
  unfold sopens. simpl. replace (r_fs r =? NULL) with false by lia.
  apply (fs_still _ _ (λ e, _)); intros Ho; unfold sfs_open, sfs_opendir; wps_step; (split; [done|]).
  - by replace (r_obj r =? SFS_ROOT_LOCATION) with false by lia.
  - by rewrite Ho, Z.eqb_refl.
Qed.

Lemma fs_gettype : wps (VOP_ (r_ptr r) (VOP_GETTYPE (r_ptr r))) (down k) (λ '(e, t) (k1 : kst H sfs_fs),
  sysinv fsp root (back k k1) s X R M a ∧ skind a (r_oid r) e t).
Proof using Hy Hr Hf.
  destruct (ref_fs r Hr Hf) as (_ & _ & (n & Hn) & Hiff).
  destruct (held_type root _ _ _ _ _ _ _ (sy_fs _ _ _ _ _ _ _ _ _ _ Hy) Hn) as (sv & Hm & Ht & _).
  eapply wps_mono; [apply (fs_still _ _ (λ x, skind a (r_oid r) x.1 x.2))|by intros [e t] k1 Hx];
    intros Ho; unfold sfs_gettype; rewrite wps_bind; (eapply get_vn_ok; [done|]); rewrite Ht; unfold skind; simpl; replace (r_fs r =? NULL) with false by lia.
  - replace (r_ptr r =? root) with false by (symmetry; apply Z.eqb_neq; tauto). wps_step. split; [done|]. split; [done|].
    simpl. by replace (r_obj r =? SFS_ROOT_LOCATION) with false by lia.
  - replace (r_ptr r =? root) with true by (symmetry; apply Z.eqb_eq; tauto). wps_step. split; [done|]. split; [done|].
    simpl. by rewrite Ho, Z.eqb_refl.
Qed.

Lemma fs_readlink u : wps (VOP_ (r_ptr r) (VOP_READLINK (r_ptr r) u)) (down k) (λ _ (k1 : kst H sfs_fs), sysinv fsp root (back k k1) s X R M a).
Proof using Hy Hr Hf.
  eapply wps_mono; [apply (fs_still _ _ (λ _, True))|by intros x k1 [? _]]; intros _; unfold keeps, sfs_notdir, sfs_isdir; wps_step; done.
Qed.

Lemma fs_namefile u : slasting (r_oid r) → wps (VOP_ (r_ptr r) (VOP_NAMEFILE (r_ptr r) u)) (down k) (λ '(e, u') (k1 : kst H sfs_fs),
  sysinv fsp root (back k k1) s X R M a ∧ e = 0 ∧ u' = u).
Proof using Hy Hr Hf.
  intros Hl. destruct (root_ref r Hr Hf Hl) as (Hp & _ & Ho).
  destruct (held_rep root _ _ _ _ _ _ _ (sy_fs _ _ _ _ _ _ _ _ _ _ Hy) root_held) as (A & vs & us & O & sv & _ & _ & _ & _ & Hm & Hi & _).
  eapply wps_mono; [apply (fs_still _ _ (λ x, x = (0, u)))|by intros [e u'] k1 [? [= -> ->]]]; intros Hx; [done|].
  unfold sfs_namefile. rewrite wps_bind, Hp. eapply get_vn_ok; [done|]. rewrite wps_bind, wps_asrt. split; [lia|]. by wps_step.
Qed.

Lemma fs_truncate : wps (VOP_ (r_ptr r) (VOP_TRUNCATE U (r_ptr r) 0)) (down k) (λ e (k1 : kst H sfs_fs), ∃ a',
  sysinv fsp root (back k k1) s X R M a' ∧ sdoes fsp a (DTruncate (r_oid r) 0) e a').
Proof using Hy Hr Hf.
  destruct (ref_fs r Hr Hf) as (_ & _ & (n & Hn) & Hiff). destruct (decide (r_obj r = SFS_ROOT_LOCATION)) as [Ho|Ho].
  - eapply wps_mono; [apply (fs_still _ _ (λ e, e = EISDIR)); intros Hx; [done|]; unfold sfs_isdir; by wps_step|].
    intros e k1 [Hy1 ->]. exists a. split; [done|]. by apply sx_cut_dir.
  - assert (r_ptr r ≠ root) as Hp by (rewrite Hiff; done).
    destruct (sy_fs _ _ _ _ _ _ _ _ _ _ Hy) as (A & HA & Hco & HV). pose proof Hn as HnA. rewrite <- HV in HnA.
    pose proof (truncate_refines U root _ _ _ A (r_ptr r) HA Hco ltac:(split; [done|by eexists]) 0 ltac:(lia)) as Hw.
    unfold SfsClient.does in Hw. rewrite HV in Hw. simpl in Hw. rewrite wps_bind in Hw. eapply wps_mono; [exact Hw|]. intros e k1 HV1. rewrite wps_ret in HV1.
    destruct HV1 as (V1 & HF1 & (ino & m & size & old & new & -> & Hm & Hfi & Hnew & ->)%cut_inv). assert (ino = r_obj r) as -> by congruence.
    exists (set_view (with_file (r_obj r) (0, new) V) a). split; [eexists S, _; exact (sys_stay k1 _ HF1 eq_refl)|].
    rewrite <- sys_view at 1. exact (sx_cut fsp (set_view V a) (r_oid r) 0 size old new Hf Hfi Hnew).
Qed.
End vnode.

(** ** The volume *)

Lemma fs_sync_ok : wps (sfs_sync U) (down k) (λ _ (k1 : kst H sfs_fs), sysinv fsp root (back k k1) s X R M a).
Proof using Hy.
  eapply wps_mono; [exact (sync_refines U root _ _ _ _ (sy_fs _ _ _ _ _ _ _ _ _ _ Hy))|]. intros e k1 HF1. by apply sys_quiet.
Qed.

Lemma fs_unmount_ok : wps sfs_unmount (down k) (λ e (k1 : kst H sfs_fs), e ≠ 0 ∧ sysinv fsp root (back k k1) s X R M a).
Proof using Hy.
  eapply wps_mono; [exact (unmount_refines root _ _ _ _ (sy_fs _ _ _ _ _ _ _ _ _ _ Hy))|]. intros e k1 [-> ->]. split; [done|]. apply sys_done.
Qed.

Lemma fs_volname_ok : wps (inF (v ← sfs_getvolname; mret (Some (cstr v)))) (down k) (λ v (k1 : kst H sfs_fs), v = Some (sy_vol a) ∧ back k k1 = k).
Proof using Hy.
  apply inF_ok. unfold sfs_getvolname. wps_step. rewrite (volname_refines root _ _ _ _ (sy_fs _ _ _ _ _ _ _ _ _ _ Hy)).
  split; [|exact (back_down k)]. by rewrite (sy_a _ _ _ _ _ _ _ _ _ _ Hy).
Qed.
End two.

(** ** Giving references up, opening and closing *)

Section give.
Context (S : sfs_super) (V : view) (k : kst H (sys D)) (s : sched) (X : outer) (R : list vref) (M : gset Z) (a : sysv) (p f o : Z).
Hypothesis Hf : f ≠ NULL.

Lemma fs_decref : sysrep S V k s X (Ref p f o false :: R) M a →
  wps (vnode_decref U p) (down k) (λ _ (k1 : kst H sfs_fs), ∃ a', sysinv fsp root (back k k1) s X R M a' ∧ sdrops fsp a (r_oid <$> R) (f, o) a').
Proof using Hf.
  intros Hy. destruct (ref_fs _ _ _ _ _ _ _ _ Hy (Ref p f o false) ltac:(by left) Hf) as (Hfs & _ & (n & Hn) & Hiff). simpl in Hfs, Hn, Hiff. subst f.
  pose proof (sy_held _ _ _ _ _ _ _ _ _ _ Hy _ _ _ Hn) as Hc. rewrite cnt_ref, decide_True in Hc by done. pose proof (cnt_bound fsp p R) as Hb.
  assert ((p ≠ root ∧ ocnt fsp p (Ref p fsp o false :: R) = 0) ∨ 1 < n) as Hok.
  { rewrite ocnt_ref, decide_False by naive_solver. destruct (p =? root) eqn:E; [right; lia|].
    destruct (decide (1 < n)); [by right|left]. split; lia. }
  destruct (sy_fs _ _ _ _ _ _ _ _ _ _ Hy) as (A & HA & Hco & HV). pose proof Hn as HnA. rewrite <- HV in HnA.
  eapply wps_mono; [exact (drop_refines U root _ _ _ A p o n HA Hco HnA Hok)|]. rewrite HV. intros [] k1 (V1 & HF1 & (ino & m & Hm & Hd)%drop_inv). assert (ino = o ∧ m = n) as [-> ->] by (split; congruence).
  assert (sysrep S V1 (back k k1) s X R M (set_view V1 a)) as Hy1.
  { assert (∀ q, q ≠ p → v_held V1 !! q = v_held V !! q) as Hother.
    { intros q Hq. destruct Hd as [[_ ->]|[_ [[_ ->]|[_ ->]]]]; simpl; [by rewrite lookup_insert_ne|by rewrite lookup_delete_ne..]. }
    assert ((1 < n ∧ v_held V1 !! p = Some (o, n - 1)) ∨ (n = 1 ∧ v_held V1 !! p = None)) as Hp.
    { destruct Hd as [[Hlt ->]|[-> [[_ ->]|[_ ->]]]]; simpl; [left; by rewrite lookup_insert_eq|right; by rewrite lookup_delete_eq..]. }
    eapply sys_step; [exact Hy|exact HF1| | | |].
    - intros q. cbn [fsview o_open]. rewrite ocnt_ref, decide_False by naive_solver. done.
    - intros q j m Hq. destruct (decide (q = p)) as [->|Hqp].
      + destruct Hp as [[_ Hp]|[_ Hp]]; rewrite Hp in Hq; [|done]. injection Hq as <- <-. lia.
      + rewrite Hother in Hq by done. rewrite (sy_held _ _ _ _ _ _ _ _ _ _ Hy _ _ _ Hq), cnt_ref, decide_False by naive_solver. done.
    - intros r Hr. destruct (sy_refs _ _ _ _ _ _ _ _ _ _ Hy r ltac:(by right)) as [?|(Hfr & m & Hm')]; [by left|right]. split; [done|].
      destruct (decide (r_ptr r = p)) as [Heq|Hne]; [|rewrite Hother by done; by exists m]. rewrite Heq in *.
      assert (r_obj r = o) as -> by congruence. destruct Hp as [[_ ->]|[-> _]]; [eauto|]. exfalso.
      assert (0 < cnt fsp p R) by (apply cnt_pos; by exists r). destruct (p =? root); lia.
    - intros q. rewrite cnt_ref, ocnt_ref, !decide_False by naive_solver. done. }
  exists (set_view V1 a). split; [by exists S, V1|]. rewrite <- (sys_view _ _ _ _ _ _ _ _ Hy) at 1.
  destruct (decide (o = SFS_ROOT_LOCATION)) as [Ho|Ho].
  - destruct Hd as [[_ ->]|[-> _]]; [apply (sd_keeps fsp (set_view V a)); left; by right|]. exfalso.
    rewrite (proj2 Hiff Ho), Z.eqb_refl in Hc. rewrite (proj2 Hiff Ho) in Hb. lia.
  - destruct Hd as [[Hlt ->]|[-> Hs]].
    + apply (sd_keeps fsp (set_view V a)). right. right. assert (p ≠ root) as Hp by tauto. replace (p =? root) with false in Hc by lia.
      assert (0 < cnt fsp p R) as (r & Hr & Hfr & Hpr)%cnt_pos by lia. apply list_elem_of_fmap. exists r. split; [|done].
      destruct (sy_refs _ _ _ _ _ _ _ _ _ _ Hy r ltac:(by right)) as [[? _]|(_ & m & Hm')]; [congruence|]. rewrite Hpr, Hn in Hm'. unfold r_oid. simpl. congruence.
    + eapply (settle_drops _ _ _ _ _ _ _ _ a o _ Hy1 Hs); [|done]. destruct Hs as [[_ ->]|[_ ->]]; done.
Qed.

(** The open counts follow the references. *)
Lemma sys_opened b (k1 : kst H sfs_fs) oc :
  sysrep S V k s X (Ref p f o b :: R) M a → Fs root k1 s (Outside (beside k X) oc S) V →
  (∀ q, oc q = ocnt fsp q (Ref p f o (negb b) :: R)) → sysinv fsp root (back k k1) s X (Ref p f o (negb b) :: R) M a.
Proof using Hf.
  intros Hy HF1 Hoc. exists S, V. rewrite <- (sys_view _ _ _ _ _ _ _ _ Hy). eapply sys_step; [exact Hy|exact HF1|done| | |].
  - intros q j n Hq. rewrite cnt_ref. pose proof (sy_held _ _ _ _ _ _ _ _ _ _ Hy _ _ _ Hq) as Hc. by rewrite cnt_ref in Hc.
  - intros r [->|Hr]%elem_of_cons; [apply (sy_refs _ _ _ _ _ _ _ _ _ _ Hy (Ref p f o b)); by left|apply (sy_refs _ _ _ _ _ _ _ _ _ _ Hy); by right].
  - intros q. by rewrite !cnt_ref, !ocnt_ref, !decide_False by naive_solver.
Qed.

Lemma fs_incopen : sysrep S V k s X (Ref p f o false :: R) M a → zlen R < smax →
  wps (vnode_incopen p) (down k) (λ _ (k1 : kst H sfs_fs), sysinv fsp root (back k k1) s X (Ref p f o true :: R) M a).
Proof using Hf.
  intros Hy Hlen. destruct (ref_fs _ _ _ _ _ _ _ _ Hy (Ref p f o false) ltac:(by left) Hf) as (Hfs & _ & (n & Hn) & _). simpl in Hfs, Hn.
  eapply wps_mono; [apply (incopen_refines root _ _ _ _ _ _ _ (sy_fs _ _ _ _ _ _ _ _ _ _ Hy) Hn)|].
  - cbn [fsview o_open]. rewrite ocnt_ref, decide_False by naive_solver. pose proof (cnt_bound fsp p R). unfold smax in Hlen. lia.
  - intros [] k1 HF1. eapply (sys_opened false k1 _ Hy HF1). intros q. cbn [fsview o_open]. rewrite !ocnt_ref. simpl.
    destruct (q =? p) eqn:E; repeat case_decide; naive_solver lia.
Qed.

Lemma fs_decopen : sysrep S V k s X (Ref p f o true :: R) M a →
  wps (vnode_decopen U p) (down k) (λ _ (k1 : kst H sfs_fs), sysinv fsp root (back k k1) s X (Ref p f o false :: R) M a).
Proof using Hf.
  intros Hy. destruct (ref_fs _ _ _ _ _ _ _ _ Hy (Ref p f o true) ltac:(by left) Hf) as (Hfs & _ & (n & Hn) & _). simpl in Hfs, Hn.
  eapply wps_mono; [apply (decopen_refines U root _ _ _ _ _ _ _ (sy_fs _ _ _ _ _ _ _ _ _ _ Hy) Hn)|].
  - cbn [fsview o_open]. rewrite ocnt_ref, decide_True by naive_solver. pose proof (cnt_bound fsp p R). lia.
  - intros [] k1 HF1. eapply (sys_opened true k1 _ Hy HF1). intros q. cbn [fsview o_open]. rewrite !ocnt_ref. simpl.
    destruct (q =? p) eqn:E; repeat case_decide; naive_solver lia.
Qed.
End give.
End fs.
