(* ===== verification/VfsThm.v ===== *)
(** * Clients of the virtual file system layer, on SFS and the devices

    A client is any program that calls the operations on path names and decides by their answers
    what to call next.  Its run on the code is a run on path names alone: file systems, the current
    directory, the boot file system and the files the client has open. *)

From S2P Require Import Prelude StateM Heap KArray Coremap KState Thread ThreadSpec ThreadHeap Owned Synch SynchSpec.
From S2P Require Import ProcSpec Uio SfsDisk Sfs SfsVolume Vfs VfsLaws VfsSpec VfsOps VfsDevs.

Inductive vcmd :=
  | VOpen (path : list Z) (flags : Z)
  | VClose (p : Z)
  | VRemove (path : list Z)
  | VMkdir (path : list Z)
  | VRmdir (path : list Z)
  | VSymlink (contents path : list Z)
  | VRename (path1 path2 : list Z)
  | VLink (path1 path2 : list Z)
  | VReadlink (path : list Z) (u : uio)
  | VChdir (path : list Z)
  | VClearcurdir
  | VGetcwd (u : uio)
  | VSetbootfs (name : list Z)
  | VClearbootfs
  | VSync
  | VUnmount (name : list Z)
  | VUnmountall.

(** The code, the vnode of an opened file and the transfer. *)
Inductive vans := VAns (e p : Z) (u : option uio).
Abbreviation vcode e := (VAns e NULL None).

Section client.
Context {H E : Type} `{VnodesLaws H E}.
Variable U : usermem.
Implicit Types (c : vcfg) (R : list vref) (M : gset Z) (a : fsys).

Definition run_vcmd (x : vcmd) : stm (kst H (vfs E)) vans :=
  match x with
  | VOpen path flags => '(e, p) ← vfs_open path flags; mret (VAns e p None)
  | VClose p => _ ← vfs_close p; mret (vcode 0)
  | VRemove path => e ← vfs_remove path; mret (vcode e)
  | VMkdir path => e ← vfs_mkdir path; mret (vcode e)
  | VRmdir path => e ← vfs_rmdir path; mret (vcode e)
  | VSymlink t path => e ← vfs_symlink t path; mret (vcode e)
  | VRename p1 p2 => e ← vfs_rename p1 p2; mret (vcode e)
  | VLink p1 p2 => e ← vfs_link p1 p2; mret (vcode e)
  | VReadlink path u => '(e, u') ← vfs_readlink path u; mret (VAns e NULL (Some u'))
  | VChdir path => e ← vfs_chdir path; mret (vcode e)
  | VClearcurdir => e ← vfs_clearcurdir; mret (vcode e)
  | VGetcwd u => '(e, u') ← vfs_getcwd U u; mret (VAns e NULL (Some u'))
  | VSetbootfs nm => e ← vfs_setbootfs nm; mret (vcode e)
  | VClearbootfs => _ ← vfs_clearbootfs; mret (vcode 0)
  | VSync => e ← vfs_sync; mret (vcode e)
  | VUnmount nm => e ← vfs_unmount nm; mret (vcode e)
  | VUnmountall => e ← vfs_unmountall; mret (vcode e)
  end.

(** The state that a client sees. *)
Record vstate := VState { vs_cfg : vcfg; vs_refs : list vref; vs_fs : fsys }.

Inductive vspec : vstate → vcmd → vans → vstate → Prop :=
  | vs_open c R a path flags e p o a' : opened c R a path flags e o a' →
      vspec (VState c R a) (VOpen path flags) (VAns e p None) (VState c (opened_refs e p o R) a')
  | vs_close c R a p f o R' a' : R ≡ₚ Ref p f o true :: R' → drops a (r_oid <$> own c ++ R') (f, o) a' →
      vspec (VState c R a) (VClose p) (vcode 0) (VState c R' a')
  | vs_remove c R a path e a' : at_dir c R a path (λ held d nm, DRemove d nm held) e a' → vspec (VState c R a) (VRemove path) (vcode e) (VState c R a')
  | vs_mkdir c R a path e a' : at_dir c R a path (λ _, DMkdir) e a' → vspec (VState c R a) (VMkdir path) (vcode e) (VState c R a')
  | vs_rmdir c R a path e a' : at_dir c R a path (λ _, DRmdir) e a' → vspec (VState c R a) (VRmdir path) (vcode e) (VState c R a')
  | vs_symlink c R a t path e a' : at_dir c R a path (λ _ d nm, DSymlink d nm t) e a' →
      vspec (VState c R a) (VSymlink t path) (vcode e) (VState c R a')
  | vs_rename c R a p1 p2 e a' : renames c a p1 p2 e a' → vspec (VState c R a) (VRename p1 p2) (vcode e) (VState c R a')
  | vs_link c R a p1 p2 e a' : links c R a p1 p2 e a' → vspec (VState c R a) (VLink p1 p2) (vcode e) (VState c R a')
  | vs_readlink c R a path u e u' a' : reads_link c R a path e a' →
      vspec (VState c R a) (VReadlink path u) (VAns e NULL (Some u')) (VState c R a')
  | vs_chdir c R a path e c' a' : changes_dir c R a path e c' a' → vspec (VState c R a) (VChdir path) (vcode e) (VState c' R a')
  | vs_clearcurdir c R a : vspec (VState c R a) VClearcurdir (vcode 0) (VState (set_cwd None c) R a)
  | vs_getcwd c R a u e u' : tells_cwd c a u e u' →
      vspec (VState c R a) (VGetcwd u) (VAns e NULL (Some u')) (VState c R a)
  | vs_setbootfs c R a nm e c' a' : sets_boot c R a nm e c' a' → vspec (VState c R a) (VSetbootfs nm) (vcode e) (VState c' R a')
  | vs_clearbootfs c R a : vspec (VState c R a) VClearbootfs (vcode 0) (VState (set_boot None c) R a)
  | vs_sync c R a : vspec (VState c R a) VSync (vcode 0) (VState c R a)
  | vs_unmount c R a nm e c' a' : unmounts c R a nm e c' a' → vspec (VState c R a) (VUnmount nm) (vcode e) (VState c' R a')
  | vs_unmountall c R a c' a' : unmounts_all c a c' a' → vspec (VState c R a) VUnmountall (vcode 0) (VState c' R a').

(** What a client may ask for: paths are strings, a file that is closed is open, no second name for
    a directory, and the buffer of the current directory has room for the name of its volume. *)
Definition vcmd_ok (S : vstate) (x : vcmd) : Prop :=
  match x with
  | VOpen path _ | VRemove path | VMkdir path | VRmdir path | VSymlink _ path | VReadlink path _ | VChdir path => nozero path
  | VSetbootfs nm => nozero nm
  | VClose p => ∃ f o, Ref p f o true ∈ vs_refs S
  | VRename p1 p2 => nozero p1 ∧ nozero p2
  | VLink p1 p2 => nozero p1 ∧ nozero p2 ∧ ∀ o, looks_up (vs_cfg S) (vs_fs S) p1 0 o → ¬ lasting o
  | VGetcwd u => uio_ok U u ∧ uio_rw u = UIO_READ ∧
      ∀ r, c_cwd (vs_cfg S) = Some r → ∃ name, fs_text (vs_cfg S) (vs_fs S) (r_fs r) = Some name ∧ zlen name + 1 ≤ uio_resid u
  | VClearcurdir | VClearbootfs | VSync | VUnmount _ | VUnmountall => True
  end.
Definition vfs_room (S : vstate) : Prop := zlen (own (vs_cfg S) ++ vs_refs S) + 3 ≤ vmax.

(** The kernel in a state that the client sees. *)
Definition in_state F (k : kst H (vfs E)) s B (S : vstate) : Prop :=
  ∃ M, vst F k s B (vs_cfg S) 1 1 (vs_refs S) M (vs_fs S).

Lemma vcmd_refines F k s B S x :
  in_state F k s B S → vfs_room S → vcmd_ok S x →
  wps (run_vcmd x) k (λ r k', ∃ S', vspec S x r S' ∧ in_state F k' s B S').
Proof.
  destruct S as [c R a]. intros [M Hv] Hroom Hok. unfold vfs_room in Hroom. simpl in *.
  destruct x as [path fl|p|path|path|path|t path|p1 p2|p1 p2|path u|path| |u|nm| | |nm|]; simpl in *; rewrite wps_bind.
  - eapply wps_mono; [apply (v_open _ _ _ _ _ _ _ _ path fl Hv); [lia|done]|]. intros [e p] k' (o & a' & Ho & Hv'). wps_step.
    eexists. split; [by apply vs_open|]. by exists M.
  - destruct Hok as (f & o & Hin). apply elem_of_Permutation in Hin as [R' HR]. eapply (vst_perm F s B _ _ _ _ _ _ _ _ Hv) in HR as Hv0.
    eapply wps_mono; [exact (v_close _ _ _ _ _ _ _ _ _ _ _ Hv0)|]. intros [] k' (a' & Hv' & Hd). wps_step.
    eexists. split; [by eapply vs_close|]. by exists M.
  - eapply wps_mono; [apply (v_at_parent F s B _ (λ held d nm, DRemove d nm held) (λ k, l_remove k s) k c R M a path Hv); [lia|done]|].
    intros e k' (a' & Ha & Hv'). wps_step. eexists. split; [by apply vs_remove|]. by exists M.
  - eapply wps_mono; [apply (v_at_parent F s B _ (λ _, DMkdir) (λ k X R M a r nm h1 h2 h3 h4 h5 _, l_mkdir k s X R M a r nm h1 h2 h3 h4 h5) k c R M a path Hv); [lia|done]|].
    intros e k' (a' & Ha & Hv'). wps_step. eexists. split; [by apply vs_mkdir|]. by exists M.
  - eapply wps_mono; [apply (v_at_parent F s B _ (λ _, DRmdir) (λ k X R M a r nm h1 h2 h3 h4 h5 _, l_rmdir k s X R M a r nm h1 h2 h3 h4 h5) k c R M a path Hv); [lia|done]|].
    intros e k' (a' & Ha & Hv'). wps_step. eexists. split; [by apply vs_rmdir|]. by exists M.
  - eapply wps_mono; [apply (v_at_parent F s B _ (λ _ d nm, DSymlink d nm t)
      (λ k X R M a r nm h1 h2 h3 h4 h5 _, l_symlink k s X R M a r nm t h1 h2 h3 h4 h5) k c R M a path Hv); [lia|done]|].
    intros e k' (a' & Ha & Hv'). wps_step. eexists. split; [by apply vs_symlink|]. by exists M.
  - destruct Hok as [H1' H2']. eapply wps_mono; [apply (v_rename _ _ _ _ _ _ _ _ p1 p2 Hv); [lia|done|done]|].
    intros e k' (a' & Ha & Hv'). wps_step. eexists. split; [by apply vs_rename|]. by exists M.
  - destruct Hok as (H1' & H2' & H3'). eapply wps_mono; [apply (v_link _ _ _ _ _ _ _ _ p1 p2 Hv); [lia|done|done|done]|].
    intros e k' (a' & Ha & Hv'). wps_step. eexists. split; [by apply vs_link|]. by exists M.
  - eapply wps_mono; [apply (v_readlink _ _ _ _ _ _ _ _ path u Hv); [lia|done]|].
    intros [e u'] k' (a' & Ha & Hv'). wps_step. eexists. split; [by apply vs_readlink|]. by exists M.
  - eapply wps_mono; [apply (v_chdir _ _ _ _ _ _ _ _ path Hv); [lia|done]|].
    intros e k' (c' & a' & Ha & Hv'). wps_step. eexists. split; [by apply vs_chdir|]. by exists M.
  - eapply wps_mono; [exact (v_clearcurdir _ _ _ _ _ _ _ _ Hv)|]. intros e k' [-> Hv']. wps_step. eexists. split; [apply vs_clearcurdir|]. by exists M.
  - destruct Hok as (Hu & Hrw & Hn). eapply wps_mono; [apply (v_getcwd _ _ _ U _ _ _ _ _ u Hv); [lia|done|done|done]|].
    intros [e u'] k' (Ha & Hv'). wps_step. eexists. split; [by apply vs_getcwd|]. by exists M.
  - eapply wps_mono; [apply (v_setbootfs _ _ _ _ _ _ _ _ nm Hv); [lia|done]|].
    intros e k' (c' & a' & Ha & Hv'). wps_step. eexists. split; [by apply vs_setbootfs|]. by exists M.
  - eapply wps_mono; [exact (v_clearbootfs _ _ _ _ _ _ _ _ Hv)|]. intros [] k' Hv'. wps_step. eexists. split; [apply vs_clearbootfs|]. by exists M.
  - eapply wps_mono; [exact (v_sync _ _ _ _ _ _ _ _ _ Hv)|]. intros e k' [-> Hv']. wps_step. eexists. split; [apply vs_sync|]. by exists M.
  - eapply wps_mono; [exact (v_unmount _ _ _ _ _ _ _ _ _ nm Hv)|]. intros e k' (c' & M' & a' & Ha & Hv'). wps_step.
    eexists. split; [by apply vs_unmount|]. by exists M'.
  - eapply wps_mono; [exact (v_unmountall _ _ _ _ _ _ _ _ _ Hv)|]. intros e k' (-> & c' & M' & a' & Ha & Hv'). wps_step.
    eexists. split; [by apply (vs_unmountall c R a c' a')|]. by exists M'.
Qed.

(** ** Programs *)

Inductive vclient := VStop | VCall (x : vcmd) (next : vans → vclient).

Fixpoint run_vclient (p : vclient) : stm (kst H (vfs E)) (list vans) :=
  match p with
  | VStop => mret []
  | VCall x next => r ← run_vcmd x; rs ← run_vclient (next r); mret (r :: rs)
  end.

Inductive vruns : vstate → vclient → list vans → vstate → Prop :=
  | vr_stop S : vruns S VStop [] S
  | vr_call S x next r S1 rs S2 : vspec S x r S1 → vruns S1 (next r) rs S2 → vruns S (VCall x next) (r :: rs) S2.

Inductive vbehaves : vstate → vclient → Prop :=
  | vb_stop S : vbehaves S VStop
  | vb_call S x next : vfs_room S → vcmd_ok S x → (∀ r S', vspec S x r S' → vbehaves S' (next r)) → vbehaves S (VCall x next).

Lemma vclient_refines F k s B S p :
  in_state F k s B S → vbehaves S p → wps (run_vclient p) k (λ rs k', ∃ S', vruns S p rs S' ∧ in_state F k' s B S').
Proof.
  intros HS Hb. revert k HS. induction Hb as [S|S x next HA Hok _ IH]; intros k HS; simpl.
  - wps_step. exists S. split; [constructor|done].
  - rewrite wps_bind. eapply wps_mono; [by apply vcmd_refines|]. intros r k1 (S1 & Hs & HS1).
    rewrite wps_bind. eapply wps_mono; [by apply (IH r S1 Hs)|]. intros rs k2 (S2 & Hr & HS2). wps_step.
    exists S2. split; [by econstructor|done].
Qed.
End client.

(** * SFS and the devices keep the laws of the layer above

    [VnodesLaws] for one volume and the devices: with it, the theorems about path names hold of
    the code of kern/fs/vfs, kern/fs/sfs and device.c together. *)

From S2P Require Import Prelude StateM Heap KArray KBitmap Coremap KState Thread ThreadSpec ThreadHeap Synch SynchSpec Owned.
From S2P Require Import ProcSpec Uio SfsDisk Sfs SfsBytes SfsSpec SfsIo SfsDirs SfsTrunc SfsVolume SfsTree SfsNode SfsNodeSpec.
From S2P Require Import SfsTree SfsNodeSpec SfsRep SfsLife SfsView SfsSync SfsOps SfsHeld SfsClient Vfs Device VfsLaws VfsSpec VfsSys VfsSysFs.

Section laws.
Context {H D : Type} `{KHeapLaws H}.
Variables (U : usermem) (fsp root : Z).
Hypothesis Hmax : 600 < kh_max.
Implicit Types (k : kst H (sys D)) (R : list vref) (M : gset Z) (a : sysv) (X : outer).
Abbreviation inv := (sysinv fsp root).

Lemma sys_by {A} k s X R M a r (dev : stm (kst H (sys D)) A) fs Φ :
  inv k s X R M a → r ∈ R →
  (∀ S V v, sysrep fsp root S V k s X R M a → r_fs r = NULL → r_obj r = r_ptr r → y_vn (k_env k) !! r_ptr r = Some v → wps dev k Φ) →
  (∀ S V, sysrep fsp root S V k s X R M a → r_fs r ≠ NULL → wps fs (down k) (λ x (k1 : kst H sfs_fs), Φ x (back k k1))) →
  wps (by_ops (r_ptr r) dev fs) k Φ.
Proof.
  intros (S & V & Hy) Hr Hdev Hfs. destruct (decide (r_fs r = NULL)) as [Hf|Hf].
  - destruct (ref_dev _ _ _ _ _ _ _ _ _ _ _ Hy Hr Hf) as (Ho & v & Hv & _). eapply by_ops_dev; [exact Hv|]. by eapply Hdev.
  - eapply fs_call; [exact Hy|done|done|]. by eapply Hfs.
Qed.

(** An operation on the vnode of a device that fails. *)
Lemma dev_fails {A} S V k s X R M a p v (x : A) Φ :
  sysrep fsp root S V k s X R M a → y_vn (k_env k) !! p = Some v → Φ x k → wps (dvop p (mret x)) k Φ.
Proof. intros Hy Hv HΦ. eapply dvop_ok; [exact Hy|exact Hv|]. by wps_step. Qed.

Lemma law_base k s X R M a : inv k s X R M a →
  srep k s ∧ k_inint k = 0 ∧ k_locks k !! NULL = None ∧ owned (k_heap k) X ∧
  (∀ t th, t ∈ s_sleep s → k_threads k !! t = Some th → t_sleepaddr th ∈ o_blocks X) ∧
  k_threads k = o_threads X ∧ (∀ b, b ∈ o_blocks X → k_locks k !! b = o_locks X !! b) ∧ NULL ∉ M.
Proof using Hmax.
  intros (S & V & Hy). destruct (sys_base _ _ _ _ _ _ _ _ _ _ Hy) as (H1' & H2' & H3' & H4' & H5').
  destruct (sy_fsp _ _ _ _ _ _ _ _ _ _ Hy) as [-> Hne]. split_and!; try done; [by apply owned_app_r in H4'|apply Hy|apply Hy|set_solver].
Qed.

Lemma law_incref k s X R M a r : inv k s X R M a → r ∈ R → zlen R < smax (H := H) →
  wps (by_ops (r_ptr r) (dv_incref (r_ptr r)) (vnode_incref (r_ptr r))) k
    (λ _ k', inv k' s X (Ref (r_ptr r) (r_fs r) (r_obj r) false :: R) M a).
Proof using Hmax U.
  intros Hi Hr Hl. apply (sys_by _ _ _ _ _ _ _ _ _ _ Hi Hr).
  - intros S V v Hy Hf Ho Hv. eapply wps_mono; [eapply dev_incref; [exact Hy|done|done|unfold smax in Hl; lia]|]. intros [] k' Hy'. by exists S, V.
  - intros S V Hy Hf. by eapply (fs_incref U).
Qed.

Lemma law_decref k s X R M a p f o : inv k s X (Ref p f o false :: R) M a →
  wps (by_ops p (dv_decref p) (vnode_decref U p)) k (λ _ k', ∃ a', inv k' s X R M a' ∧ sdrops fsp a (r_oid <$> R) (f, o) a').
Proof using Hmax.
  intros Hi. apply (sys_by _ _ _ _ _ _ (Ref p f o false) _ _ _ Hi); [by left|..].
  - intros S V v Hy Hf Ho Hv. simpl in Hf, Ho. subst f o. eapply wps_mono; [eapply dev_decref; exact Hy|]. intros [] k' Hy'.
    exists a. split; [by exists S, V|]. apply sd_keeps. left. by left.
  - intros S V Hy Hf. by eapply fs_decref.
Qed.

Lemma law_incopen k s X R M a p f o : inv k s X (Ref p f o false :: R) M a → zlen R < smax (H := H) →
  wps (by_ops p (dv_incopen p) (vnode_incopen p)) k (λ _ k', inv k' s X (Ref p f o true :: R) M a).
Proof using Hmax.
  intros Hi Hl. apply (sys_by _ _ _ _ _ _ (Ref p f o false) _ _ _ Hi); [by left|..].
  - intros S V v Hy Hf Ho Hv. simpl in Hf, Ho. subst f o.
    eapply wps_mono; [eapply dev_incopen; [exact Hy|unfold smax in Hl; lia]|]. intros [] k' Hy'. by exists S, V.
  - intros S V Hy Hf. by eapply fs_incopen.
Qed.

Lemma law_decopen k s X R M a p f o : inv k s X (Ref p f o true :: R) M a →
  wps (by_ops p (dv_decopen p) (vnode_decopen U p)) k (λ _ k', inv k' s X (Ref p f o false :: R) M a).
Proof using Hmax.
  intros Hi. apply (sys_by _ _ _ _ _ _ (Ref p f o true) _ _ _ Hi); [by left|..].
  - intros S V v Hy Hf Ho Hv. simpl in Hf, Ho. subst f o. eapply wps_mono; [eapply dev_decopen; exact Hy|]. intros [] k' Hy'. by exists S, V.
  - intros S V Hy Hf. by eapply fs_decopen.
Qed.

Lemma law_open k s X R M a r flags : inv k s X R M a → r ∈ R →
  wps (by_ops (r_ptr r) (dvop (r_ptr r) (dev_open (r_ptr r) flags)) (VOP_ (r_ptr r) (VOP_OPEN (r_ptr r) flags))) k
    (λ e k', inv k' s X R M a ∧ sopens a (r_oid r) flags e).
Proof using Hmax.
  intros Hi Hr. apply (sys_by _ _ _ _ _ _ _ _ _ _ Hi Hr).
  - intros S V v Hy Hf Ho Hv. eapply dvop_ok; [exact Hy|exact Hv|]. unfold dev_open. rewrite wps_bind.
    eapply data_ok; [exact Hy|exact Hv|]. intros d Hd. unfold sopens. simpl. rewrite Hf, Z.eqb_refl.
    destruct (Z.land flags _ =? 0) eqn:E; cbn [negb].
    + eapply wps_mono; [apply (on_hw_ok _ _ _ _ _ _ _ _ _ _ _ (λ _, True) Hy), tm_open, Hd|]. intros e k' [_ Hy']. split; [by exists S, V|]. lia.
    + wps_step. split; [by exists S, V|done].
  - intros S V Hy Hf. by eapply fs_open.
Qed.

Lemma law_gettype k s X R M a r : inv k s X R M a → r ∈ R →
  wps (by_ops (r_ptr r) (dvop (r_ptr r) (dev_gettype (r_ptr r))) (VOP_ (r_ptr r) (VOP_GETTYPE (r_ptr r)))) k
    (λ '(e, t) k', inv k' s X R M a ∧ skind a (r_oid r) e t).
Proof using Hmax.
  intros Hi Hr. apply (sys_by _ _ _ _ _ _ _ _ _ _ Hi Hr).
  - intros S V v Hy Hf Ho Hv. eapply dvop_ok; [exact Hy|exact Hv|]. unfold dev_gettype. rewrite wps_bind.
    eapply data_ok; [exact Hy|exact Hv|]. intros d Hd. wps_step. split; [by exists S, V|]. split; [done|]. simpl. rewrite Hf, Z.eqb_refl.
    destruct (d_blocks d >? 0); [by left|by right].
  - intros S V Hy Hf. eapply wps_mono; [by eapply fs_gettype|]. by intros [e t] k1 Hx.
Qed.

Lemma law_truncate k s X R M a r : inv k s X R M a → r ∈ R →
  wps (by_ops (r_ptr r) (dvop (r_ptr r) (dev_truncate (r_ptr r) 0)) (VOP_ (r_ptr r) (VOP_TRUNCATE U (r_ptr r) 0))) k
    (λ e k', ∃ a', inv k' s X R M a' ∧ sdoes fsp a (DTruncate (r_oid r) 0) e a').
Proof using Hmax.
  intros Hi Hr. apply (sys_by _ _ _ _ _ _ _ _ _ _ Hi Hr).
  - intros S V v Hy Hf Ho Hv. eapply dvop_ok; [exact Hy|exact Hv|]. unfold dev_truncate. rewrite wps_bind.
    eapply data_ok; [exact Hy|exact Hv|]. intros d Hd. wps_step. exists a. split; [by exists S, V|]. apply sx_cut_dev; [done|].
    destruct (_ && _); [by left|by right].
  - intros S V Hy Hf. by eapply fs_truncate.
Qed.

Lemma law_readlink k s X R M a r u : inv k s X R M a → r ∈ R →
  wps (by_ops (r_ptr r) (dvop (r_ptr r) (null_io (r_ptr r) u)) (VOP_ (r_ptr r) (VOP_READLINK (r_ptr r) u))) k (λ _ k', inv k' s X R M a).
Proof using Hmax.
  intros Hi Hr. apply (sys_by _ _ _ _ _ _ _ _ _ _ Hi Hr).
  - intros S V v Hy Hf Ho Hv. eapply dev_fails; [exact Hy|exact Hv|]. by exists S, V.
  - intros S V Hy Hf. by eapply fs_readlink.
Qed.

Lemma law_namefile k s X R M a r u : inv k s X R M a → r ∈ R → r_fs r ≠ NULL → slasting (r_oid r) →
  wps (by_ops (r_ptr r) (dvop (r_ptr r) (dev_namefile (r_ptr r) u)) (VOP_ (r_ptr r) (VOP_NAMEFILE (r_ptr r) u))) k
    (λ '(e, u') k', inv k' s X R M a ∧ e = 0 ∧ u' = u).
Proof using Hmax.
  intros Hi Hr Hf Hl. apply (sys_by _ _ _ _ _ _ _ _ _ _ Hi Hr); [by intros|].
  intros S V Hy _. eapply wps_mono; [by eapply fs_namefile|]. by intros [e u'] k1 Hx.
Qed.

Lemma law_lookup k s X R M a r path : inv k s X R M a → r ∈ R → slasting (r_oid r) → zlen R < smax (H := H) →
  wps (by_ops (r_ptr r) (dvop (r_ptr r) (dev_lookup (r_ptr r) path)) (VOP_LOOKUP U (r_ptr r) path)) k
    (λ '(e, q) k', ∃ o, inv k' s X (got e q (r_fs r) o R) M a ∧ sfinds a (r_oid r) path e o).
Proof using Hmax.
  intros Hi Hr Hl Hlen. apply (sys_by _ _ _ _ _ _ _ _ _ _ Hi Hr).
  - intros S V v Hy Hf Ho Hv. eapply dvop_ok; [exact Hy|exact Hv|]. unfold dev_lookup. destruct (zlen path >? 0) eqn:E.
    + wps_step. exists 0. split; [by exists S, V|]. apply sf_dev; [done|]. by intros ->.
    + rewrite wps_bind. eapply wps_mono; [eapply dev_incref; [exact Hy|done|done|unfold smax in Hlen; lia]|]. intros [] k' Hy'.
      wps_step. exists (r_obj r). unfold got. cbn. split; [by exists S, V|]. apply (sf_self a (r_oid r)); [done|].
      destruct path; [done|]. simpl in E. lia.
  - intros S V Hy Hf. eapply wps_mono; [by eapply fs_lookup|]. by intros [e q] k1 Hx.
Qed.

Lemma law_lookparent k s X R M a r path len : inv k s X R M a → r ∈ R → slasting (r_oid r) → zlen R < smax (H := H) →
  wps (by_ops (r_ptr r) (dvop (r_ptr r) (dev_lookparent (r_ptr r) path len)) (VOP_LOOKPARENT (r_ptr r) path len)) k
    (λ '(e, q, nm) k', ∃ o, inv k' s X (got e q (r_fs r) o R) M a ∧ sparent a (r_oid r) path len e o nm).
Proof using Hmax U.
  intros Hi Hr Hl Hlen. apply (sys_by _ _ _ _ _ _ _ _ _ _ Hi Hr).
  - intros S V v Hy Hf Ho Hv. eapply dev_fails; [exact Hy|exact Hv|]. exists 0. split; [by exists S, V|]. by apply sp_dev.
  - intros S V Hy Hf. eapply wps_mono; [by eapply (fs_lookparent U)|]. by intros [[e q] nm] k1 Hx.
Qed.

(** The operations that only a volume has. *)
Lemma sys_vol {A} k s X R M a r (dev : stm (kst H (sys D)) A) fs Φ :
  inv k s X R M a → r ∈ R → r_fs r ≠ NULL →
  (∀ S V, sysrep fsp root S V k s X R M a → wps fs (down k) (λ x (k1 : kst H sfs_fs), Φ x (back k k1))) →
  wps (by_ops (r_ptr r) dev fs) k Φ.
Proof. intros (S & V & Hy) Hr Hf Hfs. eapply fs_call; [exact Hy|done|done|]. by eapply Hfs. Qed.

Lemma law_rename k s X R M a r n1 r2 n2 dev : inv k s X R M a → r ∈ R → r_fs r ≠ NULL → slasting (r_oid r) → zlen R < smax (H := H) →
  r2 ∈ R → r_fs r2 = r_fs r → slasting (r_oid r2) → nozero n2 →
  wps (by_ops (r_ptr r) dev (VOP_RENAME U (r_ptr r) n1 (r_ptr r2) n2)) k
    (λ e k', ∃ a', inv k' s X R M a' ∧ sdoes fsp a (DRename (r_oid r) n1 (r_oid r2) n2) e a').
Proof using Hmax.
  intros Hi Hr Hf Hl Hlen Hr2 Hf2 Hl2 Hnz. apply (sys_vol _ _ _ _ _ _ _ _ _ _ Hi Hr Hf). intros S V Hy.
  destruct (root_ref fsp root _ _ _ _ _ _ _ _ Hy r Hr Hf Hl) as (Hp & Hfs & Ho).
  destruct (root_ref fsp root _ _ _ _ _ _ _ _ Hy r2 Hr2 ltac:(congruence) Hl2) as (Hp2 & _ & Ho2).
  replace (r_oid r2) with (r_oid r) by (unfold r_oid; congruence). replace (r_ptr r2) with (r_ptr r) by congruence. by eapply fs_rename.
Qed.

Lemma sys_on {A} k s X R M a f (m : stm (kst H sfs_fs) A) Φ :
  inv k s X R M a → f ∈ M →
  (∀ S V, sysrep fsp root S V k s X R M a → f = fsp → wps m (down k) (λ x (k1 : kst H sfs_fs), Φ x (back k k1))) →
  wps (on_fs fsp f m) k Φ.
Proof.
  intros (S & V & Hy) HfM Hm. destruct (sy_fsp _ _ _ _ _ _ _ _ _ _ Hy) as [HM _]. assert (f = fsp) as Hf by (rewrite HM in HfM; by apply elem_of_singleton in HfM).
  unfold on_fs. rewrite Hf, Z.eqb_refl. pose proof (Hm S V Hy Hf) as Hw. unfold wps, fsm in *. by destruct (m (down k)) as [[x k1]|].
Qed.

Lemma law_create k s X R M a dev : inv k s X R M a → dev ∈ sy_drv a →
  wpf (¬ kh_room 3 (k_heap k)) (dev_create_vnode_ dev) k (λ p k',
    ((p = NULL ∧ inv k' s X R M a) ∨ (p ≠ NULL ∧ p ∉ r_ptr <$> R ∧ inv k' s X (Ref p NULL p false :: R) M a)) ∧
    rooms 3 (k_heap k) (p ≠ NULL) (k_heap k')).
Proof using Hmax.
  intros (S & V & Hy) Hd. eapply wpf_mono; [eapply dev_create; [exact Hy|done|lia]|].
  intros p k' [[[-> Hy']|(Hp & Hin & Hy')] Hr]; (split; [|exact Hr]); [left|right]; (split; [done|]); [by exists S, V|].
  split; [done|]. by exists S, V.
Qed.

Lemma law_free k s X R M a p : inv k s X (Ref p NULL p false :: R) M a → p ∉ r_ptr <$> R →
  wps (_ ← kfree_ p; upd_sys (λ e, set_yvn (delete p (y_vn e)) e)) k (λ _ k', inv k' s X R M a).
Proof using Hmax.
  intros (S & V & Hy) Hp. eapply wps_mono; [by eapply dev_free|]. intros [] k' Hy'. by exists S, V.
Qed.

#[local] Instance vns : Vnodes H (sys D) := sys_vnodes U fsp.

#[refine] Definition sys_laws : VnodesLaws H (sys D) := {|
  fsys := sysv;
  volname a _ := Some (sy_vol a);
  rootof _ _ := SFS_ROOT_LOCATION;
  lasting := slasting;
  finds := sfinds;
  parent := sparent;
  creates a _ := screates a;
  does := sdoes fsp;
  drops := sdrops fsp;
  opens := sopens;
  kind := skind;
  names _ _ u e u' := e = 0 ∧ u' = u;
  driver a dev := dev ∈ sy_drv a;
  ejects _ _ _ := False;
  vmax := smax (H := H);
  vinv := inv;
|}.
Proof using Hmax root.
  - apply law_base.
  - intros k s X R M a B (S & V & Hy) HB. exists S, V. by apply sys_here with X.
  - intros k s X R R' M a (S & V & Hy) HR. exists S, V. by apply sys_perm with R.
  - intros k s A A' B R M a h (S & V & Hy) ?????. exists S, V. by apply sys_heap with A.
  - intros k s B R M a L (S & V & Hy) ??. exists S, V. by apply sys_locks.
  - intros k s B R M a th p (S & V & Hy) Hth. exists S, V. by apply sys_cwd.
  - intros k s X R M a r (S & V & Hy) Hr. by eapply sys_ref.
  - apply law_incref.
  - apply law_decref.
  - apply law_incopen.
  - apply law_decopen.
  - intros k s X R M a r Hi Hr. apply (sys_by _ _ _ _ _ _ _ _ _ _ Hi Hr).
    + intros S V v Hy Hf Ho Hv. wps_step. done.
    + intros S V Hy Hf. wps_step. split; [|exact (back_down k)]. symmetry. by eapply ref_fs.
  - intros a R o a' Hl Hd. by inversion Hd.
  - apply law_open.
  - apply law_gettype.
  - intros a f o t [_ Ht] Hd. simpl in Ht. destruct (f =? NULL) eqn:E; [by destruct Ht; subst|]. split; [lia|]. right. simpl.
    destruct (o =? SFS_ROOT_LOCATION) eqn:E2; [lia|by subst].
  - apply law_truncate.
  - apply law_readlink.
  - apply law_namefile.
  - intros k s X R M a r path Hi Hr Hl _. by apply law_lookup.
  - intros k s X R M a r path len Hi Hr Hl _. by apply law_lookparent.
  - intros a f o path len o' nm Hp. inversion Hp; subst. split; [done|]. split; [by right|done].
  - intros k s X R M a r nm excl Hi Hr Hf Hl Hnz Hlen. apply (sys_vol _ _ _ _ _ _ _ _ _ _ Hi Hr Hf). intros S V Hy.
    eapply wps_mono; [by eapply fs_creat|]. by intros [e q] k1 Hx.
  - intros k s X R M a r nm Hi Hr Hf Hl Hnz Hlen. apply (sys_vol _ _ _ _ _ _ _ _ _ _ Hi Hr Hf). intros S V Hy. by eapply fs_remove.
  - intros k s X R M a r nm Hi Hr Hf Hl Hnz. apply (sys_vol _ _ _ _ _ _ _ _ _ _ Hi Hr Hf). intros S V Hy.
    eapply fs_nodir; try done. constructor.
  - intros k s X R M a r nm Hi Hr Hf Hl Hnz. apply (sys_vol _ _ _ _ _ _ _ _ _ _ Hi Hr Hf). intros S V Hy.
    eapply fs_nodir; try done. constructor.
  - intros k s X R M a r nm t Hi Hr Hf Hl Hnz. apply (sys_vol _ _ _ _ _ _ _ _ _ _ Hi Hr Hf). intros S V Hy.
    eapply fs_nodir; try done. constructor.
  - intros k s X R M a r nm r2 Hi Hr Hf Hl Hnz Hlen Hr2 Hf2 Hl2. apply (sys_vol _ _ _ _ _ _ _ _ _ _ Hi Hr Hf). intros S V Hy. by eapply fs_link.
  - intros k s X R M a r n1 r2 n2 Hi Hr Hf Hl _ Hlen Hr2 Hf2 Hl2 Hnz. by apply law_rename.
  - intros k s X R M a f Hi Hf. apply (sys_on _ _ _ _ _ _ _ _ _ Hi Hf). intros S V Hy _. by eapply fs_sync_ok.
  - intros k s X R M a f Hi Hf. apply (sys_on _ _ _ _ _ _ _ _ _ Hi Hf). intros S V Hy _. by eapply fs_volname_ok.
  - intros k s X R M a f Hi Hf Hlen. apply (sys_on _ _ _ _ _ _ _ _ _ Hi Hf). intros S V Hy ->. by eapply fs_getroot.
  - intros. by right.
  - intros k s X R M a f Hi Hf. apply (sys_on _ _ _ _ _ _ _ _ _ Hi Hf). intros S V Hy _.
    eapply wps_mono; [by eapply fs_unmount_ok|]. intros e k1 Hx. by left.
  - intros p. by left.
  - intros k s X R M a dev Hi Hd _. by apply law_create.
  - intros k s X R M a p. apply law_free.
Defined.
End laws.

(** * The virtual file system layer on SFS and the devices: theorems

    Clients of path names run on the code of kern/fs/vfs, kern/fs/sfs and the devices together;
    [Booted] is a kernel with the null device and a disk on which a volume is mounted. *)

From S2P Require Import Prelude StateM Heap KArray KQueue KBitmap Coremap KState Thread ThreadSpec ThreadHeap Synch SynchSpec Owned.
From S2P Require Import ProcSpec Uio SfsDisk Sfs SfsBytes SfsSpec SfsIo SfsDirs SfsTrunc SfsVolume SfsTree SfsNode SfsNodeSpec.
From S2P Require Import SfsTree SfsNodeSpec SfsRep SfsLife SfsView SfsSync SfsOps SfsHeld SfsClient SfsThm.
From S2P Require Import Vfs Device VfsLaws VfsSpec VfsOps VfsDevs VfsSys VfsSysFs.

(** ** A kernel *)

Module Booted.
Import Volume Mounted.

Definition lhd0 : list Z := [108; 104; 100; 48].
Definition kd1 : knowndev := Knowndev (KStr 630 null) None 650 640 NULL.
Definition kd2 : knowndev := Knowndev (KStr 631 lhd0) (Some (KStr 632 (lhd0 ++ raw))) 651 645 9.

(** A device of sixteen blocks for the disk; the transfers of the volume do not go through this table. *)
Definition disk_dev : device unit := Dev (λ _, mret 0) (mret 0) (λ u, mret (EUNIMP, u)) (λ _ _, mret EINVAL) 16 512.
Definition devs1 : gmap Z (device unit) := {[650 := null_dev; 651 := disk_dev]}.
Definition vns1 : gmap Z dvnode := {[640 := DVnode 1 0 641 650; 645 := DVnode 1 0 646 651]}.
Definition vfs1 : vfs (sys unit) :=
  Vfs (Some (Array 600 2 8 601 (Some 620 :: Some 621 :: replicate 6 None))) 610 NULL 612 {[620 := kd1; 621 := kd2]}
    (Sys fs1 vns1 devs1 tt).

Definition fix1 : fixture :=
  Fixture (Array 600 2 8 601 (Some 620 :: Some 621 :: replicate 6 None)) 610 612 [610; 611; 612; 613; 620; 621; 630; 631; 632; 650; 651].
Definition dvblocks : list Z := [640; 641; 642; 645; 646; 647].
Definition locks1 : gmap Z lock :=
  {[501 := Lock 502 1; 610 := Lock 611 1; 612 := Lock 613 1; 641 := Lock 642 1; 646 := Lock 647 1]}.
Definition kernel : kst refheap (vfs (sys unit)) :=
  KST (RefHeap 40 1000 (list_to_set ([500; 501; 502; 510; 511] ++ dvblocks ++ mine fix1 blocks))) {[100 := thread1]} 100
    (Some (Array 400 0 8 401 (replicate 8 None))) (Some (Array 410 0 8 411 (replicate 8 None)))
    (Some (Queue 420 8 0 0 421 (replicate 8 None)))
    1 0 0 0 0 (replicate 64 (0, 0)) ∅ locks1 ∅ ∅ None (0, 0) vfs1.

Definition cfg1 : vcfg := Cfg [(620, kd1); (621, kd2)] None None.
Definition held1 : sysv := SysV (a_names afs1) (v_files (view_of afs1)) [] {[650; 651]}.
Lemma enough : 600 < kh_max (H := refheap).
Proof. done. Qed.
#[local] Instance vnodes1 : Vnodes refheap (sys unit) := sys_vnodes noumem 9.
#[local] Instance laws1 : VnodesLaws refheap (sys unit) := sys_laws noumem 9 500 enough.
Definition state1 : vstate := VState cfg1 [] held1.
Abbreviation below1 := (below kernel).
Definition around : outside := fsview 9 (sfs_super_ fs1) below1 (here kernel (mine fix1 blocks)) (own cfg1).

Lemma srep2 : srep (down below1) sched1.
Proof. destruct srep1. by constructor. Qed.

Lemma nodes2 : nodes (down below1) sched1 [(500, vroot1)] around.
Proof.
  constructor; try done.
  - apply srep2.
  - intros p sv [[= -> ->]|[]%elem_of_nil]%elem_of_cons. by exists 502.
  - split; [|split].
    + split; [done|]. split; [done|]. intros b Hb%elem_of_list_to_set. revert b Hb. apply Forall_forall. by apply (bool_decide_unpack _).
    + by apply (bool_decide_unpack _).
    + intros b Hb. apply elem_of_list_to_set. revert b Hb. apply Forall_forall. by apply (bool_decide_unpack _).
  - intros t th Ht. by apply elem_of_nil in Ht.
Qed.

Lemma rep2 : rep 500 (down below1) sched1 around afs1 [(500, vroot1)] [(3, file_inode)] [2].
Proof.
  destruct rep1 as [[_ ? ? ?] ? ? ? ? ?]. constructor; [constructor; [apply nodes2|done| |done]|done..].
  intros p sv [[= -> ->]|[]%elem_of_nil]%elem_of_cons. split_and!; done.
Qed.

Lemma sysrep1 : sysrep 9 500 (sfs_super_ fs1) (view_of afs1) below1 sched1 (here kernel (mine fix1 blocks)) (own cfg1) {[9]} held1.
Proof.
  constructor; try done.
  - exists afs1. split; [|split; [apply consistent1|done]]. exists [(500, vroot1)], [(3, file_inode)], [2]. apply rep2.
  - intros p ino n. simpl. rewrite lookup_singleton_Some. by intros [<- [= <- <-]].
  - apply Forall_forall. change (own cfg1) with [kd_ref (620, kd1); kd_ref (621, kd2)].
    constructor; [|constructor; [|constructor]]; left; (split; [done|]); (split; [done|]); by eexists.
  - apply (map_Forall_lookup (λ p v, dev_ok below1 (own cfg1) p v)).
    apply map_Forall_insert_2; [|apply map_Forall_insert_2; [|apply map_Forall_empty]];
      (constructor; [by eexists|done|done|]); eexists; (split; [done|]); [apply null_tame|split; intros; by wps_step].
  - intros dev [Hd|Hd]%elem_of_union; apply elem_of_singleton in Hd; subst dev; eexists; (split; [done|]); [apply null_tame|split; intros; by wps_step].
  - intros t th Ht. by apply elem_of_nil in Ht.
Qed.

Lemma vst1 : vst fix1 kernel sched1 blocks cfg1 1 1 [] {[9]} held1.
Proof.
  constructor; try done.
  - intros p kd [[= -> ->]|[[= -> ->]|[]%elem_of_nil]%elem_of_cons]%elem_of_cons; done.
  - by apply (bool_decide_unpack _).
  - apply Forall_forall. by apply (bool_decide_unpack _).
  - intros p kd [[= -> ->]|[[= -> ->]|[]%elem_of_nil]%elem_of_cons]%elem_of_cons; (split; [|done]); [by left|right; by apply elem_of_singleton].
  - intros p kd p' kd' [[= -> ->]|[[= -> ->]|[]%elem_of_nil]%elem_of_cons]%elem_of_cons
      [[= -> ->]|[[= -> ->]|[]%elem_of_nil]%elem_of_cons]%elem_of_cons; done.
  - exists (sfs_super_ fs1), (view_of afs1). apply sysrep1.
  - by exists 611.
  - by exists 613.
  - split; [done|]. split; by apply (bool_decide_unpack _).
  - by exists thread1.
  - intros r [?|?]; done.
  - intros t th Ht. by apply elem_of_nil in Ht.
Qed.
End Booted.

(** ** Refinement *)

Section refinement.
Context {H D : Type} `{KHeapLaws H}.
Variables (U : usermem) (fsp root : Z).
Hypothesis Hmax : 600 < kh_max.
#[local] Instance sys_vns : Vnodes H (sys D) := sys_vnodes U fsp.
#[local] Instance sys_lws : VnodesLaws H (sys D) := sys_laws U fsp root Hmax.

(** C2: A program that calls the operations on path names, opening, closing, removing, renaming and
    linking files, changing and printing the current directory, setting the boot file system,
    syncing and unmounting, in any order and deciding by the answers, runs on the layer of path
    names, SFS and the devices together to its end without a panic, a failed assertion or a bad
    access.  Every answer and every change is one that the path names allow: a path means the
    object that its device, the boot file system or the current directory leads to, and the
    kernel ends with exactly the references that the program, the current directory and the boot
    file system stand for.  The volume is on a disk without media errors, and the kernel keeps one
    reference to its root directory besides, so that unmounting it is refused (what a successful
    [sfs_unmount] does is shown in SfsBootThm). *)
Theorem vfs_refines_paths F (k : kst H (vfs (sys D))) s B S p :
  in_state F k s B S → vbehaves U S p →
  wps (run_vclient U p) k (λ rs k', ∃ S', vruns S p rs S' ∧ in_state F k' s B S').
Proof using Type. apply vclient_refines. Qed.

(** C30: [vfs_adddev] answers 0 when the names of the device are free and the heap has room for seven
    requests, EEXIST only when a name is in use and ENOMEM only without that room, which is also
    the only case in which it panics (the vnode's lock).  After 0 the table of devices has exactly
    one more entry, for that device, and if no two devices shared a name before, none do now.
    Looking up the device's own name followed by a colon then gives the vnode of the entry; the own
    name of a device on which file systems can be mounted is the raw name, and looking up its
    plain name answers ENXIO until something is mounted.  After an error the table is as before. *)
Theorem added_device_is_found F (k : kst H (vfs (sys D))) s B c R M (a : sysv) nm mnt dev t :
  vst F k s B c 1 1 R M a → zlen nm + 20 < kh_max → zlen (c_kds c) < 2 ^ 27 → 8 * (zlen (c_kds c) + 1) < kh_max →
  zlen (own c ++ R) + 3 ≤ smax (H := H) → dev ∈ sy_drv a → dev ≠ NULL →
  t = own_name nm mnt ∨ t = nm → t ≠ [] → Forall (λ x, is_mark x = false) t → nozero t →
  let short := ¬ kh_room 7 (k_heap k) in let names := new_names nm mnt in
  wpf short (e ← vfs_adddev nm dev mnt; r ← vfs_lookup (t ++ [COLON]); mret (e, r)) k (λ '(e, (e2, q)) k',
    (e = 0 ∧ ¬ in_use a (c_kds c) names ∧ ∃ F' p kd, let c' := set_devs (c_kds c ++ [(p, kd)]) c in
      device_of nm mnt dev NULL kd ∧ (names_once a (c_kds c) → names_once a (c_kds c')) ∧
      if decide (t = own_name nm mnt) then e2 = 0 ∧ q = kd_vnode kd ∧ vst F' k' s B c' 1 1 (Ref q NULL q false :: R) M a
      else e2 = ENXIO ∧ vst F' k' s B c' 1 1 R M a) ∨
    (((e = EEXIST ∧ in_use a (c_kds c) names) ∨ (e = ENOMEM ∧ short)) ∧ ∃ F' R', vst F' k' s B c 1 1 R' M a)).
Proof using Type.
  intros Hv Hl Hlen H8 Hroom Hdrv Hdev Ht Hne Hmark Hnz short names.
  eapply wpf_mono; [apply (v_add_find s B F k c R M _ nm mnt dev t Hv); try done; lia|].
  intros [e [e2 q]] k' [(-> & Hno & F' & p & kd & Hof & Hres)|Hpost]; [left|by right]. split; [done|]. split; [done|]. exists F', p, kd. cbn zeta.
  split; [done|]. split.
  { intros Hnames. apply (names_once_add _ (c_kds c) (p, kd) Hnames). by rewrite (kd_texts_new _ _ _ _ _ Hof). }
  case_decide; [|done]. destruct Hres as [-> Hv']. split; [done|]. destruct (v_low _ _ _ _ _ _ _ _ _ _ Hv') as (S & V & Hy).
  destruct (ref_dev _ _ _ _ _ _ _ _ _ _ (Ref q NULL (kd_vnode kd) false) Hy) as [Ho _]; [apply elem_of_app; right; by left|done|].
  simpl in Ho. by rewrite <- Ho in *.
Qed.
End refinement.

Module BootedDemo.
Import Volume Mounted Booted.
#[local] Existing Instances vnodes1 laws1.

Definition v_code (r : vans) : Z := let 'VAns e _ _ := r in e.
Definition v_ptr (r : vans) : Z := let 'VAns _ p _ := r in p.

(** Go to the volume, make the file b, remove it by its full name while it is open, close it. *)
Definition demo : vclient :=
  VCall (VChdir (lhd0 ++ [COLON])) (λ _,
  VCall (VOpen [98] (Z.lor O_CREAT O_RDWR)) (λ r,
    if v_code r =? 0 then
      VCall (VRemove (lhd0 ++ [COLON; 98])) (λ _,
      VCall (VClose (v_ptr r)) (λ _, VStop))
    else VStop)).

Lemma chdir_inv S path r S' : vspec S (VChdir path) r S' →
  vs_refs S' = vs_refs S ∧ zlen (own (vs_cfg S')) ≤ zlen (own (vs_cfg S)) + 1.
Proof.
  inversion 1 as [| | | | | | | | |? ? ? ? ? ? ? Hc| | | | | | |]; subst. simpl. split; [done|].
  destruct Hc; try lia. unfold own. simpl. rewrite !length_app. simpl. destruct (c_cwd c); simpl; lia.
Qed.
Lemma open_inv S path fl r S' : vspec S (VOpen path fl) r S' →
  vs_cfg S' = vs_cfg S ∧ ∃ o, vs_refs S' = opened_refs (v_code r) (v_ptr r) o (vs_refs S).
Proof. inversion 1; subst. split; [done|by eexists]. Qed.
Lemma vremove_inv S path r S' : vspec S (VRemove path) r S' → vs_cfg S' = vs_cfg S ∧ vs_refs S' = vs_refs S.
Proof. inversion 1; subst. done. Qed.

Lemma demo_paths : nozero (lhd0 ++ [COLON]) ∧ nozero [98] ∧ nozero (lhd0 ++ [COLON; 98]).
Proof. split_and!; unfold nozero; refine (proj1 (Forall_forall (λ c, c ≠ 0) _) _); by apply (bool_decide_unpack _). Qed.

Lemma demo_behaves_well : vbehaves noumem state1 demo.
Proof.
  destruct demo_paths as (P1 & P2 & P3). apply vb_call; [done|exact P1|]. intros r1 S1 [Hr1 Hc1]%chdir_inv.
  assert (zlen (own (vs_cfg S1)) ≤ 3) as Hc by (change (zlen (own (vs_cfg state1))) with 2 in Hc1; lia).
  apply vb_call; [unfold vfs_room; rewrite Hr1, length_app; change (vmax) with (2 ^ 26); simpl; lia|exact P2|].
  intros r2 S2 (Hc2 & o & Hr2)%open_inv. destruct (v_code r2 =? 0) eqn:E; [|apply vb_stop].
  unfold opened_refs in Hr2. rewrite E, Hr1 in Hr2. simpl in Hr2.
  assert (∀ S, vs_cfg S = vs_cfg S2 → vs_refs S = vs_refs S2 → vfs_room S) as Hroom.
  { intros S HcS HrS. unfold vfs_room. rewrite HcS, HrS, Hc2, Hr2, length_app. change (vmax) with (2 ^ 26). simpl. lia. }
  apply vb_call; [by apply Hroom|exact P3|]. intros r3 S3 [Hc3 Hr3]%vremove_inv.
  apply vb_call; [by apply Hroom|rewrite Hr2 in Hr3; simpl; rewrite Hr3; eexists _, _; by left|]. intros r4 S4 _. apply vb_stop.
Qed.

Lemma vfs_refines_paths_witness :
  wps (run_vclient noumem demo) kernel (λ rs k', ∃ S', vruns state1 demo rs S' ∧ in_state fix1 k' sched1 blocks S').
Proof.
  apply (vfs_refines_paths noumem 9 500 enough fix1 kernel sched1 blocks state1 demo).
  - exists {[9]}. apply vst1.
  - apply demo_behaves_well.
Defined.

(** The answers of the run: every call succeeds, and the blocks of the file are free again. *)
Lemma demo_run_answers :
  match run_vclient noumem demo kernel with
  | Ok (rs, k') => v_code <$> rs = [0; 0; 0; 0] ∧ bm_v (sfs_freemap (y_fs (v_env (k_env k')))) = map1 ∧
                   dom (sfs_mem (y_fs (v_env (k_env k')))) = {[500]}
  | Fault _ => False
  end.
Proof. by vm_compute. Qed.

(** The name of a second device for the driver 650. *)
Definition con : list Z := [99; 111; 110].
Lemma con_free : ¬ in_use (held1 : fsys) (c_kds cfg1) (new_names con true).
Proof.
  intros (x & t & Hx & Ht & Hn). revert t Ht Hn.
  apply list_elem_of_In in Hx as [<-|[<-|[]]]; intros t Ht Hn; apply list_elem_of_In in Hn as [<-|[<-|[]]]; revert Ht;
    apply (bool_decide_unpack _); by vm_compute.
Qed.

Lemma con_path : nozero con ∧ nozero (con ++ raw).
Proof. split; unfold nozero; refine (proj1 (Forall_forall (λ c, c ≠ 0) _) _); by apply (bool_decide_unpack _). Qed.

(** The device con, on which file systems can be mounted: its raw name leads to it, its plain name nowhere. *)
Lemma added_device_is_found_witness :
  wps (e ← vfs_adddev con 650 true; r ← vfs_lookup ((con ++ raw) ++ [COLON]); mret (e, r)) kernel (λ '(e, (e2, q)) k',
    e = 0 ∧ e2 = 0 ∧ ∃ kd, device_of con true 650 NULL kd ∧ q = kd_vnode kd) ∧
  wps (e ← vfs_adddev con 650 true; r ← vfs_lookup (con ++ [COLON]); mret (e, r)) kernel (λ '(e, (e2, q)) k', e = 0 ∧ e2 = ENXIO).
Proof.
  assert (kh_room 7 (k_heap kernel)) as Hroom by (simpl; lia). destruct con_path as [Hn1 Hn2]. pose proof con_free as Hfree.
  split; (eapply wps_mono; [eapply wps_of_wpf; [eapply (added_device_is_found noumem 9 500 enough fix1 kernel sched1 blocks cfg1 [] {[9]} held1 con true 650 _ vst1)|];
    try done; [by left + by right|by repeat constructor|by intros Hno]|]).
  - intros [e [e2 q]] k' [(-> & _ & F' & p & kd & Hof & _ & Hres)|[[[_ Hu]|[_ Hno]] _]]; [|by destruct Hfree|by destruct Hno].
    rewrite decide_True in Hres by done. destruct Hres as (-> & -> & _). split_and!; [done|done|by exists kd].
  - intros [e [e2 q]] k' [(-> & _ & F' & p & kd & Hof & _ & Hres)|[[[_ Hu]|[_ Hno]] _]]; [|by destruct Hfree|by destruct Hno].
    rewrite decide_False in Hres by done. by destruct Hres as [-> _].
Defined.

Lemma added_device_answers :
  match (e ← vfs_adddev con 650 false; r ← vfs_lookup (con ++ [COLON]); mret (e, r)) kernel with
  | Ok ((e, (e2, q)), k') => e = 0 ∧ e2 = 0 ∧ dv_data <$> (y_vn (v_env (k_env k')) !! q) = Some 650
  | Fault _ => False
  end.
Proof. by vm_compute. Qed.
End BootedDemo.
